(* ===== verification/_CoqProject ===== *)
-Q . S2P
Prelude.v
Resume.v
Varint.v
OnDisk.v
RwLock.v
WalFormat.v
WalShared.v
WalRecovery.v
WalProg.v
WalTxn.v
WalLogic.v
WalSound.v
WalVerify.v
WalAppend.v
WalCkpt.v
WalIso.v
WalDemo.v
WalVacuum.v
WalOpen.v
SlotBitmap.v
Page.v
PageCache.v
BtreePage.v
BtreeSpace.v
BtreeCells.v
BtreeDefrag.v
BtreeInsert.v
BtreeRefine.v
BtreeRobust.v
BtreeFragments.v
BtreePayload.v
Freelist.v
Allocator.v
OverflowFree.v
OverflowCycle.v
BtreeBalance.v
BtreeDistribute.v
BtreeFree.v
BtreeBulk.v
BtreeEdit.v
BtreeSiblings.v
BtreeGather.v
BtreeRedist.v
BtreeBalanced.v
BtreeParent.v
BtreeDividers.v
BtreeRoot.v
BtreeNonRoot.v
BtreeOrder.v
BtreeQuick.v
BtreeCursor.v
BtreeWalk.v
BtreeScan.v
BtreeBack.v
