(* ===== verification/Prelude.v ===== *)
(** * Turso: verification of the storage layer

    Turso is a database engine that reads and writes SQLite files.  This
    library models the part of it that keeps data safe, the storage layer under
    core/storage, and proves what that layer promises: transactions are
    isolated and atomic, a log that a crash has cut is recovered to a committed
    state, locks exclude each other, the page cache never loses a page that has
    not been saved, a B-tree page keeps the cells put on it, free pages are
    handed out once, balancing keeps the records of a tree in order, and a cursor
    visits them in that order.

    ** The program and its parts

    A connection works on pages.  It finds them in the page cache
    (page_cache.rs), which keeps a bounded number of [Page]s (pager.rs) in
    buffers of an arena (slot_bitmap.rs).  Pages that a transaction changes are
    appended as frames to the write-ahead log (wal.rs); a commit publishes the
    frames, a checkpoint copies them to the database file, and opening a
    database rebuilds the state of the log from its file (sqlite3_ondisk.rs).
    Connections coordinate through read marks and locks that are single atomic
    words.  The contents of a page are cells in a B-tree (btree.rs).  Long
    records continue on overflow pages; pages that are not in use form the
    freelist, from which the pager allocates (pager.rs).  When a page becomes too
    full or too empty the cells are spread again over it and its neighbours and
    the parent page is updated, up to the root.

    ** Files

    - Prelude: outcomes of Rust functions ([Result] with the errors of
      [LimboError] and [Panic] for failed assertions, indices out of range and
      arithmetic that overflows), machine integers as [Z] with their wrap-around,
      byte buffers, big-endian conversions, and the lemmas, tactics and hints
      the other files share.
    - Varint: the variable-length integers of sqlite3_ondisk.rs.
    - OnDisk: page sizes, versions, encodings, page types, the database header
      and the WAL headers of sqlite3_ondisk.rs with their byte layout, and the
      functions of pager.rs, page_transform.rs and wal.rs that read or write the
      database header as a struct or at fixed offsets.
    - RwLock: [TursoRwLock] of wal.rs, as functions on its 64-bit word and as a
      step relation in which clients interleave between the accesses.
    - WalFormat: checksums, frames and the header of the log.
    - WalShared: [WalFileShared] of wal.rs, the frame cache and the snapshots.
    - WalRecovery: [BuildSharedWal] and [StreamingWalReader].
    - WalProg, WalTxn: [InProcessWalCoordination] and [WalFile] of wal.rs with
      the checkpoint phases of pager.rs, as programs of atomic accesses.
    - WalLogic, WalSound, WalVerify, WalAppend, WalCkpt: a rely-guarantee
      program logic for these programs, its soundness, and the calls verified
      in it.
    - WalIso, WalDemo, WalOpen: the system of connections, its theorems, small
      executions of it, and its start from a recovered log.  WalVacuum: a VACUUM
      that starts while a checkpoint gives up.
    - SlotBitmap: [AtomicSlotBitmap].
    - Page: the flag word, pin count, buffer and WAL tag of a page, and what the
      writing, spilling and checkpointing of a page does with them.
    - PageCache: [PageCache], with the raw pointers of its queue as addresses
      in an explicit heap.
    - BtreePage: the accessors of a page in pager.rs and the functions of
      btree.rs that manage the space of one page.
    - BtreeSpace, BtreeCells, BtreeDefrag, BtreeInsert: the space invariant of
      a page, the page as a list of cells, and each operation against it.
    - BtreeRefine, BtreeRobust, BtreeFragments: sequences of page operations,
      pages with arbitrary contents, and pages whose header claims fragmented bytes
      that are not there.
    - Resume: calls that return to wait for I/O and are called again.
    - BtreePayload: [read_btree_cell], [fill_cell_payload] and
      [process_overflow_read], a record over its overflow pages.
    - Freelist, Allocator: [allocate_page] and [free_page] of pager.rs with the
      trunk and leaf pages of the freelist, and the allocator they implement.
    - OverflowFree, OverflowCycle: [clear_overflow_pages] of btree.rs, on chains
      that end and on chains that come back to their first page.
    - BtreeBalance, BtreeDistribute, BtreeGather: the balancing of siblings in
      btree.rs.  The array of cells refers to the buffers that are being edited.
      BtreeDistribute proves the new distribution, BtreeFree, BtreeBulk and
      BtreeEdit the editing of one page, BtreeSiblings the order in which the
      pages are edited, BtreeRedist and BtreeBalanced the whole.
    - BtreeParent, BtreeDividers: the parent page in [balance_non_root]: the
      choice of the siblings, the dividers taken out, the pointers and the new
      dividers.
    - BtreeRoot, BtreeNonRoot, BtreeQuick: [balance_root], [balance_non_root] and
      [balance_quick] as a whole.  BtreeOrder states the records under a page.
    - BtreeCursor: [PageStack] and the cursor of btree.rs that moves over the
      records: [rewind], [next], [last] and [prev] with the functions they call.
    - BtreeWalk, BtreeScan, BtreeBack: trees of pages with their records in
      order, and the scans forwards and backwards against them.

    ** What is shown

    Write-ahead log ([WalIso], [WalOpen], [WalRecovery]): in every interleaving
    of connections an open read transaction reads the committed database of
    its start whatever commits, checkpoints and restarts of the log happen
    meanwhile; the committed database changes only at the publication of a
    commit; there is one writer; some connection can always move; and no call
    fails an assertion, as long as the callers keep the contract [allowed] on the
    order and the arguments of their calls.  The system has ten calls; those of
    VACUUM are not among them, and [WalVacuum] shows that one of them can fail an
    assertion while a checkpoint releases its locks.  Recovery ends on every file and publishes exactly the
    committed prefix, also of a log cut at any byte, and its result is a state
    the system can start from.

    Locks and formats ([RwLock], [WalFormat], [WalShared], [Varint],
    [OnDisk]): the lock word encodes its holders, and calls refine an abstract
    lock; frames and varints survive being written and read; the fast readers of
    varints agree with a reference decoder, on errors too; the functions that read
    the database header at fixed offsets agree with its struct; the frame cache
    refines the log.

    Memory ([SlotBitmap], [Page], [PageCache]): no slot is handed out twice;
    a page that was changed during or after its write is not used for a checkpoint
    of the written frame (a spill to the log, however, does not notice the change:
    [spill_ignores_modification]); the map and
    the queue of the cache agree and follow no dangling pointer, and the only
    assertion that an operation can fail is the one on its argument that [insert]
    makes; a dirty page
    that has not been spilled stays cached; an insertion that succeeds respects
    the capacity.

    B-tree pages ([BtreeRefine], [BtreeRobust]): any sequence of insertions,
    deletions and defragmentations reads as the same sequence on a list of
    cells, with exact free space; on pages with arbitrary bytes the free-space
    functions return errors instead of failing.  A count of fragmented bytes that is
    too high is not noticed, and a cell can be put over the pointer array
    ([BtreeFragments]).

    Balancing ([BtreeDistribute], [BtreeFree], [BtreeBulk], [BtreeEdit],
    [BtreeSiblings], [BtreeGather], [BtreeRedist], [BtreeBalanced]): the cells
    and dividers of up to three siblings end up on at most five pages, in order
    and unchanged; the editing of the pages in place copies every cell before
    its bytes are reused.  At most four cells may have been left over (one on table
    leaves, three with interior index cells of more than a quarter of a page of more
    than 4096 bytes).  Every page gets a cell, except that with such large cells the
    last page can stay empty; when it does is stated exactly.

    Trees ([BtreeOrder], [BtreeRoot], [BtreeQuick]): [balance_non_root] replaces
    the siblings among the children of the parent and keeps the records under it
    in their order; a root that gets or loses a level and a leaf that is appended
    keep them as well.

    Cursors ([BtreeScan], [BtreeBack]): a scan of a table or an index from the
    first or from the last record returns the records of the tree in order, each
    once, however often its calls have to wait for a page and are made again.

    Payloads and pages ([BtreePayload], [Allocator], [OverflowFree]): a record
    written over overflow pages is read back; allocation and freeing refine a
    map of pages in use, whatever the reads have to wait for; freeing the chain
    of a cell frees exactly its pages, and freeing a cyclic chain puts a page into
    the freelist twice ([OverflowCycle]).

    ** Modelling choices

    Rust functions are Rocq functions on the state they change.  Calls that
    run under a lock are single functions; calls that interleave with others
    are trees of atomic accesses ([WalProg], [SlotBitmap]) or step relations
    ([RwLock]).  Memory orderings are those of sequential consistency.  I/O
    that the code waits for is a parameter: the outcome of each read
    ([pread] of [WalRecovery]), write and sync is arbitrary, failures included.
    Recursion that is not structural has fuel: loops over free-block lists get
    the usable space plus one, since their offsets ascend; the recovery scan
    gets two turns per byte of the file and six more, since every other turn
    consumes bytes; the redistribution of cells gets one turn per cell and six
    pages, one more than it can fill; a resumable call gets as many turns as
    there are answers of the pager and pages to visit, up to a constant that the
    theorems state; a call of a cursor gets two turns per answer and the turns its
    walk over the tree takes ([cost]), for trees of at most 20 levels, the depth of
    the stack in the code.  Running out of fuel is [Panic], which the theorems exclude.
    What the pager answers to a request for a page, a wait or a failure included,
    is a list of events.  In [BtreeNonRoot] and [BtreeQuick] the pages that are
    read and allocated are given: a state that has to wait for one is entered again
    and changes nothing before it has it.  The allocation
    of pages is modelled for the modes of autovacuum other than full (the mode is
    none unless it is set, although the cargo feature is on by default), in which no
    pointer-map page is added; the dirty list, the page cache and the read of the
    header page are left out of it.
    The loops of the WAL calls and of the page cache have the bounds of the code
    (101 attempts to begin a read transaction, the examination limit of an eviction sweep), so that programs are finite trees; progress of
    the connection system is stated as the existence of a step.

    ** Not modelled

    - The shared-memory coordination between processes (wal.rs,
      shm coordination): it needs a model of memory-mapped files and of crashes
      of single processes.
    - Seeks, saved positions of cursors, inserting and deleting through a cursor,
      the loop that balances one level after the other with the stack of the
      cursor, and the integrity check of btree.rs, savepoints, page reads and
      spilling of pager.rs: resumable state machines over asynchronous page I/O
      and the page cache.  The operations on pages that they use are modelled.
    - [try_set_wal_tag] and [clear_dirty_keep_wal_tag] of pager.rs, which nothing
      calls.
    - MVCC (core/mvcc), the virtual machine and its translator (core/vdbe,
      core/translate), SQL parsing (parser), schema and connection management,
      values and functions, incremental views, index methods: separate
      subsystems above the storage layer.
    - I/O back ends, page encryption and checksums, the buffer pool, the sync
      engine, the Postgres front end, the command line and the bindings:
      operating-system calls, foreign code or thin wrappers.
    - Allocation failures, logging, tracing, and checks that only exist in
      debug builds. *)

From Stdlib Require Export ZArith Lia.
From stdpp Require Export base tactics numbers option list.

Declare Scope turso_scope.
Delimit Scope turso_scope with turso.

Open Scope Z_scope.

#[global] Arguments Z.shiftl : simpl never.
#[global] Arguments Z.shiftr : simpl never.
#[global] Arguments Z.land : simpl never.
#[global] Arguments Z.lor : simpl never.
#[global] Arguments Z.testbit : simpl never.
#[global] Arguments Z.log2 : simpl never.
#[global] Arguments Z.div : simpl never.
#[global] Arguments Z.modulo : simpl never.

(** ** Outcomes of Rust functions *)

(** The variants of [LimboError] that the modelled functions return; the
    message strings are dropped. *)
Inductive LimboError : Type :=
| Corrupt
| NotADB
| InternalError
| InvalidArgument
| Busy
| BusySnapshot
| SchemaUpdated
| WriteWriteConflict
| NoSuchTransactionID
| TxTerminated
| ReadOnly
| CacheFull
| CompletionError
| IntegerOverflow
| DatabaseFull.

#[export] Instance LimboError_eq_dec : EqDecision LimboError.
Proof. solve_decision. Defined.

(** [Result A]: a value, a returned error, or a panic (failed assertion,
    index out of range, arithmetic overflow with checks on, [unreachable!]).
    A theorem that excludes [Panic] shows that the checked and the unchecked
    build profiles agree on the call. *)
Inductive Result (A : Type) : Type :=
| Ok (a : A)
| Err (e : LimboError)
| Panic.
Arguments Ok {A} a.
Arguments Err {A} e.
Arguments Panic {A}.

#[export] Instance Result_ret : MRet Result := fun A a => Ok a.

#[export] Instance Result_bind : MBind Result := fun A B f m =>
  match m with
  | Ok a => f a
  | Err e => Err e
  | Panic => Panic
  end.

#[export] Instance Result_fmap : FMap Result := fun A B f m =>
  match m with
  | Ok a => Ok (f a)
  | Err e => Err e
  | Panic => Panic
  end.

(** [turso_assert!(b)]. *)
Definition turso_assert (b : bool) : Result unit :=
  if b then Ok tt else Panic.

(** [Option::unwrap] / an index expression: [None] panics. *)
Definition unwrap {A} (o : option A) : Result A :=
  match o with Some a => Ok a | None => Panic end.

(** [opt.ok_or(e)]. *)
Definition ok_or {A} (o : option A) (e : LimboError) : Result A :=
  match o with Some a => Ok a | None => Err e end.

Definition is_ok {A} (r : Result A) : bool :=
  match r with Ok _ => true | _ => false end.

(** ** Machine integers *)

Definition u8 (z : Z) : Z := z mod 256.
Definition u16 (z : Z) : Z := z mod 65536.
Definition u32 (z : Z) : Z := z mod 4294967296.
Definition u64 (z : Z) : Z := z mod 18446744073709551616.

Definition u32_max : Z := 4294967295.
Definition u64_max : Z := 18446744073709551615.

(** Two's complement reading of a [w]-bit pattern. *)
Definition signed (w z : Z) : Z :=
  let r := z mod 2 ^ w in if r <? 2 ^ (w - 1) then r else r - 2 ^ w.
Definition i64 (z : Z) : Z := signed 64 z.
Definition i32 (z : Z) : Z := signed 32 z.

Definition is_u8 (z : Z) : Prop := 0 <= z < 256.
Definition is_u16 (z : Z) : Prop := 0 <= z < 65536.
Definition is_u32 (z : Z) : Prop := 0 <= z < 4294967296.
Definition is_u64 (z : Z) : Prop := 0 <= z < 18446744073709551616.

(** Checked subtraction and addition of [usize]/[u64] values. *)
Definition checked_sub (a b : Z) : Result Z :=
  if b <=? a then Ok (a - b) else Panic.
Definition checked_add (a b : Z) : Result Z :=
  if a + b <=? u64_max then Ok (a + b) else Panic.
Definition saturating_sub (a b : Z) : Z := Z.max 0 (a - b).

(** ** Byte buffers *)

Definition bytes := list Z.
Definition bytes_ok (b : bytes) : Prop := Forall is_u8 b.

Definition lenZ {A} (l : list A) : Z := Z.of_nat (length l).

(** [buf.get(i)] *)
Definition getZ {A} (l : list A) (i : Z) : option A :=
  if i <? 0 then None else l !! Z.to_nat i.

(** [buf[i]] *)
Definition idx {A} (l : list A) (i : Z) : Result A := unwrap (getZ l i).

(** [buf[i] = x] *)
Definition set_idx {A} (l : list A) (i : Z) (x : A) : Result (list A) :=
  if (0 <=? i) && (i <? lenZ l) then Ok (<[Z.to_nat i := x]> l) else Panic.

(** [&buf[a..b]] *)
Definition slice {A} (l : list A) (a b : Z) : Result (list A) :=
  if (0 <=? a) && (a <=? b) && (b <=? lenZ l)
  then Ok (take (Z.to_nat (b - a)) (drop (Z.to_nat a) l)) else Panic.

(** [&buf[a..]] *)
Definition slice_from {A} (l : list A) (a : Z) : Result (list A) :=
  slice l a (lenZ l).

(** The list with [x] written at offset [a]; the in-range case of
    [buf[a..a + x.len()].copy_from_slice(x)]. *)
Definition splice {A} (l : list A) (a : Z) (x : list A) : list A :=
  take (Z.to_nat a) l ++ x ++ drop (Z.to_nat a + length x) l.

(** [buf[a..a + x.len()].copy_from_slice(x)] *)
Definition write_slice {A} (l : list A) (a : Z) (x : list A) : Result (list A) :=
  if (0 <=? a) && (a + lenZ x <=? lenZ l) then Ok (splice l a x) else Panic.

(** Big-endian integers: [from_be_bytes] and [to_be_bytes] of an [n]-byte
    integer. *)
Definition be_combine (b : bytes) : Z := foldl (fun v c => v * 256 + c) 0 b.

Fixpoint be_split (n : nat) (z : Z) : bytes :=
  match n with
  | O => []
  | S n' => (z / 256 ^ Z.of_nat n') mod 256 :: be_split n' z
  end.

(** Little-endian counterparts. *)
Fixpoint le_combine (b : bytes) : Z :=
  match b with [] => 0 | c :: b' => c + 256 * le_combine b' end.

Definition le_split (n : nat) (z : Z) : bytes := rev (be_split n z).

(** ** Proof automation *)

Create HintDb turso.

(** Unfold the range predicates and leave linear arithmetic. *)
Ltac ranges :=
  unfold is_u8, is_u16, is_u32, is_u64, u8, u16, u32, u64, u32_max, u64_max,
    lenZ, saturating_sub in *.

Ltac rlia := ranges; lia.

(** Division and remainder by a literal, as linear constraints. *)
Ltac divlia :=
  ranges; Z.div_mod_to_equations; lia.

Lemma bind_Ok {A B} (f : A -> Result B) (m : Result A) b :
  mbind f m = Ok b <-> exists a, m = Ok a /\ f a = Ok b.
Proof.
  destruct m; simpl; split.
  - eauto.
  - intros (a' & Ha & Hf). congruence.
  - discriminate.
  - intros (? & ? & _). discriminate.
  - discriminate.
  - intros (? & ? & _). discriminate.
Qed.

Lemma unwrap_Ok {A} (o : option A) a : unwrap o = Ok a <-> o = Some a.
Proof. destruct o; simpl; split; congruence. Qed.

(** Splits [H : computation = Ok _] into its steps. *)
Ltac steps_of H :=
  lazymatch type of H with
  | mbind _ _ = Ok _ => let a := fresh "a" in let Ha := fresh "Ha" in apply bind_Ok in H as (a & Ha & H); steps_of Ha; steps_of H
  | Result_bind _ _ _ _ = Ok _ => let a := fresh "a" in let Ha := fresh "Ha" in apply bind_Ok in H as (a & Ha & H); steps_of Ha; steps_of H
  | (if ?b then _ else _) = Ok _ => destruct b; steps_of H
  | (let '(_, _) := ?x in _) = Ok _ => destruct x; steps_of H
  | unwrap _ = Ok _ => apply unwrap_Ok in H
  | Ok _ = Ok _ => injection H; clear H; intros; subst
  | _ => idtac
  end.

Lemma ok_or_Ok {A} (o : option A) e a : ok_or o e = Ok a <-> o = Some a.
Proof. destruct o; simpl; split; congruence. Qed.

Lemma turso_assert_Ok b u : turso_assert b = Ok u <-> b = true.
Proof. destruct b, u; simpl; split; congruence. Qed.

(** Break a hypothesis [m >>= f = Ok b] (and the primitive calls inside it)
    into its steps. *)
Ltac inv_res :=
  repeat match goal with
  | H : mbind _ _ = Ok _ |- _ => apply bind_Ok in H as (? & ? & ?)
  | H : Ok _ = Ok _ |- _ => injection H as H
  | H : unwrap _ = Ok _ |- _ => apply unwrap_Ok in H
  | H : ok_or _ _ = Ok _ |- _ => apply ok_or_Ok in H
  | H : turso_assert _ = Ok _ |- _ => apply turso_assert_Ok in H
  | H : Err _ = Ok _ |- _ => discriminate H
  | H : Panic = Ok _ |- _ => discriminate H
  | H : mret _ = Ok _ |- _ => injection H as H
  end.

(** Split the range hypotheses on explicit byte lists. *)
Ltac inv_bytes :=
  repeat match goal with
  | H : bytes_ok (_ :: _) |- _ => apply Forall_cons in H as [? ?]
  | H : Forall is_u8 (_ :: _) |- _ => apply Forall_cons in H as [? ?]
  | H : bytes_ok (_ ++ _) |- _ => apply Forall_app in H as [? ?]
  end.

(** Reflect the boolean tests of the integer operations. *)
Ltac bool_facts :=
  repeat match goal with
  | H : _ && _ = true |- _ => apply andb_prop in H as [? ?]
  | H : _ || _ = false |- _ => apply orb_false_elim in H as [? ?]
  | H : negb _ = true |- _ => apply negb_true_iff in H
  | H : negb _ = false |- _ => apply negb_false_iff in H
  | H : (_ <? _) = true |- _ => apply Z.ltb_lt in H
  | H : (_ <? _) = false |- _ => apply Z.ltb_ge in H
  | H : (_ <=? _) = true |- _ => apply Z.leb_le in H
  | H : (_ <=? _) = false |- _ => apply Z.leb_gt in H
  | H : (_ =? _) = true |- _ => apply Z.eqb_eq in H
  | H : (_ =? _) = false |- _ => apply Z.eqb_neq in H
  end.

(** Case analysis on every integer test of the goal or the context. *)
Ltac case_Z :=
  repeat match goal with
  | |- context [?a <? ?b] => destruct (Z.ltb_spec a b)
  | |- context [?a <=? ?b] => destruct (Z.leb_spec a b)
  | |- context [?a =? ?b] => destruct (Z.eqb_spec a b)
  | H : context [?a <? ?b] |- _ => destruct (Z.ltb_spec a b)
  | H : context [?a <=? ?b] |- _ => destruct (Z.leb_spec a b)
  | H : context [?a =? ?b] |- _ => destruct (Z.eqb_spec a b)
  end.

(** ** Bit operations as arithmetic *)

Lemma land_mod n m x : m = Z.ones n -> 0 <= n -> Z.land x m = x mod 2 ^ n.
Proof. intros -> ?. by apply Z.land_ones. Qed.

Lemma lor_disjoint a b n :
  0 <= n -> 0 <= b < 2 ^ n -> Z.lor (a * 2 ^ n) b = a * 2 ^ n + b.
Proof.
  intros Hn Hb.
  assert (Z.land (a * 2 ^ n) b = 0) as Hdis.
  { apply Z.bits_inj'. intros i Hi. rewrite Z.land_spec, Z.bits_0.
    destruct (Z.lt_ge_cases i n).
    - rewrite Z.mul_pow2_bits_low by lia. done.
    - rewrite andb_false_iff. right.
      destruct (Z.eq_dec b 0) as [->|]; [apply Z.bits_0|].
      apply Z.bits_above_log2; [lia|].
      apply Z.log2_lt_pow2; [lia|].
      apply Z.lt_le_trans with (2 ^ n); [lia|].
      apply Z.pow_le_mono_r; lia. }
  rewrite Z.add_nocarry_lxor by done. symmetry. by apply Z.lxor_lor.
Qed.

Lemma lor_shiftl_add a b n :
  0 <= n -> 0 <= b < 2 ^ n -> Z.lor (Z.shiftl a n) b = a * 2 ^ n + b.
Proof. intros. rewrite Z.shiftl_mul_pow2 by done. by apply lor_disjoint. Qed.

Lemma shiftr_zero_test w n : 0 <= w -> 0 <= n -> (Z.shiftr w n =? 0) = (w <? 2 ^ n).
Proof.
  intros Hw Hn. rewrite Z.shiftr_div_pow2 by done.
  pose proof (Z.pow_pos_nonneg 2 n ltac:(lia) Hn).
  destruct (Z.ltb_spec w (2 ^ n)).
  - rewrite Z.div_small by lia. done.
  - apply Z.eqb_neq. pose proof (Z.div_str_pos w (2 ^ n)). lia.
Qed.

(** A mask of [n] ones at bit [s] selects a bit field. *)
Lemma land_field x n s :
  0 <= n -> 0 <= s ->
  Z.land x (Z.shiftl (Z.ones n) s) = (x / 2 ^ s) mod 2 ^ n * 2 ^ s.
Proof.
  intros Hn Hs. rewrite <- Z.land_ones, <- Z.shiftr_div_pow2, <- Z.shiftl_mul_pow2 by done.
  apply Z.bits_inj'. intros i Hi. rewrite Z.land_spec.
  destruct (Z.lt_ge_cases i s).
  - rewrite !Z.shiftl_spec_low by lia. apply andb_false_r.
  - rewrite !Z.shiftl_spec, Z.land_spec, Z.shiftr_spec by lia.
    by replace (i - s + s) with i by lia.
Qed.

(** ** Buffers *)

Lemma getZ_Some_lt {A} (l : list A) i x : getZ l i = Some x -> 0 <= i < lenZ l.
Proof.
  unfold getZ, lenZ. destruct (Z.ltb_spec i 0); [discriminate|].
  intros Hi%lookup_lt_Some. lia.
Qed.

Lemma getZ_is_Some {A} (l : list A) i : 0 <= i < lenZ l -> is_Some (getZ l i).
Proof.
  unfold getZ, lenZ. intros. destruct (Z.ltb_spec i 0); [lia|].
  apply lookup_lt_is_Some. lia.
Qed.

Lemma getZ_of_nat {A} (l : list A) (i : nat) : getZ l (Z.of_nat i) = l !! i.
Proof.
  unfold getZ. destruct (Z.ltb_spec (Z.of_nat i) 0); [lia|]. by rewrite Nat2Z.id.
Qed.

Lemma idx_lookup {A} (l : list A) (i : nat) x : l !! i = Some x -> idx l (Z.of_nat i) = Ok x.
Proof. intros Hx. unfold idx. by rewrite getZ_of_nat, Hx. Qed.

Lemma set_idx_Ok {A} (l : list A) i x l' :
  set_idx l i x = Ok l' <-> 0 <= i < lenZ l /\ l' = <[Z.to_nat i := x]> l.
Proof.
  unfold set_idx. destruct (Z.leb_spec 0 i), (Z.ltb_spec i (lenZ l)); simpl;
    split; try (intros; lia); try discriminate; try (intros [? ->]; done).
  intros [= <-]. split; [lia|done].
Qed.

Lemma slice_Ok {A} (l : list A) a b s :
  slice l a b = Ok s <->
  0 <= a <= b /\ b <= lenZ l /\ s = take (Z.to_nat (b - a)) (drop (Z.to_nat a) l).
Proof.
  unfold slice.
  destruct (Z.leb_spec 0 a), (Z.leb_spec a b), (Z.leb_spec b (lenZ l)); simpl;
    split; try (intros; lia); try discriminate; try (intros (? & ? & ->); done).
  intros [= <-]. done.
Qed.

Lemma slice_length {A} (l : list A) a b s :
  slice l a b = Ok s -> lenZ s = b - a.
Proof.
  intros (? & ? & ->)%slice_Ok. unfold lenZ in *.
  rewrite length_take, length_drop. lia.
Qed.

Lemma write_slice_Ok {A} (l : list A) a x l' :
  write_slice l a x = Ok l' <-> 0 <= a /\ a + lenZ x <= lenZ l /\ l' = splice l a x.
Proof.
  unfold write_slice.
  destruct (Z.leb_spec 0 a), (Z.leb_spec (a + lenZ x) (lenZ l)); simpl;
    split; try (intros; lia); try discriminate; try (intros (? & ? & ->); done).
  intros [= <-]. done.
Qed.

Lemma splice_length {A} (l : list A) a x :
  0 <= a -> a + lenZ x <= lenZ l -> length (splice l a x) = length l.
Proof.
  unfold splice, lenZ. intros. rewrite !length_app, length_take, length_drop. lia.
Qed.

Lemma lenZ_app {A} (l k : list A) : lenZ (l ++ k) = lenZ l + lenZ k.
Proof. unfold lenZ. rewrite length_app. lia. Qed.

Lemma lenZ_nonneg {A} (l : list A) : 0 <= lenZ l.
Proof. unfold lenZ. lia. Qed.

Lemma slice_app_at {A} (p x s : list A) :
  slice (p ++ x ++ s) (lenZ p) (lenZ p + lenZ x) = Ok x.
Proof.
  apply slice_Ok. rewrite !lenZ_app.
  pose proof (lenZ_nonneg p). pose proof (lenZ_nonneg x). pose proof (lenZ_nonneg s).
  split_and!; [lia..|].
  replace (lenZ p + lenZ x - lenZ p) with (lenZ x) by lia. unfold lenZ.
  rewrite !Nat2Z.id, drop_app_length, take_app_length. done.
Qed.

Lemma slice_splice_same {A} (l : list A) a x :
  0 <= a -> a + lenZ x <= lenZ l -> slice (splice l a x) a (a + lenZ x) = Ok x.
Proof.
  intros Ha Hx. unfold splice.
  assert (lenZ (take (Z.to_nat a) l) = a) as Hp.
  { unfold lenZ in *. rewrite length_take. lia. }
  rewrite <- Hp at 3 4. apply slice_app_at.
Qed.

Lemma splice_lookup_lt {A} (l : list A) a x (i : nat) :
  Z.of_nat i < a -> a <= lenZ l -> splice l a x !! i = l !! i.
Proof.
  unfold splice, lenZ. intros. rewrite lookup_app_l.
  - apply lookup_take_lt. lia.
  - rewrite length_take. lia.
Qed.

Lemma splice_lookup_ge {A} (l : list A) a x (i : nat) :
  0 <= a -> a + lenZ x <= lenZ l -> a + lenZ x <= Z.of_nat i ->
  splice l a x !! i = l !! i.
Proof.
  unfold splice, lenZ. intros. rewrite lookup_app_r by (rewrite length_take; lia).
  rewrite length_take, lookup_app_r by lia. rewrite lookup_drop. f_equal. lia.
Qed.

Lemma splice_lookup_mid {A} (l : list A) a x (i : nat) :
  0 <= a -> a <= lenZ l -> a <= Z.of_nat i < a + lenZ x ->
  splice l a x !! i = x !! (i - Z.to_nat a)%nat.
Proof.
  unfold splice, lenZ. intros. rewrite lookup_app_r by (rewrite length_take; lia).
  rewrite length_take, lookup_app_l by lia. f_equal. lia.
Qed.

Lemma set_idx_nat {A} (l : list A) (i : nat) x :
  (i < length l)%nat -> set_idx l (Z.of_nat i) x = Ok (<[i := x]> l).
Proof. intros. apply set_idx_Ok. rewrite Nat2Z.id. unfold lenZ. split; [lia|done]. Qed.

Lemma drop_insert_here {A} (l : list A) (i : nat) x :
  (i < length l)%nat -> drop i (<[i := x]> l) = x :: drop (S i) l.
Proof.
  intros. rewrite (drop_S _ x) by (by apply list_lookup_insert_eq).
  rewrite drop_insert_lt by lia. done.
Qed.

Lemma set_idx_app_at {A} (p s : list A) r x :
  set_idx (p ++ r :: s) (lenZ p) x = Ok (p ++ x :: s).
Proof.
  unfold lenZ. rewrite set_idx_nat by (rewrite length_app; simpl; lia).
  by rewrite insert_app_r_alt, Nat.sub_diag by lia.
Qed.

Lemma write_slice_at {A} (p x s y : list A) off :
  off = lenZ p -> length x = length y -> write_slice (p ++ x ++ s) off y = Ok (p ++ y ++ s).
Proof.
  intros -> Hl. apply write_slice_Ok. rewrite !lenZ_app.
  pose proof (lenZ_nonneg p). pose proof (lenZ_nonneg s). split_and!; [lia| |].
  - unfold lenZ in *. lia.
  - unfold splice, lenZ. rewrite Nat2Z.id, take_app_length.
    rewrite drop_app_ge by lia. replace (length p + length y - length p)%nat with (length y) by lia.
    rewrite <- Hl, drop_app_length. done.
Qed.

Lemma write_slice_front {A} (x s y : list A) :
  length x = length y -> write_slice (x ++ s) 0 y = Ok (y ++ s).
Proof. intros. by apply (write_slice_at [] x s y 0). Qed.

(** The first [n] elements of a long enough list. *)
Lemma split_front {A} (n : nat) (l : list A) :
  (n <= length l)%nat -> exists x l', l = x ++ l' /\ length x = n /\ length l' = (length l - n)%nat.
Proof.
  intros. exists (take n l), (drop n l).
  rewrite take_drop, length_take, length_drop. split_and!; [done|lia|lia].
Qed.

Lemma slice_at {A} (p x s : list A) a b :
  a = lenZ p -> b = lenZ p + lenZ x -> slice (p ++ x ++ s) a b = Ok x.
Proof. intros -> ->. apply slice_app_at. Qed.

Lemma slice_front {A} (x s : list A) b : b = lenZ x -> slice (x ++ s) 0 b = Ok x.
Proof. intros ->. by apply (slice_at [] x s). Qed.

Lemma slice_from_at {A} (p s : list A) a :
  a = lenZ p -> slice_from (p ++ s) a = Ok s.
Proof.
  intros ->. unfold slice_from. rewrite lenZ_app, <- (app_nil_r s) at 1. apply slice_app_at.
Qed.

(** ** Big-endian integers *)

Lemma be_combine_foldl b : forall v,
  foldl (fun v c => v * 256 + c) v b = v * 256 ^ lenZ b + be_combine b.
Proof.
  unfold be_combine. induction b as [|c b IH]; intros v; cbn [foldl].
  - unfold lenZ. simpl. lia.
  - rewrite (IH (v * 256 + c)), (IH (0 * 256 + c)). unfold lenZ. simpl length.
    rewrite Nat2Z.inj_succ, Z.pow_succ_r by lia. lia.
Qed.

Lemma be_combine_cons c b : be_combine (c :: b) = c * 256 ^ lenZ b + be_combine b.
Proof. unfold be_combine. simpl. rewrite be_combine_foldl. done. Qed.

Lemma be_combine_app a b :
  be_combine (a ++ b) = be_combine a * 256 ^ lenZ b + be_combine b.
Proof. unfold be_combine at 1. rewrite foldl_app. apply be_combine_foldl. Qed.

Lemma be_split_length n z : length (be_split n z) = n.
Proof. induction n; simpl; auto. Qed.

Lemma be_split_lenZ n z : lenZ (be_split n z) = Z.of_nat n.
Proof. unfold lenZ. by rewrite be_split_length. Qed.

Lemma be_split_ok n z : bytes_ok (be_split n z).
Proof.
  induction n; simpl; constructor; auto. unfold is_u8. apply Z.mod_pos_bound. lia.
Qed.

Lemma be_combine_bound b : bytes_ok b -> 0 <= be_combine b < 256 ^ lenZ b.
Proof.
  induction 1 as [|c b Hc Hb IH].
  - unfold lenZ. simpl. unfold be_combine. simpl. lia.
  - rewrite be_combine_cons. unfold lenZ in *. simpl length.
    rewrite Nat2Z.inj_succ, Z.pow_succ_r by lia. unfold is_u8 in Hc. nia.
Qed.

Lemma be_combine_split n z : be_combine (be_split n z) = z mod 256 ^ Z.of_nat n.
Proof.
  induction n as [|n IH].
  - simpl. unfold be_combine. simpl. by rewrite Z.mod_1_r.
  - simpl be_split. rewrite be_combine_cons, be_split_lenZ, IH.
    rewrite Nat2Z.inj_succ, Z.pow_succ_r, (Z.mul_comm 256) by lia.
    rewrite Z.rem_mul_r by lia. lia.
Qed.

Lemma be_combine_split_id n z :
  0 <= z < 256 ^ Z.of_nat n -> be_combine (be_split n z) = z.
Proof. intros. rewrite be_combine_split. by apply Z.mod_small. Qed.

Lemma be_split_mod n z k :
  (n <= k)%nat -> be_split n (z mod 256 ^ Z.of_nat k) = be_split n z.
Proof.
  intros Hk. induction n as [|n IH]; [done|]. simpl. rewrite IH by lia. f_equal.
  replace (Z.of_nat k) with (Z.of_nat n + Z.of_nat (k - n)) by lia.
  rewrite Z.pow_add_r by lia. rewrite Z.rem_mul_r by lia.
  rewrite (Z.add_comm (z mod _)), (Z.mul_comm (256 ^ Z.of_nat n)), Z.div_add_l by lia.
  rewrite (Z.div_small (z mod _)) by (apply Z.mod_pos_bound; lia).
  rewrite Z.add_0_r.
  replace (Z.of_nat (k - n)) with (Z.succ (Z.of_nat (k - n - 1))) by lia.
  rewrite Z.pow_succ_r by lia. rewrite Z.rem_mul_r by lia.
  rewrite (Z.mul_comm 256 (_ mod _)), Z.mod_add by lia. apply Z.mod_mod. lia.
Qed.

Lemma be_split_combine b : bytes_ok b -> be_split (length b) (be_combine b) = b.
Proof.
  induction 1 as [|c b Hc Hb IH]; [done|].
  pose proof (be_combine_bound b Hb) as Hbound. unfold lenZ in Hbound.
  simpl. rewrite be_combine_cons. unfold lenZ. f_equal.
  - rewrite Z.div_add_l, Z.div_small by lia. rewrite Z.add_0_r.
    apply Z.mod_small. apply Hc.
  - rewrite <- (be_split_mod _ _ (length b)) by lia.
    rewrite Z.add_comm, Z.mod_add, Z.mod_small by lia. apply IH.
Qed.

(** Single bits of machine words. *)
Lemma u64_testbit_high w j : is_u64 w -> 64 <= j -> Z.testbit w j = false.
Proof.
  intros Hw Hj. destruct (Z.eq_dec w 0) as [->|]; [apply Z.testbit_0_l|].
  apply Z.bits_above_log2; [unfold is_u64 in *; lia|].
  assert (Z.log2 w < 64); [|lia]. apply Z.log2_lt_pow2; unfold is_u64 in *; lia.
Qed.

Lemma u64_max_ones : u64_max = Z.ones 64.
Proof. done. Qed.

Lemma andnot_testbit w bit j :
  is_u64 w -> 0 <= bit < 64 -> 0 <= j ->
  Z.testbit (Z.land w (Z.lxor u64_max (Z.shiftl 1 bit))) j = Z.testbit w j && negb (j =? bit).
Proof.
  intros Hw Hb Hj. rewrite Z.shiftl_1_l, u64_max_ones.
  rewrite Z.land_spec, Z.lxor_spec, Z.pow2_bits_eqb by lia.
  destruct (Z.lt_ge_cases j 64).
  - rewrite Z.ones_spec_low by lia. rewrite xorb_true_l, (Z.eqb_sym bit). done.
  - rewrite (u64_testbit_high w j) by done. done.
Qed.

Lemma u64_of_bits w : 0 <= w -> (forall j, 64 <= j -> Z.testbit w j = false) -> is_u64 w.
Proof.
  intros Hw Hj. assert (w = w mod 2 ^ 64) as ->; [|unfold is_u64; apply Z.mod_pos_bound; lia].
  apply Z.bits_inj'. intros n Hn. destruct (Z.lt_ge_cases n 64).
  - by rewrite Z.mod_pow2_bits_low.
  - rewrite Z.mod_pow2_bits_high by lia. by apply Hj.
Qed.

Lemma set_bit_testbit w bit j :
  0 <= bit -> 0 <= j -> Z.testbit (Z.lor w (Z.shiftl 1 bit)) j = Z.testbit w j || (j =? bit).
Proof.
  intros. rewrite Z.lor_spec, Z.shiftl_1_l, Z.pow2_bits_eqb, Z.eqb_sym by done. done.
Qed.

Lemma mask_test w bit :
  0 <= bit -> (Z.land w (Z.shiftl 1 bit) =? 0) = negb (Z.testbit w bit).
Proof.
  intros Hb. rewrite Z.shiftl_1_l.
  destruct (Z.testbit w bit) eqn:E; simpl.
  - apply Z.eqb_neq. intros H. assert (Z.testbit (Z.land w (2 ^ bit)) bit = false) as Hf
      by (rewrite H; apply Z.testbit_0_l).
    rewrite Z.land_spec, E, Z.pow2_bits_true in Hf by done. done.
  - apply Z.eqb_eq, Z.bits_inj'. intros n Hn.
    rewrite Z.land_spec, Z.testbit_0_l, Z.pow2_bits_eqb by done.
    destruct (Z.eqb_spec bit n) as [<-|]; [by rewrite E|apply andb_false_r].
Qed.

(** Range facts of concrete lists by computation. *)
Lemma Forall_range_dec n l :
  forallb (fun z => (0 <=? z) && (z <? n)) l = true -> Forall (fun z => 0 <= z < n) l.
Proof.
  rewrite forallb_forall, Forall_forall. intros H x Hx.
  apply list_elem_of_In in Hx. apply H in Hx. lia.
Qed.

Lemma bytes_ok_dec b : forallb (fun z => (0 <=? z) && (z <? 256)) b = true -> bytes_ok b.
Proof. apply Forall_range_dec. Qed.

Lemma all_u32_dec l :
  forallb (fun z => (0 <=? z) && (z <? 4294967296)) l = true -> Forall is_u32 l.
Proof. apply Forall_range_dec. Qed.

(** A [u32] written big-endian and read back. *)
Lemma be32_roundtrip z : is_u32 z -> be_combine (be_split 4 z) = z.
Proof. intros. apply be_combine_split_id. unfold is_u32 in *. simpl. lia. Qed.

Lemma be16_roundtrip z : is_u16 z -> be_combine (be_split 2 z) = z.
Proof. intros. apply be_combine_split_id. unfold is_u16 in *. simpl. lia. Qed.

#[export] Hint Resolve be_split_ok be_split_length be32_roundtrip be16_roundtrip
  lenZ_nonneg : turso.

(** Prove that an explicit list consists of bytes. *)
Ltac solve_bytes :=
  unfold bytes_ok in *;
  repeat first
    [ assumption | apply be_split_ok | apply Forall_nil_2 | apply Forall_app_2
    | apply Forall_cons_2 ];
  try rlia.

(** Keep multi-byte integers folded in proofs; evaluation is by [vm_compute]. *)
#[global] Opaque be_split.
