(* ===== verification/Resume.v ===== *)
(** * Resume: calls that return to wait for I/O

    A resumable function of the code is a loop over a state machine.  An
    iteration ends the call with a result, ends it because I/O is pending, or
    goes on.  The state is kept when the call returns early, and the caller calls
    again.  [call] is one call, [calls] the sequence of calls until there is a
    result; [run] is the sequence of iterations, whatever call they belong to. *)

From S2P Require Import Prelude.

Inductive outcome (S A : Type) := Finish (a : A) | Wait (s : S) | Continue (s : S).
Arguments Finish {S A}. Arguments Wait {S A}. Arguments Continue {S A}.

Section resume.
Context {S A : Type} (step : S -> Result (outcome S A)).

Fixpoint call (fuel : nat) (s : S) : Result (A + S) :=
  match fuel with
  | O => Panic
  | Datatypes.S fuel =>
      next ← step s;
      match next with Finish a => Ok (inl a) | Wait s => Ok (inr s) | Continue s => call fuel s end
  end.

Fixpoint calls (n fuel : nat) (s : S) : Result A :=
  match n with
  | O => Panic
  | Datatypes.S n =>
      r ← call fuel s;
      match r with inl a => Ok a | inr s => calls n fuel s end
  end.

Fixpoint run (n : nat) (s : S) : Result A :=
  match n with
  | O => Panic
  | Datatypes.S n =>
      next ← step s;
      match next with Finish a => Ok a | Wait s | Continue s => run n s end
  end.

Lemma run_S n s :
  run (Datatypes.S n) s = (next ← step s; match next with Finish a => Ok a | Wait s | Continue s => run n s end).
Proof. done. Qed.

Lemma run_mono n : forall m s a, run n s = Ok a -> (n <= m)%nat -> run m s = Ok a.
Proof.
  induction n as [|n IH]; intros [|m] s a; try done; [lia|]. rewrite !run_S.
  destruct (step s) as [[b|s1|s1]| |]; cbn [mbind Result_bind]; try done; intros; apply IH; (done || lia).
Qed.

Lemma run_call n : forall s a c f fuel,
  run n s = Ok a -> (n <= c)%nat -> (n <= f)%nat -> (n <= fuel)%nat ->
  (r ← call f s; match r with inl a => Ok a | inr s => calls c fuel s end) = Ok a.
Proof.
  induction n as [|n IH]; intros s a c f fuel; [done|]. rewrite run_S. destruct c as [|c]; [lia|]. destruct f as [|f]; [lia|].
  cbn [call]. destruct (step s) as [[b|s1|s1]| |]; try done; cbn [mbind Result_bind]; intros Hr Hc Hf Hfuel.
  - cbn [calls]. by apply IH; [done|lia..].
  - by apply IH; [done|lia..].
Qed.

(** Enough calls with enough iterations give the result of the iterations. *)
Lemma run_calls n s a c fuel : run n s = Ok a -> (n < c)%nat -> (n <= fuel)%nat -> calls c fuel s = Ok a.
Proof. intros Hr Hc Hf. destruct c as [|c]; [lia|]. cbn [calls]. by apply (run_call n); [done|lia..]. Qed.

(** A call that waits or ends is part of the run. *)
Lemma call_run f : forall s r n a,
  call f s = Ok r -> match r with inl b => a = b | inr s' => run n s' = Ok a end -> exists m, run m s = Ok a.
Proof.
  induction f as [|f IH]; intros s r n a; [done|]. cbn [call]. destruct (step s) as [[b|s1|s1]| |] eqn:E; cbn [mbind Result_bind]; try done.
  - intros [= <-] ->. exists 1%nat. rewrite run_S, E. done.
  - intros [= <-] Hr. exists (Datatypes.S n). rewrite run_S, E. done.
  - intros Hc Hr. destruct (IH _ _ _ _ Hc Hr) as (m & Hm). exists (Datatypes.S m). rewrite run_S, E. done.
Qed.
End resume.
