(* ===== verification/Varint.v ===== *)
(** * Varint: the variable-length integers of the record and cell formats

    Models [read_varint], [split_varint], [read_varint_len],
    [read_varint_partial], [varint_len], [write_varint] and
    [write_varint_to_vec] of core/storage/sqlite3_ondisk.rs.  A buffer is a
    list of byte values, a [u64] a [Z] with its wrap-around written out, and
    an index out of range is a [Panic].  The theorems relate the readers,
    with their fast paths, to one structural reference decoder and show that
    writing and reading are inverse. *)

From S2P Require Import Prelude.

(** ** Operations *)

(** The [for i in 0..8] loop: [inl] is a [return], [inr] the accumulator
    after the loop. *)
Fixpoint read_varint_loop (k : nat) (buf : bytes) (i v : Z) : Result (Z * Z + Z) :=
  match k with
  | O => Ok (inr v)
  | S k' =>
      match getZ buf i with
      | Some c =>
          let v := u64 (Z.shiftl v 7) + Z.land c 127 in
          if Z.land c 128 =? 0 then Ok (inl (v, i + 1))
          else read_varint_loop k' buf (i + 1) v
      | None => Err Corrupt
      end
  end.

(** The part of [read_varint] after the fast paths. *)
Definition read_varint_slow (buf : bytes) : Result (Z * Z) :=
  r ← read_varint_loop 8 buf 0 0;
  match r with
  | inl vn => Ok vn
  | inr v =>
      match getZ buf 8 with
      | Some c =>
          if Z.shiftr v 48 =? 0 then Err Corrupt
          else Ok (u64 (Z.shiftl v 8) + c, 9)
      | None => Err Corrupt
      end
  end.

Definition read_varint (buf : bytes) : Result (Z * Z) :=
  match buf with
  | b0 :: tl0 =>
      if b0 <? 128 then Ok (b0, 1)
      else match tl0 with
      | b1 :: tl1 =>
          if b1 <? 128 then Ok (Z.lor (Z.shiftl (Z.land b0 127) 7) b1, 2)
          else match tl1 with
          | b2 :: _ =>
              if b2 <? 128
              then Ok (Z.lor (Z.lor (Z.shiftl (Z.land b0 127) 14)
                                    (Z.shiftl (Z.land b1 127) 7)) b2, 3)
              else read_varint_slow buf
          | [] => read_varint_slow buf
          end
      | [] => read_varint_slow buf
      end
  | [] => read_varint_slow buf
  end.

Definition split_varint (buf : bytes) : Result (Z * bytes) :=
  let rest :=
    '(value, len) ← read_varint buf;
    tail ← slice_from buf len;
    Ok (value, tail) in
  match buf with
  | b0 :: tl0 =>
      if b0 <? 128 then Ok (b0, tl0)
      else match tl0 with
      | b1 :: tl1 =>
          if b1 <? 128 then Ok (Z.lor (Z.shiftl (Z.land b0 127) 7) b1, tl1)
          else rest
      | [] => rest
      end
  | [] => rest
  end.

Definition read_varint_len_long (buf : bytes) : Result Z :=
  '(_, len) ← read_varint buf; Ok len.

Definition read_varint_len (buf : bytes) : Result Z :=
  match buf with
  | b0 :: tl0 =>
      if b0 <? 128 then Ok 1
      else match tl0 with
      | b1 :: tl1 =>
          if b1 <? 128 then Ok 2
          else match tl1 with
          | b2 :: _ => if b2 <? 128 then Ok 3 else read_varint_len_long buf
          | [] => read_varint_len_long buf
          end
      | [] => read_varint_len_long buf
      end
  | [] => read_varint_len_long buf
  end.

(** The loop of [read_varint_partial]: [None] is the [return Ok(None)] of a
    buffer that ends inside the varint. *)
Fixpoint read_varint_partial_loop (k : nat) (buf : bytes) (i v : Z)
    : option (Z * Z + Z) :=
  match k with
  | O => Some (inr v)
  | S k' =>
      match getZ buf i with
      | None => None
      | Some c =>
          let v := u64 (Z.shiftl v 7) + Z.land c 127 in
          if Z.land c 128 =? 0 then Some (inl (v, i + 1))
          else read_varint_partial_loop k' buf (i + 1) v
      end
  end.

Definition read_varint_partial (buf : bytes) : Result (option (Z * Z)) :=
  match read_varint_partial_loop 8 buf 0 0 with
  | None => Ok None
  | Some (inl vn) => Ok (Some vn)
  | Some (inr v) =>
      match getZ buf 8 with
      | None => Ok None
      | Some c =>
          if Z.shiftr v 48 =? 0 then Err Corrupt
          else Ok (Some (u64 (Z.shiftl v 8) + c, 9))
      end
  end.

(** [u64::leading_zeros] *)
Definition leading_zeros64 (z : Z) : Z :=
  if z =? 0 then 64 else 63 - Z.log2 z.

(** [usize::div_ceil] *)
Definition div_ceil (a b : Z) : Z := (a + b - 1) / b.

Definition varint_len (value : Z) : Z :=
  if value <=? 127 then 1
  else if Z.shiftl 1 56 - 1 <? value then 9
  else let bits := 64 - leading_zeros64 value in div_ceil bits 7.

(** [for i in (0..k).rev() { buf[i] = (value & 0x7f) | 0x80; value >>= 7 }] *)
Fixpoint write_nine_loop (k : nat) (buf : bytes) (value : Z) : Result bytes :=
  match k with
  | O => Ok buf
  | S i =>
      buf ← set_idx buf (Z.of_nat i) (u8 (Z.lor (Z.land value 127) 128));
      write_nine_loop i buf (Z.shiftr value 7)
  end.

(** [while bytes != 0 { ... }]: the writes into [encoded] bound the number of
    turns, so that [k = 10] turns reach the end of the loop or the index
    panic. *)
Fixpoint encode_loop (k : nat) (encoded : bytes) (bs n : Z) : Result (bytes * Z) :=
  match k with
  | O => Panic
  | S k' =>
      if bs =? 0 then Ok (encoded, n)
      else
        encoded ← set_idx encoded n (u8 (Z.lor 128 (Z.land bs 127)));
        encode_loop k' encoded (Z.shiftr bs 7) (n + 1)
  end.

(** [for i in i..i+k { buf[i] = encoded[n - 1 - i] }] *)
Fixpoint copy_reversed_loop (k : nat) (i n : Z) (encoded buf : bytes) : Result bytes :=
  match k with
  | O => Ok buf
  | S k' =>
      x ← idx encoded (n - 1 - i);
      buf ← set_idx buf i x;
      copy_reversed_loop k' (i + 1) n encoded buf
  end.

Definition write_varint (buf : bytes) (value : Z) : Result (bytes * Z) :=
  if value <=? 127 then
    buf ← set_idx buf 0 (u8 (Z.land value 127));
    Ok (buf, 1)
  else if value <=? 16383 then
    buf ← set_idx buf 0 (u8 (Z.lor (Z.land (Z.shiftr value 7) 127) 128));
    buf ← set_idx buf 1 (u8 (Z.land value 127));
    Ok (buf, 2)
  else if 0 <? Z.land value (Z.shiftl 4278190080 32) then
    buf ← set_idx buf 8 (u8 value);
    buf ← write_nine_loop 8 buf (Z.shiftr value 8);
    Ok (buf, 9)
  else
    '(encoded, n) ← encode_loop 10 (replicate 9 0) value 0;
    e0 ← idx encoded 0;
    encoded ← set_idx encoded 0 (Z.land e0 127);
    buf ← copy_reversed_loop (Z.to_nat n) 0 n encoded buf;
    Ok (buf, n).

Definition write_varint_to_vec (value : Z) (payload : bytes) : Result bytes :=
  '(varint, n) ← write_varint (replicate 9 0) value;
  x ← slice varint 0 n;
  Ok (payload ++ x).

(** ** Reference decoder and encoder *)

(** Up to eight bytes of seven bits, high bit set on all but the last, then a
    ninth byte of eight bits that is only legal when the top byte of the
    value is not zero. *)
Fixpoint varint_decode (k : nat) (v n : Z) (buf : bytes) : option (Z * Z) :=
  match buf with
  | [] => None
  | c :: buf' =>
      match k with
      | O => if v <? 2 ^ 48 then None else Some (v * 256 + c, n + 1)
      | S k' =>
          if c <? 128 then Some (v * 128 + c, n + 1)
          else varint_decode k' (v * 128 + (c - 128)) (n + 1) buf'
      end
  end.

Definition varint_spec (buf : bytes) : option (Z * Z) := varint_decode 8 0 0 buf.

#[global] Arguments varint_spec : simpl never.

(** The low [k] base-128 digits of [q], most significant first, with the
    continuation bit. *)
Fixpoint continuation (k : nat) (q : Z) : bytes :=
  match k with
  | O => []
  | S k' => continuation k' (q / 128) ++ [128 + q mod 128]
  end.

Definition varint_encode (v : Z) : bytes :=
  if v <? 2 ^ 56
  then continuation (Z.to_nat (varint_len v - 1)) (v / 128) ++ [v mod 128]
  else continuation 8 (v / 256) ++ [v mod 256].

(** ** The readers decode what the reference decodes *)

Lemma land_127 c : Z.land c 127 = c mod 128.
Proof. by apply (land_mod 7 127). Qed.

Lemma land_128 c : is_u8 c -> (Z.land c 128 =? 0) = (c <? 128).
Proof.
  intros Hc. destruct (Z.ltb_spec c 128).
  - rewrite <- (Z.mod_small c 128) by rlia. apply Z.eqb_eq.
    change 128 with (2 ^ 7) at 1. rewrite <- Z.land_ones by lia.
    rewrite <- Z.land_assoc. apply Z.land_0_r.
  - apply Z.eqb_neq. intros H0.
    assert (Z.testbit (Z.land c 128) 7 = true) as Hb; [|by rewrite H0 in Hb].
    rewrite Z.land_spec. change (Z.testbit 128 7) with true.
    rewrite andb_true_r. apply Z.testbit_true; [lia|]. change (2 ^ 7) with 128.
    divlia.
Qed.

Lemma shl7_small v : 0 <= v < 2 ^ 56 -> u64 (Z.shiftl v 7) = v * 128.
Proof. intros. rewrite Z.shiftl_mul_pow2 by lia. apply Z.mod_small. lia. Qed.

Lemma getZ_app_at (p buf : bytes) : getZ (p ++ buf) (lenZ p) = head buf.
Proof.
  unfold lenZ. rewrite getZ_of_nat, lookup_app_r, Nat.sub_diag by lia.
  by destruct buf.
Qed.

(** The outcome of the scanning loop from the position after [p], in terms of
    the reference decoder. *)
Lemma read_varint_partial_loop_spec k : forall p buf v,
  bytes_ok buf -> 0 <= v < 2 ^ (56 - 7 * Z.of_nat k) -> (k <= 8)%nat ->
  match read_varint_partial_loop k (p ++ buf) (lenZ p) v with
  | Some (inl r) => varint_decode k v (lenZ p) buf = Some r
  | Some (inr w) =>
      (k <= length buf)%nat /\ 0 <= w < 2 ^ 56 /\
      varint_decode k v (lenZ p) buf =
        varint_decode 0 w (lenZ p + Z.of_nat k) (drop k buf)
  | None => varint_decode k v (lenZ p) buf = None /\ (length buf < k)%nat
  end.
Proof.
  induction k as [|k IH]; intros p buf v Hok Hv Hk; simpl.
  - rewrite Z.add_0_r. split_and!; [lia..|done].
  - rewrite getZ_app_at. destruct buf as [|c buf]; simpl; [split; [done|lia]|].
    apply Forall_cons in Hok as [Hc Hok].
    assert (0 <= v < 2 ^ 56) by (split; [lia|]; apply Z.lt_le_trans with (1 := proj2 Hv);
      apply Z.pow_le_mono_r; lia).
    rewrite land_127, land_128, shl7_small by done.
    destruct (Z.ltb_spec c 128).
    { rewrite Z.mod_small by rlia. done. }
    replace (c mod 128) with (c - 128) by divlia.
    specialize (IH (p ++ [c]) buf (v * 128 + (c - 128)) Hok).
    rewrite <- app_assoc in IH. simpl in IH.
    replace (lenZ (p ++ [c])) with (lenZ p + 1) in IH by (rewrite lenZ_app; done).
    assert (2 ^ (56 - 7 * Z.of_nat k) = 128 * 2 ^ (56 - 7 * Z.of_nat (S k))).
    { change 128 with (2 ^ 7). rewrite <- Z.pow_add_r by lia. f_equal. lia. }
    specialize (IH ltac:(rlia) ltac:(lia)).
    destruct (read_varint_partial_loop _ _ _ _) as [[r|w]|].
    + done.
    + destruct IH as (? & ? & ->). split_and!; [lia..|].
      by replace (lenZ p + 1 + Z.of_nat k) with (lenZ p + Z.of_nat (S k)) by lia.
    + destruct IH. split; [done|lia].
Qed.

Lemma read_varint_loop_partial k buf : forall i v,
  read_varint_loop k buf i v =
  match read_varint_partial_loop k buf i v with
  | Some r => Ok r | None => Err Corrupt
  end.
Proof.
  induction k as [|k IH]; intros i v; simpl; [done|].
  destruct (getZ buf i); [|done]. destruct (_ =? 0); [done|]. apply IH.
Qed.

Lemma varint_decode_nil k v n : varint_decode k v n [] = None.
Proof. by destruct k. Qed.

Lemma read_varint_partial_spec buf :
  bytes_ok buf ->
  match read_varint_partial buf with
  | Ok (Some r) => varint_spec buf = Some r
  | Ok None => varint_spec buf = None /\ lenZ buf < 9
  | Err e => e = Corrupt /\ varint_spec buf = None
  | Panic => False
  end.
Proof.
  intros Hok. unfold read_varint_partial, varint_spec.
  pose proof (read_varint_partial_loop_spec 8 [] buf 0 Hok
    ltac:(split; [lia|reflexivity]) ltac:(lia)) as H.
  simpl app in H. change (lenZ []) with 0 in H.
  destruct (read_varint_partial_loop 8 buf 0 0) as [[r|w]|]; [done| |].
  - destruct H as (Hlen & Hw & ->).
    assert (getZ buf 8 = head (drop 8 buf)) as ->.
    { change 8 with (Z.of_nat 8) at 1. rewrite getZ_of_nat, head_lookup, lookup_drop. done. }
    destruct (drop 8 buf) as [|c rest] eqn:Hd; cbn [head varint_decode].
    + apply (f_equal length) in Hd. rewrite length_drop in Hd. cbn [length] in Hd.
      split; [done|rlia].
    + rewrite shiftr_zero_test by lia. destruct (Z.ltb_spec w (2 ^ 48)); [done|].
      rewrite Z.shiftl_mul_pow2 by lia. unfold u64. rewrite Z.mod_small by lia.
      done.
  - destruct H. split; [done|rlia].
Qed.

Lemma read_varint_slow_spec buf :
  bytes_ok buf -> read_varint_slow buf = ok_or (varint_spec buf) Corrupt.
Proof.
  intros Hok. pose proof (read_varint_partial_spec buf Hok) as H.
  unfold read_varint_partial, read_varint_slow in *. rewrite read_varint_loop_partial.
  destruct (read_varint_partial_loop 8 buf 0 0) as [[r|w]|]; cbn [mbind Result_bind].
  - by rewrite H.
  - destruct (getZ buf 8); [destruct (_ =? 0)|].
    + by rewrite (proj2 H).
    + by rewrite H.
    + by rewrite (proj1 H).
  - by rewrite (proj1 H).
Qed.

Lemma fast_two b0 b1 :
  is_u8 b0 -> 128 <= b0 -> 0 <= b1 < 128 ->
  Z.lor (Z.shiftl (Z.land b0 127) 7) b1 = (b0 - 128) * 128 + b1.
Proof.
  intros. rewrite land_127, lor_shiftl_add by lia.
  replace (b0 mod 128) with (b0 - 128) by divlia. done.
Qed.

Lemma fast_three b0 b1 b2 :
  is_u8 b0 -> 128 <= b0 -> is_u8 b1 -> 128 <= b1 -> 0 <= b2 < 128 ->
  Z.lor (Z.lor (Z.shiftl (Z.land b0 127) 14) (Z.shiftl (Z.land b1 127) 7)) b2 =
  ((b0 - 128) * 128 + (b1 - 128)) * 128 + b2.
Proof.
  intros. rewrite !land_127.
  replace (b0 mod 128) with (b0 - 128) by divlia.
  replace (b1 mod 128) with (b1 - 128) by divlia.
  rewrite (lor_shiftl_add _ _ 14).
  - rewrite Z.shiftl_mul_pow2 by lia.
    replace ((b0 - 128) * 2 ^ 14 + (b1 - 128) * 2 ^ 7)
      with (((b0 - 128) * 128 + (b1 - 128)) * 2 ^ 7) by lia.
    rewrite lor_disjoint by lia. lia.
  - lia.
  - rewrite Z.shiftl_mul_pow2 by lia. rlia.
Qed.

Lemma read_varint_eq buf :
  bytes_ok buf -> read_varint buf = ok_or (varint_spec buf) Corrupt.
Proof.
  intros Hok. pose proof (read_varint_slow_spec buf Hok) as Hslow.
  unfold varint_spec in *.
  destruct buf as [|b0 [|b1 [|b2 rest]]]; [done| | |];
    inv_bytes;
    unfold read_varint; cbn [varint_decode] in *; rewrite ?Hslow;
    repeat match goal with |- context [?a <? 128] => destruct (Z.ltb_spec a 128) end;
    cbn [ok_or]; try done; try (repeat f_equal; rlia).
  - rewrite fast_two by rlia. do 2 f_equal; rlia.
  - rewrite fast_two by rlia. do 2 f_equal; rlia.
  - rewrite fast_three by rlia. do 2 f_equal; rlia.
Qed.

Lemma varint_decode_bounds k : forall v n buf w m,
  bytes_ok buf -> (k <= 8)%nat -> 0 <= v < 2 ^ (56 - 7 * Z.of_nat k) ->
  varint_decode k v n buf = Some (w, m) ->
  n < m <= n + Z.of_nat k + 1 /\ m - n <= lenZ buf /\ is_u64 w.
Proof.
  induction k as [|k IH]; intros v n [|c buf] w m Hok Hk Hv; simpl; try done;
    apply Forall_cons in Hok as [Hc Hok].
  - destruct (v <? 2 ^ 48); intros [= <- <-]. simpl in Hv. unfold lenZ. simpl. rlia.
  - assert (2 ^ (56 - 7 * Z.of_nat k) = 128 * 2 ^ (56 - 7 * Z.of_nat (S k))) as Hp.
    { change 128 with (2 ^ 7). rewrite <- Z.pow_add_r by lia. f_equal. lia. }
    assert (2 ^ (56 - 7 * Z.of_nat k) <= 2 ^ 56) by (apply Z.pow_le_mono_r; lia).
    unfold lenZ in *. cbn [length]. destruct (Z.ltb_spec c 128).
    + intros [= <- <-]. rlia.
    + intros (? & ? & ?)%IH; [|done|lia|rlia]. unfold lenZ in *. rlia.
Qed.

Lemma varint_spec_bounds buf w m :
  bytes_ok buf -> varint_spec buf = Some (w, m) ->
  1 <= m <= 9 /\ m <= lenZ buf /\ is_u64 w.
Proof.
  intros Hok H%varint_decode_bounds.
  - rewrite Z.sub_0_r in H. destruct H as (? & ? & ?). split_and!; done || lia.
  - done.
  - lia.
  - split; [lia|reflexivity].
Qed.

Lemma split_varint_eq buf :
  bytes_ok buf ->
  split_varint buf = ('(v, n) ← read_varint buf; Ok (v, drop (Z.to_nat n) buf)).
Proof.
  intros Hok.
  assert (forall v n, varint_spec buf = Some (v, n) ->
            slice_from buf n = Ok (drop (Z.to_nat n) buf)) as Hslice.
  { intros v n H%varint_spec_bounds; [|done]. apply slice_Ok.
    split_and!; [lia..|]. rewrite take_ge; [done|]. rewrite length_drop. unfold lenZ. lia. }
  assert (('(value, len) ← read_varint buf; tail ← slice_from buf len; Ok (value, tail)) =
          ('(v, n) ← read_varint buf; Ok (v, drop (Z.to_nat n) buf))) as Hrest.
  { rewrite read_varint_eq by done. destruct (varint_spec buf) as [[v n]|] eqn:E; [|done].
    simpl. by rewrite (Hslice v n). }
  unfold split_varint. destruct buf as [|b0 [|b1 rest]].
  - exact Hrest.
  - unfold read_varint at 2. unfold read_varint at 2 in Hrest.
    destruct (b0 <? 128); [done|exact Hrest].
  - unfold read_varint at 2. unfold read_varint at 2 in Hrest.
    destruct (b0 <? 128); [done|]. destruct (b1 <? 128); [done|exact Hrest].
Qed.

Lemma read_varint_len_eq buf :
  read_varint_len buf = ('(_, n) ← read_varint buf; Ok n).
Proof.
  unfold read_varint_len, read_varint_len_long, read_varint.
  destruct buf as [|b0 [|b1 [|b2 rest]]]; repeat case_match; done.
Qed.

(** ** The writer writes the reference encoding *)

Lemma continuation_length k : forall q, length (continuation k q) = k.
Proof.
  induction k as [|k IH]; intros q; simpl; [done|]. rewrite length_app, IH. simpl. lia.
Qed.

Lemma continuation_ok k : forall q, bytes_ok (continuation k q).
Proof.
  induction k as [|k IH]; intros q; simpl; [constructor|].
  apply Forall_app. split; [apply IH|]. constructor; [|constructor].
  pose proof (Z.mod_pos_bound q 128). rlia.
Qed.

Lemma varint_decode_continuation k : forall j v n q tl,
  (k <= j)%nat ->
  varint_decode j v n (continuation k q ++ tl) =
  varint_decode (j - k) (v * 128 ^ Z.of_nat k + q mod 128 ^ Z.of_nat k)
    (n + Z.of_nat k) tl.
Proof.
  induction k as [|k IH]; intros j v n q tl Hk.
  - simpl. rewrite Z.mod_1_r, Nat.sub_0_r. f_equal; lia.
  - simpl continuation. rewrite <- app_assoc, IH by lia. simpl app.
    destruct (j - k)%nat as [|j'] eqn:Hj; [lia|]. cbn [varint_decode].
    pose proof (Z.mod_pos_bound q 128 ltac:(lia)).
    destruct (Z.ltb_spec (128 + q mod 128) 128); [lia|].
    replace (j - S k)%nat with j' by lia.
    rewrite Nat2Z.inj_succ, Z.pow_succ_r, Z.rem_mul_r by lia. f_equal; lia.
Qed.

Lemma cont_byte q : u8 (Z.lor (Z.land q 127) 128) = 128 + q mod 128.
Proof.
  rewrite land_127, Z.lor_comm. pose proof (Z.mod_pos_bound q 128 ltac:(lia)).
  change 128 with (1 * 2 ^ 7) at 1. rewrite lor_disjoint by lia. apply Z.mod_small. lia.
Qed.

Lemma write_nine_loop_eq k : forall buf q,
  (k <= length buf)%nat ->
  write_nine_loop k buf q = Ok (continuation k q ++ drop k buf).
Proof.
  induction k as [|k IH]; intros buf q Hk; simpl; [by rewrite drop_0|].
  rewrite set_idx_nat by lia. simpl. rewrite IH by (rewrite length_insert; lia).
  rewrite cont_byte, Z.shiftr_div_pow2 by lia. change (2 ^ 7) with 128.
  rewrite drop_insert_here, <- app_assoc by lia. done.
Qed.

(** The base-128 digits of [b], least significant first, with the
    continuation bit; [k] bounds their number. *)
Fixpoint digits (k : nat) (b : Z) : bytes :=
  match k with
  | O => []
  | S k' => if b =? 0 then [] else (128 + b mod 128) :: digits k' (b / 128)
  end.

Lemma encode_loop_eq k : forall done rest b n,
  n = lenZ done -> 0 <= b < 128 ^ Z.of_nat k ->
  (length (digits k b) <= length rest)%nat ->
  encode_loop (S k) (done ++ rest) b n =
  Ok (done ++ digits k b ++ drop (length (digits k b)) rest,
      n + lenZ (digits k b)).
Proof.
  induction k as [|k IH]; intros done rest b n -> Hb Hlen;
    change (encode_loop (S ?k)) with
      (fun encoded bs n => if bs =? 0 then Ok (encoded, n) else
        encoded ← set_idx encoded n (u8 (Z.lor 128 (Z.land bs 127)));
        encode_loop k encoded (Z.shiftr bs 7) (n + 1)); cbv beta.
  - assert (b = 0) as -> by (simpl in Hb; lia).
    simpl. rewrite Z.add_0_r. done.
  - cbn [digits] in *. destruct (Z.eqb_spec b 0) as [->|Hne].
    { simpl. rewrite Z.add_0_r. done. }
    cbn [length] in *. destruct rest as [|r rest]; [simpl in Hlen; lia|].
    rewrite set_idx_app_at. cbn [mbind Result_bind]. rewrite Z.lor_comm, cont_byte.
    rewrite Z.shiftr_div_pow2 by lia. change (2 ^ 7) with 128.
    replace (done ++ (128 + b mod 128) :: rest)
      with ((done ++ [128 + b mod 128]) ++ rest) by by rewrite <- app_assoc.
    rewrite IH.
    + rewrite <- !app_assoc. unfold lenZ. simpl. do 2 f_equal. lia.
    + unfold lenZ. rewrite length_app. simpl. lia.
    + rewrite Nat2Z.inj_succ, Z.pow_succ_r in Hb by lia.
      split; [apply Z.div_pos; lia|]. apply Z.div_lt_upper_bound; lia.
    + simpl in Hlen. lia.
Qed.

Lemma digits_rev k : forall b,
  0 <= b < 128 ^ Z.of_nat k -> rev (digits k b) = continuation (length (digits k b)) b.
Proof.
  induction k as [|k IH]; intros b Hb; [done|]. simpl digits.
  destruct (Z.eqb_spec b 0); [done|]. cbn [length continuation rev].
  rewrite IH; [done|]. rewrite Nat2Z.inj_succ, Z.pow_succ_r in Hb by lia.
  split; [apply Z.div_pos; lia|]. apply Z.div_lt_upper_bound; lia.
Qed.

Lemma digits_length k : forall b,
  0 < b < 128 ^ Z.of_nat k -> Z.of_nat (length (digits k b)) = Z.log2 b / 7 + 1.
Proof.
  induction k as [|k IH]; intros b Hb; [simpl in Hb; lia|].
  rewrite Nat2Z.inj_succ, Z.pow_succ_r in Hb by lia.
  simpl. destruct (Z.eqb_spec b 0); [lia|]. cbn [length]. rewrite Nat2Z.inj_succ.
  destruct (Z.ltb_spec b 128).
  - rewrite Z.div_small by lia. destruct k; simpl;
      (assert (Z.log2 b < 7) by (apply Z.log2_lt_pow2; lia));
      pose proof (Z.log2_nonneg b); rewrite Z.div_small by lia; done.
  - rewrite IH.
    + change (b / 128) with (b / 2 ^ 7). rewrite <- Z.shiftr_div_pow2 by lia.
      rewrite Z.log2_shiftr by lia.
      assert (7 <= Z.log2 b) by (apply Z.log2_le_pow2; lia). divlia.
    + split; [apply Z.div_str_pos; lia|]. apply Z.div_lt_upper_bound; lia.
Qed.

Lemma copy_reversed_loop_eq k : forall i enc buf,
  (k <= length enc)%nat -> (i + k <= length buf)%nat ->
  copy_reversed_loop k (Z.of_nat i) (Z.of_nat (i + k)) enc buf =
  Ok (take i buf ++ rev (take k enc) ++ drop (i + k) buf).
Proof.
  induction k as [|k IH]; intros i enc buf Hk Hi; simpl.
  - rewrite Nat.add_0_r, take_drop. done.
  - destruct (lookup_lt_is_Some_2 enc k) as [x Hx]; [lia|].
    replace (Z.of_nat (i + S k) - 1 - Z.of_nat i) with (Z.of_nat k) by lia.
    unfold idx. rewrite getZ_of_nat, Hx. cbn [unwrap mbind Result_bind].
    rewrite set_idx_nat by lia. cbn [mbind Result_bind].
    replace (Z.of_nat i + 1) with (Z.of_nat (S i)) by lia.
    replace (i + S k)%nat with (S i + k)%nat by lia.
    rewrite IH by (rewrite ?length_insert; lia).
    rewrite (take_S_r _ _ x) by (rewrite list_lookup_insert_eq; [done|lia]).
    rewrite take_insert_ge, drop_insert_lt by lia.
    rewrite (take_S_r enc _ x) by done. rewrite rev_app_distr, <- !app_assoc. done.
Qed.

Lemma top_byte_test v :
  is_u64 v -> (0 <? Z.land v (Z.shiftl 4278190080 32)) = (2 ^ 56 <=? v).
Proof.
  intros Hv. change (Z.shiftl 4278190080 32) with (Z.shiftl (Z.ones 8) 56).
  rewrite land_field, Z.mod_small by (lia || divlia).
  destruct (Z.ltb_spec 0 (v / 2 ^ 56 * 2 ^ 56)), (Z.leb_spec (2 ^ 56) v);
    done || (exfalso; divlia).
Qed.

Lemma varint_len_digits v :
  127 < v < 2 ^ 56 -> varint_len v = Z.of_nat (length (digits 8 v)).
Proof.
  intros Hv. rewrite digits_length by (simpl; lia).
  unfold varint_len, leading_zeros64, div_ceil. case_Z; try lia.
  - change (Z.shiftl 1 56) with (2 ^ 56) in *. lia.
  - divlia.
Qed.

Lemma varint_len_9 v : 2 ^ 56 <= v -> varint_len v = 9.
Proof.
  intros. unfold varint_len. change (Z.shiftl 1 56) with (2 ^ 56). case_Z; lia.
Qed.

Lemma varint_len_bounds v : is_u64 v -> 1 <= varint_len v <= 9.
Proof.
  intros Hv. destruct (Z.le_gt_cases v 127).
  { unfold varint_len. case_Z; lia. }
  destruct (Z.le_gt_cases (2 ^ 56) v). { rewrite varint_len_9; lia. }
  rewrite varint_len_digits, digits_length by (simpl; lia).
  assert (7 <= Z.log2 v) by (apply Z.log2_le_pow2; lia).
  assert (Z.log2 v < 56) by (apply Z.log2_lt_pow2; lia). divlia.
Qed.

Lemma varint_encode_length v : is_u64 v -> lenZ (varint_encode v) = varint_len v.
Proof.
  intros Hv. pose proof (varint_len_bounds v Hv). unfold varint_encode, lenZ.
  destruct (Z.ltb_spec v (2 ^ 56)); rewrite length_app, continuation_length; simpl; [lia|].
  by rewrite varint_len_9.
Qed.

Lemma varint_encode_ok v : bytes_ok (varint_encode v).
Proof.
  unfold varint_encode. case_match; apply Forall_app; split; try apply continuation_ok;
    (constructor; [|constructor]).
  - pose proof (Z.mod_pos_bound v 128 ltac:(lia)). rlia.
  - pose proof (Z.mod_pos_bound v 256 ltac:(lia)). rlia.
Qed.

Lemma idx_cons_0 {A} (x : A) l : idx (x :: l) 0 = Ok x.
Proof. done. Qed.

Lemma set_idx_cons_0 {A} (x y : A) l : set_idx (x :: l) 0 y = Ok (y :: l).
Proof. apply set_idx_Ok. unfold lenZ. simpl. split; [lia|done]. Qed.

Lemma write_varint_long buf v :
  16383 < v < 2 ^ 56 -> varint_len v <= lenZ buf ->
  ('(encoded, n) ← encode_loop 10 (replicate 9 0) v 0;
    e0 ← idx encoded 0;
    encoded ← set_idx encoded 0 (Z.land e0 127);
    buf ← copy_reversed_loop (Z.to_nat n) 0 n encoded buf;
    Ok (buf, n)) =
  Ok (varint_encode v ++ drop (Z.to_nat (varint_len v)) buf, varint_len v).
Proof.
  intros Hv Hlen.
  assert (0 < v / 128 < 2 ^ 49) as Hq by divlia.
  assert (length (digits 8 (v / 128)) <= 7)%nat as H7.
  { apply Nat2Z.inj_le. rewrite digits_length by (simpl; lia).
    assert (Z.log2 (v / 128) < 49) by (apply Z.log2_lt_pow2; lia).
    pose proof (Z.log2_nonneg (v / 128)). divlia. }
  assert (digits 9 v = (128 + v mod 128) :: digits 8 (v / 128)) as HD.
  { cbn [digits]. destruct (Z.eqb_spec v 0); [lia|done]. }
  assert (varint_len v = Z.of_nat (S (length (digits 8 (v / 128))))) as HL.
  { change (S (length ?l)) with (length ((128 + v mod 128) :: l)). rewrite <- HD.
    rewrite varint_len_digits, !digits_length by (simpl; lia). done. }
  change (replicate 9 0) with ([] ++ replicate 9 0).
  rewrite (encode_loop_eq 9);
    [|done|simpl; lia|rewrite HD, length_replicate; cbn [length]; lia].
  unfold varint_encode. rewrite HL in *. destruct (Z.ltb_spec v (2 ^ 56)); [|lia].
  rewrite HD. set (D := digits 8 (v / 128)) in *.
  cbn [mbind Result_bind app]. rewrite idx_cons_0. cbn [mbind Result_bind].
  rewrite set_idx_cons_0. cbn [mbind Result_bind].
  change (0 + lenZ ((128 + v mod 128) :: D)) with (Z.of_nat (0 + S (length D))).
  change 0 with (Z.of_nat 0) at 1. rewrite Nat2Z.id.
  rewrite copy_reversed_loop_eq; [|simpl; rewrite length_app; lia|unfold lenZ in Hlen; lia].
  cbn [mbind Result_bind take app]. do 2 f_equal. rewrite Nat2Z.id.
  cbn [Nat.add take]. rewrite take_app_length. cbn [rev].
  replace (Z.to_nat (Z.of_nat (S (length D)) - 1)) with (length D) by lia.
  subst D. rewrite digits_rev by (simpl; lia).
  rewrite land_127. by replace ((128 + v mod 128) mod 128) with (v mod 128) by divlia.
Qed.

Lemma write_varint_eq buf v :
  is_u64 v -> varint_len v <= lenZ buf ->
  write_varint buf v =
  Ok (varint_encode v ++ drop (Z.to_nat (varint_len v)) buf, varint_len v).
Proof.
  intros Hv Hlen. unfold write_varint.
  destruct (Z.leb_spec v 127) as [H1|H1].
  { assert (varint_len v = 1) as HL by (unfold varint_len; case_Z; lia).
    unfold varint_encode. rewrite HL in *. destruct (Z.ltb_spec v (2 ^ 56)); [|rlia].
    destruct buf as [|b buf]; [unfold lenZ in Hlen; simpl in Hlen; lia|].
    rewrite set_idx_cons_0. simpl. rewrite land_127, Z.mod_small by rlia.
    unfold u8. rewrite Z.mod_small by rlia. done. }
  destruct (Z.leb_spec v 16383) as [H2|H2].
  { assert (varint_len v = 2) as HL.
    { rewrite varint_len_digits, digits_length by (simpl; lia).
      assert (7 <= Z.log2 v) by (apply Z.log2_le_pow2; lia).
      assert (Z.log2 v < 14) by (apply Z.log2_lt_pow2; lia). divlia. }
    unfold varint_encode. rewrite HL in *. destruct (Z.ltb_spec v (2 ^ 56)); [|rlia].
    destruct buf as [|b0 [|b1 buf]]; [unfold lenZ in Hlen; simpl in Hlen; lia..|].
    rewrite set_idx_cons_0. cbn [mbind Result_bind].
    rewrite (set_idx_nat _ 1) by (simpl; lia). cbn [mbind Result_bind].
    rewrite cont_byte, Z.shiftr_div_pow2, land_127 by lia. simpl.
    unfold u8. rewrite (Z.mod_small (v mod 128)) by divlia. done. }
  rewrite top_byte_test by done. destruct (Z.leb_spec (2 ^ 56) v).
  - rewrite varint_len_9 in * by done. unfold varint_encode.
    destruct (Z.ltb_spec v (2 ^ 56)); [lia|]. unfold lenZ in Hlen.
    rewrite (set_idx_nat _ 8) by lia. cbn [mbind Result_bind].
    rewrite write_nine_loop_eq by (rewrite length_insert; lia). cbn [mbind Result_bind].
    rewrite drop_insert_here, <- app_assoc, Z.shiftr_div_pow2 by lia. done.
  - apply write_varint_long; [lia|done].
Qed.

(** Decoding the reference encoding, whatever follows it. *)
Lemma varint_spec_encode v rest :
  is_u64 v -> varint_spec (varint_encode v ++ rest) = Some (v, varint_len v).
Proof.
  intros Hv. pose proof (varint_len_bounds v Hv) as HL. unfold varint_spec, varint_encode.
  destruct (Z.ltb_spec v (2 ^ 56)) as [Hs|Hs]; rewrite <- app_assoc.
  - set (k := Z.to_nat (varint_len v - 1)).
    assert (k <= 7)%nat as Hk.
    { subst k. destruct (Z.le_gt_cases v 127).
      { unfold varint_len. case_Z; lia. }
      rewrite varint_len_digits, digits_length by (simpl; lia).
      assert (Z.log2 v < 56) by (apply Z.log2_lt_pow2; lia). divlia. }
    rewrite varint_decode_continuation by lia. cbn [app].
    destruct (8 - k)%nat eqn:Hk'; [lia|]. cbn [varint_decode].
    pose proof (Z.mod_pos_bound v 128 ltac:(lia)).
    destruct (Z.ltb_spec (v mod 128) 128); [|lia].
    assert (v / 128 < 128 ^ Z.of_nat k) as Hq.
    { destruct (Z.le_gt_cases v 127).
      { rewrite Z.div_small by rlia. apply Z.pow_pos_nonneg; lia. }
      apply Z.div_lt_upper_bound; [lia|]. rewrite <- Z.pow_succ_r by lia.
      change 128 with (2 ^ 7). rewrite <- Z.pow_mul_r by lia.
      apply Z.log2_lt_pow2; [rlia|]. subst k.
      rewrite varint_len_digits, digits_length by (simpl; lia). divlia. }
    rewrite (Z.mod_small (v / 128)) by (split; [apply Z.div_pos; rlia|done]).
    do 2 f_equal; [divlia|lia].
  - rewrite varint_decode_continuation by lia. cbn [app Nat.sub varint_decode].
    change (128 ^ Z.of_nat 8) with (2 ^ 56).
    rewrite (Z.mod_small (v / 256)) by divlia.
    destruct (Z.ltb_spec (0 * 2 ^ 56 + v / 256) (2 ^ 48)); [divlia|].
    rewrite varint_len_9 by done. do 2 f_equal. divlia.
Qed.

(** A decoded value is below 128 to the number of bytes read, unless all nine
    were. *)
Lemma varint_decode_value k : forall v n buf w m,
  bytes_ok buf -> 0 <= v -> varint_decode k v n buf = Some (w, m) ->
  (m = n + Z.of_nat k + 1 /\ 2 ^ 56 <= w) \/
  (n < m <= n + Z.of_nat k /\ w < (v + 1) * 128 ^ (m - n)).
Proof.
  induction k as [|k IH]; intros v n [|c buf] w m Hok Hv; simpl; try done;
    apply Forall_cons in Hok as [Hc Hok].
  - destruct (Z.ltb_spec v (2 ^ 48)); intros [= <- <-]. left. rlia.
  - destruct (Z.ltb_spec c 128).
    + intros [= <- <-]. right. replace (n + 1 - n) with 1 by lia. rlia.
    + intros [[-> Hw]|[Hm Hw]]%IH; [left; lia|right|done|rlia].
      split; [lia|]. apply Z.lt_le_trans with (1 := Hw).
      replace (m - n) with (1 + (m - (n + 1))) by lia. rewrite Z.pow_add_r by lia.
      assert (0 < 128 ^ (m - (n + 1))) by (apply Z.pow_pos_nonneg; lia). ranges. nia.
Qed.

Lemma varint_len_le v n : is_u64 v -> 1 <= n <= 8 -> v < 128 ^ n -> varint_len v <= n.
Proof.
  intros Hv Hn Hlt. change 128 with (2 ^ 7) in Hlt. rewrite <- Z.pow_mul_r in Hlt by lia.
  assert (v < 2 ^ 56) by (apply Z.lt_le_trans with (1 := Hlt); apply Z.pow_le_mono_r; lia).
  destruct (Z.le_gt_cases v 127); [unfold varint_len; case_Z; lia|].
  rewrite varint_len_digits, digits_length by (simpl; lia).
  apply Z.log2_lt_pow2 in Hlt; [divlia|lia].
Qed.

Lemma varint_decode_app k : forall v n a b r,
  varint_decode k v n a = Some r -> varint_decode k v n (a ++ b) = Some r.
Proof.
  induction k as [|k IH]; intros v n [|c a] b r; simpl; try done.
  destruct (c <? 128); auto.
Qed.

Lemma varint_decode_long k : forall v n a b,
  (k < length a)%nat -> varint_decode k v n (a ++ b) = varint_decode k v n a.
Proof.
  induction k as [|k IH]; intros v n [|c a] b; simpl; try done; try lia.
  intros. destruct (c <? 128); [done|]. apply IH. lia.
Qed.

(** A buffer that ends inside a varint consists of continuation bytes. *)
Lemma read_varint_partial_loop_none k : forall p a v,
  bytes_ok a -> read_varint_partial_loop k (p ++ a) (lenZ p) v = None ->
  Forall (fun c => 128 <= c) a.
Proof.
  induction k as [|k IH]; intros p a v Hok; simpl; [done|].
  rewrite getZ_app_at. destruct a as [|c a]; [constructor|]. simpl.
  apply Forall_cons in Hok as [Hc Hok]. rewrite land_128 by done.
  destruct (Z.ltb_spec c 128); [done|]. intros H'. constructor; [done|].
  apply (IH (p ++ [c]) a (u64 (Z.shiftl v 7) + Z.land c 127)); [done|].
  rewrite <- app_assoc, lenZ_app. done.
Qed.

Lemma read_varint_partial_loop_inr k : forall p a v w,
  bytes_ok a -> read_varint_partial_loop k (p ++ a) (lenZ p) v = Some (inr w) ->
  Forall (fun c => 128 <= c) (take k a).
Proof.
  induction k as [|k IH]; intros p a v w Hok; simpl; [done|].
  rewrite getZ_app_at. destruct a as [|c a]; [constructor|]. simpl.
  apply Forall_cons in Hok as [Hc Hok]. rewrite land_128 by done.
  destruct (Z.ltb_spec c 128); [done|]. intros H'. constructor; [done|].
  apply (IH (p ++ [c]) a (u64 (Z.shiftl v 7) + Z.land c 127) w); [done|].
  rewrite <- app_assoc, lenZ_app. done.
Qed.

Lemma read_varint_partial_need_more a :
  bytes_ok a -> read_varint_partial a = Ok None ->
  lenZ a < 9 /\ Forall (fun c => 128 <= c) a.
Proof.
  intros Hok HN. pose proof (read_varint_partial_spec a Hok) as HS. rewrite HN in HS.
  split; [apply HS|]. unfold read_varint_partial in HN.
  destruct (read_varint_partial_loop 8 a 0 0) as [[r|w]|] eqn:HL; [done| |].
  - apply (read_varint_partial_loop_inr 8 [] a 0 w) in HL; [|done].
    rewrite take_ge in HL; [done|]. unfold lenZ in HS. lia.
  - apply (read_varint_partial_loop_none 8 [] a 0); done.
Qed.

Lemma read_varint_encode v rest :
  is_u64 v -> bytes_ok rest -> read_varint (varint_encode v ++ rest) = Ok (v, varint_len v).
Proof.
  intros. rewrite read_varint_eq, varint_spec_encode; [done..|].
  apply Forall_app. split; [apply varint_encode_ok|done].
Qed.

#[export] Hint Resolve varint_encode_ok varint_len_bounds continuation_ok : turso.

(** ** Properties *)

(** C38: Writing a [u64] into a buffer with room for it and reading the buffer
    back gives the value and the number of bytes written, that number is
    [varint_len], and the bytes after the varint keep their contents. *)
Theorem write_read_varint (buf : bytes) (v : Z)
    (Hv : is_u64 v) (Hbuf : bytes_ok buf) (Hroom : varint_len v <= lenZ buf) :
  exists buf',
    write_varint buf v = Ok (buf', varint_len v) /\
    lenZ buf' = lenZ buf /\
    drop (Z.to_nat (varint_len v)) buf' = drop (Z.to_nat (varint_len v)) buf /\
    read_varint buf' = Ok (v, varint_len v).
Proof.
  pose proof (varint_encode_length v Hv) as HL.
  eexists. split_and!.
  - by apply write_varint_eq.
  - rewrite lenZ_app, HL. unfold lenZ in *. rewrite length_drop. lia.
  - rewrite <- HL. unfold lenZ. rewrite Nat2Z.id. apply drop_app_length.
  - apply read_varint_encode; [done|]. by apply Forall_drop.
Qed.

Lemma write_read_varint_witness :
  exists buf',
    write_varint (replicate 9 0) 9000000000000000000 = Ok (buf', 9) /\
    read_varint buf' = Ok (9000000000000000000, 9).
Proof.
  destruct (write_read_varint (replicate 9 0) 9000000000000000000) as (b & H1 & _ & _ & H2).
  - rlia.
  - repeat constructor; rlia.
  - vm_compute. discriminate.
  - exists b. split; [exact H1|exact H2].
Defined.

(** What [read_varint_partial] reports when there is no varint: more data is needed
    below nine bytes, and nine bytes that are no varint are corrupt. *)
Lemma read_varint_partial_eq buf :
  bytes_ok buf ->
  read_varint_partial buf =
    match varint_spec buf with
    | Some r => Ok (Some r)
    | None => if lenZ buf <? 9 then Ok None else Err Corrupt
    end.
Proof.
  intros Hok. pose proof (read_varint_partial_spec buf Hok) as H.
  destruct (read_varint_partial buf) as [[r|]|e|] eqn:HP; [by rewrite H| | |done].
  - destruct H as [-> H]. by rewrite (proj2 (Z.ltb_lt _ _) H).
  - destruct H as [-> ->]. destruct (Z.ltb_spec (lenZ buf) 9) as [Hl|]; [|done].
    unfold read_varint_partial in HP.
    destruct (read_varint_partial_loop 8 buf 0 0) as [[?|w]|]; [done| |done].
    destruct (getZ buf 8) as [c|] eqn:Hc; [|done].
    pose proof (getZ_Some_lt _ _ _ Hc). lia.
Qed.

(** C39: On every byte buffer the four readers agree with one reference decoder:
    [read_varint] with its fast paths, [split_varint] (which returns the bytes
    after the varint) and [read_varint_len] return its result, or [Corrupt] when
    there is none; [read_varint_partial] returns its result, and when there is none
    it asks for more data if the buffer has fewer than nine bytes and otherwise
    returns [Corrupt].  No reader panics. *)
Theorem varint_readers_agree (buf : bytes) (Hbuf : bytes_ok buf) :
  read_varint buf = ok_or (varint_spec buf) Corrupt /\
  split_varint buf =
    ('(v, n) ← ok_or (varint_spec buf) Corrupt; Ok (v, drop (Z.to_nat n) buf)) /\
  read_varint_len buf = ('(_, n) ← ok_or (varint_spec buf) Corrupt; Ok n) /\
  read_varint_partial buf =
    match varint_spec buf with
    | Some r => Ok (Some r)
    | None => if lenZ buf <? 9 then Ok None else Err Corrupt
    end.
Proof.
  split_and!.
  - by apply read_varint_eq.
  - by rewrite split_varint_eq, read_varint_eq.
  - by rewrite read_varint_len_eq, read_varint_eq.
  - by apply read_varint_partial_eq.
Qed.

Lemma varint_readers_agree_witness :
  split_varint [129; 0; 7] = Ok (128, [7]) /\ varint_spec [129; 0; 7] = Some (128, 2) /\
  read_varint_partial [129; 200] = Ok None /\ read_varint_partial (128 :: replicate 8 129) = Err Corrupt.
Proof.
  destruct (varint_readers_agree [129; 0; 7]) as (_ & H & _); [repeat constructor; rlia|].
  destruct (varint_readers_agree [129; 200]) as (_ & _ & _ & H2); [repeat constructor; rlia|].
  destruct (varint_readers_agree (128 :: replicate 8 129)) as (_ & _ & _ & H3); [repeat constructor; rlia|].
  rewrite H, H2, H3. split_and!; reflexivity.
Defined.

(** A successful read consumes between one and nine bytes of the buffer,
    gives a [u64], and never consumes fewer bytes than the writer would use for
    that value: the writer's encoding is the shortest one the reader accepts. *)
Theorem read_varint_minimal (buf : bytes) (v n : Z)
    (Hbuf : bytes_ok buf) (Hread : read_varint buf = Ok (v, n)) :
  1 <= n <= 9 /\ n <= lenZ buf /\ is_u64 v /\ varint_len v <= n.
Proof.
  rewrite read_varint_eq in Hread by done. apply ok_or_Ok in Hread.
  pose proof (varint_spec_bounds _ _ _ Hbuf Hread) as (Hn & Hl & Hv).
  split_and!; try done; try lia.
  apply varint_decode_value in Hread as [[-> _]|[Hm Hw]]; [|..|done|lia].
  - pose proof (varint_len_bounds v Hv). lia.
  - apply varint_len_le; [done|lia|]. rewrite Z.sub_0_r in Hw. lia.
Qed.

Lemma read_varint_minimal_witness :
  read_varint [128; 128; 5] = Ok (5, 3) /\ varint_len 5 <= 3.
Proof.
  split; [reflexivity|]. apply (read_varint_minimal [128; 128; 5] 5 3).
  - repeat constructor; rlia.
  - reflexivity.
Defined.

(** [read_varint_partial] on a prefix of a stream is decisive: a value or
    an error is the one [read_varint] reports on the whole stream, and a request
    for more data comes only when fewer than nine bytes are there, all of them
    continuation bytes. *)
Theorem read_varint_partial_stream (a b : bytes) (Hok : bytes_ok (a ++ b)) :
  match read_varint_partial a with
  | Ok (Some r) => read_varint (a ++ b) = Ok r
  | Ok None => lenZ a < 9 /\ Forall (fun c => 128 <= c) a
  | Err e => e = Corrupt /\ lenZ a >= 9 /\ read_varint (a ++ b) = Err Corrupt
  | Panic => False
  end.
Proof.
  pose proof Hok as Hab. apply Forall_app in Hok as [Ha Hb].
  pose proof (read_varint_partial_spec a Ha) as HS.
  destruct (read_varint_partial a) as [[r|]| |] eqn:HP.
  - rewrite read_varint_eq by done. unfold varint_spec in *.
    by rewrite (varint_decode_app _ _ _ _ _ _ HS).
  - by apply read_varint_partial_need_more.
  - destruct HS as [-> HS]. unfold read_varint_partial in HP.
    destruct (read_varint_partial_loop 8 a 0 0) as [[?|w]|] eqn:HL; [done| |done].
    destruct (getZ a 8) as [c|] eqn:Hc; [|done].
    pose proof (getZ_Some_lt _ _ _ Hc). split_and!; [done|lia|].
    rewrite read_varint_eq by done. unfold varint_spec in *.
    rewrite varint_decode_long by (unfold lenZ in *; lia). by rewrite HS.
  - done.
Qed.

Lemma read_varint_partial_stream_witness :
  read_varint_partial [200] = Ok None /\ lenZ [200] < 9 /\
  read_varint ([129; 5] ++ [6]) = Ok (133, 2).
Proof.
  split; [reflexivity|]. split.
  - apply (read_varint_partial_stream [200] []). repeat constructor; rlia.
  - apply (read_varint_partial_stream [129; 5] [6]). repeat constructor; rlia.
Defined.
