(* ===== verification/OnDisk.v ===== *)
(** * OnDisk: the fixed-size types of the database and WAL file formats

    Models the constants and types at the head of
    core/storage/sqlite3_ondisk.rs: [PageSize], [CacheSize], [Version],
    [TextEncoding], [DatabaseHeader] (with the byte layout of its packed
    [repr]), [WalHeader], [WalFrameHeader] and [PageType], and the places that read
    and write the database header: [HeaderRef] and [write_database_header] of
    pager.rs, and the raw reads in page_transform.rs and wal.rs. *)

From S2P Require Import Prelude.

(** ** Constants *)

Definition MINIMUM_CELL_SIZE : Z := 4.
Definition CELL_PTR_SIZE_BYTES : Z := 2.
Definition INTERIOR_PAGE_HEADER_SIZE_BYTES : Z := 12.
Definition LEAF_PAGE_HEADER_SIZE_BYTES : Z := 8.
Definition LEFT_CHILD_PTR_SIZE_BYTES : Z := 4.
Definition WAL_HEADER_SIZE : Z := 32.
Definition WAL_FRAME_HEADER_SIZE : Z := 24.
Definition WAL_MAGIC_LE : Z := 930023042. (* 0x377f0682 *)
Definition WAL_MAGIC_BE : Z := 930023043. (* 0x377f0683 *)

(** ** PageSize *)

(** The raw big-endian [u16]; 1 stands for 65536. *)
Record PageSize := PageSize_mk { PageSize_raw : Z }.

Definition PageSize_MIN : Z := 512.
Definition PageSize_MAX : Z := 65536.
Definition PageSize_DEFAULT : Z := 4096.
Definition PageSize_MIN_USABLE_SPACE : Z := 480.

Definition PageSize_new (size : Z) : option PageSize :=
  if existsb (Z.eqb size) [512; 1024; 2048; 4096; 8192; 16384; 32768]
  then Some (PageSize_mk (u16 size))
  else if size =? PageSize_MAX then Some (PageSize_mk 1)
  else None.

Definition PageSize_new_from_header_u16 (value : Z) : Result PageSize :=
  if value =? 1 then Ok (PageSize_mk 1)
  else match PageSize_new value with
       | Some size => Ok size
       | None => Err Corrupt
       end.

Definition PageSize_get (p : PageSize) : Z :=
  if PageSize_raw p =? 1 then PageSize_MAX else PageSize_raw p.

Definition PageSize_has_valid_reserved_space (p : PageSize) (reserved_space : Z) : bool :=
  PageSize_MIN_USABLE_SPACE <=? saturating_sub (PageSize_get p) reserved_space.

Definition PageSize_default : PageSize := PageSize_mk PageSize_DEFAULT.

(** ** CacheSize *)

(** The raw big-endian [i32]; 0 stands for the default. *)
Record CacheSize := CacheSize_mk { CacheSize_raw : Z }.

Definition CacheSize_DEFAULT : Z := -2000.

Definition CacheSize_new (size : Z) : CacheSize :=
  if size =? CacheSize_DEFAULT then CacheSize_mk 0 else CacheSize_mk size.

Definition CacheSize_get (c : CacheSize) : Z :=
  if CacheSize_raw c =? 0 then CacheSize_DEFAULT else CacheSize_raw c.

Definition CacheSize_default : CacheSize := CacheSize_mk CacheSize_DEFAULT.

(** ** Version *)

Inductive Version := Version_Legacy | Version_Wal | Version_Mvcc.

#[export] Instance Version_eq_dec : EqDecision Version.
Proof. solve_decision. Defined.

(** [v as u8] *)
Definition Version_to_u8 (v : Version) : Z :=
  match v with Version_Legacy => 1 | Version_Wal => 2 | Version_Mvcc => 255 end.

(** [TryFrom<u8>]; the error carries the raw byte. *)
Definition Version_try_from (value : Z) : Version + Z :=
  if value =? 1 then inl Version_Legacy
  else if value =? 2 then inl Version_Wal
  else if value =? 255 then inl Version_Mvcc
  else inr value.

Definition Version_wal (v : Version) : bool :=
  match v with Version_Wal => true | _ => false end.
Definition Version_mvcc (v : Version) : bool :=
  match v with Version_Mvcc => true | _ => false end.
Definition Version_legacy (v : Version) : bool :=
  match v with Version_Legacy => true | _ => false end.

(** ** TextEncoding *)

Definition TextEncoding_Unset : Z := 0.
Definition TextEncoding_Utf8 : Z := 1.
Definition TextEncoding_Utf16Le : Z := 2.
Definition TextEncoding_Utf16Be : Z := 3.

Definition TextEncoding_is_utf8 (e : Z) : bool :=
  (e =? TextEncoding_Utf8) || (e =? TextEncoding_Unset).

(** ** PageType *)

Inductive PageType := IndexInterior | TableInterior | IndexLeaf | TableLeaf.

#[export] Instance PageType_eq_dec : EqDecision PageType.
Proof. solve_decision. Defined.

(** The [repr(u8)] discriminants. *)
Definition page_type_u8 (t : PageType) : Z :=
  match t with
  | IndexInterior => 2 | TableInterior => 5 | IndexLeaf => 10 | TableLeaf => 13
  end.

Definition is_table (t : PageType) : bool :=
  match t with
  | IndexInterior | IndexLeaf => false
  | TableInterior | TableLeaf => true
  end.

Definition page_type_try_from (value : Z) : Result PageType :=
  if value =? 2 then Ok IndexInterior
  else if value =? 5 then Ok TableInterior
  else if value =? 10 then Ok IndexLeaf
  else if value =? 13 then Ok TableLeaf
  else Err Corrupt.

(** ** DatabaseHeader *)

Record DatabaseHeader := mkDatabaseHeader {
  dh_magic : bytes;                     (* 16 bytes *)
  dh_page_size : PageSize;
  dh_write_version : Z;
  dh_read_version : Z;
  dh_reserved_space : Z;
  dh_max_embed_frac : Z;
  dh_min_embed_frac : Z;
  dh_leaf_frac : Z;
  dh_change_counter : Z;
  dh_database_size : Z;
  dh_freelist_trunk_page : Z;
  dh_freelist_pages : Z;
  dh_schema_cookie : Z;
  dh_schema_format : Z;
  dh_default_page_cache_size : CacheSize;
  dh_vacuum_mode_largest_root_page : Z;
  dh_text_encoding : Z;
  dh_user_version : Z;
  dh_incremental_vacuum_enabled : Z;
  dh_application_id : Z;
  dh_padding : bytes;                   (* 20 bytes *)
  dh_version_valid_for : Z;
  dh_version_number : Z
}.

Definition DatabaseHeader_SIZE : Z := 100.

Definition usable_space (h : DatabaseHeader) : Result Z :=
  checked_sub (PageSize_get (dh_page_size h)) (dh_reserved_space h).

(** The representation of the struct ([repr(C, packed)]): the fields in the order of
    their declaration without gaps, single bytes and big-endian 2- and 4-byte integers.
    The code casts between the struct and its bytes. *)
Definition header_bytes (h : DatabaseHeader) : bytes :=
  dh_magic h ++
  be_split 2 (PageSize_raw (dh_page_size h)) ++
  [dh_write_version h; dh_read_version h; dh_reserved_space h;
   dh_max_embed_frac h; dh_min_embed_frac h; dh_leaf_frac h] ++
  be_split 4 (dh_change_counter h) ++
  be_split 4 (dh_database_size h) ++
  be_split 4 (dh_freelist_trunk_page h) ++
  be_split 4 (dh_freelist_pages h) ++
  be_split 4 (dh_schema_cookie h) ++
  be_split 4 (dh_schema_format h) ++
  be_split 4 (CacheSize_raw (dh_default_page_cache_size h)) ++
  be_split 4 (dh_vacuum_mode_largest_root_page h) ++
  be_split 4 (dh_text_encoding h) ++
  be_split 4 (dh_user_version h) ++
  be_split 4 (dh_incremental_vacuum_enabled h) ++
  be_split 4 (dh_application_id h) ++
  dh_padding h ++
  be_split 4 (dh_version_valid_for h) ++
  be_split 4 (dh_version_number h).

(** The sizes of the fields in the order of their declaration, and the offset of
    the [i]-th. *)
Definition header_sizes : list nat := [16; 2; 1; 1; 1; 1; 1; 1; 4; 4; 4; 4; 4; 4; 4; 4; 4; 4; 4; 4; 20; 4; 4]%nat.
Definition offset_of (i : nat) : nat := sum_list (take i header_sizes).

(** The [n] bytes at offset [off] of a fixed-size array. *)
Definition field (b : bytes) (off n : nat) : bytes := take n (drop off b).
Definition field_u8 (b : bytes) (off : nat) : Z := be_combine (field b off 1).
Definition field_be (b : bytes) (off n : nat) : Z := be_combine (field b off n).

Definition header_of_bytes (b : bytes) : DatabaseHeader := {|
  dh_magic := field b (offset_of 0) 16;
  dh_page_size := PageSize_mk (field_be b (offset_of 1) 2);
  dh_write_version := field_u8 b (offset_of 2);
  dh_read_version := field_u8 b (offset_of 3);
  dh_reserved_space := field_u8 b (offset_of 4);
  dh_max_embed_frac := field_u8 b (offset_of 5);
  dh_min_embed_frac := field_u8 b (offset_of 6);
  dh_leaf_frac := field_u8 b (offset_of 7);
  dh_change_counter := field_be b (offset_of 8) 4;
  dh_database_size := field_be b (offset_of 9) 4;
  dh_freelist_trunk_page := field_be b (offset_of 10) 4;
  dh_freelist_pages := field_be b (offset_of 11) 4;
  dh_schema_cookie := field_be b (offset_of 12) 4;
  dh_schema_format := field_be b (offset_of 13) 4;
  dh_default_page_cache_size := CacheSize_mk (signed 32 (field_be b (offset_of 14) 4));
  dh_vacuum_mode_largest_root_page := field_be b (offset_of 15) 4;
  dh_text_encoding := field_be b (offset_of 16) 4;
  dh_user_version := signed 32 (field_be b (offset_of 17) 4);
  dh_incremental_vacuum_enabled := field_be b (offset_of 18) 4;
  dh_application_id := signed 32 (field_be b (offset_of 19) 4);
  dh_padding := field b (offset_of 20) 20;
  dh_version_valid_for := field_be b (offset_of 21) 4;
  dh_version_number := field_be b (offset_of 22) 4
|}.

(** [HeaderRef::borrow] of pager.rs; [buf] is the buffer of page 1. *)
Definition header_borrow (buf : bytes) : Result DatabaseHeader :=
  b ← slice buf 0 DatabaseHeader_SIZE; Ok (header_of_bytes b).

Definition write_database_header (buf : bytes) (header : DatabaseHeader) : Result bytes :=
  _ ← slice buf 0 DatabaseHeader_SIZE; write_slice buf 0 (header_bytes header).

(** [PageCodecHeaderInfo] of page_transform.rs, read from the first bytes of the file
    before page 1 is decoded. *)
Record PageCodecHeaderInfo := mkPageCodecHeaderInfo { pc_page_size : Z; pc_reserved_space : Z }.

Definition SQLITE_BOOTSTRAP_HEADER_LEN : Z := 21.

Definition from_visible_sqlite_header (raw_page1_prefix : bytes) : Result PageCodecHeaderInfo :=
  if lenZ raw_page1_prefix <? SQLITE_BOOTSTRAP_HEADER_LEN then Err InvalidArgument
  else
    b ← slice raw_page1_prefix 16 18;
    let raw_page_size := be_combine b in
    let page_size := if raw_page_size =? 1 then 65536 else raw_page_size in
    reserved_space ← idx raw_page1_prefix 20;
    Ok (mkPageCodecHeaderInfo page_size reserved_space).

(** The characters of ``SQLite format 3'' and the terminating zero byte. *)
Definition SQLITE_MAGIC : bytes :=
  [83; 81; 76; 105; 116; 101; 32; 102; 111; 114; 109; 97; 116; 32; 51; 0].

Definition default_header : DatabaseHeader := {|
  dh_magic := SQLITE_MAGIC;
  dh_page_size := PageSize_default;
  dh_write_version := Version_to_u8 Version_Wal;
  dh_read_version := Version_to_u8 Version_Wal;
  dh_reserved_space := 0;
  dh_max_embed_frac := 64;
  dh_min_embed_frac := 32;
  dh_leaf_frac := 32;
  dh_change_counter := 1;
  dh_database_size := 0;
  dh_freelist_trunk_page := 0;
  dh_freelist_pages := 0;
  dh_schema_cookie := 0;
  dh_schema_format := 4;
  dh_default_page_cache_size := CacheSize_default;
  dh_vacuum_mode_largest_root_page := 0;
  dh_text_encoding := TextEncoding_Utf8;
  dh_user_version := 0;
  dh_incremental_vacuum_enabled := 0;
  dh_application_id := 0;
  dh_padding := replicate 20 0;
  dh_version_valid_for := 3047000;
  dh_version_number := 3047000
|}.

(** [database_identity_from_header_bytes] of wal.rs: size and checksum of a database
    file; the checksum function is a library's. *)
Definition database_identity_from_header_bytes (crc32c : bytes -> Z) (header_bytes : bytes) : Result (Z * Z) :=
  if lenZ header_bytes <? DatabaseHeader_SIZE then Err Corrupt
  else
    magic ← slice header_bytes 0 16;
    if negb (bool_decide (magic = SQLITE_MAGIC)) then Err Corrupt
    else
      b ← slice header_bytes 28 32;
      c ← slice header_bytes 0 DatabaseHeader_SIZE;
      Ok (be_combine b, crc32c c).

(** ** WAL headers *)

Record WalHeader := mkWalHeader {
  wh_magic : Z;
  wh_file_format : Z;
  wh_page_size : Z;
  wh_checkpoint_seq : Z;
  wh_salt_1 : Z;
  wh_salt_2 : Z;
  wh_checksum_1 : Z;
  wh_checksum_2 : Z
}.

(** [WalHeader::new]; [big] is [cfg!(target_endian = big)]. *)
Definition WalHeader_new (big : bool) : WalHeader := {|
  wh_magic := if big then WAL_MAGIC_BE else WAL_MAGIC_LE;
  wh_file_format := 3007000;
  wh_page_size := 0;
  wh_checkpoint_seq := 0;
  wh_salt_1 := 0;
  wh_salt_2 := 0;
  wh_checksum_1 := 0;
  wh_checksum_2 := 0
|}.

Record WalFrameHeader := mkWalFrameHeader {
  fh_page_number : Z;
  fh_db_size : Z;
  fh_salt_1 : Z;
  fh_salt_2 : Z;
  fh_checksum_1 : Z;
  fh_checksum_2 : Z
}.

Definition is_commit_frame (h : WalFrameHeader) : bool := 0 <? fh_db_size h.

(** ** Lemmas *)

Lemma existsb_Z_In z l : existsb (Z.eqb z) l = true <-> In z l.
Proof.
  rewrite existsb_exists. split.
  - intros (x & ? & ->%Z.eqb_eq). done.
  - intros. exists z. split; [done|]. apply Z.eqb_refl.
Qed.

(** The accepted sizes, as a list: [2 ^ 9] to [2 ^ 16]. *)
Definition page_sizes : list Z := [512; 1024; 2048; 4096; 8192; 16384; 32768; 65536].

Lemma PageSize_new_cases size :
  match PageSize_new size with
  | Some p => In size page_sizes /\ PageSize_get p = size /\ is_u16 (PageSize_raw p)
  | None => ~ In size page_sizes
  end.
Proof.
  unfold PageSize_new.
  destruct (existsb _ _) eqn:E.
  - apply existsb_Z_In in E. simpl in E.
    repeat destruct E as [<-|E]; try done;
      (split; [simpl; tauto|]; split; [reflexivity|vm_compute; split; congruence]).
  - destruct (Z.eqb_spec size PageSize_MAX) as [->|Hne].
    + split; [simpl; tauto|]. split; [reflexivity|vm_compute; split; congruence].
    + intros H. unfold page_sizes in H.
      assert (In size [512; 1024; 2048; 4096; 8192; 16384; 32768]) as H'%existsb_Z_In.
      { simpl in *. unfold PageSize_MAX in Hne. intuition lia. }
      congruence.
Qed.

Lemma page_sizes_pow2 size :
  In size page_sizes <-> exists k, 9 <= k <= 16 /\ size = 2 ^ k.
Proof.
  split.
  - intros H. simpl in H.
    repeat destruct H as [<-|H]; try done;
      [exists 9|exists 10|exists 11|exists 12|exists 13|exists 14|exists 15|exists 16];
      (split; [lia|reflexivity]).
  - intros (k & Hk & ->).
    assert (k = 9 \/ k = 10 \/ k = 11 \/ k = 12 \/ k = 13 \/ k = 14 \/ k = 15 \/ k = 16)
      as Hc by lia.
    repeat destruct Hc as [->|Hc]; try rewrite Hc; simpl; tauto.
Qed.

Lemma PageSize_new_bounds size p :
  PageSize_new size = Some p -> 512 <= size <= 65536 /\ size mod 8 = 0.
Proof.
  intros H. pose proof (PageSize_new_cases size) as Hc. rewrite H in Hc.
  destruct Hc as [Hc _]. simpl in Hc.
  repeat destruct Hc as [<-|Hc]; try done; (split; [lia|reflexivity]).
Qed.

Lemma signed_range w z : 0 < w -> - 2 ^ (w - 1) <= signed w z < 2 ^ (w - 1).
Proof.
  intros Hw. unfold signed.
  assert (2 ^ w = 2 * 2 ^ (w - 1)) as Hp.
  { rewrite <- Z.pow_succ_r by lia. f_equal. lia. }
  pose proof (Z.mod_pos_bound z (2 ^ w) ltac:(apply Z.pow_pos_nonneg; lia)).
  destruct (Z.ltb_spec (z mod 2 ^ w) (2 ^ (w - 1))); lia.
Qed.

Lemma signed_mod w z : 0 < w -> signed w z mod 2 ^ w = z mod 2 ^ w.
Proof.
  intros Hw. unfold signed.
  assert (0 < 2 ^ w) by (apply Z.pow_pos_nonneg; lia).
  destruct (_ <? _).
  - apply Z.mod_mod. lia.
  - replace (z mod 2 ^ w - 2 ^ w) with (z mod 2 ^ w + (-1) * 2 ^ w) by lia.
    rewrite Z.mod_add by lia. apply Z.mod_mod. lia.
Qed.

Lemma signed_id w z : 0 < w -> - 2 ^ (w - 1) <= z < 2 ^ (w - 1) -> signed w z = z.
Proof.
  intros Hw Hz. unfold signed.
  assert (2 ^ w = 2 * 2 ^ (w - 1)) as Hp.
  { rewrite <- Z.pow_succ_r by lia. f_equal. lia. }
  destruct (Z.le_gt_cases 0 z).
  - rewrite Z.mod_small by lia. destruct (Z.ltb_spec z (2 ^ (w - 1))); lia.
  - assert (z mod 2 ^ w = z + 2 ^ w) as ->.
    { rewrite <- (Z.mod_add z 1) by lia. rewrite Z.mul_1_l. apply Z.mod_small. lia. }
    destruct (Z.ltb_spec (z + 2 ^ w) (2 ^ (w - 1))); lia.
Qed.

Lemma signed32_roundtrip z :
  -2147483648 <= z < 2147483648 -> signed 32 (be_combine (be_split 4 z)) = z.
Proof.
  intros. rewrite be_combine_split. change (256 ^ Z.of_nat 4) with (2 ^ 32).
  rewrite <- (signed_id 32 z) at 2 by (simpl; lia).
  unfold signed. rewrite Z.mod_mod by lia. done.
Qed.

Lemma field_app_skip (x y : bytes) off n :
  (length x <= off)%nat -> field (x ++ y) off n = field y (off - length x) n.
Proof. intros. unfold field. rewrite drop_app_ge by lia. done. Qed.

Lemma field_app_here (x y : bytes) n : length x = n -> field (x ++ y) 0 n = x.
Proof. intros <-. unfold field. simpl. apply take_app_length. Qed.

Lemma field_whole (x : bytes) n : length x = n -> field x 0 n = x.
Proof. intros <-. unfold field. simpl. apply firstn_all. Qed.

Lemma field_cons_skip c (y : bytes) off n : field (c :: y) (S off) n = field y off n.
Proof. done. Qed.

Lemma field_cons_here c (y : bytes) : field (c :: y) 0 1 = [c].
Proof. done. Qed.

(** The ranges of the header's fields. *)
Definition header_wf (h : DatabaseHeader) : Prop :=
  (length (dh_magic h) = 16%nat) /\ (length (dh_padding h) = 20%nat) /\
  is_u16 (PageSize_raw (dh_page_size h)) /\
  Forall is_u32
    [dh_change_counter h; dh_database_size h; dh_freelist_trunk_page h;
     dh_freelist_pages h; dh_schema_cookie h; dh_schema_format h;
     dh_vacuum_mode_largest_root_page h; dh_text_encoding h;
     dh_incremental_vacuum_enabled h; dh_version_valid_for h; dh_version_number h] /\
  Forall (fun z => -2147483648 <= z < 2147483648)
    [CacheSize_raw (dh_default_page_cache_size h); dh_user_version h; dh_application_id h].

(** Reduce [field] of an explicit concatenation to the part it reads; [Hm]
    and [Hp] are the lengths of the two byte-array fields. *)
Ltac field_solve Hm Hp :=
  repeat match goal with
  | |- context [field (?x ++ ?y) 0 ?n] =>
      rewrite (field_app_here x y n) by (by rewrite ?be_split_length, ?Hm, ?Hp)
  | |- context [field (?x ++ ?y) ?o ?n] =>
      rewrite (field_app_skip x y o n)
        by (rewrite ?be_split_length, ?Hm, ?Hp; simpl; lia);
      rewrite ?be_split_length, ?Hm, ?Hp; cbn [Nat.sub length]
  | |- context [field (_ :: _) (S _) _] => rewrite field_cons_skip
  | |- context [field (_ :: _) 0 1] => rewrite field_cons_here
  | |- context [field (be_split _ _) 0 _] => rewrite field_whole by apply be_split_length
  end.

Lemma header_bytes_length h : header_wf h -> length (header_bytes h) = 100%nat.
Proof.
  intros (Hm & Hp & _). unfold header_bytes.
  rewrite !length_app, !be_split_length, Hm, Hp. done.
Qed.

Lemma be_combine_single c : be_combine [c] = c.
Proof. unfold be_combine. simpl. lia. Qed.

Lemma field_ok (b : bytes) off n : bytes_ok b -> bytes_ok (field b off n).
Proof. intros. apply Forall_take. by apply Forall_drop. Qed.

Lemma field_length (b : bytes) off n :
  (off + n <= length b)%nat -> length (field b off n) = n.
Proof. intros. unfold field. rewrite length_take, length_drop. lia. Qed.

(** ** Properties *)

(** [PageSize::new] accepts exactly the powers of two from 512 to 65536;
    the value reads back through [get], and its raw [u16] is the one the
    database header decodes to the same page size. *)
Theorem PageSize_new_spec (size : Z) :
  match PageSize_new size with
  | Some p =>
      (exists k, 9 <= k <= 16 /\ size = 2 ^ k) /\ PageSize_get p = size /\
      is_u16 (PageSize_raw p) /\ PageSize_new_from_header_u16 (PageSize_raw p) = Ok p
  | None => ~ exists k, 9 <= k <= 16 /\ size = 2 ^ k
  end.
Proof.
  pose proof (PageSize_new_cases size) as Hc. pose proof (page_sizes_pow2 size) as Hpow.
  destruct (PageSize_new size) as [p|] eqn:E; [|by rewrite <- Hpow].
  destruct Hc as (Hin & Hget & Hraw). split_and!; try done; [by apply Hpow|].
  simpl in Hin. repeat destruct Hin as [<-|Hin]; try done;
    (injection E as <-; reflexivity).
Qed.

(** Evaluates the offsets of fields. *)
Ltac offsets :=
  repeat match goal with
  | |- context [offset_of ?i] => let o := eval vm_compute in (offset_of i) in change (offset_of i) with o
  end.

Lemma header_of_header_bytes h rest : header_wf h -> header_of_bytes (header_bytes h ++ rest) = h.
Proof.
  intros (Hm & Hp & Hps & Hu & Hs).
  destruct h as [m [ps] ? ? ? ? ? ? ? ? ? ? ? ? [cs] ? ? ? ? ? pad ? ?]; simpl in *.
  unfold header_bytes, header_of_bytes, field_u8, field_be; simpl.
  repeat match goal with H : Forall _ (_ :: _) |- _ => apply Forall_cons in H as [? H] end.
  rewrite <- !app_assoc. simpl. rewrite <- !app_assoc. offsets.
  f_equal; field_solve Hm Hp;
    rewrite ?be_combine_single, ?be32_roundtrip, ?signed32_roundtrip, ?be16_roundtrip by done;
    done.
Qed.

Lemma slice_field (b : bytes) off n :
  (off + n <= length b)%nat -> slice b (Z.of_nat off) (Z.of_nat (off + n)) = Ok (field b off n).
Proof.
  intros H. unfold slice. replace (_ && _) with true by (unfold lenZ; symmetry; rewrite !andb_true_iff, !Z.leb_le; lia).
  unfold field. do 3 f_equal; lia.
Qed.

Lemma slice_header (b : bytes) : (100 <= length b)%nat -> slice b 0 DatabaseHeader_SIZE = Ok (field b 0 100).
Proof. exact (slice_field b 0 100). Qed.

Lemma field_take (b : bytes) m off n : (off + n <= m)%nat -> field (take m b) off n = field b off n.
Proof.
  intros H. unfold field. rewrite skipn_firstn_comm, take_take. f_equal. lia.
Qed.

Lemma idx_field (b : bytes) off : (off < length b)%nat -> idx b (Z.of_nat off) = Ok (field_u8 b off).
Proof.
  intros H. destruct (lookup_lt_is_Some_2 b off H) as [c Hc]. unfold idx. rewrite getZ_of_nat, Hc.
  unfold field_u8, field. rewrite (drop_S _ _ _ Hc). cbn [take firstn unwrap]. by rewrite be_combine_single.
Qed.

Lemma visible_header_field (buf : bytes) n :
  (100 <= length buf)%nat ->
  from_visible_sqlite_header (take n buf) =
    if (n <? 21)%nat then Err InvalidArgument
    else Ok (mkPageCodecHeaderInfo (PageSize_get (dh_page_size (header_of_bytes (field buf 0 100))))
                                   (dh_reserved_space (header_of_bytes (field buf 0 100)))).
Proof.
  intros Hl. unfold from_visible_sqlite_header, SQLITE_BOOTSTRAP_HEADER_LEN, lenZ. rewrite length_take.
  destruct (Nat.ltb_spec n 21).
  { by rewrite (proj2 (Z.ltb_lt _ _)) by lia. }
  rewrite (proj2 (Z.ltb_ge _ _)) by lia.
  rewrite (slice_field _ 16 2) by (rewrite length_take; lia). cbn [mbind Result_bind].
  rewrite (idx_field _ 20) by (rewrite length_take; lia). cbn [mbind Result_bind].
  unfold field_u8. rewrite !field_take by lia.
  unfold header_of_bytes; cbn [dh_page_size dh_reserved_space]. unfold field_u8, field_be.
  offsets.
  change (field buf 0 100) with (take 100 buf). by rewrite !field_take by lia.
Qed.

Lemma identity_field crc32c (buf : bytes) n :
  (100 <= length buf)%nat ->
  database_identity_from_header_bytes crc32c (take n buf) =
    if (n <? 100)%nat || negb (bool_decide (dh_magic (header_of_bytes (field buf 0 100)) = SQLITE_MAGIC)) then Err Corrupt
    else Ok (dh_database_size (header_of_bytes (field buf 0 100)), crc32c (take 100 buf)).
Proof.
  intros Hl. unfold database_identity_from_header_bytes, DatabaseHeader_SIZE, lenZ. rewrite length_take.
  destruct (Nat.ltb_spec n 100).
  { by rewrite (proj2 (Z.ltb_lt _ _)) by lia. }
  rewrite (proj2 (Z.ltb_ge _ _)) by lia. cbn [orb].
  rewrite (slice_field _ 0 16), (slice_field _ 28 4), (slice_field _ 0 100) by (rewrite length_take; lia).
  rewrite !field_take by lia. unfold header_of_bytes; cbn [mbind Result_bind dh_magic dh_database_size]. unfold field_be.
  offsets.
  change (field buf 0 100) with (take 100 buf). rewrite !field_take by lia.
  by destruct (bool_decide _).
Qed.

Lemma written_header (buf : bytes) h :
  (100 <= length buf)%nat -> header_wf h ->
  write_database_header buf h = Ok (splice buf 0 (header_bytes h)) /\
  header_borrow (splice buf 0 (header_bytes h)) = Ok h /\
  length (splice buf 0 (header_bytes h)) = length buf /\ drop 100 (splice buf 0 (header_bytes h)) = drop 100 buf.
Proof.
  intros Hl Hwf. pose proof (header_bytes_length h Hwf) as Hh.
  assert (splice buf 0 (header_bytes h) = header_bytes h ++ drop 100 buf) as Hs by (unfold splice; cbn; by rewrite Hh).
  split_and!.
  - unfold write_database_header. rewrite slice_header by done. cbn [mbind Result_bind].
    unfold write_slice. unfold lenZ. rewrite Hh. cbn. by rewrite (proj2 (Z.leb_le _ _)) by lia.
  - rewrite Hs. unfold header_borrow. rewrite slice_header by (rewrite length_app; lia).
    cbn [mbind Result_bind]. unfold field. rewrite drop_0, take_app_length' by done.
    f_equal. rewrite <- (app_nil_r (header_bytes h)). by apply header_of_header_bytes.
  - rewrite Hs, length_app, length_drop. lia.
  - rewrite Hs. by apply drop_app_length'.
Qed.

(** C40: The raw reads of the database header agree with the struct.  On the bytes of
    any file of at least 100 bytes, the page size and reserved space that
    [from_visible_sqlite_header] takes from fixed offsets of a prefix of 21 bytes or
    more, and the magic string and size that [database_identity_from_header_bytes]
    takes from fixed offsets, are the fields of the header that the pager borrows;
    shorter prefixes are errors.  A header written by [write_database_header] is
    borrowed back and leaves the rest of the page alone. *)
Theorem header_reads_agree (crc32c : bytes -> Z) (buf : bytes) (Hlen : DatabaseHeader_SIZE <= lenZ buf) :
  (exists h, header_borrow buf = Ok h /\
     (forall n, from_visible_sqlite_header (take n buf) =
        if (n <? 21)%nat then Err InvalidArgument
        else Ok (mkPageCodecHeaderInfo (PageSize_get (dh_page_size h)) (dh_reserved_space h))) /\
     (forall n, database_identity_from_header_bytes crc32c (take n buf) =
        if (n <? 100)%nat || negb (bool_decide (dh_magic h = SQLITE_MAGIC)) then Err Corrupt
        else Ok (dh_database_size h, crc32c (take 100 buf)))) /\
  (forall h, header_wf h -> exists buf', write_database_header buf h = Ok buf' /\
     header_borrow buf' = Ok h /\ length buf' = length buf /\ drop 100 buf' = drop 100 buf).
Proof.
  assert (100 <= length buf)%nat as Hl by (unfold DatabaseHeader_SIZE, lenZ in Hlen; lia).
  split.
  - exists (header_of_bytes (field buf 0 100)). split_and!; [|intros n..].
    + unfold header_borrow. by rewrite slice_header.
    + by apply visible_header_field.
    + by apply identity_field.
  - intros h Hwf. exists (splice buf 0 (header_bytes h)). by apply written_header.
Qed.

Lemma header_reads_agree_witness :
  from_visible_sqlite_header (take 21 (header_bytes default_header)) = Ok (mkPageCodecHeaderInfo 4096 0) /\
  write_database_header (replicate 512 7) default_header = Ok (header_bytes default_header ++ replicate 412 7).
Proof.
  destruct (header_reads_agree (fun _ => 0) (header_bytes default_header)) as [(h & Hh & Hv & _) _]; [vm_compute; discriminate|].
  destruct (header_reads_agree (fun _ => 0) (replicate 512 7)) as [_ Hw]; [vm_compute; discriminate|].
  split.
  - rewrite (Hv 21%nat). vm_compute in Hh. injection Hh as <-. reflexivity.
  - destruct (Hw default_header) as (buf' & Hb & _).
    { split_and!; try reflexivity; try (simpl; rlia);
        repeat apply Forall_cons_2; try apply Forall_nil_2; simpl; try rlia; vm_compute; split; congruence. }
    rewrite Hb. vm_compute in Hb. injection Hb as <-. vm_compute. reflexivity.
Defined.
