(* ===== verification/RwLock.v ===== *)
(** * RwLock: the 64-bit reader-writer lock of the WAL

    Models [TursoRwLock] of core/storage/wal.rs: one atomic word with the
    writer bit in bit 0, the reader count in bits 1 to 31 and a 32-bit value
    in bits 32 to 63.  Every atomic access is a function on words; the
    operations are given both as uncontended calls and as a step relation in
    which clients interleave between the load and the compare-exchange (or
    store) of an operation. *)

From stdpp Require Import relations.
From S2P Require Import Prelude.

(** ** The word *)

Definition WRITER : Z := 1.
Definition READER_INC : Z := 2.
Definition READER_SHIFT : Z := 1.
Definition READER_COUNT_MASK : Z := Z.shiftl 2147483647 READER_SHIFT.
Definition VALUE_SHIFT : Z := 32.
Definition VALUE_MASK : Z := Z.shiftl 4294967295 VALUE_SHIFT.
Definition READMARK_NOT_USED : Z := 4294967295.

(** [!x] on [u64] *)
Definition not64 (x : Z) : Z := u64_max - x.

Definition has_writer (val : Z) : bool := negb (Z.land val WRITER =? 0).
Definition has_readers (val : Z) : bool := negb (Z.land val READER_COUNT_MASK =? 0).

(** ** What each operation does with the word it loaded *)

(** [read]: [None] is the early [return false]. *)
Definition read_desired (cur : Z) : option Z :=
  if has_writer cur then None else Some (u64 (cur + READER_INC)).

(** [write] *)
Definition write_desired (cur : Z) : option Z :=
  if has_writer cur || has_readers cur then None else Some (Z.lor cur WRITER).

(** [upgrade] *)
Definition upgrade_desired (cur : Z) : option Z :=
  if negb (Z.land cur (not64 VALUE_MASK) =? READER_INC) then None
  else Some (Z.lor (Z.land cur VALUE_MASK) WRITER).

(** [downgrade] *)
Definition downgrade_desired (cur : Z) : Z :=
  Z.lor (Z.land cur VALUE_MASK) READER_INC.

(** [set_value_exclusive] *)
Definition set_value_desired (cur v : Z) : Z :=
  Z.lor (Z.land cur (not64 VALUE_MASK)) (u64 (Z.shiftl v VALUE_SHIFT)).

(** [unlock] decides between the two read-modify-writes by the loaded word;
    the asserts are part of the outcome. *)
Definition unlock_rmw (cur word : Z) : Result Z :=
  if negb (Z.land cur WRITER =? 0) then
    _ ← turso_assert (negb (has_readers word));
    Ok (Z.land word (not64 WRITER))
  else
    _ ← turso_assert (has_readers cur);
    Ok (u64 (word - READER_INC)).

(** ** Uncontended calls *)

Definition lock_new : Z := 0.

Definition cas_result (desired : option Z) (w : Z) : bool * Z :=
  match desired with Some d => (true, d) | None => (false, w) end.

Definition lock_read (w : Z) : bool * Z := cas_result (read_desired w) w.
Definition lock_write (w : Z) : bool * Z := cas_result (write_desired w) w.
Definition lock_upgrade (w : Z) : bool * Z := cas_result (upgrade_desired w) w.

Definition lock_downgrade (w : Z) : Result Z :=
  _ ← turso_assert (has_writer w); Ok (downgrade_desired w).

Definition lock_unlock (w : Z) : Result Z := unlock_rmw w w.

Definition is_write_locked (w : Z) : bool := has_writer w.

Definition get_value (w : Z) : Z := u32 (Z.shiftr w VALUE_SHIFT).

Definition held_value (w : Z) : option Z :=
  if has_readers w then Some (u32 (Z.shiftr w VALUE_SHIFT)) else None.

Definition set_value_exclusive (w v : Z) : Result Z :=
  _ ← turso_assert (has_writer w); Ok (set_value_desired w v).

(** ** Interleaved clients *)

(** What a client holds between calls. *)
Inductive hold := HNone | HRead | HWrite.

#[export] Instance hold_eq_dec : EqDecision hold.
Proof. solve_decision. Defined.

(** Where a client is inside a call: before the load of [read] (with the
    number of failed attempts), or between the load and the write-back. *)
Inductive pc :=
| Idle
| ReadLoad (count : Z)
| ReadCas (count cur : Z)
| WriteCas (cur : Z)
| UpgradeCas (cur : Z)
| DowngradeStore (cur : Z)
| UnlockRmw (cur : Z)
| SetStore (cur v : Z).

(** The calls a client may start. *)
Inductive call := CRead | CWrite | CUpgrade | CDowngrade | CUnlock | CSet (v : Z).

Record client := mkClient { c_hold : hold; c_pc : pc }.

(** The effect of one atomic access of one client on the word; [None] in the
    first component is a failed assertion. *)
Definition outcome : Type := option Z * client.

(** Bound of the retry loop of [read]. *)
Definition READ_RETRIES : Z := 1000000.

(** The first access of a call. *)
Definition client_start (k : call) (h : hold) (w : Z) : outcome :=
  match k with
  | CRead => (Some w, mkClient h (ReadLoad 0))
  | CWrite =>
      match write_desired w with
      | None => (Some w, mkClient h Idle)
      | Some _ => (Some w, mkClient h (WriteCas w))
      end
  | CUpgrade =>
      match upgrade_desired w with
      | None => (Some w, mkClient h Idle)
      | Some _ => (Some w, mkClient h (UpgradeCas w))
      end
  | CDowngrade => (if has_writer w then Some w else None, mkClient h (DowngradeStore w))
  | CUnlock =>
      (if has_writer w || has_readers w then Some w else None, mkClient h (UnlockRmw w))
  | CSet v => (if has_writer w then Some w else None, mkClient h (SetStore w v))
  end.

(** The next access of a call in progress. *)
Definition client_continue (h : hold) (p : pc) (w : Z) : outcome :=
  match p with
  | Idle => (Some w, mkClient h Idle)
  | ReadLoad count =>
      match read_desired w with
      | None => (Some w, mkClient h Idle)
      | Some _ => (Some w, mkClient h (ReadCas count w))
      end
  | ReadCas count cur =>
      if w =? cur then (read_desired cur, mkClient HRead Idle)
      else if count + 1 <? READ_RETRIES then (Some w, mkClient h (ReadLoad (count + 1)))
      else (Some w, mkClient h Idle)
  | WriteCas cur =>
      if w =? cur then (write_desired cur, mkClient HWrite Idle)
      else (Some w, mkClient h Idle)
  | UpgradeCas cur =>
      if w =? cur then (upgrade_desired cur, mkClient HWrite Idle)
      else (Some w, mkClient h Idle)
  | DowngradeStore cur => (Some (downgrade_desired cur), mkClient HRead Idle)
  | UnlockRmw cur =>
      (match unlock_rmw cur w with Ok w' => Some w' | _ => None end, mkClient HNone Idle)
  | SetStore cur v => (Some (set_value_desired cur v), mkClient h Idle)
  end.

(** The calls the holder of nothing, of a read lock and of the write lock may
    make. *)
Definition may_call (h : hold) (k : call) : Prop :=
  match h, k with
  | HNone, (CRead | CWrite) => True
  | HRead, (CUpgrade | CUnlock) => True
  | HWrite, (CDowngrade | CUnlock) => True
  | HWrite, CSet v => is_u32 v
  | _, _ => False
  end.

(** The word ([None] after a failed assertion), the clients, and the value
    most recently stored by [set_value_exclusive]. *)
Record lstate := mkLState { word : option Z; clients : list client; last_set : Z }.

Definition set_of (p : pc) (v : Z) : Z :=
  match p with SetStore _ v' => v' | _ => v end.

Inductive lstep : lstate -> lstate -> Prop :=
| lstep_start w cs g i h k w' c' :
    cs !! i = Some (mkClient h Idle) -> may_call h k -> client_start k h w = (w', c') ->
    lstep (mkLState (Some w) cs g) (mkLState w' (<[i := c']> cs) g)
| lstep_continue w cs g i h p w' c' :
    cs !! i = Some (mkClient h p) -> p <> Idle -> client_continue h p w = (w', c') ->
    lstep (mkLState (Some w) cs g) (mkLState w' (<[i := c']> cs) (set_of p g)).

Definition linit (n : nat) : lstate :=
  mkLState (Some lock_new) (replicate n (mkClient HNone Idle)) 0.

(** ** The abstract contents of a word *)

(** Value [v], [r] readers, writer bit [b]. *)
Definition enc (v r b : Z) : Z := v * 4294967296 + r * 2 + b.

Definition fields_ok (v r b : Z) : Prop :=
  is_u32 v /\ 0 <= r < 2147483648 /\ 0 <= b <= 1.

Lemma enc_u64 v r b : fields_ok v r b -> is_u64 (enc v r b).
Proof. unfold fields_ok, enc. rlia. Qed.

Lemma land_writer w : Z.land w WRITER = w mod 2.
Proof. by apply (land_mod 1 WRITER). Qed.

Lemma land_readers w : Z.land w READER_COUNT_MASK = (w / 2) mod 2147483648 * 2.
Proof.
  change READER_COUNT_MASK with (Z.shiftl (Z.ones 31) 1). by rewrite land_field by lia.
Qed.

Lemma land_value w : is_u64 w -> Z.land w VALUE_MASK = w / 4294967296 * 4294967296.
Proof.
  intros. change VALUE_MASK with (Z.shiftl (Z.ones 32) 32).
  rewrite land_field by lia. rewrite Z.mod_small; [done|]. change (2 ^ 32) with 4294967296.
  divlia.
Qed.

Lemma land_not_value w : Z.land w (not64 VALUE_MASK) = w mod 4294967296.
Proof. by apply (land_mod 32). Qed.

Lemma land_not_writer w : is_u64 w -> Z.land w (not64 WRITER) = w / 2 * 2.
Proof.
  intros. change (not64 WRITER) with (Z.shiftl (Z.ones 63) 1).
  rewrite land_field by lia. rewrite Z.mod_small; [done|]. change (2 ^ 1) with 2. divlia.
Qed.

Lemma has_writer_enc v r b : fields_ok v r b -> has_writer (enc v r b) = (b =? 1).
Proof.
  intros (? & ? & ?). unfold has_writer. rewrite land_writer. unfold enc.
  destruct (Z.eqb_spec ((v * 4294967296 + r * 2 + b) mod 2) 0), (Z.eqb_spec b 1);
    done || (exfalso; divlia).
Qed.

Lemma has_readers_enc v r b : fields_ok v r b -> has_readers (enc v r b) = (0 <? r).
Proof.
  intros (? & ? & ?). unfold has_readers. rewrite land_readers.
  assert ((enc v r b / 2) mod 2147483648 = r) as -> by (unfold enc; divlia).
  destruct (Z.eqb_spec (r * 2) 0), (Z.ltb_spec 0 r); done || lia.
Qed.

Lemma enc_value v r b : fields_ok v r b -> Z.land (enc v r b) VALUE_MASK = v * 4294967296.
Proof.
  intros H. rewrite land_value by by apply enc_u64. destruct H as (? & ? & ?).
  unfold enc. divlia.
Qed.

Lemma enc_low v r b :
  fields_ok v r b -> Z.land (enc v r b) (not64 VALUE_MASK) = r * 2 + b.
Proof. intros (? & ? & ?). rewrite land_not_value. unfold enc. divlia. Qed.

Lemma lor_value v x : 0 <= x < 4294967296 -> Z.lor (v * 4294967296) x = v * 4294967296 + x.
Proof. intros. change 4294967296 with (2 ^ 32). by rewrite lor_disjoint by lia. Qed.

Lemma read_desired_enc v r b :
  fields_ok v r b -> r < 2147483647 ->
  read_desired (enc v r b) = if b =? 1 then None else Some (enc v (r + 1) b).
Proof.
  intros H Hr. unfold read_desired. rewrite has_writer_enc by done.
  destruct (b =? 1); [done|]. unfold u64, enc, READER_INC. destruct H as (? & ? & ?).
  rewrite Z.mod_small by rlia. f_equal. lia.
Qed.

Lemma write_desired_enc v r b :
  fields_ok v r b ->
  write_desired (enc v r b) = if (b =? 1) || (0 <? r) then None else Some (enc v 0 1).
Proof.
  intros H. unfold write_desired. rewrite has_writer_enc, has_readers_enc by done.
  destruct H as (? & ? & ?).
  destruct (Z.eqb_spec b 1), (Z.ltb_spec 0 r); simpl; try done.
  assert (r = 0) as -> by lia. assert (b = 0) as -> by lia. unfold enc, WRITER.
  f_equal. replace (v * 4294967296 + 0 * 2 + 0) with (v * 4294967296) by lia.
  rewrite lor_value by lia. lia.
Qed.

Lemma upgrade_desired_enc v r b :
  fields_ok v r b ->
  upgrade_desired (enc v r b) =
    if (b =? 0) && (r =? 1) then Some (enc v 0 1) else None.
Proof.
  intros H. unfold upgrade_desired. rewrite enc_low, enc_value by done.
  destruct H as (? & ? & ?). unfold READER_INC, WRITER.
  destruct (Z.eqb_spec (r * 2 + b) 2), (Z.eqb_spec b 0), (Z.eqb_spec r 1);
    simpl; try lia; try done.
  rewrite lor_value by lia. f_equal. unfold enc. lia.
Qed.

Lemma downgrade_desired_enc v r b :
  fields_ok v r b -> downgrade_desired (enc v r b) = enc v 1 0.
Proof.
  intros H. unfold downgrade_desired. rewrite enc_value by done. unfold READER_INC.
  rewrite lor_value by lia. unfold enc. lia.
Qed.

Lemma set_value_desired_enc v r b x :
  fields_ok v r b -> is_u32 x -> set_value_desired (enc v r b) x = enc x r b.
Proof.
  intros H Hx. unfold set_value_desired. rewrite enc_low by done. destruct H as (? & ? & ?).
  unfold VALUE_SHIFT. rewrite Z.shiftl_mul_pow2 by lia. change (2 ^ 32) with 4294967296.
  unfold u64. rewrite Z.mod_small by rlia. rewrite Z.lor_comm, lor_value by rlia.
  unfold enc. lia.
Qed.

Lemma unlock_write_enc cur v :
  has_writer cur = true -> is_u32 v -> unlock_rmw cur (enc v 0 1) = Ok (enc v 0 0).
Proof.
  unfold has_writer, unlock_rmw. intros -> Hv.
  assert (fields_ok v 0 1) as H by (unfold fields_ok; rlia).
  rewrite has_readers_enc by done. simpl.
  rewrite land_not_writer by by apply enc_u64. f_equal. unfold enc. divlia.
Qed.

Lemma unlock_read_enc cur v r b :
  has_writer cur = false -> has_readers cur = true ->
  fields_ok v r b -> 0 < r -> unlock_rmw cur (enc v r b) = Ok (enc v (r - 1) b).
Proof.
  unfold has_writer at 1, unlock_rmw. intros -> -> (? & ? & ?) Hr. simpl.
  unfold u64, enc, READER_INC. rewrite Z.mod_small by rlia. f_equal. lia.
Qed.

Lemma get_value_enc v r b : fields_ok v r b -> get_value (enc v r b) = v.
Proof.
  intros (? & ? & ?). unfold get_value, VALUE_SHIFT. rewrite Z.shiftr_div_pow2 by lia.
  change (2 ^ 32) with 4294967296. unfold enc. divlia.
Qed.

Lemma held_value_enc v r b :
  fields_ok v r b -> held_value (enc v r b) = if 0 <? r then Some v else None.
Proof.
  intros H. unfold held_value. rewrite has_readers_enc by done.
  destruct (0 <? r); [|done]. f_equal. by apply (get_value_enc v r b).
Qed.

Lemma enc_surj w : is_u64 w -> exists v r b, fields_ok v r b /\ w = enc v r b.
Proof.
  intros. exists (w / 4294967296), ((w mod 4294967296) / 2), (w mod 2).
  unfold fields_ok, enc. split; [divlia|divlia].
Qed.

(** ** The invariant of interleaved clients *)

Definition holds (h : hold) (c : client) : bool := bool_decide (c_hold c = h).

Definition count (h : hold) (cs : list client) : Z := lenZ (List.filter (holds h) cs).

Definition ind (b : bool) : Z := if b then 1 else 0.

Lemma count_insert h cs i c c' :
  cs !! i = Some c ->
  count h (<[i := c']> cs) = count h cs - ind (holds h c) + ind (holds h c').
Proof.
  intros Hi. unfold count, lenZ, ind.
  rewrite <- (take_drop_middle cs i c Hi) at 2.
  rewrite insert_take_drop by (by eapply lookup_lt_Some).
  rewrite !List.filter_app. cbn [List.filter].
  destruct (holds h c), (holds h c'); rewrite !length_app; simpl; lia.
Qed.

Lemma count_bounds h cs : 0 <= count h cs <= lenZ cs.
Proof. unfold count, lenZ. pose proof (List.filter_length_le (holds h) cs). lia. Qed.

Lemma count_disjoint cs : count HRead cs + count HWrite cs + count HNone cs = lenZ cs.
Proof.
  unfold count, lenZ. induction cs as [|[[] p] cs IH]; simpl in *; lia.
Qed.

Lemma count_pos h cs i c : cs !! i = Some c -> c_hold c = h -> 1 <= count h cs.
Proof.
  intros Hi Hh. unfold count, lenZ. rewrite <- (take_drop_middle cs i c Hi).
  rewrite List.filter_app, length_app. cbn [List.filter].
  assert (holds h c = true) as -> by by apply bool_decide_eq_true. simpl. lia.
Qed.

(** The stages of a call that the word and the client's hold allow. *)
Definition pc_ok (w : Z) (c : client) : Prop :=
  match c_pc c with
  | Idle => True
  | ReadLoad _ => c_hold c = HNone
  | ReadCas _ cur => c_hold c = HNone /\ has_writer cur = false
  | WriteCas cur => c_hold c = HNone /\ is_Some (write_desired cur)
  | UpgradeCas cur => c_hold c = HRead /\ is_Some (upgrade_desired cur)
  | DowngradeStore cur => c_hold c = HWrite /\ cur = w
  | UnlockRmw cur =>
      (c_hold c = HWrite /\ has_writer cur = true) \/
      (c_hold c = HRead /\ has_writer cur = false /\ has_readers cur = true)
  | SetStore cur v => c_hold c = HWrite /\ cur = w /\ is_u32 v
  end.

(** A holder of the write lock excludes every other holder. *)
Definition excl (r b : Z) : Prop := b = 1 -> r = 0.

Definition linv (s : lstate) : Prop :=
  exists w, word s = Some w /\
    w = enc (last_set s) (count HRead (clients s)) (count HWrite (clients s)) /\
    fields_ok (last_set s) (count HRead (clients s)) (count HWrite (clients s)) /\
    excl (count HRead (clients s)) (count HWrite (clients s)) /\
    lenZ (clients s) < 2147483648 /\
    forall i c, clients s !! i = Some c -> pc_ok w c.

(** What one access of a client does, given the counts of the holders before
    it; [h] is what the client holds. *)
Definition step_ok (g r b : Z) (h : hold) (o : outcome) (g' : Z) : Prop :=
  let h' := c_hold (snd o) in
  let r' := r - ind (bool_decide (h = HRead)) + ind (bool_decide (h' = HRead)) in
  let b' := b - ind (bool_decide (h = HWrite)) + ind (bool_decide (h' = HWrite)) in
  fst o = Some (enc g' r' b') /\ fields_ok g' r' b' /\ excl r' b' /\
  pc_ok (enc g' r' b') (snd o) /\ (enc g' r' b' = enc g r b \/ b = 0 \/ h = HWrite).

(** The counts agree with what one client holds. *)
Definition fits (h : hold) (r b : Z) : Prop :=
  match h with
  | HNone => r < 2147483647
  | HRead => 1 <= r
  | HWrite => b = 1
  end.

Lemma step_same g r b h p :
  fields_ok g r b -> excl r b -> pc_ok (enc g r b) (mkClient h p) ->
  step_ok g r b h (Some (enc g r b), mkClient h p) g.
Proof.
  intros Hf He Hp. unfold step_ok. cbn [c_hold fst snd].
  rewrite !Z.sub_add. split_and!; try done. by left.
Qed.

Lemma start_ok g r b h k :
  fields_ok g r b -> excl r b -> fits h r b -> may_call h k ->
  step_ok g r b h (client_start k h (enc g r b)) g.
Proof.
  intros Hf He Hh Hk. pose proof Hf as (_ & Hr & Hb).
  destruct h, k; simpl in Hk; try done; unfold client_start.
  - by apply step_same.
  - destruct (write_desired _) eqn:E; by apply step_same.
  - destruct (upgrade_desired _) eqn:E; by apply step_same.
  - assert (b = 0) as -> by (unfold excl, fits in *; lia).
    assert (has_writer (enc g r 0) = false) as Hw by by rewrite has_writer_enc.
    assert (has_readers (enc g r 0) = true) as Hd.
    { rewrite has_readers_enc by done. apply Z.ltb_lt. simpl in Hh. lia. }
    rewrite Hd, orb_true_r. apply step_same; [done..|]. right. done.
  - simpl in Hh. subst b. rewrite has_writer_enc by done. by apply step_same.
  - simpl in Hh. subst b. rewrite has_writer_enc by done. simpl. apply step_same; [done..|].
    left. split; [done|]. by rewrite has_writer_enc.
  - simpl in Hh. subst b. rewrite has_writer_enc by done. by apply step_same.
Qed.

Lemma continue_ok g r b h p :
  fields_ok g r b -> excl r b -> fits h r b -> pc_ok (enc g r b) (mkClient h p) ->
  step_ok g r b h (client_continue h p (enc g r b)) (set_of p g).
Proof.
  intros Hf He Hh Hp. pose proof Hf as (Hg & Hr & Hb).
  destruct p as [|n|n cur|cur|cur|cur|cur|cur v]; cbn [client_continue set_of].
  - by apply step_same.
  - destruct (read_desired _) eqn:E; [|by apply step_same].
    apply step_same; [done..|]. split; [done|].
    unfold read_desired in E. by destruct (has_writer _).
  - destruct Hp as [Hn Hw]. simpl in Hn. subst h. destruct (Z.eqb_spec (enc g r b) cur) as [<-|].
    + rewrite has_writer_enc in Hw by done. bool_facts. assert (b = 0) as -> by lia.
      simpl in Hh. rewrite read_desired_enc by done.
      unfold step_ok, ind. simpl. rewrite Z.sub_0_r. split_and!; try done.
      * unfold fields_ok. rlia.
      * lia.
    + destruct (_ <? _); by apply step_same.
  - destruct Hp as [Hn Hw]. simpl in Hn. subst h. destruct (Z.eqb_spec (enc g r b) cur) as [<-|];
      [|by apply step_same].
    rewrite write_desired_enc in * by done.
    destruct ((b =? 1) || (0 <? r)) eqn:E; [by destruct Hw|]. bool_facts.
    assert (b = 0) as -> by lia. assert (r = 0) as -> by lia.
    unfold step_ok, ind. simpl. split_and!; try done. right. by left.
  - destruct Hp as [Hn Hw]. simpl in Hn. subst h. destruct (Z.eqb_spec (enc g r b) cur) as [<-|];
      [|by apply step_same].
    rewrite upgrade_desired_enc in * by done.
    destruct ((b =? 0) && (r =? 1)) eqn:E; [|by destruct Hw]. bool_facts. subst b r.
    unfold step_ok, ind. simpl. split_and!; try done. right. by left.
  - destruct Hp as [Hn ->]. simpl in Hn. subst h. simpl in Hh. subst b.
    rewrite downgrade_desired_enc by done. assert (r = 0) as -> by (by apply He).
    unfold step_ok, ind. simpl. split_and!; try done. right. by right.
  - destruct Hp as [[Hn Hw]|(Hn & Hw & Hd)]; simpl in Hn; subst h; simpl in Hh.
    + subst b. assert (r = 0) as -> by (by apply He). rewrite unlock_write_enc by done.
      unfold step_ok, ind. simpl. split_and!; try done. right. by right.
    + assert (b = 0) as -> by (unfold excl in He; lia).
      rewrite unlock_read_enc by (done || lia).
      unfold step_ok, ind. simpl. rewrite Z.add_0_r. split_and!; try done.
      * unfold fields_ok. rlia.
      * lia.
  - destruct Hp as (Hn & -> & Hv). simpl in Hn. subst h. simpl in Hh. subst b.
    rewrite set_value_desired_enc by done.
    unfold step_ok. cbn [fst snd c_hold]. rewrite !Z.sub_add. split_and!; try done.
    right. by right.
Qed.

(** Replacing client [i] by the outcome of its step keeps the invariant. *)
Lemma linv_update w cs g i c o g' :
  linv (mkLState (Some w) cs g) -> cs !! i = Some c ->
  step_ok g (count HRead cs) (count HWrite cs) (c_hold c) o g' ->
  linv (mkLState (fst o) (<[i := snd o]> cs) g').
Proof.
  intros (w0 & [= <-] & Hw & Hf & He & Hn & Hpcs) Hi (Ho & Hf' & He' & Hpc & Hch).
  simpl in *. pose proof (count_insert HRead cs i c (snd o) Hi) as Hr.
  pose proof (count_insert HWrite cs i c (snd o) Hi) as Hb. unfold holds in Hr, Hb.
  eexists. split; [exact Ho|]. simpl. rewrite Hr, Hb. split_and!; try done.
  { unfold lenZ in *. by rewrite length_insert. }
  intros j cj. destruct (decide (i = j)) as [->|Hne].
  - rewrite list_lookup_insert_eq by (by eapply lookup_lt_Some). by intros [= <-].
  - rewrite list_lookup_insert_ne by done. intros Hj. pose proof (Hpcs j cj Hj) as Hj'.
    destruct Hch as [->|Hch]; [by rewrite Hw in Hj'|].
    assert (c_hold cj <> HWrite) as Hnw.
    { intros Hjw. pose proof (count_pos HWrite cs j cj Hj Hjw). destruct Hch as [?|Hiw]; [lia|].
      pose proof (count_insert HWrite cs i c (mkClient HNone Idle) Hi) as Hc.
      unfold holds in Hc. rewrite (bool_decide_eq_true_2 _ Hiw) in Hc. simpl in Hc.
      pose proof (count_pos HWrite (<[i := mkClient HNone Idle]> cs) j cj) as Hp.
      rewrite list_lookup_insert_ne in Hp by done. specialize (Hp Hj Hjw).
      destruct Hf as (_ & _ & ?). lia. }
    destruct cj as [hj pj]; unfold pc_ok in *; simpl in *; destruct pj; try done;
      destruct Hj' as [? ?]; done.
Qed.

Lemma fits_of_inv w cs g i c :
  linv (mkLState (Some w) cs g) -> cs !! i = Some c ->
  fits (c_hold c) (count HRead cs) (count HWrite cs).
Proof.
  intros (w0 & _ & _ & (_ & Hr & Hb) & He & Hn & _) Hi. simpl in *.
  pose proof (count_disjoint cs). pose proof (count_bounds HNone cs).
  destruct c as [[] p]; simpl.
  - pose proof (count_pos HNone cs i _ Hi eq_refl). lia.
  - by apply (count_pos HRead cs i _ Hi).
  - pose proof (count_pos HWrite cs i _ Hi eq_refl). lia.
Qed.

Lemma lstep_inv s s' : lstep s s' -> linv s -> linv s'.
Proof.
  intros Hstep Hinv. pose proof Hinv as (w0 & Hw0 & Hw & Hf & He & Hn & Hpcs).
  destruct Hstep as [w cs g i h k w' c' Hi Hk Hs|w cs g i h p w' c' Hi Hp Hs];
    pose proof (fits_of_inv _ _ _ _ _ Hinv Hi) as Hfit; simpl in *; injection Hw0 as ->.
  - pose proof (start_ok _ _ _ h k Hf He Hfit Hk) as Hok.
    rewrite <- Hw, Hs in Hok. exact (linv_update _ _ _ _ _ _ _ Hinv Hi Hok).
  - pose proof (Hpcs i _ Hi) as Hpc. rewrite Hw in Hpc.
    pose proof (continue_ok _ _ _ h p Hf He Hfit Hpc) as Hok.
    rewrite <- Hw, Hs in Hok. exact (linv_update _ _ _ _ _ _ _ Hinv Hi Hok).
Qed.

Lemma count_replicate h n c :
  count h (replicate n c) = if holds h c then Z.of_nat n else 0.
Proof.
  unfold count, lenZ. induction n as [|n IH]; simpl; [by destruct (holds h c)|].
  destruct (holds h c); simpl; lia.
Qed.

Lemma linit_inv n : Z.of_nat n < 2147483648 -> linv (linit n).
Proof.
  intros Hn. exists 0. simpl. rewrite !count_replicate. simpl.
  unfold lenZ. rewrite length_replicate. split_and!; try done.
  intros i c [-> _]%lookup_replicate. done.
Qed.

Lemma lreach_inv s s' : rtc lstep s s' -> linv s -> linv s'.
Proof. induction 1; eauto using lstep_inv. Qed.

#[export] Hint Resolve lstep_inv linit_inv lreach_inv : turso.

(** ** The contract of the uncontended calls *)

(** A lock that is free, shared by [r] readers, or exclusively held, with its
    value. *)
Inductive alock := AFree (v : Z) | AShared (v r : Z) | AExcl (v : Z).

Definition alock_ok (a : alock) : Prop :=
  match a with
  | AFree v | AExcl v => is_u32 v
  | AShared v r => is_u32 v /\ 1 <= r < 2147483647
  end.

Definition alock_word (a : alock) : Z :=
  match a with
  | AFree v => enc v 0 0
  | AShared v r => enc v r 0
  | AExcl v => enc v 0 1
  end.

Definition alock_value (a : alock) : Z :=
  match a with AFree v | AShared v _ | AExcl v => v end.

Definition alock_read (a : alock) : option alock :=
  match a with
  | AFree v => Some (AShared v 1)
  | AShared v r => Some (AShared v (r + 1))
  | AExcl _ => None
  end.

Definition alock_write (a : alock) : option alock :=
  match a with AFree v => Some (AExcl v) | _ => None end.

Definition alock_upgrade (a : alock) : option alock :=
  match a with AShared v 1 => Some (AExcl v) | _ => None end.

Definition alock_unlock (a : alock) : option alock :=
  match a with
  | AFree _ => None
  | AShared v r => Some (if r =? 1 then AFree v else AShared v (r - 1))
  | AExcl v => Some (AFree v)
  end.

(** The result of a try-lock call that ends in the abstract state, or leaves
    the lock as it was. *)
Definition try_result (a : alock) (o : option alock) : bool * Z :=
  match o with Some a' => (true, alock_word a') | None => (false, alock_word a) end.

Lemma alock_fields a :
  alock_ok a ->
  exists r b, alock_word a = enc (alock_value a) r b /\ fields_ok (alock_value a) r b.
Proof.
  unfold fields_ok. destruct a as [v|v r|v]; simpl; intros Ha; eexists _, _; split;
    try reflexivity; rlia.
Qed.

(** ** Properties *)

(** C29: Under every interleaving of the loads and write-backs of fewer than
    [2^31] clients that call the lock as its contract allows, no assertion
    fails, a client that holds the write lock is the only holder, and the word
    is exactly the value last set, the number of read holders and the writer
    bit. *)
Theorem rwlock_exclusion (n : nat) (s : lstate)
    (Hn : Z.of_nat n < 2147483648) (Hs : rtc lstep (linit n) s) :
  word s = Some (enc (last_set s) (count HRead (clients s)) (count HWrite (clients s))) /\
  count HWrite (clients s) <= 1 /\
  (1 <= count HWrite (clients s) -> count HRead (clients s) = 0).
Proof.
  destruct (lreach_inv _ _ Hs (linit_inv n Hn)) as (w & Hw & -> & (_ & _ & Hb) & He & _).
  split_and!; [done|lia|]. intros. apply He. lia.
Qed.

Lemma rwlock_exclusion_witness :
  exists s, rtc lstep (linit 2) s /\ count HRead (clients s) = 1 /\
    count HWrite (clients s) <= 1.
Proof.
  eexists. split.
  - eapply rtc_l; [by eapply (lstep_start _ _ _ 0 HNone CRead)|].
    eapply rtc_l; [by eapply (lstep_continue _ _ _ 0 HNone (ReadLoad 0))|].
    eapply rtc_l; [by eapply (lstep_continue _ _ _ 0 HNone (ReadCas 0 0))|].
    apply rtc_refl.
  - split; [reflexivity|]. apply (rwlock_exclusion 2); [lia|].
    eapply rtc_l; [by eapply (lstep_start _ _ _ 0 HNone CRead)|].
    eapply rtc_l; [by eapply (lstep_continue _ _ _ 0 HNone (ReadLoad 0))|].
    eapply rtc_l; [by eapply (lstep_continue _ _ _ 0 HNone (ReadCas 0 0))|].
    apply rtc_refl.
Defined.

(** On a word that represents an abstract lock, each uncontended call does
    what the abstract lock does: try-lock calls succeed exactly when the abstract
    lock allows it and otherwise leave the word alone, [unlock] panics only on a
    free lock, [downgrade] and [set_value_exclusive] need the writer, and the
    value is read back from every state. *)
Theorem rwlock_calls_refine (a : alock) (v : Z) (Ha : alock_ok a) (Hv : is_u32 v) :
  let w := alock_word a in
  lock_read w = try_result a (alock_read a) /\
  lock_write w = try_result a (alock_write a) /\
  lock_upgrade w = try_result a (alock_upgrade a) /\
  lock_unlock w =
    match alock_unlock a with Some a' => Ok (alock_word a') | None => Panic end /\
  lock_downgrade w =
    match a with AExcl x => Ok (alock_word (AShared x 1)) | _ => Panic end /\
  set_value_exclusive w v =
    match a with AExcl _ => Ok (alock_word (AExcl v)) | _ => Panic end /\
  get_value w = alock_value a /\
  held_value w = match a with AShared x _ => Some x | _ => None end.
Proof.
  assert (forall x r b, is_u32 x -> 0 <= r < 2147483648 -> 0 <= b <= 1 -> fields_ok x r b)
    as Hf by (unfold fields_ok; intros; done).
  destruct a as [x|x r|x]; simpl in *; try destruct Ha as [Hx Hr];
    unfold lock_read, lock_write, lock_upgrade, lock_unlock, lock_downgrade,
      set_value_exclusive;
    rewrite read_desired_enc, write_desired_enc, upgrade_desired_enc, !has_writer_enc,
      get_value_enc, held_value_enc by (done || lia || (apply Hf; done || lia)); simpl;
    split_and!; try done.
  - unfold unlock_rmw. rewrite land_writer.
    assert (enc x 0 0 mod 2 = 0) as -> by (unfold enc; divlia).
    rewrite has_readers_enc by (by apply Hf). done.
  - destruct (Z.ltb_spec 0 r); [done|lia].
  - destruct (Z.eqb_spec r 1) as [->|]; [done|]. by destruct r as [|[]|].
  - rewrite unlock_read_enc; try (apply Hf; done || lia).
    + destruct (Z.eqb_spec r 1) as [->|]; done.
    + rewrite has_writer_enc by (apply Hf; done || lia). done.
    + rewrite has_readers_enc by (apply Hf; done || lia). apply Z.ltb_lt. lia.
    + lia.
  - destruct (Z.ltb_spec 0 r); [done|lia].
  - rewrite unlock_write_enc; [done| |done]. by rewrite has_writer_enc by (by apply Hf).
  - by rewrite downgrade_desired_enc by (by apply Hf).
  - by rewrite set_value_desired_enc by (done || by apply Hf).
Qed.

Lemma rwlock_calls_refine_witness :
  lock_upgrade (alock_word (AShared 7 1)) = (true, alock_word (AExcl 7)) /\
  lock_upgrade (alock_word (AShared 7 2)) = (false, alock_word (AShared 7 2)).
Proof.
  split.
  - apply (rwlock_calls_refine (AShared 7 1) 0); simpl; rlia.
  - apply (rwlock_calls_refine (AShared 7 2) 0); simpl; rlia.
Defined.
