(* ===== verification/WalFormat.v ===== *)
(** * WalFormat: checksums, frames and the header of the WAL file

    Models [checksum_wal], [parse_wal_frame_header], [prepare_wal_frame],
    [prepare_wal_frame_header], [recompute_wal_frame_checksum] and the header
    serialisation of [begin_write_wal_header] of
    core/storage/sqlite3_ondisk.rs.  The byte order of the target
    ([cfg!(target_endian)]) is the parameter [big] of the functions that
    depend on it; a frame buffer is a list of bytes whose old contents are
    arbitrary. *)

From S2P Require Import Prelude OnDisk.

(** ** Checksums *)

(** [u32::from_ne_bytes] *)
Definition from_ne_bytes (big : bool) (b : bytes) : Z :=
  if big then be_combine b else le_combine b.

(** [u32::to_ne_bytes] *)
Definition to_ne_bytes (big : bool) (v : Z) : bytes :=
  if big then be_split 4 v else le_split 4 v.

(** [u32::swap_bytes] *)
Definition swap_bytes (v : Z) : Z := le_combine (be_split 4 v).

(** One of the two 32-bit words of a chunk. *)
Definition checksum_word (big native_endian : bool) (w : bytes) : Z :=
  let v := from_ne_bytes big w in
  if native_endian then v else swap_bytes v.

(** [for words in buf.chunks_exact(8)] *)
Fixpoint checksum_loop (big native_endian : bool) (buf : bytes) (s0 s1 : Z) : Z * Z :=
  match buf with
  | b0 :: b1 :: b2 :: b3 :: b4 :: b5 :: b6 :: b7 :: rest =>
      let v0 := checksum_word big native_endian [b0; b1; b2; b3] in
      let v1 := checksum_word big native_endian [b4; b5; b6; b7] in
      let s0 := u32 (s0 + u32 (v0 + s1)) in
      let s1 := u32 (s1 + u32 (v1 + s0)) in
      checksum_loop big native_endian rest s0 s1
  | _ => (s0, s1)
  end.

Definition checksum_wal (big : bool) (buf : bytes) (input : Z * Z) (native_endian : bool)
    : Result (Z * Z) :=
  _ ← turso_assert (lenZ buf mod 8 =? 0);
  Ok (checksum_loop big native_endian buf (fst input) (snd input)).

(** [cfg!(target_endian = "big") == ((magic & 1) != 0)] *)
Definition use_native_endian (big : bool) (magic : Z) : bool :=
  Bool.eqb big (negb (Z.land magic 1 =? 0)).

(** ** Frames *)

(** [u32::from_be_bytes(b[a..a + 4].try_into().unwrap())] *)
Definition read_be32 (b : bytes) (a : Z) : Result Z :=
  s ← slice b a (a + 4); Ok (be_combine s).

Definition parse_wal_frame_header (frame : bytes) : Result (WalFrameHeader * bytes) :=
  page_number ← read_be32 frame 0;
  db_size ← read_be32 frame 4;
  salt_1 ← read_be32 frame 8;
  salt_2 ← read_be32 frame 12;
  checksum_1 ← read_be32 frame 16;
  checksum_2 ← read_be32 frame 20;
  page ← slice_from frame WAL_FRAME_HEADER_SIZE;
  Ok (mkWalFrameHeader page_number db_size salt_1 salt_2 checksum_1 checksum_2, page).

(** [buffer] is the frame-sized buffer obtained from the pool. *)
Definition prepare_wal_frame_header (buffer : bytes) (wal_header : WalHeader)
    (page_number db_size : Z) : Result bytes :=
  frame ← write_slice buffer 0 (be_split 4 page_number);
  frame ← write_slice frame 4 (be_split 4 db_size);
  frame ← write_slice frame 8 (be_split 4 (wh_salt_1 wal_header));
  write_slice frame 12 (be_split 4 (wh_salt_2 wal_header)).

Definition recompute_wal_frame_checksum (big : bool) (frame : bytes)
    (wal_header : WalHeader) (prev_checksums : Z * Z) : Result ((Z * Z) * bytes) :=
  let expects_be := Z.land (wh_magic wal_header) 1 in
  let native := (if big then 1 else 0) =? expects_be in
  head ← slice frame 0 8;
  header_checksum ← checksum_wal big head prev_checksums native;
  body ← slice_from frame WAL_FRAME_HEADER_SIZE;
  final_checksum ← checksum_wal big body header_checksum native;
  frame ← write_slice frame 16 (be_split 4 (fst final_checksum));
  frame ← write_slice frame 20 (be_split 4 (snd final_checksum));
  Ok (final_checksum, frame).

(** [dst[a..].copy_from_slice(src)]: the lengths must agree. *)
Definition copy_tail (b : bytes) (a : Z) (src : bytes) : Result bytes :=
  _ ← turso_assert (a + lenZ src =? lenZ b);
  write_slice b a src.

Definition prepare_wal_frame (big : bool) (buffer : bytes) (wal_header : WalHeader)
    (prev_checksums : Z * Z) (page_number db_size : Z) (page : bytes)
    : Result ((Z * Z) * bytes) :=
  frame ← prepare_wal_frame_header buffer wal_header page_number db_size;
  frame ← copy_tail frame WAL_FRAME_HEADER_SIZE page;
  recompute_wal_frame_checksum big frame wal_header prev_checksums.

(** ** The WAL header *)

(** The 32 bytes that [begin_write_wal_header] writes at offset 0. *)
Definition wal_header_bytes (h : WalHeader) : bytes :=
  be_split 4 (wh_magic h) ++ be_split 4 (wh_file_format h) ++
  be_split 4 (wh_page_size h) ++ be_split 4 (wh_checkpoint_seq h) ++
  be_split 4 (wh_salt_1 h) ++ be_split 4 (wh_salt_2 h) ++
  be_split 4 (wh_checksum_1 h) ++ be_split 4 (wh_checksum_2 h).

(** [WalHeader::as_bytes]: the in-memory image of the [repr(C)] struct. *)
Definition as_bytes (big : bool) (h : WalHeader) : bytes :=
  to_ne_bytes big (wh_magic h) ++ to_ne_bytes big (wh_file_format h) ++
  to_ne_bytes big (wh_page_size h) ++ to_ne_bytes big (wh_checkpoint_seq h) ++
  to_ne_bytes big (wh_salt_1 h) ++ to_ne_bytes big (wh_salt_2 h) ++
  to_ne_bytes big (wh_checksum_1 h) ++ to_ne_bytes big (wh_checksum_2 h).

(** The part of [prepare_wal_header] under the header lock: complete a header
    for a WAL that is not initialised yet.  [rnd1] and [rnd2] are the two
    results of [io.generate_random_number()], an [i64] each. *)
Definition complete_header (big : bool) (h : WalHeader) (page_size : PageSize)
    (rnd1 rnd2 : Z) : Result WalHeader :=
  let magic := if big then WAL_MAGIC_BE else WAL_MAGIC_LE in
  let psz := if wh_page_size h =? 0 then PageSize_get page_size else wh_page_size h in
  let fresh := (wh_salt_1 h =? 0) && (wh_salt_2 h =? 0) in
  let salt_1 := if fresh then u32 rnd1 else wh_salt_1 h in
  let salt_2 := if fresh then u32 rnd2 else wh_salt_2 h in
  let h := mkWalHeader magic (wh_file_format h) psz (wh_checkpoint_seq h) salt_1 salt_2
             (wh_checksum_1 h) (wh_checksum_2 h) in
  prefix ← slice (as_bytes big h) 0 (WAL_HEADER_SIZE - 8);
  let use_native := negb (Z.land (wh_magic h) 1 =? 0) in
  c ← checksum_wal big prefix (0, 0) use_native;
  Ok (mkWalHeader magic (wh_file_format h) psz (wh_checkpoint_seq h) salt_1 salt_2
        (fst c) (snd c)).

(** The header fields read from the first 32 bytes of the file, as
    [handle_header_read] assigns them. *)
Definition parse_wal_header (s : bytes) : Result WalHeader :=
  magic ← read_be32 s 0;
  file_format ← read_be32 s 4;
  page_size ← read_be32 s 8;
  checkpoint_seq ← read_be32 s 12;
  salt_1 ← read_be32 s 16;
  salt_2 ← read_be32 s 20;
  checksum_1 ← read_be32 s 24;
  checksum_2 ← read_be32 s 28;
  Ok (mkWalHeader magic file_format page_size checkpoint_seq salt_1 salt_2
        checksum_1 checksum_2).

(** ** Byte order *)

Lemma le_combine_be b : le_combine b = be_combine (rev b).
Proof.
  induction b as [|c b IH]; [done|]. simpl. rewrite be_combine_app, IH.
  unfold lenZ, be_combine at 3. simpl. lia.
Qed.

Lemma bytes_ok_rev b : bytes_ok b -> bytes_ok (rev b).
Proof. apply Forall_rev. Qed.

Lemma swap_le_combine b :
  bytes_ok b -> length b = 4%nat -> swap_bytes (le_combine b) = be_combine b.
Proof.
  intros Hb Hl. unfold swap_bytes. rewrite (le_combine_be b).
  rewrite <- Hl, <- length_rev at 1. rewrite be_split_combine by by apply bytes_ok_rev.
  by rewrite le_combine_be, rev_involutive.
Qed.

Lemma swap_be_combine b :
  bytes_ok b -> length b = 4%nat -> swap_bytes (be_combine b) = le_combine b.
Proof.
  intros Hb Hl. unfold swap_bytes. rewrite <- Hl at 1. by rewrite be_split_combine.
Qed.

(** The words of a checksum in the byte order the magic number asks for, on
    any target. *)
Definition word_ref (be : bool) (w : bytes) : Z :=
  if be then be_combine w else le_combine w.

Lemma checksum_word_portable big be w :
  bytes_ok w -> length w = 4%nat -> checksum_word big (Bool.eqb big be) w = word_ref be w.
Proof.
  intros Hw Hl. unfold checksum_word, from_ne_bytes, word_ref.
  destruct big, be; simpl; auto using swap_be_combine, swap_le_combine.
Qed.

(** In-memory words read in the target's order are the values themselves. *)
Lemma checksum_word_memory big be z :
  is_u32 z -> checksum_word big (Bool.eqb big be) (to_ne_bytes big z) =
    if Bool.eqb big be then z else swap_bytes z.
Proof.
  intros Hz. unfold checksum_word, from_ne_bytes, to_ne_bytes, le_split.
  assert ((if big then be_combine (if big then be_split 4 z else rev (be_split 4 z))
           else le_combine (if big then be_split 4 z else rev (be_split 4 z))) = z) as ->.
  { destruct big; [by apply be32_roundtrip|].
    rewrite le_combine_be, rev_involutive. by apply be32_roundtrip. }
  done.
Qed.

(** The reference checksum: Fibonacci-weighted sums of the words. *)
Fixpoint checksum_ref (be : bool) (buf : bytes) (s : Z * Z) : Z * Z :=
  match buf with
  | b0 :: b1 :: b2 :: b3 :: b4 :: b5 :: b6 :: b7 :: rest =>
      let s0 := u32 (fst s + word_ref be [b0; b1; b2; b3] + snd s) in
      let s1 := u32 (snd s + word_ref be [b4; b5; b6; b7] + s0) in
      checksum_ref be rest (s0, s1)
  | _ => s
  end.

(** Induction on a buffer eight bytes at a time. *)
Lemma chunks8_ind (P : bytes -> Prop) :
  (forall b, (length b < 8)%nat -> P b) ->
  (forall b0 b1 b2 b3 b4 b5 b6 b7 rest, P rest ->
     P (b0 :: b1 :: b2 :: b3 :: b4 :: b5 :: b6 :: b7 :: rest)) ->
  forall b, P b.
Proof.
  intros Hs Hc b. remember (length b) as n eqn:Hn. revert b Hn.
  induction n as [n IH] using lt_wf_ind; intros b ->.
  destruct b as [|b0 [|b1 [|b2 [|b3 [|b4 [|b5 [|b6 [|b7 rest]]]]]]]];
    try (apply Hs; simpl; lia).
  apply Hc. eapply IH; [|reflexivity]. simpl. lia.
Qed.

Lemma u32_add_assoc a b c : u32 (a + u32 (b + c)) = u32 (a + b + c).
Proof.
  unfold u32. rewrite Z.add_mod_idemp_r by lia. f_equal. lia.
Qed.

Lemma checksum_loop_ref big be : forall (buf : bytes) s0 s1,
  bytes_ok buf ->
  checksum_loop big (Bool.eqb big be) buf s0 s1 = checksum_ref be buf (s0, s1).
Proof.
  induction buf as [b Hb|b0 b1 b2 b3 b4 b5 b6 b7 rest IH] using chunks8_ind;
    intros s0 s1 Hok.
  - destruct b as [|b0 [|b1 [|b2 [|b3 [|b4 [|b5 [|b6 [|b7 rest]]]]]]]]; try done.
    simpl in Hb. lia.
  - inv_bytes. cbn [checksum_loop checksum_ref fst snd].
    rewrite !checksum_word_portable by (done || solve_bytes).
    rewrite !u32_add_assoc, IH by done. done.
Qed.

Lemma checksum_ref_app be : forall (a b : bytes) s,
  lenZ a mod 8 = 0 -> checksum_ref be (a ++ b) s = checksum_ref be b (checksum_ref be a s).
Proof.
  induction a as [a Ha|b0 b1 b2 b3 b4 b5 b6 b7 rest IH] using chunks8_ind; intros b s Hm.
  - destruct a; [done|]. exfalso. unfold lenZ in Hm. rewrite Z.mod_small in Hm by lia.
    simpl in Hm. lia.
  - cbn [app checksum_ref]. apply IH. unfold lenZ in *. simpl length in Hm. divlia.
Qed.

Lemma checksum_ref_u32 be : forall (a : bytes) s,
  is_u32 (fst s) -> is_u32 (snd s) ->
  is_u32 (fst (checksum_ref be a s)) /\ is_u32 (snd (checksum_ref be a s)).
Proof.
  induction a as [a Ha|b0 b1 b2 b3 b4 b5 b6 b7 rest IH] using chunks8_ind; intros s H0 H1.
  - destruct a as [|? [|? [|? [|? [|? [|? [|? [|? ?]]]]]]]]; try done. simpl in Ha. lia.
  - cbn [checksum_ref]. apply IH; simpl; unfold is_u32, u32; apply Z.mod_pos_bound; lia.
Qed.

(** The byte order of the checksum words: big-endian when the magic is odd. *)
Definition magic_be (magic : Z) : bool := negb (Z.land magic 1 =? 0).

Lemma checksum_wal_ref big buf input magic :
  bytes_ok buf -> lenZ buf mod 8 = 0 ->
  checksum_wal big buf input (use_native_endian big magic) =
  Ok (checksum_ref (magic_be magic) buf input).
Proof.
  intros Hb Hl. unfold checksum_wal. rewrite Hl. simpl. unfold use_native_endian.
  rewrite checksum_loop_ref by done. by destruct input.
Qed.

Lemma expects_be_native (big : bool) magic :
  ((if big then 1 else 0) =? Z.land magic 1) = use_native_endian big magic.
Proof.
  unfold use_native_endian. rewrite (land_mod 1 1) by done.
  change (2 ^ 1) with 2. pose proof (Z.mod_pos_bound magic 2 ltac:(lia)).
  destruct big; case_Z; done || lia.
Qed.

(** ** Frames *)

(** The bytes of a frame. *)
Definition frame_encode (h : WalHeader) (page_number db_size : Z) (c : Z * Z) (page : bytes)
    : bytes :=
  be_split 4 page_number ++ be_split 4 db_size ++
  be_split 4 (wh_salt_1 h) ++ be_split 4 (wh_salt_2 h) ++
  be_split 4 (fst c) ++ be_split 4 (snd c) ++ page.

(** The cumulative checksum after a frame. *)
Definition frame_checksum (h : WalHeader) (prev : Z * Z) (page_number db_size : Z) (page : bytes)
    : Z * Z :=
  let be := magic_be (wh_magic h) in
  checksum_ref be page
    (checksum_ref be (be_split 4 page_number ++ be_split 4 db_size) prev).

Lemma be32_len z : lenZ (be_split 4 z) = 4.
Proof. apply be_split_lenZ. Qed.

Lemma read_be32_at (p s : bytes) z off :
  off = lenZ p -> is_u32 z -> read_be32 (p ++ be_split 4 z ++ s) off = Ok z.
Proof.
  intros -> Hz. unfold read_be32. rewrite (slice_at p (be_split 4 z)); [|done|by rewrite be32_len].
  simpl. by rewrite be32_roundtrip.
Qed.

Lemma read_be32_front (s : bytes) z : is_u32 z -> read_be32 (be_split 4 z ++ s) 0 = Ok z.
Proof. intros. by apply (read_be32_at []). Qed.

(** Read the next field of an explicit concatenation. *)
Ltac read_be32_next off :=
  rewrite (read_be32_at _ _ _ off) by (done || by rewrite ?lenZ_app, ?be32_len);
  cbn [mbind Result_bind]; try rewrite app_assoc.

Lemma prepare_wal_frame_header_eq x rest h pn ds :
  length x = 16%nat ->
  prepare_wal_frame_header (x ++ rest) h pn ds =
  Ok ((be_split 4 pn ++ be_split 4 ds) ++
      (be_split 4 (wh_salt_1 h) ++ be_split 4 (wh_salt_2 h)) ++ rest).
Proof.
  intros Hx.
  destruct (split_front 4 x) as (x0 & y0 & -> & H0 & L0); [lia|].
  destruct (split_front 4 y0) as (x1 & y1 & -> & H1 & L1); [lia|].
  destruct (split_front 4 y1) as (x2 & x3 & -> & H2 & L2); [lia|].
  unfold prepare_wal_frame_header. rewrite <- !app_assoc.
  rewrite write_slice_front by by rewrite be_split_length. cbn [mbind Result_bind].
  rewrite (write_slice_at _ x1) by (by rewrite ?be32_len, ?be_split_length).
  cbn [mbind Result_bind]. rewrite app_assoc.
  rewrite (write_slice_at _ x2) by (by rewrite ?lenZ_app, ?be32_len, ?be_split_length).
  cbn [mbind Result_bind]. rewrite app_assoc.
  rewrite (write_slice_at _ x3) by (rewrite ?lenZ_app, ?be32_len, ?be_split_length; lia).
  by rewrite <- !app_assoc.
Qed.

Lemma recompute_wal_frame_checksum_eq big hd salts x4 page h prev :
  bytes_ok hd -> bytes_ok page -> lenZ page mod 8 = 0 ->
  length hd = 8%nat -> length salts = 8%nat -> length x4 = 8%nat ->
  let be := magic_be (wh_magic h) in
  let c := checksum_ref be page (checksum_ref be hd prev) in
  recompute_wal_frame_checksum big (hd ++ salts ++ x4 ++ page) h prev =
  Ok (c, hd ++ salts ++ be_split 4 (fst c) ++ be_split 4 (snd c) ++ page).
Proof.
  intros Hh Hp Hm Lh Ls L4 be c. unfold recompute_wal_frame_checksum.
  destruct (split_front 4 x4) as (x5 & x6 & -> & H5 & L5); [lia|].
  rewrite expects_be_native, slice_front by (unfold lenZ; lia). cbn [mbind Result_bind].
  rewrite checksum_wal_ref by (done || (unfold lenZ; rewrite Lh; done)).
  cbn [mbind Result_bind].
  rewrite !app_assoc, slice_from_at
    by (unfold lenZ; rewrite !length_app; unfold WAL_FRAME_HEADER_SIZE; lia).
  cbn [mbind Result_bind]. rewrite checksum_wal_ref by done. cbn [mbind Result_bind].
  fold be. fold c. rewrite <- (app_assoc _ x5), <- (app_assoc _ (x5 ++ x6)), <- (app_assoc x5).
  rewrite (write_slice_at _ x5)
    by (rewrite ?be_split_length; unfold lenZ; rewrite ?length_app; lia).
  cbn [mbind Result_bind]. rewrite app_assoc.
  rewrite (write_slice_at _ x6)
    by (rewrite ?be_split_length; unfold lenZ; rewrite ?length_app, ?be_split_length; lia).
  by rewrite <- !app_assoc.
Qed.

Lemma prepare_wal_frame_eq big buffer h prev pn ds page :
  bytes_ok page -> lenZ page mod 8 = 0 -> lenZ buffer = WAL_FRAME_HEADER_SIZE + lenZ page ->
  prepare_wal_frame big buffer h prev pn ds page =
  Ok (frame_checksum h prev pn ds page,
      frame_encode h pn ds (frame_checksum h prev pn ds page) page).
Proof.
  intros Hok Hm Hlen. unfold WAL_FRAME_HEADER_SIZE, lenZ in Hlen.
  destruct (split_front 16 buffer) as (x & b1 & -> & H0 & L0); [lia|].
  rewrite length_app in *.
  destruct (split_front 8 b1) as (x4 & old & -> & H1 & L1); [lia|].
  rewrite length_app in *.
  unfold prepare_wal_frame. rewrite prepare_wal_frame_header_eq by done.
  cbn [mbind Result_bind]. unfold copy_tail.
  set (hd := be_split 4 pn ++ be_split 4 ds).
  set (salts := be_split 4 (wh_salt_1 h) ++ be_split 4 (wh_salt_2 h)).
  assert (length hd = 8%nat) as Lh by (subst hd; by rewrite length_app, !be_split_length).
  assert (length salts = 8%nat) as Ls by (subst salts; by rewrite length_app, !be_split_length).
  assert ((WAL_FRAME_HEADER_SIZE + lenZ page =? lenZ (hd ++ salts ++ x4 ++ old)) = true) as ->.
  { apply Z.eqb_eq. unfold lenZ, WAL_FRAME_HEADER_SIZE. rewrite !length_app. lia. }
  cbn [turso_assert mbind Result_bind].
  rewrite <- (app_nil_r old), !app_assoc, <- (app_assoc _ old []), (write_slice_at _ old)
    by (unfold lenZ, WAL_FRAME_HEADER_SIZE; rewrite ?length_app; lia).
  cbn [mbind Result_bind]. rewrite app_nil_r, <- !app_assoc.
  rewrite recompute_wal_frame_checksum_eq; try done.
  subst hd. solve_bytes.
Qed.

Lemma parse_frame_encode h pn ds c page :
  is_u32 pn -> is_u32 ds -> is_u32 (wh_salt_1 h) -> is_u32 (wh_salt_2 h) ->
  is_u32 (fst c) -> is_u32 (snd c) ->
  parse_wal_frame_header (frame_encode h pn ds c page) =
  Ok (mkWalFrameHeader pn ds (wh_salt_1 h) (wh_salt_2 h) (fst c) (snd c), page).
Proof.
  intros. unfold parse_wal_frame_header, frame_encode.
  rewrite read_be32_front by done. cbn [mbind Result_bind].
  read_be32_next 4. read_be32_next 8. read_be32_next 12. read_be32_next 16. read_be32_next 20.
  rewrite slice_from_at by by rewrite !lenZ_app, !be32_len. done.
Qed.

(** ** The WAL header *)

Lemma parse_wal_header_bytes h rest :
  Forall is_u32 [wh_magic h; wh_file_format h; wh_page_size h; wh_checkpoint_seq h;
                 wh_salt_1 h; wh_salt_2 h; wh_checksum_1 h; wh_checksum_2 h] ->
  parse_wal_header (wal_header_bytes h ++ rest) = Ok h.
Proof.
  intros Hf. repeat match goal with H : Forall _ (_ :: _) |- _ => apply Forall_cons in H as [? H] end.
  unfold parse_wal_header, wal_header_bytes. rewrite <- !app_assoc.
  rewrite read_be32_front by done. cbn [mbind Result_bind].
  read_be32_next 4. read_be32_next 8. read_be32_next 12. read_be32_next 16.
  read_be32_next 20. read_be32_next 24. read_be32_next 28. by destruct h.
Qed.

Lemma checksum_loop_words big n w0 w1 rest s0 s1 :
  length w0 = 4%nat -> length w1 = 4%nat ->
  checksum_loop big n (w0 ++ w1 ++ rest) s0 s1 =
  let t0 := u32 (s0 + checksum_word big n w0 + s1) in
  let t1 := u32 (s1 + checksum_word big n w1 + t0) in
  checksum_loop big n rest t0 t1.
Proof.
  destruct w0 as [|a0 [|a1 [|a2 [|a3 [|]]]]]; try done.
  destruct w1 as [|c0 [|c1 [|c2 [|c3 [|]]]]]; try done.
  intros _ _. cbn [app checksum_loop]. by rewrite !u32_add_assoc.
Qed.

Lemma checksum_ref_words be w0 w1 rest s :
  length w0 = 4%nat -> length w1 = 4%nat ->
  checksum_ref be (w0 ++ w1 ++ rest) s =
  let t0 := u32 (fst s + word_ref be w0 + snd s) in
  let t1 := u32 (snd s + word_ref be w1 + t0) in
  checksum_ref be rest (t0, t1).
Proof.
  destruct w0 as [|a0 [|a1 [|a2 [|a3 [|]]]]]; try done.
  destruct w1 as [|c0 [|c1 [|c2 [|c3 [|]]]]]; done.
Qed.

Lemma to_ne_bytes_length big z : length (to_ne_bytes big z) = 4%nat.
Proof. unfold to_ne_bytes, le_split. destruct big; rewrite ?length_rev; apply be_split_length. Qed.

(** Summing the in-memory words with the writer's flag gives what the reader
    computes from the big-endian words with its own flag. *)
Lemma memory_word big z :
  is_u32 z -> checksum_word big big (to_ne_bytes big z) = word_ref big (be_split 4 z).
Proof.
  intros Hz. replace big with (Bool.eqb big true) at 2 by by destruct big.
  rewrite checksum_word_memory by done. unfold word_ref, swap_bytes.
  destruct big; simpl; [|done]. symmetry. by apply be32_roundtrip.
Qed.

Lemma memory_checksum big a b rest rest' s0 s1 :
  is_u32 a -> is_u32 b ->
  (forall t0 t1, checksum_loop big big rest t0 t1 = checksum_ref big rest' (t0, t1)) ->
  checksum_loop big big (to_ne_bytes big a ++ to_ne_bytes big b ++ rest) s0 s1 =
  checksum_ref big (be_split 4 a ++ be_split 4 b ++ rest') (s0, s1).
Proof.
  intros Ha Hb Hr.
  rewrite checksum_loop_words, checksum_ref_words by (apply to_ne_bytes_length || apply be_split_length).
  rewrite !memory_word by done. apply Hr.
Qed.

(** The first 24 bytes of the on-disk header. *)
Definition header_prefix (h : WalHeader) : bytes :=
  be_split 4 (wh_magic h) ++ be_split 4 (wh_file_format h) ++
  be_split 4 (wh_page_size h) ++ be_split 4 (wh_checkpoint_seq h) ++
  be_split 4 (wh_salt_1 h) ++ be_split 4 (wh_salt_2 h) ++ [].

Definition header_u32 (h : WalHeader) : Prop :=
  Forall is_u32 [wh_magic h; wh_file_format h; wh_page_size h; wh_checkpoint_seq h;
                 wh_salt_1 h; wh_salt_2 h; wh_checksum_1 h; wh_checksum_2 h].

(** A header whose stored checksum is the one of its first 24 bytes. *)
Definition header_valid_checksum (h : WalHeader) : Prop :=
  (wh_checksum_1 h, wh_checksum_2 h) =
  checksum_ref (magic_be (wh_magic h)) (header_prefix h) (0, 0).

Lemma as_bytes_prefix big h :
  slice (as_bytes big h) 0 (WAL_HEADER_SIZE - 8) =
  Ok (to_ne_bytes big (wh_magic h) ++ to_ne_bytes big (wh_file_format h) ++
      to_ne_bytes big (wh_page_size h) ++ to_ne_bytes big (wh_checkpoint_seq h) ++
      to_ne_bytes big (wh_salt_1 h) ++ to_ne_bytes big (wh_salt_2 h) ++ []).
Proof.
  unfold as_bytes. rewrite !app_nil_r, !app_assoc, <- (app_assoc _ (to_ne_bytes _ (wh_checksum_1 h))).
  apply slice_front. unfold lenZ. rewrite !length_app, !to_ne_bytes_length. done.
Qed.

Lemma magic_be_new (big : bool) : magic_be (if big then WAL_MAGIC_BE else WAL_MAGIC_LE) = big.
Proof. by destruct big. Qed.

(** [complete_header] keeps the fields in range and stores a checksum that the
    reader will accept. *)
Lemma complete_header_ok big h page_size rnd1 rnd2 :
  header_u32 h -> is_u32 (PageSize_get page_size) ->
  exists h', complete_header big h page_size rnd1 rnd2 = Ok h' /\
    header_u32 h' /\ header_valid_checksum h' /\
    wh_magic h' = (if big then WAL_MAGIC_BE else WAL_MAGIC_LE) /\
    wh_page_size h' = (if wh_page_size h =? 0 then PageSize_get page_size else wh_page_size h).
Proof.
  intros Hu Hp. unfold header_u32 in Hu.
  repeat match goal with H : Forall _ (_ :: _) |- _ => apply Forall_cons in H as [? H] end.
  unfold complete_header. rewrite as_bytes_prefix. cbn [mbind Result_bind].
  set (magic := if big then WAL_MAGIC_BE else WAL_MAGIC_LE).
  set (psz := if wh_page_size h =? 0 then _ else _).
  set (s1 := if _ && _ then u32 rnd1 else _). set (s2 := if _ && _ then u32 rnd2 else _).
  assert (is_u32 magic) by (subst magic; unfold WAL_MAGIC_BE, WAL_MAGIC_LE; destruct big; rlia).
  assert (is_u32 psz) by (subst psz; by destruct (wh_page_size h =? 0)).
  assert (is_u32 s1 /\ is_u32 s2) as [? ?].
  { subst s1 s2. destruct ((wh_salt_1 h =? 0) && (wh_salt_2 h =? 0)); split; try done; apply Z.mod_pos_bound; lia. }
  cbn [wh_magic wh_file_format wh_page_size wh_checkpoint_seq wh_salt_1 wh_salt_2].
  unfold checksum_wal. match goal with |- context [turso_assert ?b] => assert (b = true) as -> end.
  { unfold lenZ. rewrite !length_app, !to_ne_bytes_length. done. }
  cbn [turso_assert mbind Result_bind fst snd].
  change (negb (Z.land magic 1 =? 0)) with (magic_be magic).
  subst magic. rewrite magic_be_new.
  rewrite (memory_checksum _ _ _ _ (be_split 4 psz ++ be_split 4 (wh_checkpoint_seq h) ++
             be_split 4 s1 ++ be_split 4 s2 ++ [])); try done.
  2:{ intros. apply memory_checksum; try done. intros. by apply memory_checksum. }
  eexists. split; [reflexivity|].
  pose proof (checksum_ref_u32 big (be_split 4 (if big then WAL_MAGIC_BE else WAL_MAGIC_LE) ++
    be_split 4 (wh_file_format h) ++ be_split 4 psz ++ be_split 4 (wh_checkpoint_seq h) ++
    be_split 4 s1 ++ be_split 4 s2 ++ []) (0, 0) ltac:(simpl; rlia) ltac:(simpl; rlia)) as [? ?].
  split_and!; try done.
  - unfold header_u32. repeat apply Forall_cons_2; done.
  - unfold header_valid_checksum, header_prefix. simpl. rewrite magic_be_new.
    by rewrite <- surjective_pairing.
Qed.

(** ** Properties *)

(** The WAL checksum does not depend on the byte order of the machine: on
    every target [checksum_wal] sums the 32-bit words big-endian when the magic
    number is odd and little-endian when it is even, and the checksum of a
    concatenation is the checksum of the second part seeded with the first. *)
Theorem checksum_wal_portable (big : bool) (magic : Z) (a b : bytes) (input : Z * Z)
    (Ha : bytes_ok a) (Hb : bytes_ok b)
    (La : lenZ a mod 8 = 0) (Lb : lenZ b mod 8 = 0) :
  checksum_wal big a input (use_native_endian big magic) =
    Ok (checksum_ref (magic_be magic) a input) /\
  checksum_wal big (a ++ b) input (use_native_endian big magic) =
    (seed ← checksum_wal big a input (use_native_endian big magic);
     checksum_wal big b seed (use_native_endian big magic)).
Proof.
  split; [by apply checksum_wal_ref|].
  rewrite !checksum_wal_ref; try done.
  - cbn [mbind Result_bind]. by rewrite checksum_wal_ref, checksum_ref_app.
  - solve_bytes.
  - rewrite lenZ_app. rewrite Z.add_mod, La, Lb by lia. done.
Qed.

Lemma checksum_wal_portable_witness :
  checksum_wal true [1; 0; 0; 0; 2; 0; 0; 0] (0, 0) (use_native_endian true WAL_MAGIC_LE) =
  Ok (1, 3) /\
  checksum_wal false [1; 0; 0; 0; 2; 0; 0; 0] (0, 0) (use_native_endian false WAL_MAGIC_LE) =
  Ok (1, 3).
Proof.
  split;
    (rewrite (proj1 (checksum_wal_portable _ WAL_MAGIC_LE [1; 0; 0; 0; 2; 0; 0; 0] [] (0, 0)
       ltac:(solve_bytes) ltac:(solve_bytes) ltac:(reflexivity) ltac:(reflexivity)));
     vm_compute; reflexivity).
Defined.

(** C31: Whatever the pool buffer held before, [prepare_wal_frame] produces a
    frame of 24 bytes more than the page that parses back to the page number, the
    database size, the salts of the header, the returned cumulative checksum and
    the page itself; and that checksum is the one a reader recomputes from the
    frame's first eight bytes and its page, seeded with the previous one. *)
Theorem prepare_wal_frame_parses (big : bool) (buffer : bytes) (h : WalHeader)
    (prev : Z * Z) (pn ds : Z) (page : bytes)
    (Hh : is_u32 (wh_salt_1 h) /\ is_u32 (wh_salt_2 h))
    (Hprev : is_u32 (fst prev) /\ is_u32 (snd prev))
    (Hpn : is_u32 pn) (Hds : is_u32 ds) (Hpage : bytes_ok page)
    (Hlen : lenZ page mod 8 = 0)
    (Hbuf : lenZ buffer = WAL_FRAME_HEADER_SIZE + lenZ page) :
  exists c frame,
    prepare_wal_frame big buffer h prev pn ds page = Ok (c, frame) /\
    lenZ frame = WAL_FRAME_HEADER_SIZE + lenZ page /\
    parse_wal_frame_header frame =
      Ok (mkWalFrameHeader pn ds (wh_salt_1 h) (wh_salt_2 h) (fst c) (snd c), page) /\
    (head ← slice frame 0 8;
     seed ← checksum_wal big head prev (use_native_endian big (wh_magic h));
     checksum_wal big page seed (use_native_endian big (wh_magic h))) = Ok c.
Proof.
  destruct Hh, Hprev. set (be := magic_be (wh_magic h)).
  pose proof (checksum_ref_u32 be (be_split 4 pn ++ be_split 4 ds) prev) as [? ?]; [done..|].
  assert (is_u32 (fst (frame_checksum h prev pn ds page)) /\
          is_u32 (snd (frame_checksum h prev pn ds page))) as [? ?].
  { unfold frame_checksum. apply checksum_ref_u32; done. }
  eexists _, _. split; [by apply prepare_wal_frame_eq|]. split_and!.
  - unfold frame_encode. rewrite !lenZ_app, !be32_len. unfold WAL_FRAME_HEADER_SIZE. lia.
  - by apply parse_frame_encode.
  - unfold frame_encode. rewrite app_assoc, slice_front by by rewrite lenZ_app, !be32_len.
    cbn [mbind Result_bind].
    rewrite checksum_wal_ref; [|solve_bytes|by rewrite lenZ_app, !be32_len].
    cbn [mbind Result_bind]. by rewrite checksum_wal_ref.
Qed.

Lemma prepare_wal_frame_parses_witness :
  exists c frame,
    prepare_wal_frame false (replicate 32 255) (WalHeader_new false) (0, 0) 3 1
      [1; 2; 3; 4; 5; 6; 7; 8] = Ok (c, frame) /\ lenZ frame = 32.
Proof.
  destruct (prepare_wal_frame_parses false (replicate 32 255) (WalHeader_new false) (0, 0) 3 1
    [1; 2; 3; 4; 5; 6; 7; 8]) as (c & f & H1 & H2 & _); try (simpl; rlia); try reflexivity.
  - solve_bytes.
  - exists c, f. split; [exact H1|exact H2].
Defined.
