(* ===== verification/WalShared.v ===== *)
(** * WalShared: the state shared by the connections of a WAL database

    Models [WalFileShared] (metadata and runtime part) of
    core/storage/wal.rs and the operations on it that do not take a lock
    guard: the frame cache ([cache_frame], [rollback_cache],
    [latest_frame_in_range], [find_frame], [iter_latest_frames]), the
    fallback coverage, snapshots and their publication, and the header
    changes of a restart.  Atomics are plain fields: the calls modelled here
    run under the lock of the shared state. *)

From stdpp Require Import gmap sorting.
From S2P Require Import Prelude OnDisk RwLock WalFormat.

(** ** State *)

(** [OverflowFallbackCoverage] *)
Record Coverage := mkCoverage {
  cov_checkpoint_seq : Z;
  cov_salt_1 : Z;
  cov_salt_2 : Z;
  cov_max_frame : Z;
  cov_valid : bool
}.

Definition coverage_default : Coverage := mkCoverage 0 0 0 0 false.

Definition coverage_clear (c : Coverage) : Coverage := coverage_default.

Definition coverage_record (c : Coverage) (seq salt_1 salt_2 max_frame : Z) : Coverage :=
  if max_frame =? 0 then coverage_clear c
  else mkCoverage seq salt_1 salt_2 max_frame true.

(** [WalSharedMetadata] *)
Record Metadata := mkMetadata {
  m_enabled : bool;
  m_wal_header : WalHeader;
  m_min_frame : Z;
  m_max_frame : Z;
  m_nbackfills : Z;
  m_transaction_count : Z;
  m_last_checksum : Z * Z;
  m_loaded : bool;
  m_loaded_from_disk_scan : bool;
  m_initialized : bool
}.

(** [WalSharedRuntime]; the file handle is represented by its presence. *)
Record Runtime := mkRuntime {
  r_frame_cache : gmap Z (list Z);
  r_high_water : Z;
  r_file : bool;
  r_read_locks : list Z;
  r_vacuum_lock : Z;
  r_write_lock : Z;
  r_checkpoint_lock : Z;
  r_epoch : Z;
  r_coverage : Coverage
}.

Record WalFileShared := mkShared { metadata : Metadata; runtime : Runtime }.

(** Field updates. *)
Definition with_metadata (s : WalFileShared) (m : Metadata) : WalFileShared :=
  mkShared m (runtime s).
Definition with_runtime (s : WalFileShared) (r : Runtime) : WalFileShared :=
  mkShared (metadata s) r.

Definition set_cache (r : Runtime) (c : gmap Z (list Z)) (hw : Z) : Runtime :=
  mkRuntime c hw (r_file r) (r_read_locks r) (r_vacuum_lock r) (r_write_lock r)
    (r_checkpoint_lock r) (r_epoch r) (r_coverage r).
Definition set_coverage (r : Runtime) (c : Coverage) : Runtime :=
  mkRuntime (r_frame_cache r) (r_high_water r) (r_file r) (r_read_locks r) (r_vacuum_lock r)
    (r_write_lock r) (r_checkpoint_lock r) (r_epoch r) c.
Definition set_read_locks (r : Runtime) (l : list Z) : Runtime :=
  mkRuntime (r_frame_cache r) (r_high_water r) (r_file r) l (r_vacuum_lock r)
    (r_write_lock r) (r_checkpoint_lock r) (r_epoch r) (r_coverage r).
Definition set_write_lock (r : Runtime) (w : Z) : Runtime :=
  mkRuntime (r_frame_cache r) (r_high_water r) (r_file r) (r_read_locks r) (r_vacuum_lock r)
    w (r_checkpoint_lock r) (r_epoch r) (r_coverage r).
Definition set_checkpoint_lock (r : Runtime) (w : Z) : Runtime :=
  mkRuntime (r_frame_cache r) (r_high_water r) (r_file r) (r_read_locks r) (r_vacuum_lock r)
    (r_write_lock r) w (r_epoch r) (r_coverage r).
Definition set_epoch (r : Runtime) (e : Z) : Runtime :=
  mkRuntime (r_frame_cache r) (r_high_water r) (r_file r) (r_read_locks r) (r_vacuum_lock r)
    (r_write_lock r) (r_checkpoint_lock r) e (r_coverage r).

(** ** Initial state of [BuildSharedWal::begin] *)

(** Take the write lock, store the mark and release, as the loop over the
    read locks does. *)
Definition init_read_lock (mark : Z) : Result Z :=
  let '(_, w) := lock_write lock_new in
  w ← set_value_exclusive w mark;
  lock_unlock w.

Definition init_read_locks : Result (list Z) :=
  l0 ← init_read_lock 0;
  l1 ← init_read_lock 0;
  l2 ← init_read_lock READMARK_NOT_USED;
  l3 ← init_read_lock READMARK_NOT_USED;
  l4 ← init_read_lock READMARK_NOT_USED;
  Ok [l0; l1; l2; l3; l4].

Definition begin_shared (big : bool) : Result WalFileShared :=
  locks ← init_read_locks;
  Ok (mkShared
        (mkMetadata true (WalHeader_new big) 0 0 0 0 (0, 0) false true false)
        (mkRuntime ∅ 0 true locks lock_new lock_new lock_new 0 coverage_default)).

(** ** Frame cache *)

(** [slice::partition_point] on a slice partitioned by the predicate: the
    number of leading elements that satisfy it. *)
Fixpoint partition_point (p : Z -> bool) (l : list Z) : nat :=
  match l with
  | [] => 0
  | x :: l' => if p x then S (partition_point p l') else 0
  end.

(** The range is [lo..=hi]. *)
Definition latest_frame_in_range (frames : list Z) (lo hi : Z) : option Z :=
  let n := partition_point (fun frame => frame <=? hi) frames in
  match last (take n frames) with
  | Some frame => if (lo <=? frame) && (frame <=? hi) then Some frame else None
  | None => None
  end.

Definition find_frame (s : WalFileShared) (page_id min_frame max_frame : Z)
    (frame_watermark : option Z) : option Z :=
  let '(lo, hi) :=
    match frame_watermark with Some x => (0, x) | None => (min_frame, max_frame) end in
  match r_frame_cache (runtime s) !! page_id with
  | Some frames => latest_frame_in_range frames lo hi
  | None => None
  end.

(** Order of the result of [iter_latest_frames]: by page id. *)
Definition page_le (a b : Z * Z) : Prop := fst a <= fst b.

#[export] Instance page_le_dec a b : Decision (page_le a b).
Proof. unfold page_le. apply _. Defined.

Definition iter_latest_frames (s : WalFileShared) (min_frame max_frame : Z) : list (Z * Z) :=
  merge_sort page_le
    (map_to_list
       (omap (fun frames => latest_frame_in_range frames min_frame max_frame)
          (r_frame_cache (runtime s)))).

(** [while frames.last().is_some_and(p) { frames.pop(); }] *)
Fixpoint pop_while (p : Z -> bool) (frames : list Z) : list Z :=
  match frames with
  | [] => []
  | x :: frames' =>
      match pop_while p frames' with
      | [] => if p x then [] else [x]
      | rest => x :: rest
      end
  end.

(** [frame_cache.retain]: truncate every list, drop the pages left without
    frames. *)
Definition retain_frames (p : Z -> bool) (c : gmap Z (list Z)) : gmap Z (list Z) :=
  omap (fun frames =>
    match pop_while p frames with [] => None | rest => Some rest end) c.

Definition cache_frame (r : Runtime) (page_id frame_id : Z) : Runtime :=
  let c :=
    if frame_id <=? r_high_water r
    then retain_frames (fun frame => frame_id <=? frame) (r_frame_cache r)
    else r_frame_cache r in
  let c :=
    match c !! page_id with
    | Some frames => <[page_id := frames ++ [frame_id]]> c
    | None => <[page_id := [frame_id]]> c
    end in
  set_cache r c frame_id.

Definition rollback_cache (r : Runtime) (max_frame : Z) : Runtime :=
  let c := retain_frames (fun frame => max_frame <? frame) (r_frame_cache r) in
  let hw := if max_frame <? r_high_water r then max_frame else r_high_water r in
  set_cache r c hw.

(** ** Snapshots *)

(** [WalSnapshot] *)
Record WalSnapshot := mkSnapshot {
  s_max_frame : Z;
  s_nbackfills : Z;
  s_last_checksum : Z * Z;
  s_checkpoint_seq : Z;
  s_transaction_count : Z
}.

#[export] Instance WalSnapshot_eq_dec : EqDecision WalSnapshot.
Proof. solve_decision. Defined.

(** [WalSnapshot::min_frame] *)
Definition s_min_frame (s : WalSnapshot) : Z := s_nbackfills s + 1.

Definition snapshot_of (s : WalFileShared) : WalSnapshot :=
  let m := metadata s in
  mkSnapshot (m_max_frame m) (m_nbackfills m) (m_last_checksum m)
    (wh_checkpoint_seq (m_wal_header m)) (m_transaction_count m).

Definition publish_commit (s : WalFileShared) (max_frame : Z) (last_checksum : Z * Z)
    (transaction_count : Z) : WalFileShared :=
  let m := metadata s in
  with_metadata s
    (mkMetadata (m_enabled m) (m_wal_header m) (m_min_frame m) max_frame (m_nbackfills m)
       transaction_count last_checksum (m_loaded m) (m_loaded_from_disk_scan m)
       (m_initialized m)).

Definition publish_backfill (s : WalFileShared) (max_frame : Z) : WalFileShared :=
  let m := metadata s in
  with_metadata s
    (mkMetadata (m_enabled m) (m_wal_header m) (m_min_frame m) (m_max_frame m) max_frame
       (m_transaction_count m) (m_last_checksum m) (m_loaded m) (m_loaded_from_disk_scan m)
       (m_initialized m)).

Definition bump_checkpoint_epoch (s : WalFileShared) : Z * WalFileShared :=
  (r_epoch (runtime s),
   with_runtime s (set_epoch (runtime s) (u32 (r_epoch (runtime s) + 1)))).

(** ** Header changes *)

Definition set_header (m : Metadata) (h : WalHeader) (initialized : bool) (cks : Z * Z)
    : Metadata :=
  mkMetadata (m_enabled m) h (m_min_frame m) (m_max_frame m) (m_nbackfills m)
    (m_transaction_count m) cks (m_loaded m) (m_loaded_from_disk_scan m) initialized.

(** [prepare_wal_header] *)
Definition prepare_wal_header (big : bool) (s : WalFileShared) (page_size : PageSize)
    (rnd1 rnd2 : Z) : Result (option WalHeader * WalFileShared) :=
  if m_initialized (metadata s) then Ok (None, s)
  else
    h ← complete_header big (m_wal_header (metadata s)) page_size rnd1 rnd2;
    Ok (Some h,
        with_metadata s
          (set_header (metadata s) h false (wh_checksum_1 h, wh_checksum_2 h))).

Definition mark_initialized (s : WalFileShared) : WalFileShared :=
  let m := metadata s in
  with_metadata s (set_header m (m_wal_header m) true (m_last_checksum m)).

(** [restart_wal_header]; [rnd] is [io.generate_random_number()].  The read
    locks must be held exclusively. *)
Definition restart_wal_header (s : WalFileShared) (rnd : Z) : Result WalFileShared :=
  let m := metadata s in
  let h := m_wal_header m in
  let h' := mkWalHeader (wh_magic h) (wh_file_format h) (wh_page_size h)
              (u32 (wh_checkpoint_seq h + 1)) (u32 (wh_salt_1 h + 1)) (u32 rnd)
              (wh_checksum_1 h) (wh_checksum_2 h) in
  let m' := mkMetadata (m_enabled m) h' (m_min_frame m) 0 0 (m_transaction_count m)
              (wh_checksum_1 h, wh_checksum_2 h) (m_loaded m) (m_loaded_from_disk_scan m)
              false in
  let r := set_cache (runtime s) ∅ 0 in
  match r_read_locks r with
  | [w0; w1; w2; w3; w4] =>
      w0 ← set_value_exclusive w0 0;
      w1 ← set_value_exclusive w1 0;
      w2 ← set_value_exclusive w2 READMARK_NOT_USED;
      w3 ← set_value_exclusive w3 READMARK_NOT_USED;
      w4 ← set_value_exclusive w4 READMARK_NOT_USED;
      Ok (mkShared m' (set_read_locks r [w0; w1; w2; w3; w4]))
  | _ => Panic
  end.

(** ** The log a frame cache represents *)

(** The 1-based positions, from [i] on, at which page [p] occurs in a log of
    page numbers. *)
Fixpoint positions_from (i p : Z) (log : list Z) : list Z :=
  match log with
  | [] => []
  | q :: log' =>
      if q =? p then i :: positions_from (i + 1) p log'
      else positions_from (i + 1) p log'
  end.

Definition positions (p : Z) (log : list Z) : list Z := positions_from 1 p log.

(** A page has an entry in the cache exactly when it occurs in the log, and
    the entry is the list of its frames. *)
Definition nonempty (l : list Z) : option (list Z) :=
  match l with [] => None | _ => Some l end.

Definition cache_rep (c : gmap Z (list Z)) (log : list Z) : Prop :=
  forall p, c !! p = nonempty (positions p log).

Lemma positions_from_app i p a b :
  positions_from i p (a ++ b) = positions_from i p a ++ positions_from (i + lenZ a) p b.
Proof.
  revert i. induction a as [|q a IH]; intros i; simpl.
  - f_equal. unfold lenZ. simpl. lia.
  - replace (i + lenZ (q :: a)) with (i + 1 + lenZ a) by (unfold lenZ; simpl; lia).
    rewrite IH. by destruct (q =? p).
Qed.

Lemma positions_from_range i p log f :
  In f (positions_from i p log) <->
  i <= f < i + lenZ log /\ log !! Z.to_nat (f - i) = Some p.
Proof.
  revert i. induction log as [|q log IH]; intros i; simpl.
  - unfold lenZ. simpl. split; [done|]. intros [? ?]. lia.
  - assert (lenZ (q :: log) = 1 + lenZ log) as -> by (unfold lenZ; simpl; lia).
    destruct (Z.eqb_spec q p) as [->|Hne]; cbn [In]; rewrite IH; split.
    + intros [<-|[? Hf]].
      * pose proof (lenZ_nonneg log). rewrite Z.sub_diag. split; [lia|done].
      * split; [lia|]. replace (Z.to_nat (f - i)) with (S (Z.to_nat (f - (i + 1)))) by lia.
        done.
    + intros [? Hf]. destruct (Z.eq_dec i f); [by left|right]. split; [lia|].
      replace (Z.to_nat (f - i)) with (S (Z.to_nat (f - (i + 1)))) in Hf by lia. done.
    + intros [? Hf]. split; [lia|].
      replace (Z.to_nat (f - i)) with (S (Z.to_nat (f - (i + 1)))) by lia. done.
    + intros [? Hf]. destruct (Z.eq_dec f i) as [->|].
      * rewrite Z.sub_diag in Hf. simpl in Hf. congruence.
      * split; [lia|].
        replace (Z.to_nat (f - i)) with (S (Z.to_nat (f - (i + 1)))) in Hf by lia. done.
Qed.

Lemma pop_while_app p a b :
  (forall x, In x a -> p x = false) -> (forall x, In x b -> p x = true) ->
  pop_while p (a ++ b) = a.
Proof.
  intros Ha Hb.
  assert (pop_while p b = []) as Hpb.
  { clear Ha. induction b as [|x b IH]; [done|]. simpl.
    rewrite IH by (intros; apply Hb; by right). rewrite Hb by by left. done. }
  induction a as [|x a IH]; [done|]. simpl.
  rewrite IH by (intros; apply Ha; by right). rewrite Ha by by left. by destruct a.
Qed.

Lemma positions_bounds p log f : In f (positions p log) -> 1 <= f <= lenZ log.
Proof. unfold positions. rewrite positions_from_range. lia. Qed.

(** Truncating the lists of a cache truncates the log. *)
Lemma retain_frames_rep c log (q : Z -> bool) m :
  cache_rep c log -> 0 <= m ->
  (forall f, 1 <= f <= lenZ log -> q f = (m <? f)) ->
  cache_rep (retain_frames q c) (take (Z.to_nat m) log).
Proof.
  intros Hc Hm Hq p. unfold retain_frames. rewrite lookup_omap, Hc.
  set (l := positions p log).
  assert (pop_while q l = positions p (take (Z.to_nat m) log)) as Hpop.
  { subst l. rewrite <- (take_drop (Z.to_nat m) log) at 1. unfold positions.
    rewrite positions_from_app. apply pop_while_app; intros f Hf.
    - apply positions_from_range in Hf as [Hf _]. unfold lenZ in *.
      rewrite length_take in Hf. rewrite Hq by lia. apply Z.ltb_ge. lia.
    - apply positions_from_range in Hf as [Hf _].
      assert (m <= lenZ log \/ lenZ log < m) as [?|?] by lia.
      + unfold lenZ in *.
        rewrite length_take, length_drop in Hf. rewrite Hq by (unfold lenZ; lia).
        apply Z.ltb_lt. lia.
      + unfold lenZ in *. rewrite length_take, length_drop in Hf. lia. }
  destruct l as [|x l']; simpl in *; rewrite <- Hpop; [done|].
  by destruct (match pop_while q l' with [] => _ | _ => _ end).
Qed.

Lemma cache_rep_append c log page f :
  cache_rep c log -> f = lenZ log + 1 ->
  cache_rep
    (match c !! page with
     | Some frames => <[page := frames ++ [f]]> c
     | None => <[page := [f]]> c
     end) (log ++ [page]).
Proof.
  intros Hc -> p. unfold positions.
  assert (positions p (log ++ [page]) =
          positions p log ++ (if page =? p then [lenZ log + 1] else [])) as Hp.
  { unfold positions. rewrite positions_from_app. simpl. rewrite Z.add_comm.
    by destruct (page =? p). }
  unfold positions in Hp. rewrite Hp. clear Hp. change (positions_from 1 p log) with (positions p log).
  destruct (Z.eqb_spec page p) as [->|Hne].
  - rewrite (Hc p). destruct (positions p log) as [|x l] eqn:E; simpl;
      by rewrite lookup_insert_eq.
  - rewrite app_nil_r, <- Hc. case_match; by rewrite lookup_insert_ne.
Qed.

(** Caching a frame at [f] overwrites the log from position [f] on. *)
Lemma cache_frame_rep r log page f :
  cache_rep (r_frame_cache r) log -> r_high_water r = lenZ log -> 1 <= f <= lenZ log + 1 ->
  cache_rep (r_frame_cache (cache_frame r page f)) (take (Z.to_nat (f - 1)) log ++ [page]) /\
  r_high_water (cache_frame r page f) = lenZ (take (Z.to_nat (f - 1)) log ++ [page]).
Proof.
  intros Hc Hhw Hf. unfold cache_frame. cbn [set_cache r_frame_cache r_high_water].
  rewrite Hhw.
  assert (lenZ (take (Z.to_nat (f - 1)) log) + 1 = f) as Hlen.
  { unfold lenZ in *. rewrite length_take. lia. }
  split; [|rewrite lenZ_app; unfold lenZ in *; simpl; lia].
  apply cache_rep_append; [|done].
  destruct (Z.leb_spec f (lenZ log)).
  - apply retain_frames_rep; [done|lia|]. intros x _. apply eq_iff_eq_true.
    rewrite Z.leb_le, Z.ltb_lt. lia.
  - rewrite take_ge; [done|]. unfold lenZ in *. lia.
Qed.

Lemma rollback_cache_rep r log m :
  cache_rep (r_frame_cache r) log -> r_high_water r = lenZ log -> 0 <= m ->
  cache_rep (r_frame_cache (rollback_cache r m)) (take (Z.to_nat m) log) /\
  r_high_water (rollback_cache r m) = lenZ (take (Z.to_nat m) log).
Proof.
  intros Hc Hhw Hm. unfold rollback_cache. cbn [set_cache r_frame_cache r_high_water].
  split; [by apply retain_frames_rep|]. rewrite Hhw. unfold lenZ. rewrite length_take.
  case_Z; lia.
Qed.

Lemma positions_from_sorted i p log : StronglySorted Z.lt (positions_from i p log).
Proof.
  revert i. induction log as [|q log IH]; intros i; simpl; [constructor|].
  destruct (q =? p); [|apply IH]. constructor; [apply IH|].
  apply List.Forall_forall. intros f [? _]%positions_from_range. lia.
Qed.

Lemma last_cons_cases {A} (x : A) l :
  last (x :: l) = match last l with Some y => Some y | None => Some x end.
Proof. rewrite last_cons. by destruct (last l). Qed.

(** The last element of the prefix that [partition_point] delimits. *)
Lemma partition_point_last l hi :
  StronglySorted Z.lt l ->
  match last (take (partition_point (fun frame => frame <=? hi) l) l) with
  | Some f => In f l /\ f <= hi /\ forall g, In g l -> g <= hi -> g <= f
  | None => forall g, In g l -> hi < g
  end.
Proof.
  induction 1 as [|x l Hs IH Hx]; simpl; [done|].
  destruct (Z.leb_spec x hi) as [Hle|Hgt].
  - cbn [take]. rewrite last_cons_cases.
    destruct (last (take _ l)) as [f|].
    + destruct IH as (? & ? & Hmax). split_and!; [by right|done|].
      intros g [<-|Hg] ?; [|by apply Hmax].
      rewrite List.Forall_forall in Hx. assert (x < f) by by apply Hx. lia.
    + split_and!; [by left|done|]. intros g [<-|Hg] ?; [lia|].
      specialize (IH g Hg). lia.
  - simpl. intros g [<-|Hg]; [done|]. rewrite List.Forall_forall in Hx.
    specialize (Hx g Hg). lia.
Qed.

(** [f] is the latest frame of page [p] in [lo..=hi] of the log. *)
Definition is_latest (log : list Z) (p lo hi f : Z) : Prop :=
  lo <= f <= hi /\ 1 <= f <= lenZ log /\ log !! Z.to_nat (f - 1) = Some p /\
  forall g, lo <= g <= hi -> 1 <= g <= lenZ log -> log !! Z.to_nat (g - 1) = Some p -> g <= f.

Lemma positions_in p log f :
  In f (positions p log) <-> 1 <= f <= lenZ log /\ log !! Z.to_nat (f - 1) = Some p.
Proof. unfold positions. rewrite positions_from_range. intuition lia. Qed.

Lemma latest_frame_positions p log lo hi :
  match latest_frame_in_range (positions p log) lo hi with
  | Some f => is_latest log p lo hi f
  | None => forall g, lo <= g <= hi -> 1 <= g <= lenZ log -> log !! Z.to_nat (g - 1) <> Some p
  end.
Proof.
  unfold latest_frame_in_range.
  pose proof (partition_point_last (positions p log) hi (positions_from_sorted 1 p log)) as H.
  destruct (last _) as [f|].
  - destruct H as (Hf & Hhi & Hmax). apply positions_in in Hf as [Hr Hl].
    destruct (Z.leb_spec lo f), (Z.leb_spec f hi); cbn [andb]; try lia.
    + split_and!; try done; try lia. intros g Hg Hgr Hgl. apply Hmax; [|lia].
      by apply positions_in.
    + intros g Hg Hgr Hgl. assert (g <= f) by (apply Hmax; [by apply positions_in|lia]). lia.
  - intros g Hg Hgr Hgl. assert (hi < g) by (apply H; by apply positions_in). lia.
Qed.

Lemma find_frame_rep s log p lo hi :
  cache_rep (r_frame_cache (runtime s)) log ->
  match find_frame s p lo hi None with
  | Some f => is_latest log p lo hi f
  | None => forall g, lo <= g <= hi -> 1 <= g <= lenZ log -> log !! Z.to_nat (g - 1) <> Some p
  end.
Proof.
  intros Hc. unfold find_frame. rewrite Hc.
  pose proof (latest_frame_positions p log lo hi) as H.
  destruct (positions p log) eqn:E; cbn [nonempty]; [|exact H].
  intros g Hg Hgr Hgl. assert (In g (positions p log)) as Hin by by apply positions_in.
  rewrite E in Hin. done.
Qed.

(** Membership in [iter_latest_frames]. *)
Lemma iter_latest_frames_elem s log lo hi p f :
  cache_rep (r_frame_cache (runtime s)) log ->
  (p, f) ∈ iter_latest_frames s lo hi <-> is_latest log p lo hi f.
Proof.
  intros Hc. unfold iter_latest_frames. rewrite merge_sort_Permutation.
  rewrite elem_of_map_to_list, lookup_omap, Hc.
  pose proof (latest_frame_positions p log lo hi) as H. split.
  - intros Hf. destruct (positions p log); [done|]. simpl in Hf.
    rewrite Hf in H. done.
  - intros Hl. destruct (latest_frame_in_range (positions p log) lo hi) as [g|] eqn:E.
    + assert (g = f) as ->.
      { destruct H as (? & ? & ? & Hmax), Hl as (? & ? & ? & Hmax').
        apply Z.le_antisymm; [by apply Hmax'|by apply Hmax]. }
      destruct (positions p log); [done|]. exact E.
    + destruct Hl as (? & ? & Hl & _). by apply H in Hl.
Qed.

(** ** Sequences of cache operations *)

Inductive cache_op := OpCache (page_id frame_id : Z) | OpRollback (max_frame : Z).

Definition run_op (r : Runtime) (o : cache_op) : Runtime :=
  match o with
  | OpCache p f => cache_frame r p f
  | OpRollback m => rollback_cache r m
  end.

(** The log after an operation: a frame is written at its position and cuts
    off what came after it; a rollback keeps a prefix. *)
Definition log_op (log : list Z) (o : cache_op) : list Z :=
  match o with
  | OpCache p f => take (Z.to_nat (f - 1)) log ++ [p]
  | OpRollback m => take (Z.to_nat m) log
  end.

(** Frames are written at an existing position or right after the last. *)
Fixpoint ops_ok (log : list Z) (ops : list cache_op) : Prop :=
  match ops with
  | [] => True
  | o :: ops' =>
      match o with
      | OpCache _ f => 1 <= f <= lenZ log + 1
      | OpRollback m => 0 <= m
      end /\ ops_ok (log_op log o) ops'
  end.

Definition runtime_rep (r : Runtime) (log : list Z) : Prop :=
  cache_rep (r_frame_cache r) log /\ r_high_water r = lenZ log.

Lemma run_ops_rep ops : forall r log,
  runtime_rep r log -> ops_ok log ops ->
  runtime_rep (foldl run_op r ops) (foldl log_op log ops).
Proof.
  induction ops as [|o ops IH]; intros r log [Hc Hh] Hok; [done|].
  destruct Hok as [Ho Hok]. apply IH; [|done].
  destruct o; [by apply cache_frame_rep|by apply rollback_cache_rep].
Qed.

#[export] Instance page_le_total : Total page_le.
Proof. intros [a ?] [b ?]. unfold page_le. simpl. lia. Qed.

#[export] Instance page_le_trans : Transitive page_le.
Proof. intros [a ?] [b ?] [c ?]. unfold page_le. simpl. lia. Qed.

Lemma iter_latest_frames_nodup s lo hi : NoDup (iter_latest_frames s lo hi).*1.
Proof.
  unfold iter_latest_frames. rewrite merge_sort_Permutation. apply NoDup_fst_map_to_list.
Qed.

(** ** Properties *)

(** C30: The frame cache is the index of the log: after any sequence of frame
    writes (appends and overwrites of earlier positions) and rollbacks, the cache
    represents the log those operations leave, [find_frame] returns the latest
    frame of the page in the given range and nothing when there is none, and
    [iter_latest_frames] lists every page with its latest frame once, in page
    order. *)
Theorem frame_cache_indexes_log (s : WalFileShared) (log : list Z) (ops : list cache_op)
    (Hrep : runtime_rep (runtime s) log) (Hops : ops_ok log ops) :
  let s' := with_runtime s (foldl run_op (runtime s) ops) in
  let log' := foldl log_op log ops in
  runtime_rep (runtime s') log' /\
  (forall p lo hi,
     match find_frame s' p lo hi None with
     | Some f => is_latest log' p lo hi f
     | None => forall g, lo <= g <= hi -> 1 <= g <= lenZ log' ->
                 log' !! Z.to_nat (g - 1) <> Some p
     end) /\
  (forall lo hi, StronglySorted page_le (iter_latest_frames s' lo hi) /\
     NoDup (iter_latest_frames s' lo hi).*1 /\
     forall p f, (p, f) ∈ iter_latest_frames s' lo hi <-> is_latest log' p lo hi f).
Proof.
  intros s' log'. pose proof (run_ops_rep ops _ _ Hrep Hops) as H.
  split; [done|]. destruct H as [Hc _]. split.
  - intros. by apply find_frame_rep.
  - intros. split_and!.
    + apply (StronglySorted_merge_sort page_le).
    + apply iter_latest_frames_nodup.
    + intros. by apply iter_latest_frames_elem.
Qed.

Lemma frame_cache_indexes_log_witness :
  let r := mkRuntime ∅ 0 true [] 0 0 0 0 coverage_default in
  let s := mkShared (mkMetadata true (WalHeader_new false) 0 0 0 0 (0, 0) true true true) r in
  let ops := [OpCache 7 1; OpCache 9 2; OpCache 7 3; OpRollback 2; OpCache 9 3; OpCache 8 2] in
  find_frame (with_runtime s (foldl run_op r ops)) 9 1 10 None = None /\
  runtime_rep (foldl run_op r ops) [7; 8].
Proof.
  intros r s ops. split; [reflexivity|].
  refine (proj1 (frame_cache_indexes_log s [] ops _ _)).
  - split; [intros p; apply lookup_empty|reflexivity].
  - vm_compute. repeat split; discriminate.
Defined.
