(* ===== verification/WalRecovery.v ===== *)
(** * WalRecovery: rebuilding the shared WAL state from the log file

    Models [BuildSharedWal] (phases and [poll]) and [StreamingWalReader] of
    core/storage/sqlite3_ondisk.rs: the header check, the chunked scan of the
    frames, the pending frames of the transaction that has not committed yet,
    and the final publication.  The file is reached through [pread], a
    parameter that gives the outcome of a read of [size] bytes at an offset:
    a failed completion, or the buffer and the number of bytes read.  The
    theorems show that the scan terminates and that its result depends only
    on the valid prefix of the log, not on the chunk boundaries. *)

From stdpp Require Import gmap.
From S2P Require Import Prelude OnDisk RwLock WalFormat WalShared.

(** ** State *)

Record StreamingState := mkStreaming {
  st_frame_idx : Z;
  st_cumulative_checksum : Z * Z;
  st_last_valid_checksum : Z * Z;
  st_last_valid_frame : Z;
  st_pending_frames : gmap Z (list Z);
  st_page_size : Z;
  st_use_native_endian : bool;
  st_header_valid : bool
}.

(** The [StreamingWalReader]; its header is the one of the shared metadata. *)
Record Reader := mkReader {
  rd_shared : WalFileShared;
  rd_file_size : Z;
  rd_state : StreamingState;
  rd_off : Z;
  rd_page : Z;
  rd_done : bool
}.

(** [StreamingWalReader::new] *)
Definition reader_new (shared : WalFileShared) (file_size : Z) : Reader :=
  mkReader shared file_size
    (mkStreaming 1 (0, 0) (0, 0) 0 ∅ 0 false false) 0 0 false.

(** The outcome of a read: [None] is a completion error. *)
Definition read_outcome : Type := option (bytes * Z).

(** ** Frame processing *)

(** [frame_cache.entry(page).or_default().extend(frames)] for every pending
    page, with the frames up to the last commit. *)
Definition merge_pending (cache pending : gmap Z (list Z)) (last_valid : Z)
    : gmap Z (list Z) :=
  union_with (fun old new => Some (old ++ new)) cache
    (omap (fun frames =>
       match List.filter (fun f => f <=? last_valid) frames with
       | [] => None
       | kept => Some kept
       end) pending).

Definition set_max_frame (m : Metadata) (f : Z) : Metadata :=
  mkMetadata (m_enabled m) (m_wal_header m) (m_min_frame m) f (m_nbackfills m)
    (m_transaction_count m) (m_last_checksum m) (m_loaded m) (m_loaded_from_disk_scan m)
    (m_initialized m).

Definition flush_pending_frames (st : StreamingState) (s : WalFileShared)
    : StreamingState * WalFileShared :=
  if decide (st_pending_frames st = ∅) then (st, s)
  else
    let r := runtime s in
    let cache := merge_pending (r_frame_cache r) (st_pending_frames st)
                   (st_last_valid_frame st) in
    (mkStreaming (st_frame_idx st) (st_cumulative_checksum st) (st_last_valid_checksum st)
       (st_last_valid_frame st) ∅ (st_page_size st) (st_use_native_endian st)
       (st_header_valid st),
     mkShared (set_max_frame (metadata s) (st_last_valid_frame st))
       (set_cache r cache (Z.max (r_high_water r) (st_last_valid_frame st)))).

(** The part of an iteration of [process_frames] after the checks: account
    for a valid frame. *)
Definition accept_frame (st : StreamingState) (s : WalFileShared) (page_no db_size : Z)
    (calc : Z * Z) : StreamingState * WalFileShared :=
  let pending := st_pending_frames st in
  let frames := default [] (pending !! page_no) ++ [st_frame_idx st] in
  let pending := <[page_no := frames]> pending in
  let st :=
    mkStreaming (st_frame_idx st) calc (st_last_valid_checksum st) (st_last_valid_frame st)
      pending (st_page_size st) (st_use_native_endian st) (st_header_valid st) in
  let '(st, s) :=
    if 0 <? db_size then
      flush_pending_frames
        (mkStreaming (st_frame_idx st) calc calc (st_frame_idx st) pending
           (st_page_size st) (st_use_native_endian st) (st_header_valid st)) s
    else (st, s) in
  (mkStreaming (st_frame_idx st + 1) (st_cumulative_checksum st) (st_last_valid_checksum st)
     (st_last_valid_frame st) (st_pending_frames st) (st_page_size st)
     (st_use_native_endian st) (st_header_valid st), s).

(** [while pos + frame_size <= buf.len()]; [k] bounds the number of frames. *)
Fixpoint process_frames_loop (k : nat) (big : bool) (buf : bytes) (header : WalHeader)
    (use_native : bool) (pos : Z) (st : StreamingState) (s : WalFileShared)
    : Result (Z * StreamingState * WalFileShared) :=
  match k with
  | O => Panic
  | S k' =>
      let frame_size := WAL_FRAME_HEADER_SIZE + st_page_size st in
      if pos + frame_size <=? lenZ buf then
        fh ← slice buf pos (pos + WAL_FRAME_HEADER_SIZE);
        page ← slice buf (pos + WAL_FRAME_HEADER_SIZE) (pos + frame_size);
        page_no ← read_be32 fh 0;
        db_size ← read_be32 fh 4;
        s1 ← read_be32 fh 8;
        s2 ← read_be32 fh 12;
        c1 ← read_be32 fh 16;
        c2 ← read_be32 fh 20;
        if page_no =? 0 then Ok (pos, st, s)
        else if negb (s1 =? wh_salt_1 header) || negb (s2 =? wh_salt_2 header)
        then Ok (pos, st, s)
        else
          head ← slice fh 0 8;
          seed ← checksum_wal big head (st_cumulative_checksum st) use_native;
          calc ← checksum_wal big page seed use_native;
          if decide (calc = (c1, c2)) then
            let '(st, s) := accept_frame st s page_no db_size calc in
            process_frames_loop k' big buf header use_native (pos + frame_size) st s
          else Ok (pos, st, s)
      else Ok (pos, st, s)
  end.

Definition process_frames (big : bool) (buf : bytes) (header : WalHeader) (use_native : bool)
    (st : StreamingState) (s : WalFileShared) : Result (Z * StreamingState * WalFileShared) :=
  process_frames_loop (S (length buf)) big buf header use_native 0 st s.

(** ** Finalisation *)

Definition finalize_loading (rd : Reader) : Reader :=
  let s := rd_shared rd in
  let st := rd_state rd in
  let m := metadata s in
  let r := runtime s in
  let max_frame := st_last_valid_frame st in
  let r' :=
    if 0 <? max_frame then
      let cache :=
        omap (fun frames =>
          match List.filter (fun f => f <=? max_frame) frames with
          | [] => None
          | kept => Some kept
          end) (r_frame_cache r) in
      let h := m_wal_header m in
      set_coverage (set_cache r cache (r_high_water r))
        (coverage_record (r_coverage r) (wh_checkpoint_seq h) (wh_salt_1 h) (wh_salt_2 h)
           max_frame)
    else set_coverage r (coverage_clear (r_coverage r)) in
  let m' :=
    mkMetadata (m_enabled m) (m_wal_header m) (m_min_frame m) max_frame 0
      (m_transaction_count m) (st_last_valid_checksum st) true (m_loaded_from_disk_scan m)
      (if st_header_valid st then true else m_initialized m) in
  mkReader (mkShared m' r') (rd_file_size rd) st (rd_off rd) (rd_page rd) true.

(** ** Read callbacks *)

Definition with_header (s : WalFileShared) (h : WalHeader) : WalFileShared :=
  with_metadata s
    (set_header (metadata s) h (m_initialized (metadata s)) (m_last_checksum (metadata s))).

Definition with_shared (rd : Reader) (s : WalFileShared) : Reader :=
  mkReader s (rd_file_size rd) (rd_state rd) (rd_off rd) (rd_page rd) (rd_done rd).

Definition handle_header_read (big : bool) (rd : Reader) (res : read_outcome) : Result Reader :=
  match res with
  | None => Ok (finalize_loading rd)
  | Some (buf, bytes_read) =>
      if negb (bytes_read =? WAL_HEADER_SIZE) then Ok (finalize_loading rd)
      else
        h ← parse_wal_header buf;
        let use_native := use_native_endian big (wh_magic h) in
        prefix ← slice buf 0 24;
        calc ← checksum_wal big prefix (0, 0) use_native;
        let ok := bool_decide (calc = (wh_checksum_1 h, wh_checksum_2 h)) in
        match PageSize_new (wh_page_size h), ok with
        | Some _, true =>
            let st := rd_state rd in
            Ok (mkReader (with_header (rd_shared rd) h) (rd_file_size rd)
                  (mkStreaming (st_frame_idx st) (wh_checksum_1 h, wh_checksum_2 h)
                     (wh_checksum_1 h, wh_checksum_2 h) (st_last_valid_frame st)
                     (st_pending_frames st) (wh_page_size h) use_native true)
                  WAL_HEADER_SIZE (wh_page_size h) (rd_done rd))
        | _, _ =>
            Ok (finalize_loading
                  (with_shared rd (with_header (rd_shared rd) (WalHeader_new big))))
        end
  end.

Definition handle_chunk_read (big : bool) (rd : Reader) (res : read_outcome) : Result Reader :=
  match res with
  | None => Ok (finalize_loading rd)
  | Some (buf, bytes_read) =>
      buf_slice ← slice buf 0 bytes_read;
      let st := rd_state rd in
      let h := m_wal_header (metadata (rd_shared rd)) in
      '(consumed, st, s) ← process_frames big buf_slice h (st_use_native_endian st) st
                             (rd_shared rd);
      let off := rd_off rd + consumed in
      let rd := mkReader s (rd_file_size rd) st off (rd_page rd) (rd_done rd) in
      if (consumed <? lenZ buf_slice) || (rd_file_size rd <=? off)
      then Ok (finalize_loading rd)
      else Ok rd
  end.

(** ** The driver *)

(** [const BASE: usize = 16 * 1024 * 1024] *)
Definition CHUNK_BASE : Z := 16777216.

(** The size of the next read; [None] is the end-of-file case. *)
Definition submit_one_chunk (rd : Reader) (offset : Z) : Result (option Z) :=
  let page_size := rd_page rd in
  if page_size =? 0 then Err InternalError
  else
    let frame_size := WAL_FRAME_HEADER_SIZE + page_size in
    if frame_size =? 0 then Err InternalError
    else
      let aligned := CHUNK_BASE / frame_size * frame_size in
      rest ← checked_sub (rd_file_size rd) offset;
      let read_size := Z.min (Z.max aligned frame_size) rest in
      if read_size =? 0 then Ok None else Ok (Some read_size).

(** [BuildSharedWalPhase]; an awaited completion is represented by the size of
    the read it belongs to ([None]: no read was issued). *)
Inductive phase :=
| NeedHeaderRead
| AwaitHeader
| ChunkLoop
| AwaitChunk (read_size : option Z) (offset : Z)
| PhaseDone.

Record Build := mkBuild { b_reader : Reader; b_phase : phase }.

(** [BuildSharedWal::begin] for a file of [size] bytes. *)
Definition build_begin (big : bool) (size : Z) : Result Build :=
  s ← begin_shared big;
  if size <? WAL_HEADER_SIZE then
    let m := metadata s in
    let m := mkMetadata (m_enabled m) (m_wal_header m) (m_min_frame m) (m_max_frame m)
               (m_nbackfills m) (m_transaction_count m) (m_last_checksum m) true
               (m_loaded_from_disk_scan m) (m_initialized m) in
    Ok (mkBuild (reader_new (with_metadata s m) size) PhaseDone)
  else Ok (mkBuild (reader_new s size) NeedHeaderRead).

Section Driver.
Context (big : bool) (pread : Z -> Z -> read_outcome).

(** One turn of the loop of [poll].  Waiting for a completion runs its
    callback; a failed completion ends the drive with its error. *)
Definition poll_step (b : Build) : Result Build :=
  let rd := b_reader b in
  match b_phase b with
  | NeedHeaderRead => Ok (mkBuild rd AwaitHeader)
  | AwaitHeader =>
      let res := pread 0 WAL_HEADER_SIZE in
      rd ← handle_header_read big rd res;
      match res with
      | None => Err CompletionError
      | Some _ => Ok (mkBuild rd ChunkLoop)
      end
  | ChunkLoop =>
      if rd_done rd then Ok (mkBuild rd PhaseDone)
      else
        let offset := rd_off rd in
        if rd_file_size rd <=? offset
        then Ok (mkBuild (finalize_loading rd) PhaseDone)
        else
          size ← submit_one_chunk rd offset;
          Ok (mkBuild rd (AwaitChunk size offset))
  | AwaitChunk size offset =>
      rd ← match size with
           | None => Ok rd
           | Some n =>
               let res := pread offset n in
               rd ← handle_chunk_read big rd res;
               match res with None => Err CompletionError | Some _ => Ok rd end
           end;
      if rd_off rd <=? offset
      then Ok (mkBuild (finalize_loading rd) PhaseDone)
      else Ok (mkBuild rd ChunkLoop)
  | PhaseDone => Ok b
  end.

(** [k] turns of the loop, or fewer when [PhaseDone] is reached. *)
Fixpoint poll (k : nat) (b : Build) : Result Build :=
  match k with
  | O => Ok b
  | S k' =>
      match b_phase b with
      | PhaseDone => Ok b
      | _ => b ← poll_step b; poll k' b
      end
  end.

End Driver.

(** ** The valid prefix of a log *)

(** What recovery learns from one frame: page, database size after commit,
    cumulative checksum. *)
Record finfo := mkFinfo { fi_page : Z; fi_db_size : Z; fi_cks : Z * Z }.

(** The frame at the front of [bs], if it is complete and continues the log
    whose header is [h] and whose checksum so far is [c]. *)
Definition decode_frame (ps : Z) (h : WalHeader) (c : Z * Z) (bs : bytes) : option finfo :=
  if lenZ bs <? WAL_FRAME_HEADER_SIZE + ps then None
  else
    let be := magic_be (wh_magic h) in
    let pn := field_be bs 0 4 in
    let calc := checksum_ref be (take (Z.to_nat ps) (drop 24 bs))
                  (checksum_ref be (field bs 0 8) c) in
    if pn =? 0 then None
    else if negb (field_be bs 8 4 =? wh_salt_1 h) || negb (field_be bs 12 4 =? wh_salt_2 h)
    then None
    else if decide (calc = (field_be bs 16 4, field_be bs 20 4))
    then Some (mkFinfo pn (field_be bs 4 4) calc)
    else None.

(** The longest valid prefix, frame by frame; [k] bounds its length. *)
Fixpoint scan (k : nat) (ps : Z) (h : WalHeader) (c : Z * Z) (bs : bytes) : list finfo :=
  match k with
  | O => []
  | S k' =>
      match decode_frame ps h c bs with
      | None => []
      | Some fi => fi :: scan k' ps h (fi_cks fi) (drop (Z.to_nat (24 + ps)) bs)
      end
  end.

Definition log_frames (ps : Z) (h : WalHeader) (c : Z * Z) (bs : bytes) : list finfo :=
  scan (length bs) ps h c bs.

(** The number of frames up to and including the last commit frame. *)
Definition commit_point (l : list finfo) : Z :=
  snd (foldl (fun '(i, cp) fi => (i + 1, if 0 <? fi_db_size fi then i + 1 else cp)) (0, 0) l).

(** The cumulative checksum after a list of frames, from [c]. *)
Definition cks_after (c : Z * Z) (l : list finfo) : Z * Z :=
  match last l with Some fi => fi_cks fi | None => c end.

Definition committed (l : list finfo) : list finfo := take (Z.to_nat (commit_point l)) l.

Lemma commit_fold_fst l : forall i cp,
  fst (foldl (fun '(i, cp) fi => (i + 1, if 0 <? fi_db_size fi then i + 1 else cp)) (i, cp) l)
  = i + lenZ l.
Proof.
  induction l as [|x l IH]; intros i cp; cbn [foldl].
  - unfold lenZ. simpl. lia.
  - rewrite IH. unfold lenZ. simpl length. lia.
Qed.

Lemma commit_point_snoc l x :
  commit_point (l ++ [x]) = if 0 <? fi_db_size x then lenZ l + 1 else commit_point l.
Proof.
  unfold commit_point. rewrite foldl_app.
  pose proof (commit_fold_fst l 0 0) as Hf.
  destruct (foldl _ (0, 0) l) as [i cp]. simpl in *. subst i. by destruct (0 <? _).
Qed.

Lemma commit_point_bounds l : 0 <= commit_point l <= lenZ l.
Proof.
  induction l as [|x l IH] using rev_ind; [done|].
  rewrite commit_point_snoc, lenZ_app. unfold lenZ in *. simpl.
  destruct (0 <? _); lia.
Qed.

Lemma cks_after_snoc c l x : cks_after c (l ++ [x]) = fi_cks x.
Proof. unfold cks_after. by rewrite last_snoc. Qed.

Lemma cks_after_app c l k : cks_after c (l ++ k) = cks_after (cks_after c l) k.
Proof.
  induction k as [|x k IH] using rev_ind; [by rewrite app_nil_r|].
  by rewrite app_assoc, !cks_after_snoc.
Qed.

Lemma committed_snoc l x :
  committed (l ++ [x]) = if 0 <? fi_db_size x then l ++ [x] else committed l.
Proof.
  pose proof (commit_point_bounds l). unfold committed. rewrite commit_point_snoc.
  unfold lenZ in *. destruct (0 <? _).
  - apply take_ge. rewrite length_app. simpl. lia.
  - rewrite take_app_le by lia. done.
Qed.

Lemma committed_length l : lenZ (committed l) = commit_point l.
Proof.
  pose proof (commit_point_bounds l). unfold committed, lenZ in *.
  rewrite length_take. lia.
Qed.

Lemma decode_frame_app ps h c a b :
  WAL_FRAME_HEADER_SIZE + ps <= lenZ a -> 0 <= ps ->
  decode_frame ps h c (a ++ b) = decode_frame ps h c a.
Proof.
  unfold WAL_FRAME_HEADER_SIZE. intros Ha Hps. unfold decode_frame, WAL_FRAME_HEADER_SIZE.
  assert (forall off n, (off + n <= 24)%nat -> field (a ++ b) off n = field a off n) as Hf.
  { intros off n Hn. unfold field, lenZ in *.
    rewrite drop_app_le, take_app_le by (rewrite ?length_drop; lia). done. }
  assert (take (Z.to_nat ps) (drop 24 (a ++ b)) = take (Z.to_nat ps) (drop 24 a)) as ->.
  { unfold lenZ in *. rewrite drop_app_le, take_app_le by (rewrite ?length_drop; lia). done. }
  unfold field_be. rewrite !Hf by lia. rewrite lenZ_app.
  pose proof (lenZ_nonneg b).
  destruct (Z.ltb_spec (lenZ a + lenZ b) (24 + ps)), (Z.ltb_spec (lenZ a) (24 + ps));
    done || lia.
Qed.

Lemma decode_frame_room ps h c bs fi :
  decode_frame ps h c bs = Some fi -> 24 + ps <= lenZ bs.
Proof.
  unfold decode_frame, WAL_FRAME_HEADER_SIZE. destruct (Z.ltb_spec (lenZ bs) (24 + ps)); done.
Qed.

Lemma scan_nil ps h k c : 0 <= ps -> scan k ps h c [] = [].
Proof.
  intros. destruct k; [done|]. cbn [scan].
  destruct (decode_frame ps h c []) as [fi|] eqn:E; [|done].
  apply decode_frame_room in E. unfold lenZ in E. simpl in E. lia.
Qed.

(** More fuel than bytes changes nothing. *)
Lemma scan_fuel ps h : forall k1 k2 c bs,
  0 <= ps -> (length bs <= k1)%nat -> (length bs <= k2)%nat ->
  scan k1 ps h c bs = scan k2 ps h c bs.
Proof.
  intros k1 k2 c bs Hps. revert k2 c bs. induction k1 as [|k1 IH]; intros k2 c bs H1 H2.
  { destruct bs; [|simpl in H1; lia]. by rewrite !scan_nil. }
  destruct k2 as [|k2].
  { destruct bs; [|simpl in H2; lia]. by rewrite !scan_nil. }
  cbn [scan]. destruct (decode_frame ps h c bs) as [fi|] eqn:E; [|done].
  apply decode_frame_room in E. unfold lenZ in E. f_equal.
  apply IH; rewrite length_drop; lia.
Qed.

Lemma log_frames_step ps h c bs :
  0 <= ps ->
  log_frames ps h c bs =
  match decode_frame ps h c bs with
  | None => []
  | Some fi => fi :: log_frames ps h (fi_cks fi) (drop (Z.to_nat (24 + ps)) bs)
  end.
Proof.
  intros Hps. unfold log_frames.
  rewrite (scan_fuel _ _ (length bs) (S (length bs))) by lia. cbn [scan].
  destruct (decode_frame ps h c bs) as [fi|]; [|done]. f_equal.
  apply scan_fuel; [done|rewrite length_drop; lia|lia].
Qed.

Lemma log_frames_nil ps h c : log_frames ps h c [] = [].
Proof. done. Qed.

(** The frames fit into the bytes. *)
Lemma log_frames_fit ps h : forall c bs,
  0 <= ps -> (24 + ps) * lenZ (log_frames ps h c bs) <= lenZ bs.
Proof.
  intros c bs Hps. remember (length bs) as n eqn:Hn. revert c bs Hn.
  induction n as [n IH] using lt_wf_ind; intros c bs ->.
  rewrite log_frames_step by done. pose proof (lenZ_nonneg bs).
  destruct (decode_frame ps h c bs) as [fi|] eqn:E; [|unfold lenZ; simpl; lia].
  apply decode_frame_room in E. unfold lenZ in *. cbn [length].
  assert (length (drop (Z.to_nat (24 + ps)) bs) < length bs)%nat as Hlt
    by (rewrite length_drop; lia).
  specialize (IH _ Hlt (fi_cks fi) _ eq_refl). rewrite length_drop in IH. lia.
Qed.

(** Scanning a chunk of whole frames and then the rest. *)
Lemma log_frames_chunk ps h : forall (m : nat) c chunk rest,
  0 <= ps -> lenZ chunk = (24 + ps) * Z.of_nat m ->
  let l := log_frames ps h c chunk in
  log_frames ps h c (chunk ++ rest) =
  if (24 + ps) * lenZ l =? lenZ chunk
  then l ++ log_frames ps h (cks_after c l) rest else l.
Proof.
  intros m c chunk rest Hps. revert c chunk.
  induction m as [|m IH]; intros c chunk Hlen.
  { assert (chunk = []) as -> by (destruct chunk; [done|unfold lenZ in Hlen; simpl in Hlen; lia]).
    assert (log_frames ps h c [] = []) as -> by by apply scan_nil.
    unfold lenZ. cbn [length]. by rewrite Z.mul_0_r. }
  cbv zeta. rewrite (log_frames_step _ _ _ (chunk ++ rest)), (log_frames_step _ _ _ chunk) by done.
  rewrite decode_frame_app by (unfold WAL_FRAME_HEADER_SIZE; lia).
  destruct (decode_frame ps h c chunk) as [fi|] eqn:E.
  2:{ unfold lenZ at 1. simpl. rewrite Z.mul_0_r.
      destruct (Z.eqb_spec 0 (lenZ chunk)); [lia|done]. }
  rewrite drop_app_le by (unfold lenZ in Hlen; lia).
  assert (lenZ (drop (Z.to_nat (24 + ps)) chunk) = (24 + ps) * Z.of_nat m) as Hd.
  { unfold lenZ in *. rewrite length_drop. lia. }
  rewrite (IH (fi_cks fi) _ Hd). set (l := log_frames ps h (fi_cks fi) _).
  assert (lenZ (fi :: l) = 1 + lenZ l) as -> by (unfold lenZ; simpl; lia).
  rewrite Hd, Hlen.
  destruct (Z.eqb_spec ((24 + ps) * lenZ l) ((24 + ps) * Z.of_nat m)),
    (Z.eqb_spec ((24 + ps) * (1 + lenZ l)) ((24 + ps) * Z.of_nat (S m))); try lia; [|done].
  simpl. f_equal. f_equal. change (fi :: l) with ([fi] ++ l). by rewrite cks_after_app.
Qed.

(** ** The state after a list of frames *)

Definition pages (l : list finfo) : list Z := map fi_page l.

(** The streaming state and the shared state after the frames [l] of a log
    with header [h]: committed frames are in the frame cache, the others are
    pending. *)
Record scan_inv (h : WalHeader) (l : list finfo) (st : StreamingState) (s : WalFileShared)
    : Prop := {
  si_idx : st_frame_idx st = lenZ l + 1;
  si_cks : st_cumulative_checksum st = cks_after (wh_checksum_1 h, wh_checksum_2 h) l;
  si_valid_cks :
    st_last_valid_checksum st = cks_after (wh_checksum_1 h, wh_checksum_2 h) (committed l);
  si_valid : st_last_valid_frame st = commit_point l;
  si_pending : forall p, st_pending_frames st !! p =
    nonempty (positions_from (commit_point l + 1) p (pages (drop (Z.to_nat (commit_point l)) l)));
  si_cache : runtime_rep (runtime s) (pages (committed l));
  si_ps : st_page_size st = wh_page_size h;
  si_hv : st_header_valid st = true;
  si_header : m_wal_header (metadata s) = h
}.

Lemma pages_app a b : pages (a ++ b) = pages a ++ pages b.
Proof. apply map_app. Qed.

Lemma pages_len l : lenZ (pages l) = lenZ l.
Proof. unfold lenZ, pages. by rewrite length_map. Qed.

Lemma committed_split l : l = committed l ++ drop (Z.to_nat (commit_point l)) l.
Proof. unfold committed. by rewrite take_drop. Qed.

Lemma positions_split p l :
  positions p (pages l) =
  positions p (pages (committed l)) ++
  positions_from (commit_point l + 1) p (pages (drop (Z.to_nat (commit_point l)) l)).
Proof.
  rewrite (committed_split l) at 1. unfold positions.
  rewrite pages_app, positions_from_app, pages_len, committed_length.
  by rewrite Z.add_comm.
Qed.

Lemma nonempty_default l : default [] (nonempty l) = l.
Proof. by destruct l. Qed.

Lemma nonempty_snoc l x : nonempty (l ++ [x]) = Some (l ++ [x]).
Proof. by destruct l. Qed.

(** Recording a frame as pending. *)
Lemma pending_snoc (pend : gmap Z (list Z)) i l n x p :
  (forall p, pend !! p = nonempty (positions_from i p (pages l))) -> n = i + lenZ l ->
  <[fi_page x := default [] (pend !! fi_page x) ++ [n]]> pend !! p =
  nonempty (positions_from i p (pages (l ++ [x]))).
Proof.
  intros Hp ->. rewrite pages_app, positions_from_app, pages_len. simpl.
  destruct (Z.eqb_spec (fi_page x) p) as [->|Hne].
  - rewrite lookup_insert_eq, Hp, nonempty_default. by rewrite nonempty_snoc.
  - by rewrite lookup_insert_ne, app_nil_r.
Qed.

Lemma filter_all (q : Z -> bool) l :
  (forall x, In x l -> q x = true) -> List.filter q l = l.
Proof.
  induction l as [|x l IH]; intros H; [done|]. simpl.
  rewrite H by by left. f_equal. apply IH. intros. apply H. by right.
Qed.

(** Merging the pending frames, all of them at most [lv], into the cache. *)
Lemma merge_pending_rep cache pend l1 l2 lv :
  cache_rep cache (pages l1) -> lv = lenZ l1 + lenZ l2 ->
  (forall p, pend !! p = nonempty (positions_from (lenZ l1 + 1) p (pages l2))) ->
  cache_rep (merge_pending cache pend lv) (pages (l1 ++ l2)).
Proof.
  intros Hc -> Hp p. unfold merge_pending. rewrite lookup_union_with, lookup_omap, Hp, Hc.
  rewrite pages_app. unfold positions. rewrite positions_from_app, pages_len.
  rewrite (Z.add_comm 1). set (a := positions_from 1 p (pages l1)).
  set (b := positions_from _ p (pages l2)).
  assert (List.filter (fun f => f <=? lenZ l1 + lenZ l2) b = b) as Hb.
  { apply filter_all. intros f Hf. apply positions_from_range in Hf as [Hf _].
    rewrite pages_len in Hf. apply Z.leb_le. lia. }
  destruct b as [|y b]; simpl in *; [rewrite app_nil_r; by destruct a|].
  rewrite Hb. by destruct a.
Qed.

Lemma nonempty_pending_neq_empty (pend : gmap Z (list Z)) p x :
  pend !! p = Some x -> pend <> ∅.
Proof. intros H ->. by rewrite lookup_empty in H. Qed.

(** Accepting a frame extends the list by it. *)
Lemma accept_frame_inv h l st s fi st' s' :
  scan_inv h l st s ->
  accept_frame st s (fi_page fi) (fi_db_size fi) (fi_cks fi) = (st', s') ->
  scan_inv h (l ++ [fi]) st' s' /\ st_use_native_endian st' = st_use_native_endian st /\
  m_loaded (metadata s') = m_loaded (metadata s).
Proof.
  intros [Hidx Hcks Hvc Hv Hp [Hc Hhw] Hps Hhv Hh].
  pose proof (commit_point_bounds l) as Hcb.
  assert (forall p, (<[fi_page fi := default [] (st_pending_frames st !! fi_page fi) ++
                        [st_frame_idx st]]> (st_pending_frames st)) !! p =
    nonempty (positions_from (commit_point l + 1) p
      (pages (drop (Z.to_nat (commit_point l)) l ++ [fi])))) as Hp'.
  { intros p. apply pending_snoc; [done|]. unfold lenZ in *. rewrite length_drop. lia. }
  unfold accept_frame. cbn [st_frame_idx st_page_size st_use_native_endian st_header_valid
    st_last_valid_checksum st_last_valid_frame st_pending_frames st_cumulative_checksum].
  destruct (Z.ltb_spec 0 (fi_db_size fi)) as [Hcm|Hcm].
  - unfold flush_pending_frames. cbn [st_frame_idx st_page_size st_use_native_endian
      st_header_valid st_last_valid_checksum st_last_valid_frame st_pending_frames
      st_cumulative_checksum].
    rewrite decide_False by (eapply nonempty_pending_neq_empty, lookup_insert_eq).
    intros [= <- <-]. split_and!; [|done..].
    assert (commit_point (l ++ [fi]) = lenZ l + 1) as Hcp.
    { rewrite commit_point_snoc. destruct (Z.ltb_spec 0 (fi_db_size fi)); lia. }
    assert (committed (l ++ [fi]) = l ++ [fi]) as Hcl.
    { rewrite committed_snoc. destruct (Z.ltb_spec 0 (fi_db_size fi)); [done|lia]. }
    assert (lenZ (l ++ [fi]) = lenZ l + 1) as Hl by (rewrite lenZ_app; done).
    split; cbn; try done.
    + rewrite Hl. lia.
    + by rewrite cks_after_snoc.
    + by rewrite Hcl, cks_after_snoc.
    + by rewrite Hcp.
    + intros p. rewrite lookup_empty, Hcp, drop_ge; [done|]. unfold lenZ in *. lia.
    + rewrite Hcl. split; cbn.
      * rewrite (committed_split l) at 1. rewrite <- app_assoc.
        apply merge_pending_rep; [done| |].
        -- rewrite committed_length, lenZ_app. unfold lenZ in *. rewrite length_drop. simpl. lia.
        -- intros p. rewrite committed_length. apply Hp'.
      * rewrite Hhw, pages_len, committed_length, pages_len, Hl. lia.
  - intros [= <- <-]. split_and!; [|done..].
    assert (commit_point (l ++ [fi]) = commit_point l) as Hcp.
    { rewrite commit_point_snoc. destruct (Z.ltb_spec 0 (fi_db_size fi)); lia. }
    assert (committed (l ++ [fi]) = committed l) as Hcl.
    { rewrite committed_snoc. destruct (Z.ltb_spec 0 (fi_db_size fi)); [lia|done]. }
    split; cbn; rewrite ?Hcp, ?Hcl; try done.
    + rewrite lenZ_app. unfold lenZ in *. simpl. lia.
    + by rewrite cks_after_snoc.
    + intros p. rewrite drop_app_le by (unfold lenZ in *; lia). apply Hp'.
Qed.

(** ** The processing loop computes the valid prefix *)

Lemma field_slice (p bs : bytes) a n :
  (a + n <= length bs)%nat ->
  slice (p ++ bs) (lenZ p + Z.of_nat a) (lenZ p + Z.of_nat a + Z.of_nat n) = Ok (field bs a n).
Proof.
  intros Hl. apply slice_Ok. rewrite lenZ_app. unfold field, lenZ in *.
  split_and!; [lia..|].
  rewrite drop_app_ge by lia. f_equal; [lia|]. f_equal. lia.
Qed.

Lemma read_be32_field (bs : bytes) (a : nat) m :
  (a + 4 <= m)%nat -> (m <= length bs)%nat ->
  read_be32 (field bs 0 m) (Z.of_nat a) = Ok (field_be bs a 4).
Proof.
  intros Ha Hm. unfold read_be32.
  assert (slice (field bs 0 m) (Z.of_nat a) (Z.of_nat a + 4) = Ok (field bs a 4)) as ->; [|done].
  apply slice_Ok. unfold field, lenZ. rewrite drop_0, length_take. split_and!; [lia..|].
  rewrite skipn_firstn_comm, take_take. f_equal; [lia|]. f_equal. lia.
Qed.

Lemma lenZ_field (b : bytes) off n :
  (off + n <= length b)%nat -> lenZ (field b off n) = Z.of_nat n.
Proof. intros. unfold lenZ. by rewrite field_length. Qed.

Section Scan.
Context (big : bool) (h : WalHeader).

Hypothesis Hps : 0 <= wh_page_size h.
Hypothesis Hps8 : wh_page_size h mod 8 = 0.

(** One turn of the loop at the start of [bs]. *)
Lemma process_step k p bs st s :
  bytes_ok bs -> st_page_size st = wh_page_size h ->
  process_frames_loop (S k) big (p ++ bs) h (use_native_endian big (wh_magic h))
    (lenZ p) st s =
  match decode_frame (wh_page_size h) h (st_cumulative_checksum st) bs with
  | None => Ok (lenZ p, st, s)
  | Some fi =>
      let '(st', s') := accept_frame st s (fi_page fi) (fi_db_size fi) (fi_cks fi) in
      process_frames_loop k big (p ++ bs) h (use_native_endian big (wh_magic h))
        (lenZ p + (24 + wh_page_size h)) st' s'
  end.
Proof.
  intros Hok Hst. cbn [process_frames_loop]. rewrite Hst. set (ps := wh_page_size h) in *.
  unfold decode_frame, WAL_FRAME_HEADER_SIZE. rewrite lenZ_app.
  destruct (Z.leb_spec (lenZ p + (24 + ps)) (lenZ p + lenZ bs)) as [Hle|Hgt],
    (Z.ltb_spec (lenZ bs) (24 + ps)); try lia; [|done].
  assert (24 <= length bs)%nat by (unfold lenZ in *; lia).
  assert (slice (p ++ bs) (lenZ p) (lenZ p + 24) = Ok (field bs 0 24)) as ->.
  { pose proof (field_slice p bs 0 24 ltac:(lia)) as Hs. by rewrite Z.add_0_r in Hs. }
  cbn [mbind Result_bind].
  assert (slice (p ++ bs) (lenZ p + 24) (lenZ p + (24 + ps)) = Ok (field bs 24 (Z.to_nat ps))) as ->.
  { pose proof (field_slice p bs 24 (Z.to_nat ps)) as Hs. rewrite Z2Nat.id in Hs by done.
    rewrite <- Z.add_assoc in Hs. apply Hs. unfold lenZ in *. lia. }
  cbn [mbind Result_bind].
  assert (forall a z, z = Z.of_nat a -> (a + 4 <= 24)%nat ->
            read_be32 (field bs 0 24) z = Ok (field_be bs a 4)) as rb.
  { intros a z -> ?. by apply read_be32_field. }
  rewrite (rb 0%nat 0), (rb 4%nat 4), (rb 8%nat 8), (rb 12%nat 12), (rb 16%nat 16),
    (rb 20%nat 20) by (done || lia). cbn [mbind Result_bind].
  destruct (field_be bs 0 4 =? 0); [done|].
  destruct (negb _ || negb _); [done|].
  assert (slice (field bs 0 24) 0 8 = Ok (field bs 0 8)) as ->.
  { apply slice_Ok. unfold field, lenZ. rewrite drop_0, length_take. split_and!; [lia..|].
    rewrite drop_0, take_take. done. }
  cbn [mbind Result_bind].
  rewrite checksum_wal_ref; [|by apply field_ok|by rewrite lenZ_field by lia].
  cbn [mbind Result_bind].
  rewrite checksum_wal_ref; [|by apply field_ok|].
  2:{ rewrite lenZ_field by (unfold lenZ in *; lia). by rewrite Z2Nat.id. }
  cbn [mbind Result_bind]. unfold field at 1 3.
  by destruct (decide _).
Qed.

(** The loop consumes exactly the valid prefix of the buffer. *)
Lemma process_loop_ok k : forall p bs l0 st s,
  bytes_ok bs -> scan_inv h l0 st s -> (length bs <= k)%nat ->
  let l := log_frames (wh_page_size h) h (st_cumulative_checksum st) bs in
  exists st' s',
    process_frames_loop (S k) big (p ++ bs) h (use_native_endian big (wh_magic h))
      (lenZ p) st s = Ok (lenZ p + (24 + wh_page_size h) * lenZ l, st', s') /\
    scan_inv h (l0 ++ l) st' s' /\
    st_use_native_endian st' = st_use_native_endian st.
Proof.
  induction k as [k IH] using lt_wf_ind; intros p bs l0 st s Hok Hinv Hk.
  cbv zeta. rewrite process_step by (done || apply Hinv). rewrite log_frames_step by done.
  destruct (decode_frame _ h _ bs) as [fi|] eqn:E.
  2:{ eexists _, _. rewrite Z.mul_0_r, Z.add_0_r, app_nil_r. done. }
  pose proof (decode_frame_room _ _ _ _ _ E) as Hroom.
  destruct (accept_frame st s _ _ _) as [st1 s1] eqn:Ha.
  destruct (accept_frame_inv _ _ _ _ _ _ _ Hinv Ha) as (Hinv1 & Hn1 & _).
  set (fs := 24 + wh_page_size h) in *.
  set (q := take (Z.to_nat fs) bs). set (r := drop (Z.to_nat fs) bs).
  assert (p ++ bs = (p ++ q) ++ r) as -> by (subst q r; by rewrite <- app_assoc, take_drop).
  assert (lenZ (p ++ q) = lenZ p + fs) as Hpq.
  { rewrite lenZ_app. subst q. unfold lenZ in *. rewrite length_take. lia. }
  rewrite <- Hpq.
  assert (length r + 24 <= length bs)%nat by (subst r; rewrite length_drop; unfold lenZ in *; lia).
  destruct k as [|k]; [lia|].
  destruct (IH k ltac:(lia) (p ++ q) r (l0 ++ [fi]) st1 s1) as (st2 & s2 & Hl & Hinv2 & Hn2).
  { subst r. by apply Forall_drop. } { done. } { lia. }
  rewrite (si_cks _ _ _ _ Hinv1), cks_after_snoc in Hl, Hinv2.
  exists st2, s2. rewrite Hl. split_and!.
  - do 3 f_equal. rewrite Hpq. unfold lenZ. simpl length. lia.
  - by rewrite <- app_assoc in Hinv2.
  - congruence.
Qed.

Lemma process_frames_ok bs l0 st s :
  bytes_ok bs -> scan_inv h l0 st s ->
  let l := log_frames (wh_page_size h) h
             (cks_after (wh_checksum_1 h, wh_checksum_2 h) l0) bs in
  exists st' s',
    process_frames big bs h (use_native_endian big (wh_magic h)) st s =
      Ok ((24 + wh_page_size h) * lenZ l, st', s') /\
    scan_inv h (l0 ++ l) st' s' /\
    st_use_native_endian st' = st_use_native_endian st.
Proof.
  intros Hok Hinv. cbv zeta. rewrite <- (si_cks _ _ _ _ Hinv).
  destruct (process_loop_ok (length bs) [] bs l0 st s Hok Hinv ltac:(lia)) as (st' & s' & H & ?).
  exists st', s'. split; [|done]. exact H.
Qed.

End Scan.

(** ** What recovery publishes *)

(** The shared state published for a log with header [h] and valid frames
    [l]. *)
Record recovered (h : WalHeader) (l : list finfo) (s : WalFileShared) : Prop := {
  rc_max : m_max_frame (metadata s) = commit_point l;
  rc_cks : m_last_checksum (metadata s) =
    cks_after (wh_checksum_1 h, wh_checksum_2 h) (committed l);
  rc_cache : runtime_rep (runtime s) (pages (committed l));
  rc_header : m_wal_header (metadata s) = h;
  rc_backfills : m_nbackfills (metadata s) = 0;
  rc_init : m_initialized (metadata s) = true;
  rc_loaded : m_loaded (metadata s) = true
}.

(** The shared state published for a file without a valid header. *)
Record unrecovered (big : bool) (s : WalFileShared) : Prop := {
  ur_max : m_max_frame (metadata s) = 0;
  ur_cks : m_last_checksum (metadata s) = (0, 0);
  ur_cache : runtime_rep (runtime s) [];
  ur_header : m_wal_header (metadata s) = WalHeader_new big;
  ur_backfills : m_nbackfills (metadata s) = 0;
  ur_init : m_initialized (metadata s) = false;
  ur_loaded : m_loaded (metadata s) = true
}.

Lemma retain_committed c l m :
  cache_rep c (pages l) -> lenZ l <= m ->
  cache_rep (omap (fun frames =>
      match List.filter (fun f => f <=? m) frames with
      | [] => None
      | kept => Some kept
      end) c) (pages l).
Proof.
  intros Hc Hm p. rewrite lookup_omap, Hc.
  assert (List.filter (fun f => f <=? m) (positions p (pages l)) = positions p (pages l)) as Hf.
  { apply filter_all. intros f Hf%positions_bounds. rewrite pages_len in Hf.
    apply Z.leb_le. lia. }
  destruct (positions p (pages l)) as [|x t]; [done|]. cbn [nonempty].
  cbn [omap option_bind mbind]. cbv beta. by rewrite Hf.
Qed.

(** Finalising publishes the committed frames, and may be repeated. *)
Lemma finalize_inv h l rd :
  scan_inv h l (rd_state rd) (rd_shared rd) ->
  let rd' := finalize_loading rd in
  scan_inv h l (rd_state rd') (rd_shared rd') /\ recovered h l (rd_shared rd') /\
  rd_done rd' = true /\ rd_off rd' = rd_off rd.
Proof.
  intros [Hidx Hcks Hvc Hv Hp [Hc Hhw] Hps Hhv Hh]. cbv zeta. unfold finalize_loading.
  rewrite Hv, Hhv.
  assert (runtime_rep
    (if 0 <? commit_point l
     then set_coverage (set_cache (runtime (rd_shared rd)) (omap (fun frames =>
            match List.filter (fun f => f <=? commit_point l) frames with
            | [] => None | kept => Some kept end) (r_frame_cache (runtime (rd_shared rd))))
            (r_high_water (runtime (rd_shared rd))))
          (coverage_record (r_coverage (runtime (rd_shared rd)))
            (wh_checkpoint_seq (m_wal_header (metadata (rd_shared rd))))
            (wh_salt_1 (m_wal_header (metadata (rd_shared rd))))
            (wh_salt_2 (m_wal_header (metadata (rd_shared rd)))) (commit_point l))
     else set_coverage (runtime (rd_shared rd)) (coverage_clear (r_coverage (runtime (rd_shared rd)))))
    (pages (committed l))) as Hrep.
  { destruct (0 <? commit_point l); split; cbn; try done.
    apply retain_committed; [done|]. rewrite committed_length. lia. }
  split_and!; [| |done|done]; split; cbn; done.
Qed.

(** ** Driving the reads *)

(** Reads inside the file return exactly the requested bytes. *)
Definition reads_file (f : bytes) (pread : Z -> Z -> read_outcome) : Prop :=
  forall off n, 0 <= off -> 0 < n -> off + n <= lenZ f ->
    pread off n = Some (take (Z.to_nat n) (drop (Z.to_nat off) f), n).

Section Drive.
Context (big : bool) (f : bytes) (pread : Z -> Z -> read_outcome) (h : WalHeader).
Hypothesis Hf : bytes_ok f.
Hypothesis Hread : reads_file f pread.
Hypothesis Hps : 512 <= wh_page_size h <= 65536.
Hypothesis Hps8 : wh_page_size h mod 8 = 0.

Abbreviation fs := (24 + wh_page_size h).
Abbreviation c0 := (wh_checksum_1 h, wh_checksum_2 h).
Abbreviation frames c bs := (log_frames (wh_page_size h) h c bs).

Definition all_frames : list finfo := frames c0 (drop 32 f).

(** The frames [l] have been processed and the rest of the file is unread. *)
Record rd_inv (l : list finfo) (rd : Reader) : Prop := {
  ri_scan : scan_inv h l (rd_state rd) (rd_shared rd);
  ri_off : rd_off rd = 32 + fs * lenZ l;
  ri_page : rd_page rd = wh_page_size h;
  ri_size : rd_file_size rd = lenZ f;
  ri_native : st_use_native_endian (rd_state rd) = use_native_endian big (wh_magic h);
  ri_done : rd_done rd = false;
  ri_in : rd_off rd <= lenZ f;
  ri_all : all_frames = l ++ frames (cks_after c0 l) (drop (Z.to_nat (rd_off rd)) f)
}.

(** The state reached when every valid frame has been processed. *)
Definition finished (rd : Reader) : Prop :=
  scan_inv h all_frames (rd_state rd) (rd_shared rd) /\ rd_done rd = true /\
  recovered h all_frames (rd_shared rd).

Lemma finished_finalize rd : finished rd -> finished (finalize_loading rd).
Proof. intros (Hs & _). destruct (finalize_inv _ _ _ Hs) as (? & ? & ? & ?). done. Qed.

Lemma finish l rd :
  scan_inv h l (rd_state rd) (rd_shared rd) -> all_frames = l ->
  finished (finalize_loading rd) /\ rd_off (finalize_loading rd) = rd_off rd.
Proof. intros Hs <-. destruct (finalize_inv _ _ _ Hs) as (? & ? & ? & ?). done. Qed.

(** A read request covers all the rest or a whole number of frames. *)
Lemma submit_one_chunk_ok l rd :
  rd_inv l rd -> rd_off rd < lenZ f ->
  exists n, submit_one_chunk rd (rd_off rd) = Ok (Some n) /\ 0 < n /\
    rd_off rd + n <= lenZ f /\
    (rd_off rd + n = lenZ f \/ exists m : nat, n = fs * Z.of_nat m).
Proof.
  intros [_ Ho Hp Hz _ _ _ _] Hlt. unfold submit_one_chunk, WAL_FRAME_HEADER_SIZE.
  rewrite Hp, Hz. destruct (Z.eqb_spec (wh_page_size h) 0) as [?|_]; [lia|].
  destruct (Z.eqb_spec fs 0) as [?|_]; [lia|].
  unfold checked_sub. destruct (Z.leb_spec (rd_off rd) (lenZ f)); [|lia].
  cbn [mbind Result_bind].
  assert (0 <= CHUNK_BASE / fs) by (apply Z.div_pos; [done|lia]).
  set (q := CHUNK_BASE / fs) in *. set (n := Z.min _ _).
  assert (0 < n) by nia. destruct (Z.eqb_spec n 0); [lia|].
  exists n. split_and!; [done|done|lia|].
  destruct (Z.le_gt_cases (lenZ f - rd_off rd) (Z.max (q * fs) fs)); [left; lia|].
  right. exists (Z.to_nat (Z.max q 1)). nia.
Qed.

(** One chunk: either everything has been found, or the whole chunk was
    consumed and scanning goes on after it. *)
Lemma handle_chunk_ok l rd n :
  rd_inv l rd -> 0 < n -> rd_off rd + n <= lenZ f ->
  (rd_off rd + n = lenZ f \/ exists m : nat, n = fs * Z.of_nat m) ->
  exists rd', handle_chunk_read big rd (pread (rd_off rd) n) = Ok rd' /\
    (finished rd' \/ exists l', rd_inv l' rd' /\ rd_off rd' = rd_off rd + n).
Proof.
  intros [Hs Ho Hp Hz Hn Hd Hi Ha] Hn0 Hin Hshape.
  assert (0 <= rd_off rd) as Hoff by (pose proof (lenZ_nonneg l); nia).
  rewrite Hread by lia. set (chunk := take _ _).
  assert (lenZ chunk = n) as Hlen.
  { subst chunk. unfold lenZ in *. rewrite length_take, length_drop. lia. }
  assert (bytes_ok chunk) as Hck by (by apply Forall_take, Forall_drop).
  unfold handle_chunk_read.
  assert (slice chunk 0 n = Ok chunk) as -> by (rewrite <- (app_nil_r chunk) at 1; by apply slice_front).
  cbn [mbind Result_bind]. rewrite (si_header _ _ _ _ Hs), Hn.
  destruct (process_frames_ok big h ltac:(lia) Hps8 chunk l _ _ Hck Hs)
    as (st' & s' & -> & Hs' & Hn').
  set (l1 := frames (cks_after c0 l) chunk) in *. cbn [mbind Result_bind rd_file_size].
  pose proof (log_frames_fit (wh_page_size h) h (cks_after c0 l) chunk ltac:(lia)) as Hfit.
  fold l1 in Hfit.
  set (rest := drop (Z.to_nat n) (drop (Z.to_nat (rd_off rd)) f)).
  assert (drop (Z.to_nat (rd_off rd)) f = chunk ++ rest) as Hsplit
    by (subst chunk rest; by rewrite take_drop).
  assert (forall rd2, rd_state rd2 = st' -> rd_shared rd2 = s' -> all_frames = l ++ l1 ->
            finished (finalize_loading rd2)) as Hfin.
  { intros rd2 <- <- E. apply (finish (l ++ l1)); done. }
  destruct Hshape as [Hend|[m Hm]].
  - assert (rest = []) as Hr by (subst rest; rewrite drop_drop; apply drop_ge; unfold lenZ in *; lia).
    rewrite Hsplit, Hr, app_nil_r in Ha. fold l1 in Ha.
    assert ((fs * lenZ l1 <? lenZ chunk) || (rd_file_size rd <=? rd_off rd + fs * lenZ l1) = true) as ->.
    { apply orb_true_iff. rewrite Z.ltb_lt, Z.leb_le. lia. }
    eexists. split; [done|]. left. by apply Hfin.
  - rewrite Hsplit, (log_frames_chunk _ _ m) in Ha by (lia || congruence). fold l1 in Ha.
    destruct (Z.eqb_spec (fs * lenZ l1) (lenZ chunk)) as [Hc|Hc].
    2:{ assert ((fs * lenZ l1 <? lenZ chunk) = true) as -> by (apply Z.ltb_lt; lia).
        eexists. split; [done|]. left. by apply Hfin. }
    rewrite Hc, Hlen, Z.ltb_irrefl. cbn [orb].
    destruct (Z.leb_spec (rd_file_size rd) (rd_off rd + n)).
    { eexists. split; [done|]. left. apply Hfin; [done..|]. rewrite Ha.
      assert (rest = []) as -> by (subst rest; rewrite drop_drop; apply drop_ge; unfold lenZ in *; lia).
      by rewrite log_frames_nil, app_nil_r. }
    eexists. split; [done|]. right. exists (l ++ l1). split; [|done].
    split; cbn [rd_state rd_shared rd_off rd_page rd_file_size rd_done]; try done.
    + rewrite lenZ_app. lia.
    + congruence.
    + rewrite Ha, cks_after_app, app_assoc. do 2 f_equal. subst rest. rewrite drop_drop.
      f_equal. lia.
Qed.

(** Every drive from an invariant state ends. *)
Lemma drive_ok k : forall l rd,
  rd_inv l rd -> (Z.to_nat (2 * (lenZ f - rd_off rd)) + 3 <= k)%nat ->
  exists rd', poll big pread k (mkBuild rd ChunkLoop) = Ok (mkBuild rd' PhaseDone) /\
    finished rd'.
Proof.
  induction k as [k IH] using lt_wf_ind; intros l rd Hrd Hk.
  pose proof Hrd as [Hs Ho Hp Hz Hn Hd Hi Ha].
  destruct k as [|[|[|k]]]; [lia..|]. cbn [poll b_phase poll_step b_reader].
  rewrite Hd, Hz. destruct (Z.leb_spec (lenZ f) (rd_off rd)) as [Hle|Hlt].
  { cbn [mbind Result_bind b_phase]. eexists. split; [done|].
    apply (finish l); [done|]. rewrite Ha, drop_ge by (unfold lenZ in *; lia).
    by rewrite log_frames_nil, app_nil_r. }
  destruct (submit_one_chunk_ok l rd Hrd Hlt) as (n & -> & Hn0 & Hin & Hsh).
  cbn [mbind Result_bind poll b_phase poll_step b_reader].
  destruct (handle_chunk_ok l rd n Hrd Hn0 Hin Hsh) as (rd' & -> & Hcase).
  assert (0 <= rd_off rd) as Hoff by (pose proof (lenZ_nonneg l); nia).
  cbn [mbind Result_bind]. rewrite Hread by lia. cbn [mbind Result_bind].
  destruct Hcase as [Hfin|(l' & Hrd' & Ho')].
  - destruct (rd_off rd' <=? rd_off rd); cbn [mbind Result_bind poll b_phase poll_step b_reader].
    { eexists. split; [done|]. by apply finished_finalize. }
    destruct Hfin as (Hs' & Hd' & Hr'). rewrite Hd'. cbn [mbind Result_bind b_phase].
    exists rd'. split; [by destruct k|done].
  - assert ((rd_off rd' <=? rd_off rd) = false) as -> by (apply Z.leb_gt; lia).
    cbn [mbind Result_bind]. apply (IH (S k) ltac:(lia) l' rd' Hrd'). lia.
Qed.

End Drive.

(** ** The header *)

Definition header_of (f : bytes) : WalHeader :=
  mkWalHeader (field_be f 0 4) (field_be f 4 4) (field_be f 8 4) (field_be f 12 4)
    (field_be f 16 4) (field_be f 20 4) (field_be f 24 4) (field_be f 28 4).

(** The header of a log file, when the file has one with a legal page size and
    the right checksum. *)
Definition valid_header (f : bytes) : option WalHeader :=
  if lenZ f <? WAL_HEADER_SIZE then None
  else
    let h := header_of f in
    match PageSize_new (wh_page_size h) with
    | None => None
    | Some _ =>
        if decide (checksum_ref (magic_be (wh_magic h)) (field f 0 24) (0, 0) =
                   (wh_checksum_1 h, wh_checksum_2 h))
        then Some h else None
    end.

Lemma parse_wal_header_of (f : bytes) :
  (32 <= length f)%nat -> parse_wal_header (field f 0 32) = Ok (header_of f).
Proof.
  intros Hl.
  assert (forall a : nat, (a <= 28)%nat ->
            read_be32 (field f 0 32) (Z.of_nat a) = Ok (field_be f a 4)) as H
    by (intros; apply read_be32_field; lia).
  unfold parse_wal_header.
  repeat match goal with
  | |- context [read_be32 (field f 0 32) ?a] =>
      rewrite (H (Z.to_nat a) ltac:(lia) : read_be32 (field f 0 32) a = _);
      cbn [mbind Result_bind]
  end.
  done.
Qed.

(** The callback of the header read decides as [valid_header] does. *)
Lemma handle_header_ok big (f : bytes) rd :
  bytes_ok f -> (32 <= length f)%nat ->
  handle_header_read big rd (Some (field f 0 32, WAL_HEADER_SIZE)) =
  Ok match valid_header f with
     | Some h =>
         mkReader (with_header (rd_shared rd) h) (rd_file_size rd)
           (mkStreaming (st_frame_idx (rd_state rd)) (wh_checksum_1 h, wh_checksum_2 h)
              (wh_checksum_1 h, wh_checksum_2 h) (st_last_valid_frame (rd_state rd))
              (st_pending_frames (rd_state rd)) (wh_page_size h)
              (use_native_endian big (wh_magic h)) true)
           WAL_HEADER_SIZE (wh_page_size h) (rd_done rd)
     | None => finalize_loading (with_shared rd (with_header (rd_shared rd) (WalHeader_new big)))
     end.
Proof.
  intros Hf Hl. unfold handle_header_read, valid_header.
  rewrite Z.eqb_refl. cbn [negb]. rewrite parse_wal_header_of by done. cbn [mbind Result_bind].
  assert (slice (field f 0 32) 0 24 = Ok (field f 0 24)) as ->.
  { apply slice_Ok. unfold field, lenZ. rewrite !drop_0, length_take.
    split_and!; [lia..|]. rewrite take_take. done. }
  cbn [mbind Result_bind].
  rewrite checksum_wal_ref
    by (by apply field_ok || (by rewrite lenZ_field by lia)).
  cbn [mbind Result_bind].
  destruct (Z.ltb_spec (lenZ f) WAL_HEADER_SIZE);
    [unfold WAL_HEADER_SIZE, lenZ in *; lia|].
  destruct (PageSize_new _); [|done]. case_bool_decide; case_decide; done.
Qed.

Lemma valid_header_Some f h :
  valid_header f = Some h ->
  (32 <= length f)%nat /\ 512 <= wh_page_size h <= 65536 /\ wh_page_size h mod 8 = 0.
Proof.
  unfold valid_header, WAL_HEADER_SIZE.
  destruct (Z.ltb_spec (lenZ f) 32); [done|].
  destruct (PageSize_new _) eqn:E; [|done]. destruct (decide _); [|done].
  intros [= <-]. apply PageSize_new_bounds in E. unfold lenZ in *. split; [lia|done].
Qed.

(** ** Logs written by the frame encoder *)

(** A page image to append: page number, database size after commit (0 in the
    middle of a transaction), contents. *)
Record wframe := mkWframe { wf_page : Z; wf_db_size : Z; wf_image : bytes }.

(** The bytes that successive calls of [prepare_wal_frame] produce, each
    chained to the checksum of the one before. *)
Fixpoint append_log (big : bool) (buffer : bytes) (h : WalHeader) (c : Z * Z)
    (ws : list wframe) : Result bytes :=
  match ws with
  | [] => Ok []
  | w :: ws =>
      '(c, frame) ← prepare_wal_frame big buffer h c (wf_page w) (wf_db_size w) (wf_image w);
      rest ← append_log big buffer h c ws;
      Ok (frame ++ rest)
  end.

(** What a reader should learn from them. *)
Fixpoint infos (h : WalHeader) (c : Z * Z) (ws : list wframe) : list finfo :=
  match ws with
  | [] => []
  | w :: ws =>
      let c := frame_checksum h c (wf_page w) (wf_db_size w) (wf_image w) in
      mkFinfo (wf_page w) (wf_db_size w) c :: infos h c ws
  end.

Definition wframe_ok (ps : Z) (w : wframe) : Prop :=
  is_u32 (wf_page w) /\ wf_page w <> 0 /\ is_u32 (wf_db_size w) /\
  bytes_ok (wf_image w) /\ lenZ (wf_image w) = ps.

Lemma frame_encode_fields h pn ds c page rest :
  let e := frame_encode h pn ds c page ++ rest in
  field e 0 8 = be_split 4 pn ++ be_split 4 ds /\
  field e 0 4 = be_split 4 pn /\ field e 4 4 = be_split 4 ds /\
  field e 8 4 = be_split 4 (wh_salt_1 h) /\ field e 12 4 = be_split 4 (wh_salt_2 h) /\
  field e 16 4 = be_split 4 (fst c) /\ field e 20 4 = be_split 4 (snd c) /\
  drop 24 e = page ++ rest.
Proof.
  cbv zeta. unfold frame_encode.
  pose proof (fun z => be_split_length 4 z) as HL.
  generalize (HL pn), (HL ds), (HL (wh_salt_1 h)), (HL (wh_salt_2 h)), (HL (fst c)), (HL (snd c)).
  generalize (be_split 4 pn), (be_split 4 ds), (be_split 4 (wh_salt_1 h)),
    (be_split 4 (wh_salt_2 h)), (be_split 4 (fst c)), (be_split 4 (snd c)).
  intros x0 x1 x2 x3 x4 x5 H0 H1 H2 H3 H4 H5.
  do 5 (destruct x0 as [|? x0]; try done). do 5 (destruct x1 as [|? x1]; try done).
  do 5 (destruct x2 as [|? x2]; try done). do 5 (destruct x3 as [|? x3]; try done).
  do 5 (destruct x4 as [|? x4]; try done). do 5 (destruct x5 as [|? x5]; try done).
Qed.

Lemma frame_encode_length h pn ds c page :
  lenZ (frame_encode h pn ds c page) = 24 + lenZ page.
Proof. unfold frame_encode. rewrite !lenZ_app, !be32_len. lia. Qed.

(** A frame that the encoder produced is accepted by the scan. *)
Lemma decode_encode ps h c w rest :
  is_u32 (wh_salt_1 h) -> is_u32 (wh_salt_2 h) -> is_u32 (fst c) -> is_u32 (snd c) ->
  wframe_ok ps w ->
  let c' := frame_checksum h c (wf_page w) (wf_db_size w) (wf_image w) in
  is_u32 (fst c') /\ is_u32 (snd c') /\
  decode_frame ps h c (frame_encode h (wf_page w) (wf_db_size w) c' (wf_image w) ++ rest) =
  Some (mkFinfo (wf_page w) (wf_db_size w) c').
Proof.
  intros Hs1 Hs2 Hc1 Hc2 (Hp & Hp0 & Hd & Hi & Hl) c'.
  set (be := magic_be (wh_magic h)).
  pose proof (checksum_ref_u32 be (be_split 4 (wf_page w) ++ be_split 4 (wf_db_size w)) c)
    as [? ?]; [done..|].
  assert (is_u32 (fst c') /\ is_u32 (snd c')) as [? ?].
  { subst c'. unfold frame_checksum. apply checksum_ref_u32; done. }
  split_and!; [done..|].
  destruct (frame_encode_fields h (wf_page w) (wf_db_size w) c' (wf_image w) rest)
    as (F08 & F0 & F4 & F8 & F12 & F16 & F20 & Fp).
  unfold decode_frame, field_be, WAL_FRAME_HEADER_SIZE.
  rewrite F08, F0, F4, F8, F12, F16, F20, Fp, lenZ_app, frame_encode_length, Hl.
  pose proof (lenZ_nonneg rest).
  destruct (Z.ltb_spec (24 + ps + lenZ rest) (24 + ps)); [lia|].
  rewrite !be32_roundtrip by done.
  destruct (Z.eqb_spec (wf_page w) 0); [done|]. rewrite !Z.eqb_refl. cbn [negb orb].
  rewrite <- Hl. unfold lenZ. rewrite Nat2Z.id, take_app_length. fold be.
  rewrite <- surjective_pairing.
  case_decide as Hne; [done|]. destruct Hne. reflexivity.
Qed.

Lemma append_log_ok big buffer h ps ws : forall c,
  Forall (wframe_ok ps) ws -> ps mod 8 = 0 -> lenZ buffer = 24 + ps ->
  exists bs, append_log big buffer h c ws = Ok bs /\
    match ws with
    | [] => bs = []
    | w :: ws' =>
        let c' := frame_checksum h c (wf_page w) (wf_db_size w) (wf_image w) in
        exists rest, append_log big buffer h c' ws' = Ok rest /\
          bs = frame_encode h (wf_page w) (wf_db_size w) c' (wf_image w) ++ rest
    end.
Proof.
  induction ws as [|w ws IH]; intros c Hws Hps Hb; [by eexists|].
  apply Forall_cons in Hws as [(Hp & Hp0 & Hd & Hi & Hl) Hws]. cbn [append_log].
  rewrite prepare_wal_frame_eq
    by (done || (unfold WAL_FRAME_HEADER_SIZE; congruence) || (by rewrite Hl)).
  cbn [mbind Result_bind].
  destruct (IH (frame_checksum h c (wf_page w) (wf_db_size w) (wf_image w)) Hws Hps Hb)
    as (rest & Hr & _).
  rewrite Hr. eexists. split; [done|]. exists rest. done.
Qed.

(** Cutting a written log after [n] bytes leaves the whole frames. *)
Lemma log_frames_written big buffer h ps ws : forall c bs (n : nat),
  is_u32 (wh_salt_1 h) -> is_u32 (wh_salt_2 h) -> is_u32 (fst c) -> is_u32 (snd c) ->
  Forall (wframe_ok ps) ws -> 0 <= ps -> ps mod 8 = 0 -> lenZ buffer = 24 + ps ->
  append_log big buffer h c ws = Ok bs ->
  log_frames ps h c (take n bs) = take (Z.to_nat (Z.of_nat n / (24 + ps))) (infos h c ws).
Proof.
  induction ws as [|w ws IH]; intros c bs n Hs1 Hs2 Hc1 Hc2 Hws Hps Hps8 Hb Ha.
  { injection Ha as <-. cbn [infos]. by rewrite !take_nil. }
  destruct (append_log_ok big buffer h ps (w :: ws) c Hws Hps8 Hb) as (bs' & Hbs & rest & Hr & ->).
  rewrite Ha in Hbs. injection Hbs as ->.
  apply Forall_cons in Hws as [Hw Hws]. rewrite log_frames_step by done.
  set (c' := frame_checksum h c _ _ _) in *.
  set (e := frame_encode h _ _ c' _).
  assert (lenZ e = 24 + ps) as Hle by (subst e; rewrite frame_encode_length; f_equal; apply Hw).
  destruct (Z.lt_ge_cases (Z.of_nat n) (24 + ps)) as [Hn|Hn].
  { rewrite Z.div_small by lia. change (take (Z.to_nat 0) _) with (@nil finfo).
    destruct (decode_frame _ _ _ _) eqn:E; [|done]. apply decode_frame_room in E.
    unfold lenZ in E. rewrite length_take in E. lia. }
  rewrite take_app_ge by (unfold lenZ in Hle; lia).
  destruct (decode_encode ps h c w (take (n - length e) rest)) as (Hu1 & Hu2 & Hde); [done..|].
  fold c' in Hde, Hu1, Hu2. fold e in Hde. rewrite Hde.
  rewrite drop_app_length' by (unfold lenZ in Hle; lia). cbn [fi_cks].
  rewrite (IH c' rest) by done. unfold lenZ in Hle.
  assert (Z.to_nat (Z.of_nat n / (24 + ps)) =
          S (Z.to_nat (Z.of_nat (n - length e) / (24 + ps)))) as ->.
  { replace (Z.of_nat n) with (Z.of_nat (n - length e) + 1 * (24 + ps)) by lia.
    rewrite Z.div_add by lia.
    pose proof (Z.div_pos (Z.of_nat (n - length e)) (24 + ps)). lia. }
  done.
Qed.

(** The header that a cut file of at least 32 bytes starts with. *)
Lemma valid_header_written h bs n p :
  header_u32 h -> header_valid_checksum h -> PageSize_new (wh_page_size h) = Some p ->
  (32 <= n)%nat ->
  valid_header (take n (wal_header_bytes h ++ bs)) = Some h.
Proof.
  intros Hu Hv Hp Hn. set (f := take n _).
  assert (length (wal_header_bytes h) = 32%nat) as Hlen
    by (unfold wal_header_bytes; by rewrite !length_app, !be_split_length).
  assert (32 <= length f)%nat by (subst f; rewrite length_take, length_app; lia).
  assert (field f 0 32 = wal_header_bytes h) as H32.
  { subst f. unfold field. rewrite drop_0, take_take, Nat.min_l by done.
    by apply take_app_length'. }
  assert (header_of f = h) as Hh.
  { pose proof (parse_wal_header_of f ltac:(done)) as H1. rewrite H32 in H1.
    pose proof (parse_wal_header_bytes h [] Hu) as H2. rewrite app_nil_r in H2. congruence. }
  assert (field f 0 24 = header_prefix h) as H24.
  { assert (field f 0 24 = take 24 (field f 0 32)) as ->
      by (unfold field; by rewrite drop_0, take_take).
    rewrite H32. unfold wal_header_bytes, header_prefix. rewrite app_nil_r, !app_assoc.
    rewrite <- (app_assoc _ _ (be_split 4 (wh_checksum_2 h))). apply take_app_length'.
    by rewrite !length_app, !be_split_length. }
  unfold valid_header. rewrite Hh, Hp, H24. unfold WAL_HEADER_SIZE.
  destruct (Z.ltb_spec (lenZ f) 32); [unfold lenZ in *; lia|].
  case_decide as Hne; [done|]. destruct Hne. by rewrite Hv.
Qed.

(** ** Properties *)

(** Building the shared state from a file. *)
Lemma recovery_run big f pread :
  bytes_ok f -> reads_file f pread ->
  exists rd,
    (b ← build_begin big (lenZ f); poll big pread (2 * length f + 6) b) =
      Ok (mkBuild rd PhaseDone) /\
    match valid_header f with
    | Some h => recovered h (all_frames f h) (rd_shared rd)
    | None => unrecovered big (rd_shared rd)
    end.
Proof.
  intros Hf Hread. unfold build_begin, begin_shared. assert (exists locks, init_read_locks = Ok locks) as [locks ->] by by eexists.
  cbn [mbind Result_bind].
  destruct (Z.ltb_spec (lenZ f) WAL_HEADER_SIZE) as [Hs|Hs]; cbn [mbind Result_bind].
  { rewrite Nat.add_comm. cbn [Nat.add poll b_phase]. eexists. split; [done|].
    unfold valid_header. destruct (Z.ltb_spec (lenZ f) WAL_HEADER_SIZE); [|lia].
    by split. }
  unfold WAL_HEADER_SIZE, lenZ in Hs.
  rewrite Nat.add_comm. cbn [Nat.add poll b_phase poll_step b_reader mbind Result_bind].
  rewrite (Hread 0 WAL_HEADER_SIZE) by (unfold WAL_HEADER_SIZE, lenZ; lia).
  change (take _ (drop (Z.to_nat 0) f)) with (field f 0 32).
  rewrite handle_header_ok by (done || lia). cbn [mbind Result_bind].
  destruct (valid_header f) as [h|] eqn:Eh.
  2:{ cbn [b_phase]. eexists. split; [done|]. by split. }
  apply valid_header_Some in Eh as (Hl & Hps & Hps8).
  match goal with |- context [mkBuild ?r ChunkLoop] => set (rd := r) end.
  assert (rd_inv big f h [] rd) as Hrd.
  { split; try done. change (32 = 32 + (24 + wh_page_size h) * 0). lia. }
  destruct (drive_ok big f pread h Hf Hread Hps Hps8
              (S (S (S (S (length f + (length f + 0)))))) [] rd Hrd) as (rd' & Hp & Hfin).
  { cbn. unfold WAL_HEADER_SIZE, lenZ. lia. }
  exists rd'. split; [exact Hp|]. apply Hfin.
Qed.

(** C4: Recovery publishes exactly the committed part of the longest valid
    prefix of the log.  For every file and every I/O layer that returns the
    file's bytes, building the shared WAL state ends within a bound on the
    number of turns that is linear in the file size, without a panic, whatever
    the sizes of the chunks it read.  With a valid header the published state has the last
    commit frame as its maximum frame, the checksum of the log up to it, and a
    frame cache that indexes the frames up to it and no frame after it; without
    one (file too short, page size illegal, checksum wrong) it is the empty
    uninitialised log. *)
Theorem recovery_exact big f pread :
  bytes_ok f -> reads_file f pread ->
  exists rd,
    (b ← build_begin big (lenZ f); poll big pread (2 * length f + 6) b) =
      Ok (mkBuild rd PhaseDone) /\
    match valid_header f with
    | Some h => recovered h (all_frames f h) (rd_shared rd)
    | None => unrecovered big (rd_shared rd)
    end.
Proof. apply recovery_run. Qed.

(** C5: A crash while a log is being written loses at most the frames that
    were not completely written.  Whatever length the file is cut to, the
    scan finds the header that was written and exactly the frames that lie
    completely before the cut, with the page numbers, commit markers and checksums they
    were written with; the machine that reads may have another byte order than
    the one that wrote. *)
Theorem written_log_survives_cut big buffer h p ws bs n
    (Hu : header_u32 h) (Hv : header_valid_checksum h)
    (Hp : PageSize_new (wh_page_size h) = Some p)
    (Hws : Forall (wframe_ok (wh_page_size h)) ws)
    (Hb : lenZ buffer = WAL_FRAME_HEADER_SIZE + wh_page_size h)
    (Ha : append_log big buffer h (wh_checksum_1 h, wh_checksum_2 h) ws = Ok bs)
    (Hn : (32 <= n)%nat) :
  let f := take n (wal_header_bytes h ++ bs) in
  valid_header f = Some h /\
  all_frames f h =
    take (Z.to_nat (Z.of_nat (n - 32) / (WAL_FRAME_HEADER_SIZE + wh_page_size h)))
      (infos h (wh_checksum_1 h, wh_checksum_2 h) ws).
Proof.
  cbv zeta. split; [by eapply valid_header_written|].
  assert (length (wal_header_bytes h) = 32%nat) as Hlen
    by (unfold wal_header_bytes; by rewrite !length_app, !be_split_length).
  unfold all_frames. rewrite <- Hlen at 1.
  rewrite take_app_ge, drop_app_length by lia. rewrite Hlen.
  apply PageSize_new_bounds in Hp as [? ?].
  pose proof Hu as Hu'. unfold header_u32 in Hu'. rewrite !Forall_cons in Hu'.
  eapply log_frames_written; try done; try apply Hu'; try lia.
Qed.

Definition demo_header : WalHeader :=
  let h := mkWalHeader WAL_MAGIC_LE 3007000 512 0 7 8 0 0 in
  let c := checksum_ref false (header_prefix h) (0, 0) in
  mkWalHeader WAL_MAGIC_LE 3007000 512 0 7 8 (fst c) (snd c).

Definition demo_frames : list wframe :=
  [mkWframe 1 0 (replicate 512 5); mkWframe 2 3 (replicate 512 6);
   mkWframe 1 0 (replicate 512 9)].

Definition demo_log : bytes :=
  match append_log false (replicate 536 255) demo_header
          (wh_checksum_1 demo_header, wh_checksum_2 demo_header) demo_frames with
  | Ok bs => bs
  | _ => []
  end.

Lemma written_log_survives_cut_witness :
  exists f, lenZ f = 1200 /\ valid_header f = Some demo_header /\
    map fi_page (all_frames f demo_header) = [1; 2].
Proof.
  exists (take 1200 (wal_header_bytes demo_header ++ demo_log)).
  split; [vm_compute; reflexivity|].
  destruct (written_log_survives_cut false (replicate 536 255) demo_header (PageSize_mk 512)
              demo_frames demo_log 1200) as [H1 H2].
  - apply all_u32_dec. vm_compute. reflexivity.
  - vm_compute. reflexivity.
  - vm_compute. reflexivity.
  - repeat apply Forall_cons_2; try apply Forall_nil_2;
      (split_and!; [done|done|done|apply bytes_ok_dec; vm_compute; reflexivity|vm_compute; reflexivity]).
  - vm_compute. reflexivity.
  - vm_compute. reflexivity.
  - lia.
  - split; [exact H1|]. rewrite H2. vm_compute. reflexivity.
Defined.

Lemma recovery_exact_witness :
  exists rd,
    (b ← build_begin false (lenZ (wal_header_bytes demo_header ++ demo_log));
     poll false (fun off n =>
         Some (take (Z.to_nat n)
                 (drop (Z.to_nat off) (wal_header_bytes demo_header ++ demo_log)), n))
       (2 * length (wal_header_bytes demo_header ++ demo_log) + 6) b) =
      Ok (mkBuild rd PhaseDone) /\
    m_max_frame (metadata (rd_shared rd)) = 2.
Proof.
  destruct (recovery_exact false (wal_header_bytes demo_header ++ demo_log)
    (fun off n =>
         Some (take (Z.to_nat n)
                 (drop (Z.to_nat off) (wal_header_bytes demo_header ++ demo_log)), n)))
    as (rd & Hrd & Hr).
  - apply bytes_ok_dec. vm_compute. reflexivity.
  - intros off n _ _ _. reflexivity.
  - exists rd. split; [exact Hrd|].
    assert (valid_header (wal_header_bytes demo_header ++ demo_log) = Some demo_header) as Hv
      by (vm_compute; reflexivity).
    rewrite Hv in Hr. rewrite (rc_max _ _ _ Hr). vm_compute. reflexivity.
Defined.
