(* ===== verification/WalProg.v ===== *)
(** * WalProg: the transaction and checkpoint protocol of the WAL

    Models the connection side of core/storage/wal.rs: the in-process
    coordination backend ([InProcessWalCoordination]), the transaction calls
    of [WalFile] (read and write transactions, append, commit, rollback,
    checkpoint, the restart of the log) and the checkpoint phases of the
    pager that follow a WAL checkpoint (core/storage/pager.rs).

    A call is a program [prog]: a tree of atomic accesses to the shared state
    ([act]) whose continuations depend on the values read.  Connections run
    their programs interleaved, one access at a time.  An access is one use of
    an atomic of the shared state or one statement that holds the lock of the
    shared state; a guard that outlives a statement is taken and dropped by
    accesses of its own. *)

From stdpp Require Import gmap.
From S2P Require Import Prelude OnDisk RwLock WalFormat WalShared.

(** ** The shared world *)

Inductive lockid := LRead (slot : nat) | LWrite | LCkpt | LVacuum.

#[export] Instance lockid_eq_dec : EqDecision lockid.
Proof. solve_decision. Defined.

(** A WAL frame as it is decoded: its page number and the page image. *)
Abbreviation frame := (Z * bytes)%type.

(** The shared state, the number of read guards on it that outlive a
    statement, the frames in the WAL file and the pages of the database
    file. *)
Record world := mkWorld {
  w_shared : WalFileShared;
  w_guards : nat;
  w_log : list frame;
  w_db : gmap Z bytes
}.

Definition with_shared (w : world) (s : WalFileShared) : world :=
  mkWorld s (w_guards w) (w_log w) (w_db w).

(** The word of a lock; [None] is an index out of range. *)
Definition lock_word (s : WalFileShared) (l : lockid) : option Z :=
  match l with
  | LRead slot => r_read_locks (runtime s) !! slot
  | LWrite => Some (r_write_lock (runtime s))
  | LCkpt => Some (r_checkpoint_lock (runtime s))
  | LVacuum => Some (r_vacuum_lock (runtime s))
  end.

Definition set_lock_word (s : WalFileShared) (l : lockid) (x : Z) : WalFileShared :=
  let r := runtime s in
  with_runtime s
    match l with
    | LRead slot => set_read_locks r (<[slot := x]> (r_read_locks r))
    | LWrite => set_write_lock r x
    | LCkpt => set_checkpoint_lock r x
    | LVacuum =>
        mkRuntime (r_frame_cache r) (r_high_water r) (r_file r) (r_read_locks r) x
          (r_write_lock r) (r_checkpoint_lock r) (r_epoch r) (r_coverage r)
    end.

(** Frames [fs] written to the WAL file from frame index [n] on (0-based); a
    write past the end leaves zeroed frames in between. *)
Definition log_write (log : list frame) (n : nat) (fs : list frame) : list frame :=
  let l := log ++ replicate (n - length log) (0, []) in
  take n l ++ fs ++ drop (n + length fs) l.

(** ** Accesses *)

Inductive lock_op := OpRead | OpWrite | OpUpgrade.

Inductive act :=
| ALoadSnapshot                                   (* [load_snapshot], [snapshot_of] *)
| AShared                                         (* [let shared = self.shared.read()] *)
| ADropShared                                     (* end of that guard's scope *)
| ATry (o : lock_op) (l : lockid)
| AUnlock (l : lockid)
| ADowngrade (l : lockid)
| AGetValue (slot : nat)
| ASetValue (slot : nat) (v : Z)
| AHeader                                         (* [wal_header] *)
| AInitialized                                    (* [wal_is_initialized] *)
| AWalFile                                        (* [wal_file] *)
| APrepareHeader (big : bool) (page_size : PageSize) (rnd1 rnd2 : Z)
| AMarkInitialized
| APrepareTruncate
| ATruncateLog                                    (* truncation of the WAL file *)
| AWriteFrames (first : Z) (fs : list frame)      (* [pwritev] at the offset of a frame *)
| ACacheFrame (page_id frame_id : Z)
| ARollbackCache (max_frame : Z)
| APublishCommit (max_frame : Z) (last_checksum : Z * Z) (transaction_count : Z)
| APublishBackfill (max_frame : Z)
| AIterLatest (min_frame max_frame : Z)
| ACopyFrame (page_id frame_id : Z)               (* copy of a frame into the DB file *)
| ATornWrite (page_id : Z) (image : bytes)         (* a failed write to the DB file *)
| ABumpEpoch
| ARestart (rnd : Z).                             (* the tail of [begin_restart] *)

Definition resp (e : act) : Type :=
  match e with
  | ALoadSnapshot | ARestart _ => WalSnapshot
  | ATry _ _ | AInitialized => bool
  | AGetValue _ | ABumpEpoch => Z
  | AHeader => WalHeader
  | AWalFile | APrepareTruncate => LimboError + unit
  | APrepareHeader _ _ _ _ => option WalHeader
  | AIterLatest _ _ => list (Z * Z)
  | _ => unit
  end.

Definition lock_call (o : lock_op) (x : Z) : bool * Z :=
  match o with OpRead => lock_read x | OpWrite => lock_write x | OpUpgrade => lock_upgrade x end.

(** Replace the word of lock [l] by [f] of it. *)
Definition update_lock (f : Z -> Result Z) (l : lockid) (w : world) : Result (unit * world) :=
  x ← unwrap (lock_word (w_shared w) l);
  y ← f x;
  Ok (tt, with_shared w (set_lock_word (w_shared w) l y)).

(** [wal_file] of the coordination *)
Definition wal_file (s : WalFileShared) : Result (LimboError + unit) :=
  _ ← turso_assert (m_enabled (metadata s));
  Ok (if r_file (runtime s) then inr tt else inl InternalError).

(** [prepare_truncate] *)
Definition prepare_truncate (s : WalFileShared) : Result ((LimboError + unit) * WalFileShared) :=
  _ ← turso_assert (m_enabled (metadata s));
  let m := metadata s in
  let s' := with_metadata s (set_header m (m_wal_header m) false (m_last_checksum m)) in
  Ok (if r_file (runtime s) then inr tt else inl InternalError, s').

(** Statements that take the write guard of the shared state wait while a
    read guard is held: [None]. *)
Definition exclusively {A} (w : world) (r : Result A) : option (Result A) :=
  match w_guards w with O => Some r | S _ => None end.

Definition set_runtime (w : world) (r : Runtime) : world :=
  with_shared w (with_runtime (w_shared w) r).

(** One access: [None] is blocked, [Panic] a failed assertion. *)
Definition exec (e : act) (w : world) : option (Result (resp e * world)) :=
  let s := w_shared w in
  match e return option (Result (resp e * world)) with
  | ALoadSnapshot => Some (Ok (snapshot_of s, w))
  | AShared => Some (Ok (tt, mkWorld s (S (w_guards w)) (w_log w) (w_db w)))
  | ADropShared => Some (Ok (tt, mkWorld s (pred (w_guards w)) (w_log w) (w_db w)))
  | ATry o l => Some (x ← unwrap (lock_word s l);
                      let '(ok, y) := lock_call o x in
                      Ok (ok, with_shared w (set_lock_word s l y)))
  | AUnlock l => Some (update_lock lock_unlock l w)
  | ADowngrade l => Some (update_lock lock_downgrade l w)
  | AGetValue slot => Some (x ← unwrap (lock_word s (LRead slot)); Ok (get_value x, w))
  | ASetValue slot v => Some (update_lock (fun x => set_value_exclusive x v) (LRead slot) w)
  | AHeader => Some (Ok (m_wal_header (metadata s), w))
  | AInitialized => Some (Ok (m_initialized (metadata s), w))
  | AWalFile => Some (r ← wal_file s; Ok (r, w))
  | APrepareHeader big page_size rnd1 rnd2 =>
      exclusively w
        ('(h, s') ← prepare_wal_header big s page_size rnd1 rnd2; Ok (h, with_shared w s'))
  | AMarkInitialized => Some (Ok (tt, with_shared w (mark_initialized s)))
  | APrepareTruncate => Some ('(r, s') ← prepare_truncate s; Ok (r, with_shared w s'))
  | ATruncateLog => Some (Ok (tt, mkWorld s (w_guards w) [] (w_db w)))
  | AWriteFrames first fs =>
      Some (Ok (tt, mkWorld s (w_guards w) (log_write (w_log w) (Z.to_nat (first - 1)) fs)
                      (w_db w)))
  | ACacheFrame page_id frame_id =>
      Some (Ok (tt, set_runtime w (cache_frame (runtime s) page_id frame_id)))
  | ARollbackCache max_frame =>
      Some (Ok (tt, set_runtime w (rollback_cache (runtime s) max_frame)))
  | APublishCommit max_frame cks tc =>
      exclusively w (Ok (tt, with_shared w (publish_commit s max_frame cks tc)))
  | APublishBackfill max_frame =>
      exclusively w (Ok (tt, with_shared w (publish_backfill s max_frame)))
  | AIterLatest lo hi => Some (Ok (iter_latest_frames s lo hi, w))
  | ACopyFrame page_id frame_id =>
      Some ('(_, image) ← unwrap (w_log w !! Z.to_nat (frame_id - 1));
            Ok (tt, mkWorld s (w_guards w) (w_log w) (<[page_id := image]> (w_db w))))
  | ATornWrite page_id image =>
      Some (Ok (tt, mkWorld s (w_guards w) (w_log w) (<[page_id := image]> (w_db w))))
  | ABumpEpoch => let '(prev, s') := bump_checkpoint_epoch s in Some (Ok (prev, with_shared w s'))
  | ARestart rnd =>
      exclusively w (s' ← restart_wal_header s rnd; Ok (snapshot_of s', with_shared w s'))
  end.

(** ** Programs *)

Inductive prog (A : Type) : Type :=
| Ret (a : A)
| Do (e : act) (k : resp e -> prog A)
| Crash.
Arguments Ret {A} a.
Arguments Do {A} e k.
Arguments Crash {A}.

Fixpoint prog_bind {A B} (f : A -> prog B) (m : prog A) : prog B :=
  match m with
  | Ret a => f a
  | Do e k => Do e (fun r => prog_bind f (k r))
  | Crash => Crash
  end.

#[export] Instance prog_mbind : MBind prog := fun A B f m => prog_bind f m.

Definition call (e : act) : prog (resp e) := Do e Ret.

(** [turso_assert!(b)] *)
Definition ensure (b : bool) : prog unit := if b then Ret tt else Crash.

(** A call that touches no shared state. *)
Definition lift {A} (r : Result A) : prog (LimboError + A) :=
  match r with Ok a => Ret (inr a) | Err e => Ret (inl e) | Panic => Crash end.

(** A program run alone; a blocked access is a deadlock. *)
Fixpoint run {A} (m : prog A) (w : world) : option (Result (A * world)) :=
  match m with
  | Ret a => Some (Ok (a, w))
  | Do e k =>
      match exec e w with
      | Some (Ok (r, w')) => run (k r) w'
      | Some (Err x) => Some (Err x)
      | Some Panic => Some Panic
      | None => None
      end
  | Crash => Some Panic
  end.

(** ** The in-process coordination *)

(** [ReadGuardKind] *)
Inductive ReadGuardKind := GNone | GDbFile | GReadMark (slot : Z).

#[export] Instance ReadGuardKind_eq_dec : EqDecision ReadGuardKind.
Proof. solve_decision. Defined.

(** [usize::MAX] *)
Definition NO_LOCK_HELD : Z := u64_max.

Definition from_lock_index (lock_index : Z) : ReadGuardKind :=
  if lock_index =? NO_LOCK_HELD then GNone
  else if lock_index =? 0 then GDbFile
  else GReadMark lock_index.

Definition lock_index (g : ReadGuardKind) : Z :=
  match g with GNone => NO_LOCK_HELD | GDbFile => 0 | GReadMark idx => idx end.

(** [CheckpointMode] *)
Inductive CheckpointMode :=
| Passive (upper_bound_inclusive : option Z)
| Full
| Restart
| Truncate (upper_bound_inclusive : option Z).

Definition should_restart_log (m : CheckpointMode) : bool :=
  match m with Truncate _ | Restart => true | _ => false end.

Definition require_all_backfilled (m : CheckpointMode) : bool :=
  match m with Passive _ => false | _ => true end.

(** [CoordinationCheckpointGuardKind], and the variants of [CheckpointLocks] *)
Inductive GuardKind := GWriter | GRead0.

#[export] Instance GuardKind_eq_dec : EqDecision GuardKind.
Proof. solve_decision. Defined.

Definition try_read_mark_exclusive (slot : nat) : prog bool := call (ATry OpWrite (LRead slot)).
Definition unlock_read_mark (slot : nat) : prog unit := call (AUnlock (LRead slot)).
Definition read_mark_value (slot : nat) : prog Z := call (AGetValue slot).
Definition set_read_mark_value_exclusive (slot : nat) (v : Z) : prog unit :=
  call (ASetValue slot v).
Definition try_upgrade_read_mark (slot : nat) : prog bool := call (ATry OpUpgrade (LRead slot)).
Definition downgrade_read_mark (slot : nat) : prog unit := call (ADowngrade (LRead slot)).
Definition try_write_lock : prog bool := call (ATry OpWrite LWrite).
Definition unlock_write_lock : prog unit := call (AUnlock LWrite).
Definition try_checkpoint_lock : prog bool := call (ATry OpWrite LCkpt).
Definition unlock_checkpoint_lock : prog unit := call (AUnlock LCkpt).
Definition load_snapshot : prog WalSnapshot := call ALoadSnapshot.

(** The read marks of readers of the WAL. *)
Definition mark_slots : list nat := [1; 2; 3; 4]%nat.

(** The first loop of [try_begin_read_tx]: the largest mark that is not past
    the snapshot, with its slot ([None] for [best_idx == -1]). *)
Fixpoint scan_marks (snap : WalSnapshot) (slots : list nat) (best_idx : option nat)
    (best_mark : Z) : prog (option nat * Z) :=
  match slots with
  | [] => Ret (best_idx, best_mark)
  | idx :: slots' =>
      mark ← call (AGetValue idx);
      if negb (mark =? READMARK_NOT_USED) && (mark <=? u32 (s_max_frame snap)) &&
         (match best_idx with None => true | Some _ => best_mark <? mark end)
      then scan_marks snap slots' (Some idx) mark
      else scan_marks snap slots' best_idx best_mark
  end.

(** The second loop: take a free slot for the snapshot. *)
Fixpoint claim_slot (snap : WalSnapshot) (slots : list nat) (best_idx : option nat)
    (best_mark : Z) : prog (option nat * Z) :=
  match slots with
  | [] => Ret (best_idx, best_mark)
  | idx :: slots' =>
      got ← call (ATry OpWrite (LRead idx));
      if negb got then claim_slot snap slots' best_idx best_mark
      else
        _ ← call (ASetValue idx (u32 (s_max_frame snap)));
        _ ← call (AUnlock (LRead idx));
        Ret (Some idx, u32 (s_max_frame snap))
  end.

(** The end of [try_begin_read_tx]: lock the chosen slot and validate. *)
Definition lock_slot (snap : WalSnapshot) (best_idx : option nat) (best_mark : Z)
    : prog (option ReadGuardKind) :=
  match best_idx with
  | None => Ret None
  | Some idx =>
      got ← call (ATry OpRead (LRead idx));
      if negb got then Ret None
      else
        snapshot_after_lock ← call ALoadSnapshot;
        current_slot_mark ← call (AGetValue idx);
        if negb (current_slot_mark =? best_mark) ||
           negb (bool_decide (snapshot_after_lock = snap))
        then _ ← call (AUnlock (LRead idx)); Ret None
        else Ret (Some (GReadMark (Z.of_nat idx)))
  end.

Definition select_slot (snap : WalSnapshot) : prog (option ReadGuardKind) :=
  '(best_idx, best_mark) ← scan_marks snap mark_slots None 0;
  '(best_idx, best_mark) ←
    (if match best_idx with None => true | Some _ => best_mark <? s_max_frame snap end
     then claim_slot snap mark_slots best_idx best_mark
     else Ret (best_idx, best_mark));
  lock_slot snap best_idx best_mark.

(** [InProcessWalCoordination::try_begin_read_tx] *)
Definition coord_try_begin_read_tx (snap : WalSnapshot) : prog (option ReadGuardKind) :=
  _ ← ensure (s_max_frame snap <=? u32_max);
  _ ← call AShared;
  read0 ← (if s_max_frame snap =? s_nbackfills snap
           then call (ATry OpRead (LRead 0)) else Ret false : prog bool);
  guard ←
    (if (read0 : bool) then
       now ← call ALoadSnapshot;
       if negb (bool_decide (now = snap))
       then _ ← call (AUnlock (LRead 0)); Ret None
       else Ret (Some GDbFile)
     else select_slot snap : prog (option ReadGuardKind));
  _ ← call ADropShared;
  Ret guard.

(** [InProcessWalCoordination::end_read_tx] *)
Definition coord_end_read_tx (guard : ReadGuardKind) : prog unit :=
  match guard with
  | GNone => Ret tt
  | GDbFile => unlock_read_mark 0
  | GReadMark slot => unlock_read_mark (Z.to_nat slot)
  end.

Definition acquire_checkpoint_guard (mode : CheckpointMode) : prog (LimboError + GuardKind) :=
  got ← try_checkpoint_lock;
  if negb got then Ret (inl Busy)
  else
    match mode with
    | Passive _ =>
        got ← try_read_mark_exclusive 0;
        if negb got then _ ← unlock_checkpoint_lock; Ret (inl Busy)
        else Ret (inr GRead0)
    | Full =>
        got ← try_read_mark_exclusive 0;
        if negb got then _ ← unlock_checkpoint_lock; Ret (inl Busy)
        else
          got ← try_write_lock;
          if negb got then
            _ ← unlock_read_mark 0;
            _ ← unlock_checkpoint_lock;
            Ret (inl Busy)
          else Ret (inr GWriter)
    | Restart | Truncate _ =>
        got ← try_read_mark_exclusive 0;
        if negb got then _ ← unlock_checkpoint_lock; Ret (inl Busy)
        else
          got ← try_write_lock;
          if negb got then
            _ ← unlock_checkpoint_lock;
            _ ← unlock_read_mark 0;
            Ret (inl Busy)
          else Ret (inr GWriter)
    end.

Definition release_checkpoint_guard (guard : GuardKind) : prog unit :=
  match guard with
  | GWriter =>
      _ ← unlock_write_lock;
      _ ← unlock_read_mark 0;
      unlock_checkpoint_lock
  | GRead0 =>
      _ ← unlock_read_mark 0;
      unlock_checkpoint_lock
  end.

(** The loop of [determine_max_safe_checkpoint_frame]. *)
Fixpoint max_safe_loop (slots : list nat) (max_safe_frame : Z) : prog Z :=
  match slots with
  | [] => Ret max_safe_frame
  | idx :: slots' =>
      this_mark ← read_mark_value idx;
      if this_mark <? u32 max_safe_frame then
        got ← try_read_mark_exclusive idx;
        if (got : bool) then
          _ ← set_read_mark_value_exclusive idx
                (if (idx =? 1)%nat then u32 max_safe_frame else READMARK_NOT_USED);
          _ ← unlock_read_mark idx;
          max_safe_loop slots' max_safe_frame
        else max_safe_loop slots' this_mark
      else max_safe_loop slots' max_safe_frame
  end.

Definition coord_determine_max_safe_checkpoint_frame (max_frame : Z) : prog Z :=
  _ ← ensure (max_frame <=? u32_max);
  max_safe_loop mark_slots max_frame.

Fixpoint unlock_slots (slots : list nat) : prog unit :=
  match slots with
  | [] => Ret tt
  | idx :: slots' => _ ← unlock_read_mark idx; unlock_slots slots'
  end.

(** The loop of [begin_restart]; [locked] are the slots taken so far. *)
Fixpoint lock_slots (locked slots : list nat) : prog bool :=
  match slots with
  | [] => Ret true
  | idx :: slots' =>
      got ← try_read_mark_exclusive idx;
      if negb got then _ ← unlock_slots locked; Ret false
      else
        _ ← set_read_mark_value_exclusive idx READMARK_NOT_USED;
        lock_slots (locked ++ [idx]) slots'
  end.

Definition begin_restart (rnd : Z) : prog (LimboError + WalSnapshot) :=
  got ← lock_slots [] mark_slots;
  if negb got then Ret (inl Busy)
  else snap ← call (ARestart rnd); Ret (inr snap).

Definition end_restart : prog unit := unlock_slots mark_slots.

Definition try_restart_log_for_write (rnd : Z) : prog (LimboError + option WalSnapshot) :=
  got ← try_upgrade_read_mark 0;
  if negb got then Ret (inr None)
  else
    result ← begin_restart rnd;
    _ ← downgrade_read_mark 0;
    match result with
    | inr snapshot => _ ← end_restart; Ret (inr (Some snapshot))
    | inl err => Ret (inl err)
    end.
