(* ===== verification/WalTxn.v ===== *)
(** * WalTxn: the calls of a connection on its WAL

    Models [WalFile] of core/storage/wal.rs over the coordination of
    [WalProg]: the connection-local state, read transactions with their retry
    loop, write transactions with the restart of the log, appending and
    committing frames, rollback, and the checkpoint with the pager phases that
    publish the backfill and release the checkpoint locks. *)

From stdpp Require Import gmap.
From S2P Require Import Prelude OnDisk RwLock WalFormat WalShared WalProg.

(** ** The connection *)

Inductive VacuumLockGuard := VRead | VWrite.

#[export] Instance VacuumLockGuard_eq_dec : EqDecision VacuumLockGuard.
Proof. solve_decision. Defined.

(** [WalFile]: the fields the transaction calls use. *)
Record WalFile := mkWalFile {
  f_write_lock_held : bool;
  f_read_lock_index : Z;
  f_max_frame : Z;
  f_min_frame : Z;
  f_last_checksum : Z;
  f_checkpoint_seq : Z;
  f_transaction_count : Z;
  f_checkpoint_guard : option GuardKind;
  f_vacuum_guard : option VacuumLockGuard;
  f_dirty : bool
}.

Definition set_position (f : WalFile) (max_frame min_frame packed seq tc index : Z) : WalFile :=
  mkWalFile (f_write_lock_held f) index max_frame min_frame packed seq tc
    (f_checkpoint_guard f) (f_vacuum_guard f) (f_dirty f).
Definition set_max_frame (f : WalFile) (max_frame : Z) : WalFile :=
  set_position f max_frame (f_min_frame f) (f_last_checksum f) (f_checkpoint_seq f)
    (f_transaction_count f) (f_read_lock_index f).
Definition set_write_lock_held (f : WalFile) (b : bool) : WalFile :=
  mkWalFile b (f_read_lock_index f) (f_max_frame f) (f_min_frame f) (f_last_checksum f)
    (f_checkpoint_seq f) (f_transaction_count f) (f_checkpoint_guard f) (f_vacuum_guard f)
    (f_dirty f).
Definition set_checkpoint_guard (f : WalFile) (g : option GuardKind) : WalFile :=
  mkWalFile (f_write_lock_held f) (f_read_lock_index f) (f_max_frame f) (f_min_frame f)
    (f_last_checksum f) (f_checkpoint_seq f) (f_transaction_count f) g (f_vacuum_guard f)
    (f_dirty f).
Definition set_vacuum_guard (f : WalFile) (g : option VacuumLockGuard) : WalFile :=
  mkWalFile (f_write_lock_held f) (f_read_lock_index f) (f_max_frame f) (f_min_frame f)
    (f_last_checksum f) (f_checkpoint_seq f) (f_transaction_count f) (f_checkpoint_guard f) g
    (f_dirty f).
Definition set_dirty (f : WalFile) (b : bool) : WalFile :=
  mkWalFile (f_write_lock_held f) (f_read_lock_index f) (f_max_frame f) (f_min_frame f)
    (f_last_checksum f) (f_checkpoint_seq f) (f_transaction_count f) (f_checkpoint_guard f)
    (f_vacuum_guard f) b.

Definition pack_checksum (checksum : Z * Z) : Z :=
  Z.lor (Z.shiftl (fst checksum) 32) (snd checksum).

Definition last_checksum (f : WalFile) : Z * Z :=
  (u32 (Z.shiftr (f_last_checksum f) 32), u32 (f_last_checksum f)).

Definition set_last_checksum (f : WalFile) (checksum : Z * Z) : WalFile :=
  set_position f (f_max_frame f) (f_min_frame f) (pack_checksum checksum)
    (f_checkpoint_seq f) (f_transaction_count f) (f_read_lock_index f).

(** [connection_state] *)
Definition local_snapshot (f : WalFile) : WalSnapshot :=
  mkSnapshot (f_max_frame f) (saturating_sub (f_min_frame f) 1) (last_checksum f)
    (f_checkpoint_seq f) (f_transaction_count f).

Definition connection_state (f : WalFile) : WalSnapshot * ReadGuardKind :=
  (local_snapshot f, from_lock_index (f_read_lock_index f)).

Definition install_connection_state (f : WalFile) (snap : WalSnapshot) (guard : ReadGuardKind)
    : WalFile :=
  set_position f (s_max_frame snap) (s_min_frame snap) (pack_checksum (s_last_checksum snap))
    (s_checkpoint_seq snap) (s_transaction_count snap) (lock_index guard).

Definition db_changed_against (snap : WalSnapshot) (f : WalFile) : bool :=
  negb (bool_decide (snap = local_snapshot f)).

Definition holds_read_lock (f : WalFile) : bool := negb (f_read_lock_index f =? NO_LOCK_HELD).
Definition holds_write_lock (f : WalFile) : bool := f_write_lock_held f.

(** [WalFile::find_frame] without a watermark. *)
Definition wal_find_frame (s : WalFileShared) (f : WalFile) (page_id : Z) : option Z :=
  if f_max_frame f <? f_min_frame f then None
  else find_frame s page_id (f_min_frame f) (f_max_frame f) None.

(** ** Read transactions *)

Inductive TryBeginReadResult := TryOk (changed : bool) | TryRetry | TryBusy.

Definition install_vacuum_lock_guard (f : WalFile) (g : VacuumLockGuard) : prog WalFile :=
  _ ← ensure (match f_vacuum_guard f with None => true | Some _ => false end);
  Ret (set_vacuum_guard f (Some g)).

Definition release_vacuum_read_lock_guard (f : WalFile) : prog WalFile :=
  _ ← ensure (bool_decide (f_vacuum_guard f = Some VRead));
  _ ← call (AUnlock LVacuum);
  Ret (set_vacuum_guard f None).

(** [WalFile::try_begin_read_tx] *)
Definition try_begin_read_tx (f : WalFile) : prog (TryBeginReadResult * WalFile) :=
  _ ← ensure (f_read_lock_index f =? NO_LOCK_HELD);
  _ ← ensure (match f_vacuum_guard f with None => true | Some _ => false end);
  vacuum ← call (ATry OpRead LVacuum);
  if negb vacuum then Ret (TryBusy, f)
  else
    shared_snapshot ← load_snapshot;
    _ ← ensure (s_nbackfills shared_snapshot <=? s_max_frame shared_snapshot);
    let db_changed := db_changed_against shared_snapshot f in
    guard ← coord_try_begin_read_tx shared_snapshot;
    match guard with
    | None => _ ← call (AUnlock LVacuum); Ret (TryRetry, f)
    | Some read_guard =>
        f ← install_vacuum_lock_guard f VRead;
        Ret (TryOk db_changed, install_connection_state f shared_snapshot read_guard)
    end.

(** The retry loop of [begin_read_tx]; [n] attempts are left.  The delays
    between the attempts are not modelled. *)
Fixpoint begin_read_loop (n : nat) (f : WalFile) : prog ((LimboError + bool) * WalFile) :=
  '(r, f) ← try_begin_read_tx f;
  match r with
  | TryOk changed => Ret (inr changed, f)
  | TryBusy => Ret (inl Busy, f)
  | TryRetry => match n with O => Ret (inl Busy, f) | S n' => begin_read_loop n' f end
  end.

(** The first attempt and 100 retries. *)
Definition begin_read_tx (f : WalFile) : prog ((LimboError + bool) * WalFile) :=
  begin_read_loop 100 f.

Definition set_read_lock_index (f : WalFile) (index : Z) : WalFile :=
  set_position f (f_max_frame f) (f_min_frame f) (f_last_checksum f) (f_checkpoint_seq f)
    (f_transaction_count f) index.

Definition end_read_tx (f : WalFile) : prog WalFile :=
  if negb (f_read_lock_index f =? NO_LOCK_HELD) then
    _ ← coord_end_read_tx (from_lock_index (f_read_lock_index f));
    release_vacuum_read_lock_guard (set_read_lock_index f NO_LOCK_HELD)
  else
    _ ← ensure (negb (bool_decide (f_vacuum_guard f = Some VRead)));
    Ret f.

(** [mvcc_refresh_if_db_changed] *)
Definition mvcc_refresh_if_db_changed (f : WalFile) : prog (bool * WalFile) :=
  if negb (f_read_lock_index f =? NO_LOCK_HELD) then Ret (false, f)
  else
    snapshot ← load_snapshot;
    if db_changed_against snapshot f
    then Ret (true, install_connection_state f snapshot (from_lock_index (f_read_lock_index f)))
    else Ret (false, f).

(** ** Write transactions *)

Definition apply_restart_snapshot (f : WalFile) (snap : WalSnapshot) : WalFile :=
  set_position f (s_max_frame snap) 0 (pack_checksum (s_last_checksum snap))
    (s_checkpoint_seq snap) (f_transaction_count f) (f_read_lock_index f).

Definition try_restart_log_before_write (f : WalFile) (rnd : Z)
    : prog ((LimboError + unit) * WalFile) :=
  if negb (f_read_lock_index f =? 0) then Ret (inr tt, f)
  else
    snapshot ← load_snapshot;
    if s_nbackfills snapshot =? 0 then Ret (inr tt, f)
    else
      _ ← ensure (s_nbackfills snapshot <=? s_max_frame snapshot);
      if negb (s_max_frame snapshot =? s_nbackfills snapshot) then Ret (inr tt, f)
      else
        r ← try_restart_log_for_write rnd;
        match r with
        | inl e => Ret (inl e, f)
        | inr None => Ret (inr tt, f)
        | inr (Some snapshot) =>
            _ ← call ABumpEpoch;
            Ret (inr tt, apply_restart_snapshot f snapshot)
        end.

(** [begin_write_tx]; [restart_allowed] is
    [allowed_auto_actions.contains(WalAutoActions::Restart)]. *)
Definition begin_write_tx (f : WalFile) (restart_allowed : bool) (rnd : Z)
    : prog ((LimboError + unit) * WalFile) :=
  _ ← ensure (negb (f_read_lock_index f =? NO_LOCK_HELD));
  _ ← ensure (negb (holds_write_lock f));
  got ← try_write_lock;
  if negb got then Ret (inl Busy, f)
  else
    snapshot ← load_snapshot;
    if db_changed_against snapshot f then
      _ ← unlock_write_lock;
      Ret (inl BusySnapshot, f)
    else
      let f := set_write_lock_held f true in
      if negb restart_allowed then Ret (inr tt, f)
      else
        '(result, f) ← try_restart_log_before_write f rnd;
        match result with
        | inl Busy | inr _ => Ret (inr tt, f)
        | inl e =>
            _ ← unlock_write_lock;
            Ret (inl e, set_write_lock_held f false)
        end.

Definition end_write_tx (f : WalFile) : prog WalFile :=
  _ ← ensure (f_write_lock_held f);
  _ ← unlock_write_lock;
  Ret (set_write_lock_held f false).

(** ** Appending frames *)

(** The page number, image, frame id and cumulative checksum of a frame. *)
Record prepared_frame := mkPrepared {
  pf_page : Z; pf_image : bytes; pf_frame_id : Z; pf_checksum : Z * Z
}.

(** [PreparedFrames]: the buffers are determined by the frames. *)
Record PreparedFrames := mkPreparedFrames {
  pr_first : Z;
  pr_frames : list prepared_frame;
  pr_final_checksum : Z * Z;
  pr_final_max_frame : Z
}.

Definition pf_frame (x : prepared_frame) : frame := (pf_page x, pf_image x).

(** [IOV_MAX] *)
Definition IOV_MAX : Z := 1024.

(** [prepare_transformed_frame] without a page transform: the checksum of the
    frame.  The frame buffer comes from the pool with any contents. *)
Definition prepare_transformed_frame (big : bool) (wal_header : WalHeader) (prev : Z * Z)
    (page_number db_size : Z) (page : bytes) : Result (Z * Z) :=
  _ ← turso_assert (0 <? page_number);
  let page_size := wh_page_size wal_header in
  _ ← turso_assert (match PageSize_new page_size with Some _ => true | None => false end);
  _ ← turso_assert (lenZ page =? page_size);
  let buffer := replicate (Z.to_nat (WAL_FRAME_HEADER_SIZE + page_size)) 0 in
  r ← prepare_wal_frame big buffer wal_header prev page_number db_size page;
  Ok (fst r).

(** The loop over the pages of a batch; [db_size] goes into the last frame. *)
Fixpoint prepare_loop (big : bool) (header : WalHeader) (rolling : Z * Z) (next_frame_id : Z)
    (db_size : Z) (pages : list frame) : Result (list prepared_frame * (Z * Z)) :=
  match pages with
  | [] => Ok ([], rolling)
  | (page_id, plain) :: pages' =>
      let frame_db_size := match pages' with [] => db_size | _ => 0 end in
      _ ← (if (0 <=? page_id) && (page_id <=? u32_max) then Ok tt else Err IntegerOverflow);
      checksum ← prepare_transformed_frame big header rolling page_id frame_db_size plain;
      '(rest, final) ← prepare_loop big header checksum (next_frame_id + 1) db_size pages';
      Ok (mkPrepared page_id plain next_frame_id checksum :: rest, final)
  end.

(** The position a batch starts at: the end of the previous batch, or the
    local state when it is past the committed frames, or the committed state,
    which is installed when the local state has drifted from it. *)
Definition chain_position (f : WalFile) (prev : option PreparedFrames)
    : prog ((Z * Z) * Z * WalFile) :=
  match prev with
  | Some p => Ret (pr_final_checksum p, pr_final_max_frame p + 1, f)
  | None =>
      snapshot ← load_snapshot;
      let local := local_snapshot f in
      if s_max_frame snapshot <? s_max_frame local then
        Ret (s_last_checksum local, s_max_frame local + 1, f)
      else
        _ ← ensure (s_max_frame local =? s_max_frame snapshot);
        let f' :=
          if bool_decide (snapshot = local) then f
          else install_connection_state f snapshot (from_lock_index (f_read_lock_index f)) in
        Ret (s_last_checksum snapshot, s_max_frame snapshot + 1, f')
  end.

Definition prepare_frames (big : bool) (f : WalFile) (pages : list frame) (page_sz : PageSize)
    (db_size_on_commit : option Z) (prev : option PreparedFrames)
    : prog ((LimboError + PreparedFrames) * WalFile) :=
  _ ← ensure (match pages with [] => false | _ => true end);
  _ ← ensure (lenZ pages <=? IOV_MAX);
  initialized ← call AInitialized;
  _ ← ensure initialized;
  header ← call AHeader;
  _ ← ensure (wh_page_size header =? PageSize_get page_sz);
  '(rolling, next_frame_id, f) ← chain_position f prev;
  let rolling :=
    if next_frame_id =? 1 then (wh_checksum_1 header, wh_checksum_2 header) else rolling in
  r ← lift (prepare_loop big header rolling next_frame_id (default 0 db_size_on_commit) pages);
  match r with
  | inl e => Ret (inl e, f)
  | inr (frames, final) =>
      Ret (inr (mkPreparedFrames next_frame_id frames final (next_frame_id + lenZ frames - 1)), f)
  end.

(** [complete_append_frame] *)
Definition complete_append_frame (f : WalFile) (page_id frame_id : Z) (checksum : Z * Z)
    : prog WalFile :=
  _ ← call (ACacheFrame page_id frame_id);
  Ret (set_max_frame (set_last_checksum (set_dirty f true) checksum) frame_id).

Fixpoint complete_frames (f : WalFile) (frames : list prepared_frame) : prog WalFile :=
  match frames with
  | [] => Ret f
  | x :: frames' =>
      f ← complete_append_frame f (pf_page x) (pf_frame_id x) (pf_checksum x);
      complete_frames f frames'
  end.

Fixpoint commit_prepared_frames (f : WalFile) (batches : list PreparedFrames) : prog WalFile :=
  match batches with
  | [] => Ret f
  | b :: batches' =>
      f ← complete_frames f (pr_frames b);
      commit_prepared_frames
        (set_max_frame (set_last_checksum f (pr_final_checksum b)) (pr_final_max_frame b)) batches'
  end.

Definition finish_append_frames_commit (f : WalFile) : prog WalFile :=
  let transaction_count := u64 (f_transaction_count f + 1) in
  let f := set_position f (f_max_frame f) (f_min_frame f) (f_last_checksum f)
             (f_checkpoint_seq f) transaction_count (f_read_lock_index f) in
  _ ← call (APublishCommit (f_max_frame f) (last_checksum f) transaction_count);
  Ret f.

(** [prepare_wal_start] and [prepare_wal_finish]: [truncate] says whether the
    file is longer than the header, [synced] whether the sync of the header
    succeeded. *)
Definition ensure_header_if_needed (big : bool) (f : WalFile) (page_size : PageSize)
    (rnd1 rnd2 : Z) (truncate synced : bool) : prog ((LimboError + unit) * WalFile) :=
  initialized ← call AInitialized;
  if (initialized : bool) then Ret (inr tt, f)
  else
    h ← call (APrepareHeader big page_size rnd1 rnd2);
    match (h : option WalHeader) with
    | None => Ret (inr tt, f)
    | Some header =>
        let f := set_max_frame
                   (set_last_checksum f (wh_checksum_1 header, wh_checksum_2 header)) 0 in
        file ← call AWalFile;
        match (file : LimboError + unit) with
        | inl e => Ret (inl e, f)
        | inr _ =>
            _ ← (if truncate then call ATruncateLog else Ret tt : prog unit);
            if synced then _ ← call AMarkInitialized; Ret (inr tt, f)
            else Ret (inl CompletionError, f)
        end
    end.

(** The pages of a commit, cut into batches of at most [IOV_MAX]: prepare
    every batch, chained on the previous one. *)
Fixpoint prepare_batches (big : bool) (f : WalFile) (page_sz : PageSize) (db_size : Z)
    (prev : option PreparedFrames) (batches : list (list frame))
    : prog ((LimboError + list PreparedFrames) * WalFile) :=
  match batches with
  | [] => Ret (inr [], f)
  | pages :: batches' =>
      let commit_flag := match batches' with [] => Some db_size | _ => None end in
      '(r, f) ← prepare_frames big f pages page_sz commit_flag prev;
      match r with
      | inl e => Ret (inl e, f)
      | inr p =>
          '(r, f) ← prepare_batches big f page_sz db_size (Some p) batches';
          Ret (match r with inl e => inl e | inr ps => inr (p :: ps) end, f)
      end
  end.

Fixpoint write_batches (batches : list PreparedFrames) : prog unit :=
  match batches with
  | [] => Ret tt
  | b :: batches' =>
      _ ← call (AWriteFrames (pr_first b) (map pf_frame (pr_frames b)));
      write_batches batches'
  end.

(** The commit of a write transaction (the commit phases of the pager):
    prepare, write, sync ([io_ok] is false when the write or the sync fails),
    index the frames and publish the commit. *)
Definition commit_frames (big : bool) (f : WalFile) (page_sz : PageSize) (db_size : Z)
    (batches : list (list frame)) (io_ok : bool) : prog ((LimboError + unit) * WalFile) :=
  '(r, f) ← prepare_batches big f page_sz db_size None batches;
  match r with
  | inl e => Ret (inl e, f)
  | inr [] => Ret (inr tt, f)
  | inr prepared =>
      file ← call AWalFile;
      match (file : LimboError + unit) with
      | inl e => Ret (inl e, f)
      | inr _ =>
          _ ← write_batches prepared;
          if negb io_ok then Ret (inl CompletionError, f)
          else
            f ← commit_prepared_frames f prepared;
            f ← finish_append_frames_commit f;
            Ret (inr tt, f)
      end
  end.

(** The completion callback of [append_frames_vectored]. *)
Fixpoint publish_spilled (frames : list prepared_frame) : prog unit :=
  match frames with
  | [] => Ret tt
  | x :: frames' => _ ← call (ACacheFrame (pf_page x) (pf_frame_id x)); publish_spilled frames'
  end.

(** [append_frames_vectored], up to the completion of its write. *)
Definition append_frames_vectored (big : bool) (f : WalFile) (pages : list frame)
    (page_sz : PageSize) : prog ((LimboError + unit) * WalFile) :=
  _ ← ensure (lenZ pages <=? IOV_MAX);
  initialized ← call AInitialized;
  _ ← ensure initialized;
  header ← call AHeader;
  _ ← ensure (wh_page_size header =? PageSize_get page_sz);
  let first := f_max_frame f + 1 in
  let rolling :=
    if first =? 1 then (wh_checksum_1 header, wh_checksum_2 header) else last_checksum f in
  r ← lift (prepare_loop big header rolling first 0 pages);
  match r with
  | inl e => Ret (inl e, f)
  | inr (frames, final) =>
      file ← call AWalFile;
      match (file : LimboError + unit) with
      | inl e => Ret (inl e, f)
      | inr _ =>
          _ ← call (AWriteFrames first (map pf_frame frames));
          _ ← publish_spilled frames;
          Ret (inr tt,
               match last frames with
               | Some x =>
                   set_max_frame (set_last_checksum (set_dirty f true) (pf_checksum x))
                     (pf_frame_id x)
               | None => f
               end)
      end
  end.

(** ** Rollback *)

Record RollbackTo := mkRollbackTo { rb_frame : Z; rb_checksum : Z * Z; rb_checkpoint_seq : Z }.

Definition rollback (f : WalFile) (rollback_to : option RollbackTo) : prog WalFile :=
  snapshot ← load_snapshot;
  _ ← match rollback_to with
      | Some r =>
          _ ← ensure (rb_checkpoint_seq r =? s_checkpoint_seq snapshot);
          ensure (s_max_frame snapshot <=? rb_frame r)
      | None => Ret tt
      end;
  let max_frame := match rollback_to with Some r => rb_frame r | None => s_max_frame snapshot end in
  let cks := match rollback_to with Some r => rb_checksum r | None => s_last_checksum snapshot end in
  _ ← call (ARollbackCache max_frame);
  Ret (set_max_frame (set_last_checksum f cks) max_frame).

(** ** Checkpoint *)

Inductive SyncMode := SyncOff | SyncNormal | SyncFull.

#[export] Instance SyncMode_eq_dec : EqDecision SyncMode.
Proof. solve_decision. Defined.

(** [CheckpointResult]; [cr_guard] is [maybe_guard]. *)
Record CheckpointResult := mkCheckpointResult {
  wal_max_frame : Z;
  wal_total_backfilled : Z;
  wal_checkpoint_backfilled : Z;
  cr_guard : option GuardKind
}.

Definition everything_backfilled (r : CheckpointResult) : bool :=
  wal_max_frame r =? wal_total_backfilled r.

Definition should_truncate (r : CheckpointResult) : bool := everything_backfilled r.

(** What the storage does during a checkpoint: the order in which the pages
    are written to the database file, the write that fails (if one does) with
    what it leaves in the page, and whether the later sync succeeds. *)
Record io_plan := mkPlan {
  io_order : list (Z * Z) -> list (Z * Z);
  io_fail_at : option (nat * bytes);
  io_sync_ok : bool
}.

(** Dropping an [Option<CheckpointLocks>]. *)
Definition drop_guard (g : option GuardKind) : prog unit :=
  match g with None => Ret tt | Some g => release_checkpoint_guard g end.

Definition acquire_proper_checkpoint_guard (f : WalFile) (mode : CheckpointMode)
    : prog ((LimboError + unit) * WalFile) :=
  let needs_new_guard :=
    match f_checkpoint_guard f, mode with
    | Some GRead0, Passive _ => false
    | Some GWriter, (Restart | Truncate _) => false
    | _, _ => true
    end in
  if negb needs_new_guard then Ret (inr tt, f)
  else
    _ ← drop_guard (f_checkpoint_guard f);
    r ← acquire_checkpoint_guard mode;
    match r with
    | inl e => Ret (inl e, set_checkpoint_guard f None)
    | inr guard => Ret (inr tt, set_checkpoint_guard f (Some guard))
    end.

Definition determine_max_safe_checkpoint_frame : prog Z :=
  snapshot ← load_snapshot;
  coord_determine_max_safe_checkpoint_frame (s_max_frame snapshot).

(** The writes of [CheckpointState::Processing]; [false] is a failed write. *)
Fixpoint copy_pages (fail_at : option (nat * bytes)) (pages : list (Z * Z)) : prog bool :=
  match pages with
  | [] => Ret true
  | (page_id, target_frame) :: pages' =>
      match fail_at with
      | Some (O, torn) => _ ← call (ATornWrite page_id torn); Ret false
      | Some (S n, torn) =>
          _ ← call (ACopyFrame page_id target_frame);
          copy_pages (Some (n, torn)) pages'
      | None =>
          _ ← call (ACopyFrame page_id target_frame);
          copy_pages None pages'
      end
  end.

(** [restart_log] *)
Definition restart_log (f : WalFile) (rnd : Z) : prog ((LimboError + unit) * WalFile) :=
  r ← begin_restart rnd;
  match r with
  | inl e => Ret (inl e, f)
  | inr snapshot => Ret (inr tt, apply_restart_snapshot f snapshot)
  end.

Definition pages_to_checkpoint (min_frame max_frame : Z) : prog (list (Z * Z)) :=
  if max_frame <? min_frame then Ret [] else call (AIterLatest min_frame max_frame).

(** [CheckpointState::Start] after the guard is taken: the frame range and the
    pages to copy; the error is the conditional truncate that does not
    apply. *)
Definition checkpoint_range (mode : CheckpointMode)
    : prog (LimboError + (Z * Z * list (Z * Z))) :=
  max_frame ← determine_max_safe_checkpoint_frame;
  snapshot ← load_snapshot;
  let nbackfills := s_nbackfills snapshot in
  let abort :=
    match mode with Truncate (Some upper_bound) => upper_bound <? max_frame | _ => false end in
  if abort then Ret (inl Busy)
  else
    let max_frame :=
      match mode with
      | Passive (Some upper_bound) => Z.min max_frame upper_bound
      | _ => max_frame
      end in
    to_checkpoint ← pages_to_checkpoint (nbackfills + 1) max_frame;
    Ret (inr (nbackfills + 1, max_frame, to_checkpoint)).

(** [CheckpointState::DetermineResult] and [CheckpointState::Finalize]. *)
Definition checkpoint_finish (f : WalFile) (mode : CheckpointMode) (min_frame max_frame rnd : Z)
    : prog ((LimboError + CheckpointResult) * WalFile) :=
  snapshot ← load_snapshot;
  let result :=
    mkCheckpointResult (s_max_frame snapshot) max_frame
      (saturating_sub max_frame (min_frame - 1)) None in
  if require_all_backfilled mode && negb (everything_backfilled result)
  then Ret (inl Busy, f)
  else
    '(r, f) ←
      (if should_restart_log mode then
         _ ← ensure (bool_decide (f_checkpoint_guard f = Some GWriter));
         restart_log f rnd
       else Ret (inr tt, f) : prog ((LimboError + unit) * WalFile));
    match r with
    | inl e => Ret (inl e, f)
    | inr _ =>
        _ ← (if should_restart_log mode then end_restart else Ret tt);
        _ ← call ABumpEpoch;
        if should_truncate result || (0 <? wal_checkpoint_backfilled result) then
          Ret (inr (mkCheckpointResult (wal_max_frame result) (wal_total_backfilled result)
                      (wal_checkpoint_backfilled result) (f_checkpoint_guard f)),
               set_checkpoint_guard f None)
        else
          _ ← drop_guard (f_checkpoint_guard f);
          Ret (inr result, set_checkpoint_guard f None)
    end.

(** [WalFile::checkpoint_inner] with the locks acquired by the checkpoint; the
    barrier that syncs the WAL before the copy changes no modelled state. *)
Definition checkpoint_inner (f : WalFile) (mode : CheckpointMode) (io : io_plan) (rnd : Z)
    : prog ((LimboError + CheckpointResult) * WalFile) :=
  snapshot ← load_snapshot;
  let needs_backfill := s_nbackfills snapshot <? s_max_frame snapshot in
  if negb needs_backfill && negb (should_restart_log mode) then
    Ret (inr (mkCheckpointResult (s_max_frame snapshot) (s_nbackfills snapshot) 0 None), f)
  else
    '(r, f) ← acquire_proper_checkpoint_guard f mode;
    match r with
    | inl e => Ret (inl e, f)
    | inr _ =>
        r ← checkpoint_range mode;
        match r with
        | inl e => Ret (inl e, f)
        | inr (min_frame, max_frame, to_checkpoint) =>
            copied ← copy_pages (io_fail_at io) (io_order io to_checkpoint);
            if negb copied then Ret (inl CompletionError, f)
            else checkpoint_finish f mode min_frame max_frame rnd
        end
    end.

(** [WalFile::checkpoint]: an error drops the guard. *)
Definition checkpoint (f : WalFile) (mode : CheckpointMode) (io : io_plan) (rnd : Z)
    : prog ((LimboError + CheckpointResult) * WalFile) :=
  '(r, f) ← checkpoint_inner f mode io rnd;
  match r with
  | inl e => _ ← drop_guard (f_checkpoint_guard f); Ret (inl e, set_checkpoint_guard f None)
  | inr result => Ret (inr result, f)
  end.

(** [WalFile::publish_backfill] *)
Definition wal_publish_backfill (max_frame : Z) : prog unit :=
  snapshot ← load_snapshot;
  _ ← ensure ((s_nbackfills snapshot <=? max_frame) && (max_frame <=? s_max_frame snapshot));
  call (APublishBackfill max_frame).

(** [WalFile::truncate_log] *)
Definition truncate_log : prog (LimboError + unit) :=
  r ← call APrepareTruncate;
  match (r : LimboError + unit) with
  | inl e => Ret (inl e)
  | inr _ => _ ← call ATruncateLog; Ret (inr tt)
  end.

(** What the pager does once the WAL checkpoint returned. *)
Inductive checkpoint_tail := TailTruncateWal | TailPublish (max_frame : Z) | TailFinalize.

Definition is_truncate (mode : CheckpointMode) : bool :=
  match mode with Truncate _ => true | _ => false end.

(** [next_post_sync_checkpoint_phase] *)
Definition next_post_sync_checkpoint_phase (mode : CheckpointMode) (r : CheckpointResult)
    : checkpoint_tail :=
  if (0 <? wal_checkpoint_backfilled r) && negb (should_restart_log mode)
  then TailPublish (wal_total_backfilled r)
  else if is_truncate mode then TailTruncateWal
  else TailFinalize.

(** The phases of [Pager::checkpoint_inner] after [CheckpointPhase::Checkpoint];
    [true] when the phase syncs the database file first. *)
Definition checkpoint_phase (mode : CheckpointMode) (sync_mode : SyncMode) (r : CheckpointResult)
    : bool * checkpoint_tail :=
  if is_truncate mode && should_truncate r then
    if bool_decide (sync_mode = SyncOff) then (false, TailTruncateWal)
    else (true, next_post_sync_checkpoint_phase mode r)
  else if (wal_checkpoint_backfilled r =? 0) || bool_decide (sync_mode = SyncOff)
  then (false, TailFinalize)
  else (true, next_post_sync_checkpoint_phase mode r).

Definition run_tail (r : CheckpointResult) (tail : checkpoint_tail) : prog (LimboError + unit) :=
  match tail with
  | TailFinalize => Ret (inr tt)
  | TailTruncateWal => truncate_log
  | TailPublish max_frame =>
      _ ← ensure (0 <? wal_checkpoint_backfilled r);
      _ ← ensure (max_frame =? wal_total_backfilled r);
      _ ← ensure (wal_total_backfilled r <=? wal_max_frame r);
      _ ← wal_publish_backfill max_frame;
      Ret (inr tt)
  end.

(** [Pager::checkpoint]: the guard of the result is released at the end, also
    when a phase fails. *)
Definition pager_checkpoint (f : WalFile) (mode : CheckpointMode) (sync_mode : SyncMode)
    (io : io_plan) (rnd : Z) : prog ((LimboError + CheckpointResult) * WalFile) :=
  '(r, f) ← checkpoint f mode io rnd;
  match r with
  | inl e => Ret (inl e, f)
  | inr result =>
      let '(sync, tail) := checkpoint_phase mode sync_mode result in
      if sync && negb (io_sync_ok io) then
        _ ← drop_guard (cr_guard result);
        Ret (inl CompletionError, f)
      else
        t ← run_tail result tail;
        _ ← drop_guard (cr_guard result);
        Ret (match t with inl e => inl e | inr _ => inr result end, f)
  end.

(** [should_checkpoint] *)
Definition should_checkpoint (threshold : Z) : prog bool :=
  if threshold =? 0 then Ret false
  else
    snapshot ← load_snapshot;
    Ret (threshold + s_nbackfills snapshot <? s_max_frame snapshot).

(** ** The blocking transaction of VACUUM *)

(** [try_begin_vacuum_checkpoint_lock] *)
Definition try_begin_vacuum_checkpoint_lock : prog (LimboError + unit) :=
  got ← try_checkpoint_lock;
  Ret (if (got : bool) then inr tt else inl Busy).

(** The invariant check of [begin_vacuum_blocking_tx]. *)
Fixpoint check_slots_free (slots : list nat) : prog unit :=
  match slots with
  | [] => Ret tt
  | idx :: slots' =>
      got ← call (ATry OpWrite (LRead idx));
      _ ← ensure got;
      _ ← call (AUnlock (LRead idx));
      check_slots_free slots'
  end.

Definition begin_vacuum_blocking_tx (f : WalFile) : prog ((LimboError + unit) * WalFile) :=
  _ ← ensure (f_read_lock_index f =? NO_LOCK_HELD);
  _ ← ensure (negb (holds_write_lock f));
  _ ← ensure (match f_vacuum_guard f with None => true | Some _ => false end);
  got ← call (ATry OpWrite LVacuum);
  if negb got then Ret (inl Busy, f)
  else
    _ ← call AShared;
    _ ← check_slots_free [0; 1; 2; 3; 4]%nat;
    _ ← call ADropShared;
    snapshot ← load_snapshot;
    let f := install_connection_state f snapshot GNone in
    got ← try_write_lock;
    _ ← ensure got;
    f ← install_vacuum_lock_guard (set_write_lock_held f true) VWrite;
    Ret (inr tt, f).

Definition release_vacuum_lock (f : WalFile) : prog WalFile :=
  _ ← ensure (negb (holds_write_lock f));
  _ ← ensure (bool_decide (f_vacuum_guard f = Some VWrite));
  _ ← call (AUnlock LVacuum);
  Ret (set_vacuum_guard f None).
