(* ===== verification/WalLogic.v ===== *)
(** * WalLogic: reasoning about interleaved WAL programs

    A small program logic for the programs of [WalProg].  What a connection
    knows about the shared state while other connections run is a record
    [know]: the locks it holds, the marks of the slots it holds, the metadata
    it has frozen by holding the write lock, its open transaction, and how far
    its checkpoint is.  [astep] says what an access needs and what it teaches,
    [wp] follows a program with it, and [access_sound] shows that every access
    keeps the invariant [ginv] that ties the knowledge of all the connections
    to the shared state. *)

From stdpp Require Import gmap.
From S2P Require Import Prelude OnDisk RwLock WalFormat WalShared WalProg.

(** ** Contents of the log and of the database *)

(** The last image of page [p] in a list of frames. *)
Fixpoint last_image (p : Z) (l : list frame) : option bytes :=
  match l with
  | [] => None
  | (q, v) :: l' =>
      match last_image p l' with
      | Some x => Some x
      | None => if q =? p then Some v else None
      end
  end.

(** The database after the first [n] frames on top of [base]. *)
Definition version (base : gmap Z bytes) (log : list frame) (n : Z) (p : Z) : option bytes :=
  match last_image p (take (Z.to_nat n) log) with
  | Some v => Some v
  | None => base !! p
  end.

(** The committed database: the frames up to [max_frame] over the database
    file. *)
Definition committed (w : world) (p : Z) : option bytes :=
  version (w_db w) (w_log w) (m_max_frame (metadata (w_shared w))) p.

(** Page [p] has a frame after frame [lo] and not after frame [hi]. *)
Definition touched (log : list frame) (p lo hi : Z) : Prop :=
  exists f v, lo < f <= hi /\ log !! Z.to_nat (f - 1) = Some (p, v).

(** ** Knowledge of a connection *)

(** An open transaction: its slot, the frames it reads from the WAL are those
    after [t_lo] up to [t_max]. *)
Record tx := mkTx { t_slot : nat; t_lo : Z; t_max : Z }.

Record know := mkKnow {
  k_hold : lockid -> hold;
  k_mark : nat -> option Z;
  k_guard : bool;
  k_cur : option WalSnapshot;
  k_meta : option Metadata;
  k_load : option (Z * Z);
  k_tx : option tx;
  k_wr : list frame;
  k_ck : option (Z * (nat -> Z));
  k_todo : option (Z * list (Z * Z))
}.

Definition upd {A B} `{EqDecision A} (f : A -> B) (a : A) (b : B) : A -> B :=
  fun x => if decide (x = a) then b else f x.

Lemma upd_eq {A B} `{EqDecision A} (f : A -> B) a b : upd f a b a = b.
Proof. unfold upd. by rewrite decide_True. Qed.

Lemma upd_ne {A B} `{EqDecision A} (f : A -> B) a b x : x <> a -> upd f a b x = f x.
Proof. intros. unfold upd. by rewrite decide_False. Qed.

Definition set_hold (L : know) (l : lockid) (h : hold) : know :=
  mkKnow (upd (k_hold L) l h) (k_mark L) (k_guard L) (k_cur L) (k_meta L) (k_load L) (k_tx L)
    (k_wr L) (k_ck L) (k_todo L).
Definition set_mark (L : know) (s : nat) (o : option Z) : know :=
  mkKnow (k_hold L) (upd (k_mark L) s o) (k_guard L) (k_cur L) (k_meta L) (k_load L) (k_tx L)
    (k_wr L) (k_ck L) (k_todo L).
Definition set_guard (L : know) (b : bool) (c : option WalSnapshot) : know :=
  mkKnow (k_hold L) (k_mark L) b c (k_meta L) (k_load L) (k_tx L) (k_wr L) (k_ck L) (k_todo L).
Definition set_meta (L : know) (m : option Metadata) : know :=
  mkKnow (k_hold L) (k_mark L) (k_guard L) (k_cur L) m (k_load L) (k_tx L) (k_wr L) (k_ck L)
    (k_todo L).
Definition set_tx (L : know) (t : option tx) : know :=
  mkKnow (k_hold L) (k_mark L) (k_guard L) (k_cur L) (k_meta L) (k_load L) t (k_wr L) (k_ck L)
    (k_todo L).
Definition set_wr (L : know) (fs : list frame) : know :=
  mkKnow (k_hold L) (k_mark L) (k_guard L) (k_cur L) (k_meta L) (k_load L) (k_tx L) fs (k_ck L)
    (k_todo L).
Definition set_ckpt (L : know) (load : option (Z * Z)) (ck : option (Z * (nat -> Z)))
    (todo : option (Z * list (Z * Z))) : know :=
  mkKnow (k_hold L) (k_mark L) (k_guard L) (k_cur L) (k_meta L) load (k_tx L) (k_wr L) ck todo.

Ltac kcbn :=
  cbn [k_hold k_mark k_guard k_cur k_meta k_load k_tx k_wr k_ck k_todo set_hold set_mark
       set_guard set_meta set_tx set_wr set_ckpt t_slot t_lo t_max].

(** What is known when nothing is held. *)
Definition know_nothing : know :=
  mkKnow (fun _ => HNone) (fun _ => None) false None None None None [] None None.

Definition with_nb (m : Metadata) (n : Z) : Metadata :=
  mkMetadata (m_enabled m) (m_wal_header m) (m_min_frame m) (m_max_frame m) n
    (m_transaction_count m) (m_last_checksum m) (m_loaded m) (m_loaded_from_disk_scan m)
    (m_initialized m).

(** The fields of the metadata that the write lock freezes; the number of
    backfilled frames only grows. *)
Definition frozen (m now : Metadata) : Prop :=
  m_nbackfills m <= m_nbackfills now /\ now = with_nb m (m_nbackfills now).

(** Raise the bound of slot [s] of a checkpoint that has one. *)
Definition raise_ck (ck : option (Z * (nat -> Z))) (s : nat) (v : Z -> Z)
    : option (Z * (nat -> Z)) :=
  match ck with Some (m0, safe) => Some (m0, upd safe s (v m0)) | None => None end.

Definition valid_lock (l : lockid) : Prop :=
  match l with LRead s => (s < 5)%nat | _ => True end.

(** Knowledge after lock [l] is given up. *)
Definition forget (L : know) (l : lockid) : know :=
  let L := set_hold L l HNone in
  match l with
  | LRead s =>
      let L := set_mark L s None in
      let L := match k_tx L with
               | Some t => if decide (t_slot t = s) then set_wr (set_tx L None) [] else L
               | None => L
               end in
      if decide (s = 0%nat) then set_ckpt L None None None else L
  | LWrite => set_wr (set_meta L None) []
  | LCkpt => set_ckpt L None None None
  | LVacuum => L
  end.

(** ** What an access needs and what it teaches *)

Definition lock_pre (o : lock_op) (h : hold) : Prop :=
  match o with OpRead => h = HNone | OpWrite => h <> HWrite | OpUpgrade => h = HRead end.

Definition tx_at (L : know) (s : nat) : Prop := exists t, k_tx L = Some t /\ t_slot t = s.

(** The connection is writing: nobody else extends the log, and its own
    position is not behind the committed frames. *)
Definition writing (L : know) (m : Metadata) (t : tx) : Prop :=
  k_meta L = Some m /\ k_tx L = Some t /\ m_max_frame m <= t_max t.

Definition safe_upto (safe : nat -> Z) (n : Z) : Prop :=
  forall s, (1 <= s < 5)%nat -> n <= safe s.

(** Every frame is known to be in the database file. *)
Definition all_backfilled (L : know) (m : Metadata) : Prop :=
  m_nbackfills m = m_max_frame m \/ k_todo L = Some (m_max_frame m, []).

Definition apre (e : act) (L : know) : Prop :=
  match e with
  | ALoadSnapshot | AHeader | AInitialized | AWalFile | ABumpEpoch => True
  | AShared => k_guard L = false
  | ADropShared => k_guard L = true
  | ATry o l => valid_lock l /\ lock_pre o (k_hold L l) /\ (l = LWrite -> o = OpWrite)
  | AUnlock l =>
      valid_lock l /\ k_hold L l <> HNone /\
      (l = LWrite -> forall t, k_tx L = Some t ->
         exists m, k_meta L = Some m /\ t_max t <= m_max_frame m)
  | ADowngrade l => l = LRead 0 /\ k_hold L l = HWrite
  | AGetValue s => (s < 5)%nat
  | ASetValue s v => (s < 5)%nat /\ k_hold L (LRead s) = HWrite /\ is_u32 v /\ ~ tx_at L s
  | APrepareHeader _ page_size _ _ =>
      k_guard L = false /\ is_u32 (PageSize_get page_size) /\ exists m t, writing L m t
  | AMarkInitialized => is_Some (k_meta L)
  | APrepareTruncate => exists m, k_meta L = Some m /\ m_max_frame m = 0
  | ATruncateLog =>
      exists m, k_meta L = Some m /\ m_max_frame m = 0 /\
        forall t, k_tx L = Some t -> t_max t <= 0
  | AWriteFrames first fs =>
      exists m t, writing L m t /\ first = t_max t + 1 + lenZ (k_wr L)
  | ACacheFrame page_id frame_id =>
      exists m t image rest, writing L m t /\ frame_id = t_max t + 1 /\
        k_wr L = (page_id, image) :: rest
  | ARollbackCache n => exists m t, writing L m t /\ m_max_frame m <= n <= t_max t
  | APublishCommit n _ _ =>
      k_guard L = false /\ exists m t, writing L m t /\ n = t_max t /\ n <= u32_max /\
        (m_initialized m = true \/ n = 0)
  | APublishBackfill n =>
      k_guard L = false /\ exists nb m0, k_load L = Some (nb, m0) /\ k_todo L = Some (n, []) /\ nb <= n
  | AIterLatest lo hi =>
      exists nb m m0 safe, k_load L = Some (nb, m) /\ lo = nb + 1 /\ lo <= hi /\
        k_ck L = Some (m0, safe) /\ safe_upto safe hi
  | ACopyFrame p f => is_Some (k_load L) /\ exists m l, k_todo L = Some (m, (p, f) :: l)
  | ATornWrite p _ => is_Some (k_load L) /\ exists m f l, k_todo L = Some (m, (p, f) :: l)
  | ARestart _ =>
      k_guard L = false /\ (forall s, (s < 5)%nat -> k_hold L (LRead s) = HWrite) /\
      (exists m, k_meta L = Some m /\ all_backfilled L m) /\
      (forall t, k_tx L = Some t -> t_slot t = 0%nat)
  end.

(** Metadata after [restart_wal_header]. *)
Definition restarted (m : Metadata) (rnd : Z) : Metadata :=
  let h := m_wal_header m in
  mkMetadata (m_enabled m)
    (mkWalHeader (wh_magic h) (wh_file_format h) (wh_page_size h)
       (u32 (wh_checkpoint_seq h + 1)) (u32 (wh_salt_1 h + 1)) (u32 rnd)
       (wh_checksum_1 h) (wh_checksum_2 h))
    (m_min_frame m) 0 0 (m_transaction_count m) (wh_checksum_1 h, wh_checksum_2 h)
    (m_loaded m) (m_loaded_from_disk_scan m) false.

Definition meta_snapshot (m : Metadata) : WalSnapshot :=
  mkSnapshot (m_max_frame m) (m_nbackfills m) (m_last_checksum m)
    (wh_checkpoint_seq (m_wal_header m)) (m_transaction_count m).

(** The checkpoint locks that freeze [nbackfills]. *)
Definition ckpt_locked (L : know) : bool :=
  bool_decide (k_hold L LCkpt = HWrite) && bool_decide (k_hold L (LRead 0) = HWrite).

Definition learn_snapshot (L : know) (s : WalSnapshot) : know :=
  let L := set_guard L (k_guard L) (if k_guard L then Some s else None) in
  let L := match k_meta L with
           | Some m => set_meta L (Some (with_nb m (s_nbackfills s)))
           | None => L
           end in
  set_ckpt L (if ckpt_locked L then Some (s_nbackfills s, s_max_frame s) else None)
    (k_ck L) (k_todo L).

Definition locked (o : lock_op) : hold :=
  match o with OpRead => HRead | OpWrite | OpUpgrade => HWrite end.

(** A lock of a slot taken exclusively has no reader under it. *)
Definition learn_lock (L : know) (o : lock_op) (l : lockid) (m : option Metadata) : know :=
  let L := set_hold L l (locked o) in
  match l with
  | LRead s => set_ckpt L (k_load L)
                 (match o with OpWrite => raise_ck (k_ck L) s (fun m0 => m0) | _ => k_ck L end)
                 (k_todo L)
  | LWrite => set_meta L m
  | _ => L
  end.

Definition learn_value (L : know) (s : nat) (v : Z) : know :=
  let L := if decide (k_hold L (LRead s) = HNone) then L else set_mark L s (Some v) in
  if decide (s = 0%nat) then L
  else set_ckpt L (k_load L) (raise_ck (k_ck L) s (fun m0 => Z.min m0 v)) (k_todo L).

Definition move_tx (L : know) (n : Z) : know :=
  match k_tx L with
  | Some t => set_tx L (Some (mkTx (t_slot t) (t_lo t) n))
  | None => L
  end.

Definition meta_header (m : Metadata) (h : WalHeader) (initialized : bool) (cks : Z * Z)
    : Metadata := set_header m h initialized cks.

Definition meta_commit (m : Metadata) (n : Z) (cks : Z * Z) (tc : Z) : Metadata :=
  mkMetadata (m_enabled m) (m_wal_header m) (m_min_frame m) n (m_nbackfills m) tc cks
    (m_loaded m) (m_loaded_from_disk_scan m) (m_initialized m).

Definition apost (e : act) (L : know) : resp e -> know -> Prop :=
  match e return resp e -> know -> Prop with
  | ALoadSnapshot => fun s L' =>
      0 <= s_nbackfills s <= s_max_frame s /\ s_max_frame s <= u32_max /\
      (forall s0, k_cur L = Some s0 -> s = s0) /\
      (forall m, k_meta L = Some m ->
         s = meta_snapshot (with_nb m (s_nbackfills s)) /\ m_nbackfills m <= s_nbackfills s) /\
      (forall nb m, k_load L = Some (nb, m) -> s_nbackfills s = nb /\ m <= s_max_frame s) /\
      (forall m0 safe, k_ck L = Some (m0, safe) -> m0 <= s_max_frame s) /\
      L' = learn_snapshot L s
  | AShared => fun _ L' => L' = set_guard L true None
  | ADropShared => fun _ L' => L' = set_guard L false None
  | ATry o l => fun ok L' =>
      if ok then
        (o = OpWrite -> k_hold L l = HNone) /\
        exists m, (l = LWrite -> forall t, k_tx L = Some t -> t_max t <= m_max_frame m) /\
          L' = learn_lock L o l (Some m)
      else L' = L
  | AUnlock l => fun _ L' => L' = forget L l
  | ADowngrade l => fun _ L' =>
      L' = set_ckpt (set_hold L l HRead) None None None
  | AGetValue s => fun v L' =>
      is_u32 v /\ (forall x, k_mark L s = Some x -> v = x) /\ L' = learn_value L s v
  | ASetValue s v => fun _ L' => L' = set_mark L s (Some v)
  | AHeader => fun h L' =>
      (forall m, k_meta L = Some m -> h = m_wal_header m) /\ header_u32 h /\ L' = L
  | AInitialized => fun b L' =>
      (forall m, k_meta L = Some m -> b = m_initialized m) /\ L' = L
  | AWalFile => fun r L' => r = inr tt /\ L' = L
  | APrepareHeader _ page_size _ _ => fun r L' =>
      forall m, k_meta L = Some m ->
      match r with
      | None => m_initialized m = true /\ L' = L
      | Some h =>
          m_initialized m = false /\ m_max_frame m = 0 /\ header_u32 h /\
          wh_page_size h = (if wh_page_size (m_wal_header m) =? 0
                            then PageSize_get page_size else wh_page_size (m_wal_header m)) /\
          L' = set_meta L (Some (meta_header m h false (wh_checksum_1 h, wh_checksum_2 h)))
      end
  | AMarkInitialized => fun _ L' =>
      forall m, k_meta L = Some m ->
      L' = set_meta L (Some (meta_header m (m_wal_header m) true (m_last_checksum m)))
  | APrepareTruncate => fun r L' =>
      r = inr tt /\
      forall m, k_meta L = Some m ->
      L' = set_meta L (Some (meta_header m (m_wal_header m) false (m_last_checksum m)))
  | ATruncateLog => fun _ L' => L' = set_wr L []
  | AWriteFrames _ fs => fun _ L' => L' = set_wr L (k_wr L ++ fs)
  | ACacheFrame _ n => fun _ L' => L' = move_tx (set_wr L (tail (k_wr L))) n
  | ARollbackCache n => fun _ L' => L' = move_tx (set_wr L []) n
  | APublishCommit n cks tc => fun _ L' =>
      forall m, k_meta L = Some m -> L' = set_meta L (Some (meta_commit m n cks tc))
  | APublishBackfill n => fun _ L' =>
      forall nb m0, k_load L = Some (nb, m0) -> L' = set_ckpt L (Some (n, m0)) (k_ck L) (k_todo L)
  | AIterLatest lo hi => fun l L' => L' = set_ckpt L (k_load L) (k_ck L) (Some (hi, l))
  | ACopyFrame _ _ => fun _ L' =>
      forall m x l, k_todo L = Some (m, x :: l) ->
      L' = set_ckpt L (k_load L) (k_ck L) (Some (m, l))
  | ATornWrite _ _ | ABumpEpoch => fun _ L' => L' = L
  | ARestart rnd => fun s L' =>
      forall m, k_meta L = Some m ->
      s = meta_snapshot (restarted m rnd) /\
      L' = mkKnow (k_hold L) (fun _ => None) (k_guard L) None (Some (restarted m rnd)) None
             (match k_tx L with Some t => Some (mkTx (t_slot t) (-1) 0) | None => None end)
             [] None None
  end.

(** Knowledge that needs no access: opening a transaction under a validated
    slot, starting the scan of a checkpoint, an empty frame range, the order
    of the pages to copy, a later start of the visible range, and giving up
    frames that were written but not indexed. *)
Inductive learn (L : know) : know -> Prop :=
| learn_tx s slot :
    k_cur L = Some s -> k_tx L = None -> (slot < 5)%nat -> k_hold L (LRead slot) <> HNone ->
    (slot <> 0%nat -> exists v, k_mark L slot = Some v /\ v <= s_max_frame s) ->
    k_ck L = None ->
    learn L (set_tx L (Some (mkTx slot (s_nbackfills s) (s_max_frame s))))
| learn_ck nb m :
    k_load L = Some (nb, m) -> 0 <= m -> ~ tx_at L 0 ->
    learn L (set_ckpt L (k_load L) (Some (m, fun _ => 0)) (k_todo L))
| learn_empty nb m m0 safe hi :
    k_load L = Some (nb, m) -> k_ck L = Some (m0, safe) -> hi < nb + 1 ->
    learn L (set_ckpt L (k_load L) (k_ck L) (Some (hi, [])))
| learn_perm m l l' :
    k_todo L = Some (m, l) -> l ≡ₚ l' ->
    learn L (set_ckpt L (k_load L) (k_ck L) (Some (m, l')))
| learn_lo m t n :
    k_meta L = Some m -> k_tx L = Some t -> n <= m_nbackfills m ->
    learn L (set_tx L (Some (mkTx (t_slot t) n (t_max t))))
| learn_wr : learn L (set_wr L []).

Inductive wp {A} (Q : A -> know -> Prop) : prog A -> know -> Prop :=
| wp_ret a L : Q a L -> wp Q (Ret a) L
| wp_do e k L :
    apre e L -> (forall r L', apost e L r L' -> wp Q (k r) L') -> wp Q (Do e k) L
| wp_learn m L L' : learn L L' -> wp Q m L' -> wp Q m L.

(** ** The invariant *)

(** What the proofs remember beside the state: the database file at the last
    restart of the log, how far backfilling may have got, and the page numbers
    the frame cache indexes. *)
Record ghost := mkGhost { g_base : gmap Z bytes; g_hw : Z; g_pages : list Z }.

Abbreviation meta w := (metadata (w_shared w)).
Abbreviation max_of w := (m_max_frame (metadata (w_shared w))).
Abbreviation nb_of w := (m_nbackfills (metadata (w_shared w))).

(** The cache and the file agree on the first [n] frames. *)
Definition agree (pages : list Z) (log : list frame) (n : Z) : Prop :=
  n <= lenZ pages /\ n <= lenZ log /\ take (Z.to_nat n) pages = (take (Z.to_nat n) log).*1.

Definition mark_of (w : world) (s : nat) : option Z :=
  get_value <$> lock_word (w_shared w) (LRead s).

(** The states of the history that a connection may have as its snapshot:
    those from [st_from] on, or exactly one of them, with the frames it is
    made of. *)
Record start := mkStart { st_from : nat; st_exact : option (nat * list frame) }.

Definition may_see (st : start) (i : nat) (frames : list frame) : Prop :=
  (st_from st <= i)%nat /\ forall x, st_exact st = Some x -> (i, frames) = x.

(** A committed state that [st] allows is the one after the first [n]
    frames. *)
Definition seen (w : world) (g : ghost) (hist : list world) (st : start) (n : Z) : Prop :=
  exists i wi, may_see st i (take (Z.to_nat n) (w_log w)) /\ hist !! i = Some wi /\
    forall p, committed wi p = version (g_base g) (w_log w) n p.

Record tx_ok (w : world) (g : ghost) (hist : list world) (st : start) (L : know) (t : tx) : Prop :=
  mkTxOk {
    to_slot : (t_slot t < 5)%nat /\ k_hold L (LRead (t_slot t)) <> HNone;
    to_lo : t_lo t <= nb_of w;
    to_hw : g_hw g <= t_max t;
    to_agree : agree (g_pages g) (w_log w) (t_max t);
    to_max : t_max t <= max_of w \/ is_Some (k_meta L);
    to_mark : t_slot t <> 0%nat ->
      exists v, k_mark L (t_slot t) = Some v /\ v <= t_max t /\ v <= max_of w;
    to_seen : t_max t <= max_of w -> seen w g hist st (t_max t)
  }.

Definition todo_ok (w : world) (g : ghost) (m : Z) (l : list (Z * Z)) : Prop :=
  m <= max_of w /\ m <= g_hw g /\
  (forall p f, (p, f) ∈ l ->
     nb_of w < f <= m /\ exists v, w_log w !! Z.to_nat (f - 1) = Some (p, v) /\
       version (g_base g) (w_log w) m p = Some v) /\
  (nb_of w <= m -> forall p, p ∉ l.*1 ->
     touched (w_log w) p m (g_hw g) \/ w_db w !! p = version (g_base g) (w_log w) m p).

Record linv (w : world) (g : ghost) (hist : list world) (st : start) (L : know) : Prop := mkLinv {
  li_mark : forall s v, k_mark L s = Some v ->
    k_hold L (LRead s) <> HNone /\ mark_of w s = Some v;
  li_cur : forall s, k_cur L = Some s -> k_guard L = true /\ snapshot_of (w_shared w) = s;
  li_meta : match k_meta L with
            | Some m => k_hold L LWrite = HWrite /\ frozen m (meta w)
            | None => k_hold L LWrite = HNone
            end;
  li_load : forall nb m, k_load L = Some (nb, m) ->
    ckpt_locked L = true /\ nb_of w = nb /\ m <= max_of w;
  li_tx : forall t, k_tx L = Some t -> tx_ok w g hist st L t;
  li_wr : forall j x, k_wr L !! j = Some x ->
    exists t, k_tx L = Some t /\ is_Some (k_meta L) /\
      w_log w !! (Z.to_nat (t_max t) + j)%nat = Some x;
  li_ck : forall m0 safe, k_ck L = Some (m0, safe) ->
    ckpt_locked L = true /\ ~ tx_at L 0 /\ m0 <= max_of w /\ forall s, safe s <= m0;
  li_todo : forall m l, k_todo L = Some (m, l) -> ckpt_locked L = true /\ todo_ok w g m l
}.

(** The shared state itself. *)
Record dinv (w : world) (g : ghost) : Prop := mkDinv {
  di_open : m_enabled (meta w) = true /\ r_file (runtime (w_shared w)) = true;
  di_header : header_u32 (m_wal_header (meta w));
  di_range : 0 <= nb_of w /\ nb_of w <= g_hw g /\ g_hw g <= max_of w /\ max_of w <= u32_max;
  di_fresh : m_initialized (meta w) = false -> max_of w = 0;
  di_cache : runtime_rep (runtime (w_shared w)) (g_pages g);
  di_agree : agree (g_pages g) (w_log w) (max_of w);
  di_db : forall p, touched (w_log w) p (nb_of w) (g_hw g) \/
                    w_db w !! p = version (g_base g) (w_log w) (nb_of w) p;
  di_slots : length (r_read_locks (runtime (w_shared w))) = 5%nat
}.

Definition cnt (h : hold) (l : lockid) (Ls : list know) : Z :=
  lenZ (filter (fun L => k_hold L l = h) Ls).

(** The word of a lock counts its holders. *)
Definition lock_inv (s : WalFileShared) (Ls : list know) (l : lockid) : Prop :=
  exists v, lock_word s l = Some (enc v (cnt HRead l Ls) (cnt HWrite l Ls)) /\ is_u32 v /\
    (cnt HWrite l Ls = 0 \/ cnt HWrite l Ls = 1 /\ cnt HRead l Ls = 0).

Record ginv (w : world) (hist : list world) (sts : list start) (Ls : list know) (g : ghost)
    : Prop := mkGinv {
  gi_size : lenZ Ls < 2147483647;
  gi_len : length sts = length Ls;
  gi_hist : last hist = Some w /\ Forall (fun st => st_from st < length hist)%nat sts;
  gi_locks : forall l, valid_lock l -> lock_inv (w_shared w) Ls l;
  gi_guards : w_guards w = length (filter (fun L => k_guard L = true) Ls);
  gi_data : dinv w g;
  gi_local : forall i L st, Ls !! i = Some L -> sts !! i = Some st -> linv w g hist st L;
  gi_cross : forall i j Li Lj m0 safe t, Ls !! i = Some Li -> Ls !! j = Some Lj ->
    k_ck Li = Some (m0, safe) -> k_tx Lj = Some t -> t_slot t <> 0%nat ->
    safe (t_slot t) <= t_max t
}.

(** ** Lemmas on logs *)

Lemma last_image_app p a b :
  last_image p (a ++ b) =
  match last_image p b with Some x => Some x | None => last_image p a end.
Proof.
  induction a as [|[q v] a IH]; simpl; [by destruct (last_image p b)|].
  rewrite IH. by destruct (last_image p b).
Qed.

Lemma last_image_None p l : last_image p l = None <-> p ∉ l.*1.
Proof.
  induction l as [|[q v] l IH]; simpl; [split; [intros _; apply not_elem_of_nil|done]|].
  rewrite not_elem_of_cons, <- IH. destruct (last_image p l); [naive_solver|].
  destruct (Z.eqb_spec q p); naive_solver.
Qed.

Lemma last_image_at l p (n : nat) v :
  l !! n = Some (p, v) -> p ∉ (drop (S n) l).*1 -> last_image p l = Some v.
Proof.
  intros Hn Hd. rewrite <- (take_drop_middle l n (p, v) Hn), last_image_app. cbn [last_image].
  apply last_image_None in Hd. rewrite Hd. by rewrite Z.eqb_refl.
Qed.

Lemma take_split {A} (l : list A) (a b : Z) :
  a <= b ->
  take (Z.to_nat b) l =
  take (Z.to_nat a) l ++ take (Z.to_nat b - Z.to_nat a) (drop (Z.to_nat a) l).
Proof.
  intros. rewrite take_take_drop. f_equal. lia.
Qed.

(** Without frames in between, the versions agree. *)
Lemma version_untouched base log p a b :
  0 <= a <= b -> ~ touched log p a b -> version base log b p = version base log a p.
Proof.
  intros Hab Ht. unfold version. rewrite (take_split log a b) by lia.
  rewrite last_image_app.
  assert (last_image p (take (Z.to_nat b - Z.to_nat a) (drop (Z.to_nat a) log)) = None) as ->;
    [|done].
  apply last_image_None. intros Hin. apply Ht.
  apply list_elem_of_fmap in Hin as ([q v] & -> & Hin).
  apply list_elem_of_lookup in Hin as [j Hj].
  apply lookup_take_Some in Hj as [Hj Hlt]. rewrite lookup_drop in Hj.
  exists (a + Z.of_nat j + 1), v. split; [lia|].
  by replace (Z.to_nat (a + Z.of_nat j + 1 - 1)) with (Z.to_nat a + j)%nat by lia.
Qed.

(** The latest frame of a page holds its version. *)
Lemma version_latest base log p f n v :
  1 <= f <= n -> log !! Z.to_nat (f - 1) = Some (p, v) -> ~ touched log p f n ->
  version base log n p = Some v.
Proof.
  intros Hf Hl Ht. rewrite (version_untouched base log p f n) by (done || lia).
  unfold version.
  assert (last_image p (take (Z.to_nat f) log) = Some v) as ->; [|done].
  apply (last_image_at _ p (Z.to_nat (f - 1))).
  - rewrite lookup_take_lt by lia. done.
  - rewrite drop_ge; [apply not_elem_of_nil|]. rewrite length_take. lia.
Qed.

Definition same_prefix (a b : list frame) (n : Z) : Prop :=
  take (Z.to_nat n) a = take (Z.to_nat n) b.

Lemma same_prefix_lookup a b n f :
  same_prefix a b n -> 1 <= f <= n ->
  a !! Z.to_nat (f - 1) = b !! Z.to_nat (f - 1).
Proof.
  intros H Hf. rewrite <- (lookup_take_lt a (Z.to_nat n)), H, lookup_take_lt by lia. done.
Qed.

Lemma same_prefix_le a b n m : same_prefix a b n -> m <= n -> same_prefix a b m.
Proof.
  unfold same_prefix. intros H Hm.
  replace (Z.to_nat m) with (Z.to_nat m `min` Z.to_nat n)%nat by lia.
  by rewrite <- !take_take, H.
Qed.

Lemma same_prefix_version base a b n m p :
  same_prefix a b n -> m <= n -> version base a m p = version base b m p.
Proof. intros H Hm. unfold version. by rewrite (same_prefix_le a b n m H Hm). Qed.

Lemma same_prefix_touched a b n p lo hi :
  same_prefix a b n -> 0 <= lo -> hi <= n -> touched a p lo hi -> touched b p lo hi.
Proof.
  intros H Hlo Hhi (f & v & Hf & Hl). exists f, v. split; [done|].
  rewrite <- (same_prefix_lookup a b n f) by (done || lia). done.
Qed.

Lemma same_prefix_sym a b n : same_prefix a b n -> same_prefix b a n.
Proof. by unfold same_prefix. Qed.

(** ** Lemmas on locks *)

Lemma cnt_insert h l Ls i L L' :
  Ls !! i = Some L ->
  cnt h l (<[i := L']> Ls) =
  cnt h l Ls - (if decide (k_hold L l = h) then 1 else 0)
             + (if decide (k_hold L' l = h) then 1 else 0).
Proof.
  intros Hi. unfold cnt, lenZ.
  rewrite <- (take_drop_middle Ls i L Hi) at 2.
  rewrite insert_take_drop by (by eapply lookup_lt_Some).
  rewrite !filter_app, !filter_cons, !length_app.
  repeat case_decide; cbn [length]; lia.
Qed.

Lemma cnt_pos h l Ls i L : Ls !! i = Some L -> k_hold L l = h -> 1 <= cnt h l Ls.
Proof.
  intros Hi Hh. unfold cnt, lenZ. rewrite <- (take_drop_middle Ls i L Hi).
  rewrite filter_app, filter_cons_True, length_app by done. cbn [length]. lia.
Qed.

Lemma cnt_bounds h l Ls : 0 <= cnt h l Ls <= lenZ Ls.
Proof. unfold cnt, lenZ. pose proof (length_filter (fun L => k_hold L l = h) Ls). lia. Qed.

Lemma cnt_two l Ls i j Li Lj :
  Ls !! i = Some Li -> Ls !! j = Some Lj -> i <> j ->
  k_hold Li l = HWrite -> k_hold Lj l = HWrite -> 2 <= cnt HWrite l Ls.
Proof.
  intros Hi Hj Hne Hhi Hhj.
  pose proof (cnt_insert HWrite l Ls i Li know_nothing Hi) as Hins.
  rewrite decide_True, decide_False in Hins by done.
  assert (<[i := know_nothing]> Ls !! j = Some Lj) as Hj' by by rewrite list_lookup_insert_ne.
  pose proof (cnt_pos HWrite l _ j Lj Hj' Hhj). lia.
Qed.

Lemma cnt_same h l Ls i L L' :
  Ls !! i = Some L -> k_hold L' l = k_hold L l -> cnt h l (<[i := L']> Ls) = cnt h l Ls.
Proof. intros Hi Hh. rewrite (cnt_insert h l Ls i L L' Hi), Hh. lia. Qed.

(** The holders exclude each other. *)
Lemma lock_inv_writer s Ls l i j Li Lj :
  lock_inv s Ls l -> Ls !! i = Some Li -> Ls !! j = Some Lj -> i <> j ->
  k_hold Li l = HWrite -> k_hold Lj l = HNone.
Proof.
  intros (v & _ & _ & Hx) Hi Hj Hne Hw.
  destruct (k_hold Lj l) eqn:E; [done| |].
  - pose proof (cnt_pos HRead l Ls j Lj Hj E). pose proof (cnt_pos HWrite l Ls i Li Hi Hw). lia.
  - pose proof (cnt_two l Ls i j Li Lj Hi Hj Hne Hw E). lia.
Qed.

(** The fields of a word under the invariant. *)
Lemma lock_inv_fields s Ls l :
  lenZ Ls < 2147483647 -> lock_inv s Ls l ->
  exists v, lock_word s l = Some (enc v (cnt HRead l Ls) (cnt HWrite l Ls)) /\
    fields_ok v (cnt HRead l Ls) (cnt HWrite l Ls) /\ cnt HRead l Ls < 2147483647 /\
    (cnt HWrite l Ls = 0 \/ cnt HWrite l Ls = 1 /\ cnt HRead l Ls = 0).
Proof.
  intros Hs (v & Hw & Hv & Hx). exists v. unfold fields_ok.
  pose proof (cnt_bounds HRead l Ls). pose proof (cnt_bounds HWrite l Ls).
  split_and!; try done; lia.
Qed.

Lemma lock_word_set s l l' x :
  valid_lock l -> length (r_read_locks (runtime s)) = 5%nat ->
  lock_word (set_lock_word s l x) l' = if decide (l' = l) then Some x else lock_word s l'.
Proof.
  intros Hv Hlen. destruct (decide (l' = l)) as [->|Hne].
  - destruct l; try done. cbn in *. apply list_lookup_insert_eq. lia.
  - destruct l, l'; try done. cbn. apply list_lookup_insert_ne. congruence.
Qed.

(** A step that only concerns lock [l]: its word becomes [x], the holder [i]
    goes from [L] to [L']. *)
Lemma lock_inv_step s Ls l i L L' v :
  length (r_read_locks (runtime s)) = 5%nat -> valid_lock l ->
  Ls !! i = Some L -> is_u32 v ->
  (forall l', valid_lock l' -> lock_inv s Ls l') ->
  (forall l', l' <> l -> k_hold L' l' = k_hold L l') ->
  let Ls' := <[i := L']> Ls in
  (cnt HWrite l Ls' = 0 \/ cnt HWrite l Ls' = 1 /\ cnt HRead l Ls' = 0) ->
  forall l', valid_lock l' ->
  lock_inv (set_lock_word s l (enc v (cnt HRead l Ls') (cnt HWrite l Ls'))) Ls' l'.
Proof.
  intros Hlen Hv Hi Hu Hinv Hother Ls' Hx l' Hl'.
  destruct (decide (l' = l)) as [->|Hne].
  - exists v. rewrite lock_word_set, decide_True by done. done.
  - destruct (Hinv l' Hl') as (v' & Hw & Hv' & Hx').
    exists v'. rewrite lock_word_set, decide_False by done.
    unfold Ls'. rewrite !(cnt_same _ l' Ls i L L') by (done || by apply Hother). done.
Qed.

(** ** Steps of one connection *)

Definition guards (Ls : list know) : nat := length (filter (fun L => k_guard L = true) Ls).

Lemma guards_insert Ls i L L' :
  Ls !! i = Some L ->
  (guards (<[i := L']> Ls) + (if k_guard L then 1 else 0) =
   guards Ls + (if k_guard L' then 1 else 0))%nat.
Proof.
  intros Hi. unfold guards. rewrite <- (take_drop_middle Ls i L Hi) at 2.
  rewrite insert_take_drop by (by eapply lookup_lt_Some).
  rewrite !filter_app, !filter_cons, !length_app.
  destruct (k_guard L), (k_guard L'); repeat case_decide; cbn [length]; done || lia.
Qed.

Lemma guards_same Ls i L L' :
  Ls !! i = Some L -> k_guard L' = k_guard L -> guards (<[i := L']> Ls) = guards Ls.
Proof.
  intros Hi Hg. pose proof (guards_insert Ls i L L' Hi) as H. rewrite Hg in H.
  destruct (k_guard L); lia.
Qed.

Lemma guards_pos Ls i L : Ls !! i = Some L -> k_guard L = true -> (1 <= guards Ls)%nat.
Proof.
  intros Hi Hg. unfold guards. rewrite <- (take_drop_middle Ls i L Hi).
  rewrite filter_app, filter_cons_True, length_app by done. cbn [length]. lia.
Qed.

Definition cross (Ls : list know) : Prop :=
  forall i j Li Lj m0 safe t, Ls !! i = Some Li -> Ls !! j = Some Lj ->
    k_ck Li = Some (m0, safe) -> k_tx Lj = Some t -> t_slot t <> 0%nat ->
    safe (t_slot t) <= t_max t.

Lemma seen_hist w g hist hist' st n :
  seen w g hist st n -> seen w g (hist ++ hist') st n.
Proof.
  intros (i & wi & Hi & Hl & Hp). exists i, wi. split_and!; try done.
  by apply lookup_app_l_Some.
Qed.

(** The parts of the state that the knowledge of a connection reads. *)
Definition same_data (w w' : world) : Prop :=
  meta w' = meta w /\ w_log w' = w_log w /\ w_db w' = w_db w.

Lemma linv_quiet w w' g hist hist' st L :
  linv w g hist st L -> same_data w w' ->
  (forall s v, k_mark L s = Some v -> mark_of w s = Some v -> mark_of w' s = Some v) ->
  linv w' g (hist ++ hist') st L.
Proof.
  intros [Hm Hc Hme Hlo Htx Hwr Hck Htd] (Em & El & Ed) Hmark.
  assert (snapshot_of (w_shared w') = snapshot_of (w_shared w)) as Es
    by (unfold snapshot_of; by rewrite Em).
  constructor.
  - intros s v Hs. destruct (Hm s v Hs). eauto.
  - intros s Hs. rewrite Es. eauto.
  - rewrite Em. done.
  - rewrite Em. done.
  - intros t Ht. destruct (Htx t Ht) as [? ? ? ? ? ? Hse].
    constructor; rewrite ?Em, ?El; try done.
    intros Hle. apply seen_hist. destruct (Hse Hle) as (i & wi & ? & ? & Hp).
    exists i, wi. rewrite El. done.
  - rewrite El. done.
  - rewrite Em. done.
  - unfold todo_ok. rewrite Em, El, Ed. done.
Qed.

Lemma ginv_update w w' hist sts Ls g g' i L L' st :
  ginv w hist sts Ls g -> Ls !! i = Some L -> sts !! i = Some st ->
  (forall l, valid_lock l -> lock_inv (w_shared w') (<[i := L']> Ls) l) ->
  w_guards w' = guards (<[i := L']> Ls) ->
  dinv w' g' ->
  linv w' g' (hist ++ [w']) st L' ->
  (forall j Lj stj, j <> i -> Ls !! j = Some Lj -> sts !! j = Some stj ->
     linv w g hist stj Lj -> linv w' g' (hist ++ [w']) stj Lj) ->
  cross (<[i := L']> Ls) ->
  ginv w' (hist ++ [w']) sts (<[i := L']> Ls) g'.
Proof.
  intros [Hs Hl Hh Hlk Hg Hd Hlo Hc] Hi Hst Hlk' Hg' Hd' HL' Hoth Hc'.
  constructor; try done.
  - unfold lenZ in *. by rewrite length_insert.
  - by rewrite length_insert.
  - split; [by rewrite last_snoc|]. destruct Hh as [_ Hf].
    eapply Forall_impl; [exact Hf|]. intros x Hx. cbn in *. rewrite length_app. simpl. lia.
  - intros j Lj stj Hj Hstj. destruct (decide (j = i)) as [->|Hne].
    + rewrite list_lookup_insert_eq in Hj by (by eapply lookup_lt_Some). by simplify_eq.
    + rewrite list_lookup_insert_ne in Hj by done. eauto.
Qed.

(** The knowledge of a connection changes without an access. *)
Lemma ginv_relearn w hist sts Ls g i L L' st :
  ginv w hist sts Ls g -> Ls !! i = Some L -> sts !! i = Some st ->
  (forall l, k_hold L' l = k_hold L l) -> k_guard L' = k_guard L ->
  linv w g hist st L' -> cross (<[i := L']> Ls) ->
  ginv w hist sts (<[i := L']> Ls) g.
Proof.
  intros [Hs Hl Hh Hlk Hg Hd Hlo Hc] Hi Hst Hhold Hgu HL' Hc'.
  constructor; try done.
  - unfold lenZ in *. by rewrite length_insert.
  - by rewrite length_insert.
  - intros l Hv. destruct (Hlk l Hv) as (v & Hw & Hu & Hx). exists v.
    rewrite !(cnt_same _ l Ls i L L') by done. done.
  - change (length _) with (guards (<[i:=L']> Ls)). rewrite Hg.
    by rewrite (guards_same Ls i L L' Hi Hgu).
  - intros j Lj stj Hj Hstj. destruct (decide (j = i)) as [->|Hne].
    + rewrite list_lookup_insert_eq in Hj by (by eapply lookup_lt_Some). by simplify_eq.
    + rewrite list_lookup_insert_ne in Hj by done. eauto.
Qed.

(** The bounds between checkpoints and transactions when neither the bounds
    of [i] rise nor its transaction moves back. *)
Lemma cross_keep Ls i L L' :
  cross Ls -> Ls !! i = Some L ->
  (forall m0 safe, k_ck L' = Some (m0, safe) -> k_ck L = Some (m0, safe)) ->
  (forall t', k_tx L' = Some t' -> exists t, k_tx L = Some t /\ t_slot t = t_slot t' /\
     t_max t <= t_max t') ->
  cross (<[i := L']> Ls).
Proof.
  intros Hc Hi Hck Htx a b La Lb m0 safe t Ha Hb Hka Htb Hne.
  assert (exists La0, Ls !! a = Some La0 /\ k_ck La0 = Some (m0, safe)) as (La0 & Ha0 & Hk0).
  { apply list_lookup_insert_Some in Ha as [(-> & -> & _)|[_ Ha]]; eauto. }
  apply list_lookup_insert_Some in Hb as [(-> & -> & _)|[_ Hb]];
    [|by apply (Hc a b La0 Lb m0 safe t)].
  destruct (Htx t Htb) as (t0 & Ht0 & Hsl & Hle).
  rewrite <- Hsl in Hne |- *. transitivity (t_max t0); [|done].
  by apply (Hc a b La0 L m0 safe t0).
Qed.

Lemma cross_same Ls i L L' :
  cross Ls -> Ls !! i = Some L ->
  k_ck L' = k_ck L \/ k_ck L' = None -> k_tx L' = k_tx L \/ k_tx L' = None ->
  cross (<[i := L']> Ls).
Proof.
  intros Hc Hi Hck Htx. apply (cross_keep Ls i L); [done..| |].
  - intros m0 safe H. destruct Hck as [E|E]; rewrite E in H; done.
  - intros t H. destruct Htx as [E|E]; rewrite E in H; [|done]. exists t. done.
Qed.

Lemma ginv_cross w hist sts Ls g : ginv w hist sts Ls g -> cross Ls.
Proof. intros H. exact (gi_cross _ _ _ _ _ H). Qed.

Lemma ginv_start w hist sts Ls g i L :
  ginv w hist sts Ls g -> Ls !! i = Some L -> exists st, sts !! i = Some st.
Proof.
  intros H Hi. apply lookup_lt_is_Some. rewrite (gi_len _ _ _ _ _ H).
  by eapply lookup_lt_Some.
Qed.
