(* ===== verification/WalSound.v ===== *)
(** * WalSound: every access keeps the WAL invariant

    The soundness of the program logic of [WalLogic]: for each access, from
    the invariant and the precondition the access does not fail, it teaches
    what [apost] says and it re-establishes the invariant; the committed
    database changes only when a commit is published. *)

From stdpp Require Import gmap.
From S2P Require Import Prelude OnDisk RwLock WalFormat WalShared WalProg WalLogic.

(** ** What soundness of an access says *)

Definition is_publish (e : act) : bool :=
  match e with APublishCommit _ _ _ => true | _ => false end.

Definition stepped (e : act) (w : world) (hist : list world) (sts : list start) (Ls : list know)
    (i : nat) (L : know) (r : resp e) (w' : world) : Prop :=
  exists L' g', apost e L r L' /\ ginv w' (hist ++ [w']) sts (<[i := L']> Ls) g' /\
    (is_publish e = false -> forall p, committed w' p = committed w p).

Definition sound (e : act) : Prop :=
  forall w hist sts Ls g i L,
  ginv w hist sts Ls g -> Ls !! i = Some L -> apre e L ->
  match exec e w with
  | None => True
  | Some (Ok (r, w')) => stepped e w hist sts Ls i L r w'
  | Some _ => False
  end.

(** A connection that may take a new snapshot. *)
Definition flexible (sts : list start) (i : nat) : Prop :=
  forall st, sts !! i = Some st -> st_exact st = None.

Definition flex_sound (e : act) : Prop :=
  forall w hist sts Ls g i L,
  flexible sts i -> ginv w hist sts Ls g -> Ls !! i = Some L -> apre e L ->
  match exec e w with
  | None => True
  | Some (Ok (r, w')) => stepped e w hist sts Ls i L r w'
  | Some _ => False
  end.

(** ** Lock words *)

Lemma set_lock_word_id s l x : lock_word s l = Some x -> set_lock_word s l x = s.
Proof.
  destruct s as [m []], l; cbn; intros H; simplify_eq; try done.
  unfold set_lock_word, with_runtime, set_read_locks. cbn. by rewrite list_insert_id.
Qed.

Lemma with_shared_id w : with_shared w (w_shared w) = w.
Proof. by destruct w. Qed.

Lemma same_data_lock w l x : same_data w (with_shared w (set_lock_word (w_shared w) l x)).
Proof. done. Qed.

Lemma dinv_lock w g l x :
  valid_lock l -> dinv w g -> dinv (with_shared w (set_lock_word (w_shared w) l x)) g.
Proof.
  intros Hv []. destruct l; constructor; try done; cbn; by rewrite ?length_insert.
Qed.

Lemma mark_of_lock_ne w l x s :
  valid_lock l -> length (r_read_locks (runtime (w_shared w))) = 5%nat -> LRead s <> l ->
  mark_of (with_shared w (set_lock_word (w_shared w) l x)) s = mark_of w s.
Proof.
  intros Hv Hlen Hne. unfold mark_of. cbn [with_shared w_shared].
  by rewrite lock_word_set, decide_False by done.
Qed.

Lemma mark_of_lock_eq w x s :
  (s < 5)%nat -> length (r_read_locks (runtime (w_shared w))) = 5%nat ->
  mark_of (with_shared w (set_lock_word (w_shared w) (LRead s) x)) s = Some (get_value x).
Proof.
  intros Hs Hlen. unfold mark_of. cbn [with_shared w_shared].
  by rewrite lock_word_set, decide_True by done.
Qed.

(** Knowledge about marks survives a change of lock [l] that keeps the value
    stored in it, or that only the holder could see. *)
Lemma linv_lock w g hist hist' st L l v R W v' R' W' :
  linv w g hist st L -> valid_lock l ->
  length (r_read_locks (runtime (w_shared w))) = 5%nat ->
  lock_word (w_shared w) l = Some (enc v R W) -> fields_ok v R W -> fields_ok v' R' W' ->
  (v' = v \/ k_hold L l = HNone) ->
  linv (with_shared w (set_lock_word (w_shared w) l (enc v' R' W'))) g (hist ++ hist') st L.
Proof.
  intros HL Hv Hlen Hw Hf Hf' Hcase. eapply linv_quiet; [exact HL|apply same_data_lock|].
  intros s x Hm Hx. destruct (decide (LRead s = l)) as [<-|Hne].
  - rewrite mark_of_lock_eq by done. rewrite get_value_enc by done.
    destruct (li_mark _ _ _ _ _ HL s x Hm) as [Hh _].
    destruct Hcase as [->|?]; [|done]. unfold mark_of in Hx. rewrite Hw in Hx. cbn in Hx.
    by rewrite get_value_enc in Hx.
  - by rewrite mark_of_lock_ne.
Qed.

(** A step on lock [l] by connection [i]. *)
Lemma lock_step w hist sts Ls g i L L' st l v v' x :
  ginv w hist sts Ls g -> Ls !! i = Some L -> sts !! i = Some st -> valid_lock l ->
  lock_word (w_shared w) l = Some (enc v (cnt HRead l Ls) (cnt HWrite l Ls)) ->
  fields_ok v (cnt HRead l Ls) (cnt HWrite l Ls) -> is_u32 v' ->
  (v' = v \/ k_hold L l = HWrite) ->
  (forall l', l' <> l -> k_hold L' l' = k_hold L l') -> k_guard L' = k_guard L ->
  let Ls' := <[i := L']> Ls in
  x = enc v' (cnt HRead l Ls') (cnt HWrite l Ls') ->
  (cnt HWrite l Ls' = 0 \/ cnt HWrite l Ls' = 1 /\ cnt HRead l Ls' = 0) ->
  let w' := with_shared w (set_lock_word (w_shared w) l x) in
  linv w' g (hist ++ [w']) st L' -> cross Ls' ->
  ginv w' (hist ++ [w']) sts Ls' g /\ forall p, committed w' p = committed w p.
Proof.
  intros HG Hi Hst Hv Hw Hf Hv' Hcase Hother Hgu Ls' -> Hx w' HL' Hc'.
  pose proof (di_slots _ _ (gi_data _ _ _ _ _ HG)) as Hlen.
  assert (fields_ok v' (cnt HRead l Ls') (cnt HWrite l Ls')) as Hf'.
  { pose proof (cnt_bounds HRead l Ls'). pose proof (gi_size _ _ _ _ _ HG).
    unfold fields_ok, Ls', lenZ in *. rewrite length_insert in *. split_and!; try done; lia. }
  split; [|done].
  apply (ginv_update w w' hist sts Ls g g i L L' st); try done.
  - apply (lock_inv_step _ Ls l i L L' v'); try done. apply (gi_locks _ _ _ _ _ HG).
  - rewrite (guards_same Ls i L L') by done. exact (gi_guards _ _ _ _ _ HG).
  - apply dinv_lock; [done|]. exact (gi_data _ _ _ _ _ HG).
  - intros j Lj stj Hne Hj Hstj HLj.
    eapply linv_lock; try done.
    destruct Hcase as [?|Hh]; [by left|right].
    eapply lock_inv_writer; [by apply (gi_locks _ _ _ _ _ HG)| | | |exact Hh]; done.
Qed.

(** A lock gained is only more knowledge. *)
Lemma linv_gain w g hist st L o l m :
  linv w g hist st L -> lock_pre o (k_hold L l) -> (l = LWrite -> o = OpWrite) ->
  m = meta w -> linv w g hist st (learn_lock L o l (Some m)).
Proof.
  intros [Hm Hc Hme Hlo Htx Hwr Hck Htd] Hpre Hw ->.
  set (L' := learn_lock L o l (Some (meta w))).
  assert (k_hold L' = upd (k_hold L) l (locked o)) as Eh by by destruct l.
  assert (k_mark L' = k_mark L /\ k_tx L' = k_tx L /\ k_cur L' = k_cur L /\
          k_guard L' = k_guard L /\ k_load L' = k_load L /\ k_todo L' = k_todo L /\
          k_wr L' = k_wr L) as (Em & Et & Ec & Eg & El & Ed & Ew) by by destruct l.
  assert (forall l', k_hold L l' <> HNone -> k_hold L' l' <> HNone) as Hmono.
  { intros l' Hl'. rewrite Eh. unfold upd. case_decide; [by destruct o|done]. }
  assert (ckpt_locked L = true -> ckpt_locked L' = true) as Hckl.
  { unfold ckpt_locked. rewrite !andb_true_iff, !bool_decide_eq_true, Eh. intros [H1 H2].
    unfold upd. repeat case_decide; subst; try done.
    - rewrite H1 in Hpre. by destruct o.
    - rewrite H2 in Hpre. by destruct o. }
  assert (is_Some (k_meta L) -> is_Some (k_meta L')) as Hms by (destruct l; cbn; eauto).
  constructor; rewrite ?Em, ?Et, ?Ec, ?Eg, ?El, ?Ed, ?Ew.
  - intros s v Hs. destruct (Hm s v Hs). eauto.
  - done.
  - destruct l; cbn [L' learn_lock set_hold set_meta set_ckpt k_meta k_hold].
    + rewrite !upd_ne by done. done.
    + rewrite upd_eq, Hw by done. split; [done|]. split; [done|]. by destruct (meta w).
    + rewrite !upd_ne by done. done.
    + rewrite !upd_ne by done. done.
  - intros nb m H. destruct (Hlo nb m H) as (? & ? & ?). eauto.
  - intros t Ht. destruct (Htx t Ht) as [[? ?] ? ? ? Hmx Hmk Hse]. constructor; try done.
    + eauto.
    + destruct Hmx; [by left|right; eauto].
    + rewrite Em. done.
  - intros j x Hj. destruct (Hwr j x Hj) as (t & ? & ? & ?). eauto.
  - intros m0 safe Hk.
    assert (exists safe0, k_ck L = Some (m0, safe0) /\
      forall s, safe s <= Z.max m0 (safe0 s)) as (safe0 & Hk0 & Hs).
    { destruct l as [s| | |]; [|by exists safe; split; [done|]; intros; lia ..].
      cbn in Hk. destruct o; [by exists safe; split; [done|]; intros; lia| |
        by exists safe; split; [done|]; intros; lia].
      destruct (k_ck L) as [[m1 safe1]|]; [|done]. cbn in Hk. simplify_eq.
      exists safe1. split; [done|]. intros s'. unfold upd. case_decide; lia. }
    destruct (Hck m0 safe0 Hk0) as (? & Hn & ? & Hs0). split_and!; eauto.
    + unfold tx_at. by rewrite Et.
    + intros s. specialize (Hs s). specialize (Hs0 s). lia.
  - intros m l' H. destruct (Htd m l' H). eauto.
Qed.

Lemma cross_raise Ls i L L' s v :
  cross Ls -> Ls !! i = Some L ->
  k_ck L' = raise_ck (k_ck L) s v -> k_tx L' = k_tx L ->
  (forall m0 safe j Lj t, k_ck L = Some (m0, safe) -> Ls !! j = Some Lj -> k_tx Lj = Some t ->
     t_slot t = s -> t_slot t <> 0%nat -> v m0 <= t_max t) ->
  cross (<[i := L']> Ls).
Proof.
  intros Hc Hi Hck Htx Hv a b La Lb m0 safe t Ha Hb Hka Htb Hne.
  assert (exists Lb0, Ls !! b = Some Lb0 /\ k_tx Lb0 = Some t) as (Lb0 & Hb0 & Ht0).
  { apply list_lookup_insert_Some in Hb as [(-> & <- & _)|[_ Hb]]; [|eauto].
    exists L. by rewrite <- Htx. }
  apply list_lookup_insert_Some in Ha as [(-> & <- & _)|[_ Ha]].
  - rewrite Hck in Hka. destruct (k_ck L) as [[m1 safe1]|] eqn:E; [|done].
    cbn in Hka. simplify_eq. unfold upd. case_decide as Hs.
    + by apply (Hv m0 safe1 b Lb0 t).
    + by apply (Hc a b L Lb0 m0 safe1 t).
  - by apply (Hc a b La Lb0 m0 safe t).
Qed.

Lemma cnt_zero h l Ls i L : cnt h l Ls = 0 -> Ls !! i = Some L -> k_hold L l <> h.
Proof. intros H0 Hi Hh. pose proof (cnt_pos h l Ls i L Hi Hh). lia. Qed.

(** Nobody has a transaction on a free slot. *)
Lemma free_slot_no_tx w hist sts Ls g s j Lj t :
  ginv w hist sts Ls g -> cnt HRead (LRead s) Ls = 0 -> cnt HWrite (LRead s) Ls = 0 ->
  Ls !! j = Some Lj -> k_tx Lj = Some t -> t_slot t <> s.
Proof.
  intros HG Hr Hw Hj Ht <-.
  destruct (ginv_start _ _ _ _ _ _ _ HG Hj) as [st Hst].
  destruct (li_tx _ _ _ _ _ (gi_local _ _ _ _ _ HG j Lj st Hj Hst) t Ht) as [[_ Hh] _ _ _ _ _ _].
  pose proof (cnt_zero _ _ _ _ _ Hr Hj). pose proof (cnt_zero _ _ _ _ _ Hw Hj).
  by destruct (k_hold Lj (LRead (t_slot t))).
Qed.

(** The word, the outcome of the attempt and the counts after it. *)
Lemma lock_call_enc o v r b h :
  fields_ok v r b -> r < 2147483647 -> (b = 0 \/ b = 1 /\ r = 0) -> lock_pre o h ->
  (h = HRead -> 0 < r) ->
  match lock_call o (enc v r b) with
  | (true, y) =>
      (o = OpWrite -> r = 0 /\ b = 0 /\ h = HNone) /\
      y = enc v (match o with OpRead => r + 1 | _ => 0 end)
                (match o with OpRead => b | _ => 1 end) /\
      match o with OpRead => b = 0 | OpWrite => True | OpUpgrade => r = 1 /\ b = 0 end
  | (false, y) => y = enc v r b
  end.
Proof.
  intros Hf Hr Hx Hp Hh. unfold lock_call, lock_read, lock_write, lock_upgrade, cas_result.
  destruct o; cbn in Hp.
  - rewrite read_desired_enc by done. destruct (Z.eqb_spec b 1); [done|].
    split_and!; done || lia.
  - rewrite write_desired_enc by done.
    destruct (Z.eqb_spec b 1), (Z.ltb_spec 0 r); cbn [orb]; try done.
    destruct Hf as (_ & ? & ?). split_and!; try done; try lia.
    intros _. split_and!; try lia. destruct h; try done. specialize (Hh eq_refl). lia.
  - rewrite upgrade_desired_enc by done.
    destruct (Z.eqb_spec b 0), (Z.eqb_spec r 1); cbn [andb]; try done.
Qed.

Lemma ginv_same w hist sts Ls g i L :
  ginv w hist sts Ls g -> Ls !! i = Some L -> ginv w (hist ++ [w]) sts (<[i := L]> Ls) g.
Proof.
  intros HG Hi. destruct (ginv_start _ _ _ _ _ _ _ HG Hi) as [st Hst].
  rewrite list_insert_id by done. destruct HG as [Hs Hl Hh Hlk Hg Hd Hlo Hc].
  constructor; try done.
  - split; [by rewrite last_snoc|]. destruct Hh as [_ Hf].
    eapply Forall_impl; [exact Hf|]. intros x Hx. cbn in *. rewrite length_app. simpl. lia.
  - intros j Lj stj Hj Hstj. eapply linv_quiet; [by eapply Hlo|done|done].
Qed.

Lemma sound_try o l : sound (ATry o l).
Proof.
  intros w hist sts Ls g i L HG Hi (Hv & Hpre & Hwr).
  destruct (ginv_start _ _ _ _ _ _ _ HG Hi) as [st Hst].
  destruct (lock_inv_fields _ Ls l (gi_size _ _ _ _ _ HG) (gi_locks _ _ _ _ _ HG l Hv))
    as (v & Hw & Hf & Hr & Hx).
  cbn [exec]. rewrite Hw. cbn [unwrap mbind Result_bind].
  assert (k_hold L l = HRead -> 0 < cnt HRead l Ls) as Hpos.
  { intros Hh. pose proof (cnt_pos HRead l Ls i L Hi Hh). lia. }
  pose proof (lock_call_enc o v _ _ (k_hold L l) Hf Hr Hx Hpre Hpos) as Hcall.
  destruct (lock_call o _) as [[] y].
  - destruct Hcall as (Hfree & -> & Ho).
    set (L' := learn_lock L o l (Some (meta w))).
    assert (forall l', k_hold L' l' = upd (k_hold L) l (locked o) l') as Eh by by destruct l.
    pose proof (cnt_insert HRead l Ls i L L' Hi) as HcR.
    pose proof (cnt_insert HWrite l Ls i L L' Hi) as HcW.
    rewrite Eh, upd_eq in HcR, HcW.
    assert (match o with OpRead => cnt HRead l Ls + 1 | _ => 0 end =
            cnt HRead l (<[i := L']> Ls) /\
            match o with OpRead => cnt HWrite l Ls | _ => 1 end =
            cnt HWrite l (<[i := L']> Ls) /\
            (cnt HWrite l (<[i := L']> Ls) = 0 \/
             cnt HWrite l (<[i := L']> Ls) = 1 /\ cnt HRead l (<[i := L']> Ls) = 0))
      as (-> & -> & Hx').
    { rewrite HcR, HcW. destruct o, (k_hold L l); cbn in *; try done; repeat case_decide;
        try done; naive_solver lia. }
    destruct (lock_step w hist sts Ls g i L L' st l v v _ HG Hi Hst Hv Hw Hf (proj1 Hf)
      (or_introl eq_refl)
      (fun l' Hne => eq_trans (Eh l') (upd_ne (k_hold L) l (locked o) l' Hne))
      (ltac:(by destruct l)) eq_refl Hx') as [HG' Hcom].
    + apply linv_gain; [|done..].
      eapply linv_lock; [by eapply (gi_local _ _ _ _ _ HG)|done| |done|done| |by left].
      * apply (di_slots _ _ (gi_data _ _ _ _ _ HG)).
      * pose proof (cnt_bounds HRead l (<[i := L']> Ls)). pose proof (gi_size _ _ _ _ _ HG).
        unfold fields_ok, lenZ in *. rewrite length_insert in *. destruct Hf. split_and!; try done; lia.
    + destruct l as [s| | |], o;
        try (apply (cross_same Ls i L); [exact (ginv_cross _ _ _ _ _ HG)|done|by left|by left]).
      apply (cross_raise Ls i L _ s (fun m0 => m0)); [exact (ginv_cross _ _ _ _ _ HG)|done..|].
      intros m0 safe j Lj t _ Hj Ht Hs. destruct (Hfree eq_refl) as (? & ? & _).
      by destruct (free_slot_no_tx w hist sts Ls g s j Lj t HG).
    + exists L', g. split_and!; [|done|done].
      split; [intros ?; by apply Hfree|]. exists (meta w). split; [|done].
      intros -> t Ht. destruct (Hfree (Hwr eq_refl)) as (_ & _ & Hn).
      destruct (gi_local _ _ _ _ _ HG i L st Hi Hst) as [_ _ Hme _ Htx _ _ _].
      destruct (to_max _ _ _ _ _ _ (Htx t Ht)) as [|[m Em]]; [done|].
      rewrite Em in Hme. destruct Hme. congruence.
  - subst y. cbn. rewrite (set_lock_word_id _ _ _ Hw), with_shared_id.
    exists L, g. split_and!; try done. by apply ginv_same.
Qed.

Lemma frozen_max m now : frozen m now -> m_max_frame m = m_max_frame now.
Proof. intros [_ ->]. done. Qed.

(** Giving up slot [s]. *)
Lemma linv_forget_slot w g hist st L s :
  linv w g hist st L -> linv w g hist st (forget L (LRead s)).
Proof.
  intros [Hm Hc Hme Hlo Htx Hwr Hck Htd].
  set (L' := forget L (LRead s)).
  assert (k_hold L' = upd (k_hold L) (LRead s) HNone /\ k_mark L' = upd (k_mark L) s None /\
          k_cur L' = k_cur L /\ k_guard L' = k_guard L /\ k_meta L' = k_meta L)
    as (Eh & Em & Ec & Eg & Eme).
  { unfold L', forget. cbn. destruct (k_tx L) as [t|]; repeat case_decide; done. }
  assert (forall t, k_tx L' = Some t -> k_tx L = Some t /\ t_slot t <> s) as Et.
  { intros t. unfold L', forget. cbn. destruct (k_tx L) as [t0|] eqn:E; repeat case_decide;
      cbn; rewrite ?E; naive_solver. }
  assert (k_wr L' = [] \/ k_wr L' = k_wr L /\ k_tx L' = k_tx L) as Ew.
  { unfold L', forget. cbn. destruct (k_tx L) as [t0|] eqn:E; repeat case_decide; cbn;
      rewrite ?E; auto. }
  assert ((k_load L' = None /\ k_ck L' = None /\ k_todo L' = None) \/
          (s <> 0%nat /\ k_load L' = k_load L /\ k_ck L' = k_ck L /\ k_todo L' = k_todo L)) as Ek.
  { unfold L', forget. cbn. destruct (k_tx L) as [t0|]; repeat case_decide; cbn; auto. }
  assert (s <> 0%nat -> ckpt_locked L' = ckpt_locked L) as Hckl.
  { intros Hs. unfold ckpt_locked. rewrite Eh, !upd_ne by congruence. done. }
  constructor; rewrite ?Em, ?Ec, ?Eg, ?Eme.
  - intros s' v Hs. rewrite Eh. unfold upd in *. repeat case_decide; try done; [congruence|].
    by apply Hm.
  - done.
  - rewrite Eh, upd_ne by done. done.
  - intros nb m H. destruct Ek as [(E & _)|(Hs & E & _)]; rewrite E in H; [done|].
    rewrite Hckl by done. by apply Hlo.
  - intros t Ht. destruct (Et t Ht) as [Ht0 Hs].
    destruct (Htx t Ht0) as [[? ?] ? ? ? Hmx Hmk Hse]. constructor; try done.
    + rewrite Eh, upd_ne by congruence. done.
    + by rewrite Eme.
    + rewrite Em, upd_ne by done. done.
  - intros j x Hj. destruct Ew as [E|[E1 E2]]; [by rewrite E in Hj|].
    rewrite E1 in Hj. rewrite E2. by apply Hwr.
  - intros m0 safe H. destruct Ek as [(_ & E & _)|(Hs & _ & E & _)]; rewrite E in H; [done|].
    rewrite Hckl by done. destruct (Hck m0 safe H) as (? & Hn & ? & ?). split_and!; try done.
    intros (t & Ht & Hts). apply Hn. exists t. split; [by apply Et|done].
  - intros m l H. destruct Ek as [(_ & _ & E)|(Hs & _ & _ & E)]; rewrite E in H; [done|].
    rewrite Hckl by done. by apply Htd.
Qed.

Lemma linv_forget w g hist st L l :
  linv w g hist st L ->
  (l = LWrite -> forall t, k_tx L = Some t ->
     exists m, k_meta L = Some m /\ t_max t <= m_max_frame m) ->
  linv w g hist st (forget L l).
Proof.
  intros HL Hw. destruct l as [s| | |]; [by apply linv_forget_slot| | |];
    destruct HL as [Hm Hc Hme Hlo Htx Hwr Hck Htd].
  - constructor; cbn; try done.
    + intros t Ht. destruct (Htx t Ht) as [? ? ? ? Hmx Hmk Hse]. constructor; try done.
      left. destruct (Hw eq_refl t Ht) as (m & Hk & Hle). rewrite Hk in Hme.
      destruct Hme as [_ Hfr]. by rewrite (frozen_max _ _ Hfr) in Hle.
  - constructor; cbn; try done. intros t Ht. by destruct (Htx t Ht).
  - constructor; cbn; try done. intros t Ht. by destruct (Htx t Ht).
Qed.

Lemma lock_unlock_enc v r b h :
  fields_ok v r b -> (b = 0 \/ b = 1 /\ r = 0) -> h <> HNone ->
  (h = HRead -> 1 <= r) -> (h = HWrite -> 1 <= b) ->
  lock_unlock (enc v r b) =
  Ok (enc v (r - (if decide (h = HRead) then 1 else 0)) (b - (if decide (h = HWrite) then 1 else 0))).
Proof.
  intros Hf Hx Hh Hr Hb. unfold lock_unlock. destruct h; [done| |].
  - specialize (Hr eq_refl). assert (b = 0) as -> by lia. cbn.
    rewrite unlock_read_enc; [done| | |done|lia].
    + by rewrite has_writer_enc.
    + rewrite has_readers_enc by done. apply Z.ltb_lt. lia.
  - specialize (Hb eq_refl). assert (b = 1 /\ r = 0) as [-> ->] by lia.
    rewrite unlock_write_enc; [done| |apply Hf]. by rewrite has_writer_enc.
Qed.

(** The counts when the hold of [i] on [l] becomes [h]. *)
Lemma cnt_set_hold h' l Ls i L L' :
  Ls !! i = Some L -> k_hold L' l = HNone ->
  h' <> HNone ->
  cnt h' l (<[i := L']> Ls) = cnt h' l Ls - (if decide (k_hold L l = h') then 1 else 0).
Proof.
  intros Hi Hh Hne. rewrite (cnt_insert h' l Ls i L L' Hi), Hh.
  rewrite (decide_False (P := HNone = h')) by congruence. lia.
Qed.

Lemma forget_fields L l :
  k_hold (forget L l) = upd (k_hold L) l HNone /\ k_guard (forget L l) = k_guard L /\
  (k_ck (forget L l) = k_ck L \/ k_ck (forget L l) = None) /\
  (k_tx (forget L l) = k_tx L \/ k_tx (forget L l) = None).
Proof.
  unfold forget. destruct l; cbn; try by auto 10.
  destruct (k_tx L) as [t|] eqn:E; repeat case_decide; cbn; rewrite ?E; auto 10.
Qed.

(** The fields of the new word, from the bounds on the counts. *)
Lemma counts_fields w hist sts Ls g i L l v :
  ginv w hist sts Ls g -> is_u32 v ->
  (cnt HWrite l (<[i := L]> Ls) = 0 \/
   cnt HWrite l (<[i := L]> Ls) = 1 /\ cnt HRead l (<[i := L]> Ls) = 0) ->
  fields_ok v (cnt HRead l (<[i := L]> Ls)) (cnt HWrite l (<[i := L]> Ls)).
Proof.
  intros HG Hv Hx. pose proof (cnt_bounds HRead l (<[i := L]> Ls)).
  pose proof (gi_size _ _ _ _ _ HG). unfold fields_ok, lenZ in *. rewrite length_insert in *.
  split_and!; try done; lia.
Qed.

Lemma sound_unlock l : sound (AUnlock l).
Proof.
  intros w hist sts Ls g i L HG Hi (Hv & Hh & Hwr).
  destruct (ginv_start _ _ _ _ _ _ _ HG Hi) as [st Hst].
  destruct (lock_inv_fields _ Ls l (gi_size _ _ _ _ _ HG) (gi_locks _ _ _ _ _ HG l Hv))
    as (v & Hw & Hf & Hr & Hx).
  cbn [exec]. unfold update_lock. rewrite Hw. cbn [unwrap mbind Result_bind].
  rewrite (lock_unlock_enc v _ _ (k_hold L l)) by
    (done || intros E; by apply (cnt_pos _ l Ls i L Hi)).
  cbn [mbind Result_bind].
  destruct (forget_fields L l) as (Eh & Eg & Eck & Etx).
  assert (k_hold (forget L l) l = HNone) as El by by rewrite Eh, upd_eq.
  rewrite <- (cnt_set_hold HRead l Ls i L (forget L l)) by done.
  rewrite <- (cnt_set_hold HWrite l Ls i L (forget L l)) by done.
  assert (cnt HWrite l (<[i := forget L l]> Ls) = 0 \/
    cnt HWrite l (<[i := forget L l]> Ls) = 1 /\ cnt HRead l (<[i := forget L l]> Ls) = 0) as Hx'.
  { rewrite !(cnt_set_hold _ l Ls i L (forget L l)) by done.
    destruct (k_hold L l) eqn:E; cbn in *; try done; repeat case_decide; try done;
      pose proof (cnt_pos _ l Ls i L Hi E); lia. }
  exists (forget L l), g. split; [done|].
  destruct (lock_step w hist sts Ls g i L (forget L l) st l v v _ HG Hi Hst Hv Hw Hf (proj1 Hf)
    (or_introl eq_refl) (fun l' Hne => eq_trans (f_equal (fun f => f l') Eh)
      (upd_ne (k_hold L) l HNone l' Hne)) Eg eq_refl Hx') as [HG' Hcom]; [| |done].
  - apply linv_forget; [|done].
    eapply linv_lock; [by eapply (gi_local _ _ _ _ _ HG)|done| |done|done| |by left].
    + apply (di_slots _ _ (gi_data _ _ _ _ _ HG)).
    + by eapply counts_fields; [|apply Hf|].
  - by apply (cross_same Ls i L); [exact (ginv_cross _ _ _ _ _ HG)|..].
Qed.

Lemma sound_downgrade l : sound (ADowngrade l).
Proof.
  intros w hist sts Ls g i L HG Hi (-> & Hh).
  destruct (ginv_start _ _ _ _ _ _ _ HG Hi) as [st Hst].
  set (l := LRead 0) in *. assert (valid_lock l) as Hv by (cbn; lia).
  destruct (lock_inv_fields _ Ls l (gi_size _ _ _ _ _ HG) (gi_locks _ _ _ _ _ HG l Hv))
    as (v & Hw & Hf & Hr & Hx).
  cbn [exec]. unfold update_lock. rewrite Hw. cbn [unwrap mbind Result_bind].
  pose proof (cnt_pos HWrite l Ls i L Hi Hh) as Hp.
  assert (cnt HWrite l Ls = 1 /\ cnt HRead l Ls = 0) as [EW ER] by lia.
  unfold lock_downgrade. rewrite has_writer_enc, downgrade_desired_enc, EW by done.
  cbn [turso_assert Z.eqb Pos.eqb mbind Result_bind].
  set (L' := set_ckpt (set_hold L l HRead) None None None).
  assert (cnt HRead l (<[i := L']> Ls) = 1 /\ cnt HWrite l (<[i := L']> Ls) = 0) as [ER' EW'].
  { rewrite !(cnt_insert _ l Ls i L L' Hi), Hh. cbn [L' set_ckpt set_hold k_hold].
    rewrite upd_eq, EW, ER. done. }
  exists L', g. split; [done|].
  destruct (lock_step w hist sts Ls g i L L' st l v v (enc v 1 0) HG Hi Hst Hv Hw Hf (proj1 Hf)
    (or_introl eq_refl) (fun l' Hne => upd_ne (k_hold L) l HRead l' Hne) eq_refl)
    as [HG' Hcom]; [by rewrite ER', EW'|by left| | |done].
  - assert (linv (with_shared w (set_lock_word (w_shared w) l (enc v 1 0))) g
      (hist ++ [with_shared w (set_lock_word (w_shared w) l (enc v 1 0))]) st L) as HL.
    { eapply linv_lock; [by eapply (gi_local _ _ _ _ _ HG)|done| |done|done| |by left].
      - apply (di_slots _ _ (gi_data _ _ _ _ _ HG)).
      - unfold fields_ok. destruct Hf. split_and!; done || lia. }
    destruct HL as [Hm Hc Hme Hlo Htx Hwr Hck Htd].
    constructor; try done; cbn [L' set_ckpt set_hold k_hold k_meta].
    + intros s x Hs. destruct (Hm s x Hs). split; [|done]. unfold upd. by case_decide.
    + intros t Ht. destruct (Htx t Ht) as [[? ?] ? ? ? Hmx Hmk Hse]. constructor; try done.
      split; [done|]. cbn. unfold upd. by case_decide.
  - apply (cross_same Ls i L); [exact (ginv_cross _ _ _ _ _ HG)|done|by right|by left].
Qed.

(** ** Accesses that change no data *)

(** What a transaction needs of the knowledge of its connection. *)
Lemma tx_ok_know w g hist st L L' t :
  tx_ok w g hist st L t -> k_hold L' = k_hold L -> k_mark L' = k_mark L ->
  (is_Some (k_meta L) -> is_Some (k_meta L')) -> tx_ok w g hist st L' t.
Proof.
  intros [? ? ? ? Hmx ? ?] Eh Em Hme. constructor; rewrite ?Eh, ?Em; try done.
  destruct Hmx; auto.
Qed.

(** A step after which the locks and the data are as before. *)
Lemma quiet_step w w' hist sts Ls g i L L' st :
  ginv w hist sts Ls g -> Ls !! i = Some L -> sts !! i = Some st ->
  same_data w w' -> (forall l, lock_word (w_shared w') l = lock_word (w_shared w) l) ->
  dinv w' g -> (forall l, k_hold L' l = k_hold L l) ->
  w_guards w' = guards (<[i := L']> Ls) ->
  linv w' g (hist ++ [w']) st L' -> cross (<[i := L']> Ls) ->
  ginv w' (hist ++ [w']) sts (<[i := L']> Ls) g /\ forall p, committed w' p = committed w p.
Proof.
  intros HG Hi Hst Hsd Hlw Hd Hh Hg HL' Hc'. split.
  - apply (ginv_update w w' hist sts Ls g g i L L' st); try done.
    + intros l Hv. destruct (gi_locks _ _ _ _ _ HG l Hv) as (v & Hw & Hu & Hx).
      exists v. rewrite Hlw, !(cnt_same _ l Ls i L L') by done. done.
    + intros j Lj stj Hne Hj Hstj HLj. eapply linv_quiet; [done..|].
      intros s v _. unfold mark_of. by rewrite Hlw.
  - intros p. unfold committed. destruct Hsd as (-> & -> & ->). done.
Qed.

(** The same for an access that leaves the world alone. *)
Lemma read_step w hist sts Ls g i L L' st :
  ginv w hist sts Ls g -> Ls !! i = Some L -> sts !! i = Some st ->
  (forall l, k_hold L' l = k_hold L l) -> k_guard L' = k_guard L ->
  (linv w g (hist ++ [w]) st L -> linv w g (hist ++ [w]) st L') -> cross (<[i := L']> Ls) ->
  ginv w (hist ++ [w]) sts (<[i := L']> Ls) g /\ forall p, committed w p = committed w p.
Proof.
  intros HG Hi Hst Hh Hg HL Hc. apply (quiet_step w w hist sts Ls g i L L' st); try done.
  - exact (gi_data _ _ _ _ _ HG).
  - rewrite (guards_same Ls i L L') by done. exact (gi_guards _ _ _ _ _ HG).
  - apply HL. eapply linv_quiet; [by eapply (gi_local _ _ _ _ _ HG)|done|done].
Qed.

Lemma sound_header : sound AHeader.
Proof.
  intros w hist sts Ls g i L HG Hi _. destruct (ginv_start _ _ _ _ _ _ _ HG Hi) as [st Hst].
  exists L, g. split_and!; [cbn; split_and!; [| |done]|by apply ginv_same|done].
  - intros m Hm. pose proof (li_meta _ _ _ _ _ (gi_local _ _ _ _ _ HG i L st Hi Hst)) as H.
    rewrite Hm in H. destruct H as [_ [_ H]]. rewrite H. done.
  - exact (di_header _ _ (gi_data _ _ _ _ _ HG)).
Qed.

Lemma sound_initialized : sound AInitialized.
Proof.
  intros w hist sts Ls g i L HG Hi _. destruct (ginv_start _ _ _ _ _ _ _ HG Hi) as [st Hst].
  exists L, g. split_and!; [cbn; split; [|done]|by apply ginv_same|done].
  intros m Hm. pose proof (li_meta _ _ _ _ _ (gi_local _ _ _ _ _ HG i L st Hi Hst)) as H.
  rewrite Hm in H. destruct H as [_ [_ H]]. rewrite H. done.
Qed.

Lemma sound_wal_file : sound AWalFile.
Proof.
  intros w hist sts Ls g i L HG Hi _.
  destruct (di_open _ _ (gi_data _ _ _ _ _ HG)) as [He Hf].
  cbn [exec]. unfold wal_file. rewrite He, Hf.
  exists L, g. split_and!; [done|by apply ginv_same|done].
Qed.

Lemma sound_bump_epoch : sound ABumpEpoch.
Proof.
  intros w hist sts Ls g i L HG Hi _. destruct (ginv_start _ _ _ _ _ _ _ HG Hi) as [st Hst].
  cbn [exec bump_checkpoint_epoch].
  set (w' := with_shared w _). exists L, g. split; [done|].
  assert (same_data w w') as Hsd by done.
  edestruct (quiet_step w w' hist sts Ls g i L L st) as [HG' Hcom];
    [exact HG|exact Hi|exact Hst|done|by intros []| |done| | | |by split].
  - destruct (gi_data _ _ _ _ _ HG). by constructor.
  - rewrite (guards_same Ls i L L) by done. exact (gi_guards _ _ _ _ _ HG).
  - eapply linv_quiet; [by eapply (gi_local _ _ _ _ _ HG)|done|]. done.
  - rewrite list_insert_id by done. exact (ginv_cross _ _ _ _ _ HG).
Qed.

Lemma sound_shared : sound AShared.
Proof.
  intros w hist sts Ls g i L HG Hi Hg. cbn in Hg.
  destruct (ginv_start _ _ _ _ _ _ _ HG Hi) as [st Hst].
  cbn [exec]. set (w' := mkWorld _ _ _ _). set (L' := set_guard L true None).
  exists L', g. split; [done|].
  pose proof (guards_insert Ls i L L' Hi) as Hgi. rewrite Hg in Hgi. cbn in Hgi.
  edestruct (quiet_step w w' hist sts Ls g i L L' st) as [HG' Hcom];
    [exact HG|exact Hi|exact Hst|done|by intros []| |done| | | |by split].
  - destruct (gi_data _ _ _ _ _ HG). by constructor.
  - cbn. rewrite (gi_guards _ _ _ _ _ HG). fold (guards Ls). lia.
  - assert (linv w' g (hist ++ [w']) st L) as HL
      by (eapply linv_quiet; [by eapply (gi_local _ _ _ _ _ HG)|done|done]).
    destruct HL as [Hm Hc Hme Hlo Htx Hwr Hck Htd]. constructor; try done.
    intros t Ht. by eapply tx_ok_know; [apply Htx|..].
  - apply (cross_same Ls i L); [exact (ginv_cross _ _ _ _ _ HG)|done|by left|by left].
Qed.

Lemma sound_drop_shared : sound ADropShared.
Proof.
  intros w hist sts Ls g i L HG Hi Hg. cbn in Hg.
  destruct (ginv_start _ _ _ _ _ _ _ HG Hi) as [st Hst].
  cbn [exec]. set (w' := mkWorld _ _ _ _). set (L' := set_guard L false None).
  exists L', g. split; [done|].
  pose proof (guards_insert Ls i L L' Hi) as Hgi. rewrite Hg in Hgi. cbn in Hgi.
  edestruct (quiet_step w w' hist sts Ls g i L L' st) as [HG' Hcom];
    [exact HG|exact Hi|exact Hst|done|by intros []| |done| | | |by split].
  - destruct (gi_data _ _ _ _ _ HG). by constructor.
  - cbn. rewrite (gi_guards _ _ _ _ _ HG). fold (guards Ls).
    pose proof (guards_pos Ls i L Hi Hg). lia.
  - assert (linv w' g (hist ++ [w']) st L) as HL
      by (eapply linv_quiet; [by eapply (gi_local _ _ _ _ _ HG)|done|done]).
    destruct HL as [Hm Hc Hme Hlo Htx Hwr Hck Htd]. constructor; try done.
    intros t Ht. by eapply tx_ok_know; [apply Htx|..].
  - apply (cross_same Ls i L); [exact (ginv_cross _ _ _ _ _ HG)|done|by left|by left].
Qed.

Lemma with_nb_frozen m now : frozen m now -> with_nb m (m_nbackfills now) = now.
Proof. intros [_ H]. by rewrite H. Qed.

Lemma learn_snapshot_fields L s :
  let L' := learn_snapshot L s in
  k_hold L' = k_hold L /\ k_mark L' = k_mark L /\ k_guard L' = k_guard L /\
  k_cur L' = (if k_guard L then Some s else None) /\
  k_meta L' = option_map (fun m => with_nb m (s_nbackfills s)) (k_meta L) /\
  k_load L' = (if ckpt_locked L then Some (s_nbackfills s, s_max_frame s) else None) /\
  k_tx L' = k_tx L /\ k_wr L' = k_wr L /\ k_ck L' = k_ck L /\ k_todo L' = k_todo L.
Proof. unfold learn_snapshot. cbn. by destruct (k_meta L) eqn:E; cbn; rewrite ?E. Qed.

Lemma linv_learn_snapshot w g hist st L :
  linv w g hist st L -> linv w g hist st (learn_snapshot L (snapshot_of (w_shared w))).
Proof.
  intros [Hm Hc Hme Hlo Htx Hwr Hck Htd]. set (s := snapshot_of (w_shared w)).
  destruct (learn_snapshot_fields L s) as (Eh & Em & Eg & Ec & Eme & El & Et & Ew & Ek & Ed).
  set (L' := learn_snapshot L s) in *.
  assert (ckpt_locked L' = ckpt_locked L) as Ecl by (unfold ckpt_locked; by rewrite Eh).
  assert (is_Some (k_meta L) -> is_Some (k_meta L')) as Hms
    by (rewrite Eme; intros [m ->]; cbn; eauto).
  constructor; rewrite ?Em, ?Ec, ?El, ?Et, ?Ew, ?Ek, ?Ed, ?Ecl, ?Eh; try done.
  - intros s' H. rewrite Eg. destruct (k_guard L); by simplify_eq.
  - rewrite Eme. destruct (k_meta L) as [m|]; [|done]. cbn. destruct Hme as [? Hf].
    split; [done|]. unfold s. cbn. rewrite (with_nb_frozen _ _ Hf). split; [lia|].
    by destruct (meta w).
  - intros nb m H. destruct (ckpt_locked L); simplify_eq. cbn. split_and!; done || lia.
  - intros t Ht. by eapply tx_ok_know; [apply Htx|..].
  - intros j x Hj. destruct (Hwr j x Hj) as (t & ? & ? & ?). eauto.
  - unfold tx_at. rewrite Et. done.
Qed.

Lemma sound_load : sound ALoadSnapshot.
Proof.
  intros w hist sts Ls g i L HG Hi _. destruct (ginv_start _ _ _ _ _ _ _ HG Hi) as [st Hst].
  pose proof (gi_local _ _ _ _ _ HG i L st Hi Hst) as HL.
  destruct (di_range _ _ (gi_data _ _ _ _ _ HG)) as (? & ? & ? & ?).
  set (s := snapshot_of (w_shared w)).
  destruct (learn_snapshot_fields L s) as (Eh & Em & Eg & _ & _ & _ & Et & _ & Ek & _).
  exists (learn_snapshot L s), g. split.
  - destruct HL as [_ Hc Hme Hlo _ _ Hck _]. cbn. split_and!; try done; try lia.
    + intros s0 Hq. by destruct (Hc s0 Hq).
    + intros m Hm. rewrite Hm in Hme. destruct Hme as [_ Hf].
      rewrite (with_nb_frozen _ _ Hf). split; [reflexivity|apply Hf].
    + intros nb m Hq. destruct (Hlo nb m Hq) as (_ & ? & ?). done.
    + intros m0 safe Hq. by destruct (Hck m0 safe Hq) as (_ & _ & ? & _).
  - destruct (read_step w hist sts Ls g i L (learn_snapshot L s) st HG Hi Hst) as [? ?];
      [by rewrite Eh|done|apply linv_learn_snapshot| |done].
    apply (cross_same Ls i L); [exact (ginv_cross _ _ _ _ _ HG)|done|by left|by left].
Qed.

Lemma learn_value_fields L s v :
  let L' := learn_value L s v in
  k_hold L' = k_hold L /\ k_guard L' = k_guard L /\ k_cur L' = k_cur L /\
  k_meta L' = k_meta L /\ k_load L' = k_load L /\ k_tx L' = k_tx L /\ k_wr L' = k_wr L /\
  k_todo L' = k_todo L /\
  k_mark L' = (if decide (k_hold L (LRead s) = HNone) then k_mark L
               else upd (k_mark L) s (Some v)) /\
  k_ck L' = (if decide (s = 0%nat) then k_ck L
             else raise_ck (k_ck L) s (fun m0 => Z.min m0 v)).
Proof. unfold learn_value. repeat case_decide; cbn; done. Qed.

Lemma linv_learn_value w g hist st L s v :
  linv w g hist st L -> mark_of w s = Some v -> linv w g hist st (learn_value L s v).
Proof.
  intros [Hm Hc Hme Hlo Htx Hwr Hck Htd] Hv.
  destruct (learn_value_fields L s v) as (Eh & Eg & Ec & Eme & El & Et & Ew & Ed & Em & Ek).
  set (L' := learn_value L s v) in *.
  assert (ckpt_locked L' = ckpt_locked L) as Ecl by (unfold ckpt_locked; by rewrite Eh).
  constructor; rewrite ?Ec, ?Eg, ?Eme, ?El, ?Et, ?Ew, ?Ed, ?Ecl, ?Eh; try done.
  - intros s' x Hx. rewrite Em in Hx.
    destruct (decide (k_hold L (LRead s) = HNone)); [by apply Hm|].
    unfold upd in Hx. destruct (decide (s' = s)) as [->|]; [|by apply Hm]. by simplify_eq.
  - intros t Ht. destruct (Htx t Ht) as [[Hs Hh] ? ? ? Hmx Hmk Hse].
    constructor; rewrite ?Eh, ?Eme; try done.
    intros Hne. destruct (Hmk Hne) as (x & Hx & Hle). exists x. split; [|done].
    rewrite Em. destruct (decide (k_hold L (LRead s) = HNone)); [done|].
    unfold upd. destruct (decide (t_slot t = s)) as [Hs'|]; [|done].
    destruct (Hm _ _ Hx) as [_ Hx']. rewrite Hs' in Hx'. congruence.
  - intros m0 safe H.
    assert (exists safe0, k_ck L = Some (m0, safe0) /\
      forall s, safe s <= Z.max m0 (safe0 s)) as (safe0 & Hk0 & Hs).
    { rewrite Ek in H. destruct (decide (s = 0%nat)); [by exists safe; split; [done|]; intros; lia|].
      destruct (k_ck L) as [[m1 safe1]|]; [|done]. cbn in H. simplify_eq.
      exists safe1. split; [done|]. intros s'. unfold upd. destruct (decide (s' = s)); lia. }
    destruct (Hck m0 safe0 Hk0) as (? & ? & ? & Hs0). unfold tx_at. rewrite Et.
    split_and!; try done. intros s'. specialize (Hs s'). specialize (Hs0 s'). lia.
Qed.

Lemma mark_of_word w hist sts Ls g s :
  ginv w hist sts Ls g -> (s < 5)%nat ->
  exists x, lock_word (w_shared w) (LRead s) = Some x /\ mark_of w s = Some (get_value x) /\
    is_u32 (get_value x).
Proof.
  intros HG Hs.
  destruct (lock_inv_fields _ Ls (LRead s) (gi_size _ _ _ _ _ HG)
    (gi_locks _ _ _ _ _ HG (LRead s) Hs)) as (v & Hw & Hf & _).
  eexists. split; [exact Hw|]. unfold mark_of. rewrite Hw. cbn. split; [done|].
  rewrite get_value_enc by done. apply Hf.
Qed.

Lemma sound_get_value s : sound (AGetValue s).
Proof.
  intros w hist sts Ls g i L HG Hi Hs. destruct (ginv_start _ _ _ _ _ _ _ HG Hi) as [st Hst].
  destruct (mark_of_word w hist sts Ls g s HG Hs) as (x & Hw & Hm & Hu).
  cbn [exec]. rewrite Hw. cbn [unwrap mbind Result_bind].
  set (v := get_value x) in *.
  destruct (learn_value_fields L s v) as (Eh & Eg & _ & _ & _ & Et & _ & _ & _ & Ek).
  exists (learn_value L s v), g. split.
  - split; [exact Hu|]. split; [|done].
    intros y Hy. destruct (li_mark _ _ _ _ _ (gi_local _ _ _ _ _ HG i L st Hi Hst) s y Hy)
      as [_ Hy']. congruence.
  - destruct (read_step w hist sts Ls g i L (learn_value L s v) st HG Hi Hst) as [? ?];
      [by rewrite Eh|done| | |done].
    + intros HL. by apply linv_learn_value.
    + destruct (decide (s = 0%nat)) as [Hz|Hz];
        [apply (cross_same Ls i L); [exact (ginv_cross _ _ _ _ _ HG)|done|by left|by left]|].
      apply (cross_raise Ls i L _ s (fun m0 => Z.min m0 v));
        [exact (ginv_cross _ _ _ _ _ HG)|done..|].
      intros m0 safe j Lj t _ Hj Ht <- Hne.
      destruct (ginv_start _ _ _ _ _ _ _ HG Hj) as [stj Hstj].
      destruct (gi_local _ _ _ _ _ HG j Lj stj Hj Hstj) as [Hmj _ _ _ Htxj _ _ _].
      destruct (to_mark _ _ _ _ _ _ (Htxj t Ht) Hne) as (y & Hy & Hle).
      destruct (Hmj _ _ Hy) as [_ Hy']. assert (y = v) by congruence. lia.
Qed.

(** A new mark of an exclusively held slot. *)
Lemma linv_set_mark w g hist hist' st L s x v :
  linv w g hist st L -> (s < 5)%nat ->
  length (r_read_locks (runtime (w_shared w))) = 5%nat ->
  k_hold L (LRead s) = HWrite -> ~ tx_at L s -> get_value x = v ->
  linv (with_shared w (set_lock_word (w_shared w) (LRead s) x)) g (hist ++ hist') st
    (set_mark L s (Some v)).
Proof.
  intros HL Hs Hlen Hh Hn Hv. set (w' := with_shared w _).
  assert (linv w g hist st (set_mark L s None)) as HL0.
  { destruct HL as [Hm Hc Hme Hlo Htx Hwr Hck Htd]. constructor; try done; cbn.
    - intros s' y. unfold upd. case_decide; [done|]. apply Hm.
    - intros t Ht. destruct (Htx t Ht) as [? ? ? ? Hmx Hmk Hse]. constructor; try done. cbn.
      intros Hne. rewrite upd_ne; [by apply Hmk|]. intros E. apply Hn. by exists t. }
  assert (linv w' g (hist ++ hist') st (set_mark L s None)) as HL1.
  { eapply linv_quiet; [exact HL0|done|]. intros s' y. cbn [set_mark k_mark]. unfold upd.
    case_decide; [done|]. intros _. unfold w'. by rewrite mark_of_lock_ne by (done || congruence). }
  destruct HL1 as [Hm Hc Hme Hlo Htx Hwr Hck Htd]. constructor; try done; cbn [set_mark k_mark k_hold k_meta k_tx].
  - intros s' y. unfold upd. case_decide as E; [|].
    + intros [= <-]. subst s'. rewrite Hh. split; [done|]. unfold w'.
      rewrite mark_of_lock_eq by done. by rewrite Hv.
    + intros Hy. apply (Hm s' y). cbn. by rewrite upd_ne.
  - intros t Ht. destruct (Htx t Ht) as [? ? ? ? Hmx Hmk Hse]. constructor; try done. cbn in *.
    intros Hne. destruct (Hmk Hne) as (y & Hy & Hle). exists y. split; [|done].
    unfold upd in *. by case_decide.
Qed.

Lemma sound_set_value s v : sound (ASetValue s v).
Proof.
  intros w hist sts Ls g i L HG Hi (Hs & Hh & Hu & Hn).
  destruct (ginv_start _ _ _ _ _ _ _ HG Hi) as [st Hst].
  destruct (lock_inv_fields _ Ls (LRead s) (gi_size _ _ _ _ _ HG)
    (gi_locks _ _ _ _ _ HG (LRead s) Hs)) as (v0 & Hw & Hf & Hr & Hx).
  cbn [exec]. unfold update_lock. rewrite Hw. cbn [unwrap mbind Result_bind].
  pose proof (cnt_pos HWrite _ Ls i L Hi Hh) as Hp.
  assert (cnt HWrite (LRead s) Ls = 1 /\ cnt HRead (LRead s) Ls = 0) as [EW ER] by lia.
  unfold set_value_exclusive. rewrite has_writer_enc, set_value_desired_enc by done.
  assert ((cnt HWrite (LRead s) Ls =? 1) = true) as -> by by apply Z.eqb_eq.
  cbn [turso_assert mbind Result_bind].
  set (L' := set_mark L s (Some v)).
  rewrite <- (cnt_same HRead (LRead s) Ls i L L') by done.
  rewrite <- (cnt_same HWrite (LRead s) Ls i L L') by done.
  exists L', g. split; [done|].
  assert (cnt HWrite (LRead s) (<[i := L']> Ls) = 0 \/
    cnt HWrite (LRead s) (<[i := L']> Ls) = 1 /\ cnt HRead (LRead s) (<[i := L']> Ls) = 0) as Hx'
    by (rewrite !(cnt_same _ (LRead s) Ls i L L') by done; done).
  destruct (lock_step w hist sts Ls g i L L' st (LRead s) v0 v _ HG Hi Hst Hs Hw Hf Hu
    (or_intror Hh) (fun _ _ => eq_refl) eq_refl eq_refl Hx') as [HG' Hcom]; [| |done].
  - apply linv_set_mark; try done; [by eapply (gi_local _ _ _ _ _ HG)| |].
    + apply (di_slots _ _ (gi_data _ _ _ _ _ HG)).
    + apply get_value_enc. by eapply counts_fields.
  - apply (cross_same Ls i L); [exact (ginv_cross _ _ _ _ _ HG)|done|by left|by left].
Qed.

(** ** Accesses of the writer *)

Lemma writer_alone w hist sts Ls g i j L Lj m :
  ginv w hist sts Ls g -> Ls !! i = Some L -> Ls !! j = Some Lj -> j <> i ->
  k_meta L = Some m -> k_meta Lj = None.
Proof.
  intros HG Hi Hj Hne Hm.
  destruct (ginv_start _ _ _ _ _ _ _ HG Hi) as [st Hst].
  destruct (ginv_start _ _ _ _ _ _ _ HG Hj) as [stj Hstj].
  pose proof (li_meta _ _ _ _ _ (gi_local _ _ _ _ _ HG i L st Hi Hst)) as H.
  pose proof (li_meta _ _ _ _ _ (gi_local _ _ _ _ _ HG j Lj stj Hj Hstj)) as H'.
  rewrite Hm in H. destruct H as [Hh _].
  assert (k_hold Lj LWrite = HNone) as Hn.
  { eapply lock_inv_writer; [by apply (gi_locks _ _ _ _ _ HG LWrite)|exact Hi|exact Hj|done|done]. }
  destruct (k_meta Lj); [|done]. destruct H' as [H' _]. congruence.
Qed.

(** What the other connections see of a change made by the writer: the
    committed frames stay, and the snapshot only changes when nobody holds
    the guard of the shared state. *)
Record writer_change (w w' : world) (g g' : ghost) : Prop := mkWriterChange {
  wc_words : forall l, lock_word (w_shared w') l = lock_word (w_shared w) l;
  wc_nb : nb_of w' = nb_of w;
  wc_max : max_of w <= max_of w';
  wc_log : same_prefix (w_log w) (w_log w') (max_of w);
  wc_db : w_db w' = w_db w;
  wc_base : g_base g' = g_base g;
  wc_hw : g_hw g' = g_hw g;
  wc_agree : forall n, n <= max_of w -> agree (g_pages g) (w_log w) n ->
             agree (g_pages g') (w_log w') n;
  wc_cur : w_guards w = O \/ snapshot_of (w_shared w') = snapshot_of (w_shared w)
}.

Lemma seen_writer w w' g g' hist st n :
  writer_change w w' g g' -> n <= max_of w -> seen w g hist st n ->
  seen w' g' (hist ++ [w']) st n.
Proof.
  intros Hwc Hn (i & wi & Hi & Hl & Hp). exists i, wi.
  split_and!; [|by apply lookup_app_l_Some|].
  { pose proof (same_prefix_le _ _ _ n (wc_log _ _ _ _ Hwc) Hn) as E. unfold same_prefix in E.
    by rewrite <- E. }
  intros p. rewrite Hp, (wc_base _ _ _ _ Hwc).
  by apply (same_prefix_version _ _ _ (max_of w)); [apply (wc_log _ _ _ _ Hwc)|].
Qed.

Lemma todo_ok_writer w w' g g' m l :
  dinv w g -> writer_change w w' g g' -> todo_ok w g m l -> todo_ok w' g' m l.
Proof.
  intros Hd Hwc (Hm & Hh & Hl & Hp). unfold todo_ok.
  destruct (di_range _ _ Hd) as (? & ? & ? & ?).
  rewrite (wc_hw _ _ _ _ Hwc), (wc_nb _ _ _ _ Hwc), (wc_base _ _ _ _ Hwc), (wc_db _ _ _ _ Hwc).
  pose proof (wc_max _ _ _ _ Hwc). pose proof (wc_log _ _ _ _ Hwc) as Hlog.
  split_and!; [lia|done| |].
  - intros p f Hpf. destruct (Hl p f Hpf) as (Hf & v & Hv & Hver). split; [done|]. exists v.
    rewrite <- (same_prefix_lookup _ _ _ f Hlog) by lia.
    rewrite <- (same_prefix_version _ _ _ _ m p Hlog) by lia. done.
  - intros Hnb p Hpl. destruct (Hp Hnb p Hpl) as [Ht|Ht]; [left|right].
    + eapply same_prefix_touched; [exact Hlog|lia|lia|done].
    + rewrite <- (same_prefix_version _ _ _ _ m p Hlog) by lia. done.
Qed.

Lemma linv_other_writer w w' hist sts Ls g g' j Lj stj :
  ginv w hist sts Ls g -> writer_change w w' g g' -> Ls !! j = Some Lj -> k_meta Lj = None ->
  linv w g hist stj Lj -> linv w' g' (hist ++ [w']) stj Lj.
Proof.
  intros HG Hwc Hj Hn HL. pose proof (gi_data _ _ _ _ _ HG) as Hd.
  destruct HL as [Hm Hc Hme Hlo Htx Hwr Hck Htd].
  pose proof (wc_max _ _ _ _ Hwc). constructor.
  - intros s v Hs. destruct (Hm s v Hs). unfold mark_of. by rewrite (wc_words _ _ _ _ Hwc).
  - intros s Hs. destruct (Hc s Hs) as [Hg Hsn]. split; [done|].
    destruct (wc_cur _ _ _ _ Hwc) as [Hz|Hz]; [|by rewrite Hz].
    pose proof (guards_pos Ls j Lj Hj Hg). rewrite (gi_guards _ _ _ _ _ HG) in Hz.
    unfold guards in *. lia.
  - rewrite Hn in *. done.
  - intros nb m Hl. destruct (Hlo nb m Hl) as (? & ? & ?). rewrite (wc_nb _ _ _ _ Hwc).
    split_and!; try done. lia.
  - intros t Ht. destruct (Htx t Ht) as [Hsl Hlo' Hhw Hag Hmx Hmk Hse].
    assert (t_max t <= max_of w) as Hle by (destruct Hmx as [?|[? E]]; [done|congruence]).
    constructor; try done.
    + by rewrite (wc_nb _ _ _ _ Hwc).
    + by rewrite (wc_hw _ _ _ _ Hwc).
    + by apply (wc_agree _ _ _ _ Hwc).
    + left. lia.
    + intros Hne. destruct (Hmk Hne) as (v & ? & ? & ?). exists v. split_and!; done || lia.
    + intros _. eapply seen_writer; [done..|]. by apply Hse.
  - intros k x Hx. destruct (Hwr k x Hx) as (t & _ & [? E] & _). congruence.
  - intros m0 safe Hk. destruct (Hck m0 safe Hk) as (? & ? & ? & ?). split_and!; try done. lia.
  - intros m l Hl. destruct (Htd m l Hl). split; [done|]. by eapply todo_ok_writer.
Qed.

(** A change made by the writer. *)
Lemma writer_step w w' hist sts Ls g g' i L L' st m :
  ginv w hist sts Ls g -> Ls !! i = Some L -> sts !! i = Some st -> k_meta L = Some m ->
  writer_change w w' g g' -> dinv w' g' ->
  k_hold L' = k_hold L -> k_guard L' = k_guard L -> w_guards w' = w_guards w ->
  linv w' g' (hist ++ [w']) st L' -> cross (<[i := L']> Ls) ->
  ginv w' (hist ++ [w']) sts (<[i := L']> Ls) g'.
Proof.
  intros HG Hi Hst Hm Hwc Hd Hh Hg Hgu HL' Hc.
  apply (ginv_update w w' hist sts Ls g g' i L L' st); try done.
  - intros l Hv. destruct (gi_locks _ _ _ _ _ HG l Hv) as (v & Hw & Hu & Hx).
    exists v. rewrite (wc_words _ _ _ _ Hwc), !(cnt_same _ l Ls i L L') by (done || by rewrite Hh).
    done.
  - rewrite Hgu, (guards_same Ls i L L') by done. exact (gi_guards _ _ _ _ _ HG).
  - intros j Lj stj Hne Hj Hstj HLj.
    eapply linv_other_writer; [exact HG|done|exact Hj| |done].
    by apply (writer_alone w hist sts Ls g i j L Lj m).
Qed.

Lemma cur_writer w w' hist sts Ls g g' i L s :
  ginv w hist sts Ls g -> Ls !! i = Some L -> writer_change w w' g g' ->
  (forall s, k_cur L = Some s -> k_guard L = true /\ snapshot_of (w_shared w) = s) ->
  k_cur L = Some s -> k_guard L = true /\ snapshot_of (w_shared w') = s.
Proof.
  intros HG Hi Hwc Hc Hs. destruct (Hc s Hs) as [Hg Hsn]. split; [done|].
  destruct (wc_cur _ _ _ _ Hwc) as [Hz|Hz]; [|by rewrite Hz].
  pose proof (guards_pos Ls i L Hi Hg). rewrite (gi_guards _ _ _ _ _ HG) in Hz.
  unfold guards in *. lia.
Qed.

(** The writer changes its frozen metadata and leaves the frames alone. *)
Lemma linv_own_meta w w' hist sts Ls g i L st m m' :
  ginv w hist sts Ls g -> Ls !! i = Some L -> sts !! i = Some st -> k_meta L = Some m ->
  writer_change w w' g g -> w_log w' = w_log w -> max_of w' = max_of w ->
  frozen m' (meta w') -> linv w' g (hist ++ [w']) st (set_meta L (Some m')).
Proof.
  intros HG Hi Hst Hk Hwc Elog Emax Hfr.
  pose proof (gi_data _ _ _ _ _ HG) as Hd.
  destruct (gi_local _ _ _ _ _ HG i L st Hi Hst) as [Hm Hc Hme Hlo Htx Hwr Hck Htd].
  rewrite Hk in Hme. destruct Hme as [Hh _]. constructor; kcbn.
  - intros s v Hs. destruct (Hm s v Hs). unfold mark_of. by rewrite (wc_words _ _ _ _ Hwc).
  - intros s. by eapply cur_writer.
  - done.
  - rewrite (wc_nb _ _ _ _ Hwc), Emax. done.
  - intros t Ht. destruct (Htx t Ht) as [Hsl Hlo' Hhw Hag Hmx Hmk Hse].
    constructor; rewrite ?(wc_nb _ _ _ _ Hwc), ?Elog, ?Emax; try done.
    + right. cbn. eauto.
    + intros Hle. eapply seen_writer; [done..|]. by apply Hse.
  - intros j x Hj. rewrite Elog. destruct (Hwr j x Hj) as (t & ? & ? & ?). cbn. eauto.
  - rewrite Emax. done.
  - intros m0 l H. destruct (Htd m0 l H). split; [done|]. by eapply todo_ok_writer.
Qed.

(** Metadata that differs in the header, the flag and the seed checksum. *)
Definition header_change (w : world) (h : WalHeader) (b : bool) (cks : Z * Z) : world :=
  with_shared w (with_metadata (w_shared w) (set_header (meta w) h b cks)).

Lemma header_writer_change w g h b cks :
  (w_guards w = O \/
   wh_checkpoint_seq h = wh_checkpoint_seq (m_wal_header (meta w)) /\ cks = m_last_checksum (meta w)) ->
  writer_change w (header_change w h b cks) g g.
Proof.
  intros Hg. constructor; try done.
  destruct Hg as [?|[E ->]]; [by left|right]. unfold snapshot_of. cbn. by rewrite E.
Qed.

Lemma header_step w hist sts Ls g i L m h b cks :
  ginv w hist sts Ls g -> Ls !! i = Some L -> k_meta L = Some m ->
  (w_guards w = O \/
   wh_checkpoint_seq h = wh_checkpoint_seq (m_wal_header (meta w)) /\ cks = m_last_checksum (meta w)) ->
  header_u32 h -> (b = false -> max_of w = 0) ->
  let w' := header_change w h b cks in
  ginv w' (hist ++ [w']) sts (<[i := set_meta L (Some (meta_header m h b cks))]> Ls) g /\
  forall p, committed w' p = committed w p.
Proof.
  intros HG Hi Hk Hg Hh Hb w'. split; [|done].
  destruct (ginv_start _ _ _ _ _ _ _ HG Hi) as [st Hst].
  pose proof (header_writer_change w g h b cks Hg) as Hwc.
  pose proof (li_meta _ _ _ _ _ (gi_local _ _ _ _ _ HG i L st Hi Hst)) as Hme.
  rewrite Hk in Hme. destruct Hme as [_ [Hnb Hfr]].
  apply (writer_step w w' hist sts Ls g g i L _ st m HG Hi Hst Hk Hwc); try done.
  - destruct (gi_data _ _ _ _ _ HG). by constructor.
  - apply (linv_own_meta w w' hist sts Ls g i L st m); try done.
    split; [done|]. cbn. by rewrite Hfr.
  - apply (cross_same Ls i L); [exact (ginv_cross _ _ _ _ _ HG)|done|by left|by left].
Qed.

Lemma frozen_header m now :
  frozen m now -> m_wal_header now = m_wal_header m /\ m_last_checksum now = m_last_checksum m /\
  m_initialized now = m_initialized m.
Proof. intros [_ ->]. done. Qed.

Lemma ginv_frozen w hist sts Ls g i L m :
  ginv w hist sts Ls g -> Ls !! i = Some L -> k_meta L = Some m -> frozen m (meta w).
Proof.
  intros HG Hi Hm. destruct (ginv_start _ _ _ _ _ _ _ HG Hi) as [st Hst].
  pose proof (li_meta _ _ _ _ _ (gi_local _ _ _ _ _ HG i L st Hi Hst)) as Hme.
  rewrite Hm in Hme. apply Hme.
Qed.

Lemma sound_mark_initialized : sound AMarkInitialized.
Proof.
  intros w hist sts Ls g i L HG Hi [m Hm].
  destruct (frozen_header _ _ (ginv_frozen _ _ _ _ _ _ _ _ HG Hi Hm)) as (Eh & Ec & _).
  destruct (header_step w hist sts Ls g i L m (m_wal_header (meta w)) true
    (m_last_checksum (meta w)) HG Hi Hm) as [HG' Hcom]; [by right| |done|].
  { exact (di_header _ _ (gi_data _ _ _ _ _ HG)). }
  eexists _, g. split_and!; [|exact HG'|intros _; exact Hcom].
  cbn. intros m' E. rewrite Hm in E. simplify_eq. by rewrite Eh, Ec.
Qed.

Lemma sound_prepare_truncate : sound APrepareTruncate.
Proof.
  intros w hist sts Ls g i L HG Hi (m & Hm & Hz).
  pose proof (ginv_frozen _ _ _ _ _ _ _ _ HG Hi Hm) as Hfr.
  destruct (frozen_header _ _ Hfr) as (Eh & Ec & _).
  destruct (di_open _ _ (gi_data _ _ _ _ _ HG)) as [He Hf].
  cbn [exec]. unfold prepare_truncate. rewrite He, Hf. cbn [turso_assert mbind Result_bind].
  destruct (header_step w hist sts Ls g i L m (m_wal_header (meta w)) false
    (m_last_checksum (meta w)) HG Hi Hm) as [HG' Hcom]; [by right| | |].
  { exact (di_header _ _ (gi_data _ _ _ _ _ HG)). }
  { intros _. by rewrite <- (frozen_max _ _ Hfr). }
  eexists _, g. split_and!; [|exact HG'|intros _; exact Hcom].
  split; [done|]. intros m' E. rewrite Hm in E. simplify_eq. by rewrite Eh, Ec.
Qed.

Lemma sound_prepare_header big page_size rnd1 rnd2 :
  sound (APrepareHeader big page_size rnd1 rnd2).
Proof.
  intros w hist sts Ls g i L HG Hi (_ & Hu & m & t & Hm & _).
  pose proof (ginv_frozen _ _ _ _ _ _ _ _ HG Hi Hm) as Hfr.
  destruct (frozen_header _ _ Hfr) as (Eh & Ec & Ei).
  pose proof (gi_data _ _ _ _ _ HG) as Hd.
  cbn [exec]. unfold exclusively. destruct (w_guards w) eqn:Eg; [|done].
  unfold prepare_wal_header. destruct (m_initialized (meta w)) eqn:Einit.
  - cbn [mbind Result_bind]. rewrite with_shared_id. exists L, g.
    split_and!; [|by apply ginv_same|done]. cbn. intros m' E. rewrite Hm in E. simplify_eq.
    done.
  - destruct (complete_header_ok big _ page_size rnd1 rnd2 (di_header _ _ Hd) Hu)
      as (h & Hc & Hh & _ & _ & Hps).
    rewrite Hc. cbn [mbind Result_bind].
    destruct (header_step w hist sts Ls g i L m h false (wh_checksum_1 h, wh_checksum_2 h)
      HG Hi Hm) as [HG' Hcom]; [by left|done| |].
    { intros _. by apply (di_fresh _ _ Hd). }
    eexists _, g. split_and!; [|exact HG'|intros _; exact Hcom].
    intros m' E. rewrite Hm in E. simplify_eq. rewrite Eh in Hps. split_and!; try done.
    rewrite (frozen_max _ _ Hfr). by apply (di_fresh _ _ Hd).
Qed.

(** ** Accesses that extend or cut the log *)

(** Knowledge that differs in the transaction and the frames written. *)
Definition same_outside_tx (L L' : know) : Prop :=
  k_hold L' = k_hold L /\ k_mark L' = k_mark L /\ k_guard L' = k_guard L /\
  k_cur L' = k_cur L /\ k_meta L' = k_meta L /\ k_load L' = k_load L /\ k_ck L' = k_ck L /\
  k_todo L' = k_todo L.

Lemma linv_own_tx w w' hist sts Ls g g' i L L' st m t n :
  ginv w hist sts Ls g -> Ls !! i = Some L -> sts !! i = Some st ->
  writing L m t -> writer_change w w' g g' -> meta w' = meta w -> same_outside_tx L L' ->
  k_tx L' = Some (mkTx (t_slot t) (t_lo t) n) -> max_of w <= n ->
  agree (g_pages g') (w_log w') n ->
  (n <= max_of w -> seen w' g' (hist ++ [w']) st n) ->
  (forall j x, k_wr L' !! j = Some x -> w_log w' !! (Z.to_nat n + j)%nat = Some x) ->
  linv w' g' (hist ++ [w']) st L'.
Proof.
  intros HG Hi Hst (Hk & Ht & _) Hwc Emeta (Eh & Em & Eg & Ec & Eme & El & Ek & Ed) Et Hn Hag Hse Hw.
  pose proof (gi_data _ _ _ _ _ HG) as Hd. destruct (di_range _ _ Hd) as (? & ? & ? & ?).
  destruct (gi_local _ _ _ _ _ HG i L st Hi Hst) as [Hm Hc Hme Hlo Htx Hwr Hck Htd].
  assert (ckpt_locked L' = ckpt_locked L) as Ecl by (unfold ckpt_locked; by rewrite Eh).
  constructor; rewrite ?Em, ?Eg, ?Ec, ?Eme, ?El, ?Ek, ?Ed, ?Ecl, ?Eh.
  - intros s v Hs. destruct (Hm s v Hs). unfold mark_of. by rewrite (wc_words _ _ _ _ Hwc).
  - intros s. by eapply cur_writer.
  - by rewrite Emeta.
  - by rewrite Emeta.
  - intros t' Ht'. rewrite Et in Ht'. simplify_eq.
    destruct (Htx t Ht) as [Hsl Hlo' Hhw _ Hmx Hmk _].
    constructor; kcbn; rewrite ?Eh, ?Em, ?Eme, ?Emeta; try done.
    + rewrite (wc_hw _ _ _ _ Hwc). lia.
    + right. eauto.
    + intros Hne. destruct (Hmk Hne) as (v & ? & ? & ?). exists v. split_and!; done || lia.
  - intros j x Hj. exists (mkTx (t_slot t) (t_lo t) n). rewrite Et, Hk. eauto.
  - intros m0 safe H'. destruct (Hck m0 safe H') as (? & Hn0 & ? & ?). rewrite Emeta.
    split_and!; try done. intros (t' & Ht' & Hs). rewrite Et in Ht'. simplify_eq.
    apply Hn0. by exists t.
  - intros m0 l H'. destruct (Htd m0 l H'). split; [done|]. by eapply todo_ok_writer.
Qed.

Lemma cross_move w hist sts Ls g i L L' t n :
  ginv w hist sts Ls g -> Ls !! i = Some L -> k_ck L' = k_ck L ->
  k_tx L = Some t -> k_tx L' = Some (mkTx (t_slot t) (t_lo t) n) -> max_of w <= n ->
  cross (<[i := L']> Ls).
Proof.
  intros HG Hi Ek Ht Et Hn a b La Lb m0 safe t' Ha Hb Hka Htb Hne.
  assert (exists La0, Ls !! a = Some La0 /\ k_ck La0 = Some (m0, safe)) as (La0 & Ha0 & Hk0).
  { apply list_lookup_insert_Some in Ha as [(-> & <- & _)|[_ Ha]]; [|eauto].
    exists L. by rewrite <- Ek. }
  apply list_lookup_insert_Some in Hb as [(-> & <- & _)|[_ Hb]];
    [|by apply (gi_cross _ _ _ _ _ HG a b La0 Lb m0 safe t')].
  rewrite Et in Htb. simplify_eq. cbn in *.
  destruct (ginv_start _ _ _ _ _ _ _ HG Ha0) as [sta Hsta].
  destruct (li_ck _ _ _ _ _ (gi_local _ _ _ _ _ HG a La0 sta Ha0 Hsta) m0 safe Hk0)
    as (_ & _ & ? & Hs). specialize (Hs (t_slot t)). lia.
Qed.

(** The writer moves to frame [n]. *)
Lemma tx_step w w' hist sts Ls g g' i L L' m t n :
  ginv w hist sts Ls g -> Ls !! i = Some L -> writing L m t -> writer_change w w' g g' ->
  dinv w' g' -> meta w' = meta w -> w_guards w' = w_guards w -> same_outside_tx L L' ->
  k_tx L' = Some (mkTx (t_slot t) (t_lo t) n) -> max_of w <= n ->
  agree (g_pages g') (w_log w') n ->
  (forall st, sts !! i = Some st -> n <= max_of w -> seen w' g' (hist ++ [w']) st n) ->
  (forall j x, k_wr L' !! j = Some x -> w_log w' !! (Z.to_nat n + j)%nat = Some x) ->
  ginv w' (hist ++ [w']) sts (<[i := L']> Ls) g' /\ forall p, committed w' p = committed w p.
Proof.
  intros HG Hi Hw Hwc Hd Emeta Egu Hs Et Hn Hag Hse Hwr.
  destruct (ginv_start _ _ _ _ _ _ _ HG Hi) as [st Hst].
  split.
  - apply (writer_step w w' hist sts Ls g g' i L L' st m); try done; try apply Hs; try apply Hw.
    + by eapply linv_own_tx; eauto.
    + eapply cross_move; [exact HG|exact Hi|apply Hs|apply Hw|exact Et|done].
  - intros p. unfold committed. rewrite Emeta, (wc_db _ _ _ _ Hwc).
    symmetry. eapply same_prefix_version; [exact (wc_log _ _ _ _ Hwc)|lia].
Qed.

Lemma dinv_writer w w' g g' :
  dinv w g -> writer_change w w' g g' ->
  m_enabled (meta w') = m_enabled (meta w) -> m_wal_header (meta w') = m_wal_header (meta w) ->
  (m_initialized (meta w') = false -> max_of w' = 0) -> max_of w' <= u32_max ->
  r_file (runtime (w_shared w')) = r_file (runtime (w_shared w)) ->
  runtime_rep (runtime (w_shared w')) (g_pages g') -> agree (g_pages g') (w_log w') (max_of w') ->
  length (r_read_locks (runtime (w_shared w'))) = 5%nat -> dinv w' g'.
Proof.
  intros [Ho Hh Hr Hf Hc Ha Hdb Hs] Hwc Ee Eh Hi Hu Ef Hc' Ha' Hs'.
  destruct Hr as (? & ? & ? & ?). pose proof (wc_max _ _ _ _ Hwc).
  pose proof (wc_log _ _ _ _ Hwc) as Hlog.
  constructor; try done.
  - by rewrite Ee, Ef.
  - by rewrite Eh.
  - rewrite (wc_nb _ _ _ _ Hwc), (wc_hw _ _ _ _ Hwc). lia.
  - intros p. rewrite (wc_nb _ _ _ _ Hwc), (wc_hw _ _ _ _ Hwc), (wc_base _ _ _ _ Hwc),
      (wc_db _ _ _ _ Hwc).
    destruct (Hdb p) as [Ht|Ht]; [left|right].
    + eapply same_prefix_touched; [exact Hlog|lia|lia|done].
    + rewrite <- (same_prefix_version _ _ _ _ (nb_of w) p Hlog) by lia. done.
Qed.

Lemma log_write_app log n fs :
  (n <= length log)%nat -> log_write log n fs = take n log ++ fs ++ drop (n + length fs) log.
Proof.
  intros Hn. unfold log_write. replace (n - length log)%nat with 0%nat by lia.
  cbn [replicate]. by rewrite app_nil_r.
Qed.

Lemma log_write_prefix log n fs k :
  (n <= length log)%nat -> (k <= n)%nat -> take k (log_write log n fs) = take k log.
Proof.
  intros Hn Hk. rewrite log_write_app by done.
  rewrite take_app_le by (rewrite length_take; lia). by rewrite take_take, Nat.min_l by lia.
Qed.

Lemma log_write_new log n fs j :
  (n <= length log)%nat -> (j < length fs)%nat -> log_write log n fs !! (n + j)%nat = fs !! j.
Proof.
  intros Hn Hj. rewrite log_write_app by done.
  rewrite lookup_app_r by (rewrite length_take; lia).
  rewrite length_take, Nat.min_l by lia. replace (n + j - n)%nat with j by lia.
  by rewrite lookup_app_l.
Qed.

Lemma log_write_old log n fs k :
  (n <= length log)%nat -> (k < n)%nat -> log_write log n fs !! k = log !! k.
Proof.
  intros Hn Hk. rewrite log_write_app by done.
  rewrite lookup_app_l by (rewrite length_take; lia). by rewrite lookup_take_lt.
Qed.

Lemma log_write_length log n fs :
  (n <= length log)%nat -> (n + length fs <= length (log_write log n fs))%nat.
Proof. intros Hn. rewrite log_write_app by done. rewrite !length_app, length_take. lia. Qed.

Lemma agree_prefix pages log log' n k :
  agree pages log n -> n <= k -> same_prefix log log' k -> n <= lenZ log' -> agree pages log' n.
Proof.
  intros (Hp & Hl & Ht) Hk Hs Hl'. split_and!; [done|done|].
  by rewrite <- (same_prefix_le _ _ _ _ Hs Hk).
Qed.

(** Frames written behind the position of the writer. *)
Lemma write_position w hist sts Ls g i L m t :
  ginv w hist sts Ls g -> Ls !! i = Some L -> writing L m t ->
  0 <= max_of w <= t_max t /\ agree (g_pages g) (w_log w) (t_max t) /\
  (Z.to_nat (t_max t) + length (k_wr L) <= length (w_log w))%nat.
Proof.
  intros HG Hi (Hk & Ht & Hle). destruct (ginv_start _ _ _ _ _ _ _ HG Hi) as [st Hst].
  destruct (gi_local _ _ _ _ _ HG i L st Hi Hst) as [_ _ _ _ Htx Hwr _ _].
  destruct (di_range _ _ (gi_data _ _ _ _ _ HG)) as (? & ? & ? & ?).
  rewrite (frozen_max _ _ (ginv_frozen _ _ _ _ _ _ _ _ HG Hi Hk)) in Hle.
  pose proof (to_agree _ _ _ _ _ _ (Htx t Ht)) as Hag. split_and!; try done; try lia.
  destruct Hag as (_ & Hl & _). unfold lenZ in Hl.
  destruct (k_wr L) as [|x l] eqn:E using rev_ind; [cbn; lia|].
  destruct (Hwr (length l) x) as (t' & Ht' & _ & Hlk).
  { rewrite lookup_app_r, Nat.sub_diag by lia. done. }
  rewrite Ht in Ht'. simplify_eq. apply lookup_lt_Some in Hlk.
  rewrite length_app. cbn. lia.
Qed.

Lemma sound_write_frames first fs : sound (AWriteFrames first fs).
Proof.
  intros w hist sts Ls g i L HG Hi (m & t & Hw & ->).
  destruct (write_position _ _ _ _ _ _ _ _ _ HG Hi Hw) as (Hmx & Hag & Hlen).
  pose proof (gi_data _ _ _ _ _ HG) as Hd.
  set (n := (Z.to_nat (t_max t) + length (k_wr L))%nat) in *.
  cbn [exec]. replace (Z.to_nat (t_max t + 1 + lenZ (k_wr L) - 1)) with n
    by (unfold n, lenZ; lia).
  set (w' := mkWorld _ _ _ _).
  assert (forall k, k <= t_max t -> same_prefix (w_log w) (w_log w') k) as Hpre.
  { intros k Hk. symmetry. apply log_write_prefix; lia. }
  pose proof (log_write_length (w_log w) n fs Hlen) as Hlen'.
  assert (forall k, k <= t_max t -> agree (g_pages g) (w_log w) k ->
    agree (g_pages g) (w_log w') k) as Hag'.
  { intros k Hk Hak. eapply agree_prefix; [exact Hak| |by apply Hpre|]; [done|].
    cbn. unfold lenZ. lia. }
  assert (writer_change w w' g g) as Hwc.
  { constructor; try done; [apply Hpre; lia| |by right].
    intros k Hk. apply Hag'. lia. }
  eexists (set_wr L (k_wr L ++ fs)), g. split; [done|].
  destruct (ginv_start _ _ _ _ _ _ _ HG Hi) as [st Hst].
  destruct (tx_step w w' hist sts Ls g g i L (set_wr L (k_wr L ++ fs)) m t (t_max t) HG Hi Hw Hwc)
    as [? ?]; try done; try lia.
  - apply (dinv_writer w w' g g); try done; try apply Hd.
    change (max_of w') with (max_of w). apply Hag'; [lia|]. apply Hd.
  - kcbn. destruct Hw as (_ & -> & _). by destruct t.
  - by apply Hag'.
  - intros st' Hst' Hle. eapply seen_writer; [exact Hwc|done|].
    destruct Hw as (_ & Ht & _).
    apply (to_seen _ _ _ _ _ _ (li_tx _ _ _ _ _ (gi_local _ _ _ _ _ HG i L st' Hi Hst') t Ht)).
    done.
  - kcbn. intros j x Hj. apply lookup_app_Some in Hj as [Hj|[Hge Hj]].
    + cbn. rewrite log_write_old by (done || apply lookup_lt_Some in Hj; unfold n; lia).
      destruct (li_wr _ _ _ _ _ (gi_local _ _ _ _ _ HG i L st Hi Hst) j x Hj)
        as (t' & Ht' & _ & Hlk).
      destruct Hw as (_ & Ht & _). rewrite Ht in Ht'. by simplify_eq.
    + cbn. replace (Z.to_nat (t_max t) + j)%nat with (n + (j - length (k_wr L)))%nat
        by (unfold n; lia).
      rewrite log_write_new; [done|done|]. by apply lookup_lt_Some in Hj.
Qed.

Lemma agree_zero pages log n : n <= 0 -> agree pages log n.
Proof.
  intros Hn. pose proof (lenZ_nonneg pages). pose proof (lenZ_nonneg log).
  split_and!; [lia|lia|]. by replace (Z.to_nat n) with 0%nat by lia.
Qed.

Lemma sound_truncate_log : sound ATruncateLog.
Proof.
  intros w hist sts Ls g i L HG Hi (m & Hm & Hz & Ht0).
  destruct (ginv_start _ _ _ _ _ _ _ HG Hi) as [st Hst].
  pose proof (gi_data _ _ _ _ _ HG) as Hd. destruct (di_range _ _ Hd) as (? & ? & ? & ?).
  rewrite (frozen_max _ _ (ginv_frozen _ _ _ _ _ _ _ _ HG Hi Hm)) in Hz.
  cbn [exec]. set (w' := mkWorld _ _ _ _).
  assert (same_prefix (w_log w) (w_log w') (max_of w)) as Hpre
    by (unfold same_prefix; by rewrite Hz).
  assert (writer_change w w' g g) as Hwc.
  { constructor; try done; [|by right]. intros n Hn _. apply agree_zero. lia. }
  exists (set_wr L []), g. split; [done|]. split.
  - apply (writer_step w w' hist sts Ls g g i L _ st m HG Hi Hst Hm Hwc); try done.
    + apply (dinv_writer w w' g g); try done; try apply Hd.
      apply agree_zero. change (max_of w') with (max_of w). lia.
    + destruct (gi_local _ _ _ _ _ HG i L st Hi Hst) as [Hmk Hc Hme Hlo Htx Hwr Hck Htd].
      constructor; try done.
      * intros t Ht. specialize (Ht0 t Ht).
        destruct (Htx t Ht) as [Hsl Hlo' Hhw _ Hmx Hmk' Hse].
        constructor; try done; [by apply agree_zero|].
        intros Hle. eapply seen_writer; [exact Hwc| |by apply Hse]; done.
      * intros m0 l Hl. destruct (Htd m0 l Hl). split; [done|]. by eapply todo_ok_writer.
    + apply (cross_same Ls i L); [exact (ginv_cross _ _ _ _ _ HG)|done|by left|by left].
  - intros _ p. unfold committed. change (meta w') with (meta w).
    symmetry. by apply (same_prefix_version _ _ _ (max_of w)).
Qed.

Lemma take_S_agree (pages : list Z) (log : list frame) n p v :
  0 <= n -> take (Z.to_nat n) pages = (take (Z.to_nat n) log).*1 -> lenZ pages = n ->
  log !! Z.to_nat n = Some (p, v) -> agree (pages ++ [p]) log (n + 1).
Proof.
  intros Hn Ht Hlen Hl. pose proof (lookup_lt_Some _ _ _ Hl).
  unfold agree, lenZ in *. rewrite length_app. cbn. split_and!; [lia|lia|].
  replace (Z.to_nat (n + 1)) with (S (Z.to_nat n)) by lia.
  rewrite (take_S_r log _ _ Hl), fmap_app, <- Ht. cbn.
  rewrite take_ge by (rewrite length_app; cbn; lia). rewrite (take_ge pages) by lia. done.
Qed.

Lemma agree_cut pages log n k : agree pages log n -> k <= n -> agree pages log k.
Proof.
  intros (Hp & Hl & Ht) Hk. split_and!; [lia|lia|].
  replace (Z.to_nat k) with (Z.to_nat k `min` Z.to_nat n)%nat by lia.
  by rewrite <- (take_take pages), <- (take_take log), Ht, !fmap_take.
Qed.

Lemma agree_take pages log n k :
  agree pages log n -> n <= k -> agree (take (Z.to_nat k) pages) log n.
Proof.
  intros (Hp & Hl & Ht) Hk. split_and!; [|done|].
  - unfold lenZ in *. rewrite length_take. lia.
  - rewrite take_take, <- Ht. f_equal. lia.
Qed.

(** A frame that is in the file enters the index. *)
Lemma sound_cache_frame page_id frame_id : sound (ACacheFrame page_id frame_id).
Proof.
  intros w hist sts Ls g i L HG Hi (m & t & image & rest & Hw & -> & Hr).
  destruct (write_position _ _ _ _ _ _ _ _ _ HG Hi Hw) as (Hmx & Hag & Hlen).
  destruct (ginv_start _ _ _ _ _ _ _ HG Hi) as [st Hst].
  pose proof (gi_data _ _ _ _ _ HG) as Hd. destruct (di_cache _ _ Hd) as [Hrep Hhw].
  assert (w_log w !! Z.to_nat (t_max t) = Some (page_id, image)) as Hlk.
  { destruct (li_wr _ _ _ _ _ (gi_local _ _ _ _ _ HG i L st Hi Hst) 0%nat (page_id, image))
      as (t' & Ht' & _ & Hl); [by rewrite Hr|].
    destruct Hw as (_ & Ht & _). rewrite Ht in Ht'. simplify_eq. by rewrite Nat.add_0_r in Hl. }
  destruct Hag as (Hp & Hl & Htk).
  set (pages := take (Z.to_nat (t_max t)) (g_pages g)).
  assert (lenZ pages = t_max t) as Hplen by (unfold pages, lenZ in *; rewrite length_take; lia).
  set (g' := mkGhost (g_base g) (g_hw g) (pages ++ [page_id])).
  cbn [exec]. set (w' := set_runtime w _).
  destruct (cache_frame_rep _ _ page_id (t_max t + 1) Hrep Hhw) as [Hrep' Hhw']; [lia|].
  replace (Z.to_nat (t_max t + 1 - 1)) with (Z.to_nat (t_max t)) in Hrep', Hhw' by lia.
  assert (agree (g_pages g') (w_log w) (t_max t + 1)) as Hag1.
  { eapply take_S_agree; [lia| |done|exact Hlk]. unfold pages. rewrite take_take.
    by rewrite Nat.min_id. }
  assert (forall k, k <= t_max t + 1 -> agree (g_pages g') (w_log w') k) as Hag'
    by (intros k Hk; by eapply agree_cut).
  assert (writer_change w w' g g') as Hwc.
  { constructor; try done; [|by right]. intros k Hk _. apply Hag'. lia. }
  eexists _, g'. split; [done|].
  destruct (tx_step w w' hist sts Ls g g' i L (move_tx (set_wr L (tail (k_wr L))) (t_max t + 1))
    m t (t_max t + 1) HG Hi Hw Hwc) as [? ?]; try done; try lia.
  - apply (dinv_writer w w' g g'); try done; try apply Hd.
    apply Hag'. change (max_of w') with (max_of w). lia.
  - destruct Hw as (_ & Ht & _). unfold same_outside_tx, move_tx. kcbn. by rewrite Ht.
  - destruct Hw as (_ & Ht & _). unfold move_tx. kcbn. by rewrite Ht.
  - intros j x Hj. destruct Hw as (_ & Ht & _).
    assert (k_wr L !! S j = Some x) as Hj'.
    { revert Hj. unfold move_tx. kcbn. rewrite Ht. kcbn. by rewrite Hr. }
    destruct (li_wr _ _ _ _ _ (gi_local _ _ _ _ _ HG i L st Hi Hst) (S j) x Hj')
      as (t' & Ht' & _ & Hlk').
    rewrite Ht in Ht'. simplify_eq. cbn.
    by replace (Z.to_nat (t_max t' + 1) + j)%nat with (Z.to_nat (t_max t') + S j)%nat by lia.
Qed.

Lemma committed_version w g p :
  dinv w g -> committed w p = version (g_base g) (w_log w) (max_of w) p.
Proof.
  intros Hd. destruct (di_range _ _ Hd) as (? & ? & ? & ?). unfold committed.
  destruct (last_image p (take (Z.to_nat (max_of w)) (w_log w))) as [v|] eqn:E.
  - unfold version. by rewrite E.
  - assert (forall lo, 0 <= lo -> ~ touched (w_log w) p lo (max_of w)) as Hnt.
    { intros lo Hlo (f & v & Hf & Hlk). apply last_image_None in E. apply E.
      apply list_elem_of_fmap. exists (p, v). split; [done|].
      apply (list_elem_of_lookup_2 _ (Z.to_nat (f - 1))). rewrite lookup_take_lt by lia. done. }
    rewrite (version_untouched _ _ p (nb_of w) (max_of w)) by (lia || apply Hnt; lia).
    rewrite (version_untouched (g_base g) _ p (nb_of w) (max_of w)) by (lia || apply Hnt; lia).
    destruct (di_db _ _ Hd p) as [(f & v & Hf & Hlk)|Hdb].
    + exfalso. apply (Hnt (nb_of w)); [lia|]. exists f, v. split; [lia|done].
    + rewrite <- Hdb. unfold version.
      replace (last_image p (take (Z.to_nat (nb_of w)) (w_log w))) with (None (A := bytes)); [done|].
      symmetry. apply last_image_None. apply last_image_None in E. intros Hin. apply E.
      rewrite (take_split _ (nb_of w) (max_of w)), fmap_app by lia. by apply elem_of_app; left.
Qed.

(** The current committed state counts as seen. *)
Lemma seen_now w g hist sts Ls i st :
  flexible sts i -> ginv w hist sts Ls g -> sts !! i = Some st -> seen w g hist st (max_of w).
Proof.
  intros Hfx HG Hst. destruct (gi_hist _ _ _ _ _ HG) as [Hl Hf].
  exists (pred (length hist)), w.
  assert (st_from st < length hist)%nat by by eapply (Forall_lookup_1 _ _ i st Hf).
  split_and!; [split; [lia|by rewrite (Hfx st Hst)]|by rewrite <- last_lookup|]. intros p.
  apply committed_version. exact (gi_data _ _ _ _ _ HG).
Qed.

Lemma sound_rollback_cache n : flex_sound (ARollbackCache n).
Proof.
  intros w hist sts Ls g i L Hfx HG Hi (m & t & Hw & Hn).
  destruct (write_position _ _ _ _ _ _ _ _ _ HG Hi Hw) as (Hmx & Hag & Hlen).
  pose proof (gi_data _ _ _ _ _ HG) as Hd. destruct (di_cache _ _ Hd) as [Hrep Hhw].
  assert (max_of w <= n <= t_max t) as Hn'.
  { destruct Hw as (Hk & _ & _).
    by rewrite (frozen_max _ _ (ginv_frozen _ _ _ _ _ _ _ _ HG Hi Hk)) in Hn. }
  set (g' := mkGhost (g_base g) (g_hw g) (take (Z.to_nat n) (g_pages g))).
  cbn [exec]. set (w' := set_runtime w _).
  destruct (rollback_cache_rep _ _ n Hrep Hhw) as [Hrep' Hhw']; [lia|].
  assert (forall k, k <= n -> agree (g_pages g') (w_log w') k) as Hag'.
  { intros k Hk. apply agree_take; [|done]. eapply agree_cut; [exact Hag|]. lia. }
  assert (writer_change w w' g g') as Hwc.
  { constructor; try done; [|by right]. intros k Hk _. apply Hag'. lia. }
  eexists _, g'. split; [done|].
  destruct (tx_step w w' hist sts Ls g g' i L (move_tx (set_wr L []) n) m t n HG Hi Hw Hwc)
    as [? ?]; try done; try lia.
  - apply (dinv_writer w w' g g'); try done; try apply Hd.
    apply Hag'. change (max_of w') with (max_of w). lia.
  - destruct Hw as (_ & Ht & _). unfold same_outside_tx, move_tx. kcbn. by rewrite Ht.
  - destruct Hw as (_ & Ht & _). unfold move_tx. kcbn. by rewrite Ht.
  - by apply Hag'.
  - intros st Hst Hle. assert (n = max_of w) as -> by lia.
    eapply seen_writer; [exact Hwc|lia|]. by eapply seen_now.
  - intros j x Hj. exfalso. revert Hj. unfold move_tx. kcbn. by destruct (k_tx L).
Qed.

Lemma sound_publish_commit n cks tc : flex_sound (APublishCommit n cks tc).
Proof.
  intros w hist sts Ls g i L Hfx HG Hi (_ & m & t & Hw & -> & Hu & Hinit).
  destruct (write_position _ _ _ _ _ _ _ _ _ HG Hi Hw) as (Hmx & Hag & Hlen).
  destruct (ginv_start _ _ _ _ _ _ _ HG Hi) as [st Hst]. destruct Hw as (Hm & Ht & _).
  pose proof (gi_data _ _ _ _ _ HG) as Hd.
  pose proof (ginv_frozen _ _ _ _ _ _ _ _ HG Hi Hm) as Hfr.
  cbn [exec]. unfold exclusively. destruct (w_guards w) eqn:Eg; [|done].
  set (w' := with_shared w _).
  assert (writer_change w w' g g) as Hwc by (constructor; try done; [cbn; lia|by left]).
  assert (dinv w' g) as Hd'.
  { apply (dinv_writer w w' g g); try done; try apply Hd. cbn. intros Hf.
    destruct (frozen_header _ _ Hfr) as (_ & _ & Ei). destruct Hinit as [E|E]; congruence. }
  exists (set_meta L (Some (meta_commit m (t_max t) cks tc))), g. split; [|split; [|done]].
  { cbn. intros m' E. rewrite Hm in E. by simplify_eq. }
  destruct (gi_local _ _ _ _ _ HG i L st Hi Hst) as [Hmk Hc Hme Hlo Htx Hwr Hck Htd].
  rewrite Hm in Hme. destruct Hme as [Hh [Hnb Efr]].
  apply (writer_step w w' hist sts Ls g g i L _ st m HG Hi Hst Hm Hwc Hd'); try done.
  - constructor; kcbn; try done.
    + intros s. by eapply cur_writer.
    + split; [done|]. split; [done|]. cbn. by rewrite Efr.
    + intros nb m0 Hl. destruct (Hlo nb m0 Hl) as (? & ? & ?). cbn. split_and!; done || lia.
    + intros t' Ht'. rewrite Ht in Ht'. simplify_eq.
      destruct (Htx t' Ht) as [Hsl Hlo' Hhw _ _ Hmk' _].
      constructor; try done; [left; done| |].
      * intros Hne. destruct (Hmk' Hne) as (v & ? & ? & ?). exists v. cbn. split_and!; done || lia.
      * intros _. exists (length hist), w'.
        destruct (gi_hist _ _ _ _ _ HG) as [_ Hf].
        assert (st_from st < length hist)%nat by by eapply (Forall_lookup_1 _ _ i st Hf).
        split_and!; [split; [lia|by rewrite (Hfx st Hst)]|by rewrite lookup_app_r, Nat.sub_diag|].
        intros p. by apply committed_version.
    + intros j x Hj. destruct (Hwr j x Hj) as (t' & ? & ? & ?). eauto.
    + intros m0 safe Hk. destruct (Hck m0 safe Hk) as (? & ? & ? & ?).
      split_and!; try done. cbn. lia.
    + intros m0 l Hl. destruct (Htd m0 l Hl). split; [done|]. by apply (todo_ok_writer w w' g g).
  - apply (cross_same Ls i L); [exact (ginv_cross _ _ _ _ _ HG)|done|by left|by left].
Qed.

(** ** Accesses of a checkpoint *)

Lemma ckpt_locked_holds L :
  ckpt_locked L = true -> k_hold L LCkpt = HWrite /\ k_hold L (LRead 0) = HWrite.
Proof. unfold ckpt_locked. by rewrite andb_true_iff, !bool_decide_eq_true. Qed.

(** The others have no checkpoint and no transaction on slot 0. *)
Lemma ckpt_alone w hist sts Ls g i j L Lj :
  ginv w hist sts Ls g -> Ls !! i = Some L -> Ls !! j = Some Lj -> j <> i ->
  ckpt_locked L = true ->
  k_load Lj = None /\ k_ck Lj = None /\ k_todo Lj = None /\ ~ tx_at Lj 0.
Proof.
  intros HG Hi Hj Hne Hc. apply ckpt_locked_holds in Hc as [Hc H0].
  destruct (ginv_start _ _ _ _ _ _ _ HG Hj) as [stj Hstj].
  destruct (gi_local _ _ _ _ _ HG j Lj stj Hj Hstj) as [_ _ _ Hlo Htx _ Hck Htd].
  assert (forall l, valid_lock l -> k_hold L l = HWrite -> k_hold Lj l = HNone) as Hx.
  { intros l Hv Hl. apply (lock_inv_writer (w_shared w) Ls l i j L Lj); try done.
    by apply (gi_locks _ _ _ _ _ HG l Hv). }
  assert (ckpt_locked Lj <> true) as Hn.
  { intros H. apply ckpt_locked_holds in H as [H _]. by rewrite Hx in H. }
  split_and!.
  - destruct (k_load Lj) as [[nb m]|]; [|done]. by destruct (Hlo nb m eq_refl).
  - destruct (k_ck Lj) as [[m0 safe]|]; [|done]. by destruct (Hck m0 safe eq_refl).
  - destruct (k_todo Lj) as [[m l]|]; [|done]. by destruct (Htd m l eq_refl).
  - intros (t & Ht & Hs). destruct (to_slot _ _ _ _ _ _ (Htx t Ht)) as [_ Hh].
    apply Hh. rewrite Hs. apply Hx; [cbn; lia|done].
Qed.

(** A change made by a checkpoint: frames counted as backfilled, pages of the
    database file, the bound on backfilling. *)
Record ckpt_change (w w' : world) (g g' : ghost) : Prop := mkCkptChange {
  cc_words : forall l, lock_word (w_shared w') l = lock_word (w_shared w) l;
  cc_meta : meta w' = with_nb (meta w) (nb_of w');
  cc_nb : nb_of w <= nb_of w';
  cc_log : w_log w' = w_log w;
  cc_base : g_base g' = g_base g;
  cc_pages : g_pages g' = g_pages g;
  cc_hw : g_hw g <= g_hw g';
  cc_cur : w_guards w = O \/ nb_of w' = nb_of w
}.

Lemma cc_max w w' g g' : ckpt_change w w' g g' -> max_of w' = max_of w.
Proof. intros H. by rewrite (cc_meta _ _ _ _ H). Qed.

Lemma linv_ckpt w w' hist sts Ls g g' i L st :
  ginv w hist sts Ls g -> Ls !! i = Some L -> ckpt_change w w' g g' ->
  (forall t, k_tx L = Some t -> g_hw g' <= t_max t) ->
  linv w g hist st L ->
  linv w' g' (hist ++ [w']) st (set_ckpt L None (k_ck L) None).
Proof.
  intros HG Hi Hcc Hhw [Hm Hc Hme Hlo Htx Hwr Hck Htd].
  pose proof (cc_max _ _ _ _ Hcc) as Emax. pose proof (cc_nb _ _ _ _ Hcc) as Hnb.
  constructor; kcbn; try done.
  - intros s v Hs. destruct (Hm s v Hs). unfold mark_of. by rewrite (cc_words _ _ _ _ Hcc).
  - intros s Hs. destruct (Hc s Hs) as [Hg Hsn]. split; [done|].
    destruct (cc_cur _ _ _ _ Hcc) as [Hz|Hz].
    + pose proof (guards_pos Ls i L Hi Hg). rewrite (gi_guards _ _ _ _ _ HG) in Hz.
      unfold guards in *. lia.
    + rewrite <- Hsn. unfold snapshot_of. by rewrite (cc_meta _ _ _ _ Hcc), Hz.
  - destruct (k_meta L) as [m|]; [|done]. destruct Hme as [? [? E]]. split; [done|].
    split; [lia|]. rewrite (cc_meta _ _ _ _ Hcc) at 1. by rewrite E.
  - intros t Ht. destruct (Htx t Ht) as [Hsl Hlo' _ Hag Hmx Hmk Hse].
    constructor; kcbn; rewrite ?Emax, ?(cc_log _ _ _ _ Hcc), ?(cc_pages _ _ _ _ Hcc); try done.
    + lia.
    + by apply Hhw.
    + intros Hle. destruct (Hse Hle) as (k & wk & ? & ? & Hp). exists k, wk.
      rewrite (cc_log _ _ _ _ Hcc), (cc_base _ _ _ _ Hcc).
      split_and!; try done. by apply lookup_app_l_Some.
  - rewrite (cc_log _ _ _ _ Hcc). done.
  - rewrite Emax. done.
Qed.

(** A step of the checkpoint of connection [i]. *)
Lemma ckpt_step w w' hist sts Ls g g' i L st nb m todo :
  ginv w hist sts Ls g -> Ls !! i = Some L -> sts !! i = Some st -> ckpt_locked L = true ->
  ckpt_change w w' g g' -> dinv w' g' -> w_guards w' = w_guards w ->
  (forall j Lj t, Ls !! j = Some Lj -> k_tx Lj = Some t -> g_hw g' <= t_max t) ->
  nb_of w' = nb -> m <= max_of w -> todo_ok w' g' (fst todo) (snd todo) ->
  let L' := set_ckpt L (Some (nb, m)) (k_ck L) (Some todo) in
  ginv w' (hist ++ [w']) sts (<[i := L']> Ls) g' /\ forall p, committed w' p = committed w p.
Proof.
  intros HG Hi Hst Hcl Hcc Hd' Hgu Hhw Enb Hmx Htodo L'. unfold L'. split.
  - apply (ginv_update w w' hist sts Ls g g' i L _ st); try done.
    + intros l Hv. destruct (gi_locks _ _ _ _ _ HG l Hv) as (v & Hw & Hu & Hx).
      exists v. rewrite (cc_words _ _ _ _ Hcc), !(cnt_same _ l Ls i L) by done. done.
    + rewrite Hgu, (guards_same Ls i L) by done. exact (gi_guards _ _ _ _ _ HG).
    + pose proof (linv_ckpt w w' hist sts Ls g g' i L st HG Hi Hcc (fun t => Hhw i L t Hi)
        (gi_local _ _ _ _ _ HG i L st Hi Hst)) as [Hm Hc Hme Hlo Htx Hwr Hck Htd].
      constructor; kcbn; try done.
      * intros ? ? [= <- <-]. rewrite (cc_max _ _ _ _ Hcc). done.
      * intros t Ht. by eapply tx_ok_know; [apply Htx|..].
      * intros ? ? [= E]. subst todo. done.
    + intros j Lj stj Hne Hj Hstj HLj.
      destruct (ckpt_alone w hist sts Ls g i j L Lj HG Hi Hj Hne Hcl) as (El & Ek & Ed & _).
      pose proof (linv_ckpt w w' hist sts Ls g g' j Lj stj HG Hj Hcc (fun t => Hhw j Lj t Hj) HLj)
        as HL. destruct Lj. cbn in *. by subst.
    + apply (cross_same Ls i L); [exact (ginv_cross _ _ _ _ _ HG)|done|by left|by left].
  - intros p. rewrite (committed_version w' g' p Hd').
    rewrite (committed_version w g p (gi_data _ _ _ _ _ HG)).
    by rewrite (cc_max _ _ _ _ Hcc), (cc_log _ _ _ _ Hcc), (cc_base _ _ _ _ Hcc).
Qed.

Lemma tx_hw w hist sts Ls g j Lj t :
  ginv w hist sts Ls g -> Ls !! j = Some Lj -> k_tx Lj = Some t -> g_hw g <= t_max t.
Proof.
  intros HG Hj Ht. destruct (ginv_start _ _ _ _ _ _ _ HG Hj) as [stj Hstj].
  exact (to_hw _ _ _ _ _ _ (li_tx _ _ _ _ _ (gi_local _ _ _ _ _ HG j Lj stj Hj Hstj) t Ht)).
Qed.

Lemma set_ckpt_id L :
  set_ckpt L (k_load L) (k_ck L) (k_todo L) = L.
Proof. by destruct L. Qed.

Lemma sound_publish_backfill n : sound (APublishBackfill n).
Proof.
  intros w hist sts Ls g i L HG Hi (_ & nb & m0 & Hl & Ht & Hle).
  destruct (ginv_start _ _ _ _ _ _ _ HG Hi) as [st Hst].
  pose proof (gi_data _ _ _ _ _ HG) as Hd. destruct (di_range _ _ Hd) as (? & ? & ? & ?).
  destruct (gi_local _ _ _ _ _ HG i L st Hi Hst) as [_ _ _ Hlo _ _ _ Htd].
  destruct (Hlo nb m0 Hl) as (Hcl & Enb & Hm0).
  destruct (Htd n [] Ht) as (_ & Hn & Hhw & _ & Hdb).
  cbn [exec]. unfold exclusively. destruct (w_guards w) eqn:Eg; [|done].
  set (w' := with_shared w _). exists (set_ckpt L (Some (n, m0)) (k_ck L) (k_todo L)), g.
  split; [cbn; intros ? ? E; rewrite Hl in E; by simplify_eq|].
  assert (ckpt_change w w' g g) as Hcc by (constructor; try done; [cbn; lia|by left]).
  rewrite Ht.
  destruct (ckpt_step w w' hist sts Ls g g i L st n m0 (n, []) HG Hi Hst Hcl Hcc) as [? ?];
    try done.
  - destruct Hd as [Ho Hh Hr Hf Hc Ha Hdb' Hs]. constructor; try done; cbn; [lia|].
    intros p. apply Hdb; [lia|apply not_elem_of_nil].
  - intros j Lj t. by eapply tx_hw.
  - unfold todo_ok. cbn. split_and!; try done.
    + intros p f Hpf. by apply elem_of_nil in Hpf.
    + intros _ p Hp. apply Hdb; [lia|done].
Qed.

Lemma agree_lookup pages log n f :
  agree pages log n -> 1 <= f <= n ->
  pages !! Z.to_nat (f - 1) = fst <$> log !! Z.to_nat (f - 1).
Proof.
  intros (_ & _ & Ht) Hf.
  rewrite <- (lookup_take_lt pages (Z.to_nat n)), Ht, list_lookup_fmap by lia.
  by rewrite lookup_take_lt by lia.
Qed.

(** The pages [iter_latest_frames] returns are those the range touches. *)
Lemma iter_todo w g lo hi :
  dinv w g -> lo = nb_of w + 1 -> lo <= hi -> hi <= max_of w ->
  let g' := mkGhost (g_base g) (Z.max (g_hw g) hi) (g_pages g) in
  todo_ok w g' hi (iter_latest_frames (w_shared w) lo hi).
Proof.
  intros Hd -> Hlo Hhi g'. destruct (di_range _ _ Hd) as (? & ? & ? & ?).
  destruct (di_cache _ _ Hd) as [Hrep _]. pose proof (di_agree _ _ Hd) as Hag.
  assert (forall f p, 1 <= f <= hi ->
    g_pages g !! Z.to_nat (f - 1) = Some p <-> exists v, w_log w !! Z.to_nat (f - 1) = Some (p, v))
    as Hlk.
  { intros f p Hf. rewrite (agree_lookup _ _ _ f Hag) by lia. rewrite fmap_Some. split.
    - intros ([q v] & Hl & ->). eauto.
    - intros (v & Hl). by exists (p, v). }
  assert (hi <= lenZ (g_pages g)) as Hlen by (destruct Hag; lia).
  unfold todo_ok. cbn [g_hw g_base g']. split_and!; [done|lia| |].
  - intros p f Hin. apply (iter_latest_frames_elem _ _ _ _ _ _ Hrep) in Hin
      as (Hf & _ & Hp & Hmax).
    split; [lia|]. apply Hlk in Hp as [v Hv]; [|lia]. exists v. split; [done|].
    apply (version_latest _ _ p f); [lia|done|]. intros (f' & v' & Hf' & Hl').
    assert (f' <= f); [|lia]. apply Hmax; [lia|lia|]. apply Hlk; [lia|eauto].
  - intros Hnb p Hp.
    assert (~ touched (w_log w) p (nb_of w) hi) as Hnt.
    { intros (f & v & Hf & Hl). apply Hp.
      pose proof (latest_frame_positions p (g_pages g) (nb_of w + 1) hi) as Hpos.
      destruct (latest_frame_in_range _ _ _) as [f'|].
      - apply list_elem_of_fmap. exists (p, f'). split; [done|].
        by apply (iter_latest_frames_elem _ _ _ _ _ _ Hrep).
      - destruct (Hpos f); [lia|lia|]. apply Hlk; [lia|eauto]. }
    destruct (di_db _ _ Hd p) as [(f & v & Hf & Hl)|Hdb].
    + left. exists f, v. split; [|done].
      destruct (Z.le_gt_cases f hi); [|lia]. exfalso. apply Hnt. exists f, v. split; [lia|done].
    + right. rewrite Hdb. symmetry. apply version_untouched; [lia|done].
Qed.

Lemma sound_iter_latest lo hi : sound (AIterLatest lo hi).
Proof.
  intros w hist sts Ls g i L HG Hi (nb & m & m0 & safe & Hl & -> & Hlo & Hk & Hsafe).
  destruct (ginv_start _ _ _ _ _ _ _ HG Hi) as [st Hst].
  pose proof (gi_data _ _ _ _ _ HG) as Hd. destruct (di_range _ _ Hd) as (? & ? & ? & ?).
  destruct (gi_local _ _ _ _ _ HG i L st Hi Hst) as [_ _ _ Hload _ _ Hck _].
  destruct (Hload nb m Hl) as (Hcl & Enb & Hm).
  destruct (Hck m0 safe Hk) as (_ & Hn0 & Hm0 & Hs0).
  assert (hi <= max_of w) as Hhi.
  { pose proof (Hsafe 1%nat ltac:(lia)). specialize (Hs0 1%nat). lia. }
  set (g' := mkGhost (g_base g) (Z.max (g_hw g) hi) (g_pages g)).
  cbn [exec]. exists (set_ckpt L (k_load L) (k_ck L)
    (Some (hi, iter_latest_frames (w_shared w) (nb + 1) hi))), g'. split; [done|].
  rewrite Hl.
  destruct (ckpt_step w w hist sts Ls g g' i L st nb m
    (hi, iter_latest_frames (w_shared w) (nb + 1) hi) HG Hi Hst Hcl) as [? ?]; try done.
  - constructor; try done; [by destruct (meta w)|cbn; lia|by right].
  - destruct Hd as [Ho Hh Hr Hf Hc Ha Hdb Hs]. constructor; try done; cbn; [lia|].
    intros p. destruct (Hdb p) as [(f & v & Hf' & Hlk)|?]; [left|by right].
    exists f, v. split; [lia|done].
  - intros j Lj t Hj Ht. pose proof (tx_hw _ _ _ _ _ _ _ _ HG Hj Ht). cbn.
    assert (hi <= t_max t); [|lia].
    assert (t_slot t <> 0%nat) as Hne.
    { intros E. destruct (decide (j = i)) as [->|Hne].
      - apply Hn0. simplify_eq. by exists t.
      - destruct (ckpt_alone w hist sts Ls g i j L Lj HG Hi Hj Hne Hcl) as (_ & _ & _ & Hx).
        apply Hx. by exists t. }
    pose proof (gi_cross _ _ _ _ _ HG i j L Lj m0 safe t Hi Hj Hk Ht Hne).
    destruct (ginv_start _ _ _ _ _ _ _ HG Hj) as [stj Hstj].
    destruct (to_slot _ _ _ _ _ _
      (li_tx _ _ _ _ _ (gi_local _ _ _ _ _ HG j Lj stj Hj Hstj) t Ht)) as [Hlt _].
    pose proof (Hsafe (t_slot t) ltac:(lia)). lia.
  - apply iter_todo; try done. lia.
Qed.

Lemma with_nb_id m : m = with_nb m (m_nbackfills m).
Proof. by destruct m. Qed.

(** A page of the pages to copy may change in the database file. *)
Lemma db_step w hist sts Ls g i L nb m todo p f l image l' :
  ginv w hist sts Ls g -> Ls !! i = Some L -> k_load L = Some (nb, m) ->
  k_todo L = Some (todo, (p, f) :: l) ->
  let w' := mkWorld (w_shared w) (w_guards w) (w_log w) (<[p := image]> (w_db w)) in
  (l' = (p, f) :: l \/ l' = l /\ version (g_base g) (w_log w) todo p = Some image) ->
  ginv w' (hist ++ [w']) sts
    (<[i := set_ckpt L (Some (nb, m)) (k_ck L) (Some (todo, l'))]> Ls) g /\
  forall q, committed w' q = committed w q.
Proof.
  intros HG Hi Hl Ht w' Hcase. destruct (ginv_start _ _ _ _ _ _ _ HG Hi) as [st Hst].
  pose proof (gi_data _ _ _ _ _ HG) as Hd.
  destruct (gi_local _ _ _ _ _ HG i L st Hi Hst) as [_ _ _ Hlo _ _ _ Htd].
  destruct (Hlo nb m Hl) as (Hcl & Enb & Hm). destruct (Htd _ _ Ht) as (_ & Hmx & Hhw & Hel & Hdb).
  destruct (Hel p f) as (Hf & v & Hv & Hver); [by left|].
  assert (forall x, x ∈ l' -> x ∈ (p, f) :: l) as Hsub
    by (destruct Hcase as [->|[-> _]]; [done|]; intros x Hx; by right).
  apply (ckpt_step w w' hist sts Ls g g i L st nb m (todo, l') HG Hi Hst Hcl); try done.
  - constructor; try done; [apply with_nb_id|by right].
  - destruct Hd as [Ho Hh Hr Hfr Hc Ha Hdb' Hs]. constructor; try done. cbn. intros q.
    destruct (decide (q = p)) as [->|Hne]; [|by rewrite lookup_insert_ne].
    left. exists f, v. split; [lia|done].
  - intros j Lj t. by eapply tx_hw.
  - unfold todo_ok. cbn. split_and!; try done; [by eauto|].
    intros Hnb q Hq. destruct (decide (q = p)) as [->|Hne].
    + destruct Hcase as [->|[-> E]]; [|right; by rewrite lookup_insert_eq].
      exfalso. apply Hq. cbn. by left.
    + rewrite lookup_insert_ne by done. apply (Hdb Hnb). cbn.
      rewrite not_elem_of_cons. split; [done|].
      destruct Hcase as [->|[-> _]]; [|done]. cbn in Hq. by apply not_elem_of_cons in Hq as [_ ?].
Qed.

Lemma sound_copy_frame p f : sound (ACopyFrame p f).
Proof.
  intros w hist sts Ls g i L HG Hi ([[nb m0] Hl] & m & l & Ht).
  destruct (ginv_start _ _ _ _ _ _ _ HG Hi) as [st Hst].
  destruct (li_todo _ _ _ _ _ (gi_local _ _ _ _ _ HG i L st Hi Hst) m _ Ht)
    as (_ & _ & _ & Hel & _).
  destruct (Hel p f) as (_ & v & Hv & Hver); [by left|].
  cbn [exec]. rewrite Hv. cbn [unwrap mbind Result_bind].
  exists (set_ckpt L (k_load L) (k_ck L) (Some (m, l))), g.
  split; [cbn; intros ? ? ? E; rewrite Ht in E; by simplify_eq|]. rewrite Hl.
  destruct (db_step w hist sts Ls g i L nb m0 m p f l v l HG Hi Hl Ht) as [? ?]; [by right|done].
Qed.

Lemma sound_torn_write p image : sound (ATornWrite p image).
Proof.
  intros w hist sts Ls g i L HG Hi ([[nb m0] Hl] & m & f & l & Ht).
  cbn [exec]. exists L, g. split; [done|].
  destruct (db_step w hist sts Ls g i L nb m0 m p f l image ((p, f) :: l) HG Hi Hl Ht)
    as [HG' ?]; [by left|].
  rewrite <- Hl, <- Ht, set_ckpt_id in HG'. done.
Qed.

Lemma restart_header_ok s rnd :
  length (r_read_locks (runtime s)) = 5%nat ->
  Forall (fun x => exists v, is_u32 v /\ x = enc v 0 1) (r_read_locks (runtime s)) ->
  restart_wal_header s rnd =
  Ok (mkShared (restarted (metadata s) rnd)
        (set_read_locks (set_cache (runtime s) ∅ 0)
           [enc 0 0 1; enc 0 0 1; enc READMARK_NOT_USED 0 1; enc READMARK_NOT_USED 0 1;
            enc READMARK_NOT_USED 0 1])).
Proof.
  intros Hlen Hall. unfold restart_wal_header. cbn [set_cache r_read_locks].
  destruct (r_read_locks (runtime s)) as [|x0 [|x1 [|x2 [|x3 [|x4 [|]]]]]]; try done.
  rewrite !Forall_cons in Hall.
  destruct Hall as ((v0 & ? & ->) & (v1 & ? & ->) & (v2 & ? & ->) & (v3 & ? & ->) & (v4 & ? & ->) & _).
  assert (forall v x, is_u32 v -> is_u32 x -> set_value_exclusive (enc v 0 1) x = Ok (enc x 0 1))
    as Hset.
  { intros v x Hv Hx. unfold set_value_exclusive.
    assert (fields_ok v 0 1) by (unfold fields_ok; rlia).
    by rewrite has_writer_enc, set_value_desired_enc. }
  assert (is_u32 0 /\ is_u32 READMARK_NOT_USED) as [? ?] by (unfold READMARK_NOT_USED; rlia).
  do 5 (rewrite Hset by done; cbn [mbind Result_bind]). done.
Qed.

(** The words of the slots after a restart. *)
Lemma restart_words (sl : nat) :
  (sl < 5)%nat ->
  exists v, is_u32 v /\
    [enc 0 0 1; enc 0 0 1; enc READMARK_NOT_USED 0 1; enc READMARK_NOT_USED 0 1;
     enc READMARK_NOT_USED 0 1] !! sl = Some (enc v 0 1).
Proof.
  intros Hs. assert (is_u32 0 /\ is_u32 READMARK_NOT_USED) as [? ?]
    by (unfold READMARK_NOT_USED; rlia).
  do 2 (destruct sl as [|sl]; [by exists 0|]).
  do 3 (destruct sl as [|sl]; [by exists READMARK_NOT_USED|]). lia.
Qed.

(** Nothing of the others is left when every slot is held. *)
Lemma restart_alone w hist sts Ls g i j L Lj stj m :
  ginv w hist sts Ls g -> Ls !! i = Some L -> Ls !! j = Some Lj -> sts !! j = Some stj ->
  j <> i -> (forall s, (s < 5)%nat -> k_hold L (LRead s) = HWrite) -> k_meta L = Some m ->
  w_guards w = O ->
  (forall s, (s < 5)%nat -> k_hold Lj (LRead s) = HNone) /\
  k_tx Lj = None /\ k_meta Lj = None /\ k_wr Lj = [] /\ k_cur Lj = None /\ k_load Lj = None /\
  k_ck Lj = None /\ k_todo Lj = None /\ k_hold Lj LWrite = HNone /\
  (forall s, k_mark Lj s = None).
Proof.
  intros HG Hi Hj Hstj Hne Hall Hm Hgu.
  destruct (gi_local _ _ _ _ _ HG j Lj stj Hj Hstj) as [Hmk Hc Hme Hlo Htx Hwr Hck Htd].
  assert (forall s, (s < 5)%nat -> k_hold Lj (LRead s) = HNone) as Hno.
  { intros s Hs. apply (lock_inv_writer (w_shared w) Ls (LRead s) i j L Lj); try done; [|by apply Hall].
    by apply (gi_locks _ _ _ _ _ HG (LRead s)). }
  assert (ckpt_locked Lj <> true) as Hcl.
  { intros H. apply ckpt_locked_holds in H as [_ H]. rewrite Hno in H by lia. done. }
  pose proof (writer_alone w hist sts Ls g i j L Lj m HG Hi Hj Hne Hm) as Hme'.
  rewrite Hme' in Hme. split_and!; try done.
  - destruct (k_tx Lj) as [t|] eqn:E; [|done].
    destruct (to_slot _ _ _ _ _ _ (Htx t eq_refl)) as [Hs Hh]. by rewrite Hno in Hh.
  - destruct (k_wr Lj) as [|x l] eqn:E; [done|].
    destruct (Hwr 0%nat x eq_refl) as (? & _ & [? Hx] & _). congruence.
  - destruct (k_cur Lj) as [s|] eqn:E; [|done]. destruct (Hc s eq_refl) as [Hg _].
    pose proof (guards_pos Ls j Lj Hj Hg). rewrite (gi_guards _ _ _ _ _ HG) in Hgu.
    unfold guards in *. lia.
  - destruct (k_load Lj) as [[nb n]|]; [|done]. by destruct (Hlo nb n eq_refl).
  - destruct (k_ck Lj) as [[m0 safe]|]; [|done]. by destruct (Hck m0 safe eq_refl).
  - destruct (k_todo Lj) as [[n l]|]; [|done]. by destruct (Htd n l eq_refl).
  - intros s. destruct (k_mark Lj s) as [v|] eqn:E; [|done].
    destruct (Hmk s v E) as [Hh Hw]. destruct (decide (s < 5)%nat) as [Hs|Hs].
    + by rewrite Hno in Hh.
    + unfold mark_of, lock_word in Hw. rewrite lookup_ge_None_2 in Hw; [done|].
      rewrite (di_slots _ _ (gi_data _ _ _ _ _ HG)). lia.
Qed.

(** When everything is backfilled the database file is the committed
    database. *)
Lemma backfilled_db w hist sts Ls g i L m p :
  ginv w hist sts Ls g -> Ls !! i = Some L -> k_meta L = Some m -> all_backfilled L m ->
  w_db w !! p = version (g_base g) (w_log w) (max_of w) p.
Proof.
  intros HG Hi Hm Hall. pose proof (gi_data _ _ _ _ _ HG) as Hd.
  destruct (di_range _ _ Hd) as (? & ? & ? & ?).
  pose proof (ginv_frozen _ _ _ _ _ _ _ _ HG Hi Hm) as Hfr.
  destruct (ginv_start _ _ _ _ _ _ _ HG Hi) as [st Hst].
  unfold all_backfilled in Hall. rewrite (frozen_max _ _ Hfr) in Hall.
  destruct Hall as [Hnb|Ht].
  - destruct Hfr as [Hle _].
    destruct (di_db _ _ Hd p) as [(f & v & Hf & _)| ->]; [lia|]. f_equal. lia.
  - destruct (li_todo _ _ _ _ _ (gi_local _ _ _ _ _ HG i L st Hi Hst) _ _ Ht)
      as (_ & _ & _ & _ & Hdb).
    destruct (Hdb ltac:(lia) p) as [(f & v & Hf & _)|?]; [apply not_elem_of_nil|lia|done].
Qed.

Lemma restarted_u32 m rnd : header_u32 (m_wal_header m) -> header_u32 (m_wal_header (restarted m rnd)).
Proof.
  unfold header_u32. cbn. rewrite !Forall_cons.
  intros (? & ? & ? & ? & ? & ? & ? & ? & ?).
  assert (forall x, is_u32 (u32 x)) by (intros x; unfold is_u32, u32; divlia).
  split_and!; auto.
Qed.

Lemma linv_nothing w g hist st L :
  k_tx L = None -> k_meta L = None -> k_wr L = [] -> k_cur L = None -> k_load L = None ->
  k_ck L = None -> k_todo L = None -> k_hold L LWrite = HNone -> (forall s, k_mark L s = None) ->
  linv w g hist st L.
Proof.
  intros Ht Hm Hw Hc Hl Hk Hd Hh Hmk.
  constructor; rewrite ?Ht, ?Hm, ?Hw, ?Hc, ?Hl, ?Hk, ?Hd; try done.
  intros s v. by rewrite Hmk.
Qed.

(** The locks after a restart by the holder of every slot. *)
Lemma restart_locks w hist sts Ls g i L L' m' l :
  ginv w hist sts Ls g -> Ls !! i = Some L ->
  (forall s, (s < 5)%nat -> k_hold L (LRead s) = HWrite) -> k_hold L' = k_hold L ->
  valid_lock l ->
  lock_inv (mkShared m' (set_read_locks (set_cache (runtime (w_shared w)) ∅ 0)
    [enc 0 0 1; enc 0 0 1; enc READMARK_NOT_USED 0 1; enc READMARK_NOT_USED 0 1;
     enc READMARK_NOT_USED 0 1])) (<[i := L']> Ls) l.
Proof.
  intros HG Hi Hall Eh Hv.
  destruct (gi_locks _ _ _ _ _ HG l Hv) as (v & Hw & Hu & Hx). unfold lock_inv.
  rewrite !(cnt_same _ l Ls i L L') by (done || by rewrite Eh).
  destruct l as [s| | |]; try (exists v; done).
  pose proof (cnt_pos HWrite (LRead s) Ls i L Hi (Hall s Hv)).
  assert (cnt HWrite (LRead s) Ls = 1 /\ cnt HRead (LRead s) Ls = 0) as [-> ->] by lia.
  destruct (restart_words s Hv) as (x & Hx1 & Hx2). exists x. split_and!; try apply Hx1; try done.
  by right.
Qed.

Lemma slot_words w hist sts Ls g i L :
  ginv w hist sts Ls g -> Ls !! i = Some L ->
  (forall s, (s < 5)%nat -> k_hold L (LRead s) = HWrite) ->
  Forall (fun x => exists v, is_u32 v /\ x = enc v 0 1) (r_read_locks (runtime (w_shared w))).
Proof.
  intros HG Hi Hall. apply Forall_lookup. intros s x Hs.
  assert (s < 5)%nat as Hlt.
  { rewrite <- (di_slots _ _ (gi_data _ _ _ _ _ HG)). by eapply lookup_lt_Some. }
  destruct (gi_locks _ _ _ _ _ HG (LRead s) Hlt) as (v & Hw & Hu & Hx).
  pose proof (cnt_pos HWrite (LRead s) Ls i L Hi (Hall s Hlt)).
  assert (cnt HWrite (LRead s) Ls = 1 /\ cnt HRead (LRead s) Ls = 0) as [E1 E2] by lia.
  rewrite E1, E2 in Hw. cbn in Hw. rewrite Hs in Hw. exists v. by simplify_eq.
Qed.

Lemma version_zero base log p : version base log 0 p = base !! p.
Proof. done. Qed.

Lemma dinv_restart w g w' m rnd :
  dinv w g -> frozen m (meta w) -> meta w' = restarted (meta w) rnd ->
  w_db w' = w_db w -> w_log w' = w_log w -> r_file (runtime (w_shared w')) = true ->
  r_frame_cache (runtime (w_shared w')) = ∅ -> r_high_water (runtime (w_shared w')) = 0 ->
  length (r_read_locks (runtime (w_shared w'))) = 5%nat ->
  dinv w' (mkGhost (w_db w) 0 []).
Proof.
  intros Hd Hfr Em Edb Elog Ef Ec Eh Es. destruct (di_open _ _ Hd) as [He _].
  constructor; rewrite ?Em; try done.
  - apply restarted_u32. exact (di_header _ _ Hd).
  - split; [intros p; by rewrite Ec|done].
  - by apply agree_zero.
  - intros p. right. by rewrite Edb.
Qed.

Lemma sound_restart rnd : flex_sound (ARestart rnd).
Proof.
  intros w hist sts Ls g i L Hfx HG Hi (_ & Hall & (m & Hm & Hbf) & Hslot).
  destruct (ginv_start _ _ _ _ _ _ _ HG Hi) as [st Hst].
  pose proof (gi_data _ _ _ _ _ HG) as Hd.
  pose proof (ginv_frozen _ _ _ _ _ _ _ _ HG Hi Hm) as Hfr.
  assert (restarted (meta w) rnd = restarted m rnd) as Erm by (destruct Hfr as [_ ->]; done).
  cbn [exec]. unfold exclusively. destruct (w_guards w) eqn:Egu; [|done].
  rewrite (restart_header_ok _ rnd (di_slots _ _ Hd) (slot_words _ _ _ _ _ _ _ HG Hi Hall)).
  cbn [mbind Result_bind]. set (s' := mkShared _ _). set (w' := with_shared w s').
  set (L' := mkKnow (k_hold L) (fun _ => None) (k_guard L) None (Some (restarted m rnd)) None
             (match k_tx L with Some t => Some (mkTx (t_slot t) (-1) 0) | None => None end)
             [] None None).
  set (g' := mkGhost (w_db w) 0 []).
  assert (dinv w' g') as Hd'.
  { apply (dinv_restart w g w' m rnd); try done. apply (di_open _ _ Hd). }
  exists L', g'. split.
  { cbn. intros m' E. rewrite Hm in E. injection E as <-. split; [|done].
    transitivity (meta_snapshot (restarted (meta w) rnd)); [done|]. by rewrite Erm. }
  split.
  - apply (ginv_update w w' hist sts Ls g g' i L L' st HG Hi Hst); try done.
    + intros l Hv. by apply (restart_locks w hist sts Ls g i L).
    + rewrite (guards_same Ls i L L') by done. exact (gi_guards _ _ _ _ _ HG).
    + destruct (gi_local _ _ _ _ _ HG i L st Hi Hst) as [_ _ Hme _ Htx _ _ _].
      rewrite Hm in Hme. constructor; try done.
      * split; [apply Hme|]. split; [done|]. cbn. by rewrite Erm.
      * intros t Ht. cbn in Ht. destruct (k_tx L) as [t0|] eqn:Et; [|done]. simplify_eq.
        rewrite (Hslot t0 eq_refl).
        constructor; kcbn; try done;
          [split; [lia|]; change (k_hold L (LRead 0) <> HNone); by rewrite Hall by lia|
           by apply agree_zero|by left|].
        intros _. exists (length hist), w'. destruct (gi_hist _ _ _ _ _ HG) as [_ Hf].
        assert (st_from st < length hist)%nat by by eapply (Forall_lookup_1 _ _ i st Hf).
        split_and!; [split; [lia|by rewrite (Hfx st Hst)]|by rewrite lookup_app_r, Nat.sub_diag|done].
    + intros j Lj stj Hne Hj Hstj _.
      destruct (restart_alone w hist sts Ls g i j L Lj stj m HG Hi Hj Hstj Hne Hall Hm Egu)
        as (_ & ? & ? & ? & ? & ? & ? & ? & ? & ?). by apply linv_nothing.
    + intros a b La Lb m0 safe t Ha Hb Hka. exfalso.
      apply list_lookup_insert_Some in Ha as [(-> & <- & _)|[Hne Ha]]; [done|].
      destruct (ginv_start _ _ _ _ _ _ _ HG Ha) as [sta Hsta].
      destruct (restart_alone w hist sts Ls g i a L La sta m HG Hi Ha Hsta) as
        (_ & _ & _ & _ & _ & _ & ? & _); congruence || done.
  - intros _ p. rewrite (committed_version w g p Hd).
    rewrite <- (backfilled_db w hist sts Ls g i L m p HG Hi Hm Hbf). done.
Qed.

(** ** Soundness of the logic *)

Lemma sound_flex e : sound e -> flex_sound e.
Proof. intros H w hist sts Ls g i L _. apply H. Qed.

Theorem access_sound (e : act) : flex_sound e.
Proof.
  destruct e; auto using sound_flex, sound_load, sound_shared, sound_drop_shared, sound_try, sound_unlock,
    sound_downgrade, sound_get_value, sound_set_value, sound_header, sound_initialized,
    sound_wal_file, sound_prepare_header, sound_mark_initialized, sound_prepare_truncate,
    sound_truncate_log, sound_write_frames, sound_cache_frame, sound_rollback_cache,
    sound_publish_commit, sound_publish_backfill, sound_iter_latest, sound_copy_frame,
    sound_torn_write, sound_bump_epoch, sound_restart.
Qed.

Lemma learn_tx_sound w hist sts Ls g i L s slot :
  flexible sts i -> ginv w hist sts Ls g -> Ls !! i = Some L ->
  k_cur L = Some s -> k_tx L = None -> (slot < 5)%nat -> k_hold L (LRead slot) <> HNone ->
  (slot <> 0%nat -> exists v, k_mark L slot = Some v /\ v <= s_max_frame s) -> k_ck L = None ->
  ginv w hist sts (<[i := set_tx L (Some (mkTx slot (s_nbackfills s) (s_max_frame s)))]> Ls) g.
Proof.
  intros Hfx HG Hi Hcur Hnt Hs Hh Hmk Hck.
  destruct (ginv_start _ _ _ _ _ _ _ HG Hi) as [st Hst].
  pose proof (gi_data _ _ _ _ _ HG) as Hd. destruct (di_range _ _ Hd) as (? & ? & ? & ?).
  destruct (gi_local _ _ _ _ _ HG i L st Hi Hst) as [Hm Hc Hme Hlo Htx Hwr Hck' Htd].
  destruct (Hc s Hcur) as [_ <-]. cbn [snapshot_of s_nbackfills s_max_frame] in *.
  apply (ginv_relearn w hist sts Ls g i L _ st HG Hi Hst); try done.
  - constructor; kcbn; try done.
    + intros t [= <-]. constructor; kcbn; try done; [apply Hd|by left| |].
      * intros Hne. destruct (Hmk Hne) as (v & ? & ?). eauto.
      * intros _. by eapply seen_now.
    + intros j x Hj. destruct (Hwr j x Hj) as (t & Ht & _). congruence.
    + intros m0 safe Hk. congruence.
  - intros a b La Lb m0 safe t Ha Hb Hka Htb Hne.
    apply list_lookup_insert_Some in Ha as [(-> & <- & _)|[_ Ha]]; [kcbn; cbn in *; congruence|].
    apply list_lookup_insert_Some in Hb as [(-> & <- & _)|[_ Hb]];
      [|by apply (gi_cross _ _ _ _ _ HG a b La Lb m0 safe t)].
    cbn in Htb. simplify_eq. cbn.
    destruct (ginv_start _ _ _ _ _ _ _ HG Ha) as [sta Hsta].
    destruct (li_ck _ _ _ _ _ (gi_local _ _ _ _ _ HG a La sta Ha Hsta) m0 safe Hka)
      as (_ & _ & ? & Hsf). specialize (Hsf slot). lia.
Qed.

Lemma learn_ck_sound w hist sts Ls g i L nb m :
  ginv w hist sts Ls g -> Ls !! i = Some L -> k_load L = Some (nb, m) -> 0 <= m -> ~ tx_at L 0 ->
  ginv w hist sts (<[i := set_ckpt L (k_load L) (Some (m, fun _ => 0)) (k_todo L)]> Ls) g.
Proof.
  intros HG Hi Hl Hm0 Hn. destruct (ginv_start _ _ _ _ _ _ _ HG Hi) as [st Hst].
  destruct (di_range _ _ (gi_data _ _ _ _ _ HG)) as (? & ? & ? & ?).
  destruct (gi_local _ _ _ _ _ HG i L st Hi Hst) as [Hm Hc Hme Hlo Htx Hwr Hck Htd].
  apply (ginv_relearn w hist sts Ls g i L _ st HG Hi Hst); try done.
  - constructor; kcbn; try done.
    + intros t Ht. by eapply tx_ok_know; [apply Htx|..].
    + intros m0 safe [= <- <-]. destruct (Hlo nb m Hl) as (? & ? & ?). done.
  - intros a b La Lb m0 safe t Ha Hb Hka Htb Hne.
    assert (exists Lb0, Ls !! b = Some Lb0 /\ k_tx Lb0 = Some t) as (Lb0 & Hb0 & Ht0).
    { apply list_lookup_insert_Some in Hb as [(-> & <- & _)|[_ Hb]]; eauto. }
    apply list_lookup_insert_Some in Ha as [(-> & <- & _)|[_ Ha]];
      [|by apply (gi_cross _ _ _ _ _ HG a b La Lb0 m0 safe t)].
    cbn in Hka. simplify_eq. pose proof (tx_hw _ _ _ _ _ _ _ _ HG Hb0 Ht0). lia.
Qed.

Lemma todo_sound w hist sts Ls g i L m l :
  ginv w hist sts Ls g -> Ls !! i = Some L -> ckpt_locked L = true -> todo_ok w g m l ->
  ginv w hist sts (<[i := set_ckpt L (k_load L) (k_ck L) (Some (m, l))]> Ls) g.
Proof.
  intros HG Hi Hcl Ht. destruct (ginv_start _ _ _ _ _ _ _ HG Hi) as [st Hst].
  destruct (gi_local _ _ _ _ _ HG i L st Hi Hst) as [Hm Hc Hme Hlo Htx Hwr Hck Htd].
  apply (ginv_relearn w hist sts Ls g i L _ st HG Hi Hst); try done.
  - constructor; kcbn; try done.
    + intros t Ht'. by eapply tx_ok_know; [apply Htx|..].
    + intros m0 l0 [= <- <-]. done.
  - apply (cross_same Ls i L); [exact (ginv_cross _ _ _ _ _ HG)|done|by left|by left].
Qed.

Lemma learn_lo_sound w hist sts Ls g i L m t n :
  ginv w hist sts Ls g -> Ls !! i = Some L -> k_meta L = Some m -> k_tx L = Some t ->
  n <= m_nbackfills m ->
  ginv w hist sts (<[i := set_tx L (Some (mkTx (t_slot t) n (t_max t)))]> Ls) g.
Proof.
  intros HG Hi Hk Ht Hn. destruct (ginv_start _ _ _ _ _ _ _ HG Hi) as [st Hst].
  destruct (ginv_frozen _ _ _ _ _ _ _ _ HG Hi Hk) as [Hnb _].
  destruct (gi_local _ _ _ _ _ HG i L st Hi Hst) as [Hm Hc Hme Hlo Htx Hwr Hck Htd].
  apply (ginv_relearn w hist sts Ls g i L _ st HG Hi Hst); try done.
  - constructor; kcbn; try done.
    + intros t' [= <-]. destruct (Htx t Ht). constructor; kcbn; try done. lia.
    + intros j x Hj. destruct (Hwr j x Hj) as (t' & Ht' & ? & ?).
      eexists. split_and!; [done|done|]. rewrite Ht in Ht'. by simplify_eq.
    + intros m0 safe Hck0. destruct (Hck m0 safe Hck0) as (? & Hn0 & ? & ?).
      split_and!; try done. intros (t' & Ht' & Hs'). cbn in Ht'. simplify_eq.
      apply Hn0. exists t. done.
  - apply (cross_keep Ls i L); [exact (ginv_cross _ _ _ _ _ HG)|done|done|].
    intros t' [= <-]. exists t. done.
Qed.

Lemma learn_sound w hist sts Ls g i L L' :
  flexible sts i -> ginv w hist sts Ls g -> Ls !! i = Some L -> learn L L' ->
  ginv w hist sts (<[i := L']> Ls) g.
Proof.
  intros Hfx HG Hi Hlearn. destruct (ginv_start _ _ _ _ _ _ _ HG Hi) as [st Hst].
  pose proof (gi_local _ _ _ _ _ HG i L st Hi Hst) as [_ _ _ Hlo _ _ _ Htd].
  destruct Hlearn.
  - by apply learn_tx_sound.
  - by apply (learn_ck_sound w hist sts Ls g i L nb m).
  - destruct (Hlo nb m H) as (? & <- & ?). apply todo_sound; try done.
    pose proof (gi_data _ _ _ _ _ HG) as Hd. destruct (di_range _ _ Hd) as (? & ? & ? & ?).
    unfold todo_ok. split_and!; [lia|lia| |].
    + intros p f Hpf. by apply elem_of_nil in Hpf.
    + intros Hle p _. replace hi with (nb_of w) by lia. apply (di_db _ _ Hd).
  - destruct (Htd m l H) as (? & ? & ? & Hel & Hdb). apply todo_sound; try done.
    unfold todo_ok. split_and!; try done.
    + intros p f Hpf. apply Hel. by rewrite H0.
    + intros Hle p Hp. apply Hdb; [done|]. by rewrite H0.
  - by apply (learn_lo_sound w hist sts Ls g i L m).
  - destruct (gi_local _ _ _ _ _ HG i L st Hi Hst) as [Hm Hc Hme Hlo' Htx Hwr Hck Htd'].
    apply (ginv_relearn w hist sts Ls g i L _ st HG Hi Hst); try done.
    + constructor; kcbn; try done. intros t Ht. by eapply tx_ok_know; [apply Htx|..].
    + apply (cross_same Ls i L); [exact (ginv_cross _ _ _ _ _ HG)|done|by left|by left].
Qed.
