(* ===== verification/WalVerify.v ===== *)
(** * WalVerify: the WAL calls in the program logic

    Proves, in the program logic of [WalLogic], that each call of [WalTxn]
    runs without a failed assertion from a connection between two calls and
    returns to such a state: the locks it holds, its open transaction and its
    position in the log are again what its fields say. *)

From stdpp Require Import gmap.
From S2P Require Import Prelude OnDisk RwLock WalFormat WalShared WalProg WalTxn WalLogic.

(** ** Rules of the logic *)

Lemma wp_bind {A B} (Q : A -> know -> Prop) (R : B -> know -> Prop) (f : A -> prog B) m L :
  wp Q m L -> (forall a L', Q a L' -> wp R (f a) L') -> wp R (m ≫= f) L.
Proof.
  intros Hm Hf. induction Hm as [a L Ha|e k L Hp Hk IH|m L L' Hl Hm IH].
  - by apply Hf.
  - apply wp_do; [done|]. intros r L' Hr. by apply IH.
  - by eapply wp_learn.
Qed.

Lemma wp_mono {A} (Q R : A -> know -> Prop) m L :
  wp Q m L -> (forall a L', Q a L' -> R a L') -> wp R m L.
Proof.
  intros Hm Hi. induction Hm as [a L Ha|e k L Hp Hk IH|m L L' Hl Hm IH].
  - apply wp_ret. auto.
  - apply wp_do; auto.
  - by eapply wp_learn.
Qed.

Lemma wp_call {A} (Q : A -> know -> Prop) e (f : resp e -> prog A) L :
  apre e L -> (forall r L', apost e L r L' -> wp Q (f r) L') -> wp Q (call e ≫= f) L.
Proof. intros Hp Hf. by apply wp_do. Qed.

Lemma wp_call_end e (Q : resp e -> know -> Prop) L :
  apre e L -> (forall r L', apost e L r L' -> Q r L') -> wp Q (call e) L.
Proof. intros Hp Hf. apply wp_do; [done|]. intros r L' H. apply wp_ret. auto. Qed.

Lemma wp_ensure {A} (Q : A -> know -> Prop) b (f : unit -> prog A) L :
  b = true -> wp Q (f tt) L -> wp Q (ensure b ≫= f) L.
Proof. by intros ->. Qed.

(** Knowledge that agrees field by field. *)
Record keq (L L' : know) : Prop := mkKeq {
  kq_hold : forall l, k_hold L' l = k_hold L l;
  kq_mark : forall s, k_mark L' s = k_mark L s;
  kq_guard : k_guard L' = k_guard L;
  kq_cur : k_cur L' = k_cur L;
  kq_meta : k_meta L' = k_meta L;
  kq_load : k_load L' = k_load L;
  kq_tx : k_tx L' = k_tx L;
  kq_wr : k_wr L' = k_wr L;
  kq_ck : k_ck L' = k_ck L;
  kq_todo : k_todo L' = k_todo L
}.

Lemma keq_refl L : keq L L.
Proof. by constructor. Qed.

Lemma keq_trans L1 L2 L3 : keq L1 L2 -> keq L2 L3 -> keq L1 L3.
Proof.
  intros [Hh Hm ? ? ? ? ? ? ? ?] [Hh' Hm' ? ? ? ? ? ? ? ?].
  constructor; intros; rewrite ?Hh', ?Hm'; auto; congruence.
Qed.

(** ** A connection between two calls *)

Definition slot_hold (f : WalFile) (s : nat) : hold :=
  if holds_read_lock f && (f_read_lock_index f =? Z.of_nat s) then HRead else HNone.

(** The locks that the fields of [f] say are held, and nothing that only
    matters inside a call. *)
Record quiet (f : WalFile) (L : know) : Prop := mkQuiet {
  q_slot : forall s, k_hold L (LRead s) = slot_hold f s;
  q_write : k_hold L LWrite = if f_write_lock_held f then HWrite else HNone;
  q_ckpt : k_hold L LCkpt = HNone;
  q_vacuum : k_hold L LVacuum = if holds_read_lock f then HRead else HNone;
  q_vacuum_guard : f_vacuum_guard f = if holds_read_lock f then Some VRead else None;
  q_ckpt_guard : f_checkpoint_guard f = None;
  q_mark : forall s, slot_hold f s = HNone -> k_mark L s = None;
  q_guard : k_guard L = false;
  q_cur : k_cur L = None;
  q_load : k_load L = None;
  q_wr : k_wr L = [];
  q_ck : k_ck L = None;
  q_todo : k_todo L = None
}.

(** The transaction that the fields of [f] describe. *)
Definition opens (f : WalFile) (L : know) : Prop :=
  if holds_read_lock f
  then exists s, (s < 5)%nat /\ f_read_lock_index f = Z.of_nat s /\
         k_tx L = Some (mkTx s (f_min_frame f - 1) (f_max_frame f))
  else k_tx L = None.

(** A writer is not behind the committed frames, and has appended none before
    the header of the log is written. *)
Definition ahead (f : WalFile) (L : know) : Prop :=
  if f_write_lock_held f
  then holds_read_lock f = true /\
       exists m, k_meta L = Some m /\ m_max_frame m <= f_max_frame f /\
         (m_initialized m = false -> f_max_frame f = m_max_frame m)
  else k_meta L = None.

Definition idle (f : WalFile) (L : know) : Prop := quiet f L /\ opens f L /\ ahead f L.

(** ** Selecting a read mark *)

(** A connection inside [try_begin_read_tx]: it holds the guard of the shared
    state and no slot. *)
Definition selecting (L : know) : Prop :=
  k_guard L = true /\ k_tx L = None /\ k_ck L = None /\ k_load L = None /\ k_todo L = None /\
  k_wr L = [] /\ (forall s, k_hold L (LRead s) = HNone) /\ (forall s, k_mark L s = None) /\
  k_meta L = None.

Lemma selecting_keq L L' : selecting L -> keq L L' -> selecting L'.
Proof.
  intros (? & ? & ? & ? & ? & ? & Hh & Hm & ?) [Hh' Hm' ? ? ? ? ? ? ? ?]. unfold selecting.
  split_and!; congruence.
Qed.

Lemma slots_lt s : s ∈ mark_slots -> (1 <= s < 5)%nat.
Proof. unfold mark_slots. rewrite !elem_of_cons, elem_of_nil. lia. Qed.

(** A value read without holding the slot or a checkpoint teaches nothing. *)
Lemma learn_value_free L s v :
  k_hold L (LRead s) = HNone -> k_ck L = None -> keq L (learn_value L s v).
Proof.
  intros Hh Hk. unfold learn_value.
  destruct (decide (k_hold L (LRead s) = HNone)); [|done]. case_decide; [apply keq_refl|]. constructor; kcbn; try done. by rewrite Hk.
Qed.

(** What the two loops of the slot selection return: no slot, or a slot of a
    reader of the WAL with a mark that is not past the snapshot. *)
Definition candidate (snap : WalSnapshot) (o : option nat) (mark : Z) : Prop :=
  forall s, o = Some s -> (1 <= s < 5)%nat /\ mark <= s_max_frame snap.

Lemma wp_scan_marks snap slots best_idx best_mark L :
  selecting L -> 0 <= s_max_frame snap <= u32_max ->
  (forall s, s ∈ slots -> (1 <= s < 5)%nat) -> candidate snap best_idx best_mark ->
  wp (fun r L' => keq L L' /\ candidate snap (fst r) (snd r))
    (scan_marks snap slots best_idx best_mark) L.
Proof.
  intros HL Hmax. revert best_idx best_mark L HL.
  induction slots as [|idx slots IH]; intros bi bm L HL Hin Hc; cbn [scan_marks].
  { apply wp_ret. split; [apply keq_refl|done]. }
  assert (1 <= idx < 5)%nat as Hidx by (apply Hin; by left).
  apply wp_call; [cbn; lia|]. intros mark L' (Hu & _ & ->).
  assert (keq L (learn_value L idx mark)) as Hk by (apply learn_value_free; apply HL).
  case_match eqn:E.
  - apply andb_true_iff in E as [E _]. apply andb_true_iff in E as [_ E].
    apply Z.leb_le in E. unfold u32 in E. unfold u32_max in Hmax.
    rewrite Z.mod_small in E by lia.
    eapply wp_mono; [apply (IH (Some idx) mark)|]; [by eapply selecting_keq| | |].
    + intros s Hs. apply Hin. by right.
    + intros s [= <-]. done.
    + intros r L'' [H1 H2]. split; [by eapply keq_trans|done].
  - eapply wp_mono; [apply (IH bi bm)|]; [by eapply selecting_keq| |done|].
    + intros s Hs. apply Hin. by right.
    + intros r L'' [H1 H2]. split; [by eapply keq_trans|done].
Qed.

(** Case analysis on [upd]. *)
Ltac upd_cases :=
  unfold upd in *; repeat case_decide; simplify_eq; try done.

(** Taking a free slot, setting its mark and releasing it. *)
Lemma borrow_slot L s m o :
  k_hold L (LRead s) = HNone -> k_mark L s = None -> ~ tx_at L s -> s <> 0%nat ->
  let L1 := set_mark (learn_lock L OpWrite (LRead s) m) s o in
  keq (set_ckpt L (k_load L) (raise_ck (k_ck L) s (fun m0 => m0)) (k_todo L))
    (forget L1 (LRead s)).
Proof.
  intros Hh Hm Ht Hs. unfold forget, learn_lock. kcbn.
  rewrite (decide_False (P := s = 0%nat)) by done.
  destruct (k_tx L) as [t|] eqn:E.
  - destruct (decide (t_slot t = s)) as [Hts|_]; [exfalso; apply Ht; by exists t|].
    constructor; kcbn; try done; intros; upd_cases.
  - constructor; kcbn; try done; intros; upd_cases.
Qed.

Lemma wp_claim_slot snap slots best_idx best_mark L :
  selecting L -> 0 <= s_max_frame snap <= u32_max ->
  (forall s, s ∈ slots -> (1 <= s < 5)%nat) -> candidate snap best_idx best_mark ->
  wp (fun r L' => keq L L' /\ candidate snap (fst r) (snd r))
    (claim_slot snap slots best_idx best_mark) L.
Proof.
  intros HL Hmax. revert L HL.
  induction slots as [|idx slots IH]; intros L HL Hin Hc; cbn [claim_slot].
  { apply wp_ret. split; [apply keq_refl|done]. }
  assert (1 <= idx < 5)%nat as Hidx by (apply Hin; by left).
  pose proof HL as (Hg & Ht & Hck & Hl & Htd & Hwr & Hh & Hmk & Hme).
  apply wp_call; [split_and!; [cbn; lia|cbn; by rewrite Hh|done]|].
  intros [] L'; cbn [apost negb]; [|intros ->].
  - intros (_ & m & _ & ->).
    assert (u32 (s_max_frame snap) = s_max_frame snap) as Eu.
    { unfold u32_max in Hmax. unfold u32. by rewrite Z.mod_small by lia. }
    apply wp_call.
    { cbn. split_and!; [lia|by rewrite upd_eq| |].
      - rewrite Eu. unfold is_u32, u32_max in *. lia.
      - intros (t & Ht' & _). cbn in Ht'. congruence. }
    intros ? L'. cbn [apost]. intros ->.
    apply wp_call; [split_and!; [cbn; lia| |done]|].
    { cbn. by rewrite upd_eq. }
    intros ? L'. cbn [apost]. intros ->. apply wp_ret. split.
    + eapply keq_trans; [|apply (borrow_slot L idx (Some m))]; [|done|done| |lia].
      * constructor; kcbn; try done. by rewrite Hck.
      * intros (t & Ht' & _). congruence.
    + cbn. rewrite Eu. intros s [= <-]. split; [done|lia].
  - apply IH; [done| |done]. intros s Hs. apply Hin. by right.
Qed.

Definition guard_of (s : nat) : ReadGuardKind :=
  match s with O => GDbFile | _ => GReadMark (Z.of_nat s) end.

(** From [L], slot [s] is held for a transaction on the snapshot. *)
Definition opened (L : know) (s : nat) (snap : WalSnapshot) (L' : know) : Prop :=
  (s < 5)%nat /\ (forall l, k_hold L' l = upd (k_hold L) (LRead s) HRead l) /\
  (forall x, x <> s -> k_mark L' x = k_mark L x) /\
  k_tx L' = Some (mkTx s (s_nbackfills snap) (s_max_frame snap)) /\
  k_guard L' = k_guard L /\ k_cur L' = k_cur L /\ k_meta L' = k_meta L /\
  k_load L' = k_load L /\ k_wr L' = k_wr L /\ k_ck L' = k_ck L /\ k_todo L' = k_todo L.

Definition selected (L : know) (snap : WalSnapshot) (r : option ReadGuardKind) (L' : know) : Prop :=
  match r with
  | None => exists c, keq (set_guard L true c) L'
  | Some g => exists s, g = guard_of s /\ opened (set_guard L true (Some snap)) s snap L'
  end.

(** The knowledge after slot [s] is locked and the snapshot is loaded. *)
Lemma locked_fields L s m snap :
  selecting L ->
  let L' := learn_snapshot (learn_lock L OpRead (LRead s) m) snap in
  (forall l, k_hold L' l = upd (k_hold L) (LRead s) HRead l) /\ (forall x, k_mark L' x = None) /\
  k_tx L' = None /\ k_guard L' = true /\ k_cur L' = Some snap /\ k_meta L' = None /\
  k_load L' = None /\ k_wr L' = [] /\ k_ck L' = None /\ k_todo L' = None.
Proof.
  intros (Hg & Ht & Hck & Hl & Htd & Hwr & Hh & Hmk & Hme).
  unfold learn_snapshot, learn_lock. kcbn. rewrite Hme, Hg. kcbn.
  assert (forall L1, k_hold L1 = upd (k_hold L) (LRead s) HRead -> ckpt_locked L1 = false) as Hcl.
  { intros L1 E. unfold ckpt_locked. rewrite E. apply andb_false_intro2.
    apply bool_decide_eq_false. unfold upd. case_decide; [done|]. by rewrite Hh. }
  rewrite Hcl by done. split_and!; done.
Qed.

Lemma wp_lock_slot snap best_idx best_mark L :
  selecting L -> candidate snap best_idx best_mark ->
  wp (selected L snap) (lock_slot snap best_idx best_mark) L.
Proof.
  intros HL Hc. pose proof HL as (Hg & Ht & Hck & Hl & Htd & Hwr & Hh & Hmk & Hme).
  unfold lock_slot. destruct best_idx as [idx|].
  2:{ apply wp_ret. exists (k_cur L). constructor; kcbn; done. }
  destruct (Hc idx eq_refl) as [Hidx Hmark].
  apply wp_call; [split_and!; [cbn; lia|cbn; by rewrite Hh|done]|].
  intros [] L'; cbn [apost negb]; [|intros ->].
  2:{ apply wp_ret. exists (k_cur L). constructor; kcbn; done. }
  intros (_ & m & _ & ->). apply wp_call; [done|].
  intros now L' (_ & _ & _ & _ & _ & _ & ->).
  destruct (locked_fields L idx (Some m) now HL) as (Eh & Em & Et & Eg & Ec & Eme & El & Ew & Ek & Ed).
  set (L1 := learn_snapshot _ now) in *.
  apply wp_call; [cbn; lia|]. intros v L' (_ & _ & ->).
  assert (k_hold L1 (LRead idx) = HRead) as Eh1 by (by rewrite Eh, upd_eq).
  assert (learn_value L1 idx v =
    set_ckpt (set_mark L1 idx (Some v)) (k_load L1) (k_ck L1) (k_todo L1)) as Elv.
  { unfold learn_value. rewrite Eh1, decide_False, decide_False by (done || lia). kcbn.
    by rewrite Ek. }
  rewrite Elv. set (L2 := set_ckpt _ _ _ _).
  case_match eqn:E.
  - apply wp_call; [split_and!; [cbn; lia| |done]|].
    { change (k_hold L2 (LRead idx)) with (k_hold L1 (LRead idx)). by rewrite Eh1. }
    intros ? L'. cbn [apost]. intros ->. apply wp_ret. exists (Some now).
    unfold forget, L2. clearbody L1. kcbn.
    rewrite Et, (decide_False (P := idx = 0%nat)) by lia.
    constructor; kcbn; try done; try congruence; intros.
    + unfold upd at 1. destruct (decide (l = LRead idx)) as [->|]; [by rewrite Hh|]. by rewrite Eh, upd_ne.
    + unfold upd. destruct (decide (s = idx)) as [->|]; [by rewrite Hmk|by rewrite Em, Hmk].
  - apply orb_false_iff in E as [E1 E2]. apply negb_false_iff, Z.eqb_eq in E1 as ->.
    apply negb_false_iff, bool_decide_eq_true in E2 as ->.
    eapply wp_learn; [apply (learn_tx L2 snap idx)|].
    + done.
    + done.
    + lia.
    + unfold L2. kcbn. by rewrite Eh1.
    + intros _. exists best_mark. unfold L2. kcbn. by rewrite upd_eq.
    + done.
    + apply wp_ret. exists idx. split; [destruct idx; [lia|done]|].
      unfold opened, L2. kcbn. split_and!; try done; try congruence; [lia|].
      intros x Hx. rewrite upd_ne by done. congruence.
Qed.

Lemma keq_set_guard L L' b c : keq L L' -> keq (set_guard L b c) (set_guard L' b c).
Proof. intros [? ? ? ? ? ? ? ? ? ?]. by constructor. Qed.

Lemma opened_keq L1 L2 s snap L' :
  keq L1 L2 -> opened L2 s snap L' -> opened L1 s snap L'.
Proof.
  intros [Hh Hm ? ? ? ? ? ? ? ?] (? & Hh' & Hm' & ? & ? & ? & ? & ? & ? & ? & ?).
  split_and!; try done; try congruence.
  - intros l. rewrite Hh'. unfold upd. by rewrite Hh.
  - intros x Hx. by rewrite Hm', Hm.
Qed.

Lemma wp_select_slot snap L :
  selecting L -> 0 <= s_max_frame snap <= u32_max ->
  wp (selected L snap) (select_slot snap) L.
Proof.
  intros HL Hmax. unfold select_slot.
  assert (candidate snap None 0) as Hc0 by done.
  eapply wp_bind; [apply (wp_scan_marks snap mark_slots None 0); eauto using slots_lt|].
  intros [bi bm] L1 [Hk1 Hc1]. cbn [fst snd] in Hc1.
  assert (selecting L1) as HL1 by (by eapply selecting_keq).
  eapply (wp_bind (fun r L' => keq L L' /\ candidate snap (fst r) (snd r))).
  { destruct (match bi with None => true | Some _ => bm <? s_max_frame snap end).
    - eapply wp_mono; [apply wp_claim_slot; eauto using slots_lt|].
      intros r L' [Hk Hc]. split; [by eapply keq_trans|done].
    - apply wp_ret. done. }
  intros [bi' bm'] L2 [Hk2 Hc2]. cbn [fst snd] in Hc2.
  eapply wp_mono; [apply wp_lock_slot; [exact (selecting_keq _ _ HL Hk2)|done]|].
  intros [g|] L3; cbn [selected].
  - intros (s & -> & Ho). exists s. split; [done|].
    eapply opened_keq; [|done]. by apply keq_set_guard.
  - intros [c Hk]. exists c. eapply keq_trans; [|done]. by apply keq_set_guard.
Qed.

(** A connection between two calls with no transaction, as far as the read
    locks go. *)
Definition detached (L : know) : Prop :=
  selecting (set_guard L true None) /\ k_guard L = false /\ k_cur L = None.

Definition began (L : know) (snap : WalSnapshot) (r : option ReadGuardKind) (L' : know) : Prop :=
  match r with
  | None => keq L L'
  | Some g => exists s, g = guard_of s /\ opened L s snap L'
  end.

(** Dropping the guard of the shared state ends the selection. *)
Lemma wp_drop_shared snap r L L' :
  detached L -> selected (set_guard L true None) snap r L' ->
  wp (began L snap) (_ ← call ADropShared; Ret r) L'.
Proof.
  intros (HL & Hg & Hcur) Hr. apply wp_call.
  { destruct r as [g|]; [destruct Hr as (s & _ & Ho); apply Ho|destruct Hr as [c Hk]; apply Hk]. }
  intros ? L''. cbn [apost]. intros ->. apply wp_ret. destruct r as [g|].
  - destruct Hr as (s & -> & Ho). exists s. split; [done|].
    destruct Ho as (? & Hh' & ? & ? & ? & ? & ? & ? & ? & ? & ?). split_and!; done.
  - destruct Hr as [c [? ? ? ? ? ? ? ? ? ?]]. by constructor.
Qed.

(** Slot 0 is taken for the snapshot when everything is in the database
    file. *)
Lemma wp_read_slot0 snap m L :
  selecting L ->
  wp (selected L snap)
    (now ← call ALoadSnapshot;
     if negb (bool_decide (now = snap))
     then _ ← call (AUnlock (LRead 0)); Ret None
     else Ret (Some GDbFile)) (learn_lock L OpRead (LRead 0) m).
Proof.
  intros HL. apply wp_call; [done|]. intros now L' (_ & _ & _ & _ & _ & _ & ->).
  destruct (locked_fields L 0 m now HL) as (Eh & Em & Et & Eg & Ec & Eme & El & Ew & Ek & Ed).
  pose proof HL as (Hg & Ht & Hck & Hl & Htd & Hwr & Hh & Hmk & Hme).
  set (L1 := learn_snapshot _ now) in *. clearbody L1.
  assert (k_hold L1 (LRead 0) = HRead) as Eh1 by (by rewrite Eh, upd_eq).
  case_match eqn:E.
  - apply wp_call; [split_and!; [cbn; lia|by rewrite Eh1|done]|].
    intros ? L'. cbn [apost]. intros ->. apply wp_ret. exists (Some now).
    unfold forget. kcbn. rewrite Et, decide_True by done.
    constructor; kcbn; try done; try congruence; intros.
    + unfold upd at 1. destruct (decide (l = LRead 0)) as [->|]; [by rewrite Hh|]. by rewrite Eh, upd_ne.
    + unfold upd. destruct (decide (s = 0%nat)) as [->|]; [by rewrite Hmk|by rewrite Em, Hmk].
  - apply negb_false_iff, bool_decide_eq_true in E as ->.
    eapply wp_learn; [apply (learn_tx L1 snap 0)|]; try done; [lia|by rewrite Eh1|].
    apply wp_ret. exists 0%nat. split; [done|].
    unfold opened. kcbn. split_and!; try done; try congruence; lia.
Qed.

Lemma wp_coord_try_begin_read_tx snap L :
  detached L -> 0 <= s_max_frame snap <= u32_max ->
  wp (began L snap) (coord_try_begin_read_tx snap) L.
Proof.
  intros HL Hmax. pose proof HL as (Hsel & Hg & Hcur). unfold coord_try_begin_read_tx.
  apply wp_ensure; [apply Z.leb_le; lia|]. apply wp_call; [done|].
  intros ? L'. cbn [apost]. intros ->. set (L1 := set_guard L true None) in *.
  eapply (wp_bind (fun (r : bool) L' =>
    if r then exists m, L' = learn_lock L1 OpRead (LRead 0) m else L' = L1)).
  { destruct (s_max_frame snap =? s_nbackfills snap); [|by apply wp_ret].
    apply (wp_call_end (ATry OpRead (LRead 0))); [split_and!; [cbn; lia|apply Hsel|done]|].
    intros [] L'; cbn [apost]; [|done]. intros (_ & m & _ & ->). by exists (Some m). }
  intros read0 L2 HL2. eapply (wp_bind (selected L1 snap)).
  - destruct read0; [destruct HL2 as [m ->]; by apply wp_read_slot0|].
    subst. by apply wp_select_slot.
  - intros r0 L3 Hr. by apply wp_drop_shared.
Qed.

(** ** Read transactions *)

Lemma slot_index_range s : (s < 5)%nat -> Z.of_nat s <> NO_LOCK_HELD.
Proof. unfold NO_LOCK_HELD, u64_max. lia. Qed.

Lemma lock_index_guard_of s : lock_index (guard_of s) = Z.of_nat s.
Proof. by destruct s. Qed.

Lemma idle_detached f L :
  idle f L -> holds_read_lock f = false -> detached L /\ k_hold L LVacuum = HNone.
Proof.
  intros ([Hs Hw Hc Hv Hvg Hcg Hm Hg Hcu Hl Hwr Hck Htd] & Ho & Ha) Hr.
  unfold opens, ahead in *. rewrite Hr in *.
  assert (forall s, slot_hold f s = HNone) as Hn by (intros s; unfold slot_hold; by rewrite Hr).
  split; [|done]. split; [|done]. unfold selecting. kcbn. split_and!; try done; auto.
  - intros s. by rewrite Hs.
  - destruct (f_write_lock_held f); [by destruct Ha|done].
Qed.

(** The connection after [try_begin_read_tx] has opened the snapshot. *)
Lemma idle_opened f L s snap L' :
  idle f L -> holds_read_lock f = false ->
  opened (learn_lock L OpRead LVacuum None) s snap L' ->
  idle (install_connection_state (set_vacuum_guard f (Some VRead)) snap (guard_of s)) L'.
Proof.
  intros ([Hs Hw Hc Hv Hvg Hcg Hm Hg Hcu Hl Hwr Hck Htd] & Ho & Ha) Hr
    (Hlt & Hh' & Hm' & Htx & Hg' & Hcu' & Hme' & Hl' & Hwr' & Hck' & Htd').
  set (f' := install_connection_state _ _ _).
  assert (f_write_lock_held f = false) as Hnw.
  { unfold ahead in Ha. destruct (f_write_lock_held f); [|done]. destruct Ha as [Ha _]. congruence. }
  assert (forall x, slot_hold f x = HNone) as Hn by (intros x; unfold slot_hold; by rewrite Hr).
  assert (f_read_lock_index f' = Z.of_nat s) as Hi by apply lock_index_guard_of.
  assert (holds_read_lock f' = true) as Hr'.
  { unfold holds_read_lock. rewrite Hi. apply negb_true_iff, Z.eqb_neq, slot_index_range, Hlt. }
  revert Hh' Hm' Hg' Hcu' Hme' Hl' Hwr' Hck' Htd'. unfold learn_lock. kcbn. cbn [locked]. intros.
  assert (forall x, slot_hold f' x = if decide (x = s) then HRead else HNone) as Hs'.
  { intros x. unfold slot_hold. rewrite Hr', Hi. cbn [andb]. destruct (Z.eqb_spec (Z.of_nat s) (Z.of_nat x)).
    - rewrite decide_True by lia. done.
    - rewrite decide_False by lia. done. }
  split; [constructor|split]; try done; try congruence.
  - intros x. rewrite Hh', Hs'. unfold upd. destruct (decide (x = s)) as [->|].
    + by rewrite decide_True.
    + rewrite decide_False by congruence. rewrite decide_False by done. by rewrite Hs.
  - rewrite Hh'. by rewrite !upd_ne.
  - rewrite Hh'. by rewrite !upd_ne.
  - rewrite Hh', Hr'. rewrite upd_ne by done. by rewrite upd_eq.
  - rewrite Hr'. done.
  - intros x Hx. rewrite Hs' in Hx. destruct (decide (x = s)); [done|]. rewrite Hm' by done. auto.
  - unfold opens. rewrite Hr'. exists s. split_and!; [done|done|]. rewrite Htx. f_equal.
    unfold f', s_min_frame. cbn. f_equal. unfold s_min_frame. lia.
  - unfold ahead. change (f_write_lock_held f') with (f_write_lock_held f). rewrite Hnw.
    unfold ahead in Ha. rewrite Hnw in Ha. congruence.
Qed.

Lemma idle_keq f L L' : keq L L' -> idle f L -> idle f L'.
Proof.
  intros [Hh Hm ? ? ? ? ? ? ? ?] ([? ? ? ? ? ? Hmk ? ? ? ? ? ?] & Ho & Ha).
  split; [constructor; intros; rewrite ?Hh, ?Hm; auto; congruence|split].
  - unfold opens in *. destruct (holds_read_lock f); [|congruence].
    destruct Ho as (s & ? & ? & ?). exists s. split_and!; congruence.
  - unfold ahead in *. destruct (f_write_lock_held f); [|congruence].
    destruct Ha as (? & m & ? & ?). split; [done|]. exists m. split; [congruence|done].
Qed.

Lemma detached_keq L L' : keq L L' -> detached L -> detached L'.
Proof.
  intros Hk (Hs & ? & ?). split; [|destruct Hk; split; congruence].
  eapply selecting_keq; [done|]. by apply keq_set_guard.
Qed.

Lemma ckpt_locked_free L : k_hold L LCkpt <> HWrite -> ckpt_locked L = false.
Proof. intros Hk. unfold ckpt_locked. by rewrite bool_decide_eq_false_2. Qed.

(** A snapshot read with no lock held teaches nothing. *)
Lemma learn_snapshot_free L s :
  k_guard L = false -> k_cur L = None -> k_meta L = None -> k_load L = None ->
  k_hold L LCkpt <> HWrite -> keq L (learn_snapshot L s).
Proof.
  intros Hg Hc Hm Hl Hk. unfold learn_snapshot. kcbn. rewrite Hm, Hg. kcbn.
  rewrite ckpt_locked_free by done. by constructor.
Qed.

Lemma wp_try_begin_read_tx f L :
  idle f L -> holds_read_lock f = false ->
  wp (fun r L' => idle (snd r) L' /\ (match fst r with TryOk _ => True | _ => snd r = f end))
    (try_begin_read_tx f) L.
Proof.
  intros Hf Hr. destruct (idle_detached f L Hf Hr) as [HL Hv]. unfold try_begin_read_tx.
  pose proof Hf as (Hq & _ & _).
  apply wp_ensure; [unfold holds_read_lock in Hr; by apply negb_false_iff in Hr|].
  apply wp_ensure; [by rewrite (q_vacuum_guard _ _ Hq), Hr|].
  apply wp_call; [split_and!; [done|done|done]|].
  intros [] L'; cbn [apost negb]; [|intros ->; by apply wp_ret].
  intros (_ & m & _ & ->). set (L1 := learn_lock _ _ _ _).
  assert (detached L1) as HL1.
  { destruct HL as ((? & ? & ? & ? & ? & ? & Hh & ? & ?) & ? & ?). split; [|done].
    split_and!; try done. }
  apply wp_call; [done|]. intros snap L' (Hn & Hmax & _ & _ & _ & _ & ->).
  assert (keq L1 (learn_snapshot L1 snap)) as Hk1.
  { destruct HL1 as ((? & ? & ? & ? & ? & ? & Hh & ? & ?) & ? & ?).
    apply learn_snapshot_free; try done. cbn. rewrite upd_ne by done. by rewrite (q_ckpt _ _ Hq). }
  apply wp_ensure; [apply Z.leb_le; lia|].
  eapply wp_bind; [apply wp_coord_try_begin_read_tx; [by eapply detached_keq|lia]|].
  intros [g|] L2; cbn [began].
  - intros (s & -> & Ho). unfold install_vacuum_lock_guard.
    rewrite (q_vacuum_guard _ _ Hq), Hr. apply wp_ret. split; [|done]. eapply idle_opened; [done|done|]. by eapply opened_keq.
  - intros Hk2. assert (keq L1 L2) as [Hh ? ? ? ? ? ? ? ? ?] by (by eapply keq_trans).
    apply wp_call; [split_and!; [done|by rewrite Hh; cbn; rewrite upd_eq|done]|].
    intros ? L'. cbn [apost]. intros ->. apply wp_ret. split; [|done]. cbn [snd].
    eapply idle_keq; [|done]. constructor; kcbn; try done. intros l. unfold forget. kcbn.
    unfold upd. destruct (decide (l = LVacuum)) as [->|]; [done|]. rewrite Hh. cbn. by rewrite upd_ne.
Qed.

Lemma wp_begin_read_tx f L :
  idle f L -> holds_read_lock f = false ->
  wp (fun r L' => idle (snd r) L') (begin_read_tx f) L.
Proof.
  unfold begin_read_tx. generalize 100%nat. intros n. revert L.
  induction n as [|n IH]; intros L Hf Hr; cbn [begin_read_loop];
    (eapply wp_bind; [by apply wp_try_begin_read_tx|]);
    intros [[] f'] L' [Hf' E]; cbn [fst snd] in *; subst; try by apply wp_ret.
  by apply IH.
Qed.

Lemma from_lock_index_slot s : (s < 5)%nat -> from_lock_index (Z.of_nat s) = guard_of s.
Proof.
  intros Hs. unfold from_lock_index.
  rewrite (proj2 (Z.eqb_neq _ _) (slot_index_range s Hs)). by destruct s.
Qed.

Lemma coord_end_read_tx_slot s : coord_end_read_tx (guard_of s) = unlock_read_mark s.
Proof. destruct s; [done|]. cbn [guard_of coord_end_read_tx]. by rewrite Nat2Z.id. Qed.

Lemma slot_hold_at f s : holds_read_lock f = true -> f_read_lock_index f = Z.of_nat s ->
  forall x, slot_hold f x = if decide (x = s) then HRead else HNone.
Proof.
  intros Hr Hi x. unfold slot_hold. rewrite Hr, Hi. cbn [andb].
  destruct (Z.eqb_spec (Z.of_nat s) (Z.of_nat x)).
  - by rewrite decide_True by lia.
  - by rewrite decide_False by lia.
Qed.

Lemma wp_end_read_tx f L :
  idle f L -> f_write_lock_held f = false -> wp idle (end_read_tx f) L.
Proof.
  intros Hf Hw. pose proof Hf as ([Hs Hwr Hc Hv Hvg Hcg Hm Hg Hcu Hl Hwl Hck Htd] & Ho & Ha).
  unfold end_read_tx. fold (holds_read_lock f). destruct (holds_read_lock f) eqn:Hr.
  2:{ apply wp_ensure; [by rewrite Hvg|]. by apply wp_ret. }
  unfold opens in Ho. rewrite Hr in Ho. destruct Ho as (s & Hlt & Hi & Ht).
  pose proof (slot_hold_at f s Hr Hi) as Hsh.
  rewrite Hi, from_lock_index_slot, coord_end_read_tx_slot by done.
  apply wp_call; [split_and!; [done| |done]|].
  { by rewrite Hs, Hsh, decide_True. }
  intros ? L'. cbn [apost]. intros ->. set (f' := set_read_lock_index f NO_LOCK_HELD).
  assert (holds_read_lock f' = false) as Hr' by done.
  apply wp_ensure; [apply bool_decide_eq_true; exact Hvg|].
  apply wp_call; [split_and!; [done| |done]|].
  { unfold forget. kcbn. rewrite Ht. kcbn. rewrite (decide_True (P := s = s)) by done. destruct (decide (s = 0%nat)); kcbn;
      rewrite upd_ne by done; by rewrite Hv. }
  intros ? L'. cbn [apost]. intros ->. apply wp_ret.
  unfold forget. kcbn. rewrite Ht. kcbn. rewrite (decide_True (P := s = s)) by done. set (L1 := if decide (s = 0%nat) then _ else _).
  assert (L1 = mkKnow (upd (k_hold L) (LRead s) HNone) (upd (k_mark L) s None) (k_guard L) (k_cur L)
    (k_meta L) (k_load L) None [] (k_ck L) (k_todo L)) as ->.
  { unfold L1. destruct (decide (s = 0%nat)); unfold set_ckpt, set_wr, set_tx, set_mark, set_hold; kcbn; congruence. }
  split; [constructor|split]; kcbn; try done; try (rewrite !upd_ne by done; done).
  - intros x. rewrite upd_ne by done. unfold upd. destruct (decide (LRead x = LRead s)); [done|].
    rewrite Hs, Hsh, decide_False by congruence. done.
  - intros x _. unfold upd. destruct (decide (x = s)); [done|]. apply Hm. by rewrite Hsh, decide_False.
  - unfold ahead in *. cbn. by rewrite Hw in *.
Qed.

Lemma wp_mvcc_refresh f L :
  idle f L -> wp (fun r L' => idle (snd r) L') (mvcc_refresh_if_db_changed f) L.
Proof.
  intros Hf. unfold mvcc_refresh_if_db_changed. fold (holds_read_lock f).
  destruct (holds_read_lock f) eqn:Hr; [by apply wp_ret|].
  pose proof Hf as ([Hs Hwr Hc Hv Hvg Hcg Hm Hg Hcu Hl Hwl Hck Htd] & Ho & Ha).
  destruct (idle_detached f L Hf Hr) as [HL _].
  apply wp_call; [done|]. intros snap L' (Hn & Hmax & _ & _ & _ & _ & ->).
  assert (keq L (learn_snapshot L snap)) as Hk.
  { apply learn_snapshot_free; try done; [|congruence]. by destruct HL as ((? & ? & ? & ? & ? & ? & Hh & ? & ?) & ? & ?). }
  destruct (db_changed_against snap f); apply wp_ret; cbn [snd]; eapply idle_keq; try done.
  unfold holds_read_lock in Hr. apply negb_false_iff, Z.eqb_eq in Hr.
  assert (from_lock_index (f_read_lock_index f) = GNone) as -> by (by rewrite Hr).
  unfold ahead, opens, holds_read_lock in *. rewrite Hr in *. cbn in Ho, Ha.
  split; [constructor|split]; try done.
  - intros s. rewrite Hs. unfold slot_hold, holds_read_lock. by rewrite Hr.
  - intros s Hsx. apply Hm. unfold slot_hold, holds_read_lock. by rewrite Hr.
  - unfold ahead. cbn. destruct (f_write_lock_held f); [by destruct Ha|done].
Qed.

(** ** Restarting the log *)

(** [L0] with the slots [ss] held exclusively as well; the bounds of a
    checkpoint may have been raised. *)
Record grabbed (L0 : know) (ss : list nat) (L : know) : Prop := mkGrabbed {
  gr_hold : forall l, k_hold L l = if decide (l ∈ LRead <$> ss) then HWrite else k_hold L0 l;
  gr_mark : forall s, s ∉ ss -> k_mark L s = k_mark L0 s;
  gr_guard : k_guard L = k_guard L0;
  gr_cur : k_cur L = k_cur L0;
  gr_meta : k_meta L = k_meta L0;
  gr_load : k_load L = k_load L0;
  gr_tx : k_tx L = k_tx L0;
  gr_wr : k_wr L = k_wr L0;
  gr_ck : k_ck L0 = None -> k_ck L = None;
  gr_todo : k_todo L = k_todo L0
}.

(** Nothing of [L0] depends on the slots of the readers of the WAL. *)
Definition apart (L0 : know) : Prop :=
  (forall t, k_tx L0 = Some t -> t_slot t = 0%nat) /\
  forall s, (1 <= s < 5)%nat -> k_hold L0 (LRead s) = HNone /\ k_mark L0 s = None.

Lemma grabbed_refl L : grabbed L [] L.
Proof. by constructor. Qed.

Lemma LRead_elem s (ss : list nat) : LRead s ∈ LRead <$> ss <-> s ∈ ss.
Proof. rewrite list_elem_of_fmap. naive_solver. Qed.

Lemma grabbed_forget L0 s ss L :
  apart L0 -> (1 <= s < 5)%nat -> s ∉ ss -> grabbed L0 (s :: ss) L ->
  grabbed L0 ss (forget L (LRead s)).
Proof.
  intros [Ht Hs] Hlt Hn [Hh Hm ? ? ? ? Etx ? Hck ?].
  assert (forget L (LRead s) = set_mark (set_hold L (LRead s) HNone) s None) as ->.
  { unfold forget. kcbn. destruct (k_tx L) as [t|] eqn:E.
    - assert (t_slot t = 0%nat) by (apply Ht; congruence).
      rewrite !decide_False by lia. done.
    - rewrite decide_False by lia. done. }
  destruct (Hs s Hlt) as [Hh0 Hm0].
  constructor; kcbn; try done.
  - intros l. unfold upd. destruct (decide (l = LRead s)) as [->|].
    + rewrite decide_False by (by rewrite LRead_elem). done.
    + rewrite Hh. destruct (decide (l ∈ LRead <$> ss)).
      * rewrite decide_True; [done|]. csimpl. by right.
      * rewrite decide_False; [done|]. csimpl. by rewrite elem_of_cons; intros [|].
  - intros x Hx. unfold upd. destruct (decide (x = s)) as [->|]; [done|].
    apply Hm. set_solver.
Qed.

Lemma wp_unlock_slots L0 ss L :
  apart L0 -> (forall s, s ∈ ss -> (1 <= s < 5)%nat) -> NoDup ss -> grabbed L0 ss L ->
  wp (fun _ L' => grabbed L0 [] L') (unlock_slots ss) L.
Proof.
  intros Ha Hlt Hnd. revert L. induction ss as [|s ss IH]; intros L Hg; cbn [unlock_slots].
  { by apply wp_ret. }
  apply NoDup_cons in Hnd as [Hn Hnd].
  assert (1 <= s < 5)%nat as Hs by (apply Hlt; by left).
  apply wp_call; [split_and!; [cbn; lia| |done]|].
  { rewrite (gr_hold _ _ _ Hg), decide_True; [done|]. csimpl. by left. }
  intros ? L'. cbn [apost]. intros ->. apply IH; [|done|by apply grabbed_forget].
  intros x Hx. apply Hlt. by right.
Qed.

Lemma grabbed_take L0 ss s L m v :
  (1 <= s < 5)%nat -> grabbed L0 ss L ->
  grabbed L0 (ss ++ [s]) (set_mark (learn_lock L OpWrite (LRead s) m) s (Some v)).
Proof.
  intros Hlt [Hh Hm ? ? ? ? ? ? Hck ?]. constructor; unfold learn_lock; kcbn; try done.
  - intros l. unfold upd. destruct (decide (l = LRead s)) as [->|].
    + rewrite decide_True; [done|]. rewrite LRead_elem. set_solver.
    + rewrite Hh. rewrite fmap_app. csimpl. destruct (decide (l ∈ LRead <$> ss)).
      * rewrite decide_True; [done|]. set_solver.
      * rewrite decide_False; [done|]. set_solver.
  - intros x Hx. rewrite upd_ne by set_solver. apply Hm. set_solver.
  - intros H0. by rewrite Hck.
Qed.

Lemma wp_lock_slots L0 slots locked L :
  apart L0 -> (forall s, s ∈ locked ++ slots -> (1 <= s < 5)%nat) -> NoDup (locked ++ slots) ->
  grabbed L0 locked L ->
  wp (fun r L' => grabbed L0 (if (r : bool) then locked ++ slots else []) L')
    (lock_slots locked slots) L.
Proof.
  intros Ha. revert locked L. induction slots as [|s slots IH]; intros locked L Hlt Hnd Hg;
    cbn [lock_slots].
  { apply wp_ret. by rewrite app_nil_r. }
  assert (1 <= s < 5)%nat as Hs by (apply Hlt; set_solver).
  assert (s ∉ locked) as Hn by (apply NoDup_app in Hnd as (_ & Hnd & _); set_solver).
  assert (k_hold L (LRead s) = HNone) as Hh.
  { rewrite (gr_hold _ _ _ Hg), decide_False by (by rewrite LRead_elem). by apply Ha. }
  apply wp_call; [split_and!; [cbn; lia|cbn; by rewrite Hh|done]|].
  intros [] L'; cbn [apost negb]; [|intros ->].
  - intros (_ & m & _ & ->). apply wp_call.
    { cbn. split_and!; [lia|by rewrite upd_eq|done|].
      intros (t & Ht & Hts). cbn in Ht. rewrite (gr_tx _ _ _ Hg) in Ht.
      assert (t_slot t = 0%nat) by (by apply Ha). lia. }
    intros ? L'. cbn [apost]. intros ->.
    rewrite cons_middle, app_assoc in Hlt, Hnd |- *.
    apply IH; [done|done|]. by apply grabbed_take.
  - eapply wp_bind; [apply (wp_unlock_slots L0 locked L Ha)|].
    + intros x Hx. apply Hlt. set_solver.
    + by apply NoDup_app in Hnd as [? _].
    + done.
    + intros ? L' Hg'. by apply wp_ret.
Qed.

(** Knowledge once the header of the log is renewed. *)
Definition after_restart (L0 : know) (m : Metadata) (rnd : Z) : know :=
  mkKnow (k_hold L0) (fun _ => None) (k_guard L0) None (Some (restarted m rnd)) None
    (match k_tx L0 with Some t => Some (mkTx (t_slot t) (-1) 0) | None => None end) [] None None.

Lemma apart_after_restart L0 m rnd : apart L0 -> apart (after_restart L0 m rnd).
Proof.
  intros [Ht Hs]. split.
  - intros t. cbn. destruct (k_tx L0) as [t0|] eqn:E; [|done]. intros [= <-]. cbn. by apply Ht.
  - intros s Hlt. split; [by apply Hs|done].
Qed.

Lemma mark_slots_NoDup : NoDup mark_slots.
Proof. apply (bool_decide_eq_true_1 (NoDup mark_slots)). by vm_compute. Qed.

Lemma mark_slots_in s : (1 <= s < 5)%nat -> s ∈ mark_slots.
Proof. unfold mark_slots. rewrite !elem_of_cons. lia. Qed.

Lemma wp_begin_restart rnd L0 m :
  apart L0 -> k_guard L0 = false -> k_hold L0 (LRead 0) = HWrite -> k_meta L0 = Some m ->
  all_backfilled L0 m ->
  wp (fun r L' =>
        match r with
        | inl e => e = Busy /\ grabbed L0 [] L'
        | inr snap => snap = meta_snapshot (restarted m rnd) /\
                      grabbed (after_restart L0 m rnd) mark_slots L'
        end) (begin_restart rnd) L0.
Proof.
  intros Ha Hgu H0 Hm Hb. unfold begin_restart.
  eapply wp_bind.
  { apply (wp_lock_slots L0 mark_slots [] L0 Ha); [exact slots_lt|exact mark_slots_NoDup|].
    apply grabbed_refl. }
  intros [] L Hg; cbn [negb]; [|by apply wp_ret]. cbn [app] in Hg.
  apply wp_call.
  { cbn. split_and!; [by rewrite (gr_guard _ _ _ Hg)| | |].
    - intros s Hs. rewrite (gr_hold _ _ _ Hg). destruct (decide (s = 0%nat)) as [->|].
      + by case_decide.
      + rewrite decide_True; [done|]. apply LRead_elem, mark_slots_in. lia.
    - exists m. rewrite (gr_meta _ _ _ Hg). unfold all_backfilled. by rewrite (gr_todo _ _ _ Hg).
    - intros t. rewrite (gr_tx _ _ _ Hg). apply Ha. }
  intros snap L' HL'. destruct (HL' m) as [-> ->]; [by rewrite (gr_meta _ _ _ Hg)|].
  apply wp_ret. split; [done|]. destruct Hg as [Hh ? ? ? ? ? Etx ? ? ?].
  constructor; cbn; try done. by rewrite Etx.
Qed.

Lemma wp_end_restart L0 L :
  apart L0 -> grabbed L0 mark_slots L -> wp (fun _ L' => grabbed L0 [] L') end_restart L.
Proof.
  intros Ha Hg. apply (wp_unlock_slots L0 mark_slots L Ha slots_lt mark_slots_NoDup Hg).
Qed.

Definition downgraded (L : know) : know := set_ckpt (set_hold L (LRead 0) HRead) None None None.

Lemma grabbed_downgraded L0 ss L :
  0%nat ∉ ss -> grabbed L0 ss L -> grabbed (downgraded L0) ss (downgraded L).
Proof.
  intros Hn [Hh ? ? ? ? ? ? ? ? ?]. constructor; unfold downgraded; kcbn; try done.
  intros l. unfold upd. destruct (decide (l = LRead 0)) as [->|]; [|by rewrite Hh].
  by rewrite decide_False by (by rewrite LRead_elem).
Qed.

Lemma grabbed_keq L0 L : k_ck L0 = None -> grabbed L0 [] L -> keq L0 L.
Proof.
  intros H0 [Hh Hm ? ? ? ? ? ? Hck ?]. constructor; try done.
  - intros s. apply Hm, not_elem_of_nil.
  - rewrite Hck; congruence.
Qed.

Lemma idle_apart f L s :
  idle f L -> f_read_lock_index f = 0 -> apart (learn_lock L OpUpgrade (LRead 0) s).
Proof.
  intros (Hq & Ho & _) Hi. assert (holds_read_lock f = true) as Hr.
  { unfold holds_read_lock. by rewrite Hi. }
  pose proof (slot_hold_at f 0 Hr Hi) as Hsh. split.
  - intros t Ht. unfold opens in Ho. rewrite Hr in Ho. destruct Ho as (x & _ & Hx & Ht').
    cbn in Ht. rewrite Ht' in Ht. injection Ht as <-. cbn. lia.
  - intros x Hx. cbn. rewrite upd_ne by (intros [=]; lia). rewrite (q_slot _ _ Hq), Hsh.
    rewrite decide_False by lia. split; [done|]. apply (q_mark _ _ Hq).
    by rewrite Hsh, decide_False by lia.
Qed.

Lemma idle_upgrade_downgrade f L m :
  idle f L -> f_read_lock_index f = 0 -> keq L (downgraded (learn_lock L OpUpgrade (LRead 0) m)).
Proof.
  intros (Hq & _ & _) Hi. assert (holds_read_lock f = true) as Hr.
  { unfold holds_read_lock. by rewrite Hi. }
  destruct Hq as [Hs ? ? ? ? ? ? ? ? ? ? ? ?].
  constructor; unfold downgraded, learn_lock; kcbn; try done; try congruence.
  intros l. unfold upd. destruct (decide (l = LRead 0)) as [->|]; [|done].
  by rewrite Hs, (slot_hold_at f 0 Hr Hi).
Qed.

Lemma idle_restarted f L m rnd o :
  idle f L -> f_read_lock_index f = 0 -> f_write_lock_held f = true ->
  idle (apply_restart_snapshot f (meta_snapshot (restarted m rnd)))
    (downgraded (after_restart (learn_lock L OpUpgrade (LRead 0) o) m rnd)).
Proof.
  intros Hf Hi Hw. pose proof (idle_upgrade_downgrade f L o Hf Hi) as [Hh _ _ _ _ _ _ _ _ _].
  destruct Hf as ([Hs ? ? Hv ? ? ? ? ? ? ? ? ?] & Ho & Ha).
  assert (holds_read_lock f = true) as Hr by (unfold holds_read_lock; by rewrite Hi).
  split; [constructor|split]; try done.
  - intros s. etransitivity; [apply Hh|apply Hs].
  - unfold opens in *. change (holds_read_lock (apply_restart_snapshot _ _)) with (holds_read_lock f).
    rewrite Hr in *. destruct Ho as (s & ? & ? & Ht). exists s. split_and!; [done|done|].
    cbn. by rewrite Ht.
  - unfold ahead. cbn. rewrite Hw. split; [exact Hr|]. eexists. split; [done|]. cbn. split; [lia|done].
Qed.

Lemma wp_try_restart_log_for_write f L m rnd :
  idle f L -> f_read_lock_index f = 0 -> f_write_lock_held f = true ->
  k_meta L = Some m -> m_nbackfills m = m_max_frame m ->
  wp (fun r L' =>
        match r with
        | inl e => e = Busy /\ idle f L'
        | inr None => idle f L'
        | inr (Some snap) => idle (apply_restart_snapshot f snap) L'
        end) (try_restart_log_for_write rnd) L.
Proof.
  intros Hf Hi Hw Hm Hb. unfold try_restart_log_for_write.
  assert (holds_read_lock f = true) as Hr by (unfold holds_read_lock; by rewrite Hi).
  pose proof (slot_hold_at f 0 Hr Hi 0) as Hsh.
  apply wp_call; [split_and!; [cbn; lia|cbn; by rewrite (q_slot _ _ (proj1 Hf))|done]|].
  intros [] L'; cbn [apost negb]; [|intros ->; by apply wp_ret].
  intros (_ & m0 & _ & ->). pose proof (idle_apart f L (Some m0) Hf Hi) as Hap.
  set (L2 := learn_lock _ _ _ _) in *.
  eapply wp_bind; [apply (wp_begin_restart rnd L2 m);
    [done|apply (q_guard _ _ (proj1 Hf))|cbn; by rewrite upd_eq|done|by left]|].
  intros [e|snap] L3.
  - intros [-> Hg]. apply wp_call.
    { split; [done|]. rewrite (gr_hold _ _ _ Hg), decide_False by set_solver. cbn. by rewrite upd_eq. }
    intros ? L'. cbn [apost]. intros ->. apply wp_ret. split; [done|].
    eapply idle_keq; [|done]. eapply keq_trans; [exact (idle_upgrade_downgrade f L (Some m0) Hf Hi)|].
    apply grabbed_keq; [done|]. by apply grabbed_downgraded; [set_solver|].
  - intros [-> Hg]. apply wp_call.
    { split; [done|]. rewrite (gr_hold _ _ _ Hg), decide_False by (rewrite LRead_elem; set_solver).
      cbn. by rewrite upd_eq. }
    intros ? L'. cbn [apost]. intros ->.
    eapply wp_bind.
    { apply (wp_end_restart (downgraded (after_restart L2 m rnd))).
      - destruct (apart_after_restart L2 m rnd Hap) as [? Hs]. split; [done|].
        intros s Hlt. destruct (Hs s Hlt). split; [|done]. cbn. rewrite upd_ne by (intros [=]; lia). done.
      - apply grabbed_downgraded; [set_solver|done]. }
    intros ? L4 Hg4. apply wp_ret. eapply idle_keq; [exact (grabbed_keq (downgraded (after_restart L2 m rnd)) L4 eq_refl Hg4)|].
    by apply idle_restarted.
Qed.

(** ** Write transactions *)

Lemma idle_snapshot f L s : idle f L -> idle f (learn_snapshot L s).
Proof.
  intros ([Hs Hwr Hc Hv Hvg Hcg Hm Hg Hcu Hl Hwl Hck Htd] & Ho & Ha).
  unfold learn_snapshot. kcbn. rewrite Hg.
  rewrite ckpt_locked_free by (destruct (k_meta L); kcbn; by rewrite Hc).
  destruct (k_meta L) as [m|] eqn:E; kcbn.
  - split; [by constructor|split; [done|]]. unfold ahead in *. kcbn. rewrite E in Ha.
    destruct (f_write_lock_held f); [|done].
    destruct Ha as (? & m' & [= <-] & ?). split; [done|]. by eexists.
  - split; [by constructor|split; [done|]]. unfold ahead in *. kcbn. by rewrite E in *.
Qed.

Lemma learn_snapshot_meta L s m :
  k_meta L = Some m -> k_meta (learn_snapshot L s) = Some (with_nb m (s_nbackfills s)).
Proof. intros E. unfold learn_snapshot. kcbn. by rewrite E. Qed.

Lemma idle_write_locked f L m :
  idle f L -> holds_read_lock f = true -> m_max_frame m = f_max_frame f ->
  idle (set_write_lock_held f true) (learn_lock L OpWrite LWrite (Some m)).
Proof.
  intros ([Hs Hwr Hc Hv Hvg Hcg Hm Hg Hcu Hl Hwl Hck Htd] & Ho & Ha) Hr E.
  split; [by constructor|split; [done|]].
  split; [done|]. exists m. split_and!; [done|cbn; lia|done].
Qed.

(** Giving the write lock up. *)
Lemma idle_write_unlocked f L :
  idle f L -> idle (set_write_lock_held f false) (forget L LWrite).
Proof.
  intros ([Hs Hwr Hc Hv Hvg Hcg Hm Hg Hcu Hl Hwl Hck Htd] & Ho & Ha).
  split; [by constructor|split; done].
Qed.

Lemma wp_try_restart_log_before_write f L rnd :
  idle f L -> f_write_lock_held f = true ->
  wp (fun r L' => idle (snd r) L' /\ (fst r = inl Busy \/ fst r = inr tt))
    (try_restart_log_before_write f rnd) L.
Proof.
  intros Hf Hw. unfold try_restart_log_before_write.
  destruct (Z.eqb_spec (f_read_lock_index f) 0) as [Hi|]; cbn [negb];
    [|apply wp_ret; split; [done|by right]].
  apply wp_call; [done|]. intros s L' (Hn & _ & _ & Hme & _ & _ & ->).
  pose proof (idle_snapshot f L s Hf) as Hf1.
  assert (exists m, k_meta L = Some m) as [m Hm].
  { destruct Hf as (_ & _ & Ha). unfold ahead in Ha. rewrite Hw in Ha. destruct Ha as (_ & m & ? & _). eauto. }
  destruct (Hme m Hm) as [Es _]. pose proof (learn_snapshot_meta L s m Hm) as Hm1.
  destruct (s_nbackfills s =? 0) eqn:?; [apply wp_ret; split; [done|by right]|].
  apply wp_ensure; [apply Z.leb_le; lia|].
  destruct (Z.eqb_spec (s_max_frame s) (s_nbackfills s)) as [E|]; cbn [negb];
    [|apply wp_ret; split; [done|by right]].
  eapply wp_bind; [apply (wp_try_restart_log_for_write f _ _ rnd Hf1 Hi Hw Hm1)|].
  - cbn. rewrite <- E. rewrite Es. done.
  - intros [e|[snap|]] L2; [intros [-> ?]|intros Hf2|intros Hf2].
    + apply wp_ret. split; [done|by left].
    + apply wp_call; [done|]. intros ? L'. cbn [apost]. intros ->. apply wp_ret. split; [done|by right].
    + apply wp_ret. split; [done|by right].
Qed.

Lemma wp_begin_write_tx f L restart_allowed rnd :
  idle f L -> holds_read_lock f = true -> f_write_lock_held f = false ->
  wp (fun r L' => idle (snd r) L') (begin_write_tx f restart_allowed rnd) L.
Proof.
  intros Hf Hr Hw. unfold begin_write_tx. apply wp_ensure; [exact Hr|].
  apply wp_ensure; [unfold holds_write_lock; by rewrite Hw|].
  pose proof (q_write _ _ (proj1 Hf)) as Hh. rewrite Hw in Hh.
  apply wp_call; [split_and!; [done|cbn; by rewrite Hh|done]|].
  intros [] L'; cbn [apost negb]; [|intros ->; by apply wp_ret].
  intros (_ & m & Hmax & ->). set (L1 := learn_lock _ _ _ _).
  apply wp_call; [done|]. intros s L' (_ & _ & _ & Hme & _ & _ & ->).
  destruct (Hme m eq_refl) as [Es _]. pose proof (learn_snapshot_meta L1 s m eq_refl) as Hm1.
  unfold db_changed_against. case_bool_decide as Eq; cbn [negb].
  - assert (idle (set_write_lock_held f true) (learn_snapshot L1 s)) as Hf1.
    { apply idle_snapshot, idle_write_locked; [done..|].
      rewrite Eq in Es. by apply (f_equal s_max_frame) in Es. }
    destruct restart_allowed; cbn [negb]; [|by apply wp_ret].
    eapply wp_bind; [by apply wp_try_restart_log_before_write|].
    intros [r f'] L2 [Hf2 [E|E]]; cbn [fst snd] in *; subst; by apply wp_ret.
  - assert (keq L (forget (learn_snapshot L1 s) LWrite)) as Hk.
    { destruct Hf as ([? ? ? ? ? ? ? Hg ? ? ? ? ?] & _ & Ha).
      unfold ahead in Ha. rewrite Hw in Ha. unfold forget, learn_snapshot, L1, learn_lock. kcbn.
      constructor; kcbn; try done; try congruence; [|by rewrite Hg|].
      - intros l. unfold upd. case_decide; [congruence|done].
      - rewrite ckpt_locked_free; [done|]. kcbn. rewrite upd_ne by done. congruence. }
    apply wp_call; [split_and!; [done| |]|].
    + cbn. by rewrite upd_eq.
    + intros _ t Ht. eexists. split; [exact Hm1|]. cbn. apply Hmax; [done|].
      unfold learn_snapshot, L1, learn_lock in Ht. revert Ht. kcbn. done.
    + intros ? L'. cbn [apost]. intros ->. apply wp_ret. by eapply idle_keq.
Qed.

Lemma wp_end_write_tx f L m :
  idle f L -> f_write_lock_held f = true -> k_meta L = Some m -> f_max_frame f <= m_max_frame m ->
  wp idle (end_write_tx f) L.
Proof.
  intros Hf Hw Hm Hmax. unfold end_write_tx. apply wp_ensure; [done|].
  apply wp_call; [split_and!; [done| |]|].
  - rewrite (q_write _ _ (proj1 Hf)). by rewrite Hw.
  - intros _ t Ht. exists m. split; [done|]. destruct Hf as (_ & Ho & _). unfold opens in Ho.
    destruct (holds_read_lock f); [|congruence].
    destruct Ho as (s & _ & _ & Ht'). rewrite Ht in Ht'. injection Ht' as ->. done.
  - intros ? L'. cbn [apost]. intros ->. apply wp_ret. by apply idle_write_unlocked.
Qed.
