(* ===== verification/WalAppend.v ===== *)
(** * WalAppend: appending, committing and rolling back in the program logic

    The calls of [WalTxn] that extend the log run without a failed assertion
    when the writer follows the contract of the pager: the header of the log
    is written, the pages have the page size of the log and there is room
    for the frame numbers. *)

From stdpp Require Import gmap.
From S2P Require Import Prelude OnDisk RwLock WalFormat WalShared WalProg WalTxn WalLogic WalVerify.

(** ** Connections with the same locks and position *)

Record moved (f f' : WalFile) : Prop := mkMoved {
  mv_write : f_write_lock_held f' = f_write_lock_held f;
  mv_index : f_read_lock_index f' = f_read_lock_index f;
  mv_min : f_min_frame f' = f_min_frame f;
  mv_ckpt : f_checkpoint_guard f' = f_checkpoint_guard f;
  mv_vacuum : f_vacuum_guard f' = f_vacuum_guard f
}.

Lemma quiet_moved f f' L : moved f f' -> quiet f L -> quiet f' L.
Proof.
  intros [Hw Hi Hm Hc Hv] [Hs Hwr Hck Hva Hvg Hcg Hmk Hg Hcu Hl Hwl Hk Htd].
  assert (holds_read_lock f' = holds_read_lock f) as Hr by (unfold holds_read_lock; by rewrite Hi).
  assert (forall s, slot_hold f' s = slot_hold f s) as Hsh.
  { intros s. unfold slot_hold. by rewrite Hr, Hi. }
  constructor; rewrite ?Hr, ?Hw, ?Hc, ?Hv; try done; intros s; rewrite Hsh; auto.
Qed.

(** A writer whose transaction now ends at [n]. *)
Lemma idle_move f f' L m n :
  idle f L -> f_write_lock_held f = true -> moved f f' -> f_max_frame f' = n ->
  k_meta L = Some m -> m_max_frame m <= n -> (m_initialized m = false -> n = m_max_frame m) ->
  idle f' (move_tx (set_wr L []) n).
Proof.
  intros (Hq & Ho & Ha) Hw Hmv Hn Hm Hle Hini.
  pose proof (quiet_moved f f' L Hmv Hq) as Hq'.
  unfold ahead in Ha. rewrite Hw in Ha. destruct Ha as (Hr & m' & Em & _).
  unfold opens in Ho. rewrite Hr in Ho. destruct Ho as (s & Hs & Hi & Ht).
  destruct Hmv as [Ew Ei Emin Ec Ev].
  assert (holds_read_lock f' = true) as Hr' by (unfold holds_read_lock in *; by rewrite Ei).
  unfold move_tx. kcbn. rewrite Ht. kcbn.
  split; [destruct Hq'; by constructor|split].
  - unfold opens. rewrite Hr'. exists s. split_and!; [done|congruence|]. kcbn. by rewrite Emin, Hn.
  - unfold ahead. rewrite Ew, Hw. split; [done|]. exists m. rewrite Hn. split_and!; done || lia.
Qed.

Lemma idle_ext f f' L :
  moved f f' -> f_max_frame f' = f_max_frame f -> idle f L -> idle f' L.
Proof.
  intros Hmv Hn (Hq & Ho & Ha). split; [by eapply quiet_moved|]. destruct Hmv as [Ew Ei Emin Ec Ev].
  assert (holds_read_lock f' = holds_read_lock f) as Hr by (unfold holds_read_lock; by rewrite Ei).
  split.
  - unfold opens in *. rewrite Hr, Ei, Emin, Hn. done.
  - unfold ahead in *. by rewrite Ew, Hr, Hn.
Qed.

(** The writer's knowledge: its metadata and its transaction. *)
Lemma idle_writing f L :
  idle f L -> f_write_lock_held f = true ->
  exists m t, writing L m t /\ t_max t = f_max_frame f /\
    (m_initialized m = false -> f_max_frame f = m_max_frame m).
Proof.
  intros (_ & Ho & Ha) Hw. unfold ahead in Ha. rewrite Hw in Ha.
  destruct Ha as (Hr & m & Em & Hle & Hini). unfold opens in Ho. rewrite Hr in Ho.
  destruct Ho as (s & _ & _ & Ht). exists m. eexists. split_and!; done.
Qed.

(** ** Rollback *)

Definition rollback_ok (m : Metadata) (f : WalFile) (to : option RollbackTo) : Prop :=
  match to with
  | None => True
  | Some r =>
      rb_checkpoint_seq r = wh_checkpoint_seq (m_wal_header m) /\
      m_max_frame m <= rb_frame r <= f_max_frame f
  end.

Lemma wp_rollback f L m to :
  idle f L -> f_write_lock_held f = true -> k_meta L = Some m -> rollback_ok m f to ->
  wp idle (rollback f to) L.
Proof.
  intros Hf Hw Hm Hto. unfold rollback. apply wp_call; [done|].
  intros snap L' (_ & _ & _ & Hme & _ & _ & ->). destruct (Hme m Hm) as [Es _].
  pose proof (idle_snapshot f L snap Hf) as Hf1. pose proof (learn_snapshot_meta L snap m Hm) as Hm1.
  destruct (idle_writing f _ Hf1 Hw) as (m1 & t & (Em1 & Et & Hle) & Hmax & Hini).
  rewrite Hm1 in Em1. injection Em1 as <-. cbn in Hle, Hini.
  assert (s_max_frame snap = m_max_frame m) as Esm by (by rewrite Es).
  assert (s_checkpoint_seq snap = wh_checkpoint_seq (m_wal_header m)) as Ess by (by rewrite Es).
  set (n := match to with Some r => rb_frame r | None => s_max_frame snap end).
  assert (m_max_frame m <= n <= f_max_frame f) as Hn.
  { unfold n. destruct to as [r|]; [destruct Hto; lia|lia]. }
  eapply (wp_bind (fun _ L' => L' = learn_snapshot L snap)).
  { destruct to as [r|]; [|by apply wp_ret]. destruct Hto as [-> Hr].
    apply wp_ensure; [by apply Z.eqb_eq|].
    replace (s_max_frame snap <=? rb_frame r) with true by (symmetry; apply Z.leb_le; lia).
    by apply wp_ret. }
  intros ? L' ->. fold n. apply wp_call.
  { cbn. eexists _, t. split; [done|]. cbn. lia. }
  intros ? L'. cbn [apost]. intros ->. apply wp_ret.
  eapply (idle_move f); [done|done|done|done|done|cbn; lia|]. cbn. intros Hi. specialize (Hini Hi). lia.
Qed.

(** ** The header of the log *)

Lemma idle_set_meta f L m :
  idle f L -> f_write_lock_held f = true -> m_max_frame m <= f_max_frame f ->
  (m_initialized m = false -> f_max_frame f = m_max_frame m) ->
  idle f (set_meta L (Some m)).
Proof.
  intros (Hq & Ho & Ha) Hw Hle Hini. split; [destruct Hq; by constructor|]. split; [done|].
  unfold ahead in *. rewrite Hw in *. destruct Ha as (? & _). split; [done|]. by exists m.
Qed.

Lemma keq_set_wr L : k_wr L = [] -> keq L (set_wr L []).
Proof. intros. by constructor. Qed.

Lemma wp_ensure_header f L m big page_size rnd1 rnd2 truncate synced :
  idle f L -> f_write_lock_held f = true -> k_meta L = Some m -> is_u32 (PageSize_get page_size) ->
  wp (fun r L' => idle (snd r) L')
    (ensure_header_if_needed big f page_size rnd1 rnd2 truncate synced) L.
Proof.
  intros Hf Hw Hm Hps. unfold ensure_header_if_needed.
  apply wp_call; [done|]. intros b L' [Hb ->]. rewrite (Hb m Hm). clear Hb.
  destruct (m_initialized m) eqn:Ei; [by apply wp_ret|].
  destruct (idle_writing f L Hf Hw) as (m1 & t & Hwr & Hmax & Hini).
  assert (m1 = m) as -> by (destruct Hwr; congruence).
  apply wp_call; [split_and!; [apply (q_guard _ _ (proj1 Hf))|done|by exists m, t]|].
  intros r L' Hr. specialize (Hr m Hm). destruct r as [h|]; [|by destruct Hr as [? _]; congruence].
  destruct Hr as (_ & Hz & _ & _ & ->). specialize (Hini Ei).
  set (f' := set_max_frame _ 0). set (m' := meta_header _ _ _ _).
  assert (idle f' (set_meta L (Some m'))) as Hf'.
  { apply idle_set_meta; [|done|cbn; lia|cbn; lia]. eapply (idle_ext f); [done|cbn; lia|done]. }
  apply wp_call; [done|]. intros ? L' [-> ->].
  eapply (wp_bind (fun _ L' => keq (set_meta L (Some m')) L')).
  { destruct truncate; [|apply wp_ret, keq_refl].
    apply (wp_call_end ATruncateLog).
    - exists m'. split_and!; [done|done|]. cbn. intros t'. destruct Hwr as (_ & -> & _). intros [= <-]. lia.
    - intros ? L'. cbn [apost]. intros ->. apply keq_set_wr. apply (q_wr _ _ (proj1 Hf)). }
  intros ? L2 Hk. pose proof (idle_keq _ _ _ Hk Hf') as Hf2.
  assert (k_meta L2 = Some m') as Hm2 by (by rewrite (kq_meta _ _ Hk)).
  destruct synced; [|by apply wp_ret].
  apply wp_call; [cbn; by rewrite Hm2|]. intros ? L' HL'. rewrite (HL' m' Hm2). apply wp_ret.
  apply idle_set_meta; [done|done|cbn; lia|done].
Qed.

(** ** Preparing frames *)

Definition pages_ok (page_sz : PageSize) (pages : list frame) : Prop :=
  Forall (fun x => 0 < fst x /\ lenZ (snd x) = PageSize_get page_sz /\ bytes_ok (snd x)) pages.

(** The header of the log is written and names the page size. *)
Definition header_ok (m : Metadata) (page_sz : PageSize) : Prop :=
  m_initialized m = true /\ wh_page_size (m_wal_header m) = PageSize_get page_sz /\
  In (PageSize_get page_sz) page_sizes.

(** Frames with consecutive numbers from [n]. *)
Fixpoint numbered (n : Z) (frames : list prepared_frame) : Prop :=
  match frames with
  | [] => True
  | x :: frames' => pf_frame_id x = n /\ numbered (n + 1) frames'
  end.

Lemma numbered_last n frames x :
  numbered n frames -> last frames = Some x -> pf_frame_id x = n + lenZ frames - 1.
Proof.
  revert n. induction frames as [|y frames IH]; intros n Hn Hl; [done|].
  destruct Hn as [Hy Hn]. unfold lenZ. destruct frames as [|z frames].
  - cbn in *. injection Hl as <-. lia.
  - rewrite last_cons_cons in Hl. rewrite (IH _ Hn Hl). unfold lenZ. cbn [length]. lia.
Qed.

Lemma page_sizes_mod8 n : In n page_sizes -> n mod 8 = 0.
Proof. simpl. intuition (subst; done). Qed.

Lemma prepare_transformed_frame_ok big h prev pn ds page :
  0 < pn -> In (wh_page_size h) page_sizes -> lenZ page = wh_page_size h -> bytes_ok page ->
  prepare_transformed_frame big h prev pn ds page = Ok (frame_checksum h prev pn ds page).
Proof.
  intros Hpn Hin Hlen Hok. unfold prepare_transformed_frame.
  rewrite (proj2 (Z.ltb_lt 0 pn)) by done. cbn [turso_assert mbind Result_bind].
  pose proof (PageSize_new_cases (wh_page_size h)) as Hps.
  destruct (PageSize_new (wh_page_size h)); [|done]. cbn [turso_assert mbind Result_bind].
  rewrite (proj2 (Z.eqb_eq _ _) Hlen). cbn [turso_assert mbind Result_bind].
  assert (0 <= wh_page_size h) by (rewrite <- Hlen; unfold lenZ; lia).
  rewrite prepare_wal_frame_eq; [done|done| |].
  - rewrite Hlen. by apply page_sizes_mod8.
  - unfold lenZ at 1. rewrite length_replicate, Hlen. unfold WAL_FRAME_HEADER_SIZE. lia.
Qed.

Lemma prepare_loop_ok big m page_sz pages : forall rolling n ds,
  header_ok m page_sz -> pages_ok page_sz pages ->
  match prepare_loop big (m_wal_header m) rolling n ds pages with
  | Ok (frames, _) => pf_frame <$> frames = pages /\ numbered n frames
  | Err e => e = IntegerOverflow
  | Panic => False
  end.
Proof.
  induction pages as [|[p v] pages IH]; intros rolling n ds Hh Hp; cbn [prepare_loop]; [done|].
  apply Forall_cons in Hp as [(Hpos & Hlen & Hok) Hp]. cbn [fst snd] in *.
  destruct (_ && _); cbn [mbind Result_bind]; [|done].
  destruct Hh as (Hi & Hsz & Hin).
  rewrite prepare_transformed_frame_ok by (rewrite ?Hsz; done). cbn [mbind Result_bind].
  set (c := frame_checksum _ _ _ _ _).
  specialize (IH c (n + 1) ds (conj Hi (conj Hsz Hin)) Hp).
  destruct (prepare_loop _ _ _ _ _ _) as [[frames final]|e|]; cbn [mbind Result_bind]; [|done|done].
  destruct IH as [<- Hn]. done.
Qed.

(** A writer whose frozen metadata are those of [m]. *)
Definition writer (f : WalFile) (L : know) (m : Metadata) : Prop :=
  idle f L /\ f_write_lock_held f = true /\ exists nb, k_meta L = Some (with_nb m nb).

Lemma writer_intro f L m :
  idle f L -> f_write_lock_held f = true -> k_meta L = Some m -> writer f L m.
Proof.
  intros Hf Hw Hm. split; [done|]. split; [done|]. exists (m_nbackfills m). rewrite Hm.
  by destruct m.
Qed.

Lemma writer_snapshot f L m s : writer f L m -> writer f (learn_snapshot L s) m.
Proof.
  intros (Hf & Hw & nb & Hm). split; [by apply idle_snapshot|]. split; [done|].
  exists (s_nbackfills s). by rewrite (learn_snapshot_meta L s _ Hm).
Qed.

(** Installing the shared position moves the start of the visible frames. *)
Lemma writer_install f L m snap :
  writer f L m -> k_meta L = Some (with_nb m (s_nbackfills snap)) ->
  s_max_frame snap = f_max_frame f ->
  exists L', learn L L' /\
    writer (install_connection_state f snap (from_lock_index (f_read_lock_index f))) L' m.
Proof.
  intros (Hf & Hw & _) Hm Hmax. pose proof Hf as (Hq & Ho & Ha).
  unfold ahead in Ha. rewrite Hw in Ha. destruct Ha as (Hr & m1 & Em & Hle & Hini).
  unfold opens in Ho. rewrite Hr in Ho. destruct Ho as (s & Hs & Hi & Ht).
  eexists. split; [eapply (learn_lo L _ _ (s_nbackfills snap) Hm Ht); cbn; lia|]. kcbn.
  set (f' := install_connection_state _ _ _).
  assert (f_read_lock_index f' = f_read_lock_index f) as Ei.
  { unfold f', install_connection_state. cbn. rewrite Hi, from_lock_index_slot by done.
    apply lock_index_guard_of. }
  assert (holds_read_lock f' = holds_read_lock f) as Hr' by (unfold holds_read_lock; by rewrite Ei).
  assert (forall x, slot_hold f' x = slot_hold f x) as Hsh.
  { intros x. unfold slot_hold. by rewrite Hr', Ei. }
  split; [split; [|split]|split; [done|by eexists]].
  - destruct Hq as [? ? ? ? ? ? Hmk ? ? ? ? ? ?]. constructor; kcbn; rewrite ?Hr'; try done.
    + intros x. by rewrite Hsh.
    + intros x. rewrite Hsh. apply Hmk.
  - unfold opens. rewrite Hr', Hr. exists s. split_and!; [done|congruence|]. kcbn.
    do 2 f_equal; unfold f'; cbn; [unfold s_min_frame; lia|lia].
  - unfold ahead. change (f_write_lock_held f') with (f_write_lock_held f). rewrite Hw, Hr'.
    split; [done|]. exists m1. kcbn. change (f_max_frame f') with (s_max_frame snap). by rewrite Hmax.
Qed.

Lemma wp_chain_position f L m prev :
  writer f L m ->
  wp (fun r L' => writer (snd r) L' m /\ f_max_frame (snd r) = f_max_frame f /\
        snd (fst r) = match prev with Some p => pr_final_max_frame p | None => f_max_frame f end + 1)
    (chain_position f prev) L.
Proof.
  intros Hf. unfold chain_position. destruct prev as [p|]; [by apply wp_ret|].
  apply wp_call; [done|]. intros snap L' (_ & _ & _ & Hme & _ & _ & ->).
  pose proof Hf as (Hf0 & Hw & nb & Hm). destruct (Hme _ Hm) as [Es _].
  pose proof (writer_snapshot f L m snap Hf) as Hf1.
  destruct (idle_writing f L Hf0 Hw) as (m1 & t & (Em1 & _ & Hle) & Hmax & _).
  rewrite Hm in Em1. injection Em1 as <-. cbn in Hle. rewrite Hmax in Hle.
  assert (s_max_frame snap = m_max_frame m) as Esm by (by rewrite Es).
  cbn [local_snapshot s_max_frame].
  destruct (Z.ltb_spec (s_max_frame snap) (f_max_frame f)); [by apply wp_ret|].
  apply wp_ensure; [apply Z.eqb_eq; lia|].
  destruct (bool_decide _); [apply wp_ret; cbn; split_and!; [done|done|lia]|].
  destruct (writer_install f (learn_snapshot L snap) m snap) as (L' & Hlearn & Hf').
  - done.
  - by rewrite (learn_snapshot_meta L snap _ Hm).
  - lia.
  - eapply wp_learn; [done|]. apply wp_ret. cbn [fst snd]. split_and!; [done|cbn; lia|lia].
Qed.

(** Batches of frames that continue each other, the first one at [n]. *)
Fixpoint chained (n : Z) (bs : list PreparedFrames) : Prop :=
  match bs with
  | [] => True
  | b :: bs' =>
      pr_first b = n /\ numbered n (pr_frames b) /\
      pr_final_max_frame b = n + lenZ (pr_frames b) - 1 /\
      chained (n + lenZ (pr_frames b)) bs'
  end.

Definition batch_frames (b : PreparedFrames) : list frame := pf_frame <$> pr_frames b.

Definition batch_ok (page_sz : PageSize) (pages : list frame) : Prop :=
  pages_ok page_sz pages /\ pages <> [] /\ lenZ pages <= IOV_MAX.

Lemma wp_prepare_frames big f L m pages page_sz db_size prev :
  writer f L m -> header_ok m page_sz -> batch_ok page_sz pages ->
  wp (fun r L' => writer (snd r) L' m /\ f_max_frame (snd r) = f_max_frame f /\
        match fst r with
        | inl _ => True
        | inr p =>
            chained (match prev with Some q => pr_final_max_frame q | None => f_max_frame f end + 1) [p] /\
            batch_frames p = pages
        end) (prepare_frames big f pages page_sz db_size prev) L.
Proof.
  intros Hf Hh (Hp & Hne & Hlen). pose proof Hf as (_ & _ & nb & Hm).
  pose proof Hh as (Hi & Hsz & Hin). unfold prepare_frames.
  apply wp_ensure; [by destruct pages|]. apply wp_ensure; [by apply Z.leb_le|].
  apply wp_call; [done|]. intros b L' [Hb ->]. rewrite (Hb _ Hm). clear Hb.
  apply wp_ensure; [done|].
  apply wp_call; [done|]. intros h L' (Hhd & _ & ->). rewrite (Hhd _ Hm). clear Hhd. cbn [with_nb m_wal_header].
  apply wp_ensure; [by apply Z.eqb_eq|].
  eapply wp_bind; [by apply wp_chain_position|].
  intros [[rolling n] f'] L2 (Hf2 & Emax & En). cbn [fst snd] in *.
  set (c := if n =? 1 then _ else _).
  pose proof (prepare_loop_ok big m page_sz pages c n (default 0 db_size) Hh Hp) as Hl.
  destruct (prepare_loop _ _ _ _ _ _) as [[frames final]|e|]; [|by apply wp_ret|done].
  destruct Hl as [<- Hnum]. apply wp_ret. cbn [fst snd]. split_and!; try done.
  cbn [chained pr_first pr_frames pr_final_max_frame]. rewrite <- En. done.
Qed.

Lemma wp_prepare_batches big page_sz db_size m batches : forall f L prev,
  writer f L m -> header_ok m page_sz -> Forall (batch_ok page_sz) batches ->
  wp (fun r L' => writer (snd r) L' m /\ f_max_frame (snd r) = f_max_frame f /\
        match fst r with
        | inl _ => True
        | inr ps =>
            chained (match prev with Some q => pr_final_max_frame q | None => f_max_frame f end + 1) ps /\
            batch_frames <$> ps = batches
        end) (prepare_batches big f page_sz db_size prev batches) L.
Proof.
  induction batches as [|pages batches IH]; intros f L prev Hf Hh Hb; cbn [prepare_batches];
    [by apply wp_ret|].
  apply Forall_cons in Hb as [Hp Hb]. eapply wp_bind; [by apply wp_prepare_frames|].
  intros [[e|p] f1] L1 (Hf1 & Emax1 & Hr); cbn [fst snd] in *; [by apply wp_ret|].
  destruct Hr as [(Hfirst & Hnum & Hfin & _) <-].
  eapply wp_bind; [by apply (IH f1 L1 (Some p))|].
  intros [[e|ps] f2] L2 (Hf2 & Emax2 & Hr); cbn [fst snd] in *; apply wp_ret; cbn [fst snd];
    (split; [done|split; [congruence|]]); [done|].
  destruct Hr as [Hc <-]. split; [|done]. cbn [chained]. split_and!; try done.
  rewrite Hfin in Hc. refine (eq_ind _ (fun n => chained n ps) Hc _ _). lia.
Qed.

(** ** Writing and indexing frames *)

(** A writer that has written the frames [ws] past its position and not yet
    indexed them. *)
Definition staged (f : WalFile) (L : know) (m : Metadata) (ws : list frame) : Prop :=
  writer f (set_wr L []) m /\ k_wr L = ws /\ m_initialized m = true.

Lemma staged_start f L m : writer f L m -> m_initialized m = true -> staged f L m [].
Proof.
  intros (Hf & Hw & nb & Hm) Hi. pose proof (q_wr _ _ (proj1 Hf)) as Hwr.
  split; [|done]. split; [|split; [done|by exists nb]].
  eapply idle_keq; [by apply keq_set_wr|done].
Qed.

Lemma staged_writing f L m ws :
  staged f L m ws -> exists m' t, writing L m' t /\ t_max t = f_max_frame f /\
    k_meta L = Some m' /\ m_initialized m' = true.
Proof.
  intros ((Hf & Hw & nb & Hm) & _ & Hi).
  destruct (idle_writing f _ Hf Hw) as (m' & t & Hwr & Hmax & _). exists m', t.
  split_and!; [done|done|by apply Hwr|]. destruct Hwr as (E & _). cbn in E, Hm. rewrite Hm in E.
  by injection E as <-.
Qed.

(** The rest of a call may ignore frames that are not indexed. *)
Lemma staged_drop f L m ws {A} (Q : A -> know -> Prop) p :
  staged f L m ws -> (writer f (set_wr L []) m -> wp Q p (set_wr L [])) -> wp Q p L.
Proof. intros [Hf _] Hp. eapply wp_learn; [apply learn_wr|]. auto. Qed.

Lemma staged_cache f f' L m p v ws :
  staged f L m ((p, v) :: ws) -> moved f f' -> f_max_frame f' = f_max_frame f + 1 ->
  staged f' (move_tx (set_wr L (tail (k_wr L))) (f_max_frame f + 1)) m ws.
Proof.
  intros ((Hf & Hw & nb & Hm) & Hws & Hi) Hmv Hmax.
  destruct (idle_writing f _ Hf Hw) as (m' & t & (Em & Et & Hle) & Htm & _).
  assert (m' = with_nb m nb) as -> by congruence. cbn in Em, Et.
  assert (idle f' (move_tx (set_wr (set_wr L []) []) (f_max_frame f + 1))) as Hf'.
  { eapply (idle_move f); [done|done|done|done|done|cbn in *; lia|]. cbn. congruence. }
  unfold move_tx in *. revert Hf'. kcbn. rewrite Et. kcbn. intros Hf'.
  split_and!; kcbn; [|by rewrite Hws|done].
  split; [done|]. split; [by rewrite (mv_write _ _ Hmv)|]. by exists nb.
Qed.

Lemma wp_cache f L m p v ws n {A} (Q : A -> know -> Prop) (k : unit -> prog A) :
  staged f L m ((p, v) :: ws) -> n = f_max_frame f + 1 ->
  (forall L', (forall f', moved f f' -> f_max_frame f' = n -> staged f' L' m ws) ->
     wp Q (k tt) L') ->
  wp Q (call (ACacheFrame p n) ≫= k) L.
Proof.
  intros Hs -> Hk. destruct (staged_writing _ _ _ _ Hs) as (m' & t & Hwr & Hmax & _).
  apply wp_call.
  { cbn. exists m', t, v, ws. split_and!; [done|lia|apply Hs]. }
  intros [] L'. cbn [apost]. intros ->. apply Hk. intros f' Hmv Ef. by eapply staged_cache.
Qed.

Lemma wp_complete_frames frames : forall f L m ws,
  staged f L m ((pf_frame <$> frames) ++ ws) -> numbered (f_max_frame f + 1) frames ->
  wp (fun f' L' => staged f' L' m ws /\ moved f f' /\ f_max_frame f' = f_max_frame f + lenZ frames)
    (complete_frames f frames) L.
Proof.
  induction frames as [|x frames IH]; intros f L m ws Hs Hn; cbn [complete_frames].
  { apply wp_ret. split_and!; [done|done|]. change (lenZ _) with 0. lia. }
  destruct Hn as [Hid Hn]. rewrite fmap_cons in Hs. cbn [app pf_frame] in Hs.
  eapply wp_cache; [done|done|]. intros L' HL'.
  set (f' := set_max_frame _ _).
  assert (staged f' L' m ((pf_frame <$> frames) ++ ws)) as Hs' by (by apply HL').
  eapply wp_mono; [apply (IH f' L' m ws Hs')|].
  - change (f_max_frame f') with (pf_frame_id x). by rewrite Hid.
  - intros f2 L2 (? & [? ? ? ? ?] & Hmax). split_and!; [done|by constructor|]. rewrite Hmax.
    change (f_max_frame f') with (pf_frame_id x). rewrite Hid. unfold lenZ. cbn [length]. lia.
Qed.

Lemma wp_publish_spilled frames : forall f L m ws,
  staged f L m ((pf_frame <$> frames) ++ ws) -> numbered (f_max_frame f + 1) frames ->
  wp (fun _ L' => forall f', moved f f' -> f_max_frame f' = f_max_frame f + lenZ frames ->
        staged f' L' m ws) (publish_spilled frames) L.
Proof.
  induction frames as [|x frames IH]; intros f L m ws Hs Hn; cbn [publish_spilled].
  { apply wp_ret. intros f' Hmv Hmax. destruct Hs as ((Hf & Hw & nb & Hm) & ? & ?).
    split; [|done]. split; [|split; [by rewrite (mv_write _ _ Hmv)|by exists nb]].
    eapply idle_ext; [done| |done]. rewrite Hmax. change (lenZ _) with 0. lia. }
  destruct Hn as [Hid Hn]. rewrite fmap_cons in Hs. cbn [app pf_frame] in Hs.
  eapply wp_cache; [done|done|]. intros L' HL'.
  set (f1 := set_max_frame f (f_max_frame f + 1)).
  eapply wp_mono; [apply (IH f1 L' m ws)|].
  - by apply HL'.
  - done.
  - intros ? L2 H2 f' [? ? ? ? ?] Hmax. apply H2; [by constructor|]. rewrite Hmax. cbn. unfold lenZ. cbn [length]. lia.
Qed.

Definition all_frames (bs : list PreparedFrames) : list frame := concat (batch_frames <$> bs).

Lemma lenZ_batch b : lenZ (batch_frames b) = lenZ (pr_frames b).
Proof. unfold lenZ, batch_frames. by rewrite length_fmap. Qed.

Lemma staged_ext f f' L m ws :
  moved f f' -> f_max_frame f' = f_max_frame f -> staged f L m ws -> staged f' L m ws.
Proof.
  intros Hmv Hmax ((Hf & Hw & Hm) & Hr). split; [|done].
  split; [by eapply idle_ext|]. split; [by rewrite (mv_write _ _ Hmv)|done].
Qed.

Lemma wp_commit_prepared_frames bs : forall f L m ws,
  staged f L m (all_frames bs ++ ws) -> chained (f_max_frame f + 1) bs ->
  wp (fun f' L' => staged f' L' m ws /\ f_max_frame f' = f_max_frame f + lenZ (all_frames bs))
    (commit_prepared_frames f bs) L.
Proof.
  induction bs as [|b bs IH]; intros f L m ws Hs Hc; cbn [commit_prepared_frames].
  { apply wp_ret. split; [done|]. change (lenZ _) with 0. lia. }
  destruct Hc as (_ & Hnum & Hfin & Hc). unfold all_frames in Hs. csimpl in Hs.
  rewrite <- app_assoc in Hs.
  eapply wp_bind; [by apply (wp_complete_frames (pr_frames b) f L m (all_frames bs ++ ws))|].
  intros f1 L1 (Hs1 & Hmv & Hmax). set (f2 := set_max_frame _ _).
  assert (f_max_frame f2 = f_max_frame f1) as E2 by (cbn; lia).
  eapply wp_mono; [apply (IH f2 L1 m ws)|].
  - by apply (staged_ext f1).
  - rewrite E2, Hmax. refine (eq_ind _ (fun n => chained n bs) Hc _ _). lia.
  - intros f' L' [? Hm']. split; [done|]. rewrite Hm', E2, Hmax. unfold all_frames. csimpl.
    rewrite lenZ_app, lenZ_batch. lia.
Qed.

Lemma wp_write_batches bs : forall f L m ws,
  staged f L m ws -> chained (f_max_frame f + 1 + lenZ ws) bs ->
  wp (fun _ L' => staged f L' m (ws ++ all_frames bs)) (write_batches bs) L.
Proof.
  induction bs as [|b bs IH]; intros f L m ws Hs Hc; cbn [write_batches].
  { apply wp_ret. by rewrite app_nil_r. }
  destruct Hc as (Hfirst & _ & _ & Hc).
  destruct (staged_writing _ _ _ _ Hs) as (m' & t & Hwr & Hmax & _).
  pose proof Hs as (Hf & Hws & Hi). apply wp_call.
  { cbn. exists m', t. split; [done|]. rewrite Hws. lia. }
  intros ? L'. cbn [apost]. intros ->.
  eapply wp_mono; [apply (IH f _ m (ws ++ batch_frames b))|].
  - split_and!; [done|kcbn; by rewrite Hws|done].
  - rewrite lenZ_app, lenZ_batch. refine (eq_ind _ (fun n => chained n bs) Hc _ _). lia.
  - intros ? L2. unfold all_frames. csimpl. by rewrite app_assoc.
Qed.

Lemma wp_finish_append_frames_commit f L m ws :
  staged f L m ws -> f_max_frame f <= u32_max ->
  wp (fun f' L' => writer f' (set_wr L' []) (meta_commit m (f_max_frame f) (last_checksum f) (f_transaction_count f')))
    (finish_append_frames_commit f) L.
Proof.
  intros Hs Hmax. destruct (staged_writing _ _ _ _ Hs) as (m' & t & Hwr & Ht & Hm' & Hi').
  destruct Hs as ((Hf & Hw & nb & Hm) & Hws & Hi).
  assert (m' = with_nb m nb) as -> by (cbn in Hm; congruence).
  unfold finish_append_frames_commit. set (f' := set_position _ _ _ _ _ _ _).
  apply wp_call.
  { cbn. split; [apply (q_guard _ _ (proj1 Hf))|].
    eexists _, t. split_and!; [done|cbn; lia|cbn; lia|by left]. }
  intros ? L' HL'. rewrite (HL' _ Hm'). apply wp_ret.
  split; [|split; [done|by exists nb]].
  change (set_wr (set_meta L ?x) []) with (set_meta (set_wr L []) x).
  apply idle_set_meta; [by apply (idle_ext f)|done|cbn; lia|done].
Qed.

Definition commit_ok (m : Metadata) (f : WalFile) (page_sz : PageSize)
    (batches : list (list frame)) : Prop :=
  header_ok m page_sz /\ Forall (batch_ok page_sz) batches /\
  f_max_frame f + lenZ (concat batches) <= u32_max.

Lemma wp_commit_frames big f L m page_sz db_size batches io_ok :
  writer f L m -> commit_ok m f page_sz batches ->
  wp (fun r L' => idle (snd r) L') (commit_frames big f page_sz db_size batches io_ok) L.
Proof.
  intros Hf (Hh & Hb & Hroom). unfold commit_frames.
  eapply wp_bind; [by apply wp_prepare_batches|].
  intros [[e|ps] f1] L1 (Hf1 & Emax & Hr); cbn [fst snd] in *; [apply wp_ret; apply Hf1|].
  destruct Hr as [Hc Hps]. destruct ps as [|b bs]; [apply wp_ret; apply Hf1|].
  set (ps := b :: bs) in *. apply wp_call; [done|]. intros ? L' [-> ->].
  pose proof (staged_start f1 L1 m Hf1 (proj1 Hh)) as Hs.
  eapply wp_bind.
  { apply (wp_write_batches ps f1 L1 m [] Hs). change (lenZ []) with 0. rewrite Emax, Z.add_0_r. exact Hc. }
  intros ? L2 Hs2. cbn [app] in Hs2. destruct io_ok; cbn [negb].
  - eapply wp_bind.
    { apply (wp_commit_prepared_frames ps f1 L2 m []); [by rewrite app_nil_r|by rewrite Emax]. }
    intros f3 L3 [Hs3 Emax3]. eapply wp_bind.
    { apply (wp_finish_append_frames_commit f3 L3 m [] Hs3). rewrite Emax3.
      unfold all_frames. rewrite Hps, Emax. lia. }
    intros f4 L4 Hf4. eapply wp_learn; [apply learn_wr|]. apply wp_ret. apply Hf4.
  - eapply staged_drop; [done|]. intros H. apply wp_ret. apply H.
Qed.

Definition spill_ok (m : Metadata) (page_sz : PageSize) (pages : list frame) : Prop :=
  header_ok m page_sz /\ pages_ok page_sz pages /\ lenZ pages <= IOV_MAX.

Lemma wp_append_frames_vectored big f L m pages page_sz :
  writer f L m -> spill_ok m page_sz pages ->
  wp (fun r L' => idle (snd r) L') (append_frames_vectored big f pages page_sz) L.
Proof.
  intros Hf (Hh & Hp & Hlen). pose proof Hf as (_ & _ & nb & Hm).
  pose proof Hh as (Hi & Hsz & Hin). unfold append_frames_vectored.
  apply wp_ensure; [by apply Z.leb_le|].
  apply wp_call; [done|]. intros b L' [Hb ->]. rewrite (Hb _ Hm). clear Hb.
  apply wp_ensure; [done|].
  apply wp_call; [done|]. intros h L' (Hhd & _ & ->). rewrite (Hhd _ Hm). clear Hhd.
  cbn [with_nb m_wal_header]. apply wp_ensure; [by apply Z.eqb_eq|].
  set (c := if _ =? 1 then _ else _).
  pose proof (prepare_loop_ok big m page_sz pages c (f_max_frame f + 1) 0 Hh Hp) as Hl.
  destruct (prepare_loop _ _ _ _ _ _) as [[frames final]|e|]; [|apply wp_ret; apply Hf|done].
  destruct Hl as [<- Hnum]. cbn [lift]. apply wp_call; [done|]. intros ? L' [-> ->].
  pose proof (staged_start f L m Hf Hi) as Hs.
  destruct (staged_writing _ _ _ _ Hs) as (m' & t & Hwr & Hmax & _). pose proof Hs as (Hs1 & Hws & _).
  apply wp_call.
  { cbn. exists m', t. split; [done|]. rewrite Hws. change (lenZ []) with 0. lia. }
  intros ? L'. cbn [apost]. intros ->. rewrite Hws. cbn [app].
  eapply wp_bind.
  { apply (wp_publish_spilled frames f _ m []); [|done]. rewrite app_nil_r. done. }
  intros ? L2 HL2. set (f' := match last frames with Some _ => _ | None => _ end).
  assert (moved f f' /\ f_max_frame f' = f_max_frame f + lenZ frames) as [Hmv Emax].
  { unfold f'. destruct (last frames) as [x|] eqn:E.
    - split; [done|]. cbn. rewrite (numbered_last _ _ _ Hnum E). lia.
    - apply last_None in E as ->. split; [done|]. change (lenZ []) with 0. lia. }
  eapply (staged_drop f'); [by apply HL2|]. intros H. apply wp_ret. apply H.
Qed.
