(* ===== verification/WalCkpt.v ===== *)
(** * WalCkpt: checkpoints in the program logic

    A checkpoint of [WalTxn] and the pager phases after it run without a
    failed assertion from a connection with no transaction, for every mode,
    order of the page writes, failed write or failed sync, and give all the
    locks back. *)

From stdpp Require Import gmap.
From S2P Require Import Prelude OnDisk RwLock WalFormat WalShared WalProg WalTxn WalLogic.
From S2P Require Import WalVerify WalAppend.

(** ** Locks held exclusively outside a transaction *)

Record holding (h : lockid -> hold) (L : know) : Prop := mkHolding {
  hl_hold : forall l, k_hold L l = h l;
  hl_mark : forall s, h (LRead s) = HNone -> k_mark L s = None;
  hl_guard : k_guard L = false;
  hl_cur : k_cur L = None;
  hl_meta : if decide (h LWrite = HWrite) then is_Some (k_meta L) else k_meta L = None;
  hl_tx : k_tx L = None;
  hl_wr : k_wr L = [];
  hl_ckpt : h LCkpt <> HWrite \/ h (LRead 0) <> HWrite ->
    k_load L = None /\ k_ck L = None /\ k_todo L = None
}.

Definition free : know -> Prop := holding (fun _ => HNone).

Definition held_lock (kind : GuardKind) (l : lockid) : hold :=
  match l with
  | LCkpt | LRead 0 => HWrite
  | LWrite => match kind with GWriter => HWrite | GRead0 => HNone end
  | _ => HNone
  end.

Definition held (kind : GuardKind) : know -> Prop := holding (held_lock kind).

Lemma holding_ext h h' L : (forall l, h' l = h l) -> holding h L -> holding h' L.
Proof.
  intros E [? ? ? ? ? ? ? ?]. constructor; try done; rewrite ?E; try done.
  - intros l. by rewrite E.
  - intros s. rewrite E. auto.
Qed.

Lemma holding_keq h L L' : keq L L' -> holding h L -> holding h L'.
Proof.
  intros [Hh Hm ? ? ? ? ? ? ? ?] [? ? ? ? Hme ? ? Hc]. constructor; try congruence.
  - intros s Hs. rewrite Hm. auto.
  - destruct (decide (h LWrite = HWrite)); congruence.
  - intros Hx. destruct (Hc Hx) as (? & ? & ?). split_and!; congruence.
Qed.

Lemma holding_gain h L l m :
  holding h L -> h l = HNone -> holding (upd h l HWrite) (learn_lock L OpWrite l (Some m)).
Proof.
  intros [Hh Hm Hg Hc Hme Ht Hw Hk] Hl.
  assert (forall l', k_hold (learn_lock L OpWrite l (Some m)) l' = upd h l HWrite l') as Eh.
  { intros l'. unfold learn_lock. destruct l; kcbn; unfold upd; by rewrite Hh. }
  assert (k_mark (learn_lock L OpWrite l (Some m)) = k_mark L) as Em by by destruct l.
  constructor; [done| | | | | | |].
  - intros s. rewrite Em. unfold upd. destruct (decide (LRead s = l)); [done|auto].
  - by destruct l.
  - by destruct l.
  - destruct l; try (rewrite upd_ne by done; exact Hme). by rewrite upd_eq, decide_True.
  - by destruct l.
  - by destruct l.
  - intros Hn. destruct Hk as (E1 & E2 & E3).
    { unfold upd in Hn. destruct (decide (LCkpt = l)) as [<-|]; [left; congruence|].
      destruct (decide (LRead 0 = l)) as [<-|]; [right; congruence|done]. }
    destruct l; cbn; rewrite ?E2; done.
Qed.

Lemma holding_forget h L l : holding h L -> holding (upd h l HNone) (forget L l).
Proof.
  intros [Hh Hm Hg Hc Hme Ht Hw Hk].
  assert (forall l', k_hold (forget L l) l' = upd h l HNone l') as Eh.
  { intros l'. unfold forget. kcbn. rewrite Ht.
    destruct l as [s| | |]; [destruct (decide (s = 0%nat))|..]; kcbn; unfold upd; by rewrite Hh. }
  assert (forall s', k_mark (forget L l) s' =
    if decide (l = LRead s') then None else k_mark L s') as Em.
  { intros s'. unfold forget. kcbn. rewrite Ht.
    destruct l as [s| | |]; [|by rewrite decide_False..].
    destruct (decide (s = 0%nat)); kcbn; unfold upd;
      (destruct (decide (s' = s)) as [->|]; [by rewrite decide_True|by rewrite decide_False by congruence]). }
  constructor; [exact Eh| |unfold forget; kcbn; rewrite Ht;
    destruct l as [s| | |]; [destruct (decide (s = 0%nat))|..]; kcbn..]; try done.
  - intros s'. rewrite Em. unfold upd. destruct (decide (l = LRead s')) as [->|]; [done|].
    rewrite decide_False by congruence. auto.
  - rewrite upd_ne in * by congruence. intros Hn. apply Hk.
    rewrite !upd_ne in Hn by congruence. done.
Qed.

Lemma wp_hold h L l {A} (Q : A -> know -> Prop) (k : bool -> prog A) :
  holding h L -> h l = HNone -> valid_lock l ->
  (forall L', holding (upd h l HWrite) L' -> wp Q (k true) L') ->
  wp Q (k false) L ->
  wp Q (call (ATry OpWrite l) ≫= k) L.
Proof.
  intros Hh Hl Hv Ht Hf. apply wp_call.
  { split_and!; [done|cbn; by rewrite (hl_hold _ _ Hh), Hl|done]. }
  intros [] L'; cbn [apost]; [|by intros ->].
  intros (_ & m & _ & ->). apply Ht. by apply holding_gain.
Qed.

Lemma wp_unhold h L l {A} (Q : A -> know -> Prop) (k : unit -> prog A) :
  holding h L -> h l = HWrite -> valid_lock l ->
  (forall L', holding (upd h l HNone) L' -> wp Q (k tt) L') ->
  wp Q (call (AUnlock l) ≫= k) L.
Proof.
  intros Hh Hl Hv Hk. apply wp_call.
  { split_and!; [done|by rewrite (hl_hold _ _ Hh), Hl|].
    intros _ t Ht. rewrite (hl_tx _ _ Hh) in Ht. done. }
  intros [] L'. cbn [apost]. intros ->. apply Hk. by apply holding_forget.
Qed.

Ltac same_locks :=
  intros ?l; unfold upd;
  repeat match goal with |- context [decide (?a = ?b)] => destruct (decide (a = b)) end;
  subst; try done; repeat match goal with l : lockid |- _ => destruct l as [[|]| | |] end; try done.

Definition guard_for (mode : CheckpointMode) : GuardKind :=
  match mode with Passive _ => GRead0 | _ => GWriter end.

Lemma wp_acquire_checkpoint_guard mode L :
  free L ->
  wp (fun r L' => match r with
                  | inl _ => free L'
                  | inr kind => kind = guard_for mode /\ held kind L'
                  end) (acquire_checkpoint_guard mode) L.
Proof.
  intros Hf. unfold acquire_checkpoint_guard.
  eapply wp_hold; [done|done|done| |by apply wp_ret]. intros L1 H1. cbn [negb].
  assert (wp (fun r L' => match r with inl _ => free L' | inr kind => False end)
            (_ ← unlock_checkpoint_lock; Ret (inl Busy : LimboError + GuardKind)) L1) as Hfail.
  { eapply wp_unhold; [done|done|done|]. intros L' H'. apply wp_ret. eapply holding_ext; [|done]. same_locks. }
  destruct mode; (eapply wp_hold; [done|done|cbn; lia| |cbn [negb]; eapply wp_mono; [done|by intros []]]);
    intros L2 H2; cbn [negb];
    [apply wp_ret; split; [done|]; eapply holding_ext; [|done]; same_locks|..];
    (eapply wp_hold; [done|done|done| |]); cbn [negb];
    try (intros L3 H3; apply wp_ret; split; [done|]; eapply holding_ext; [|done]; same_locks).
  all: eapply wp_unhold; [done|done|cbn; lia|]; intros L3 H3;
       eapply wp_unhold; [done|done|cbn; lia|]; intros L4 H4;
       apply wp_ret; eapply holding_ext; [|done]; same_locks.
Qed.

Lemma wp_unhold_end h L l (Q : unit -> know -> Prop) :
  holding h L -> h l = HWrite -> valid_lock l ->
  (forall L', holding (upd h l HNone) L' -> Q tt L') -> wp Q (call (AUnlock l)) L.
Proof.
  intros Hh Hl Hv HQ. apply (wp_unhold h L l Q Ret Hh Hl Hv). intros L' H'. apply wp_ret. auto.
Qed.

Lemma wp_release_checkpoint_guard kind L :
  held kind L -> wp (fun _ L' => free L') (release_checkpoint_guard kind) L.
Proof.
  intros Hh. destruct kind; unfold release_checkpoint_guard.
  - eapply wp_unhold; [done|done|done|]. intros L1 H1.
    eapply wp_unhold; [done|done|cbn; lia|]. intros L2 H2.
    eapply wp_unhold_end; [done|done|done|]. intros L3 H3. eapply holding_ext; [|done]. same_locks.
  - eapply wp_unhold; [done|done|cbn; lia|]. intros L2 H2.
    eapply wp_unhold_end; [done|done|done|]. intros L3 H3. eapply holding_ext; [|done]. same_locks.
Qed.

Definition guarded (g : option GuardKind) (L : know) : Prop :=
  match g with None => free L | Some kind => held kind L end.

Lemma wp_drop_guard g L : guarded g L -> wp (fun _ L' => free L') (drop_guard g) L.
Proof. destruct g; [apply wp_release_checkpoint_guard|intros H; by apply wp_ret]. Qed.

(** The fields of a connection that holds nothing. *)
Definition unlocked (f : WalFile) : Prop :=
  holds_read_lock f = false /\ f_write_lock_held f = false /\ f_vacuum_guard f = None.

Lemma idle_free f L :
  idle f L -> holds_read_lock f = false ->
  unlocked f /\ f_checkpoint_guard f = None /\ free L.
Proof.
  intros Hf Hr. destruct (idle_detached f L Hf Hr) as [((? & ? & ? & ? & ? & ? & Hh & Hm & Hme) & ? & ?) Hv].
  destruct Hf as ([Hs Hwr Hc _ Hvg Hcg _ _ _ _ _ _ _] & _ & Ha). rewrite Hr in Hvg.
  assert (f_write_lock_held f = false) as Hw.
  { unfold ahead in Ha. destruct (f_write_lock_held f); [|done]. destruct Ha as [Ha _]. congruence. }
  split_and!; try done. constructor; try done.
  - intros [s| | |]; try done; [by apply Hh|by rewrite Hwr, Hw].
  - intros s _. apply Hm.
Qed.

Lemma free_idle f L : unlocked f -> f_checkpoint_guard f = None -> free L -> idle f L.
Proof.
  intros (Hr & Hw & Hv) Hc [Hh Hm Hg Hcu Hme Ht Hwr Hk].
  destruct Hk as (? & ? & ?); [by left|]. rewrite decide_False in Hme by done.
  split; [constructor|split]; try done.
  - intros s. unfold slot_hold. by rewrite Hr, Hh.
  - by rewrite Hw, Hh.
  - by rewrite Hr, Hh.
  - by rewrite Hr.
  - intros s _. by apply Hm.
  - unfold opens. by rewrite Hr.
  - unfold ahead. by rewrite Hw.
Qed.

(** ** The frames that are safe to copy *)

(** The checkpoint state of [L'] is that of [L] with new bounds. *)
Definition rescanned (L : know) (m0 : Z) (safe : nat -> Z) (L' : know) : Prop :=
  keq (set_ckpt L (k_load L) (Some (m0, safe)) (k_todo L)) L'.

Lemma rescanned_trans L1 L2 L3 m0 s2 s3 :
  rescanned L1 m0 s2 L2 -> rescanned L2 m0 s3 L3 -> rescanned L1 m0 s3 L3.
Proof.
  intros [Hh Hm ? ? ? ? ? ? ? ?] [Hh' Hm' ? ? ? ? ? ? ? ?].
  cbn in *. constructor; kcbn; intros; rewrite ?Hh', ?Hm'; auto; congruence.
Qed.

Lemma rescan L s v m0 safe :
  k_hold L (LRead s) = HNone -> s <> 0%nat -> k_ck L = Some (m0, safe) ->
  rescanned L m0 (upd safe s (Z.min m0 v)) (learn_value L s v).
Proof.
  intros Hh Hs Hck. unfold learn_value. rewrite (decide_False (P := s = 0%nat)) by done.
  rewrite decide_True by done. rewrite Hck. by constructor.
Qed.

Lemma held_ckpt kind L a b c : held kind L -> held kind (set_ckpt L a b c).
Proof. intros [? ? ? ? ? ? ? ?]. constructor; try done. by intros [|]. Qed.

Lemma rescanned_held kind L m0 safe L' : held kind L -> rescanned L m0 safe L' -> held kind L'.
Proof. intros HL Hr. eapply holding_keq; [exact Hr|]. by apply held_ckpt. Qed.

Lemma wp_max_safe_loop slots : forall L kind m0 safe n,
  held kind L -> k_ck L = Some (m0, safe) ->
  (forall s, s ∈ slots -> (1 <= s < 5)%nat) -> 0 <= n <= m0 -> m0 <= u32_max ->
  (forall s, (1 <= s < 5)%nat -> s ∉ slots -> n <= safe s) ->
  wp (fun r L' => 0 <= r <= n /\ exists safe', rescanned L m0 safe' L' /\ safe_upto safe' r)
    (max_safe_loop slots n) L.
Proof.
  induction slots as [|s slots IH]; intros L kind m0 safe n HL Hck Hin Hn Hm0 Hsafe; cbn [max_safe_loop].
  { apply wp_ret. split; [lia|]. exists safe. split; [by constructor|].
    intros s Hs. apply Hsafe; [done|apply not_elem_of_nil]. }
  assert (1 <= s < 5)%nat as Hs by (apply Hin; by left).
  assert (forall x, x ∈ slots -> (1 <= x < 5)%nat) as Hin' by (intros x Hx; apply Hin; by right).
  apply wp_call; [cbn; lia|]. intros v L' (Hv & _ & ->).
  assert (k_hold L (LRead s) = HNone) as Hh by (rewrite (hl_hold _ _ HL); destruct s; [lia|done]).
  pose proof (rescan L s v m0 safe Hh (ltac:(lia)) Hck) as Hr1.
  set (L1 := learn_value L s v) in *. clearbody L1.
  pose proof (rescanned_held _ _ _ _ _ HL Hr1) as HL1.
  assert (u32 n = n) as -> by (unfold u32; rewrite Z.mod_small; unfold u32_max in *; lia).
  (* the loop goes on from [L2] with the bound [n2] *)
  assert (forall L2 safe2 n2, rescanned L m0 safe2 L2 -> 0 <= n2 <= n -> n2 <= safe2 s ->
    (forall x, x <> s -> safe2 x = safe x) ->
    wp (fun r L' => 0 <= r <= n /\ exists safe', rescanned L m0 safe' L' /\ safe_upto safe' r)
      (max_safe_loop slots n2) L2) as Hgo.
  { intros L2 safe2 n2 Hr Hn2 Hle Hsame.
    eapply wp_mono; [apply (IH L2 kind m0 safe2 n2); [exact (rescanned_held _ _ _ _ _ HL Hr)|apply Hr|done|lia|done|]|].
    - intros x Hx Hnx. destruct (decide (x = s)) as [->|]; [done|]. rewrite Hsame by done.
      assert (n <= safe x); [|lia]. apply Hsafe; [done|]. by rewrite not_elem_of_cons.
    - intros r L' (Hr' & safe' & Hre & Hup). split; [lia|]. exists safe'. split; [|done].
      exact (rescanned_trans _ _ _ _ _ _ Hr Hre). }
  assert (forall z x, x <> s -> upd safe s z x = safe x) as Hne by (intros; by rewrite upd_ne).
  destruct (Z.ltb_spec v n) as [Hlt|Hge]; [|apply (Hgo L1 _ n Hr1); [lia|rewrite upd_eq; lia|apply Hne]].
  apply wp_call; [split_and!; [cbn; lia| |done]|].
  { cbn. rewrite (hl_hold _ _ HL1). destruct s; [lia|done]. }
  intros [] L'; cbn [apost]; [|intros ->; apply (Hgo L1 _ v Hr1); [unfold is_u32 in Hv; lia|rewrite upd_eq; lia|apply Hne]].
  intros (_ & m & _ & ->). set (w := if (s =? 1)%nat then n else READMARK_NOT_USED).
  apply wp_call.
  { cbn. split_and!; [lia|by rewrite upd_eq| |].
    - unfold w. destruct (s =? 1)%nat; [unfold is_u32, u32_max in *; lia|by vm_compute].
    - intros (t & Ht & _). cbn in Ht. rewrite (hl_tx _ _ HL1) in Ht. done. }
  intros ? L'. cbn [apost]. intros ->.
  apply wp_call; [split_and!; [cbn; lia|cbn; by rewrite upd_eq|done]|].
  intros ? L'. cbn [apost]. intros ->.
  assert (rescanned L1 m0 (upd (upd safe s (Z.min m0 v)) s m0)
    (forget (set_mark (learn_lock L1 OpWrite (LRead s) (Some m)) s (Some w)) (LRead s))) as Hr2.
  { pose proof (borrow_slot L1 s (Some m) (Some w)) as Hb. rewrite (kq_ck _ _ Hr1) in Hb. apply Hb.
    - rewrite (hl_hold _ _ HL1). destruct s; [lia|done].
    - apply (hl_mark _ _ HL1). destruct s; [lia|done].
    - intros (t & Ht & _). rewrite (hl_tx _ _ HL1) in Ht. done.
    - lia. }
  apply (Hgo _ (upd (upd safe s (Z.min m0 v)) s m0) n); [exact (rescanned_trans _ _ _ _ _ _ Hr1 Hr2)|lia|rewrite upd_eq; lia|].
  intros x Hx. by rewrite !upd_ne.
Qed.

Lemma held_snapshot kind L s :
  held kind L ->
  held kind (learn_snapshot L s) /\
  k_load (learn_snapshot L s) = Some (s_nbackfills s, s_max_frame s) /\
  k_ck (learn_snapshot L s) = k_ck L /\ k_todo (learn_snapshot L s) = k_todo L.
Proof.
  intros [Hh Hm Hg Hc Hme Ht Hw Hk].
  assert (forall L1, k_hold L1 = k_hold L -> ckpt_locked L1 = true) as Hcl.
  { intros L1 E. unfold ckpt_locked. by rewrite E, !Hh, !bool_decide_eq_true_2. }
  unfold learn_snapshot. kcbn. rewrite Hg.
  destruct (k_meta L) as [m|] eqn:E; kcbn; rewrite Hcl by done.
  all: split_and!; try done; constructor; kcbn; try done; try (by intros [|]).
  all: destruct (decide (held_lock kind LWrite = HWrite)); try done; eauto; try by destruct Hme.
Qed.

(** The state of a checkpoint that has still the pages [l] of the frames up to
    [n] to copy. *)
Definition copying (kind : GuardKind) (nb n : Z) (l : list (Z * Z)) (L : know) : Prop :=
  held kind L /\ k_todo L = Some (n, l) /\ exists m, k_load L = Some (nb, m) /\ n <= m.

Lemma wp_pages_to_checkpoint kind L nb m m0 safe n :
  held kind L -> k_load L = Some (nb, m) -> k_ck L = Some (m0, safe) -> safe_upto safe n -> n <= m ->
  wp (fun l L' => copying kind nb n l L') (pages_to_checkpoint (nb + 1) n) L.
Proof.
  intros HL Hl Hck Hs Hn. unfold pages_to_checkpoint.
  destruct (Z.ltb_spec n (nb + 1)).
  - eapply wp_learn; [by eapply (learn_empty L nb m m0 safe n)|]. apply wp_ret.
    split_and!; [by apply held_ckpt|done|by exists m].
  - apply (wp_call_end (AIterLatest (nb + 1) n)).
    + exists nb, m, m0, safe. split_and!; done.
    + intros l L'. cbn [apost]. intros ->. split_and!; [by apply held_ckpt|done|by exists m].
Qed.

Lemma wp_checkpoint_range kind mode L :
  held kind L ->
  wp (fun r L' => match r with
                  | inl _ => held kind L'
                  | inr (min_frame, max_frame, l) =>
                      exists nb, 0 <= nb /\ min_frame = nb + 1 /\ copying kind nb max_frame l L'
                  end) (checkpoint_range mode) L.
Proof.
  intros HL. unfold checkpoint_range, determine_max_safe_checkpoint_frame.
  eapply (wp_bind (fun r L' => held kind L' /\ exists nb m0 safe m, k_ck L' = Some (m0, safe) /\
    k_load L' = Some (nb, m) /\ r <= m /\ safe_upto safe r)).
  { apply wp_call; [done|]. intros s L' (Hnb & Hmax & _ & _ & _ & _ & ->).
    destruct (held_snapshot kind L s HL) as (HL1 & Hload & _ & _).
    set (L1 := learn_snapshot L s) in *. clearbody L1.
    apply wp_ensure; [apply Z.leb_le; lia|].
    eapply wp_learn; [apply (learn_ck L1 (s_nbackfills s) (s_max_frame s)); [done|lia|]|].
    { intros (t & Ht & _). rewrite (hl_tx _ _ HL1) in Ht. done. }
    eapply wp_mono.
    { apply (wp_max_safe_loop mark_slots _ kind (s_max_frame s) (fun _ => 0)).
      - by apply held_ckpt.
      - done.
      - exact slots_lt.
      - lia.
      - done.
      - intros x Hx Hn. by destruct Hn; apply mark_slots_in. }
    intros r L' (Hr & safe' & Hre & Hup).
    split; [by eapply rescanned_held; [apply held_ckpt|]|].
    exists (s_nbackfills s), (s_max_frame s), safe', (s_max_frame s).
    split_and!; [apply Hre|by rewrite (kq_load _ _ Hre)|lia|done]. }
  intros n L1 (HL1 & nb & m0 & safe & m & Hck & Hload & Hn & Hup).
  apply wp_call; [done|]. intros s L' (Hnb & Hmax & _ & _ & Hl & _ & ->).
  destruct (Hl nb m Hload) as [Enb Em].
  destruct (held_snapshot kind L1 s HL1) as (HL2 & Hload2 & Eck & _). rewrite Hck in Eck.
  set (L2 := learn_snapshot L1 s) in *. clearbody L2.
  case_match; [by apply wp_ret|].
  set (n' := match mode with Passive (Some _) => _ | _ => _ end).
  assert (n' <= n) as Hn' by (unfold n'; repeat case_match; lia).
  eapply wp_bind.
  { apply (wp_pages_to_checkpoint kind L2 (s_nbackfills s) (s_max_frame s) m0 safe n'); try done; [|lia].
    intros x Hx. specialize (Hup x Hx). lia. }
  intros l L3 H3. apply wp_ret. exists (s_nbackfills s). split_and!; [lia|done|done].
Qed.

Lemma wp_copy_pages kind nb n fail_at l : forall L,
  copying kind nb n l L ->
  wp (fun r L' => if (r : bool) then copying kind nb n [] L' else held kind L')
    (copy_pages fail_at l) L.
Proof.
  revert fail_at. induction l as [|[p f] l IH]; intros fail_at L (HL & Htd & m & Hload & Hn);
    cbn [copy_pages].
  { apply wp_ret. split_and!; [done|done|by exists m]. }
  assert (forall fa, wp (fun r L' => if (r : bool) then copying kind nb n [] L' else held kind L')
    (_ ← call (ACopyFrame p f); copy_pages fa l) L) as Hgo.
  { intros fa. apply wp_call; [split; [by rewrite Hload|by exists n, l]|].
    intros ? L' HL'. rewrite (HL' n (p, f) l Htd). apply IH.
    split_and!; [by apply held_ckpt|done|by exists m]. }
  destruct fail_at as [[[|k] torn]|]; [|by apply Hgo|by apply Hgo].
  apply wp_call; [split; [by rewrite Hload|by exists n, f, l]|].
  intros ? L'. cbn [apost]. intros ->. by apply wp_ret.
Qed.

(** ** The end of a checkpoint *)

(** What the pager relies on after the WAL checkpoint returned. *)
Definition tail_ready (mode : CheckpointMode) (res : CheckpointResult) (L : know) : Prop :=
  if should_restart_log mode
  then exists m, k_meta L = Some m /\ m_max_frame m = 0
  else 0 < wal_checkpoint_backfilled res ->
       exists nb m, k_load L = Some (nb, m) /\ k_todo L = Some (wal_total_backfilled res, []) /\
         nb <= wal_total_backfilled res <= m /\ wal_total_backfilled res <= wal_max_frame res.

(** The guard is released early only when nothing is left to do. *)
Definition guard_case (mode : CheckpointMode) (res : CheckpointResult) : Prop :=
  match cr_guard res with
  | Some kind => kind = guard_for mode
  | None => wal_checkpoint_backfilled res = 0 /\ should_restart_log mode = false
  end.

Definition checkpointed (mode : CheckpointMode) (r : (LimboError + CheckpointResult) * WalFile)
    (L : know) : Prop :=
  unlocked (snd r) /\
  match fst r with
  | inl _ => guarded (f_checkpoint_guard (snd r)) L
  | inr res =>
      f_checkpoint_guard (snd r) = None /\ guarded (cr_guard res) L /\ tail_ready mode res L /\
      guard_case mode res
  end.

Lemma held_apart kind L : held kind L -> apart L.
Proof.
  intros [Hh Hm _ _ _ Ht _ _]. split; [intros t; by rewrite Ht|].
  intros s Hs. assert (held_lock kind (LRead s) = HNone) as E by (destruct s; [lia|done]).
  split; [by rewrite Hh|by apply Hm].
Qed.

Lemma grabbed_held kind L0 L : held kind L0 -> grabbed L0 [] L -> held kind L.
Proof.
  intros [Hh Hm Hg Hc Hme Ht Hw Hk] [Hh' Hm' ? ? ? ? ? ? Hck' ?]. constructor; try congruence.
  - intros l. rewrite Hh', decide_False by set_solver. apply Hh.
  - intros s Hs. rewrite Hm' by set_solver. auto.
  - destruct (decide (held_lock kind LWrite = HWrite)); congruence.
  - by intros [|].
Qed.

Lemma held_after_restart L m rnd : held GWriter L -> held GWriter (after_restart L m rnd).
Proof.
  intros [Hh Hm Hg Hc Hme Ht Hw Hk]. constructor; cbn; try done.
  - by rewrite decide_True.
  - by rewrite Ht.
Qed.

Lemma wp_restart_log f L m rnd :
  held GWriter L -> k_meta L = Some m -> k_todo L = Some (m_max_frame m, []) -> unlocked f ->
  wp (fun r L' => unlocked (snd r) /\ f_checkpoint_guard (snd r) = f_checkpoint_guard f /\
        match fst r with
        | inl _ => held GWriter L'
        | inr _ => grabbed (after_restart L m rnd) mark_slots L'
        end) (restart_log f rnd) L.
Proof.
  intros HL Hm Htd Hf. unfold restart_log. eapply wp_bind.
  { apply (wp_begin_restart rnd L m);
      [by eapply held_apart|apply (hl_guard _ _ HL)|by rewrite (hl_hold _ _ HL)|done|by right]. }
  intros [e|snap] L'; [intros [-> Hg]|intros [-> Hg]]; apply wp_ret; cbn [fst snd];
    (split; [done|split; [done|]]); [by eapply grabbed_held|done].
Qed.

Lemma wp_checkpoint_finish f L mode nb n rnd :
  unlocked f -> f_checkpoint_guard f = Some (guard_for mode) -> 0 <= nb ->
  copying (guard_for mode) nb n [] L ->
  wp (checkpointed mode) (checkpoint_finish f mode (nb + 1) n rnd) L.
Proof.
  intros Hf Hg Hnb (HL & Htd & m & Hload & Hn). unfold checkpoint_finish.
  apply wp_call; [done|]. intros s L' (_ & _ & _ & Hme & Hl & _ & ->).
  destruct (Hl nb m Hload) as [Enb Em].
  destruct (held_snapshot _ L s HL) as (HL1 & Hload1 & _ & Etd). rewrite Htd in Etd.
  set (res := mkCheckpointResult _ _ _ _).
  destruct (require_all_backfilled mode && negb (everything_backfilled res)) eqn:Eall.
  { apply wp_ret. split; [done|]. cbn. by rewrite Hg. }
  (* the locks and the state after the optional restart *)
  eapply (wp_bind (fun r L' => unlocked (snd r) /\ f_checkpoint_guard (snd r) = Some (guard_for mode) /\
    match fst r with
    | inl _ => held (guard_for mode) L'
    | inr _ => if should_restart_log mode
               then exists L0, grabbed L0 mark_slots L' /\ apart L0 /\ held (guard_for mode) L0 /\
                      tail_ready mode res L0
               else L' = learn_snapshot L s
    end)).
  { destruct (should_restart_log mode) eqn:Er; [|apply wp_ret; done].
    assert (guard_for mode = GWriter /\ require_all_backfilled mode = true) as [Egw Eq] by (by destruct mode).
    rewrite Egw, Eq in *. cbn [andb] in Eall. apply negb_false_iff, Z.eqb_eq in Eall. cbn in Eall.
    apply wp_ensure; [by apply bool_decide_eq_true|].
    pose proof (hl_meta _ _ HL) as Hm. rewrite decide_True in Hm by done. destruct Hm as [mt Hm].
    destruct (Hme mt Hm) as [Es _]. pose proof (learn_snapshot_meta L s mt Hm) as Hm1.
    eapply wp_mono; [apply (wp_restart_log f _ _ rnd HL1 Hm1); [|done]|].
    - rewrite Etd. cbn. rewrite <- Eall. by rewrite Es.
    - intros [[e|[]] f'] L' (Hf' & Hg' & Hr); cbn [fst snd] in *; (split; [done|split; [congruence|]]); [done|].
      eexists. split; [exact Hr|]. split_and!.
      + apply apart_after_restart. by eapply held_apart.
      + by apply held_after_restart.
      + unfold tail_ready. rewrite Er. by eexists. }
  intros [[e|[]] f'] L2 (Hf' & Hg' & Hr); cbn [fst snd] in *.
  { apply wp_ret. split; [done|]. cbn. by rewrite Hg'. }
  eapply (wp_bind (fun _ L' => held (guard_for mode) L' /\ tail_ready mode res L')).
  { destruct (should_restart_log mode) eqn:Er.
    - destruct Hr as (L0 & Hgr & Hap & HL0 & Htr).
      eapply wp_mono; [by apply (wp_end_restart L0)|]. intros ? L' Hg0.
      split; [by eapply grabbed_held|]. unfold tail_ready in *. rewrite Er in *.
      by rewrite (gr_meta _ _ _ Hg0).
    - subst L2. apply wp_ret. split; [done|]. unfold tail_ready. rewrite Er. cbn. intros Hpos.
      exists (s_nbackfills s), (s_max_frame s). unfold saturating_sub in Hpos. split_and!; done || lia. }
  intros ? L3 [HL3 Htr]. apply wp_call; [done|]. intros ? L'. cbn [apost]. intros ->.
  destruct (should_truncate res || (0 <? wal_checkpoint_backfilled res)) eqn:Ek.
  - apply wp_ret. split; [done|]. cbn. rewrite Hg'. done.
  - rewrite Hg'. apply orb_false_iff in Ek as [Ek1 Ek2]. apply Z.ltb_ge in Ek2.
    eapply wp_bind; [by apply wp_drop_guard|]. intros ? L' Hfr. apply wp_ret. split; [done|].
    assert (should_restart_log mode = false) as Er.
    { destruct (should_restart_log mode) eqn:Er; [|done].
      assert (require_all_backfilled mode = true) as Eq by (by destruct mode).
      rewrite Eq in Eall. unfold should_truncate in Ek1. by rewrite Ek1 in Eall. }
    cbn. unfold tail_ready, guard_case. rewrite Er. cbn in *. unfold saturating_sub in *.
    split_and!; done || lia.
Qed.

(** The storage writes the pages in some order. *)
Definition io_ok (io : io_plan) : Prop := forall l, io_order io l ≡ₚ l.

Lemma wp_acquire_proper_checkpoint_guard f L mode :
  unlocked f -> f_checkpoint_guard f = None -> free L ->
  wp (fun r L' => unlocked (snd r) /\
        match fst r with
        | inl _ => f_checkpoint_guard (snd r) = None /\ free L'
        | inr _ => f_checkpoint_guard (snd r) = Some (guard_for mode) /\ held (guard_for mode) L'
        end) (acquire_proper_checkpoint_guard f mode) L.
Proof.
  intros Hf Hc HL. unfold acquire_proper_checkpoint_guard. rewrite Hc. cbn [negb].
  apply (wp_bind (fun _ L' => L' = L)); [by apply wp_ret|]. intros ? L' ->.
  eapply wp_bind; [by apply wp_acquire_checkpoint_guard|].
  intros [e|kind] L'; [intros HL'|intros [-> HL']]; by apply wp_ret.
Qed.

Lemma free_snapshot L s : free L -> free (learn_snapshot L s).
Proof.
  intros HL. pose proof HL as [Hh Hm Hg Hc Hme Ht Hw Hk]. destruct Hk as (? & ? & ?); [by left|].
  eapply holding_keq; [|exact HL]. apply learn_snapshot_free; try done. by rewrite Hh.
Qed.

Lemma wp_checkpoint_inner f L mode io rnd :
  unlocked f -> f_checkpoint_guard f = None -> free L -> io_ok io ->
  wp (checkpointed mode) (checkpoint_inner f mode io rnd) L.
Proof.
  intros Hf Hc HL Hio. unfold checkpoint_inner.
  apply wp_call; [done|]. intros s L' (_ & _ & _ & _ & _ & _ & ->).
  pose proof (free_snapshot L s HL) as HL1. set (L1 := learn_snapshot L s) in *. clearbody L1.
  destruct (negb (s_nbackfills s <? s_max_frame s) && negb (should_restart_log mode)) eqn:E.
  { apply wp_ret. split; [done|]. apply andb_true_iff in E as [_ E]. apply negb_true_iff in E.
    cbn. unfold tail_ready, guard_case. rewrite E. cbn. split_and!; done || lia. }
  eapply wp_bind; [by apply wp_acquire_proper_checkpoint_guard|].
  intros [[e|[]] f1] L2 [Hf1 H1]; cbn [fst snd] in *; destruct H1 as [Hc1 HL2].
  { apply wp_ret. split; [done|]. cbn. by rewrite Hc1. }
  eapply wp_bind; [by apply wp_checkpoint_range|].
  intros [e|[[min_frame max_frame] l]] L3.
  { intros HL3. apply wp_ret. split; [done|]. cbn. by rewrite Hc1. }
  intros (nb & Hnb & -> & HL3 & Htd & m & Hload & Hn).
  eapply wp_learn; [eapply (learn_perm L3 max_frame l (io_order io l) Htd); symmetry; apply Hio|].
  eapply wp_bind.
  { apply (wp_copy_pages (guard_for mode) nb max_frame).
    split_and!; [by apply held_ckpt|done|by exists m]. }
  intros [] L4 H4; cbn [negb]; [by apply wp_checkpoint_finish|].
  apply wp_ret. split; [done|]. cbn. by rewrite Hc1.
Qed.

Lemma wp_checkpoint f L mode io rnd :
  unlocked f -> f_checkpoint_guard f = None -> free L -> io_ok io ->
  wp (fun r L' => checkpointed mode r L' /\ f_checkpoint_guard (snd r) = None)
    (checkpoint f mode io rnd) L.
Proof.
  intros Hf Hc HL Hio. unfold checkpoint. eapply wp_bind; [by apply wp_checkpoint_inner|].
  intros [[e|res] f1] L1 [Hf1 H1]; cbn [fst snd] in *.
  - eapply wp_bind; [by apply wp_drop_guard|]. intros ? L2 H2. apply wp_ret. done.
  - apply wp_ret. destruct H1 as (? & ? & ?). done.
Qed.

Lemma wp_wal_publish_backfill kind L nb m n :
  held kind L -> k_load L = Some (nb, m) -> k_todo L = Some (n, []) -> nb <= n <= m ->
  wp (fun _ L' => held kind L') (wal_publish_backfill n) L.
Proof.
  intros HL Hload Htd Hn. unfold wal_publish_backfill.
  apply wp_call; [done|]. intros s L' (_ & _ & _ & _ & Hl & _ & ->).
  destruct (Hl nb m Hload) as [Enb Em].
  destruct (held_snapshot _ L s HL) as (HL1 & Hload1 & _ & Etd). rewrite Htd in Etd.
  apply wp_ensure; [apply andb_true_iff; split; apply Z.leb_le; lia|].
  apply (wp_call_end (APublishBackfill n)).
  - split; [apply (hl_guard _ _ HL1)|].
    exists (s_nbackfills s), (s_max_frame s). split_and!; [done|done|lia].
  - intros ? L' HL'. rewrite (HL' _ _ Hload1). by apply held_ckpt.
Qed.

Lemma wp_truncate_log L m :
  held GWriter L -> k_meta L = Some m -> m_max_frame m = 0 ->
  wp (fun _ L' => held GWriter L') truncate_log L.
Proof.
  intros HL Hm Hz. unfold truncate_log. apply wp_call; [by exists m|].
  intros r L' [-> HL']. rewrite (HL' m Hm). clear HL'.
  assert (forall m', held GWriter (set_meta L (Some m'))) as Hset.
  { intros m'. destruct HL as [? ? ? ? ? ? ? ?]. constructor; kcbn; try done. by rewrite decide_True. }
  apply wp_call.
  - eexists. split_and!; [done|done|]. kcbn. rewrite (hl_tx _ _ HL). done.
  - intros ? L''. cbn [apost]. intros ->. apply wp_ret.
    eapply holding_keq; [|apply Hset]. apply keq_set_wr. apply (hl_wr _ _ (Hset m)).
Qed.

(** The phase that the pager chooses is one the checkpoint is ready for. *)
Lemma wp_run_tail mode sync_mode res L :
  guarded (cr_guard res) L -> tail_ready mode res L -> guard_case mode res ->
  wp (fun _ L' => guarded (cr_guard res) L')
    (run_tail res (snd (checkpoint_phase mode sync_mode res))) L.
Proof.
  intros HL Htr Hgc. unfold checkpoint_phase, next_post_sync_checkpoint_phase.
  destruct (should_restart_log mode) eqn:Er.
  - assert (cr_guard res = Some GWriter) as Eg.
    { unfold guard_case in Hgc. destruct (cr_guard res); [|destruct Hgc; congruence]. by destruct mode; subst. }
    rewrite Eg in *. unfold tail_ready in Htr. rewrite Er in Htr. destruct Htr as (m & Hm & Hz).
    rewrite andb_false_r. repeat case_match; cbn [snd run_tail]; try (by apply wp_ret);
      by eapply wp_truncate_log.
  - assert (is_truncate mode = false) as Et by (by destruct mode). rewrite Et. cbn [andb negb].
    destruct (_ || _) eqn:E; cbn [snd run_tail]; [by apply wp_ret|].
    destruct (Z.ltb_spec 0 (wal_checkpoint_backfilled res)) as [Hpos|]; cbn [andb]; [|by apply wp_ret].
    unfold tail_ready in Htr. rewrite Er in Htr. destruct (Htr Hpos) as (nb & m & Hl & Htd & Hn & Hmx).
    apply wp_ensure; [by apply Z.ltb_lt|]. apply wp_ensure; [apply Z.eqb_refl|].
    apply wp_ensure; [apply Z.leb_le; lia|].
    unfold guard_case in Hgc. destruct (cr_guard res) as [kind|]; [|lia].
    eapply wp_bind; [by eapply wp_wal_publish_backfill|]. intros ? L' HL'. by apply wp_ret.
Qed.

Lemma wp_pager_checkpoint f L mode sync_mode io rnd :
  idle f L -> holds_read_lock f = false -> io_ok io ->
  wp (fun r L' => idle (snd r) L') (pager_checkpoint f mode sync_mode io rnd) L.
Proof.
  intros Hf Hr Hio. destruct (idle_free f L Hf Hr) as (Hu & Hc & HL). unfold pager_checkpoint.
  eapply wp_bind; [by apply wp_checkpoint|].
  intros [[e|res] f1] L1 [[Hu1 H1] Hc1]; cbn [fst snd] in *.
  { apply wp_ret. rewrite Hc1 in H1. by apply free_idle. }
  destruct H1 as (_ & Hg & Htr & Hgc).
  pose proof (wp_run_tail mode sync_mode res L1 Hg Htr Hgc) as Ht.
  destruct (checkpoint_phase mode sync_mode res) as [sync tail]. cbn [snd] in Ht.
  destruct (sync && negb (io_sync_ok io)).
  - eapply wp_bind; [by apply wp_drop_guard|]. intros ? L2 H2. apply wp_ret. by apply free_idle.
  - eapply wp_bind; [exact Ht|]. intros t L2 H2. eapply wp_bind; [by apply wp_drop_guard|].
    intros ? L3 H3. apply wp_ret. by apply free_idle.
Qed.
