(* ===== verification/WalIso.v ===== *)
(** * WalIso: isolation of the connections of a WAL database

    A system of connections that run the calls of [WalTxn] interleaved, one
    access at a time, against one shared state, one log and one database
    file.  A connection makes the calls that the pager makes ([allowed]).
    The theorems say what the connections observe in every interleaving. *)

From stdpp Require Import gmap.
From S2P Require Import Prelude OnDisk RwLock WalFormat WalShared WalProg WalTxn WalLogic.
From S2P Require Import WalSound WalVerify WalAppend WalCkpt.

(** ** Calls *)

Inductive wal_call :=
| CBeginRead
| CEndRead
| CRefresh
| CBeginWrite (restart_allowed : bool) (rnd : Z)
| CEndWrite
| CEnsureHeader (big : bool) (page_size : PageSize) (rnd1 rnd2 : Z) (truncate synced : bool)
| CAppend (big : bool) (pages : list frame) (page_sz : PageSize)
| CCommit (big : bool) (page_sz : PageSize) (db_size : Z) (batches : list (list frame))
    (io_ok : bool)
| CRollback (to : option RollbackTo)
| CCheckpoint (mode : CheckpointMode) (sync_mode : SyncMode) (io : io_plan) (rnd : Z).

(** The connection after a call. *)
Definition after {A} (p : prog (A * WalFile)) : prog WalFile := r ← p; Ret (snd r).

Definition call_prog (c : wal_call) (f : WalFile) : prog WalFile :=
  match c with
  | CBeginRead => after (begin_read_tx f)
  | CEndRead => end_read_tx f
  | CRefresh => after (mvcc_refresh_if_db_changed f)
  | CBeginWrite restart_allowed rnd => after (begin_write_tx f restart_allowed rnd)
  | CEndWrite => end_write_tx f
  | CEnsureHeader big page_size rnd1 rnd2 truncate synced =>
      after (ensure_header_if_needed big f page_size rnd1 rnd2 truncate synced)
  | CAppend big pages page_sz => after (append_frames_vectored big f pages page_sz)
  | CCommit big page_sz db_size batches io_ok =>
      after (commit_frames big f page_sz db_size batches io_ok)
  | CRollback to => rollback f to
  | CCheckpoint mode sync_mode io rnd => after (pager_checkpoint f mode sync_mode io rnd)
  end.

(** The contract of the caller, in terms of the connection and of the
    metadata: a transaction is opened once and closed after its writer, a
    write transaction ends at the committed position, frames are appended after
    the header was written with their page size and while there is room for
    them, a rollback goes to a position of the transaction, and a checkpoint
    runs outside transactions. *)
Definition allowed (m : Metadata) (f : WalFile) (c : wal_call) : Prop :=
  match c with
  | CBeginRead => holds_read_lock f = false
  | CEndRead => f_write_lock_held f = false
  | CRefresh => True
  | CBeginWrite _ _ => holds_read_lock f = true /\ f_write_lock_held f = false
  | CEndWrite => f_write_lock_held f = true /\ f_max_frame f = m_max_frame m
  | CEnsureHeader _ page_size _ _ _ _ =>
      f_write_lock_held f = true /\ is_u32 (PageSize_get page_size)
  | CAppend _ pages page_sz => f_write_lock_held f = true /\ spill_ok m page_sz pages
  | CCommit _ page_sz _ batches _ =>
      f_write_lock_held f = true /\ commit_ok m f page_sz batches
  | CRollback to => f_write_lock_held f = true /\ rollback_ok m f to
  | CCheckpoint _ _ io _ => holds_read_lock f = false /\ io_ok io
  end.

(** ** The system *)

Inductive conn := Idle (f : WalFile) | Running (p : prog WalFile).

(** The worlds so far, the last one being the current one, and for each
    connection the world at which its last [begin_read_tx] was called. *)
Record sys := mkSys {
  s_world : world;
  s_conns : list conn;
  s_hist : list world;
  s_started : list nat
}.

Inductive event := ECall (c : wal_call) | EAccess (e : act) | EReturn.

Inductive step (s : sys) (i : nat) : event -> sys -> Prop :=
| step_call f c :
    s_conns s !! i = Some (Idle f) -> allowed (metadata (w_shared (s_world s))) f c ->
    step s i (ECall c)
      (mkSys (s_world s) (<[i := Running (call_prog c f)]> (s_conns s)) (s_hist s)
         (match c with
          | CBeginRead => <[i := pred (length (s_hist s))]> (s_started s)
          | _ => s_started s
          end))
| step_access e k r w' :
    s_conns s !! i = Some (Running (Do e k)) -> exec e (s_world s) = Some (Ok (r, w')) ->
    step s i (EAccess e)
      (mkSys w' (<[i := Running (k r)]> (s_conns s)) (s_hist s ++ [w']) (s_started s))
| step_return f :
    s_conns s !! i = Some (Running (Ret f)) ->
    step s i EReturn
      (mkSys (s_world s) (<[i := Idle f]> (s_conns s)) (s_hist s) (s_started s)).

Definition any_step (s s' : sys) : Prop := exists i ev, step s i ev s'.

(** A step of a connection other than [i]. *)
Definition other_step (i : nat) (s s' : sys) : Prop := exists j ev, j <> i /\ step s j ev s'.

(** A log that has been opened: nothing is locked, nothing is backfilled, and
    the frame cache indexes the committed frames. *)
Record ready (w : world) : Prop := mkReady {
  rd_open : m_enabled (meta w) = true /\ r_file (runtime (w_shared w)) = true;
  rd_header : header_u32 (m_wal_header (meta w));
  rd_range : nb_of w = 0 /\ 0 <= max_of w <= u32_max;
  rd_fresh : m_initialized (meta w) = false -> max_of w = 0;
  rd_cache : exists pages, runtime_rep (runtime (w_shared w)) pages /\
               agree pages (w_log w) (max_of w);
  rd_locks : forall l, valid_lock l ->
               exists v, lock_word (w_shared w) l = Some (enc v 0 0) /\ is_u32 v;
  rd_slots : length (r_read_locks (runtime (w_shared w))) = 5%nat;
  rd_guards : w_guards w = 0%nat
}.

Definition closed (f : WalFile) : Prop := unlocked f /\ f_checkpoint_guard f = None.

Inductive initial : sys -> Prop :=
| initial_intro w fs :
    ready w -> Forall closed fs -> lenZ fs < 2147483647 ->
    initial (mkSys w (Idle <$> fs) [w] (replicate (length fs) 0%nat)).

Definition reachable (s : sys) : Prop := exists s0, initial s0 /\ rtc any_step s0 s.

(** ** Reading a page *)

(** The two halves of a page read: where the page is, and what is there. *)
Definition page_at (w : world) (loc : option Z) (p : Z) : option bytes :=
  match loc with
  | Some n => snd <$> w_log w !! Z.to_nat (n - 1)
  | None => w_db w !! p
  end.

Definition page_location (w : world) (f : WalFile) (p : Z) : option Z :=
  wal_find_frame (w_shared w) f p.

(** ** The invariant of the system *)

Definition conn_ok (c : conn) (L : know) : Prop :=
  match c with Idle f => idle f L | Running p => wp idle p L end.

Definition sys_inv (sts : list start) (s : sys) : Prop :=
  exists Ls g, ginv (s_world s) (s_hist s) sts Ls g /\ Forall2 conn_ok (s_conns s) Ls.

Lemma wp_after {A} (p : prog (A * WalFile)) L :
  wp (fun r L' => idle (snd r) L') p L -> wp idle (after p) L.
Proof. intros H. eapply wp_bind; [exact H|]. intros r L' Hr. by apply wp_ret. Qed.

Lemma frozen_writer f L m0 m :
  idle f L -> f_write_lock_held f = true -> k_meta L = Some m0 -> frozen m0 m -> writer f L m.
Proof.
  intros Hf Hw Hm [_ E]. split; [done|]. split; [done|]. exists (m_nbackfills m0).
  rewrite Hm, E. by destruct m0.
Qed.

(** Every call of the pager meets the program logic. *)
Lemma call_wp c f L m :
  idle f L -> (forall m0, k_meta L = Some m0 -> frozen m0 m) -> allowed m f c ->
  wp idle (call_prog c f) L.
Proof.
  intros Hf Hfr Ha.
  assert (f_write_lock_held f = true -> exists m0, k_meta L = Some m0 /\ frozen m0 m /\
    m_max_frame m0 = m_max_frame m /\ m_wal_header m0 = m_wal_header m) as Hw.
  { intros Hw. destruct (idle_writing f L Hf Hw) as (m0 & t & (Em & _) & _). exists m0.
    pose proof (Hfr m0 Em) as [Hle E]. split_and!; try done; rewrite E; done. }
  destruct c; cbn [call_prog allowed] in *; try apply wp_after.
  - by apply wp_begin_read_tx.
  - by apply wp_end_read_tx.
  - by apply wp_mvcc_refresh.
  - destruct Ha. by apply wp_begin_write_tx.
  - destruct Ha as [H1 H2]. destruct (Hw H1) as (m0 & Em & _ & Emax & _).
    apply (wp_end_write_tx f L m0); try done. lia.
  - destruct Ha as [H1 H2]. destruct (Hw H1) as (m0 & Em & _). by apply (wp_ensure_header f L m0).
  - destruct Ha as [H1 H2]. destruct (Hw H1) as (m0 & Em & Hz & _).
    apply (wp_append_frames_vectored big f L m); [by eapply frozen_writer|done].
  - destruct Ha as [H1 H2]. destruct (Hw H1) as (m0 & Em & Hz & _).
    apply (wp_commit_frames big f L m); [by eapply frozen_writer|done].
  - destruct Ha as [H1 H2]. destruct (Hw H1) as (m0 & Em & _ & Emax & Eh).
    apply (wp_rollback f L m0); try done. unfold rollback_ok in *. by rewrite Emax, Eh.
  - destruct Ha as [H1 H2]. by apply wp_pager_checkpoint.
Qed.

(** Running a program one access further, or to its end. *)
Lemma wp_progress p L : forall w hist sts Ls g i,
  wp idle p L -> flexible sts i -> ginv w hist sts Ls g -> Ls !! i = Some L ->
  match p with
  | Ret f => exists L', ginv w hist sts (<[i := L']> Ls) g /\ idle f L'
  | Do e k =>
      match exec e w with
      | None => True
      | Some (Ok (r, w')) =>
          (exists L' g', ginv w' (hist ++ [w']) sts (<[i := L']> Ls) g' /\ wp idle (k r) L') /\
          (is_publish e = false -> forall p, committed w' p = committed w p) /\
          match e with APublishCommit n _ _ => max_of w <= n | _ => True end
      | Some _ => False
      end
  | Crash => False
  end.
Proof.
  intros w hist sts Ls g i Hm Hfx. revert Ls.
  induction Hm as [f L Ha|e k L Hp Hk IH|m L L1 Hl Hm IH]; intros Ls HG Hi.
  - exists L. by rewrite list_insert_id.
  - pose proof (access_sound e w hist sts Ls g i L Hfx HG Hi Hp) as Hs.
    destruct (exec e w) as [[[r w']|x|]|]; try done.
    destruct Hs as (L' & g' & Hpost & HG' & Hcom). split_and!; [exists L', g'; auto|done|].
    destruct e; try done. destruct Hp as (_ & m & t & (Hm & _ & Hle) & -> & _).
    by rewrite <- (frozen_max _ _ (ginv_frozen _ _ _ _ _ _ _ _ HG Hi Hm)).
  - pose proof (learn_sound _ _ _ _ _ _ _ _ Hfx HG Hi Hl) as HG1.
    specialize (IH (<[i := L1]> Ls) HG1).
    rewrite list_lookup_insert_eq in IH by (by eapply lookup_lt_Some).
    specialize (IH eq_refl). destruct m as [f|e k|]; [|destruct (exec e w) as [[[r w']|x|]|]|];
      try done; by setoid_rewrite list_insert_insert_eq in IH.
Qed.

(** A connection may be given other snapshots that its knowledge allows. *)
Lemma ginv_relabel w hist sts Ls g i L st :
  ginv w hist sts Ls g -> Ls !! i = Some L -> (st_from st < length hist)%nat ->
  linv w g hist st L -> ginv w hist (<[i := st]> sts) Ls g.
Proof.
  intros [Hs Hl Hh Hlk Hg Hd Hlo Hc] Hi Hst HL. constructor; try done.
  - by rewrite length_insert.
  - split; [apply Hh|]. apply Forall_insert; [apply Hh|done].
  - intros j Lj stj Hj Hstj. apply list_lookup_insert_Some in Hstj as [(-> & -> & _)|[_ Hstj]]; [|eauto].
    rewrite Hi in Hj. by injection Hj as <-.
Qed.

(** A connection without a transaction may see anything. *)
Lemma linv_no_tx w g hist st st' L : linv w g hist st L -> k_tx L = None -> linv w g hist st' L.
Proof. intros [? ? ? ? Htx ? ? ?] Ht. constructor; try done. intros t. by rewrite Ht. Qed.

Definition starts_after (sts : list start) (s : sys) (i : nat) (ev : event) : list start :=
  match ev with
  | ECall CBeginRead => <[i := mkStart (pred (length (s_hist s))) None]> sts
  | _ => sts
  end.

Lemma sys_inv_step sts s i ev s' :
  sys_inv sts s -> flexible sts i -> step s i ev s' -> sys_inv (starts_after sts s i ev) s'.
Proof.
  intros (Ls & g & HG & HF) Hfx Hst. destruct Hst as [f c Hi Ha|e k r w' Hi He|f Hi];
    destruct (Forall2_lookup_l _ _ _ _ _ HF Hi) as (L & HL & Hc); cbn [conn_ok] in Hc.
  - destruct (ginv_start _ _ _ _ _ _ _ HG HL) as [st Hst].
    pose proof (gi_local _ _ _ _ _ HG i L st HL Hst) as Hlin.
    assert (wp idle (call_prog c f) L) as Hwp.
    { eapply call_wp; [done| |done]. intros m0 Hm0. pose proof (li_meta _ _ _ _ _ Hlin) as Hme.
      rewrite Hm0 in Hme. apply Hme. }
    exists Ls, g. split; [|cbn; rewrite <- (list_insert_id Ls i L HL); by apply Forall2_insert].
    cbn. destruct c; try done. destruct (idle_detached f L Hc Ha) as [((_ & Ht & _) & _) _].
    destruct (gi_hist _ _ _ _ _ HG) as [Hlast _].
    apply (ginv_relabel _ _ _ _ _ i L); [done|done| |by eapply linv_no_tx].
    cbn. destruct (s_hist s); [done|cbn; lia].
  - pose proof (wp_progress _ L _ _ _ _ _ i Hc Hfx HG HL) as Hx. cbn in Hx. rewrite He in Hx.
    destruct Hx as [(L' & g' & HG' & Hwp) _]. exists (<[i := L']> Ls), g'. split; [done|].
    by apply Forall2_insert.
  - destruct (wp_progress _ L _ _ _ _ _ i Hc Hfx HG HL) as (L' & HG' & Hf).
    exists (<[i := L']> Ls), g. split; [done|]. by apply Forall2_insert.
Qed.

Lemma filter_replicate_none {A} (P : A -> Prop) `{!forall x, Decision (P x)} n x :
  ~ P x -> filter P (replicate n x) = [].
Proof. intros Hx. induction n as [|n IH]; [done|]. cbn [replicate]. by rewrite filter_cons_False. Qed.

Lemma initial_inv s : initial s -> sys_inv ((fun n => mkStart n None) <$> s_started s) s.
Proof.
  intros [w fs [Ho Hhd [Hnb Hmx] Hfr (pages & Hrep & Hag) Hlk Hsl Hgu] Hcl Hlen].
  exists (replicate (length fs) know_nothing), (mkGhost (w_db w) 0 pages). split.
  - assert (forall h l, h <> HNone -> cnt h l (replicate (length fs) know_nothing) = 0) as Hc0.
    { intros h l Hh. unfold cnt. rewrite filter_replicate_none; [done|]. cbn. congruence. }
    constructor; cbn.
    + unfold lenZ in *. by rewrite length_replicate.
    + by rewrite length_fmap, !length_replicate.
    + split; [done|]. apply Forall_fmap, Forall_replicate. cbn. lia.
    + intros l Hv. destruct (Hlk l Hv) as (v & Hw & Hu). exists v. rewrite !Hc0 by done. auto.
    + by rewrite Hgu, filter_replicate_none.
    + constructor; cbn; try done; [split_and!; lia|]. intros p. right.
      rewrite Hnb. by rewrite version_zero.
    + intros i L st Hi _. apply lookup_replicate in Hi as [-> _]. by constructor.
    + intros i j Li Lj m0 safe t Hi _ Hk. apply lookup_replicate in Hi as [-> _]. done.
  - cbn. rewrite Forall2_fmap_l. apply Forall2_replicate_r; [done|].
    eapply Forall_impl; [exact Hcl|]. intros f [Hu Hg]. apply free_idle; [done|done|].
    by constructor.
Qed.

Lemma any_inv s s' :
  sys_inv ((fun n => mkStart n None) <$> s_started s) s -> any_step s s' ->
  sys_inv ((fun n => mkStart n None) <$> s_started s') s'.
Proof.
  intros Hs (i & ev & Hst). assert (flexible ((fun n => mkStart n None) <$> s_started s) i) as Hfx.
  { intros st Hi. apply list_lookup_fmap_Some in Hi as (n & -> & _). done. }
  pose proof (sys_inv_step _ _ _ _ _ Hs Hfx Hst) as Hs'.
  destruct Hst as [f c Hi Ha|e k r w' Hi He|f Hi]; try done.
  cbn in *. destruct c; try done. by rewrite list_fmap_insert.
Qed.

Lemma reachable_sys_inv s :
  reachable s -> sys_inv ((fun n => mkStart n None) <$> s_started s) s.
Proof.
  intros (s0 & H0 & Hr). apply initial_inv in H0.
  induction Hr as [s|s s1 s' Hst _ IH]; [done|]. apply IH. by eapply any_inv.
Qed.

(** ** What a transaction reads *)

(** The frame that a connection finds for page [p], and the frames it does not
    look at. *)
Lemma page_location_spec w g f p :
  dinv w g -> agree (g_pages g) (w_log w) (f_max_frame f) ->
  match page_location w f p with
  | Some n => 1 <= n <= f_max_frame f /\
              (exists v, w_log w !! Z.to_nat (n - 1) = Some (p, v)) /\
              ~ touched (w_log w) p n (f_max_frame f)
  | None => ~ touched (w_log w) p (Z.max 0 (f_min_frame f - 1)) (f_max_frame f)
  end.
Proof.
  intros Hd Hag. destruct (di_cache _ _ Hd) as [Hrep _].
  assert (forall n, 1 <= n <= f_max_frame f ->
    g_pages g !! Z.to_nat (n - 1) = Some p <-> exists v, w_log w !! Z.to_nat (n - 1) = Some (p, v))
    as Hlk.
  { intros n Hn. rewrite (agree_lookup _ _ _ n Hag) by lia. rewrite fmap_Some. split.
    - intros ([q v] & Hl & ->). eauto.
    - intros (v & Hl). by exists (p, v). }
  assert (f_max_frame f <= lenZ (g_pages g)) as Hlen by (destruct Hag; lia).
  unfold page_location, wal_find_frame.
  destruct (Z.ltb_spec (f_max_frame f) (f_min_frame f)); [intros (n & v & Hn & _); lia|].
  pose proof (find_frame_rep (w_shared w) _ p (f_min_frame f) (f_max_frame f) Hrep) as Hff.
  destruct (find_frame _ _ _ _ _) as [n|].
  - destruct Hff as (Hn & Hn' & Hl & Hmax). split_and!; [lia|lia|apply Hlk; [lia|done]|].
    intros (n' & v & Hr & Hl'). assert (n' <= n); [|lia]. apply Hmax; [lia|lia|]. apply Hlk; [lia|eauto].
  - intros (n & v & Hr & Hl). apply (Hff n); [lia|lia|]. apply Hlk; [lia|eauto].
Qed.

(** A page found in one state and read in a later one, while the frames of the
    transaction are the same. *)
Lemma read_version w1 g1 w2 g2 hist st L t f p :
  dinv w1 g1 -> agree (g_pages g1) (w_log w1) (f_max_frame f) ->
  dinv w2 g2 -> tx_ok w2 g2 hist st L t ->
  t_lo t = f_min_frame f - 1 -> t_max t = f_max_frame f ->
  same_prefix (w_log w1) (w_log w2) (f_max_frame f) ->
  page_at w2 (page_location w1 f p) p = version (g_base g2) (w_log w2) (f_max_frame f) p.
Proof.
  intros Hd1 Hag Hd2 [_ Hlo Hhw _ _ _ _] Et Em Hsp. rewrite Et in Hlo. rewrite Em in Hhw.
  destruct (di_range _ _ Hd2) as (? & ? & ? & ?).
  assert (forall a, 0 <= a -> touched (w_log w2) p a (f_max_frame f) ->
    touched (w_log w1) p a (f_max_frame f)) as Htr.
  { intros a Ha (n & v & Hn & Hl). exists n, v. split; [done|].
    rewrite (same_prefix_lookup _ _ _ n Hsp) by lia. done. }
  pose proof (page_location_spec w1 g1 f p Hd1 Hag) as Hloc.
  destruct (page_location w1 f p) as [n|]; cbn [page_at].
  - destruct Hloc as (Hn & (v & Hl) & Hnt). rewrite (same_prefix_lookup _ _ _ n Hsp) in Hl by lia.
    rewrite Hl. symmetry. apply (version_latest _ _ p n); [lia|done|].
    intros H'. apply Hnt, Htr; [lia|done].
  - assert (forall a, Z.max 0 (f_min_frame f - 1) <= a -> ~ touched (w_log w2) p a (f_max_frame f)) as Hnt.
    { intros a Ha H'. apply Hloc. destruct (Htr a) as (n & v & Hn & Hl); [lia|done|].
      exists n, v. split; [lia|done]. }
    destruct (di_db _ _ Hd2 p) as [(n & v & Hn & Hl)|Hdb].
    + exfalso. apply (Hnt (nb_of w2)); [lia|]. exists n, v. split; [lia|done].
    + rewrite Hdb. symmetry. apply version_untouched; [lia|]. apply Hnt. lia.
Qed.

(** A connection between two calls, with what the invariant says of it. *)
Lemma idle_conn sts s i f :
  sys_inv sts s -> s_conns s !! i = Some (Idle f) ->
  exists Ls g L st, (ginv (s_world s) (s_hist s) sts Ls g /\ Forall2 conn_ok (s_conns s) Ls) /\
    Ls !! i = Some L /\ sts !! i = Some st /\ idle f L /\ linv (s_world s) g (s_hist s) st L.
Proof.
  intros (Ls & g & HG & HF) Hi. destruct (Forall2_lookup_l _ _ _ _ _ HF Hi) as (L & HL & Hc).
  destruct (ginv_start _ _ _ _ _ _ _ HG HL) as [st Hst]. exists Ls, g, L, st.
  split_and!; try done. by apply (gi_local _ _ _ _ _ HG i).
Qed.

Definition reading (s : sys) (i : nat) (f : WalFile) : Prop :=
  s_conns s !! i = Some (Idle f) /\ holds_read_lock f = true /\ f_write_lock_held f = false.

(** The transaction of a reader is on a committed state that it may see. *)
Lemma reading_tx sts s i f :
  sys_inv sts s -> reading s i f ->
  exists Ls g L st t, (ginv (s_world s) (s_hist s) sts Ls g /\ Forall2 conn_ok (s_conns s) Ls) /\
    Ls !! i = Some L /\ sts !! i = Some st /\ linv (s_world s) g (s_hist s) st L /\
    k_tx L = Some t /\ tx_ok (s_world s) g (s_hist s) st L t /\
    t_lo t = f_min_frame f - 1 /\ t_max t = f_max_frame f /\
    seen (s_world s) g (s_hist s) st (f_max_frame f).
Proof.
  intros Hs (Hi & Hr & Hw). destruct (idle_conn _ _ _ _ Hs Hi) as (Ls & g & L & st & [HG HF] & HL & Hst & Hf & Hli).
  destruct Hf as (_ & Ho & Ha). unfold opens in Ho. rewrite Hr in Ho. destruct Ho as (sl & _ & _ & Ht).
  unfold ahead in Ha. rewrite Hw in Ha.
  pose proof (li_tx _ _ _ _ _ Hli _ Ht) as Htx. exists Ls, g, L, st. eexists. split_and!; try done.
  apply (to_seen _ _ _ _ _ _ Htx). cbn.
  destruct (to_max _ _ _ _ _ _ Htx) as [|[m Em]]; [done|congruence].
Qed.

(** The snapshot of connection [i] is fixed to one state of the history. *)
Definition pinned (i : nat) (st : start) (s : sys) : Prop :=
  exists sts, sys_inv sts s /\ sts !! i = Some st /\ forall j, j <> i -> flexible sts j.

Lemma pinned_step i st s s' : pinned i st s -> other_step i s s' -> pinned i st s'.
Proof.
  intros (sts & Hs & Hi & Hfx) (j & ev & Hj & Hst). exists (starts_after sts s j ev).
  split_and!; [by apply sys_inv_step; [| auto|]| |].
  - unfold starts_after. destruct ev as [[]| |]; try done. by rewrite list_lookup_insert_ne.
  - intros j' Hj' st'. unfold starts_after.
    destruct ev as [[]| |]; try (by apply Hfx).
    intros Hl. apply list_lookup_insert_Some in Hl as [(_ & <- & _)|[_ Hl]]; [done|]. by eapply Hfx.
Qed.

Lemma other_conns i s s' : other_step i s s' ->
  s_conns s' !! i = s_conns s !! i /\ s_hist s `prefix_of` s_hist s'.
Proof.
  intros (j & ev & Hj & Hst). destruct Hst; cbn; rewrite list_lookup_insert_ne by done;
    (split; [done|]); [done|by apply prefix_app_r|done].
Qed.

Lemma others_pinned i st s s' :
  rtc (other_step i) s s' -> pinned i st s ->
  pinned i st s' /\ s_conns s' !! i = s_conns s !! i /\ s_hist s `prefix_of` s_hist s'.
Proof.
  induction 1 as [s|s s1 s' Hst _ IH]; intros Hp; [done|].
  destruct (other_conns _ _ _ Hst) as [E1 E2].
  destruct IH as (? & E3 & E4); [by eapply pinned_step|].
  split_and!; [done|congruence|]. by etransitivity.
Qed.

(** What a pinned reader reads: a page found in [s1] and fetched in [s2]. *)
Lemma pinned_read i f n l s1 s2 wn p :
  pinned i (mkStart n (Some (n, l))) s1 -> reading s1 i f -> s_hist s1 !! n = Some wn ->
  rtc (other_step i) s1 s2 ->
  page_at (s_world s2) (page_location (s_world s1) f p) p = committed wn p.
Proof.
  intros Hp1 Hr1 Hn H12. destruct (others_pinned _ _ _ _ H12 Hp1) as ((sts2 & Hs2 & Hst2 & _) & Ec & Hpre).
  destruct Hp1 as (sts1 & Hs1 & Hst1 & _).
  destruct (reading_tx _ _ _ _ Hs1 Hr1)
    as (Ls1 & g1 & L1 & st1 & t1 & [HG1 _] & _ & E1 & _ & _ & Htx1 & _ & Em1 & (k1 & w1 & [_ Hx1] & _)).
  assert (reading s2 i f) as Hr2 by (destruct Hr1 as (? & ?); split; [congruence|done]).
  destruct (reading_tx _ _ _ _ Hs2 Hr2)
    as (Ls2 & g2 & L2 & st2 & t2 & [HG2 _] & _ & E2 & _ & _ & Htx2 & El2 & Em2 & (k2 & w2 & [_ Hx2] & Hk2 & Hc2)).
  rewrite Hst1 in E1. injection E1 as <-. rewrite Hst2 in E2. injection E2 as <-.
  specialize (Hx1 _ eq_refl). specialize (Hx2 _ eq_refl). simplify_eq.
  rewrite (prefix_lookup_Some _ _ _ _ Hn Hpre) in Hk2. injection Hk2 as <-. rewrite Hc2.
  eapply (read_version _ g1 _ g2); [apply (gi_data _ _ _ _ _ HG1)| |apply (gi_data _ _ _ _ _ HG2)|done..|].
  - rewrite <- Em1. apply (to_agree _ _ _ _ _ _ Htx1).
  - unfold same_prefix. congruence.
Qed.

Lemma linv_snapshot w g hist st st' L :
  linv w g hist st L ->
  (forall t, k_tx L = Some t -> t_max t <= max_of w -> seen w g hist st' (t_max t)) ->
  linv w g hist st' L.
Proof.
  intros [? ? ? ? Htx ? ? ?] Hse. constructor; try done. intros t Ht.
  destruct (Htx t Ht). constructor; auto.
Qed.

(** A reader can be pinned to the state it sees. *)
Lemma pin s i f st :
  reachable s -> reading s i f -> s_started s !! i = Some st ->
  exists n wn l, (st <= n)%nat /\ s_hist s !! n = Some wn /\ pinned i (mkStart n (Some (n, l))) s.
Proof.
  intros Hre Hrd Hst. pose proof (reachable_sys_inv s Hre) as Hs.
  destruct (reading_tx _ _ _ _ Hs Hrd)
    as (Ls & g & L & st0 & t & [HG HF] & HL & E0 & Hli & Ht & Htx & _ & Em & (n & wn & [Hge _] & Hn & Hcom)).
  rewrite list_lookup_fmap, Hst in E0. injection E0 as <-. cbn in Hge.
  exists n, wn, (take (Z.to_nat (f_max_frame f)) (w_log (s_world s))). split_and!; [done|done|].
  set (sts := (fun n => mkStart n None) <$> s_started s) in *. set (st' := mkStart n _).
  exists (<[i := st']> sts). split_and!.
  - exists Ls, g. split; [|done]. apply (ginv_relabel _ _ _ _ _ i L); [done|done|by eapply lookup_lt_Some|].
    eapply linv_snapshot; [done|]. intros t' Ht' _. assert (t' = t) as -> by congruence.
    exists n, wn. rewrite Em. split_and!; [split; [done|by intros x [= <-]]|done|done].
  - rewrite list_lookup_insert_eq; [done|]. unfold sts. rewrite length_fmap. by eapply lookup_lt_Some.
  - intros j Hj st1 Hl. rewrite list_lookup_insert_ne in Hl by done.
    apply list_lookup_fmap_Some in Hl as (k & -> & _). done.
Qed.

(** C1: In every interleaving, a connection that is between two calls with a
    read transaction open (and no write transaction) has a snapshot: one
    committed state of the database, not older than the call of
    [begin_read_tx], such that every page it reads has its content in that
    state, for as long as the transaction is open and whatever the other
    connections do meanwhile: commit, roll back, checkpoint in any mode,
    restart or truncate the log.  The page may be located in one state of the
    system and fetched in a later one. *)
Theorem snapshot_isolation (s : sys) (i : nat) (f : WalFile) (st : nat) :
  reachable s -> reading s i f -> s_started s !! i = Some st ->
  exists n wn, (st <= n)%nat /\ s_hist s !! n = Some wn /\
    forall s1 s2, rtc (other_step i) s s1 -> rtc (other_step i) s1 s2 -> forall p,
      page_at (s_world s2) (page_location (s_world s1) f p) p = committed wn p.
Proof.
  intros Hre Hrd Hst. destruct (pin s i f st Hre Hrd Hst) as (n & wn & l & Hge & Hn & Hpin).
  exists n, wn. split_and!; [done|done|]. intros s1 s2 H01 H12 p.
  destruct (others_pinned _ _ _ _ H01 Hpin) as (Hp1 & Ec & Hpre).
  eapply pinned_read; [done| |by eapply prefix_lookup_Some|done].
  destruct Hrd as (? & ?). split; [congruence|done].
Qed.

(** ** Progress *)

Definition failing (w : world) (p : prog WalFile) : Prop :=
  match p with
  | Crash => True
  | Do e k => match exec e w with Some (Err _) | Some Panic => True | _ => False end
  | Ret _ => False
  end.

Lemma never_fails s i p :
  reachable s -> s_conns s !! i = Some (Running p) -> ~ failing (s_world s) p.
Proof.
  intros Hr Hi Hfail. destruct (reachable_sys_inv s Hr) as (Ls & g & HG & HF).
  destruct (Forall2_lookup_l _ _ _ _ _ HF Hi) as (L & HL & Hc).
  assert (flexible ((fun n => mkStart n None) <$> s_started s) i) as Hfx.
  { intros st Hst. apply list_lookup_fmap_Some in Hst as (n & -> & _). done. }
  pose proof (wp_progress p L _ _ _ _ _ i Hc Hfx HG HL) as Hp.
  destruct p as [f|e k|]; cbn in *; [done| |done].
  by destruct (exec e (s_world s)) as [[[]| |]|].
Qed.


Definition running (c : conn) : Prop := match c with Running _ => True | Idle _ => False end.

(** A connection that holds the guard of the shared state never waits. *)
Lemma wp_unblocked p L :
  wp idle p L -> k_guard L = true ->
  match p with Ret _ => False | Do e k => forall w, exec e w <> None | Crash => False end.
Proof.
  induction 1 as [f L Hf|e k L Hp Hk IH|m L L1 Hl Hm IH]; intros Hg.
  - destruct Hf as ([] & _). congruence.
  - intros w. destruct e; cbn in *; unfold bump_checkpoint_epoch in *; try done; destruct_and?; congruence.
  - apply IH. by destruct Hl.
Qed.

(** C17: The connections never wait for each other in a circle: whenever a
    connection is inside a call, some connection inside a call can take its
    next step.  Waiting happens only for the guard of the shared state, and
    its holder never waits. *)
Theorem no_deadlock (s : sys) (i : nat) (c : conn) :
  reachable s -> s_conns s !! i = Some c -> running c ->
  exists j cj ev s', s_conns s !! j = Some cj /\ running cj /\ step s j ev s'.
Proof.
  intros Hr Hi Hrun. pose proof (reachable_sys_inv s Hr) as (Ls & g & HG & HF).
  assert (forall j p, s_conns s !! j = Some (Running p) ->
    match p with Do e k => exec e (s_world s) <> None | _ => True end ->
    exists ev s', step s j ev s') as Hgo.
  { intros j p Hj Hp. pose proof (never_fails s j p Hr Hj) as Hnp.
    destruct p as [f|e k|]; [eexists _, _; by apply step_return| |by destruct Hnp].
    cbn in Hnp. destruct (exec e (s_world s)) as [[[r w']| |]|] eqn:E; try (by destruct Hnp).
    eexists _, _. by eapply step_access. }
  destruct (w_guards (s_world s)) as [|n] eqn:Eg.
  - (* no guard is held: every access can run *)
    destruct c as [|p]; [done|]. destruct (Hgo i p Hi) as (ev & s' & ?).
    { destruct p as [| e k|]; try done. destruct e; cbn; unfold exclusively; by rewrite ?Eg. }
    by exists i, (Running p), ev, s'.
  - destruct (filter (fun L => k_guard L = true) Ls) as [|L Ls'] eqn:Ef.
    { rewrite (gi_guards _ _ _ _ _ HG), Ef in Eg. done. }
    assert (L ∈ filter (fun L => k_guard L = true) Ls) as HL by (rewrite Ef; by left).
    apply list_elem_of_filter in HL as [Hgu HL]. apply list_elem_of_lookup in HL as [j HL].
    destruct (Forall2_lookup_r _ _ _ _ _ HF HL) as (cj & Hj & Hc).
    destruct cj as [f|p]; cbn in Hc; [destruct Hc as ([] & _); congruence|].
    pose proof (wp_unblocked p L Hc Hgu) as Hub.
    destruct (Hgo j p Hj) as (ev & s' & ?); [by destruct p|].
    by exists j, (Running p), ev, s'.
Qed.

(** ** Commits *)

(** The frames after frame [lo] up to frame [hi]. *)
Definition frames_between (log : list frame) (lo hi : Z) : list frame :=
  drop (Z.to_nat lo) (take (Z.to_nat hi) log).

(** A database with the images of [fs] written over it. *)
Definition overlay (fs : list frame) (db : Z -> option bytes) (p : Z) : option bytes :=
  match last_image p fs with Some v => Some v | None => db p end.

Lemma version_overlay base log lo hi p :
  lo <= hi -> version base log hi p = overlay (frames_between log lo hi) (version base log lo) p.
Proof.
  intros Hle. unfold version, overlay, frames_between.
  rewrite (take_split log lo hi) at 1 by lia. rewrite last_image_app, take_drop_commute.
  replace (Z.to_nat lo + (Z.to_nat hi - Z.to_nat lo))%nat with (Z.to_nat hi) by lia.
  by destruct (last_image p (drop _ _)).
Qed.

(** The database after an access. *)
Definition committed_after (w : world) (e : act) : Z -> option bytes :=
  match e with
  | APublishCommit n _ _ => overlay (frames_between (w_log w) (max_of w) n) (committed w)
  | _ => committed w
  end.

(** C2: The committed database changes in one access only, the publication of
    a commit, and by exactly the frames the writer appended: the frames after
    the last committed one up to its position.  Every other access of every
    call leaves each page of the committed database as it is, in particular
    the page copies of a checkpoint (also one that fails and leaves a torn
    page in the database file), the publication of backfilled frames, the
    restart and the truncation of the log, spilled frames and rollbacks. *)
Theorem commits_are_atomic (s : sys) (i : nat) (e : act) (s' : sys) :
  reachable s -> step s i (EAccess e) s' ->
  forall p, committed (s_world s') p = committed_after (s_world s) e p.
Proof.
  intros Hr Hst p. pose proof (reachable_sys_inv s Hr) as (Ls & g & HG & HF).
  inversion Hst as [|e0 k r w' Hi He Ee|]; subst. cbn [s_world].
  destruct (Forall2_lookup_l _ _ _ _ _ HF Hi) as (L & HL & Hc).
  assert (flexible ((fun n => mkStart n None) <$> s_started s) i) as Hfx.
  { intros st Hl. apply list_lookup_fmap_Some in Hl as (n & -> & _). done. }
  pose proof (wp_progress _ L _ _ _ _ _ i Hc Hfx HG HL) as Hp. cbn in Hp. rewrite He in Hp.
  destruct Hp as (_ & Hcom & Hpub).
  destruct (is_publish e) eqn:Ep; [|rewrite Hcom by done; by destruct e].
  destruct e; try done. cbn in He. unfold exclusively in He.
  destruct (w_guards (s_world s)); [|done]. injection He as <- <-. cbn.
  unfold committed at 1. cbn. by apply version_overlay.
Qed.

(** C18: A connection with a write transaction reads its own uncommitted frames
    over the committed database. *)
Theorem writer_reads_own_frames (s : sys) (i : nat) (f : WalFile) (p : Z) :
  reachable s -> s_conns s !! i = Some (Idle f) -> f_write_lock_held f = true ->
  page_at (s_world s) (page_location (s_world s) f p) p =
  overlay (frames_between (w_log (s_world s)) (max_of (s_world s)) (f_max_frame f))
    (committed (s_world s)) p.
Proof.
  intros Hr Hi Hw. pose proof (reachable_sys_inv s Hr) as Hs.
  destruct (idle_conn _ _ _ _ Hs Hi) as (Ls & g & L & st & [HG _] & HL & Hst & Hf & Hli).
  destruct (idle_writing f L Hf Hw) as (m & t & (Em & Et & Hle) & Emax & _).
  pose proof (gi_data _ _ _ _ _ HG) as Hd. pose proof (li_tx _ _ _ _ _ Hli t Et) as Htx.
  assert (t_lo t = f_min_frame f - 1) as Elo.
  { destruct Hf as (_ & Ho & Ha). unfold ahead in Ha. rewrite Hw in Ha. destruct Ha as [Hrd _].
    unfold opens in Ho. rewrite Hrd in Ho. destruct Ho as (sl & _ & _ & Et').
    rewrite Et in Et'. injection Et' as ->. done. }
  assert (agree (g_pages g) (w_log (s_world s)) (f_max_frame f)) as Hag.
  { rewrite <- Emax. apply (to_agree _ _ _ _ _ _ Htx). }
  etransitivity; [by eapply (read_version _ g _ g); [| | |exact Htx|..]|].
  rewrite (version_overlay _ _ (max_of (s_world s))).
  - unfold overlay. by rewrite (committed_version _ g).
  - rewrite <- (frozen_max _ _ (ginv_frozen _ _ _ _ _ _ _ _ HG HL Em)). lia.
Qed.

(** C19: At most one connection has a write transaction open. *)
Theorem single_writer (s : sys) (i j : nat) (fi fj : WalFile) :
  reachable s -> s_conns s !! i = Some (Idle fi) -> s_conns s !! j = Some (Idle fj) ->
  f_write_lock_held fi = true -> f_write_lock_held fj = true -> i = j.
Proof.
  intros Hr Hi Hj Hwi Hwj. pose proof (reachable_sys_inv s Hr) as (Ls & g & HG & HF).
  destruct (Forall2_lookup_l _ _ _ _ _ HF Hi) as (Li & HLi & Hci).
  destruct (Forall2_lookup_l _ _ _ _ _ HF Hj) as (Lj & HLj & Hcj).
  destruct (idle_writing fi Li Hci Hwi) as (mi & _ & (Emi & _) & _).
  destruct (idle_writing fj Lj Hcj Hwj) as (mj & _ & (Emj & _) & _).
  destruct (decide (i = j)) as [|Hne]; [done|].
  assert (k_meta Lj = None); [|congruence].
  eapply (writer_alone _ _ _ _ _ i j); [done..| |done]. congruence.
Qed.
