(* ===== verification/WalDemo.v ===== *)
(** * WalDemo: concrete executions of the connection system

    An executable scheduler for the system of [WalIso] and small executions
    that instantiate its theorems: readers, a writer that commits and
    checkpoints while a snapshot is open. *)

From stdpp Require Import gmap.
From S2P Require Import Prelude OnDisk RwLock WalFormat WalShared WalProg WalTxn WalLogic.
From S2P Require Import WalSound WalVerify WalAppend WalCkpt WalIso.

(** ** Scheduling *)

(** The next step of a connection that is inside a call. *)
Definition advance (s : sys) (i : nat) : option sys :=
  match s_conns s !! i with
  | Some (Running (Do e k)) =>
      match exec e (s_world s) with
      | Some (Ok (r, w')) =>
          Some (mkSys w' (<[i := Running (k r)]> (s_conns s)) (s_hist s ++ [w']) (s_started s))
      | _ => None
      end
  | Some (Running (Ret f)) =>
      Some (mkSys (s_world s) (<[i := Idle f]> (s_conns s)) (s_hist s) (s_started s))
  | _ => None
  end.

Fixpoint finish (fuel : nat) (s : sys) (i : nat) : option sys :=
  match s_conns s !! i, fuel with
  | Some (Idle _), _ => Some s
  | _, O => None
  | _, S fuel' => s' ← advance s i; finish fuel' s' i
  end.

Definition call_now (s : sys) (i : nat) (c : wal_call) : option sys :=
  match s_conns s !! i with
  | Some (Idle f) =>
      Some (mkSys (s_world s) (<[i := Running (call_prog c f)]> (s_conns s)) (s_hist s)
              (match c with
               | CBeginRead => <[i := pred (length (s_hist s))]> (s_started s)
               | _ => s_started s
               end))
  | _ => None
  end.

(** A call of connection [i], run to its end. *)
Definition complete (s : sys) (i : nat) (c : wal_call) : option sys :=
  s' ← call_now s i c; finish 400 s' i.

Definition conn_at (s : sys) (i : nat) : option WalFile :=
  match s_conns s !! i with Some (Idle f) => Some f | _ => None end.

Lemma advance_step s i s' : advance s i = Some s' -> exists ev, step s i ev s'.
Proof.
  unfold advance. destruct (s_conns s !! i) as [[f|[f|e k|]]|] eqn:Hi; try done.
  - intros [= <-]. eexists. by apply step_return.
  - destruct (exec e (s_world s)) as [[[r w']| |]|] eqn:He; try done.
    intros [= <-]. eexists. by eapply step_access.
Qed.

Definition own_step (i : nat) (s s' : sys) : Prop := exists ev, step s i ev s'.

Lemma finish_steps fuel : forall s i s', finish fuel s i = Some s' -> rtc (own_step i) s s'.
Proof.
  induction fuel as [|fuel IH]; intros s i s'; cbn [finish];
    destruct (s_conns s !! i) as [[f|p]|] eqn:Hi; try (intros [= <-]; apply rtc_refl); try done;
    destruct (advance s i) as [s1|] eqn:E; cbn; try done; intros H;
    (eapply rtc_l; [by apply advance_step|by apply IH]).
Qed.

Lemma complete_steps s i c s' f :
  complete s i c = Some s' -> conn_at s i = Some f ->
  allowed (metadata (w_shared (s_world s))) f c -> rtc (own_step i) s s'.
Proof.
  unfold complete, call_now, conn_at. destruct (s_conns s !! i) as [[f'|]|] eqn:Hi;
    cbn [mbind option_bind]; try done.
  intros Hfin [= ->] Ha. eapply rtc_l; [eexists; by apply step_call|]. by eapply finish_steps.
Qed.

Lemma own_reachable i s s' : reachable s -> rtc (own_step i) s s' -> reachable s'.
Proof.
  intros (s0 & H0 & Hr) Hs. exists s0. split; [done|]. etransitivity; [done|].
  eapply (rtc_subrel _ any_step); [|done]. intros a b [ev Hst]. by exists i, ev.
Qed.

Lemma own_other i j s s' : i <> j -> rtc (own_step i) s s' -> rtc (other_step j) s s'.
Proof. intros Hne. apply rtc_subrel. intros a b [ev Hst]. by exists i, ev. Qed.

Definition next_act (s : sys) (i : nat) : option act :=
  match s_conns s !! i with Some (Running (Do e _)) => Some e | _ => None end.

Fixpoint advance_n (n : nat) (s : sys) (i : nat) : sys :=
  match n with O => s | S n' => advance_n n' (default s (advance s i)) i end.

Lemma advance_access s i e :
  next_act s i = Some e ->
  match advance s i with Some _ => true | None => false end = true ->
  step s i (EAccess e) (advance_n 1 s i).
Proof.
  unfold next_act. cbn [advance_n]. unfold advance.
  destruct (s_conns s !! i) as [[f|[f|e' k|]]|] eqn:Hi; try done. intros [= ->].
  destruct (exec e (s_world s)) as [[[r w']| |]|] eqn:He; try done.
  intros _. by eapply step_access.
Qed.

Lemma advance_n_reachable n i : forall s, reachable s -> reachable (advance_n n s i).
Proof.
  induction n as [|n IH]; intros s Hs; cbn [advance_n]; [done|]. apply IH.
  destruct (advance s i) as [s'|] eqn:E; [|done]. apply advance_step in E as [ev Hst].
  eapply (own_reachable i); [done|]. apply rtc_once. by exists ev.
Qed.

(** ** A small database *)

Definition demo_page (b : Z) : bytes := replicate 512 b.

Definition demo_db : gmap Z bytes := {[1 := demo_page 1; 2 := demo_page 2]}.

(** A new log over [demo_db]. *)
Definition demo_world : world :=
  match begin_shared false with
  | Ok s => mkWorld s 0 [] demo_db
  | _ => mkWorld (mkShared (mkMetadata true (WalHeader_new false) 0 0 0 0 (0, 0) false true false)
           (mkRuntime ∅ 0 true [] 0 0 0 0 coverage_default)) 0 [] demo_db
  end.

Definition demo_conn : WalFile := mkWalFile false NO_LOCK_HELD 0 0 0 0 0 None None false.

Definition demo_start : sys := mkSys demo_world [Idle demo_conn; Idle demo_conn] [demo_world] [0; 0]%nat.

Definition demo_size : PageSize := PageSize_mk 512.

(** Each call runs to its end. *)
Definition next (s : sys) (i : nat) (c : wal_call) : sys := default s (complete s i c).

Definition demo_io : io_plan := mkPlan (fun l => l) None true.

(** Connection 1 commits two pages, connection 0 opens a snapshot, connection 1
    commits page 2 again and checkpoints. *)
Definition demo1 : sys := next demo_start 1 CBeginRead.
Definition demo2 : sys := next demo1 1 (CBeginWrite true 5).
Definition demo3 : sys := next demo2 1 (CEnsureHeader false demo_size 7 8 false true).
Definition demo4 : sys := next demo3 1 (CAppend false [(2, demo_page 9)] demo_size).
Definition demo5 : sys := next demo4 1 (CCommit false demo_size 2 [[(1, demo_page 8)]] true).
Definition demo6 : sys := next demo5 1 CEndWrite.
Definition demo7 : sys := next demo6 0 CBeginRead.
Definition demo8 : sys := next demo7 1 CEndRead.
Definition demo9 : sys := next demo8 1 CBeginRead.
Definition demo10 : sys := next demo9 1 (CBeginWrite true 6).
Definition demo11 : sys := next demo10 1 (CCommit false demo_size 2 [[(2, demo_page 7)]] true).
Definition demo12 : sys := next demo11 1 CEndWrite.
Definition demo13 : sys := next demo12 1 CEndRead.
Definition demo14 : sys := next demo13 1 (CCheckpoint (Passive None) SyncFull demo_io 3).

Definition ran (s : sys) (i : nat) (c : wal_call) : Prop :=
  exists f, conn_at s i = Some f /\ allowed (metadata (w_shared (s_world s))) f c /\
    match complete s i c with Some _ => true | None => false end = true.

Lemma next_steps s i c : ran s i c -> rtc (own_step i) s (next s i c).
Proof.
  intros (f & Hf & Ha & Hs). unfold next. destruct (complete s i c) as [s'|] eqn:E; [|done].
  by eapply complete_steps.
Qed.

Lemma next_reachable s i c : reachable s -> ran s i c -> reachable (next s i c).
Proof. intros Hr Hs. eapply own_reachable; [done|]. by apply next_steps. Qed.

Lemma call_now_reachable s i c :
  reachable s -> ran s i c -> match call_now s i c with Some _ => true | None => false end = true ->
  reachable (default s (call_now s i c)).
Proof.
  intros Hr (f & Hf & Ha & _). unfold call_now, conn_at in *.
  destruct (s_conns s !! i) as [[f'|]|] eqn:Hi; try done. injection Hf as ->. intros _.
  eapply (own_reachable i); [done|]. apply rtc_once. eexists. by apply step_call.
Qed.

Lemma demo_pages_ok b p : 0 < p -> is_u8 b -> pages_ok demo_size [(p, demo_page b)].
Proof.
  intros Hp Hb. apply Forall_singleton. cbn [fst snd]. split_and!; [done| |].
  - unfold lenZ, demo_page. by rewrite length_replicate.
  - by apply Forall_replicate.
Qed.

(** The conditions on a concrete call hold by evaluation. *)
Ltac demo_ran :=
  eexists; split; [vm_compute; reflexivity|split; [|vm_compute; reflexivity]];
  cbn [allowed]; unfold spill_ok, commit_ok, header_ok, batch_ok, io_ok; split_and?;
  try (vm_compute; reflexivity); try (vm_compute; split; congruence);
  try (vm_compute; tauto); try apply demo_pages_ok; try done.

Lemma demo1_ran : ran demo_start 1 CBeginRead.
Proof. demo_ran. Qed.
Lemma demo2_ran : ran demo1 1 (CBeginWrite true 5).
Proof. demo_ran. Qed.
Lemma demo3_ran : ran demo2 1 (CEnsureHeader false demo_size 7 8 false true).
Proof. demo_ran. Qed.
Lemma demo4_ran : ran demo3 1 (CAppend false [(2, demo_page 9)] demo_size).
Proof. demo_ran. Qed.
Lemma demo5_ran : ran demo4 1 (CCommit false demo_size 2 [[(1, demo_page 8)]] true).
Proof. demo_ran. apply Forall_singleton. split_and!; [by apply demo_pages_ok|done|by vm_compute]. Qed.
Lemma demo6_ran : ran demo5 1 CEndWrite.
Proof. demo_ran. Qed.
Lemma demo7_ran : ran demo6 0 CBeginRead.
Proof. demo_ran. Qed.
Lemma demo8_ran : ran demo7 1 CEndRead.
Proof. demo_ran. Qed.
Lemma demo9_ran : ran demo8 1 CBeginRead.
Proof. demo_ran. Qed.
Lemma demo10_ran : ran demo9 1 (CBeginWrite true 6).
Proof. demo_ran. Qed.
Lemma demo11_ran : ran demo10 1 (CCommit false demo_size 2 [[(2, demo_page 7)]] true).
Proof. demo_ran. apply Forall_singleton. split_and!; [by apply demo_pages_ok|done|by vm_compute]. Qed.
Lemma demo12_ran : ran demo11 1 CEndWrite.
Proof. demo_ran. Qed.
Lemma demo13_ran : ran demo12 1 CEndRead.
Proof. demo_ran. Qed.
Lemma demo14_ran : ran demo13 1 (CCheckpoint (Passive None) SyncFull demo_io 3).
Proof. demo_ran. Qed.

Lemma demo_ready : ready demo_world.
Proof.
  constructor.
  - done.
  - apply all_u32_dec. vm_compute. reflexivity.
  - vm_compute. repeat split; congruence.
  - done.
  - exists []. split; [split; [intros p; apply lookup_empty|done]|]. apply agree_zero. vm_compute. congruence.
  - intros l Hl. destruct l as [s| | |]; [|exists 0; by vm_compute..].
    cbn in Hl. do 2 (destruct s as [|s]; [exists 0; by vm_compute|]).
    do 3 (destruct s as [|s]; [exists READMARK_NOT_USED; by vm_compute|]). lia.
  - done.
  - done.
Qed.

Lemma demo_start_reachable : reachable demo_start.
Proof.
  exists demo_start. split; [|apply rtc_refl].
  apply (initial_intro demo_world [demo_conn; demo_conn] demo_ready); [|done].
  repeat constructor.
Qed.

#[local] Opaque next.

Lemma demo4_reachable : reachable demo4.
Proof. exact (next_reachable demo3 1 _ (next_reachable demo2 1 _ (next_reachable demo1 1 _ (next_reachable demo_start 1 _ demo_start_reachable
      demo1_ran)
      demo2_ran)
      demo3_ran)
      demo4_ran). Qed.

Lemma demo7_reachable : reachable demo7.
Proof. exact (next_reachable demo6 0 _ (next_reachable demo5 1 _ (next_reachable demo4 1 _ demo4_reachable
      demo5_ran)
      demo6_ran)
      demo7_ran). Qed.

(** What connection 1 does while connection 0 reads. *)
Lemma demo_others : rtc (other_step 0) demo7 demo14.
Proof.
  transitivity demo8; [exact (own_other 1 0 _ _ ltac:(done) (next_steps demo7 1 _ demo8_ran))|].
  transitivity demo9; [exact (own_other 1 0 _ _ ltac:(done) (next_steps demo8 1 _ demo9_ran))|].
  transitivity demo10; [exact (own_other 1 0 _ _ ltac:(done) (next_steps demo9 1 _ demo10_ran))|].
  transitivity demo11; [exact (own_other 1 0 _ _ ltac:(done) (next_steps demo10 1 _ demo11_ran))|].
  transitivity demo12; [exact (own_other 1 0 _ _ ltac:(done) (next_steps demo11 1 _ demo12_ran))|].
  transitivity demo13; [exact (own_other 1 0 _ _ ltac:(done) (next_steps demo12 1 _ demo13_ran))|].
  exact (own_other 1 0 _ _ ltac:(done) (next_steps demo13 1 _ demo14_ran)).
Qed.

(** ** Instances of the theorems *)

Definition demo_reader : WalFile := default demo_conn (conn_at demo7 0).

(** Connection 0 still reads page 2 as of its snapshot, found before and
    fetched after connection 1 committed another version and checkpointed. *)
Lemma snapshot_isolation_witness :
  page_at (s_world demo14) (page_location (s_world demo7) demo_reader 2) 2 = Some (demo_page 9) /\
  committed (s_world demo14) 2 = Some (demo_page 7) /\
  exists n wn, s_hist demo7 !! n = Some wn /\
    page_at (s_world demo14) (page_location (s_world demo7) demo_reader 2) 2 = committed wn 2.
Proof.
  split; [vm_compute; reflexivity|]. split; [vm_compute; reflexivity|].
  destruct (snapshot_isolation demo7 0 demo_reader
    (default 0%nat (s_started demo7 !! 0%nat)) demo7_reachable) as (n & wn & _ & Hn & H).
  - split; [vm_compute; reflexivity|]. split; vm_compute; reflexivity.
  - vm_compute. reflexivity.
  - exists n, wn. split; [exact Hn|]. apply (H demo7 demo14); [apply rtc_refl|exact demo_others].
Defined.

(** Connection 1 is inside the commit, about to publish it. *)
Definition demo_commit : sys :=
  advance_n 6 (default demo4 (call_now demo4 1 (CCommit false demo_size 2 [[(1, demo_page 8)]] true))) 1.

Lemma demo_commit_reachable : reachable demo_commit.
Proof.
  apply advance_n_reachable. eapply (call_now_reachable demo4); [exact demo4_reachable|exact demo5_ran|].
  vm_compute. reflexivity.
Qed.

Definition demo_commit_act : act := default ABumpEpoch (next_act demo_commit 1).

(** The commit makes the two frames of the transaction visible. *)
Lemma commits_are_atomic_witness :
  committed (s_world demo_commit) 2 = Some (demo_page 2) /\
  committed (s_world (advance_n 1 demo_commit 1)) 2 =
    overlay (frames_between (w_log (s_world demo_commit)) 0 2) (committed (s_world demo_commit)) 2 /\
  committed (s_world (advance_n 1 demo_commit 1)) 2 = Some (demo_page 9).
Proof.
  split; [vm_compute; reflexivity|]. split; [|vm_compute; reflexivity].
  rewrite (commits_are_atomic demo_commit 1 demo_commit_act (advance_n 1 demo_commit 1)
    demo_commit_reachable).
  - vm_compute. reflexivity.
  - apply advance_access; vm_compute; reflexivity.
Defined.

Definition conn_prog (s : sys) (i : nat) : prog WalFile :=
  match s_conns s !! i with Some (Running p) => p | _ => Crash end.

Lemma conn_prog_running s i :
  match s_conns s !! i with Some (Running _) => true | _ => false end = true ->
  s_conns s !! i = Some (Running (conn_prog s i)).
Proof. unfold conn_prog. by destruct (s_conns s !! i) as [[|]|]. Qed.


Lemma no_deadlock_witness :
  exists j cj ev s', s_conns demo_commit !! j = Some cj /\ running cj /\ step demo_commit j ev s'.
Proof.
  apply (no_deadlock demo_commit 1 (Running (conn_prog demo_commit 1)) demo_commit_reachable).
  - apply conn_prog_running. vm_compute. reflexivity.
  - exact I.
Defined.

Definition demo_writer : WalFile := default demo_conn (conn_at demo4 1).

(** The writer reads the frame it spilled, which is not committed. *)
Lemma writer_reads_own_frames_witness :
  page_at (s_world demo4) (page_location (s_world demo4) demo_writer 2) 2 = Some (demo_page 9) /\
  committed (s_world demo4) 2 = Some (demo_page 2).
Proof.
  split; [|vm_compute; reflexivity].
  rewrite (writer_reads_own_frames demo4 1 demo_writer 2 demo4_reachable).
  - vm_compute. reflexivity.
  - vm_compute. reflexivity.
  - vm_compute. reflexivity.
Defined.

Lemma single_writer_witness : f_write_lock_held demo_writer = true /\ 1%nat = 1%nat.
Proof.
  split; [vm_compute; reflexivity|].
  apply (single_writer demo4 1 1 demo_writer demo_writer demo4_reachable);
    vm_compute; reflexivity.
Defined.
