(* ===== verification/WalVacuum.v ===== *)
(** * WalVacuum: VACUUM and a checkpoint that gives up

    A checkpoint that finds a writer gives its locks back one after the other, and
    [begin_vacuum_blocking_tx] of core/storage/wal.rs asserts that no read mark is
    locked once it has the exclusive VACUUM lock.  This file runs a VACUUM at the
    place in between, in any state of the shared memory. *)

From stdpp Require Import gmap.
From S2P Require Import Prelude OnDisk RwLock WalFormat WalShared WalProg WalTxn WalLogic.
From S2P Require Import WalIso WalDemo.

(** A program after [n] accesses. *)
Fixpoint run_part {A} (n : nat) (m : prog A) (w : world) : option (prog A * world) :=
  match n, m with
  | O, _ => Some (m, w)
  | S n', Do e k =>
      match exec e w with
      | Some (Ok (r, w')) => run_part n' (k r) w'
      | _ => None
      end
  | _, _ => None
  end.

(** What VACUUM does first. *)
Definition start_vacuum (f : WalFile) : prog (LimboError + unit) :=
  r ← try_begin_vacuum_checkpoint_lock;
  match r with
  | inl e => Ret (inl e)
  | inr _ => '(r, _) ← begin_vacuum_blocking_tx f; Ret r
  end.

(** A connection without a transaction. *)
Definition no_locks (f : WalFile) : Prop :=
  f_read_lock_index f = NO_LOCK_HELD /\ f_write_lock_held f = false /\ f_vacuum_guard f = None.

(** Locks that nobody holds, and that one client holds exclusively; the value of a
    read mark is arbitrary. *)
Definition free_at (w : world) (l : lockid) : Prop := exists v, is_u32 v /\ lock_word (w_shared w) l = Some (enc v 0 0).
Definition excl_at (w : world) (l : lockid) : Prop := exists v, is_u32 v /\ lock_word (w_shared w) l = Some (enc v 0 1).
(** A lock that cannot be taken exclusively. *)
Definition busy_at (w : world) (l : lockid) : Prop := exists x, lock_word (w_shared w) l = Some x /\ lock_write x = (false, x).

(** The lock has the same word in both states. *)
Definition same_lock (l : lockid) (w w' : world) : Prop := lock_word (w_shared w') l = lock_word (w_shared w) l.

Lemma word_set s l l' x y : lock_word s l = Some x -> lock_word (set_lock_word s l y) l' = if decide (l' = l) then Some y else lock_word s l'.
Proof.
  intros Hx. destruct (decide (l' = l)) as [->|Hne].
  - destruct l; try done. cbn in *. apply list_lookup_insert_eq. by eapply lookup_lt_Some.
  - destruct l, l'; try done. cbn. apply list_lookup_insert_ne. congruence.
Qed.

Lemma exec_take w l : free_at w l -> exists w', exec (ATry OpWrite l) w = Some (Ok (true, w')) /\ excl_at w' l /\ forall l', l' <> l -> same_lock l' w w'.
Proof.
  intros (v & Hv & Hw). unfold is_u32 in Hv. cbn [exec]. rewrite Hw. cbn [unwrap mbind Result_bind lock_call]. unfold lock_write.
  rewrite write_desired_enc by (unfold fields_ok; rlia). cbn [cas_result Z.eqb Z.ltb Z.compare orb].
  eexists. split; [done|]. split; [exists v; split; [done|]|intros l' Hl]; unfold same_lock; cbn [with_shared w_shared];
    rewrite (word_set _ _ _ _ _ Hw); [by rewrite decide_True|by rewrite decide_False].
Qed.

Lemma exec_busy w l : busy_at w l -> exists w', exec (ATry OpWrite l) w = Some (Ok (false, w')) /\ forall l', same_lock l' w w'.
Proof.
  intros (x & Hw & Hx). cbn [exec]. rewrite Hw. cbn [unwrap mbind Result_bind lock_call]. rewrite Hx.
  eexists. split; [done|]. intros l'. unfold same_lock. cbn [with_shared w_shared]. rewrite (word_set _ _ _ _ _ Hw). by case_decide as E; [rewrite E, Hw|].
Qed.

Lemma exec_drop w l : excl_at w l -> exists w', exec (AUnlock l) w = Some (Ok (tt, w')) /\ free_at w' l /\ forall l', l' <> l -> same_lock l' w w'.
Proof.
  intros (v & Hv & Hw). cbn [exec]. unfold update_lock. rewrite Hw. cbn [unwrap mbind Result_bind]. unfold lock_unlock.
  rewrite unlock_write_enc; [|rewrite has_writer_enc by (unfold fields_ok, is_u32 in *; rlia); done|done]. cbn [mbind Result_bind].
  eexists. split; [done|]. split; [exists v; split; [done|]|intros l' Hl]; unfold same_lock; cbn [with_shared w_shared];
    rewrite (word_set _ _ _ _ _ Hw); [by rewrite decide_True|by rewrite decide_False].
Qed.

Lemma excl_busy w l : excl_at w l -> busy_at w l.
Proof.
  intros (v & Hv & Hw). exists (enc v 0 1). split; [done|]. unfold lock_write. rewrite write_desired_enc by (unfold fields_ok, is_u32 in *; rlia). done.
Qed.

Lemma free_same l w w' : same_lock l w w' -> free_at w l -> free_at w' l.
Proof. intros E (v & ? & ?). exists v. by rewrite E. Qed.
Lemma excl_same l w w' : same_lock l w w' -> excl_at w l -> excl_at w' l.
Proof. intros E (v & ? & ?). exists v. by rewrite E. Qed.
Lemma busy_same l w w' : same_lock l w w' -> busy_at w l -> busy_at w' l.
Proof. intros E (x & ? & ?). exists x. by rewrite E. Qed.

(** ** The checkpoint gives up *)

(** The first three accesses: the checkpoint lock and read mark 0 are taken, the write
    lock is not. *)
Lemma locks_taken w :
  free_at w LCkpt -> free_at w (LRead 0) -> busy_at w LWrite ->
  exists w1 w2 w3, exec (ATry OpWrite LCkpt) w = Some (Ok (true, w1)) /\ exec (ATry OpWrite (LRead 0)) w1 = Some (Ok (true, w2)) /\
    exec (ATry OpWrite LWrite) w2 = Some (Ok (false, w3)) /\ excl_at w3 LCkpt /\ excl_at w3 (LRead 0).
Proof.
  intros Hc H0 Hw. destruct (exec_take w LCkpt Hc) as (w1 & E1 & Hc1 & S1).
  destruct (exec_take w1 (LRead 0)) as (w2 & E2 & H2 & S2); [by eapply free_same; [apply S1|]|].
  destruct (exec_busy w2 LWrite) as (w3 & E3 & S3); [eapply busy_same; [apply S2; done|]; by eapply busy_same; [apply S1|]|].
  exists w1, w2, w3. split_and!; [done|done|done| |by eapply excl_same; [apply S3|]]. eapply excl_same; [apply S3|]. by eapply excl_same; [apply S2|].
Qed.

Lemma restart_gives_up mode w :
  should_restart_log mode = true -> free_at w LCkpt -> free_at w (LRead 0) -> busy_at w LWrite ->
  exists w1, run_part 4 (acquire_checkpoint_guard mode) w = Some ((_ ← unlock_read_mark 0; Ret (inl Busy)), w1) /\ free_at w1 LCkpt /\ excl_at w1 (LRead 0).
Proof.
  intros Hm Hc H0 Hw. destruct (locks_taken w Hc H0 Hw) as (w1 & w2 & w3 & E1 & E2 & E3 & Hc3 & H3).
  destruct (exec_drop w3 LCkpt Hc3) as (w4 & E4 & Hc4 & S4). exists w4. split_and!; [|done|by eapply excl_same; [apply S4|]].
  destruct mode; try done; unfold acquire_checkpoint_guard; cbn [mbind prog_mbind prog_bind try_checkpoint_lock call run_part]; rewrite E1;
    cbn [negb mbind prog_mbind prog_bind try_read_mark_exclusive call run_part]; rewrite E2; cbn [negb mbind prog_mbind prog_bind try_write_lock call run_part]; rewrite E3;
    cbn [negb mbind prog_mbind prog_bind unlock_checkpoint_lock call run_part]; by rewrite E4.
Qed.

Lemma full_gives_up w :
  free_at w LCkpt -> free_at w (LRead 0) -> busy_at w LWrite ->
  exists w1, run_part 4 (acquire_checkpoint_guard Full) w = Some ((_ ← unlock_checkpoint_lock; Ret (inl Busy)), w1) /\ excl_at w1 LCkpt /\ free_at w1 (LRead 0).
Proof.
  intros Hc H0 Hw. destruct (locks_taken w Hc H0 Hw) as (w1 & w2 & w3 & E1 & E2 & E3 & Hc3 & H3).
  destruct (exec_drop w3 (LRead 0) H3) as (w4 & E4 & H4 & S4). exists w4. split_and!; [|by eapply excl_same; [apply S4|]|done].
  unfold acquire_checkpoint_guard; cbn [mbind prog_mbind prog_bind try_checkpoint_lock call run_part]; rewrite E1;
    cbn [negb mbind prog_mbind prog_bind try_read_mark_exclusive call run_part]; rewrite E2; cbn [negb mbind prog_mbind prog_bind try_write_lock call run_part]; rewrite E3;
    cbn [negb mbind prog_mbind prog_bind unlock_read_mark call run_part]; by rewrite E4.
Qed.

(** ** VACUUM *)

Lemma run_do {A} e (k : resp e -> prog A) w r w' : exec e w = Some (Ok (r, w')) -> run (Do e k) w = run (k r) w'.
Proof. intros E. cbn [run]. by rewrite E. Qed.

Lemma vacuum_panics f w :
  no_locks f -> free_at w LCkpt -> excl_at w (LRead 0) -> free_at w LVacuum -> run (start_vacuum f) w = Some Panic.
Proof.
  intros (Hr & Hw & Hg) Hc H0 Hv. destruct (exec_take w LCkpt Hc) as (w1 & E1 & _ & S1).
  destruct (exec_take w1 LVacuum) as (w2 & E2 & _ & S2); [by eapply free_same; [apply S1|]|].
  assert (excl_at w2 (LRead 0)) as H2 by (eapply excl_same; [apply S2; done|]; by eapply excl_same; [apply S1|]).
  assert (busy_at (mkWorld (w_shared w2) (S (w_guards w2)) (w_log w2) (w_db w2)) (LRead 0)) as Hb by (by apply excl_busy).
  destruct (exec_busy _ _ Hb) as (w3 & E3 & _).
  unfold start_vacuum, try_begin_vacuum_checkpoint_lock, try_checkpoint_lock, call. cbn [mbind prog_mbind prog_bind]. rewrite (run_do _ _ _ _ _ E1).
  unfold begin_vacuum_blocking_tx, holds_write_lock. rewrite Hr, Hw, Hg. unfold call. cbn [ensure Z.eqb negb mbind prog_mbind prog_bind]. rewrite Z.eqb_refl.
  cbn [ensure negb mbind prog_mbind prog_bind]. rewrite (run_do _ _ _ _ _ E2). cbn [negb mbind prog_mbind prog_bind check_slots_free].
  rewrite (run_do AShared _ w2 tt (mkWorld (w_shared w2) (S (w_guards w2)) (w_log w2) (w_db w2))) by done. unfold call. cbn [mbind prog_mbind prog_bind].
  by rewrite (run_do _ _ _ _ _ E3).
Qed.

Lemma vacuum_busy f w : excl_at w LCkpt -> exists w', run (start_vacuum f) w = Some (Ok (inl Busy, w')).
Proof.
  intros Hc. destruct (exec_busy w LCkpt (excl_busy _ _ Hc)) as (w1 & E1 & _). exists w1.
  unfold start_vacuum, try_begin_vacuum_checkpoint_lock, try_checkpoint_lock, call. cbn [mbind prog_mbind prog_bind]. by rewrite (run_do _ _ _ _ _ E1).
Qed.

(** C20: A RESTART or TRUNCATE checkpoint that finds a writer releases the checkpoint
    lock before read mark 0.  In every state of the shared memory in which a checkpoint
    can take these two locks and the write lock is held, the checkpoint gets to a
    place, after four accesses, where a VACUUM of a connection without a transaction
    fails the assertion of [begin_vacuum_blocking_tx] that no read mark is locked, if
    by then the VACUUM lock is free, whatever else the other connections did
    meanwhile.  A FULL checkpoint releases its locks in the other order, and at
    the same place the VACUUM is refused with [Busy]. *)
Theorem vacuum_races_failed_checkpoint mode w f
    (Hmode : should_restart_log mode = true) (Hf : no_locks f)
    (Hckpt : free_at w LCkpt) (Hmark : free_at w (LRead 0)) (Hwriter : busy_at w LWrite) :
  (exists rest w1, run_part 4 (acquire_checkpoint_guard mode) w = Some (rest, w1) /\
     forall w2, same_lock LCkpt w1 w2 -> same_lock (LRead 0) w1 w2 -> free_at w2 LVacuum ->
       run (start_vacuum f) w2 = Some Panic) /\
  (exists rest w1, run_part 4 (acquire_checkpoint_guard Full) w = Some (rest, w1) /\
     forall w2, same_lock LCkpt w1 w2 -> exists w3, run (start_vacuum f) w2 = Some (Ok (inl Busy, w3))).
Proof.
  split.
  - destruct (restart_gives_up mode w Hmode Hckpt Hmark Hwriter) as (w1 & E & Hc & H0). eexists _, w1. split; [exact E|].
    intros w2 Sc S0 Hv. apply vacuum_panics; [done|by eapply free_same|by eapply excl_same|done].
  - destruct (full_gives_up w Hckpt Hmark Hwriter) as (w1 & E & Hc & _). eexists _, w1. split; [exact E|].
    intros w2 Sc. apply vacuum_busy. by eapply excl_same.
Qed.

(** ** A run with a writer that finishes in between *)

(** The world after the first commit of the small execution, and a connection that
    opens a write transaction in it. *)
Definition committed_world : world := s_world (next demo6 1 CEndRead).
Definition open_writer : prog WalFile := '(_, f) ← begin_read_tx demo_conn; '(_, f) ← begin_write_tx f false 0; Ret f.
Definition close_writer (f : WalFile) : prog WalFile := f ← end_write_tx f; end_read_tx f.

Definition run_world {A} (m : prog A) (w : world) : world := match run m w with Some (Ok (_, w)) => w | _ => w end.
Definition written_world : world := run_world open_writer committed_world.
Definition open_conn : WalFile := match run open_writer committed_world with Some (Ok (f, _)) => f | _ => demo_conn end.
Definition given_up_world : world := match run_part 4 (acquire_checkpoint_guard Restart) written_world with Some (_, w) => w | None => written_world end.

Lemma vacuum_races_failed_checkpoint_witness :
  run (start_vacuum demo_conn) (run_world (close_writer open_conn) given_up_world) = Some Panic.
Proof.
  destruct (vacuum_races_failed_checkpoint Restart written_world demo_conn) as [(rest & w1 & E & H) _].
  - reflexivity.
  - split_and!; vm_compute; reflexivity.
  - exists 0. split; [split; [apply Z.leb_le|apply Z.ltb_lt]; reflexivity|vm_compute; reflexivity].
  - exists 0. split; [split; [apply Z.leb_le|apply Z.ltb_lt]; reflexivity|vm_compute; reflexivity].
  - exists 1. split; vm_compute; reflexivity.
  - assert (given_up_world = w1) as <- by (unfold given_up_world; rewrite E; reflexivity). apply H.
    + vm_compute. reflexivity.
    + vm_compute. reflexivity.
    + exists 0. split; [split; [apply Z.leb_le|apply Z.ltb_lt]; reflexivity|vm_compute; reflexivity].
Defined.
