(* ===== verification/WalOpen.v ===== *)
(** * WalOpen: opening a database on an existing log

    Ties recovery to the connection system: the shared state that
    [BuildSharedWal] builds from a log file is one that the system of [WalIso]
    can start from, with the committed frames of the file over the database
    file as its committed database. *)

From stdpp Require Import gmap.
From S2P Require Import Prelude OnDisk RwLock WalFormat WalShared WalRecovery WalProg WalTxn.
From S2P Require Import WalLogic WalSound WalVerify WalAppend WalCkpt WalIso.

(** ** What recovery leaves alone *)

(** The locks, the file handle and the enabled flag. *)
Record same_locks (s s' : WalFileShared) : Prop := mkSameLocks {
  sk_word : forall l, lock_word s' l = lock_word s l;
  sk_slots : length (r_read_locks (runtime s')) = length (r_read_locks (runtime s));
  sk_open : m_enabled (metadata s') = m_enabled (metadata s) /\
            r_file (runtime s') = r_file (runtime s)
}.

#[export] Instance same_locks_preorder : PreOrder same_locks.
Proof.
  split; [by constructor|]. intros a b c [Hw Hl [He Hf]] [Hw' Hl' [He' Hf']].
  constructor; [intros l; by rewrite Hw', Hw|congruence|split; congruence].
Qed.

Lemma accept_frame_locks st s p d c : same_locks s (snd (accept_frame st s p d c)).
Proof.
  unfold accept_frame, flush_pending_frames. destruct (0 <? d); [|done].
  by destruct (decide _).
Qed.

Lemma process_frames_locks k big : forall buf h nat pos st s r,
  process_frames_loop k big buf h nat pos st s = Ok r -> same_locks s (snd r).
Proof.
  induction k as [|k IH]; intros buf h nat pos st s r; cbn [process_frames_loop]; [done|].
  intros E. destruct (_ <=? _) in E; [|by injection E as <-].
  repeat (apply bind_Ok in E as (? & _ & E)).
  destruct (_ =? 0) in E; [by injection E as <-|].
  destruct (_ || _) in E; [by injection E as <-|].
  repeat (apply bind_Ok in E as (? & _ & E)).
  destruct (decide _) in E; [|by injection E as <-].
  destruct (accept_frame _ _ _ _ _) as [st' s'] eqn:Ea.
  etransitivity; [|by eapply IH]. change s' with (snd (st', s')). rewrite <- Ea. apply accept_frame_locks.
Qed.

Lemma finalize_locks rd : same_locks (rd_shared rd) (rd_shared (finalize_loading rd)).
Proof. unfold finalize_loading. constructor; cbn; [|by destruct (0 <? _)..]. intros l. by destruct l, (0 <? _). Qed.

Lemma header_read_locks big rd res rd' :
  handle_header_read big rd res = Ok rd' -> same_locks (rd_shared rd) (rd_shared rd').
Proof.
  unfold handle_header_read. intros E. destruct res as [[buf n]|]; [|injection E as <-; apply finalize_locks].
  destruct (negb _) in E; [injection E as <-; apply finalize_locks|].
  repeat (apply bind_Ok in E as (? & _ & E)).
  destruct (PageSize_new _) in E; [destruct (bool_decide _) in E|]; injection E as <-; try done;
    (etransitivity; [|apply finalize_locks]; done).
Qed.

Lemma chunk_read_locks big rd res rd' :
  handle_chunk_read big rd res = Ok rd' -> same_locks (rd_shared rd) (rd_shared rd').
Proof.
  unfold handle_chunk_read. intros E. destruct res as [[buf n]|]; [|injection E as <-; apply finalize_locks].
  apply bind_Ok in E as (b & _ & E). apply bind_Ok in E as ([[c st] s] & Hp & E).
  apply process_frames_locks in Hp. cbn in Hp, E.
  destruct (_ || _) in E; injection E as <-; [|done].
  etransitivity; [|apply finalize_locks]. done.
Qed.

Lemma poll_step_locks big pread b b' :
  poll_step big pread b = Ok b' ->
  same_locks (rd_shared (b_reader b)) (rd_shared (b_reader b')).
Proof.
  unfold poll_step. intros E. destruct (b_phase b) as [| | |size off|].
  - by injection E as <-.
  - apply bind_Ok in E as (rd & Hr & E). apply header_read_locks in Hr.
    destruct (pread _ _); [|done]. by injection E as <-.
  - destruct (rd_done _) in E; [by injection E as <-|].
    destruct (_ <=? _) in E; [injection E as <-; apply finalize_locks|].
    apply bind_Ok in E as (? & _ & E). by injection E as <-.
  - apply bind_Ok in E as (rd & Hr & E).
    assert (same_locks (rd_shared (b_reader b)) (rd_shared rd)) as Hs.
    { destruct size as [n|]; [|by injection Hr as <-]. apply bind_Ok in Hr as (rd1 & Hr1 & Hr).
      apply chunk_read_locks in Hr1. destruct (pread _ _); [|done]. by injection Hr as <-. }
    destruct (_ <=? _) in E; injection E as <-; [|done].
    etransitivity; [exact Hs|apply finalize_locks].
  - by injection E as <-.
Qed.

Lemma poll_locks big pread k : forall b b',
  poll big pread k b = Ok b' -> same_locks (rd_shared (b_reader b)) (rd_shared (b_reader b')).
Proof.
  induction k as [|k IH]; intros b b'; cbn [poll]; [by intros [= <-]|].
  destruct (b_phase b) eqn:Ep; try (by intros [= <-]);
    (intros E; apply bind_Ok in E as (b1 & H1 & E); apply poll_step_locks in H1;
     etransitivity; [exact H1|by apply IH]).
Qed.

(** ** The log of a file *)

(** The frames of the valid prefix, with the page images the file holds. *)
Definition file_log (f : bytes) (h : WalHeader) : list frame :=
  let ps := wh_page_size h in
  imap (fun k fi =>
    (fi_page fi,
     take (Z.to_nat ps)
       (drop (Z.to_nat (WAL_HEADER_SIZE + Z.of_nat k * (WAL_FRAME_HEADER_SIZE + ps) +
                        WAL_FRAME_HEADER_SIZE)) f)))
    (WalRecovery.all_frames f h).

Lemma file_log_pages f h : (file_log f h).*1 = pages (WalRecovery.all_frames f h).
Proof.
  unfold file_log, pages. generalize (WalRecovery.all_frames f h) as l. intros l.
  apply list_eq. intros i. rewrite list_lookup_fmap, list_lookup_imap.
  change (map fi_page l) with (fi_page <$> l). rewrite list_lookup_fmap. by destruct (l !! i).
Qed.

Lemma field_be_u32 f off : bytes_ok f -> is_u32 (field_be f off 4).
Proof.
  intros Hf. unfold field_be. assert (bytes_ok (field f off 4)) as Hb by (by apply field_ok).
  pose proof (be_combine_bound _ Hb) as Hr. assert (lenZ (field f off 4) <= 4) as Hl.
  { unfold lenZ, field. rewrite length_take. lia. }
  assert (256 ^ lenZ (field f off 4) <= 256 ^ 4) by (apply Z.pow_le_mono_r; lia).
  unfold is_u32. lia.
Qed.

Lemma valid_header_u32 f h : bytes_ok f -> valid_header f = Some h -> header_u32 h.
Proof.
  intros Hf. unfold valid_header. repeat case_match; try done. intros [= <-].
  unfold header_u32, header_of. cbn. repeat constructor; by apply field_be_u32.
Qed.

Lemma init_locks_free big s l :
  begin_shared big = Ok s -> valid_lock l -> exists v, lock_word s l = Some (enc v 0 0) /\ is_u32 v.
Proof.
  intros E Hl. vm_compute in E. injection E as <-.
  destruct l as [n| | |]; [|exists 0; by vm_compute..]. cbn in Hl.
  do 2 (destruct n as [|n]; [exists 0; by vm_compute|]).
  do 3 (destruct n as [|n]; [exists READMARK_NOT_USED; by vm_compute|]). lia.
Qed.

(** The state recovery builds, as the start of a system. *)
Lemma recovered_ready big f pread h db :
  bytes_ok f -> reads_file f pread -> valid_header f = Some h ->
  lenZ (WalRecovery.all_frames f h) <= u32_max ->
  exists rd,
    (b ← build_begin big (lenZ f); poll big pread (2 * length f + 6) b) =
      Ok (mkBuild rd PhaseDone) /\
    m_max_frame (metadata (rd_shared rd)) = commit_point (WalRecovery.all_frames f h) /\
    ready (mkWorld (rd_shared rd) 0 (file_log f h) db).
Proof.
  intros Hf Hread Hh Hlen. destruct (recovery_run big f pread Hf Hread) as (rd & Hrun & Hrec).
  rewrite Hh in Hrec. exists rd. split; [done|]. destruct Hrec as [Hmax _ Hrep Hhd Hnb Hini _].
  split; [done|]. pose proof (commit_point_bounds (WalRecovery.all_frames f h)) as Hcp.
  assert (exists s0, begin_shared big = Ok s0 /\ same_locks s0 (rd_shared rd)) as (s0 & E0 & Hsl).
  { apply bind_Ok in Hrun as (b & Hb & Hp). apply poll_locks in Hp. unfold build_begin in Hb.
    apply bind_Ok in Hb as (s0 & E0 & Hb). exists s0. split; [done|].
    destruct (_ <? _) in Hb; injection Hb as <-; [|exact Hp].
    etransitivity; [|exact Hp]. by constructor. }
  destruct Hsl as [Hword Hsl [Hen Hfi]].
  assert (length (r_read_locks (runtime s0)) = 5%nat /\ m_enabled (metadata s0) = true /\
    r_file (runtime s0) = true) as (Hl5 & He0 & Hf0).
  { pose proof E0 as E. vm_compute in E. injection E as <-. done. }
  constructor; cbn [w_shared w_log w_guards w_db].
  - split; congruence.
  - rewrite Hhd. by eapply valid_header_u32.
  - rewrite Hnb, Hmax. unfold lenZ in *. split; [done|]. lia.
  - congruence.
  - exists (pages (WalRecovery.committed (WalRecovery.all_frames f h))). split; [done|].
    rewrite Hmax. unfold WalRecovery.committed, agree, lenZ, pages in *.
    assert (length (file_log f h) = length (WalRecovery.all_frames f h)) as El
      by apply length_imap.
    rewrite length_map, length_take, El. split_and!; [lia|lia|].
    change (map fi_page ?l) with (fi_page <$> l).
    rewrite !fmap_take, take_take, Nat.min_id. f_equal. symmetry. apply file_log_pages.
  - intros l Hl. rewrite Hword. by eapply init_locks_free.
  - congruence.
  - done.
Qed.

(** C3: Opening a database on a log left by a crash gives a system to which
    the isolation theorems apply: whatever the file holds after a valid
    header, recovery ends and the shared state it builds is an initial state
    of the connection system, whose committed database is the database file
    with the page images of the committed prefix of the log written over
    it. *)
Theorem recovery_opens_system big f pread h db fs :
  bytes_ok f -> reads_file f pread -> valid_header f = Some h ->
  lenZ (WalRecovery.all_frames f h) <= u32_max ->
  Forall closed fs -> lenZ fs < 2147483647 ->
  exists rd,
    (b ← build_begin big (lenZ f); poll big pread (2 * length f + 6) b) =
      Ok (mkBuild rd PhaseDone) /\
    let w := mkWorld (rd_shared rd) 0 (file_log f h) db in
    initial (mkSys w (Idle <$> fs) [w] (replicate (length fs) 0%nat)) /\
    forall p, committed w p =
      overlay (take (Z.to_nat (commit_point (WalRecovery.all_frames f h))) (file_log f h))
        (fun q => db !! q) p.
Proof.
  intros Hf Hread Hh Hlen Hcl Hfs.
  destruct (recovered_ready big f pread h db Hf Hread Hh Hlen) as (rd & Hrun & Hmax & Hrd).
  exists rd. split; [done|]. split; [by apply initial_intro|].
  intros p. unfold committed, version, overlay. cbn. by rewrite Hmax.
Qed.

Lemma recovery_opens_system_witness :
  let f := wal_header_bytes demo_header ++ demo_log in
  let pread := fun off n => Some (take (Z.to_nat n) (drop (Z.to_nat off) f), n) in
  exists rd,
    (b ← build_begin false (lenZ f); poll false pread (2 * length f + 6) b) =
      Ok (mkBuild rd PhaseDone) /\
    initial (mkSys (mkWorld (rd_shared rd) 0 (file_log f demo_header) ∅) []
               [mkWorld (rd_shared rd) 0 (file_log f demo_header) ∅] []).
Proof.
  intros f pread.
  destruct (recovery_opens_system false f pread demo_header ∅ []) as (rd & Hrun & Hi & _).
  - apply bytes_ok_dec. vm_compute. reflexivity.
  - intros off n _ _ _. reflexivity.
  - vm_compute. reflexivity.
  - vm_compute. discriminate.
  - constructor.
  - vm_compute. reflexivity.
  - exists rd. split; [exact Hrun|exact Hi].
Defined.
