(* ===== verification/SlotBitmap.v ===== *)
(** * The slot bitmap of the page arena

    Models core/storage/slot_bitmap.rs: [AtomicSlotBitmap], a lock-free bitmap
    with one bit per slot (1 is free).  Each operation is a program of atomic
    accesses ([access] performs one of them), so that threads interleave
    between any two accesses; [alone] runs one thread without interference.
    The program that owns the slots is the environment: [owned] are the slots
    that [alloc_one] has returned and [free_one] has not been called on. *)

From stdpp Require Import gmap.
From S2P Require Import Prelude.

(** ** Words, bits and slots *)

Definition WORD_SHIFT : Z := 6.
Definition WORD_BITS : Z := 64.
Definition WORD_MASK : Z := 63.
Definition ALL_FREE : Z := u64_max.
Definition ALL_ALLOCATED : Z := 0.

Definition word_and_bit_to_slot (word_idx bit : Z) : Z :=
  Z.lor (u32 (Z.shiftl (u32 word_idx) WORD_SHIFT)) bit.

Definition slot_to_word_and_bit (slot_idx : Z) : Z * Z :=
  (Z.shiftr slot_idx WORD_SHIFT, Z.land slot_idx WORD_MASK).

Record AtomicSlotBitmap := mkBitmap {
  words : list Z;
  n_slots : Z;
  next_word_hint : Z
}.

Definition bitmap_new (n : Z) : Result AtomicSlotBitmap :=
  _ ← turso_assert (0 <? n);
  _ ← turso_assert (n mod WORD_BITS =? 0);
  Ok (mkBitmap (replicate (Z.to_nat (n / WORD_BITS)) ALL_FREE) n 0).

Definition is_free (b : AtomicSlotBitmap) (slot : Z) : Result bool :=
  if n_slots b <=? slot then Ok false
  else
    let '(word_idx, bit) := slot_to_word_and_bit slot in
    w ← idx (words b) word_idx;
    Ok (negb (Z.land w (Z.shiftl 1 bit) =? 0)).

(** [u64::trailing_zeros] *)
Fixpoint trailing_zeros_from (k : nat) (w bit : Z) : Z :=
  match k with
  | O => bit
  | S k' => if Z.testbit w bit then bit else trailing_zeros_from k' w (bit + 1)
  end.

Definition trailing_zeros (w : Z) : Z := trailing_zeros_from 64 w 0.

(** [word & !(1u64 << bit)] *)
Definition clear_bit (w bit : Z) : Z := Z.land w (Z.lxor u64_max (Z.shiftl 1 bit)).

(** ** Operations as programs of atomic accesses *)

(** Where a thread is: what it read so far and which access comes next. *)
Inductive pc :=
| Idle
| AllocLoadHint
| AllocLoadWord (hint offset : Z)
| AllocCas (hint offset word : Z)
| AllocStoreHint (new_hint slot : Z)
| AllocReturn (r : option Z)
| FreeOr (slot : Z)
| FreeLoadHint (word_idx : Z)
| FreeStoreHint (word_idx : Z)
| FreeReturn.

Definition set_words (b : AtomicSlotBitmap) (ws : list Z) : AtomicSlotBitmap :=
  mkBitmap ws (n_slots b) (next_word_hint b).
Definition set_hint (b : AtomicSlotBitmap) (h : Z) : AtomicSlotBitmap :=
  mkBitmap (words b) (n_slots b) h.

(** The head of [for offset in 0..n_words]. *)
Definition next_word (b : AtomicSlotBitmap) (hint offset : Z) : pc :=
  if offset <? lenZ (words b) then AllocLoadWord hint offset else AllocReturn None.

(** The head of [while word != ALL_ALLOCATED]. *)
Definition try_word (b : AtomicSlotBitmap) (hint offset word : Z) : pc :=
  if word =? ALL_ALLOCATED then next_word b hint (offset + 1) else AllocCas hint offset word.

(** The next atomic access of a thread and what it does up to the following
    one.  [spurious] is the failure that [compare_exchange_weak] may have
    although the word is the expected one. *)
Definition access (b : AtomicSlotBitmap) (p : pc) (spurious : bool)
    : Result (AtomicSlotBitmap * pc) :=
  let n_words := lenZ (words b) in
  match p with
  | Idle | AllocReturn _ | FreeReturn => Ok (b, p)
  | AllocLoadHint =>
      if n_words =? 0 then Ok (b, AllocReturn None)
      else Ok (b, next_word b (Z.min (next_word_hint b) (n_words - 1)) 0)
  | AllocLoadWord hint offset =>
      word ← idx (words b) ((hint + offset) mod n_words);
      Ok (b, try_word b hint offset word)
  | AllocCas hint offset word =>
      let word_idx := (hint + offset) mod n_words in
      let bit := trailing_zeros word in
      let new_word := clear_bit word bit in
      actual ← idx (words b) word_idx;
      if (actual =? word) && negb spurious then
        ws ← set_idx (words b) word_idx new_word;
        let new_hint :=
          if new_word =? ALL_ALLOCATED then (word_idx + 1) mod n_words else word_idx in
        Ok (set_words b ws, AllocStoreHint new_hint (word_and_bit_to_slot word_idx bit))
      else Ok (b, try_word b hint offset actual)
  | AllocStoreHint new_hint slot => Ok (set_hint b new_hint, AllocReturn (Some slot))
  | FreeOr slot =>
      _ ← turso_assert (slot <? n_slots b);
      let '(word_idx, bit) := slot_to_word_and_bit slot in
      let mask := Z.shiftl 1 bit in
      old ← idx (words b) word_idx;
      ws ← set_idx (words b) word_idx (Z.lor old mask);
      _ ← turso_assert (Z.land old mask =? 0);
      Ok (set_words b ws, FreeLoadHint word_idx)
  | FreeLoadHint word_idx =>
      Ok (b, if word_idx <? next_word_hint b then FreeStoreHint word_idx else FreeReturn)
  | FreeStoreHint word_idx => Ok (set_hint b word_idx, FreeReturn)
  end.

(** [k] accesses of one thread without interference. *)
Fixpoint alone (k : nat) (b : AtomicSlotBitmap) (p : pc) : Result (AtomicSlotBitmap * pc) :=
  match k with
  | O => Ok (b, p)
  | S k' => '(b, p) ← access b p false; alone k' b p
  end.

(** ** Threads *)

Record system := mkSystem {
  sys_bitmap : AtomicSlotBitmap;
  sys_threads : list pc;
  sys_owned : gset Z
}.

Inductive sys_step : system -> system -> Prop :=
| step_alloc b ts own i :
    ts !! i = Some Idle ->
    sys_step (mkSystem b ts own) (mkSystem b (<[i := AllocLoadHint]> ts) own)
| step_free b ts own i slot :
    ts !! i = Some Idle -> slot ∈ own ->
    sys_step (mkSystem b ts own) (mkSystem b (<[i := FreeOr slot]> ts) (own ∖ {[slot]}))
| step_access b ts own i p spurious b' p' :
    ts !! i = Some p -> access b p spurious = Ok (b', p') ->
    sys_step (mkSystem b ts own) (mkSystem b' (<[i := p']> ts) own)
| step_return_slot b ts own i slot :
    ts !! i = Some (AllocReturn (Some slot)) ->
    sys_step (mkSystem b ts own) (mkSystem b (<[i := Idle]> ts) ({[slot]} ∪ own))
| step_return b ts own i p :
    ts !! i = Some p -> p = AllocReturn None \/ p = FreeReturn ->
    sys_step (mkSystem b ts own) (mkSystem b (<[i := Idle]> ts) own).

Inductive sys_reachable (n : Z) : system -> Prop :=
| reach_init b k :
    bitmap_new n = Ok b -> sys_reachable n (mkSystem b (replicate k Idle) ∅)
| reach_step s s' : sys_reachable n s -> sys_step s s' -> sys_reachable n s'.

(** ** Bits *)

Definition free_bit (b : AtomicSlotBitmap) (s : Z) : bool :=
  match words b !! Z.to_nat (s / 64) with
  | Some w => Z.testbit w (s mod 64)
  | None => false
  end.

Lemma clear_bit_testbit w bit j :
  is_u64 w -> 0 <= bit < 64 -> 0 <= j ->
  Z.testbit (clear_bit w bit) j = Z.testbit w j && negb (j =? bit).
Proof. apply andnot_testbit. Qed.

Lemma clear_bit_u64 w bit : is_u64 w -> 0 <= bit < 64 -> is_u64 (clear_bit w bit).
Proof.
  intros Hw Hb. apply u64_of_bits.
  - unfold clear_bit. apply Z.land_nonneg. left. unfold is_u64 in Hw. lia.
  - intros j Hj. rewrite clear_bit_testbit, (u64_testbit_high w j) by (done || lia). done.
Qed.

Lemma set_bit_u64 w bit : is_u64 w -> 0 <= bit < 64 -> is_u64 (Z.lor w (Z.shiftl 1 bit)).
Proof.
  intros Hw Hb. apply u64_of_bits.
  - apply Z.lor_nonneg. split; [unfold is_u64 in Hw; lia|]. apply Z.shiftl_nonneg. lia.
  - intros j Hj. rewrite set_bit_testbit, (u64_testbit_high w j) by (done || lia).
    destruct (Z.eqb_spec j bit); [lia|done].
Qed.

Lemma trailing_zeros_from_spec k : forall w bit,
  0 <= bit -> (exists j, bit <= j < bit + Z.of_nat k /\ Z.testbit w j = true) ->
  let r := trailing_zeros_from k w bit in
  bit <= r < bit + Z.of_nat k /\ Z.testbit w r = true.
Proof.
  induction k as [|k IH]; intros w bit Hb (j & Hj & Ht); [lia|]. cbn [trailing_zeros_from].
  destruct (Z.testbit w bit) eqn:E; [split; [lia|done]|].
  destruct (IH w (bit + 1)) as [H1 H2]; [lia| |split; [lia|done]].
  exists j. split; [|done]. destruct (Z.eq_dec j bit) as [->|]; [congruence|lia].
Qed.

(** On a non-zero word the result is the index of a set bit. *)
Lemma trailing_zeros_spec w :
  is_u64 w -> w <> 0 -> 0 <= trailing_zeros w < 64 /\ Z.testbit w (trailing_zeros w) = true.
Proof.
  intros Hw Hn. apply (trailing_zeros_from_spec 64 w 0); [lia|].
  exists (Z.log2 w). unfold is_u64 in Hw. split; [|apply Z.bit_log2; lia].
  split; [apply Z.log2_nonneg|]. apply Z.log2_lt_pow2; lia.
Qed.

Lemma to_slot i bit :
  0 <= i -> 64 * i < 4294967296 -> 0 <= bit < 64 -> word_and_bit_to_slot i bit = 64 * i + bit.
Proof.
  intros. unfold word_and_bit_to_slot, WORD_SHIFT, u32.
  rewrite (Z.mod_small i), Z.shiftl_mul_pow2, Z.mod_small by lia.
  rewrite lor_disjoint by lia. lia.
Qed.

Lemma of_slot s : slot_to_word_and_bit s = (s / 64, s mod 64).
Proof.
  unfold slot_to_word_and_bit, WORD_SHIFT, WORD_MASK.
  by rewrite Z.shiftr_div_pow2, (land_mod 6 63) by done.
Qed.

(** ** Well-formed bitmaps and threads *)

Record bitmap_wf (b : AtomicSlotBitmap) : Prop := {
  bw_slots : n_slots b = 64 * lenZ (words b);
  bw_some : 0 < lenZ (words b);
  bw_u32 : n_slots b < 4294967296;
  bw_words : Forall is_u64 (words b);
  bw_hint : 0 <= next_word_hint b < lenZ (words b)
}.

(** What a thread knows at each of its program points; [n] is the number of
    words. *)
Definition pc_ok (n : Z) (p : pc) : Prop :=
  match p with
  | AllocLoadWord h o => 0 <= h < n /\ 0 <= o < n
  | AllocCas h o w => 0 <= h < n /\ 0 <= o < n /\ is_u64 w /\ w <> 0
  | AllocStoreHint h s => 0 <= h < n
  | FreeLoadHint i | FreeStoreHint i => 0 <= i < n
  | _ => True
  end.

(** The slot that a thread holds in the middle of an operation. *)
Definition pc_slot (p : pc) : option Z :=
  match p with
  | AllocStoreHint _ s | AllocReturn (Some s) | FreeOr s => Some s
  | _ => None
  end.

Lemma next_word_ok b h o :
  0 <= h < lenZ (words b) -> 0 <= o ->
  pc_ok (lenZ (words b)) (next_word b h o) /\ pc_slot (next_word b h o) = None.
Proof. intros. unfold next_word. destruct (Z.ltb_spec o (lenZ (words b))); done. Qed.

Lemma try_word_ok b h o w :
  0 <= h < lenZ (words b) -> 0 <= o < lenZ (words b) -> is_u64 w ->
  pc_ok (lenZ (words b)) (try_word b h o w) /\ pc_slot (try_word b h o w) = None.
Proof.
  intros. unfold try_word, ALL_ALLOCATED. destruct (Z.eqb_spec w 0).
  - apply next_word_ok; [done|lia].
  - done.
Qed.

Lemma idx_lookup_Z {A} (l : list A) i x : 0 <= i -> l !! Z.to_nat i = Some x -> idx l i = Ok x.
Proof.
  intros Hi Hx. unfold idx, getZ. destruct (Z.ltb_spec i 0); [lia|]. by rewrite Hx.
Qed.

Lemma word_at b i :
  bitmap_wf b -> 0 <= i < lenZ (words b) ->
  exists w, words b !! Z.to_nat i = Some w /\ idx (words b) i = Ok w /\ is_u64 w.
Proof.
  intros Hb Hi. destruct (lookup_lt_is_Some_2 (words b) (Z.to_nat i)) as [w Hw];
    [unfold lenZ in *; lia|].
  exists w. split_and!; [done|by apply idx_lookup_Z; [lia|]|].
  by apply (Forall_lookup_1 _ _ _ _ (bw_words _ Hb) Hw).
Qed.

(** Storing a word. *)
Lemma store_word_wf b i w :
  bitmap_wf b -> 0 <= i < lenZ (words b) -> is_u64 w ->
  exists ws, set_idx (words b) i w = Ok ws /\ bitmap_wf (set_words b ws) /\
    lenZ ws = lenZ (words b) /\
    (forall s, 0 <= s -> free_bit (set_words b ws) s =
       if s / 64 =? i then Z.testbit w (s mod 64) else free_bit b s).
Proof.
  intros [Hs Hp Hu Hw Hh] Hi Hw64. exists (<[Z.to_nat i := w]> (words b)).
  assert (lenZ (<[Z.to_nat i := w]> (words b)) = lenZ (words b)) as Hl
    by (unfold lenZ; by rewrite length_insert).
  split_and!; [by apply set_idx_Ok| |done|].
  - split; cbn; rewrite ?Hl; try done. by apply Forall_insert.
  - intros s Hs0. unfold free_bit. cbn.
    destruct (Z.eqb_spec (s / 64) i) as [<-|Hne].
    + rewrite list_lookup_insert_eq by (unfold lenZ in Hi; lia). done.
    + rewrite list_lookup_insert_ne; [done|].
      pose proof (Z.div_pos s 64 Hs0 ltac:(lia)). lia.
Qed.

(** The effect of one access on the free slots and on the slot its thread
    holds. *)
Inductive effect (b b' : AtomicSlotBitmap) : option Z -> option Z -> Prop :=
| eff_none o :
    (forall s, 0 <= s -> free_bit b' s = free_bit b s) -> effect b b' o o
| eff_take s :
    0 <= s < n_slots b -> free_bit b s = true ->
    (forall s', 0 <= s' -> free_bit b' s' = free_bit b s' && negb (s' =? s)) ->
    effect b b' None (Some s)
| eff_give s :
    (forall s', 0 <= s' -> free_bit b' s' = free_bit b s' || (s' =? s)) ->
    effect b b' (Some s) None.

Lemma slot_div i bit : 0 <= bit < 64 -> (64 * i + bit) / 64 = i /\ (64 * i + bit) mod 64 = bit.
Proof.
  intros. split; [symmetry; apply (Z.div_unique _ _ i bit); lia|].
  symmetry. apply (Z.mod_unique _ _ i bit); lia.
Qed.

Lemma slot_eqb s i bit :
  0 <= bit < 64 -> (s =? 64 * i + bit) = (s / 64 =? i) && (s mod 64 =? bit).
Proof.
  intros Hb. pose proof (Z.div_mod s 64 ltac:(lia)). pose proof (Z.mod_pos_bound s 64 ltac:(lia)).
  destruct (slot_div i bit Hb).
  destruct (Z.eqb_spec s (64 * i + bit)), (Z.eqb_spec (s / 64) i),
    (Z.eqb_spec (s mod 64) bit); simpl; try done; subst; try lia; congruence.
Qed.

(** The successful compare-and-swap takes the slot of the lowest set bit. *)
Lemma cas_takes b i w :
  bitmap_wf b -> 0 <= i < lenZ (words b) -> words b !! Z.to_nat i = Some w ->
  is_u64 w -> w <> 0 ->
  let bit := trailing_zeros w in
  exists ws, set_idx (words b) i (clear_bit w bit) = Ok ws /\ bitmap_wf (set_words b ws) /\
    lenZ ws = lenZ (words b) /\
    effect b (set_words b ws) None (Some (word_and_bit_to_slot i bit)).
Proof.
  intros Hb Hi Hw Hu Hn0 bit. destruct (trailing_zeros_spec w Hu Hn0) as [Hbit Ht].
  fold bit in Hbit, Ht.
  destruct (store_word_wf b i (clear_bit w bit) Hb Hi) as (ws & Hset & Hwf & Hl & Hf);
    [by apply clear_bit_u64|].
  exists ws. split_and!; [done..|].
  pose proof (bw_slots _ Hb). pose proof (bw_u32 _ Hb).
  rewrite to_slot by lia. destruct (slot_div i bit Hbit) as [Hd Hm].
  apply eff_take; [lia| |].
  - unfold free_bit. by rewrite Hd, Hm, Hw.
  - intros s Hs. rewrite Hf, slot_eqb by done. destruct (Z.eqb_spec (s / 64) i) as [Hsi|]; simpl.
    + rewrite clear_bit_testbit by (done || apply Z.mod_pos_bound; lia).
      unfold free_bit. by rewrite Hsi, Hw.
    + by rewrite andb_true_r.
Qed.

Lemma fetch_or_gives b slot :
  bitmap_wf b -> 0 <= slot < n_slots b -> free_bit b slot = false ->
  exists b', access b (FreeOr slot) false = Ok (b', FreeLoadHint (slot / 64)) /\
    (forall sp, access b (FreeOr slot) sp = access b (FreeOr slot) false) /\
    bitmap_wf b' /\ lenZ (words b') = lenZ (words b) /\ n_slots b' = n_slots b /\
    0 <= slot / 64 < lenZ (words b) /\ effect b b' (Some slot) None.
Proof.
  intros Hb Hs Hfree. pose proof (bw_slots _ Hb).
  assert (0 <= slot / 64 < lenZ (words b)) as Hi.
  { split; [apply Z.div_pos; lia|]. apply Z.div_lt_upper_bound; lia. }
  pose proof (Z.mod_pos_bound slot 64 ltac:(lia)) as Hm.
  destruct (word_at b (slot / 64) Hb Hi) as (w & Hw & Hidx & Hu).
  destruct (store_word_wf b (slot / 64) (Z.lor w (Z.shiftl 1 (slot mod 64))) Hb Hi)
    as (ws & Hset & Hwf & Hl & Hf); [by apply set_bit_u64|].
  exists (set_words b ws). unfold access. rewrite of_slot.
  assert ((slot <? n_slots b) = true) as -> by (apply Z.ltb_lt; lia).
  cbn [turso_assert mbind Result_bind]. rewrite Hidx. cbn [mbind Result_bind].
  rewrite Hset. cbn [mbind Result_bind]. rewrite mask_test by lia.
  unfold free_bit in Hfree. rewrite Hw in Hfree. rewrite Hfree.
  split_and!; [done|done|done|done|done|lia|lia|].
  apply eff_give. intros s Hs0. rewrite Hf by done.
  assert ((s =? slot) = (s / 64 =? slot / 64) && (s mod 64 =? slot mod 64)) as ->.
  { rewrite <- slot_eqb by done. f_equal. apply Z.div_mod. lia. }
  destruct (Z.eqb_spec (s / 64) (slot / 64)) as [Hsi|]; simpl; [|by rewrite orb_false_r].
  rewrite set_bit_testbit by (lia || apply Z.mod_pos_bound; lia).
  unfold free_bit. by rewrite Hsi, Hw.
Qed.

(** Every access of a well-formed thread succeeds. *)
Lemma access_ok b p sp :
  bitmap_wf b -> pc_ok (lenZ (words b)) p ->
  (forall s, p = FreeOr s -> 0 <= s < n_slots b /\ free_bit b s = false) ->
  exists b' p', access b p sp = Ok (b', p') /\ bitmap_wf b' /\
    lenZ (words b') = lenZ (words b) /\ n_slots b' = n_slots b /\
    pc_ok (lenZ (words b)) p' /\ effect b b' (pc_slot p) (pc_slot p').
Proof.
  intros Hb Hp Hfree. pose proof Hb as [Hs Hpos Hu Hws Hh].
  assert (forall q q', pc_slot q = None -> pc_slot q' = None -> effect b b (pc_slot q) (pc_slot q'))
    as Hsame by (intros ? ? -> ->; by apply eff_none).
  assert (forall h, 0 <= h < lenZ (words b) -> bitmap_wf (set_hint b h)) as Hhint by (by split).
  assert (forall x, 0 <= x mod lenZ (words b) < lenZ (words b)) as Hmod
    by (intros; by apply Z.mod_pos_bound).
  destruct p as [| |h o|h o w|h s|r|s|i|i|]; cbn [access] in *.
  - eexists _, _. split_and!; [done..|]. by apply eff_none.
  - destruct (Z.eqb_spec (lenZ (words b)) 0); [lia|].
    destruct (next_word_ok b (Z.min (next_word_hint b) (lenZ (words b) - 1)) 0); [lia..|].
    eexists _, _. split_and!; [done..|]. by apply Hsame.
  - destruct Hp as [Ho Hoo].
    destruct (word_at b ((h + o) mod lenZ (words b)) Hb) as (w & _ & -> & Hw); [done|].
    destruct (try_word_ok b h o w Ho Hoo Hw).
    eexists _, _. split_and!; [done..|]. by apply Hsame.
  - destruct Hp as (Ho & Hoo & Hw & Hn0).
    destruct (word_at b ((h + o) mod lenZ (words b)) Hb) as (a & Ha & -> & Hau); [done|].
    cbn [mbind Result_bind]. destruct ((a =? w) && negb sp) eqn:E.
    + apply andb_true_iff in E as [->%Z.eqb_eq _].
      destruct (cas_takes b _ w Hb (Hmod _) Ha Hw Hn0) as (ws & -> & Hwf & Hl & Heff).
      eexists _, _. split_and!; [done..| |done]. cbn. by case_match.
    + destruct (try_word_ok b h o a Ho Hoo Hau).
      eexists _, _. split_and!; [done..|]. by apply Hsame.
  - eexists _, _. split_and!; [done|by apply Hhint|done..|]. by apply eff_none.
  - eexists _, _. split_and!; [done..|]. by apply eff_none.
  - destruct (Hfree s eq_refl) as [Hr Hf].
    destruct (fetch_or_gives b s Hb Hr Hf) as (b' & Hacc & Hany & ? & ? & ? & ? & ?).
    eexists _, _. split_and!; [etrans; [apply (Hany sp)|exact Hacc]|done..].
  - eexists _, _. split_and!; [done..| |]; destruct (i <? next_word_hint b); [done..| |];
      by apply eff_none.
  - eexists _, _. split_and!; [done|by apply Hhint|done..|]. by apply eff_none.
  - eexists _, _. split_and!; [done..|]. by apply eff_none.
Qed.

(** ** The invariant of all threads *)

(** Thread [i] holds slot [s]. *)
Definition holds (ts : list pc) (i : nat) (s : Z) : Prop :=
  exists p, ts !! i = Some p /\ pc_slot p = Some s.

Record sys_inv (n : Z) (st : system) : Prop := {
  sv_wf : bitmap_wf (sys_bitmap st);
  sv_n : n_slots (sys_bitmap st) = n;
  sv_pcs : forall i p, sys_threads st !! i = Some p -> pc_ok (lenZ (words (sys_bitmap st))) p;
  sv_own : forall s, s ∈ sys_owned st -> 0 <= s < n /\ free_bit (sys_bitmap st) s = false;
  sv_hold : forall i s, holds (sys_threads st) i s ->
    0 <= s < n /\ s ∉ sys_owned st /\ free_bit (sys_bitmap st) s = false;
  sv_uniq : forall i j s, holds (sys_threads st) i s -> holds (sys_threads st) j s -> i = j;
  sv_used : forall s, 0 <= s < n -> free_bit (sys_bitmap st) s = false ->
    s ∈ sys_owned st \/ exists i, holds (sys_threads st) i s
}.

Lemma holds_insert ts i p q j s :
  ts !! i = Some p ->
  holds (<[i := q]> ts) j s <-> (j = i /\ pc_slot q = Some s) \/ (j <> i /\ holds ts j s).
Proof.
  intros Hi. unfold holds. destruct (decide (j = i)) as [->|Hne].
  - rewrite list_lookup_insert_eq by by eapply lookup_lt_Some. naive_solver.
  - rewrite list_lookup_insert_ne by done. naive_solver.
Qed.

(** Replacing the program point of one thread, for any effect on the bitmap
    and any change of the owned slots that accounts for it. *)
Lemma inv_update n b ts own i p b' p' own' :
  sys_inv n (mkSystem b ts own) -> ts !! i = Some p ->
  bitmap_wf b' -> lenZ (words b') = lenZ (words b) -> n_slots b' = n_slots b ->
  pc_ok (lenZ (words b)) p' ->
  (forall s, 0 <= s < n -> free_bit b' s = false ->
     (s ∈ own' \/ pc_slot p' = Some s) \/
     (free_bit b s = false /\ s ∉ own /\ pc_slot p <> Some s)) ->
  (forall s, s ∈ own' -> s ∈ own \/ pc_slot p = Some s) ->
  (forall s, pc_slot p' = Some s ->
     0 <= s < n /\ s ∉ own' /\ free_bit b' s = false /\
     (s ∈ own \/ pc_slot p = Some s \/ free_bit b s = true)) ->
  (forall s, free_bit b s = false -> 0 <= s < n -> pc_slot p <> Some s -> free_bit b' s = false) ->
  (forall s, pc_slot p = Some s -> s ∈ own' -> free_bit b' s = false) ->
  sys_inv n (mkSystem b' (<[i := p']> ts) own').
Proof.
  intros [Hwf Hn Hpcs Hown Hhold Huniq Hused] Hi Hwf' Hl Hn' Hpc Hcover Hsub Hp' Hkeep Hret.
  cbn in *.
  assert (forall s, pc_slot p = Some s -> holds ts i s) as Hself by (intros; by exists p).
  assert (forall j s, j <> i -> holds ts j s ->
            s ∉ own' /\ pc_slot p' <> Some s /\ pc_slot p <> Some s) as Hother.
  { intros j s Hj Hh. destruct (Hhold _ _ Hh) as (? & Hno & Hfb).
    assert (pc_slot p <> Some s) as Hps by (intros E; by destruct Hj; eapply Huniq; eauto).
    split_and!; [|intros (_ & _ & _ & [?|[?|?]])%Hp'; congruence|done].
    intros [?|?]%Hsub; congruence. }
  split; cbn.
  - done.
  - congruence.
  - intros j q Hq. rewrite Hl. destruct (decide (j = i)) as [->|Hne].
    + rewrite list_lookup_insert_eq in Hq by by eapply lookup_lt_Some. by injection Hq as <-.
    + rewrite list_lookup_insert_ne in Hq by done. eauto.
  - intros s Hs. destruct (Hsub s Hs) as [Ho|Ho].
    + destruct (Hown _ Ho) as [Hr Hf]. split; [done|].
      destruct (decide (pc_slot p = Some s)) as [E|E]; [by apply Hret|by apply Hkeep].
    + destruct (Hhold _ _ (Hself _ Ho)) as (? & ? & ?). split; [done|by apply Hret].
  - intros j s Hh%(holds_insert _ _ _ _ _ _ Hi). destruct Hh as [[-> Hs]|[Hj Hh]].
    + destruct (Hp' _ Hs) as (? & ? & ? & ?). done.
    + destruct (Hother _ _ Hj Hh) as (? & ? & ?). destruct (Hhold _ _ Hh) as (? & ? & ?).
      split_and!; try done; try lia. by apply Hkeep.
  - intros j k s Hj%(holds_insert _ _ _ _ _ _ Hi) Hk%(holds_insert _ _ _ _ _ _ Hi).
    destruct Hj as [[-> Hj]|[Hji Hj]], Hk as [[-> Hk]|[Hki Hk]]; [done| | |eauto].
    + destruct (Hother _ _ Hki Hk) as (? & ? & ?). congruence.
    + destruct (Hother _ _ Hji Hj) as (? & ? & ?). congruence.
  - intros s Hr Hf. destruct (Hcover s Hr Hf) as [[?|?]|(Hf0 & Hno & Hnp)].
    + by left.
    + right. exists i. apply (holds_insert _ _ _ _ _ _ Hi). by left.
    + destruct (Hused s Hr Hf0) as [?|[j Hj]]; [done|]. right. exists j.
      apply (holds_insert _ _ _ _ _ _ Hi). right. split; [|done]. intros ->.
      destruct Hj as (q & Hq & ?). congruence.
Qed.

Lemma inv_access n b ts own i p sp b' p' :
  sys_inv n (mkSystem b ts own) -> ts !! i = Some p -> access b p sp = Ok (b', p') ->
  sys_inv n (mkSystem b' (<[i := p']> ts) own).
Proof.
  intros Hinv Hi Hacc. pose proof Hinv as [Hwf Hn Hpcs Hown Hhold Huniq Hused]. cbn in *.
  assert (forall s, pc_slot p = Some s -> 0 <= s < n /\ s ∉ own /\ free_bit b s = false) as Hps
    by (intros s Hs; apply (Hhold i); by exists p).
  destruct (access_ok b p sp Hwf (Hpcs _ _ Hi)) as (b1 & p1 & E & Hwf' & Hl & Hn' & Hpc & Heff).
  { intros s ->. rewrite Hn. destruct (Hps s eq_refl) as (? & ? & ?). done. }
  rewrite Hacc in E. injection E as <- <-.
  eapply inv_update; try done; inversion Heff as [o Hf Ho Ho'|s Hrs Ht Hf Ho Ho'|s Hf Ho Ho'];
    try (intros t Ht'; by left).
  - intros t Hr Hfr. rewrite Hf in Hfr by lia.
    destruct (Hused t Hr Hfr) as [?|[j Hj]]; [by left; left|].
    destruct (decide (pc_slot p = Some t)) as [Et|Et]; [left; right; congruence|].
    destruct (decide (t ∈ own)); [by left; left|]. by right.
  - intros t Hr Hfr. rewrite Hf in Hfr by lia.
    destruct (Z.eqb_spec t s) as [->|]; [by left; right|].
    rewrite andb_true_r in Hfr. destruct (decide (t ∈ own)); [by left; left|]. by right.
  - intros t Hr Hfr. rewrite Hf in Hfr by lia. apply orb_false_iff in Hfr as [Hfr Hts].
    apply Z.eqb_neq in Hts. destruct (decide (t ∈ own)); [by left; left|].
    right. split_and!; [done..|]. congruence.
  - intros t Et. assert (pc_slot p = Some t) as Ept by congruence.
    destruct (Hps _ Ept) as (? & ? & ?). rewrite Hf by lia. split_and!; try done; try lia. by right; left.
  - intros t [= <-]. rewrite Hn in Hrs. split_and!; try lia.
    + intros Hin. destruct (Hown _ Hin). congruence.
    + rewrite Hf, Z.eqb_refl by lia. apply andb_false_r.
    + by right; right.
  - done.
  - intros t Hfr Hr _. rewrite Hf by lia. done.
  - intros t Hfr Hr' _. rewrite Hf, Hfr by lia. done.
  - intros t Hfr Hr Hne. rewrite Hf, Hfr by lia. apply Z.eqb_neq. congruence.
  - intros t Ht' Hin. destruct (Hps t) as (? & ? & ?); [congruence|done].
  - done.
  - intros t Ht' Hin. destruct (Hps t) as (? & ? & ?); [congruence|done].
Qed.

Lemma inv_step n st st' : sys_inv n st -> sys_step st st' -> sys_inv n st'.
Proof.
  intros Hinv Hstep.
  destruct Hstep as [b ts own i Hi|b ts own i slot Hi Ho|b ts own i p sp b' p' Hi Hacc
                    |b ts own i slot Hi|b ts own i p Hi Hp].
  - pose proof Hinv as [Hwf Hn Hpcs Hown Hhold Huniq Hused]. cbn in *.
    eapply inv_update; eauto; try done. 1: intros; destruct (decide (s ∈ own)); [by left; left|by right].
  - pose proof Hinv as [Hwf Hn Hpcs Hown Hhold Huniq Hused]. cbn in *.
    eapply inv_update; eauto; try done.
    + intros s Hr Hf. destruct (decide (s = slot)) as [->|]; [by left; right|].
      destruct (decide (s ∈ own)); [left; left; set_solver|by right].
    + intros s Hs. left. set_solver.
    + intros s [= <-]. destruct (Hown _ Ho). split_and!; try done; try lia; set_solver.
  - eapply inv_access; eauto.
  - pose proof Hinv as [Hwf Hn Hpcs Hown Hhold Huniq Hused]. cbn in *.
    eapply inv_update; eauto; try done.
    + intros s Hr Hf. destruct (decide (s = slot)) as [->|]; [left; left; set_solver|].
      destruct (decide (s ∈ own)); [left; left; set_solver|]. right.
      split_and!; [done|done|cbn; congruence].
    + intros s Hs. cbn. destruct (decide (s = slot)) as [->|]; [by right|left; set_solver].
    + cbn. intros s [= <-] _. apply (Hhold i). by exists (AllocReturn (Some slot)).
  - pose proof Hinv as [Hwf Hn Hpcs Hown Hhold Huniq Hused]. cbn in *.
    assert (pc_slot p = None) as E by (by destruct Hp as [-> | ->]).
    eapply inv_update; eauto; try done; rewrite ?E; try done.
    intros s Hr Hf. destruct (decide (s ∈ own)); [by left; left|by right].
Qed.

Lemma bitmap_new_inv n b k :
  is_u32 n -> bitmap_new n = Ok b -> sys_inv n (mkSystem b (replicate k Idle) ∅).
Proof.
  intros Hu Hnew. unfold bitmap_new, WORD_BITS in Hnew.
  destruct (Z.ltb_spec 0 n); [|done]. destruct (Z.eqb_spec (n mod 64) 0) as [Hm|]; [|done].
  injection Hnew as <-.
  assert (n = 64 * (n / 64)) as Hn by (pose proof (Z.div_mod n 64 ltac:(lia)); lia).
  assert (lenZ (replicate (Z.to_nat (n / 64)) ALL_FREE) = n / 64) as Hl
    by (unfold lenZ; rewrite length_replicate; lia).
  assert (forall s, 0 <= s < n -> free_bit
            (mkBitmap (replicate (Z.to_nat (n / 64)) ALL_FREE) n 0) s = true) as Hfree.
  { intros s Hs. unfold free_bit. cbn.
    pose proof (Z.div_pos s 64 ltac:(lia) ltac:(lia)).
    assert (s / 64 < n / 64) by (apply Z.div_lt_upper_bound; lia).
    rewrite lookup_replicate_2 by lia. unfold ALL_FREE. rewrite u64_max_ones.
    apply Z.ones_spec_low, Z.mod_pos_bound. lia. }
  assert (forall i s, ~ holds (replicate k Idle) i s) as Hno.
  { intros i s (p & [-> _]%lookup_replicate & Hp). done. }
  split; cbn.
  - split; cbn; rewrite ?Hl; try lia; [unfold is_u32 in Hu; lia|].
    apply Forall_replicate. done.
  - done.
  - intros i p [-> _]%lookup_replicate. done.
  - set_solver.
  - intros i s Hh. by destruct (Hno i s).
  - intros i j s Hh. by destruct (Hno i s).
  - intros s Hs. by rewrite Hfree.
Qed.

Lemma reachable_inv n st : is_u32 n -> sys_reachable n st -> sys_inv n st.
Proof.
  intros Hn. induction 1 as [b k Hb|s s' _ IH Hstep]; [by apply bitmap_new_inv|].
  by eapply inv_step.
Qed.

(** ** One thread without interference *)

Lemma alone_return k b r : alone k b (AllocReturn r) = Ok (b, AllocReturn r).
Proof. by induction k. Qed.

Lemma free_bit_zero b s :
  words b !! Z.to_nat (s / 64) = Some 0 -> free_bit b s = false.
Proof. intros H. unfold free_bit. rewrite H. apply Z.testbit_0_l. Qed.

(** The scan from offset [o], when the words before it are used up. *)
Lemma scan_from m : forall b h o,
  bitmap_wf b -> 0 <= h < lenZ (words b) -> 0 <= o ->
  o + Z.of_nat m = lenZ (words b) ->
  (forall o', 0 <= o' < o -> words b !! Z.to_nat ((h + o') mod lenZ (words b)) = Some 0) ->
  exists b' r, alone (m + 2) b (next_word b h o) = Ok (b', AllocReturn r) /\
    match r with
    | Some s => bitmap_wf b' /\ n_slots b' = n_slots b /\ effect b b' None (Some s)
    | None => b' = b /\ forall o', 0 <= o' < lenZ (words b) ->
        words b !! Z.to_nat ((h + o') mod lenZ (words b)) = Some 0
    end.
Proof.
  induction m as [|m IH]; intros b h o Hb Hh Ho Hm Hz; unfold next_word.
  - destruct (Z.ltb_spec o (lenZ (words b))); [lia|]. exists b, None. rewrite alone_return.
    split; [done|]. split; [done|]. intros o' Ho'. apply Hz. lia.
  - destruct (Z.ltb_spec o (lenZ (words b))); [|lia]. rewrite Nat.add_comm. cbn [Nat.add alone access].
    pose proof (Z.mod_pos_bound (h + o) (lenZ (words b)) ltac:(lia)) as Hmod.
    destruct (word_at b _ Hb Hmod) as (w & Hw & -> & Hu). cbn [mbind Result_bind].
    unfold try_word, ALL_ALLOCATED. destruct (Z.eqb_spec w 0) as [->|Hn0].
    + destruct (IH b h (o + 1) Hb Hh ltac:(lia) ltac:(lia)) as (b' & r & Hr & Hres).
      { intros o' Ho'. destruct (Z.eq_dec o' o) as [->|]; [done|]. apply Hz. lia. }
      exists b', r. split; [|done]. rewrite <- Hr, Nat.add_comm. done.
    + cbn [alone access]. rewrite (idx_lookup_Z _ _ w) by (lia || done). cbn [mbind Result_bind].
      rewrite Z.eqb_refl. cbn [andb negb].
      destruct (cas_takes b _ w Hb Hmod Hw Hu Hn0) as (ws & -> & Hwf & Hl & Heff).
      cbn [mbind Result_bind alone access].
      match goal with |- context [set_hint ?b2 ?nh] => set (h' := nh) in *; set (b1 := b2) in * end.
      exists (set_hint b1 h'), (Some (word_and_bit_to_slot ((h + o) mod lenZ (words b)) (trailing_zeros w))).
      assert (0 <= h' < lenZ (words b1)) as Hh'.
      { subst h' b1. cbn. rewrite Hl. case_match; [apply Z.mod_pos_bound; lia|lia]. }
      split; [destruct m; [done|apply alone_return]|]. split; [by destruct Hwf; split|]. split; [done|].
      inversion Heff. by apply eff_take.
Qed.

Lemma is_free_bit b s : bitmap_wf b -> 0 <= s < n_slots b -> is_free b s = Ok (free_bit b s).
Proof.
  intros Hb Hs. unfold is_free. destruct (Z.leb_spec (n_slots b) s); [lia|]. rewrite of_slot.
  pose proof (bw_slots _ Hb).
  assert (0 <= s / 64 < lenZ (words b)) as Hi.
  { split; [apply Z.div_pos; lia|]. apply Z.div_lt_upper_bound; lia. }
  destruct (word_at b _ Hb Hi) as (w & Hw & -> & _). cbn [mbind Result_bind].
  rewrite mask_test by (apply Z.mod_pos_bound; lia). rewrite negb_involutive.
  unfold free_bit. by rewrite Hw.
Qed.

(** Every word is visited by some offset of the scan. *)
Lemma offset_of h i n : 0 < n -> 0 <= h < n -> 0 <= i < n ->
  exists o, 0 <= o < n /\ (h + o) mod n = i.
Proof.
  intros Hn Hh Hi. exists ((i - h) mod n). split; [by apply Z.mod_pos_bound|].
  rewrite Z.add_mod_idemp_r by lia. replace (h + (i - h)) with i by lia.
  by apply Z.mod_small.
Qed.

(** ** Properties *)

(** C37: The slot bitmap never hands out a slot twice.  For any number of
    threads that allocate and free concurrently, at the granularity of single
    atomic accesses and with spurious compare-and-swap failures, when slots are
    only freed once each by whoever owns them: no assertion, index or double-free
    check fails; a slot about to be returned by [alloc_one] is in range, not
    owned by anybody and not about to be returned to another thread; and every
    slot that reads as allocated is accounted for. *)
Theorem slot_bitmap_exclusive n b ts own :
  is_u32 n -> sys_reachable n (mkSystem b ts own) ->
  (forall i p spurious, ts !! i = Some p -> exists b' p', access b p spurious = Ok (b', p')) /\
  (forall i slot, ts !! i = Some (AllocReturn (Some slot)) ->
     0 <= slot < n /\ slot ∉ own /\
     forall j, ts !! j = Some (AllocReturn (Some slot)) -> i = j) /\
  (forall slot, 0 <= slot < n -> is_free b slot = Ok false ->
     slot ∈ own \/ exists i, holds ts i slot).
Proof.
  intros Hn Hr. destruct (reachable_inv _ _ Hn Hr) as [Hwf Hns Hpcs Hown Hhold Huniq Hused].
  cbn in *. split_and!.
  - intros i p sp Hi. destruct (access_ok b p sp Hwf (Hpcs _ _ Hi)) as (b' & p' & ? & _); [|eauto].
    intros s ->. rewrite Hns. destruct (Hhold i s) as (? & ? & ?); [by eexists|done].
  - intros i s Hi. assert (holds ts i s) as Hh by by eexists.
    destruct (Hhold _ _ Hh) as (? & ? & ?). split_and!; try done; try lia.
    intros j Hj. eapply Huniq; [done|by eexists].
  - intros s Hs Hf. rewrite is_free_bit in Hf by (done || lia). injection Hf as Hf. by apply Hused.
Qed.

Lemma slot_bitmap_exclusive_witness :
  let b := mkBitmap [u64_max - 1] 64 0 in
  sys_reachable 64 (mkSystem b [AllocReturn (Some 0); Idle] ∅) /\
  (exists b' p', access b (AllocReturn (Some 0)) true = Ok (b', p')) /\ is_free b 0 = Ok false.
Proof.
  set (b0 := mkBitmap [u64_max] 64 0). intros b1.
  pose proof (reach_init 64 b0 2 eq_refl : sys_reachable 64 (mkSystem b0 [Idle; Idle] ∅)) as H0.
  pose proof (reach_step _ _ _ H0 (step_alloc b0 [Idle; Idle] ∅ 0 eq_refl)
    : sys_reachable 64 (mkSystem b0 [AllocLoadHint; Idle] ∅)) as H1.
  pose proof (reach_step _ _ _ H1 (step_access b0 [AllocLoadHint; Idle] ∅ 0 _ false
    b0 (AllocLoadWord 0 0) eq_refl eq_refl)
    : sys_reachable 64 (mkSystem b0 [AllocLoadWord 0 0; Idle] ∅)) as H2.
  pose proof (reach_step _ _ _ H2 (step_access b0 [AllocLoadWord 0 0; Idle] ∅ 0 _ false
    b0 (AllocCas 0 0 u64_max) eq_refl eq_refl)
    : sys_reachable 64 (mkSystem b0 [AllocCas 0 0 u64_max; Idle] ∅)) as H3.
  pose proof (reach_step _ _ _ H3 (step_access b0 [AllocCas 0 0 u64_max; Idle] ∅ 0 _ false
    b1 (AllocStoreHint 0 0) eq_refl eq_refl)
    : sys_reachable 64 (mkSystem b1 [AllocStoreHint 0 0; Idle] ∅)) as H4.
  pose proof (reach_step _ _ _ H4 (step_access b1 [AllocStoreHint 0 0; Idle] ∅ 0 _ false
    b1 (AllocReturn (Some 0)) eq_refl eq_refl)
    : sys_reachable 64 (mkSystem b1 [AllocReturn (Some 0); Idle] ∅)) as H5.
  split; [exact H5|].
  destruct (slot_bitmap_exclusive 64 _ _ _ ltac:(done) H5) as (Hp & _ & _).
  split; [exact (Hp 0%nat _ true eq_refl)|reflexivity].
Defined.

(** Without interference [alloc_one] is complete and terminates: after one
    access per word and three more it returns, with a free slot when there is
    one, which is then the only slot whose state changes, and with nothing,
    leaving the bitmap alone, exactly when every slot is allocated. *)
Theorem alloc_one_complete b :
  bitmap_wf b ->
  exists b' r, alone (length (words b) + 3) b AllocLoadHint = Ok (b', AllocReturn r) /\
    match r with
    | Some slot => 0 <= slot < n_slots b /\ is_free b slot = Ok true /\ bitmap_wf b' /\
        forall s, 0 <= s < n_slots b ->
          is_free b' s = if s =? slot then Ok false else is_free b s
    | None => b' = b /\ forall s, 0 <= s < n_slots b -> is_free b s = Ok false
    end.
Proof.
  intros Hb. pose proof Hb as [Hs Hpos Hu Hws Hh].
  rewrite Nat.add_succ_r. cbn [alone access].
  destruct (Z.eqb_spec (lenZ (words b)) 0); [lia|]. cbn [mbind Result_bind].
  destruct (scan_from (length (words b)) b (Z.min (next_word_hint b) (lenZ (words b) - 1)) 0 Hb)
    as (b' & r & Hr & Hres); [lia|lia|done|lia|].
  exists b', r. split; [exact Hr|]. destruct r as [slot|].
  - destruct Hres as (Hb' & En & Heff). inversion Heff as [|s Hr' Ht Hf|]; subst.
    rewrite is_free_bit, Ht by done. split_and!; try done; try lia.
    intros s Hsr.
    rewrite !is_free_bit, Hf by (done || lia).
    destruct (s =? slot); [by rewrite andb_false_r|by rewrite andb_true_r].
  - destruct Hres as [-> Hz]. split; [done|]. intros s Hsr. rewrite is_free_bit by done.
    f_equal. apply free_bit_zero.
    destruct (offset_of (Z.min (next_word_hint b) (lenZ (words b) - 1)) (s / 64) (lenZ (words b)))
      as (o & Ho & <-); [lia|lia| |by apply Hz].
    split; [apply Z.div_pos; lia|apply Z.div_lt_upper_bound; lia].
Qed.

Lemma alloc_one_complete_witness :
  exists b' r,
    alone 4 (mkBitmap [2] 64 0) AllocLoadHint = Ok (b', AllocReturn r) /\ r = Some 1.
Proof.
  destruct (alloc_one_complete (mkBitmap [2] 64 0)) as (b' & r & Hr & _).
  { split; cbn; try done. by repeat constructor. }
  exists b', r. split; [exact Hr|]. vm_compute in Hr. by injection Hr.
Defined.
