(* ===== verification/Page.v ===== *)
(** * Pages in memory

    Models the state of a page of core/storage/pager.rs: [PageInner] (fields,
    buffer, identity), the flag word and the pin count of [Page], and the WAL
    tag, a 64-bit word that packs the frame and the checkpoint epoch a page was
    written to, with two sentinels.  Atomic accesses of one page are modelled
    as single steps; the buffer is the list of its bytes. *)

From S2P Require Import Prelude.

(** ** [PageInner] *)

(** WAL tag not set, and WAL write in progress. *)
Definition TAG_UNSET : Z := u64_max.
Definition TAG_WRITE_PENDING : Z := u64_max - 1.

(** A cell that did not fit and waits for balancing: index and payload. *)
Record OverflowCell := mkOverflowCell { oc_index : Z; oc_payload : bytes }.

Record PageInner := mkPage {
  flags : Z;
  pg_id : Z;
  header_offset : Z;
  pin_count : Z;
  wal_tag : Z;
  buffer : option bytes;
  overflow_cells : list OverflowCell
}.

Definition header_offset_of (id : Z) : Z := if id =? 1 then 100 else 0.

Definition page_unloaded (id : Z) : PageInner :=
  mkPage 0 id (header_offset_of id) 0 TAG_UNSET None [].

Definition set_buffer (p : PageInner) (b : bytes) : PageInner :=
  mkPage (flags p) (pg_id p) (header_offset p) (pin_count p) (wal_tag p) (Some b)
    (overflow_cells p).

Definition take_buffer (p : PageInner) : PageInner :=
  mkPage (flags p) (pg_id p) (header_offset p) (pin_count p) (wal_tag p) None
    (overflow_cells p).

(** The page data as a slice; empty when no buffer is installed. *)
Definition as_ptr (p : PageInner) : bytes := default [] (buffer p).

Definition set_id (p : PageInner) (id : Z) : PageInner :=
  mkPage (flags p) id (header_offset_of id) (pin_count p) (wal_tag p) (buffer p)
    (overflow_cells p).

(** [Page::new] *)
Definition page_new (id : Z) : Result PageInner :=
  _ ← turso_assert (0 <=? id);
  Ok (page_unloaded id).

(** ** Flags *)

Definition PAGE_LOCKED : Z := 2.
Definition PAGE_DIRTY : Z := 8.
Definition PAGE_LOADED : Z := 16.
Definition PAGE_SPILLED : Z := 32.

Definition set_flags (p : PageInner) (f : Z) : PageInner :=
  mkPage f (pg_id p) (header_offset p) (pin_count p) (wal_tag p) (buffer p)
    (overflow_cells p).
Definition set_tag (p : PageInner) (t : Z) : PageInner :=
  mkPage (flags p) (pg_id p) (header_offset p) (pin_count p) t (buffer p)
    (overflow_cells p).
Definition set_pins (p : PageInner) (n : Z) : PageInner :=
  mkPage (flags p) (pg_id p) (header_offset p) n (wal_tag p) (buffer p)
    (overflow_cells p).

Definition flag_test (p : PageInner) (f : Z) : bool := negb (Z.land (flags p) f =? 0).
Definition flag_or (p : PageInner) (f : Z) : PageInner := set_flags p (Z.lor (flags p) f).
(** [fetch_and(!f)] on a 64-bit [usize] *)
Definition flag_clear (p : PageInner) (f : Z) : PageInner :=
  set_flags p (Z.land (flags p) (Z.lxor u64_max f)).

Definition clear_wal_tag (p : PageInner) : PageInner := set_tag p TAG_UNSET.

Definition is_locked (p : PageInner) : bool := flag_test p PAGE_LOCKED.
Definition set_locked (p : PageInner) : PageInner := flag_or p PAGE_LOCKED.
Definition clear_locked (p : PageInner) : PageInner := flag_clear p PAGE_LOCKED.

Definition is_dirty (p : PageInner) : bool := flag_test p PAGE_DIRTY.
Definition set_dirty (p : PageInner) : PageInner :=
  let p := clear_wal_tag p in
  let p := flag_clear p PAGE_SPILLED in
  flag_or p PAGE_DIRTY.
Definition clear_dirty (p : PageInner) : PageInner := clear_wal_tag (flag_clear p PAGE_DIRTY).

Definition is_spilled (p : PageInner) : bool := flag_test p PAGE_SPILLED.
Definition set_spilled (p : PageInner) : PageInner := flag_or p PAGE_SPILLED.
Definition clear_spilled (p : PageInner) : PageInner := flag_clear p PAGE_SPILLED.

Definition is_loaded (p : PageInner) : bool := flag_test p PAGE_LOADED.
Definition set_loaded (p : PageInner) : PageInner := flag_or p PAGE_LOADED.
Definition clear_loaded (p : PageInner) : PageInner := flag_clear p PAGE_LOADED.

(** ** Pins *)

Definition pin (p : PageInner) : PageInner := set_pins p (u64 (pin_count p + 1)).
Definition try_unpin (p : PageInner) : bool * PageInner :=
  if pin_count p =? 0 then (false, p) else (true, set_pins p (pin_count p - 1)).
Definition unpin (p : PageInner) : Result PageInner :=
  let '(was_pinned, p) := try_unpin p in
  _ ← turso_assert was_pinned;
  Ok p.
Definition is_pinned (p : PageInner) : bool := 0 <? pin_count p.

(** ** WAL tags *)

Definition EPOCH_BITS : Z := 20.
Definition FRAME_BITS : Z := 64 - EPOCH_BITS.
Definition EPOCH_SHIFT : Z := FRAME_BITS.
Definition EPOCH_MAX : Z := Z.shiftl 1 EPOCH_BITS - 1.
Definition FRAME_MAX : Z := Z.shiftl 1 FRAME_BITS - 1.

Definition pack_tag_pair (frame seq : Z) : Z :=
  Z.lor (u64 (Z.shiftl seq EPOCH_SHIFT)) (Z.land frame FRAME_MAX).
Definition unpack_tag_pair (tag : Z) : Z * Z :=
  let epoch := u32 (Z.land (Z.shiftr tag EPOCH_SHIFT) EPOCH_MAX) in
  let frame := Z.land tag FRAME_MAX in
  (frame, epoch).

Definition set_wal_tag (p : PageInner) (frame epoch : Z) : PageInner :=
  let e := Z.land epoch EPOCH_MAX in
  set_tag p (pack_tag_pair frame e).
Definition wal_tag_pair (p : PageInner) : Z * Z := unpack_tag_pair (wal_tag p).
Definition has_wal_tag (p : PageInner) : bool :=
  negb (wal_tag p =? TAG_UNSET) && negb (wal_tag p =? TAG_WRITE_PENDING).
Definition set_write_pending (p : PageInner) : PageInner := set_tag p TAG_WRITE_PENDING.

(** ** Spilling a page

    The pager marks a page before its frame is written, the completion of the write in
    [append_frames_vectored] of wal.rs stores the frame in the tag, and the pager then
    decides whether the page counts as spilled; pages of an ephemeral table are written
    to a temporary file instead. *)

Definition spill_begin (p : PageInner) : PageInner := set_write_pending p.
Definition frame_written (p : PageInner) (fid epoch : Z) : PageInner := set_wal_tag p fid epoch.
Definition finish_wal_spill (p : PageInner) : PageInner := if has_wal_tag p then set_spilled p else p.
Definition finish_ephemeral_spill (p : PageInner) : PageInner := if wal_tag p =? TAG_UNSET then p else clear_dirty p.

(** ** Sequences of operations *)

Inductive page_op :=
| OpSetLocked | OpClearLocked
| OpSetDirty | OpClearDirty
| OpSetSpilled | OpClearSpilled
| OpSetLoaded | OpClearLoaded
| OpPin | OpTryUnpin
| OpSetWalTag (frame epoch : Z) | OpClearWalTag | OpSetWritePending.

Definition run_page_op (p : PageInner) (o : page_op) : PageInner :=
  match o with
  | OpSetLocked => set_locked p
  | OpClearLocked => clear_locked p
  | OpSetDirty => set_dirty p
  | OpClearDirty => clear_dirty p
  | OpSetSpilled => set_spilled p
  | OpClearSpilled => clear_spilled p
  | OpSetLoaded => set_loaded p
  | OpClearLoaded => clear_loaded p
  | OpPin => pin p
  | OpTryUnpin => snd (try_unpin p)
  | OpSetWalTag f e => set_wal_tag p f e
  | OpClearWalTag => clear_wal_tag p
  | OpSetWritePending => set_write_pending p
  end.

(** ** The abstract page state *)

Inductive tag_state := TagUnset | TagPending | TagAt (frame epoch : Z).

Record page_state := mkPageState {
  ps_locked : bool;
  ps_dirty : bool;
  ps_spilled : bool;
  ps_loaded : bool;
  ps_pins : Z;
  ps_tag : tag_state
}.

Definition tag_abs (t : Z) : tag_state :=
  if t =? TAG_UNSET then TagUnset
  else if t =? TAG_WRITE_PENDING then TagPending
  else let '(f, e) := unpack_tag_pair t in TagAt f e.

Definition page_abs (p : PageInner) : page_state :=
  mkPageState (is_locked p) (is_dirty p) (is_spilled p) (is_loaded p) (pin_count p)
    (tag_abs (wal_tag p)).

Definition abs_op (s : page_state) (o : page_op) : page_state :=
  let '(mkPageState lk d sp ld n t) := s in
  match o with
  | OpSetLocked => mkPageState true d sp ld n t
  | OpClearLocked => mkPageState false d sp ld n t
  | OpSetDirty => mkPageState lk true false ld n TagUnset
  | OpClearDirty => mkPageState lk false sp ld n TagUnset
  | OpSetSpilled => mkPageState lk d true ld n t
  | OpClearSpilled => mkPageState lk d false ld n t
  | OpSetLoaded => mkPageState lk d sp true n t
  | OpClearLoaded => mkPageState lk d sp false n t
  | OpPin => mkPageState lk d sp ld (n + 1) t
  | OpTryUnpin => mkPageState lk d sp ld (if n =? 0 then 0 else n - 1) t
  | OpSetWalTag f e => mkPageState lk d sp ld n (TagAt f (e mod 2 ^ 20))
  | OpClearWalTag => mkPageState lk d sp ld n TagUnset
  | OpSetWritePending => mkPageState lk d sp ld n TagPending
  end.

(** The frame numbers whose tag is not a sentinel, for any epoch; the epoch
    argument is a [u32]. *)
Definition page_op_ok (o : page_op) : Prop :=
  match o with
  | OpSetWalTag f e => 0 <= f < 2 ^ 44 - 2 /\ is_u32 e
  | _ => True
  end.

(** ** Flag lemmas *)

Definition flag_bits : list Z := [1; 3; 4; 5].

Lemma flag_test_bit p k : 0 <= k -> flag_test p (Z.shiftl 1 k) = Z.testbit (flags p) k.
Proof. intros. unfold flag_test. rewrite mask_test, negb_involutive by done. done. Qed.

Lemma flag_or_bit p k j :
  0 <= k -> 0 <= j ->
  Z.testbit (flags (flag_or p (Z.shiftl 1 k))) j = Z.testbit (flags p) j || (j =? k).
Proof. intros. cbn. by apply set_bit_testbit. Qed.

Lemma flag_clear_bit p k j :
  is_u64 (flags p) -> 0 <= k < 64 -> 0 <= j ->
  Z.testbit (flags (flag_clear p (Z.shiftl 1 k))) j = Z.testbit (flags p) j && negb (j =? k).
Proof. intros. cbn. by apply andnot_testbit. Qed.

(** Flags other than the cleared one. *)
Lemma flag_clear_other p k j :
  0 <= k < 64 -> 0 <= j < 64 -> j <> k ->
  flag_test (flag_clear p (Z.shiftl 1 k)) (Z.shiftl 1 j) = flag_test p (Z.shiftl 1 j).
Proof.
  intros. rewrite !flag_test_bit by lia. cbn.
  rewrite Z.land_spec, Z.lxor_spec, Z.shiftl_1_l, Z.pow2_bits_false by lia.
  rewrite u64_max_ones, Z.ones_spec_low by lia. apply andb_true_r.
Qed.

Lemma flag_or_u64 p k : is_u64 (flags p) -> 0 <= k < 64 -> is_u64 (flags (flag_or p (Z.shiftl 1 k))).
Proof.
  intros Hw Hb. apply u64_of_bits.
  - cbn. apply Z.lor_nonneg. split; [unfold is_u64 in Hw; lia|]. apply Z.shiftl_nonneg. lia.
  - intros j Hj. rewrite flag_or_bit, u64_testbit_high by (done || lia).
    destruct (Z.eqb_spec j k); [lia|done].
Qed.

Lemma flag_clear_u64 p k :
  is_u64 (flags p) -> 0 <= k < 64 -> is_u64 (flags (flag_clear p (Z.shiftl 1 k))).
Proof.
  intros Hw Hb. apply u64_of_bits.
  - cbn. apply Z.land_nonneg. left. unfold is_u64 in Hw. lia.
  - intros j Hj. by rewrite flag_clear_bit, u64_testbit_high by (done || lia).
Qed.

(** ** Tag lemmas *)

Lemma pack_tag_eq f e :
  0 <= e -> pack_tag_pair f e = (e mod 2 ^ 20) * 2 ^ 44 + f mod 2 ^ 44.
Proof.
  intros He. unfold pack_tag_pair, EPOCH_SHIFT, FRAME_MAX, FRAME_BITS, EPOCH_BITS, u64.
  rewrite (land_mod 44) by done. rewrite Z.shiftl_mul_pow2 by lia.
  change 18446744073709551616 with (2 ^ 20 * 2 ^ 44).
  rewrite Z.mul_mod_distr_r by lia. change (64 - 20) with 44.
  apply lor_disjoint; [lia|]. apply Z.mod_pos_bound. lia.
Qed.

Lemma unpack_tag_eq f e :
  0 <= f < 2 ^ 44 -> 0 <= e < 2 ^ 20 -> unpack_tag_pair (e * 2 ^ 44 + f) = (f, e).
Proof.
  intros Hf He. unfold unpack_tag_pair, EPOCH_SHIFT, FRAME_MAX, EPOCH_MAX, FRAME_BITS, EPOCH_BITS.
  rewrite (land_mod 44 (Z.shiftl 1 (64 - 20) - 1)), (land_mod 20 (Z.shiftl 1 20 - 1)) by done.
  rewrite Z.shiftr_div_pow2 by done. change (64 - 20) with 44.
  rewrite Z.div_add_l, (Z.div_small f), Z.add_0_r, (Z.mod_small e) by lia.
  rewrite Z.add_comm, Z.mod_add, Z.mod_small by lia.
  unfold u32. rewrite Z.mod_small by lia. done.
Qed.

Lemma tag_abs_pack f e :
  0 <= f < 2 ^ 44 - 2 -> 0 <= e -> tag_abs (pack_tag_pair f e) = TagAt f (e mod 2 ^ 20).
Proof.
  intros Hf He. rewrite pack_tag_eq, (Z.mod_small f) by lia.
  pose proof (Z.mod_pos_bound e (2 ^ 20) ltac:(lia)).
  unfold tag_abs, TAG_UNSET, TAG_WRITE_PENDING, u64_max.
  set (x := e mod 2 ^ 20) in *.
  destruct (Z.eqb_spec (x * 2 ^ 44 + f) 18446744073709551615); [lia|].
  destruct (Z.eqb_spec (x * 2 ^ 44 + f) (18446744073709551615 - 1)); [lia|].
  rewrite unpack_tag_eq by lia. done.
Qed.

Lemma epoch_mask e : Z.land e EPOCH_MAX = e mod 2 ^ 20.
Proof. by apply (land_mod 20). Qed.

Lemma tag_abs_unset t : tag_abs t = TagUnset <-> t = TAG_UNSET.
Proof.
  unfold tag_abs. destruct (Z.eqb_spec t TAG_UNSET); [done|].
  split; [|done]. destruct (t =? _); [done|]. by destruct (unpack_tag_pair t).
Qed.

Lemma has_wal_tag_abs p :
  has_wal_tag p = match tag_abs (wal_tag p) with TagAt _ _ => true | _ => false end.
Proof.
  unfold has_wal_tag, tag_abs. destruct (wal_tag p =? TAG_UNSET); [done|].
  destruct (wal_tag p =? TAG_WRITE_PENDING); [done|]. by destruct (unpack_tag_pair _).
Qed.

Lemma wal_tag_pair_abs p f e :
  tag_abs (wal_tag p) = TagAt f e -> wal_tag_pair p = (f, e).
Proof.
  unfold tag_abs, wal_tag_pair. destruct (wal_tag p =? TAG_UNSET); [done|].
  destruct (wal_tag p =? TAG_WRITE_PENDING); [done|].
  destruct (unpack_tag_pair _). congruence.
Qed.

(** ** Refinement *)

(** A page whose flag word and pin count are machine words, with room for
    another pin. *)
Definition page_wf (p : PageInner) : Prop :=
  is_u64 (flags p) /\ 0 <= pin_count p < u64_max.

Lemma page_abs_bits p :
  page_abs p = mkPageState (Z.testbit (flags p) 1) (Z.testbit (flags p) 3)
    (Z.testbit (flags p) 5) (Z.testbit (flags p) 4) (pin_count p) (tag_abs (wal_tag p)).
Proof.
  unfold page_abs, is_locked, is_dirty, is_spilled, is_loaded.
  change PAGE_LOCKED with (Z.shiftl 1 1). change PAGE_DIRTY with (Z.shiftl 1 3).
  change PAGE_SPILLED with (Z.shiftl 1 5). change PAGE_LOADED with (Z.shiftl 1 4).
  by rewrite !flag_test_bit.
Qed.

Ltac flag_case k :=
  rewrite !page_abs_bits;
  first [ rewrite !(flag_or_bit _ k) by lia | rewrite !(flag_clear_bit _ k) by (done || lia) ];
  cbn; rewrite ?orb_false_r, ?orb_true_r, ?andb_true_r, ?andb_false_r; done.

Lemma run_page_op_abs p o :
  page_wf p -> page_op_ok o -> page_abs (run_page_op p o) = abs_op (page_abs p) o.
Proof.
  intros [Hf Hp] Ho. destruct o as [| | | | | | | | | |f e| |]; cbn [run_page_op].
  - unfold set_locked. change PAGE_LOCKED with (Z.shiftl 1 1). flag_case 1.
  - unfold clear_locked. change PAGE_LOCKED with (Z.shiftl 1 1). flag_case 1.
  - unfold set_dirty. change PAGE_SPILLED with (Z.shiftl 1 5). change PAGE_DIRTY with (Z.shiftl 1 3).
    rewrite !page_abs_bits, !(flag_or_bit _ 3), !(flag_clear_bit _ 5) by (done || lia).
    cbn. rewrite ?orb_false_r, ?orb_true_r, ?andb_true_r, ?andb_false_r. done.
  - unfold clear_dirty, clear_wal_tag. change PAGE_DIRTY with (Z.shiftl 1 3).
    rewrite !page_abs_bits. cbn [flags set_tag pin_count wal_tag].
    rewrite !(flag_clear_bit _ 3) by (done || lia).
    cbn. rewrite ?andb_true_r, ?andb_false_r. done.
  - unfold set_spilled. change PAGE_SPILLED with (Z.shiftl 1 5). flag_case 5.
  - unfold clear_spilled. change PAGE_SPILLED with (Z.shiftl 1 5). flag_case 5.
  - unfold set_loaded. change PAGE_LOADED with (Z.shiftl 1 4). flag_case 4.
  - unfold clear_loaded. change PAGE_LOADED with (Z.shiftl 1 4). flag_case 4.
  - rewrite !page_abs_bits. cbn. f_equal. unfold u64. apply Z.mod_small.
    unfold u64_max in Hp. lia.
  - rewrite !page_abs_bits. unfold try_unpin. cbn [abs_op].
    destruct (Z.eqb_spec (pin_count p) 0) as [E|E]; cbn; by rewrite ?E.
  - destruct Ho as [? He]. rewrite !page_abs_bits. cbn. f_equal.
    rewrite epoch_mask, tag_abs_pack by (unfold is_u32 in He; try lia; apply Z.mod_pos_bound; lia).
    by rewrite Z.mod_mod.
  - by rewrite !page_abs_bits.
  - by rewrite !page_abs_bits.
Qed.

Lemma run_page_op_flags p o : is_u64 (flags p) -> is_u64 (flags (run_page_op p o)).
Proof.
  intros Hf. destruct o; cbn [run_page_op]; try done;
    try (by apply (flag_or_u64 p 1)); try (by apply (flag_clear_u64 p 1));
    try (by apply (flag_or_u64 p 5)); try (by apply (flag_clear_u64 p 5));
    try (by apply (flag_or_u64 p 4)); try (by apply (flag_clear_u64 p 4));
    try (by apply (flag_clear_u64 p 3)).
  - unfold set_dirty. apply (flag_or_u64 _ 3); [|done].
    by apply (flag_clear_u64 (clear_wal_tag p) 5).
  - unfold try_unpin. by destruct (pin_count p =? 0).
Qed.

Lemma run_page_op_pins p o :
  0 <= pin_count p < u64_max -> 0 <= pin_count (run_page_op p o) <= pin_count p + 1.
Proof.
  intros Hp. destruct o; cbn [run_page_op]; try (cbn; lia).
  - cbn. unfold u64, u64_max in *. rewrite Z.mod_small by lia. lia.
  - unfold try_unpin. destruct (Z.eqb_spec (pin_count p) 0); cbn; lia.
Qed.

Lemma run_page_ops_abs ops : forall p,
  is_u64 (flags p) -> 0 <= pin_count p -> pin_count p + lenZ ops < u64_max ->
  Forall page_op_ok ops ->
  page_abs (foldl run_page_op p ops) = foldl abs_op (page_abs p) ops.
Proof.
  induction ops as [|o ops IH]; intros p Hf H0 Hn Hok; [done|].
  apply Forall_cons in Hok as [Ho Hok]. cbn [foldl]. unfold lenZ in *. cbn [length] in Hn.
  pose proof (run_page_op_pins p o ltac:(lia)).
  rewrite IH; [|by apply run_page_op_flags|lia|lia|done].
  rewrite run_page_op_abs; [done|split; [done|lia]|done].
Qed.

(** Operations that do not store a frame or the pending marker in the tag. *)
Definition no_tag_store (o : page_op) : bool :=
  match o with OpSetWalTag _ _ | OpSetWritePending => false | _ => true end.

(** Operations that invalidate the tag. *)
Definition invalidates (o : page_op) : bool :=
  match o with OpSetDirty | OpClearDirty | OpClearWalTag => true | _ => false end.

Lemma abs_tag_foldl ops : forall s,
  forallb no_tag_store ops = true ->
  ps_tag (foldl abs_op s ops) = if existsb invalidates ops then TagUnset else ps_tag s.
Proof.
  induction ops as [|o ops IH]; intros s Hs; [done|].
  cbn in Hs |- *. apply andb_true_iff in Hs as [Ho Hs]. rewrite IH by done.
  destruct s, o; try done; cbn; by destruct (existsb _ ops).
Qed.


Lemma run_page_ops_flags ops : forall p, is_u64 (flags p) -> is_u64 (flags (foldl run_page_op p ops)).
Proof. induction ops as [|o ops IH]; intros p Hp; [done|]. by apply IH, run_page_op_flags. Qed.


(** ** Properties *)

(** The flag word, the pin count and the packed WAL tag implement
    independent components: after any sequence of page operations, the locked,
    dirty, spilled and loaded flags, the number of pins and the tag (unset,
    write pending, or a frame with its epoch) are what the operations say, and no
    operation disturbs another component by its bit arithmetic. *)
Theorem page_ops_refine p ops
    (Hf : is_u64 (flags p)) (Hp : 0 <= pin_count p)
    (Hn : pin_count p + lenZ ops < u64_max) (Hok : Forall page_op_ok ops) :
  page_abs (foldl run_page_op p ops) = foldl abs_op (page_abs p) ops.
Proof. by apply run_page_ops_abs. Qed.

Lemma page_ops_refine_witness :
  page_abs (foldl run_page_op (page_unloaded 7)
    [OpSetLoaded; OpPin; OpSetDirty; OpSetWritePending; OpSetWalTag 9 3; OpSetSpilled]) =
  mkPageState false true true true 1 (TagAt 9 3).
Proof.
  rewrite (page_ops_refine (page_unloaded 7)
    [OpSetLoaded; OpPin; OpSetDirty; OpSetWritePending; OpSetWalTag 9 3; OpSetSpilled]).
  - vm_compute. reflexivity.
  - done.
  - done.
  - done.
  - repeat apply Forall_cons_2; try apply Forall_nil_2; done.
Defined.



(** Spilling to the log does not notice that a page was modified during the write,
    spilling to a temporary file does.  Whatever happens to the page between the
    beginning of the spill and its completion: when the completion of the log write
    has stored the frame, the page is marked as spilled, so that it may be evicted
    although it is dirty with changes that are not in the frame.  After a write to a
    temporary file the page stays as it is exactly when it was made dirty or its tag
    was cleared since, and otherwise becomes clean. *)
Lemma spill_ignores_modification p ops f e
    (Hf : is_u64 (flags p)) (Hp : 0 <= pin_count p)
    (Hn : pin_count p + lenZ ops < u64_max) (Hok : Forall page_op_ok ops)
    (Hs : forallb no_tag_store ops = true) (Hfr : 0 <= f < 2 ^ 44 - 2) (He : is_u32 e) :
  let q := foldl run_page_op (spill_begin p) ops in
  (is_spilled (finish_wal_spill (frame_written q f e)) = true /\
   is_dirty (finish_wal_spill (frame_written q f e)) = is_dirty q) /\
  finish_ephemeral_spill q = if existsb invalidates ops then q else clear_dirty q.
Proof.
  intros q.
  assert (is_u64 (flags q) /\ page_abs q = foldl abs_op (page_abs (spill_begin p)) ops) as [Hqf Hq].
  { split; [by apply run_page_ops_flags|]. by apply run_page_ops_abs. }
  split.
  - unfold finish_wal_spill. rewrite has_wal_tag_abs.
    assert (tag_abs (wal_tag (frame_written q f e)) = TagAt f (e mod 2 ^ 20)) as ->.
    { unfold frame_written, set_wal_tag. cbn [wal_tag set_tag]. rewrite epoch_mask, tag_abs_pack by (unfold is_u32 in He; try lia; apply Z.mod_pos_bound; lia).
      by rewrite Z.mod_mod. }
    unfold is_spilled, is_dirty, set_spilled. change PAGE_SPILLED with (Z.shiftl 1 5). change PAGE_DIRTY with (Z.shiftl 1 3).
    rewrite !flag_test_bit, !flag_or_bit by lia. rewrite orb_true_r, orb_false_r. done.
  - unfold finish_ephemeral_spill. pose proof (abs_tag_foldl ops (page_abs (spill_begin p)) Hs) as Ht. rewrite <- Hq in Ht.
    cbn [page_abs ps_tag] in Ht. destruct (Z.eqb_spec (wal_tag q) TAG_UNSET) as [E|E]; rewrite <- tag_abs_unset, Ht in E;
      by destruct (existsb invalidates ops).
Qed.

Lemma spill_ignores_modification_witness :
  is_spilled (finish_wal_spill (frame_written (foldl run_page_op (spill_begin (page_unloaded 4)) [OpPin; OpSetDirty]) 12 1)) = true /\
  finish_ephemeral_spill (foldl run_page_op (spill_begin (page_unloaded 4)) [OpPin; OpSetDirty]) =
    foldl run_page_op (spill_begin (page_unloaded 4)) [OpPin; OpSetDirty].
Proof.
  destruct (spill_ignores_modification (page_unloaded 4) [OpPin; OpSetDirty] 12 1 ltac:(done) ltac:(done) ltac:(done)
    ltac:(by repeat apply Forall_cons_2) ltac:(done) ltac:(lia) ltac:(done)) as [[H _] H2].
  split; [exact H|exact H2].
Defined.

(** C36: [set_wal_tag] keeps the low 44 bits of the frame and the low 20 bits of
    the epoch: every frame and epoch in these ranges round-trips, and a frame
    past the range is stored as a different valid frame, not as [TAG_UNSET]. *)
Theorem set_wal_tag_truncates p f e
    (Hf : 0 <= f) (He : is_u32 e) :
  wal_tag_pair (set_wal_tag p f e) = (f mod 2 ^ 44, e mod 2 ^ 20) /\
  (f mod 2 ^ 44 < 2 ^ 44 - 2 -> has_wal_tag (set_wal_tag p f e) = true).
Proof.
  unfold set_wal_tag. rewrite epoch_mask.
  pose proof (Z.mod_pos_bound e (2 ^ 20) ltac:(lia)).
  pose proof (Z.mod_pos_bound f (2 ^ 44) ltac:(lia)).
  rewrite pack_tag_eq, Z.mod_mod by lia. unfold wal_tag_pair. cbn [wal_tag set_tag].
  split; [by apply unpack_tag_eq|]. intros Hlt. rewrite has_wal_tag_abs. cbn [wal_tag set_tag].
  pose proof (tag_abs_pack (f mod 2 ^ 44) (e mod 2 ^ 20) ltac:(lia) ltac:(lia)) as Ht.
  rewrite pack_tag_eq, !Z.mod_mod in Ht by lia. by rewrite Ht.
Qed.

Lemma set_wal_tag_truncates_witness :
  wal_tag_pair (set_wal_tag (page_unloaded 2) (2 ^ 44 + 5) 1) = (5, 1) /\
  has_wal_tag (set_wal_tag (page_unloaded 2) (2 ^ 44 + 5) 1) = true.
Proof.
  destruct (set_wal_tag_truncates (page_unloaded 2) (2 ^ 44 + 5) 1 ltac:(lia) ltac:(done))
    as [H1 H2].
  split; [rewrite H1; reflexivity|]. apply H2. reflexivity.
Defined.
