(* ===== verification/PageCache.v ===== *)
(** * The page cache

    Models core/storage/page_cache.rs: [PageCache], a hash map from page
    numbers to entries of an intrusive circular queue that a SIEVE clock hand
    sweeps for eviction.  Entries are boxes reached through raw pointers: an
    address is an integer, [entries] holds the live boxes, and following a
    pointer to a box that is not live, or a queue cursor for an entry that is
    not in the queue, is [CPanic].  A page is shared: [pages] is the store of
    the pages behind the [PageRef]s, with the strong count of each.  The
    iteration order of the hash map is the parameter [hash_order].

    Errors are values of the monad [M], which keeps the state changes that
    happened before an error. *)

From stdpp Require Import gmap.
From S2P Require Import Prelude Page.

(** ** State *)

Definition DEFAULT_PAGE_CACHE_SIZE_IN_PAGES : Z := 2000.
Definition MINIMUM_PAGE_CACHE_SIZE_IN_PAGES : Z := 200.
Definition DEFAULT_SPILL_THRESHOLD_PERCENT : Z := 90.

Definition CLEAR : Z := 0.
Definition REF_MAX : Z := 3.

(** The page number of the database header page. *)
Definition HEADER_PAGE_ID : Z := 1.

Record PageCacheEntry := mkEntry {
  e_key : Z;
  e_page : Z;
  e_ref_bit : Z
}.

Definition entry_new (key page : Z) : PageCacheEntry := mkEntry key page CLEAR.
Definition bump_ref (e : PageCacheEntry) : PageCacheEntry :=
  mkEntry (e_key e) (e_page e) (Z.min (e_ref_bit e + 1) REF_MAX).
Definition decrement_ref (e : PageCacheEntry) : PageCacheEntry :=
  mkEntry (e_key e) (e_page e) (saturating_sub (e_ref_bit e) 1).

Inductive CacheError :=
| CacheInternalError
| Locked (pgno : Z)
| Dirty (pgno : Z)
| Pinned (pgno : Z)
| Full
| KeyExists.

#[global] Instance CacheError_eq_dec : EqDecision CacheError.
Proof. solve_decision. Defined.

Inductive CacheResizeResult := ResizeDone | PendingEvictions.

(** The pages to spill are named by their references. *)
Inductive SpillResult :=
| NotNeeded
| Disabled
| PagesToSpill (ps : list Z)
| SpillCacheFull.

Record PageCache := mkCache {
  capacity : Z;
  map : gmap Z Z;
  queue : list Z;
  clock_hand : option Z;
  spill_threshold : Z;
  spill_enabled : bool;
  evictable_count : Z
}.

(** A page behind a [PageRef] and its strong count. *)
Record page_cell := mkCell { c_page : PageInner; c_strong : Z }.

(** The cache, the boxes of its queue, the pages, and the next box address. *)
Record world := mkWorld {
  cache : PageCache;
  entries : gmap Z PageCacheEntry;
  pages : gmap Z page_cell;
  next_addr : Z
}.

(** [PageCache::new_with_spill] *)
Definition cache_new_with_spill (cap : Z) (enabled : bool) : PageCache :=
  let threshold := cap * DEFAULT_SPILL_THRESHOLD_PERCENT / 100 in
  mkCache cap ∅ [] None (Z.max threshold 1) enabled 0.

Definition cache_new (cap : Z) : PageCache := cache_new_with_spill cap true.

(** ** The monad of cache operations *)

Inductive cres (A : Type) :=
| COk (w : world) (a : A)
| CErr (w : world) (e : CacheError)
| CPanic.
Arguments COk {A}.
Arguments CErr {A}.
Arguments CPanic {A}.

Definition M (A : Type) : Type := world -> cres A.

#[global] Instance M_ret : MRet M := fun A a w => COk w a.
#[global] Instance M_bind : MBind M := fun A B f m w =>
  match m w with
  | COk w' a => f a w'
  | CErr w' e => CErr w' e
  | CPanic => CPanic
  end.

Definition throw {A} (e : CacheError) : M A := fun w => CErr w e.
Definition panic {A} : M A := fun _ => CPanic.
Definition gets {A} (f : world -> A) : M A := fun w => COk w (f w).
Definition modify (f : world -> world) : M unit := fun w => COk (f w) tt.
Definition m_assert (b : bool) : M unit := if b then mret tt else panic.

Definition with_cache (f : PageCache -> PageCache) (w : world) : world :=
  mkWorld (f (cache w)) (entries w) (pages w) (next_addr w).
Definition with_entries (f : gmap Z PageCacheEntry -> gmap Z PageCacheEntry) (w : world) : world :=
  mkWorld (cache w) (f (entries w)) (pages w) (next_addr w).
Definition with_pages (f : gmap Z page_cell -> gmap Z page_cell) (w : world) : world :=
  mkWorld (cache w) (entries w) (f (pages w)) (next_addr w).

Definition set_map (m : gmap Z Z) (c : PageCache) : PageCache :=
  mkCache (capacity c) m (queue c) (clock_hand c) (spill_threshold c) (spill_enabled c)
    (evictable_count c).
Definition set_queue (q : list Z) (c : PageCache) : PageCache :=
  mkCache (capacity c) (map c) q (clock_hand c) (spill_threshold c) (spill_enabled c)
    (evictable_count c).
Definition set_hand (h : option Z) (c : PageCache) : PageCache :=
  mkCache (capacity c) (map c) (queue c) h (spill_threshold c) (spill_enabled c)
    (evictable_count c).
Definition set_count (n : Z) (c : PageCache) : PageCache :=
  mkCache (capacity c) (map c) (queue c) (clock_hand c) (spill_threshold c) (spill_enabled c) n.
Definition set_capacity (n th : Z) (c : PageCache) : PageCache :=
  mkCache n (map c) (queue c) (clock_hand c) th (spill_enabled c) (evictable_count c).
Definition set_spill_enabled (b : bool) (c : PageCache) : PageCache :=
  mkCache (capacity c) (map c) (queue c) (clock_hand c) (spill_threshold c) b
    (evictable_count c).

(** Following an entry pointer and a page reference. *)
Definition deref (a : Z) : M PageCacheEntry := fun w =>
  match entries w !! a with Some e => COk w e | None => CPanic end.
Definition page_of (r : Z) : M page_cell := fun w =>
  match pages w !! r with Some p => COk w p | None => CPanic end.
Definition put_entry (a : Z) (e : PageCacheEntry) : M unit := modify (with_entries <[a := e]>).
Definition put_page (r : Z) (p : PageInner) : M unit :=
  modify (with_pages (alter (fun c => mkCell p (c_strong c)) r)).
(** Cloning and dropping a [PageRef]. *)
Definition clone_ref (r : Z) : M unit :=
  modify (with_pages (alter (fun c => mkCell (c_page c) (c_strong c + 1)) r)).
Definition drop_ref (r : Z) : M unit :=
  modify (with_pages (alter (fun c => mkCell (c_page c) (c_strong c - 1)) r)).

(** ** The queue *)

(** The entry after [a]; [Some None] at the end, [None] when [a] is absent. *)
Fixpoint next_in (q : list Z) (a : Z) : option (option Z) :=
  match q with
  | [] => None
  | x :: q' => if x =? a then Some (head q') else next_in q' a
  end.

Fixpoint insert_after (q : list Z) (a x : Z) : option (list Z) :=
  match q with
  | [] => None
  | y :: q' => if y =? a then Some (y :: x :: q') else cons y <$> insert_after q' a x
  end.

Fixpoint remove_from (q : list Z) (a : Z) : option (list Z) :=
  match q with
  | [] => None
  | y :: q' => if y =? a then Some q' else cons y <$> remove_from q' a
  end.

Definition advance_clock_hand : M unit :=
  c ← gets cache;
  match clock_hand c with
  | None => mret tt
  | Some a =>
      match next_in (queue c) a with
      | None => panic
      | Some (Some b) => modify (with_cache (set_hand (Some b)))
      | Some None => modify (with_cache (set_hand (head (queue c))))
      end
  end.

(** [cursor_mut_from_ptr(a)] and [remove()], which drops the box. *)
Definition queue_remove (a : Z) : M unit :=
  c ← gets cache;
  e ← deref a;
  match remove_from (queue c) a with
  | None => panic
  | Some q =>
      _ ← modify (with_cache (set_queue q));
      _ ← modify (with_entries (delete a));
      drop_ref (e_page e)
  end.

Definition len (c : PageCache) : Z := Z.of_nat (size (map c)).

Definition contains_key (c : PageCache) (key : Z) : bool := bool_decide (is_Some (map c !! key)).

(** ** Eviction *)

Definition evictable (p : page_cell) : bool :=
  (negb (is_dirty (c_page p)) || is_spilled (c_page p)) && negb (is_locked (c_page p)) &&
  negb (is_pinned (c_page p)) && negb (pg_id (c_page p) =? HEADER_PAGE_ID) &&
  (c_strong p =? 1).

Definition counted_as_evictable (p : page_cell) : bool :=
  if pg_id (c_page p) =? HEADER_PAGE_ID then false
  else negb (is_dirty (c_page p)) || is_spilled (c_page p).

Definition spillable (p : page_cell) : bool :=
  is_dirty (c_page p) && negb (is_spilled (c_page p)) && negb (is_locked (c_page p)) &&
  negb (is_pinned (c_page p)) && (c_strong p =? 1) &&
  negb (pg_id (c_page p) =? HEADER_PAGE_ID) &&
  match overflow_cells (c_page p) with [] => true | _ => false end.

Definition count_minus_one (c : PageCache) : PageCache :=
  set_count (saturating_sub (evictable_count c) 1) c.
Definition count_plus_one (c : PageCache) : PageCache := set_count (evictable_count c + 1) c.

(** [page.clear_loaded(); page.get().take_buffer()] *)
Definition clean_page_ref (r : Z) : M unit :=
  p ← page_of r;
  put_page r (take_buffer (clear_loaded (c_page p))).

(** The sweep of [evict_one]; [k] is [max_examinations - examined]. *)
Fixpoint evict_loop (k : nat) : M unit :=
  match k with
  | O => throw Full
  | S k' =>
      c ← gets cache;
      match clock_hand c with
      | None => panic
      | Some a =>
          e ← deref a;
          p ← page_of (e_page e);
          if evictable p && (e_ref_bit e =? CLEAR) then
            _ ← m_assert (counted_as_evictable p);
            _ ← advance_clock_hand;
            c ← gets cache;
            _ ← (if decide (clock_hand c = Some a)
                 then modify (with_cache (set_hand None)) else mret tt);
            _ ← modify (with_cache (fun c => set_map (delete (e_key e) (map c)) c));
            _ ← clean_page_ref (e_page e);
            _ ← queue_remove a;
            modify (with_cache count_minus_one)
          else if evictable p then
            _ ← put_entry a (decrement_ref e);
            _ ← advance_clock_hand;
            evict_loop k'
          else
            _ ← advance_clock_hand;
            evict_loop k'
      end
  end.

Definition evict_one : M unit :=
  c ← gets cache;
  if len c =? 0 then throw CacheInternalError
  else evict_loop (Z.to_nat (len c * (REF_MAX + 1))).

(** [while self.len() > target_len]; [k] bounds the evictions. *)
Fixpoint make_room_loop (k : nat) (target_len : Z) : M unit :=
  c ← gets cache;
  if target_len <? len c then
    match k with
    | O => panic
    | S k' => _ ← evict_one; make_room_loop k' target_len
    end
  else mret tt.

Definition make_room_for (n : Z) (bypass_capacity : bool) : M unit :=
  if bypass_capacity then mret tt
  else
    c ← gets cache;
    if capacity c <? n then throw Full
    else make_room_loop (size (map c)) (capacity c - n).

(** ** Deletion *)

(** [_delete] *)
Definition delete_entry (key : Z) (clean_page : bool) : M unit :=
  c ← gets cache;
  match map c !! key with
  | None => mret tt
  | Some a =>
      e ← deref a;
      p ← page_of (e_page e);
      let pg := c_page p in
      if is_locked pg then throw (Locked (pg_id pg))
      else if is_dirty pg then throw (Dirty (pg_id pg))
      else if is_pinned pg then throw (Pinned (pg_id pg))
      else
        let was_evictable := counted_as_evictable p in
        _ ← (if clean_page then clean_page_ref (e_page e) else mret tt);
        _ ← modify (with_cache (fun c => set_map (delete key (map c)) c));
        c ← gets cache;
        _ ← (if decide (clock_hand c = Some a) then
               _ ← advance_clock_hand;
               c ← gets cache;
               if decide (clock_hand c = Some a)
               then modify (with_cache (set_hand None)) else mret tt
             else mret tt);
        _ ← queue_remove a;
        if was_evictable then modify (with_cache count_minus_one) else mret tt
  end.

Definition cache_delete (key : Z) : M unit := delete_entry key true.

(** ** Insertion *)

(** The part of [_insert] that adds a fresh entry. *)
Definition insert_fresh (key value : Z) (bypass_capacity : bool) : M unit :=
  _ ← make_room_for 1 bypass_capacity;
  p ← page_of value;
  let is_evictable := counted_as_evictable p in
  a ← gets next_addr;
  _ ← modify (fun w => mkWorld (cache w) (<[a := entry_new key value]> (entries w)) (pages w) (a + 1));
  c ← gets cache;
  _ ← match clock_hand c with
      | None =>
          modify (with_cache (fun c =>
            set_hand (Some a) (set_map (<[key := a]> (map c)) (set_queue (queue c ++ [a]) c))))
      | Some h =>
          match insert_after (queue c) h a with
          | None => panic
          | Some q =>
              modify (with_cache (fun c => set_map (<[key := a]> (map c)) (set_queue q c)))
          end
      end;
  if is_evictable then modify (with_cache count_plus_one) else mret tt.

(** The argument [value] is owned: on an error it is dropped. *)
Definition or_drop {A} (value : Z) (m : M A) : M A := fun w =>
  match m w with
  | CErr w' e => CErr (with_pages (alter (fun c => mkCell (c_page c) (c_strong c - 1)) value) w') e
  | r => r
  end.

(** [_insert] *)
Definition insert_impl (key value : Z) (update_in_place bypass_capacity : bool) : M unit :=
  or_drop value (
    c ← gets cache;
    match map c !! key with
    | Some a =>
        e ← deref a;
        p ← page_of (e_page e);
        if negb (is_loaded (c_page p)) && negb (is_locked (c_page p)) then
          _ ← delete_entry key true;
          insert_fresh key value bypass_capacity
        else
          let e := bump_ref e in
          _ ← put_entry a e;
          if update_in_place then
            v ← page_of value;
            let old_evictable := counted_as_evictable p in
            let new_evictable := counted_as_evictable v in
            _ ← (if old_evictable && negb new_evictable
                 then modify (with_cache count_minus_one)
                 else if negb old_evictable && new_evictable
                 then modify (with_cache count_plus_one) else mret tt);
            _ ← put_entry a (mkEntry (e_key e) value (e_ref_bit e));
            drop_ref (e_page e)
          else
            _ ← m_assert (e_page e =? value);
            throw KeyExists
    | None => insert_fresh key value bypass_capacity
    end).

Definition cache_insert (key value : Z) : M unit := insert_impl key value false false.
Definition upsert_page (key value : Z) : M unit := insert_impl key value true false.

(** [match first { Err(CacheError::Full) => second, result => result }]: the
    clone of [value] is consumed by the first attempt, [value] itself by the
    second or at the end of the function. *)
Definition or_when_full (value : Z) (first second : M unit) : M unit := fun w =>
  match first w with
  | COk w' _ => drop_ref value w'
  | CErr w' Full => second w'
  | CErr w' e => (_ ← drop_ref value; throw e) w'
  | CPanic => CPanic
  end.

Definition force_upsert_page (key value : Z) : M unit :=
  _ ← clone_ref value;
  or_when_full value (upsert_page key value) (insert_impl key value true true).

Definition force_insert_page (key value : Z) : M unit :=
  _ ← clone_ref value;
  or_when_full value (cache_insert key value) (insert_impl key value false true).

(** ** Lookup *)

(** A returned page is a new reference. *)
Definition cache_get (key : Z) : M (option Z) :=
  c ← gets cache;
  match map c !! key with
  | None => mret None
  | Some a =>
      e ← deref a;
      let page := e_page e in
      _ ← clone_ref page;
      p ← page_of page;
      if negb (is_loaded (c_page p)) && negb (is_locked (c_page p)) then
        _ ← or_drop page (cache_delete key);
        _ ← drop_ref page;
        mret None
      else
        _ ← put_entry a (bump_ref e);
        mret (Some page)
  end.

Definition peek (key : Z) (touch : bool) : M (option Z) :=
  c ← gets cache;
  match map c !! key with
  | None => mret None
  | Some a =>
      e ← deref a;
      _ ← clone_ref (e_page e);
      _ ← (if touch then put_entry a (bump_ref e) else mret tt);
      mret (Some (e_page e))
  end.

(** ** Resizing and spilling *)

Fixpoint resize_loop (k : nat) (new_cap : Z) : M CacheResizeResult := fun w =>
  if new_cap <? len (cache w) then
    match k with
    | O => CPanic
    | S k' =>
        match evict_one w with
        | COk w' _ => resize_loop k' new_cap w'
        | CErr w' _ => COk w' PendingEvictions
        | CPanic => CPanic
        end
    end
  else
    COk (with_cache (set_capacity new_cap
           (Z.max (new_cap * DEFAULT_SPILL_THRESHOLD_PERCENT / 100) 1)) w) ResizeDone.

Definition resize (new_cap : Z) : M CacheResizeResult :=
  c ← gets cache;
  if new_cap =? capacity c then mret ResizeDone
  else resize_loop (size (map c)) new_cap.

(** [notify_page_dirty] and [notify_page_spilled] *)
Definition notify_with (f : PageCache -> PageCache) (key : Z) : M unit :=
  c ← gets cache;
  match map c !! key with
  | None => mret tt
  | Some a =>
      e ← deref a;
      p ← page_of (e_page e);
      if negb (pg_id (c_page p) =? HEADER_PAGE_ID) then modify (with_cache f) else mret tt
  end.
Definition notify_page_dirty (key : Z) : M unit := notify_with count_minus_one key.
Definition notify_page_spilled (key : Z) : M unit := notify_with count_plus_one key.

(** ** Operations that iterate over the map *)

(** The pages of a list of keys, in order. *)
Fixpoint pages_at (keys : list Z) : M (list (Z * page_cell)) :=
  match keys with
  | [] => mret []
  | k :: keys' =>
      c ← gets cache;
      match map c !! k with
      | None => panic
      | Some a =>
          e ← deref a;
          p ← page_of (e_page e);
          rest ← pages_at keys';
          mret ((e_page e, p) :: rest)
      end
  end.

Section Iteration.
Context (hash_order : gmap Z Z -> list Z).

Definition count_evictable_pages : M Z :=
  c ← gets cache;
  ps ← pages_at (hash_order (map c));
  mret (lenZ (List.filter (fun rp => evictable (snd rp)) ps)).

Definition needs_spill : M bool :=
  c ← gets cache;
  let n := len c in
  if (n <? spill_threshold c) || negb (spill_enabled c) then mret false
  else
    let needed_evictable := saturating_sub n (spill_threshold c) in
    let empty_slots := saturating_sub (capacity c) n in
    let available_room := Z.min (evictable_count c + empty_slots) u64_max in
    if needed_evictable <=? available_room then mret false
    else
      n ← count_evictable_pages;
      mret (n <? needed_evictable).

(** The first [max] spillable pages in iteration order. *)
Fixpoint take_spillable (max : Z) (ps : list (Z * page_cell)) (acc : list (Z * page_cell))
    : list (Z * page_cell) :=
  match ps with
  | [] => acc
  | rp :: ps' =>
      let acc := if spillable (snd rp) then acc ++ [rp] else acc in
      if max <=? lenZ acc then acc else take_spillable max ps' acc
  end.

(** Stable insertion sort by page number. *)
Fixpoint sort_insert (x : Z * page_cell) (l : list (Z * page_cell)) : list (Z * page_cell) :=
  match l with
  | [] => [x]
  | y :: l' =>
      if pg_id (c_page (snd x)) <=? pg_id (c_page (snd y)) then x :: l
      else y :: sort_insert x l'
  end.
Definition sort_by_id (l : list (Z * page_cell)) : list (Z * page_cell) :=
  foldr sort_insert [] l.

(** Collecting a page pins it and holds a reference ([PinGuard::new]). *)
Fixpoint pin_all (rs : list Z) : M unit :=
  match rs with
  | [] => mret tt
  | r :: rs' =>
      _ ← clone_ref r;
      p ← page_of r;
      _ ← put_page r (pin (c_page p));
      pin_all rs'
  end.

Definition collect_spillable_pages (max_pages : Z) : M (list Z) :=
  c ← gets cache;
  if negb (spill_enabled c) || (max_pages =? 0) then mret []
  else
    ps ← pages_at (hash_order (map c));
    let rs := fst <$> sort_by_id (take_spillable max_pages ps []) in
    _ ← pin_all rs;
    mret rs.

Definition check_spill (max_pages : Z) : M SpillResult :=
  b ← needs_spill;
  if negb b then mret NotNeeded
  else
    ps ← collect_spillable_pages max_pages;
    match ps with
    | [] => mret SpillCacheFull
    | _ => mret (PagesToSpill ps)
    end.

(** [clean_page_ref] on a list of pages. *)
Fixpoint clean_all (rs : list Z) : M unit :=
  match rs with
  | [] => mret tt
  | r :: rs' => _ ← clean_page_ref r; clean_all rs'
  end.

(** Dropping the queue drops every box and its page reference. *)
Fixpoint drop_all (rs : list Z) : M unit :=
  match rs with
  | [] => mret tt
  | r :: rs' => _ ← drop_ref r; drop_all rs'
  end.

Definition cache_clear (clear_dirty : bool) : M unit :=
  c ← gets cache;
  ps ← pages_at (hash_order (map c));
  match List.find (fun rp => is_dirty (c_page (snd rp)) && negb clear_dirty) ps with
  | Some rp => throw (Dirty (pg_id (c_page (snd rp))))
  | None =>
      _ ← clean_all (fst <$> ps);
      _ ← modify (with_cache (set_map ∅));
      _ ← modify (fun w => mkWorld (set_queue [] (cache w)) ∅ (pages w) (next_addr w));
      _ ← drop_all (fst <$> ps);
      _ ← modify (with_cache (set_hand None));
      modify (with_cache (set_count 0))
  end.

Fixpoint delete_keys (keys : list Z) : M unit :=
  match keys with
  | [] => mret tt
  | k :: keys' => _ ← cache_delete k; delete_keys keys'
  end.

Definition truncate (max_page_num : Z) : M unit :=
  c ← gets cache;
  delete_keys (List.filter (fun k => max_page_num <? k) (hash_order (map c))).

(** Keys of clean pages read from a WAL frame after [max_frame]. *)
Definition keys_after_frame (keys : list Z) (ps : list (Z * page_cell)) (max_frame : Z) : list Z :=
  fst <$> List.filter (fun kp : Z * (Z * page_cell) =>
    let pg := c_page (snd (snd kp)) in
    negb (is_dirty pg) && has_wal_tag pg && (max_frame <? fst (wal_tag_pair pg)))
    (zip keys ps).

Definition delete_clean_pages_after_wal_frame (max_frame : Z) : M unit :=
  c ← gets cache;
  let keys := hash_order (map c) in
  ps ← pages_at keys;
  delete_keys (keys_after_frame keys ps max_frame).

End Iteration.

(** ** The integrity check *)

(** The keys of the entries of a queue. *)
Fixpoint queue_keys (q : list Z) : M (list Z) :=
  match q with
  | [] => mret []
  | a :: q' => e ← deref a; ks ← queue_keys q'; mret (e_key e :: ks)
  end.

Definition cache_integrity_ok : M bool :=
  c ← gets cache;
  let map_len := size (map c) in
  ks ← queue_keys (queue c);
  let seen_keys : gset Z := list_to_set ks in
  if negb (Nat.eqb map_len (length (queue c))) then mret false
  else if negb (Nat.eqb map_len (size seen_keys)) then mret false
  else if negb (forallb (fun k => bool_decide (k ∈ seen_keys)) (map_to_list (map c)).*1)
  then mret false
  else
    match clock_hand c with
    | Some h =>
        if Nat.eqb map_len 0 then mret false
        else
          e ← deref h;
          mret (contains_key c (e_key e))
    | None => mret (Nat.eqb map_len 0)
    end.

(** ** The circular queue *)

(** The queue [q] with hand [h], read from the hand around the ring, is [s]. *)
Definition ring (q : list Z) (h : option Z) (s : list Z) : Prop :=
  (exists l1 l2, q = l1 ++ l2 /\ s = l2 ++ l1 /\ (l2 = [] -> l1 = [])) /\
  h = head s /\ NoDup s.

Lemma next_in_app l1 a l2 : a ∉ l1 -> next_in (l1 ++ a :: l2) a = Some (head l2).
Proof.
  induction l1 as [|x l1 IH]; intros Ha; cbn.
  - by rewrite Z.eqb_refl.
  - rewrite not_elem_of_cons in Ha. destruct (Z.eqb_spec x a); [naive_solver|]. apply IH. naive_solver.
Qed.

Lemma insert_after_app l1 a l2 x : a ∉ l1 -> insert_after (l1 ++ a :: l2) a x = Some (l1 ++ a :: x :: l2).
Proof.
  induction l1 as [|y l1 IH]; intros Ha; cbn.
  - by rewrite Z.eqb_refl.
  - rewrite not_elem_of_cons in Ha. destruct (Z.eqb_spec y a); [naive_solver|]. rewrite IH by naive_solver. done.
Qed.

Lemma remove_from_app l1 a l2 : a ∉ l1 -> remove_from (l1 ++ a :: l2) a = Some (l1 ++ l2).
Proof.
  induction l1 as [|y l1 IH]; intros Ha; cbn.
  - by rewrite Z.eqb_refl.
  - rewrite not_elem_of_cons in Ha. destruct (Z.eqb_spec y a); [naive_solver|]. rewrite IH by naive_solver. done.
Qed.

Lemma ring_empty q h : ring q h [] -> q = [] /\ h = None.
Proof.
  intros [(l1 & l2 & -> & E & _) [-> _]]. symmetry in E. apply app_nil in E as [-> ->]. done.
Qed.

(** Advancing the hand rotates the ring. *)
Lemma ring_advance q a t :
  ring q (Some a) (a :: t) ->
  exists n, next_in q a = Some n /\
    ring q (match n with Some b => Some b | None => head q end) (t ++ [a]).
Proof.
  intros [(l1 & l2 & -> & E & Hne) [_ Hnd]].
  destruct l2 as [|a' l2]; [rewrite Hne in E by done; done|].
  injection E as <- ->.
  assert (a ∉ l1) as Ha.
  { apply NoDup_cons in Hnd as [Hnd _]. set_solver. }
  exists (head l2). split; [by apply next_in_app|].
  assert (NoDup ((l2 ++ l1) ++ [a])) as Hnd'.
  { eapply NoDup_Permutation_proper; [|exact Hnd]. by rewrite Permutation_app_comm. }
  destruct l2 as [|b l2]; (split; [|split; [|done]]).
  - exists [], (l1 ++ [a]). rewrite app_nil_r. split_and!; [done|done|by destruct l1].
  - cbn. by destruct l1.
  - exists (l1 ++ [a]), (b :: l2). by rewrite <- !app_assoc.
  - done.
Qed.

(** Removing an entry other than the one at the hand. *)
Lemma ring_remove q h s1 a s2 :
  s1 <> [] -> ring q h (s1 ++ a :: s2) ->
  exists q', remove_from q a = Some q' /\ ring q' h (s1 ++ s2).
Proof.
  intros Hs1 [(l1 & l2 & -> & E & Hne) [-> Hnd]].
  assert (NoDup (s1 ++ s2)) as Hnd'.
  { assert (s1 ++ a :: s2 ≡ₚ a :: s1 ++ s2) as Hp by by rewrite Permutation_middle.
    rewrite Hp in Hnd. by apply NoDup_cons in Hnd as [_ ?]. }
  assert (head (s1 ++ a :: s2) = head (s1 ++ s2)) as Hh by by destruct s1.
  assert (a ∉ s1 /\ a ∉ s2) as [Ha1 Ha2].
  { assert (s1 ++ a :: s2 ≡ₚ a :: s1 ++ s2) as Hp by by rewrite Permutation_middle.
    rewrite Hp in Hnd. apply NoDup_cons in Hnd as [? _]. set_solver. }
  symmetry in E. apply app_eq_app in E as [k [[-> Hk]|[-> Hk]]].
  - destruct k as [|b k].
    + rewrite app_nil_r in *. cbn in Hk. subst l1. exists (s2 ++ s1).
      split; [apply (remove_from_app [] a (s2 ++ s1)); set_solver|].
      split; [|split; [done|done]]. exists s2, s1. split_and!; [done|done|done].
    + injection Hk as <- ->. exists (l1 ++ s1 ++ k).
      split; [by rewrite app_assoc, remove_from_app, <- app_assoc by set_solver|].
      split; [|split; [done|done]]. exists l1, (s1 ++ k).
      split_and!; [done|by rewrite app_assoc|by destruct s1].
  - exists (k ++ s2 ++ l2). subst l1.
    split; [rewrite <- app_assoc; apply (remove_from_app k a (s2 ++ l2)); set_solver|].
    split; [|split; [done|done]]. exists (k ++ s2), l2.
    split_and!; [by rewrite app_assoc|by rewrite app_assoc|]. intros ->. specialize (Hne eq_refl). by destruct k.
Qed.

(** Removing the entry that the hand has just passed. *)
Lemma ring_detach_last q h s a :
  ring q h (s ++ [a]) ->
  exists q', remove_from q a = Some q' /\
    ring q' (if decide (h = Some a) then None else h) s.
Proof.
  intros H. destruct s as [|b s].
  - destruct H as [(l1 & l2 & E1 & E2 & _) [-> _]]. exists [].
    rewrite decide_True by done. split; [|by split; [exists [], []|split; [done|constructor]]].
    rewrite E1. cbn in E2. destruct l2 as [|? l2].
    + cbn in E2. subst l1. cbn. by rewrite Z.eqb_refl.
    + injection E2 as <- E2. symmetry in E2. apply app_nil in E2 as [-> ->]. cbn.
      by rewrite Z.eqb_refl.
  - destruct (ring_remove q h (b :: s) a [] ltac:(done) H) as (q' & Hq & Hr).
    rewrite app_nil_r in Hr. exists q'. split; [done|].
    destruct H as [_ [-> Hnd]]. cbn in Hnd. rewrite decide_False; [done|].
    intros [= ->]. apply NoDup_cons in Hnd as [Hn _]. set_solver.
Qed.

Lemma ring_insert q a t x :
  ring q (Some a) (a :: t) -> x ∉ a :: t ->
  exists q', insert_after q a x = Some q' /\ ring q' (Some a) (a :: x :: t).
Proof.
  intros [(l1 & l2 & -> & E & Hne) [_ Hnd]] Hx.
  destruct l2 as [|a' l2]; [rewrite Hne in E by done; done|].
  injection E as <- ->. exists (l1 ++ a :: x :: l2).
  assert (a ∉ l1) as Ha by (apply NoDup_cons in Hnd as [Hnd _]; set_solver).
  split; [by apply insert_after_app|].
  split; [|split; [done|]].
  - exists l1, (a :: x :: l2). done.
  - apply NoDup_cons in Hnd as [? ?]. rewrite !NoDup_cons. set_solver.
Qed.

(** ** Maps of lists of pairs *)

Lemma ltm_split {A} (l1 l2 : list (Z * A)) k x :
  NoDup (l1 ++ (k, x) :: l2).*1 ->
  (list_to_map (l1 ++ (k, x) :: l2) : gmap Z A) !! k = Some x /\
  delete k (list_to_map (l1 ++ (k, x) :: l2) : gmap Z A) = list_to_map (l1 ++ l2) /\
  (forall y, <[k := y]> (list_to_map (l1 ++ (k, x) :: l2) : gmap Z A) =
             list_to_map (l1 ++ (k, y) :: l2)) /\
  k ∉ (l1 ++ l2).*1 /\ NoDup (l1 ++ l2).*1.
Proof.
  intros Hnd.
  assert (forall y, l1 ++ (k, y) :: l2 ≡ₚ (k, y) :: l1 ++ l2) as Hp
    by (intros; by rewrite Permutation_middle).
  assert (NoDup ((k, x) :: l1 ++ l2).*1) as Hnd' by by rewrite <- Hp.
  assert (forall y, NoDup (l1 ++ (k, y) :: l2).*1) as Hndy by (intros y; rewrite Hp; done).
  cbn in Hnd'. apply NoDup_cons in Hnd' as [Hk Hrest].
  assert (forall y, (list_to_map (l1 ++ (k, y) :: l2) : gmap Z A) =
                    <[k := y]> (list_to_map (l1 ++ l2))) as E
    by (intros y; by rewrite (list_to_map_proper _ _ (Hndy y) (Hp y))).
  rewrite !E. split_and!; [by rewrite lookup_insert_eq| | |done|done].
  - rewrite delete_insert_eq. apply delete_id. by apply not_elem_of_list_to_map_1.
  - intros y. rewrite E. by rewrite insert_insert_eq.
Qed.

Lemma ltm_in {A} (l : list (Z * A)) k x :
  NoDup l.*1 -> (list_to_map l : gmap Z A) !! k = Some x ->
  exists l1 l2, l = l1 ++ (k, x) :: l2.
Proof. intros Hnd Hk%elem_of_list_to_map_2. by apply list_elem_of_split in Hk. Qed.

(** ** The concrete state of a ring of entries *)

Definition key_addr (x : Z * PageCacheEntry) : Z * Z := (e_key x.2, x.1).

(** The world [w] stores the ring [r], a list of boxes read from the clock
    hand: the queue and the hand, the map and the live boxes agree with it. *)
Record rep (w : world) (r : list (Z * PageCacheEntry)) : Prop := {
  rp_ring : ring (queue (cache w)) (clock_hand (cache w)) r.*1;
  rp_keys : NoDup (key_addr <$> r).*1;
  rp_entries : entries w = list_to_map r;
  rp_map : map (cache w) = list_to_map (key_addr <$> r);
  rp_fresh : Forall (fun x => x.1 < next_addr w) r;
  rp_pages : Forall (fun x => is_Some (pages w !! e_page x.2)) r;
  rp_ref : Forall (fun x => 0 <= e_ref_bit x.2 <= REF_MAX) r
}.

Lemma rep_addrs w r : rep w r -> NoDup r.*1.
Proof. intros H. apply (rp_ring _ _ H). Qed.

Lemma rep_len w r : rep w r -> len (cache w) = lenZ r /\ size (map (cache w)) = length r.
Proof.
  intros H. unfold len. rewrite (rp_map _ _ H), map_size_list_to_map by apply H.
  by rewrite length_fmap.
Qed.

Lemma rep_at w r1 a e r2 :
  rep w (r1 ++ (a, e) :: r2) ->
  map (cache w) !! e_key e = Some a /\ entries w !! a = Some e /\
  is_Some (pages w !! e_page e) /\ 0 <= e_ref_bit e <= REF_MAX.
Proof.
  intros H. rewrite (rp_map _ _ H), (rp_entries _ _ H).
  pose proof (rp_keys _ _ H) as Hk. rewrite fmap_app, fmap_cons in Hk |- *.
  pose proof (rp_pages _ _ H) as Hp. pose proof (rp_ref _ _ H) as Hr.
  rewrite Forall_app, Forall_cons in Hp, Hr.
  split_and!; [by apply (ltm_split _ _ (e_key e) a) in Hk as [? _]| | |apply Hr|apply Hr].
  - apply (ltm_split _ _ a e), (rep_addrs _ _ H).
  - apply Hp.
Qed.

Lemma rep_find w r k a :
  rep w r -> map (cache w) !! k = Some a ->
  exists r1 e r2, r = r1 ++ (a, e) :: r2 /\ e_key e = k.
Proof.
  intros H Hk. rewrite (rp_map _ _ H) in Hk.
  apply ltm_in in Hk as (l1 & l2 & E); [|apply H].
  apply fmap_app_inv in E as (r1 & r2 & _ & E & ->). symmetry in E.
  apply fmap_cons_inv in E as ([a' e] & r3 & Ek & _ & ->). injection Ek as -> ->.
  by exists r1, e, r3.
Qed.

Lemma rep_absent w r k :
  rep w r -> map (cache w) !! k = None -> k ∉ (key_addr <$> r).*1.
Proof. intros H Hk. rewrite (rp_map _ _ H) in Hk. by apply not_elem_of_list_to_map_2 in Hk. Qed.

Lemma rep_absent_2 w r k :
  rep w r -> k ∉ (key_addr <$> r).*1 -> map (cache w) !! k = None.
Proof. intros H Hk. rewrite (rp_map _ _ H). by apply not_elem_of_list_to_map_1. Qed.

Lemma key_addr_keys (r : list (Z * PageCacheEntry)) :
  (key_addr <$> r).*1 = (fun x => e_key x.2) <$> r.
Proof. rewrite <- list_fmap_compose. done. Qed.

(** Changes outside the queue. *)
Lemma rep_with_pages w r f :
  rep w r -> (forall i, is_Some (pages w !! i) -> is_Some (f (pages w) !! i)) ->
  rep (with_pages f w) r.
Proof.
  intros [? ? ? ? ? Hp ?] Hf. split; try done. cbn. eapply Forall_impl; [exact Hp|]. auto.
Qed.

Lemma rep_alter_page w r g i : rep w r -> rep (with_pages (alter g i) w) r.
Proof.
  intros H. apply rep_with_pages; [done|]. intros j [c Hc].
  destruct (decide (j = i)) as [->|].
  - rewrite lookup_alter_eq, Hc. by eexists.
  - rewrite lookup_alter_ne, Hc by done. by eexists.
Qed.

Lemma rep_cache_other w r f :
  rep w r -> queue (f (cache w)) = queue (cache w) ->
  clock_hand (f (cache w)) = clock_hand (cache w) -> map (f (cache w)) = map (cache w) ->
  rep (with_cache f w) r.
Proof. intros [] Hq Hh Hm. split; cbn; rewrite ?Hq, ?Hh, ?Hm; done. Qed.

Lemma rep_put w r1 a e e' r2 :
  rep w (r1 ++ (a, e) :: r2) -> e_key e' = e_key e -> is_Some (pages w !! e_page e') ->
  0 <= e_ref_bit e' <= REF_MAX ->
  rep (with_entries <[a := e']> w) (r1 ++ (a, e') :: r2).
Proof.
  intros H Hk Hp Hr. pose proof (rep_addrs _ _ H) as Hnd.
  destruct (ltm_split _ _ a e Hnd) as (_ & _ & Hins & _).
  destruct H as [Hring Hkeys He Hm Hf Hpg Hrf].
  assert (key_addr (a, e') = key_addr (a, e)) as Ek by (unfold key_addr; cbn; by rewrite Hk).
  split; cbn [with_entries cache entries pages next_addr].
  - by rewrite fmap_app, fmap_cons in Hring |- *.
  - rewrite fmap_app, fmap_cons in Hkeys |- *. by rewrite Ek.
  - by rewrite He, Hins.
  - rewrite fmap_app, fmap_cons in Hm |- *. by rewrite Ek.
  - rewrite Forall_app, Forall_cons in Hf |- *. done.
  - rewrite Forall_app, Forall_cons in Hpg |- *. naive_solver.
  - rewrite Forall_app, Forall_cons in Hrf |- *. naive_solver.
Qed.

(** ** Queue operations on the ring *)

(** Run the monadic operations at the head of the goal. *)
Ltac msimpl :=
  unfold deref, page_of, put_entry, put_page, clone_ref, drop_ref, mbind, M_bind, mret, M_ret,
    gets, modify, throw, panic; cbv beta iota;
  cbn [cache entries pages next_addr with_cache with_entries with_pages].

Section Run.
Context {A B : Type} (w : world).

Lemma bind_ok (m : M A) (f : A -> M B) w' a : m w = COk w' a -> (m ≫= f) w = f a w'.
Proof. intros H. unfold mbind, M_bind. by rewrite H. Qed.

Lemma bind_err (m : M A) (f : A -> M B) w' e : m w = CErr w' e -> (m ≫= f) w = CErr w' e.
Proof. intros H. unfold mbind, M_bind. by rewrite H. Qed.

Lemma gets_bind (g : world -> A) (f : A -> M B) : (gets g ≫= f) w = f (g w) w.
Proof. done. Qed.

Lemma mret_bind (a : A) (f : A -> M B) : (mret a ≫= f) w = f a w.
Proof. done. Qed.

Lemma modify_bind (g : world -> world) (f : unit -> M B) : (modify g ≫= f) w = f tt (g w).
Proof. done. Qed.

Lemma deref_bind a e (f : PageCacheEntry -> M B) :
  entries w !! a = Some e -> (deref a ≫= f) w = f e w.
Proof. intros H. unfold mbind, M_bind, deref. by rewrite H. Qed.

Lemma page_bind i p (f : page_cell -> M B) :
  pages w !! i = Some p -> (page_of i ≫= f) w = f p w.
Proof. intros H. unfold mbind, M_bind, page_of. by rewrite H. Qed.

End Run.

Lemma advance_raw w a s :
  ring (queue (cache w)) (clock_hand (cache w)) (a :: s) ->
  exists h, advance_clock_hand w = COk (with_cache (set_hand h) w) tt /\
    ring (queue (cache w)) h (s ++ [a]).
Proof.
  intros H. pose proof H as [_ [Hh _]]. cbn in Hh. rewrite Hh in H.
  destruct (ring_advance _ _ _ H) as (n & Hn & Hr).
  unfold advance_clock_hand. msimpl. rewrite Hh, Hn. destruct n; eexists; done.
Qed.

Lemma Forall_rotate {A} (P : A -> Prop) x t : Forall P (x :: t) -> Forall P (t ++ [x]).
Proof. rewrite Forall_app, !Forall_cons. naive_solver. Qed.

Lemma advance_ok w x t :
  rep w (x :: t) ->
  exists h, advance_clock_hand w = COk (with_cache (set_hand h) w) tt /\
    rep (with_cache (set_hand h) w) (t ++ [x]).
Proof.
  intros [Hring Hkeys He Hm Hf Hpg Hrf]. cbn in Hring.
  destruct (advance_raw w _ _ Hring) as (h & Hadv & Hring'). exists h. split; [done|].
  assert (x :: t ≡ₚ t ++ [x]) as Hp by by rewrite Permutation_app_comm.
  pose proof Hring as [_ [_ Hnd]].
  split; cbn [with_cache cache set_hand queue clock_hand map entries pages next_addr].
  - by rewrite fmap_app.
  - by rewrite <- Hp.
  - rewrite He. by apply list_to_map_proper.
  - rewrite Hm. apply list_to_map_proper; [done|]. by rewrite <- Hp.
  - by apply Forall_rotate.
  - by apply Forall_rotate.
  - by apply Forall_rotate.
Qed.

(** The pages after an entry with page [i] was removed: buffer taken, one
    reference dropped. *)
Definition page_evicted (i : Z) (pg : gmap Z page_cell) : gmap Z page_cell :=
  alter (fun c => mkCell (c_page c) (c_strong c - 1)) i
    (alter (fun c => mkCell (take_buffer (clear_loaded (c_page c))) (c_strong c)) i pg).

(** The world after the entry [e] at [a] was removed. *)
Definition removed (w : world) (a : Z) (e : PageCacheEntry) (q : list Z) (h : option Z) : world :=
  mkWorld (set_queue q (set_hand h (set_map (delete (e_key e) (map (cache w))) (cache w))))
    (delete a (entries w)) (page_evicted (e_page e) (pages w)) (next_addr w).

Lemma page_evicted_is_Some i pg j : is_Some (pg !! j) -> is_Some (page_evicted i pg !! j).
Proof.
  intros [c Hc]. unfold page_evicted. destruct (decide (j = i)) as [->|].
  - rewrite !lookup_alter_eq, Hc. by eexists.
  - rewrite !lookup_alter_ne, Hc by done. by eexists.
Qed.

Lemma rep_removed w r1 a e r2 q h :
  rep w (r1 ++ (a, e) :: r2) -> ring q h (r1 ++ r2).*1 ->
  rep (removed w a e q h) (r1 ++ r2).
Proof.
  intros H Hring. pose proof (rep_addrs _ _ H) as Hnd.
  destruct H as [_ Hkeys He Hm Hf Hpg Hrf].
  rewrite fmap_app, fmap_cons in Hkeys, Hm. change (key_addr (a, e)) with (e_key e, a) in *.
  destruct (ltm_split _ _ a e Hnd) as (_ & Hdel & _ & _ & _).
  destruct (ltm_split _ _ (e_key e) a Hkeys) as (_ & Hdelk & _ & _ & Hndk).
  split; cbn.
  - done.
  - by rewrite fmap_app.
  - by rewrite He, Hdel.
  - by rewrite Hm, fmap_app, Hdelk.
  - rewrite Forall_app, Forall_cons in Hf. rewrite Forall_app. naive_solver.
  - rewrite Forall_app, Forall_cons in Hpg. destruct Hpg as (H1 & _ & H2).
    apply Forall_app. split; (eapply Forall_impl; [eassumption|]);
      intros x; apply page_evicted_is_Some.
  - rewrite Forall_app, Forall_cons in Hrf. rewrite Forall_app. naive_solver.
Qed.

(** [alter] with the known cell. *)
Lemma alter_known {A} (m : gmap Z A) i x (f g : A -> A) :
  m !! i = Some x -> f x = g x -> alter f i m = alter g i m.
Proof.
  intros Hx Hfg. apply map_eq. intros j. destruct (decide (j = i)) as [->|].
  - rewrite !lookup_alter_eq, Hx. cbn. by rewrite Hfg.
  - by rewrite !lookup_alter_ne.
Qed.

Lemma clean_page_ok w i p :
  pages w !! i = Some p ->
  clean_page_ref i w =
    COk (with_pages (alter (fun c => mkCell (take_buffer (clear_loaded (c_page c))) (c_strong c)) i) w) tt.
Proof.
  intros Hp. unfold clean_page_ref. msimpl. rewrite Hp.
  unfold with_pages. do 2 f_equal. by eapply alter_known.
Qed.

(** The last steps of a removal, from a state whose hand is not at [a]. *)
Lemma queue_remove_ok w a e q :
  entries w !! a = Some e -> remove_from (queue (cache w)) a = Some q ->
  queue_remove a w =
    COk (mkWorld (set_queue q (cache w)) (delete a (entries w))
           (alter (fun c => mkCell (c_page c) (c_strong c - 1)) (e_page e) (pages w))
           (next_addr w)) tt.
Proof.
  intros He Hq. unfold queue_remove. msimpl. rewrite He, Hq. done.
Qed.

(** ** The sweep *)

(** SIEVE on the ring: the ring afterwards and the evicted entry. *)
Fixpoint sieve (k : nat) (pg : gmap Z page_cell) (r : list (Z * PageCacheEntry))
    : list (Z * PageCacheEntry) * option (Z * PageCacheEntry) :=
  match k, r with
  | O, _ => (r, None)
  | S _, [] => ([], None)
  | S k', (a, e) :: t =>
      match pg !! e_page e with
      | None => (r, None)
      | Some p =>
          if evictable p then
            if e_ref_bit e =? CLEAR then (t, Some (a, e))
            else sieve k' pg (t ++ [(a, decrement_ref e)])
          else sieve k' pg (t ++ [(a, e)])
      end
  end.

(** Configuration that eviction does not touch. *)
Definition same_config (w w' : world) : Prop :=
  capacity (cache w') = capacity (cache w) /\
  spill_threshold (cache w') = spill_threshold (cache w) /\
  spill_enabled (cache w') = spill_enabled (cache w).

Lemma evictable_counted p : evictable p = true -> counted_as_evictable p = true.
Proof.
  unfold evictable, counted_as_evictable. rewrite !andb_true_iff.
  intros [[[[H _] _] Hid] _]. by destruct (pg_id (c_page p) =? HEADER_PAGE_ID).
Qed.

(** The hand is at an evictable entry that has not been used: it goes. *)
Lemma evict_head w a e t p k :
  rep w ((a, e) :: t) -> pages w !! e_page e = Some p -> evictable p = true ->
  e_ref_bit e = CLEAR ->
  exists q h, evict_loop (S k) w = COk (with_cache count_minus_one (removed w a e q h)) tt /\
    ring q h t.*1.
Proof.
  intros H Hp Hev Href. pose proof (rp_ring _ _ H) as Hring. cbn in Hring.
  pose proof (rep_at w [] a e t H) as (_ & He & _).
  pose proof Hring as [_ [Hh Hnd]]. cbn in Hh.
  destruct (advance_raw w a t.*1 Hring) as (h & Hadv & Hring').
  cbn [evict_loop]. rewrite gets_bind, Hh, (deref_bind _ _ e), (page_bind _ _ p) by done.
  rewrite Hev, Href, Z.eqb_refl, (evictable_counted _ Hev). cbn [andb m_assert].
  rewrite mret_bind, (bind_ok _ _ _ _ _ Hadv), gets_bind. cbn [cache with_cache set_hand clock_hand].
  destruct (ring_detach_last _ _ _ _ Hring') as (q & Hq & Hr).
  set (h2 := if decide (h = Some a) then None else h) in Hr.
  exists q, h2. split; [|done].
  assert (forall w1, entries w1 = entries w -> queue (cache w1) = queue (cache w) ->
    pages w1 = pages w ->
    ((_ ← modify (with_cache (fun c => set_map (delete (e_key e) (map c)) c));
      _ ← clean_page_ref (e_page e);
      _ ← queue_remove a;
      modify (with_cache count_minus_one)) w1) =
    COk (with_cache count_minus_one
      (mkWorld (set_queue q (set_map (delete (e_key e) (map (cache w1))) (cache w1)))
         (delete a (entries w)) (page_evicted (e_page e) (pages w)) (next_addr w1))) tt) as Hrest.
  { intros w1 E1 E2 E3. rewrite modify_bind.
    erewrite bind_ok by (apply (clean_page_ok _ _ p); cbn; congruence).
    erewrite bind_ok by (apply (queue_remove_ok _ a e q); cbn; congruence).
    unfold modify. cbn. by rewrite E1, E3. }
  subst h2. destruct (decide (h = Some a)).
  - by rewrite modify_bind, Hrest by done.
  - by rewrite mret_bind, Hrest by done.
Qed.

(** The sweep of the code is [sieve] on the ring. *)
Lemma evict_loop_sieve k : forall w r,
  rep w r -> r <> [] ->
  let '(r', v) := sieve k (pages w) r in
  exists w', rep w' r' /\ same_config w w' /\
    match v with
    | Some (a, e) =>
        evict_loop k w = COk w' tt /\ pages w' = page_evicted (e_page e) (pages w) /\
        evictable_count (cache w') = saturating_sub (evictable_count (cache w)) 1
    | None => evict_loop k w = CErr w' Full /\ pages w' = pages w /\
        evictable_count (cache w') = evictable_count (cache w)
    end.
Proof.
  induction k as [|k IH]; intros w r H Hne.
  { cbn. exists w. done. }
  destruct r as [|[a e] t]; [done|]. cbn [sieve].
  pose proof (rep_at w [] a e t H) as (_ & He & [p Hp] & Hr).
  pose proof (rp_ring _ _ H) as [_ [Hh _]]. cbn in Hh. rewrite Hp.
  assert (evictable p && (e_ref_bit e =? CLEAR) = false ->
    evict_loop (S k) w =
      ((if evictable p
       then _ ← put_entry a (decrement_ref e); _ ← advance_clock_hand; evict_loop k
       else _ ← advance_clock_hand; evict_loop k) w)) as Hstep.
  { intros E. cbn [evict_loop].
    by rewrite gets_bind, Hh, (deref_bind _ _ e), (page_bind _ _ p), E by done. }
  destruct (evictable p) eqn:Hev.
  - destruct (Z.eqb_spec (e_ref_bit e) CLEAR) as [Href|Href].
    + destruct (evict_head w a e t p k H Hp Hev Href) as (q & h & -> & Hring).
      eexists. split; [|split; [|split; [done|done]]].
      * apply rep_cache_other; try done. by apply (rep_removed w [] a e t).
      * done.
    + assert (rep (with_entries <[a := decrement_ref e]> w) ((a, decrement_ref e) :: t)) as H1.
      { apply (rep_put w [] a e (decrement_ref e) t); [done|done|by eexists|].
        cbn. unfold saturating_sub, CLEAR, REF_MAX in *. lia. }
      destruct (advance_ok _ _ _ H1) as (h & Hadv & H2).
      specialize (IH _ _ H2 ltac:(by destruct t)). cbn [pages with_cache with_entries] in IH.
      destruct (sieve k (pages w) _) as [r' v]. destruct IH as (w' & Hw' & Hc & Hv).
      exists w'. split; [done|]. split; [done|].
      rewrite Hstep by done. unfold put_entry.
      rewrite modify_bind, (bind_ok _ _ _ _ _ Hadv). exact Hv.
  - destruct (advance_ok _ _ _ H) as (h & Hadv & H2).
    specialize (IH _ _ H2 ltac:(by destruct t)). cbn [pages with_cache] in IH.
    destruct (sieve k (pages w) _) as [r' v]. destruct IH as (w' & Hw' & Hc & Hv).
    exists w'. split; [done|]. split; [done|].
    rewrite Hstep, (bind_ok _ _ _ _ _ Hadv) by done. exact Hv.
Qed.

(** ** What the sweep does *)

(** An entry without its reference counter. *)
Definition strip (x : Z * PageCacheEntry) : Z * Z * Z := (x.1, e_key x.2, e_page x.2).

Lemma sieve_spec k : forall pg r,
  let '(r', v) := sieve k pg r in
  match v with
  | Some x => (exists p, pg !! e_page x.2 = Some p /\ evictable p = true /\ e_ref_bit x.2 = CLEAR) /\
      strip <$> r ≡ₚ strip x :: (strip <$> r')
  | None => strip <$> r ≡ₚ strip <$> r'
  end.
Proof.
  induction k as [|k IH]; intros pg r; [cbn; reflexivity|].
  destruct r as [|[a e] t]; [cbn; reflexivity|]. cbn [sieve].
  destruct (pg !! e_page e) as [p|] eqn:Hp; [|reflexivity].
  destruct (evictable p) eqn:Hev.
  - destruct (Z.eqb_spec (e_ref_bit e) CLEAR) as [Href|Href]; [split; [by exists p|reflexivity]|].
    specialize (IH pg (t ++ [(a, decrement_ref e)])).
    destruct (sieve k pg _) as [r' [x|]]; rewrite fmap_app in IH.
    + destruct IH as [? IH]. split; [done|]. rewrite <- IH. by rewrite Permutation_app_comm.
    + rewrite <- IH. by rewrite Permutation_app_comm.
  - specialize (IH pg (t ++ [(a, e)])).
    destruct (sieve k pg _) as [r' [x|]]; rewrite fmap_app in IH.
    + destruct IH as [? IH]. split; [done|]. rewrite <- IH. by rewrite Permutation_app_comm.
    + rewrite <- IH. by rewrite Permutation_app_comm.
Qed.

(** An evictable entry at distance [length r1] from the hand is evicted, or
    another one before it, within one pass for each of its references and the
    distance. *)
Lemma sieve_progress pg : forall k r1 a e r2 p,
  Forall (fun x => is_Some (pg !! e_page x.2)) (r1 ++ (a, e) :: r2) ->
  pg !! e_page e = Some p -> evictable p = true -> 0 <= e_ref_bit e ->
  e_ref_bit e * lenZ (r1 ++ (a, e) :: r2) + lenZ r1 < Z.of_nat k ->
  is_Some (sieve k pg (r1 ++ (a, e) :: r2)).2.
Proof.
  induction k as [|k IH]; intros r1 a e r2 p Hall Hp Hev Hr Hk.
  { pose proof (lenZ_nonneg r1). pose proof (lenZ_nonneg (r1 ++ (a, e) :: r2)). nia. }
  destruct r1 as [|[b f] r1]; cbn [sieve app].
  - rewrite Hp, Hev. destruct (Z.eqb_spec (e_ref_bit e) CLEAR) as [|Hne]; [by eexists|].
    unfold CLEAR in Hne. apply (IH r2 a (decrement_ref e) [] p); cbn; try done.
    + cbn in Hall. apply Forall_rotate in Hall. rewrite Forall_app, Forall_cons in Hall |- *.
      naive_solver.
    + unfold saturating_sub. lia.
    + unfold saturating_sub, lenZ in *. rewrite length_app. cbn [app length] in *. nia.
  - cbn in Hall. apply Forall_cons in Hall as [[pb Hpb] Hall]. cbn in Hpb. rewrite Hpb.
    assert (forall f', e_page f' = e_page f ->
      is_Some (sieve k pg ((r1 ++ (a, e) :: r2) ++ [(b, f')])).2) as Hgo.
    { intros f' Ef. rewrite <- app_assoc. cbn [app]. apply (IH r1 a e (r2 ++ [(b, f')]) p); try done.
      - rewrite app_comm_cons, app_assoc, Forall_app, Forall_cons. cbn. rewrite Ef.
        split; [done|]. split; [by exists pb|done].
      - unfold lenZ in *. rewrite !length_app in *. cbn [app length] in *.
        rewrite !length_app in *. cbn [length] in *. nia. }
    destruct (evictable pb); [|by apply Hgo].
    destruct (e_ref_bit f =? CLEAR); [by eexists|]. by apply Hgo.
Qed.

Lemma evict_one_spec w r :
  rep w r -> r <> [] ->
  let '(r', v) := sieve (Z.to_nat (lenZ r * 4)) (pages w) r in
  exists w', rep w' r' /\ same_config w w' /\
    match v with
    | Some (a, e) =>
        evict_one w = COk w' tt /\ pages w' = page_evicted (e_page e) (pages w) /\
        evictable_count (cache w') = saturating_sub (evictable_count (cache w)) 1
    | None => evict_one w = CErr w' Full /\ pages w' = pages w /\
        evictable_count (cache w') = evictable_count (cache w)
    end.
Proof.
  intros H Hne. unfold evict_one. rewrite gets_bind. destruct (rep_len _ _ H) as [Hl _].
  rewrite Hl. destruct (Z.eqb_spec (lenZ r) 0).
  { destruct r; [done|]. unfold lenZ in *. cbn in *. lia. }
  by apply evict_loop_sieve.
Qed.

(** ** Evolution of the cache *)

(** A page with changes that are nowhere else: dirty and not spilled. *)
Definition unsaved (p : PageInner) : bool := is_dirty p && negb (is_spilled p).

Definition unsaved_at (pg : gmap Z page_cell) (i : Z) : Prop :=
  exists c, pg !! i = Some c /\ unsaved (c_page c) = true.

(** Keys with their pages. *)
Definition cached (r : list (Z * PageCacheEntry)) : list (Z * Z) :=
  (fun x => (e_key x.2, e_page x.2)) <$> r.

(** From [w] with ring [r] to [w'] with ring [r']: no page disappears from the
    store or loses unsaved changes, and the cache keeps the entries of pages
    with unsaved changes, except for the key [ex]. *)
Record evolves (ex : option Z) (w : world) (r : list (Z * PageCacheEntry))
    (w' : world) (r' : list (Z * PageCacheEntry)) : Prop := {
  ev_pages : forall i, is_Some (pages w !! i) -> is_Some (pages w' !! i);
  ev_unsaved : forall i, unsaved_at (pages w) i -> unsaved_at (pages w') i;
  ev_kept : forall k i, (k, i) ∈ cached r -> unsaved_at (pages w) i -> ex <> Some k ->
    (k, i) ∈ cached r'
}.

Lemma evolves_refl ex w r : evolves ex w r w r.
Proof. by split. Qed.

Lemma evolves_trans ex w1 r1 w2 r2 w3 r3 :
  evolves ex w1 r1 w2 r2 -> evolves ex w2 r2 w3 r3 -> evolves ex w1 r1 w3 r3.
Proof. intros [] []. split; eauto. Qed.

Lemma evolves_weaken ex w r w' r' : evolves None w r w' r' -> evolves ex w r w' r'.
Proof. intros [? ? H]. split; try done. intros k i Hin Hu _. by apply H. Qed.

(** Changing the cell of one page without touching its flags. *)
Lemma alter_pages_keep (f : page_cell -> page_cell) i pg :
  (forall c, unsaved (c_page (f c)) = unsaved (c_page c)) ->
  (forall j, is_Some (pg !! j) -> is_Some (alter f i pg !! j)) /\
  (forall j, unsaved_at pg j -> unsaved_at (alter f i pg) j).
Proof.
  intros Hf. split.
  - intros j [c Hc]. destruct (decide (j = i)) as [->|].
    + rewrite lookup_alter_eq, Hc. by eexists.
    + rewrite lookup_alter_ne, Hc by done. by eexists.
  - intros j (c & Hc & Hu). destruct (decide (j = i)) as [->|].
    + exists (f c). by rewrite lookup_alter_eq, Hc, Hf.
    + exists c. by rewrite lookup_alter_ne, Hc.
Qed.

Lemma unsaved_cleaned p : unsaved (take_buffer (clear_loaded p)) = unsaved p.
Proof.
  unfold unsaved. f_equal; [|f_equal].
  - by apply (flag_clear_other p 4 3).
  - by apply (flag_clear_other p 4 5).
Qed.

Lemma page_evicted_keep i pg :
  (forall j, is_Some (pg !! j) -> is_Some (page_evicted i pg !! j)) /\
  (forall j, unsaved_at pg j -> unsaved_at (page_evicted i pg) j).
Proof.
  unfold page_evicted.
  destruct (alter_pages_keep (fun c => mkCell (take_buffer (clear_loaded (c_page c))) (c_strong c))
              i pg) as [H1 H2]; [intros; apply unsaved_cleaned|].
  destruct (alter_pages_keep (fun c => mkCell (c_page c) (c_strong c - 1)) i
    (alter (fun c => mkCell (take_buffer (clear_loaded (c_page c))) (c_strong c)) i pg))
    as [H3 H4]; [done|]. auto.
Qed.

Lemma evictable_not_unsaved p : evictable p = true -> unsaved (c_page p) = false.
Proof.
  unfold evictable, unsaved. rewrite !andb_true_iff. intros [[[[H _] _] _] _].
  destruct (is_dirty (c_page p)), (is_spilled (c_page p)); done.
Qed.

Lemma strip_cached r : cached r = (fun y : Z * Z * Z => (y.1.2, y.2)) <$> (strip <$> r).
Proof. unfold cached. by rewrite <- list_fmap_compose. Qed.

Lemma cached_perm r r' : strip <$> r ≡ₚ strip <$> r' -> cached r ≡ₚ cached r'.
Proof. intros H. by rewrite !strip_cached, H. Qed.

(** How an operation can end. *)
Definition ends {A} (x : cres A) (w : world) : Prop :=
  (exists a, x = COk w a) \/ (exists e, x = CErr w e).

(** One eviction. *)
Lemma evict_one_evolves w r :
  rep w r -> r <> [] ->
  exists w' r', rep w' r' /\ evolves None w r w' r' /\ same_config w w' /\
    cached r' ⊆ cached r /\
    ((evict_one w = COk w' tt /\ length r = S (length r')) \/
     (evict_one w = CErr w' Full /\ length r = length r')).
Proof.
  intros H Hne. pose proof (evict_one_spec w r H Hne) as Hspec.
  pose proof (sieve_spec (Z.to_nat (lenZ r * 4)) (pages w) r) as Hs.
  destruct (sieve _ _ _) as [r' [[a e]|]].
  - destruct Hspec as (w' & Hw' & Hc & Hev & Hpg & _). destruct Hs as [(p & Hp & He & _) Hperm].
    cbn in Hp.
    exists w', r'. split; [done|]. split; [|split; [done|split]].
    + destruct (page_evicted_keep (e_page e) (pages w)) as [K1 K2].
      split; rewrite ?Hpg; [done|done|].
      intros k i Hin Hu _. rewrite strip_cached, Hperm in Hin. cbn in Hin.
      apply elem_of_cons in Hin as [[= -> ->]|Hin].
      * destruct Hu as (c & Hc' & Hu). rewrite Hp in Hc'. injection Hc' as <-.
        apply evictable_not_unsaved in He. congruence.
      * by rewrite strip_cached.
    + intros y Hy. rewrite strip_cached in Hy |- *. rewrite Hperm, fmap_cons.
      apply elem_of_cons. by right.
    + left. split; [done|]. apply Permutation_length in Hperm. cbn in Hperm.
      by rewrite !length_fmap in Hperm.
  - destruct Hspec as (w' & Hw' & Hc & Hev & Hpg & _).
    exists w', r'. split; [done|]. split; [|split; [done|split]].
    + split; rewrite ?Hpg; try done. intros k i Hin _ _. by rewrite <- (cached_perm _ _ Hs).
    + by rewrite (cached_perm _ _ Hs).
    + right. split; [done|]. apply Permutation_length in Hs. by rewrite !length_fmap in Hs.
Qed.

Lemma same_config_trans w1 w2 w3 : same_config w1 w2 -> same_config w2 w3 -> same_config w1 w3.
Proof. unfold same_config. intuition congruence. Qed.

(** The loop that makes room. *)
Lemma make_room_loop_ok k target : forall w r,
  rep w r -> 0 <= target -> (length r <= k)%nat ->
  exists w' r', rep w' r' /\ evolves None w r w' r' /\ same_config w w' /\
    cached r' ⊆ cached r /\
    ((make_room_loop k target w = COk w' tt /\ lenZ r' <= target) \/
     make_room_loop k target w = CErr w' Full).
Proof.
  induction k as [|k IH]; intros w r H Ht Hk; destruct (rep_len _ _ H) as [Hl _];
    cbn [make_room_loop]; rewrite gets_bind, Hl;
    (destruct (Z.ltb_spec target (lenZ r)) as [Hlt|Hge];
     [|exists w, r; split_and!; try done; by left]).
  - unfold lenZ in Hlt. lia.
  - destruct (evict_one_evolves w r H) as (w1 & r1 & H1 & He1 & Hc1 & Hs1 & Hcase).
    { intros ->. unfold lenZ in Hlt. cbn in Hlt. lia. }
    destruct Hcase as [[Hev Hlen]|[Hev Hlen]].
    + destruct (IH w1 r1 H1 Ht ltac:(lia)) as (w2 & r2 & H2 & He2 & Hc2 & Hs2 & Hcase2).
      exists w2, r2. rewrite (bind_ok _ _ _ _ _ Hev).
      split_and!; [done|by eapply evolves_trans|by eapply same_config_trans|by etrans|done].
    + exists w1, r1. rewrite (bind_err _ _ _ _ _ Hev). split_and!; [done..|]. by right.
Qed.

Lemma make_room_for_ok w r n bypass :
  rep w r -> 0 <= n ->
  exists w' r', rep w' r' /\ evolves None w r w' r' /\ same_config w w' /\
    cached r' ⊆ cached r /\
    ((make_room_for n bypass w = COk w' tt /\
      (bypass = false -> lenZ r' + n <= capacity (cache w))) \/
     make_room_for n bypass w = CErr w' Full).
Proof.
  intros H Hn. unfold make_room_for. destruct bypass.
  { exists w, r. split_and!; try done. by left. }
  rewrite gets_bind. destruct (Z.ltb_spec (capacity (cache w)) n).
  { exists w, r. split_and!; try done. by right. }
  destruct (rep_len _ _ H) as [_ Hsz]. rewrite Hsz.
  destruct (make_room_loop_ok (length r) (capacity (cache w) - n) w r H ltac:(lia) ltac:(lia))
    as (w' & r' & ? & ? & ? & ? & Hcase).
  exists w', r'. split_and!; try done. destruct Hcase as [[? ?]|?]; [left; split; [done|lia]|by right].
Qed.

(** ** Every operation *)

(** An operation ends, without a panic, in a state that stores a ring. *)
Definition safe {A} (ex : option Z) (m : M A) (w : world) (r : list (Z * PageCacheEntry)) : Prop :=
  exists w' r', rep w' r' /\ evolves ex w r w' r' /\ same_config w w' /\ ends (m w) w'.

(** The steps of [_delete] after its checks. *)
Lemma detach_ok w s1 a e s2 :
  ring (queue (cache w)) (clock_hand (cache w)) (s1 ++ a :: s2) -> entries w !! a = Some e ->
  exists q h,
    (forall B (k : unit -> M B),
      (c ← gets cache;
       _ ← (if decide (clock_hand c = Some a) then
              _ ← advance_clock_hand;
              c ← gets cache;
              if decide (clock_hand c = Some a)
              then modify (with_cache (set_hand None)) else mret tt
            else mret tt);
       x ← queue_remove a; k x) w =
      k tt (mkWorld (set_queue q (set_hand h (cache w))) (delete a (entries w))
             (alter (fun c => mkCell (c_page c) (c_strong c - 1)) (e_page e) (pages w))
             (next_addr w))) /\
    ring q h (s1 ++ s2).
Proof.
  intros Hring He. pose proof Hring as [_ [Hh Hnd]].
  destruct s1 as [|b s1].
  - cbn in Hh, Hring.
    destruct (advance_raw w a s2 Hring) as (h & Hadv & Hring').
    destruct (ring_detach_last _ _ _ _ Hring') as (q & Hq & Hr).
    eexists q, _. split; [|exact Hr]. intros B k. rewrite gets_bind, decide_True by done.
    rewrite (bind_ok _ _ _ (with_cache (set_hand (if decide (h = Some a) then None else h)) w) tt).
    { by erewrite bind_ok by by apply (queue_remove_ok _ a e q). }
    rewrite (bind_ok _ _ _ _ _ Hadv), gets_bind. cbn [cache with_cache clock_hand set_hand].
    by destruct (decide (h = Some a)).
  - assert (clock_hand (cache w) <> Some a) as Hne.
    { rewrite Hh. cbn. intros [= ->]. cbn in Hnd.
      apply NoDup_cons in Hnd as [Hn _]. set_solver. }
    destruct (ring_remove _ _ (b :: s1) _ _ ltac:(done) Hring) as (q & Hq & Hr).
    exists q, (clock_hand (cache w)). split; [|done]. intros B k.
    rewrite gets_bind, decide_False, mret_bind by done.
    by erewrite bind_ok by by apply (queue_remove_ok _ a e q).
Qed.

(** Deleting a key: the checks refuse locked, dirty and pinned pages. *)
Lemma delete_entry_ok w r key :
  rep w r ->
  exists w' r', rep w' r' /\ evolves None w r w' r' /\
    (same_config w w' /\ cached r' ⊆ cached r) /\
    ((delete_entry key true w = COk w' tt /\
      map (cache w') !! key = None /\
      (forall k i, k <> key -> (k, i) ∈ cached r -> (k, i) ∈ cached r')) \/
     (exists e, delete_entry key true w = CErr w' e /\ e <> Full /\ w' = w /\ r' = r)).
Proof.
  intros H. unfold delete_entry. rewrite gets_bind.
  destruct (map (cache w) !! key) as [a|] eqn:Hk.
  2:{ exists w, r. split_and!; try done. by left. }
  destruct (rep_find _ _ _ _ H Hk) as (r1 & e & r2 & -> & <-).
  pose proof (rep_at _ _ _ _ _ H) as (_ & He & [p Hp] & _).
  rewrite (deref_bind _ _ e), (page_bind _ _ p) by done.
  destruct (is_locked (c_page p)).
  { exists w, (r1 ++ (a, e) :: r2). split_and!; try done. right. by eexists. }
  destruct (is_dirty (c_page p)) eqn:Hd.
  { exists w, (r1 ++ (a, e) :: r2). split_and!; try done. right. by eexists. }
  destruct (is_pinned (c_page p)).
  { exists w, (r1 ++ (a, e) :: r2). split_and!; try done. right. by eexists. }
  erewrite bind_ok by by apply (clean_page_ok _ _ p). rewrite modify_bind.
  pose proof (rp_ring _ _ H) as Hring. rewrite fmap_app, fmap_cons in Hring.
  match goal with |- context [(gets cache ≫= _) ?x] => set (w1 := x) end.
  destruct (detach_ok w1 r1.*1 a e r2.*1 Hring He) as (q & h & Hdet & Hr). rewrite Hdet.
  assert (rep (removed w a e q h) (r1 ++ r2)) as Hrep
    by (apply rep_removed; [done|by rewrite fmap_app]).
  assert (evolves None w (r1 ++ (a, e) :: r2) (removed w a e q h) (r1 ++ r2)) as Hevo.
  { destruct (page_evicted_keep (e_page e) (pages w)) as [K1 K2]. split; [done|done|].
    intros k i Hin (c & Hc & Hu) _. unfold cached in Hin |- *. rewrite fmap_app, fmap_cons in Hin.
    rewrite fmap_app. apply elem_of_app in Hin as [Hin|Hin]; [set_solver|].
    apply elem_of_cons in Hin as [[= -> ->]|Hin]; [|set_solver].
    cbn in Hc. rewrite Hp in Hc. injection Hc as <-. unfold unsaved in Hu. by rewrite Hd in Hu. }
  exists (if counted_as_evictable p then with_cache count_minus_one (removed w a e q h)
          else removed w a e q h), (r1 ++ r2).
  split; [|split; [|split; [|left; split; [|split]]]].
  - destruct (counted_as_evictable p); [by apply rep_cache_other|done].
  - by destruct Hevo; destruct (counted_as_evictable p).
  - split; [by destruct (counted_as_evictable p)|]. unfold cached.
    rewrite !fmap_app, fmap_cons. set_solver.
  - by destruct (counted_as_evictable p).
  - destruct (counted_as_evictable p); cbn; apply lookup_delete_eq.
  - intros k i Hne Hin. unfold cached in Hin |- *. rewrite fmap_app, fmap_cons in Hin.
    rewrite fmap_app. apply elem_of_app in Hin as [Hin|Hin]; [set_solver|].
    apply elem_of_cons in Hin as [[= -> ->]|Hin]; [done|set_solver].
Qed.

(** Insertion of a fresh entry after the hand. *)
Lemma rep_inserted w r r' key value q h :
  rep w r -> key ∉ (key_addr <$> r).*1 -> is_Some (pages w !! value) ->
  r' ≡ₚ (next_addr w, entry_new key value) :: r -> ring q h r'.*1 ->
  rep (mkWorld (set_hand h (set_map (<[key := next_addr w]> (map (cache w))) (set_queue q (cache w))))
         (<[next_addr w := entry_new key value]> (entries w)) (pages w) (next_addr w + 1)) r'.
Proof.
  intros H Hk Hv Hp Hring. pose proof Hring as [_ [_ Hnd]].
  destruct H as [_ Hkeys He Hm Hf Hpg Hrf].
  assert (NoDup (key_addr <$> r').*1) as Hkeys'.
  { rewrite Hp. cbn. by apply NoDup_cons. }
  split; cbn; try done.
  - rewrite (list_to_map_proper _ _ Hnd Hp). by rewrite He.
  - rewrite (list_to_map_proper (key_addr <$> r') (key_addr <$> (next_addr w, entry_new key value) :: r));
      [by rewrite Hm|done|by rewrite Hp].
  - rewrite Hp. apply Forall_cons. split; [cbn; lia|].
    eapply Forall_impl; [exact Hf|]. cbn. lia.
  - rewrite Hp. by apply Forall_cons.
  - rewrite Hp. apply Forall_cons. split; [cbn; unfold CLEAR, REF_MAX; lia|done].
Qed.

Lemma cached_elem r k i : (k, i) ∈ cached r -> k ∈ (key_addr <$> r).*1.
Proof.
  unfold cached. rewrite key_addr_keys. intros (x & [= -> ->] & Hx)%list_elem_of_fmap.
  apply list_elem_of_fmap. by exists x.
Qed.

Lemma cached_key r k : k ∈ (key_addr <$> r).*1 -> exists i, (k, i) ∈ cached r.
Proof.
  rewrite key_addr_keys. intros (x & -> & Hx)%list_elem_of_fmap.
  exists (e_page x.2). apply list_elem_of_fmap. by exists x.
Qed.

Lemma absent_mono w r w' r' k :
  rep w r -> rep w' r' -> cached r' ⊆ cached r ->
  map (cache w) !! k = None -> k ∉ (key_addr <$> r').*1.
Proof.
  intros H H' Hsub Hk Hin. apply cached_key in Hin as [i Hi].
  apply (rep_absent _ _ _ H Hk). by eapply cached_elem, Hsub.
Qed.

Lemma fresh_not_in w r : rep w r -> next_addr w ∉ r.*1.
Proof.
  intros H (x & Ex & Hx)%list_elem_of_fmap. pose proof (rp_fresh _ _ H) as Hf.
  rewrite Forall_forall in Hf. specialize (Hf x Hx). cbn in Hf. lia.
Qed.

(** The result of inserting under a key that is not cached. *)
Definition inserted (key value : Z) (bypass : bool) (w : world)
    (r : list (Z * PageCacheEntry)) (x : cres unit) : Prop :=
  exists w' r', rep w' r' /\ evolves None w r w' r' /\ same_config w w' /\
    ((x = COk w' tt /\ (key, value) ∈ cached r' /\
      (bypass = false -> lenZ r' <= capacity (cache w))) \/
     (x = CErr w' Full /\ map (cache w') !! key = None)).

Lemma insert_fresh_ok w r key value bypass :
  rep w r -> map (cache w) !! key = None -> is_Some (pages w !! value) ->
  inserted key value bypass w r (insert_fresh key value bypass w).
Proof.
  intros H Hk Hv. unfold insert_fresh.
  destruct (make_room_for_ok w r 1 bypass H ltac:(lia))
    as (w1 & r1 & H1 & He1 & Hc1 & Hs1 & [[Hroom Hlen]|Hfull]).
  2:{ exists w1, r1. rewrite (bind_err _ _ _ _ _ Hfull). split_and!; try done. right.
      split; [done|]. apply (rep_absent_2 _ _ _ H1). by apply (absent_mono w r w1). }
  rewrite (bind_ok _ _ _ _ _ Hroom).
  pose proof (absent_mono _ _ _ _ _ H H1 Hs1 Hk) as Hk1.
  destruct (ev_pages _ _ _ _ _ He1 _ Hv) as [v Hv1].
  rewrite (page_bind _ _ v), gets_bind, modify_bind, gets_bind by done.
  cbn [cache]. set (a := next_addr w1). set (x := (a, entry_new key value)).
  pose proof (fresh_not_in _ _ H1) as Hfresh. fold a in Hfresh.
  assert (exists q h r2, r2 ≡ₚ x :: r1 /\ ring q h r2.*1 /\ forall B (k : unit -> M B),
    (match clock_hand (cache w1) with
     | None => modify (with_cache (fun c =>
         set_hand (Some a) (set_map (<[key := a]> (map c)) (set_queue (queue c ++ [a]) c))))
     | Some h => match insert_after (queue (cache w1)) h a with
         | None => panic
         | Some q => modify (with_cache (fun c => set_map (<[key := a]> (map c)) (set_queue q c)))
         end
     end ≫= k)
      (mkWorld (cache w1) (<[a := entry_new key value]> (entries w1)) (pages w1) (a + 1)) =
    k tt (mkWorld (set_hand h (set_map (<[key := a]> (map (cache w1))) (set_queue q (cache w1))))
            (<[a := entry_new key value]> (entries w1)) (pages w1) (a + 1)))
    as (q & h & r2 & Hp & Hring & Hrun).
  { pose proof (rp_ring _ _ H1) as Hring. pose proof Hring as [_ [Hh _]].
    destruct r1 as [|[b eb] t].
    - destruct (ring_empty _ _ Hring) as [Hq _]. cbn in Hh. rewrite Hh. exists [a], (Some a), [x].
      split; [done|].
      split; [by split; [exists [], [a]|split; [done|apply NoDup_singleton]]|].
      intros B k. rewrite modify_bind. unfold with_cache. cbn. by rewrite Hq.
    - cbn in Hh, Hring, Hfresh. rewrite Hh in Hring |- *.
      destruct (ring_insert _ _ _ a Hring Hfresh) as (q & -> & Hr).
      exists q, (Some b), ((b, eb) :: x :: t). split; [apply Permutation_swap|].
      split; [done|]. intros B k. rewrite modify_bind. f_equal. unfold with_cache, set_hand, set_map, set_queue.
      cbn [cache entries pages next_addr capacity map queue clock_hand spill_threshold
        spill_enabled evictable_count]. by rewrite Hh. }
  rewrite Hrun.
  pose proof (rep_inserted w1 r1 r2 key value q h H1 Hk1 ltac:(by eexists) Hp Hring) as Hrep.
  fold a in Hrep. set (w2 := mkWorld _ _ _ _) in Hrep |- *.
  assert (cached r2 ≡ₚ (key, value) :: cached r1) as Hc2 by (unfold cached; by rewrite Hp).
  exists (if counted_as_evictable v then with_cache count_plus_one w2 else w2), r2.
  split; [|split; [|split; [|left; split; [|split]]]].
  - destruct (counted_as_evictable v); [by apply rep_cache_other|done].
  - eapply evolves_trans; [exact He1|].
    destruct (counted_as_evictable v); (split; [done|done|]);
      intros k i Hin _ _; rewrite Hc2; apply elem_of_cons; by right.
  - by destruct (counted_as_evictable v).
  - by destruct (counted_as_evictable v).
  - rewrite Hc2. apply elem_of_cons. by left.
  - intros Hb. specialize (Hlen Hb). apply Permutation_length in Hp. unfold lenZ in *.
    cbn in Hp. lia.
Qed.

(** Dropping a reference of an owned argument on errors. *)
Lemma drop_evolves w r i :
  rep w r ->
  let w' := with_pages (alter (fun c => mkCell (c_page c) (c_strong c - 1)) i) w in
  rep w' r /\ evolves None w r w' r /\ same_config w w'.
Proof.
  intros H. cbv zeta. split; [by apply rep_alter_page|]. split; [|done].
  destruct (alter_pages_keep (fun c => mkCell (c_page c) (c_strong c - 1)) i (pages w)); [done|].
  by split.
Qed.

Lemma clone_evolves w r i :
  rep w r ->
  let w' := with_pages (alter (fun c => mkCell (c_page c) (c_strong c + 1)) i) w in
  rep w' r /\ evolves None w r w' r /\ same_config w w'.
Proof.
  intros H. cbv zeta. split; [by apply rep_alter_page|]. split; [|done].
  destruct (alter_pages_keep (fun c => mkCell (c_page c) (c_strong c + 1)) i (pages w)); [done|].
  by split.
Qed.

(** Replacing the entry of a key by one with the page [v]. *)
Lemma put_evolves w r1 a e e' r2 :
  rep w (r1 ++ (a, e) :: r2) -> e_key e' = e_key e -> is_Some (pages w !! e_page e') ->
  0 <= e_ref_bit e' <= REF_MAX ->
  rep (with_entries <[a := e']> w) (r1 ++ (a, e') :: r2) /\
  evolves (if decide (e_page e' = e_page e) then None else Some (e_key e))
    w (r1 ++ (a, e) :: r2) (with_entries <[a := e']> w) (r1 ++ (a, e') :: r2).
Proof.
  intros H Hk Hp Hr. split; [by apply (rep_put w r1 a e)|].
  split; [done|done|]. intros k i Hin _ Hex. unfold cached in Hin |- *.
  rewrite fmap_app, fmap_cons in Hin |- *. cbn in Hin |- *.
  apply elem_of_app in Hin as [Hin|Hin]; [set_solver|].
  apply elem_of_cons in Hin as [[= -> ->]|Hin]; [|set_solver].
  case_decide as E; [|done]. rewrite Hk, E. set_solver.
Qed.

Lemma bump_ref_ok e : 0 <= e_ref_bit e <= REF_MAX -> 0 <= e_ref_bit (bump_ref e) <= REF_MAX.
Proof. cbn. unfold REF_MAX. lia. Qed.

(** The update in place of [_insert]. *)
Lemma update_ok w r1 a e r2 p value :
  rep w (r1 ++ (a, e) :: r2) -> is_Some (pages w !! value) ->
  exists w' r', rep w' r' /\ evolves (Some (e_key e)) w (r1 ++ (a, e) :: r2) w' r' /\
    same_config w w' /\
    (v ← page_of value;
     _ ← (if counted_as_evictable p && negb (counted_as_evictable v)
          then modify (with_cache count_minus_one)
          else if negb (counted_as_evictable p) && counted_as_evictable v
          then modify (with_cache count_plus_one) else mret tt);
     _ ← put_entry a (mkEntry (e_key e) value (e_ref_bit e));
     drop_ref (e_page e)) w = COk w' tt /\ (e_key e, value) ∈ cached r'.
Proof.
  intros H [v Hv]. pose proof (rep_at _ _ _ _ _ H) as (_ & _ & _ & Hr).
  rewrite (page_bind _ _ v) by done.
  assert (exists f, (forall (k : unit -> M unit),
    ((if counted_as_evictable p && negb (counted_as_evictable v)
      then modify (with_cache count_minus_one)
      else if negb (counted_as_evictable p) && counted_as_evictable v
      then modify (with_cache count_plus_one) else mret tt) ≫= k) w = k tt (with_cache f w)) /\
    rep (with_cache f w) (r1 ++ (a, e) :: r2) /\ same_config w (with_cache f w)) as (f & Hf & H2 & Hc2).
  { destruct (counted_as_evictable p), (counted_as_evictable v); cbn [andb negb].
    2: exists count_minus_one. 3: exists count_plus_one. 1, 4: exists id.
    all: split; [done || (intros; by destruct w)|split; [by apply rep_cache_other|done]]. }
  rewrite Hf. unfold put_entry. rewrite modify_bind.
  destruct (put_evolves _ r1 a e (mkEntry (e_key e) value (e_ref_bit e)) r2
              H2 eq_refl ltac:(by eexists) Hr) as [H3 He3].
  destruct (drop_evolves _ _ (e_page e) H3) as (H4 & He4 & Hc4).
  eexists _, _. split; [exact H4|]. split; [|split; [exact Hc2|split; [done|]]].
  - eapply evolves_trans; [|apply evolves_weaken, He4].
    destruct He3 as [K1 K2 K3]. split; [done|done|].
    intros k i Hin Hu Hne. apply K3; [done|done|]. by destruct (decide _).
  - unfold cached. rewrite fmap_app, fmap_cons. set_solver.
Qed.

(** The assertion of [insert]: under [key] there is another page that is loaded or
    being read. *)
Definition insert_clash (w : world) (key value : Z) : bool :=
  match map (cache w) !! key with
  | Some a =>
      match entries w !! a with
      | Some e =>
          match pages w !! e_page e with
          | Some p => (is_loaded (c_page p) || is_locked (c_page p)) && negb (e_page e =? value)
          | None => false
          end
      | None => false
      end
  | None => false
  end.

Definition same_page_cached (w : world) (key value : Z) : Prop :=
  forall a e p, map (cache w) !! key = Some a -> entries w !! a = Some e ->
    pages w !! e_page e = Some p -> is_loaded (c_page p) || is_locked (c_page p) = true ->
    e_page e = value.

Definition insert_done (key value : Z) (upd bypass : bool) (w : world)
    (r : list (Z * PageCacheEntry)) (x : cres unit) : Prop :=
  exists w' r', rep w' r' /\ evolves (if upd then Some key else None) w r w' r' /\
    same_config w w' /\
    ((x = COk w' tt /\ (key, value) ∈ cached r' /\
      (bypass = false -> map (cache w) !! key = None -> lenZ r' <= capacity (cache w))) \/
     (exists e, x = CErr w' e /\ (map (cache w) !! key = None -> e = Full) /\
      (e = Full -> map (cache w') !! key = None))).

Lemma insert_done_fresh key value upd bypass w r w1 r1 :
  evolves None w r w1 r1 -> same_config w w1 ->
  inserted key value bypass w1 r1 (insert_fresh key value bypass w1) ->
  insert_done key value upd bypass w r
    (or_drop value (insert_fresh key value bypass) w1).
Proof.
  intros He1 Hc1 (w2 & r2 & H2 & He2 & Hc2 & Hcase). unfold or_drop.
  destruct Hcase as [(-> & Hin & Hlen)|[-> Hno]].
  - exists w2, r2. split; [done|].
    split; [apply evolves_weaken; by eapply evolves_trans|].
    split; [by eapply same_config_trans|]. left. split; [done|]. split; [done|].
    intros Hb _. destruct Hc1 as (<- & _). by apply Hlen.
  - destruct (drop_evolves w2 r2 value H2) as (H3 & He3 & Hc3).
    eexists _, r2. split; [exact H3|].
    split; [apply evolves_weaken; eapply evolves_trans; [exact He1|by eapply evolves_trans]|].
    split; [eapply same_config_trans; [exact Hc1|by eapply same_config_trans]|].
    right. exists Full. done.
Qed.

Lemma insert_impl_ok w r key value upd bypass :
  rep w r -> is_Some (pages w !! value) ->
  (upd = false -> same_page_cached w key value) ->
  insert_done key value upd bypass w r (insert_impl key value upd bypass w).
Proof.
  intros H Hv Hsame. unfold insert_impl, or_drop at 1. rewrite gets_bind.
  destruct (map (cache w) !! key) as [a|] eqn:Hk.
  2:{ apply (insert_done_fresh key value upd bypass w r w r); [done|done|].
      by apply insert_fresh_ok. }
  destruct (rep_find _ _ _ _ H Hk) as (r1 & e & r2 & -> & <-).
  pose proof (rep_at _ _ _ _ _ H) as (_ & He & [p Hp] & Hr).
  rewrite (deref_bind _ _ e), (page_bind _ _ p) by done.
  destruct (negb (is_loaded (c_page p)) && negb (is_locked (c_page p))) eqn:Hload.
  - destruct (delete_entry_ok w _ (e_key e) H) as (w1 & r3 & H1 & He1 & [Hc1 _] & Hcase).
    destruct Hcase as [(Hdel & Hnone & _)|(err & Hdel & Hnf & -> & ->)].
    + rewrite (bind_ok _ _ _ _ _ Hdel).
      apply (insert_done_fresh _ value upd bypass w _ w1 r3); [done|done|].
      apply insert_fresh_ok; [done|done|]. by apply (ev_pages _ _ _ _ _ He1).
    + rewrite (bind_err _ _ _ _ _ Hdel).
      destruct (drop_evolves w _ value H) as (H3 & He3 & Hc3).
      eexists _, _. split; [exact H3|]. split; [by apply evolves_weaken|]. split; [done|].
      right. exists err. split_and!; [done|congruence|congruence].
  - rewrite (bind_ok w (put_entry a (bump_ref e)) _ (with_entries <[a := bump_ref e]> w) tt eq_refl).
    destruct (put_evolves w r1 a e (bump_ref e) r2 H eq_refl ltac:(by eexists) (bump_ref_ok _ Hr))
      as [H1 He1]. cbn [e_page bump_ref] in He1. rewrite decide_True in He1 by done.
    set (w1 := with_entries _ w) in *. destruct upd.
    + destruct (update_ok w1 r1 a (bump_ref e) r2 p value H1 Hv) as (w2 & r4 & H2 & He2 & Hc2 & -> & Hin).
      exists w2, r4. split; [done|].
      split; [eapply evolves_trans; [apply evolves_weaken, He1|exact He2]|]. split; [done|].
      left. split; [done|]. split; [done|congruence].
    + assert ((e_page (bump_ref e) =? value) = true) as ->.
      { apply Z.eqb_eq. apply (Hsame eq_refl a e p Hk He Hp).
        destruct (is_loaded (c_page p)), (is_locked (c_page p)); done. }
      unfold m_assert. rewrite mret_bind. unfold throw.
      destruct (drop_evolves _ _ value H1) as (H4 & He4 & Hc4).
      eexists _, _. split; [exact H4|]. split; [by eapply evolves_trans|]. split; [done|].
      right. exists KeyExists. split_and!; [done|congruence|done].
Qed.

Lemma no_clash_same w key value : insert_clash w key value = false -> same_page_cached w key value.
Proof.
  unfold insert_clash. intros H a e p Ha He Hp Hl. rewrite Ha, He, Hp, Hl in H.
  apply Z.eqb_eq. by destruct (e_page e =? value).
Qed.

Lemma insert_clash_panics w key value bypass :
  insert_clash w key value = true -> insert_impl key value false bypass w = CPanic.
Proof.
  unfold insert_clash. intros H. destruct (map (cache w) !! key) as [a|] eqn:Ha; [|done].
  destruct (entries w !! a) as [e|] eqn:He; [|done]. destruct (pages w !! e_page e) as [p|] eqn:Hp; [|done].
  apply andb_prop in H as [Hl Hne]. apply negb_true_iff in Hne.
  unfold insert_impl, or_drop. rewrite gets_bind, Ha, (deref_bind _ _ e), (page_bind _ _ p) by done.
  replace (negb (is_loaded (c_page p)) && negb (is_locked (c_page p))) with false by (by destruct (is_loaded _), (is_locked _)).
  rewrite (bind_ok w (put_entry a (bump_ref e)) _ (with_entries <[a := bump_ref e]> w) tt eq_refl).
  unfold m_assert. cbn [e_page bump_ref]. by rewrite Hne.
Qed.

Lemma force_clash_panics w key value : insert_clash w key value = true -> force_insert_page key value w = CPanic.
Proof.
  intros H. unfold force_insert_page, clone_ref. rewrite modify_bind. unfold or_when_full, cache_insert.
  rewrite insert_clash_panics; [done|]. unfold insert_clash in *. cbn.
  destruct (map (cache w) !! key) as [a|]; [|done]. destruct (entries w !! a) as [e|]; [|done]. rewrite lookup_alter.
  destruct (pages w !! e_page e) as [p|]; [|done]. destruct (decide (value = e_page e)) as [->|]; [|done].
  by rewrite Z.eqb_refl, andb_false_r in H.
Qed.

(** Forced insertion retries without the capacity check. *)
Lemma force_ok w r key value upd :
  rep w r -> is_Some (pages w !! value) ->
  (upd = false -> same_page_cached w key value) ->
  let m := _ ← clone_ref value;
           or_when_full value (insert_impl key value upd false) (insert_impl key value upd true) in
  exists w' r', rep w' r' /\ evolves (if upd then Some key else None) w r w' r' /\
    same_config w w' /\
    ((m w = COk w' tt /\ (key, value) ∈ cached r') \/ (exists e, m w = CErr w' e)).
Proof.
  intros H Hv Hsame m.
  destruct (clone_evolves w r value H) as (H0 & He0 & Hc0).
  set (w0 := with_pages _ w) in *.
  assert (m w = or_when_full value (insert_impl key value upd false)
                  (insert_impl key value upd true) w0) as -> by done.
  assert (upd = false -> same_page_cached w0 key value) as Hsame0.
  { intros Hu a e p Ha He Hp Hl. specialize (Hsame Hu). cbn in Ha, He, Hp.
    rewrite lookup_alter in Hp. destruct (decide (value = e_page e)) as [->|]; [done|].
    by eapply Hsame. }
  destruct (insert_impl_ok w0 r key value upd false H0 (ev_pages _ _ _ _ _ He0 _ Hv) Hsame0)
    as (w1 & r1 & H1 & He1 & Hc1 & Hcase).
  unfold or_when_full. destruct Hcase as [(-> & Hin & _)|(e & -> & _ & Hfull)].
  { destruct (drop_evolves w1 r1 value H1) as (H2 & He2 & Hc2).
    eexists _, r1. split; [exact H2|].
    split; [eapply evolves_trans; [apply evolves_weaken, He0|]; eapply evolves_trans;
            [exact He1|apply evolves_weaken, He2]|].
    split; [by eapply same_config_trans|]. left. done. }
  destruct (decide (e = Full)) as [->|Hne].
  - destruct (insert_impl_ok w1 r1 key value upd true H1) as (w2 & r2 & H2 & He2 & Hc2 & Hcase2).
    { by apply (ev_pages _ _ _ _ _ He1), (ev_pages _ _ _ _ _ He0). }
    { intros _ a e p Ha. rewrite Hfull in Ha by done. done. }
    exists w2, r2. split; [done|].
    split; [eapply evolves_trans; [apply evolves_weaken, He0|by eapply evolves_trans]|].
    split; [eapply same_config_trans; [exact Hc0|by eapply same_config_trans]|].
    destruct Hcase2 as [(? & ? & _)|(e & ? & _)]; [by left|right; by exists e].
  - destruct (drop_evolves w1 r1 value H1) as (H2 & He2 & Hc2).
    eexists _, r1. split; [exact H2|].
    split; [eapply evolves_trans; [apply evolves_weaken, He0|]; eapply evolves_trans;
            [exact He1|apply evolves_weaken, He2]|].
    split; [by eapply same_config_trans|]. right. exists e. by destruct e.
Qed.

(** Lookup. *)
Lemma cache_get_ok w r key :
  rep w r ->
  exists w' r', rep w' r' /\ evolves None w r w' r' /\ same_config w w' /\
    ((exists i p, cache_get key w = COk w' (Some i) /\ (key, i) ∈ cached r /\
        pages w !! i = Some p /\ is_loaded (c_page p) || is_locked (c_page p) = true) \/
     (cache_get key w = COk w' None /\ map (cache w') !! key = None) \/
     exists e, cache_get key w = CErr w' e).
Proof.
  intros H. unfold cache_get. rewrite gets_bind.
  destruct (map (cache w) !! key) as [a|] eqn:Hk.
  2:{ exists w, r. split_and!; try done. right; left. done. }
  destruct (rep_find _ _ _ _ H Hk) as (r1 & e & r2 & -> & <-).
  pose proof (rep_at _ _ _ _ _ H) as (_ & He & [p Hp] & Hr).
  rewrite (deref_bind _ _ e) by done. unfold clone_ref. rewrite modify_bind.
  destruct (clone_evolves w _ (e_page e) H) as (H0 & He0 & Hc0). set (w0 := with_pages _ w) in *.
  rewrite (page_bind w0 (e_page e) (mkCell (c_page p) (c_strong p + 1)))
    by (cbn; by rewrite lookup_alter_eq, Hp).
  cbn [c_page]. destruct (negb (is_loaded (c_page p)) && negb (is_locked (c_page p))) eqn:Hl.
  - destruct (delete_entry_ok w0 _ (e_key e) H0) as (w1 & r3 & H1 & He1 & [Hc1 _] & Hcase).
    assert (forall (m : M unit), or_drop (e_page e) m w0 = match m w0 with
      | CErr w' e0 => CErr (with_pages (alter (fun c => mkCell (c_page c) (c_strong c - 1)) (e_page e)) w') e0
      | x => x end) as Hod by done.
    destruct Hcase as [(Hdel & Hno & _)|(err & Hdel & _ & -> & ->)].
    + rewrite (bind_ok _ _ _ w1 tt) by (unfold cache_delete; by rewrite Hod, Hdel).
      destruct (drop_evolves w1 r3 (e_page e) H1) as (H2 & He2 & Hc2).
      unfold drop_ref. rewrite modify_bind. eexists _, r3. split; [exact H2|].
      split; [eapply evolves_trans; [exact He0|by eapply evolves_trans]|].
      split; [by eapply same_config_trans|]. right; left. done.
    + destruct (drop_evolves w0 _ (e_page e) H0) as (H2 & He2 & Hc2).
      erewrite bind_err by (unfold cache_delete; by rewrite Hod, Hdel).
      eexists _, _. split; [exact H2|]. split; [by eapply evolves_trans|]. split; [done|].
      right; right. by eexists.
  - unfold put_entry. rewrite modify_bind.
    destruct (put_evolves w0 r1 a e (bump_ref e) r2 H0 eq_refl (ev_pages _ _ _ _ _ He0 _ ltac:(by eexists))
                (bump_ref_ok _ Hr)) as [H1 He1]. cbn [e_page bump_ref] in He1.
    rewrite decide_True in He1 by done.
    eexists _, _. split; [exact H1|]. split; [by eapply evolves_trans|]. split; [done|]. left.
    exists (e_page e), p. split_and!; [done| |done|].
    + unfold cached. rewrite fmap_app, fmap_cons. set_solver.
    + destruct (is_loaded (c_page p)), (is_locked (c_page p)); done.
Qed.

Lemma peek_ok w r key touch :
  rep w r ->
  exists w' r' v, rep w' r' /\ evolves None w r w' r' /\ same_config w w' /\
    peek key touch w = COk w' v /\ (forall i, v = Some i -> (key, i) ∈ cached r).
Proof.
  intros H. unfold peek. rewrite gets_bind.
  destruct (map (cache w) !! key) as [a|] eqn:Hk; [|by exists w, r, None].
  destruct (rep_find _ _ _ _ H Hk) as (r1 & e & r2 & -> & <-).
  pose proof (rep_at _ _ _ _ _ H) as (_ & He & [p Hp] & Hr).
  rewrite (deref_bind _ _ e) by done. unfold clone_ref. rewrite modify_bind.
  destruct (clone_evolves w _ (e_page e) H) as (H0 & He0 & Hc0). set (w0 := with_pages _ w) in *.
  assert ((e_key e, e_page e) ∈ cached (r1 ++ (a, e) :: r2)) as Hin
    by (unfold cached; rewrite fmap_app, fmap_cons; set_solver).
  destruct touch.
  - unfold put_entry. rewrite modify_bind.
    destruct (put_evolves w0 r1 a e (bump_ref e) r2 H0 eq_refl (ev_pages _ _ _ _ _ He0 _ ltac:(by eexists))
                (bump_ref_ok _ Hr)) as [H1 He1]. cbn [e_page bump_ref] in He1.
    rewrite decide_True in He1 by done.
    eexists _, _, _. split; [exact H1|]. split; [by eapply evolves_trans|]. split; [done|].
    split; [done|]. by intros i [= <-].
  - eexists _, _, _. split; [exact H0|]. split; [done|]. split; [done|].
    split; [done|]. by intros i [= <-].
Qed.

(** Resizing. *)
Lemma resize_loop_ok k new_cap : forall w r,
  rep w r -> 0 <= new_cap -> (length r <= k)%nat ->
  exists w' r', rep w' r' /\ evolves None w r w' r' /\
    ((resize_loop k new_cap w = COk w' ResizeDone /\ lenZ r' <= new_cap /\
      capacity (cache w') = new_cap) \/
     (resize_loop k new_cap w = COk w' PendingEvictions /\
      capacity (cache w') = capacity (cache w))).
Proof.
  induction k as [|k IH]; intros w r H Hn Hk; destruct (rep_len _ _ H) as [Hl _];
    cbn [resize_loop]; rewrite Hl;
    (destruct (Z.ltb_spec new_cap (lenZ r)) as [Hlt|Hge];
     [|exists (with_cache (set_capacity new_cap
         (Z.max (new_cap * DEFAULT_SPILL_THRESHOLD_PERCENT / 100) 1)) w), r;
       split; [by apply rep_cache_other|split; [by split|by left]]]).
  - unfold lenZ in Hlt. lia.
  - destruct (evict_one_evolves w r H) as (w1 & r1 & H1 & He1 & Hc1 & Hs1 & Hcase).
    { intros ->. unfold lenZ in Hlt. cbn in Hlt. lia. }
    destruct Hcase as [[-> Hlen]|[-> Hlen]].
    + destruct (IH w1 r1 H1 Hn ltac:(lia)) as (w2 & r2 & H2 & He2 & Hcase2).
      exists w2, r2. split; [done|]. split; [by eapply evolves_trans|].
      destruct Hc1 as (Hcap & _). rewrite Hcap in Hcase2. done.
    + exists w1, r1. split; [done|]. split; [done|]. right. split; [done|]. apply Hc1.
Qed.

Lemma notify_ok f w r key :
  (forall c, queue (f c) = queue c /\ clock_hand (f c) = clock_hand c /\ map (f c) = map c /\
     capacity (f c) = capacity c /\ spill_threshold (f c) = spill_threshold c /\
     spill_enabled (f c) = spill_enabled c) ->
  rep w r ->
  exists w', rep w' r /\ evolves None w r w' r /\ same_config w w' /\ notify_with f key w = COk w' tt.
Proof.
  intros Hf H. unfold notify_with. rewrite gets_bind.
  destruct (map (cache w) !! key) as [a|] eqn:Hk; [|by exists w].
  destruct (rep_find _ _ _ _ H Hk) as (r1 & e & r2 & -> & <-).
  pose proof (rep_at _ _ _ _ _ H) as (_ & He & [p Hp] & Hr).
  rewrite (deref_bind _ _ e), (page_bind _ _ p) by done.
  destruct (negb (pg_id (c_page p) =? HEADER_PAGE_ID)); [|by exists w].
  destruct (Hf (cache w)) as (? & ? & ? & ? & ? & ?).
  exists (with_cache f w). split; [by apply rep_cache_other|]. split; [by split|]. split; done.
Qed.

(** ** Operations that iterate over the map *)

(** Reading the pages of cached keys changes nothing. *)
Lemma pages_at_ok w r keys :
  rep w r -> Forall (fun k => is_Some (map (cache w) !! k)) keys ->
  exists ps, pages_at keys w = COk w ps /\
    Forall2 (fun k x => (k, x.1) ∈ cached r /\ pages w !! x.1 = Some x.2) keys ps.
Proof.
  intros H. induction keys as [|k keys IH]; intros Hk; [by exists []|].
  apply Forall_cons in Hk as [[a Ha] Hk]. destruct (IH Hk) as (ps & Hps & Hall).
  cbn [pages_at]. rewrite gets_bind, Ha.
  destruct (rep_find _ _ _ _ H Ha) as (r1 & e & r2 & -> & <-).
  pose proof (rep_at _ _ _ _ _ H) as (_ & He & [p Hp] & _).
  rewrite (deref_bind _ _ e), (page_bind _ _ p), (bind_ok _ _ _ _ _ Hps) by done.
  exists ((e_page e, p) :: ps). split; [done|]. constructor; [|done]. cbn.
  split; [|done]. unfold cached. rewrite fmap_app, fmap_cons. set_solver.
Qed.

Lemma pin_all_ok rs : forall w r,
  rep w r -> Forall (fun i => is_Some (pages w !! i)) rs ->
  exists w', rep w' r /\ evolves None w r w' r /\ same_config w w' /\ pin_all rs w = COk w' tt.
Proof.
  induction rs as [|i rs IH]; intros w r H Hrs; [by exists w|].
  apply Forall_cons in Hrs as [[p Hp] Hrs]. cbn [pin_all]. unfold clone_ref. rewrite modify_bind.
  destruct (clone_evolves w r i H) as (H0 & He0 & Hc0). set (w0 := with_pages _ w) in *.
  rewrite (page_bind w0 i (mkCell (c_page p) (c_strong p + 1)))
    by (cbn; by rewrite lookup_alter_eq, Hp).
  unfold put_page. rewrite modify_bind.
  set (w1 := with_pages _ w0).
  assert (evolves None w0 r w1 r) as He1.
  { assert (pages w1 = alter (fun c => mkCell (pin (c_page c)) (c_strong c)) i (pages w0)) as Ep.
    { cbn. eapply alter_known; [by rewrite lookup_alter_eq, Hp|done]. }
    destruct (alter_pages_keep (fun c => mkCell (pin (c_page c)) (c_strong c)) i (pages w0)); [done|].
    split; rewrite ?Ep; done. }
  destruct (IH w1 r) as (w2 & H2 & He2 & Hc2 & Hrun).
  { by apply rep_alter_page. }
  { eapply Forall_impl; [exact Hrs|]. intros j Hj.
    by apply (ev_pages _ _ _ _ _ He1), (ev_pages _ _ _ _ _ He0). }
  exists w2. split; [done|]. split; [eapply evolves_trans; [exact He0|by eapply evolves_trans]|].
  split; [done|exact Hrun].
Qed.

Lemma delete_keys_ok keys : forall w r,
  rep w r ->
  exists w' r', rep w' r' /\ evolves None w r w' r' /\ same_config w w' /\
    cached r' ⊆ cached r /\ ends (delete_keys keys w) w' /\
    (delete_keys keys w = COk w' tt -> forall k, k ∈ keys -> map (cache w') !! k = None).
Proof.
  induction keys as [|k keys IH]; intros w r H.
  { exists w, r. split_and!; try done; [left; by eexists|]. set_solver. }
  cbn [delete_keys]. unfold cache_delete.
  destruct (delete_entry_ok w r k H) as (w1 & r1 & H1 & He1 & [Hc1 Hs1] & Hcase).
  destruct Hcase as [(Hdel & Hno & _)|(err & Hdel & _ & -> & ->)].
  - destruct (IH w1 r1 H1) as (w2 & r2 & H2 & He2 & Hc2 & Hs2 & Hends & Hgone).
    rewrite (bind_ok _ _ _ _ _ Hdel). exists w2, r2.
    split_and!; [done|by eapply evolves_trans|by eapply same_config_trans|by etrans|done|].
    intros Hok j [->|Hj]%elem_of_cons; [|by apply Hgone].
    apply (rep_absent_2 _ _ _ H2). by apply (absent_mono w1 r1 w2).
  - rewrite (bind_err _ _ _ _ _ Hdel). exists w, r. split_and!; try done. right. by eexists.
Qed.

(** Pages kept, as lists of pages are cleaned or dropped. *)
Lemma clean_all_ok rs : forall w,
  Forall (fun i => is_Some (pages w !! i)) rs ->
  exists pg, clean_all rs w = COk (with_pages (fun _ => pg) w) tt /\
    (forall j, is_Some (pages w !! j) -> is_Some (pg !! j)) /\
    (forall j, unsaved_at (pages w) j -> unsaved_at pg j).
Proof.
  induction rs as [|i rs IH]; intros w Hrs.
  { exists (pages w). by destruct w. }
  apply Forall_cons in Hrs as [[p Hp] Hrs]. cbn [clean_all].
  rewrite (bind_ok _ _ _ _ _ (clean_page_ok _ _ p Hp)).
  set (f := fun c => mkCell (take_buffer (clear_loaded (c_page c))) (c_strong c)).
  destruct (alter_pages_keep f i (pages w)) as [K1 K2]; [intros; apply unsaved_cleaned|].
  destruct (IH (with_pages (alter f i) w)) as (pg & -> & K3 & K4).
  { eapply Forall_impl; [exact Hrs|]. intros j Hj. by apply K1. }
  exists pg. split; [done|]. cbn in K3, K4. auto.
Qed.

Lemma drop_all_ok rs : forall w,
  exists pg, drop_all rs w = COk (with_pages (fun _ => pg) w) tt /\
    (forall j, is_Some (pages w !! j) -> is_Some (pg !! j)) /\
    (forall j, unsaved_at (pages w) j -> unsaved_at pg j).
Proof.
  induction rs as [|i rs IH]; intros w; [by exists (pages w); destruct w|].
  cbn [drop_all]. unfold drop_ref. rewrite modify_bind.
  set (f := fun c => mkCell (c_page c) (c_strong c - 1)).
  destruct (alter_pages_keep f i (pages w)) as [K1 K2]; [done|].
  destruct (IH (with_pages (alter f i) w)) as (pg & -> & K3 & K4).
  exists pg. split; [done|]. cbn in K3, K4. auto.
Qed.

(** A key is cached with one page. *)
Lemma cached_fun w r k i j : rep w r -> (k, i) ∈ cached r -> (k, j) ∈ cached r -> i = j.
Proof.
  intros H Hi Hj. pose proof (rp_keys _ _ H) as Hnd. rewrite key_addr_keys in Hnd.
  apply list_elem_of_fmap in Hi as (x & [= -> ->] & Hx).
  apply list_elem_of_fmap in Hj as (y & [= Hk ->] & Hy).
  apply list_elem_of_lookup in Hx as [n Hn]. apply list_elem_of_lookup in Hy as [m Hm].
  assert (n = m) as ->; [|congruence].
  eapply NoDup_lookup; [exact Hnd| |]; rewrite list_lookup_fmap.
  - by rewrite Hn.
  - rewrite Hm. cbn. by rewrite Hk.
Qed.

Section Order.
Context (hash_order : gmap Z Z -> list Z).
(** Iterating over the hash map visits every key once. *)
Hypothesis hash_order_keys : forall m, hash_order m ≡ₚ (map_to_list m).*1.

Lemma hash_order_present w :
  Forall (fun k => is_Some (map (cache w) !! k)) (hash_order (map (cache w))).
Proof.
  rewrite hash_order_keys. apply Forall_forall. intros k (x & -> & Hx)%list_elem_of_fmap.
  destruct x as [k a]. apply elem_of_map_to_list in Hx. by exists a.
Qed.

(** Every cached key with its page is visited. *)
Lemma hash_order_covers w r k i :
  rep w r -> (k, i) ∈ cached r -> k ∈ hash_order (map (cache w)).
Proof.
  intros H Hin. rewrite hash_order_keys. apply cached_elem in Hin.
  destruct (map (cache w) !! k) as [a|] eqn:Hk.
  - apply list_elem_of_fmap. exists (k, a). split; [done|]. by apply elem_of_map_to_list.
  - by destruct (rep_absent _ _ _ H Hk).
Qed.

Lemma count_evictable_ok w r :
  rep w r -> exists n, count_evictable_pages hash_order w = COk w n.
Proof.
  intros H. unfold count_evictable_pages. rewrite gets_bind.
  destruct (pages_at_ok w r _ H (hash_order_present w)) as (ps & Hps & _).
  rewrite (bind_ok _ _ _ _ _ Hps). by eexists.
Qed.

Lemma needs_spill_ok w r : rep w r -> exists b, needs_spill hash_order w = COk w b.
Proof.
  intros H. unfold needs_spill. rewrite gets_bind. case_match; [by eexists|].
  case_match; [by eexists|]. destruct (count_evictable_ok w r H) as [n Hn].
  rewrite (bind_ok _ _ _ _ _ Hn). by eexists.
Qed.

Lemma take_spillable_sub max ps : forall acc x,
  x ∈ take_spillable max ps acc -> x ∈ acc \/ x ∈ ps /\ spillable x.2 = true.
Proof.
  induction ps as [|y ps IH]; intros acc x; cbn [take_spillable]; [by left|].
  destruct (spillable y.2) eqn:Hy; case_match.
  - intros [?| ->%list_elem_of_singleton]%elem_of_app; [by left|right; set_solver].
  - intros [[?| ->%list_elem_of_singleton]%elem_of_app|[? ?]]%IH; [by left|right; set_solver|right; set_solver].
  - by left.
  - intros [?|[? ?]]%IH; [by left|right; set_solver].
Qed.

Lemma sort_insert_perm x l : sort_insert x l ≡ₚ x :: l.
Proof.
  induction l as [|y l IH]; [done|]. cbn [sort_insert]. case_match; [done|].
  rewrite IH. apply Permutation_swap.
Qed.

Lemma sort_by_id_perm l : sort_by_id l ≡ₚ l.
Proof.
  induction l as [|x l IH]; [done|]. unfold sort_by_id in *. cbn [foldr].
  by rewrite sort_insert_perm, IH.
Qed.

(** The pages collected for spilling are cached, and each was spillable. *)
Lemma collect_ok w r max :
  rep w r ->
  exists w' ids, rep w' r /\ evolves None w r w' r /\ same_config w w' /\
    collect_spillable_pages hash_order max w = COk w' ids /\
    Forall (fun i => exists k c, (k, i) ∈ cached r /\ pages w !! i = Some c /\ spillable c = true) ids.
Proof.
  intros H. unfold collect_spillable_pages. rewrite gets_bind.
  case_match; [exists w, []; split_and!; done|].
  destruct (pages_at_ok w r _ H (hash_order_present w)) as (ps & Hps & Hall).
  rewrite (bind_ok _ _ _ _ _ Hps).
  set (ids := fst <$> _).
  assert (Forall (fun i => exists k c, (k, i) ∈ cached r /\ pages w !! i = Some c /\
            spillable c = true) ids) as Hids.
  { apply Forall_forall. intros i (x & -> & Hx)%list_elem_of_fmap.
    rewrite sort_by_id_perm in Hx. apply take_spillable_sub in Hx as [Hx|[Hx Hsp]]; [set_solver|].
    apply list_elem_of_lookup_1 in Hx as [n Hn].
    destruct (Forall2_lookup_r _ _ _ _ _ Hall Hn) as (k & _ & Hin & Hpg). eauto. }
  destruct (pin_all_ok ids w r H) as (w' & H' & He' & Hc' & Hrun).
  { eapply Forall_impl; [exact Hids|]. intros i (k & c & _ & Hc & _). by exists c. }
  exists w', ids. rewrite (bind_ok _ _ _ _ _ Hrun). done.
Qed.

Lemma check_spill_ok w r max :
  rep w r ->
  exists w' x, rep w' r /\ evolves None w r w' r /\ same_config w w' /\
    check_spill hash_order max w = COk w' x.
Proof.
  intros H. unfold check_spill. destruct (needs_spill_ok w r H) as [b Hb].
  rewrite (bind_ok _ _ _ _ _ Hb). destruct b; [|by exists w, NotNeeded].
  destruct (collect_ok w r max H) as (w' & ids & H' & He' & Hc' & Hrun & _). cbn [negb].
  rewrite (bind_ok _ _ _ _ _ Hrun). destruct ids; eexists _, _; split_and!; done.
Qed.

(** Clearing empties the cache, unless it would lose dirty pages. *)
Lemma cache_clear_ok w r b :
  rep w r ->
  exists w' r', rep w' r' /\ (b = false -> evolves None w r w' r') /\ same_config w w' /\
    ((cache_clear hash_order b w = COk w' tt /\ r' = []) \/
     exists n, cache_clear hash_order b w = CErr w' (Dirty n) /\ w' = w /\ r' = r).
Proof.
  intros H. unfold cache_clear. rewrite gets_bind.
  destruct (pages_at_ok w r _ H (hash_order_present w)) as (ps & Hps & Hall).
  rewrite (bind_ok _ _ _ _ _ Hps).
  destruct (List.find _ ps) as [x|] eqn:Hfind.
  { exists w, r. split_and!; try done. right. by eexists. }
  destruct (clean_all_ok (fst <$> ps) w) as (pg1 & Hclean & K1 & K2).
  { apply Forall_forall. intros i (x & -> & Hx)%list_elem_of_fmap.
    apply list_elem_of_lookup in Hx as [n Hn].
    destruct (Forall2_lookup_r _ _ _ _ _ Hall Hn) as (k & _ & _ & Hp). by exists x.2. }
  rewrite (bind_ok _ _ _ _ _ Hclean), !modify_bind.
  match goal with |- context [(drop_all _ ≫= _) ?x] => set (w1 := x) end.
  destruct (drop_all_ok (fst <$> ps) w1) as (pg2 & Hdrop & K3 & K4).
  rewrite (bind_ok _ _ _ _ _ Hdrop), modify_bind.
  eexists _, []. split; [|split; [|split; [|by left]]]; [|intros ->|done].
  - split; cbn; try done; [|constructor].
    by split; [exists [], []|split; [done|constructor]].
  - split; cbn; [auto|auto|]. intros k i Hin (c & Hc & Hu) _.
    pose proof (hash_order_covers w r k i H Hin) as Hcov.
    apply list_elem_of_lookup in Hcov as [n Hn].
    destruct (Forall2_lookup_l _ _ _ _ _ Hall Hn) as (x & Hx & Hin' & Hp).
    rewrite (cached_fun _ _ _ _ _ H Hin Hin') in Hc. rewrite Hc in Hp. injection Hp as ->.
    pose proof (find_none _ _ Hfind x ltac:(apply list_elem_of_In; by eapply list_elem_of_lookup_2)) as Hd.
    unfold unsaved in Hu. cbn in Hd. rewrite andb_true_r in Hd. by rewrite Hd in Hu.
Qed.

Lemma delete_after_frame_ok w r f :
  rep w r ->
  exists w' r', rep w' r' /\ evolves None w r w' r' /\ same_config w w' /\
    ends (delete_clean_pages_after_wal_frame hash_order f w) w'.
Proof.
  intros H. unfold delete_clean_pages_after_wal_frame. rewrite gets_bind.
  destruct (pages_at_ok w r _ H (hash_order_present w)) as (ps & Hps & _).
  rewrite (bind_ok _ _ _ _ _ Hps).
  destruct (delete_keys_ok (keys_after_frame (hash_order (map (cache w))) ps f) w r H)
    as (w' & r' & ? & ? & ? & _ & ? & _). by exists w', r'.
Qed.

End Order.

(** ** Runs of the cache *)

(** The page cached under a key. *)
Definition cached_page (w : world) (k : Z) : option Z :=
  a ← map (cache w) !! k;
  e ← entries w !! a;
  Some (e_page e).

Lemma cached_page_rep w r k i : rep w r -> cached_page w k = Some i <-> (k, i) ∈ cached r.
Proof.
  intros H. unfold cached_page. split.
  - destruct (map (cache w) !! k) as [a|] eqn:Hk; [|done]. cbn.
    destruct (rep_find _ _ _ _ H Hk) as (r1 & e & r2 & -> & <-).
    pose proof (rep_at _ _ _ _ _ H) as (_ & -> & _). cbn. intros [= <-].
    unfold cached. rewrite fmap_app, fmap_cons. set_solver.
  - intros (x & [= -> ->] & Hx)%list_elem_of_fmap.
    apply list_elem_of_split in Hx as (r1 & r2 & ->). destruct x as [a e].
    pose proof (rep_at _ _ _ _ _ H) as (Hm & He & _). cbn. rewrite Hm. cbn. by rewrite He.
Qed.

(** Operations of the cache, and what its users do to pages meanwhile: change
    flags, pins and tags, take and drop references. *)
Inductive cache_op :=
| CInsert (key page : Z)
| CUpsert (key page : Z)
| CForceInsert (key page : Z)
| CForceUpsert (key page : Z)
| CDelete (key : Z)
| CGet (key : Z)
| CPeek (key : Z) (touch : bool)
| CResize (new_cap : Z)
| CClear (clear_dirty : bool)
| CTruncate (max_page_num : Z)
| CDeleteAfterFrame (max_frame : Z)
| CCheckSpill (max_pages : Z)
| CNotifyDirty (key : Z)
| CNotifySpilled (key : Z)
| CSetSpill (enabled : bool)
| CPageOp (page : Z) (o : page_op)
| CRefs (page delta : Z).

Definition ignore {A} (m : M A) : M unit := _ ← m; mret tt.

Section Runs.
Context (hash_order : gmap Z Z -> list Z).
Hypothesis hash_order_keys : forall m, hash_order m ≡ₚ (map_to_list m).*1.

Definition run_cache_op (o : cache_op) : M unit :=
  match o with
  | CInsert k v => cache_insert k v
  | CUpsert k v => upsert_page k v
  | CForceInsert k v => force_insert_page k v
  | CForceUpsert k v => force_upsert_page k v
  | CDelete k => cache_delete k
  | CGet k => ignore (cache_get k)
  | CPeek k t => ignore (peek k t)
  | CResize n => ignore (resize n)
  | CClear b => cache_clear hash_order b
  | CTruncate n => truncate hash_order n
  | CDeleteAfterFrame f => delete_clean_pages_after_wal_frame hash_order f
  | CCheckSpill n => ignore (check_spill hash_order n)
  | CNotifyDirty k => notify_page_dirty k
  | CNotifySpilled k => notify_page_spilled k
  | CSetSpill b => modify (with_cache (set_spill_enabled b))
  | CPageOp i o => modify (with_pages (alter (fun c => mkCell (run_page_op (c_page c) o) (c_strong c)) i))
  | CRefs i d => modify (with_pages (alter (fun c => mkCell (c_page c) (c_strong c + d)) i))
  end.

(** What the types of the arguments say: inserted pages exist, capacities are not
    negative. *)
Definition cache_op_ok (w : world) (o : cache_op) : Prop :=
  match o with
  | CInsert k v | CForceInsert k v | CUpsert k v | CForceUpsert k v => is_Some (pages w !! v)
  | CResize n => 0 <= n
  | _ => True
  end.

(** The operations that fail an assertion. *)
Definition op_clash (w : world) (o : cache_op) : bool :=
  match o with CInsert k v | CForceInsert k v => insert_clash w k v | _ => false end.

Lemma op_clash_panics w o : op_clash w o = true -> run_cache_op o w = CPanic.
Proof. destruct o; try done; cbn; [apply insert_clash_panics|apply force_clash_panics]. Qed.

Lemma ends_no_clash w o w' : ends (run_cache_op o w) w' -> op_clash w o = false.
Proof.
  intros H. destruct (op_clash w o) eqn:E; [|done].
  rewrite (op_clash_panics _ _ E) in H. by destruct H as [[? ?]|[? ?]].
Qed.

Inductive cache_reachable : world -> Prop :=
| cache_start cap enabled pg :
    cache_reachable (mkWorld (cache_new_with_spill cap enabled) ∅ pg 0)
| cache_step w o w' :
    cache_reachable w -> cache_op_ok w o -> ends (run_cache_op o w) w' -> cache_reachable w'.

(** The key that an operation may replace, and whether it may change the
    saved state of pages. *)
Definition replaces (o : cache_op) : option Z :=
  match o with CUpsert k _ | CForceUpsert k _ => Some k | _ => None end.
Definition keeps_unsaved (o : cache_op) : bool :=
  match o with CClear true | CPageOp _ _ => false | _ => true end.

Lemma ends_ignore {A} (m : M A) w w' : ends (m w) w' -> ends (ignore m w) w'.
Proof.
  unfold ignore. intros [[a Ha]|[e He]].
  - rewrite (bind_ok _ _ _ _ _ Ha). left. by eexists.
  - rewrite (bind_err _ _ _ _ _ He). right. by eexists.
Qed.

Lemma run_cache_op_ok w r o :
  rep w r -> cache_op_ok w o -> op_clash w o = false ->
  exists w' r', rep w' r' /\ ends (run_cache_op o w) w' /\
    (keeps_unsaved o = true -> evolves (replaces o) w r w' r').
Proof.
  intros H Hok Hs.
  assert (forall w' e, ends (CErr w' e : cres unit) w') as Hce by (intros; right; by eexists).
  assert (forall w', ends (COk w' tt) w') as Hco by (intros; left; by eexists).
  destruct o; cbn [run_cache_op keeps_unsaved replaces cache_op_ok op_clash] in *.
  - destruct (insert_impl_ok w r key page false false H Hok)
      as (w' & r' & ? & ? & _ & [(Hx & _)|(e & Hx & _)]); [intros _; by apply no_clash_same|..];
      exists w', r'; unfold cache_insert; rewrite Hx; done.
  - destruct (insert_impl_ok w r key page true false H Hok)
      as (w' & r' & ? & ? & _ & [(Hx & _)|(e & Hx & _)]); [done|..];
      exists w', r'; unfold upsert_page; rewrite Hx; done.
  - destruct (force_ok w r key page false H Hok)
      as (w' & r' & ? & ? & _ & [(Hx & _)|(e & Hx)]); [intros _; by apply no_clash_same|..];
      exists w', r'; unfold force_insert_page, cache_insert; rewrite Hx; done.
  - destruct (force_ok w r key page true H Hok)
      as (w' & r' & ? & ? & _ & [(Hx & _)|(e & Hx)]); [done|..];
      exists w', r'; unfold force_upsert_page, upsert_page; rewrite Hx; done.
  - destruct (delete_entry_ok w r key H) as (w' & r' & ? & ? & _ & [(Hx & _)|(e & Hx & _)]);
      exists w', r'; unfold cache_delete; rewrite Hx; done.
  - destruct (cache_get_ok w r key H) as (w' & r' & ? & ? & _ & Hc). exists w', r'.
    split; [done|]. split; [|done]. apply ends_ignore.
    destruct Hc as [(i & p & -> & _)|[[-> _]|[e ->]]]; [left|left|right]; by eexists.
  - destruct (peek_ok w r key touch H) as (w' & r' & v & ? & ? & _ & Hx & _). exists w', r'.
    split; [done|]. split; [|done]. apply ends_ignore. left. by eexists.
  - destruct (Z.eqb_spec new_cap (capacity (cache w))) as [E|E].
    + exists w, r. split; [done|]. split; [|done]. apply ends_ignore. unfold resize.
      rewrite gets_bind, E, Z.eqb_refl. left. by eexists.
    + destruct (rep_len _ _ H) as [_ Hsz].
      destruct (resize_loop_ok (length r) new_cap w r H Hok ltac:(lia)) as (w' & r' & ? & ? & Hx).
      exists w', r'. split; [done|]. split; [|done]. apply ends_ignore. unfold resize.
      rewrite gets_bind, Hsz. apply Z.eqb_neq in E as ->.
      destruct Hx as [(-> & _)|(-> & _)]; left; by eexists.
  - destruct (cache_clear_ok hash_order hash_order_keys w r clear_dirty H)
      as (w' & r' & ? & ? & _ & [[Hx _]|(n & Hx & _)]); exists w', r'; rewrite Hx;
      (split; [done|split; [done|]]); intros Hb; destruct clear_dirty; auto; done.
  - unfold truncate. rewrite gets_bind.
    destruct (delete_keys_ok (List.filter (fun k => max_page_num <? k)
      (hash_order (map (cache w)))) w r H) as (w' & r' & ? & ? & _ & _ & ? & _). by exists w', r'.
  - destruct (delete_after_frame_ok hash_order hash_order_keys w r max_frame H)
      as (w' & r' & ? & ? & _ & ?). by exists w', r'.
  - destruct (check_spill_ok hash_order hash_order_keys w r max_pages H)
      as (w' & x & ? & ? & _ & Hx). exists w', r. split; [done|]. split; [|done].
    apply ends_ignore. left. by eexists.
  - destruct (notify_ok count_minus_one w r key ltac:(done) H) as (w' & ? & ? & _ & Hx).
    exists w', r. unfold notify_page_dirty. by rewrite Hx.
  - destruct (notify_ok count_plus_one w r key ltac:(done) H) as (w' & ? & ? & _ & Hx).
    exists w', r. unfold notify_page_spilled. by rewrite Hx.
  - eexists _, r. split; [|split; [by left; eexists|]]; [by apply rep_cache_other|by split].
  - eexists _, r. split; [|split; [by left; eexists|done]]. by apply rep_alter_page.
  - eexists _, r. split; [|split; [by left; eexists|]]; [by apply rep_alter_page|]. intros _.
    destruct (alter_pages_keep (fun c => mkCell (c_page c) (c_strong c + delta)) page (pages w));
      [done|]. by split.
Qed.

Lemma ends_fun {A} (x : cres A) w1 w2 : ends x w1 -> ends x w2 -> w1 = w2.
Proof. intros [[? ->]|[? ->]] [[? ?]|[? ?]]; congruence. Qed.

Lemma reachable_rep w : cache_reachable w -> exists r, rep w r.
Proof.
  induction 1 as [cap en pg|w o w' _ [r Hr] Hok Hends].
  - exists []. split; cbn; try done; [|constructor].
    by split; [exists [], []|split; [done|constructor]].
  - destruct (run_cache_op_ok w r o Hr Hok (ends_no_clash _ _ _ Hends)) as (w2 & r' & Hr' & Hends' & _).
    exists r'. by rewrite (ends_fun _ _ _ Hends Hends').
Qed.

End Runs.

(** ** The integrity check on rings *)

Lemma queue_keys_ok w l :
  (forall a e, (a, e) ∈ l -> entries w !! a = Some e) ->
  queue_keys l.*1 w = COk w ((fun x => e_key x.2) <$> l).
Proof.
  induction l as [|[a e] l IH]; intros H; [done|]. cbn [queue_keys fmap list_fmap fst snd].
  rewrite (deref_bind _ _ e) by (apply H; set_solver).
  rewrite (bind_ok _ _ _ w ((fun x => e_key x.2) <$> l)); [done|]. apply IH. set_solver.
Qed.

Lemma rep_queue w r : rep w r -> exists l, queue (cache w) = l.*1 /\ l ≡ₚ r.
Proof.
  intros H. destruct (rp_ring _ _ H) as [(l1 & l2 & -> & E & _) _].
  apply fmap_app_inv in E as (r2 & r1 & -> & -> & ->). exists (r1 ++ r2).
  split; [by rewrite fmap_app|apply Permutation_app_comm].
Qed.

Lemma integrity_rep w r : rep w r -> cache_integrity_ok w = COk w true.
Proof.
  intros H. destruct (rep_queue w r H) as (l & Hq & Hp). destruct (rep_len _ _ H) as [_ Hsz].
  unfold cache_integrity_ok. rewrite gets_bind, Hq.
  rewrite (bind_ok _ _ _ _ _ (queue_keys_ok w l ltac:(
    intros a e Hin; rewrite Hp in Hin; rewrite (rp_entries _ _ H);
    apply elem_of_list_to_map_1; [by apply (rep_addrs _ _ H)|done]))).
  pose proof (Permutation_length Hp) as Hlen. rewrite Hsz, length_fmap, Hlen, Nat.eqb_refl.
  pose proof (rp_keys _ _ H) as Hnd. rewrite key_addr_keys in Hnd.
  rewrite (size_list_to_set (C := gset Z)) by by rewrite Hp.
  rewrite length_fmap, Hlen, Nat.eqb_refl.
  assert (forallb (fun k => bool_decide (k ∈ (list_to_set ((fun x => e_key x.2) <$> l) : gset Z)))
            (map_to_list (map (cache w))).*1 = true) as ->.
  { apply forallb_forall. intros k Hk%list_elem_of_In. apply bool_decide_eq_true_2.
    apply list_elem_of_fmap in Hk as ([k' a] & -> & Hk). apply elem_of_map_to_list in Hk.
    destruct (rep_find _ _ _ _ H Hk) as (r1 & e & r2 & E & <-).
    apply elem_of_list_to_set. rewrite Hp, E, fmap_app, fmap_cons. set_solver. }
  cbn [negb]. pose proof (rp_ring _ _ H) as [_ [Hh _]]. rewrite Hh.
  destruct r as [|[a e] t]; [done|]. cbn [fmap list_fmap head length Nat.eqb].
  pose proof (rep_at w [] a e t H) as (Hm & He & _). rewrite (deref_bind _ _ e) by done.
  unfold contains_key. by rewrite bool_decide_eq_true_2 by by rewrite Hm.
Qed.

(** Removing one entry from the ring removes its key and no other. *)
Lemma cached_page_removed w r w' r' x :
  rep w r -> rep w' r' -> strip <$> r ≡ₚ strip x :: (strip <$> r') ->
  cached_page w (e_key x.2) = Some (e_page x.2) /\
  forall k, cached_page w' k = if decide (k = e_key x.2) then None else cached_page w k.
Proof.
  intros Hr Hr' Hperm.
  assert (cached r ≡ₚ (e_key x.2, e_page x.2) :: cached r') as Hcr
    by (rewrite !strip_cached, Hperm; done).
  split; [apply (cached_page_rep w r); [done|]; rewrite Hcr; set_solver|].
  intros k. apply option_eq. intros j. rewrite (cached_page_rep w' r') by done.
  case_decide as Hk; [|rewrite (cached_page_rep w r), Hcr by done; set_solver].
  subst k. split; [|done]. intros Hin. exfalso. pose proof (rp_keys _ _ Hr) as Hnd.
  assert ((key_addr <$> r).*1 ≡ₚ e_key x.2 :: (key_addr <$> r').*1) as Hkp.
  { assert (forall l, (key_addr <$> l).*1 = (fun y : Z * Z * Z => y.1.2) <$> (strip <$> l)) as E
      by (intros l; rewrite key_addr_keys; by rewrite <- list_fmap_compose).
    rewrite !E, Hperm. done. }
  rewrite Hkp in Hnd. apply NoDup_cons in Hnd as [Hn _].
  apply Hn. by apply cached_elem in Hin.
Qed.

(** The sweep finds a page when there is an evictable one. *)
Lemma evict_some w r k i c :
  rep w r -> r <> [] -> cached_page w k = Some i -> pages w !! i = Some c -> evictable c = true ->
  exists w' k i c, evict_one w = COk w' tt /\ cached_page w k = Some i /\
    pages w !! i = Some c /\ evictable c = true /\
    forall k', cached_page w' k' = if decide (k' = k) then None else cached_page w k'.
Proof.
  intros Hr Hr0 Hk Hc Hev. pose proof (evict_one_spec w r Hr Hr0) as Hspec.
  pose proof (sieve_spec (Z.to_nat (lenZ r * 4)) (pages w) r) as Hs.
  apply (cached_page_rep w r k i Hr) in Hk.
  apply list_elem_of_fmap in Hk as ([a e] & [= -> ->] & Hx).
  apply list_elem_of_split in Hx as (r1 & r2 & E).
  assert (is_Some (sieve (Z.to_nat (lenZ r * 4)) (pages w) r).2) as Hsome.
  { rewrite E. pose proof (rp_ref _ _ Hr) as Href. rewrite E, Forall_app, Forall_cons in Href.
    destruct Href as (_ & Href & _). cbn in Href.
    apply (sieve_progress (pages w) _ r1 a e r2 c); [|done|done|lia|].
    - rewrite <- E. apply Hr.
    - unfold lenZ, REF_MAX in *. rewrite length_app. cbn [length]. nia. }
  destruct (sieve _ _ _) as [r' [[a' e']|]]; [|by destruct Hsome].
  destruct Hspec as (w' & Hw' & _ & Hrun & _). destruct Hs as [(p & Hp & Hep & _) Hperm].
  destruct (cached_page_removed w r w' r' _ Hr Hw' Hperm) as [H1 H2].
  by exists w', (e_key e'), (e_page e'), p.
Qed.

Lemma evict_none w r :
  rep w r -> r <> [] ->
  (forall k i c, cached_page w k = Some i -> pages w !! i = Some c -> evictable c = false) ->
  exists w', evict_one w = CErr w' Full /\ forall k, cached_page w' k = cached_page w k.
Proof.
  intros Hr Hr0 Hnone. pose proof (evict_one_spec w r Hr Hr0) as Hspec.
  pose proof (sieve_spec (Z.to_nat (lenZ r * 4)) (pages w) r) as Hs.
  destruct (sieve _ _ _) as [r' [[a e]|]].
  - destruct Hspec as (w' & Hw' & _). destruct Hs as [(p & Hp & Hep & _) Hperm].
    destruct (cached_page_removed w r w' r' _ Hr Hw' Hperm) as [H1 _].
    specialize (Hnone _ _ _ H1 Hp). congruence.
  - destruct Hspec as (w' & Hw' & _ & Hrun & _). exists w'. split; [done|].
    intros k. apply option_eq. intros j.
    rewrite (cached_page_rep w' r'), (cached_page_rep w r), (cached_perm _ _ Hs) by done. done.
Qed.

(** ** Properties *)

(** C32: The page cache is memory safe and stays consistent.  From a new cache,
    through any sequence of cache operations and of changes that other code
    makes to the pages, and for any iteration order of the hash map: the integrity
    check holds (map and queue have the same distinct keys, the clock hand is in the
    queue, and it is null exactly when the cache is empty), and the next operation
    fails in one case only, the assertion of [insert] that a page which is loaded or
    being read is not inserted again under its key as a different object.  In
    particular no operation follows a dangling entry pointer or misses an entry in
    the queue. *)
Theorem page_cache_integrity (hash_order : gmap Z Z -> list Z) w
    (Horder : forall m, hash_order m ≡ₚ (map_to_list m).*1)
    (Hw : cache_reachable hash_order w) :
  cache_integrity_ok w = COk w true /\
  forall o, cache_op_ok w o -> (run_cache_op hash_order o w = CPanic <-> op_clash w o = true).
Proof.
  destruct (reachable_rep hash_order Horder w Hw) as [r Hr].
  split; [by apply (integrity_rep w r)|]. intros o Ho. split; [|by apply op_clash_panics].
  destruct (op_clash w o) eqn:E; [done|].
  destruct (run_cache_op_ok hash_order Horder w r o Hr Ho E) as (w' & r' & _ & [[? ->]|[? ->]] & _); done.
Qed.

(** C33: No operation of the cache drops changes that exist nowhere else.  A
    page that is dirty and not spilled stays cached under its key and keeps its
    flags, through insertions (also when they evict), deletions, truncation,
    resizing, lookups and spilling; only the explicit clear of dirty pages and
    an update of that very key may remove it. *)
Theorem unsaved_pages_kept (hash_order : gmap Z Z -> list Z) w o w' k i
    (Horder : forall m, hash_order m ≡ₚ (map_to_list m).*1)
    (Hw : cache_reachable hash_order w) (Hok : cache_op_ok w o)
    (Hrun : ends (run_cache_op hash_order o w) w')
    (Hkeep : keeps_unsaved o = true) (Hk : replaces o <> Some k)
    (Hc : cached_page w k = Some i) (Hu : unsaved_at (pages w) i) :
  cached_page w' k = Some i /\ unsaved_at (pages w') i.
Proof.
  destruct (reachable_rep hash_order Horder w Hw) as [r Hr].
  destruct (run_cache_op_ok hash_order Horder w r o Hr Hok (ends_no_clash _ _ _ _ Hrun)) as (w2 & r' & Hr' & Hends & Hev).
  rewrite (ends_fun _ _ _ Hrun Hends). destruct (Hev Hkeep) as [_ H1 H2].
  split; [|by apply H1]. apply (cached_page_rep w2 r' k i Hr').
  apply H2; [by apply (cached_page_rep w r k i Hr)|done|done].
Qed.

(** C34: Eviction makes progress and is fair to what must stay.  When some
    cached page is evictable, one call of [evict_one] succeeds within its bound
    of four examinations per entry; it removes exactly one key, whose page was
    evictable (clean or spilled, unlocked, unpinned, unreferenced, not the
    header page), and leaves every other key cached.  When no page is evictable it reports [Full] and
    removes nothing. *)
Theorem evict_one_progress (hash_order : gmap Z Z -> list Z) w
    (Horder : forall m, hash_order m ≡ₚ (map_to_list m).*1)
    (Hw : cache_reachable hash_order w) (Hne : len (cache w) <> 0) :
  ((exists k i c, cached_page w k = Some i /\ pages w !! i = Some c /\ evictable c = true) ->
   exists w' k i c, evict_one w = COk w' tt /\ cached_page w k = Some i /\
     pages w !! i = Some c /\ evictable c = true /\
     forall k', cached_page w' k' = if decide (k' = k) then None else cached_page w k') /\
  ((forall k i c, cached_page w k = Some i -> pages w !! i = Some c -> evictable c = false) ->
   exists w', evict_one w = CErr w' Full /\ forall k, cached_page w' k = cached_page w k).
Proof.
  destruct (reachable_rep hash_order Horder w Hw) as [r Hr].
  destruct (rep_len _ _ Hr) as [Hl _]. rewrite Hl in Hne.
  assert (r <> []) as Hr0 by (intros ->; done).
  split; [|by apply (evict_none w r)].
  intros (k & i & c & Hk & Hc & Hev). by apply (evict_some w r k i c).
Qed.

(** A successful insertion of a new key caches exactly that page under the
    key and leaves the cache within its capacity; it fails only with [Full]. *)
Theorem insert_within_capacity (hash_order : gmap Z Z -> list Z) w k v
    (Horder : forall m, hash_order m ≡ₚ (map_to_list m).*1)
    (Hw : cache_reachable hash_order w) (Hv : is_Some (pages w !! v))
    (Hk : cached_page w k = None) :
  exists w', (cache_insert k v w = COk w' tt /\ cached_page w' k = Some v /\
              len (cache w') <= capacity (cache w') /\ capacity (cache w') = capacity (cache w)) \/
             cache_insert k v w = CErr w' Full.
Proof.
  destruct (reachable_rep hash_order Horder w Hw) as [r Hr].
  assert (map (cache w) !! k = None) as Hm.
  { destruct (map (cache w) !! k) as [a|] eqn:E; [|done]. exfalso.
    destruct (rep_find _ _ _ _ Hr E) as (r1 & e & r2 & -> & <-).
    pose proof (rep_at _ _ _ _ _ Hr) as (Hma & He & _). unfold cached_page in Hk.
    rewrite Hma in Hk. cbn in Hk. by rewrite He in Hk. }
  destruct (insert_impl_ok w r k v false false Hr Hv) as (w' & r' & Hr' & _ & Hc & Hcase).
  { intros _ a e p Ha. by rewrite Hm in Ha. }
  exists w'. destruct Hcase as [(Hx & Hin & Hlen)|(e & Hx & He & _)].
  - left. destruct Hc as (Hcap & _). destruct (rep_len _ _ Hr') as [-> _].
    split; [done|]. split; [by apply (cached_page_rep w' r')|]. rewrite Hcap. split; [|done].
    by apply Hlen.
  - right. unfold cache_insert. by rewrite Hx, He.
Qed.

(** ** A small cache *)

Definition demo_order (m : gmap Z Z) : list Z := (map_to_list m).*1.

(** Page 10 is clean, page 11 has unsaved changes; both are loaded. *)
Definition demo_pages : gmap Z page_cell :=
  <[10 := mkCell (set_loaded (page_unloaded 2)) 1]>
  (<[11 := mkCell (set_dirty (set_loaded (page_unloaded 3))) 1]> ∅).

Definition demo_w0 : world := mkWorld (cache_new_with_spill 2 true) ∅ demo_pages 0.
Definition demo_step (o : cache_op) (w : world) : world :=
  match run_cache_op demo_order o w with COk w' _ => w' | CErr w' _ => w' | CPanic => w end.
Definition demo_w1 : world := demo_step (CInsert 2 10) demo_w0.
Definition demo_w2 : world := demo_step (CInsert 3 11) demo_w1.

Lemma demo_order_keys m : demo_order m ≡ₚ (map_to_list m).*1.
Proof. done. Qed.

Lemma demo_reachable : cache_reachable demo_order demo_w2.
Proof.
  apply (cache_step demo_order demo_w1 (CInsert 3 11)).
  - apply (cache_step demo_order demo_w0 (CInsert 2 10)).
    + apply cache_start.
    + by vm_compute; eexists.
    + left. exists tt. vm_compute. reflexivity.
  - by vm_compute; eexists.
  - left. exists tt. vm_compute. reflexivity.
Qed.

Lemma page_cache_integrity_witness :
  cache_integrity_ok demo_w2 = COk demo_w2 true /\
  run_cache_op demo_order (CTruncate 0) demo_w2 <> CPanic /\
  run_cache_op demo_order (CInsert 2 11) demo_w2 = CPanic.
Proof.
  destruct (page_cache_integrity demo_order demo_w2 demo_order_keys demo_reachable) as [H1 H2].
  split; [exact H1|]. split.
  - intros H. apply H2 in H; [discriminate H|exact I].
  - apply H2; [by vm_compute; eexists|vm_compute; reflexivity].
Defined.

Lemma unsaved_pages_kept_witness :
  cached_page (demo_step (CTruncate 0) demo_w2) 3 = Some 11.
Proof.
  apply (unsaved_pages_kept demo_order demo_w2 (CTruncate 0)
           (demo_step (CTruncate 0) demo_w2) 3 11 demo_order_keys demo_reachable I).
  - right. eexists. vm_compute. reflexivity.
  - reflexivity.
  - discriminate.
  - vm_compute. reflexivity.
  - eexists. split; vm_compute; reflexivity.
Defined.

Lemma evict_one_progress_witness :
  exists w', evict_one demo_w2 = COk w' tt /\ cached_page w' 2 = None /\
    cached_page w' 3 = Some 11.
Proof.
  destruct (evict_one_progress demo_order demo_w2 demo_order_keys demo_reachable) as [H _].
  { vm_compute. discriminate. }
  destruct H as (w' & k & i & c & H1 & _ & _ & _ & _).
  { exists 2, 10. eexists. split; [|split]; vm_compute; reflexivity. }
  exists w'. split; [exact H1|]. vm_compute in H1. injection H1 as <-.
  split; vm_compute; reflexivity.
Defined.

Lemma insert_within_capacity_witness :
  exists w', cache_insert 5 10 demo_w2 = COk w' tt /\ cached_page w' 5 = Some 10.
Proof.
  destruct (insert_within_capacity demo_order demo_w2 5 10 demo_order_keys demo_reachable)
    as (w' & [(H1 & H2 & _)|H]).
  - by vm_compute; eexists.
  - vm_compute. reflexivity.
  - exists w'. split; [exact H1|exact H2].
  - exfalso. vm_compute in H. discriminate.
Defined.

(** The comment in [needs_spill] calls the count an upper bound on the
    evictable pages.  It is not: when a commit marks a cached page clean the
    cache is not told, and the page becomes evictable without being counted. *)
Example evictable_count_not_upper_bound :
  exists w, cache_reachable demo_order w /\ evictable_count (cache w) = 0 /\
    count_evictable_pages demo_order w = COk w 1.
Proof.
  exists (demo_step (CPageOp 11 OpClearDirty) (demo_step (CInsert 3 11) demo_w0)).
  split; [|split; vm_compute; reflexivity].
  apply (cache_step demo_order (demo_step (CInsert 3 11) demo_w0) (CPageOp 11 OpClearDirty));
    [|done|left; exists tt; vm_compute; reflexivity].
  apply (cache_step demo_order demo_w0 (CInsert 3 11)); [apply cache_start| |].
  - by vm_compute; eexists.
  - left. exists tt. vm_compute. reflexivity.
Qed.
