(* ===== verification/BtreePage.v ===== *)
(** * BtreePage: the layout of a B-tree page

    Models the page accessors of [PageInner] (core/storage/pager.rs) and the
    functions of core/storage/btree.rs that manage the space of one page: the
    free-block list, allocation, freeing, defragmentation, insertion and
    removal of cells, and the decoding of cells (core/storage/sqlite3_ondisk.rs).

    A page is its buffer together with the offset of its header ([base]: 100 on
    page 1, 0 elsewhere).  Writes through shared references to the buffer
    become a new buffer.  An index out of range, a failed assertion and an
    underflow of a [usize] subtraction are [Panic]; code under
    [debug_assertions] is left out. *)

From S2P Require Import Prelude Varint OnDisk Page.

(** ** Layout constants *)

Definition BTREE_PAGE_TYPE : Z := 0.
Definition BTREE_FIRST_FREEBLOCK : Z := 1.
Definition BTREE_CELL_COUNT : Z := 3.
Definition BTREE_CELL_CONTENT_AREA : Z := 5.
Definition BTREE_FRAGMENTED_BYTES_COUNT : Z := 7.
Definition BTREE_RIGHTMOST_PTR : Z := 8.

(** [buf.copy_within(a..b, dst)] *)
Definition copy_within (buf : bytes) (a b dst : Z) : Result bytes :=
  x ← slice buf a b; write_slice buf dst x.

(** [slice_in_bounds_or_corrupt!(buf, a..)] *)
Definition slice_from_or_corrupt (buf : bytes) (a : Z) : Result bytes :=
  if a <=? lenZ buf then Ok (drop (Z.to_nat a) buf) else Err Corrupt.

(** [read_varint(slice_in_bounds_or_corrupt!(buf, a..))] *)
Definition read_varint_at (buf : bytes) (a : Z) : Result (Z * Z) :=
  s ← slice_from_or_corrupt buf a; read_varint s.

(** [assert_or_bail_corrupt!(b)] and [if !b { return_corrupt!() }] *)
Definition or_corrupt (b : bool) : Result unit := if b then Ok tt else Err Corrupt.

(** [u16::try_from(x).unwrap_or_else(|_| panic!())] *)
Definition to_u16 (x : Z) : Result Z := if (0 <=? x) && (x <? 65536) then Ok x else Panic.

(** ** Accessors *)

Definition read_u16_no_offset (buf : bytes) (pos : Z) : Result Z :=
  b0 ← idx buf pos;
  b1 ← idx buf (pos + 1);
  Ok (be_combine [b0; b1]).

Definition read_u32_no_offset (buf : bytes) (pos : Z) : Result Z :=
  b0 ← idx buf pos;
  b1 ← idx buf (pos + 1);
  b2 ← idx buf (pos + 2);
  b3 ← idx buf (pos + 3);
  Ok (be_combine [b0; b1; b2; b3]).

Definition write_u16_no_offset (buf : bytes) (pos value : Z) : Result bytes :=
  write_slice buf pos (be_split 2 value).

Definition write_freeblock_next_ptr (buf : bytes) (offset next_block : Z) : Result bytes :=
  write_u16_no_offset buf offset next_block.
Definition write_freeblock_size (buf : bytes) (offset size : Z) : Result bytes :=
  write_u16_no_offset buf (offset + 2) size.
Definition write_freeblock (buf : bytes) (offset size : Z) (next_block : option Z)
    : Result bytes :=
  buf ← write_freeblock_next_ptr buf offset (default 0 next_block);
  write_freeblock_size buf offset size.
Definition read_freeblock (buf : bytes) (offset : Z) : Result (Z * Z) :=
  next ← read_u16_no_offset buf offset;
  size ← read_u16_no_offset buf (offset + 2);
  Ok (next, size).

Section accessors.
Context (base : Z).

Definition read_u8 (buf : bytes) (pos : Z) : Result Z := idx buf (base + pos).
Definition read_u16 (buf : bytes) (pos : Z) : Result Z :=
  b ← slice buf (base + pos) (base + pos + 2);
  Ok (be_combine b).
Definition write_u8 (buf : bytes) (pos value : Z) : Result bytes :=
  set_idx buf (base + pos) value.
Definition write_u16 (buf : bytes) (pos value : Z) : Result bytes :=
  write_slice buf (base + pos) (be_split 2 value).
Definition write_u32 (buf : bytes) (pos value : Z) : Result bytes :=
  write_slice buf (base + pos) (be_split 4 value).

Definition page_type (buf : bytes) : Result PageType :=
  b ← read_u8 buf BTREE_PAGE_TYPE; page_type_try_from b.

Definition write_page_type (buf : bytes) (value : Z) : Result bytes :=
  write_u8 buf BTREE_PAGE_TYPE value.
Definition write_rightmost_ptr (buf : bytes) (value : Z) : Result bytes :=
  write_u32 buf BTREE_RIGHTMOST_PTR value.
Definition write_first_freeblock (buf : bytes) (value : Z) : Result bytes :=
  write_u16 buf BTREE_FIRST_FREEBLOCK value.
Definition write_cell_count (buf : bytes) (value : Z) : Result bytes :=
  write_u16 buf BTREE_CELL_COUNT value.
Definition write_cell_content_area (buf : bytes) (value : Z) : Result bytes :=
  write_u16 buf BTREE_CELL_CONTENT_AREA (u16 value).
Definition write_fragmented_bytes_count (buf : bytes) (value : Z) : Result bytes :=
  write_u8 buf BTREE_FRAGMENTED_BYTES_COUNT value.

Definition first_freeblock (buf : bytes) : Result Z := read_u16 buf BTREE_FIRST_FREEBLOCK.
Definition cell_count (buf : bytes) : Result Z := read_u16 buf BTREE_CELL_COUNT.
Definition num_frag_free_bytes (buf : bytes) : Result Z :=
  read_u8 buf BTREE_FRAGMENTED_BYTES_COUNT.

Definition cell_content_area (buf : bytes) : Result Z :=
  offset ← read_u16 buf BTREE_CELL_CONTENT_AREA;
  Ok (if offset =? 0 then PageSize_MAX else offset).

Definition header_size (buf : bytes) : Result Z :=
  t ← read_u8 buf BTREE_PAGE_TYPE;
  Ok (if t <=? page_type_u8 TableInterior
      then INTERIOR_PAGE_HEADER_SIZE_BYTES else LEAF_PAGE_HEADER_SIZE_BYTES).

Definition is_leaf (buf : bytes) : Result bool :=
  t ← read_u8 buf BTREE_PAGE_TYPE; Ok (page_type_u8 TableInterior <? t).

Definition cell_pointer_array_offset (buf : bytes) : Result Z :=
  h ← header_size buf; Ok (base + h).
Definition cell_pointer_array_size (buf : bytes) : Result Z :=
  n ← cell_count buf; Ok (n * CELL_PTR_SIZE_BYTES).
Definition cell_pointer_array_offset_and_size (buf : bytes) : Result (Z * Z) :=
  o ← cell_pointer_array_offset buf;
  s ← cell_pointer_array_size buf;
  Ok (o, s).
Definition unallocated_region_start (buf : bytes) : Result Z :=
  '(o, s) ← cell_pointer_array_offset_and_size buf; Ok (o + s).

(** [BtreeFreeSpaceFields] and [btree_free_space_fields] *)
Record BtreeFreeSpaceFields := mkFreeSpaceFields {
  fs_header_size : Z;
  fs_cell_count : Z;
  fs_first_freeblock : Z;
  fs_cell_content_area : Z;
  fs_num_frag_free_bytes : Z
}.

Definition btree_free_space_fields (buf : bytes) : Result BtreeFreeSpaceFields :=
  window ← slice buf base (base + LEAF_PAGE_HEADER_SIZE_BYTES);
  t ← idx window BTREE_PAGE_TYPE;
  cell_content_area ← read_u16_no_offset window BTREE_CELL_CONTENT_AREA;
  n ← read_u16_no_offset window BTREE_CELL_COUNT;
  first ← read_u16_no_offset window BTREE_FIRST_FREEBLOCK;
  frag ← idx window BTREE_FRAGMENTED_BYTES_COUNT;
  Ok (mkFreeSpaceFields
        (if t <=? page_type_u8 TableInterior
         then INTERIOR_PAGE_HEADER_SIZE_BYTES else LEAF_PAGE_HEADER_SIZE_BYTES)
        n first
        (if cell_content_area =? 0 then PageSize_MAX else cell_content_area)
        frag).

Definition rightmost_pointer (buf : bytes) : Result (option Z) :=
  t ← page_type buf;
  match t with
  | IndexInterior | TableInterior =>
      b ← slice buf (base + BTREE_RIGHTMOST_PTR) (base + BTREE_RIGHTMOST_PTR + 4);
      Ok (Some (be_combine b))
  | IndexLeaf | TableLeaf => Ok None
  end.

Definition cell_get_raw_start_offset (buf : bytes) (i : Z) : Result Z :=
  a ← cell_pointer_array_offset buf;
  read_u16_no_offset buf (a + i * CELL_PTR_SIZE_BYTES).

End accessors.

(** ** Cell sizes *)

Definition payload_overflow_threshold_max (t : PageType) (usable_space : Z) : Z :=
  match t with
  | IndexInterior | IndexLeaf => (usable_space - 12) * 64 / 255 - 23
  | TableInterior | TableLeaf => usable_space - 35
  end.

Definition payload_overflow_threshold_min (t : PageType) (usable_space : Z) : Z :=
  (usable_space - 12) * 32 / 255 - 23.

(** The part of an overflowing payload on the page, with the page pointer. *)
Definition payload_overflows (payload_size max_local min_local usable_size : Z) : option Z :=
  if payload_size <=? max_local then None
  else
    let space_left := min_local + (payload_size - min_local) mod (usable_size - 4) in
    Some ((if max_local <? space_left then min_local else space_left) + 4).

(** The match of [_cell_get_raw_region_faster]: the length of the cell at
    [start] and whether it overflows. *)
Definition raw_cell_len (t : PageType) (buf : bytes) (start usable_size max_local min_local : Z)
    : Result (Z * bool) :=
  match t with
  | IndexInterior =>
      '(len_payload, n_payload) ← read_varint_at buf (start + 4);
      match payload_overflows len_payload max_local min_local usable_size with
      | Some local_size => Ok (4 + local_size + n_payload, true)
      | None => Ok (4 + len_payload + n_payload, false)
      end
  | TableInterior =>
      '(_, n_rowid) ← read_varint_at buf (start + 4);
      Ok (4 + n_rowid, false)
  | IndexLeaf =>
      '(len_payload, n_payload) ← read_varint_at buf start;
      match payload_overflows len_payload max_local min_local usable_size with
      | Some local_size => Ok (local_size + n_payload, true)
      | None => Ok (Z.max MINIMUM_CELL_SIZE (len_payload + n_payload), false)
      end
  | TableLeaf =>
      '(len_payload, n_payload) ← read_varint_at buf start;
      '(_, n_rowid) ← read_varint_at buf (start + n_payload);
      match payload_overflows len_payload max_local min_local usable_size with
      | Some local_size => Ok (local_size + n_payload + n_rowid, true)
      | None => Ok (Z.max MINIMUM_CELL_SIZE (len_payload + n_payload + n_rowid), false)
      end
  end.

Definition cell_get_raw_region_faster (base : Z) (buf : bytes)
    (i usable_size count max_local min_local : Z) (t : PageType)
    : Result (Z * Z * option Z) :=
  _ ← turso_assert (i <? count);
  start ← cell_get_raw_start_offset base buf i;
  '(len, overflows) ← raw_cell_len t buf start usable_size max_local min_local;
  _ ← or_corrupt (start + len <=? lenZ buf);
  if (overflows : bool) then
    b ← slice buf (start + len - 4) (start + len);
    Ok (start, len, Some (be_combine b))
  else Ok (start, len, None).

Definition cell_get_raw_region_and_overflow (base : Z) (buf : bytes) (i usable_size : Z)
    : Result (Z * Z * option Z) :=
  t ← page_type base buf;
  count ← cell_count base buf;
  cell_get_raw_region_faster base buf i usable_size count
    (payload_overflow_threshold_max t usable_size)
    (payload_overflow_threshold_min t usable_size) t.

Definition cell_get_raw_region (base : Z) (buf : bytes) (i usable_size : Z) : Result (Z * Z) :=
  '(start, len, _) ← cell_get_raw_region_and_overflow base buf i usable_size;
  Ok (start, len).

(** ** Free space *)

Section space.
Context (base : Z) (usable_space : Z).

(** The walk over the free-block list of [compute_free_space]: the sum of the
    sizes added to [free].  The offsets ascend, so [usable_space] steps are
    enough. *)
Fixpoint freeblocks_loop (fuel : nat) (buf : bytes) (cur free : Z) : Result Z :=
  match fuel with
  | O => Panic
  | S fuel =>
      _ ← or_corrupt (cur + 4 <=? usable_space);
      next ← read_u16_no_offset buf cur;
      size ← read_u16_no_offset buf (cur + 2);
      _ ← or_corrupt (4 <=? size);
      _ ← or_corrupt (cur + size <=? usable_space);
      if next =? 0 then Ok (free + size)
      else
        _ ← or_corrupt (cur + size + 3 <? next);
        freeblocks_loop fuel buf next (free + size)
  end.

Definition compute_free_space (buf : bytes) : Result Z :=
  header ← btree_free_space_fields base buf;
  let first_cell := base + fs_header_size header + 2 * fs_cell_count header in
  _ ← or_corrupt (first_cell <=? usable_space);
  let cell_content_area_start := fs_cell_content_area header in
  _ ← or_corrupt (cell_content_area_start <=? usable_space);
  let free := cell_content_area_start + fs_num_frag_free_bytes header in
  free ←
    (if 0 <? fs_first_freeblock header then
       _ ← or_corrupt (cell_content_area_start <=? fs_first_freeblock header);
       freeblocks_loop (S (Z.to_nat usable_space)) buf (fs_first_freeblock header) free
     else Ok free);
  _ ← or_corrupt (free <=? usable_space);
  _ ← or_corrupt (first_cell <=? free);
  Ok (free - first_cell).

(** The loop of [find_free_slot]; [prev] is [prev_block]. *)
Fixpoint find_slot_loop (fuel : nat) (buf : bytes) (amount max_start_offset : Z)
    (prev : option Z) (cur : Z) : Result (option Z * bytes) :=
  match fuel with
  | O => Panic
  | S fuel =>
      _ ← or_corrupt (cur + MINIMUM_CELL_SIZE <=? usable_space);
      cur_u16 ← to_u16 cur;
      '(next, size) ← read_freeblock buf cur_u16;
      if size <? amount then
        if next =? 0 then Ok (None, buf)
        else
          _ ← or_corrupt (cur <? next);
          find_slot_loop fuel buf amount max_start_offset (Some cur) next
      else
        let new_size := size - amount in
        if new_size <? MINIMUM_CELL_SIZE then
          frag ← num_frag_free_bytes base buf;
          if 57 <? frag then Ok (None, buf)
          else
            buf ← match prev with
                  | Some prev => write_freeblock_next_ptr buf prev next
                  | None => write_first_freeblock base buf next
                  end;
            buf ← write_fragmented_bytes_count base buf (frag + new_size);
            Ok (Some cur, buf)
        else
          _ ← or_corrupt (new_size + cur <=? max_start_offset);
          buf ← write_freeblock_size buf cur new_size;
          Ok (Some (cur + new_size), buf)
  end.

Definition find_free_slot (buf : bytes) (amount : Z) : Result (option Z * bytes) :=
  first ← first_freeblock base buf;
  max_start_offset ← checked_sub usable_space amount;
  if first =? 0 then Ok (None, buf)
  else find_slot_loop (S (Z.to_nat usable_space)) buf amount max_start_offset None first.

(** The first loop of [free_cell_range]: the free blocks around [offset]. *)
Fixpoint find_position (fuel : nat) (buf : bytes) (offset : Z) (prev next : option Z)
    : Result (option Z * option Z) :=
  match fuel with
  | O => Panic
  | S fuel =>
      match next with
      | None => Ok (prev, None)
      | Some n =>
          _ ← or_corrupt (match prev with Some p => p <? n | None => true end);
          if offset <=? n then Ok (prev, Some n)
          else
            after ← read_u16_no_offset buf n;
            find_position fuel buf offset (Some n) (if after =? 0 then None else Some after)
      end
  end.

(** The merge with the next free block: the end of the range, the removed
    fragmentation and the block after it. *)
Definition merge_next (buf : bytes) (offset end_ : Z) (next : option Z)
    : Result (Z * Z * option Z) :=
  match next with
  | Some n =>
      _ ← or_corrupt (n + MINIMUM_CELL_SIZE <=? usable_space);
      if n <=? end_ + 3 then
        _ ← or_corrupt (end_ <=? n);
        next_size ← read_u16_no_offset buf (n + 2);
        _ ← or_corrupt (n + next_size <=? usable_space);
        after ← read_u16_no_offset buf n;
        Ok (n + next_size, n - end_, if after =? 0 then None else Some after)
      else Ok (end_, 0, next)
  | None => Ok (end_, 0, None)
  end.

(** The merge with the previous free block: the start of the range and the
    removed fragmentation. *)
Definition merge_prev (buf : bytes) (offset removed : Z) (prev : option Z) : Result (Z * Z) :=
  match prev with
  | Some p =>
      prev_size ← read_u16_no_offset buf (p + 2);
      let prev_end := p + prev_size in
      _ ← or_corrupt (prev_end <=? offset);
      if offset <=? prev_end + 3 then Ok (p, removed + (offset - prev_end))
      else Ok (offset, removed)
  | None => Ok (offset, removed)
  end.

(** The end of [free_cell_range]: the range joins the unallocated region or
    becomes a free block between [prev] and [next]. *)
Definition place_range (buf : bytes) (content_area first_block offset end_ : Z)
    (prev next : option Z) : Result bytes :=
  _ ← or_corrupt (content_area <=? offset);
  if offset =? content_area then
    _ ← or_corrupt (match prev with Some p => p =? first_block | None => true end);
    buf ← match next with
          | Some n =>
              _ ← or_corrupt (end_ <? n);
              n ← to_u16 n;
              write_first_freeblock base buf n
          | None => write_first_freeblock base buf 0
          end;
    write_cell_content_area base buf end_
  else
    offset ← to_u16 offset;
    buf ← match prev with
          | Some p => write_u16_no_offset buf p offset
          | None => write_first_freeblock base buf offset
          end;
    size ← to_u16 (end_ - offset);
    write_freeblock buf offset size next.

Definition free_cell_range (buf : bytes) (offset len : Z) : Result bytes :=
  _ ← or_corrupt (MINIMUM_CELL_SIZE <=? len);
  _ ← or_corrupt (offset <=? saturating_sub usable_space MINIMUM_CELL_SIZE);
  let end_ := offset + len in
  _ ← or_corrupt (end_ <=? usable_space);
  content_area ← cell_content_area base buf;
  first_block ← first_freeblock base buf;
  if first_block =? 0 then
    _ ← or_corrupt (content_area <=? offset);
    if offset =? content_area then write_cell_content_area base buf end_
    else
      offset ← to_u16 offset;
      buf ← write_first_freeblock base buf offset;
      size ← to_u16 len;
      write_freeblock buf offset size None
  else
    '(prev, next) ← find_position (S (Z.to_nat usable_space)) buf offset None (Some first_block);
    '(end_, removed, next) ← merge_next buf offset end_ next;
    '(start, removed) ← merge_prev buf offset removed prev;
    frag ← num_frag_free_bytes base buf;
    _ ← or_corrupt (removed <=? frag);
    buf ← write_fragmented_bytes_count base buf (frag - removed);
    (* a range merged into [prev] is written at the offset of [prev] *)
    place_range buf content_area first_block start end_ prev next.

(** ** Defragmentation *)

(** The loop of [defragment_page_fast] over the cell pointers. *)
Fixpoint shift_cell_ptrs (n : nat) (buf : bytes) (ptr_offset first second total second_size : Z)
    : Result bytes :=
  match n with
  | O => Ok buf
  | S n =>
      cell_ptr ← read_u16_no_offset buf ptr_offset;
      buf ←
        (if cell_ptr <? first then
           _ ← or_corrupt (cell_ptr + total <=? usable_space);
           write_u16_no_offset buf ptr_offset (u16 (cell_ptr + total))
         else if (0 <? second) && (cell_ptr <? second) then
           _ ← or_corrupt (cell_ptr + second_size <=? usable_space);
           write_u16_no_offset buf ptr_offset (u16 (cell_ptr + second_size))
         else Ok buf);
      shift_cell_ptrs n buf (ptr_offset + CELL_PTR_SIZE_BYTES) first second total second_size
  end.

Definition defragment_page_fast (buf : bytes) (first second : Z) : Result bytes :=
  _ ← or_corrupt (negb (first =? 0));
  _ ← or_corrupt (negb ((0 <? second) && (second <=? first)));
  limit ← checked_sub usable_space 4;
  _ ← or_corrupt (first <=? limit);
  _ ← or_corrupt (second <=? limit);
  first_size ← read_u16_no_offset buf (first + 2);
  second_size ← (if 0 <? second then read_u16_no_offset buf (second + 2) else Ok 0);
  let total := first_size + second_size in
  content_area ← cell_content_area base buf;
  buf ←
    (if 0 <? second then
       _ ← or_corrupt (first + first_size <=? second);
       _ ← or_corrupt (second + second_size <=? usable_space);
       copy_within buf (first + first_size) second (first + total)
     else
       _ ← or_corrupt (first + first_size <=? usable_space);
       Ok buf);
  copy_amount ← checked_sub first content_area;
  let new_content_area := content_area + total in
  _ ← or_corrupt (new_content_area + copy_amount <=? usable_space);
  buf ← copy_within buf content_area (content_area + copy_amount) new_content_area;
  count ← cell_count base buf;
  array ← cell_pointer_array_offset base buf;
  buf ← shift_cell_ptrs (Z.to_nat count) buf array first second total second_size;
  buf ← write_cell_content_area base buf new_content_area;
  write_first_freeblock base buf 0.

(** [CellInfo] *)
Record CellInfo := mkCellInfo { old_offset : Z; ci_size : Z; pointer_index : Z }.

(** The loop that gathers the cells, from index [i] on: the cells and
    [is_physically_sorted]. *)
Fixpoint gather_cells (n : nat) (buf : bytes) (i count cell_offset max_local min_local : Z)
    (t : PageType) (last_offset : Z) (sorted : bool) : Result (list CellInfo * bool) :=
  match n with
  | O => Ok ([], sorted)
  | S n =>
      pc ← read_u16_no_offset buf (cell_offset + i * 2);
      '(_, size, _) ← cell_get_raw_region_faster base buf i usable_space count max_local min_local t;
      '(cells, sorted) ←
        gather_cells n buf (i + 1) count cell_offset max_local min_local t pc
          (sorted && negb (last_offset <? pc));
      Ok (mkCellInfo pc (u16 size) i :: cells, sorted)
  end.

(** [cells.sort_unstable_by(|a, b| b.old_offset.cmp(&a.old_offset))] *)
Fixpoint insert_desc (c : CellInfo) (l : list CellInfo) : list CellInfo :=
  match l with
  | [] => [c]
  | d :: l' => if old_offset d <? old_offset c then c :: l else d :: insert_desc c l'
  end.
Definition sort_desc (l : list CellInfo) : list CellInfo := foldr insert_desc [] l.

(** The check that the regions do not overlap, in ascending order. *)
Fixpoint check_regions (cells : list CellInfo) (previous_end : Z) : Result unit :=
  match cells with
  | [] => Ok tt
  | c :: cells' =>
      _ ← or_corrupt (previous_end <=? old_offset c);
      check_regions cells' (old_offset c + ci_size c)
  end.

(** The loop of [process_cells]: the buffer and the new content area. *)
Fixpoint pack_cells (cells : list CellInfo) (buf : bytes) (array first_byte cbrk : Z)
    : Result (bytes * Z) :=
  match cells with
  | [] => Ok (buf, cbrk)
  | c :: cells' =>
      new_offset ← checked_sub cbrk (ci_size c);
      _ ← turso_assert ((first_byte <=? new_offset) &&
                        (old_offset c + ci_size c <=? usable_space));
      buf ← (if negb (new_offset =? old_offset c)
             then copy_within buf (old_offset c) (old_offset c + ci_size c) new_offset
             else Ok buf);
      _ ← turso_assert (new_offset <? PageSize_MAX);
      buf ← write_u16_no_offset buf (array + pointer_index c * 2) (u16 new_offset);
      pack_cells cells' buf array first_byte new_offset
  end.

Definition process_cells (buf : bytes) (cells : list CellInfo) : Result bytes :=
  array ← cell_pointer_array_offset base buf;
  first_byte ← unallocated_region_start base buf;
  '(buf, cbrk) ← pack_cells cells buf array first_byte usable_space;
  buf ← write_cell_content_area base buf cbrk;
  buf ← write_first_freeblock base buf 0;
  write_fragmented_bytes_count base buf 0.

(** The part of [defragment_page] after the fast path. *)
Definition defragment_slow (buf : bytes) (count : Z) : Result bytes :=
  cell_offset ← cell_pointer_array_offset base buf;
  t ← page_type base buf;
  '(cells, sorted) ←
    gather_cells (Z.to_nat count) buf 0 count cell_offset
      (payload_overflow_threshold_max t usable_space)
      (payload_overflow_threshold_min t usable_space) t 65535 true;
  let cells := if (sorted : bool) then cells else sort_desc cells in
  _ ← check_regions (rev cells) (cell_offset + 2 * count);
  process_cells buf cells.

Definition defragment_page (buf : bytes) (max_frag_bytes : Z) : Result bytes :=
  count ← cell_count base buf;
  if count =? 0 then
    buf ← write_cell_content_area base buf usable_space;
    buf ← write_first_freeblock base buf 0;
    write_fragmented_bytes_count base buf 0
  else
    frag ← num_frag_free_bytes base buf;
    if frag <=? max_frag_bytes then
      first ← first_freeblock base buf;
      if first =? 0 then Ok buf
      else
        second ← read_u16_no_offset buf first;
        if second =? 0 then defragment_page_fast buf first 0
        else
          third ← read_u16_no_offset buf second;
          if third =? 0 then defragment_page_fast buf first second
          else defragment_slow buf count
    else defragment_slow buf count.

Definition defragment_page_full (buf : bytes) : Result bytes := defragment_page buf (-1).

(** ** Allocation *)

Definition allocate_cell_space (buf : bytes) (amount free_space : Z) : Result (Z * bytes) :=
  let amount := if amount <? MINIMUM_CELL_SIZE then MINIMUM_CELL_SIZE else amount in
  start ← unallocated_region_start base buf;
  content_area ← cell_content_area base buf;
  first ← first_freeblock base buf;
  '(slot, buf) ←
    (if negb (first =? 0) && (start + CELL_PTR_SIZE_BYTES <=? content_area)
     then find_free_slot buf amount else Ok (None, buf));
  match slot with
  | Some pc => Ok (u16 pc, buf)
  | None =>
      '(content_area, buf) ←
        (if content_area <? start + CELL_PTR_SIZE_BYTES + amount then
           let max_frag_bytes := Z.min 4 (free_space - (CELL_PTR_SIZE_BYTES + amount)) in
           buf ← defragment_page buf max_frag_bytes;
           content_area ← cell_content_area base buf;
           Ok (content_area, buf)
         else Ok (content_area, buf));
      content_area ← checked_sub content_area amount;
      buf ← write_cell_content_area base buf content_area;
      _ ← turso_assert (content_area + amount <=? usable_space);
      Ok (u16 content_area, buf)
  end.

(** The regular case of [_insert_into_cell]: the cell goes on the page. *)
Definition insert_on_page (buf : bytes) (payload : bytes) (cell_idx free : Z) : Result bytes :=
  count ← cell_count base buf;
  _ ← turso_assert (cell_idx <=? count);
  '(pointer, buf) ← allocate_cell_space buf (lenZ payload) free;
  _ ← turso_assert (pointer + lenZ payload <=? usable_space);
  buf ← write_slice buf pointer payload;
  '(array, _) ← cell_pointer_array_offset_and_size base buf;
  let cur := array + CELL_PTR_SIZE_BYTES * cell_idx in
  count ← cell_count base buf;
  n_cells_forward ← checked_sub count cell_idx;
  let n_bytes_forward := CELL_PTR_SIZE_BYTES * n_cells_forward in
  buf ← (if 0 <? n_bytes_forward
         then copy_within buf cur (cur + n_bytes_forward) (cur + CELL_PTR_SIZE_BYTES)
         else Ok buf);
  buf ← write_u16_no_offset buf cur pointer;
  count ← cell_count base buf;
  write_cell_count base buf (u16 (count + 1)).

(** [shift_pointers_left] *)
Definition shift_pointers_left (buf : bytes) (cell_idx : Z) : Result bytes :=
  count ← cell_count base buf;
  _ ← turso_assert (0 <? count);
  '(array, _) ← cell_pointer_array_offset_and_size base buf;
  let start := array + cell_idx * 2 + 2 in
  right_cells ← checked_sub count (cell_idx + 1);
  copy_within buf start (start + right_cells * 2) (start - 2).

(** [drop_cell] on the buffer. *)
Definition drop_cell (buf : bytes) (cell_idx : Z) : Result bytes :=
  '(cell_start, cell_len) ← cell_get_raw_region base buf cell_idx usable_space;
  buf ← free_cell_range buf cell_start cell_len;
  count ← cell_count base buf;
  buf ←
    (if 1 <? count then shift_pointers_left buf cell_idx
     else
       buf ← write_cell_content_area base buf usable_space;
       buf ← write_first_freeblock base buf 0;
       write_fragmented_bytes_count base buf 0);
  count ← cell_count base buf;
  count ← checked_sub count 1;
  write_cell_count base buf count.

End space.

(** ** Whole pages *)

(** [ensure_min_cell_size(payload, 0)] *)
Definition ensure_min_cell_size (payload : bytes) : bytes :=
  payload ++ replicate (Z.to_nat (MINIMUM_CELL_SIZE - lenZ payload)) 0.

Definition set_overflow_cells (p : PageInner) (cells : list OverflowCell) : PageInner :=
  mkPage (flags p) (pg_id p) (header_offset p) (pin_count p) (wal_tag p) (buffer p) cells.

(** [_insert_into_cell] *)
Definition insert_into_cell_impl (p : PageInner) (payload : bytes) (cell_idx usable_space : Z)
    (allow_regular_insert_despite_overflow : bool) : Result PageInner :=
  let base := header_offset p in
  let buf := as_ptr p in
  count ← cell_count base buf;
  _ ← turso_assert (cell_idx <=? count + lenZ (overflow_cells p));
  let already_has_overflow := match overflow_cells p with [] => false | _ => true end in
  free ← compute_free_space base usable_space buf;
  let enough_space :=
    if already_has_overflow && negb allow_regular_insert_despite_overflow then false
    else Z.max (lenZ payload) MINIMUM_CELL_SIZE + CELL_PTR_SIZE_BYTES <=? free in
  if negb enough_space then
    t ← page_type base buf;
    let payload := if bool_decide (t = IndexLeaf) then ensure_min_cell_size payload else payload in
    Ok (set_overflow_cells p (overflow_cells p ++ [mkOverflowCell cell_idx payload]))
  else
    buf ← insert_on_page base usable_space buf payload cell_idx free;
    Ok (set_buffer p buf).

Definition insert_into_cell (p : PageInner) (payload : bytes) (cell_idx usable_space : Z)
    : Result PageInner :=
  insert_into_cell_impl p payload cell_idx usable_space false.

(** [drop_cell] *)
Definition page_drop_cell (p : PageInner) (cell_idx usable_space : Z) : Result PageInner :=
  buf ← drop_cell (header_offset p) usable_space (as_ptr p) cell_idx;
  Ok (set_buffer p buf).

(** [btree_init_page] *)
Definition btree_init_page (p : PageInner) (t : PageType) (usable_space : Z) : Result PageInner :=
  let base := header_offset p in
  buf ← write_page_type base (as_ptr p) (page_type_u8 t);
  buf ← write_first_freeblock base buf 0;
  buf ← write_cell_count base buf 0;
  buf ← write_cell_content_area base buf usable_space;
  buf ← write_fragmented_bytes_count base buf 0;
  buf ← write_rightmost_ptr base buf 0;
  Ok (set_overflow_cells (set_buffer p buf) []).

(** [delete_may_need_balancing] *)
Definition delete_may_need_balancing (p : PageInner) (cell_idx usable_space : Z) : Result bool :=
  let base := header_offset p in
  let buf := as_ptr p in
  leaf ← is_leaf base buf;
  count ← cell_count base buf;
  if negb leaf || (count =? 1) || negb (match overflow_cells p with [] => true | _ => false end)
  then Ok true
  else
    '(_, cell_len) ← cell_get_raw_region base buf cell_idx usable_space;
    free ← compute_free_space base usable_space buf;
    Ok (usable_space * 2 <? (free + cell_len + 2) * 3).
