(* ===== verification/BtreeSpace.v ===== *)
(** * BtreeSpace: the space invariant of a B-tree page

    The content area of a page is tiled by the regions in use, the free blocks
    and the fragments.  This file states that invariant ([space_ok]) and shows
    that the free-space functions of [BtreePage] keep it: [compute_free_space]
    returns the exact free space, [find_free_slot] and [free_cell_range] move a
    region between the free blocks and the used regions and touch nothing
    else. *)

From stdpp Require Import sets.
From S2P Require Import Prelude Varint OnDisk Page BtreePage.

(** A check that passes, and one test decided. *)
Ltac pass :=
  match goal with
  | |- context [mbind ?f (or_corrupt ?b)] =>
      replace (mbind f (or_corrupt b)) with (f tt) by (replace b with true by lia; done)
  | |- context [mbind ?f (turso_assert ?b)] =>
      replace (mbind f (turso_assert b)) with (f tt) by (replace b with true by lia; done)
  end; cbn [mbind Result_bind].
Ltac decide_if b :=
  match goal with
  | |- context [if ?c then _ else _] => replace c with b by (unfold MINIMUM_CELL_SIZE in *; lia)
  end.

Lemma as_ptr_set p b : as_ptr (set_buffer p b) = b.
Proof. done. Qed.

(** ** Byte ranges *)

(** [n] bytes from offset [a] on. *)
Definition sub {A} (buf : list A) (a n : Z) : list A := take (Z.to_nat n) (drop (Z.to_nat a) buf).

Definition get16 (buf : bytes) (a : Z) : Z := be_combine (sub buf a 2).
Definition get8 (buf : bytes) (a : Z) : Z := be_combine (sub buf a 1).

Lemma lenZ_sub {A} (buf : list A) a n : 0 <= a -> 0 <= n -> a + n <= lenZ buf -> lenZ (sub buf a n) = n.
Proof. unfold sub, lenZ. intros. rewrite length_take, length_drop. lia. Qed.

Lemma lenZ_splice {A} (buf x : list A) a :
  0 <= a -> a + lenZ x <= lenZ buf -> lenZ (splice buf a x) = lenZ buf.
Proof. intros. unfold lenZ. by rewrite splice_length. Qed.

Lemma sub_lookup {A} (buf : list A) a n (i : nat) :
  Z.of_nat i < n -> sub buf a n !! i = buf !! (Z.to_nat a + i)%nat.
Proof. intros. unfold sub. rewrite lookup_take_lt by lia. by rewrite lookup_drop. Qed.

Lemma sub_lookup_None {A} (buf : list A) a n (i : nat) : n <= Z.of_nat i -> sub buf a n !! i = None.
Proof. intros. unfold sub. apply lookup_take_ge. lia. Qed.

(** Two ranges are equal when they are equal byte by byte. *)
Lemma sub_ext {A} (buf buf' : list A) a b n :
  (forall i : nat, Z.of_nat i < n ->
     buf' !! (Z.to_nat b + i)%nat = buf !! (Z.to_nat a + i)%nat) ->
  sub buf' b n = sub buf a n.
Proof.
  intros H. apply list_eq. intros i. destruct (Z.lt_ge_cases (Z.of_nat i) n).
  - rewrite !sub_lookup by lia. by apply H.
  - by rewrite !sub_lookup_None by lia.
Qed.

Lemma sub_splice_ne {A} (buf x : list A) a b n :
  0 <= a -> 0 <= b -> b + lenZ x <= lenZ buf -> a + n <= b \/ b + lenZ x <= a ->
  sub (splice buf b x) a n = sub buf a n.
Proof.
  intros Ha Hb Hx Hor. apply sub_ext. intros i Hi. destruct Hor.
  - apply splice_lookup_lt; [lia|]. pose proof (lenZ_nonneg x). lia.
  - apply splice_lookup_ge; lia.
Qed.

(** A range inside the written one. *)
Lemma sub_splice_in {A} (buf x : list A) a b n :
  0 <= b <= a -> a + n <= b + lenZ x -> b + lenZ x <= lenZ buf ->
  sub (splice buf b x) a n = sub x (a - b) n.
Proof.
  intros Hb Hn Hx. apply sub_ext. intros i Hi.
  rewrite splice_lookup_mid by (pose proof (lenZ_nonneg x); lia). f_equal. lia.
Qed.

Lemma sub_full {A} (x : list A) n : n = lenZ x -> sub x 0 n = x.
Proof. intros ->. unfold sub, lenZ. rewrite Nat2Z.id. by rewrite drop_0, firstn_all. Qed.

Lemma sub_splice_eq {A} (buf x : list A) a n :
  0 <= a -> a + lenZ x <= lenZ buf -> n = lenZ x -> sub (splice buf a x) a n = x.
Proof. intros. rewrite sub_splice_in by lia. rewrite Z.sub_diag. by apply sub_full. Qed.

Lemma sub_sub {A} (buf : list A) a n b m :
  0 <= a -> 0 <= b -> b + m <= n -> sub (sub buf a n) b m = sub buf (a + b) m.
Proof.
  intros. apply sub_ext. intros i Hi. rewrite sub_lookup by lia. f_equal. lia.
Qed.

Lemma sub_ok buf a n : bytes_ok buf -> bytes_ok (sub buf a n).
Proof. intros. by apply Forall_take, Forall_drop. Qed.

Lemma splice_ok buf a x : bytes_ok buf -> bytes_ok x -> bytes_ok (splice buf a x).
Proof.
  intros. unfold splice. apply Forall_app_2; [by apply Forall_take|].
  apply Forall_app_2; [done|by apply Forall_drop].
Qed.

(** ** Single fields *)

Lemma slice_sub {A} (buf : list A) a b :
  0 <= a <= b -> b <= lenZ buf -> slice buf a b = Ok (sub buf a (b - a)).
Proof. intros. by apply slice_Ok. Qed.

Lemma idx_get8 (buf : list Z) a : 0 <= a < lenZ buf -> idx buf a = Ok (get8 buf a).
Proof.
  intros Ha. unfold idx, getZ. destruct (Z.ltb_spec a 0); [lia|].
  destruct (lookup_lt_is_Some_2 buf (Z.to_nat a)) as [x Hx]; [unfold lenZ in Ha; lia|].
  rewrite Hx. cbn. unfold get8, sub. rewrite (drop_S _ x) by done. cbn. done.
Qed.

Lemma pair_sub (buf : list Z) a :
  0 <= a -> a + 2 <= lenZ buf -> [get8 buf a; get8 buf (a + 1)] = sub buf a 2.
Proof.
  intros. unfold get8, sub.
  destruct (lookup_lt_is_Some_2 buf (Z.to_nat a)) as [x Hx]; [unfold lenZ in *; lia|].
  destruct (lookup_lt_is_Some_2 buf (Z.to_nat (a + 1))) as [y Hy]; [unfold lenZ in *; lia|].
  rewrite (drop_S _ x (Z.to_nat a)), (drop_S _ y (Z.to_nat (a + 1))) by done.
  replace (Z.to_nat (a + 1)) with (S (Z.to_nat a)) in Hy by lia.
  rewrite (drop_S _ y (S (Z.to_nat a))) by done. done.
Qed.

Lemma read_u16_no_offset_ok buf a :
  0 <= a -> a + 2 <= lenZ buf -> read_u16_no_offset buf a = Ok (get16 buf a).
Proof.
  intros. unfold read_u16_no_offset. rewrite !idx_get8 by lia. cbn [mbind Result_bind].
  rewrite pair_sub by lia. done.
Qed.

Lemma read_u16_ok base buf pos :
  0 <= base + pos -> base + pos + 2 <= lenZ buf -> read_u16 base buf pos = Ok (get16 buf (base + pos)).
Proof.
  intros. unfold read_u16. rewrite slice_sub by lia. cbn.
  replace (base + pos + 2 - (base + pos)) with 2 by lia. done.
Qed.

Lemma write_u16_no_offset_ok buf a v :
  0 <= a -> a + 2 <= lenZ buf -> write_u16_no_offset buf a v = Ok (splice buf a (be_split 2 v)).
Proof. intros. apply write_slice_Ok. rewrite be_split_lenZ. split_and!; [done|lia|done]. Qed.

Lemma write_u16_ok base buf pos v :
  0 <= base + pos -> base + pos + 2 <= lenZ buf ->
  write_u16 base buf pos v = Ok (splice buf (base + pos) (be_split 2 v)).
Proof. intros. apply write_slice_Ok. rewrite be_split_lenZ. split_and!; [done|lia|done]. Qed.

Lemma splice_single {A} (buf : list A) a x :
  0 <= a < lenZ buf -> splice buf a [x] = <[Z.to_nat a := x]> buf.
Proof.
  intros. unfold splice, lenZ in *. cbn [length]. rewrite insert_take_drop by lia.
  by rewrite Nat.add_1_r.
Qed.

Lemma write_u8_ok base buf pos v :
  0 <= base + pos < lenZ buf -> write_u8 base buf pos v = Ok (splice buf (base + pos) [v]).
Proof. intros. apply set_idx_Ok. split; [lia|]. by rewrite splice_single. Qed.

Lemma get16_u16 buf a : bytes_ok buf -> 0 <= a -> a + 2 <= lenZ buf -> is_u16 (get16 buf a).
Proof.
  intros Hb ? ?. pose proof (be_combine_bound (sub buf a 2) (sub_ok _ _ _ Hb)) as H'.
  rewrite lenZ_sub in H' by lia. change (256 ^ 2) with 65536 in H'. exact H'.
Qed.

Lemma get8_u8 buf a : bytes_ok buf -> 0 <= a < lenZ buf -> is_u8 (get8 buf a).
Proof.
  intros Hb ?. pose proof (be_combine_bound (sub buf a 1) (sub_ok _ _ _ Hb)) as H'.
  rewrite lenZ_sub in H' by lia. change (256 ^ 1) with 256 in H'. exact H'.
Qed.

Lemma get16_splice buf a v :
  0 <= a -> a + 2 <= lenZ buf -> is_u16 v -> get16 (splice buf a (be_split 2 v)) a = v.
Proof.
  intros. unfold get16. rewrite sub_splice_eq by (rewrite ?be_split_lenZ; lia).
  by apply be16_roundtrip.
Qed.

Lemma get8_splice buf a v : 0 <= a < lenZ buf -> get8 (splice buf a [v]) a = v.
Proof.
  intros. assert (lenZ [v] = 1) by done. unfold get8. rewrite sub_splice_eq by lia.
  unfold be_combine. cbn. lia.
Qed.

Lemma get16_ne buf x a b :
  0 <= a -> 0 <= b -> b + lenZ x <= lenZ buf -> a + 2 <= b \/ b + lenZ x <= a ->
  get16 (splice buf b x) a = get16 buf a.
Proof. intros. unfold get16. by rewrite sub_splice_ne. Qed.

Lemma get8_ne buf x a b :
  0 <= a -> 0 <= b -> b + lenZ x <= lenZ buf -> a + 1 <= b \/ b + lenZ x <= a ->
  get8 (splice buf b x) a = get8 buf a.
Proof. intros. unfold get8. by rewrite sub_splice_ne. Qed.

(** ** Blocks *)

(** A block: its offset and its size. *)
Abbreviation block := (Z * Z)%type.

Definition bend (b : block) : Z := b.1 + b.2.
Definition apart (b c : block) : Prop := bend b <= c.1 \/ bend c <= b.1.
Definition within (lo hi : Z) (b : block) : Prop := lo <= b.1 /\ 0 <= b.2 /\ bend b <= hi.

Fixpoint disj (l : list block) : Prop :=
  match l with [] => True | b :: l' => Forall (apart b) l' /\ disj l' end.

Definition sizes (l : list block) : Z := foldr (fun b z => b.2 + z) 0 l.

Lemma apart_sym b c : apart b c -> apart c b.
Proof. unfold apart. tauto. Qed.

Lemma disj_perm l l' : l ≡ₚ l' -> disj l -> disj l'.
Proof.
  induction 1 as [|b l l' Hl IH|b c l|l l' l'' _ IH1 _ IH2]; cbn; auto.
  - intros [H1 H2]. split; [by rewrite <- Hl|auto].
  - intros [[Hbc Hb]%Forall_cons [Hc Hd]]. split_and!; [apply Forall_cons|..]; auto using apart_sym.
Qed.

Lemma disj_app l k :
  disj (l ++ k) <-> disj l /\ disj k /\ Forall (fun b => Forall (apart b) k) l.
Proof.
  induction l as [|b l IH]; cbn; [split; [intros; split_and!; auto|tauto]|].
  rewrite Forall_app, IH, Forall_cons. tauto.
Qed.

Lemma sizes_cons b l : sizes (b :: l) = b.2 + sizes l.
Proof. done. Qed.

Lemma sizes_app l k : sizes (l ++ k) = sizes l + sizes k.
Proof. induction l; cbn; [done|]. unfold sizes in *. lia. Qed.

Lemma sizes_perm l l' : l ≡ₚ l' -> sizes l = sizes l'.
Proof. unfold sizes. induction 1; cbn; lia. Qed.

Lemma sizes_nonneg l lo hi : Forall (within lo hi) l -> 0 <= sizes l.
Proof.
  induction 1 as [|b l Hb Hl IH]; cbn; [lia|]. unfold sizes, within in *. lia.
Qed.

(** Blocks on the two sides of [b]. *)
Lemma split_around b l lo hi :
  Forall (apart b) l -> Forall (within lo hi) l ->
  exists l1 l2, l ≡ₚ l1 ++ l2 /\ Forall (within lo b.1) l1 /\ Forall (within (bend b) hi) l2.
Proof.
  induction l as [|c l IH]; intros Ha Hw.
  - by exists [], [].
  - apply Forall_cons in Ha as [Hc Ha]. apply Forall_cons in Hw as [Hwc Hw].
    destruct (IH Ha Hw) as (l1 & l2 & Hp & H1 & H2). destruct (Z.le_gt_cases (bend c) b.1).
    + exists (c :: l1), l2. rewrite Hp. split_and!; [done| |done]. apply Forall_cons. split; [|done].
      unfold within in *. lia.
    + exists l1, (c :: l2). rewrite Hp. split_and!; [by rewrite Permutation_middle|done|].
      apply Forall_cons. split; [|done]. unfold within, apart in *. lia.
Qed.

(** Disjoint blocks fit in their range. *)
Lemma sizes_bound l : forall lo hi, disj l -> Forall (within lo hi) l -> lo <= hi -> sizes l <= hi - lo.
Proof.
  induction l as [l IH] using (induction_ltof1 _ (@length block)). unfold ltof in IH.
  destruct l as [|b l]; intros lo hi Hd Hw Hle; cbn; [lia|].
  destruct Hd as [Ha Hd]. apply Forall_cons in Hw as [Hb Hw].
  destruct (split_around b l lo hi Ha Hw) as (l1 & l2 & Hp & H1 & H2).
  apply (disj_perm _ _ Hp), disj_app in Hd as (Hd1 & Hd2 & _).
  pose proof (Permutation_length Hp) as Hlen. rewrite length_app in Hlen.
  pose proof (sizes_perm _ _ Hp) as Hs. rewrite sizes_app in Hs. unfold sizes in *.
  unfold within, bend in *.
  pose proof (IH l1 ltac:(cbn; lia) lo b.1 Hd1 H1 ltac:(lia)).
  pose proof (IH l2 ltac:(cbn; lia) (b.1 + b.2) hi Hd2 H2 ltac:(lia)). lia.
Qed.

(** Two neighbours with less than a cell between them become one block. *)
Lemma disj_merge b c l :
  disj (b :: c :: l) -> 0 <= b.2 -> 0 <= c.2 -> bend b <= c.1 -> c.1 - bend b < 4 ->
  Forall (fun d : block => 4 <= d.2) l ->
  disj ((b.1, bend c - b.1) :: l).
Proof.
  cbn. intros ([_ Hb]%Forall_cons & Hc & Hd) Hb0 Hc0 Hbc Hgap H4. split; [|done].
  rewrite Forall_forall in *. intros d Hin. specialize (Hb d Hin). specialize (Hc d Hin).
  specialize (H4 d Hin). unfold apart, bend in *. cbn in *. lia.
Qed.

(** A block may be cut. *)
Lemma disj_cut (b : block) n l :
  disj (b :: l) -> 0 <= n <= b.2 -> disj ((b.1, n) :: (b.1 + n, b.2 - n) :: l).
Proof.
  cbn. intros [Hb Hd] Hn. split_and!; [apply Forall_cons; split| |done].
  - unfold apart, bend. cbn. lia.
  - eapply Forall_impl; [exact Hb|]. intros d. unfold apart, bend. cbn. lia.
  - eapply Forall_impl; [exact Hb|]. intros d. unfold apart, bend. cbn. lia.
Qed.

Lemma disj_shrink (b c : block) l :
  disj (b :: l) -> b.1 <= c.1 -> bend c <= bend b -> disj (c :: l).
Proof.
  cbn. intros [Hb Hd] H1 H2. split; [|done]. eapply Forall_impl; [exact Hb|]. intros d.
  unfold apart, bend in *. lia.
Qed.

(** ** The free-block list *)

(** The list from pointer [p] up to pointer [q]. *)
Fixpoint seg (buf : bytes) (p : Z) (fbs : list block) (q : Z) : Prop :=
  match fbs with
  | [] => p = q
  | b :: fbs' => p = b.1 /\ get16 buf (b.1 + 2) = b.2 /\ seg buf (get16 buf b.1) fbs' q
  end.

(** Free blocks ascend, with room for a cell between them. *)
Fixpoint ascending (hi lo : Z) (fbs : list block) : Prop :=
  match fbs with
  | [] => True
  | b :: fbs' => lo <= b.1 /\ 4 <= b.2 /\ bend b <= hi /\ ascending hi (bend b + 4) fbs'
  end.

(** The least offset of a block after [fbs]. *)
Definition past (lo : Z) (fbs : list block) : Z := foldl (fun _ b => bend b + 4) lo fbs.

Lemma seg_app buf p l k q :
  seg buf p (l ++ k) q <-> exists r, seg buf p l r /\ seg buf r k q.
Proof.
  revert p. induction l as [|b l IH]; intros p; cbn.
  - split; [eauto|]. by intros (r & -> & ?).
  - rewrite IH. naive_solver.
Qed.

(** A write apart from the headers of the blocks. *)
Lemma seg_splice buf p l q a x :
  seg buf p l q -> 0 <= a -> a + lenZ x <= lenZ buf ->
  Forall (fun b : block => 0 <= b.1 /\ (a + lenZ x <= b.1 \/ b.1 + 4 <= a)) l ->
  seg (splice buf a x) p l q.
Proof.
  revert p. induction l as [|b l IH]; intros p; cbn; [done|].
  intros (-> & Hs & Hl) Ha Hx [Hb Hf]%Forall_cons. rewrite !get16_ne by lia. auto.
Qed.

Lemma ascending_le hi lo lo' fbs : ascending hi lo fbs -> lo' <= lo -> ascending hi lo' fbs.
Proof. destruct fbs; cbn; [done|]. intros (? & ? & ? & ?) ?. split_and!; [lia|done..]. Qed.

Lemma ascending_app hi lo l k :
  ascending hi lo (l ++ k) <-> ascending hi lo l /\ ascending hi (past lo l) k.
Proof. revert lo. induction l as [|b l IH]; intros lo; cbn; [tauto|]. rewrite IH. tauto. Qed.

Lemma past_snoc lo l b : past lo (l ++ [b]) = bend b + 4.
Proof. unfold past. by rewrite foldl_app. Qed.

Lemma past_le hi lo l : ascending hi lo l -> lo <= past lo l.
Proof.
  revert lo. induction l as [|b l IH]; intros lo; cbn; [lia|]. intros (H1 & H2 & H3 & H4).
  specialize (IH _ H4). unfold past, bend in *. lia.
Qed.

Lemma ascending_forall hi lo fbs :
  ascending hi lo fbs -> Forall (fun b : block => lo <= b.1 /\ 4 <= b.2 /\ bend b <= hi) fbs.
Proof.
  revert lo. induction fbs as [|b fbs IH]; intros lo; [done|]. cbn. intros (H1 & H2 & H3 & H4).
  apply Forall_cons. split; [done|]. eapply Forall_impl; [by apply IH|]. cbn. unfold bend in *.
  intros. lia.
Qed.

(** Blocks before [past lo l]. *)
Lemma ascending_below hi lo l :
  ascending hi lo l -> Forall (fun b => bend b + 4 <= past lo l) l.
Proof.
  revert lo. induction l as [|b l IH]; intros lo; [done|]. cbn. intros (H1 & H2 & H3 & H4).
  apply Forall_cons. split; [by eapply past_le|by apply IH].
Qed.

Lemma ascending_length hi lo fbs : ascending hi lo fbs -> lo <= hi + 4 -> lo + 8 * lenZ fbs <= hi + 4.
Proof.
  revert lo. induction fbs as [|b fbs IH]; intros lo; cbn; [unfold lenZ; cbn; lia|].
  intros (H1 & H2 & H3 & H4) ?. unfold bend in *. specialize (IH _ H4 ltac:(lia)).
  unfold lenZ in *. cbn [length]. lia.
Qed.

Lemma ascending_disj hi lo fbs : ascending hi lo fbs -> disj fbs.
Proof.
  revert lo. induction fbs as [|b fbs IH]; intros lo; [done|]. cbn. intros (H1 & H2 & H3 & H4).
  split; [|by eapply IH]. eapply Forall_impl; [by eapply ascending_forall|]. intros c ?.
  unfold apart. cbn in *. lia.
Qed.

(** ** The invariant *)

(** The dimensions of pages: the header offset and the usable space. *)
Definition dims (base usable : Z) : Prop := (base = 0 \/ base = 100) /\ 480 <= usable <= 65536.

Section space.
Context (base usable : Z) (Hdims : dims base usable).

(** [lo] is the end of the cell pointer array, [ca] the start of the content
    area, [used] the regions in use. *)
Record space_ok (buf : bytes) (lo ca : Z) (fbs used : list block) : Prop := mkSpaceOk {
  so_len : usable <= lenZ buf;
  so_bytes : bytes_ok buf;
  so_lo : base + 8 <= lo <= ca /\ ca <= usable;
  so_ca : get16 buf (base + 5) = u16 ca;
  so_chain : seg buf (get16 buf (base + 1)) fbs 0;
  so_asc : ascending usable ca fbs;
  so_used : Forall (fun b => within ca usable b /\ 4 <= b.2) used;
  so_disj : disj (used ++ fbs);
  so_sum : sizes used + sizes fbs + get8 buf (base + 7) = usable - ca
}.

(** The same without the count of the fragmented bytes, which the header may
    state wrongly. *)
Record space_but (buf : bytes) (lo ca : Z) (fbs used : list block) : Prop := mkSpaceBut {
  sb_len : usable <= lenZ buf;
  sb_bytes : bytes_ok buf;
  sb_lo : base + 8 <= lo <= ca /\ ca <= usable;
  sb_ca : get16 buf (base + 5) = u16 ca;
  sb_chain : seg buf (get16 buf (base + 1)) fbs 0;
  sb_asc : ascending usable ca fbs;
  sb_used : Forall (fun b => within ca usable b /\ 4 <= b.2) used;
  sb_disj : disj (used ++ fbs)
}.

Lemma space_ok_but buf lo ca fbs used : space_ok buf lo ca fbs used -> space_but buf lo ca fbs used.
Proof. by intros []. Qed.

(** What a free-space operation leaves alone: the page type, the cell count,
    everything before the page header and after the usable space, the bytes
    between the header and the content area, and the regions in use. *)
Record keeps (buf buf' : bytes) (ca : Z) (used : list block) : Prop := mkKeeps {
  k_len : lenZ buf' = lenZ buf;
  k_type : get8 buf' base = get8 buf base;
  k_count : get16 buf' (base + 3) = get16 buf (base + 3);
  k_before : forall a n, 0 <= a -> a + n <= base -> sub buf' a n = sub buf a n;
  k_array : forall a n, base + 8 <= a -> a + n <= ca -> sub buf' a n = sub buf a n;
  k_used : forall u a n, u ∈ used -> u.1 <= a -> a + n <= bend u -> sub buf' a n = sub buf a n;
  k_after : forall a n, usable <= a -> sub buf' a n = sub buf a n
}.

Lemma decode_ca x ca :
  x = u16 ca -> 0 < ca <= 65536 -> (if x =? 0 then PageSize_MAX else x) = ca.
Proof. intros ->. unfold u16, PageSize_MAX. intros. destruct (Z.eqb_spec (ca mod 65536) 0); divlia. Qed.

Lemma cell_content_area_but buf lo ca fbs used :
  space_but buf lo ca fbs used -> cell_content_area base buf = Ok ca.
Proof.
  intros []. unfold cell_content_area, BTREE_CELL_CONTENT_AREA. destruct Hdims.
  rewrite read_u16_ok by lia. cbn. by rewrite (decode_ca _ ca) by (done || lia).
Qed.

Lemma cell_content_area_ok buf lo ca fbs used :
  space_ok buf lo ca fbs used -> cell_content_area base buf = Ok ca.
Proof. intros HS. by eapply cell_content_area_but, space_ok_but. Qed.

Lemma freeblocks_loop_ok buf b fbs : forall fuel free lo,
  seg buf b.1 (b :: fbs) 0 -> ascending usable lo (b :: fbs) -> 0 < lo -> usable <= lenZ buf ->
  (length fbs < fuel)%nat -> freeblocks_loop usable fuel buf b.1 free = Ok (free + sizes (b :: fbs)).
Proof.
  revert b. induction fbs as [|c fbs IH]; intros b fuel free lo Hs Ha Hlo Hlen Hf;
    (destruct fuel as [|fuel]; [lia|]); destruct Hs as (_ & Hsz & Hs);
    destruct Ha as (H1 & H2 & H3 & Ha); unfold bend in *; cbn [freeblocks_loop];
    pass; rewrite !read_u16_no_offset_ok, Hsz by lia; cbn [mbind Result_bind]; do 2 pass.
  - cbn in Hs. rewrite Hs. cbn. f_equal. lia.
  - pose proof Hs as [Hn Hs']. pose proof Ha as [Hc _]. rewrite Hn in *. decide_if false. pass.
    rewrite (IH c fuel _ (b.1 + b.2 + 4)); try done; try lia; cbn in *; [f_equal; lia|lia].
Qed.

Lemma get16_sub buf a n b :
  0 <= a -> 0 <= b -> b + 2 <= n -> get16 (sub buf a n) b = get16 buf (a + b).
Proof. intros. unfold get16. by rewrite sub_sub. Qed.

Lemma get8_sub buf a n b :
  0 <= a -> 0 <= b -> b + 1 <= n -> get8 (sub buf a n) b = get8 buf (a + b).
Proof. intros. unfold get8. by rewrite sub_sub. Qed.

Definition hsize_of (t : Z) : Z := if t <=? 5 then 12 else 8.

Lemma free_space_fields_ok buf :
  base + 8 <= lenZ buf ->
  btree_free_space_fields base buf =
  Ok (mkFreeSpaceFields (hsize_of (get8 buf base)) (get16 buf (base + 3)) (get16 buf (base + 1))
        (if get16 buf (base + 5) =? 0 then PageSize_MAX else get16 buf (base + 5))
        (get8 buf (base + 7))).
Proof.
  intros H. destruct Hdims. unfold btree_free_space_fields, LEAF_PAGE_HEADER_SIZE_BYTES.
  rewrite slice_sub by lia. replace (base + 8 - base) with 8 by lia. cbn [mbind Result_bind].
  assert (lenZ (sub buf base 8) = 8) by (apply lenZ_sub; lia).
  unfold BTREE_PAGE_TYPE, BTREE_CELL_CONTENT_AREA, BTREE_CELL_COUNT, BTREE_FIRST_FREEBLOCK,
    BTREE_FRAGMENTED_BYTES_COUNT.
  rewrite !idx_get8, !read_u16_no_offset_ok by lia. cbn [mbind Result_bind].
  rewrite !get16_sub, !get8_sub by lia. rewrite Z.add_0_r. done.
Qed.

(** The free space by the count of the header. *)
Lemma compute_free_space_but buf lo ca fbs used :
  space_but buf lo ca fbs used ->
  lo = base + hsize_of (get8 buf base) + 2 * get16 buf (base + 3) ->
  ca + get8 buf (base + 7) + sizes fbs <= usable ->
  compute_free_space base usable buf = Ok (ca + get8 buf (base + 7) + sizes fbs - lo).
Proof.
  intros [] -> Hfits. destruct Hdims. destruct sb_lo0 as [? ?].
  pose proof (get8_u8 buf (base + 7) sb_bytes0 ltac:(lia)) as Hf.
  unfold compute_free_space. rewrite free_space_fields_ok by lia. cbn [mbind Result_bind].
  cbn [fs_header_size fs_cell_count fs_first_freeblock fs_cell_content_area fs_num_frag_free_bytes].
  set (first := base + hsize_of _ + _) in *.
  rewrite (decode_ca _ ca) by (done || lia).
  do 2 pass.
  assert ((if 0 <? get16 buf (base + 1) then
      _ ← or_corrupt (ca <=? get16 buf (base + 1));
      freeblocks_loop usable (S (Z.to_nat usable)) buf (get16 buf (base + 1)) (ca + get8 buf (base + 7))
    else Ok (ca + get8 buf (base + 7))) = Ok (ca + get8 buf (base + 7) + sizes fbs)) as ->.
  { destruct fbs as [|b fbs].
    - cbn in sb_chain0. rewrite sb_chain0. cbn. f_equal. lia.
    - pose proof (ascending_length _ _ _ sb_asc0 ltac:(lia)) as Hlen. unfold lenZ in Hlen.
      cbn [length] in Hlen. pose proof sb_chain0 as [Hb _]. rewrite Hb in *.
      pose proof sb_asc0 as (Hca & _).
      decide_if true. pass.
      by apply (freeblocks_loop_ok _ _ _ _ _ ca); [done|done|lia|done|lia]. }
  cbn [mbind Result_bind].
  pose proof (ascending_forall _ _ _ sb_asc0) as Hfb.
  assert (0 <= sizes fbs) as ?.
  { eapply (sizes_nonneg _ ca usable). eapply Forall_impl; [done|]. unfold within, bend. cbn. intros; lia. }
  unfold is_u8 in *. do 2 pass. done.
Qed.

(** The free space of a page with its regions in use. *)
Lemma compute_free_space_ok buf lo ca fbs used :
  space_ok buf lo ca fbs used ->
  lo = base + hsize_of (get8 buf base) + 2 * get16 buf (base + 3) ->
  compute_free_space base usable buf = Ok (usable - lo - sizes used).
Proof.
  intros HS Hlo. pose proof (so_sum _ _ _ _ _ HS) as Hsum.
  assert (0 <= sizes used) as Hu.
  { eapply (sizes_nonneg _ ca usable). eapply Forall_impl; [apply (so_used _ _ _ _ _ HS)|]. by intros b [? _]. }
  rewrite (compute_free_space_but _ _ _ _ _ (space_ok_but _ _ _ _ _ HS) Hlo) by lia. f_equal. lia.
Qed.

(** ** Writes of the free-space functions *)

(** A range that [keeps] allows to change. *)
Definition writable (ca : Z) (used : list block) (a n : Z) : Prop :=
  (base + 1 <= a /\ a + n <= base + 3) \/ (base + 5 <= a /\ a + n <= base + 8) \/
  (ca <= a /\ a + n <= usable /\ Forall (fun u : block => a + n <= u.1 \/ bend u <= a) used).

Lemma keeps_refl buf ca used : keeps buf buf ca used.
Proof. by constructor. Qed.

Lemma keeps_trans buf1 buf2 buf3 ca used :
  keeps buf1 buf2 ca used -> keeps buf2 buf3 ca used -> keeps buf1 buf3 ca used.
Proof.
  intros [] []. constructor; try congruence; intros.
  - by rewrite k_before1, k_before0.
  - by rewrite k_array1, k_array0.
  - by erewrite k_used1, k_used0.
  - by rewrite k_after1, k_after0.
Qed.

Lemma keeps_splice buf a x ca used :
  writable ca used a (lenZ x) -> base + 8 <= ca -> usable <= lenZ buf ->
  Forall (fun u : block => ca <= u.1 /\ bend u <= usable) used ->
  keeps buf (splice buf a x) ca used.
Proof.
  intros Hw Hca Hlen Hu. destruct Hdims. pose proof (lenZ_nonneg x).
  assert ((base + 1 <= a /\ a + lenZ x <= base + 3) \/ (base + 5 <= a /\ a + lenZ x <= base + 8) \/
    (ca <= a /\ a + lenZ x <= usable)) as Hw' by (destruct Hw as [|[|(? & ? & ?)]]; lia).
  constructor; intros.
  - apply lenZ_splice; lia.
  - apply get8_ne; lia.
  - apply get16_ne; lia.
  - apply sub_splice_ne; lia.
  - apply sub_splice_ne; lia.
  - rewrite Forall_forall in Hu. destruct (Hu u) as [? ?]; [done|].
    apply sub_splice_ne; try lia. destruct Hw as [?|[?|(? & ? & Hf)]]; [lia..|].
    rewrite Forall_forall in Hf. specialize (Hf u ltac:(done)). lia.
  - apply sub_splice_ne; lia.
Qed.

(** Where the pointer to the block after [l] is. *)
Definition link_pos (l : list block) : Z :=
  match last l with Some b => b.1 | None => base + 1 end.

Lemma link_pos_snoc l b : link_pos (l ++ [b]) = b.1.
Proof. unfold link_pos. by rewrite last_snoc. Qed.

Lemma seg_relink buf l r q ca :
  seg buf (get16 buf (base + 1)) l r -> ascending usable ca l -> base + 8 <= ca ->
  usable <= lenZ buf -> is_u16 q ->
  let buf' := splice buf (link_pos l) (be_split 2 q) in
  seg buf' (get16 buf' (base + 1)) l q.
Proof.
  intros Hs Ha Hca Hlen Hq. destruct Hdims.
  destruct l as [|b l _] using rev_ind; cbn zeta.
  - cbn. unfold link_pos. cbn. rewrite get16_splice; (done || lia).
  - rewrite link_pos_snoc. apply ascending_app in Ha as [Hl (Hlo & H4 & Hb & _)].
    pose proof (past_le _ _ _ Hl). pose proof (ascending_below _ _ _ Hl) as Hbel.
    pose proof (ascending_forall _ _ _ Hl) as Hfa. unfold bend in *.
    apply seg_app in Hs as (r' & Hs & -> & Hsz & _). apply seg_app. exists b.1.
    pose proof (be_split_lenZ 2 q) as Hl2. rewrite (get16_ne _ _ (base + 1)) by lia. split.
    + apply seg_splice; [done|lia|lia|]. apply Forall_forall. intros c Hc.
      rewrite Forall_forall in Hbel, Hfa. specialize (Hbel c Hc). specialize (Hfa c Hc).
      unfold bend in *. cbn in *. lia.
    + cbn. rewrite get16_ne, get16_splice by (done || lia). done.
Qed.

Lemma used_range buf lo ca fbs used :
  space_ok buf lo ca fbs used -> Forall (fun u : block => ca <= u.1 /\ bend u <= usable) used.
Proof. intros []. eapply Forall_impl; [done|]. unfold within. tauto. Qed.

Lemma fb_writable buf lo ca fbs used b a n :
  space_ok buf lo ca fbs used -> b ∈ fbs -> b.1 <= a -> a + n <= bend b -> writable ca used a n.
Proof.
  intros [] Hb Ha Hn. right; right.
  pose proof (ascending_forall _ _ _ so_asc0) as Hf. rewrite Forall_forall in Hf.
  specialize (Hf b Hb). cbn in Hf. split_and!; [lia|lia|].
  apply disj_app in so_disj0 as (_ & _ & Hd). eapply Forall_impl; [exact Hd|]. intros u Hu.
  rewrite Forall_forall in Hu. specialize (Hu b Hb). unfold apart, bend in *. lia.
Qed.

Lemma link_writable buf lo ca l k used :
  space_ok buf lo ca (l ++ k) used -> writable ca used (link_pos l) 2.
Proof.
  intros HS. destruct l as [|b l _] using rev_ind; [left; unfold link_pos; cbn; lia|].
  rewrite link_pos_snoc. eapply (fb_writable _ _ _ _ _ b); [done| |lia|].
  - set_solver.
  - destruct HS as [? ? ? ? ? Hasc]. pose proof (ascending_forall _ _ _ Hasc) as Hf.
    rewrite Forall_forall in Hf. specialize (Hf b ltac:(set_solver)). unfold bend. cbn in *. lia.
Qed.

Lemma link_range buf lo ca l k used :
  space_ok buf lo ca (l ++ k) used ->
  link_pos l + 2 <= usable /\ (link_pos l + 2 <= base + 3 \/ ca <= link_pos l) /\
  base + 1 <= link_pos l.
Proof.
  intros []. destruct Hdims. destruct l as [|c l _] using rev_ind; [unfold link_pos; cbn; lia|].
  rewrite link_pos_snoc. pose proof (ascending_forall _ _ _ so_asc0) as Hf. rewrite Forall_forall in Hf.
  specialize (Hf c ltac:(set_solver)). unfold bend in *. cbn in *. lia.
Qed.

(** The free list with the block [b] taken out; [b] is handed out as [amount]
    bytes and a fragment. *)
Lemma take_whole buf lo ca l b k used amount :
  space_ok buf lo ca (l ++ b :: k) used -> 4 <= amount <= b.2 -> b.2 - amount < 4 ->
  get8 buf (base + 7) <= 57 ->
  let buf1 := splice buf (link_pos l) (be_split 2 (get16 buf b.1)) in
  let buf2 := splice buf1 (base + 7) [get8 buf (base + 7) + (b.2 - amount)] in
  space_ok buf2 lo ca (l ++ k) ((b.1, amount) :: used) /\ keeps buf buf2 ca used.
Proof.
  intros HS Ham Hfr Hfrag. pose proof HS as []. destruct Hdims. cbn zeta.
  pose proof (used_range _ _ _ _ _ HS) as Hur. pose proof (link_writable _ _ _ _ _ _ HS) as Hlw.
  destruct (link_range _ _ _ _ _ _ HS) as (Hl2 & Hl3 & Hl4).
  set (q := get16 buf b.1). set (buf1 := splice buf _ _).
  set (f := get8 buf (base + 7)) in *. set (buf2 := splice buf1 _ _).
  pose proof so_asc0 as Ha. apply ascending_app in Ha as [Hal (Hb1 & Hb2 & Hb3 & Hak)].
  pose proof (past_le _ _ _ Hal) as Hpl. unfold bend in Hb3.
  assert (is_u16 q) as Hq by (apply get16_u16; (done || lia)).
  pose proof (be_split_lenZ 2 q) as Hl2'. assert (lenZ [f + (b.2 - amount)] = 1) as Hl1 by done.
  assert (lenZ buf1 = lenZ buf) as Hlen1 by (apply lenZ_splice; lia).
  assert (keeps buf buf1 ca used) as Hk1 by (apply keeps_splice; [by rewrite Hl2'|lia|lia|done]).
  assert (keeps buf1 buf2 ca used) as Hk2.
  { apply keeps_splice; [right; left; lia|lia|lia|done]. }
  split; [|by eapply keeps_trans]. pose proof (get8_u8 buf (base + 7) so_bytes0 ltac:(lia)) as Hf8.
  fold f in Hf8. unfold is_u8 in Hf8. constructor; try done.
  - by rewrite (k_len _ _ _ _ Hk2), Hlen1.
  - apply splice_ok; [apply splice_ok; [done|apply be_split_ok]|].
    apply Forall_singleton. unfold is_u8. lia.
  - unfold buf2. rewrite get16_ne by lia. unfold buf1. rewrite get16_ne by lia. done.
  - apply seg_app in so_chain0 as (r & Hsl & -> & Hsz & Hsk). apply seg_app. exists q.
    unfold buf2. rewrite get16_ne by lia. split.
    + apply seg_splice; [|lia|lia|].
      * by eapply (seg_relink _ _ _ _ ca); [exact Hsl|done|lia|lia|].
      * eapply Forall_impl; [by eapply ascending_forall|]. cbn. intros. lia.
    + pose proof (ascending_forall _ _ _ Hak) as Hfk. unfold bend in Hfk. cbn in Hfk.
      assert (link_pos l + 2 <= b.1 + b.2) as Hlb.
      { destruct l as [|c l _] using rev_ind; [unfold link_pos; cbn; lia|].
        rewrite link_pos_snoc. rewrite past_snoc in Hb1. unfold bend in *.
        apply ascending_app in Hal as [_ (_ & ? & _)]. lia. }
      apply seg_splice; [apply seg_splice; [done|lia|lia|]|lia|lia|];
        (eapply Forall_impl; [exact Hfk|]; cbn; intros; lia).
  - apply ascending_app. split; [done|]. eapply ascending_le; [done|]. unfold bend. lia.
  - apply Forall_cons. split; [|done]. unfold within, bend. cbn. lia.
  - assert (disj (b :: used ++ l ++ k)) as Hd.
    { eapply disj_perm; [|exact so_disj0]. by rewrite !app_assoc, <- Permutation_middle. }
    eapply disj_shrink; [exact Hd|cbn; lia|unfold bend; cbn; lia].
  - rewrite !sizes_app in *. cbn in so_sum0 |- *. unfold buf2. rewrite get8_splice by lia.
    unfold sizes in *. lia.
Qed.

(** [b] shrinks from the left; the last [amount] bytes are handed out. *)
Lemma take_part buf lo ca l b k used amount :
  space_ok buf lo ca (l ++ b :: k) used -> 4 <= amount -> 4 <= b.2 - amount ->
  let new_size := b.2 - amount in
  let buf' := splice buf (b.1 + 2) (be_split 2 new_size) in
  space_ok buf' lo ca (l ++ (b.1, new_size) :: k) ((b.1 + new_size, amount) :: used) /\
  keeps buf buf' ca used.
Proof.
  intros HS Ham Hn. pose proof HS as []. destruct Hdims. cbn zeta.
  pose proof (used_range _ _ _ _ _ HS) as Hur. set (n := b.2 - amount) in *.
  pose proof so_asc0 as Ha. apply ascending_app in Ha as [Hal (Hb1 & Hb2 & Hb3 & Hak)].
  pose proof (past_le _ _ _ Hal) as Hpl. pose proof (be_split_lenZ 2 n) as Hl2.
  pose proof (fb_writable _ _ _ _ _ b (b.1 + 2) 2 HS ltac:(set_solver) ltac:(lia)
    ltac:(unfold bend in *; lia)) as Hw.
  unfold bend in Hb3. set (buf' := splice _ _ _).
  assert (keeps buf buf' ca used) as Hk by (apply keeps_splice; [by rewrite Hl2|lia|lia|done]).
  split; [|done]. constructor; try done.
  - by rewrite (k_len _ _ _ _ Hk).
  - apply splice_ok; [done|apply be_split_ok].
  - unfold buf'. rewrite get16_ne by lia. done.
  - apply seg_app in so_chain0 as (r & Hsl & -> & Hsz & Hsk). apply seg_app. exists b.1.
    unfold buf'. rewrite get16_ne by lia. split; [|cbn; split_and!; [done|..]].
    + apply seg_splice; [done|lia|lia|]. pose proof (ascending_below _ _ _ Hal) as Hbel.
      pose proof (ascending_forall _ _ _ Hal) as Hfl. rewrite Forall_forall in *.
      intros c Hc. specialize (Hbel c Hc). specialize (Hfl c Hc). unfold bend in *. cbn in *. lia.
    + apply get16_splice; [lia|lia|]. unfold is_u16. lia.
    + rewrite get16_ne by lia. apply seg_splice; [done|lia|lia|].
      eapply Forall_impl; [by eapply ascending_forall|]. unfold bend. cbn. intros. lia.
  - apply ascending_app. split; [done|]. cbn. unfold bend in *. cbn. split_and!; [lia..|].
    eapply ascending_le; [done|]. lia.
  - apply Forall_cons. split; [|done]. unfold within, bend. cbn. lia.
  - assert (disj (b :: used ++ l ++ k)) as Hd.
    { eapply disj_perm; [|exact so_disj0]. by rewrite !app_assoc, <- Permutation_middle. }
    apply (disj_cut _ n) in Hd; [|lia]. replace (b.2 - n) with amount in Hd by lia.
    eapply disj_perm; [|exact Hd].
    rewrite Permutation_swap. apply perm_skip.
    by rewrite (app_assoc used l k), Permutation_middle, <- app_assoc.
  - rewrite !sizes_app in *. cbn in so_sum0 |- *. unfold buf'. rewrite get8_ne by lia.
    unfold sizes in *. lia.
Qed.

(** What [find_free_slot] returns: nothing, or a region of [amount] bytes. *)
Definition slot_found (buf : bytes) (lo ca : Z) (used : list block) (amount : Z)
    (r : Result (option Z * bytes)) : Prop :=
  r = Ok (None, buf) \/
  exists pc buf' fbs', r = Ok (Some pc, buf') /\
    space_ok buf' lo ca fbs' ((pc, amount) :: used) /\ keeps buf buf' ca used.

Lemma find_slot_loop_ok buf lo ca used amount k : forall l b fuel,
  space_ok buf lo ca (l ++ b :: k) used -> 4 <= amount <= usable -> (length k < fuel)%nat ->
  slot_found buf lo ca used amount
    (find_slot_loop base usable fuel buf amount (usable - amount) (fst <$> last l) b.1).
Proof.
  induction k as [|c k IH]; intros l b fuel HS Ham Hf; (destruct fuel as [|fuel]; [lia|]);
    pose proof HS as []; destruct Hdims;
    apply ascending_app in so_asc0 as [Hal (Hb1 & Hb2 & Hb3 & Hak)]; pose proof (past_le _ _ _ Hal);
    apply seg_app in so_chain0 as (r & Hsl & -> & Hsz & Hsk);
    unfold bend in *; cbn [find_slot_loop]; unfold MINIMUM_CELL_SIZE; pass;
    (replace (to_u16 b.1) with (Ok b.1) by (unfold to_u16; decide_if true; done));
    cbn [mbind Result_bind]; unfold read_freeblock; rewrite !read_u16_no_offset_ok, Hsz by lia; cbn [mbind Result_bind].
  all: destruct (Z.ltb_spec b.2 amount).
  1: { cbn in Hsk. rewrite Hsk. by left. }
  2: { pose proof Hsk as [Hn _]. pose proof Hak as [Hc _]. rewrite Hn. decide_if false. pass.
       specialize (IH (l ++ [b]) c fuel). rewrite <- app_assoc, last_snoc in IH. apply IH; [done|lia|cbn [length] in Hf; lia]. }
  all: destruct (Z.ltb_spec (b.2 - amount) 4).
  2, 4: pass; unfold write_freeblock_size; rewrite write_u16_no_offset_ok by lia; cbn [mbind Result_bind];
    destruct (take_part _ _ _ _ _ _ _ amount HS ltac:(lia) ltac:(lia)) as [HS' Hk];
    right; eexists _, _, _; split_and!; [done|exact HS'|exact Hk].
  all: unfold num_frag_free_bytes, read_u8, BTREE_FRAGMENTED_BYTES_COUNT; rewrite idx_get8 by lia;
    cbn [mbind Result_bind]; destruct (Z.ltb_spec 57 (get8 buf (base + 7))); [by left|];
    destruct (take_whole _ _ _ _ _ _ _ amount HS ltac:(lia) ltac:(lia) ltac:(lia)) as [HS' Hk];
    destruct (link_range _ _ _ _ _ _ HS) as (Hl2 & _ & Hl4);
    right; exists b.1; eexists _, _; (split_and!; [|exact HS'|exact Hk]).
  all: assert (match fst <$> last l with
      | Some prev => write_freeblock_next_ptr buf prev (get16 buf b.1)
      | None => write_first_freeblock base buf (get16 buf b.1)
      end = Ok (splice buf (link_pos l) (be_split 2 (get16 buf b.1)))) as ->.
  1, 3: unfold link_pos in *; destruct (last l); cbn; [apply write_u16_no_offset_ok; lia|];
    apply write_u16_ok; unfold BTREE_FIRST_FREEBLOCK; lia.
  all: cbn [mbind Result_bind]; unfold write_fragmented_bytes_count, BTREE_FRAGMENTED_BYTES_COUNT;
    rewrite write_u8_ok; [done|rewrite lenZ_splice; rewrite ?be_split_lenZ; lia].
Qed.

Lemma find_free_slot_ok buf lo ca fbs used amount :
  space_ok buf lo ca fbs used -> 4 <= amount <= usable ->
  slot_found buf lo ca used amount (find_free_slot base usable buf amount).
Proof.
  intros HS Ham. pose proof HS as []. destruct Hdims.
  unfold find_free_slot, first_freeblock, BTREE_FIRST_FREEBLOCK, checked_sub.
  rewrite read_u16_ok by lia. cbn [mbind Result_bind]. decide_if true. cbn [mbind Result_bind].
  destruct fbs as [|b fbs].
  - cbn in so_chain0. rewrite so_chain0. by left.
  - pose proof so_chain0 as [Hb _]. rewrite Hb. pose proof so_asc0 as [Hca _].
    pose proof (ascending_length _ _ _ so_asc0 ltac:(lia)) as Hlen. unfold lenZ in Hlen.
    cbn [length] in Hlen. decide_if false.
    apply (find_slot_loop_ok _ lo ca used amount fbs [] b); [done|lia|lia].
Qed.

(** No slot is found when the free blocks are too small. *)
Lemma find_slot_none buf amount m prev k : forall b fuel lo,
  seg buf b.1 (b :: k) 0 -> ascending usable lo (b :: k) -> 0 < lo -> usable <= lenZ buf ->
  Forall (fun b : block => b.2 < amount) (b :: k) -> (length k < fuel)%nat ->
  find_slot_loop base usable fuel buf amount m prev b.1 = Ok (None, buf).
Proof.
  revert prev. induction k as [|c k IH]; intros prev b fuel lo Hs Ha Hlo Hlen [Hb Hk]%Forall_cons Hf; (destruct fuel as [|fuel]; [lia|]);
    destruct Hs as (_ & Hsz & Hs); destruct Ha as (H1 & H2 & H3 & Ha); unfold bend in *; destruct Hdims; cbn [find_slot_loop];
    unfold MINIMUM_CELL_SIZE; pass;
    (replace (to_u16 b.1) with (Ok b.1) by (unfold to_u16; decide_if true; done));
    cbn [mbind Result_bind]; unfold read_freeblock; rewrite !read_u16_no_offset_ok, Hsz by lia; cbn [mbind Result_bind];
    rewrite (proj2 (Z.ltb_lt _ _) Hb).
  - cbn in Hs. by rewrite Hs.
  - pose proof Hs as (Hn & _). pose proof Ha as [Hc _]. rewrite Hn. decide_if false. pass.
    rewrite Hn in Hs. eapply IH; [done|done|lia|done|done|cbn [length] in Hf; lia].
Qed.

Lemma find_free_slot_none buf lo ca fbs used amount :
  space_but buf lo ca fbs used -> amount <= usable -> Forall (fun b : block => b.2 < amount) fbs ->
  find_free_slot base usable buf amount = Ok (None, buf).
Proof.
  intros [] Ham Hall. destruct Hdims.
  unfold find_free_slot, first_freeblock, BTREE_FIRST_FREEBLOCK, checked_sub.
  rewrite read_u16_ok by lia. cbn [mbind Result_bind]. decide_if true. cbn [mbind Result_bind].
  destruct fbs as [|b fbs]; [cbn in sb_chain0; by rewrite sb_chain0|].
  pose proof sb_chain0 as [Hb _]. rewrite Hb in *. pose proof sb_asc0 as [Hca _].
  pose proof (ascending_length _ _ _ sb_asc0 ltac:(lia)) as Hlen. unfold lenZ in Hlen. cbn [length] in Hlen. decide_if false.
  eapply find_slot_none; [done|done|lia|done|done|lia].
Qed.

(** ** Freeing a range *)

Lemma find_position_ok buf offset k : forall l fuel lo,
  seg buf (get16 buf (base + 1)) (l ++ k) 0 -> ascending usable lo (l ++ k) -> 0 < lo ->
  usable <= lenZ buf -> Forall (fun b : block => b.1 < offset) l -> (length k < fuel)%nat ->
  exists l' k', l ++ k = l' ++ k' /\
    find_position fuel buf offset (fst <$> last l) (fst <$> head k) =
      Ok (fst <$> last l', fst <$> head k') /\
    Forall (fun b : block => b.1 < offset) l' /\
    match k' with [] => True | c :: _ => offset <= c.1 end.
Proof.
  induction k as [|c k IH]; intros l fuel lo Hs Ha Hlo Hlen Hl Hf; (destruct fuel as [|fuel]; [lia|]).
  { by exists l, []. }
  apply ascending_app in Ha as Ha'. destruct Ha' as [Hal (Hc1 & Hc2 & Hc3 & Hak)].
  apply seg_app in Hs as Hs'. destruct Hs' as (r & _ & _ & Hsz & Hsk). unfold bend in *.
  cbn [find_position head fmap option_fmap option_map].
  replace (match fst <$> last l with Some p => p <? c.1 | None => true end) with true; cycle 1.
  { destruct l as [|b l _] using rev_ind; [done|]. rewrite last_snoc, past_snoc in *. cbn.
    apply ascending_app in Hal as [_ (_ & ? & _)]. unfold bend in *. lia. }
  cbn [or_corrupt mbind Result_bind]. destruct (Z.leb_spec offset c.1).
  { by exists l, (c :: k). }
  pose proof (past_le _ _ _ Hal). rewrite read_u16_no_offset_ok by lia. cbn [mbind Result_bind].
  assert ((if get16 buf c.1 =? 0 then None else Some (get16 buf c.1)) = fst <$> head k) as ->.
  { destruct k as [|d k]; cbn in Hsk |- *; [by rewrite Hsk|]. destruct Hsk as [-> _].
    destruct Hak as [? _]. decide_if false. done. }
  specialize (IH (l ++ [c]) fuel lo). rewrite <- app_assoc, last_snoc in IH.
  apply IH; try done; [|cbn [length] in Hf; lia]. apply Forall_app. split; [done|].
  apply Forall_singleton. lia.
Qed.

(** A free range between the blocks [l] and [k]; [removed] fragment bytes
    became part of it. *)
Record gap_state (ca frag : Z) (used l k : list block) (start e removed : Z) : Prop := mkGap {
  gs_disj : disj ((start, e - start) :: used ++ l ++ k);
  gs_low : ascending usable ca l /\ Forall (fun b => bend b <= start) l;
  gs_high : ascending usable e k;
  gs_range : ca <= start /\ start + 4 <= e /\ e <= usable;
  gs_used : Forall (fun b => within ca usable b /\ 4 <= b.2) used;
  gs_sum : sizes used + sizes l + sizes k + (e - start) + frag - removed = usable - ca
}.

Lemma gap_start buf lo ca l k used offset len :
  space_ok buf lo ca (l ++ k) ((offset, len) :: used) ->
  Forall (fun b : block => b.1 < offset) l ->
  match k with [] => True | c :: _ => offset <= c.1 end ->
  gap_state ca (get8 buf (base + 7)) used l k offset (offset + len) 0.
Proof.
  intros [] Hl Hk. apply Forall_cons in so_used0 as [[Hw H4] Hu]. unfold within, bend in Hw. cbn in Hw, H4.
  cbn [app] in so_disj0. pose proof so_disj0 as [Hap _]. rewrite !Forall_app in Hap.
  destruct Hap as (_ & Hapl & Hapk). apply ascending_app in so_asc0 as [Hal Hak]. constructor; try done.
  - by replace (offset + len - offset) with len by lia.
  - split; [done|]. rewrite Forall_forall in *. intros b Hb. specialize (Hl b Hb). specialize (Hapl b Hb).
    unfold apart, bend in *. cbn in Hapl. lia.
  - destruct k as [|c k]; [done|]. cbn in Hak |- *. destruct Hak as (? & ? & ? & ?).
    apply Forall_cons in Hapk as [Hc _]. unfold apart, bend in *. cbn in Hc. split_and!; [lia|done..].
  - lia.
  - rewrite !sizes_app in so_sum0. unfold sizes in *. cbn in so_sum0. lia.
Qed.

Lemma used_four ca (used : list block) :
  Forall (fun b => within ca usable b /\ 4 <= b.2) used -> Forall (fun b : block => 4 <= b.2) used.
Proof. intros H. eapply Forall_impl; [exact H|]. cbn. tauto. Qed.

(** Absorb the block after the range. *)
Lemma gap_next ca frag used l c k start e removed :
  gap_state ca frag used l (c :: k) start e removed -> c.1 <= e + 3 ->
  gap_state ca frag used l k start (bend c) (removed + (c.1 - e)) /\
  ascending usable (bend c + 4) k.
Proof.
  intros [] Hc. destruct gs_high0 as (H1 & H2 & H3 & Hk). destruct gs_low0 as [Hl Hl'].
  unfold bend in H3. split; [|done]. constructor; try done.
  - assert (disj ((start, e - start) :: c :: used ++ l ++ k)) as Hd.
    { eapply disj_perm; [|exact gs_disj0]. apply perm_skip.
      rewrite (app_assoc used l), (app_assoc used l). by rewrite <- Permutation_middle. }
    apply disj_merge in Hd; unfold bend in *; cbn in Hd |- *; try lia; [done|].
    rewrite !Forall_app. split_and!; [by eapply used_four|..];
      (eapply Forall_impl; [by eapply ascending_forall|]); cbn; intros; lia.
  - eapply ascending_le; [done|]. unfold bend. lia.
  - unfold bend in *. lia.
  - unfold bend, sizes in *. cbn in gs_sum0. lia.
Qed.

(** Absorb the block before the range. *)
Lemma gap_prev ca frag used l b k start e removed :
  gap_state ca frag used (l ++ [b]) k start e removed -> start <= bend b + 3 ->
  ascending usable (e + 4) k ->
  gap_state ca frag used l k b.1 e (removed + (start - bend b)) /\ past ca l <= b.1.
Proof.
  intros [] Hb Hk. destruct gs_low0 as [Hl Hl']. apply ascending_app in Hl as [Hl (H1 & H2 & H3 & _)].
  apply Forall_app in Hl' as [Hl' [Hbs _]%Forall_cons]. pose proof (past_le _ _ _ Hl).
  unfold bend in Hbs, H3. split; [|done]. constructor; try done.
  - assert (disj (b :: (start, e - start) :: used ++ l ++ k)) as Hd.
    { eapply disj_perm; [|exact gs_disj0]. rewrite Permutation_swap. apply perm_skip.
      rewrite <- (app_assoc l). cbn. rewrite (app_assoc used l), (app_assoc used l).
      by rewrite <- Permutation_middle. }
    apply disj_merge in Hd; unfold bend in *; cbn in Hd |- *; try lia.
    + by replace (e - b.1) with (start + (e - start) - b.1) by lia.
    + rewrite !Forall_app. split_and!; [by eapply used_four|..];
      (eapply Forall_impl; [by eapply ascending_forall|]); cbn; intros; lia.
  - split; [done|]. eapply Forall_impl; [by eapply ascending_below|]. cbn. intros. lia.
  - unfold bend in *. lia.
  - rewrite sizes_app in gs_sum0. unfold bend, sizes in *. cbn in gs_sum0. lia.
Qed.

(** The removed fragments were counted. *)
Lemma gap_removed ca frag used l k start e removed :
  gap_state ca frag used l k start e removed -> removed <= frag.
Proof.
  intros []. destruct gs_low0 as [Hl _].
  assert (sizes ((start, e - start) :: used ++ l ++ k) <= usable - ca) as Hb;
    [|rewrite sizes_cons, !sizes_app in Hb; cbn [snd] in Hb; lia].
  apply sizes_bound; [done| |lia]. apply Forall_cons. split; [unfold within, bend; cbn; lia|].
  rewrite !Forall_app. split_and!.
  - eapply Forall_impl; [exact gs_used0|]. cbn. tauto.
  - eapply Forall_impl; [by eapply ascending_forall|]. unfold within, bend. cbn. intros; lia.
  - eapply Forall_impl; [by eapply ascending_forall|]. unfold within, bend. cbn. intros; lia.
Qed.

(** The pointer to a list of free blocks. *)
Definition ptr (k : list block) : Z := default 0 (fst <$> head k).

Lemma seg_ptr buf p k : seg buf p k 0 -> p = ptr k.
Proof. destruct k; cbn; [done|]. by intros [-> _]. Qed.

Lemma next_head k lo :
  ascending usable lo k -> 0 < lo -> (if ptr k =? 0 then None else Some (ptr k)) = fst <$> head k.
Proof. destruct k as [|b k]; cbn; [done|]. intros (? & _) ?. decide_if false. done. Qed.

Lemma merge_next_ok buf ca frag used l k start e p :
  gap_state ca frag used l k start e 0 -> seg buf p k 0 -> 0 < ca -> usable <= lenZ buf ->
  exists e' removed k', merge_next usable buf start e (fst <$> head k) = Ok (e', removed, fst <$> head k') /\
    gap_state ca frag used l k' start e' removed /\ ascending usable (e' + 4) k' /\
    seg buf (ptr k') k' 0 /\ 0 <= removed.
Proof.
  intros HG Hs Hca Hlen. pose proof HG as []. destruct Hdims. destruct k as [|c k].
  - exists e, 0, []. by split_and!.
  - destruct gs_high0 as (H1 & H2 & H3 & Hk). destruct Hs as (_ & Hsz & Hs). unfold bend in H3.
    cbn [merge_next head fmap option_fmap option_map]. unfold MINIMUM_CELL_SIZE. pass.
    destruct (Z.leb_spec c.1 (e + 3)).
    + pass. rewrite !read_u16_no_offset_ok, Hsz by lia. cbn [mbind Result_bind]. pass.
      destruct (gap_next _ _ _ _ _ _ _ _ _ HG ltac:(lia)) as [HG' Hk'].
      exists (bend c), (c.1 - e), k. pose proof (seg_ptr _ _ _ Hs) as Hp. rewrite Hp in Hs |- *.
      rewrite (next_head k _ Hk') by (unfold bend; lia). split_and!; [done|by rewrite <- (Z.add_0_l (c.1 - e))|done|done|lia].
    + exists e, 0, (c :: k). split; [done|]. split; [done|]. split; [|split; [done|lia]].
      cbn. split_and!; [lia|done|unfold bend; lia|done].
Qed.

Lemma merge_prev_ok buf ca frag used l k start e removed r :
  gap_state ca frag used l k start e removed -> ascending usable (e + 4) k ->
  seg buf (get16 buf (base + 1)) l r -> 0 < ca -> usable <= lenZ buf -> 0 <= removed ->
  exists start' removed' l', merge_prev buf start removed (fst <$> last l) = Ok (start', removed') /\
    gap_state ca frag used l' k start' e removed' /\ past ca l' <= start' /\ 0 <= removed' /\
    (l = l' /\ start' = start \/ exists b, l = l' ++ [b] /\ b.1 = start').
Proof.
  intros HG Hk Hs Hca Hlen Hrem. pose proof HG as []. destruct l as [|b l _] using rev_ind.
  - exists start, removed, []. cbn. split_and!; [done|done|lia|done|by left].
  - rewrite last_snoc. cbn [merge_prev fmap option_fmap option_map].
    apply seg_app in Hs as (r' & _ & _ & Hsz & _). destruct gs_low0 as [Hl Hl'].
    apply ascending_app in Hl as [Hl (H1 & H2 & H3 & _)]. pose proof (past_le _ _ _ Hl).
    apply Forall_app in Hl' as [_ [Hb _]%Forall_cons]. unfold bend in Hb, H3.
    rewrite read_u16_no_offset_ok, Hsz by lia. cbn [mbind Result_bind]. pass.
    destruct (Z.leb_spec start (b.1 + b.2 + 3)).
    + destruct (gap_prev _ _ _ _ _ _ _ _ _ HG ltac:(unfold bend; lia) Hk) as [HG' Hp].
      eexists _, _, l. split_and!; [done|exact HG'|done|unfold bend; lia|right; eauto].
    + eexists _, _, (l ++ [b]). split_and!; [done|exact HG|rewrite past_snoc; unfold bend; lia|done|by left].
Qed.

(** A page whose free range [start, e) is in no list yet. *)
Record placing (buf : bytes) (lo ca : Z) (used l k : list block) (start e : Z) : Prop := mkPlacing {
  pl_len : usable <= lenZ buf;
  pl_bytes : bytes_ok buf;
  pl_lo : base + 8 <= lo <= ca;
  pl_ca : get16 buf (base + 5) = u16 ca;
  pl_gap : gap_state ca (get8 buf (base + 7)) used l k start e 0;
  pl_low : past ca l <= start;
  pl_high : ascending usable (e + 4) k;
  pl_chain : seg buf (ptr k) k 0
}.

Lemma placing_used buf lo ca used l k start e :
  placing buf lo ca used l k start e -> Forall (fun u : block => ca <= u.1 /\ bend u <= usable) used.
Proof.
  intros []. destruct pl_gap0. eapply Forall_impl; [done|]. unfold within. cbn. tauto.
Qed.

Lemma ptr_u16 k lo : ascending usable lo k -> 0 <= lo -> is_u16 (ptr k).
Proof.
  destruct Hdims. unfold is_u16. destruct k; cbn; [lia|]. unfold bend. intros. lia.
Qed.

(** The range extends the unallocated region. *)
Lemma place_low buf lo ca used l k e :
  placing buf lo ca used l k ca e ->
  let buf1 := splice buf (base + 1) (be_split 2 (ptr k)) in
  let buf2 := splice buf1 (base + 5) (be_split 2 (u16 e)) in
  l = [] /\ space_ok buf2 lo e k used /\ keeps buf buf2 ca used.
Proof.
  intros HP. pose proof HP as []. pose proof pl_gap0 as []. destruct Hdims. cbn zeta.
  pose proof (placing_used _ _ _ _ _ _ _ _ HP) as Hur.
  assert (l = []) as ->.
  { destruct l as [|b l]; [done|]. destruct gs_low0 as [Hl Hl']. destruct Hl as (? & ? & _).
    apply Forall_cons in Hl' as [Hb _]. unfold bend in Hb. lia. }
  split; [done|]. pose proof (be_split_lenZ 2 (ptr k)). pose proof (be_split_lenZ 2 (u16 e)).
  set (buf1 := splice buf _ _). set (buf2 := splice buf1 _ _).
  pose proof (ptr_u16 _ _ pl_high0 ltac:(lia)) as Hp16.
  assert (lenZ buf1 = lenZ buf) as Hlen1 by (apply lenZ_splice; lia).
  assert (keeps buf buf1 ca used) as Hk1 by (apply keeps_splice; [left; lia|lia|lia|done]).
  assert (keeps buf1 buf2 ca used) as Hk2 by (apply keeps_splice; [right; left; lia|lia|lia|done]).
  split; [|by eapply keeps_trans]. constructor.
  - by rewrite (k_len _ _ _ _ Hk2), Hlen1.
  - apply splice_ok; [apply splice_ok; [done|apply be_split_ok]|apply be_split_ok].
  - lia.
  - unfold buf2. rewrite get16_splice; [done|lia|lia|]. unfold is_u16, u16. by apply Z.mod_pos_bound.
  - unfold buf2. rewrite get16_ne by lia. unfold buf1 at 2. rewrite get16_splice by (done || lia).
    apply seg_splice; [apply seg_splice; [done|lia|lia|]|lia|lia|];
      (eapply Forall_impl; [by eapply ascending_forall|]; cbn; intros; lia).
  - eapply ascending_le; [done|]. lia.
  - destruct gs_disj0 as [Hap _]. apply Forall_app in Hap as [Hap _]. rewrite Forall_forall in *.
    intros u Hu. specialize (gs_used0 u Hu). specialize (Hap u Hu).
    unfold within, apart, bend in *. cbn in *. lia.
  - by destruct gs_disj0.
  - unfold buf2. rewrite get8_ne by lia. unfold buf1. rewrite get8_ne by lia.
    cbn in gs_sum0. lia.
Qed.

(** The range becomes a free block after [l]. *)
Lemma place_block buf lo ca used l k start e :
  placing buf lo ca used l k start e -> seg buf (get16 buf (base + 1)) l start ->
  let buf1 := splice buf start (be_split 2 (ptr k)) in
  let buf2 := splice buf1 (start + 2) (be_split 2 (e - start)) in
  space_ok buf2 lo ca (l ++ (start, e - start) :: k) used /\ keeps buf buf2 ca used.
Proof.
  intros HP Hs. pose proof HP as []. pose proof pl_gap0 as []. destruct Hdims. cbn zeta.
  pose proof (placing_used _ _ _ _ _ _ _ _ HP) as Hur.
  pose proof (be_split_lenZ 2 (ptr k)). pose proof (be_split_lenZ 2 (e - start)).
  pose proof (ptr_u16 _ _ pl_high0 ltac:(lia)) as Hp16.
  set (buf1 := splice buf _ _). set (buf2 := splice buf1 _ _).
  assert (forall a n, start <= a -> a + n <= e -> writable ca used a n) as Hw.
  { intros a n ? ?. right; right. split_and!; [lia|lia|]. destruct gs_disj0 as [Hap _].
    apply Forall_app in Hap as [Hap _]. eapply Forall_impl; [exact Hap|].
    unfold apart, bend. cbn. intros. lia. }
  assert (lenZ buf1 = lenZ buf) as Hlen1 by (apply lenZ_splice; lia).
  assert (keeps buf buf1 ca used) as Hk1 by (apply keeps_splice; [apply Hw; lia|lia|lia|done]).
  assert (keeps buf1 buf2 ca used) as Hk2 by (apply keeps_splice; [apply Hw; lia|lia|lia|done]).
  destruct gs_low0 as [Hl Hl']. pose proof (ascending_forall _ _ _ Hl) as Hfl.
  split; [|by eapply keeps_trans]. constructor; try done.
  - by rewrite (k_len _ _ _ _ Hk2), Hlen1.
  - apply splice_ok; [apply splice_ok; [done|apply be_split_ok]|apply be_split_ok].
  - lia.
  - unfold buf2. rewrite get16_ne by lia. unfold buf1. by rewrite get16_ne by lia.
  - assert (get16 buf2 (base + 1) = get16 buf (base + 1)) as ->
      by (unfold buf2; rewrite get16_ne by lia; apply get16_ne; lia).
    assert (get16 buf2 start = ptr k) as Hnext
      by (unfold buf2; rewrite get16_ne by lia; apply get16_splice; (done || lia)).
    assert (get16 buf2 (start + 2) = e - start) as Hsz
      by (apply get16_splice; unfold is_u16; lia).
    apply seg_app. exists start. split.
    + assert (Forall (fun b : block => 0 <= b.1 /\ b.1 + 4 <= start) l) as Hb.
      { rewrite Forall_forall in *. intros b Hb. specialize (Hl' b Hb). specialize (Hfl b Hb).
        unfold bend in *. cbn in *. lia. }
      apply seg_splice; [apply seg_splice; [done|lia|lia|]|lia|lia|];
        (eapply Forall_impl; [exact Hb|]; cbn; intros; lia).
    + cbn. split_and!; [done|done|]. rewrite Hnext.
      pose proof (ascending_forall _ _ _ pl_high0) as Hfk.
      apply seg_splice; [apply seg_splice; [done|lia|lia|]|lia|lia|];
        (eapply Forall_impl; [exact Hfk|]; cbn; intros; lia).
  - apply ascending_app. split; [done|]. cbn. unfold bend. cbn. split_and!; [lia..|].
    by replace (start + (e - start) + 4) with (e + 4) by lia.
  - eapply disj_perm; [|exact gs_disj0].
    by rewrite (app_assoc used l k), Permutation_middle, <- app_assoc.
  - rewrite !sizes_app. cbn. unfold buf2. rewrite get8_ne by lia. unfold buf1. rewrite get8_ne by lia.
    unfold sizes in *. lia.
Qed.

Lemma splice_same {A} (buf x : list A) a :
  0 <= a -> a + lenZ x <= lenZ buf -> sub buf a (lenZ x) = x -> splice buf a x = buf.
Proof.
  intros Ha Hx Hs. unfold splice, sub in *. rewrite <- Hs at 1. unfold lenZ in *.
  rewrite Nat2Z.id. rewrite <- drop_drop, take_drop. by rewrite take_drop.
Qed.

Lemma splice_get16 buf a v :
  bytes_ok buf -> 0 <= a -> a + 2 <= lenZ buf -> get16 buf a = v ->
  splice buf a (be_split 2 v) = buf.
Proof.
  intros Hb Ha Hl <-. apply splice_same; rewrite ?be_split_lenZ; [done|lia|].
  unfold get16. pose proof (be_split_combine (sub buf a 2) (sub_ok _ _ _ Hb)) as H.
  pose proof (lenZ_sub buf a 2 Ha ltac:(lia) ltac:(lia)) as Hs. unfold lenZ in Hs.
  replace (length (sub buf a 2)) with 2%nat in H by lia. by rewrite H.
Qed.

Lemma gap_frag ca frag used l k start e removed :
  gap_state ca frag used l k start e removed -> gap_state ca (frag - removed) used l k start e 0.
Proof. intros []. constructor; try done. lia. Qed.

(** Writing a pointer in the header or before the end of the range. *)
Lemma placing_splice buf lo ca used l k start e a v :
  placing buf lo ca used l k start e ->
  (base + 1 <= a /\ a + 2 <= base + 3) \/ (ca <= a /\ a + 2 <= e) ->
  placing (splice buf a (be_split 2 v)) lo ca used l k start e.
Proof.
  intros [] Ha. pose proof pl_gap0 as []. destruct Hdims. pose proof (be_split_lenZ 2 v).
  constructor; try done.
  - rewrite lenZ_splice; lia.
  - apply splice_ok; [done|apply be_split_ok].
  - rewrite get16_ne by lia. done.
  - rewrite get8_ne by lia. done.
  - apply seg_splice; [done|lia|lia|]. eapply Forall_impl; [by eapply ascending_forall|].
    cbn. intros. lia.
Qed.

(** The list before the range after the write of [place_range]. *)
Lemma place_link buf lo ca used l l' k start e r :
  placing buf lo ca used l' k start e -> seg buf (get16 buf (base + 1)) l r ->
  ascending usable ca l ->
  l = l' \/ (exists b, l = l' ++ [b] /\ b.1 = start) ->
  let buf1 := splice buf (link_pos l) (be_split 2 start) in
  seg buf1 (get16 buf1 (base + 1)) l' start.
Proof.
  intros HP Hs Hasc Hl. pose proof HP as []. pose proof pl_gap0 as []. destruct Hdims. cbn zeta.
  assert (is_u16 start) by (unfold is_u16; lia).
  destruct Hl as [->|(b & -> & Hb)].
  { eapply (seg_relink _ _ _ _ ca); try done. lia. }
  rewrite link_pos_snoc, Hb. pose proof (be_split_lenZ 2 start).
  apply seg_app in Hs as (r' & Hs & -> & _). destruct gs_low0 as [Hal Hbel].
  pose proof (ascending_forall _ _ _ Hal) as Hfl. rewrite get16_ne by lia. rewrite <- Hb at 3.
  apply seg_splice; [done|lia|lia|]. rewrite Forall_forall in *. intros c Hc.
  specialize (Hbel c Hc). specialize (Hfl c Hc). unfold bend in *. cbn in *. lia.
Qed.

Lemma link_write buf l v :
  base + 1 <= link_pos l -> link_pos l + 2 <= usable -> usable <= lenZ buf ->
  match fst <$> last l with
  | Some p => write_u16_no_offset buf p v
  | None => write_first_freeblock base buf v
  end = Ok (splice buf (link_pos l) (be_split 2 v)).
Proof.
  intros. destruct Hdims. unfold link_pos in *. destruct (last l); cbn.
  - apply write_u16_no_offset_ok; lia.
  - apply write_u16_ok; unfold BTREE_FIRST_FREEBLOCK; lia.
Qed.

(** A freed range: the space is back, and nothing else changed. *)
Definition freed (buf : bytes) (lo ca : Z) (used : list block) (r : Result bytes) : Prop :=
  exists buf' ca' fbs', r = Ok buf' /\ space_ok buf' lo ca' fbs' used /\ ca <= ca' /\
    keeps buf buf' ca used.

Lemma write_ca_ok buf v : usable <= lenZ buf ->
  write_cell_content_area base buf v = Ok (splice buf (base + 5) (be_split 2 (u16 v))).
Proof. intros. destruct Hdims. apply write_u16_ok; unfold BTREE_CELL_CONTENT_AREA; lia. Qed.

Lemma write_first_ok buf v : usable <= lenZ buf ->
  write_first_freeblock base buf v = Ok (splice buf (base + 1) (be_split 2 v)).
Proof. intros. destruct Hdims. apply write_u16_ok; unfold BTREE_FIRST_FREEBLOCK; lia. Qed.

Lemma to_u16_ok x : is_u16 x -> to_u16 x = Ok x.
Proof. unfold is_u16, to_u16. intros. decide_if true. done. Qed.

Lemma place_range_ok buf lo ca used l l' k start e r :
  placing buf lo ca used l' k start e -> seg buf (get16 buf (base + 1)) l r ->
  ascending usable ca l -> l = l' \/ (exists b, l = l' ++ [b] /\ b.1 = start) ->
  base + 1 <= link_pos l -> link_pos l + 2 <= usable ->
  (link_pos l + 2 <= base + 3 \/ ca <= link_pos l) -> writable ca used (link_pos l) 2 ->
  freed buf lo ca used
    (place_range base buf ca (get16 buf (base + 1)) start e (fst <$> last l) (fst <$> head k)).
Proof.
  intros HP Hs Hasc Hl Hp1 Hp2 Hp3 Hpw. pose proof HP as []. pose proof pl_gap0 as []. destruct Hdims.
  unfold place_range. pass. pose proof (ptr_u16 _ _ pl_high0 ltac:(lia)) as Hp16.
  destruct (Z.eqb_spec start ca) as [->|Hne].
  - destruct (place_low _ _ _ _ _ _ _ HP) as (-> & HS & Hk).
    replace (match fst <$> last l with Some p => p =? get16 buf (base + 1) | None => true end) with true.
    2:{ destruct Hl as [->|(b & -> & Hb)]; [done|]. cbn in *. destruct Hs as [-> _]. lia. }
    cbn [or_corrupt mbind Result_bind].
    assert (match fst <$> head k with
      | Some n => _ ← or_corrupt (e <? n); n0 ← to_u16 n; write_first_freeblock base buf n0
      | None => write_first_freeblock base buf 0
      end = Ok (splice buf (base + 1) (be_split 2 (ptr k)))) as ->.
    { destruct k as [|c k]; cbn [head fmap option_fmap option_map]; [by apply write_first_ok|].
      destruct pl_high0 as [? _]. pass. rewrite to_u16_ok by done. cbn. by apply write_first_ok. }
    cbn [mbind Result_bind]. rewrite write_ca_ok by (rewrite lenZ_splice; rewrite ?be_split_lenZ; lia).
    eexists _, e, k. split_and!; [done|exact HS|lia|exact Hk].
  - rewrite to_u16_ok by (unfold is_u16; lia). cbn [mbind Result_bind]. rewrite link_write by lia.
    cbn [mbind Result_bind]. rewrite to_u16_ok by (unfold is_u16; lia). cbn [mbind Result_bind].
    pose proof (place_link _ _ _ _ _ _ _ _ _ _ HP Hs Hasc Hl) as Hs1. cbn zeta in Hs1.
    assert (link_pos l + 2 <= e) as Hpe.
    { destruct Hl as [->|(b & -> & Hb)]; [|rewrite link_pos_snoc; lia].
      destruct l' as [|b l' _] using rev_ind; [unfold link_pos; cbn; lia|]. rewrite link_pos_snoc in *.
      destruct gs_low0 as [Ha' Hb']. apply ascending_app in Ha' as [_ (_ & ? & _)].
      apply Forall_app in Hb' as [_ [Hb' _]%Forall_cons]. unfold bend in Hb'. lia. }
    pose proof (placing_splice _ _ _ _ _ _ _ _ (link_pos l) start HP ltac:(lia)) as HP1.
    set (buf1 := splice buf _ _) in *. destruct (place_block _ _ _ _ _ _ _ _ HP1 Hs1) as [HS Hk].
    assert (keeps buf buf1 ca used) as Hk1.
    { apply keeps_splice; rewrite ?be_split_lenZ; [done|lia|lia|by eapply placing_used]. }
    pose proof (k_len _ _ _ _ Hk1) as Hlen1.
    unfold write_freeblock, write_freeblock_next_ptr, write_freeblock_size.
    rewrite write_u16_no_offset_ok by lia. cbn [mbind Result_bind].
    rewrite write_u16_no_offset_ok by (rewrite ?lenZ_splice, ?be_split_lenZ; rewrite ?be_split_lenZ; lia).
    eexists _, ca, _. split_and!; [done|exact HS|lia|by eapply keeps_trans].
Qed.

Lemma writable_cons ca u used a n : writable ca (u :: used) a n -> writable ca used a n.
Proof.
  unfold writable. intros [|[|(? & ? & [_ ?]%Forall_cons)]]; auto.
Qed.

Lemma placing_start buf lo ca l k used offset len :
  space_ok buf lo ca (l ++ k) ((offset, len) :: used) ->
  Forall (fun b : block => b.1 < offset) l ->
  match k with [] => True | c :: _ => offset <= c.1 end ->
  forall l' k' start e removed, 0 <= removed ->
  gap_state ca (get8 buf (base + 7)) used l' k' start e removed -> past ca l' <= start ->
  ascending usable (e + 4) k' -> seg buf (ptr k') k' 0 ->
  placing (splice buf (base + 7) [get8 buf (base + 7) - removed]) lo ca used l' k' start e.
Proof.
  intros [] Hl Hk l' k' start e removed Hr HG Hpast Hasc Hs. destruct Hdims.
  pose proof (gap_removed _ _ _ _ _ _ _ _ HG). pose proof (get8_u8 buf (base + 7) so_bytes0 ltac:(lia)).
  unfold is_u8 in *. set (x := get8 buf (base + 7) - removed) in *. assert (lenZ [x] = 1) by done.
  pose proof HG as []. constructor; try done.
  - rewrite lenZ_splice; lia.
  - apply splice_ok; [done|]. apply Forall_singleton. unfold is_u8. lia.
  - lia.
  - rewrite get16_ne by lia. done.
  - rewrite get8_splice by lia. by apply gap_frag.
  - apply seg_splice; [done|lia|lia|]. eapply Forall_impl; [by eapply ascending_forall|].
    cbn. intros. lia.
Qed.

Lemma free_first buf lo ca used offset len :
  space_ok buf lo ca [] ((offset, len) :: used) ->
  freed buf lo ca used (place_range base buf ca 0 offset (offset + len) None None).
Proof.
  intros HS. pose proof HS as []. destruct Hdims.
  pose proof (gap_start buf lo ca [] [] used offset len HS (Forall_nil_2 _) I) as HG.
  pose proof HG as []. cbn in so_chain0.
  assert (placing buf lo ca used [] [] offset (offset + len)) as HP.
  { constructor; try done; cbn; lia. }
  pose proof (place_range_ok buf lo ca used [] [] [] offset (offset + len) 0 HP so_chain0 I
    (or_introl eq_refl)) as Hf.
  rewrite so_chain0 in Hf. unfold link_pos in Hf. cbn in Hf. apply Hf; [lia..|]. left. lia.
Qed.

Lemma free_cell_range_ok buf lo ca fbs used offset len :
  space_ok buf lo ca fbs ((offset, len) :: used) ->
  freed buf lo ca used (free_cell_range base usable buf offset len).
Proof.
  intros HS. pose proof HS as []. destruct Hdims.
  apply Forall_cons in so_used0 as [[Hw H4] Hu]. unfold within, bend in Hw. cbn in Hw, H4.
  unfold free_cell_range, MINIMUM_CELL_SIZE, saturating_sub. do 3 pass.
  rewrite (cell_content_area_ok _ _ _ _ _ HS). unfold first_freeblock, BTREE_FIRST_FREEBLOCK.
  cbn [mbind Result_bind]. rewrite read_u16_ok by lia. cbn [mbind Result_bind].
  destruct fbs as [|b fbs].
  - pose proof (free_first _ _ _ _ _ _ HS) as Hf. cbn in so_chain0. rewrite so_chain0. cbn [Z.eqb].
    unfold place_range in Hf. destruct (or_corrupt (ca <=? offset)); cbn [mbind Result_bind] in *; try done.
    destruct (offset =? ca); cbn [or_corrupt mbind Result_bind] in Hf |- *.
    + rewrite write_first_ok, splice_get16 in Hf by (done || lia). done.
    + rewrite (to_u16_ok offset) in Hf |- * by (unfold is_u16; lia). cbn [mbind Result_bind] in Hf |- *.
      by replace (offset + len - offset) with len in Hf by lia.
  - pose proof so_chain0 as [Hb _]. pose proof so_asc0 as [Hca _].
    pose proof (ascending_length _ _ _ so_asc0 ltac:(lia)) as Hlen. unfold lenZ in Hlen. cbn [length] in Hlen.
    rewrite Hb. decide_if false.
    destruct (find_position_ok buf offset (b :: fbs) [] (S (Z.to_nat usable)) ca)
      as (l & k & Elk & Hfind & Hl & Hk); [done|done|lia|done|done|cbn [length]; lia|].
    cbn [app last head fmap option_fmap option_map] in Elk, Hfind. rewrite Hfind. cbn [mbind Result_bind].
    rewrite Elk in HS, so_chain0, so_asc0. pose proof (gap_start _ _ _ _ _ _ _ _ HS Hl Hk) as HG.
    apply seg_app in so_chain0 as (r & Hsl & Hsk). apply ascending_app in so_asc0 as [Hal _].
    destruct (merge_next_ok _ _ _ _ _ _ _ _ _ HG Hsk) as (e & rem & k' & -> & HG1 & Hk' & Hs' & Hr);
      [lia|done|]. cbn [mbind Result_bind].
    destruct (merge_prev_ok _ _ _ _ _ _ _ _ _ _ HG1 Hk' Hsl) as (st & rem' & l' & -> & HG2 & Hp & Hr' & Hll);
      [lia|done|done|]. cbn [mbind Result_bind].
    pose proof (gap_removed _ _ _ _ _ _ _ _ HG2) as Hrf.
    pose proof (placing_start _ _ _ _ _ _ _ _ HS Hl Hk _ _ _ _ _ Hr' HG2 Hp Hk' Hs') as HP.
    unfold num_frag_free_bytes, write_fragmented_bytes_count, read_u8, BTREE_FRAGMENTED_BYTES_COUNT.
    rewrite idx_get8 by lia. cbn [mbind Result_bind]. pass. rewrite write_u8_ok by lia.
    cbn [mbind Result_bind]. set (x := get8 buf (base + 7) - rem') in *. assert (lenZ [x] = 1) by done.
    assert (keeps buf (splice buf (base + 7) [x]) ca used) as Hk0.
    { apply keeps_splice; [right; left; lia|lia|lia|by eapply placing_used]. }
    destruct (link_range _ _ _ _ _ _ HS) as (Hp2 & Hp3 & Hp1).
    pose proof (writable_cons _ _ _ _ _ (link_writable _ _ _ _ _ _ HS)) as Hpw.
    destruct (place_range_ok _ _ _ _ l l' k' st e r HP) as (buf' & ca' & fbs' & Hpl & HS' & Hca' & Hk''); try done.
    + rewrite get16_ne by lia. apply seg_splice; [done|lia|lia|].
      eapply Forall_impl; [by eapply ascending_forall|]. cbn. intros. lia.
    + destruct Hll as [[-> _]|]; [by left|by right].
    + rewrite get16_ne, Hb in Hpl by lia. rewrite Hpl. eexists _, ca', fbs'.
      split_and!; [done|done|lia|by eapply keeps_trans].
Qed.

(** ** Writes that do not concern the free space *)

Lemma space_ok_splice buf lo ca fbs used a x :
  space_ok buf lo ca fbs used -> bytes_ok x ->
  (base + 3 <= a /\ a + lenZ x <= base + 5) \/ (base + 8 <= a /\ a + lenZ x <= ca) \/
  (exists u, u ∈ used /\ u.1 <= a /\ a + lenZ x <= bend u) ->
  space_ok (splice buf a x) lo ca fbs used.
Proof.
  intros HS Hx Ha. pose proof HS as []. destruct Hdims. pose proof (lenZ_nonneg x).
  pose proof (used_range _ _ _ _ _ HS) as Hur. rewrite Forall_forall in Hur.
  assert (base + 3 <= a /\ a + lenZ x <= usable /\ (a + lenZ x <= base + 5 \/ base + 8 <= a)) as (? & ? & ?).
  { destruct Ha as [|[|(u & Hu & ? & ?)]]; [lia|lia|]. specialize (Hur u Hu). lia. }
  assert (Forall (fun b : block => 0 <= b.1 /\ (a + lenZ x <= b.1 \/ b.1 + 4 <= a)) fbs) as Hf.
  { pose proof (ascending_forall _ _ _ so_asc0) as Hfb. apply disj_app in so_disj0 as (_ & _ & Hd).
    rewrite Forall_forall in *. intros b Hb. specialize (Hfb b Hb). cbn in Hfb. split; [lia|].
    destruct Ha as [|[|(u & Hu & ? & ?)]]; [lia|lia|]. specialize (Hd u Hu).
    rewrite Forall_forall in Hd. specialize (Hd b Hb). unfold apart, bend in *. lia. }
  constructor; try done.
  - rewrite lenZ_splice; lia.
  - by apply splice_ok.
  - rewrite get16_ne by lia. done.
  - rewrite get16_ne by lia. apply seg_splice; [done|lia|lia|done].
  - rewrite get8_ne by lia. done.
Qed.

Lemma space_ok_lo buf lo lo' ca fbs used :
  space_ok buf lo ca fbs used -> base + 8 <= lo' <= ca -> space_ok buf lo' ca fbs used.
Proof. intros [] ?. constructor; try done. lia. Qed.

Lemma space_ok_perm buf lo ca fbs used used' :
  space_ok buf lo ca fbs used -> used ≡ₚ used' -> space_ok buf lo ca fbs used'.
Proof.
  intros [] Hp. constructor; try done.
  - by rewrite <- Hp.
  - eapply disj_perm; [|done]. by rewrite Hp.
  - by rewrite <- (sizes_perm _ _ Hp).
Qed.

End space.
