(* ===== verification/BtreeCells.v ===== *)
(** * BtreeCells: a B-tree page is a list of cells

    A page stands for the list of its cells in key order ([page_wf]).
    Insertion and removal of a cell are insertion and removal in that list as
    long as the cell fits, whatever the free-block list looks like;
    defragmentation does not change the list. *)

From stdpp Require Import sets.
From S2P Require Import Prelude Varint OnDisk Page BtreePage BtreeSpace.

Lemma read_varint_app a b r :
  bytes_ok a -> bytes_ok b -> read_varint a = Ok r -> read_varint (a ++ b) = Ok r.
Proof.
  intros Ha Hb. rewrite !read_varint_eq by (done || by apply Forall_app_2).
  rewrite !ok_or_Ok. apply varint_decode_app.
Qed.

Section cells.
Context (base usable : Z) (t : PageType) (Hdims : dims base usable).

(** ** Cells *)

Definition max_local : Z := payload_overflow_threshold_max t usable.
Definition min_local : Z := payload_overflow_threshold_min t usable.

(** The bytes a cell takes on a page. *)
Definition region_size (c : bytes) : Z := Z.max 4 (lenZ c).

(** The bytes of one cell: what the cell says about its length is right. *)
Definition is_cell (c : bytes) : Prop :=
  bytes_ok c /\ exists o, raw_cell_len t c 0 usable max_local min_local = Ok (region_size c, o).

Lemma sub_drop (c buf : bytes) p :
  bytes_ok buf -> sub buf p (lenZ c) = c ->
  exists rest, drop (Z.to_nat p) buf = c ++ rest /\ bytes_ok rest.
Proof.
  intros Hb Hs. exists (drop (Z.to_nat (lenZ c)) (drop (Z.to_nat p) buf)). split.
  - rewrite <- Hs at 1. unfold sub. by rewrite take_drop.
  - by apply Forall_drop, Forall_drop.
Qed.

Lemma read_varint_at_sub c buf p k w :
  bytes_ok c -> bytes_ok buf -> 0 <= p -> p + lenZ c <= lenZ buf -> sub buf p (lenZ c) = c ->
  0 <= k -> read_varint_at c k = Ok w -> read_varint_at buf (p + k) = Ok w.
Proof.
  intros Hc Hb Hp Hlen Hs Hk. destruct (sub_drop _ _ _ Hb Hs) as (rest & Hd & Hr).
  unfold read_varint_at, slice_from_or_corrupt. destruct (Z.leb_spec k (lenZ c)); [|done].
  cbn [mbind Result_bind]. intros Hv. decide_if true. cbn [mbind Result_bind].
  rewrite Z2Nat.inj_add, <- drop_drop, Hd, drop_app_le by (unfold lenZ in *; lia).
  apply read_varint_app; [by apply Forall_drop|done|done].
Qed.

Lemma read_varint_at_pos buf k v n : bytes_ok buf -> read_varint_at buf k = Ok (v, n) -> 1 <= n.
Proof.
  intros Hb. unfold read_varint_at, slice_from_or_corrupt. case_match; [|done]. cbn [mbind Result_bind].
  rewrite read_varint_eq, ok_or_Ok by (by apply Forall_drop). intros Hs%varint_spec_bounds; [lia|].
  by apply Forall_drop.
Qed.

(** The length of a cell only depends on its bytes. *)
Lemma raw_cell_len_at c buf p r :
  bytes_ok c -> bytes_ok buf -> 0 <= p -> p + lenZ c <= lenZ buf -> sub buf p (lenZ c) = c ->
  raw_cell_len t c 0 usable max_local min_local = Ok r ->
  raw_cell_len t buf p usable max_local min_local = Ok r.
Proof.
  intros Hc Hb Hp Hlen Hs.
  assert (forall k w, 0 <= k -> read_varint_at c (0 + k) = Ok w -> read_varint_at buf (p + k) = Ok w) as Hr.
  { intros k w Hk. rewrite Z.add_0_l. by apply read_varint_at_sub. }
  pose proof (Hr 0) as Hr0. rewrite !Z.add_0_r in Hr0.
  unfold raw_cell_len. destruct t.
  1, 2: destruct (read_varint_at c (0 + 4)) as [[v n]| |] eqn:E; try done; by rewrite (Hr 4 _ ltac:(lia) E).
  all: destruct (read_varint_at c 0) as [[v n]| |] eqn:E; try done; rewrite (Hr0 _ ltac:(lia) eq_refl).
  { done. }
  cbn [mbind Result_bind]. pose proof (read_varint_at_pos _ _ _ _ Hc E).
  destruct (read_varint_at c (0 + n)) as [[w m]| |] eqn:E'; try done. by rewrite (Hr n _ ltac:(lia) E').
Qed.

(** ** Pages *)

(** The start of the cell pointer array. *)
Definition arr : Z := base + hsize_of (page_type_u8 t).

Definition regions (ptrs : list Z) (cells : list bytes) : list block :=
  zip_with (fun p c => (p, region_size c)) ptrs cells.

(** The page type and the cell pointer array. *)
Record array_at (buf : bytes) (ptrs : list Z) : Prop := mkArrayAt {
  ar_type : get8 buf base = page_type_u8 t;
  ar_count : get16 buf (base + 3) = lenZ ptrs;
  ar_ptrs : forall (i : nat) p, ptrs !! i = Some p -> get16 buf (arr + 2 * Z.of_nat i) = p
}.

(** The cells of a page with their offsets. *)
Record cells_at (buf : bytes) (ptrs : list Z) (cells : list bytes) : Prop := mkCellsAt {
  cs_array : array_at buf ptrs;
  cs_len : lenZ ptrs = lenZ cells;
  cs_cells : forall (i : nat) p c, ptrs !! i = Some p -> cells !! i = Some c ->
               sub buf p (lenZ c) = c /\ is_cell c
}.

(** The end of the pointer array. *)
Definition lo_of (cells : list bytes) : Z := arr + 2 * lenZ cells.

Record page_wf (buf : bytes) (ca : Z) (fbs : list block) (ptrs : list Z) (cells : list bytes)
    : Prop := mkPageWf {
  pw_cells : cells_at buf ptrs cells;
  pw_space : space_ok base usable buf (lo_of cells) ca fbs (regions ptrs cells)
}.

(** A page that is well-formed but for the count of fragmented bytes. *)
Record page_but (buf : bytes) (ca : Z) (fbs : list block) (ptrs : list Z) (cells : list bytes)
    : Prop := mkPageBut {
  pb_cells : cells_at buf ptrs cells;
  pb_space : space_but base usable buf (lo_of cells) ca fbs (regions ptrs cells)
}.

Lemma page_wf_but buf ca fbs ptrs cells : page_wf buf ca fbs ptrs cells -> page_but buf ca fbs ptrs cells.
Proof. intros [HC HS]. constructor; [done|by apply space_ok_but]. Qed.

(** The free bytes of a page with these cells. *)
Definition free_of (cells : list bytes) : Z :=
  usable - lo_of cells - foldr (fun c z => region_size c + z) 0 cells.

Lemma arr_range : base + 8 <= arr <= base + 12.
Proof. unfold arr, hsize_of. destruct t; cbn; lia. Qed.

Lemma regions_lookup ptrs cells (i : nat) p c :
  ptrs !! i = Some p -> cells !! i = Some c -> regions ptrs cells !! i = Some (p, region_size c).
Proof. intros Hp Hc. unfold regions. by rewrite lookup_zip_with, Hp, Hc. Qed.

Lemma regions_elem ptrs cells (i : nat) p c :
  ptrs !! i = Some p -> cells !! i = Some c -> (p, region_size c) ∈ regions ptrs cells.
Proof. intros. eapply list_elem_of_lookup_2. by apply regions_lookup. Qed.

Lemma sizes_regions ptrs cells :
  lenZ ptrs = lenZ cells -> sizes (regions ptrs cells) = foldr (fun c z => region_size c + z) 0 cells.
Proof.
  revert cells. induction ptrs as [|p ptrs IH]; intros [|c cells] Hl; try done. cbn.
  unfold sizes, regions in IH. rewrite IH by (unfold lenZ in *; cbn in Hl; lia). done.
Qed.

(** Where a cell is. *)
Lemma cell_range_but buf ca fbs ptrs cells (i : nat) p c :
  page_but buf ca fbs ptrs cells -> ptrs !! i = Some p -> cells !! i = Some c ->
  ca <= p /\ p + region_size c <= usable /\ sub buf p (lenZ c) = c /\ is_cell c.
Proof.
  intros [[] []] Hp Hc. rewrite Forall_forall in sb_used.
  destruct (sb_used _ (regions_elem _ _ _ _ _ Hp Hc)) as [Hw _]. unfold within, bend in Hw. cbn in Hw.
  destruct (cs_cells0 _ _ _ Hp Hc). split_and!; [lia|lia|done|done].
Qed.

Lemma cell_range buf ca fbs ptrs cells (i : nat) p c :
  page_wf buf ca fbs ptrs cells -> ptrs !! i = Some p -> cells !! i = Some c ->
  ca <= p /\ p + region_size c <= usable /\ sub buf p (lenZ c) = c /\ is_cell c.
Proof. intros HW. by eapply cell_range_but, page_wf_but. Qed.

(** The pointer array and the cells survive the free-space functions. *)
Lemma array_keep buf buf' ca used ptrs :
  array_at buf ptrs -> keeps base usable buf buf' ca used -> arr + 2 * lenZ ptrs <= ca ->
  array_at buf' ptrs.
Proof.
  intros [] [] Hlo. pose proof arr_range. constructor.
  - by rewrite k_type.
  - by rewrite k_count.
  - intros i p Hp. unfold get16. rewrite k_array; [by apply ar_ptrs0|lia|].
    apply lookup_lt_Some in Hp. unfold lenZ in *. lia.
Qed.

Lemma cells_keep buf buf' ca used ptrs cells :
  cells_at buf ptrs cells -> keeps base usable buf buf' ca used -> lo_of cells <= ca ->
  (forall (i : nat) p c, ptrs !! i = Some p -> cells !! i = Some c -> (p, region_size c) ∈ used) ->
  cells_at buf' ptrs cells.
Proof.
  intros [] HK Hlo Hu. constructor; [|done|].
  - eapply array_keep; [done..|]. by rewrite cs_len0.
  - intros i p c Hp Hc. rewrite (k_used _ _ _ _ _ _ HK (p, region_size c));
      [by apply (cs_cells0 i)|by eapply Hu|cbn; lia|]. unfold bend, region_size. cbn. lia.
Qed.

(** ** Reading the header *)

Lemma cell_count_ok buf ptrs :
  array_at buf ptrs -> base + 8 <= lenZ buf -> cell_count base buf = Ok (lenZ ptrs).
Proof.
  intros [] ?. destruct Hdims. unfold cell_count, BTREE_CELL_COUNT. rewrite read_u16_ok by lia.
  by rewrite ar_count0.
Qed.

Lemma page_type_ok buf ptrs : array_at buf ptrs -> base + 8 <= lenZ buf -> page_type base buf = Ok t.
Proof.
  intros [] ?. destruct Hdims. unfold page_type, read_u8, BTREE_PAGE_TYPE.
  rewrite Z.add_0_r, idx_get8, ar_type0 by lia. by destruct t.
Qed.

Lemma array_ok buf ptrs :
  array_at buf ptrs -> base + 8 <= lenZ buf -> cell_pointer_array_offset base buf = Ok arr.
Proof.
  intros [] ?. destruct Hdims. unfold cell_pointer_array_offset, header_size, read_u8, BTREE_PAGE_TYPE.
  rewrite Z.add_0_r, idx_get8, ar_type0 by lia. unfold arr, hsize_of. by destruct t.
Qed.

Lemma array_size_ok buf ptrs :
  array_at buf ptrs -> base + 8 <= lenZ buf ->
  cell_pointer_array_offset_and_size base buf = Ok (arr, 2 * lenZ ptrs).
Proof.
  intros HA ?. unfold cell_pointer_array_offset_and_size, cell_pointer_array_size.
  rewrite (array_ok _ _ HA), (cell_count_ok _ _ HA) by done. cbn. unfold CELL_PTR_SIZE_BYTES.
  f_equal. f_equal. lia.
Qed.

Lemma unallocated_start_ok buf ptrs :
  array_at buf ptrs -> base + 8 <= lenZ buf ->
  unallocated_region_start base buf = Ok (arr + 2 * lenZ ptrs).
Proof. intros HA ?. unfold unallocated_region_start. by rewrite (array_size_ok _ _ HA). Qed.

Lemma raw_start_ok buf ptrs (i : nat) p :
  array_at buf ptrs -> arr + 2 * lenZ ptrs <= lenZ buf -> ptrs !! i = Some p ->
  cell_get_raw_start_offset base buf (Z.of_nat i) = Ok p.
Proof.
  intros HA Hl Hp. destruct Hdims. pose proof arr_range. pose proof (lookup_lt_Some _ _ _ Hp).
  unfold lenZ in Hl. unfold cell_get_raw_start_offset. rewrite (array_ok _ _ HA) by (unfold lenZ; lia).
  cbn [mbind Result_bind]. unfold CELL_PTR_SIZE_BYTES. rewrite read_u16_no_offset_ok by (unfold lenZ; lia).
  f_equal. rewrite Z.mul_comm. by apply (ar_ptrs _ _ HA).
Qed.

(** The region of a cell, read from the page. *)
Lemma raw_region_but buf ca fbs ptrs cells (i : nat) p c :
  page_but buf ca fbs ptrs cells -> ptrs !! i = Some p -> cells !! i = Some c ->
  exists o, cell_get_raw_region_faster base buf (Z.of_nat i) usable (lenZ cells) max_local min_local t =
    Ok (p, region_size c, o).
Proof.
  intros HW Hp Hc. pose proof HW as [HC HS]. pose proof HS as [].
  destruct (cell_range_but _ _ _ _ _ _ _ _ HW Hp Hc) as (Hca & Hend & Hsub & Hcb & o & Hraw).
  destruct Hdims. pose proof arr_range. unfold cell_get_raw_region_faster.
  apply lookup_lt_Some in Hc as Hlt. unfold region_size in *. pose proof (lenZ_nonneg c).
  replace (turso_assert _) with (Ok tt) by (unfold turso_assert, lenZ; decide_if true; done).
  cbn [mbind Result_bind].
  rewrite (raw_start_ok _ _ _ _ (cs_array _ _ _ HC)) with (2 := Hp) by (rewrite (cs_len _ _ _ HC); unfold lo_of in *; lia).
  cbn [mbind Result_bind]. rewrite (raw_cell_len_at c buf p (Z.max 4 (lenZ c), o)) by (done || lia).
  cbn [mbind Result_bind]. pass. destruct o; [|eauto]. rewrite slice_sub by lia. cbn. eauto.
Qed.

Lemma raw_region_ok buf ca fbs ptrs cells (i : nat) p c :
  page_wf buf ca fbs ptrs cells -> ptrs !! i = Some p -> cells !! i = Some c ->
  exists o, cell_get_raw_region_faster base buf (Z.of_nat i) usable (lenZ cells) max_local min_local t =
    Ok (p, region_size c, o).
Proof. intros HW. by eapply raw_region_but, page_wf_but. Qed.

Lemma cell_region_ok buf ca fbs ptrs cells (i : nat) p c :
  page_wf buf ca fbs ptrs cells -> ptrs !! i = Some p -> cells !! i = Some c ->
  cell_get_raw_region base buf (Z.of_nat i) usable = Ok (p, region_size c).
Proof.
  intros HW Hp Hc. pose proof HW as [HC HS]. pose proof HS as []. destruct Hdims. pose proof arr_range.
  unfold cell_get_raw_region, cell_get_raw_region_and_overflow.
  pose proof (cs_array _ _ _ HC) as HA. rewrite (page_type_ok _ _ HA), (cell_count_ok _ _ HA), (cs_len _ _ _ HC) by lia.
  cbn [mbind Result_bind]. destruct (raw_region_ok _ _ _ _ _ _ _ _ HW Hp Hc) as [o Ho]. unfold max_local, min_local in Ho.
  by rewrite Ho.
Qed.

Lemma free_space_ok buf ca fbs ptrs cells :
  page_wf buf ca fbs ptrs cells -> compute_free_space base usable buf = Ok (free_of cells).
Proof.
  intros [HC HS]. pose proof HC as [[] ? _]. rewrite (compute_free_space_ok _ _ Hdims _ _ _ _ _ HS).
  - unfold free_of. by rewrite sizes_regions.
  - rewrite ar_type0, ar_count0, cs_len0. done.
Qed.

(** ** What no operation changes *)

(** The bytes before the page header and after the usable space, and the
    rightmost child pointer. *)
Record outer (buf buf' : bytes) : Prop := mkOuter {
  o_len : lenZ buf' = lenZ buf;
  o_before : forall a n, 0 <= a -> a + n <= base -> sub buf' a n = sub buf a n;
  o_right : forall a n, base + 8 <= a -> a + n <= arr -> sub buf' a n = sub buf a n;
  o_after : forall a n, usable <= a -> sub buf' a n = sub buf a n
}.

Lemma outer_refl buf : outer buf buf.
Proof. by constructor. Qed.

Lemma outer_trans buf1 buf2 buf3 : outer buf1 buf2 -> outer buf2 buf3 -> outer buf1 buf3.
Proof.
  intros [] []. constructor; intros; [congruence|..].
  - by rewrite o_before1, o_before0.
  - by rewrite o_right1, o_right0.
  - by rewrite o_after1, o_after0.
Qed.

Lemma keeps_outer buf buf' ca used : keeps base usable buf buf' ca used -> arr <= ca -> outer buf buf'.
Proof. intros [] ?. constructor; auto. intros. apply k_array; lia. Qed.

(** A write to the page header or to the body of the page. *)
Lemma outer_splice buf a x :
  usable <= lenZ buf -> a + lenZ x <= usable -> arr <= a \/ (base <= a /\ a + lenZ x <= base + 8) ->
  outer buf (splice buf a x).
Proof.
  intros Hl Hx Ha. destruct Hdims. pose proof arr_range. pose proof (lenZ_nonneg x).
  constructor; intros; [by apply lenZ_splice; lia|..]; apply sub_splice_ne; lia.
Qed.

#[local] Hint Resolve outer_refl outer_trans : core.

(** ** Removing a cell *)

Lemma regions_delete ptrs cells (i : nat) :
  regions (delete i ptrs) (delete i cells) = delete i (regions ptrs cells).
Proof.
  revert i cells. induction ptrs as [|p ptrs IH]; intros [|i] [|c cells]; cbn; try done.
  - by destruct ptrs.
  - f_equal. apply IH.
Qed.

Lemma delete_lookup {A} (l : list A) (i j : nat) :
  delete i l !! j = l !! (if (j <? i)%nat then j else S j).
Proof.
  destruct (Nat.ltb_spec j i).
  - by rewrite list_lookup_delete_lt.
  - by rewrite list_lookup_delete_ge.
Qed.

(** The pointer array after [shift_pointers_left]. *)
Lemma shift_pointers_left_ok buf ptrs (i : nat) :
  array_at buf ptrs -> arr + 2 * lenZ ptrs <= lenZ buf -> (i < length ptrs)%nat ->
  let buf' := splice buf (arr + 2 * Z.of_nat i)
                (sub buf (arr + 2 * Z.of_nat i + 2) (2 * (lenZ ptrs - Z.of_nat i - 1))) in
  shift_pointers_left base buf (Z.of_nat i) = Ok buf' /\
  forall (j : nat) p, delete i ptrs !! j = Some p -> get16 buf' (arr + 2 * Z.of_nat j) = p.
Proof.
  intros HA Hlen Hi. cbn zeta. pose proof HA as []. destruct Hdims. pose proof arr_range.
  assert (Z.of_nat i < lenZ ptrs) by (unfold lenZ; lia).
  set (n := 2 * (lenZ ptrs - Z.of_nat i - 1)).
  assert (lenZ (sub buf (arr + 2 * Z.of_nat i + 2) n) = n) as Hx by (apply lenZ_sub; lia).
  split.
  - unfold shift_pointers_left. rewrite (cell_count_ok _ _ HA) by lia. cbn [mbind Result_bind]. pass.
    rewrite (array_size_ok _ _ HA) by lia. cbn [mbind Result_bind].
    unfold checked_sub. decide_if true. cbn [mbind Result_bind]. unfold copy_within.
    rewrite slice_sub by lia. cbn [mbind Result_bind].
    replace (arr + Z.of_nat i * 2 + 2 + (lenZ ptrs - (Z.of_nat i + 1)) * 2 - (arr + Z.of_nat i * 2 + 2)) with n by lia.
    replace (arr + Z.of_nat i * 2 + 2 - 2) with (arr + 2 * Z.of_nat i) by lia.
    replace (arr + Z.of_nat i * 2 + 2) with (arr + 2 * Z.of_nat i + 2) by lia.
    apply write_slice_Ok. split_and!; [lia|lia|done].
  - intros j p. rewrite delete_lookup. intros Hp. pose proof (lookup_lt_Some _ _ _ Hp).
    unfold lenZ in *. destruct (Nat.ltb_spec j i).
    + rewrite get16_ne by (unfold lenZ; lia). by apply ar_ptrs0.
    + unfold get16. rewrite sub_splice_in by (unfold lenZ; lia). rewrite sub_sub by lia.
      rewrite <- (ar_ptrs0 _ _ Hp). unfold get16. f_equal. f_equal. lia.
Qed.

Lemma write_frag_ok buf v : usable <= lenZ buf ->
  write_fragmented_bytes_count base buf v = Ok (splice buf (base + 7) [v]).
Proof. intros. destruct Hdims. apply write_u8_ok. unfold BTREE_FRAGMENTED_BYTES_COUNT. lia. Qed.

Lemma write_count_ok buf v : usable <= lenZ buf ->
  write_cell_count base buf v = Ok (splice buf (base + 3) (be_split 2 v)).
Proof. intros. destruct Hdims. apply write_u16_ok; unfold BTREE_CELL_COUNT; lia. Qed.

(** The header of a page whose content area is empty of free blocks and
    fragments, as [defragment_page] and [drop_cell] write it. *)
Definition reset_header (buf : bytes) (ca : Z) : bytes :=
  splice (splice (splice buf (base + 5) (be_split 2 (u16 ca))) (base + 1) (be_split 2 0))
    (base + 7) [0].

Lemma reset_header_ok buf ca :
  usable <= lenZ buf ->
  (buf ← write_cell_content_area base buf ca;
   buf ← write_first_freeblock base buf 0;
   write_fragmented_bytes_count base buf 0) = Ok (reset_header buf ca).
Proof.
  intros Hl. destruct Hdims. rewrite (write_ca_ok base usable) by done. cbn [mbind Result_bind].
  pose proof (be_split_lenZ 2 (u16 ca)). pose proof (be_split_lenZ 2 0).
  assert (lenZ (splice buf (base + 5) (be_split 2 (u16 ca))) = lenZ buf) as E by (apply lenZ_splice; lia).
  rewrite (write_first_ok base usable) by (done || lia). cbn [mbind Result_bind].
  rewrite write_frag_ok; [done|]. rewrite lenZ_splice; lia.
Qed.

(** Fields of a page after [reset_header]. *)
Lemma reset_header_fields buf ca :
  usable <= lenZ buf -> bytes_ok buf ->
  let buf' := reset_header buf ca in
  bytes_ok buf' /\ outer buf buf' /\ get16 buf' (base + 5) = u16 ca /\ get16 buf' (base + 1) = 0 /\
  get8 buf' (base + 7) = 0 /\ get8 buf' base = get8 buf base /\
  get16 buf' (base + 3) = get16 buf (base + 3) /\
  forall a n, base + 8 <= a -> sub buf' a n = sub buf a n.
Proof.
  intros Hl Hb. destruct Hdims. cbn zeta. unfold reset_header.
  pose proof (be_split_lenZ 2 (u16 ca)). pose proof (be_split_lenZ 2 0). assert (lenZ [0] = 1) by done.
  set (buf1 := splice buf _ _). assert (lenZ buf1 = lenZ buf) by (apply lenZ_splice; lia).
  set (buf2 := splice buf1 _ _). assert (lenZ buf2 = lenZ buf) by (unfold buf2; rewrite lenZ_splice; lia).
  split_and!.
  - apply splice_ok; [apply splice_ok; [apply splice_ok; [done|apply be_split_ok]|apply be_split_ok]|].
    by apply Forall_singleton.
  - apply (outer_trans _ buf1); [|apply (outer_trans _ buf2)]; apply outer_splice; lia.
  - rewrite get16_ne by lia. unfold buf2. rewrite get16_ne by lia. apply get16_splice; [lia..|].
    unfold is_u16, u16. by apply Z.mod_pos_bound.
  - rewrite get16_ne by lia. apply get16_splice; (done || lia).
  - apply get8_splice. lia.
  - rewrite get8_ne by lia. unfold buf2. rewrite get8_ne by lia. apply get8_ne; lia.
  - rewrite get16_ne by lia. unfold buf2. rewrite get16_ne by lia. apply get16_ne; lia.
  - intros a n Ha. rewrite sub_splice_ne by lia. unfold buf2. rewrite sub_splice_ne by lia.
    apply sub_splice_ne; lia.
Qed.

(** A page without cells. *)
Lemma page_wf_empty buf :
  usable <= lenZ buf -> bytes_ok buf -> get8 buf base = page_type_u8 t ->
  get16 buf (base + 3) = 0 -> get16 buf (base + 5) = u16 usable -> get16 buf (base + 1) = 0 ->
  get8 buf (base + 7) = 0 -> page_wf buf usable [] [] [].
Proof.
  intros. destruct Hdims. pose proof arr_range. constructor; constructor; try done.
  - unfold lo_of, lenZ. cbn. lia.
  - unfold regions. cbn. lia.
Qed.

(** The pointer of a freed cell is taken out of the array. *)
Lemma drop_pointer buf ca fbs ptrs cells (i : nat) :
  array_at buf ptrs -> lenZ ptrs = lenZ cells -> (i < length ptrs)%nat ->
  space_ok base usable buf (lo_of cells) ca fbs (regions (delete i ptrs) (delete i cells)) ->
  (forall (j : nat) p c, delete i ptrs !! j = Some p -> delete i cells !! j = Some c ->
     sub buf p (lenZ c) = c /\ is_cell c) ->
  exists buf',
    (buf ← shift_pointers_left base buf (Z.of_nat i);
     count ← cell_count base buf;
     count ← checked_sub count 1;
     write_cell_count base buf count) = Ok buf' /\
    page_wf buf' ca fbs (delete i ptrs) (delete i cells) /\ outer buf buf'.
Proof.
  intros HA Hlen Hi HS Hcells. pose proof HA as []. pose proof HS as []. destruct Hdims.
  pose proof arr_range. unfold lo_of in *.
  destruct (shift_pointers_left_ok buf ptrs i HA ltac:(lia) Hi) as [-> Hptrs]. cbn [mbind Result_bind].
  set (x := sub buf _ _) in *. set (buf1 := splice buf _ x) in *.
  assert (Z.of_nat i < lenZ ptrs) by (unfold lenZ; lia).
  assert (lenZ x = 2 * (lenZ ptrs - Z.of_nat i - 1)) as Hx by (apply lenZ_sub; lia).
  assert (lenZ buf1 = lenZ buf) as Hlen1 by (apply lenZ_splice; lia).
  unfold cell_count, BTREE_CELL_COUNT. rewrite read_u16_ok by lia. cbn [mbind Result_bind].
  assert (get16 buf1 (base + 3) = lenZ ptrs) as -> by (unfold buf1; rewrite get16_ne by lia; done).
  unfold checked_sub. decide_if true.
  cbn [mbind Result_bind]. rewrite write_count_ok by lia.
  pose proof (be_split_lenZ 2 (lenZ ptrs - 1)) as Hl2.
  assert (lenZ (delete i cells) = lenZ cells - 1 /\ lenZ (delete i ptrs) = lenZ ptrs - 1) as [Hdc Hdp].
  { unfold lenZ in *. rewrite !length_delete by (apply lookup_lt_is_Some_2; lia). lia. }
  eexists. split; [done|]. split; [|apply (outer_trans _ buf1); apply outer_splice; lia].
  constructor.
  - constructor; [constructor| |].
    + rewrite get8_ne by lia. unfold buf1. rewrite get8_ne by lia. done.
    + rewrite get16_splice by (unfold is_u16; lia). lia.
    + intros j p Hj. pose proof (lookup_lt_Some _ _ _ Hj). unfold lenZ in Hdp.
      rewrite get16_ne by lia. by apply Hptrs.
    + lia.
    + intros j p c Hp Hc. destruct (Hcells j p c Hp Hc) as [Hsub Hcell]. split; [|done].
      rewrite Forall_forall in so_used. destruct (so_used _ (regions_elem _ _ _ _ _ Hp Hc)) as [Hw _].
      unfold within in Hw. cbn in Hw. rewrite sub_splice_ne by lia. unfold buf1.
      rewrite sub_splice_ne by lia. done.
  - apply (space_ok_splice _ _ Hdims); [|apply be_split_ok|left; lia].
    eapply space_ok_lo; [|unfold lo_of; rewrite Hdc; unfold lenZ in *; lia].
    apply (space_ok_splice _ _ Hdims); [done|by apply sub_ok|right; left; lia].
Qed.

(** The last cell of a page is freed. *)
Lemma drop_last buf ptrs :
  array_at buf ptrs -> lenZ ptrs = 1 -> usable <= lenZ buf -> bytes_ok buf ->
  exists buf',
    (buf ← (buf ← write_cell_content_area base buf usable;
            buf ← write_first_freeblock base buf 0;
            write_fragmented_bytes_count base buf 0);
     count ← cell_count base buf;
     count ← checked_sub count 1;
     write_cell_count base buf count) = Ok buf' /\
    page_wf buf' usable [] [] [] /\ outer buf buf'.
Proof.
  intros HA Hn Hlen Hb. pose proof HA as []. destruct Hdims. pose proof arr_range.
  rewrite reset_header_ok by done. cbn [mbind Result_bind].
  destruct (reset_header_fields buf usable Hlen Hb) as (Hb2 & Ho2 & Hca2 & Hf2 & Hg2 & Ht2 & Hn2 & _).
  set (buf2 := reset_header buf usable) in *. pose proof (o_len _ _ Ho2) as Hlen2.
  unfold cell_count, BTREE_CELL_COUNT. rewrite read_u16_ok, Hn2, ar_count0, Hn by lia.
  cbn [mbind Result_bind]. unfold checked_sub. decide_if true. cbn [mbind Result_bind].
  rewrite write_count_ok by lia. pose proof (be_split_lenZ 2 (1 - 1)) as Hl2.
  eexists. split; [done|]. split; [|eapply outer_trans; [exact Ho2|apply outer_splice; lia]].
  apply page_wf_empty.
  - rewrite lenZ_splice; lia.
  - apply splice_ok; [done|apply be_split_ok].
  - rewrite get8_ne by lia. congruence.
  - rewrite get16_splice; [lia|lia|lia|]. done.
  - rewrite get16_ne by lia. done.
  - rewrite get16_ne by lia. done.
  - rewrite get8_ne by lia. done.
Qed.

(** Removing a cell frees its bytes and keeps the other cells. *)
Lemma drop_cell_ptrs buf ca fbs ptrs cells (i : nat) :
  page_wf buf ca fbs ptrs cells -> (i < length cells)%nat ->
  exists buf' ca' fbs', drop_cell base usable buf (Z.of_nat i) = Ok buf' /\
    page_wf buf' ca' fbs' (delete i ptrs) (delete i cells) /\ outer buf buf'.
Proof.
  intros HW Hi. pose proof HW as [HC HS]. pose proof HC as []. pose proof HS as []. destruct Hdims.
  pose proof arr_range. destruct (lookup_lt_is_Some_2 cells i Hi) as [c Hc].
  destruct (lookup_lt_is_Some_2 ptrs i ltac:(unfold lenZ in *; lia)) as [p Hp].
  unfold drop_cell. rewrite (cell_region_ok _ _ _ _ _ _ _ _ HW Hp Hc). cbn [mbind Result_bind].
  assert (regions ptrs cells ≡ₚ (p, region_size c) :: regions (delete i ptrs) (delete i cells)) as Hperm.
  { rewrite regions_delete. apply delete_Permutation. by apply regions_lookup. }
  destruct (free_cell_range_ok _ _ Hdims _ _ _ _ _ _ _ (space_ok_perm _ _ _ _ _ _ _ _ HS Hperm))
    as (buf1 & ca1 & fbs1 & -> & HS1 & Hca1 & Hk). cbn [mbind Result_bind].
  unfold lo_of in *.
  pose proof (keeps_outer _ _ _ _ Hk ltac:(unfold lenZ in *; lia)) as Ho1.
  pose proof (o_len _ _ Ho1) as Hlen1.
  pose proof (array_keep _ _ _ _ _ cs_array0 Hk ltac:(lia)) as HA1.
  rewrite (cell_count_ok _ _ HA1) by lia. cbn [mbind Result_bind].
  destruct (Z.ltb_spec 1 (lenZ ptrs)).
  - destruct (drop_pointer buf1 ca1 fbs1 ptrs cells i) as (buf2 & -> & HW2 & Ho2); try done.
    + unfold lenZ in *. lia.
    + intros j q d Hq Hd. rewrite (k_used _ _ _ _ _ _ Hk (q, region_size d)).
      * rewrite delete_lookup in Hq. rewrite delete_lookup in Hd. by eapply cs_cells0.
      * by eapply regions_elem.
      * cbn. lia.
      * unfold bend, region_size. cbn. lia.
    + eexists _, _, _. split_and!; [done|exact HW2|by eapply outer_trans].
  - assert (lenZ ptrs = 1) by (unfold lenZ in *; lia).
    destruct (drop_last buf1 ptrs) as (buf2 & -> & HW2 & Ho2); [done|done|lia|by destruct HS1|].
    assert (delete i cells = []) as ->.
    { apply nil_length_inv. rewrite length_delete by eauto. unfold lenZ in *. lia. }
    assert (delete i ptrs = []) as -> by (apply nil_length_inv; rewrite length_delete by eauto; unfold lenZ in *; lia).
    eexists _, _, _. split_and!; [done|exact HW2|by eapply outer_trans].
Qed.

Lemma drop_cell_ok buf ca fbs ptrs cells (i : nat) :
  page_wf buf ca fbs ptrs cells -> (i < length cells)%nat ->
  exists buf' ca' fbs' ptrs', drop_cell base usable buf (Z.of_nat i) = Ok buf' /\
    page_wf buf' ca' fbs' ptrs' (delete i cells) /\ outer buf buf'.
Proof. intros HW Hi. destruct (drop_cell_ptrs _ _ _ _ _ i HW Hi) as (buf' & ca' & fbs' & ?). by exists buf', ca', fbs', (delete i ptrs). Qed.
End cells.
