(* ===== verification/BtreeDefrag.v ===== *)
(** * BtreeDefrag: defragmentation keeps the cells of a page

    [defragment_page] moves all free space in front of the content area.  The
    fast path moves the cells around one or two free blocks, the slow path
    packs the cells at the end of the page in descending order of their
    offsets.  Both keep the list of cells. *)

From stdpp Require Import sets.
From Stdlib Require Import Sorted.
From S2P Require Import Prelude Varint OnDisk Page BtreePage BtreeSpace BtreeCells.

Lemma copy_within_ok buf a b dst :
  0 <= a <= b -> b <= lenZ buf -> 0 <= dst -> dst + (b - a) <= lenZ buf ->
  copy_within buf a b dst = Ok (splice buf dst (sub buf a (b - a))).
Proof.
  intros. unfold copy_within. rewrite slice_sub by lia. cbn. apply write_slice_Ok.
  rewrite lenZ_sub by lia. split_and!; [lia|lia|done].
Qed.

(** ** Cells in physical order *)

Definition blk (c : CellInfo) : block := (old_offset c, ci_size c).

(** The cells gathered from index [i] on. *)
Fixpoint infos (i : Z) (rs : list block) : list CellInfo :=
  match rs with [] => [] | r :: rs' => mkCellInfo r.1 r.2 i :: infos (i + 1) rs' end.

(** What [is_physically_sorted] says. *)
Fixpoint noninc (last : Z) (rs : list block) : bool :=
  match rs with [] => true | r :: rs' => negb (last <? r.1) && noninc r.1 rs' end.

Definition desc_order (c d : CellInfo) : Prop := old_offset d <= old_offset c.

(** Descending regions below [hi]. *)
Fixpoint descends (hi : Z) (l : list CellInfo) : Prop :=
  match l with
  | [] => True
  | c :: l' => old_offset c + ci_size c <= hi /\ descends (old_offset c) l'
  end.

Lemma infos_blk i rs : map blk (infos i rs) = rs.
Proof. revert i. induction rs as [|[] rs IH]; intros i; cbn; [done|]. by rewrite IH. Qed.

Lemma infos_index (i : nat) rs c :
  c ∈ infos (Z.of_nat i) rs -> exists j : nat, pointer_index c = Z.of_nat j /\ (i <= j)%nat /\ rs !! (j - i)%nat = Some (blk c).
Proof.
  revert i. induction rs as [|[p s] rs IH]; intros i; cbn; [intros H; inversion H|].
  intros [->|Hc]%elem_of_cons.
  - exists i. rewrite Nat.sub_diag. done.
  - replace (Z.of_nat i + 1) with (Z.of_nat (S i)) in Hc by lia. destruct (IH _ Hc) as (j & -> & ? & Hj).
    exists j. split_and!; [done|lia|]. by replace (j - i)%nat with (S (j - S i)) by lia.
Qed.

Lemma infos_nodup (i : nat) rs : NoDup (pointer_index <$> infos (Z.of_nat i) rs).
Proof.
  revert i. induction rs as [|r rs IH]; intros i; cbn; [constructor|].
  replace (Z.of_nat i + 1) with (Z.of_nat (S i)) by lia. constructor; [|apply IH].
  intros (c & Hi & Hc)%list_elem_of_fmap. apply infos_index in Hc as (j & Hj & ? & _). lia.
Qed.

Lemma noninc_sorted rs : forall i last, noninc last rs = true -> Sorted desc_order (infos i rs).
Proof.
  induction rs as [|r rs IH]; intros i last; cbn; [constructor|].
  intros [_ Hn]%andb_prop. constructor; [by eapply IH|].
  destruct rs as [|r' rs]; cbn in *; constructor. unfold desc_order. cbn. lia.
Qed.

Lemma insert_desc_perm c l : insert_desc c l ≡ₚ c :: l.
Proof.
  induction l as [|d l IH]; cbn; [done|]. case_match; [done|]. rewrite IH. apply Permutation_swap.
Qed.

Lemma sort_desc_perm l : sort_desc l ≡ₚ l.
Proof. induction l as [|c l IH]; cbn; [done|]. by rewrite insert_desc_perm, IH. Qed.

Lemma insert_desc_sorted c l : Sorted desc_order l -> Sorted desc_order (insert_desc c l).
Proof.
  induction 1 as [|d l Hs IH Hd]; cbn; [repeat constructor|].
  destruct (Z.ltb_spec (old_offset d) (old_offset c)).
  - constructor; [by constructor|]. constructor. unfold desc_order. lia.
  - constructor; [done|]. destruct l as [|e l]; cbn; [constructor; unfold desc_order; lia|].
    inversion Hd; subst. case_match; constructor; unfold desc_order in *; lia.
Qed.

Lemma sort_desc_sorted l : Sorted desc_order (sort_desc l).
Proof. induction l; cbn; [constructor|]. by apply insert_desc_sorted. Qed.

(** Disjoint regions in descending order. *)
Lemma sorted_descends l : forall hi,
  Sorted desc_order l -> disj (map blk l) -> Forall (fun c => 4 <= ci_size c) l ->
  match l with c :: _ => old_offset c + ci_size c <= hi | [] => True end -> descends hi l.
Proof.
  induction l as [|c l IH]; intros hi Hs Hd Hf Hh; [done|]. cbn. split; [done|].
  apply Sorted_inv in Hs as [Hs Hhd]. destruct Hd as [Ha Hd]. apply Forall_cons in Hf as [Hc Hf].
  apply IH; try done. destruct l as [|d l]; [done|]. inversion Hhd; subst.
  apply Forall_cons in Hf as [Hd4 _]. cbn in Ha. apply Forall_cons in Ha as [Ha _].
  unfold apart, bend, desc_order in *. cbn in Ha. lia.
Qed.

Lemma check_regions_rev l : forall hi pe k,
  descends hi l -> Forall (fun c => pe <= old_offset c) l ->
  check_regions (rev l ++ k) pe =
  check_regions k (match l with c :: _ => old_offset c + ci_size c | [] => pe end).
Proof.
  induction l as [|c l IH]; intros hi pe k Hd Hp; [done|]. cbn. rewrite <- app_assoc.
  destruct Hd as [_ Hd]. apply Forall_cons in Hp as [Hc Hp]. rewrite (IH (old_offset c)) by done. cbn.
  destruct l as [|d l]; cbn; [by pass|]. destruct Hd as [? _]. by pass.
Qed.

Lemma descends_ok hi pe l :
  descends hi l -> Forall (fun c => pe <= old_offset c) l -> check_regions (rev l) pe = Ok tt.
Proof. intros Hd Hp. rewrite <- (app_nil_r (rev l)). by rewrite (check_regions_rev l hi). Qed.

Section defrag.
Context (base usable : Z) (t : PageType) (Hdims : dims base usable).

#[local] Abbreviation wf := (page_wf base usable t).
#[local] Abbreviation but := (page_but base usable t).
#[local] Abbreviation at_ := (cells_at base usable t).
#[local] Abbreviation lo := (lo_of base t).
#[local] Abbreviation arr := (arr base t).

Lemma gather_cells_ok buf ca fbs ptrs cells k : forall (i : nat) last sorted,
  but buf ca fbs ptrs cells -> (i + k)%nat = length cells ->
  gather_cells base usable k buf (Z.of_nat i) (lenZ cells) arr (max_local usable t) (min_local usable t)
    t last sorted =
  Ok (infos (Z.of_nat i) (drop i (regions ptrs cells)),
      sorted && noninc last (drop i (regions ptrs cells))).
Proof.
  induction k as [|k IH]; intros i last sorted HW Hi; pose proof HW as [HC HS];
    pose proof HC as []; pose proof HS as []; destruct Hdims; pose proof (arr_range base t).
  - assert (length (regions ptrs cells) = i) as Hr
      by (unfold regions; rewrite length_zip_with; unfold lenZ in *; lia).
    cbn. rewrite drop_ge by lia. cbn. by rewrite andb_true_r.
  - destruct (lookup_lt_is_Some_2 cells i ltac:(lia)) as [c Hc].
    destruct (lookup_lt_is_Some_2 ptrs i ltac:(unfold lenZ in *; lia)) as [p Hp].
    cbn [gather_cells]. unfold lo_of in *. destruct sb_lo as [[? ?] ?].
    rewrite read_u16_no_offset_ok by (unfold lenZ in *; lia).
    rewrite Z.mul_comm, (ar_ptrs _ _ _ _ cs_array _ _ Hp). cbn [mbind Result_bind].
    destruct (raw_region_but _ _ _ Hdims _ _ _ _ _ _ _ _ HW Hp Hc) as [o Ho]. unfold arr in Ho. rewrite Ho.
    cbn [mbind Result_bind]. specialize (IH (S i) p (sorted && negb (last <? p)) HW ltac:(lia)).
    replace (Z.of_nat (S i)) with (Z.of_nat i + 1) in IH by lia. rewrite IH. cbn [mbind Result_bind].
    pose proof (regions_lookup _ _ _ _ _ Hp Hc) as Hr. rewrite (drop_S _ _ _ Hr). cbn.
    destruct (cell_range_but _ _ _ _ _ _ _ _ _ _ _ HW Hp Hc) as (? & ? & _).
    f_equal. f_equal; [|by rewrite andb_assoc]. f_equal. f_equal. unfold u16. apply Z.mod_small.
    unfold region_size in *. pose proof (lenZ_nonneg cells). lia.
Qed.

(** One cell moves; the others are not in its way. *)
Lemma move_cell buf ptrs cells (i : nat) p c new :
  at_ buf ptrs cells -> ptrs !! i = Some p -> cells !! i = Some c ->
  usable <= lenZ buf -> bytes_ok buf -> lo cells <= p -> p + region_size c <= usable ->
  lo cells <= new -> new + region_size c <= usable ->
  (forall (j : nat) q d, j <> i -> ptrs !! j = Some q -> cells !! j = Some d ->
     lo cells <= q /\ (q + region_size d <= new \/ new + region_size c <= q)) ->
  let buf1 := splice buf new (sub buf p (region_size c)) in
  let buf2 := splice buf1 (arr + 2 * Z.of_nat i) (be_split 2 new) in
  at_ buf2 (<[i := new]> ptrs) cells /\ outer base usable t buf buf2 /\ bytes_ok buf2.
Proof.
  intros HC Hp Hc Hlen Hb Hlop Hend Hlon Hnend Hoth. pose proof HC as [[] ? ?]. destruct Hdims.
  pose proof (arr_range base t). cbn zeta. unfold lo_of in *. unfold region_size in Hend, Hnend.
  pose proof (lenZ_nonneg c). pose proof (lenZ_nonneg cells).
  set (s := region_size c) in *. assert (4 <= s /\ lenZ c <= s /\ s = Z.max 4 (lenZ c)) as (? & ? & Hs)
    by (unfold s, region_size; lia).
  assert (lenZ (sub buf p s) = s) as Hx by (apply lenZ_sub; lia).
  set (buf1 := splice buf _ _). assert (lenZ buf1 = lenZ buf) as Hl1 by (apply lenZ_splice; lia).
  pose proof (be_split_lenZ 2 new). pose proof (lookup_lt_Some _ _ _ Hc) as Hi.
  assert (2 * Z.of_nat i + 2 <= 2 * lenZ cells) by (unfold lenZ; lia).
  split_and!.
  - constructor; [constructor| |].
    + rewrite get8_ne by lia. unfold buf1. rewrite get8_ne by lia. done.
    + rewrite get16_ne by lia. unfold buf1. rewrite get16_ne by lia. unfold lenZ. by rewrite length_insert.
    + intros j q Hq. pose proof (lookup_lt_Some _ _ _ Hq) as Hj. rewrite length_insert in Hj.
      apply list_lookup_insert_Some in Hq as [(<- & <- & _)|[Hne Hq]].
      * apply get16_splice; [lia|lia|]. unfold is_u16. lia.
      * rewrite get16_ne by lia. unfold buf1. rewrite get16_ne by (unfold lenZ in *; lia). by apply ar_ptrs.
    + unfold lenZ in *. by rewrite length_insert.
    + intros j q d Hq Hd. apply list_lookup_insert_Some in Hq as [(<- & <- & _)|[Hne Hq]].
      * injection (eq_trans (eq_sym Hc) Hd) as <-. destruct (cs_cells _ _ _ Hp Hc) as [Hsub Hcell].
        split; [|done]. rewrite sub_splice_ne by lia. unfold buf1.
        rewrite sub_splice_in by lia. rewrite Z.sub_diag, sub_sub, Z.add_0_r by lia. done.
      * destruct (cs_cells _ _ _ Hq Hd) as [Hsub Hcell]. split; [|done].
        destruct (Hoth j q d ltac:(congruence) Hq Hd) as [? Hor]. unfold region_size in Hor.
        rewrite sub_splice_ne by lia. unfold buf1. rewrite sub_splice_ne by lia. done.
  - apply (outer_trans _ _ _ _ buf1); apply (outer_splice _ _ _ Hdims); lia.
  - apply splice_ok; [apply splice_ok; [done|by apply sub_ok]|apply be_split_ok].
Qed.

(** ** The slow path *)

Lemma regions_insert ptrs cells (i : nat) p c new :
  ptrs !! i = Some p -> cells !! i = Some c ->
  regions (<[i := new]> ptrs) cells = <[i := (new, region_size c)]> (regions ptrs cells).
Proof.
  revert i cells. induction ptrs as [|q ptrs IH]; intros [|i] [|d cells]; cbn; try done.
  - by intros _ [= ->].
  - intros Hp Hc. f_equal. by apply IH.
Qed.

Lemma insert_perm {A} (l : list A) (i : nat) x y :
  l !! i = Some x -> <[i := y]> l ≡ₚ y :: delete i l.
Proof.
  intros Hi%lookup_lt_Some. rewrite insert_take_drop, delete_take_drop by done.
  symmetry. apply Permutation_middle.
Qed.

Lemma elem_delete {A} (l : list A) (i j : nat) x : j <> i -> l !! j = Some x -> x ∈ delete i l.
Proof.
  intros Hne Hj. apply list_elem_of_lookup. destruct (Nat.lt_ge_cases j i).
  - exists j. by rewrite list_lookup_delete_lt.
  - exists (pred j). rewrite list_lookup_delete_ge by lia. by replace (S (pred j)) with j by lia.
Qed.

(** The cells packed so far fill [[cbrk, usable)]. *)
Record packed (cbrk : Z) (l : list block) : Prop := mkPacked {
  pk_within : Forall (within cbrk usable) l;
  pk_disj : disj l;
  pk_sum : sizes l = usable - cbrk
}.

Lemma packed_cons cbrk l s : packed cbrk l -> 0 <= s -> cbrk <= usable ->
  packed (cbrk - s) ((cbrk - s, s) :: l).
Proof.
  intros [] Hs Hc. constructor.
  - apply Forall_cons. split; [unfold within, bend; cbn; lia|].
    eapply Forall_impl; [done|]. unfold within. intros. lia.
  - cbn. split; [|done]. eapply Forall_impl; [done|]. unfold within, apart, bend. cbn. intros. lia.
  - rewrite sizes_cons. cbn. lia.
Qed.

(** The gathered cells that are still to be packed. *)
Record unpacked (ptrs : list Z) (cells : list bytes) (cbrk : Z) (rest : list CellInfo)
    (l : list block) : Prop := mkUnpacked {
  up_perm : regions ptrs cells ≡ₚ map blk rest ++ l;
  up_desc : descends cbrk rest;
  up_low : Forall (fun c => lo cells <= old_offset c /\ 4 <= ci_size c) rest;
  up_index : forall c, c ∈ rest -> exists i : nat, pointer_index c = Z.of_nat i /\
               regions ptrs cells !! i = Some (blk c);
  up_nodup : NoDup (pointer_index <$> rest)
}.

Lemma descends_below hi l :
  descends hi l -> Forall (fun c => 0 <= ci_size c) l ->
  Forall (fun c => old_offset c + ci_size c <= hi) l.
Proof.
  revert hi. induction l as [|c l IH]; intros hi; [done|]. cbn. intros [Hc Hd] [Hs Hf]%Forall_cons.
  apply Forall_cons. split; [done|]. eapply Forall_impl; [by apply (IH (old_offset c))|].
  cbn. intros. lia.
Qed.

(** One step of the packing. *)
Lemma unpacked_step buf ptrs cells cbrk c rest l :
  at_ buf ptrs cells -> usable <= lenZ buf -> bytes_ok buf -> packed cbrk l -> cbrk <= usable ->
  unpacked ptrs cells cbrk (c :: rest) l ->
  let new := cbrk - ci_size c in
  exists i : nat, pointer_index c = Z.of_nat i /\
    lo cells <= old_offset c <= new /\ old_offset c + ci_size c <= usable /\ (i < length cells)%nat /\
    let buf1 := splice buf new (sub buf (old_offset c) (ci_size c)) in
    let buf2 := splice buf1 (arr + 2 * Z.of_nat i) (be_split 2 new) in
    at_ buf2 (<[i := new]> ptrs) cells /\ outer base usable t buf buf2 /\ bytes_ok buf2 /\
    packed new ((new, ci_size c) :: l) /\
    unpacked (<[i := new]> ptrs) cells new rest ((new, ci_size c) :: l).
Proof.
  intros HC Hlen Hb HP Hcb [] new. destruct (up_index0 c) as (i & Hidx & Hreg); [by left|].
  exists i. split; [done|]. apply lookup_zip_with_Some in Hreg as Hreg'.
  destruct Hreg' as (p & d & Hblk & Hp & Hd). unfold blk in Hblk. injection Hblk as Ep Es. subst p.
  destruct up_desc0 as [Hce Hde]. apply Forall_cons in up_low0 as [[Hlc Hc4] Hlow].
  apply NoDup_cons in up_nodup0 as [Hni Hnd]. pose proof (lookup_lt_Some _ _ _ Hd) as Hi.
  assert (delete i (regions ptrs cells) ≡ₚ map blk rest ++ l) as Hdel.
  { apply (Permutation_cons_inv (a := blk c)). rewrite <- (delete_Permutation _ _ _ Hreg). done. }
  assert (Forall (fun b : block => lo cells <= b.1 /\ (bend b <= new \/ cbrk <= b.1)) (map blk rest ++ l)) as Hrest.
  { apply Forall_app. split.
    - apply Forall_fmap.
      assert (Forall (fun c => 0 <= ci_size c) rest) as H0 by (eapply Forall_impl; [exact Hlow|]; cbn; lia).
      pose proof (descends_below _ _ Hde H0) as Hbel. rewrite Forall_forall in *.
      intros x Hx. destruct (Hlow x Hx). specialize (Hbel x Hx). cbn in Hbel |- *. unfold bend, new. cbn. lia.
    - destruct HP. eapply Forall_impl; [done|]. unfold within. cbn. intros. lia. }
  assert (old_offset c <= new) as Hmv by (unfold new; lia).
  destruct (move_cell buf ptrs cells i _ d new HC Hp Hd Hlen Hb) as (HC2 & Ho2 & Hb2);
    rewrite <- ?Es; try lia.
  { intros j q e Hne Hq He. pose proof (regions_lookup _ _ _ _ _ Hq He) as Hj.
    rewrite <- Hdel, Forall_forall in Hrest. destruct (Hrest _ (elem_delete _ _ _ _ Hne Hj)) as [? Hor].
    unfold bend in Hor. cbn in Hor. split; [done|]. unfold new in *. lia. }
  cbn zeta in HC2, Ho2, Hb2 |- *. rewrite <- Es in HC2, Ho2, Hb2.
  split; [lia|]. split; [lia|]. split; [done|]. split; [done|]. split; [done|]. split; [done|].
  split; [by apply packed_cons; [|lia|]|]. constructor.
  - rewrite (regions_insert _ _ _ _ _ _ Hp Hd), <- Es, (insert_perm _ _ _ _ Hreg), Hdel.
    apply Permutation_middle.
  - destruct rest; cbn in *; [done|]. destruct Hde. split; [lia|done].
  - done.
  - intros x Hx. destruct (up_index0 x) as (j & Hj & Hrj); [by right|]. exists j. split; [done|].
    rewrite (regions_insert _ _ _ _ _ _ Hp Hd), list_lookup_insert_ne; [done|]. intros <-.
    apply Hni. apply list_elem_of_fmap. exists x. split; [congruence|done].
  - done.
Qed.

Lemma pack_cells_ok rest : forall buf ptrs cells cbrk l,
  at_ buf ptrs cells -> usable <= lenZ buf -> bytes_ok buf -> packed cbrk l ->
  lo cells <= cbrk <= usable -> unpacked ptrs cells cbrk rest l ->
  exists buf' cbrk' ptrs', pack_cells usable rest buf arr (lo cells) cbrk = Ok (buf', cbrk') /\
    at_ buf' ptrs' cells /\ outer base usable t buf buf' /\ bytes_ok buf' /\
    packed cbrk' (regions ptrs' cells) /\ lo cells <= cbrk' <= usable.
Proof.
  induction rest as [|c rest IH]; intros buf ptrs cells cbrk l HC Hlen Hb HP Hlo HU.
  - exists buf, cbrk, ptrs. destruct HU. cbn in up_perm0. split_and!; try (done || lia || apply outer_refl).
    destruct HP. constructor.
    + by rewrite up_perm0.
    + by eapply disj_perm.
    + by rewrite (sizes_perm _ _ up_perm0).
  - destruct (unpacked_step _ _ _ _ _ _ _ HC Hlen Hb HP ltac:(lia) HU)
      as (i & Hidx & Hold & Hend & Hi & HC2 & Ho2 & Hb2 & HP2 & HU2).
    cbn zeta in *. destruct Hdims. pose proof (arr_range base t). pose proof (lenZ_nonneg cells). unfold lo_of in *.
    pose proof (up_low _ _ _ _ _ HU) as [[_ Hc4] _]%Forall_cons. set (new := cbrk - ci_size c) in *.
    cbn [pack_cells]. unfold checked_sub. replace (ci_size c <=? cbrk) with true by lia. cbn [mbind Result_bind]. fold new. pass.
    assert ((if negb (new =? old_offset c) then copy_within buf (old_offset c) (old_offset c + ci_size c) new
      else Ok buf) = Ok (splice buf new (sub buf (old_offset c) (ci_size c)))) as ->.
    { destruct (Z.eqb_spec new (old_offset c)) as [E|E]; cbn [negb].
      - rewrite E, splice_same; [done|lia|rewrite lenZ_sub; lia|by rewrite lenZ_sub by lia].
      - rewrite copy_within_ok by lia. do 3 f_equal. lia. }
    cbn [mbind Result_bind]. unfold PageSize_MAX. pass. rewrite Hidx, (Z.mul_comm (Z.of_nat i) 2).
    assert (lenZ (sub buf (old_offset c) (ci_size c)) = ci_size c) by (apply lenZ_sub; lia).
    rewrite write_u16_no_offset_ok by (rewrite ?lenZ_splice; unfold lenZ in *; lia).
    cbn [mbind Result_bind]. replace (u16 new) with new by (unfold u16; rewrite Z.mod_small; lia).
    destruct (IH _ _ _ new ((new, ci_size c) :: l) HC2) as (buf' & cbrk' & ptrs' & Hpk & HC' & Ho' & Hb' & HP' & Hlo');
      [rewrite (o_len _ _ _ _ _ Ho2); lia|done|exact HP2|unfold lo_of; lia|exact HU2|].
    exists buf', cbrk', ptrs'. split_and!; try (done || lia). by eapply outer_trans.
Qed.

(** A page whose cells fill the content area. *)
Lemma packed_page buf ptrs cells ca :
  at_ buf ptrs cells -> packed ca (regions ptrs cells) -> lo cells <= ca <= usable ->
  usable <= lenZ buf -> bytes_ok buf ->
  let buf' := reset_header base buf ca in
  wf buf' ca [] ptrs cells /\ outer base usable t buf buf' /\ get8 buf' (base + 7) = 0.
Proof.
  intros HC HP Hlo Hlen Hb. pose proof (arr_range base t). destruct Hdims.
  destruct (reset_header_fields base usable t Hdims buf ca Hlen Hb)
    as (Hb2 & Ho2 & Hca2 & Hf2 & Hg2 & Ht2 & Hn2 & Hs2). cbn zeta.
  pose proof HC as [[] ? ?]. destruct HP. rewrite Forall_forall in pk_within0.
  split_and!; [|done|done]. constructor.
  - constructor; [constructor|done|].
    + congruence.
    + congruence.
    + intros i p Hp. unfold get16. rewrite Hs2 by lia. by apply ar_ptrs.
    + intros i p c Hp Hc. rewrite Hs2; [by eapply cs_cells|].
      pose proof (pk_within0 _ (regions_elem _ _ _ _ _ Hp Hc)) as [? _]. cbn in *.
      unfold lo_of in *. pose proof (lenZ_nonneg cells). lia.
  - constructor; try done.
    + by rewrite (o_len _ _ _ _ _ Ho2).
    + unfold lo_of in *. pose proof (lenZ_nonneg cells). lia.
    + apply Forall_forall. intros b Hin. split; [by apply pk_within0|].
      apply list_elem_of_lookup in Hin as [i Hi]. apply lookup_zip_with_Some in Hi as (? & ? & -> & _).
      cbn. unfold region_size. lia.
    + by rewrite app_nil_r.
    + rewrite Hg2. cbn. lia.
Qed.

(** A page with the same cells and no free block, with at most [frag]
    fragmented bytes. *)
Definition defragged (buf : bytes) (cells : list bytes) (frag : Z) (r : Result bytes) : Prop :=
  exists buf' ca' ptrs', r = Ok buf' /\ wf buf' ca' [] ptrs' cells /\
    outer base usable t buf buf' /\ get8 buf' (base + 7) <= frag.

Lemma defragged_mono buf cells frag frag' r :
  defragged buf cells frag r -> frag <= frag' -> defragged buf cells frag' r.
Proof. intros (b & c & ps & ? & ? & ? & ?) ?. exists b, c, ps. split_and!; (done || lia). Qed.

Lemma defragment_slow_ok buf ca fbs ptrs cells :
  but buf ca fbs ptrs cells -> defragged buf cells 0 (defragment_slow base usable buf (lenZ cells)).
Proof.
  intros HW. pose proof HW as [HC HS]. pose proof HC as [HA ? ?]. pose proof HS as []. destruct Hdims.
  pose proof (arr_range base t). unfold lo_of in sb_lo. unfold defragment_slow.
  pose proof (lenZ_nonneg cells).
  rewrite (array_ok _ _ _ Hdims _ _ HA), (page_type_ok _ _ _ Hdims _ _ HA) by lia.
  cbn [mbind Result_bind]. replace (Z.to_nat (lenZ cells)) with (length cells) by (unfold lenZ; lia).
  rewrite (gather_cells_ok _ _ _ _ _ (length cells) 0 _ _ HW) by lia. cbn [mbind Result_bind].
  rewrite drop_0. cbn [andb]. change (Z.of_nat 0) with 0. set (rs := regions ptrs cells) in *.
  set (cs := if noninc 65535 rs then infos 0 rs else sort_desc (infos 0 rs)).
  assert (cs ≡ₚ infos 0 rs) as Hperm by (unfold cs; case_match; [done|apply sort_desc_perm]).
  assert (Sorted desc_order cs) as Hsort.
  { unfold cs. destruct (noninc 65535 rs) eqn:E; [by eapply noninc_sorted|apply sort_desc_sorted]. }
  assert (map blk cs ≡ₚ rs) as Hblk by (rewrite Hperm; by rewrite infos_blk).
  assert (Forall (fun c => within ca usable (blk c) /\ 4 <= ci_size c) cs) as Hin.
  { rewrite <- Hblk, Forall_fmap in sb_used. eapply Forall_impl; [exact sb_used|]. cbn. tauto. }
  assert (descends usable cs) as Hdesc.
  { apply sorted_descends; [done| |eapply Forall_impl; [exact Hin|]; tauto|].
    - apply disj_app in sb_disj as [Hd _]. by eapply disj_perm.
    - destruct cs as [|c cs']; [done|]. apply Forall_cons in Hin as [[(_ & _ & Hc) _] _]. done. }
  rewrite (descends_ok usable); [|done|eapply Forall_impl; [exact Hin|]; unfold within, lo_of in *; cbn; lia].
  cbn [mbind Result_bind]. unfold process_cells.
  rewrite (array_ok _ _ _ Hdims _ _ HA), (unallocated_start_ok _ _ _ Hdims _ _ HA) by lia.
  cbn [mbind Result_bind]. rewrite cs_len.
  destruct (pack_cells_ok cs buf ptrs cells usable []) as (buf1 & ca1 & ptrs1 & Hpk & HC1 & Ho1 & Hb1 & HP1 & Hlo1);
    try done.
  - by constructor; cbn; [|done|lia].
  - unfold lo_of. lia.
  - constructor; try done.
    + rewrite app_nil_r. by symmetry.
    + eapply Forall_impl; [exact Hin|]. unfold within, lo_of. cbn. lia.
    + intros c Hc. rewrite Hperm in Hc. apply (infos_index 0) in Hc as (j & ? & _ & Hj).
      rewrite Nat.sub_0_r in Hj. eauto.
    + rewrite Hperm. apply (infos_nodup 0).
  - unfold lo_of in Hpk. rewrite Hpk. cbn [mbind Result_bind]. pose proof (o_len _ _ _ _ _ Ho1) as Hl1.
    rewrite (reset_header_ok base usable) by (done || lia).
    destruct (packed_page _ _ _ _ HC1 HP1 Hlo1 ltac:(lia) Hb1) as (HW2 & Ho2 & Hg2).
    eexists _, _, _. split_and!; [done|exact HW2|by eapply outer_trans|lia].
Qed.

(** ** The fast path *)

(** Where the fast path moves the cell at offset [p]. *)
Definition shifted (first second total second_size p : Z) : Z :=
  if p <? first then p + total
  else if (0 <? second) && (p <? second) then p + second_size else p.

Lemma shift_cell_ptrs_ok first second total second_size k : forall (i : nat) buf ptrs,
  usable <= lenZ buf -> bytes_ok buf -> (i + k)%nat = length ptrs -> base + 8 <= arr ->
  arr + 2 * lenZ ptrs <= usable -> 0 <= total -> 0 <= second_size ->
  (forall (j : nat) p, ptrs !! j = Some p -> (i <= j)%nat -> get16 buf (arr + 2 * Z.of_nat j) = p /\
     shifted first second total second_size p < usable) ->
  exists buf', shift_cell_ptrs usable k buf (arr + 2 * Z.of_nat i) first second total second_size = Ok buf' /\
    lenZ buf' = lenZ buf /\ bytes_ok buf' /\
    (forall a n, 0 <= a -> a + n <= arr + 2 * Z.of_nat i \/ arr + 2 * lenZ ptrs <= a -> sub buf' a n = sub buf a n) /\
    (forall (j : nat) p, ptrs !! j = Some p -> (i <= j)%nat ->
       get16 buf' (arr + 2 * Z.of_nat j) = shifted first second total second_size p).
Proof.
  induction k as [|k IH]; intros i buf ptrs Hlen Hb Hik Harr Hlo Ht Hs2 Hptrs; destruct Hdims.
  - exists buf. split_and!; try done. intros j p Hj Hij. apply lookup_lt_Some in Hj. lia.
  - destruct (lookup_lt_is_Some_2 ptrs i ltac:(lia)) as [p Hp].
    destruct (Hptrs i p Hp ltac:(lia)) as [Hget Hlt]. set (sh := shifted first second total second_size) in *.
    assert (is_u16 p) as Hp16 by (rewrite <- Hget; apply get16_u16; [done|lia|unfold lenZ in *; lia]).
    unfold is_u16 in Hp16. unfold lenZ in Hlo.
    set (buf1 := splice buf (arr + 2 * Z.of_nat i) (be_split 2 (sh p))).
    pose proof (be_split_lenZ 2 (sh p)) as Hl2.
    assert (0 <= sh p) by (unfold sh, shifted; repeat case_match; lia).
    assert (lenZ buf1 = lenZ buf) as Hl1 by (apply lenZ_splice; lia).
    destruct (IH (S i) buf1 ptrs) as (buf' & Hrun & Hl' & Hb' & Hsame & Hnew); try done; try lia.
    { apply splice_ok; [done|apply be_split_ok]. }
    { intros j q Hq Hij. destruct (Hptrs j q Hq ltac:(lia)) as [Hgq ?]. split; [|done].
      unfold buf1. rewrite get16_ne by lia. done. }
    exists buf'. split_and!.
    + cbn [shift_cell_ptrs]. rewrite read_u16_no_offset_ok, Hget by (unfold lenZ in *; lia). cbn [mbind Result_bind].
      replace (arr + 2 * Z.of_nat (S i)) with (arr + 2 * Z.of_nat i + CELL_PTR_SIZE_BYTES) in Hrun
        by (unfold CELL_PTR_SIZE_BYTES; lia).
      rewrite <- Hrun. unfold buf1, sh, shifted in *.
      destruct (p <? first); [|destruct ((0 <? second) && (p <? second))].
      1, 2: pass; rewrite write_u16_no_offset_ok by (unfold lenZ in *; lia);
        unfold u16; rewrite Z.mod_small by lia; done.
      rewrite splice_get16; [done|done|lia|unfold lenZ in *; lia|done].
    + lia.
    + done.
    + intros a n Ha Hor. rewrite Hsame by lia. apply sub_splice_ne; unfold lenZ in *; lia.
    + intros j q Hq Hij. destruct (decide (j = i)) as [->|].
      * rewrite Hp in Hq. injection Hq as <-. unfold get16. rewrite Hsame by lia.
        fold (get16 buf1 (arr + 2 * Z.of_nat i)). apply get16_splice; [lia|lia|]. unfold is_u16. lia.
      * apply Hnew; [done|lia].
Qed.

Lemma disj_map (f : block -> block) (P : block -> Prop) l :
  (forall x y, P x -> P y -> apart x y -> apart (f x) (f y)) -> Forall P l -> disj l -> disj (map f l).
Proof.
  intros Hf. induction l as [|x l IH]; [done|]. cbn. intros [Hx Hl]%Forall_cons [Ha Hd]. split; [|by apply IH].
  apply Forall_fmap. rewrite Forall_forall in *. intros y Hy. apply Hf; auto.
Qed.

(** The one or two free blocks of the fast path: the second is [(0, 0)] when
    there is only one. *)
Record fast_blocks (ca : Z) (fbs : list block) (b1 b2 : block) : Prop := mkFast {
  fa_list : (fbs = [b1] /\ b2 = (0, 0)) \/ (fbs = [b1; b2] /\ 0 < b2.1);
  fa_first : ca <= b1.1 /\ 4 <= b1.2 /\ bend b1 <= usable;
  fa_second : b2.1 = 0 \/ (bend b1 + 4 <= b2.1 /\ 4 <= b2.2 /\ bend b2 <= usable)
}.

(** A region that is not in the free blocks. *)
Definition clear_of (ca : Z) (b1 b2 b : block) : Prop :=
  within ca usable b /\ 4 <= b.2 /\ apart b b1 /\ (0 < b2.1 -> apart b b2).

Definition move_block (b1 b2 b : block) : block :=
  (shifted b1.1 b2.1 (b1.2 + b2.2) b2.2 b.1, b.2).

Lemma move_block_apart ca fbs b1 b2 x y :
  fast_blocks ca fbs b1 b2 -> clear_of ca b1 b2 x -> clear_of ca b1 b2 y -> apart x y ->
  apart (move_block b1 b2 x) (move_block b1 b2 y).
Proof.
  intros [Hl H1 H2] (Hx & Hx4 & Hx1 & Hx2) (Hy & Hy4 & Hy1 & Hy2) Ha.
  assert (b2 = (0, 0) \/ 0 < b2.1) as Hb2 by (destruct Hl as [[_ ->]|[_ ?]]; auto).
  unfold move_block, shifted, apart, within, bend in *. cbn.
  destruct Hb2 as [->|Hpos]; cbn in *.
  - repeat case_match; bool_facts; lia.
  - specialize (Hx2 Hpos). specialize (Hy2 Hpos). rewrite (proj2 (Z.ltb_lt _ _) Hpos). cbn.
    repeat case_match; bool_facts; lia.
Qed.

Lemma move_block_within ca fbs b1 b2 x :
  fast_blocks ca fbs b1 b2 -> clear_of ca b1 b2 x ->
  within (ca + (b1.2 + b2.2)) usable (move_block b1 b2 x).
Proof.
  intros [Hl H1 H2] (Hx & Hx4 & Hx1 & Hx2).
  assert (b2 = (0, 0) \/ 0 < b2.1) as Hb2 by (destruct Hl as [[_ ->]|[_ ?]]; auto).
  unfold move_block, shifted, apart, within, bend in *. cbn.
  destruct Hb2 as [->|Hpos]; cbn in *.
  - repeat case_match; bool_facts; lia.
  - specialize (Hx2 Hpos). rewrite (proj2 (Z.ltb_lt _ _) Hpos). cbn.
    repeat case_match; bool_facts; lia.
Qed.

(** The two moves of the fast path. *)
Definition fast_first (buf : bytes) (b1 b2 : block) : bytes :=
  if 0 <? b2.1
  then splice buf (b1.1 + (b1.2 + b2.2)) (sub buf (bend b1) (b2.1 - bend b1)) else buf.
Definition fast_second (buf : bytes) (ca : Z) (b1 b2 : block) : bytes :=
  splice buf (ca + (b1.2 + b2.2)) (sub buf ca (b1.1 - ca)).

Lemma fast_moves buf ca fbs b1 b2 :
  fast_blocks ca fbs b1 b2 -> usable <= lenZ buf -> bytes_ok buf -> base + 8 <= ca ->
  let buf1 := fast_first buf b1 b2 in
  let buf2 := fast_second buf1 ca b1 b2 in
  lenZ buf1 = lenZ buf /\ lenZ buf2 = lenZ buf /\ bytes_ok buf2 /\
  (forall a n, 0 <= a -> a + n <= ca \/ usable <= a -> sub buf2 a n = sub buf a n) /\
  (forall b n, clear_of ca b1 b2 b -> n <= b.2 ->
     sub buf2 (shifted b1.1 b2.1 (b1.2 + b2.2) b2.2 b.1) n = sub buf b.1 n).
Proof.
  intros [Hl H1 H2] Hlen Hb Hca. destruct Hdims. cbn zeta.
  assert (b2 = (0, 0) \/ 0 < b2.1) as Hb2 by (destruct Hl as [[_ ->]|[_ ?]]; auto).
  unfold bend in *. set (buf1 := fast_first buf b1 b2).
  assert (lenZ buf1 = lenZ buf /\ bytes_ok buf1) as [Hl1 Hb1].
  { unfold buf1, fast_first, bend. destruct (Z.ltb_spec 0 b2.1); [|done].
    rewrite lenZ_splice by (rewrite ?lenZ_sub; lia). split; [done|].
    apply splice_ok; [done|by apply sub_ok]. }
  assert (forall a n, 0 <= a -> a + n <= b1.1 + (b1.2 + b2.2) \/ usable <= a \/ (0 < b2.1 /\ bend b2 <= a) \/ b2.1 = 0 ->
    sub buf1 a n = sub buf a n) as Hout1.
  { intros a n Ha Hor. unfold buf1, fast_first, bend in *. destruct (Z.ltb_spec 0 b2.1); [|done].
    apply sub_splice_ne; rewrite ?lenZ_sub; lia. }
  assert (lenZ (sub buf1 ca (b1.1 - ca)) = b1.1 - ca) as Hx by (apply lenZ_sub; lia).
  assert (b1.1 + (b1.2 + b2.2) <= usable) as Htot by (destruct Hb2 as [->|?]; cbn in *; lia).
  assert (0 <= b2.2) as H02 by (destruct Hb2 as [->|?]; cbn in *; lia).
  unfold fast_second. split_and!.
  - done.
  - rewrite lenZ_splice; lia.
  - apply splice_ok; [done|by apply sub_ok].
  - intros a n Ha Hor. rewrite sub_splice_ne by lia. apply Hout1; lia.
  - intros b n (Hw & H4 & Ha1 & Ha2) Hn. unfold within, apart, bend in *. unfold shifted.
    destruct (Z.ltb_spec b.1 b1.1).
    + rewrite sub_splice_in by lia. rewrite sub_sub by lia.
      replace (ca + (b.1 + (b1.2 + b2.2) - (ca + (b1.2 + b2.2)))) with b.1 by lia. apply Hout1; lia.
    + destruct (Z.ltb_spec 0 b2.1) as [Hpos|]; cbn.
      * specialize (Ha2 Hpos). destruct (Z.ltb_spec b.1 b2.1).
        -- rewrite sub_splice_ne by lia. unfold buf1, fast_first, bend. rewrite (proj2 (Z.ltb_lt _ _) Hpos).
           rewrite sub_splice_in by (rewrite ?lenZ_sub; lia). rewrite sub_sub by lia. f_equal. lia.
        -- rewrite sub_splice_ne by lia. apply Hout1; lia.
      * destruct Hb2 as [->|?]; [|lia]. cbn in *. rewrite sub_splice_ne by lia. apply Hout1; lia.
Qed.

Lemma fast_blocks_intro buf ca ptrs cells fbs b1 b2 :
  wf buf ca fbs ptrs cells -> (fbs = [b1] /\ b2 = (0, 0)) \/ (fbs = [b1; b2] /\ 0 < b2.1) ->
  fast_blocks ca fbs b1 b2 /\ Forall (clear_of ca b1 b2) (regions ptrs cells).
Proof.
  intros [HC []] Hl. split.
  - constructor; [done|..]; destruct Hl as [[-> ->]|[-> ?]]; cbn in so_asc; (by left) || (try right); tauto.
  - apply disj_app in so_disj as (_ & _ & Hd). rewrite Forall_forall in *. intros b Hb.
    specialize (so_used b Hb). specialize (Hd b Hb). unfold clear_of.
    destruct Hl as [[-> ->]|[-> ?]].
    + apply Forall_cons in Hd as [? _]. cbn. split_and!; (tauto || lia).
    + apply Forall_cons in Hd as [? [? _]%Forall_cons]. tauto.
Qed.

Lemma regions_move b1 b2 ptrs cells :
  regions (shifted b1.1 b2.1 (b1.2 + b2.2) b2.2 <$> ptrs) cells = map (move_block b1 b2) (regions ptrs cells).
Proof. revert cells. induction ptrs; intros [|]; cbn; try done. f_equal. auto. Qed.

Lemma sizes_move b1 b2 l : sizes (map (move_block b1 b2) l) = sizes l.
Proof. unfold sizes. induction l as [|x l IH]; [done|]. cbn in *. by rewrite IH. Qed.

Lemma fa_sizes ca fbs b1 b2 : fast_blocks ca fbs b1 b2 -> sizes fbs = b1.2 + b2.2.
Proof. intros [[[-> ->]|[-> _]] _ _]; cbn; lia. Qed.

(** The page after the fast path, before its header is written. *)
Lemma fast_page buf buf3 ca fbs ptrs cells b1 b2 :
  wf buf ca fbs ptrs cells -> fast_blocks ca fbs b1 b2 -> Forall (clear_of ca b1 b2) (regions ptrs cells) ->
  lenZ buf3 = lenZ buf -> bytes_ok buf3 ->
  (forall a n, 0 <= a -> a + n <= arr \/ usable <= a -> sub buf3 a n = sub buf a n) ->
  (forall (j : nat) p, ptrs !! j = Some p ->
     get16 buf3 (arr + 2 * Z.of_nat j) = shifted b1.1 b2.1 (b1.2 + b2.2) b2.2 p) ->
  (forall b n, clear_of ca b1 b2 b -> n <= b.2 ->
     sub buf3 (shifted b1.1 b2.1 (b1.2 + b2.2) b2.2 b.1) n = sub buf b.1 n) ->
  let ca' := ca + (b1.2 + b2.2) in
  let buf' := splice (splice buf3 (base + 5) (be_split 2 (u16 ca'))) (base + 1) (be_split 2 0) in
  wf buf' ca' [] (shifted b1.1 b2.1 (b1.2 + b2.2) b2.2 <$> ptrs) cells /\
  outer base usable t buf buf' /\ get8 buf' (base + 7) = get8 buf (base + 7).
Proof.
  intros HW HF Hcl Hl3 Hb3 Hout Hptr Hmv. pose proof HW as [HC HS]. pose proof HC as [[] ? ?].
  pose proof HS as []. destruct Hdims. pose proof (arr_range base t). cbn zeta.
  unfold lo_of in so_lo. pose proof (lenZ_nonneg cells).
  set (ca' := ca + (b1.2 + b2.2)). pose proof HF as [_ H1f H2f]. unfold bend in *.
  assert (ca <= ca' <= usable) as Hca'.
  { pose proof HF as [Hl _ _]. unfold ca'. destruct Hl as [[_ ->]|[_ ?]]; cbn in *; lia. }
  pose proof (be_split_lenZ 2 (u16 ca')). pose proof (be_split_lenZ 2 0).
  set (buf4 := splice buf3 _ _). assert (lenZ buf4 = lenZ buf) as Hl4 by (unfold buf4; rewrite lenZ_splice; lia).
  set (buf5 := splice buf4 _ _).
  assert (forall a n, base + 8 <= a -> sub buf5 a n = sub buf3 a n) as Hup.
  { intros a n Ha. unfold buf5. rewrite sub_splice_ne by lia. apply sub_splice_ne; lia. }
  assert (lenZ buf5 = lenZ buf) as Hl5 by (unfold buf5; rewrite lenZ_splice; lia).
  rewrite Forall_forall in Hcl. split_and!.
  - constructor; [constructor; [constructor| |]|].
    + unfold buf5. rewrite get8_ne by lia. unfold buf4. rewrite get8_ne by lia. unfold get8.
      rewrite Hout by lia. done.
    + unfold buf5. rewrite get16_ne by lia. unfold buf4. rewrite get16_ne by lia. unfold get16.
      rewrite Hout by lia. fold (get16 buf (base + 3)). unfold lenZ in *. by rewrite length_fmap.
    + intros i p Hp. apply list_lookup_fmap_Some in Hp as (q & -> & Hq). unfold get16. rewrite Hup by lia.
      by apply Hptr.
    + unfold lenZ in *. by rewrite length_fmap.
    + intros i p c Hp Hc. apply list_lookup_fmap_Some in Hp as (q & -> & Hq).
      destruct (cs_cells _ _ _ Hq Hc) as [Hsub Hcell]. split; [|done].
      pose proof (Hcl _ (regions_elem _ _ _ _ _ Hq Hc)) as Hclr.
      pose proof (move_block_within _ _ _ _ _ HF Hclr) as [? _]. cbn in *.
      rewrite Hup by (unfold ca' in *; lia). rewrite (Hmv (q, region_size c)); [done|done|].
      unfold region_size. cbn. lia.
    + constructor; try done.
      * lia.
      * apply splice_ok; [apply splice_ok; [done|apply be_split_ok]|apply be_split_ok].
      * unfold lo_of. lia.
      * unfold buf5. rewrite get16_ne by lia. apply get16_splice; [lia|lia|].
        unfold is_u16, u16. by apply Z.mod_pos_bound.
      * unfold buf5. cbn. apply get16_splice; (done || lia).
      * rewrite regions_move. apply Forall_fmap, Forall_forall. intros b Hb.
        pose proof (Hcl b Hb) as Hclr. split; [by eapply move_block_within|]. by destruct Hclr as (_ & ? & _).
      * rewrite app_nil_r, regions_move. apply disj_app in so_disj as [Hd _].
        eapply disj_map; [|apply Forall_forall; exact Hcl|done]. intros. by eapply move_block_apart.
      * rewrite regions_move, sizes_move. unfold buf5. rewrite get8_ne by lia. unfold buf4. rewrite get8_ne by lia.
        unfold get8. rewrite Hout by lia. fold (get8 buf (base + 7)).
        pose proof (fa_sizes _ _ _ _ HF). unfold ca'. change (sizes []) with 0. lia.
  - constructor; [lia|..]; intros a n; intros.
    + unfold buf5. rewrite sub_splice_ne by lia. unfold buf4. rewrite sub_splice_ne by lia. apply Hout; lia.
    + rewrite Hup by lia. apply Hout; lia.
    + rewrite Hup by lia. apply Hout; lia.
  - unfold buf5. rewrite get8_ne by lia. unfold buf4. rewrite get8_ne by lia. unfold get8. by rewrite Hout by lia.
Qed.

Lemma fast_copies_ok buf ca fbs ptrs cells b1 b2 :
  wf buf ca fbs ptrs cells -> fast_blocks ca fbs b1 b2 ->
  ((if 0 <? b2.1 then
      _ ← or_corrupt (b1.1 + b1.2 <=? b2.1);
      _ ← or_corrupt (b2.1 + b2.2 <=? usable);
      copy_within buf (b1.1 + b1.2) b2.1 (b1.1 + (b1.2 + b2.2))
    else _ ← or_corrupt (b1.1 + b1.2 <=? usable); Ok buf) = Ok (fast_first buf b1 b2)) /\
  copy_within (fast_first buf b1 b2) ca b1.1 (ca + (b1.2 + b2.2)) = Ok (fast_second (fast_first buf b1 b2) ca b1 b2) /\
  b1.1 + (b1.2 + b2.2) <= usable /\ 0 <= b2.2.
Proof.
  intros [HC []] HF. pose proof HF as [Hl H1 H2]. unfold bend in *. destruct Hdims. pose proof (arr_range base t).
  unfold lo_of in so_lo. pose proof (lenZ_nonneg cells).
  assert (b2 = (0, 0) \/ 0 < b2.1) as Hb2 by (destruct Hl as [[_ ->]|[_ ?]]; auto).
  assert (b1.1 + (b1.2 + b2.2) <= usable /\ 0 <= b2.2) as [Htot H02] by (destruct Hb2 as [->|?]; cbn in *; lia).
  split_and!; [| |done|done].
  - unfold fast_first, bend. destruct (Z.ltb_spec 0 b2.1); repeat pass; [|done]. rewrite copy_within_ok by lia. done.
  - destruct (fast_moves buf ca fbs b1 b2) as (? & _); [done|done|done|lia|].
    rewrite copy_within_ok by lia. done.
Qed.

Lemma defragment_page_fast_ok buf ca fbs ptrs cells b1 b2 :
  wf buf ca fbs ptrs cells -> (fbs = [b1] /\ b2 = (0, 0)) \/ (fbs = [b1; b2] /\ 0 < b2.1) ->
  defragged buf cells (get8 buf (base + 7)) (defragment_page_fast base usable buf b1.1 b2.1).
Proof.
  intros HW Hl. destruct (fast_blocks_intro _ _ _ _ _ _ _ HW Hl) as [HF Hcl].
  pose proof HW as [HC HS]. pose proof HC as [HA ? ?]. pose proof HS as []. destruct Hdims.
  pose proof (arr_range base t). unfold lo_of in so_lo. pose proof (lenZ_nonneg cells).
  destruct (fast_copies_ok _ _ _ _ _ _ _ HW HF) as (Hc1 & Hc2 & Htot & H02).
  destruct (fast_moves buf ca fbs b1 b2) as (Hl1 & Hl2 & Hb2 & Hout & Hmv); [done|done|done|lia|].
  set (buf2 := fast_second _ _ _ _) in *. pose proof HF as [_ H1f H2f]. unfold bend in *.
  assert (array_at base t buf2 ptrs) as HA2.
  { destruct HA. constructor.
    - unfold get8. rewrite Hout by lia. done.
    - unfold get16. rewrite Hout by lia. done.
    - intros i p Hp. unfold get16. pose proof (lookup_lt_Some _ _ _ Hp). rewrite Hout by (unfold lenZ in *; lia).
      by apply ar_ptrs. }
  destruct (shift_cell_ptrs_ok b1.1 b2.1 (b1.2 + b2.2) b2.2 (length ptrs) 0 buf2 ptrs)
    as (buf3 & Hsh & Hl3 & Hb3 & Hout3 & Hptr); try done; try lia.
  { intros j p Hp _. split; [by apply (ar_ptrs _ _ _ _ HA2)|].
    destruct (lookup_lt_is_Some_2 cells j) as [c Hc]; [apply lookup_lt_Some in Hp; unfold lenZ in *; lia|].
    rewrite Forall_forall in Hcl. pose proof (Hcl _ (regions_elem _ _ _ _ _ Hp Hc)) as Hclr.
    pose proof (move_block_within _ _ _ _ _ HF Hclr) as [_ Hw]. destruct Hclr as (_ & ? & _).
    unfold bend in Hw. cbn in *. lia. }
  destruct (fast_page buf buf3 ca fbs ptrs cells b1 b2) as (HW' & Ho & Hg); try done; try lia.
  { intros a n ? ?. rewrite Hout3 by lia. apply Hout; lia. }
  { intros j p Hp. apply Hptr; [done|lia]. }
  { intros b n Hb Hn. pose proof (move_block_within _ _ _ _ _ HF Hb) as [? _]. cbn in *.
    rewrite Hout3 by lia. by apply Hmv. }
  eexists _, _, _. split_and!; [|exact HW'|exact Ho|lia].
  assert (get16 buf (b1.1 + 2) = b1.2 /\ (if 0 <? b2.1 then read_u16_no_offset buf (b2.1 + 2) else Ok 0) = Ok b2.2)
    as [Hs1 Hs2].
  { destruct Hl as [[-> ->]|[-> Hpos]]; cbn in so_chain; [tauto|]. split; [tauto|].
    rewrite (proj2 (Z.ltb_lt _ _) Hpos), read_u16_no_offset_ok by lia. f_equal. tauto. }
  unfold defragment_page_fast. repeat pass. unfold checked_sub. decide_if true. cbn [mbind Result_bind].
  repeat pass. rewrite (read_u16_no_offset_ok buf (b1.1 + 2)), Hs1 by lia. cbn [mbind Result_bind]. rewrite Hs2.
  cbn [mbind Result_bind]. rewrite (cell_content_area_ok base usable Hdims _ _ _ _ _ HS). cbn [mbind Result_bind].
  rewrite Hc1. cbn [mbind Result_bind]. decide_if true. cbn [mbind Result_bind]. pass.
  replace (ca + (b1.1 - ca)) with b1.1 by lia. rewrite Hc2. cbn [mbind Result_bind]. fold buf2.
  rewrite (cell_count_ok _ _ _ Hdims _ _ HA2), (array_ok _ _ _ Hdims _ _ HA2) by lia. cbn [mbind Result_bind].
  replace (Z.to_nat (lenZ ptrs)) with (length ptrs) by (unfold lenZ; lia).
  replace (arr + 2 * Z.of_nat 0) with arr in Hsh by lia. rewrite Hsh. cbn [mbind Result_bind].
  rewrite (write_ca_ok base usable) by (done || lia). cbn [mbind Result_bind].
  rewrite (write_first_ok base usable); [done|done|]. rewrite lenZ_splice; rewrite ?be_split_lenZ; lia.
Qed.

Lemma defragment_page_ok buf ca fbs ptrs cells mf :
  wf buf ca fbs ptrs cells ->
  defragged buf cells (Z.max 0 mf) (defragment_page base usable buf mf).
Proof.
  intros HW. pose proof HW as [HC HS]. pose proof HC as [HA ? ?]. pose proof HS as []. destruct Hdims.
  pose proof (arr_range base t). unfold lo_of in so_lo. pose proof (lenZ_nonneg cells).
  unfold defragment_page. rewrite (cell_count_ok _ _ _ Hdims _ _ HA), cs_len by lia. cbn [mbind Result_bind].
  destruct (Z.eqb_spec (lenZ cells) 0) as [Hz|_].
  { rewrite (reset_header_ok base usable) by (done || lia).
    destruct (reset_header_fields base usable t Hdims buf usable) as (Hb & Ho & Hca & Hf & Hg & Ht & Hn & _);
      [done..|]. destruct cells; [|unfold lenZ in Hz; cbn in Hz; lia]. destruct HA. eexists _, usable, [].
    split_and!; [done| |done|lia]. apply page_wf_empty; try done; try congruence.
    rewrite (o_len _ _ _ _ _ Ho). done. }
  unfold num_frag_free_bytes, first_freeblock, read_u8, BTREE_FRAGMENTED_BYTES_COUNT, BTREE_FIRST_FREEBLOCK.
  rewrite idx_get8 by lia. cbn [mbind Result_bind].
  assert (forall frag r, defragged buf cells frag r -> frag <= Z.max 0 mf -> defragged buf cells (Z.max 0 mf) r)
    as Hmono by (intros; by eapply defragged_mono).
  assert (defragged buf cells (Z.max 0 mf) (defragment_slow base usable buf (lenZ cells))) as Hslow
    by (eapply Hmono; [by eapply defragment_slow_ok, page_wf_but|lia]).
  destruct (Z.leb_spec (get8 buf (base + 7)) mf); [|exact Hslow].
  rewrite read_u16_ok by lia. cbn [mbind Result_bind].
  destruct fbs as [|b1 fbs]; cbn in so_chain.
  { rewrite so_chain. exists buf, ca, ptrs. split_and!; [done..|apply outer_refl|lia]. }
  destruct so_chain as (-> & _ & Hch). destruct so_asc as (? & ? & ? & Hasc). unfold bend in *.
  decide_if false. rewrite read_u16_no_offset_ok by lia. cbn [mbind Result_bind].
  assert (forall b2, (b1 :: fbs = [b1] /\ b2 = (0, 0)) \/ (b1 :: fbs = [b1; b2] /\ 0 < b2.1) ->
    defragged buf cells (Z.max 0 mf) (defragment_page_fast base usable buf b1.1 b2.1)) as Hfast
    by (intros; eapply Hmono; [by eapply defragment_page_fast_ok|lia]).
  destruct fbs as [|b2 fbs]; cbn in Hch; [rewrite Hch; apply (Hfast (0, 0)); by left|].
  destruct Hch as (-> & _ & Hch). destruct Hasc as (? & ? & ? & Hasc). unfold bend in *.
  decide_if false. rewrite read_u16_no_offset_ok by lia. cbn [mbind Result_bind].
  destruct fbs as [|b3 fbs]; cbn in Hch.
  { rewrite Hch. apply (Hfast b2). right. split; [done|lia]. }
  destruct Hch as (-> & _). destruct Hasc as (? & _). unfold bend in *. decide_if false.
  exact Hslow.
Qed.

End defrag.
