(* ===== verification/BtreeInsert.v ===== *)
(** * BtreeInsert: allocation and insertion on a page

    [allocate_cell_space] finds a region for a cell in a free block, in front
    of the content area, or there after defragmentation; the insertion of a
    cell copies it to that region and makes room in the pointer array. *)

From stdpp Require Import sets.
From S2P Require Import Prelude Varint OnDisk Page BtreePage BtreeSpace BtreeCells BtreeDefrag.

Section insert.
Context (base usable : Z) (t : PageType) (Hdims : dims base usable).
#[local] Abbreviation wf := (page_wf base usable t).
#[local] Abbreviation lo := (lo_of base t).
#[local] Abbreviation arr := (arr base t).
#[local] Abbreviation outer := (outer base usable t).

(** The content area grows downwards by [amount] bytes. *)
Lemma take_gap buf lo0 ca fbs used amount :
  space_ok base usable buf lo0 ca fbs used -> 4 <= amount -> lo0 + 2 + amount <= ca ->
  let buf' := splice buf (base + 5) (be_split 2 (u16 (ca - amount))) in
  space_ok base usable buf' (lo0 + 2) (ca - amount) fbs ((ca - amount, amount) :: used) /\
  keeps base usable buf buf' (ca - amount) used.
Proof.
  intros [] Ha Hlo. destruct Hdims. cbn zeta. set (buf' := splice _ _ _).
  pose proof (be_split_lenZ 2 (u16 (ca - amount))).
  assert (forall a n, base + 8 <= a -> sub buf' a n = sub buf a n) as Hup by (intros; apply sub_splice_ne; lia).
  split.
  - constructor.
    + unfold buf'. rewrite lenZ_splice; lia.
    + apply splice_ok; [done|apply be_split_ok].
    + lia.
    + apply get16_splice; [lia..|]. unfold is_u16, u16. by apply Z.mod_pos_bound.
    + unfold buf'. rewrite get16_ne by lia. apply seg_splice; [done|lia|lia|].
      eapply Forall_impl; [exact (ascending_forall _ _ _ so_asc)|]. cbn. lia.
    + eapply ascending_le; [done|lia].
    + constructor; [unfold within, bend; cbn; lia|]. eapply Forall_impl; [exact so_used|]. unfold within. lia.
    + cbn. split; [|done]. apply Forall_app. split.
      * eapply Forall_impl; [exact so_used|]. unfold within, apart, bend. cbn. lia.
      * eapply Forall_impl; [exact (ascending_forall _ _ _ so_asc)|]. unfold apart, bend. cbn. lia.
    + rewrite sizes_cons. unfold buf'. rewrite get8_ne by lia. cbn. lia.
  - constructor; intros; try (apply Hup; lia).
    + apply lenZ_splice; lia.
    + apply get8_ne; lia.
    + apply get16_ne; lia.
    + apply sub_splice_ne; lia.
    + rewrite Forall_forall in so_used. specialize (so_used u ltac:(done)). unfold within in *.
      apply Hup. lia.
Qed.

(** A region of [n] bytes is held for a cell, and the pointer array may grow. *)
Definition held (buf : bytes) (cells : list bytes) (n : Z) (r : Result (Z * bytes)) : Prop :=
  exists pc buf' ca' fbs' ptrs', r = Ok (pc, buf') /\ cells_at base usable t buf' ptrs' cells /\
    space_ok base usable buf' (lo cells + 2) ca' fbs' ((pc, n) :: regions ptrs' cells) /\ outer buf buf'.

(** What the free-space functions keep is enough to hold a region. *)
Lemma held_intro buf buf' ca ca' fbs' ptrs cells pc n :
  cells_at base usable t buf ptrs cells -> keeps base usable buf buf' ca (regions ptrs cells) -> lo cells <= ca ->
  space_ok base usable buf' (lo cells + 2) ca' fbs' ((pc, n) :: regions ptrs cells) ->
  held buf cells n (Ok (pc, buf')).
Proof.
  intros HC HK Hlo HS. exists pc, buf', ca', fbs', ptrs. split_and!; [done| |done|].
  - eapply cells_keep; [done..|]. intros. by eapply regions_elem.
  - apply (keeps_outer _ _ _ _ _ _ _ HK). unfold lo_of in Hlo. pose proof (lenZ_nonneg cells). lia.
Qed.

Lemma held_outer buf buf1 cells n r : held buf1 cells n r -> outer buf buf1 -> held buf cells n r.
Proof.
  intros (pc & b & c & f & ps & ? & ? & ? & ?) ?. exists pc, b, c, f, ps. split_and!; try done.
  by eapply outer_trans.
Qed.

(** Allocation in front of the content area. *)
Lemma allocate_gap buf ca fbs ptrs cells n :
  wf buf ca fbs ptrs cells -> 4 <= n -> lo cells + 2 + n <= ca ->
  held buf cells n
    (content_area ← checked_sub ca n;
     buf ← write_cell_content_area base buf content_area;
     _ ← turso_assert (content_area + n <=? usable);
     Ok (u16 content_area, buf)).
Proof.
  intros [HC HS] Hn Hlo. pose proof HS as []. destruct Hdims. unfold checked_sub.
  decide_if true. cbn [mbind Result_bind]. rewrite (write_ca_ok base usable) by done. cbn [mbind Result_bind].
  pass. destruct (take_gap _ _ _ _ _ n HS Hn Hlo) as [HS' HK].
  replace (u16 (ca - n)) with (ca - n) at 1 by (unfold u16; rewrite Z.mod_small; lia).
  eapply held_intro; [done|exact HK|lia|exact HS'].
Qed.

Lemma free_of_sizes ptrs cells :
  lenZ ptrs = lenZ cells -> free_of base usable t cells = usable - lo cells - sizes (regions ptrs cells).
Proof. intros. unfold free_of. by rewrite <- (sizes_regions ptrs). Qed.

(** Allocation in front of the content area, after defragmentation when there
    is no room. *)
Lemma allocate_fallback buf ca fbs ptrs cells n :
  wf buf ca fbs ptrs cells -> 4 <= n -> n + 2 <= free_of base usable t cells ->
  held buf cells n
    ('(content_area, buf) ←
       (if ca <? lo cells + 2 + n then
          buf ← defragment_page base usable buf (Z.min 4 (free_of base usable t cells - (2 + n)));
          content_area ← cell_content_area base buf;
          Ok (content_area, buf)
        else Ok (ca, buf));
     content_area ← checked_sub content_area n;
     buf ← write_cell_content_area base buf content_area;
     _ ← turso_assert (content_area + n <=? usable);
     Ok (u16 content_area, buf)).
Proof.
  intros HW Hn Hfree. destruct (Z.ltb_spec ca (lo cells + 2 + n)); [|by eapply allocate_gap].
  destruct (defragment_page_ok base usable t Hdims _ _ _ _ _ (Z.min 4 (free_of base usable t cells - (2 + n))) HW)
    as (buf1 & ca1 & ptrs1 & -> & HW1 & Ho1 & Hfrag). cbn [mbind Result_bind].
  pose proof HW1 as [[_ Hlen _] HS1]. rewrite (cell_content_area_ok base usable Hdims _ _ _ _ _ HS1).
  cbn [mbind Result_bind]. eapply held_outer; [|exact Ho1]. eapply allocate_gap; [exact HW1|done|].
  pose proof (so_sum _ _ _ _ _ _ _ HS1) as Hsum. rewrite (free_of_sizes _ _ Hlen) in *. cbn in Hsum. lia.
Qed.

(** Allocation succeeds whenever the free bytes of the page suffice. *)
Lemma allocate_cell_space_ok buf ca fbs ptrs cells n :
  wf buf ca fbs ptrs cells -> 0 <= n -> Z.max n 4 + 2 <= free_of base usable t cells ->
  held buf cells (Z.max n 4) (allocate_cell_space base usable buf n (free_of base usable t cells)).
Proof.
  intros HW Hn Hfree. pose proof HW as [HC HS]. pose proof HC as [HA Hlen ?]. pose proof HS as []. destruct Hdims.
  pose proof (arr_range base t). pose proof (lenZ_nonneg cells). unfold allocate_cell_space, MINIMUM_CELL_SIZE.
  replace (if n <? 4 then 4 else n) with (Z.max n 4) by (destruct (Z.ltb_spec n 4); lia).
  set (amount := Z.max n 4) in *. assert (4 <= amount) by lia.
  rewrite (unallocated_start_ok _ _ _ Hdims _ _ HA) by lia. cbn [mbind Result_bind].
  rewrite (cell_content_area_ok base usable Hdims _ _ _ _ _ HS). cbn [mbind Result_bind].
  unfold first_freeblock, BTREE_FIRST_FREEBLOCK, CELL_PTR_SIZE_BYTES. rewrite read_u16_ok by lia.
  cbn [mbind Result_bind]. rewrite Hlen. change (arr + 2 * lenZ cells) with (lo cells).
  pose proof (allocate_fallback _ _ _ _ _ amount HW ltac:(done) Hfree) as Hfb.
  destruct (negb (get16 buf (base + 1) =? 0) && (lo cells + 2 <=? ca)) eqn:E; [|exact Hfb]. bool_facts.
  assert (amount <= usable) as Ham.
  { assert (0 <= sizes (regions ptrs cells)) as Hs.
    { apply (sizes_nonneg _ ca usable). eapply Forall_impl; [exact so_used|]. tauto. }
    rewrite (free_of_sizes _ _ Hlen) in Hfree. unfold lo_of in *. lia. }
  destruct (find_free_slot_ok base usable Hdims _ _ _ _ _ amount HS ltac:(lia)) as [->|(pc & buf1 & fbs1 & -> & HS1 & HK)].
  { exact Hfb. }
  cbn [mbind Result_bind]. pose proof (used_range _ _ _ _ _ _ _ HS1) as Hur.
  apply Forall_cons in Hur as [Hpc _]. unfold bend in Hpc. cbn in Hpc. unfold lo_of in so_lo.
  replace (u16 pc) with pc by (unfold u16; rewrite Z.mod_small; lia).
  eapply held_intro; [done|exact HK|unfold lo_of; lia|]. eapply space_ok_lo; [done|]. unfold lo_of in *. lia.
Qed.

(** ** The new cell and its pointer *)

(** Writing the cell into the held region. *)
Lemma place_cell buf ca fbs ptrs cells pc n c :
  cells_at base usable t buf ptrs cells ->
  space_ok base usable buf (lo cells + 2) ca fbs ((pc, n) :: regions ptrs cells) ->
  bytes_ok c -> lenZ c <= n ->
  let buf' := splice buf pc c in
  cells_at base usable t buf' ptrs cells /\
  space_ok base usable buf' (lo cells + 2) ca fbs ((pc, n) :: regions ptrs cells) /\
  sub buf' pc (lenZ c) = c /\ outer buf buf'.
Proof.
  intros HC HS Hc Hn. cbn zeta. pose proof HC as [[] ? ?]. pose proof HS as []. destruct Hdims.
  pose proof (arr_range base t). pose proof (lenZ_nonneg cells). unfold lo_of in so_lo.
  pose proof (lenZ_nonneg c). apply Forall_cons in so_used as [[Hw ?] Hused].
  unfold within, bend in Hw. cbn in Hw. split_and!.
  - constructor; [constructor| |]; try done.
    + rewrite get8_ne by lia. done.
    + rewrite get16_ne by lia. done.
    + intros i p Hp. pose proof (lookup_lt_Some _ _ _ Hp). rewrite get16_ne by (unfold lenZ in *; lia). auto.
    + intros i p d Hp Hd. destruct (cs_cells i p d Hp Hd) as [Hsub Hcell]. split; [|done].
      cbn in so_disj. destruct so_disj as [Hd1 _]. apply Forall_app in Hd1 as [Hd1 _].
      rewrite Forall_forall in Hd1. pose proof (Hd1 _ (regions_elem _ _ _ _ _ Hp Hd)) as Ha.
      rewrite Forall_forall in Hused. pose proof (Hused _ (regions_elem _ _ _ _ _ Hp Hd)) as [Hu _].
      unfold apart, within, bend, region_size in *. cbn in *. rewrite sub_splice_ne by lia. done.
  - apply (space_ok_splice _ _ Hdims); [done|done|]. right. right. exists (pc, n).
    unfold bend. cbn. split_and!; [left|lia|lia].
  - rewrite sub_splice_eq by lia. done.
  - apply (outer_splice base usable t Hdims); lia.
Qed.

Definition insert_at {A} (i : nat) (x : A) (l : list A) : list A := take i l ++ x :: drop i l.

Lemma insert_at_lookup {A} (i j : nat) (x : A) l :
  (i <= length l)%nat ->
  insert_at i x l !! j = if (j <? i)%nat then l !! j else if (j =? i)%nat then Some x else l !! pred j.
Proof.
  intros Hi. unfold insert_at. destruct (Nat.ltb_spec j i).
  - rewrite lookup_app_l by (rewrite length_take; lia). by apply lookup_take_lt.
  - rewrite lookup_app_r by (rewrite length_take; lia). rewrite length_take, Nat.min_l by lia.
    destruct (Nat.eqb_spec j i) as [->|]; [by rewrite Nat.sub_diag|].
    rewrite lookup_cons_ne_0, lookup_drop by lia. f_equal. lia.
Qed.

Lemma insert_at_lenZ {A} (i : nat) (x : A) l : lenZ (insert_at i x l) = lenZ l + 1.
Proof.
  unfold insert_at, lenZ. rewrite length_app. cbn. rewrite length_drop, length_take. lia.
Qed.

Lemma insert_at_perm {A} (i : nat) (x : A) l : insert_at i x l ≡ₚ x :: l.
Proof. unfold insert_at. by rewrite <- Permutation_middle, take_drop. Qed.

Lemma regions_insert_at ptrs cells (i : nat) p c :
  lenZ ptrs = lenZ cells ->
  regions (insert_at i p ptrs) (insert_at i c cells) = insert_at i (p, region_size c) (regions ptrs cells).
Proof.
  intros Hl. unfold regions, insert_at. rewrite zip_with_app by (rewrite !length_take; unfold lenZ in Hl; lia).
  by rewrite zip_with_take, zip_with_drop.
Qed.

(** Room for a pointer at index [i] of the array. *)
Lemma insert_pointer buf ptrs (i : nat) pc :
  array_at base t buf ptrs -> arr + 2 * lenZ ptrs + 2 <= lenZ buf -> bytes_ok buf -> (i <= length ptrs)%nat -> is_u16 pc ->
  let x := sub buf (arr + 2 * Z.of_nat i) (2 * (lenZ ptrs - Z.of_nat i)) in
  let buf' := splice (splice buf (arr + 2 * Z.of_nat i + 2) x) (arr + 2 * Z.of_nat i) (be_split 2 pc) in
  lenZ x = 2 * (lenZ ptrs - Z.of_nat i) /\ bytes_ok x /\ lenZ buf' = lenZ buf /\
  (forall (j : nat) p, insert_at i pc ptrs !! j = Some p -> get16 buf' (arr + 2 * Z.of_nat j) = p).
Proof.
  intros [] Hlen Hb Hi Hpc. cbn zeta. set (x := sub buf _ _).
  pose proof (arr_range base t). destruct Hdims. assert (Z.of_nat i <= lenZ ptrs) by (unfold lenZ; lia).
  assert (lenZ x = 2 * (lenZ ptrs - Z.of_nat i)) as Hx by (apply lenZ_sub; lia).
  pose proof (be_split_lenZ 2 pc).
  set (buf1 := splice buf _ x). assert (lenZ buf1 = lenZ buf) as Hl1 by (apply lenZ_splice; lia).
  split_and!; [done|by apply sub_ok|rewrite lenZ_splice; lia|].
  intros j p. rewrite insert_at_lookup by done. destruct (Nat.ltb_spec j i); [|destruct (Nat.eqb_spec j i) as [->|]].
  - intros Hp. rewrite get16_ne by lia. unfold buf1. rewrite get16_ne by lia. auto.
  - intros [= <-]. apply get16_splice; [lia|lia|done].
  - intros Hp. pose proof (lookup_lt_Some _ _ _ Hp). rewrite get16_ne by lia. unfold buf1, get16, lenZ in *.
    rewrite sub_splice_in by (unfold lenZ; lia). unfold x. rewrite sub_sub by lia.
    rewrite <- (ar_ptrs _ _ Hp). unfold get16. f_equal. f_equal. lia.
Qed.

(** The page after the insertion of a cell. *)
Lemma insert_page buf ca fbs ptrs cells pc c (i : nat) :
  cells_at base usable t buf ptrs cells ->
  space_ok base usable buf (lo cells + 2) ca fbs ((pc, region_size c) :: regions ptrs cells) ->
  sub buf pc (lenZ c) = c -> is_cell usable t c -> (i <= length cells)%nat ->
  let x := sub buf (arr + 2 * Z.of_nat i) (2 * (lenZ ptrs - Z.of_nat i)) in
  let buf' := splice (splice buf (arr + 2 * Z.of_nat i + 2) x) (arr + 2 * Z.of_nat i) (be_split 2 pc) in
  let buf'' := splice buf' (base + 3) (be_split 2 (lenZ cells + 1)) in
  wf buf'' ca fbs (insert_at i pc ptrs) (insert_at i c cells) /\ outer buf buf''.
Proof.
  intros HC HS Hsub Hc Hi. pose proof HC as [HA Hlen ?]. pose proof HS as []. destruct Hdims.
  pose proof (arr_range base t). unfold lo_of in so_lo.
  pose proof (Forall_inv so_used) as [Hpc _]. unfold within, bend in Hpc. cbn in Hpc.
  assert (4 <= region_size c) by (unfold region_size; lia).
  destruct (insert_pointer buf ptrs i pc) as (Hx & Hbx & Hl' & Hptrs); [done|lia|done|unfold lenZ in *; lia|unfold is_u16; lia|].
  cbn zeta. set (x := sub buf (arr + _) _) in *. set (buf1 := splice buf _ x) in *. set (buf2 := splice buf1 _ _) in *.
  assert (Z.of_nat i <= lenZ ptrs) by (unfold lenZ in *; lia).
  pose proof (be_split_lenZ 2 pc). pose proof (be_split_lenZ 2 (lenZ cells + 1)).
  assert (lenZ buf1 = lenZ buf) as Hl1 by (apply lenZ_splice; lia).
  assert (forall a n, ca <= a -> sub (splice buf2 (base + 3) (be_split 2 (lenZ cells + 1))) a n = sub buf a n) as Hup.
  { intros a n Ha. rewrite sub_splice_ne by lia. unfold buf2. rewrite sub_splice_ne by lia.
    unfold buf1. apply sub_splice_ne; lia. }
  split; [constructor; [constructor; [constructor| |]|]|].
  - rewrite get8_ne by lia. unfold buf2. rewrite get8_ne by lia. unfold buf1. rewrite get8_ne by lia.
    apply (ar_type _ _ _ _ HA).
  - rewrite insert_at_lenZ, get16_splice; [lia|lia|lia|]. unfold is_u16. lia.
  - intros j p Hp. rewrite get16_ne by lia. auto.
  - rewrite !insert_at_lenZ. lia.
  - assert (forall (k : nat) p d, ptrs !! k = Some p -> cells !! k = Some d -> sub buf p (lenZ d) = d /\ is_cell usable t d /\ ca <= p)
      as Hold.
    { intros k p d Hp Hd. destruct (cs_cells k p d Hp Hd). apply Forall_inv_tail in so_used.
      rewrite Forall_forall in so_used. pose proof (so_used _ (regions_elem _ _ _ _ _ Hp Hd)) as [Hu _].
      unfold within in Hu. cbn in Hu. split_and!; (done || lia). }
    intros j p d Hp Hd.
    pose proof (eq_trans (eq_sym (insert_at_lookup i j pc ptrs ltac:(unfold lenZ in *; lia))) Hp) as Hp'.
    pose proof (eq_trans (eq_sym (insert_at_lookup i j c cells Hi)) Hd) as Hd'.
    destruct (j <? i)%nat; [|destruct (j =? i)%nat].
    2: { injection Hp' as <-. injection Hd' as <-. rewrite Hup by lia. done. }
    all: destruct (Hold _ _ _ Hp' Hd') as (? & ? & ?); rewrite Hup by lia; done.
  - rewrite regions_insert_at by done. unfold lo_of. rewrite insert_at_lenZ.
    replace (arr + 2 * (lenZ cells + 1)) with (lo cells + 2) by (unfold lo_of; lia).
    eapply space_ok_perm; [|symmetry; apply insert_at_perm].
    apply (space_ok_splice _ _ Hdims); [|apply be_split_ok|left; lia].
    apply (space_ok_splice _ _ Hdims); [|apply be_split_ok|right; left; lia].
    apply (space_ok_splice _ _ Hdims); [done|done|right; left; lia].
  - apply (outer_trans _ _ _ _ buf1); [|apply (outer_trans _ _ _ _ buf2)]; apply (outer_splice base usable t Hdims); lia.
Qed.

(** The pointers after index [i] move by one. *)
Lemma shift_right_ok buf a n :
  0 <= a -> 0 <= n -> a + 2 + 2 * n <= lenZ buf ->
  (if 0 <? 2 * n then copy_within buf a (a + 2 * n) (a + 2) else Ok buf) = Ok (splice buf (a + 2) (sub buf a (2 * n))).
Proof.
  intros Ha Hn Hl. destruct (Z.ltb_spec 0 (2 * n)).
  - rewrite copy_within_ok by lia. by replace (a + 2 * n - a) with (2 * n) by lia.
  - replace (2 * n) with 0 by lia. assert (sub buf a 0 = []) as -> by done. unfold splice. cbn [length app]. by rewrite Nat.add_0_r, take_drop.
Qed.

(** The end of [insert_on_page]: the pointer [pc] goes to index [i]. *)
Definition pointer_code (buf : bytes) (i pc : Z) : Result bytes :=
  '(array, _) ← cell_pointer_array_offset_and_size base buf;
  let cur := array + CELL_PTR_SIZE_BYTES * i in
  count ← cell_count base buf;
  n_cells_forward ← checked_sub count i;
  let n_bytes_forward := CELL_PTR_SIZE_BYTES * n_cells_forward in
  buf ← (if 0 <? n_bytes_forward
         then copy_within buf cur (cur + n_bytes_forward) (cur + CELL_PTR_SIZE_BYTES)
         else Ok buf);
  buf ← write_u16_no_offset buf cur pc;
  count ← cell_count base buf;
  write_cell_count base buf (u16 (count + 1)).

Lemma pointer_code_ok buf ptrs pc (i : nat) :
  array_at base t buf ptrs -> usable <= lenZ buf -> arr + 2 * lenZ ptrs + 2 <= usable -> (i <= length ptrs)%nat ->
  let x := sub buf (arr + 2 * Z.of_nat i) (2 * (lenZ ptrs - Z.of_nat i)) in
  let buf' := splice (splice buf (arr + 2 * Z.of_nat i + 2) x) (arr + 2 * Z.of_nat i) (be_split 2 pc) in
  pointer_code buf (Z.of_nat i) pc = Ok (splice buf' (base + 3) (be_split 2 (lenZ ptrs + 1))).
Proof.
  intros HA Hl Hlo Hi. cbn zeta. destruct Hdims. pose proof (arr_range base t). unfold pointer_code.
  assert (Z.of_nat i <= lenZ ptrs) by (unfold lenZ in *; lia).
  rewrite (array_size_ok _ _ _ Hdims _ _ HA) by lia. cbn [mbind Result_bind].
  rewrite (cell_count_ok _ _ _ Hdims _ _ HA) by lia. cbn [mbind Result_bind].
  unfold checked_sub, CELL_PTR_SIZE_BYTES. decide_if true. cbn [mbind Result_bind].
  rewrite shift_right_ok by lia. cbn [mbind Result_bind]. set (x := sub buf (arr + _) _) in *.
  set (buf3 := splice buf _ x) in *.
  assert (lenZ x = 2 * (lenZ ptrs - Z.of_nat i)) as Hx by (apply lenZ_sub; lia). pose proof (be_split_lenZ 2 pc).
  assert (lenZ buf3 = lenZ buf) as Hl3 by (apply lenZ_splice; lia).
  rewrite write_u16_no_offset_ok by lia. cbn [mbind Result_bind].
  set (buf4 := splice buf3 _ _) in *. assert (lenZ buf4 = lenZ buf3) as Hl4 by (apply lenZ_splice; lia).
  unfold cell_count, BTREE_CELL_COUNT. rewrite read_u16_ok by lia. cbn [mbind Result_bind].
  unfold buf4 at 2. rewrite get16_ne by lia. unfold buf3 at 1. rewrite get16_ne, (ar_count _ _ _ _ HA) by lia.
  rewrite (write_count_ok base usable) by (done || lia). unfold u16. by rewrite Z.mod_small by lia.
Qed.

(** The pointer of a cell that is already in its region. *)
Lemma insert_pointer_ok buf ca fbs ptrs cells pc c (i : nat) :
  cells_at base usable t buf ptrs cells ->
  space_ok base usable buf (lo cells + 2) ca fbs ((pc, region_size c) :: regions ptrs cells) ->
  sub buf pc (lenZ c) = c -> is_cell usable t c -> (i <= length cells)%nat ->
  exists buf' ptrs', pointer_code buf (Z.of_nat i) pc = Ok buf' /\
    wf buf' ca fbs ptrs' (insert_at i c cells) /\ outer buf buf'.
Proof.
  intros HC HS Hsub Hc Hi. destruct (insert_page _ _ _ _ _ _ c i HC HS Hsub Hc Hi) as [HW' Ho'].
  pose proof HC as [HA Hlen _]. pose proof (so_lo _ _ _ _ _ _ _ HS) as Hlo. pose proof (so_len _ _ _ _ _ _ _ HS).
  unfold lo_of in Hlo. rewrite (pointer_code_ok _ _ _ _ HA) by (unfold lenZ in *; lia). rewrite Hlen in *. eauto.
Qed.

(** A cell that fits is inserted at its index. *)
Lemma insert_on_page_ok buf ca fbs ptrs cells c (i : nat) :
  wf buf ca fbs ptrs cells -> bytes_ok c -> is_cell usable t c -> (i <= length cells)%nat ->
  region_size c + 2 <= free_of base usable t cells ->
  exists buf' ca' fbs' ptrs',
    insert_on_page base usable buf c (Z.of_nat i) (free_of base usable t cells) = Ok buf' /\
    wf buf' ca' fbs' ptrs' (insert_at i c cells) /\ outer buf buf'.
Proof.
  intros HW Hb Hc Hi Hfree. pose proof HW as [[HA Hlen _] HS]. destruct Hdims. pose proof (arr_range base t).
  pose proof (lenZ_nonneg c). unfold insert_on_page. pose proof (so_len _ _ _ _ _ _ _ HS) as Hlen0.
  rewrite (cell_count_ok _ _ _ Hdims _ _ HA) by (unfold lenZ in *; lia). cbn [mbind Result_bind].
  assert (Z.of_nat i <= lenZ ptrs) by (unfold lenZ in *; lia). pass.
  destruct (allocate_cell_space_ok _ _ _ _ _ (lenZ c) HW ltac:(lia) ltac:(unfold region_size in *; lia))
    as (pc & buf1 & ca1 & fbs1 & ptrs1 & -> & HC1 & HS1 & Ho1). cbn [mbind Result_bind].
  rewrite (Z.max_comm (lenZ c) 4) in *. fold (region_size c) in *. pose proof (so_used _ _ _ _ _ _ _ HS1) as Hu.
  apply Forall_inv in Hu as [Hu _]. unfold within, bend in Hu. cbn in Hu. pose proof (so_lo _ _ _ _ _ _ _ HS1) as Hlo1.
  pose proof (o_len _ _ _ _ _ Ho1) as Hl1. assert (lenZ c <= region_size c) by (unfold region_size; lia).
  unfold lo_of in Hlo1. pass.
  assert (write_slice buf1 pc c = Ok (splice buf1 pc c)) as -> by (apply write_slice_Ok; split_and!; (done || lia)).
  cbn [mbind Result_bind].
  destruct (place_cell _ _ _ _ _ _ _ c HC1 HS1 Hb ltac:(done)) as (HC2 & HS2 & Hsub & Ho2).
  set (buf2 := splice buf1 pc c) in *.
  destruct (insert_pointer_ok _ _ _ _ _ _ c i HC2 HS2 Hsub Hc Hi) as (buf3 & ptrs3 & Hrun & HW' & Ho').
  eexists _, _, _, _. split_and!; [exact Hrun|exact HW'|].
  eapply outer_trans; [exact Ho1|]. by eapply outer_trans.
Qed.

End insert.
