(* ===== verification/BtreeRefine.v ===== *)
(** * BtreeRefine: a page is a list of cells with a byte budget

    The abstract page is the list of its cells and the list of the cells that
    did not fit.  The operations of the code on a page refine the operations on
    the lists, for every sequence of operations on an initialised page. *)

From stdpp Require Import sets.
From S2P Require Import Prelude Varint OnDisk Page BtreePage BtreeSpace BtreeCells BtreeDefrag BtreeInsert.

(** ** The abstract page *)

Record APage := mkAPage { a_cells : list bytes; a_over : list OverflowCell }.

Inductive PageOp :=
  | PInsert (i : nat) (c : bytes) (allow : bool)
  | PDrop (i : nat)
  | PDefragment (max_frag_bytes : Z).

Definition is_nil {A} (l : list A) : bool := match l with [] => true | _ => false end.

Lemma lenZ_single (v : Z) : lenZ [v] = 1.
Proof. done. Qed.

(** Skips a write that does not touch the bytes read. *)
Ltac skip_write b :=
  unfold b; (rewrite get8_ne || rewrite get16_ne || rewrite sub_splice_ne); [|rewrite ?lenZ_single; lia..].

Section refine.
Context (base usable : Z) (t : PageType).

(** Does a cell go on the page? *)
Definition on_page (a : APage) (c : bytes) (allow : bool) : bool :=
  (is_nil (a_over a) || allow) && (region_size c + 2 <=? free_of base usable t (a_cells a)).

Definition astep (op : PageOp) (a : APage) : APage :=
  match op with
  | PInsert i c allow =>
      if on_page a c allow then mkAPage (insert_at i c (a_cells a)) (a_over a)
      else mkAPage (a_cells a)
             (a_over a ++ [mkOverflowCell (Z.of_nat i) (if bool_decide (t = IndexLeaf) then ensure_min_cell_size c else c)])
  | PDrop i => mkAPage (delete i (a_cells a)) (a_over a)
  | PDefragment _ => a
  end.

(** What the callers of the operations guarantee. *)
Definition valid (op : PageOp) (a : APage) : Prop :=
  match op with
  | PInsert i c allow =>
      is_cell usable t c /\ Z.of_nat i <= lenZ (a_cells a) + lenZ (a_over a) /\
      (on_page a c allow = true -> (i <= length (a_cells a))%nat)
  | PDrop i => (i < length (a_cells a))%nat
  | PDefragment _ => True
  end.

Fixpoint arun (ops : list PageOp) (a : APage) : APage :=
  match ops with [] => a | op :: ops => arun ops (astep op a) end.

Fixpoint valid_run (ops : list PageOp) (a : APage) : Prop :=
  match ops with [] => True | op :: ops => valid op a /\ valid_run ops (astep op a) end.

(** ** The operations of the code *)

Definition pstep (op : PageOp) (p : PageInner) : Result PageInner :=
  match op with
  | PInsert i c allow => insert_into_cell_impl p c (Z.of_nat i) usable allow
  | PDrop i => page_drop_cell p (Z.of_nat i) usable
  | PDefragment mf =>
      buf ← defragment_page (header_offset p) usable (as_ptr p) mf;
      Ok (set_buffer p buf)
  end.

Fixpoint prun (ops : list PageOp) (p : PageInner) : Result PageInner :=
  match ops with [] => Ok p | op :: ops => p ← pstep op p; prun ops p end.

(** ** Refinement *)

Record represents (p : PageInner) (a : APage) : Prop := mkRepresents {
  re_base : header_offset p = base;
  re_over : overflow_cells p = a_over a;
  re_wf : exists ca fbs ptrs, page_wf base usable t (as_ptr p) ca fbs ptrs (a_cells a)
}.

Context (Hdims : dims base usable).

Lemma pstep_refines op p a :
  represents p a -> valid op a ->
  exists p', pstep op p = Ok p' /\ represents p' (astep op a) /\ outer base usable t (as_ptr p) (as_ptr p').
Proof.
  intros [Hb Ho (ca & fbs & ptrs & HW)] Hv. destruct op as [i c allow|i|mf]; cbn [pstep astep].
  - destruct Hv as (Hc & Hi & Hon). unfold insert_into_cell_impl. rewrite Hb, Ho.
    pose proof HW as [[HA Hlen _] HS]. destruct Hdims.
    pose proof (so_len _ _ _ _ _ _ _ HS). rewrite (cell_count_ok _ _ _ Hdims _ _ HA) by lia. cbn [mbind Result_bind].
    rewrite Hlen. pass. rewrite (free_space_ok _ _ _ Hdims _ _ _ _ _ HW). cbn [mbind Result_bind].
    set (enough := if _ && negb allow then _ else _).
    assert (enough = on_page a c allow) as ->.
    { unfold enough, on_page, region_size, MINIMUM_CELL_SIZE, CELL_PTR_SIZE_BYTES. rewrite (Z.max_comm 4).
      by destruct (a_over a), allow. }
    destruct (on_page a c allow) eqn:E; cbn [negb].
    + assert (region_size c + 2 <= free_of base usable t (a_cells a)) as Hfit
        by (unfold on_page in E; bool_facts; done).
      destruct (insert_on_page_ok base usable t Hdims _ _ _ _ _ c i HW) as (buf' & ca' & fbs' & ptrs' & -> & HW' & Ho');
        [by destruct Hc|done|auto|done|].
      cbn [mbind Result_bind]. eexists. split_and!; [done| |done]. constructor; [done|done|]. cbn. eauto.
    + rewrite (page_type_ok _ _ _ Hdims _ _ HA) by lia. cbn [mbind Result_bind]. eexists. split_and!; [done| |apply outer_refl].
      constructor; [done|by cbn; rewrite ?Ho|]. cbn. eauto.
  - unfold page_drop_cell. rewrite Hb.
    destruct (drop_cell_ok _ _ _ Hdims _ _ _ _ _ i HW Hv) as (buf' & ca' & fbs' & ptrs' & -> & HW' & Ho').
    cbn [mbind Result_bind]. eexists. split_and!; [done| |done]. constructor; [done|done|]. cbn. eauto.
  - rewrite Hb. destruct (defragment_page_ok base usable t Hdims _ _ _ _ _ mf HW) as (buf' & ca' & ptrs' & -> & HW' & Ho' & _).
    cbn [mbind Result_bind]. eexists. split_and!; [done| |done]. constructor; [done|done|]. cbn. eauto.
Qed.

Lemma prun_refines ops : forall p a,
  represents p a -> valid_run ops a ->
  exists p', prun ops p = Ok p' /\ represents p' (arun ops a) /\ outer base usable t (as_ptr p) (as_ptr p').
Proof.
  induction ops as [|op ops IH]; intros p a HR Hv.
  - exists p. split_and!; [done..|apply outer_refl].
  - destruct Hv as [Hv Hvs]. destruct (pstep_refines op p a HR Hv) as (p1 & Hp & HR1 & Ho1).
    destruct (IH p1 _ HR1 Hvs) as (p2 & Hp2 & HR2 & Ho2). exists p2. cbn. rewrite Hp. cbn.
    split_and!; [done..|by eapply outer_trans].
Qed.

(** An initialised page has no cells. *)
Lemma init_represents p buf :
  header_offset p = base -> buffer p = Some buf -> usable <= lenZ buf -> bytes_ok buf ->
  exists p', btree_init_page p t usable = Ok p' /\ represents p' (mkAPage [] []) /\
    lenZ (as_ptr p') = lenZ buf /\
    forall a n, 0 <= a -> a + n <= base \/ usable <= a -> sub (as_ptr p') a n = sub buf a n.
Proof.
  intros Hb Hbuf Hlen Hok. destruct Hdims. unfold btree_init_page, as_ptr. rewrite Hb, Hbuf. cbn [default from_option]. change (id buf) with buf.
  unfold write_page_type, BTREE_PAGE_TYPE. rewrite write_u8_ok by lia. cbn [mbind Result_bind].
  pose proof (be_split_lenZ 2 0). pose proof (be_split_lenZ 2 (u16 usable)). pose proof (be_split_lenZ 4 0).
  set (b1 := splice buf _ _). assert (lenZ b1 = lenZ buf) by (apply lenZ_splice; rewrite ?lenZ_single; lia).
  rewrite (write_first_ok base usable) by (done || lia). cbn [mbind Result_bind].
  set (b2 := splice b1 _ _). assert (lenZ b2 = lenZ buf) by (unfold b2; rewrite lenZ_splice; lia).
  rewrite (write_count_ok base usable) by (done || lia). cbn [mbind Result_bind].
  set (b3 := splice b2 _ _). assert (lenZ b3 = lenZ buf) by (unfold b3; rewrite lenZ_splice; lia).
  rewrite (write_ca_ok base usable) by (done || lia). cbn [mbind Result_bind].
  set (b4 := splice b3 _ _). assert (lenZ b4 = lenZ buf) by (unfold b4; rewrite lenZ_splice; lia).
  rewrite (write_frag_ok base usable) by (done || lia). cbn [mbind Result_bind].
  set (b5 := splice b4 _ _). assert (lenZ b5 = lenZ buf) by (unfold b5; rewrite lenZ_splice; rewrite ?lenZ_single; lia).
  unfold write_rightmost_ptr, write_u32, BTREE_RIGHTMOST_PTR.
  assert (write_slice b5 (base + 8) (be_split 4 0) = Ok (splice b5 (base + 8) (be_split 4 0))) as ->
    by (apply write_slice_Ok; split_and!; (done || lia)).
  cbn [mbind Result_bind]. set (b6 := splice b5 _ _).
  eexists. split_and!; [done| | |].
  - constructor; [done|done|]. exists usable, [], []. apply (page_wf_empty base usable t Hdims); cbn; change (id b6) with b6.
    + unfold b6. rewrite lenZ_splice; lia.
    + unfold b6, b5, b4, b3, b2, b1. repeat apply splice_ok; try apply be_split_ok; try done.
      all: apply Forall_singleton; try destruct t; done.
    + skip_write b6. skip_write b5. skip_write b4. skip_write b3. skip_write b2. unfold b1. rewrite <- (Z.add_0_r base) at 2. apply get8_splice; lia.
    + skip_write b6. skip_write b5. skip_write b4. apply get16_splice; (done || lia).
    + skip_write b6. skip_write b5. apply get16_splice; [lia|lia|].
      unfold is_u16, u16. by apply Z.mod_pos_bound.
    + skip_write b6. skip_write b5. skip_write b4. skip_write b3. apply get16_splice; (done || lia).
    + skip_write b6. apply get8_splice; (done || lia).
  - cbn. change (id b6) with b6. unfold b6. rewrite lenZ_splice; lia.
  - intros a n Ha Hor. cbn. change (id b6) with b6.
    skip_write b6. skip_write b5. skip_write b4. skip_write b3. skip_write b2. by skip_write b1.
Qed.

(** What the code reads from a page that represents [a]. *)
Record reads_as (p : PageInner) (a : APage) : Prop := mkReads {
  rd_count : cell_count base (as_ptr p) = Ok (lenZ (a_cells a));
  rd_free : compute_free_space base usable (as_ptr p) = Ok (free_of base usable t (a_cells a));
  rd_over : overflow_cells p = a_over a;
  rd_cell : forall (i : nat) c, a_cells a !! i = Some c -> exists q,
              cell_get_raw_region base (as_ptr p) (Z.of_nat i) usable = Ok (q, region_size c) /\
              slice (as_ptr p) q (q + lenZ c) = Ok c
}.

Lemma represents_reads p a : represents p a -> reads_as p a.
Proof.
  intros [Hb Ho (ca & fbs & ptrs & HW)]. pose proof HW as [[HA Hlen _] HS]. destruct Hdims.
  pose proof (so_len _ _ _ _ _ _ _ HS). pose proof (arr_range base t). pose proof (so_lo _ _ _ _ _ _ _ HS).
  constructor; [|by eapply free_space_ok|done|].
  - rewrite (cell_count_ok _ _ _ Hdims _ _ HA) by lia. by rewrite Hlen.
  - intros i c Hc. destruct (lookup_lt_is_Some_2 ptrs i) as [q Hq].
    { apply lookup_lt_Some in Hc. unfold lenZ in *. lia. }
    exists q. split; [by eapply cell_region_ok|]. pose proof (cell_range _ _ _ _ _ _ _ _ _ _ _ HW Hq Hc) as (? & ? & Hs & _).
    pose proof (lenZ_nonneg c). unfold region_size in *. rewrite slice_sub by lia.
    replace (q + lenZ c - q) with (lenZ c) by lia. by rewrite Hs.
Qed.

Lemma delete_insert_at {A} (i : nat) (x : A) l : (i <= length l)%nat -> delete i (insert_at i x l) = l.
Proof.
  intros Hi. unfold insert_at. assert (i = length (take i l)) as Hlen by (rewrite length_take; lia).
  rewrite Hlen at 1. rewrite delete_middle. apply take_drop.
Qed.

Lemma free_of_delete cells (i : nat) c :
  cells !! i = Some c ->
  free_of base usable t (delete i cells) = free_of base usable t cells + region_size c + 2.
Proof.
  intros Hc. unfold free_of, lo_of. assert (lenZ (delete i cells) = lenZ cells - 1) as ->.
  { pose proof (lookup_lt_Some _ _ _ Hc). unfold lenZ. rewrite length_delete by eauto. lia. }
  assert (foldr (fun c z => region_size c + z) 0 cells =
    region_size c + foldr (fun c z => region_size c + z) 0 (delete i cells)) as ->; [|lia].
  revert i Hc. induction cells as [|d cells IH]; intros [|i] Hc; try done; [by injection Hc as ->|].
  change (delete (S i) (d :: cells)) with (d :: delete i cells). cbn [foldr]. rewrite (IH i Hc). lia.
Qed.

End refine.

Section claims.
Context (base usable : Z) (t : PageType).

(** C6: every sequence of insertions, deletions and defragmentations on a
    freshly initialised page succeeds, and the page then reads as the list of
    cells and overflow cells the same sequence gives on lists: the cell count,
    the free space, every cell with its bytes, the overflow cells; the bytes
    before the page header and after the usable space are not changed. *)
Theorem page_behaves_as_list ops p buf :
  dims base usable -> header_offset p = base -> buffer p = Some buf -> usable <= lenZ buf -> bytes_ok buf ->
  valid_run base usable t ops (mkAPage [] []) ->
  exists p0 p', btree_init_page p t usable = Ok p0 /\ prun usable ops p0 = Ok p' /\
    reads_as base usable t p' (arun base usable t ops (mkAPage [] [])) /\
    forall a n, 0 <= a -> a + n <= base \/ usable <= a -> sub (as_ptr p') a n = sub buf a n.
Proof.
  intros Hd Hb Hbuf Hlen Hok Hv. destruct (init_represents base usable t Hd p buf) as (p0 & H0 & HR0 & _ & Hs0); try done.
  destruct (prun_refines base usable t Hd ops _ _ HR0 Hv) as (p' & Hp & HR & []). exists p0, p'.
  split_and!; [done|done|by apply represents_reads|]. intros a n Ha [Hn|Hn]; rewrite <- Hs0 by lia; auto.
Qed.

(** Inserting a cell that fits and dropping it again gives back a page
    with the same cells and the same free space. *)
Theorem insert_drop_roundtrip p a i c :
  dims base usable -> represents base usable t p a -> is_cell usable t c -> (i <= length (a_cells a))%nat ->
  a_over a = [] -> region_size c + 2 <= free_of base usable t (a_cells a) ->
  exists p1 p2, insert_into_cell p c (Z.of_nat i) usable = Ok p1 /\
    page_drop_cell p1 (Z.of_nat i) usable = Ok p2 /\
    reads_as base usable t p1 (mkAPage (insert_at i c (a_cells a)) []) /\ reads_as base usable t p2 a.
Proof.
  intros Hd HR Hc Hi Hno Hfit.
  assert (on_page base usable t a c false = true) as Hon.
  { unfold on_page. rewrite Hno. cbn. by apply Z.leb_le. }
  destruct (pstep_refines base usable t Hd (PInsert i c false) p a HR) as (p1 & H1 & HR1 & _).
  { split_and!; [done|unfold lenZ; lia|done]. }
  cbn in HR1. rewrite Hon in HR1.
  destruct (pstep_refines base usable t Hd (PDrop i) p1 _ HR1) as (p2 & H2 & HR2 & _).
  { pose proof (insert_at_lenZ i c (a_cells a)) as Hl. cbn. unfold lenZ in Hl. lia. }
  cbn in HR2. rewrite delete_insert_at in HR2 by done.
  exists p1, p2. split_and!; [done|done| |].
  - rewrite <- Hno. by apply represents_reads.
  - destruct a. by apply represents_reads.
Qed.

(** C21: a full defragmentation keeps the cells, leaves no free block and no
    fragment, and makes all free bytes one gap between the pointer array and
    the content area. *)
Theorem defragment_full_contiguous p a :
  dims base usable -> represents base usable t p a ->
  exists buf', defragment_page_full base usable (as_ptr p) = Ok buf' /\
    reads_as base usable t (set_buffer p buf') a /\
    first_freeblock base buf' = Ok 0 /\ num_frag_free_bytes base buf' = Ok 0 /\
    exists start ca, unallocated_region_start base buf' = Ok start /\ cell_content_area base buf' = Ok ca /\
      ca - start = free_of base usable t (a_cells a).
Proof.
  intros Hd [Hb Ho (ca & fbs & ptrs & HW)]. pose proof Hd as [? ?].
  destruct (defragment_page_ok base usable t Hd _ _ _ _ _ (-1) HW) as (buf' & ca' & ptrs' & Hrun & HW' & Ho' & Hfrag).
  pose proof HW' as [[HA Hlen _] HS]. pose proof HS as []. pose proof (arr_range base t).
  assert (get8 buf' (base + 7) = 0) as Hz.
  { assert (0 <= get8 buf' (base + 7)) by (apply get8_u8; [done|lia]). lia. }
  exists buf'. split_and!; [done| | | |].
  - apply represents_reads; [done|]. constructor; [done|done|]. eauto.
  - unfold first_freeblock, BTREE_FIRST_FREEBLOCK. rewrite read_u16_ok by lia. by rewrite so_chain.
  - unfold num_frag_free_bytes, read_u8, BTREE_FRAGMENTED_BYTES_COUNT. rewrite idx_get8 by lia. by rewrite Hz.
  - eexists _, _. split_and!; [by apply (unallocated_start_ok _ usable _ Hd _ _ HA); lia|by eapply cell_content_area_ok|].
    rewrite (free_of_sizes base usable t ptrs') by done. rewrite Hz in so_sum. cbn in so_sum. unfold lo_of in *. lia.
Qed.

(** C24: on a leaf with more than one cell and no overflow cells,
    [delete_may_need_balancing] says whether the page without the cell would be
    more than two thirds free, and [drop_cell] leaves exactly that free space. *)
Theorem balance_check_exact p a (i : nat) :
  dims base usable -> represents base usable t p a -> (i < length (a_cells a))%nat ->
  let free_after := free_of base usable t (delete i (a_cells a)) in
  let trivial := match t with IndexInterior | TableInterior => true | _ => false end
                 || (lenZ (a_cells a) =? 1) || negb (is_nil (a_over a)) in
  delete_may_need_balancing p (Z.of_nat i) usable = Ok (trivial || (usable * 2 <? free_after * 3)) /\
  exists p', page_drop_cell p (Z.of_nat i) usable = Ok p' /\ compute_free_space base usable (as_ptr p') = Ok free_after.
Proof.
  intros Hd HR Hi. cbn zeta. destruct (lookup_lt_is_Some_2 _ _ Hi) as [c Hc].
  rewrite (free_of_delete _ _ _ _ _ _ Hc). split.
  - destruct (represents_reads base usable t Hd _ _ HR) as [Hn Hf Ho Hcell].
    destruct (Hcell i c Hc) as (q & Hq & _). destruct HR as [Hb _ (ca & fbs & ptrs & [[HA _ _] HS])].
    unfold delete_may_need_balancing, is_leaf, read_u8, BTREE_PAGE_TYPE. rewrite Hb, Z.add_0_r.
    pose proof (so_len _ _ _ _ _ _ _ HS). destruct Hd. rewrite idx_get8, (ar_type _ _ _ _ HA) by lia.
    cbn [mbind Result_bind]. rewrite Hn, Ho. cbn [mbind Result_bind].
    set (leaf := _ <? page_type_u8 t). assert (negb leaf = match t with IndexInterior | TableInterior => true | _ => false end) as ->.
    { by destruct t. }
    fold (is_nil (a_over a)). destruct (_ || negb _); [done|].
    rewrite Hq. cbn [mbind Result_bind]. rewrite Hf. done.
  - destruct (pstep_refines base usable t Hd (PDrop i) p a HR Hi) as (p' & Hp & HR' & _).
    exists p'. split; [done|]. apply (represents_reads base usable t Hd) in HR' as [_ Hf _ _].
    rewrite Hf. cbn. by rewrite (free_of_delete _ _ _ _ _ _ Hc).
Qed.

End claims.

(** ** A page of 512 bytes *)

(** A table leaf cell with row id [r] and [n] payload bytes. *)
Definition demo_cell (r n : Z) : bytes := n :: r :: replicate (Z.to_nat n) r.

Definition demo_page (buf : bytes) : PageInner := mkPage 0 1 100 0 0 (Some buf) [].

Definition demo_ops : list PageOp :=
  [PInsert 0 (demo_cell 1 118) false; PInsert 1 (demo_cell 2 118) false; PInsert 1 (demo_cell 3 118) false;
   PDrop 1; PInsert 2 (demo_cell 4 120) false; PDefragment 0; PDrop 0; PInsert 0 (demo_cell 5 1) false;
   PInsert 3 (demo_cell 6 127) false; PInsert 3 (demo_cell 7 127) false].

Lemma is_cell_check usable t c :
  forallb (fun z => (0 <=? z) && (z <? 256)) c = true ->
  match raw_cell_len t c 0 usable (max_local usable t) (min_local usable t) with
  | Ok (n, _) => n =? region_size c
  | _ => false
  end = true -> is_cell usable t c.
Proof.
  intros Hb Hr. split; [by apply bytes_ok_dec|]. destruct (raw_cell_len _ _ _ _ _ _) as [[n o]| |]; [|done..].
  exists o. f_equal. f_equal. lia.
Qed.

(** The checks of [valid_run], evaluated. *)
Fixpoint valid_runb (base usable : Z) (t : PageType) (ops : list PageOp) (a : APage) : bool :=
  match ops with
  | [] => true
  | op :: ops =>
      match op with
      | PInsert i c allow =>
          forallb (fun z => (0 <=? z) && (z <? 256)) c &&
          match raw_cell_len t c 0 usable (max_local usable t) (min_local usable t) with
          | Ok (n, _) => n =? region_size c
          | _ => false
          end &&
          (Z.of_nat i <=? lenZ (a_cells a) + lenZ (a_over a)) &&
          (negb (on_page base usable t a c allow) || (i <=? length (a_cells a))%nat)
      | PDrop i => (i <? length (a_cells a))%nat
      | PDefragment _ => true
      end && valid_runb base usable t ops (astep base usable t op a)
  end.

Lemma valid_runb_ok base usable t ops : forall a,
  valid_runb base usable t ops a = true -> valid_run base usable t ops a.
Proof.
  induction ops as [|op ops IH]; intros a Hv; [done|]. cbn [valid_runb] in Hv. apply andb_prop in Hv as [Hv Hr].
  split; [|by apply IH]. destruct op as [i c allow|i|mf]; cbn.
  - apply andb_prop in Hv as [[[Hb Hc]%andb_prop Hi]%andb_prop Hon]. split_and!; [by apply is_cell_check|lia|].
    intros E. rewrite E in Hon. cbn in Hon. by apply Nat.leb_le.
  - by apply Nat.ltb_lt.
  - done.
Qed.

Lemma dims_512 : dims 100 512.
Proof. split; [by right|lia]. Qed.

Lemma page_behaves_as_list_witness :
  exists p0 p', btree_init_page (demo_page (replicate 512 0)) TableLeaf 512 = Ok p0 /\ prun 512 demo_ops p0 = Ok p' /\
    reads_as 100 512 TableLeaf p' (arun 100 512 TableLeaf demo_ops (mkAPage [] [])) /\
    forall a n, 0 <= a -> a + n <= 100 \/ 512 <= a -> sub (as_ptr p') a n = sub (replicate 512 0) a n.
Proof.
  apply (page_behaves_as_list 100 512 TableLeaf demo_ops (demo_page (replicate 512 0)) (replicate 512 0)).
  - exact dims_512.
  - reflexivity.
  - reflexivity.
  - vm_compute. discriminate.
  - apply bytes_ok_dec. vm_compute. reflexivity.
  - apply valid_runb_ok. vm_compute. reflexivity.
Defined.

(** A page with the cells of [demo_ops]. *)
Lemma demo_represents : exists p,
  represents 100 512 TableLeaf p (arun 100 512 TableLeaf (take 5 demo_ops) (mkAPage [] [])).
Proof.
  destruct (init_represents 100 512 TableLeaf dims_512 (demo_page (replicate 512 0)) (replicate 512 0)) as (p0 & _ & HR & _);
    [done|done|done|by apply bytes_ok_dec|].
  destruct (prun_refines 100 512 TableLeaf dims_512 (take 5 demo_ops) p0 _ HR) as (p & _ & HR' & _); [|by exists p].
  apply valid_runb_ok. vm_compute. reflexivity.
Qed.

Lemma insert_drop_roundtrip_witness : exists p a p1 p2,
  insert_into_cell p (demo_cell 9 10) 1 512 = Ok p1 /\ page_drop_cell p1 1 512 = Ok p2 /\
  reads_as 100 512 TableLeaf p1 (mkAPage (insert_at 1 (demo_cell 9 10) (a_cells a)) []) /\
  reads_as 100 512 TableLeaf p2 a.
Proof.
  destruct demo_represents as [p HR]. exists p, (arun 100 512 TableLeaf (take 5 demo_ops) (mkAPage [] [])).
  apply (insert_drop_roundtrip 100 512 TableLeaf p _ 1 (demo_cell 9 10)).
  - exact dims_512.
  - exact HR.
  - apply is_cell_check; vm_compute; reflexivity.
  - vm_compute. repeat constructor.
  - vm_compute. reflexivity.
  - vm_compute. discriminate.
Defined.

Lemma defragment_full_contiguous_witness : exists p buf',
  defragment_page_full 100 512 (as_ptr p) = Ok buf' /\
  reads_as 100 512 TableLeaf (set_buffer p buf') (arun 100 512 TableLeaf (take 5 demo_ops) (mkAPage [] [])) /\
  first_freeblock 100 buf' = Ok 0 /\ num_frag_free_bytes 100 buf' = Ok 0 /\
  exists start ca, unallocated_region_start 100 buf' = Ok start /\ cell_content_area 100 buf' = Ok ca /\
    ca - start = 36.
Proof.
  destruct demo_represents as [p HR]. exists p.
  apply (defragment_full_contiguous 100 512 TableLeaf p _ dims_512 HR).
Defined.

Lemma balance_check_exact_witness : exists p,
  delete_may_need_balancing p 1 512 = Ok false /\
  exists p', page_drop_cell p 1 512 = Ok p' /\ compute_free_space 100 512 (as_ptr p') = Ok 158.
Proof.
  destruct demo_represents as [p HR]. exists p.
  apply (balance_check_exact 100 512 TableLeaf p _ 1 dims_512 HR). vm_compute. repeat constructor.
Defined.
