(* ===== verification/BtreeRobust.v ===== *)
(** * BtreeRobust: pages with arbitrary contents

    The free-space functions read offsets and sizes from the page.  On a page
    with arbitrary bytes they return a result or the [Corrupt] error; they do
    not index out of range, underflow or loop.  Every page operation that
    succeeds keeps the length of the buffer and writes bytes. *)

From stdpp Require Import sets.
From S2P Require Import Prelude Varint OnDisk Page BtreePage BtreeSpace BtreeCells BtreeInsert BtreeRefine.

(** A result that is an error or satisfies [P]; never a panic. *)
Definition safe {A} (P : A -> Prop) (r : Result A) : Prop :=
  match r with Ok a => P a | Err _ => True | Panic => False end.

(** A result that satisfies [P] when there is one. *)
Definition typed {A} (P : A -> Prop) (r : Result A) : Prop := forall a, r = Ok a -> P a.

Lemma safe_bind {A B} (P : A -> Prop) (Q : B -> Prop) (m : Result A) f :
  safe P m -> (forall a, P a -> safe Q (f a)) -> safe Q (mbind f m).
Proof. destruct m; cbn; auto. Qed.

Lemma safe_check {B} (Q : B -> Prop) b (f : unit -> Result B) :
  (b = true -> safe Q (f tt)) -> safe Q (mbind f (or_corrupt b)).
Proof. destruct b; cbn; auto. Qed.

Lemma typed_bind {A B} (P : A -> Prop) (Q : B -> Prop) (m : Result A) f :
  typed P m -> (forall a, P a -> typed Q (f a)) -> typed Q (mbind f m).
Proof. intros Hm Hf b (a & Ha & Hb)%bind_Ok. exact (Hf a (Hm a Ha) b Hb). Qed.

Lemma typed_any {A B} (Q : B -> Prop) (m : Result A) f :
  (forall a, m = Ok a -> typed Q (f a)) -> typed Q (mbind f m).
Proof. intros Hf b (a & Ha & Hb)%bind_Ok. exact (Hf a Ha b Hb). Qed.

(** Skips reads and checks, whose results do not matter for what is written. *)
#[local] Ltac skip := apply typed_any; intros ? _.

Lemma typed_Ok {A} (P : A -> Prop) a : P a -> typed P (Ok a).
Proof. by intros ? b [= ->]. Qed.

(** A buffer of [n] bytes. *)
Definition buf_of (n : Z) (b : bytes) : Prop := lenZ b = n /\ bytes_ok b.

(** ** Reads and writes *)

Lemma read16_safe n buf a : buf_of n buf -> 0 <= a -> a + 2 <= n -> safe is_u16 (read_u16_no_offset buf a).
Proof. intros [Hl Hb] ? ?. rewrite read_u16_no_offset_ok by lia. apply get16_u16; [done|lia|lia]. Qed.

Lemma header16_safe n base buf pos :
  buf_of n buf -> 0 <= base + pos -> base + pos + 2 <= n -> safe is_u16 (read_u16 base buf pos).
Proof. intros [Hl Hb] ? ?. rewrite read_u16_ok by lia. apply get16_u16; [done|lia|lia]. Qed.

Lemma write_typed n buf a x : buf_of n buf -> bytes_ok x -> typed (buf_of n) (write_slice buf a x).
Proof.
  intros [Hl Hb] Hx b (Ha & Hn & ->)%write_slice_Ok. split; [|by apply splice_ok].
  rewrite lenZ_splice; [done|lia|lia].
Qed.

Lemma write_safe n buf a x :
  buf_of n buf -> bytes_ok x -> 0 <= a -> a + lenZ x <= n -> safe (buf_of n) (write_slice buf a x).
Proof.
  intros HB Hx Ha Hn. pose proof HB as [Hl _]. assert (write_slice buf a x = Ok (splice buf a x)) as E
    by (apply write_slice_Ok; split_and!; (done || lia)).
  rewrite E. exact (write_typed n buf a x HB Hx _ E).
Qed.

Lemma write8_typed n base buf pos v : buf_of n buf -> is_u8 v -> typed (buf_of n) (write_u8 base buf pos v).
Proof.
  intros [Hl Hb] Hv b [Hi ->]%set_idx_Ok. split; [unfold lenZ in *; by rewrite length_insert|].
  by apply Forall_insert.
Qed.

Lemma write8_safe n base buf pos v :
  buf_of n buf -> is_u8 v -> 0 <= base + pos < n -> safe (buf_of n) (write_u8 base buf pos v).
Proof.
  intros HB Hv Hp. pose proof HB as [Hl _].
  destruct (write_u8 base buf pos v) as [b|e|] eqn:E; [exact (write8_typed n _ _ _ _ HB Hv _ E)|done|].
  rewrite write_u8_ok in E by lia. done.
Qed.

(** ** Free space *)

Section robust.
Context (base usable : Z) (Hdims : dims base usable).

Lemma freeblocks_loop_safe n buf fuel : forall cur free,
  buf_of n buf -> usable <= n -> 0 <= cur -> 0 <= free -> (1 <= fuel)%nat -> usable < cur + Z.of_nat fuel ->
  safe (fun f => free <= f) (freeblocks_loop usable fuel buf cur free).
Proof.
  induction fuel as [|fuel IH]; intros cur free HB Hn Hc Hf H1 Hfuel; cbn [freeblocks_loop]; [lia|].
  apply safe_check. intros ?. bool_facts.
  eapply safe_bind; [eapply read16_safe; [done|lia|lia]|]. intros next Hnext.
  eapply safe_bind; [eapply read16_safe; [done|lia|lia]|]. intros size Hsize.
  apply safe_check. intros ?. apply safe_check. intros ?. bool_facts.
  destruct (Z.eqb_spec next 0); [cbn; lia|]. apply safe_check. intros ?. bool_facts.
  pose proof (IH next (free + size) HB Hn ltac:(lia) ltac:(lia) ltac:(lia) ltac:(lia)) as HI.
  destruct (freeblocks_loop _ _ _ _ _); cbn in *; [lia|done|done].
Qed.

Lemma compute_free_space_safe buf :
  bytes_ok buf -> usable <= lenZ buf -> safe (fun n => 0 <= n <= usable) (compute_free_space base usable buf).
Proof.
  intros Hb Hlen. assert (buf_of (lenZ buf) buf) as HB by done. destruct Hdims. unfold compute_free_space.
  assert (safe (fun h => 0 <= fs_header_size h /\ 0 <= fs_cell_count h /\ 0 <= fs_first_freeblock h /\
    0 <= fs_cell_content_area h /\ 0 <= fs_num_frag_free_bytes h) (btree_free_space_fields base buf)) as Hh.
  { rewrite free_space_fields_ok with (usable := usable) by (done || lia). cbn.
    pose proof (get16_u16 buf (base + 3) Hb ltac:(lia) ltac:(lia)). pose proof (get16_u16 buf (base + 1) Hb ltac:(lia) ltac:(lia)).
    pose proof (get16_u16 buf (base + 5) Hb ltac:(lia) ltac:(lia)). pose proof (get8_u8 buf (base + 7) Hb ltac:(lia)).
    unfold is_u16, is_u8, hsize_of, PageSize_MAX in *. repeat case_match; lia. }
  eapply safe_bind; [exact Hh|]. intros h (? & ? & ? & ? & ?). cbn beta zeta.
  apply safe_check. intros ?. apply safe_check. intros ?. bool_facts.
  eapply (safe_bind (fun f => 0 <= f)).
  - destruct (0 <? fs_first_freeblock h); [|cbn; lia]. apply safe_check. intros ?.
    pose proof (freeblocks_loop_safe _ buf (S (Z.to_nat usable)) (fs_first_freeblock h)
      (fs_cell_content_area h + fs_num_frag_free_bytes h) HB Hlen ltac:(lia) ltac:(lia) ltac:(lia) ltac:(lia)) as Hl.
    destruct (freeblocks_loop _ _ _ _ _); cbn in *; [lia|done|done].
  - intros free Hfree. apply safe_check. intros ?. apply safe_check. intros ?. bool_facts. cbn. lia.
Qed.

(** ** Freeing a range *)

Lemma find_position_safe n buf offset fuel : forall prev next,
  buf_of n buf -> usable <= n -> offset + 4 <= usable -> (1 <= fuel)%nat ->
  match next with Some x => 0 < x | None => True end ->
  match prev with Some p => 0 <= p < offset | None => True end ->
  offset < match prev with Some p => p + 1 | None => 0 end + Z.of_nat fuel ->
  safe (fun r => match r.1 with Some p => 0 <= p < offset | None => True end /\
                 match r.2 with Some x => 0 < x /\ offset <= x | None => True end)
    (find_position fuel buf offset prev next).
Proof.
  induction fuel as [|fuel IH]; intros prev next HB Hn Ho H1 Hnext Hprev Hfuel; [lia|]. cbn [find_position].
  destruct next as [x|]; [|done]. apply safe_check. intros Hpx.
  destruct (Z.leb_spec offset x); [cbn; auto|].
  eapply safe_bind; [eapply read16_safe; [done|lia|lia]|]. intros after Hafter. unfold is_u16 in Hafter.
  apply IH; try done; try lia.
  - destruct prev; bool_facts; lia.
  - destruct (Z.eqb_spec after 0); [done|lia].
  - destruct prev; bool_facts; lia.
Qed.

Lemma merge_next_safe n buf offset e next :
  buf_of n buf -> usable <= n -> e <= usable -> match next with Some x => 0 < x | None => True end ->
  safe (fun '(e', removed, next') => e <= e' <= usable /\ 0 <= removed /\
          match next' with Some x => 0 < x < 65536 | None => True end)
    (merge_next usable buf offset e next).
Proof.
  intros HB Hn He Hx. destruct Hdims. unfold merge_next, MINIMUM_CELL_SIZE. destruct next as [x|]; [|cbn; lia].
  apply safe_check. intros ?. bool_facts. destruct (Z.leb_spec x (e + 3)); [|cbn; lia].
  apply safe_check. intros ?. bool_facts.
  eapply safe_bind; [eapply read16_safe; [done|lia|lia]|]. intros size Hsize. apply safe_check. intros ?. bool_facts.
  eapply safe_bind; [eapply read16_safe; [done|lia|lia]|]. intros after Hafter. unfold is_u16 in *.
  cbn. destruct (Z.eqb_spec after 0); split_and!; (done || lia).
Qed.

Lemma merge_prev_safe n buf offset removed prev :
  buf_of n buf -> usable <= n -> offset + 4 <= usable -> 0 <= offset -> 0 <= removed ->
  match prev with Some p => 0 <= p < offset | None => True end ->
  safe (fun '(start, removed') => 0 <= start <= offset /\ 0 <= removed') (merge_prev buf offset removed prev).
Proof.
  intros HB Hn Ho H0 Hr Hp. unfold merge_prev. destruct prev as [p|]; [|cbn; lia].
  eapply safe_bind; [eapply read16_safe; [done|lia|lia]|]. intros size Hsize. cbn beta zeta.
  apply safe_check. intros ?. bool_facts. destruct (Z.leb_spec offset (p + size + 3)); cbn; lia.
Qed.

Lemma to_u16_safe x : 0 <= x < 65536 -> safe (eq x) (to_u16 x).
Proof. intros. rewrite to_u16_ok by done. done. Qed.

Lemma write16_safe n buf a v : buf_of n buf -> 0 <= a -> a + 2 <= n -> safe (buf_of n) (write_slice buf a (be_split 2 v)).
Proof. intros. apply write_safe; [done|apply be_split_ok|done|]. rewrite be_split_lenZ. done. Qed.

Lemma freeblock_safe n buf offset size next :
  buf_of n buf -> 0 <= offset -> offset + 4 <= n -> safe (buf_of n) (write_freeblock buf offset size next).
Proof.
  intros HB Ho Hn. eapply safe_bind; [apply write16_safe; [exact HB|lia|lia]|].
  intros b Hb. apply write16_safe; [done|lia|lia].
Qed.

Lemma place_range_safe n buf ca first start e prev next :
  buf_of n buf -> usable <= n -> 0 < ca -> 0 <= start -> start + 4 <= e <= usable ->
  match prev with Some p => 0 <= p <= usable - 4 | None => True end ->
  match next with Some x => 0 < x < 65536 | None => True end ->
  safe (buf_of n) (place_range base buf ca first start e prev next).
Proof.
  intros HB Hn Hca Hs He Hp Hx. destruct Hdims.
  assert (forall b v pos, buf_of n b -> 0 <= pos <= 6 -> safe (buf_of n) (write_u16 base b pos v)) as Hw.
  { intros. apply write16_safe; [done|lia|lia]. }
  unfold place_range. apply safe_check. intros ?. bool_facts. destruct (Z.eqb_spec start ca).
  - apply safe_check. intros _. eapply safe_bind; [|intros b Hb; by apply Hw].
    destruct next as [x|]; [|by apply Hw]. apply safe_check. intros _.
    eapply safe_bind; [apply to_u16_safe; lia|]. intros y <-. by apply Hw.
  - eapply safe_bind; [apply to_u16_safe; lia|]. intros y <-.
    eapply (safe_bind (buf_of n)).
    + destruct prev; [apply write16_safe; [done|lia|lia]|by apply Hw].
    + intros b Hb. eapply safe_bind; [apply to_u16_safe; lia|]. intros y <-. apply freeblock_safe; [done|lia|lia].
Qed.

Lemma content_area_safe buf :
  bytes_ok buf -> usable <= lenZ buf -> safe (fun ca => 0 < ca) (cell_content_area base buf).
Proof.
  intros Hb Hl. destruct Hdims. unfold cell_content_area, BTREE_CELL_CONTENT_AREA.
  eapply safe_bind; [apply (header16_safe (lenZ buf)); [done|lia|lia]|]. intros v Hv. unfold is_u16, PageSize_MAX in *.
  cbn. destruct (Z.eqb_spec v 0); lia.
Qed.

Lemma free_cell_range_safe buf offset len :
  bytes_ok buf -> usable <= lenZ buf -> 0 <= offset ->
  safe (buf_of (lenZ buf)) (free_cell_range base usable buf offset len).
Proof.
  intros Hb Hl Ho. assert (buf_of (lenZ buf) buf) as HB by done. destruct Hdims.
  assert (forall b v pos, buf_of (lenZ buf) b -> 0 <= pos <= 6 -> safe (buf_of (lenZ buf)) (write_u16 base b pos v)) as Hw.
  { intros. apply write16_safe; [done|lia|lia]. }
  unfold free_cell_range, saturating_sub, MINIMUM_CELL_SIZE. apply safe_check. intros ?. apply safe_check. intros ?.
  cbn beta zeta. apply safe_check. intros ?. bool_facts.
  eapply safe_bind; [by apply content_area_safe|]. cbn beta. intros ca Hca.
  eapply safe_bind; [apply (header16_safe (lenZ buf)); [done|unfold BTREE_FIRST_FREEBLOCK; lia..]|]. intros first Hf.
  unfold is_u16 in Hf. destruct (Z.eqb_spec first 0).
  - apply safe_check. intros ?. bool_facts. destruct (Z.eqb_spec offset ca); [by apply Hw|].
    eapply safe_bind; [apply to_u16_safe; lia|]. intros y <-.
    eapply safe_bind; [by apply Hw|]. intros b HBb. eapply safe_bind; [apply to_u16_safe; lia|]. intros y <-.
    apply freeblock_safe; [done|lia|lia].
  - eapply safe_bind; [apply (find_position_safe (lenZ buf)); (done || lia)|]. intros [prev next] [Hp Hx]. cbn in Hp, Hx.
    eapply safe_bind; [apply (merge_next_safe (lenZ buf)); try done; destruct next; (done || lia)|].
    intros [[e removed] next'] (He & Hr & Hnx).
    eapply safe_bind; [apply (merge_prev_safe (lenZ buf)); (done || lia)|]. intros [start removed'] [Hs Hr'].
    unfold num_frag_free_bytes, read_u8, BTREE_FRAGMENTED_BYTES_COUNT. rewrite idx_get8 by lia. cbn [mbind Result_bind].
    apply safe_check. intros ?. bool_facts. pose proof (get8_u8 buf (base + 7) Hb ltac:(lia)) as H8. unfold is_u8 in H8.
    eapply safe_bind; [apply (write8_safe (lenZ buf)); [done|unfold is_u8; lia|unfold BTREE_FRAGMENTED_BYTES_COUNT; lia]|].
    intros b HBb. apply place_range_safe; try done; try lia. destruct prev; (done || lia).
Qed.

(** ** What the operations write *)

Lemma safe_typed {A} (P : A -> Prop) r : safe P r -> typed P r.
Proof. intros Hs a ->. exact Hs. Qed.

Lemma copy_typed n buf a b dst : buf_of n buf -> typed (buf_of n) (copy_within buf a b dst).
Proof.
  intros HB. apply typed_any. intros x (_ & _ & ->)%slice_Ok. apply write_typed; [done|].
  destruct HB as [_ Hb]. by apply Forall_take, Forall_drop.
Qed.

Lemma write16_typed n buf a v : buf_of n buf -> typed (buf_of n) (write_slice buf a (be_split 2 v)).
Proof. intros. apply write_typed; [done|apply be_split_ok]. Qed.


Lemma read8_byte buf a v : bytes_ok buf -> idx buf a = Ok v -> is_u8 v.
Proof.
  intros Hb Hr. unfold idx, unwrap in Hr. destruct (getZ buf a) eqn:E; [|done].
  injection Hr as ->. unfold getZ in E. case_match; [done|]. eapply Forall_lookup_1; [exact Hb|exact E].
Qed.

Lemma find_slot_loop_typed n amount mx fuel : forall buf prev cur,
  buf_of n buf -> typed (fun r => buf_of n r.2) (find_slot_loop base usable fuel buf amount mx prev cur).
Proof.
  induction fuel as [|fuel IH]; intros buf prev cur HB; cbn [find_slot_loop]; [done|].
  apply typed_any. intros _ _. apply typed_any. intros c _. apply typed_any. intros [next size] _.
  destruct (Z.ltb_spec size amount).
  { destruct (next =? 0); [by apply typed_Ok|]. apply typed_any. intros _ _. by apply IH. }
  cbn beta zeta. destruct (Z.ltb_spec (size - amount) MINIMUM_CELL_SIZE).
  - apply typed_any. intros frag Hfrag. apply (read8_byte buf) in Hfrag; [|by destruct HB]. unfold MINIMUM_CELL_SIZE in *.
    destruct (Z.ltb_spec 57 frag); [by apply typed_Ok|].
    eapply (typed_bind (buf_of n)); [destruct prev; by apply write16_typed|]. intros b Hb.
    eapply (typed_bind (buf_of n)); [apply write8_typed; [done|unfold is_u8 in *; lia]|]. intros b' Hb'. by apply typed_Ok.
  - apply typed_any. intros _ _. eapply (typed_bind (buf_of n)); [by apply write16_typed|]. intros b Hb. by apply typed_Ok.
Qed.

Lemma shift_cell_ptrs_typed n first second total size k : forall buf off,
  buf_of n buf -> typed (buf_of n) (shift_cell_ptrs usable k buf off first second total size).
Proof.
  induction k as [|k IH]; intros buf off HB; cbn [shift_cell_ptrs]; [by apply typed_Ok|].
  apply typed_any. intros p _. eapply (typed_bind (buf_of n)); [|intros b Hb; by apply IH].
  destruct (p <? first); [|destruct (_ && _)]; [..|by apply typed_Ok]; apply typed_any; intros _ _; by apply write16_typed.
Qed.

Lemma defragment_fast_typed n buf first second :
  buf_of n buf -> typed (buf_of n) (defragment_page_fast base usable buf first second).
Proof.
  intros HB. unfold defragment_page_fast. do 5 skip. do 2 skip.
  cbn beta zeta. apply typed_any. intros ca _. eapply (typed_bind (buf_of n)).
  { destruct (0 <? second); [|apply typed_any; intros ? _; by apply typed_Ok].
    do 2 skip. by apply copy_typed. }
  intros b1 Hb1. do 2 skip.
  eapply (typed_bind (buf_of n)); [by apply copy_typed|]. intros b2 Hb2. do 2 skip.
  eapply (typed_bind (buf_of n)); [by apply shift_cell_ptrs_typed|]. intros b3 Hb3.
  eapply (typed_bind (buf_of n)); [by apply write16_typed|]. intros b4 Hb4. by apply write16_typed.
Qed.

Lemma pack_cells_typed n array fb cells : forall buf cbrk,
  buf_of n buf -> typed (fun r => buf_of n r.1) (pack_cells usable cells buf array fb cbrk).
Proof.
  induction cells as [|c cells IH]; intros buf cbrk HB; cbn [pack_cells]; [by apply typed_Ok|].
  do 2 skip.
  eapply (typed_bind (buf_of n)); [destruct (negb _); [by apply copy_typed|by apply typed_Ok]|]. intros b Hb.
  skip. eapply (typed_bind (buf_of n)); [by apply write16_typed|]. intros b' Hb'. by apply IH.
Qed.

(** The header as [defragment_page] and [drop_cell] reset it. *)
Lemma reset_typed n buf ca :
  buf_of n buf -> typed (buf_of n)
    (buf ← write_cell_content_area base buf ca;
     buf ← write_first_freeblock base buf 0;
     write_fragmented_bytes_count base buf 0).
Proof.
  intros HB. eapply (typed_bind (buf_of n)); [by apply write16_typed|]. intros b1 Hb1.
  eapply (typed_bind (buf_of n)); [by apply write16_typed|]. intros b2 Hb2. by apply write8_typed.
Qed.

Lemma defragment_typed n buf mf : buf_of n buf -> typed (buf_of n) (defragment_page base usable buf mf).
Proof.
  intros HB. assert (forall count, typed (buf_of n) (defragment_slow base usable buf count)) as Hslow.
  { intros count. unfold defragment_slow, process_cells. do 2 skip.
    apply typed_any. intros [cells sorted] _. do 3 skip.
    eapply (typed_bind (fun r => buf_of n r.1)); [by apply pack_cells_typed|]. intros [b cbrk] Hb. by apply reset_typed. }
  unfold defragment_page. apply typed_any. intros count _. destruct (count =? 0); [by apply reset_typed|].
  apply typed_any. intros frag _. destruct (frag <=? mf); [|apply Hslow].
  apply typed_any. intros first _. destruct (first =? 0); [by apply typed_Ok|].
  apply typed_any. intros second _. destruct (second =? 0); [by apply defragment_fast_typed|].
  apply typed_any. intros third _. destruct (third =? 0); [by apply defragment_fast_typed|apply Hslow].
Qed.

Lemma allocate_typed n buf amount free :
  buf_of n buf -> typed (fun r => buf_of n r.2) (allocate_cell_space base usable buf amount free).
Proof.
  intros HB. unfold allocate_cell_space. cbn beta zeta. do 3 skip.
  eapply (typed_bind (fun r => buf_of n r.2)).
  { destruct (_ && _); [|by apply typed_Ok]. unfold find_free_slot. do 2 skip.
    destruct (_ =? 0); [by apply typed_Ok|by apply find_slot_loop_typed]. }
  intros [slot b] Hb. cbn in Hb. destruct slot; [by apply typed_Ok|].
  eapply (typed_bind (fun r => buf_of n r.2)).
  { destruct (_ <? _); [|by apply typed_Ok]. eapply (typed_bind (buf_of n)); [by apply defragment_typed|].
    intros b' Hb'. skip. by apply typed_Ok. }
  intros [ca b'] Hb'. skip.
  eapply (typed_bind (buf_of n)); [by apply write16_typed|]. intros b2 Hb2. skip. by apply typed_Ok.
Qed.

Lemma insert_on_page_typed n buf payload i free :
  buf_of n buf -> bytes_ok payload -> typed (buf_of n) (insert_on_page base usable buf payload i free).
Proof.
  intros HB Hp. unfold insert_on_page. do 2 skip.
  eapply (typed_bind (fun r => buf_of n r.2)); [by apply allocate_typed|]. intros [pc b] Hb. cbn in Hb.
  skip. eapply (typed_bind (buf_of n)); [by apply write_typed|]. intros b1 Hb1.
  apply typed_any. intros [array size] _. cbn beta zeta. do 2 skip.
  eapply (typed_bind (buf_of n)); [destruct (_ <? _); [by apply copy_typed|by apply typed_Ok]|]. intros b2 Hb2.
  eapply (typed_bind (buf_of n)); [by apply write16_typed|]. intros b3 Hb3.
  skip. by apply write16_typed.
Qed.

Lemma raw_start_nonneg buf i start len :
  bytes_ok buf -> cell_get_raw_region base buf i usable = Ok (start, len) -> 0 <= start.
Proof.
  intros Hb Hr. unfold cell_get_raw_region in Hr. apply bind_Ok in Hr as ([[s l] o] & Hr & [= <- <-]).
  unfold cell_get_raw_region_and_overflow in Hr. apply bind_Ok in Hr as (t & _ & Hr).
  apply bind_Ok in Hr as (count & _ & Hr). unfold cell_get_raw_region_faster in Hr.
  apply bind_Ok in Hr as (_ & _ & Hr). apply bind_Ok in Hr as (s' & Hs & Hr).
  apply bind_Ok in Hr as ([l' ov] & _ & Hr). apply bind_Ok in Hr as (_ & _ & Hr).
  assert (s' = s) as -> by (destruct ov; [apply bind_Ok in Hr as (? & _ & Hr)|]; by injection Hr).
  unfold cell_get_raw_start_offset in Hs. apply bind_Ok in Hs as (a & _ & Hs).
  unfold read_u16_no_offset in Hs. apply bind_Ok in Hs as (b0 & H0 & Hs). apply bind_Ok in Hs as (b1 & H1 & [= <-]).
  apply be_combine_bound. apply (read8_byte buf) in H0; [|done]. apply (read8_byte buf) in H1; [|done]. by apply Forall_cons; split; [|apply Forall_singleton].
Qed.

Lemma drop_typed buf i :
  bytes_ok buf -> usable <= lenZ buf -> typed (buf_of (lenZ buf)) (drop_cell base usable buf i).
Proof.
  intros Hb Hl. set (n := lenZ buf). unfold drop_cell. apply typed_any. intros [start len] Hr.
  pose proof (raw_start_nonneg _ _ _ _ Hb Hr).
  eapply (typed_bind (buf_of n)); [by apply safe_typed, free_cell_range_safe|]. intros b Hb1.
  skip. eapply (typed_bind (buf_of n)).
  - destruct (_ <? _); [|by apply reset_typed]. unfold shift_pointers_left. do 2 skip.
    apply typed_any. intros [array size] _. cbn beta zeta. skip. by apply copy_typed.
  - intros b2 Hb2. do 2 skip. by apply write16_typed.
Qed.

(** The payloads of the operations are bytes. *)
Definition op_bytes (op : PageOp) : Prop :=
  match op with PInsert _ c _ => bytes_ok c | _ => True end.

Lemma pstep_typed op p :
  op_bytes op -> header_offset p = base -> bytes_ok (as_ptr p) -> usable <= lenZ (as_ptr p) ->
  typed (fun p' => buf_of (lenZ (as_ptr p)) (as_ptr p') /\ header_offset p' = base) (pstep usable op p).
Proof.
  intros Hop Hbase Hb Hl. set (n := lenZ (as_ptr p)). assert (buf_of n (as_ptr p)) as HB by done.
  destruct op as [i c allow|i|mf]; cbn [pstep]; unfold insert_into_cell_impl, page_drop_cell; rewrite Hbase.
  - do 3 skip. cbn beta zeta. destruct (negb _).
    + apply typed_any. intros t _. by apply typed_Ok.
    + eapply (typed_bind (buf_of n)); [by apply insert_on_page_typed|]. intros b Hb'. by apply typed_Ok.
  - eapply (typed_bind (buf_of n)); [by apply drop_typed|]. intros b Hb'. by apply typed_Ok.
  - eapply (typed_bind (buf_of n)); [by apply defragment_typed|]. intros b Hb'. by apply typed_Ok.
Qed.

End robust.

Section claims.
Context (base usable : Z).

(** C22: on a page with arbitrary contents [compute_free_space] returns the
    [Corrupt] error or a number between zero and the usable space; it never
    reads out of range, underflows or loops. *)
Theorem compute_free_space_robust buf :
  dims base usable -> bytes_ok buf -> usable <= lenZ buf ->
  safe (fun n => 0 <= n <= usable) (compute_free_space base usable buf).
Proof. intros. by apply compute_free_space_safe. Qed.

(** C23: on a page with arbitrary contents, freeing any range of bytes returns
    an error or a page of the same length; it never indexes out of range,
    underflows, loops on a cyclic free-block list or writes a value that does
    not fit its field. *)
Theorem free_cell_range_robust buf offset len :
  dims base usable -> bytes_ok buf -> usable <= lenZ buf -> 0 <= offset ->
  safe (buf_of (lenZ buf)) (free_cell_range base usable buf offset len).
Proof. intros. by apply free_cell_range_safe. Qed.

(** Whatever the contents of the page, insertions, deletions and
    defragmentations that succeed keep the length of the page buffer, write
    only byte values into it and keep the offset of the page header. *)
Theorem page_ops_typed ops p p' :
  dims base usable -> Forall op_bytes ops -> header_offset p = base -> bytes_ok (as_ptr p) ->
  usable <= lenZ (as_ptr p) -> prun usable ops p = Ok p' ->
  lenZ (as_ptr p') = lenZ (as_ptr p) /\ bytes_ok (as_ptr p') /\ header_offset p' = base.
Proof.
  intros Hd Hops. revert p. induction Hops as [|op ops Hop Hops IH]; intros p Hb Hok Hl Hrun.
  - by injection Hrun as ->.
  - cbn in Hrun. apply bind_Ok in Hrun as (p1 & Hp1 & Hrun).
    destruct (pstep_typed base usable Hd op p Hop Hb Hok Hl p1 Hp1) as [[Hl1 Hok1] Hb1].
    destruct (IH p1 Hb1 Hok1 ltac:(lia) Hrun) as (? & ? & ?). split_and!; (done || lia).
Qed.

End claims.

(** ** Pages without structure *)

Definition junk_page : bytes := replicate 512 255.

Lemma junk_ok : bytes_ok junk_page /\ 512 <= lenZ junk_page.
Proof. split; [by apply bytes_ok_dec|vm_compute; discriminate]. Qed.

Lemma compute_free_space_robust_witness :
  safe (fun n => 0 <= n <= 512) (compute_free_space 0 512 junk_page) /\
  compute_free_space 0 512 junk_page = Err Corrupt.
Proof.
  split; [|vm_compute; reflexivity].
  apply (compute_free_space_robust 0 512); [split; [by left|lia]|apply junk_ok|apply junk_ok].
Defined.

Lemma free_cell_range_robust_witness :
  safe (buf_of (lenZ junk_page)) (free_cell_range 0 512 junk_page 100 20) /\
  free_cell_range 0 512 junk_page 100 20 = Err Corrupt.
Proof.
  split; [|vm_compute; reflexivity].
  apply (free_cell_range_robust 0 512); [split; [by left|lia]|apply junk_ok|apply junk_ok|lia].
Defined.

(** The junk page initialised, and after the operations of the demonstration. *)
Definition junk_init : PageInner :=
  match btree_init_page (demo_page junk_page) TableLeaf 512 with Ok p => p | _ => demo_page [] end.
Definition junk_after : PageInner :=
  match prun 512 demo_ops junk_init with Ok p => p | _ => demo_page [] end.

Lemma demo_ops_bytes : Forall op_bytes demo_ops.
Proof.
  unfold demo_ops.
  repeat match goal with |- Forall op_bytes (_ :: _) => apply List.Forall_cons end; [..|apply List.Forall_nil];
    cbn [op_bytes]; first [exact I|apply bytes_ok_dec; vm_compute; reflexivity].
Qed.

Lemma page_ops_typed_witness :
  lenZ (as_ptr junk_after) = 512 /\ bytes_ok (as_ptr junk_after) /\ header_offset junk_after = 100.
Proof.
  apply (page_ops_typed 100 512 demo_ops junk_init junk_after).
  - exact dims_512.
  - exact demo_ops_bytes.
  - vm_compute. reflexivity.
  - apply bytes_ok_dec. vm_compute. reflexivity.
  - vm_compute. discriminate.
  - vm_compute. reflexivity.
Defined.
