(* ===== verification/BtreeFragments.v ===== *)
(** * BtreeFragments: a header that overstates the fragmented bytes

    [compute_free_space] takes the number of fragmented bytes from the page
    header.  For a page that is well-formed except that the header claims more
    fragmented bytes than there are, this file shows what an insertion does that
    relies on them: it defragments the page, does not check that this gave the
    free space it had counted, and puts the cell over the cell pointer array. *)

From stdpp Require Import sets.
From S2P Require Import Prelude Varint OnDisk Page BtreePage BtreeSpace BtreeCells BtreeDefrag BtreeInsert BtreeRefine.

(** The page with [f] as the number of fragmented bytes in its header. *)
Definition overstate (p : PageInner) (f : Z) : PageInner := set_buffer p (splice (as_ptr p) (header_offset p + 7) [f]).

Section fragments.
Context (base usable : Z) (t : PageType) (Hdims : dims base usable).
#[local] Abbreviation lo := (lo_of base t).
#[local] Abbreviation arr := (arr base t).
#[local] Abbreviation free := (free_of base usable t).

(** Only the count changes. *)
Lemma overstated_but buf ca fbs ptrs cells f :
  page_wf base usable t buf ca fbs ptrs cells -> 0 <= f <= 255 ->
  page_but base usable t (splice buf (base + 7) [f]) ca fbs ptrs cells.
Proof.
  intros HW Hf. pose proof HW as [[[] ? Hcells] []]. destruct Hdims. pose proof (arr_range base t). unfold lo_of in so_lo.
  pose proof (lenZ_nonneg cells). assert (lenZ [f] = 1) as Hl1 by done.
  constructor; [constructor; [constructor| |]|constructor]; try done.
  - rewrite get8_ne by lia. done.
  - rewrite get16_ne by lia. done.
  - intros i p Hp. rewrite get16_ne by lia. by apply ar_ptrs.
  - intros i p c Hp Hc. destruct (Hcells i p c Hp Hc) as [Hsub ?]. split; [|done].
    destruct (cell_range _ _ _ _ _ _ _ _ _ _ _ HW Hp Hc) as (? & _). rewrite sub_splice_ne by lia. done.
  - rewrite lenZ_splice by lia. done.
  - apply splice_ok; [done|]. constructor; [unfold is_u8; lia|constructor].
  - rewrite get16_ne by lia. done.
  - rewrite get16_ne by lia. apply seg_splice; [done|lia|lia|].
    eapply Forall_impl; [exact (ascending_forall _ _ _ so_asc)|]. cbn. lia.
Qed.

(** A write to the header leaves the pointer array. *)
Lemma array_splice buf ptrs a x :
  array_at base t buf ptrs -> usable <= lenZ buf -> arr + 2 * lenZ ptrs <= usable ->
  base + 5 <= a -> a + lenZ x <= base + 8 -> array_at base t (splice buf a x) ptrs.
Proof.
  intros [] Hl Hlo Ha Hx. destruct Hdims. pose proof (arr_range base t). pose proof (lenZ_nonneg x). constructor.
  - rewrite get8_ne by lia. done.
  - rewrite get16_ne by lia. done.
  - intros i p Hp. rewrite get16_ne by lia. by apply ar_ptrs.
Qed.

Lemma block_le_sizes (b : block) fbs : Forall (fun b : block => 0 <= b.2) fbs -> b ∈ fbs -> b.2 <= sizes fbs.
Proof.
  induction fbs as [|c fbs IH]; intros Hall Hb; [by apply elem_of_nil in Hb|]. apply Forall_cons in Hall as [Hc Hall]. rewrite sizes_cons.
  assert (0 <= sizes fbs) by (clear -Hall; induction Hall; rewrite ?sizes_cons; [done|lia]).
  apply elem_of_cons in Hb as [->|Hb]; [lia|]. specialize (IH Hall Hb). lia.
Qed.

(** The count makes the code choose the full defragmentation, after which the
    free bytes are one gap. *)
Lemma defragment_overstated buf ca fbs ptrs cells f mf :
  page_wf base usable t buf ca fbs ptrs cells -> 0 <= f <= 255 -> cells <> [] -> mf < f ->
  exists buf' ptrs', defragment_page base usable (splice buf (base + 7) [f]) mf = Ok buf' /\
    page_wf base usable t buf' (lo cells + free cells) [] ptrs' cells.
Proof.
  intros HW Hf Hne Hmf. pose proof (overstated_but _ _ _ _ _ f HW Hf) as HB. pose proof HB as [[HA Hlen _] []].
  destruct Hdims. pose proof (arr_range base t). pose proof (lenZ_nonneg cells). unfold lo_of in sb_lo.
  destruct (defragment_slow_ok base usable t Hdims _ _ _ _ _ HB) as (buf1 & ca1 & ptrs1 & Hslow & HW1 & _ & Hfrag1).
  exists buf1, ptrs1. pose proof HW1 as [[_ Hlen1 _] HS1]. pose proof (so_sum _ _ _ _ _ _ _ HS1) as Hsum1.
  pose proof (get8_u8 _ (base + 7) (so_bytes _ _ _ _ _ _ _ HS1)) as Hg1. pose proof (so_len _ _ _ _ _ _ _ HS1).
  assert (ca1 = lo cells + free cells) as <-.
  { rewrite (free_of_sizes _ _ _ _ _ Hlen1). cbn in Hsum1. specialize (Hg1 ltac:(lia)). unfold is_u8 in Hg1. lia. }
  split; [|done]. unfold defragment_page. rewrite (cell_count_ok _ _ _ Hdims _ _ HA), Hlen by lia. cbn [mbind Result_bind].
  assert (lenZ cells <> 0) by (destruct cells; [done|unfold lenZ; cbn; lia]). decide_if false.
  unfold num_frag_free_bytes, read_u8, BTREE_FRAGMENTED_BYTES_COUNT. rewrite idx_get8 by lia. cbn [mbind Result_bind].
  pose proof (so_len _ _ _ _ _ _ _ (pw_space _ _ _ _ _ _ _ _ HW)). rewrite get8_splice by lia. decide_if false. done.
Qed.

Lemma allocate_overstated buf ca fbs ptrs cells f n claimed :
  page_wf base usable t buf ca fbs ptrs cells -> 0 <= f <= 255 -> cells <> [] ->
  claimed = free cells - get8 buf (base + 7) + f ->
  free cells < Z.max n 4 + 2 <= claimed -> lo cells + claimed <= usable -> Z.max n 4 <= free cells + 2 * lenZ cells ->
  exists buf' ptrs',
    allocate_cell_space base usable (splice buf (base + 7) [f]) n claimed = Ok (lo cells + free cells - Z.max n 4, buf') /\
    array_at base t buf' ptrs' /\ lenZ ptrs' = lenZ cells /\ usable <= lenZ buf' /\ bytes_ok buf' /\
    lo cells + free cells <= usable.
Proof.
  intros HW Hf Hne Hcl Hfit Hroom Hptr. pose proof (overstated_but _ _ _ _ _ f HW Hf) as HB. pose proof HB as [[HA Hlen _] HS].
  pose proof HW as [_ HS0]. pose proof (so_sum _ _ _ _ _ _ _ HS0) as Hsum. pose proof (free_of_sizes base usable t _ _ Hlen) as Hfree.
  pose proof (get8_u8 _ (base + 7) (so_bytes _ _ _ _ _ _ _ HS0)) as Hg8. pose proof (so_len _ _ _ _ _ _ _ HS0) as Hl0. clear HS0.
  destruct Hdims. pose proof HS as []. pose proof (arr_range base t). pose proof (lenZ_nonneg cells). specialize (Hg8 ltac:(lia)). unfold is_u8 in Hg8.
  unfold allocate_cell_space, MINIMUM_CELL_SIZE.
  replace (if n <? 4 then 4 else n) with (Z.max n 4) by (destruct (Z.ltb_spec n 4); lia). set (amount := Z.max n 4) in *.
  rewrite (unallocated_start_ok _ _ _ Hdims _ _ HA) by lia. cbn [mbind Result_bind].
  rewrite (cell_content_area_but base usable Hdims _ _ _ _ _ HS). cbn [mbind Result_bind].
  unfold first_freeblock, BTREE_FIRST_FREEBLOCK, CELL_PTR_SIZE_BYTES. rewrite read_u16_ok by lia.
  cbn [mbind Result_bind]. rewrite Hlen. change (arr + 2 * lenZ cells) with (lo cells).
  assert (Forall (fun b : block => 0 <= b.2) fbs) as Hpos
    by (eapply Forall_impl; [apply (ascending_forall _ _ _ sb_asc)|]; cbn; intros; lia).
  assert (0 <= sizes fbs) as Hs0 by (clear -Hpos; induction Hpos; rewrite ?sizes_cons; [done|lia]).
  match goal with |- context [if negb ?a && ?b then ?x else ?y] => assert ((if negb a && b then x else y) = y) as -> end.
  { destruct (negb _ && (lo cells + 2 <=? ca)) eqn:E; [|done]. bool_facts.
    apply (find_free_slot_none base usable Hdims _ _ _ _ _ _ HS); [unfold lo_of in *; lia|]. apply Forall_forall. intros b Hb.
    pose proof (block_le_sizes b fbs Hpos Hb). lia. }
  cbn [mbind Result_bind]. decide_if true.
  destruct (defragment_overstated _ _ _ _ _ f (Z.min 4 (claimed - (2 + amount))) HW Hf Hne ltac:(lia)) as (buf1 & ptrs1 & -> & HW1).
  cbn [mbind Result_bind]. pose proof HW1 as [[HA1 Hlen1 _] HS1]. rewrite (cell_content_area_ok base usable Hdims _ _ _ _ _ HS1).
  cbn [mbind Result_bind]. unfold checked_sub. pose proof (so_len _ _ _ _ _ _ _ HS1). pose proof (so_lo _ _ _ _ _ _ _ HS1) as Hlo1.
  assert (lo cells = arr + 2 * lenZ cells) as Elo by done.
  decide_if true. cbn [mbind Result_bind]. rewrite (write_ca_ok base usable) by done. cbn [mbind Result_bind]. pass.
  eexists _, ptrs1. split; [do 2 f_equal; unfold u16; rewrite Z.mod_small; lia|].
  split_and!; [apply array_splice; [done|done|lia|lia|rewrite be_split_lenZ; lia]|lia|rewrite lenZ_splice; rewrite ?be_split_lenZ; lia| |lia].
  apply splice_ok; [apply (so_bytes _ _ _ _ _ _ _ HS1)|apply be_split_ok].
Qed.

(** The pointer array as it is. *)
Lemma array_self buf n :
  get8 buf base = page_type_u8 t -> get16 buf (base + 3) = n -> 0 <= n ->
  array_at base t buf ((fun i => get16 buf (arr + 2 * Z.of_nat i)) <$> seq 0 (Z.to_nat n)).
Proof.
  intros Ht Hc Hn. constructor; [done| |].
  - unfold lenZ. rewrite length_fmap, length_seq. lia.
  - intros i p Hp. rewrite list_lookup_fmap in Hp. destruct (seq 0 _ !! i) as [k|] eqn:E; [|done].
    apply lookup_seq in E as [-> _]. by injection Hp.
Qed.

(** The cell is written and gets its pointer, whatever it overwrites. *)
Lemma insert_overlapping buf ptrs c pc (i : nat) :
  array_at base t buf ptrs -> usable <= lenZ buf -> bytes_ok buf -> bytes_ok c -> arr + 2 * lenZ ptrs + 2 <= usable ->
  arr <= pc -> pc + lenZ c <= usable -> pc < 65536 -> (i <= length ptrs)%nat ->
  exists buf', pointer_code base (splice buf pc c) (Z.of_nat i) pc = Ok buf' /\
    unallocated_region_start base buf' = Ok (arr + 2 * lenZ ptrs + 2) /\ cell_get_raw_start_offset base buf' (Z.of_nat i) = Ok pc.
Proof.
  intros [Ht Hc _] Hl Hb Hbc Hlo Hpc Hend Hu Hi. destruct Hdims. pose proof (arr_range base t). pose proof (lenZ_nonneg c).
  assert (lenZ (splice buf pc c) = lenZ buf) as Hls by (apply lenZ_splice; lia).
  assert (array_at base t (splice buf pc c) ((fun i => get16 (splice buf pc c) (arr + 2 * Z.of_nat i)) <$> seq 0 (Z.to_nat (lenZ ptrs)))) as HA
    by (apply array_self; [rewrite get8_ne by lia; done|rewrite get16_ne by lia; done|apply lenZ_nonneg]).
  set (ptrs1 := _ <$> _) in HA. assert (lenZ ptrs1 = lenZ ptrs) as Hlp by (unfold ptrs1, lenZ; rewrite length_fmap, length_seq; lia).
  assert (length ptrs1 = length ptrs) as Hlp' by (unfold lenZ in Hlp; lia).
  rewrite (pointer_code_ok base usable t Hdims _ _ _ _ HA) by lia. eexists. split; [done|].
  destruct (insert_pointer base usable t Hdims _ _ i pc HA) as (Hx & _ & Hl' & Hptrs);
    [lia|by apply splice_ok|lia|unfold is_u16; lia|]. rewrite Hls in Hl'.
  set (x := sub _ (arr + _) _) in *. set (buf1 := splice (splice buf pc c) _ x) in *. set (buf2 := splice buf1 _ _) in *.
  pose proof (be_split_lenZ 2 pc). pose proof (be_split_lenZ 2 (lenZ ptrs1 + 1)). assert (Z.of_nat i <= lenZ ptrs1) by (unfold lenZ; lia).
  assert (lenZ buf1 = lenZ buf) as Hl1 by (rewrite <- Hls; apply lenZ_splice; lia).
  set (buf3 := splice buf2 _ _). assert (lenZ buf3 = lenZ buf) as Hl3 by (rewrite <- Hl'; apply lenZ_splice; lia).
  assert (array_at base t buf3 (insert_at i pc ptrs1)) as HA3.
  { constructor.
    - unfold buf3. rewrite get8_ne by lia. unfold buf2. rewrite get8_ne by lia. unfold buf1. rewrite get8_ne by lia. apply HA.
    - unfold buf3. rewrite insert_at_lenZ, get16_splice; [lia|lia|lia|]. unfold is_u16. lia.
    - intros j p Hp. unfold buf3. rewrite get16_ne by lia. auto. }
  rewrite (unallocated_start_ok _ _ _ Hdims _ _ HA3), insert_at_lenZ by lia. split; [f_equal; lia|].
  apply (raw_start_ok _ _ _ Hdims _ _ _ _ HA3); [rewrite insert_at_lenZ; lia|]. rewrite insert_at_lookup by lia.
  by rewrite Nat.ltb_irrefl, Nat.eqb_refl.
Qed.
Lemma claimed_space buf ca fbs ptrs cells f claimed :
  page_wf base usable t buf ca fbs ptrs cells -> 0 <= f <= 255 ->
  claimed = free cells - get8 buf (base + 7) + f -> lo cells + claimed <= usable ->
  compute_free_space base usable (splice buf (base + 7) [f]) = Ok claimed.
Proof.
  intros HW Hf Hcl Hroom. pose proof (overstated_but _ _ _ _ _ f HW Hf) as [[[Ht Hn _] Hlen _] HS]. pose proof HW as [_ HS0].
  pose proof (so_sum _ _ _ _ _ _ _ HS0) as Hsum. pose proof (free_of_sizes base usable t _ _ Hlen) as Hfree.
  pose proof (so_len _ _ _ _ _ _ _ HS0). destruct Hdims.
  assert (get8 (splice buf (base + 7) [f]) (base + 7) = f) as Hg by (apply get8_splice; lia).
  rewrite (compute_free_space_but base usable Hdims _ _ _ _ _ HS); rewrite ?Hg; [f_equal; lia| |lia].
  rewrite Ht, Hn, Hlen. done.
Qed.
End fragments.

(** C25: the count of fragmented bytes in the page header is trusted.  Take any
    well-formed page with a cell and let its header claim more fragmented bytes
    than there are, but not more than the page has space for.  Every cell that
    fits by the claimed free space and not by the real one, and that exceeds it by
    no more than the size of the cell pointer array, is accepted: no error is
    reported, and the new cell starts inside the cell pointer array. *)
Theorem overstated_fragments_undetected base usable t p ca fbs ptrs cells f c (i : nat) claimed :
  dims base usable -> header_offset p = base -> overflow_cells p = [] ->
  page_wf base usable t (as_ptr p) ca fbs ptrs cells -> cells <> [] -> (i <= length cells)%nat -> bytes_ok c -> 0 <= f <= 255 ->
  claimed = free_of base usable t cells - get8 (as_ptr p) (base + 7) + f ->
  free_of base usable t cells < region_size c + 2 <= claimed -> lo_of base t cells + claimed <= usable ->
  region_size c <= free_of base usable t cells + 2 * lenZ cells ->
  compute_free_space base usable (as_ptr (overstate p f)) = Ok claimed /\
  exists p' start array_end, insert_into_cell (overstate p f) c (Z.of_nat i) usable = Ok p' /\
    cell_get_raw_start_offset base (as_ptr p') (Z.of_nat i) = Ok start /\
    unallocated_region_start base (as_ptr p') = Ok array_end /\ arr base t <= start < array_end.
Proof.
  intros Hd Hb Hov HW Hne Hi Hc Hf Hcl Hfit Hroom Hptr. unfold overstate. rewrite as_ptr_set, Hb.
  pose proof (claimed_space base usable t Hd _ _ _ _ _ f claimed HW Hf Hcl Hroom) as Hspace. split; [done|].
  destruct (allocate_overstated base usable t Hd _ _ _ _ _ f (lenZ c) claimed HW Hf Hne Hcl) as (buf1 & ptrs1 & Hal & HA1 & Hlen1 & Hl1 & Hb1 & Hend);
    [unfold region_size in *; lia|done|unfold region_size in *; lia|].
  pose proof (overstated_but base usable t Hd _ _ _ _ _ f HW Hf) as [[HA Hlen _] []]. destruct Hd as [Hbase Hu]. pose proof (arr_range base t).
  assert (lo_of base t cells = arr base t + 2 * lenZ cells) as Elo by done. pose proof (lenZ_nonneg cells).
  rewrite (Z.max_comm (lenZ c) 4) in Hal. fold (region_size c) in Hal. assert (4 <= region_size c /\ lenZ c <= region_size c) by (unfold region_size; lia).
  set (pc := lo_of base t cells + free_of base usable t cells - region_size c) in *.
  destruct (insert_overlapping base usable t (conj Hbase Hu) buf1 ptrs1 c pc i HA1 Hl1 Hb1 Hc) as (buf' & Hrun & Hstart & Hptr');
    [lia|lia|lia|lia|unfold lenZ in *; lia|].
  exists (set_buffer p buf'), pc, (arr base t + 2 * lenZ ptrs1 + 2). rewrite as_ptr_set. split_and!; [|done|done|lia|lia].
  unfold insert_into_cell, insert_into_cell_impl. cbn [header_offset set_buffer overflow_cells]. rewrite as_ptr_set, Hb, Hov.
  rewrite (cell_count_ok _ _ _ (conj Hbase Hu) _ _ HA) by lia. cbn [mbind Result_bind].
  assert (Z.of_nat i <= lenZ ptrs) by (unfold lenZ in *; lia). change (lenZ (@nil OverflowCell)) with 0. pass.
  rewrite Hspace. cbn [mbind Result_bind andb]. unfold MINIMUM_CELL_SIZE, CELL_PTR_SIZE_BYTES.
  rewrite (Z.max_comm (lenZ c) 4). fold (region_size c). rewrite (proj2 (Z.leb_le _ _)) by lia. cbn [negb].
  unfold insert_on_page. rewrite (cell_count_ok _ _ _ (conj Hbase Hu) _ _ HA) by lia. cbn [mbind Result_bind]. pass.
  rewrite Hal. cbn [mbind Result_bind]. pass.
  assert (write_slice buf1 pc c = Ok (splice buf1 pc c)) as -> by (apply write_slice_Ok; split_and!; (done || lia)).
  cbn [mbind Result_bind]. unfold pointer_code in Hrun. rewrite Hrun. done.
Qed.

(** A leaf of 512 bytes with one cell of 479 bytes and no fragmented bytes, whose
    header is made to claim 16 of them; the cell inserted has 24 bytes. *)
Definition blank_leaf : PageInner := mkPage 0 2 0 0 0 (Some (replicate 512 0)) [].
Definition large_cell : bytes := [131; 92; 1] ++ replicate 476 7.
Definition full_leaf : PageInner :=
  match p ← btree_init_page blank_leaf TableLeaf 512; prun 512 [PInsert 0 large_cell false] p with Ok p => p | _ => blank_leaf end.

Lemma full_leaf_wf :
  header_offset full_leaf = 0 /\ overflow_cells full_leaf = [] /\
  exists ca fbs ptrs, page_wf 0 512 TableLeaf (as_ptr full_leaf) ca fbs ptrs [large_cell].
Proof.
  assert (dims 0 512) as Hd by (split; [by left|lia]).
  destruct (init_represents 0 512 TableLeaf Hd blank_leaf (replicate 512 0)) as (p0 & H0 & HR & _); [done|done|done|by apply bytes_ok_dec|].
  destruct (prun_refines 0 512 TableLeaf Hd [PInsert 0 large_cell false] p0 _ HR) as (p & Hp & HR' & _);
    [apply valid_runb_ok; vm_compute; reflexivity|].
  assert (arun 0 512 TableLeaf [PInsert 0 large_cell false] (mkAPage [] []) = mkAPage [large_cell] []) as Ha by (vm_compute; reflexivity).
  assert (full_leaf = p) as -> by (unfold full_leaf; rewrite H0; cbn [mbind Result_bind]; by rewrite Hp).
  rewrite Ha in HR'. destruct HR' as [Hb Hov HW]. done.
Qed.

Lemma overstated_fragments_undetected_witness :
  compute_free_space 0 512 (as_ptr (overstate full_leaf 16)) = Ok 39 /\
  exists p' start array_end, insert_into_cell (overstate full_leaf 16) (demo_cell 5 22) 1 512 = Ok p' /\
    cell_get_raw_start_offset 0 (as_ptr p') 1 = Ok start /\
    unallocated_region_start 0 (as_ptr p') = Ok array_end /\ 8 <= start < array_end.
Proof.
  destruct full_leaf_wf as (Hb & Hov & ca & fbs & ptrs & HW).
  apply (overstated_fragments_undetected 0 512 TableLeaf full_leaf ca fbs ptrs [large_cell] 16 (demo_cell 5 22) 1 39).
  - split; [by left|lia].
  - exact Hb.
  - exact Hov.
  - exact HW.
  - discriminate.
  - repeat constructor.
  - apply bytes_ok_dec. reflexivity.
  - lia.
  - vm_compute. reflexivity.
  - vm_compute. split; [reflexivity|discriminate].
  - vm_compute. discriminate.
  - vm_compute. discriminate.
Defined.
