(* ===== verification/BtreePayload.v ===== *)
(** * BtreePayload: the payload of a cell and its overflow pages

    Models how the record of a cell is written and read back:
    [read_btree_cell] and [read_payload] of core/storage/sqlite3_ondisk.rs,
    [cell_get] of pager.rs, and [fill_cell_payload] and [process_overflow_read]
    of btree.rs.  The last two are resumable: a
    call returns when the pager has to wait for I/O, and the caller calls again
    with the state that was kept.  What the pager answers to each request is a
    list of events. *)

From stdpp Require Import gmap.
From S2P Require Import Prelude Resume Varint OnDisk Page BtreePage BtreeSpace BtreeCells.

(** ** Cells *)

Inductive BTreeCell :=
  | TableInteriorCell (left_child_page rowid : Z)
  | TableLeafCell (rowid : Z) (payload : bytes) (payload_size : Z) (first_overflow_page : option Z)
  | IndexInteriorCell (left_child_page : Z) (payload : bytes) (payload_size : Z) (first_overflow_page : option Z)
  | IndexLeafCell (payload : bytes) (payload_size : Z) (first_overflow_page : option Z).

Definition first_overflow_page (c : BTreeCell) : option Z :=
  match c with
  | TableLeafCell _ _ _ p => p
  | IndexLeafCell _ _ p => p
  | IndexInteriorCell _ _ _ p => p
  | TableInteriorCell _ _ => None
  end.

Definition read_payload (unread : bytes) (payload_size : Z) : Result (bytes * option Z) :=
  let cell_len := lenZ unread in
  if payload_size <=? cell_len then
    payload ← slice unread 0 payload_size;
    Ok (payload, None)
  else
    _ ← or_corrupt (4 <=? cell_len);
    first ← slice unread (cell_len - 4) cell_len;
    payload ← slice unread 0 (cell_len - 4);
    Ok (payload, Some (be_combine first)).

(** The end of the branches of [read_btree_cell] with a payload. *)
Definition read_local (page : bytes) (pos payload_size max_local min_local usable_size : Z)
    : Result (bytes * option Z) :=
  to_read ← match payload_overflows payload_size max_local min_local usable_size with
            | Some local_size => Ok local_size
            | None => checked_sub (lenZ page) pos
            end;
  _ ← or_corrupt (pos + to_read <=? lenZ page);
  unread ← slice page pos (pos + to_read);
  read_payload unread payload_size.

(** The match of [read_btree_cell] on the type of the page. *)
Definition read_cell (t : PageType) (page : bytes) (pos usable_size : Z) : Result BTreeCell :=
  let max_local := payload_overflow_threshold_max t usable_size in
  let min_local := payload_overflow_threshold_min t usable_size in
  match t with
  | IndexInterior =>
      _ ← or_corrupt (pos + 4 <=? lenZ page);
      left_child_page ← slice page pos (pos + 4);
      let pos := pos + 4 in
      '(payload_size, nr) ← read_varint_at page pos;
      '(payload, first) ← read_local page (pos + nr) payload_size max_local min_local usable_size;
      Ok (IndexInteriorCell (be_combine left_child_page) payload payload_size first)
  | TableInterior =>
      _ ← or_corrupt (pos + 4 <=? lenZ page);
      left_child_page ← slice page pos (pos + 4);
      let pos := pos + 4 in
      '(rowid, _) ← read_varint_at page pos;
      Ok (TableInteriorCell (be_combine left_child_page) (i64 rowid))
  | IndexLeaf =>
      '(payload_size, nr) ← read_varint_at page pos;
      '(payload, first) ← read_local page (pos + nr) payload_size max_local min_local usable_size;
      Ok (IndexLeafCell payload payload_size first)
  | TableLeaf =>
      '(payload_size, nr) ← read_varint_at page pos;
      let pos := pos + nr in
      '(rowid, nr) ← read_varint_at page pos;
      '(payload, first) ← read_local page (pos + nr) payload_size max_local min_local usable_size;
      Ok (TableLeafCell (i64 rowid) payload payload_size first)
  end.

Definition read_btree_cell (base : Z) (page : bytes) (pos usable_size : Z) : Result BTreeCell :=
  t ← page_type base page;
  read_cell t page pos usable_size.

(** The pointer of cell [i] as the accessors of [PageContent] read it. *)
Definition cell_pointer (base : Z) (buf : bytes) (i : Z) : Result Z :=
  cell_pointer_array_start ← header_size base buf;
  read_u16 base buf (cell_pointer_array_start + i * CELL_PTR_SIZE_BYTES).

Definition cell_get (base : Z) (buf : bytes) (i usable_size : Z) : Result BTreeCell :=
  ncells ← cell_count base buf;
  _ ← turso_assert (i <? ncells);
  pointer ← cell_pointer base buf i;
  read_btree_cell base buf pointer usable_size.

Definition cell_interior_read_left_child_page (base : Z) (buf : bytes) (i : Z) : Result Z :=
  pointer ← cell_pointer base buf i;
  _ ← or_corrupt (pointer + 4 <=? lenZ buf);
  child ← slice buf pointer (pointer + 4);
  Ok (be_combine child).

Definition cell_table_interior_read_rowid (base : Z) (buf : bytes) (i : Z) : Result Z :=
  pointer ← cell_pointer base buf i;
  '(rowid, _) ← read_varint_at buf (pointer + 4);
  Ok (i64 rowid).

(** ** Writing the payload *)

(** The pages of the pager by page number. *)
Abbreviation store := (gmap Z (list Z)).

Inductive CopyDataState := Copy | AllocateOverflowPage.

Inductive FillCellPayloadState :=
  | FillStart
  | CopyData (state : CopyDataState) (space_left_on_cur_page src_data_offset dst_data_offset : Z)
      (current_overflow_page : option Z).

(** The answers of [allocate_page]: I/O is pending, an error, or a page. *)
Inductive alloc_event := AllocYield | AllocError (e : LimboError) | AllocPage (id : Z).

(** The state between the iterations of the loop: the kept state, the cell
    built so far, the pages, and the answers to come. *)
Record fill_state := mkFill {
  fi_state : FillCellPayloadState;
  fi_cell : bytes;
  fi_pages : store;
  fi_events : list alloc_event
}.

Section fill.
Context (usable_space page_size : Z).

Definition overflow_page_pointer_size : Z := 4.

(** The header of the cell: child pointer, payload size and key. *)
Definition cell_header (base : Z) (page : bytes) (t : PageType) (int_key : option Z) (cell_idx : Z)
    (record cell_payload : bytes) : Result bytes :=
  cell_payload ←
    (if bool_decide (t = IndexInterior) then
       left_child_page ← cell_interior_read_left_child_page base page cell_idx;
       Ok (cell_payload ++ be_split 4 left_child_page)
     else Ok cell_payload);
  if bool_decide (t = TableLeaf) then
    int_key ← unwrap int_key;
    cell_payload ← write_varint_to_vec (lenZ record) cell_payload;
    write_varint_to_vec (u64 int_key) cell_payload
  else write_varint_to_vec (lenZ record) cell_payload.

Definition fill_start (base : Z) (page : bytes) (int_key : option Z) (cell_idx : Z) (record : bytes)
    (s : fill_state) : Result (outcome fill_state fill_state) :=
  t ← page_type base page;
  cell_payload ← cell_header base page t int_key cell_idx record (fi_cell s);
  let max_local := payload_overflow_threshold_max t usable_space in
  let min_local := payload_overflow_threshold_min t usable_space in
  match payload_overflows (lenZ record) max_local min_local usable_space with
  | None => Ok (Finish (mkFill (fi_state s) (cell_payload ++ record) (fi_pages s) (fi_events s)))
  | Some local_payload_size =>
      let cell_non_payload_elems_size := lenZ cell_payload in
      Ok (Continue (mkFill
        (CopyData Copy (local_payload_size - overflow_page_pointer_size) 0 cell_non_payload_elems_size None)
        (cell_payload ++ replicate (Z.to_nat local_payload_size) 0) (fi_pages s) (fi_events s)))
  end.

Definition fill_copy (record : bytes) (space_left src dst : Z) (current : option Z) (s : fill_state)
    : Result (outcome fill_state fill_state) :=
  _ ← turso_assert (src <? lenZ record);
  record_offset_slice ← slice_from record src;
  let amount_to_copy := Z.min space_left (lenZ record_offset_slice) in
  to_copy ← slice record_offset_slice 0 amount_to_copy;
  '(cell, pages) ←
    match current with
    | Some id =>
        _ ← turso_assert (dst =? overflow_page_pointer_size);
        buf ← unwrap (fi_pages s !! id);
        buf ← write_slice buf dst to_copy;
        Ok (fi_cell s, <[id := buf]> (fi_pages s))
    | None =>
        cell ← write_slice (fi_cell s) dst to_copy;
        Ok (cell, fi_pages s)
    end;
  if lenZ record_offset_slice - amount_to_copy =? 0
  then Ok (Finish (mkFill (CopyData Copy space_left src dst current) cell pages (fi_events s)))
  else Ok (Continue (mkFill (CopyData AllocateOverflowPage space_left (src + amount_to_copy) dst current)
                       cell pages (fi_events s))).

(** [allocate_overflow_page] clears the page it gets. *)
Definition fill_allocate (space_left src dst : Z) (current : option Z) (s : fill_state) : Result (outcome fill_state fill_state) :=
  match fi_events s with
  | AllocPage id :: events =>
      let pages := <[id := replicate (Z.to_nat page_size) 0]> (fi_pages s) in
      '(cell, pages) ←
        match current with
        | Some prev =>
            buf ← unwrap (pages !! prev);
            buf ← write_slice buf 0 (be_split 4 (u32 id));
            Ok (fi_cell s, <[prev := buf]> pages)
        | None =>
            offset ← checked_sub (lenZ (fi_cell s)) overflow_page_pointer_size;
            cell ← write_slice (fi_cell s) offset (be_split 4 (u32 id));
            Ok (cell, pages)
        end;
      overflow_page_data_size ← checked_sub usable_space overflow_page_pointer_size;
      Ok (Continue (mkFill
        (CopyData Copy overflow_page_data_size src overflow_page_pointer_size (Some id)) cell pages events))
  | AllocError e :: _ => Err e
  | AllocYield :: events =>
      Ok (Wait (mkFill (CopyData AllocateOverflowPage space_left src dst current) (fi_cell s) (fi_pages s) events))
  | [] => Ok (Wait s)
  end.

Definition fill_step (base : Z) (page : bytes) (int_key : option Z) (cell_idx : Z) (record : bytes)
    (s : fill_state) : Result (outcome fill_state fill_state) :=
  match fi_state s with
  | FillStart => fill_start base page int_key cell_idx record s
  | CopyData Copy space_left src dst current => fill_copy record space_left src dst current s
  | CopyData AllocateOverflowPage space_left src dst current => fill_allocate space_left src dst current s
  end.

(** One call, and the calls until the payload is complete. *)
Definition fill_cell_payload (fuel : nat) (base : Z) (page : bytes) (int_key : option Z) (cell_idx : Z) (record : bytes)
    : fill_state -> Result (fill_state + fill_state) :=
  call (fill_step base page int_key cell_idx record) fuel.

Definition fill_calls (n fuel : nat) (base : Z) (page : bytes) (int_key : option Z) (cell_idx : Z) (record : bytes)
    : fill_state -> Result fill_state :=
  calls (fill_step base page int_key cell_idx record) n fuel.
End fill.

(** ** Reading the payload *)

(** The answers of [read_page]: it has to wait before there is a page, an
    error, the page, or a page whose contents have to be waited for. *)
Inductive read_event := ReadSpill | ReadError (e : LimboError) | ReadReady | ReadWait.

(** [ReadPayloadOverflow]; the page is a reference into the pages of the pager. *)
Record ReadPayloadOverflow := mkReadOverflow {
  ro_payload : bytes;
  ro_next_page : Z;
  ro_remaining_to_read : Z;
  ro_page : Z
}.

(** The state between the iterations: the kept state and the answers to come. *)
Abbreviation read_state := (option ReadPayloadOverflow * list read_event)%type.

Section read.
Context (usable_space : Z).

(** The iteration that starts the state. *)
Definition overflow_start (payload : bytes) (start_next_page payload_size : Z) (events : list read_event)
    : Result (outcome read_state bytes) :=
  _ ← or_corrupt (lenZ payload <=? payload_size);
  let s := Some (mkReadOverflow payload start_next_page (payload_size - lenZ payload) start_next_page) in
  match events with
  | ReadReady :: events => Ok (Continue (s, events))
  | ReadWait :: events => Ok (Wait (s, events))
  | ReadError e :: _ => Err e
  | ReadSpill :: events => Ok (Wait (None, events))
  | [] => Ok (Wait (None, []))
  end.

(** The iteration that reads one page of the chain. *)
Definition overflow_page (pages : store) (r : ReadPayloadOverflow) (events : list read_event) : Result (outcome read_state bytes) :=
  buf ← unwrap (pages !! ro_page r);
  next ← read_u32_no_offset buf 0;
  data_size ← checked_sub usable_space 4;
  let to_read := Z.min (ro_remaining_to_read r) data_size in
  let need_next_page := (to_read <? ro_remaining_to_read r) && negb (next =? 0) in
  let advance :=
    data ← slice buf 4 (4 + to_read);
    Ok (mkReadOverflow (ro_payload r ++ data) next (ro_remaining_to_read r - to_read) next) in
  if (need_next_page : bool) then
    match events with
    | ReadReady :: events => r ← advance; Ok (Continue ((Some r), events))
    | ReadWait :: events => r ← advance; Ok (Wait ((Some r), events))
    | ReadError e :: _ => Err e
    | ReadSpill :: events => Ok (Wait ((Some r), events))
    | [] => Ok (Wait ((Some r), []))
    end
  else
    r ← advance;
    if (ro_remaining_to_read r =? 0) && (next =? 0) then Ok (Finish (ro_payload r)) else Err Corrupt.

Definition overflow_step (pages : store) (payload : bytes) (start_next_page payload_size : Z) (s : read_state)
    : Result (outcome read_state bytes) :=
  match s with
  | (None, events) => overflow_start payload start_next_page payload_size events
  | (Some r, events) => overflow_page pages r events
  end.

(** One call, and the calls until the record is complete. *)
Definition process_overflow_read (fuel : nat) (pages : store) (payload : bytes) (start_next_page payload_size : Z)
    : read_state -> Result (bytes + read_state) :=
  call (overflow_step pages payload start_next_page payload_size) fuel.

Definition read_calls (n fuel : nat) (pages : store) (payload : bytes) (start_next_page payload_size : Z)
    : read_state -> Result bytes :=
  calls (overflow_step pages payload start_next_page payload_size) n fuel.
End read.

(** ** The format of a cell *)

(** The bytes before the payload. *)
Definition header_of (t : PageType) (child key size : Z) : bytes :=
  match t with IndexInterior => be_split 4 child | _ => [] end ++ varint_encode size ++
  match t with TableLeaf => varint_encode (u64 key) | _ => [] end.

(** The cell that [read_cell] is to return. *)
Definition cell_of (t : PageType) (child key : Z) (payload : bytes) (size : Z) (first : option Z) : BTreeCell :=
  match t with
  | TableInterior => TableInteriorCell child key
  | TableLeaf => TableLeafCell key payload size first
  | IndexInterior => IndexInteriorCell child payload size first
  | IndexLeaf => IndexLeafCell payload size first
  end.

Lemma varint_at pre v rest k :
  k = lenZ pre -> is_u64 v -> bytes_ok rest ->
  read_varint_at (pre ++ varint_encode v ++ rest) k = Ok (v, lenZ (varint_encode v)).
Proof.
  intros -> Hv Hr. unfold read_varint_at, slice_from_or_corrupt. rewrite !lenZ_app.
  pose proof (lenZ_nonneg pre). pose proof (lenZ_nonneg (varint_encode v)). pose proof (lenZ_nonneg rest).
  destruct (Z.leb_spec (lenZ pre) (lenZ pre + (lenZ (varint_encode v) + lenZ rest))); [|lia]. cbn [mbind Result_bind].
  unfold lenZ at 1. rewrite Nat2Z.id, drop_app_length, read_varint_encode by done. by rewrite varint_encode_length.
Qed.

Lemma varint_front v rest :
  is_u64 v -> bytes_ok rest -> read_varint_at (varint_encode v ++ rest) 0 = Ok (v, lenZ (varint_encode v)).
Proof. intros. by apply (varint_at []). Qed.

Lemma write_varint_to_vec_eq v pre : is_u64 v -> write_varint_to_vec v pre = Ok (pre ++ varint_encode v).
Proof.
  intros Hv. unfold write_varint_to_vec. pose proof (varint_len_bounds v Hv).
  rewrite write_varint_eq by (done || (unfold lenZ; cbn [length replicate]; lia)). cbn [mbind Result_bind].
  rewrite slice_front by (by rewrite varint_encode_length). done.
Qed.

Section format.
Context (usable : Z) (Husable : 480 <= usable <= 65536) (t : PageType).
#[local] Abbreviation overflows size := (payload_overflows size (max_local usable t) (min_local usable t) usable).

(** The part of an overflowing payload that is on the page is shorter than the
    payload and has space for the page pointer. *)
Lemma local_size size l :
  overflows size = Some l -> 0 <= size -> 4 <= l /\ l < size /\ l <= usable.
Proof.
  unfold payload_overflows, max_local, min_local, payload_overflow_threshold_min.
  set (mx := payload_overflow_threshold_max t usable). set (mn := (usable - 12) * 32 / 255 - 23).
  assert (35 <= mn) as Hmn by (unfold mn; divlia).
  assert (mn + 4 <= mx /\ mx <= usable - 35) as Hmx by (unfold mx, mn, payload_overflow_threshold_max; destruct t; divlia).
  destruct (Z.leb_spec size mx) as [|Hs]; [done|]. intros [= <-] H0.
  pose proof (Z.mod_pos_bound (size - mn) (usable - 4) ltac:(lia)) as Hb.
  pose proof (Z.div_mod (size - mn) (usable - 4) ltac:(lia)) as Hdm.
  destruct (Z.ltb_spec mx (mn + (size - mn) mod (usable - 4))) as [Hlt|Hge]; [lia|].
  assert (1 <= (size - mn) / (usable - 4)) as Hq; [|nia].
  destruct (Z.le_gt_cases 1 ((size - mn) / (usable - 4))) as [|Hq]; [done|].
  assert ((size - mn) / (usable - 4) = 0) as Hz by (pose proof (Z.div_pos (size - mn) (usable - 4)); lia).
  rewrite Hz in Hdm. lia.
Qed.

(** The part of the payload on the page, and the pointer after it. *)
Definition local_of (record : bytes) (first : Z) : bytes :=
  match overflows (lenZ record) with
  | None => record
  | Some l => take (Z.to_nat (l - 4)) record ++ be_split 4 first
  end.

Definition local_part (record : bytes) : bytes :=
  match overflows (lenZ record) with None => record | Some l => take (Z.to_nat (l - 4)) record end.

Definition first_of_chain (record : bytes) (first : Z) : option Z :=
  match overflows (lenZ record) with None => None | Some _ => Some first end.

Lemma read_local_ok pre record first rest pos :
  pos = lenZ pre -> is_u32 first ->
  read_local (pre ++ local_of record first ++ rest) pos (lenZ record) (max_local usable t) (min_local usable t) usable =
    Ok (local_part record, first_of_chain record first).
Proof.
  intros -> Hf. unfold read_local, local_of, local_part, first_of_chain.
  pose proof (lenZ_nonneg pre). pose proof (lenZ_nonneg record) as Hr. pose proof (lenZ_nonneg rest).
  destruct (overflows (lenZ record)) as [l|] eqn:E; cbn [mbind Result_bind].
  - destruct (local_size _ _ E Hr) as (H4 & Hlt & _). set (x := take _ record). pose proof (be_split_lenZ 4 first) as H4'.
    assert (lenZ x = l - 4) as Hx by (unfold x, lenZ in *; rewrite length_take; lia).
    rewrite !lenZ_app. pass.
    rewrite slice_at by (rewrite ?lenZ_app; lia). cbn [mbind Result_bind]. unfold read_payload. rewrite lenZ_app.
    decide_if false. pass.
    rewrite <- (app_nil_r (be_split 4 first)) at 1. rewrite slice_at by lia. cbn [mbind Result_bind].
    rewrite slice_front by lia. cbn [mbind Result_bind]. by rewrite be32_roundtrip.
  - rewrite !lenZ_app. unfold checked_sub. decide_if true. cbn [mbind Result_bind]. pass.
    rewrite <- (app_nil_r (record ++ rest)) at 1. rewrite slice_at by (rewrite ?lenZ_app; lia). cbn [mbind Result_bind].
    unfold read_payload. rewrite lenZ_app. decide_if true. rewrite slice_front by done. done.
Qed.
End format.

Lemma i64_u64 k : - 2 ^ 63 <= k < 2 ^ 63 -> i64 (u64 k) = k.
Proof.
  intros Hk. rewrite <- (signed_id 64 k) at 2 by (cbn; lia). unfold i64, signed, u64.
  by rewrite Z.mod_mod by lia.
Qed.

Lemma u64_range k : is_u64 (u64 k).
Proof. unfold is_u64, u64. apply Z.mod_pos_bound. lia. Qed.

Section cell.
Context (usable : Z) (Husable : 480 <= usable <= 65536) (t : PageType) (Ht : t <> TableInterior).
Context (child key : Z) (record : bytes) (first : Z).
Context (Hchild : is_u32 child) (Hkey : - 2 ^ 63 <= key < 2 ^ 63) (Hsize : is_u64 (lenZ record)) (Hrec : bytes_ok record).
Context (Hfirst : is_u32 first).

Definition whole_cell : bytes := header_of t child key (lenZ record) ++ local_of usable t record first.

Lemma local_ok : bytes_ok (local_of usable t record first).
Proof.
  unfold local_of. case_match; [|done]. apply Forall_app_2; [by apply Forall_take|apply be_split_ok].
Qed.

Lemma header_ok : bytes_ok (header_of t child key (lenZ record)).
Proof.
  unfold header_of. repeat apply Forall_app_2; try case_match; try apply varint_encode_ok; try apply be_split_ok; done.
Qed.

Lemma read_cell_ok pre rest pos :
  pos = lenZ pre -> bytes_ok rest ->
  read_cell t (pre ++ whole_cell ++ rest) pos usable =
    Ok (cell_of t child key (local_part usable t record) (lenZ record) (first_of_chain usable t record first)).
Proof.
  intros -> Hr. pose proof local_ok as Hl. pose proof (u64_range key).
  assert (bytes_ok (local_of usable t record first ++ rest)) as Hlr by (by apply Forall_app_2).
  pose proof (read_local_ok usable Husable t) as HL. unfold whole_cell, header_of, read_cell.
  cbv zeta. fold (max_local usable t) (min_local usable t). destruct t; try done; cbn [app];
    rewrite <- ?app_assoc; cbn [app].
  - pose proof (be_split_lenZ 4 child). rewrite !lenZ_app. pose proof (lenZ_nonneg rest).
    pose proof (lenZ_nonneg (varint_encode (lenZ record))). pose proof (lenZ_nonneg (local_of usable IndexInterior record first)).
    pass. rewrite slice_at by lia. cbn [mbind Result_bind]. rewrite (app_assoc pre).
    rewrite varint_at by (rewrite ?lenZ_app; (done || lia)). cbn [mbind Result_bind]. rewrite (app_assoc (pre ++ _)).
    rewrite HL by (rewrite ?lenZ_app; (done || lia)). cbn [mbind Result_bind]. by rewrite be32_roundtrip.
  - rewrite varint_at by done. cbn [mbind Result_bind]. rewrite (app_assoc pre).
    rewrite HL by (rewrite ?lenZ_app; (done || lia)). done.
  - rewrite varint_at by (done || by apply Forall_app_2; [apply varint_encode_ok|]). cbn [mbind Result_bind]. rewrite (app_assoc pre).
    rewrite varint_at by (rewrite ?lenZ_app; (done || lia)). cbn [mbind Result_bind]. rewrite (app_assoc (pre ++ _)).
    rewrite HL by (rewrite ?lenZ_app; (done || lia)). cbn [mbind Result_bind]. by rewrite i64_u64.
Qed.

Lemma whole_ok : bytes_ok whole_cell.
Proof. apply Forall_app_2; [apply header_ok|apply local_ok]. Qed.

Lemma whole_is_cell : is_cell usable t whole_cell.
Proof.
  split; [apply whole_ok|]. pose proof local_ok as Hl. pose proof (u64_range key).
  pose proof (lenZ_nonneg record) as Hr. pose proof (local_size usable Husable t (lenZ record)) as Hls.
  pose proof (be_split_lenZ 4 child) as H4. pose proof (be_split_lenZ 4 first) as H4'.
  assert (lenZ (local_of usable t record first) =
    match payload_overflows (lenZ record) (max_local usable t) (min_local usable t) usable with None => lenZ record | Some l => l end) as Hlen.
  { unfold local_of. destruct (payload_overflows _ _ _ _) as [l|]; [|done]. destruct (Hls l eq_refl Hr) as (? & ? & _).
    rewrite lenZ_app. unfold lenZ in *. rewrite length_take. lia. }
  unfold region_size, whole_cell, header_of. destruct t; try done; cbn [app raw_cell_len]; rewrite <- ?app_assoc; cbn [app].
  - rewrite varint_at by (done || lia). cbn [mbind Result_bind]. rewrite !lenZ_app, Hlen.
    pose proof (lenZ_nonneg (varint_encode (lenZ record))). destruct (payload_overflows _ _ _ _) as [l|]; eexists; do 2 f_equal; try lia.
    destruct (Hls l eq_refl Hr). lia.
  - rewrite varint_front by done. cbn [mbind Result_bind]. rewrite !lenZ_app, Hlen. unfold MINIMUM_CELL_SIZE.
    pose proof (lenZ_nonneg (varint_encode (lenZ record))). destruct (payload_overflows _ _ _ _) as [l|]; eexists; do 2 f_equal; try lia.
    destruct (Hls l eq_refl Hr). lia.
  - rewrite varint_front by (done || by apply Forall_app_2; [apply varint_encode_ok|]). cbn [mbind Result_bind].
    rewrite varint_at by (done || lia). cbn [mbind Result_bind]. rewrite !lenZ_app, Hlen. unfold MINIMUM_CELL_SIZE.
    pose proof (lenZ_nonneg (varint_encode (lenZ record))). pose proof (lenZ_nonneg (varint_encode (u64 key))).
    destruct (payload_overflows _ _ _ _) as [l|]; eexists; do 2 f_equal; try lia.
    destruct (Hls l eq_refl Hr). lia.
Qed.
End cell.

(** ** Cells on a page *)

Section on_page.
Context (base usable : Z) (t : PageType) (Hdims : dims base usable).
Context (buf : bytes) (ca : Z) (fbs : list block) (ptrs : list Z) (cells : list bytes).
Context (HW : page_wf base usable t buf ca fbs ptrs cells).

Lemma cell_pointer_ok (i : nat) p : ptrs !! i = Some p -> cell_pointer base buf (Z.of_nat i) = Ok p.
Proof.
  intros Hp. pose proof HW as [[HA Hl _] HS]. pose proof HS as []. pose proof (arr_range base t). destruct Hdims.
  unfold lo_of in so_lo. apply lookup_lt_Some in Hp as Hi. unfold lenZ in Hl, so_lo.
  pose proof (array_ok base usable t Hdims buf ptrs HA ltac:(lia)) as HO. unfold cell_pointer_array_offset in HO.
  unfold cell_pointer. destruct (header_size base buf) as [h| |]; try done. cbn [mbind Result_bind] in *. injection HO as HO.
  unfold CELL_PTR_SIZE_BYTES. rewrite read_u16_ok by lia. f_equal. rewrite <- (ar_ptrs _ _ _ _ HA _ _ Hp), <- HO. f_equal. lia.
Qed.

(** A cell is read from the bytes at its pointer. *)
Lemma cell_get_ok (i : nat) p c :
  ptrs !! i = Some p -> cells !! i = Some c ->
  exists pre rest, buf = pre ++ c ++ rest /\ p = lenZ pre /\ bytes_ok rest /\
    cell_get base buf (Z.of_nat i) usable = read_cell t (pre ++ c ++ rest) (lenZ pre) usable.
Proof.
  intros Hp Hc. pose proof HW as [[HA Hl _] HS]. pose proof HS as []. destruct Hdims. pose proof (lookup_lt_Some _ _ _ Hp).
  destruct (cell_range _ _ _ _ _ _ _ _ _ _ _ HW Hp Hc) as (Hca & Hend & Hsub & Hcell).
  destruct (sub_drop c buf p so_bytes Hsub) as (rest & Hd & Hr). unfold lo_of in so_lo. pose proof (arr_range base t).
  pose proof (lenZ_nonneg cells). unfold region_size in Hend.
  assert (buf = take (Z.to_nat p) buf ++ c ++ rest) as Hbuf by (rewrite <- Hd; by rewrite take_drop).
  assert (lenZ (take (Z.to_nat p) buf) = p) as Hpre by (unfold lenZ in *; rewrite length_take; lia).
  exists (take (Z.to_nat p) buf), rest. split_and!; [done|done|done|]. rewrite <- Hbuf, Hpre.
  unfold cell_get. rewrite (cell_count_ok _ _ _ Hdims _ _ HA) by lia. cbn [mbind Result_bind].
  unfold lenZ at 1. pass. rewrite (cell_pointer_ok i p Hp). cbn [mbind Result_bind].
  unfold read_btree_cell. by rewrite (page_type_ok _ _ _ Hdims _ _ HA) by lia.
Qed.

Lemma left_child_ok (i : nat) p c :
  ptrs !! i = Some p -> cells !! i = Some c -> 4 <= lenZ c ->
  cell_interior_read_left_child_page base buf (Z.of_nat i) = Ok (be_combine (sub c 0 4)).
Proof.
  intros Hp Hc H4. destruct (cell_range _ _ _ _ _ _ _ _ _ _ _ HW Hp Hc) as (Hca & Hend & Hsub & Hcell).
  pose proof HW as [_ []]. unfold region_size in Hend. unfold lo_of in so_lo. pose proof (arr_range base t). pose proof (lenZ_nonneg cells).
  destruct Hdims. unfold cell_interior_read_left_child_page. rewrite (cell_pointer_ok i p Hp). cbn [mbind Result_bind]. pass.
  rewrite slice_sub by lia. cbn [mbind Result_bind]. do 2 f_equal. rewrite <- Hsub. rewrite sub_sub by lia. f_equal; lia.
Qed.
End on_page.

(** ** Overflow chains *)

Definition id_of (e : alloc_event) : option Z := match e with AllocPage id => Some id | _ => None end.
Definition ids_of (events : list alloc_event) : list Z := omap id_of events.
Definition no_error (e : alloc_event) : Prop := match e with AllocError _ => False | _ => True end.

Section chains.
Context (usable page_size : Z) (Husable : 480 <= usable <= page_size).
#[local] Abbreviation room := (usable - 4).

(** The pages [ids] hold [data]: every page but the last is full, and each has
    the number of the next page, or 0, in its first four bytes. *)
Fixpoint chain (pages : store) (ids : list Z) (data : bytes) : Prop :=
  match ids with
  | [] => False
  | id :: ids' =>
      (exists buf, pages !! id = Some buf /\ usable <= lenZ buf /\
        sub buf 0 4 = be_split 4 (default 0 (head ids')) /\
        sub buf 4 (Z.min room (lenZ data)) = take (Z.to_nat room) data) /\
      match ids' with
      | [] => 0 < lenZ data <= room
      | _ => room < lenZ data /\ chain pages ids' (drop (Z.to_nat room) data)
      end
  end.

Lemma chain_ext pages pages' ids : forall data,
  (forall id, id ∈ ids -> pages' !! id = pages !! id) -> chain pages ids data -> chain pages' ids data.
Proof.
  induction ids as [|id ids IH]; intros data Hs; [done|]. cbn [chain]. intros [(buf & Hb & Hrest) Htl]. split.
  - exists buf. split; [|done]. rewrite <- Hb. apply Hs. left.
  - destruct ids; [done|]. destruct Htl as [Hl Hc]. split; [done|]. apply IH; [|done]. intros. apply Hs. by right.
Qed.

(** [ids] are as many pages as [data] needs. *)
Definition enough (ids : list Z) (data : bytes) : Prop :=
  (lenZ ids - 1) * room < lenZ data <= lenZ ids * room.

Section fill.
Context (base : Z) (page : bytes) (int_key : option Z) (cell_idx : Z) (record : bytes).
#[local] Abbreviation step := (fill_step usable page_size base page int_key cell_idx record).

(** Where the number of the next page goes: the end of the cell, or the page
    before. *)
Definition link (cell : bytes) (pages : store) (current : option Z) (id : Z) : bytes * store :=
  match current with
  | None => (splice cell (lenZ cell - 4) (be_split 4 id), pages)
  | Some prev =>
      (cell, match pages !! prev with Some buf => <[prev := splice buf 0 (be_split 4 id)]> pages | None => pages end)
  end.

Definition linkable (cell : bytes) (pages : store) (current : option Z) : Prop :=
  match current with
  | None => 4 <= lenZ cell
  | Some prev => exists buf, pages !! prev = Some buf /\ 4 <= lenZ buf
  end.

(** The chain is allocated and filled. *)
Definition filled (cell : bytes) (pages : store) (current : option Z) (ids : list Z) (data : bytes) (s : fill_state) : Prop :=
  fi_cell s = fst (link cell pages current (default 0 (head ids))) /\
  chain (fi_pages s) ids data /\
  forall q, q ∉ ids -> fi_pages s !! q = snd (link cell pages current (default 0 (head ids))) !! q.

Lemma link_ne cell (pages : store) current id x q z :
  pages !! id = None -> q <> id -> snd (link cell (<[id := z]> pages) current x) !! q = snd (link cell pages current x) !! q.
Proof.
  intros Hid Hq. destruct current as [prev|]; cbn [link snd]; [|by rewrite lookup_insert_ne].
  destruct (decide (prev = id)) as [->|Hne].
  - rewrite lookup_insert_eq. rewrite Hid. by rewrite !lookup_insert_ne.
  - rewrite lookup_insert_ne by done. destruct (pages !! prev); [|by rewrite lookup_insert_ne].
    destruct (decide (q = prev)) as [->|]; [by rewrite !lookup_insert_eq|by rewrite !lookup_insert_ne].
Qed.

Lemma link_None cell (pages : store) current x q : pages !! q = None -> snd (link cell pages current x) !! q = None.
Proof.
  intros Hq. destruct current as [prev|]; cbn [link snd]; [|done]. destruct (pages !! prev) eqn:E; [|done].
  rewrite lookup_insert_ne; [done|]. intros ->. congruence.
Qed.

Lemma link_new cell (pages : store) current x id z :
  linkable cell pages current -> pages !! id = None -> snd (link cell (<[id := z]> pages) current x) !! id = Some z.
Proof.
  intros HL Hid. destruct current as [prev|]; cbn [link snd]; [|by rewrite lookup_insert_eq].
  destruct HL as (buf & Hp & _). assert (prev <> id) by congruence. rewrite lookup_insert_ne, Hp by done.
  by rewrite lookup_insert_ne, lookup_insert_eq.
Qed.

(** A page from the pager, linked and cleared. *)
Lemma allocate_step cell (pages : store) current sp src dst id events :
  linkable cell pages current -> pages !! id = None -> is_u32 id ->
  step (mkFill (CopyData AllocateOverflowPage sp src dst current) cell pages (AllocPage id :: events)) =
  Ok (Continue (mkFill (CopyData Copy room src 4 (Some id))
    (fst (link cell pages current id)) (snd (link cell (<[id := replicate (Z.to_nat page_size) 0]> pages) current id)) events)).
Proof.
  intros HL Hid Hu. pose proof (be_split_lenZ 4 id) as H4. unfold fill_step, fill_allocate. cbn [fi_state fi_events fi_pages fi_cell].
  assert (u32 id = id) as -> by (unfold u32, is_u32 in *; by apply Z.mod_small).
  unfold checked_sub, overflow_page_pointer_size. destruct current as [prev|]; cbn [link fst snd].
  - destruct HL as (buf & Hp & Hl). assert (prev <> id) by congruence. rewrite lookup_insert_ne, Hp by done. cbn [unwrap mbind Result_bind].
    assert (write_slice buf 0 (be_split 4 id) = Ok (splice buf 0 (be_split 4 id))) as -> by (apply write_slice_Ok; split_and!; [lia|lia|done]).
    cbn [mbind Result_bind]. by decide_if true.
  - cbn in HL. destruct (Z.leb_spec 4 (lenZ cell)); [|lia]. cbn [mbind Result_bind].
    assert (write_slice cell (lenZ cell - 4) (be_split 4 id) = Ok (splice cell (lenZ cell - 4) (be_split 4 id))) as ->
      by (apply write_slice_Ok; split_and!; [lia|lia|done]).
    cbn [mbind Result_bind]. by decide_if true.
Qed.

Definition zero_page : list Z := replicate (Z.to_nat page_size) 0.
Lemma zero_length : lenZ zero_page = page_size.
Proof. unfold zero_page, lenZ. rewrite length_replicate. lia. Qed.

(** A page of the chain is filled. *)
Lemma copy_step cell (pages : store) src id events data :
  pages !! id = Some zero_page -> record = take (Z.to_nat src) record ++ data -> 0 <= src -> lenZ data = lenZ record - src -> 0 < lenZ data ->
  let pages' := <[id := splice zero_page 4 (take (Z.to_nat room) data)]> pages in
  step (mkFill (CopyData Copy room src 4 (Some id)) cell pages events) =
  Ok (if lenZ data <=? room then Finish (mkFill (CopyData Copy room src 4 (Some id)) cell pages' events)
      else Continue (mkFill (CopyData AllocateOverflowPage room (src + room) 4 (Some id)) cell pages' events)).
Proof.
  intros Hp Hrec Hsrc Hd Hpos pages'. unfold fill_step, fill_copy. cbn [fi_state fi_events fi_pages fi_cell]. pass.
  assert (slice_from record src = Ok data) as ->.
  { rewrite Hrec. apply slice_from_at. unfold lenZ in *. rewrite length_take. lia. }
  cbn [mbind Result_bind]. rewrite slice_sub by lia. cbn [mbind Result_bind].
  replace (sub data 0 _) with (take (Z.to_nat room) data).
  2: { unfold sub. rewrite drop_0. destruct (Z.min_spec room (lenZ data)) as [[? ->]|[? ->]]; rewrite Z.sub_0_r; [done|].
       unfold lenZ. rewrite Nat2Z.id, !take_ge; unfold lenZ in *; (done || lia). }
  unfold overflow_page_pointer_size. pass. rewrite Hp. cbn [unwrap mbind Result_bind].
  assert (lenZ (take (Z.to_nat room) data) <= room) as Hl by (unfold lenZ; rewrite length_take; lia).
  pose proof zero_length. pose proof (lenZ_nonneg (take (Z.to_nat room) data)).
  assert (write_slice zero_page 4 (take (Z.to_nat room) data) = Ok (splice zero_page 4 (take (Z.to_nat room) data))) as ->
    by (apply write_slice_Ok; split_and!; [lia|lia|done]).
  cbn [mbind Result_bind]. destruct (Z.leb_spec (lenZ data) room); [by decide_if true|]. decide_if false.
  by rewrite Z.min_l by lia.
Qed.

(** What the filled page has to offer. *)
Lemma filled_page data next :
  0 < lenZ data -> let buf := splice zero_page 4 (take (Z.to_nat room) data) in
  usable <= lenZ (splice buf 0 (be_split 4 next)) /\ sub (splice buf 0 (be_split 4 next)) 0 4 = be_split 4 next /\
  sub (splice buf 0 (be_split 4 next)) 4 (Z.min room (lenZ data)) = take (Z.to_nat room) data /\
  usable <= lenZ buf /\ sub buf 0 4 = be_split 4 0 /\ sub buf 4 (Z.min room (lenZ data)) = take (Z.to_nat room) data.
Proof.
  intros Hd buf. pose proof zero_length as Hz. pose proof (be_split_lenZ 4 next) as H4.
  assert (lenZ (take (Z.to_nat room) data) = Z.min room (lenZ data)) as Hl by (unfold lenZ in *; rewrite length_take; lia).
  assert (lenZ buf = page_size) as Hb by (unfold buf; rewrite lenZ_splice; lia).
  assert (sub buf 4 (Z.min room (lenZ data)) = take (Z.to_nat room) data) as Hs by (unfold buf; rewrite sub_splice_eq; (done || lia)).
  split_and!; [rewrite lenZ_splice; lia|rewrite sub_splice_eq; (done || lia)|by rewrite sub_splice_ne by lia|lia| |done].
  unfold buf. rewrite sub_splice_ne by lia. unfold zero_page, sub. rewrite drop_0, take_replicate.
  replace (Z.to_nat 4 `min` Z.to_nat page_size)%nat with 4%nat by lia. done.
Qed.

Lemma lenZ_cons {A} (x : A) l : lenZ (x :: l) = lenZ l + 1.
Proof. unfold lenZ. cbn. lia. Qed.

Lemma lenZ_drop {A} (l : list A) n : 0 <= n <= lenZ l -> lenZ (drop (Z.to_nat n) l) = lenZ l - n.
Proof. unfold lenZ. rewrite length_drop. lia. Qed.

(** The rest of the record after another page. *)
Lemma record_rest src data :
  record = take (Z.to_nat src) record ++ data -> 0 <= src -> lenZ data = lenZ record - src -> room < lenZ data ->
  record = take (Z.to_nat (src + room)) record ++ drop (Z.to_nat room) data.
Proof.
  intros Hr Hs Hl Hd. rewrite <- (take_drop (Z.to_nat (src + room)) record) at 1. f_equal.
  rewrite Hr at 1. rewrite drop_app_ge by (rewrite length_take; lia). f_equal. rewrite length_take.
  unfold lenZ in *. lia.
Qed.

(** One page of the chain, given that the rest is filled. *)
Lemma filled_cons cell (pages : store) current id ids data s :
  linkable cell pages current -> pages !! id = None -> id ∉ ids -> Forall (fun q => pages !! q = None) ids ->
  room < lenZ data -> ids <> [] ->
  filled (fst (link cell pages current id))
    (<[id := splice zero_page 4 (take (Z.to_nat room) data)]> (snd (link cell (<[id := zero_page]> pages) current id)))
    (Some id) ids (drop (Z.to_nat room) data) s ->
  filled cell pages current (id :: ids) data s.
Proof.
  intros HL Hid Hni Hfresh Hd Hne (Hc & Hch & Hq). unfold filled. cbn [head default from_option].
  destruct (filled_page data (default 0 (head ids)) ltac:(lia)) as (H1 & H2 & H3 & _).
  assert (fi_pages s !! id = Some (splice (splice zero_page 4 (take (Z.to_nat room) data)) 0 (be_split 4 (default 0 (head ids))))) as Hb.
  { rewrite (Hq id Hni). cbn [link snd]. by rewrite !lookup_insert_eq. }
  split_and!; [done| |].
  - cbn [chain]. split; [eexists; split_and!; [exact Hb|done|done|done]|]. destruct ids; [done|]. by split.
  - intros q [Hqi Hqn]%not_elem_of_cons. rewrite (Hq q Hqn). cbn [link snd]. rewrite lookup_insert_eq.
    rewrite !lookup_insert_ne by done. by apply link_ne.
Qed.

Lemma filled_last cell (pages : store) current id data :
  linkable cell pages current -> pages !! id = None -> 0 < lenZ data <= room -> forall st ev,
  filled cell pages current [id] data (mkFill st (fst (link cell pages current id))
    (<[id := splice zero_page 4 (take (Z.to_nat room) data)]> (snd (link cell (<[id := zero_page]> pages) current id))) ev).
Proof.
  intros HL Hid Hd st ev. unfold filled. cbn [head default from_option fi_cell fi_pages].
  destruct (filled_page data 0 ltac:(lia)) as (_ & _ & _ & H1 & H2 & H3). split_and!; [done| |].
  - cbn [chain]. split; [|done]. eexists. rewrite lookup_insert_eq. split_and!; done.
  - intros q Hq%not_elem_of_cons. rewrite lookup_insert_ne by (intros ->; tauto). apply link_ne; [done|]. tauto.
Qed.

Lemma fill_allocate_ok events : forall cell (pages : store) current sp src dst ids more data,
  linkable cell pages current -> record = take (Z.to_nat src) record ++ data -> 0 <= src -> lenZ data = lenZ record - src ->
  Forall no_error events -> ids_of events = ids ++ more -> enough ids data -> 0 < lenZ data ->
  NoDup ids -> Forall (fun id => is_u32 id /\ pages !! id = None) ids -> exists s,
    run step (2 * length events + 1) (mkFill (CopyData AllocateOverflowPage sp src dst current) cell pages events) = Ok s /\
    filled cell pages current ids data s.
Proof.
  induction events as [|e events IH]; intros cell pages current sp src dst ids more data HL Hrec Hsrc Hdl Herr Hids [He1 He2] Hd Hnd Hfresh.
  { destruct ids; [change (lenZ []) with 0 in He2; lia|done]. }
  inversion Herr as [|? ? He Herr']; subst. replace (2 * length (e :: events) + 1)%nat with (S (S (2 * length events + 1))) by (cbn; lia).
  destruct e as [|err|id]; [|done|].
  - destruct (IH cell pages current sp src dst ids more data HL Hrec Hsrc Hdl Herr' Hids (conj He1 He2) Hd Hnd Hfresh) as (s & Hs & HF).
    exists s. split; [|done]. rewrite run_S. cbn [fill_step fi_state fill_allocate fi_events mbind Result_bind fi_cell fi_pages].
    apply (run_mono _ _ _ _ _ Hs). lia.
  - destruct ids as [|i ids]; [change (lenZ []) with 0 in He2; lia|]. cbn in Hids. injection Hids as <- Hids.
    apply NoDup_cons in Hnd as [Hni Hnd]. inversion Hfresh as [|? ? [Hu Hid] Hfresh']; subst.
    rewrite lenZ_cons in He1, He2. rewrite run_S, (allocate_step _ _ _ _ _ _ _ _ HL Hid Hu). cbn [mbind Result_bind].
    rewrite run_S, (copy_step _ _ _ _ _ data); [|by apply link_new|done..]. cbn [mbind Result_bind].
    destruct (Z.leb_spec (lenZ data) room) as [Hle|Hgt].
    + destruct ids as [|i ids]; [|rewrite lenZ_cons in He1; pose proof (lenZ_nonneg ids); nia].
      eexists. split; [done|]. by apply filled_last.
    + destruct (IH (fst (link cell pages current id)) (<[id := splice zero_page 4 (take (Z.to_nat room) data)]> (snd (link cell (<[id := zero_page]> pages) current id)))
        (Some id) room (src + room) 4 ids more (drop (Z.to_nat room) data)) as (s & Hs & HF); [..|exists s; split; [done|]].
      * eexists. rewrite lookup_insert_eq. split; [done|]. destruct (filled_page data 0 Hd) as (_ & _ & _ & ? & _). lia.
      * by apply record_rest.
      * lia.
      * rewrite lenZ_drop by lia. lia.
      * done.
      * done.
      * split; rewrite lenZ_drop by lia; lia.
      * rewrite lenZ_drop by lia. lia.
      * done.
      * apply Forall_forall. intros q Hq. rewrite Forall_forall in Hfresh'. destruct (Hfresh' q Hq) as [Hqu Hqn]. split; [done|].
        assert (q <> id) by (intros ->; done). rewrite lookup_insert_ne by done. rewrite link_ne by done. by apply link_None.
      * apply filled_cons; try done.
        -- eapply Forall_impl; [exact Hfresh'|]. by intros q [_ ?].
        -- intros ->. change (lenZ []) with 0 in He2. lia.
Qed.

(** The record is in the cell and the pages [ids]. *)
Definition stored (t : PageType) (child key : Z) (pages : store) (ids : list Z) (cell : bytes) (pages' : store) : Prop :=
  cell = whole_cell usable t child key record (default 0 (head ids)) /\
  (forall q, q ∉ ids -> pages' !! q = pages !! q) /\
  match payload_overflows (lenZ record) (max_local usable t) (min_local usable t) usable with
  | None => ids = []
  | Some l => chain pages' ids (drop (Z.to_nat (l - 4)) record)
  end.

(** The pages a record needs. *)
Definition needs (t : PageType) (ids : list Z) : Prop :=
  match payload_overflows (lenZ record) (max_local usable t) (min_local usable t) usable with
  | None => ids = []
  | Some l => enough ids (drop (Z.to_nat (l - 4)) record)
  end.

Section start.
Context (t : PageType) (child key : Z) (Ht : t <> TableInterior) (Hsize : is_u64 (lenZ record)) (Hu : usable <= 65536).
Context (Htype : page_type base page = Ok t).
Context (Hchild : t = IndexInterior -> cell_interior_read_left_child_page base page cell_idx = Ok child).
Context (Hkey : t = TableLeaf -> int_key = Some key).

Lemma cell_header_ok : cell_header base page t int_key cell_idx record [] = Ok (header_of t child key (lenZ record)).
Proof.
  unfold cell_header, header_of. pose proof (u64_range key).
  destruct t eqn:E; try done; cbn [app]; repeat (case_bool_decide; try done).
  - rewrite (Hchild eq_refl). cbn [mbind Result_bind]. rewrite write_varint_to_vec_eq by done. by rewrite app_nil_r.
  - cbn [mbind Result_bind]. rewrite write_varint_to_vec_eq by done. by rewrite app_nil_r.
  - cbn [mbind Result_bind]. rewrite (Hkey eq_refl). cbn [unwrap mbind Result_bind].
    rewrite write_varint_to_vec_eq by done. cbn [mbind Result_bind]. by rewrite write_varint_to_vec_eq by done.
Qed.

Lemma fill_ok (pages : store) events ids more :
  Forall no_error events -> ids_of events = ids ++ more -> needs t ids -> NoDup ids ->
  Forall (fun id => is_u32 id /\ pages !! id = None) ids -> exists s,
    run step (2 * length events + 3) (mkFill FillStart [] pages events) = Ok s /\
    stored t child key pages ids (fi_cell s) (fi_pages s).
Proof.
  intros Herr Hids Hneeds Hnd Hfresh. replace (2 * length events + 3)%nat with (S (S (2 * length events + 1))) by lia.
  rewrite run_S. cbn [fill_step fi_state]. unfold fill_start. rewrite Htype. cbn [mbind Result_bind fi_cell].
  rewrite cell_header_ok. cbn [mbind Result_bind]. fold (max_local usable t) (min_local usable t).
  unfold needs in Hneeds. unfold stored, whole_cell, local_of.
  destruct (payload_overflows (lenZ record) _ _ _) as [l|] eqn:E; cbn [mbind Result_bind fi_state fi_cell fi_pages fi_events].
  2: { subst ids. eexists. split; [done|]. done. }
  pose proof (lenZ_nonneg record) as Hr. destruct (local_size usable ltac:(lia) t _ _ E Hr) as (H4 & Hlt & Hlu).
  set (hd := header_of t child key (lenZ record)). set (sp := l - overflow_page_pointer_size).
  assert (lenZ (hd ++ replicate (Z.to_nat l) 0) = lenZ hd + l) as Hlc by (rewrite lenZ_app; unfold lenZ; rewrite length_replicate; lia).
  rewrite run_S. cbn [fill_step fi_state]. unfold fill_copy. cbn [fi_cell fi_pages fi_events]. pass.
  unfold slice_from. rewrite slice_sub, Z.sub_0_r, sub_full by (done || lia). cbn [mbind Result_bind].
  unfold sp, overflow_page_pointer_size. rewrite Z.min_l by lia. rewrite slice_sub, Z.sub_0_r by lia. cbn [mbind Result_bind].
  replace (sub record 0 (l - 4)) with (take (Z.to_nat (l - 4)) record) by (unfold sub; by rewrite drop_0). set (x := take _ record).
  assert (lenZ x = l - 4) as Hx by (unfold x, lenZ in *; rewrite length_take; lia).
  assert (write_slice (hd ++ replicate (Z.to_nat l) 0) (lenZ hd) x = Ok (hd ++ x ++ replicate 4 0)) as ->.
  { replace (Z.to_nat l) with (Z.to_nat (l - 4) + 4)%nat by lia. rewrite replicate_add. apply write_slice_at; [done|].
    rewrite length_replicate. unfold lenZ in Hx. lia. }
  cbn [mbind Result_bind]. destruct (Z.eqb_spec (lenZ record - (l - 4)) 0) as [|_]; [lia|]. cbn [mbind Result_bind].
  assert (lenZ (drop (Z.to_nat (l - 4)) record) = lenZ record - (l - 4)) as Hd by (apply lenZ_drop; lia).
  destruct (fill_allocate_ok events (hd ++ x ++ replicate 4 0) pages None (l - 4) (0 + (l - 4)) (lenZ hd) ids more (drop (Z.to_nat (l - 4)) record))
    as (s & Hs & Hc & Hch & Hq); try done; try lia.
  { cbn. rewrite !lenZ_app. unfold lenZ at 3. cbn. pose proof (lenZ_nonneg hd). lia. }
  { by rewrite Z.add_0_l, take_drop. }
  exists s. split; [done|]. split_and!; [|done|done]. rewrite Hc. cbn [link fst].
  assert (lenZ (hd ++ x ++ replicate 4 0) - 4 = lenZ (hd ++ x)) as -> by (rewrite !lenZ_app; unfold lenZ; cbn; lia).
  pose proof (write_slice_at (hd ++ x) (replicate 4 0) [] (be_split 4 (default 0 (head ids))) _ eq_refl ltac:(by rewrite be_split_length)) as Hw.
  apply write_slice_Ok in Hw as (_ & _ & Hw). rewrite !app_nil_r in Hw. rewrite !(app_assoc hd x). by rewrite <- Hw.
Qed.
End start.
End fill.

(** ** Reading a chain *)

Definition no_read_error (e : read_event) : Prop := match e with ReadError _ => False | _ => True end.
Definition answered (e : read_event) : bool := match e with ReadReady | ReadWait => true | _ => false end.
Definition answers (events : list read_event) : nat := length (List.filter answered events).

Lemma read_u32_first buf : 4 <= lenZ buf -> read_u32_no_offset buf 0 = Ok (be_combine (sub buf 0 4)).
Proof.
  destruct buf as [|b0 [|b1 [|b2 [|b3 buf]]]]; unfold lenZ; cbn [length]; try lia. intros _.
  unfold read_u32_no_offset, sub. done.
Qed.

Section read.
Context (pages : store) (payload : bytes) (start size : Z).
#[local] Abbreviation rstep := (overflow_step usable pages payload start size).

(** One page of a chain: the last one, or the step to the next. *)
Lemma overflow_page_last p id data q ev :
  chain pages [id] data -> overflow_page usable pages (mkReadOverflow p q (lenZ data) id) ev = Ok (Finish (p ++ data)).
Proof.
  intros [(buf & Hb & Hl & Hn & Hs) Hd]. unfold overflow_page, checked_sub. cbn [ro_page ro_remaining_to_read ro_payload]. rewrite Hb.
  cbn [unwrap mbind Result_bind]. rewrite read_u32_first by lia. cbn [mbind Result_bind].
  rewrite Hn. cbn [head default from_option]. rewrite be32_roundtrip by (unfold is_u32; lia).
  destruct (Z.leb_spec 4 usable); [|lia]. cbn [mbind Result_bind]. rewrite Z.min_l by lia. rewrite Z.ltb_irrefl. cbn [andb].
  rewrite slice_sub by lia. cbn [mbind Result_bind ro_remaining_to_read ro_payload].
  replace (4 + lenZ data - 4) with (Z.min room (lenZ data)) by lia. rewrite Hs, take_ge by (unfold lenZ in *; lia).
  by rewrite Z.sub_diag.
Qed.

Lemma overflow_page_next p id id' ids data q ev :
  chain pages (id :: id' :: ids) data -> is_u32 id' -> id' <> 0 ->
  overflow_page usable pages (mkReadOverflow p q (lenZ data) id) ev =
    let r := mkReadOverflow (p ++ take (Z.to_nat room) data) id' (lenZ (drop (Z.to_nat room) data)) id' in
    match ev with
    | ReadReady :: ev => Ok (Continue (Some r, ev))
    | ReadWait :: ev => Ok (Wait (Some r, ev))
    | ReadError e :: _ => Err e
    | ReadSpill :: ev => Ok (Wait (Some (mkReadOverflow p q (lenZ data) id), ev))
    | [] => Ok (Wait (Some (mkReadOverflow p q (lenZ data) id), []))
    end.
Proof.
  intros [(buf & Hb & Hl & Hn & Hs) [Hd _]] Hu H0. unfold overflow_page, checked_sub. cbn [ro_page ro_remaining_to_read ro_payload]. rewrite Hb.
  cbn [unwrap mbind Result_bind]. rewrite read_u32_first by lia. cbn [mbind Result_bind].
  rewrite Hn. cbn [head default from_option]. cbv [Datatypes.id]. rewrite be32_roundtrip by done.
  destruct (Z.leb_spec 4 usable); [|lia]. cbn [mbind Result_bind]. rewrite Z.min_r by lia.
  destruct (Z.ltb_spec room (lenZ data)); [|lia]. destruct (Z.eqb_spec id' 0); [done|]. cbn [andb negb].
  rewrite slice_sub by lia. cbn [mbind Result_bind]. replace (4 + room - 4) with (Z.min room (lenZ data)) by lia.
  by rewrite Hs, lenZ_drop by lia.
Qed.

Lemma chain_read events : forall p q id ids data,
  chain pages (id :: ids) data -> Forall (fun i => is_u32 i /\ i <> 0) ids -> Forall no_read_error events ->
  (length ids <= answers events)%nat ->
  run rstep (S (length events)) (Some (mkReadOverflow p q (lenZ data) id), events) = Ok (p ++ data).
Proof.
  induction events as [|e events IH]; intros p q id ids data Hch Hids Herr Hn; rewrite run_S; cbn [overflow_step].
  { destruct ids; [|cbn in Hn; lia]. by rewrite overflow_page_last. }
  destruct ids as [|id' ids]; [by rewrite overflow_page_last|]. inversion Hids as [|? ? [Hu H0] Hids']; subst.
  inversion Herr as [|? ? He Herr']; subst. rewrite (overflow_page_next _ _ _ _ _ _ _ Hch Hu H0). cbv zeta.
  pose proof Hch as [_ [Hd Hch']]. assert (p ++ data = (p ++ take (Z.to_nat room) data) ++ drop (Z.to_nat room) data) as Hp by (by rewrite <- app_assoc, take_drop).
  destruct e; try done; cbn [mbind Result_bind]; unfold answers in *; cbn [List.filter answered length] in Hn.
  - by apply (IH _ _ _ (id' :: ids)); [|constructor|..].
  - rewrite Hp. apply (IH _ _ _ ids); (done || (unfold answers; lia)).
  - rewrite Hp. apply (IH _ _ _ ids); (done || (unfold answers; lia)).
Qed.

Lemma read_ok events ids data :
  chain pages ids data -> start = default 0 (head ids) -> size = lenZ payload + lenZ data ->
  Forall (fun i => is_u32 i /\ i <> 0) ids -> Forall no_read_error events -> (length ids <= answers events)%nat ->
  run rstep (S (length events)) (None, events) = Ok (payload ++ data).
Proof.
  intros Hch Hst Hsz Hids. destruct ids as [|id ids]; [done|]. cbn in Hst. subst id. apply Forall_cons_1 in Hids as [_ Hids'].
  induction events as [|e events IH]; intros Herr Hn; [cbn in Hn; lia|]. apply Forall_cons_1 in Herr as [He Herr'].
  rewrite run_S. cbn [overflow_step]. unfold overflow_start. pose proof (lenZ_nonneg data). pass.
  unfold answers in *. replace (size - lenZ payload) with (lenZ data) by lia.
  destruct e; try done; cbn [mbind Result_bind List.filter answered length] in *.
  - by apply IH.
  - apply (chain_read _ _ _ _ ids); (done || (unfold answers; lia)).
  - apply (chain_read _ _ _ _ ids); (done || (unfold answers; lia)).
Qed.
End read.
End chains.

(** ** Properties *)

(** What the callers of [fill_cell_payload] provide: a page of the type, the
    child pointer of the cell that is replaced on an index interior page, the
    key on a table leaf, and a pager that answers with as many unused pages as
    the record needs, after any number of waits. *)
Record payload_args (base usable page_size : Z) (t : PageType) (page : bytes) (int_key : option Z) (cell_idx child key : Z)
    (record : bytes) (pages : store) (events : list alloc_event) (ids : list Z) : Prop := mkPayloadArgs {
  pa_sizes : 480 <= usable <= 65536 /\ usable <= page_size;
  pa_type : page_type base page = Ok t /\ t <> TableInterior;
  pa_child : is_u32 child /\ (t = IndexInterior -> cell_interior_read_left_child_page base page cell_idx = Ok child);
  pa_key : - 2 ^ 63 <= key < 2 ^ 63 /\ (t = TableLeaf -> int_key = Some key);
  pa_record : bytes_ok record /\ is_u64 (lenZ record);
  pa_events : Forall no_error events /\ exists more, ids_of events = ids ++ more;
  pa_needs : needs usable record t ids;
  pa_fresh : NoDup ids /\ Forall (fun id => is_u32 id /\ id <> 0 /\ pages !! id = None) ids
}.

(** C14: a record of any size that is written as the payload of a cell is read
    back.  The cell has the length that its header says, only the pages [ids]
    change, and wherever the cell is put on a page of its type, reading it gives
    the key, the child and the whole payload: on the page, or from the chain of
    overflow pages, in any later state of the pager that still has these pages.
    Both calls end after as many resumptions as the pager needs. *)
Theorem payload_roundtrip base usable page_size t page int_key cell_idx child key record pages events ids :
  payload_args base usable page_size t page int_key cell_idx child key record pages events ids ->
  exists s,
    (forall calls fuel, (2 * length events + 3 < calls)%nat -> (2 * length events + 3 <= fuel)%nat ->
      fill_calls usable page_size calls fuel base page int_key cell_idx record (mkFill FillStart [] pages events) = Ok s) /\
    is_cell usable t (fi_cell s) /\ (forall q, q ∉ ids -> fi_pages s !! q = pages !! q) /\
    forall base' buf ca fbs ptrs cells (i : nat),
      dims base' usable -> page_wf base' usable t buf ca fbs ptrs cells -> cells !! i = Some (fi_cell s) ->
      exists payload first,
        cell_get base' buf (Z.of_nat i) usable = Ok (cell_of t child key payload (lenZ record) first) /\
        match first with
        | None => payload = record
        | Some start =>
            forall (later : store) answers_, (forall id, id ∈ ids -> later !! id = fi_pages s !! id) ->
              Forall no_read_error answers_ -> (length ids <= answers answers_)%nat ->
              forall calls fuel, (length answers_ + 1 < calls)%nat -> (length answers_ + 1 <= fuel)%nat ->
                read_calls usable calls fuel later payload start (lenZ record) (None, answers_) = Ok record
        end.
Proof.
  intros [[Hu Hps] [Htype Ht] [Hcu Hchild] [Hkr Hkey] [Hrec Hsize] [Herr [more Hids]] Hneeds [Hnd Hfresh]].
  destruct (fill_ok usable page_size ltac:(lia) base page int_key cell_idx record t child key Ht Hsize ltac:(lia) Htype Hchild Hkey
    pages events ids more Herr Hids Hneeds Hnd) as (s & Hs & Hcell & Hq & Hchain).
  { eapply Forall_impl; [exact Hfresh|]. by intros id (? & ? & ?). }
  assert (is_u32 (default 0 (head ids))) as Hfirst.
  { destruct Hfresh as [|id ids' (? & _) _]; cbn; [unfold is_u32; lia|done]. }
  exists s. split_and!; [|rewrite Hcell; by apply whole_is_cell|done|].
  { intros calls fuel Hc Hf. by apply (run_calls _ (2 * length events + 3)). }
  intros base' buf ca fbs ptrs cells i Hd HW Hi. destruct (lookup_lt_is_Some_2 ptrs i) as [p Hp].
  { pose proof (cs_len _ _ _ _ _ _ (pw_cells _ _ _ _ _ _ _ _ HW)). apply lookup_lt_Some in Hi. unfold lenZ in *. lia. }
  destruct (cell_get_ok base' usable t Hd buf ca fbs ptrs cells HW i p _ Hp Hi) as (pre & rest & _ & _ & Hrest & ->).
  rewrite Hcell, read_cell_ok by done. eexists _, _. split; [done|]. unfold first_of_chain, local_part.
  pose proof (lenZ_nonneg record). destruct (payload_overflows _ _ _ _) as [l|] eqn:E; [|done].
  intros later ev Hsame Hev Hn calls fuel Hc Hf. destruct (local_size usable Hu t _ _ E ltac:(lia)) as (? & ? & _).
  apply (run_calls _ (S (length ev))); [|lia|lia].
  rewrite (read_ok usable page_size ltac:(lia) _ _ _ _ ev ids (drop (Z.to_nat (l - 4)) record)); [by rewrite take_drop|..]; try done.
  - by eapply chain_ext.
  - unfold lenZ in *. rewrite length_take, length_drop. lia.
  - eapply Forall_impl; [exact Hfresh|]. by intros id (? & ? & ?).
Qed.

(** A record of 1000 bytes on a leaf of 512 bytes: 39 bytes are on the page, the
    rest takes two overflow pages. *)
Definition demo_record : bytes := (fun i : nat => Z.of_nat i mod 251) <$> seq 0 1000.
Definition demo_events : list alloc_event := [AllocYield; AllocPage 9; AllocYield; AllocPage 7; AllocPage 8].

Lemma demo_args :
  payload_args 0 512 512 TableLeaf (13 :: replicate 511 0) (Some (-5)) 0 0 (-5) demo_record ∅ demo_events [9; 7].
Proof.
  constructor.
  - lia.
  - split; [reflexivity|done].
  - split; [unfold is_u32; lia|done].
  - split; [lia|done].
  - split; [|unfold is_u64; vm_compute; split; congruence].
    apply Forall_forall. intros x (i & -> & _)%list_elem_of_fmap. unfold is_u8. pose proof (Z.mod_pos_bound (Z.of_nat i) 251). lia.
  - split; [repeat constructor|]. exists [8]. reflexivity.
  - unfold needs. replace (payload_overflows (lenZ demo_record) (max_local 512 TableLeaf) (min_local 512 TableLeaf) 512) with (Some 43) by reflexivity.
    unfold enough. replace (lenZ (drop (Z.to_nat (43 - 4)) demo_record)) with 961 by reflexivity. vm_compute. split; congruence.
  - split; [repeat constructor; set_solver|]. repeat constructor; (done || (unfold is_u32; lia)).
Qed.

Lemma payload_roundtrip_witness :
  exists s, fill_calls 512 512 20 20 0 (13 :: replicate 511 0) (Some (-5)) 0 demo_record (mkFill FillStart [] ∅ demo_events) = Ok s /\
    is_cell 512 TableLeaf (fi_cell s).
Proof.
  destruct (payload_roundtrip 0 512 512 TableLeaf (13 :: replicate 511 0) (Some (-5)) 0 0 (-5) demo_record ∅ demo_events [9; 7] demo_args)
    as (s & Hs & Hc & _).
  exists s. split; [apply Hs; cbn; lia|exact Hc].
Defined.
