(* ===== verification/Freelist.v ===== *)
(** * Freelist: the free pages of a database

    Models [free_page] and [allocate_page] of core/storage/pager.rs with the
    freelist they keep in the database file: trunk pages that form a list and
    hold the numbers of leaf pages.  Both are resumable: [read_page] answers
    with the events of BtreePayload, and a call that has to wait returns with
    its state kept.  [clear_overflow_pages] of btree.rs frees the overflow pages
    of a cell with them.  Entering a call reads the database header and makes
    room in the cache, which may also wait but changes none of this state. *)

From stdpp Require Import gmap.
From S2P Require Import Prelude Resume Varint OnDisk Page BtreePage BtreeSpace BtreePayload.

Definition FREELIST_TRUNK_OFFSET_NEXT_TRUNK_PTR : Z := 0.
Definition FREELIST_TRUNK_OFFSET_LEAF_COUNT : Z := 4.
Definition FREELIST_TRUNK_OFFSET_FIRST_LEAF_PTR : Z := 8.
Definition FREELIST_LEAF_PTR_SIZE : Z := 4.

(** The fields of the database header that the functions use, and the pages. *)
Record db := mkDb {
  database_size : Z;
  freelist_trunk_page : Z;
  freelist_pages : Z;
  db_pages : gmap Z PageInner
}.

Definition set_page (d : db) (id : Z) (p : PageInner) : db :=
  mkDb (database_size d) (freelist_trunk_page d) (freelist_pages d) (<[id := p]> (db_pages d)).

(** A change of the page with number [id]. *)
Definition with_page (d : db) (id : Z) (f : PageInner -> Result PageInner) : Result db :=
  p ← unwrap (db_pages d !! id);
  p ← f p;
  Ok (set_page d id p).

Definition write_u32_no_offset (pos value : Z) (p : PageInner) : Result PageInner :=
  buf ← write_slice (as_ptr p) pos (be_split 4 value);
  Ok (set_buffer p buf).

(** [pages_contents.as_ptr().fill(0)] *)
Definition fill_zero (p : PageInner) : PageInner := set_buffer p (replicate (length (as_ptr p)) 0).

(** ** Freeing a page *)

Inductive FreePageState := FreeStart | AddToTrunk (page : Z) | NewTrunk (page : Z).

(** The state between the iterations, and the state when the call is done. *)
Abbreviation free_state := (FreePageState * db * list read_event)%type.
Abbreviation freed := (db * list read_event)%type.

Section free.
Context (usable_space : Z).

(** The changes at the start, once there is a page. *)
Definition free_begin (page_id : Z) (d : db) : Result (FreePageState * db) :=
  d ← with_page d page_id (fun p => Ok (set_overflow_cells p []));
  _ ← turso_assert (freelist_pages d <? u32_max);
  let d := mkDb (database_size d) (freelist_trunk_page d) (freelist_pages d + 1) (db_pages d) in
  d ← with_page d page_id (fun p => Ok (pin p));
  Ok (if freelist_trunk_page d =? 0 then NewTrunk page_id else AddToTrunk page_id, d).

Definition free_start (given : bool) (page_id : Z) (d : db) (events : list read_event) : Result (outcome free_state freed) :=
  if (page_id <? 2) || (database_size d <? page_id) then Err Corrupt
  else if given then
    '(s, d) ← free_begin page_id d; Ok (Continue (s, d, events))
  else
    match events with
    | ReadReady :: events => '(s, d) ← free_begin page_id d; Ok (Continue (s, d, events))
    | ReadWait :: events => '(s, d) ← free_begin page_id d; Ok (Wait (s, d, events))
    | ReadError e :: _ => Err e
    | ReadSpill :: events => Ok (Wait (FreeStart, d, events))
    | [] => Ok (Wait (FreeStart, d, []))
    end.

(** A trunk page that has been read: the leaf is added when there is space. *)
Definition add_to_trunk (page page_id : Z) (d : db) (events : list read_event) : Result (outcome free_state freed) :=
  let trunk_page_id := freelist_trunk_page d in
  trunk_page ← unwrap (db_pages d !! trunk_page_id);
  number_of_leaf_pages ← read_u32_no_offset (as_ptr trunk_page) FREELIST_TRUNK_OFFSET_LEAF_COUNT;
  max_free_list_entries ← checked_sub (usable_space / FREELIST_LEAF_PTR_SIZE) 2;
  if number_of_leaf_pages <? u32 max_free_list_entries then
    d ← with_page d trunk_page_id (write_u32_no_offset FREELIST_TRUNK_OFFSET_LEAF_COUNT (number_of_leaf_pages + 1));
    d ← with_page d trunk_page_id (write_u32_no_offset
          (FREELIST_TRUNK_OFFSET_FIRST_LEAF_PTR + number_of_leaf_pages * FREELIST_LEAF_PTR_SIZE) (u32 page_id));
    d ← with_page d page unpin;
    Ok (Finish (d, events))
  else Ok (Continue ((NewTrunk page), d, events)).

Definition new_trunk (page page_id : Z) (d : db) (events : list read_event) : Result (outcome free_state freed) :=
  _ ← turso_assert (page =? page_id);
  let trunk_page_id := freelist_trunk_page d in
  d ← with_page d page (write_u32_no_offset FREELIST_TRUNK_OFFSET_NEXT_TRUNK_PTR trunk_page_id);
  d ← with_page d page (write_u32_no_offset FREELIST_TRUNK_OFFSET_LEAF_COUNT 0);
  let d := mkDb (database_size d) (u32 page_id) (freelist_pages d) (db_pages d) in
  d ← with_page d page unpin;
  Ok (Finish (d, events)).

Definition free_step (given : bool) (page_id : Z) (st : free_state) : Result (outcome free_state freed) :=
  let '(s, d, events) := st in
  match s with
  | FreeStart => free_start given page_id d events
  | AddToTrunk page =>
      match events with
      | ReadReady :: events => add_to_trunk page page_id d events
      | (ReadWait | ReadSpill) :: events => Ok (Wait ((AddToTrunk page), d, events))
      | ReadError e :: _ => Err e
      | [] => Ok (Wait ((AddToTrunk page), d, []))
      end
  | NewTrunk page => new_trunk page page_id d events
  end.

Definition free_page (fuel : nat) (given : bool) (page_id : Z) : free_state -> Result (freed + free_state) :=
  call (free_step given page_id) fuel.
End free.

(** ** Allocating a page *)

Inductive AllocatePageState :=
  | AllocStart
  | SearchAvailableFreeListLeaf (trunk_page : Z)
  | ReuseFreelistLeaf (trunk_page leaf_page number_of_freelist_leaves : Z)
  | AllocateNewPage (current_db_size : Z).

Abbreviation alloc_state := (AllocatePageState * db * list read_event)%type.
Abbreviation allocated := (Z * db * list read_event)%type.

Section allocate.
Context (pending_byte_page_id : option Z) (max_page_count : Z) (new_page : Z -> PageInner).

(** A request for page [id]: the continuation gets the page. *)
Definition with_read (events : list read_event) (again : AllocatePageState) (d : db)
    (k : Result (AllocatePageState * db)) : Result (outcome alloc_state allocated) :=
  match events with
  | ReadReady :: events => '(s, d) ← k; Ok (Continue (s, d, events))
  | ReadWait :: events => '(s, d) ← k; Ok (Wait (s, d, events))
  | ReadError e :: _ => Err e
  | ReadSpill :: events => Ok (Wait (again, d, events))
  | [] => Ok (Wait (again, d, []))
  end.

(** For a mode of autovacuum other than full, in which no pointer-map page is
    added first. *)
Definition alloc_start (d : db) (events : list read_event) : Result (outcome alloc_state allocated) :=
  let trunk := freelist_trunk_page d in
  if trunk =? 0 then Ok (Continue ((AllocateNewPage (database_size d)), d, events))
  else with_read events AllocStart d
    (d ← with_page d trunk (fun p => Ok (pin p)); Ok (SearchAvailableFreeListLeaf trunk, d)).

Definition take_one_free (d : db) : Result Z := checked_sub (freelist_pages d) 1.

Definition alloc_search (trunk : Z) (d : db) (events : list read_event) : Result (outcome alloc_state allocated) :=
  trunk_page ← unwrap (db_pages d !! trunk);
  next_trunk_page_id ← read_u32_no_offset (as_ptr trunk_page) FREELIST_TRUNK_OFFSET_NEXT_TRUNK_PTR;
  number_of_freelist_leaves ← read_u32_no_offset (as_ptr trunk_page) FREELIST_TRUNK_OFFSET_LEAF_COUNT;
  if negb (number_of_freelist_leaves =? 0) then
    next_leaf_page_id ← read_u32_no_offset (as_ptr trunk_page) FREELIST_TRUNK_OFFSET_FIRST_LEAF_PTR;
    if (next_leaf_page_id <? 2) || (database_size d <? next_leaf_page_id) then Err Corrupt
    else with_read events (SearchAvailableFreeListLeaf trunk) d
      (_ ← turso_assert (0 <? number_of_freelist_leaves);
       d ← with_page d next_leaf_page_id (fun p => Ok (pin p));
       Ok (ReuseFreelistLeaf trunk next_leaf_page_id number_of_freelist_leaves, d))
  else
    free ← take_one_free d;
    let d := mkDb (database_size d) next_trunk_page_id free (db_pages d) in
    _ ← or_corrupt (bool_decide (overflow_cells trunk_page = []));
    d ← with_page d trunk (fun p => Ok (fill_zero p));
    d ← with_page d trunk unpin;
    Ok (Finish (trunk, d, events)).

Definition alloc_reuse (trunk leaf number_of_freelist_leaves : Z) (d : db) (events : list read_event) : Result (outcome alloc_state allocated) :=
  leaf_page ← unwrap (db_pages d !! leaf);
  _ ← or_corrupt (bool_decide (overflow_cells leaf_page = []));
  d ← with_page d leaf (fun p => Ok (fill_zero p));
  remaining_leaves_count ← checked_sub number_of_freelist_leaves 1;
  d ← with_page d trunk (fun p =>
        let start := FREELIST_TRUNK_OFFSET_FIRST_LEAF_PTR + FREELIST_LEAF_PTR_SIZE in
        buf ← copy_within (as_ptr p) start (start + remaining_leaves_count * FREELIST_LEAF_PTR_SIZE)
                FREELIST_TRUNK_OFFSET_FIRST_LEAF_PTR;
        Ok (set_buffer p buf));
  d ← with_page d trunk (write_u32_no_offset FREELIST_TRUNK_OFFSET_LEAF_COUNT (u32 remaining_leaves_count));
  free ← take_one_free d;
  let d := mkDb (database_size d) (freelist_trunk_page d) free (db_pages d) in
  d ← with_page d trunk unpin;
  d ← with_page d leaf unpin;
  Ok (Finish (leaf, d, events)).

Definition alloc_new (current_db_size : Z) (d : db) (events : list read_event) : Result (outcome alloc_state allocated) :=
  let new_db_size := current_db_size + 1 in
  let pending := bool_decide (Some new_db_size = pending_byte_page_id) in
  let d := if pending then set_page d new_db_size (new_page new_db_size) else d in
  let new_db_size := if pending then new_db_size + 1 else new_db_size in
  if max_page_count <? new_db_size then Err DatabaseFull
  else
    let d := set_page d new_db_size (new_page new_db_size) in
    Ok (Finish (new_db_size, mkDb new_db_size (freelist_trunk_page d) (freelist_pages d) (db_pages d), events)).

Definition alloc_step (st : alloc_state) : Result (outcome alloc_state allocated) :=
  let '(s, d, events) := st in
  match s with
  | AllocStart => alloc_start d events
  | SearchAvailableFreeListLeaf trunk => alloc_search trunk d events
  | ReuseFreelistLeaf trunk leaf n => alloc_reuse trunk leaf n d events
  | AllocateNewPage size => alloc_new size d events
  end.

Definition allocate_page (fuel : nat) : alloc_state -> Result (allocated + alloc_state) := call alloc_step fuel.
End allocate.

(** ** The freelist *)

Lemma read_u32_at buf pos : 0 <= pos -> pos + 4 <= lenZ buf -> read_u32_no_offset buf pos = Ok (be_combine (sub buf pos 4)).
Proof.
  intros H0 Hl. assert (exists b0 b1 b2 b3, sub buf pos 4 = [b0; b1; b2; b3]) as (b0 & b1 & b2 & b3 & Hs).
  { assert (length (sub buf pos 4) = 4%nat) as Hlen by (pose proof (lenZ_sub buf pos 4 H0 ltac:(lia) Hl); unfold lenZ in *; lia).
    destruct (sub buf pos 4) as [|b0 [|b1 [|b2 [|b3 [|]]]]]; try done. by exists b0, b1, b2, b3. }
  assert (forall i b, (i < 4)%nat -> sub buf pos 4 !! i = Some b -> idx buf (pos + Z.of_nat i) = Ok b) as Hi.
  { intros i b Hi4 Hb. unfold idx, getZ. destruct (Z.ltb_spec (pos + Z.of_nat i) 0); [lia|].
    unfold sub in Hb. rewrite lookup_take_lt, lookup_drop in Hb by lia.
    replace (Z.to_nat (pos + Z.of_nat i)) with (Z.to_nat pos + i)%nat by lia. by rewrite Hb. }
  rewrite Hs in Hi |- *. pose proof (Hi 0%nat b0 ltac:(lia) eq_refl) as E0. rewrite Z.add_0_r in E0.
  pose proof (Hi 1%nat b1 ltac:(lia) eq_refl) as E1. pose proof (Hi 2%nat b2 ltac:(lia) eq_refl) as E2.
  pose proof (Hi 3%nat b3 ltac:(lia) eq_refl) as E3. unfold read_u32_no_offset. rewrite E0. cbn [mbind Result_bind].
  change (pos + 1) with (pos + Z.of_nat 1). rewrite E1. cbn [mbind Result_bind].
  change (pos + 2) with (pos + Z.of_nat 2). rewrite E2. cbn [mbind Result_bind].
  change (pos + 3) with (pos + Z.of_nat 3). by rewrite E3.
Qed.

Section spec.
Context (usable : Z) (Husable : 480 <= usable <= 65536).

Definition max_leaves : Z := usable / 4 - 2.

(** A page that can be part of the freelist or be in use. *)
Definition page_ok (p : PageInner) : Prop := usable <= lenZ (as_ptr p) /\ 0 <= pin_count p < u64_max.

Record trunk_is (p : PageInner) (next : Z) (leaves : list Z) : Prop := mkTrunkIs {
  tk_next : sub (as_ptr p) 0 4 = be_split 4 next;
  tk_count : sub (as_ptr p) 4 4 = be_split 4 (lenZ leaves);
  tk_leaves : forall (i : nat) l, leaves !! i = Some l -> sub (as_ptr p) (8 + 4 * Z.of_nat i) 4 = be_split 4 l;
  tk_max : lenZ leaves <= max_leaves
}.

(** The trunk pages with their leaves. *)
Abbreviation trunks := (list (Z * list Z)).
Definition first_trunk (ts : trunks) : Z := default 0 (head (fst <$> ts)).

Fixpoint trunks_at (pages : gmap Z PageInner) (ts : trunks) : Prop :=
  match ts with
  | [] => True
  | (id, leaves) :: ts' =>
      (exists p, pages !! id = Some p /\ page_ok p /\ trunk_is p (first_trunk ts') leaves) /\ trunks_at pages ts'
  end.

Definition free_ids (ts : trunks) : list Z := concat ((fun x => fst x :: snd x) <$> ts).

Record free_list (d : db) (ts : trunks) : Prop := mkFreeList {
  fl_first : freelist_trunk_page d = first_trunk ts;
  fl_trunks : trunks_at (db_pages d) ts;
  fl_nodup : NoDup (free_ids ts);
  fl_range : Forall (fun id => 2 <= id <= database_size d) (free_ids ts);
  fl_count : freelist_pages d = lenZ (free_ids ts);
  fl_pages : forall id, 1 <= id <= database_size d -> exists p, db_pages d !! id = Some p /\ page_ok p;
  fl_clean : forall id p, id ∈ free_ids ts -> db_pages d !! id = Some p -> overflow_cells p = [];
  fl_size : 1 <= database_size d <= u32_max
}.

Lemma trunks_at_ext pages pages' ts :
  (forall id, id ∈ free_ids ts -> pages' !! id = pages !! id) -> trunks_at pages ts -> trunks_at pages' ts.
Proof.
  induction ts as [|[id leaves] ts IH]; [done|]. intros Hs [(p & Hp & Hrest) Hts]. split.
  - exists p. split; [|done]. rewrite Hs; [done|]. left.
  - apply IH; [|done]. intros q Hq. apply Hs. unfold free_ids. cbn. right. apply elem_of_app. by right.
Qed.

(** Different pages in a range. *)
Lemma range_count (l : list Z) a b : NoDup l -> Forall (fun x => a <= x <= b) l -> a <= b + 1 -> lenZ l <= b - a + 1.
Proof.
  intros Hn Hr Hab. assert (length l <= length (seq 0 (Z.to_nat (b - a + 1))))%nat as H; [|rewrite length_seq in H; unfold lenZ; lia].
  rewrite <- (length_fmap (fun x => Z.to_nat (x - a)) l). apply submseteq_length, NoDup_submseteq.
  - apply NoDup_fmap_2_strong; [|done]. intros x y Hx Hy Hxy. rewrite Forall_forall in Hr.
    pose proof (Hr x Hx). pose proof (Hr y Hy). lia.
  - intros n (x & -> & Hx)%list_elem_of_fmap. rewrite Forall_forall in Hr. pose proof (Hr x Hx). apply elem_of_seq. lia.
Qed.

(** ** Pages *)

Lemma with_page_ok d id p p' f : db_pages d !! id = Some p -> f p = Ok p' -> with_page d id f = Ok (set_page d id p').
Proof. intros Hp Hf. unfold with_page. rewrite Hp. cbn [unwrap mbind Result_bind]. by rewrite Hf. Qed.

Lemma write_u32_ok pos v p :
  0 <= pos -> pos + 4 <= lenZ (as_ptr p) -> write_u32_no_offset pos v p = Ok (set_buffer p (splice (as_ptr p) pos (be_split 4 v))).
Proof.
  intros H0 Hl. pose proof (be_split_lenZ 4 v). unfold write_u32_no_offset.
  assert (write_slice (as_ptr p) pos (be_split 4 v) = Ok (splice (as_ptr p) pos (be_split 4 v))) as -> by (apply write_slice_Ok; split_and!; [lia|lia|done]).
  done.
Qed.

Lemma write_u32_pinned pos v p :
  0 <= pos -> pos + 4 <= lenZ (as_ptr p) ->
  write_u32_no_offset pos v (pin p) = Ok (pin (set_buffer p (splice (as_ptr p) pos (be_split 4 v)))).
Proof. intros. exact (write_u32_ok pos v (pin p) ltac:(done) ltac:(done)). Qed.

Lemma pin_unpin p : page_ok p -> unpin (pin p) = Ok p.
Proof.
  intros [Hl Hp]. unfold unpin, try_unpin, pin. cbn [pin_count set_pins].
  assert (u64 (pin_count p + 1) = pin_count p + 1) as -> by (unfold u64, u64_max in *; apply Z.mod_small; lia).
  destruct (Z.eqb_spec (pin_count p + 1) 0); [lia|]. cbn [turso_assert mbind Result_bind].
  replace (pin_count p + 1 - 1) with (pin_count p) by lia. by destruct p.
Qed.

(** A leaf is added at the end of a trunk. *)
Definition push_leaf (p : PageInner) (n id : Z) : PageInner :=
  let p := set_buffer p (splice (as_ptr p) 4 (be_split 4 (n + 1))) in
  set_buffer p (splice (as_ptr p) (8 + n * 4) (be_split 4 id)).

Lemma push_leaf_len p n id : 0 <= n < max_leaves -> usable <= lenZ (as_ptr p) -> lenZ (as_ptr (push_leaf p n id)) = lenZ (as_ptr p).
Proof.
  intros Hn Hl. unfold max_leaves in Hn. pose proof (be_split_lenZ 4 (n + 1)). pose proof (be_split_lenZ 4 id).
  assert (4 * (usable / 4) <= usable) by (apply Z.mul_div_le; lia).
  unfold push_leaf. rewrite !as_ptr_set. rewrite !lenZ_splice; rewrite ?lenZ_splice; lia.
Qed.

Lemma push_leaf_ok p next leaves id :
  page_ok p -> trunk_is p next leaves -> lenZ leaves < max_leaves ->
  page_ok (push_leaf p (lenZ leaves) id) /\ trunk_is (push_leaf p (lenZ leaves) id) next (leaves ++ [id]).
Proof.
  intros [Hl Hp] [Hnext Hcount Hleaves Hmax] Hlt. pose proof (lenZ_nonneg leaves).
  pose proof (push_leaf_len p (lenZ leaves) id ltac:(lia) Hl) as Hlen. unfold max_leaves in *.
  assert (4 * (usable / 4) <= usable) by (apply Z.mul_div_le; lia).
  pose proof (be_split_lenZ 4 (lenZ leaves + 1)) as Hb1. pose proof (be_split_lenZ 4 id) as Hb2.
  assert (lenZ (splice (as_ptr p) 4 (be_split 4 (lenZ leaves + 1))) = lenZ (as_ptr p)) as Hl1 by (rewrite lenZ_splice; lia).
  split; [split; [lia|done]|]. constructor; unfold push_leaf; rewrite ?as_ptr_set.
  - rewrite !sub_splice_ne by lia. done.
  - rewrite sub_splice_ne, sub_splice_eq by lia. rewrite lenZ_app. done.
  - intros i l Hi. destruct (decide (i < length leaves)%nat) as [Hlti|Hge].
    + rewrite lookup_app_l in Hi by done. rewrite !sub_splice_ne by (unfold lenZ in *; lia). by apply Hleaves.
    + rewrite lookup_app_r in Hi by lia. destruct (i - length leaves)%nat eqn:E; [|done]. injection Hi as <-.
      replace (8 + 4 * Z.of_nat i) with (8 + lenZ leaves * 4) by (unfold lenZ; lia). by rewrite sub_splice_eq by lia.
  - rewrite lenZ_app. unfold max_leaves. cbn. unfold lenZ in *. cbn. lia.
Qed.

(** A page becomes a trunk without leaves. *)
Definition make_trunk (p : PageInner) (next : Z) : PageInner :=
  let p := set_buffer p (splice (as_ptr p) 0 (be_split 4 next)) in
  set_buffer p (splice (as_ptr p) 4 (be_split 4 0)).

Lemma make_trunk_ok p next : page_ok p -> page_ok (make_trunk p next) /\ trunk_is (make_trunk p next) next [].
Proof.
  intros [Hl Hp]. pose proof (be_split_lenZ 4 next). pose proof (be_split_lenZ 4 0).
  assert (lenZ (splice (as_ptr p) 0 (be_split 4 next)) = lenZ (as_ptr p)) as Hl1 by (rewrite lenZ_splice; lia).
  split; [split; [unfold make_trunk; rewrite !as_ptr_set, lenZ_splice; lia|done]|].
  constructor; unfold make_trunk; rewrite ?as_ptr_set; [|by rewrite sub_splice_eq by lia|done|unfold max_leaves, lenZ; cbn; divlia].
  rewrite sub_splice_ne, sub_splice_eq by lia. done.
Qed.

(** The first leaf of a trunk is removed. *)
Lemma copy_within_splice (buf : bytes) a b dst :
  0 <= a <= b -> b <= lenZ buf -> 0 <= dst -> dst + (b - a) <= lenZ buf -> copy_within buf a b dst = Ok (splice buf dst (sub buf a (b - a))).
Proof.
  intros. unfold copy_within. rewrite slice_sub by lia. cbn [mbind Result_bind].
  apply write_slice_Ok. rewrite lenZ_sub by lia. split_and!; [lia|lia|done].
Qed.

Definition pop_leaf (p : PageInner) (n : Z) : PageInner :=
  let p := set_buffer p (splice (as_ptr p) 8 (sub (as_ptr p) 12 ((n - 1) * 4))) in
  set_buffer p (splice (as_ptr p) 4 (be_split 4 (n - 1))).

Lemma pop_leaf_ok p next leaf leaves :
  page_ok p -> trunk_is p next (leaf :: leaves) ->
  page_ok (pop_leaf p (lenZ (leaf :: leaves))) /\ trunk_is (pop_leaf p (lenZ (leaf :: leaves))) next leaves.
Proof.
  intros [Hl Hp] [Hnext Hcount Hleaves Hmax]. pose proof (lenZ_nonneg leaves). rewrite lenZ_cons in *. unfold max_leaves in *.
  replace (lenZ leaves + 1 - 1) with (lenZ leaves) in * by lia. assert (4 * (usable / 4) <= usable) by (apply Z.mul_div_le; lia).
  pose proof (be_split_lenZ 4 (lenZ leaves)). set (n := lenZ leaves) in *.
  assert (lenZ (sub (as_ptr p) 12 (n * 4)) = n * 4) as Hs by (apply lenZ_sub; lia).
  assert (lenZ (splice (as_ptr p) 8 (sub (as_ptr p) 12 (n * 4))) = lenZ (as_ptr p)) as Hl1 by (rewrite lenZ_splice; lia).
  split; [split; [unfold pop_leaf; rewrite !as_ptr_set, lenZ_splice; rewrite ?as_ptr_set; replace (n + 1 - 1) with n by lia; lia|done]|].
  constructor; unfold pop_leaf; rewrite ?as_ptr_set; replace (n + 1 - 1) with n by lia.
  - rewrite !sub_splice_ne by lia. done.
  - by rewrite sub_splice_eq by lia.
  - intros i l Hi. pose proof (lookup_lt_Some _ _ _ Hi). assert (Z.of_nat i < n) by (unfold n, lenZ; lia).
    rewrite sub_splice_ne by lia. rewrite sub_splice_in by lia. rewrite sub_sub by lia.
    rewrite <- (Hleaves (S i) l Hi). f_equal; lia.
  - unfold max_leaves. lia.
Qed.

(** ** Freeing a page *)

Section free_one.
Context (d : db) (ts : trunks) (HF : free_list d ts) (id : Z) (p : PageInner).
Context (Hid : 2 <= id <= database_size d) (Hnew : id ∉ free_ids ts) (Hp : db_pages d !! id = Some p) (Hpok : page_ok p).

(** The page without overflow cells, and the state while it is pinned. *)
Definition clean : PageInner := set_overflow_cells p [].
Definition begun : db := mkDb (database_size d) (freelist_trunk_page d) (freelist_pages d + 1) (<[id := pin clean]> (db_pages d)).

Lemma few_free : freelist_pages d < u32_max.
Proof.
  pose proof HF as []. assert (lenZ (id :: free_ids ts) <= database_size d - 2 + 1) as H.
  { apply range_count; [by constructor|by constructor|lia]. }
  rewrite lenZ_cons in H. unfold u32_max in *. lia.
Qed.

Lemma free_begin_at :
  freelist_pages d < u32_max -> free_begin id d = Ok (if freelist_trunk_page d =? 0 then NewTrunk id else AddToTrunk id, begun).
Proof.
  intros Hfew. unfold free_begin. rewrite (with_page_ok _ _ _ clean _ Hp eq_refl). cbn [mbind Result_bind].
  cbn [set_page freelist_pages]. pass. cbn [set_page freelist_trunk_page database_size db_pages].
  rewrite (with_page_ok _ id clean (pin clean)); [|apply lookup_insert_eq|done]. cbn [mbind Result_bind].
  unfold begun, set_page. cbn [freelist_trunk_page database_size db_pages freelist_pages]. by rewrite insert_insert_eq.
Qed.

Lemma free_begin_ok :
  free_begin id d = Ok (if freelist_trunk_page d =? 0 then NewTrunk id else AddToTrunk id, begun).
Proof. apply free_begin_at, few_free. Qed.

(** The state when the page is free. *)
Definition freed_as (pages : gmap Z PageInner) (first : Z) : db := mkDb (database_size d) first (freelist_pages d + 1) pages.

Lemma freed_list pages ts' :
  trunks_at pages ts' -> free_ids ts' ≡ₚ id :: free_ids ts ->
  (forall q, q <> id -> q ∉ free_ids ts -> pages !! q = db_pages d !! q) ->
  (forall q r, q ∈ id :: free_ids ts -> pages !! q = Some r -> overflow_cells r = []) ->
  (forall q, q ∈ id :: free_ids ts -> exists r, pages !! q = Some r /\ page_ok r) ->
  free_list (freed_as pages (first_trunk ts')) ts'.
Proof.
  intros Hts Hperm Hsame Hclean Hok. pose proof HF as []. constructor; cbn [freed_as freelist_trunk_page database_size db_pages freelist_pages]; try done.
  - rewrite Hperm. by constructor.
  - rewrite Hperm. by constructor.
  - unfold lenZ in *. rewrite Hperm. cbn. lia.
  - intros q Hq. destruct (decide (q ∈ id :: free_ids ts)) as [Hin|Hout]; [by apply Hok|].
    apply not_elem_of_cons in Hout as [Hne Hout]. rewrite Hsame by done. by apply fl_pages0.
  - intros q r Hq. apply Hclean. by rewrite <- Hperm.
Qed.

Lemma old_free_page q : q ∈ free_ids ts -> exists r, db_pages d !! q = Some r /\ page_ok r /\ overflow_cells r = [].
Proof.
  intros Hq. pose proof HF as []. rewrite Forall_forall in fl_range0. pose proof (fl_range0 q Hq).
  destruct (fl_pages0 q ltac:(lia)) as (r & Hr & Hok). exists r. split_and!; [done|done|by eapply fl_clean0].
Qed.

Lemma clean_ok : page_ok clean.
Proof. done. Qed.

(** No page is left pinned. *)
Definition pins_kept (d' : db) : Prop :=
  forall q r, db_pages d !! q = Some r -> exists r', db_pages d' !! q = Some r' /\ pin_count r' = pin_count r.

(** The page becomes the first trunk. *)
Lemma new_trunk_ok ev : exists d',
  new_trunk id id begun ev = Ok (Finish (d', ev)) /\ free_list d' ((id, []) :: ts) /\ database_size d' = database_size d /\
  (forall q, q <> id -> db_pages d' !! q = db_pages d !! q) /\ pins_kept d'.
Proof.
  pose proof HF as []. destruct clean_ok as [Hcl Hcp]. pose proof (be_split_lenZ 4 (freelist_trunk_page d)).
  unfold new_trunk. rewrite Z.eqb_refl. cbn [turso_assert mbind Result_bind]. cbn [begun freelist_trunk_page].
  set (c1 := set_buffer clean (splice (as_ptr clean) 0 (be_split 4 (freelist_trunk_page d)))).
  assert (lenZ (as_ptr c1) = lenZ (as_ptr clean)) as Hl1 by (unfold c1; rewrite as_ptr_set, lenZ_splice; lia).
  rewrite (with_page_ok _ id (pin clean) (pin c1));
    [|apply lookup_insert_eq|apply write_u32_pinned; unfold FREELIST_TRUNK_OFFSET_NEXT_TRUNK_PTR; lia]. cbn [mbind Result_bind].
  rewrite (with_page_ok _ id (pin c1) (pin (make_trunk clean (freelist_trunk_page d))));
    [|apply lookup_insert_eq|apply (write_u32_pinned 4 0 c1); lia].
  destruct (make_trunk_ok clean (freelist_trunk_page d) clean_ok) as [Hmok Hmt]. pose proof (pin_unpin _ Hmok) as Hun.
  cbn [mbind Result_bind set_page begun freelist_trunk_page database_size db_pages freelist_pages].
  rewrite (with_page_ok _ id (pin (make_trunk clean (freelist_trunk_page d))) (make_trunk clean (freelist_trunk_page d)));
    [|apply lookup_insert_eq|done]. cbn [mbind Result_bind set_page freelist_trunk_page database_size db_pages freelist_pages].
  unfold set_page. cbn [freelist_trunk_page database_size db_pages freelist_pages].
  match goal with |- context [mkDb _ _ _ ?m] => set (pages' := m) end.
  assert (forall q, q <> id -> pages' !! q = db_pages d !! q) as Hsame by (intros q Hq; unfold pages'; by rewrite !lookup_insert_ne).
  assert (pages' !! id = Some (make_trunk clean (freelist_trunk_page d))) as Hnewp by apply lookup_insert_eq.
  eexists. split; [done|]. split_and!; [|done|done|].
  2: { intros q r Hr. destruct (decide (q = id)) as [->|Hq]; [|exists r; by rewrite <- Hr, <- Hsame]. eexists. split; [exact Hnewp|].
       rewrite Hp in Hr. by injection Hr as <-. }
  replace (u32 id) with (first_trunk ((id, []) :: ts)) by (cbn; unfold u32, u32_max in *; symmetry; apply Z.mod_small; lia).
  apply freed_list.
  - cbn [trunks_at]. split; [eexists; split_and!; [exact Hnewp|done|]|].
    + rewrite fl_first0 in *. done.
    + eapply trunks_at_ext; [|exact fl_trunks0]. intros q Hq. apply Hsame. intros ->. done.
  - done.
  - intros q Hq _. by apply Hsame.
  - intros q r [->|Hq]%elem_of_cons; [rewrite Hnewp; by intros [= <-]|]. rewrite Hsame by (intros ->; done).
    destruct (old_free_page q Hq) as (r' & Hr' & _ & Hov). congruence.
  - intros q [->|Hq]%elem_of_cons; [by eexists|]. destruct (old_free_page q Hq) as (r' & Hr' & Hok & _).
    exists r'. rewrite Hsame by (intros ->; done). done.
Qed.

Lemma max_leaves_u32 : u32 (usable / 4 - 2) = max_leaves /\ 2 <= usable / 4.
Proof. unfold max_leaves, u32. split; [apply Z.mod_small|]; divlia. Qed.

(** The number of leaves of a trunk, as it is read. *)
Lemma read_count t next leaves : page_ok t -> trunk_is t next leaves -> read_u32_no_offset (as_ptr t) 4 = Ok (lenZ leaves).
Proof.
  intros [Hl _] [_ Hc _ Hm]. rewrite read_u32_at, Hc by lia. rewrite be32_roundtrip; [done|].
  pose proof (lenZ_nonneg leaves). unfold is_u32, max_leaves in *. divlia.
Qed.

(** The pages after the page was added to the first trunk. *)
Lemma add_pages tid leaves ts' t ev :
  ts = (tid, leaves) :: ts' -> db_pages d !! tid = Some t -> tid <> id -> page_ok t -> trunk_is t (first_trunk ts') leaves ->
  if lenZ leaves <? max_leaves then exists pages',
    add_to_trunk usable id id begun ev = Ok (Finish (freed_as pages' tid, ev)) /\
    pages' !! id = Some clean /\ pages' !! tid = Some (push_leaf t (lenZ leaves) id) /\
    (forall q, q <> id -> q <> tid -> pages' !! q = db_pages d !! q)
  else add_to_trunk usable id id begun ev = Ok (Continue (NewTrunk id, begun, ev)).
Proof.
  intros Ets Ht Hne Htok Htr. pose proof HF as []. destruct max_leaves_u32 as [Hmx H2]. rewrite Ets in fl_first0. cbn in fl_first0.
  unfold add_to_trunk. cbn [begun freelist_trunk_page db_pages]. rewrite fl_first0, lookup_insert_ne, Ht by done. cbn [unwrap mbind Result_bind].
  unfold FREELIST_TRUNK_OFFSET_LEAF_COUNT, FREELIST_LEAF_PTR_SIZE, FREELIST_TRUNK_OFFSET_FIRST_LEAF_PTR. rewrite (read_count _ _ _ Htok Htr). cbn [mbind Result_bind].
  unfold checked_sub. destruct (Z.leb_spec 2 (usable / 4)); [|lia]. cbn [mbind Result_bind]. rewrite Hmx.
  destruct (Z.ltb_spec (lenZ leaves) max_leaves) as [Hlt|Hge]; [|done].
  pose proof (lenZ_nonneg leaves). destruct Htok as [Htl Htp].
  pose proof (be_split_lenZ 4 (lenZ leaves + 1)). assert (4 * (usable / 4) <= usable) by (apply Z.mul_div_le; lia).
  set (t1 := set_buffer t (splice (as_ptr t) 4 (be_split 4 (lenZ leaves + 1)))).
  assert (lenZ (as_ptr t1) = lenZ (as_ptr t)) as Hl1 by (unfold t1; rewrite as_ptr_set, lenZ_splice; lia).
  rewrite (with_page_ok _ tid t t1); [|cbn [begun db_pages]; by rewrite lookup_insert_ne|apply write_u32_ok; lia].
  cbn [mbind Result_bind]. assert (u32 id = id) as -> by (unfold u32, u32_max in *; apply Z.mod_small; lia).
  rewrite (with_page_ok _ tid t1 (push_leaf t (lenZ leaves) id)); [|apply lookup_insert_eq|].
  2: { apply (write_u32_ok (8 + lenZ leaves * 4) id t1); [lia|]. unfold max_leaves in Hlt. lia. }
  cbn [mbind Result_bind]. unfold set_page. cbn [begun freelist_trunk_page database_size db_pages freelist_pages].
  rewrite (with_page_ok _ id (pin clean) clean); [|cbn [db_pages]; by rewrite lookup_insert_ne, lookup_insert_ne, lookup_insert_eq by done|by apply pin_unpin].
  cbn [mbind Result_bind]. unfold set_page. cbn [freelist_trunk_page database_size db_pages freelist_pages].
  rewrite fl_first0. eexists. split; [reflexivity|]. split_and!.
  - apply lookup_insert_eq.
  - by rewrite lookup_insert_ne, lookup_insert_eq by done.
  - intros q Hq Hqt. by rewrite !lookup_insert_ne.
Qed.

(** The page is added to the first trunk, or the trunk is full. *)
Lemma add_to_trunk_ok tid leaves ts' ev :
  ts = (tid, leaves) :: ts' ->
  if lenZ leaves <? max_leaves then exists d',
    add_to_trunk usable id id begun ev = Ok (Finish (d', ev)) /\ free_list d' ((tid, leaves ++ [id]) :: ts') /\
    database_size d' = database_size d /\ (forall q, q <> id -> q ∉ free_ids ts -> db_pages d' !! q = db_pages d !! q) /\ pins_kept d'
  else add_to_trunk usable id id begun ev = Ok (Continue (NewTrunk id, begun, ev)).
Proof.
  intros Ets. pose proof HF as []. destruct max_leaves_u32 as [Hmx H2]. rewrite Ets in fl_first0, fl_trunks0. cbn in fl_first0.
  destruct fl_trunks0 as [(t & Ht & Htok & Htr) Hts']. assert (tid <> id) as Hne by (intros ->; apply Hnew; rewrite Ets; left).
  pose proof (add_pages tid leaves ts' t ev Ets Ht Hne Htok Htr) as HA.
  destruct (Z.ltb_spec (lenZ leaves) max_leaves) as [Hlt|Hge]; [|done]. destruct HA as (pages' & -> & Hpi & Hpt & Hsame).
  destruct (push_leaf_ok t _ _ id Htok Htr Hlt) as [Hpok' Hptr].
  eexists. split; [done|]. split_and!; [|done| |].
  3: { intros q r Hr. destruct (decide (q = id)) as [->|Hqi]; [exists clean; rewrite Hp in Hr; by injection Hr as <-|].
       destruct (decide (q = tid)) as [->|Hqt]; [|exists r; split; [|done]; by rewrite <- Hr; apply Hsame].
       eexists. split; [exact Hpt|]. rewrite Ht in Hr. by injection Hr as <-. }
  2: { intros q Hq Hqf. apply Hsame; [done|]. intros ->. apply Hqf. rewrite Ets. left. }
  apply (freed_list pages' ((tid, leaves ++ [id]) :: ts')).
  - split; [eexists; split_and!; [exact Hpt|done|done]|]. eapply trunks_at_ext; [|exact Hts']. intros q Hq.
    rewrite Ets in fl_nodup0, Hnew. cbn in fl_nodup0, Hnew. apply NoDup_cons in fl_nodup0 as [Hnt Hnd].
    apply Hsame; [intros ->; apply Hnew; right; by apply elem_of_app; right|intros ->; apply Hnt; by apply elem_of_app; right].
  - rewrite Ets. cbn. rewrite <- app_assoc. cbn. rewrite <- Permutation_middle. apply perm_swap.
  - intros q Hq Hqf. apply Hsame; [done|]. intros ->. apply Hqf. rewrite Ets. left.
  - intros q r Hq Hr. destruct (decide (q = id)) as [->|Hqi]; [rewrite Hpi in Hr; by injection Hr as <-|].
    apply elem_of_cons in Hq as [?|Hq]; [done|]. destruct (old_free_page q Hq) as (r' & Hr' & _ & Hov).
    destruct (decide (q = tid)) as [->|Hqt]; [|rewrite Hsame in Hr by done; congruence].
    rewrite Hpt in Hr. injection Hr as <-. rewrite Ht in Hr'. by injection Hr' as <-.
  - intros q Hq. destruct (decide (q = id)) as [->|Hqi]; [by exists clean|].
    apply elem_of_cons in Hq as [?|Hq]; [done|]. destruct (old_free_page q Hq) as (r' & Hr' & Hok & _).
    destruct (decide (q = tid)) as [->|Hqt]; [by eexists|]. exists r'. by rewrite Hsame.
Qed.

(** The freelist with the page: in the first trunk if it has space. *)
Definition add_free : trunks :=
  match ts with
  | (tid, leaves) :: ts' => if lenZ leaves <? max_leaves then (tid, leaves ++ [id]) :: ts' else (id, []) :: ts
  | [] => [(id, [])]
  end.

Lemma add_free_ids : free_ids add_free ≡ₚ id :: free_ids ts.
Proof.
  unfold add_free. clear HF Hnew. destruct ts as [|[tid leaves] ts']; [done|]. destruct (lenZ leaves <? max_leaves); [|done].
  cbn. rewrite <- app_assoc. cbn. rewrite <- Permutation_middle. apply perm_swap.
Qed.

Lemma add_free_cons tid leaves ts' :
  ts = (tid, leaves) :: ts' -> add_free = if lenZ leaves <? max_leaves then (tid, leaves ++ [id]) :: ts' else (id, []) :: ts.
Proof. unfold add_free. clear HF Hnew. by intros ->. Qed.

Lemma add_free_nil : (freelist_trunk_page d =? 0) = true -> add_free = (id, []) :: ts.
Proof.
  intros H0. pose proof HF as []. unfold add_free. clear HF Hnew. destruct ts as [|[tid leaves] ts']; [done|].
  apply Forall_cons_1 in fl_range0 as [Hr _]. cbn in fl_first0. apply Z.eqb_eq in H0. cbn in Hr. lia.
Qed.

(** The page is in the freelist afterwards, and the pages in use are as before. *)
Definition page_freed (d' : db) : Prop :=
  database_size d' = database_size d /\ free_list d' add_free /\
  (forall q, q <> id -> q ∉ free_ids ts -> db_pages d' !! q = db_pages d !! q) /\ pins_kept d'.

Definition readies (events : list read_event) : nat :=
  length (List.filter (fun e => match e with ReadReady => true | _ => false end) events).

Lemma new_run given n ev : add_free = (id, []) :: ts -> exists d', run (free_step usable given id) (S n) (NewTrunk id, begun, ev) = Ok (d', ev) /\ page_freed d'.
Proof.
  intros Ea. destruct (new_trunk_ok ev) as (d' & Hd & HF' & Hsz & Hsame & Hpins). exists d'. rewrite run_S. cbn [free_step]. rewrite Hd. split; [done|].
  split_and!; [done|by rewrite Ea| |done]. intros q Hq _. by apply Hsame.
Qed.

Lemma add_run given tid leaves ts' ev :
  ts = (tid, leaves) :: ts' -> Forall no_read_error ev -> (1 <= readies ev)%nat -> exists d' ev',
    run (free_step usable given id) (length ev + 1) (AddToTrunk id, begun, ev) = Ok (d', ev') /\ page_freed d'.
Proof.
  intros Ets. induction ev as [|e ev IH]; intros Herr Hr; [cbn in Hr; lia|]. apply Forall_cons_1 in Herr as [He Herr].
  replace (length (e :: ev) + 1)%nat with (S (S (length ev))) by (cbn; lia). rewrite run_S. cbn [free_step].
  unfold readies in *. cbn [List.filter] in Hr.
  destruct e; try done; [cbn [mbind Result_bind]; rewrite Nat.add_1_r in IH; by apply IH| |cbn [mbind Result_bind]; rewrite Nat.add_1_r in IH; by apply IH].
  pose proof (add_to_trunk_ok tid leaves ts' ev Ets) as HA. pose proof (add_free_cons tid leaves ts' Ets) as Ea. destruct (lenZ leaves <? max_leaves).
  - destruct HA as (d' & Hd & HF' & Hsz & Hsame & Hpins). rewrite Hd. cbn [mbind Result_bind]. exists d', ev. split; [done|].
    split_and!; [done|by rewrite Ea|done|done].
  - rewrite HA. cbn [mbind Result_bind]. destruct (new_run given (length ev) ev Ea) as (d' & Hd & HP). by exists d', ev.
Qed.

Lemma trunk_cases :
  (freelist_trunk_page d =? 0) = true \/ (freelist_trunk_page d =? 0) = false /\ exists tid leaves ts', ts = (tid, leaves) :: ts'.
Proof.
  destruct HF. clear HF Hnew. destruct ts as [|[tid leaves] ts']; [left; rewrite fl_first0; done|right].
  apply Forall_cons_1 in fl_range0 as [Hr _]. cbn in fl_first0. split; [apply Z.eqb_neq; cbn in *; lia|by eexists _, _, _].
Qed.

(** After the changes at the start. *)
Lemma begun_run given ev :
  Forall no_read_error ev -> (1 <= readies ev)%nat -> exists d' ev',
    run (free_step usable given id) (length ev + 1) (if freelist_trunk_page d =? 0 then NewTrunk id else AddToTrunk id, begun, ev) = Ok (d', ev') /\
    page_freed d'.
Proof.
  intros Herr Hr. destruct trunk_cases as [H0|[-> (tid & leaves & ts' & Ets)]].
  - rewrite H0, Nat.add_1_r. destruct (new_run given (length ev) ev (add_free_nil H0)) as (d' & Hd & HP). by exists d', ev.
  - by apply (add_run given tid leaves ts').
Qed.

Lemma free_run_ok given ev :
  Forall no_read_error ev -> (2 <= readies ev)%nat -> exists d' ev',
    run (free_step usable given id) (length ev + 2) (FreeStart, d, ev) = Ok (d', ev') /\ page_freed d'.
Proof.
  intros Herr Hr. assert ((id <? 2) || (database_size d <? id) = false) as Hrange by lia.
  destruct given.
  - replace (length ev + 2)%nat with (S (length ev + 1)) by lia. rewrite run_S. cbn [free_step]. unfold free_start. rewrite Hrange, free_begin_ok.
    cbn [mbind Result_bind]. apply begun_run; [done|lia].
  - induction ev as [|e ev IH]; [cbn in Hr; lia|]. apply Forall_cons_1 in Herr as [He Herr].
    replace (length (e :: ev) + 2)%nat with (S (length ev + 2)) by (cbn; lia). rewrite run_S. cbn [free_step]. unfold free_start. rewrite Hrange.
    unfold readies in *. cbn [List.filter] in Hr. destruct e; try done; cbn [length] in Hr.
    + cbn [mbind Result_bind]. by apply IH.
    + rewrite free_begin_ok. cbn [mbind Result_bind]. destruct (begun_run false ev Herr) as (d' & ev' & Hd & HP); [unfold readies; lia|].
      exists d', ev'. split; [|done]. apply (run_mono _ _ _ _ _ Hd). lia.
    + rewrite free_begin_ok. cbn [mbind Result_bind]. destruct (begun_run false ev Herr) as (d' & ev' & Hd & HP); [unfold readies; lia|].
      exists d', ev'. split; [|done]. apply (run_mono _ _ _ _ _ Hd). lia.
Qed.
End free_one.

(** ** Allocating a page *)

Section alloc_one.
Context (pending : option Z) (max_pages : Z) (new_page : Z -> PageInner) (Hnewp : forall id, page_ok (new_page id)).
Context (d : db) (ts : trunks) (HF : free_list d ts).
#[local] Abbreviation step := (alloc_step pending max_pages new_page).

(** A page from the freelist, cleared. *)
Definition page_reused (id : Z) (d' : db) : Prop :=
  database_size d' = database_size d /\
  (exists ts', free_list d' ts' /\ id :: free_ids ts' ≡ₚ free_ids ts) /\
  (exists p, db_pages d' !! id = Some p /\ as_ptr p = replicate (length (as_ptr p)) 0 /\ overflow_cells p = []) /\
  forall q, q ∉ free_ids ts -> db_pages d' !! q = db_pages d !! q.

Lemma zeroed p : page_ok p -> page_ok (fill_zero p).
Proof. intros [Hl Hp]. split; [|done]. unfold fill_zero. rewrite as_ptr_set. unfold lenZ in *. by rewrite length_replicate. Qed.

Lemma next_u32 ts' : incl (fst <$> ts') (free_ids ts) -> is_u32 (first_trunk ts').
Proof.
  intros Hi. destruct HF. unfold first_trunk. destruct ts' as [|[tid leaves] ts']; cbn; [unfold is_u32; lia|].
  rewrite Forall_forall in fl_range0. specialize (fl_range0 tid). unfold is_u32, u32_max in *.
  assert (2 <= tid <= database_size d); [|lia]. apply fl_range0. apply list_elem_of_In, Hi. left. done.
Qed.

Lemma trunk_ids_free ts' : incl (fst <$> ts') (free_ids ts').
Proof.
  induction ts' as [|[tid leaves] ts' IH]; [intros x []|]. intros x [<-|Hx]; [by left|]. right. apply in_or_app. right. by apply IH.
Qed.

(** The state when page [id] is taken. *)
Definition taken (pages : gmap Z PageInner) (first : Z) : db := mkDb (database_size d) first (freelist_pages d - 1) pages.

Lemma taken_list id pages ts' :
  trunks_at pages ts' -> id :: free_ids ts' ≡ₚ free_ids ts ->
  (forall q, q ∉ free_ids ts -> pages !! q = db_pages d !! q) ->
  (forall q, q ∈ free_ids ts -> exists r, pages !! q = Some r /\ page_ok r /\ overflow_cells r = []) ->
  free_list (taken pages (first_trunk ts')) ts'.
Proof.
  intros Hts Hperm Hsame Hok. destruct HF. constructor; cbn [taken freelist_trunk_page database_size db_pages freelist_pages]; try done.
  - rewrite <- Hperm in fl_nodup0. by apply NoDup_cons in fl_nodup0 as [_ ?].
  - rewrite <- Hperm in fl_range0. by apply Forall_cons_1 in fl_range0 as [_ ?].
  - rewrite fl_count0. unfold lenZ. rewrite <- Hperm. cbn. lia.
  - intros q Hq. destruct (decide (q ∈ free_ids ts)) as [Hin|Hout]; [destruct (Hok q Hin) as (r & ? & ? & _); by exists r|].
    rewrite Hsame by done. by apply fl_pages0.
  - intros q r Hq Hr. destruct (Hok q) as (r' & Hr' & _ & ?); [rewrite <- Hperm; by right|]. congruence.
Qed.

Lemma free_page_is q : q ∈ free_ids ts -> exists r, db_pages d !! q = Some r /\ page_ok r /\ overflow_cells r = [].
Proof.
  intros Hq. destruct HF. rewrite Forall_forall in fl_range0. pose proof (fl_range0 q Hq).
  destruct (fl_pages0 q ltac:(lia)) as (r & Hr & Hok). exists r. split_and!; [done|done|by eapply fl_clean0].
Qed.

(** The trunk itself is taken when it has no leaves. *)
Lemma search_last tid ts' t ev :
  ts = (tid, []) :: ts' -> db_pages d !! tid = Some t -> page_ok t -> trunk_is t (first_trunk ts') [] ->
  exists d', alloc_search tid (mkDb (database_size d) (freelist_trunk_page d) (freelist_pages d) (<[tid := pin t]> (db_pages d))) ev =
    Ok (Finish (tid, d', ev)) /\ page_reused tid d'.
Proof.
  intros Ets Ht Htok Htr. pose proof HF as HF'. destruct HF'. unfold alloc_search. cbn [db_pages]. rewrite lookup_insert_eq. cbn [unwrap mbind Result_bind].
  destruct Htok as [Htl Htp]. change (as_ptr (pin t)) with (as_ptr t). unfold FREELIST_TRUNK_OFFSET_NEXT_TRUNK_PTR, FREELIST_TRUNK_OFFSET_LEAF_COUNT.
  rewrite (read_u32_at (as_ptr t) 0 ltac:(lia) ltac:(lia)), (tk_next _ _ _ Htr). cbn [mbind Result_bind]. rewrite (read_count t _ _ (conj Htl Htp) Htr). cbn [mbind Result_bind].
  rewrite be32_roundtrip.
  2: { apply next_u32. rewrite Ets. cbn. intros x Hx. right. by apply trunk_ids_free. }
  change (lenZ []) with 0. cbn [Z.eqb negb]. unfold take_one_free, checked_sub. cbn [freelist_pages].
  assert (1 <= freelist_pages d) as H1 by (rewrite fl_count0, Ets; cbn; rewrite lenZ_cons; unfold lenZ; lia).
  destruct (Z.leb_spec 1 (freelist_pages d)); [|lia]. cbn [mbind Result_bind].
  destruct (free_page_is tid) as (t' & Ht' & _ & Hov); [rewrite Ets; left|]. rewrite Ht in Ht'. injection Ht' as <-.
  change (overflow_cells (pin t)) with (overflow_cells t). rewrite bool_decide_eq_true_2 by done. cbn [or_corrupt mbind Result_bind database_size db_pages].
  rewrite (with_page_ok _ tid (pin t) (pin (fill_zero t))); [|apply lookup_insert_eq|done]. cbn [mbind Result_bind].
  rewrite (with_page_ok _ tid (pin (fill_zero t)) (fill_zero t)); [|apply lookup_insert_eq|by apply pin_unpin, zeroed]. cbn [mbind Result_bind].
  unfold set_page. cbn [freelist_trunk_page database_size db_pages freelist_pages]. match goal with |- context [mkDb _ _ _ ?m] => set (pages' := m) end.
  assert (forall q, q <> tid -> pages' !! q = db_pages d !! q) as Hsame by (intros q Hq; unfold pages'; by rewrite !lookup_insert_ne).
  assert (pages' !! tid = Some (fill_zero t)) as Hz by apply lookup_insert_eq.
  eexists. split; [done|]. split_and!; [done| |exists (fill_zero t); split_and!; [done|unfold fill_zero; rewrite as_ptr_set; by rewrite length_replicate|done]|].
  2: { intros q Hq. apply Hsame. intros ->. apply Hq. rewrite Ets. left. }
  exists ts'. assert (tid :: free_ids ts' ≡ₚ free_ids ts) as Hperm by (by rewrite Ets). split; [|done].
  apply (taken_list tid pages' ts'); [|done| |].
  - rewrite Ets in fl_trunks0, fl_nodup0. destruct fl_trunks0 as [_ Hts]. cbn in fl_nodup0. apply NoDup_cons in fl_nodup0 as [Hni _].
    eapply trunks_at_ext; [|exact Hts]. intros q Hq. apply Hsame. intros ->. done.
  - intros q Hq. apply Hsame. intros ->. apply Hq. rewrite Ets. left.
  - intros q Hq. destruct (decide (q = tid)) as [->|Hne]; [exists (fill_zero t); split_and!; [done|by apply zeroed|done]|].
    rewrite Hsame by done. by apply free_page_is.
Qed.

Definition pinned (pages : gmap Z PageInner) : db := mkDb (database_size d) (freelist_trunk_page d) (freelist_pages d) pages.

(** The pages after the first leaf was taken. *)
Lemma reuse_pages tid leaf leaves next t l ev :
  leaf <> tid -> page_ok t -> trunk_is t next (leaf :: leaves) ->
  page_ok l -> overflow_cells l = [] -> 1 <= freelist_pages d ->
  exists pages', alloc_reuse tid leaf (lenZ (leaf :: leaves)) (pinned (<[leaf := pin l]> (<[tid := pin t]> (db_pages d)))) ev =
    Ok (Finish (leaf, taken pages' (freelist_trunk_page d), ev)) /\
    (forall q, q <> tid -> q <> leaf -> pages' !! q = db_pages d !! q) /\
    pages' !! leaf = Some (fill_zero l) /\ pages' !! tid = Some (pop_leaf t (lenZ (leaf :: leaves))).
Proof.
  intros Hne Htok Htr Hlok Hlov H1. pose proof (lenZ_nonneg leaves) as Hnn.
  destruct (pop_leaf_ok t _ _ _ Htok Htr) as [Hpok _]. pose proof Htok as [Htl Htp]. pose proof (tk_max _ _ _ Htr) as Hmax.
  set (n := lenZ (leaf :: leaves)) in *.
  assert (n = lenZ leaves + 1) as Hn by apply lenZ_cons. assert (4 * (usable / 4) <= usable) by (apply Z.mul_div_le; lia). unfold max_leaves in Hmax.
  unfold alloc_reuse, pinned. cbn [db_pages]. rewrite lookup_insert_eq. cbn [unwrap mbind Result_bind].
  change (overflow_cells (pin l)) with (overflow_cells l). rewrite bool_decide_eq_true_2 by done. cbn [or_corrupt mbind Result_bind].
  rewrite (with_page_ok _ leaf (pin l) (pin (fill_zero l))); [|apply lookup_insert_eq|done]. cbn [mbind Result_bind].
  unfold checked_sub at 1. destruct (Z.leb_spec 1 n); [|lia]. cbn [mbind Result_bind].
  set (t1 := set_buffer t (splice (as_ptr t) 8 (sub (as_ptr t) 12 ((n - 1) * 4)))).
  assert (lenZ (as_ptr t1) = lenZ (as_ptr t)) as Hl1 by (unfold t1; rewrite as_ptr_set, lenZ_splice; rewrite ?lenZ_sub; lia).
  unfold set_page. cbn [database_size freelist_trunk_page freelist_pages db_pages].
  rewrite (with_page_ok _ tid (pin t) (pin t1)); [|cbn [db_pages]; by rewrite !lookup_insert_ne, lookup_insert_eq by done|].
  2: { change (as_ptr (pin t)) with (as_ptr t). unfold FREELIST_TRUNK_OFFSET_FIRST_LEAF_PTR, FREELIST_LEAF_PTR_SIZE. cbv zeta.
       rewrite copy_within_splice by lia. cbn [mbind Result_bind]. by replace (8 + 4 + (n - 1) * 4 - (8 + 4)) with ((n - 1) * 4) by lia. }
  cbn [mbind Result_bind]. assert (u32 (n - 1) = n - 1) as -> by (unfold u32; apply Z.mod_small; lia).
  rewrite (with_page_ok _ tid (pin t1) (pin (pop_leaf t n)));
    [|apply lookup_insert_eq|apply (write_u32_pinned 4 (n - 1) t1); lia]. cbn [mbind Result_bind].
  unfold take_one_free, checked_sub, set_page. cbn [freelist_pages database_size freelist_trunk_page db_pages].
  destruct (Z.leb_spec 1 (freelist_pages d)); [|lia]. cbn [mbind Result_bind].
  rewrite (with_page_ok _ tid (pin (pop_leaf t n)) (pop_leaf t n)); [|apply lookup_insert_eq|by apply pin_unpin]. cbn [mbind Result_bind].
  rewrite (with_page_ok _ leaf (pin (fill_zero l)) (fill_zero l)); [|cbn [set_page db_pages]|by apply pin_unpin, zeroed].
  2: { rewrite lookup_insert_ne, lookup_insert_ne, lookup_insert_ne, lookup_insert_eq by done. done. }
  cbn [mbind Result_bind]. unfold set_page. cbn [freelist_trunk_page database_size db_pages freelist_pages].
  eexists. split; [done|]. split_and!.
  - intros q Hqt Hql. by rewrite !lookup_insert_ne.
  - apply lookup_insert_eq.
  - by rewrite lookup_insert_ne, lookup_insert_eq by done.
Qed.

(** The first leaf is taken. *)
Lemma reuse_leaf tid leaf leaves ts' t l ev :
  ts = (tid, leaf :: leaves) :: ts' -> db_pages d !! tid = Some t -> page_ok t -> trunk_is t (first_trunk ts') (leaf :: leaves) ->
  db_pages d !! leaf = Some l ->
  exists d', alloc_reuse tid leaf (lenZ (leaf :: leaves)) (pinned (<[leaf := pin l]> (<[tid := pin t]> (db_pages d)))) ev =
    Ok (Finish (leaf, d', ev)) /\ page_reused leaf d'.
Proof.
  intros Ets Ht Htok Htr Hl. pose proof HF as HF'. destruct HF'. destruct (pop_leaf_ok t _ _ _ Htok Htr) as [Hpok Hptr].
  rewrite Ets in fl_nodup0. cbn in fl_nodup0. apply NoDup_cons in fl_nodup0 as [Hnt [Hnl Hnd]%NoDup_cons].
  assert (leaf <> tid) as Hne by (intros ->; apply Hnt; left).
  destruct (free_page_is leaf) as (l' & Hl' & Hlok & Hlov); [rewrite Ets; right; left|]. rewrite Hl in Hl'. injection Hl' as <-.
  assert (1 <= freelist_pages d) as H1 by (rewrite fl_count0, Ets; cbn; rewrite lenZ_cons; unfold lenZ; lia).
  destruct (reuse_pages tid leaf leaves _ t l ev Hne Htok Htr Hlok Hlov H1) as (pages' & -> & Hsame & Hz & Hpt).
  assert (forall q, q ∉ free_ids ts -> pages' !! q = db_pages d !! q) as Hout.
  { intros q Hq. apply Hsame; intros ->; apply Hq; rewrite Ets; [left|right; left]. }
  eexists. split; [done|]. split_and!; [done| |exists (fill_zero l); split_and!; [done|unfold fill_zero; rewrite as_ptr_set; by rewrite length_replicate|done]|done].
  exists ((tid, leaves) :: ts'). assert (leaf :: free_ids ((tid, leaves) :: ts') ≡ₚ free_ids ts) as Hperm by (rewrite Ets; cbn; apply perm_swap).
  split; [|done]. rewrite fl_first0, Ets. apply (taken_list leaf pages' ((tid, leaves) :: ts')); [|done|done|].
  - rewrite Ets in fl_trunks0. destruct fl_trunks0 as [_ Hts]. split; [by eexists|]. eapply trunks_at_ext; [|exact Hts].
    intros q Hq. apply Hsame; intros ->; [apply Hnt; right|apply Hnl]; by apply elem_of_app; right.
  - intros q Hq. destruct (free_page_is q Hq) as (r & Hr & Hrok & Hrov). destruct (decide (q = tid)) as [->|Hqt].
    { eexists. split_and!; [done|done|]. rewrite Ht in Hr. by injection Hr as <-. }
    destruct (decide (q = leaf)) as [->|Hql]; [eexists; split_and!; [done|by apply zeroed|done]|].
    rewrite Hsame by done. by exists r.
Qed.
(** *** A new page *)

Definition page_added (id : Z) (d' : db) : Prop :=
  database_size d < id /\ database_size d' = id /\ free_ids ts = [] /\ free_list d' ts /\ Some id <> pending /\
  (forall q, database_size d < q < id -> pending = Some q) /\
  db_pages d' !! id = Some (new_page id) /\
  forall q, q <= database_size d -> db_pages d' !! q = db_pages d !! q.

(** There is no unused page below the limit. *)
Definition no_page_left : Prop := forall q, database_size d < q <= max_pages -> pending = Some q.

Lemma added_list pages size :
  ts = [] -> 1 <= size <= u32_max -> database_size d <= size ->
  (forall q, q <= database_size d -> pages !! q = db_pages d !! q) ->
  (forall q, database_size d < q <= size -> exists r, pages !! q = Some r /\ page_ok r) ->
  free_list (mkDb size (freelist_trunk_page d) (freelist_pages d) pages) ts.
Proof.
  intros Ets Hs Hd Hsame Hnew. destruct HF. rewrite Ets in *. constructor; cbn [freelist_trunk_page database_size db_pages freelist_pages]; try done.
  - intros q Hq. destruct (Z.leb_spec q (database_size d)); [rewrite Hsame by done; apply fl_pages0; lia|apply Hnew; lia].
  - intros q p Hq. by apply not_elem_of_nil in Hq.
Qed.

Lemma alloc_new_ok ev :
  ts = [] -> max_pages <= u32_max ->
  (exists id d', alloc_new pending max_pages new_page (database_size d) d ev = Ok (Finish (id, d', ev)) /\ page_added id d') \/
  alloc_new pending max_pages new_page (database_size d) d ev = Err DatabaseFull /\ no_page_left.
Proof.
  intros Ets Hmax. pose proof (fl_size _ _ HF) as Hsz. unfold alloc_new. cbv zeta.
  case_bool_decide as Hp; match goal with |- context [max_pages <? ?s] => destruct (Z.ltb_spec max_pages s) as [Hfull|Hfits] end.
  - right. split; [done|]. intros q Hq. by replace q with (database_size d + 1) by lia.
  - left. eexists _, _. split; [done|]. split_and!; cbn [set_page db_pages database_size]; [lia|done|by rewrite Ets| | | |apply lookup_insert_eq|].
    + apply added_list; [done|lia|lia| |]; intros q Hq; [by rewrite !lookup_insert_ne by lia|].
      destruct (decide (q = database_size d + 1 + 1)) as [->|Hne]; [rewrite lookup_insert_eq; by eexists|].
      rewrite lookup_insert_ne by done. replace q with (database_size d + 1) by lia. rewrite lookup_insert_eq. by eexists.
    + intros Hq. rewrite <- Hq in Hp. injection Hp. lia.
    + intros q Hq. by replace q with (database_size d + 1) by lia.
    + intros q Hq. by rewrite !lookup_insert_ne by lia.
  - right. split; [done|]. intros q Hq. lia.
  - left. eexists _, _. split; [done|]. split_and!; cbn [set_page db_pages database_size]; [lia|done|by rewrite Ets| |done|lia|apply lookup_insert_eq|].
    + apply added_list; [done|lia|lia| |]; intros q Hq; [by rewrite !lookup_insert_ne by lia|].
      replace q with (database_size d + 1) by lia. rewrite lookup_insert_eq. by eexists.
    + intros q Hq. by rewrite !lookup_insert_ne by lia.
Qed.
(** *** The whole allocation *)

(** The trunk has leaves: the first one is read. *)
Lemma search_leaf tid leaf leaves next t l ev :
  page_ok t -> trunk_is t next (leaf :: leaves) -> 2 <= leaf <= database_size d -> database_size d <= u32_max ->
  <[tid := pin t]> (db_pages d) !! leaf = Some l ->
  alloc_search tid (pinned (<[tid := pin t]> (db_pages d))) ev =
  with_read ev (SearchAvailableFreeListLeaf tid) (pinned (<[tid := pin t]> (db_pages d)))
    (Ok (ReuseFreelistLeaf tid leaf (lenZ (leaf :: leaves)), pinned (<[leaf := pin l]> (<[tid := pin t]> (db_pages d))))).
Proof.
  intros Htok Htr Hrange Hsize Hl. unfold alloc_search, pinned. cbn [db_pages]. rewrite lookup_insert_eq. cbn [unwrap mbind Result_bind].
  pose proof Htok as [Htl _]. change (as_ptr (pin t)) with (as_ptr t).
  unfold FREELIST_TRUNK_OFFSET_NEXT_TRUNK_PTR, FREELIST_TRUNK_OFFSET_LEAF_COUNT, FREELIST_TRUNK_OFFSET_FIRST_LEAF_PTR.
  rewrite (read_u32_at (as_ptr t) 0 ltac:(lia) ltac:(lia)). cbn [mbind Result_bind]. rewrite (read_count t _ _ Htok Htr). cbn [mbind Result_bind].
  pose proof (lenZ_nonneg leaves). pose proof (lenZ_cons leaf leaves) as Hn. destruct (Z.eqb_spec (lenZ (leaf :: leaves)) 0); [lia|]. cbn [negb].
  rewrite (read_u32_at (as_ptr t) 8 ltac:(lia) ltac:(lia)). pose proof (tk_leaves _ _ _ Htr 0 leaf eq_refl) as Hs. change (8 + 4 * Z.of_nat 0) with 8 in Hs. rewrite Hs.
  rewrite be32_roundtrip by (unfold is_u32, u32_max in *; lia). cbn [mbind Result_bind database_size].
  assert ((leaf <? 2) || (database_size d <? leaf) = false) as -> by lia.
  destruct (Z.ltb_spec 0 (lenZ (leaf :: leaves))); [|lia]. cbn [turso_assert mbind Result_bind].
  by rewrite (with_page_ok _ leaf l (pin l)).
Qed.

Lemma search_run tid leaves ts' t ev :
  ts = (tid, leaves) :: ts' -> db_pages d !! tid = Some t -> page_ok t -> trunk_is t (first_trunk ts') leaves ->
  Forall no_read_error ev -> (1 <= readies ev)%nat ->
  exists id d' ev', run step (length ev + 2) (SearchAvailableFreeListLeaf tid, pinned (<[tid := pin t]> (db_pages d)), ev) = Ok (id, d', ev') /\
    page_reused id d'.
Proof.
  intros Ets Ht Htok Htr. destruct leaves as [|leaf leaves].
  - intros _ _. destruct (search_last tid ts' t ev Ets Ht Htok Htr) as (d' & Hd & HP). exists tid, d', ev.
    replace (length ev + 2)%nat with (S (S (length ev))) by lia. rewrite run_S. cbn [alloc_step]. unfold pinned. by rewrite Hd.
  - assert (leaf <> tid) as Hne. { intros ->. pose proof (fl_nodup _ _ HF) as Hn. rewrite Ets in Hn. apply NoDup_cons in Hn as [Hn _]. apply Hn. left. }
    destruct (free_page_is leaf) as (l & Hl & _); [rewrite Ets; right; left|].
    induction ev as [|e ev IH]; intros Herr Hr; [cbn in Hr; lia|]. apply Forall_cons_1 in Herr as [He Herr].
    replace (length (e :: ev) + 2)%nat with (S (length ev + 2)) by (cbn; lia). rewrite run_S. cbn [alloc_step].
    pose proof (fl_size _ _ HF) as Hsz. pose proof (fl_range _ _ HF) as Hg. rewrite Forall_forall in Hg. pose proof (Hg leaf ltac:(rewrite Ets; right; left)).
    rewrite (search_leaf tid leaf leaves _ t l _ Htok Htr ltac:(done) ltac:(lia)) by by rewrite lookup_insert_ne. unfold readies in *. cbn [List.filter] in Hr.
    destruct (reuse_leaf tid leaf leaves ts' t l ev Ets Ht Htok Htr Hl) as (d' & Hd & HP).
    destruct e; try done; cbn [with_read mbind Result_bind]; [by apply IH| |];
      (exists leaf, d', ev; split; [|done]; rewrite Nat.add_comm; cbn [Nat.add]; rewrite run_S; cbn [alloc_step]; by rewrite Hd).
Qed.

Lemma alloc_run_ok ev :
  Forall no_read_error ev -> (2 <= readies ev)%nat -> max_pages <= u32_max ->
  (exists id d' ev', run step (length ev + 3) (AllocStart, d, ev) = Ok (id, d', ev') /\ (page_reused id d' \/ page_added id d')) \/
  calls step (length ev + 4) (length ev + 4) (AllocStart, d, ev) = Err DatabaseFull /\ ts = [] /\ no_page_left.
Proof.
  intros Herr Hr Hmax. destruct (trunk_cases d ts HF) as [H0|[Hn0 (tid & leaves & ts' & Ets)]].
  - assert (ts = []) as Ets. { pose proof (fl_first _ _ HF) as Hf. pose proof (fl_range _ _ HF) as Hg. destruct ts as [|[tid leaves] ts']; [done|].
      apply Forall_cons_1 in Hg as [Hg _]. cbn in *. lia. }
    destruct (alloc_new_ok ev Ets Hmax) as [(id & d' & Hd & HP)|[Hd HP]]; [left; exists id, d', ev|right; split; [|done]].
    + replace (length ev + 3)%nat with (S (S (S (length ev)))) by lia. rewrite !run_S. cbn [alloc_step]. unfold alloc_start. rewrite H0. cbn [mbind Result_bind].
      rewrite run_S. cbn [alloc_step]. rewrite Hd. split; [done|by right].
    + replace (length ev + 4)%nat with (S (S (S (S (length ev))))) by lia. cbn [calls call alloc_step mbind Result_bind]. unfold alloc_start. rewrite H0. cbn [mbind Result_bind alloc_step].
      by rewrite Hd.
  - left. pose proof (fl_trunks _ _ HF) as Htr. pose proof (fl_first _ _ HF) as Hf. rewrite Ets in Htr, Hf. destruct Htr as [(t & Ht & Htok & Htr) _]. cbn in Hf.
    induction ev as [|e ev IH]; [cbn in Hr; lia|]. apply Forall_cons_1 in Herr as [He Herr].
    replace (length (e :: ev) + 3)%nat with (S (length ev + 3)) by (cbn; lia). rewrite run_S. cbn [alloc_step]. unfold alloc_start at 1. rewrite Hn0.
    rewrite (with_page_ok d _ t (pin t)); [|by rewrite Hf|done]. rewrite Hf. unfold readies in *. cbn [List.filter] in Hr.
    destruct e; try done; cbn [length] in Hr; cbn [with_read mbind Result_bind]; [by apply IH| |];
      (destruct (search_run tid leaves ts' t ev Ets Ht Htok Htr Herr) as (id & d' & ev' & Hd & HP); [unfold readies; lia|];
       exists id, d', ev'; split; [|by left]; apply (run_mono _ _ _ _ _ Hd); lia).
Qed.
End alloc_one.
End spec.

(** ** A corrupt trunk page *)

Lemma with_page_panic d id p f : db_pages d !! id = Some p -> f p = Panic -> with_page d id f = Panic.
Proof. intros Hp Hf. unfold with_page. rewrite Hp. cbn [unwrap mbind Result_bind]. by rewrite Hf. Qed.

(** C28: the number of leaves in a trunk page is not checked against the size of
    the page: when a trunk names more leaves than fit, and its first leaf is a
    valid page, an allocation reads both pages, clears the leaf, and panics
    when it moves the remaining leaf numbers; it does not report corruption. *)
Theorem leaf_count_not_checked pending max_pages new_page d t l next leaf n :
  freelist_trunk_page d <> 0 -> db_pages d !! freelist_trunk_page d = Some t ->
  read_u32_no_offset (as_ptr t) 0 = Ok next -> read_u32_no_offset (as_ptr t) 4 = Ok n -> read_u32_no_offset (as_ptr t) 8 = Ok leaf ->
  2 <= leaf <= database_size d -> leaf <> freelist_trunk_page d -> db_pages d !! leaf = Some l -> overflow_cells l = [] ->
  1 <= n -> lenZ (as_ptr t) < 8 + 4 * n ->
  exists s1 s2,
    alloc_step pending max_pages new_page (AllocStart, d, [ReadReady; ReadReady]) = Ok (Continue s1) /\
    alloc_step pending max_pages new_page s1 = Ok (Continue s2) /\
    alloc_step pending max_pages new_page s2 = Panic.
Proof.
  intros H0 Ht Hnext Hn Hleaf Hrange Hne Hl Hov Hn1 Hbig. destruct d as [size tid free pages]; cbn [freelist_trunk_page db_pages database_size] in *.
  eexists _, _. split_and!; cbn [alloc_step]; unfold alloc_start; cbn [freelist_trunk_page].
  - rewrite (proj2 (Z.eqb_neq tid 0) H0). cbn [with_read]. rewrite (with_page_ok _ tid t (pin t)); [|exact Ht|done]. cbn [mbind Result_bind]. reflexivity.
  - cbn [alloc_step]. unfold alloc_search, set_page. cbn [db_pages]. rewrite lookup_insert_eq. cbn [unwrap mbind Result_bind]. change (as_ptr (pin t)) with (as_ptr t).
    unfold FREELIST_TRUNK_OFFSET_NEXT_TRUNK_PTR, FREELIST_TRUNK_OFFSET_LEAF_COUNT, FREELIST_TRUNK_OFFSET_FIRST_LEAF_PTR.
    rewrite Hnext. cbn [mbind Result_bind]. rewrite Hn. cbn [mbind Result_bind]. rewrite (proj2 (Z.eqb_neq n 0)) by lia. cbn [negb]. rewrite Hleaf.
    cbn [mbind Result_bind database_size]. assert ((leaf <? 2) || (size <? leaf) = false) as -> by lia.
    rewrite (proj2 (Z.ltb_lt 0 n)) by lia. cbn [turso_assert with_read mbind Result_bind].
    rewrite (with_page_ok _ leaf l (pin l)); [|cbn [db_pages]; by rewrite lookup_insert_ne|done]. cbn [mbind Result_bind]. reflexivity.
  - cbn [alloc_step]. unfold alloc_reuse. cbn [set_page db_pages]. rewrite lookup_insert_eq. cbn [unwrap mbind Result_bind].
    change (overflow_cells (pin l)) with (overflow_cells l). rewrite bool_decide_eq_true_2 by done. cbn [or_corrupt mbind Result_bind].
    rewrite (with_page_ok _ leaf (pin l) (fill_zero (pin l))); [|apply lookup_insert_eq|done]. cbn [mbind Result_bind].
    unfold checked_sub at 1. destruct (Z.leb_spec 1 n); [|lia]. cbn [mbind Result_bind].
    rewrite (with_page_panic _ tid (pin t)); [done|cbn [set_page db_pages]; by rewrite !lookup_insert_ne, lookup_insert_eq by done|].
    change (as_ptr (pin t)) with (as_ptr t). unfold FREELIST_TRUNK_OFFSET_FIRST_LEAF_PTR, FREELIST_LEAF_PTR_SIZE, copy_within, slice.
    assert ((0 <=? 8 + 4) && (8 + 4 <=? 8 + 4 + (n - 1) * 4) && (8 + 4 + (n - 1) * 4 <=? lenZ (as_ptr t)) = false) as -> by lia. done.
Qed.

(** An empty page of 512 bytes. *)
Definition blank (id : Z) : PageInner := mkPage 0 id (header_offset_of id) 0 TAG_UNSET (Some (replicate 512 0)) [].

(** A trunk page of 512 bytes that claims to have 1000 leaves. *)
Definition bad_trunk : PageInner := set_buffer (blank 2) (splice (replicate 512 0) 4 (be_split 4 1000 ++ be_split 4 3)).
Definition bad_db : db := mkDb 3 2 1001 {[1 := blank 1; 2 := bad_trunk; 3 := blank 3]}.

Lemma leaf_count_not_checked_witness : exists s1 s2,
  alloc_step None 100 blank (AllocStart, bad_db, [ReadReady; ReadReady]) = Ok (Continue s1) /\
  alloc_step None 100 blank s1 = Ok (Continue s2) /\ alloc_step None 100 blank s2 = Panic.
Proof.
  apply (leaf_count_not_checked None 100 blank bad_db bad_trunk (blank 3) 0 3 1000); try (vm_compute; reflexivity); try (vm_compute; congruence); try (vm_compute; lia).
  all: vm_compute; split; congruence.
Defined.
