(* ===== verification/Allocator.v ===== *)
(** * Allocator: what the users of the pages can rely on

    The users of [allocate_page] and [free_page] see a set of pages that are
    theirs: an allocation gives a page that nobody else has, the contents of a
    page change only when its owner writes it, and a freed page is available
    again.  This file states that as an abstract allocator over a map of the
    pages in use and shows that the functions of Freelist implement it, for
    every program that follows the rules: it reads, writes and frees only pages
    that it has. *)

From stdpp Require Import gmap.
From S2P Require Import Prelude Resume Varint OnDisk Page BtreePage BtreeSpace BtreePayload Freelist.

Section allocator.
Context (usable : Z) (pending : option Z) (max_pages : Z) (new_page : Z -> PageInner).

(** A program that uses pages; the events are the answers to its reads. *)
Inductive client :=
  | Return
  | Alloc (events : list read_event) (k : Z -> client)
  | Free (id : Z) (given : bool) (events : list read_event) (k : client)
  | Write (id : Z) (p : PageInner) (k : client)
  | Read (id : Z) (k : PageInner -> client).

(** ** The program on the database file *)

Definition exec_alloc (d : db) (events : list read_event) : Result (Z * db) :=
  let n := (length events + 4)%nat in
  '(id, d, _) ← calls (alloc_step pending max_pages new_page) n n (AllocStart, d, events);
  Ok (id, d).

Definition exec_free (d : db) (given : bool) (id : Z) (events : list read_event) : Result db :=
  let n := (length events + 4)%nat in
  '(d, _) ← calls (free_step usable given id) n n (FreeStart, d, events);
  Ok d.

Fixpoint exec (d : db) (c : client) : Result db :=
  match c with
  | Return => Ok d
  | Alloc events k => '(id, d) ← exec_alloc d events; exec d (k id)
  | Free id given events k => d ← exec_free d given id events; exec d k
  | Write id p k => exec (set_page d id p) k
  | Read id k => p ← unwrap (db_pages d !! id); exec d (k p)
  end.

(** ** The abstract allocator *)

Abbreviation owned := (gmap Z PageInner).

(** A run of the program, with the pages in use at the end; it stops without a
    result only when every page number up to the limit is in use. *)
Inductive uses : owned -> client -> option owned -> Prop :=
  | uses_return M : uses M Return (Some M)
  | uses_alloc M ev k id p r :
      M !! id = None -> 2 <= id -> pending <> Some id -> overflow_cells p = [] ->
      uses (<[id := p]> M) (k id) r -> uses M (Alloc ev k) r
  | uses_full M ev k :
      (forall q, 2 <= q <= max_pages -> is_Some (M !! q) \/ pending = Some q) -> uses M (Alloc ev k) None
  | uses_free M id given ev k r : is_Some (M !! id) -> uses (delete id M) k r -> uses M (Free id given ev k) r
  | uses_write M id p k r : is_Some (M !! id) -> uses (<[id := p]> M) k r -> uses M (Write id p k) r
  | uses_read M id p k r : M !! id = Some p -> uses M (k p) r -> uses M (Read id k) r.

(** The reads give an answer in the end. *)
Definition served (ev : list read_event) : Prop := Forall no_read_error ev /\ (2 <= readies ev)%nat.

(** The rules for a program, whatever pages it gets. *)
Fixpoint safe (M : owned) (c : client) : Prop :=
  match c with
  | Return => True
  | Alloc ev k => served ev /\ forall id p, M !! id = None -> 2 <= id -> safe (<[id := p]> M) (k id)
  | Free id _ ev k => served ev /\ is_Some (M !! id) /\ safe (delete id M) k
  | Write id p k => is_Some (M !! id) /\ page_ok usable p /\ safe (<[id := p]> M) k
  | Read id k => is_Some (M !! id) /\ forall p, M !! id = Some p -> safe M (k p)
  end.

(** The file holds the pages in use with their contents; all others are free. *)
Record holds (d : db) (M : owned) (ts : list (Z * list Z)) : Prop := mkHolds {
  h_list : free_list usable d ts;
  h_owned : forall q p, M !! q = Some p -> 2 <= q <= database_size d /\ db_pages d !! q = Some p;
  h_free : forall q, q ∈ free_ids ts -> M !! q = None;
  h_pending : forall q, pending = Some q -> M !! q = None /\ q ∉ free_ids ts;
  h_all : forall q, 2 <= q <= database_size d -> is_Some (M !! q) \/ q ∈ free_ids ts \/ pending = Some q
}.
Definition related (d : db) (M : owned) : Prop := exists ts, holds d M ts.

(** ** Refinement *)

Context (Husable : 480 <= usable <= 65536) (Hmax : max_pages <= u32_max).
Context (Hnewp : forall id, page_ok usable (new_page id)) (Hnewo : forall id, overflow_cells (new_page id) = []).

Lemma holds_set d M ts id p : holds d M ts -> is_Some (M !! id) -> page_ok usable p -> holds (set_page d id p) (<[id := p]> M) ts.
Proof.
  intros [HF Ho Hf Hp Ha] [p0 Hid] Hok. assert (id ∉ free_ids ts) as Hnf by (intros Hi; specialize (Hf id Hi); congruence).
  constructor; cbn [set_page db_pages database_size].
  - destruct HF. constructor; cbn [set_page db_pages database_size freelist_trunk_page freelist_pages]; try done.
    + eapply trunks_at_ext; [|done]. intros q Hq. apply lookup_insert_ne. congruence.
    + intros q Hq. destruct (decide (q = id)) as [->|]; [rewrite lookup_insert_eq; by eexists|]. rewrite lookup_insert_ne by done. by apply fl_pages.
    + intros q r Hq. rewrite lookup_insert_ne by congruence. by apply fl_clean.
  - intros q r. destruct (decide (q = id)) as [->|]; [rewrite !lookup_insert_eq; intros [= <-]; by destruct (Ho _ _ Hid)|].
    rewrite !lookup_insert_ne by done. apply Ho.
  - intros q Hq. rewrite lookup_insert_ne by congruence. by apply Hf.
  - intros q Hq. destruct (Hp q Hq). rewrite lookup_insert_ne by congruence. done.
  - intros q Hq. destruct (decide (q = id)) as [->|]; [rewrite lookup_insert_eq; left; by eexists|]. rewrite lookup_insert_ne by done. by apply Ha.
Qed.

Lemma holds_freed d M ts id d' : holds d M ts -> is_Some (M !! id) -> page_freed usable d ts id d' -> related d' (delete id M).
Proof.
  intros [HF Ho Hf Hp Ha] [p0 Hid] (Hsz & HF' & Hsame & _). pose proof (add_free_ids usable ts id) as Hperm. exists (add_free usable ts id).
  constructor; [done|rewrite Hsz| | |rewrite Hsz].
  - intros q r [Hne Hq]%lookup_delete_Some. destruct (Ho _ _ Hq) as [Hr Hd]. split; [done|]. rewrite Hsame; [done|done|].
    intros Hi. specialize (Hf q Hi). congruence.
  - intros q. rewrite Hperm. intros [->|Hq]%elem_of_cons; [apply lookup_delete_eq|]. apply lookup_delete_None. right. by apply Hf.
  - intros q Hq. destruct (Hp q Hq) as [Hn Hnf]. split; [by apply lookup_delete_None; right|]. rewrite Hperm. intros [->|?]%elem_of_cons; [congruence|done].
  - intros q Hq. rewrite Hperm. destruct (decide (q = id)) as [->|Hne]; [right; left; left|]. rewrite lookup_delete_ne by done.
    destruct (Ha q Hq) as [?|[?|?]]; [by left|right; left; by right|by right; right].
Qed.

Lemma holds_reused d M ts id d' :
  holds d M ts -> page_reused usable d ts id d' ->
  exists p, M !! id = None /\ 2 <= id /\ pending <> Some id /\ overflow_cells p = [] /\ related d' (<[id := p]> M).
Proof.
  intros [HF Ho Hf Hp Ha] (Hsz & (ts' & HF' & Hperm) & (p & Hpd & _ & Hov) & Hsame). exists p.
  assert (id ∈ free_ids ts) as Hin by (rewrite <- Hperm; left). pose proof (fl_range _ _ _ HF) as Hrange. rewrite Forall_forall in Hrange.
  assert (NoDup (id :: free_ids ts')) as [Hnot _]%NoDup_cons by (rewrite Hperm; by apply (fl_nodup _ _ _ HF)).
  split_and!; [by apply Hf|by apply Hrange|intros Hq; by destruct (Hp _ Hq)|done|]. exists ts'. constructor; [done|rewrite Hsz| | |rewrite Hsz].
  - intros q r. destruct (decide (q = id)) as [->|Hne]; [rewrite lookup_insert_eq; intros [= <-]; split; [by apply Hrange|done]|].
    rewrite lookup_insert_ne by done. intros Hq. destruct (Ho _ _ Hq) as [Hr Hd]. split; [done|]. rewrite Hsame; [done|]. intros Hi. specialize (Hf q Hi). congruence.
  - intros q Hq. rewrite lookup_insert_ne by congruence. apply Hf. rewrite <- Hperm. by right.
  - intros q Hq. destruct (Hp q Hq) as [Hn Hnf]. rewrite lookup_insert_ne by congruence. split; [done|]. intros Hi. apply Hnf. rewrite <- Hperm. by right.
  - intros q Hq. destruct (decide (q = id)) as [->|Hne]; [left; rewrite lookup_insert_eq; by eexists|]. rewrite lookup_insert_ne by done.
    destruct (Ha q Hq) as [?|[Hi|?]]; [by left| |by right; right]. rewrite <- Hperm in Hi. apply elem_of_cons in Hi as [?|?]; [done|by right; left].
Qed.

Lemma holds_added d M ts id d' :
  holds d M ts -> page_added usable pending new_page d ts id d' ->
  M !! id = None /\ 2 <= id /\ pending <> Some id /\ related d' (<[id := new_page id]> M).
Proof.
  intros [HF Ho Hf Hp Ha] (Hlt & Hsz & Hempty & HF' & Hpd & Hgap & Hid & Hsame). pose proof (fl_size _ _ _ HF) as Hs.
  assert (M !! id = None) as Hnone. { destruct (M !! id) as [p|] eqn:E; [|done]. destruct (Ho _ _ E). lia. }
  split_and!; [done|lia|congruence|]. exists ts. constructor; [done|rewrite Hsz| | |rewrite Hsz].
  - intros q r. destruct (decide (q = id)) as [->|Hne]; [rewrite lookup_insert_eq; intros [= <-]; split; [lia|done]|].
    rewrite lookup_insert_ne by done. intros Hq. destruct (Ho _ _ Hq) as [Hr Hd]. split; [lia|]. rewrite Hsame; [done|lia].
  - intros q. rewrite Hempty. intros Hq. by apply not_elem_of_nil in Hq.
  - intros q Hq. destruct (Hp q Hq) as [Hn Hnf]. rewrite lookup_insert_ne by congruence. done.
  - intros q Hq. destruct (decide (q = id)) as [->|Hne]; [left; rewrite lookup_insert_eq; by eexists|]. rewrite lookup_insert_ne by done.
    destruct (Z.leb_spec q (database_size d)); [by apply Ha; lia|right; right; apply Hgap; lia].
Qed.

Lemma exec_alloc_ok d M ev :
  related d M -> served ev ->
  (exists id p d', exec_alloc d ev = Ok (id, d') /\ M !! id = None /\ 2 <= id /\ pending <> Some id /\ overflow_cells p = [] /\
     related d' (<[id := p]> M)) \/
  exec_alloc d ev = Err DatabaseFull /\ forall q, 2 <= q <= max_pages -> is_Some (M !! q) \/ pending = Some q.
Proof.
  intros [ts H] [Herr Hr]. unfold exec_alloc.
  destruct (alloc_run_ok usable Husable pending max_pages new_page Hnewp d ts (h_list _ _ _ H) ev Herr Hr Hmax) as [(id & d' & ev' & Hrun & HP)|(Hfull & Ets & Hno)].
  - left. rewrite (run_calls _ _ _ _ _ _ Hrun) by lia. cbn [mbind Result_bind]. destruct HP as [HP|HP].
    + destruct (holds_reused d M ts id d' H HP) as (p & ?). by exists id, p, d'.
    + destruct (holds_added d M ts id d' H HP) as (? & ? & ? & ?). by exists id, (new_page id), d'.
  - right. rewrite Hfull. split; [done|]. intros q Hq. destruct (Z.leb_spec q (database_size d)).
    + destruct (h_all _ _ _ H q) as [?|[Hi|?]]; [lia|by left| |by right]. rewrite Ets in Hi. by apply not_elem_of_nil in Hi.
    + right. apply Hno. lia.
Qed.

Lemma exec_free_ok d M given id ev :
  related d M -> served ev -> is_Some (M !! id) -> exists d', exec_free d given id ev = Ok d' /\ related d' (delete id M).
Proof.
  intros [ts H] [Herr Hr] [p Hp]. destruct (h_owned _ _ _ H id p Hp) as [Hid Hd].
  assert (page_ok usable p) as Hok. { destruct (fl_pages _ _ _ (h_list _ _ _ H) id) as (p' & Hp' & ?); [lia|]. rewrite Hd in Hp'. by injection Hp' as <-. }
  destruct (free_run_ok usable Husable d ts (h_list _ _ _ H) id p Hid) with (given := given) (ev := ev) as (d' & ev' & Hrun & HP); try done.
  { intros Hi. rewrite (h_free _ _ _ H id Hi) in Hp. done. }
  exists d'. unfold exec_free. rewrite (run_calls _ _ _ _ _ _ Hrun) by lia. split; [done|]. by eapply holds_freed.
Qed.

(** C13: allocating and freeing pages implements the abstract allocator. For a
    program that uses only pages it has, on a database whose pages are either
    in use, in the freelist or the page of the lock byte: every allocation
    gives a page number that is not in use and is not the lock-byte page, each
    page keeps what its owner wrote last whatever else is allocated, written
    or freed, no page number is lost, and an allocation fails, with
    [DatabaseFull], only when all page numbers up to the limit are in use. It
    holds for every schedule of waiting reads and cache spills. *)
Theorem allocator_refines c : forall d M,
  related d M -> safe M c ->
  exists r, uses M c r /\
    match r with Some M' => exists d', exec d c = Ok d' /\ related d' M' | None => exec d c = Err DatabaseFull end.
Proof.
  induction c as [|ev k IH|id given ev k IH|id p k IH|id k IH]; intros d M HR HS; cbn [safe exec] in *.
  - exists (Some M). split; [constructor|by exists d].
  - destruct HS as [Hev HS]. destruct (exec_alloc_ok d M ev HR Hev) as [(id & p & d' & -> & Hn & H2 & Hpd & Hov & HR')|[-> Hfull]].
    + destruct (IH id d' _ HR' (HS id p Hn H2)) as (r & Hu & Hr). exists r. split; [by econstructor|done].
    + exists None. split; [by constructor|done].
  - destruct HS as (Hev & Hid & HS). destruct (exec_free_ok d M given id ev HR Hev Hid) as (d' & -> & HR').
    destruct (IH d' _ HR' HS) as (r & Hu & Hr). exists r. split; [by constructor|done].
  - destruct HS as (Hid & Hok & HS). destruct HR as [ts HR]. destruct (IH (set_page d id p) (<[id := p]> M)) as (r & Hu & Hr); [|done|].
    { exists ts. by apply holds_set. }
    exists r. split; [by constructor|done].
  - destruct HS as ([p Hp] & HS). destruct HR as [ts HR]. destruct (h_owned _ _ _ HR id p Hp) as [_ Hd]. rewrite Hd.
    destruct (IH p d M) as (r & Hu & Hr); [by exists ts|by apply HS|]. exists r. split; [by econstructor|done].
Qed.
End allocator.

(** A new database of one page, and a program on it. *)
Definition new_db : db := mkDb 1 0 0 {[1 := blank 1]}.
Definition written : PageInner := set_buffer (blank 2) (replicate 512 7).

Definition example_client : client :=
  Alloc [ReadReady; ReadReady] (fun a =>
  Alloc [ReadSpill; ReadReady; ReadReady] (fun b =>
  Write a written (
  Free b false [ReadWait; ReadReady; ReadReady] (
  Alloc [ReadWait; ReadWait; ReadReady; ReadReady] (fun c =>
  Free a true [ReadReady; ReadSpill; ReadReady] (
  Read c (fun _ => Return))))))).

Lemma blank_ok id : page_ok 512 (blank id).
Proof. by split. Qed.

Lemma example_safe : safe 512 ∅ example_client.
Proof.
  cbn [safe example_client]. split; [split; [repeat constructor|cbn; lia]|]. intros a pa _ _.
  split; [split; [repeat constructor|cbn; lia]|]. intros b pb Hb _. apply lookup_insert_None in Hb as [_ Hab].
  split; [rewrite lookup_insert_ne, lookup_insert_eq by done; by eexists|]. split; [done|].
  split; [split; [repeat constructor|cbn; lia]|]. split; [rewrite lookup_insert_ne, lookup_insert_eq by done; by eexists|].
  split; [split; [repeat constructor|cbn; lia]|]. intros c pc Hc _. apply lookup_delete_None in Hc.
  assert (a <> c) as Hac by (intros ->; destruct Hc as [?|Hc]; [done|by rewrite lookup_insert_eq in Hc]).
  split; [split; [repeat constructor|cbn; lia]|]. split; [rewrite lookup_insert_ne, lookup_delete_ne, lookup_insert_eq by done; by eexists|].
  split; [rewrite lookup_delete_ne, lookup_insert_eq by done; by eexists|done].
Qed.

Lemma new_related : related 512 None new_db ∅.
Proof.
  exists []. constructor; [constructor|..]; cbn [new_db database_size db_pages freelist_trunk_page freelist_pages]; try done; try (intros; lia).
  - constructor.
  - intros id Hid. replace id with 1 by lia. exists (blank 1). split; [apply lookup_singleton_eq|apply blank_ok].
  - intros id p Hi. by apply not_elem_of_nil in Hi.
Qed.

Lemma allocator_refines_witness : exists r, uses None 100 ∅ example_client r /\
  match r with Some M' => exists d', exec 512 None 100 blank new_db example_client = Ok d' /\ related 512 None d' M'
  | None => exec 512 None 100 blank new_db example_client = Err DatabaseFull end.
Proof.
  apply (allocator_refines 512 None 100 blank ltac:(lia) ltac:(unfold u32_max; lia) blank_ok (fun _ => eq_refl) example_client new_db ∅ new_related example_safe).
Defined.

(** The program runs to its end: of the three pages one is free. *)
Lemma example_runs : exists d', exec 512 None 100 blank new_db example_client = Ok d' /\ (database_size d', freelist_pages d') = (3, 1).
Proof. eexists. split; [vm_compute; reflexivity|]. vm_compute. reflexivity. Qed.
