(* ===== verification/OverflowFree.v ===== *)
(** * OverflowFree: the overflow pages of a deleted cell

    Models [clear_overflow_pages] of core/storage/btree.rs, which follows the
    chain of overflow pages of a cell and frees each page with [free_page] of
    Freelist.  A call of it may return while a read is pending, also inside of
    [free_page], whose own state is kept by the pager.  The theorems are about
    the pages in use as Allocator describes them. *)

From stdpp Require Import gmap.
From S2P Require Import Prelude Resume Varint OnDisk Page BtreePage BtreeSpace BtreePayload Freelist Allocator.

Inductive OverflowState := OvStart | OvProcessPage (next_page : Z) | OvReadNext (next : Z) | OvDone.

(** The states of the cursor and of the pager, the database, and the answers to come. *)
Abbreviation clear_state := (OverflowState * FreePageState * db * list read_event)%type.
Abbreviation cleared := (db * list read_event)%type.

Definition valid_overflow_page_id (page_id database_size : Z) : bool := (2 <=? page_id) && (page_id <=? database_size).

Section clear.
Context (usable_space : Z) (fuel : nat) (first_overflow_page : option Z).

(** A valid page is read and then processed; [again] is the state in which a
    read that found no room in the cache is repeated. *)
Definition read_overflow (again : OverflowState) (next : Z) (fs : FreePageState) (d : db) (events : list read_event)
    : Result (outcome clear_state cleared) :=
  if negb (valid_overflow_page_id next (database_size d)) then Err Corrupt
  else
    match events with
    | ReadReady :: events => Ok (Continue (OvProcessPage next, fs, d, events))
    | ReadWait :: events => Ok (Wait (OvProcessPage next, fs, d, events))
    | ReadError e :: _ => Err e
    | ReadSpill :: events => Ok (Wait (again, fs, d, events))
    | [] => Ok (Wait (again, fs, d, []))
    end.

Definition process_page (page : Z) (fs : FreePageState) (d : db) (events : list read_event) : Result (outcome clear_state cleared) :=
  contents ← unwrap (db_pages d !! page);
  next ← read_u32_no_offset (as_ptr contents) 0;
  r ← free_page usable_space fuel true page (fs, d, events);
  match r with
  | inr (fs, d, events) => Ok (Wait (OvProcessPage page, fs, d, events))
  | inl (d, events) =>
      Ok (Continue (if negb (next =? 0) then OvReadNext next else OvDone, FreeStart, d, events))
  end.

Definition clear_step (st : clear_state) : Result (outcome clear_state cleared) :=
  let '(s, fs, d, events) := st in
  match s with
  | OvStart =>
      match first_overflow_page with
      | Some next_page => read_overflow OvStart next_page fs d events
      | None => Ok (Continue (OvDone, fs, d, events))
      end
  | OvProcessPage page => process_page page fs d events
  | OvReadNext next => read_overflow (OvReadNext next) next fs d events
  | OvDone => Ok (Finish (d, events))
  end.

Definition clear_overflow_pages (st : clear_state) : Result (cleared + clear_state) :=
  match first_overflow_page, st with
  | None, (OvStart, _, d, events) => Ok (inl (d, events))
  | _, _ => call clear_step fuel st
  end.
End clear.

(** ** Freeing one page, call by call *)

Section clear_ok.
Context (usable : Z) (Husable : 480 <= usable <= 65536).

(** One call of [free_page] with a page: it is done, or it waits for the trunk page. *)
Definition free_progress (d : db) (ts : list (Z * list Z)) (id : Z) (p : PageInner) (ev : list read_event)
    (r : Result (freed + free_state)) : Prop :=
  (exists d' ev', r = Ok (inl (d', ev')) /\ page_freed usable d ts id d' /\
    Forall no_read_error ev' /\ (length ev' <= length ev)%nat /\ (readies ev <= S (readies ev'))%nat) \/
  (exists ev', r = Ok (inr (AddToTrunk id, begun d id p, ev')) /\ ts <> [] /\
    Forall no_read_error ev' /\ (length ev' < length ev)%nat /\ readies ev' = readies ev).

Section one.
Context (d : db) (ts : list (Z * list Z)) (HF : free_list usable d ts) (id : Z) (p : PageInner).
Context (Hid : 2 <= id <= database_size d) (Hnew : id ∉ free_ids ts) (Hp : db_pages d !! id = Some p) (Hpok : page_ok usable p).

Lemma new_call n ev : add_free usable ts id = (id, []) :: ts -> exists d',
  call (free_step usable true id) (S n) (NewTrunk id, begun d id p, ev) = Ok (inl (d', ev)) /\ page_freed usable d ts id d'.
Proof.
  intros Ea. destruct (new_trunk_ok usable Husable d ts HF id p Hid Hnew Hp Hpok ev) as (d' & Hd & HF' & Hsz & Hsame & Hpins).
  exists d'. cbn [call free_step]. rewrite Hd. split; [done|]. split_and!; [done|by rewrite Ea| |done]. intros q Hq _. by apply Hsame.
Qed.

Lemma add_call n ev tid leaves ts' :
  ts = (tid, leaves) :: ts' -> Forall no_read_error ev -> (1 <= readies ev)%nat ->
  free_progress d ts id p ev (call (free_step usable true id) (S (S n)) (AddToTrunk id, begun d id p, ev)).
Proof.
  intros Ets Herr Hr. destruct ev as [|e ev]; [cbn in Hr; lia|]. apply Forall_cons_1 in Herr as [He Herr].
  destruct e; try done; try (right; exists ev; split_and!; [done|by rewrite Ets|done|cbn; lia|done]).
  left. change (S (S n)) with (1 + S n)%nat. cbn [Nat.add call free_step].
  pose proof (add_to_trunk_ok usable Husable d ts HF id p Hid Hnew Hp Hpok tid leaves ts' ev Ets) as HA.
  pose proof (add_free_cons usable ts id tid leaves ts' Ets) as Ea. destruct (lenZ leaves <? max_leaves usable).
  - destruct HA as (d' & Hd & HF' & Hsz & Hsame & Hpins). rewrite Hd. exists d', ev. split_and!; [done| |done|cbn; lia|cbn; unfold readies; lia].
    split_and!; [done|by rewrite Ea|done|done].
  - rewrite HA. cbn [mbind Result_bind]. destruct (new_call n ev Ea) as (d' & Hd & HP). exists d', ev.
    split_and!; [exact Hd|done|done|cbn; lia|cbn; unfold readies; lia].
Qed.

Lemma start_call n ev :
  Forall no_read_error ev -> (1 <= readies ev)%nat ->
  free_progress d ts id p ev (call (free_step usable true id) (S (S (S n))) (FreeStart, d, ev)).
Proof.
  intros Herr Hr. assert ((id <? 2) || (database_size d <? id) = false) as Hrange by lia.
  change (S (S (S n))) with (1 + S (S n))%nat. cbn [Nat.add call free_step]. unfold free_start. rewrite Hrange, (free_begin_ok usable d ts HF id p Hid Hnew Hp).
  cbn [mbind Result_bind]. destruct (trunk_cases usable d ts HF) as [H0|[-> (tid & leaves & ts' & Ets)]]; [|by eapply add_call].
  rewrite H0. left. destruct (new_call (S n) ev (add_free_nil usable d ts HF id H0)) as (d' & Hd & HP). exists d', ev. split_and!; [exact Hd|done|done|lia|lia].
Qed.

(** The page is processed, whatever the number of waits. *)
Context (next : Z) (Hnext : sub (as_ptr p) 0 4 = be_split 4 next) (Hu : is_u32 next).
Context (fuel : nat) (first : option Z).

Definition after_page : OverflowState := if negb (next =? 0) then OvReadNext next else OvDone.

#[local] Abbreviation cstep := (clear_step usable (S (S (S fuel))) first).

Lemma processed n : forall fs d0 ev,
  (length ev < n)%nat -> fs = FreeStart /\ d0 = d \/ fs = AddToTrunk id /\ d0 = begun d id p /\ ts <> [] ->
  Forall no_read_error ev -> (1 <= readies ev)%nat ->
  exists d' ev', page_freed usable d ts id d' /\ Forall no_read_error ev' /\ (length ev' <= length ev)%nat /\ (readies ev <= S (readies ev'))%nat /\
    forall m a, run cstep m (after_page, FreeStart, d', ev') = Ok a ->
      run cstep (m + 1 + (length ev - length ev')) (OvProcessPage id, fs, d0, ev) = Ok a.
Proof.
  induction n as [|n IH]; intros fs d0 ev Hn Hst Herr Hr; [lia|].
  assert (exists c, db_pages d0 !! id = Some c /\ as_ptr c = as_ptr p) as (c & Hc & Hcp).
  { destruct Hst as [[-> ->]|(-> & -> & _)]; [by exists p|]. exists (pin (clean p)). split; [apply lookup_insert_eq|done]. }
  assert (free_progress d ts id p ev (free_page usable (S (S (S fuel))) true id (fs, d0, ev))) as HP.
  { destruct Hst as [[-> ->]|(-> & -> & Hts)]; [by apply start_call|]. destruct (trunk_cases usable d ts HF) as [H0|[_ (tid & leaves & ts' & Ets)]]; [|by eapply add_call].
    pose proof (fl_first _ _ _ HF) as Hf. pose proof (fl_range _ _ _ HF) as Hg. destruct ts as [|[tid leaves] ts']; [done|].
    apply Forall_cons_1 in Hg as [Hg _]. cbn in *. lia. }
  assert (read_u32_no_offset (as_ptr p) 0 = Ok next) as Hread. { destruct Hpok. rewrite read_u32_at by lia. rewrite Hnext. by rewrite be32_roundtrip. }
  destruct HP as [(d' & ev' & Hcall & Hfreed & Herr' & Hlen & Hr')|(ev1 & Hcall & Hts & Herr1 & Hlen & Hr1)].
  - exists d', ev'. split_and!; [done|done|done|done|]. intros m a Hrun.
    apply (run_mono _ (S m)); [|lia]. rewrite run_S. cbn [clear_step]. unfold process_page. rewrite Hc. cbn [unwrap mbind Result_bind]. rewrite Hcp, Hread.
    cbn [mbind Result_bind]. rewrite Hcall. exact Hrun.
  - destruct (IH (AddToTrunk id) (begun d id p) ev1) as (d' & ev' & ? & ? & ? & ? & Hrun); [lia|by right|done|lia|].
    exists d', ev'. split_and!; [done|done|lia|lia|]. intros m a Ha. apply (run_mono _ (S (m + 1 + (length ev1 - length ev')))); [|lia].
    rewrite run_S. cbn [clear_step]. unfold process_page. rewrite Hc. cbn [unwrap mbind Result_bind]. rewrite Hcp, Hread.
    cbn [mbind Result_bind]. rewrite Hcall. by apply Hrun.
Qed.
End one.

(** ** The whole chain *)

Section chain.
Context (fuel : nat) (first : option Z) (pending : option Z).
#[local] Abbreviation cstep := (clear_step usable (S (S (S fuel))) first).

(** In state [s] page [id] is to be read. *)
Definition reads (s : OverflowState) (id : Z) : Prop := s = OvReadNext id \/ s = OvStart /\ first = Some id.

Lemma page_read s id d ev :
  reads s id -> 2 <= id <= database_size d -> Forall no_read_error ev -> (1 <= readies ev)%nat ->
  exists ev', Forall no_read_error ev' /\ (length ev' < length ev)%nat /\ (readies ev <= S (readies ev'))%nat /\
    forall m a, run cstep m (OvProcessPage id, FreeStart, d, ev') = Ok a ->
      run cstep (m + (length ev - length ev')) (s, FreeStart, d, ev) = Ok a.
Proof.
  intros Hs Hid. assert (forall ev, cstep (s, FreeStart, d, ev) = read_overflow s id FreeStart d ev) as Hstep by (intros ?; by destruct Hs as [->|[-> ->]]).
  assert (negb (valid_overflow_page_id id (database_size d)) = false) as Hv by (unfold valid_overflow_page_id; lia).
  induction ev as [|e ev IH]; intros Herr Hr; [cbn in Hr; lia|]. apply Forall_cons_1 in Herr as [He Herr].
  destruct e; try done; [|exists ev; split_and!; [done|cbn; lia|cbn; unfold readies; lia|]..].
  1: destruct (IH Herr Hr) as (ev' & ? & ? & ? & Hrun); exists ev'; split_and!; [done|cbn; lia|done|].
  all: intros m a Ha; cbn [length].
  - apply (run_mono _ (S (m + (length ev - length ev')))); [|lia]. rewrite run_S, Hstep. unfold read_overflow. rewrite Hv. by apply Hrun.
  - replace (m + (S (length ev) - length ev))%nat with (S m) by lia. rewrite run_S, Hstep. unfold read_overflow. by rewrite Hv.
  - replace (m + (S (length ev) - length ev))%nat with (S m) by lia. rewrite run_S, Hstep. unfold read_overflow. by rewrite Hv.
Qed.

(** The overflow pages of a cell, each with the number of the next one. *)
Fixpoint overflow_chain (M : gmap Z PageInner) (ids : list Z) : Prop :=
  match ids with
  | [] => True
  | id :: ids' =>
      (exists p, M !! id = Some p /\ sub (as_ptr p) 0 4 = be_split 4 (default 0 (head ids'))) /\ overflow_chain M ids'
  end.

Definition without (M : gmap Z PageInner) (ids : list Z) : gmap Z PageInner := fold_left (fun M id => delete id M) ids M.

Lemma chain_delete M id ids : id ∉ ids -> overflow_chain M ids -> overflow_chain (delete id M) ids.
Proof.
  induction ids as [|i ids IH]; [done|]. intros [Hne Hni]%not_elem_of_cons [(p & Hp & Hn) Hc]. split; [|by apply IH].
  exists p. by rewrite lookup_delete_ne.
Qed.

Lemma chain_cleared ids : forall id s d M ev,
  reads s id -> related usable pending d M -> overflow_chain M (id :: ids) -> NoDup (id :: ids) ->
  Forall no_read_error ev -> (2 * length (id :: ids) <= readies ev)%nat ->
  exists d' ev', run cstep (length ev + length (id :: ids) + 1) (s, FreeStart, d, ev) = Ok (d', ev') /\ related usable pending d' (without M (id :: ids)).
Proof.
  induction ids as [|id2 ids IH]; intros id s d M ev Hs [ts HR] [(p & Hp & Hnext) Hc] [Hni Hnd]%NoDup_cons Herr Hr; cbn [length] in Hr;
    destruct (h_owned _ _ _ _ _ HR id p Hp) as [Hid Hd];
    assert (page_ok usable p) as Hok by (destruct (fl_pages _ _ _ (h_list _ _ _ _ _ HR) id) as (p' & Hp' & ?); [lia|]; rewrite Hd in Hp'; by injection Hp' as <-);
    assert (id ∉ free_ids ts) as Hnf by (intros Hi; rewrite (h_free _ _ _ _ _ HR id Hi) in Hp; done);
    destruct (page_read s id d ev Hs Hid Herr) as (ev1 & Herr1 & Hl1 & Hr1 & Hrun1); try lia;
    cbn [head default] in Hnext.
  - destruct (processed d ts (h_list _ _ _ _ _ HR) id p Hid Hnf Hd Hok 0 Hnext ltac:(unfold is_u32; lia) fuel first (S (length ev1)) FreeStart d ev1)
      as (d' & ev' & HP & _ & Hl & _ & Hrun); [lia|by left|done|lia|].
    exists d', ev'. split; [|by eapply holds_freed]. eapply run_mono; [apply Hrun1, (Hrun 1%nat)|cbn; lia]. done.
  - destruct Hc as [(p2 & Hp2 & Hn2) Hc]. destruct (h_owned _ _ _ _ _ HR id2 p2 Hp2) as [Hid2 _]. pose proof (fl_size _ _ _ (h_list _ _ _ _ _ HR)) as Hsz.
    destruct (processed d ts (h_list _ _ _ _ _ HR) id p Hid Hnf Hd Hok id2 Hnext ltac:(unfold is_u32, u32_max in *; lia) fuel first (S (length ev1)) FreeStart d ev1)
      as (d1 & ev2 & HP & Herr2 & Hl & Hr2 & Hrun); [lia|by left|done|lia|].
    assert (after_page id2 = OvReadNext id2) as Ha by (unfold after_page; destruct (Z.eqb_spec id2 0); [lia|done]). rewrite Ha in Hrun.
    destruct (IH id2 (OvReadNext id2) d1 (delete id M) ev2) as (d' & ev' & Hrest & HR'); [by left|by eapply holds_freed| |done|done|cbn [length] in *; lia|].
    { apply chain_delete; [done|]. split; [by exists p2|done]. }
    exists d', ev'. split; [|done]. eapply run_mono; [apply Hrun1, Hrun, Hrest|cbn [length] in *; lia].
Qed.
End chain.
End clear_ok.

(** The calls of the users until the pages are free. *)
Fixpoint clear_calls (usable : Z) (n fuel : nat) (first : option Z) (st : clear_state) : Result cleared :=
  match n with
  | O => Panic
  | S n =>
      r ← clear_overflow_pages usable fuel first st;
      match r with inl a => Ok a | inr st => clear_calls usable n fuel first st end
  end.

Lemma clear_calls_eq usable n fuel first st : clear_calls usable n fuel (Some first) st = calls (clear_step usable fuel (Some first)) n fuel st.
Proof.
  revert st. induction n as [|n IH]; intros st; [done|]. cbn [clear_calls calls clear_overflow_pages].
  destruct (call _ _ _) as [[|st']| |]; cbn [mbind Result_bind]; [done|apply IH|done|done].
Qed.

(** C15: clearing the overflow pages of a cell frees exactly the pages of its
    chain: afterwards these pages are in the freelist, every other page in use
    is unchanged and still in use, and the calls end, however often they have
    to wait for a page of the chain or for a trunk page, also when such a wait
    is inside of [free_page]. *)
Theorem overflow_pages_freed usable pending fuel n ids d M ev :
  480 <= usable <= 65536 -> related usable pending d M -> overflow_chain M ids -> NoDup ids ->
  Forall no_read_error ev -> (2 * length ids <= readies ev)%nat ->
  (length ev + length ids + 3 <= fuel)%nat -> (length ev + length ids + 3 <= n)%nat ->
  exists d' ev', clear_calls usable n fuel (head ids) (OvStart, FreeStart, d, ev) = Ok (d', ev') /\
    related usable pending d' (without M ids).
Proof.
  intros Hu HR Hc Hnd Herr Hr Hf Hn. destruct ids as [|id ids].
  - destruct n as [|n]; [lia|]. by exists d, ev.
  - destruct fuel as [|[|[|fuel]]]; [lia..|].
    destruct (chain_cleared usable Hu fuel (Some id) pending ids id OvStart d M ev) as (d' & ev' & Hrun & HR'); try done; [by right|].
    exists d', ev'. split; [|done]. cbn [head]. rewrite clear_calls_eq. apply (run_calls _ _ _ _ _ _ Hrun); cbn [length] in *; lia.
Qed.

(** A database with a cell on pages 3 and 4, page 2 and page 5. *)
Definition linked (id next : Z) : PageInner := set_buffer (blank id) (splice (replicate 512 0) 0 (be_split 4 next)).
Definition used_pages : gmap Z PageInner := {[2 := blank 2; 3 := linked 3 4; 4 := linked 4 0; 5 := blank 5]}.
Definition used_db : db := mkDb 5 0 0 (<[1 := blank 1]> used_pages).

Lemma used_related : related 512 None used_db used_pages.
Proof.
  assert (forall q, 2 <= q <= 5 -> q = 2 \/ q = 3 \/ q = 4 \/ q = 5) as Hq by lia.
  exists []. constructor; [constructor|..]; cbn [used_db database_size db_pages freelist_trunk_page freelist_pages]; try done; try (intros ? Hi; by apply not_elem_of_nil in Hi).
  - constructor.
  - intros q Hr. destruct (decide (q = 1)) as [->|]; [exists (blank 1); split; [done|by split]|].
    destruct (Hq q ltac:(lia)) as [->|[->|[->| ->]]]; eexists; (split; [vm_compute; reflexivity|by split]).
  - intros ? ? Hi. by apply not_elem_of_nil in Hi.
  - intros q p Hp. unfold used_pages in *. rewrite !lookup_insert_Some, lookup_singleton_Some in Hp.
    destruct Hp as [[<- <-]|[_ [[<- <-]|[_ [[<- <-]|[_ [<- <-]]]]]]]; (split; [lia|vm_compute; reflexivity]).
  - intros q Hr. left. destruct (Hq q Hr) as [->|[->|[->| ->]]]; eexists; vm_compute; reflexivity.
Qed.

Lemma overflow_pages_freed_witness :
  exists d' ev', clear_calls 512 20 20 (Some 3) (OvStart, FreeStart, used_db, [ReadSpill; ReadReady; ReadReady; ReadWait; ReadReady; ReadWait; ReadReady]) = Ok (d', ev') /\
    related 512 None d' (without used_pages [3; 4]).
Proof.
  apply (overflow_pages_freed 512 None 20 20 [3; 4] used_db used_pages [ReadSpill; ReadReady; ReadReady; ReadWait; ReadReady; ReadWait; ReadReady]);
    [lia|exact used_related| | |repeat constructor|cbn; lia|cbn; lia|cbn; lia].
  - split; [exists (linked 3 4); split; vm_compute; reflexivity|]. split; [exists (linked 4 0); split; vm_compute; reflexivity|done].
  - repeat constructor; set_solver.
Defined.
