(* ===== verification/OverflowCycle.v ===== *)
(** * OverflowCycle: an overflow chain that runs in a circle

    [clear_overflow_pages] of core/storage/btree.rs checks of each page of a chain
    only that its number is in range.  This file follows it over the chain of a corrupt
    cell whose last page leads back to the first one: the first page becomes the trunk
    of the freelist and, when it is reached again, one of its own leaves. *)

From stdpp Require Import gmap.
From S2P Require Import Prelude Resume Varint OnDisk Page BtreePage BtreeSpace BtreePayload Freelist Allocator OverflowFree.

(** Pages each of which names the next one, the last one [target]. *)
Fixpoint linked_to (M : gmap Z PageInner) (ids : list Z) (target : Z) : Prop :=
  match ids with
  | [] => True
  | id :: ids' =>
      (exists p, M !! id = Some p /\ sub (as_ptr p) 0 4 = be_split 4 (default target (head ids'))) /\ linked_to M ids' target
  end.

Lemma linked_to_ext M M' ids target : (forall q, q ∈ ids -> M' !! q = M !! q) -> linked_to M ids target -> linked_to M' ids target.
Proof.
  induction ids as [|id ids IH]; [done|]. intros Hs [(p & Hp & Hn) Hl]. split; [exists p; rewrite Hs; [done|left]|].
  apply IH; [|done]. intros q Hq. apply Hs. by right.
Qed.

(** A freelist of one trunk, whose leaves may contain the trunk. *)
Record one_trunk (usable : Z) (d : db) (id : Z) (leaves : list Z) : Prop := mkOneTrunk {
  ot_first : freelist_trunk_page d = id;
  ot_trunk : exists t, db_pages d !! id = Some t /\ trunk_is usable t 0 leaves /\ pin_count t + 1 < u64_max;
  ot_count : freelist_pages d = lenZ leaves + 1;
  ot_range : Forall (fun q => 2 <= q <= database_size d) (id :: leaves);
  ot_size : 1 <= database_size d <= u32_max;
  ot_clean : forall q r, q ∈ id :: leaves -> db_pages d !! q = Some r -> overflow_cells r = [];
  ot_pages : forall q, 1 <= q <= database_size d -> exists r, db_pages d !! q = Some r /\ page_ok usable r
}.

Section cycle.
Context (usable : Z) (Husable : 480 <= usable <= 65536) (fuel : nat) (id : Z).
#[local] Abbreviation cstep := (clear_step usable (S (S (S fuel))) (Some id)).

(** ** The pages of the circle, once *)

(** A page that is not free is read and freed. *)
Lemma page_done q s d ts ev next :
  reads (Some id) s q -> free_list usable d ts -> 2 <= q <= database_size d -> q ∉ free_ids ts ->
  (exists p, db_pages d !! q = Some p /\ sub (as_ptr p) 0 4 = be_split 4 next) -> 2 <= next <= database_size d ->
  Forall no_read_error ev -> (2 <= readies ev)%nat ->
  exists d' ev', page_freed usable d ts q d' /\ Forall no_read_error ev' /\ (length ev' <= length ev)%nat /\ (readies ev <= 2 + readies ev')%nat /\
    forall m a, run cstep m (OvReadNext next, FreeStart, d', ev') = Ok a -> run cstep (m + 1 + (length ev - length ev')) (s, FreeStart, d, ev) = Ok a.
Proof.
  intros Hs HF Hq Hnf (p & Hp & Hnext) Hn Herr Hr. pose proof (fl_size _ _ _ HF) as Hsz.
  assert (page_ok usable p) as Hok by (destruct (fl_pages _ _ _ HF q ltac:(lia)) as (p' & Hp' & ?); congruence).
  destruct (page_read usable fuel (Some id) s q d ev Hs Hq Herr ltac:(lia)) as (ev1 & Herr1 & Hl1 & Hr1 & Hrun1).
  destruct (processed usable Husable d ts HF q p Hq Hnf Hp Hok next Hnext ltac:(unfold is_u32, u32_max in *; lia) fuel (Some id) (S (length ev1)) FreeStart d ev1)
    as (d' & ev' & HP & Herr' & Hl & Hr' & Hrun); [lia|by left|done|lia|].
  exists d', ev'. split_and!; [done|done|lia|lia|]. intros m a Ha.
  assert (after_page next = OvReadNext next) as E by (unfold after_page; destruct (Z.eqb_spec next 0); [lia|done]). rewrite E in Hrun.
  eapply run_mono; [apply Hrun1, Hrun, Ha|lia].
Qed.

Lemma pins_trans d1 d2 d3 : pins_kept d1 d2 -> pins_kept d2 d3 -> pins_kept d1 d3.
Proof. intros H1 H2 q r Hr. destruct (H1 q r Hr) as (r' & Hr' & E). destruct (H2 q r' Hr') as (r'' & Hr'' & E'). exists r''. split; [done|congruence]. Qed.

(** The pages after the first one become leaves of it. *)
Lemma rest_freed ids : forall q s d L ev,
  reads (Some id) s q -> free_list usable d [(id, L)] -> linked_to (db_pages d) (q :: ids) id -> NoDup (q :: ids) ->
  Forall (fun x => 2 <= x <= database_size d /\ x ∉ id :: L) (q :: ids) -> lenZ L + lenZ (q :: ids) <= max_leaves usable ->
  Forall no_read_error ev -> (2 * length (q :: ids) <= readies ev)%nat ->
  exists d' ev', free_list usable d' [(id, L ++ q :: ids)] /\ database_size d' = database_size d /\ pins_kept d d' /\
    Forall no_read_error ev' /\ (length ev' <= length ev)%nat /\ (readies ev <= 2 * length (q :: ids) + readies ev')%nat /\
    forall m a, run cstep m (OvReadNext id, FreeStart, d', ev') = Ok a ->
      run cstep (m + length (q :: ids) + (length ev - length ev')) (s, FreeStart, d, ev) = Ok a.
Proof.
  induction ids as [|q2 ids IH]; intros q s d L ev Hs HF [Hlink Hrest] [Hni Hnd]%NoDup_cons Hout Hmax Herr Hr; cbn [length] in Hr;
    rewrite lenZ_cons in Hmax; apply Forall_cons in Hout as [[Hq Hqf] Hout].
  all: assert (q ∉ free_ids [(id, L)]) as Hnf by (cbn; by rewrite app_nil_r).
  all: assert (2 <= id <= database_size d) as Hid by (pose proof (fl_range _ _ _ HF) as Hg; apply Forall_cons_1 in Hg as [Hg _]; exact Hg).
  all: assert (add_free usable [(id, L)] q = [(id, L ++ [q])]) as Ea by (unfold add_free; rewrite (proj2 (Z.ltb_lt _ _)); [done|]; clear -Hmax; unfold lenZ in *; lia).
  - destruct (page_done q s d _ ev id Hs HF Hq Hnf Hlink Hid Herr ltac:(lia)) as (d' & ev' & (Hsz & HF' & _ & Hpins) & Herr' & Hl & Hr' & Hrun).
    rewrite Ea in HF'. exists d', ev'. split_and!; [done|done|done|done|done|cbn; lia|]. exact Hrun.
  - apply Forall_cons in Hout as [[Hq2 Hq2f] Hout'].
    destruct (page_done q s d _ ev q2 Hs HF Hq Hnf Hlink Hq2 Herr ltac:(lia)) as (d1 & ev1 & (Hsz & HF1 & Hsame & Hpins) & Herr1 & Hl1 & Hr1 & Hrun1).
    rewrite Ea in HF1. rewrite lenZ_cons in Hmax.
    assert (forall x, x ∈ q2 :: ids -> x ∉ id :: (L ++ [q])) as Hnew.
    { intros x Hx. assert (x ∉ id :: L) as Hxf. { apply elem_of_cons in Hx as [->|Hx]; [done|]. rewrite Forall_forall in Hout'. by apply Hout'. }
      intros [->|[Hx'|Hx']%elem_of_app]%elem_of_cons; [apply Hxf; left|apply Hxf; by right|]. apply list_elem_of_singleton in Hx' as ->. done. }
    destruct (IH q2 (OvReadNext q2) d1 (L ++ [q]) ev1) as (d' & ev' & HF' & Hsz' & Hpins' & Herr' & Hl' & Hr' & Hrun'); [by left|done| |done| | |done|cbn [length] in *; lia|].
    + eapply linked_to_ext; [|exact Hrest]. intros x Hx. apply Hsame; [intros ->; done|]. cbn. rewrite app_nil_r.
      intros Hxf. apply (Hnew x Hx). apply elem_of_cons in Hxf as [->|Hxf]; [left|right; by apply elem_of_app; left].
    + rewrite Forall_forall in Hout' |- *. intros x Hx. split; [|by apply Hnew]. rewrite Hsz. apply elem_of_cons in Hx as [->|Hx]; [done|]. by apply Hout'.
    + rewrite lenZ_app, lenZ_cons. unfold lenZ in *. cbn. lia.
    + rewrite <- app_assoc in HF'. exists d', ev'. split_and!; [done|congruence|by eapply pins_trans|done|lia|cbn [length] in *; lia|].
      intros m a Ha. eapply run_mono; [apply Hrun1, Hrun', Ha|cbn [length] in *; lia].
Qed.

(** ** The first page again *)

Section again.
Context (d : db) (L : list Z) (p : PageInner) (HF : free_list usable d [(id, L)]) (Hp : db_pages d !! id = Some p) (HL : lenZ L < max_leaves usable).

(** The state when the page is a leaf of itself. *)
Definition twice_free : db := mkDb (database_size d) id (freelist_pages d + 1) (<[id := push_leaf (clean p) (lenZ L) id]> (db_pages d)).

Lemma trunk_of : page_ok usable p /\ trunk_is usable p 0 L /\ overflow_cells p = [] /\ 2 <= id <= database_size d /\ freelist_trunk_page d = id /\ freelist_pages d = lenZ L + 1.
Proof.
  pose proof HF as []. destruct fl_trunks as [(t & Ht & Hok & Htr) _]. rewrite Hp in Ht. injection Ht as <-.
  apply Forall_cons_1 in fl_range as [Hr _]. cbn in Hr. split_and!; [done|done| |lia|lia|done|].
  - eapply fl_clean; [|exact Hp]. left.
  - rewrite fl_count. cbn. by rewrite app_nil_r, lenZ_cons.
Qed.

Lemma add_again ev : add_to_trunk usable id id (begun d id p) ev = Ok (Finish (twice_free, ev)).
Proof.
  destruct trunk_of as (Hok & Htr & _ & Hid & Hfirst & _). pose proof (fl_size _ _ _ HF) as Hsz.
  destruct (max_leaves_u32 usable Husable) as [Hmx H2]. assert (page_ok usable (clean p)) as Hcok by done. assert (trunk_is usable (clean p) 0 L) as Hctr by (destruct Htr; by constructor).
  pose proof (lenZ_nonneg L). pose proof (be_split_lenZ 4 (lenZ L + 1)). assert (4 * (usable / 4) <= usable) by (apply Z.mul_div_le; lia). pose proof Hcok as [Hl _].
  unfold add_to_trunk. cbn [begun freelist_trunk_page db_pages]. rewrite Hfirst, lookup_insert_eq. cbn [unwrap mbind Result_bind].
  unfold FREELIST_TRUNK_OFFSET_LEAF_COUNT, FREELIST_LEAF_PTR_SIZE, FREELIST_TRUNK_OFFSET_FIRST_LEAF_PTR. change (as_ptr (pin (clean p))) with (as_ptr (clean p)).
  rewrite (read_count usable Husable _ _ _ Hcok Hctr). cbn [mbind Result_bind]. unfold checked_sub. destruct (Z.leb_spec 2 (usable / 4)); [|lia]. cbn [mbind Result_bind].
  rewrite Hmx, (proj2 (Z.ltb_lt _ _) HL).
  set (t1 := set_buffer (clean p) (splice (as_ptr (clean p)) 4 (be_split 4 (lenZ L + 1)))).
  assert (lenZ (as_ptr t1) = lenZ (as_ptr (clean p))) as Hl1 by (unfold t1; rewrite as_ptr_set, lenZ_splice; lia).
  rewrite (with_page_ok _ id (pin (clean p)) (pin t1)); [|apply lookup_insert_eq|apply write_u32_pinned; lia]. cbn [mbind Result_bind].
  assert (u32 id = id) as -> by (unfold u32, u32_max in *; apply Z.mod_small; lia).
  rewrite (with_page_ok _ id (pin t1) (pin (push_leaf (clean p) (lenZ L) id))); [|apply lookup_insert_eq|].
  2: { apply (write_u32_pinned (8 + lenZ L * 4) id t1); [lia|]. unfold max_leaves in HL. lia. }
  cbn [mbind Result_bind]. destruct (push_leaf_ok usable Husable _ _ _ id Hcok Hctr HL) as [Hpok _].
  rewrite (with_page_ok _ id (pin (push_leaf (clean p) (lenZ L) id)) (push_leaf (clean p) (lenZ L) id)); [|apply lookup_insert_eq|by apply (pin_unpin usable)].
  cbn [mbind Result_bind]. unfold set_page, twice_free, begun. cbn [freelist_trunk_page database_size db_pages freelist_pages]. by rewrite !insert_insert_eq, Hfirst.
Qed.

(** One call of [free_page]. *)
Lemma again_call n fs d0 ev :
  fs = FreeStart /\ d0 = d \/ fs = AddToTrunk id /\ d0 = begun d id p -> Forall no_read_error ev -> (1 <= readies ev)%nat ->
  exists ev', Forall no_read_error ev' /\ (length ev' < length ev)%nat /\
    (call (free_step usable true id) (S (S (S n))) (fs, d0, ev) = Ok (inl (twice_free, ev')) \/
     call (free_step usable true id) (S (S (S n))) (fs, d0, ev) = Ok (inr (AddToTrunk id, begun d id p, ev')) /\ readies ev' = readies ev).
Proof.
  intros Hst Herr Hr. destruct trunk_of as (_ & _ & _ & Hid & Hfirst & Hcount).
  assert (exists k, call (free_step usable true id) (S (S (S n))) (fs, d0, ev) = call (free_step usable true id) (S (S k)) (AddToTrunk id, begun d id p, ev)) as (k & ->).
  { destruct Hst as [[-> ->]|[-> ->]]; [|by exists (S n)]. exists n. change (S (S (S n))) with (1 + S (S n))%nat. cbn [Nat.add call free_step]. unfold free_start.
    assert ((id <? 2) || (database_size d <? id) = false) as -> by lia. rewrite (free_begin_at d id p Hp).
    2: { pose proof HF as []. assert (lenZ (id :: L) <= database_size d - 2 + 1) as Hc; [|rewrite lenZ_cons in Hc; unfold u32_max in *; lia].
         cbn in fl_nodup, fl_range. rewrite app_nil_r in fl_nodup, fl_range. apply range_count; [done|done|lia]. }
    cbn [mbind Result_bind]. rewrite Hfirst, (proj2 (Z.eqb_neq id 0)) by lia. done. }
  destruct ev as [|e ev]; [cbn in Hr; lia|]. apply Forall_cons_1 in Herr as [He Herr]. exists ev. split_and!; [done|cbn; lia|].
  cbn [call free_step]. destruct e; try done; [by right| |by right]. left. by rewrite add_again.
Qed.

(** The page is processed a second time, and the chain ends there. *)
Lemma again_processed n : forall fs d0 ev,
  (length ev < n)%nat -> fs = FreeStart /\ d0 = d \/ fs = AddToTrunk id /\ d0 = begun d id p -> Forall no_read_error ev -> (1 <= readies ev)%nat ->
  exists ev', run cstep (2 + length ev) (OvProcessPage id, fs, d0, ev) = Ok (twice_free, ev').
Proof.
  induction n as [|n IH]; intros fs d0 ev Hn Hst Herr Hr; [lia|]. destruct trunk_of as (Hok & Htr & _).
  assert (exists c, db_pages d0 !! id = Some c /\ as_ptr c = as_ptr p) as (c & Hc & Hcp).
  { destruct Hst as [[-> ->]|[-> ->]]; [by exists p|]. exists (pin (clean p)). split; [apply lookup_insert_eq|done]. }
  assert (read_u32_no_offset (as_ptr p) 0 = Ok 0) as Hread by (destruct Hok; rewrite read_u32_at, (tk_next _ _ _ _ Htr) by lia; reflexivity).
  destruct (again_call fuel fs d0 ev Hst Herr Hr) as (ev1 & Herr1 & Hl1 & Hcall).
  assert (forall m, run cstep (S m) (OvProcessPage id, fs, d0, ev) =
    match call (free_step usable true id) (S (S (S fuel))) (fs, d0, ev) with
    | Ok (inl (d', ev')) => run cstep m (OvDone, FreeStart, d', ev')
    | Ok (inr (fs', d', ev')) => run cstep m (OvProcessPage id, fs', d', ev')
    | Err e => Err e | Panic => Panic end) as Hstep.
  { intros m. rewrite run_S. cbn [clear_step]. unfold process_page. rewrite Hc. cbn [unwrap mbind Result_bind]. rewrite Hcp, Hread. cbn [mbind Result_bind]. unfold free_page.
    destruct (call _ _ _) as [[[d' ev']|[[fs' d'] ev']]| |]; done. }
  change (2 + length ev)%nat with (S (1 + length ev)). rewrite Hstep. destruct Hcall as [->|[-> Hr1]].
  - exists ev1. done.
  - destruct (IH (AddToTrunk id) (begun d id p) ev1) as (ev' & Hrun); [lia|by right|done|lia|]. exists ev'. eapply run_mono; [exact Hrun|lia].
Qed.

(** The freelist is one trunk again. *)
Lemma twice_free_trunk : pin_count p + 1 < u64_max -> one_trunk usable twice_free id (L ++ [id]).
Proof.
  intros Hpin. destruct trunk_of as (Hok & Htr & Hov & Hid & Hfirst & Hcount). pose proof HF as [].
  assert (trunk_is usable (clean p) 0 L) as Hctr by (destruct Htr; by constructor).
  destruct (push_leaf_ok usable Husable (clean p) _ _ id Hok Hctr HL) as [Hpok Hptr]. cbn in fl_range. rewrite app_nil_r in fl_range.
  constructor; cbn [twice_free freelist_trunk_page database_size db_pages freelist_pages]; [done| | | |done| |].
  - eexists. split; [apply lookup_insert_eq|]. done.
  - rewrite lenZ_app. unfold lenZ in *. cbn. lia.
  - apply Forall_cons in fl_range as [Hr Hrs]. constructor; [done|]. apply Forall_app. split; [done|by constructor].
  - intros q r Hq Hr. destruct (decide (q = id)) as [->|Hqi]; [rewrite lookup_insert_eq in Hr; by injection Hr as <-|].
    rewrite lookup_insert_ne in Hr by done. eapply fl_clean; [|exact Hr]. cbn. rewrite app_nil_r.
    apply elem_of_cons in Hq as [?|[Hq|Hq]%elem_of_app]; [done|by right|by apply list_elem_of_singleton in Hq].
  - intros q Hq. destruct (decide (q = id)) as [->|Hqi]; [rewrite lookup_insert_eq; by eexists|]. rewrite lookup_insert_ne by done. by apply fl_pages.
Qed.
End again.

(** The whole circle. *)
Lemma circle_cleared d ids p ev :
  free_list usable d [] -> id ∉ ids -> NoDup ids -> 2 <= id <= database_size d -> Forall (fun q => 2 <= q <= database_size d) ids ->
  (exists p, db_pages d !! id = Some p /\ sub (as_ptr p) 0 4 = be_split 4 (default id (head ids))) -> linked_to (db_pages d) ids id ->
  db_pages d !! id = Some p -> lenZ ids < max_leaves usable -> Forall no_read_error ev -> (2 * length ids + 4 <= readies ev)%nat ->
  exists d1 p1 ev', free_list usable d1 [(id, ids)] /\ db_pages d1 !! id = Some p1 /\ pin_count p1 = pin_count p /\
    run cstep (length ev + length ids + 4) (OvStart, FreeStart, d, ev) = Ok (twice_free d1 ids p1, ev').
Proof.
  intros HF Hni Hnd Hid Hids Hlink Hrest Hp HL Herr Hr.
  assert (2 <= default id (head ids) <= database_size d) as Hn0 by (destruct ids; [done|]; by apply Forall_cons in Hids as [? _]).
  destruct (page_done id OvStart d [] ev _ ltac:(by right) HF Hid ltac:(apply not_elem_of_nil) Hlink Hn0 Herr ltac:(lia))
    as (d0 & ev0 & (Hsz & HF0 & Hsame & Hpins) & Herr0 & Hl0 & Hr0 & Hrun0). cbn [add_free] in HF0.
  assert (exists d1 ev1, free_list usable d1 [(id, ids)] /\ pins_kept d0 d1 /\ Forall no_read_error ev1 /\ (length ev1 <= length ev0)%nat /\
    (readies ev0 <= 2 * length ids + readies ev1)%nat /\
    forall m a, run cstep m (OvReadNext id, FreeStart, d1, ev1) = Ok a -> run cstep (m + length ids + (length ev0 - length ev1)) (OvReadNext (default id (head ids)), FreeStart, d0, ev0) = Ok a)
    as (d1 & ev1 & HF1 & Hpins1 & Herr1 & Hl1 & Hr1 & Hrun1).
  { destruct ids as [|q ids].
    - exists d0, ev0. split_and!; [done|intros q r ?; by exists r|done|lia|cbn; lia|]. intros m a Ha. eapply run_mono; [exact Ha|lia].
    - destruct (rest_freed ids q (OvReadNext q) d0 [] ev0) as (d1 & ev1 & HF1 & _ & Hpins1 & Herr1 & Hl1 & Hr1 & Hrun1);
        [by left|done| |done| |unfold lenZ in *; cbn in *; lia|done|cbn [length] in *; lia|by exists d1, ev1].
      + eapply linked_to_ext; [|exact Hrest]. intros x Hx. apply Hsame; [intros ->; done|apply not_elem_of_nil].
      + rewrite Hsz. rewrite Forall_forall in Hids |- *. intros x Hx. split; [by apply Hids|]. intros Hx'. apply list_elem_of_singleton in Hx' as ->. done. }
  destruct (Hpins id p Hp) as (p0 & Hp0 & E0). destruct (Hpins1 id p0 Hp0) as (p1 & Hp1 & E1).
  destruct (trunk_of d1 ids p1 HF1 Hp1) as (_ & _ & _ & Hid1 & _).
  destruct (page_read usable fuel (Some id) (OvReadNext id) id d1 ev1) as (ev2 & Herr2 & Hl2 & Hr2 & Hrun2); [by left|done|done|lia|].
  destruct (again_processed d1 ids p1 HF1 Hp1 HL (S (length ev2)) FreeStart d1 ev2) as (ev' & Hrun'); [lia|by left|done|lia|].
  exists d1, p1, ev'. split_and!; [done|done|congruence|]. eapply run_mono; [apply Hrun0, Hrun1, Hrun2, Hrun'|lia].
Qed.
End cycle.

(** ** Allocating from that freelist *)

Section reallocate.
Context (usable : Z) (Husable : 480 <= usable <= 65536) (pending : option Z) (max_pages : Z) (new_page : Z -> PageInner).
#[local] Abbreviation step := (alloc_step pending max_pages new_page).

(** The trunk is read, and then its first leaf. *)
Lemma first_leaf d id leaf leaves t l m a :
  one_trunk usable d id (leaf :: leaves) -> db_pages d !! id = Some t -> <[id := pin t]> (db_pages d) !! leaf = Some l -> trunk_is usable t 0 (leaf :: leaves) ->
  run step m (ReuseFreelistLeaf id leaf (lenZ (leaf :: leaves)), pinned d (<[leaf := pin l]> (<[id := pin t]> (db_pages d))), []) = Ok a ->
  run step (S (S m)) (AllocStart, d, [ReadReady; ReadReady]) = Ok a.
Proof.
  intros [] Ht Hl Htr Hrun. apply Forall_cons in ot_range0 as [Hid [Hleaf _]%Forall_cons].
  destruct (ot_pages0 id ltac:(lia)) as (t' & Ht' & Htok). rewrite Ht in Ht'. injection Ht' as <-.
  rewrite run_S. cbn [alloc_step]. unfold alloc_start. rewrite ot_first0, (proj2 (Z.eqb_neq id 0)) by lia.
  cbn [with_read]. rewrite (with_page_ok d id t (pin t)) by done. cbn [mbind Result_bind]. rewrite run_S. cbn [alloc_step].
  change (set_page d id (pin t)) with (pinned d (<[id := pin t]> (db_pages d))).
  rewrite (search_leaf usable Husable d id leaf leaves 0 t l) by (done || lia). exact Hrun.
Qed.

Lemma alloc_leaf d id leaf leaves :
  one_trunk usable d id (leaf :: leaves) -> leaf <> id ->
  exists d', exec_alloc pending max_pages new_page d [ReadReady; ReadReady] = Ok (leaf, d') /\ one_trunk usable d' id leaves.
Proof.
  intros Ho Hne. pose proof Ho as []. destruct ot_trunk0 as (t & Ht & Htr & Hpin). pose proof ot_range0 as [Hid [Hleaf Hls]%Forall_cons]%Forall_cons.
  destruct (ot_pages0 id ltac:(lia)) as (t' & Ht' & Htok). rewrite Ht in Ht'. injection Ht' as <-.
  destruct (ot_pages0 leaf ltac:(lia)) as (l & Hl & Hlok). pose proof (lenZ_nonneg leaves). rewrite lenZ_cons in ot_count0.
  assert (overflow_cells l = []) as Hlov by (eapply ot_clean0; [right; left|done]).
  destruct (reuse_pages usable Husable d id leaf leaves 0 t l [] Hne Htok Htr Hlok Hlov ltac:(lia)) as (pages' & Hre & Hsame & Hz & Hpt).
  destruct (pop_leaf_ok usable Husable t _ _ _ Htok Htr) as [Hpok Hptr].
  exists (taken d pages' (freelist_trunk_page d)). split.
  - unfold exec_alloc. rewrite (run_calls _ 3 _ (leaf, taken d pages' (freelist_trunk_page d), [])); [done| |cbn; lia|cbn; lia].
    apply (first_leaf d id leaf leaves t l 1); [done|done|by rewrite lookup_insert_ne|done|]. rewrite run_S. cbn [alloc_step]. by rewrite Hre.
  - constructor; cbn [taken freelist_trunk_page database_size db_pages freelist_pages]; [done|by eexists|lia|by constructor|done| |].
    + intros q r Hq Hr. destruct (decide (q = id)) as [->|Hqi]; [rewrite Hpt in Hr; injection Hr as <-; by apply (ot_clean0 id t ltac:(left))|].
      destruct (decide (q = leaf)) as [->|Hql]; [rewrite Hz in Hr; by injection Hr as <-|].
      rewrite Hsame in Hr by done. eapply ot_clean0; [|exact Hr]. apply elem_of_cons in Hq as [?|?]; [done|by right; right].
    + intros q Hq. destruct (decide (q = id)) as [->|Hqi]; [by eexists|]. destruct (decide (q = leaf)) as [->|Hql]; [eexists; split; [done|by apply zeroed]|].
      rewrite Hsame by done. by apply ot_pages0.
Qed.

(** The trunk is its own leaf. *)
Lemma alloc_self d id :
  one_trunk usable d id [id] ->
  exists d', exec_alloc pending max_pages new_page d [ReadReady; ReadReady] = Ok (id, d') /\ one_trunk usable d' id [].
Proof.
  intros Ho. pose proof Ho as []. destruct ot_trunk0 as (t & Ht & Htr & Hpin). pose proof ot_range0 as [Hid _]%Forall_cons.
  destruct (ot_pages0 id ltac:(lia)) as (t' & Ht' & Htok). rewrite Ht in Ht'. injection Ht' as <-. pose proof Htok as [Htl Htp].
  change (lenZ [id]) with 1 in *. assert (overflow_cells t = []) as Hov by (eapply ot_clean0; [left|done]).
  set (z := set_buffer (fill_zero t) (splice (as_ptr (fill_zero t)) 4 (be_split 4 0))).
  pose proof (zeroed usable t Htok) as Hzok. pose proof Hzok as [Hzl _]. pose proof (be_split_lenZ 4 0).
  assert (page_ok usable z) as Hok by (split; [unfold z; rewrite as_ptr_set, lenZ_splice; lia|done]).
  assert (page_ok usable (pin z)) as Hpok by (split; [apply Hok|]; cbn [pin z set_pins pin_count set_buffer fill_zero]; unfold u64, u64_max in *; rewrite Z.mod_small; lia).
  exists (mkDb (database_size d) id 1 (<[id := z]> (db_pages d))). split.
  - unfold exec_alloc. rewrite (run_calls _ 3 _ (id, mkDb (database_size d) id 1 (<[id := z]> (db_pages d)), [])); [done| |cbn; lia|cbn; lia].
    apply (first_leaf d id id [] t (pin t) 1); [done|done|apply lookup_insert_eq|done|]. rewrite run_S. cbn [alloc_step].
    unfold alloc_reuse, pinned. cbn [db_pages]. rewrite lookup_insert_eq. cbn [unwrap mbind Result_bind].
    change (overflow_cells (pin (pin t))) with (overflow_cells t). rewrite bool_decide_eq_true_2 by done. cbn [or_corrupt mbind Result_bind].
    rewrite (with_page_ok _ id (pin (pin t)) (pin (pin (fill_zero t)))); [|apply lookup_insert_eq|done]. cbn [mbind Result_bind].
    change (lenZ [id]) with 1. unfold checked_sub at 1. change (1 <=? 1) with true. cbn [mbind Result_bind].
    rewrite (with_page_ok _ id (pin (pin (fill_zero t))) (pin (pin (fill_zero t)))); [|apply lookup_insert_eq|].
    2: { change (as_ptr (pin (pin (fill_zero t)))) with (as_ptr (fill_zero t)). unfold FREELIST_TRUNK_OFFSET_FIRST_LEAF_PTR, FREELIST_LEAF_PTR_SIZE. cbv zeta.
         rewrite copy_within_splice by lia. cbn [mbind Result_bind].
         match goal with |- context [sub ?b ?i ?n] => change (sub b i n) with (@nil Z) end. unfold splice. rewrite Nat.add_0_r, app_nil_l, take_drop. done. }
    cbn [mbind Result_bind]. change (u32 (1 - 1)) with 0.
    rewrite (with_page_ok _ id (pin (pin (fill_zero t))) (pin (pin z))); [|apply lookup_insert_eq|apply (write_u32_pinned 4 0 (pin (fill_zero t))); [lia|]].
    2: { change (as_ptr (pin (fill_zero t))) with (as_ptr (fill_zero t)). lia. }
    cbn [mbind Result_bind]. unfold take_one_free, checked_sub, set_page. cbn [freelist_pages database_size freelist_trunk_page db_pages]. rewrite ot_count0.
    change (1 <=? 1 + 1) with true. change (1 + 1 - 1) with 1. cbn [mbind Result_bind].
    rewrite (with_page_ok _ id (pin (pin z)) (pin z)); [|apply lookup_insert_eq|by apply (pin_unpin usable)]. cbn [mbind Result_bind].
    rewrite (with_page_ok _ id (pin z) z); [|apply lookup_insert_eq|by apply (pin_unpin usable)]. cbn [mbind Result_bind].
    unfold set_page. cbn [freelist_pages database_size freelist_trunk_page db_pages]. by rewrite !insert_insert_eq, ot_first0.
  - constructor; cbn [freelist_trunk_page database_size db_pages freelist_pages]; [done| |done|by constructor|done| |].
    + exists z. split_and!; [apply lookup_insert_eq| |done].
      constructor; [|unfold z; rewrite as_ptr_set, sub_splice_eq by lia; done|done|unfold max_leaves, lenZ; cbn; divlia].
      unfold z. rewrite as_ptr_set, sub_splice_ne by lia. unfold fill_zero. rewrite as_ptr_set. unfold sub. rewrite drop_0, take_replicate.
      assert (length (as_ptr t) >= 4)%nat by (unfold lenZ in *; lia). by replace (Z.to_nat 4 `min` length (as_ptr t))%nat with 4%nat by lia.
    + intros q r [->|Hq]%elem_of_cons; [|by apply not_elem_of_nil in Hq]. rewrite lookup_insert_eq. by intros [= <-].
    + intros q Hq. destruct (decide (q = id)) as [->|Hqi]; [rewrite lookup_insert_eq; by eexists|]. rewrite lookup_insert_ne by done. by apply ot_pages0.
Qed.

(** The trunk when its leaves are gone. *)
Lemma alloc_trunk d id :
  one_trunk usable d id [] -> (forall q, page_ok usable (new_page q)) -> max_pages <= u32_max ->
  exists d', exec_alloc pending max_pages new_page d [ReadReady; ReadReady] = Ok (id, d').
Proof.
  intros [] Hnew Hmax. destruct ot_trunk0 as (t & Ht & Htr & _). pose proof ot_range0 as [Hid _]%Forall_cons.
  destruct (ot_pages0 id ltac:(lia)) as (t' & Ht' & Htok). rewrite Ht in Ht'. injection Ht' as <-.
  assert (free_list usable d [(id, [])]) as HF.
  { constructor; try done; [|apply NoDup_singleton]. split; [by eexists|done]. }
  destruct (alloc_run_ok usable Husable pending max_pages new_page Hnew d _ HF [ReadReady; ReadReady]) as [(q & d' & ev' & Hrun & HP)|(_ & [=] & _)];
    [by repeat constructor|cbn; lia|done|].
  exists d'. unfold exec_alloc. rewrite (run_calls _ _ _ _ _ _ Hrun) by (cbn; lia). cbn [mbind Result_bind].
  destruct HP as [(_ & (ts' & _ & Hperm) & _)|(_ & _ & [=] & _)]. cbn in Hperm. assert (q ∈ [id]) as Hq by (rewrite <- Hperm; left).
  by apply list_elem_of_singleton in Hq as ->.
Qed.

(** Allocations whose pages are all there. *)
Fixpoint allocations (n : nat) (d : db) : Result (list Z) :=
  match n with
  | O => Ok []
  | S n => '(id, d) ← exec_alloc pending max_pages new_page d [ReadReady; ReadReady]; ids ← allocations n d; Ok (id :: ids)
  end.

Lemma allocations_ok id ids : forall d,
  one_trunk usable d id (ids ++ [id]) -> id ∉ ids -> (forall q, page_ok usable (new_page q)) -> max_pages <= u32_max ->
  allocations (length ids + 2) d = Ok (ids ++ [id; id]).
Proof.
  intros d Ho Hni Hnew Hmax. revert d Ho. induction ids as [|q ids IH]; intros d Ho.
  - destruct (alloc_self d id Ho) as (d1 & H1 & Ho1). destruct (alloc_trunk d1 id Ho1 Hnew Hmax) as (d2 & H2).
    cbn [length Nat.add allocations]. rewrite H1. cbn [mbind Result_bind]. by rewrite H2.
  - apply not_elem_of_cons in Hni as [Hne Hni]. destruct (alloc_leaf d id q (ids ++ [id]) Ho ltac:(done)) as (d1 & H1 & Ho1).
    cbn [length Nat.add allocations]. rewrite H1. cbn [mbind Result_bind]. by rewrite IH.
Qed.
End reallocate.

(** C27: a chain of overflow pages that runs in a circle is not noticed.  Let the pages
    of a corrupt cell lead from the first one through the others back to the first
    one, with a freelist that is empty and pages that fit in one trunk.  Clearing the
    chain succeeds, however often it has to wait, and frees the first page twice: the
    freelist counts one page more than there are, and the allocations that follow
    return the other pages and then the first page two times. *)
Theorem cyclic_chain_frees_twice usable pending max_pages new_page id ids d p ev n fuel :
  480 <= usable <= 65536 -> (forall q, page_ok usable (new_page q)) -> max_pages <= u32_max ->
  free_list usable d [] -> NoDup (id :: ids) -> Forall (fun q => 2 <= q <= database_size d) (id :: ids) ->
  linked_to (db_pages d) (id :: ids) id -> db_pages d !! id = Some p -> pin_count p + 1 < u64_max -> lenZ ids < max_leaves usable ->
  Forall no_read_error ev -> (2 * length ids + 4 <= readies ev)%nat ->
  (length ev + length ids + 6 <= fuel)%nat -> (length ev + length ids + 6 <= n)%nat ->
  exists d' ev', clear_calls usable n fuel (Some id) (OvStart, FreeStart, d, ev) = Ok (d', ev') /\
    freelist_pages d' = lenZ (id :: ids) + 1 /\
    allocations pending max_pages new_page (length ids + 2) d' = Ok (ids ++ [id; id]).
Proof.
  intros Hu Hnew Hmax HF [Hni Hnd]%NoDup_cons [Hid Hids]%Forall_cons [Hlink Hrest] Hp Hpin HL Herr Hr Hf Hn.
  destruct fuel as [|[|[|fuel]]]; [lia..|].
  destruct (circle_cleared usable Hu fuel id d ids p ev) as (d1 & p1 & ev1 & HF1 & Hp1 & Hpin1 & Hrun); try done.
  exists (twice_free id d1 ids p1), ev1. split_and!.
  - rewrite clear_calls_eq. apply (run_calls _ _ _ _ _ _ Hrun); lia.
  - destruct (trunk_of usable id d1 ids p1 HF1 Hp1) as (_ & _ & _ & _ & _ & Hc). cbn [twice_free freelist_pages]. rewrite lenZ_cons. lia.
  - apply (allocations_ok usable Hu); [|done|done|done]. apply twice_free_trunk; [done|done|done|done|lia].
Qed.

(** A database whose pages 3, 2 and 4 are a circle. *)
Definition circle_db : db := mkDb 5 0 0 {[1 := blank 1; 2 := linked 2 4; 3 := linked 3 2; 4 := linked 4 3; 5 := blank 5]}.

Lemma circle_free_list : free_list 512 circle_db [].
Proof.
  constructor; cbn [circle_db database_size db_pages freelist_trunk_page freelist_pages]; try done; try (intros ? ? Hi; by apply not_elem_of_nil in Hi); [constructor|].
  intros q Hq. assert (q = 1 \/ q = 2 \/ q = 3 \/ q = 4 \/ q = 5) as [->|[->|[->|[->| ->]]]] by lia; eexists; (split; [vm_compute; reflexivity|by split]).
Qed.

Lemma cyclic_chain_frees_twice_witness :
  exists d' ev', clear_calls 512 30 30 (Some 3) (OvStart, FreeStart, circle_db, ReadSpill :: replicate 8 ReadReady) = Ok (d', ev') /\
    freelist_pages d' = 4 /\ allocations None 100 blank 4 d' = Ok [2; 4; 3; 3].
Proof.
  apply (cyclic_chain_frees_twice 512 None 100 blank 3 [2; 4] circle_db (linked 3 2) (ReadSpill :: replicate 8 ReadReady) 30 30);
    [lia|intros q; by split|vm_compute; discriminate|exact circle_free_list|repeat constructor; set_solver|cbn; repeat constructor; lia| |vm_compute; reflexivity|vm_compute; reflexivity
    |vm_compute; reflexivity|cbn; repeat constructor|cbn; lia|cbn; lia|cbn; lia].
  split; [exists (linked 3 2); split; vm_compute; reflexivity|]. split; [exists (linked 2 4); split; vm_compute; reflexivity|].
  split; [exists (linked 4 3); split; vm_compute; reflexivity|done].
Defined.
