(* ===== verification/BtreeBalance.v ===== *)
(** * BtreeBalance: moving cells between sibling pages

    Models the part of the balancing of core/storage/btree.rs that moves cells:
    the array of the cells of all siblings, the new distribution of the cells
    over the siblings, and the editing of the pages in place.

    The cells of the array are slices of the buffers of the pages that are
    being edited.  They are modelled as references ([cellref]) that are read
    from the pages at the time of use: a slice of the buffer of a page, the
    payload of an overflow cell of a page, or a divider in a buffer of its own.
    An overflow cell is freed when the overflow cells of its page are cleared,
    and reading it after that is [Panic]. *)

From S2P Require Import Prelude Varint OnDisk Page BtreePage.

(** ** The cell array *)

Inductive cellref :=
  | InPage (j : nat) (start len : Z)
  | OverCell (j k : nat) (len : Z)
  | Divider (b : bytes).

Definition ref_len (r : cellref) : Z :=
  match r with InPage _ _ len => len | OverCell _ _ len => len | Divider b => lenZ b end.

(** The bytes behind a reference. *)
Definition deref (pages : list PageInner) (r : cellref) : Result bytes :=
  match r with
  | InPage j start len =>
      p ← unwrap (pages !! j);
      slice (as_ptr p) start (start + len)
  | OverCell j k len =>
      p ← unwrap (pages !! j);
      o ← unwrap (overflow_cells p !! k);
      Ok (oc_payload o)
  | Divider b => Ok b
  end.

(** [CellArray]; the prefix sums have [MAX_NEW_SIBLING_PAGES_AFTER_BALANCE]
    entries. *)
Record CellArray := mkCellArray {
  cell_payloads : list cellref;
  cell_count_per_page_cumulative : list Z
}.

Definition MAX_SIBLING_PAGES_TO_BALANCE : Z := 3.
Definition MAX_NEW_SIBLING_PAGES_AFTER_BALANCE : Z := 5.

Definition cell_count_up_to_page (a : CellArray) (page_idx : Z) : Result Z :=
  idx (cell_count_per_page_cumulative a) page_idx.

(** ** Freeing cells *)

Section edit.
Context (usable_space : Z).

(** The merge of a range with the first contiguous buffered range. *)
Fixpoint merge_buffered (buffered : list (Z * Z)) (offset end_ : Z) : option (list (Z * Z)) :=
  match buffered with
  | [] => None
  | (o, e) :: buffered' =>
      if o =? end_ then Some ((offset, e) :: buffered')
      else if e =? offset then Some ((o, end_) :: buffered')
      else cons (o, e) <$> merge_buffered buffered' offset end_
  end.

(** The loop that frees the buffered ranges. *)
Fixpoint free_buffered (base : Z) (buf : bytes) (buffered : list (Z * Z)) : Result bytes :=
  match buffered with
  | [] => Ok buf
  | (o, e) :: buffered' =>
      len ← checked_sub e o;
      buf ← free_cell_range base usable_space buf o len;
      free_buffered base buf buffered'
  end.

(** The loop of [page_free_array] over [n] cells from index [i] on: the buffer,
    the buffered ranges and the number of cells removed. *)
Fixpoint free_array_loop (n : nat) (j : nat) (base : Z) (cell_array : list cellref) (i : Z)
    (buf : bytes) (buffered : list (Z * Z)) (removed : Z) : Result (bytes * list (Z * Z) * Z) :=
  match n with
  | O => Ok (buf, buffered, removed)
  | S n =>
      cell ← idx cell_array i;
      match cell with
      | InPage j' start len =>
          if bool_decide (j' = j) && (base <=? start) && (start <? usable_space) then
            _ ← turso_assert (start + len <=? usable_space);
            let offset := start - base in
            _ ← turso_assert (0 <? len);
            let end_ := offset + len in
            '(buf, buffered) ←
              match merge_buffered buffered offset end_ with
              | Some buffered => Ok (buf, buffered)
              | None =>
                  '(buf, buffered) ←
                    (if 10 <=? lenZ buffered
                     then buf ← free_buffered base buf buffered; Ok (buf, [])
                     else Ok (buf, buffered));
                  Ok (buf, buffered ++ [(offset, end_)])
              end;
            free_array_loop n j base cell_array (i + 1) buf buffered (removed + 1)
          else free_array_loop n j base cell_array (i + 1) buf buffered removed
      | _ => free_array_loop n j base cell_array (i + 1) buf buffered removed
      end
  end.

(** [page_free_array] for page [j] *)
Definition page_free_array (j : nat) (p : PageInner) (first count : Z) (cell_array : list cellref)
    : Result (Z * PageInner) :=
  let base := header_offset p in
  _ ← slice (as_ptr p) base usable_space;
  '(buf, buffered, removed) ←
    free_array_loop (Z.to_nat count) j base cell_array first (as_ptr p) [] 0;
  buf ← free_buffered base buf buffered;
  cells ← cell_count base buf;
  n ← checked_sub cells removed;
  buf ← write_cell_count base buf n;
  Ok (removed, set_buffer p buf).

Definition shift_cells_left (p : PageInner) (count_cells number_to_shift : Z) : Result PageInner :=
  '(start, _) ← cell_pointer_array_offset_and_size (header_offset p) (as_ptr p);
  buf ← copy_within (as_ptr p) (start + number_to_shift * 2) (start + count_cells * 2) start;
  Ok (set_buffer p buf).

(** ** Inserting cells *)

(** The space that [n] cells from index [first] on take. *)
Fixpoint total_payload_size (n : nat) (cell_array : list cellref) (first : Z) : Result Z :=
  match n with
  | O => Ok 0
  | S n =>
      payload ← idx cell_array first;
      rest ← total_payload_size n cell_array (first + 1);
      Ok (Z.max (ref_len payload) MINIMUM_CELL_SIZE + rest)
  end.

(** [checked_sub(..).ok_or_else(Corrupt)] *)
Definition sub_or_corrupt (a b : Z) : Result Z := if b <=? a then Ok (a - b) else Err Corrupt.

(** The loop that writes the payloads and their pointers: the pages and the
    new content area.  The payload is read from the pages at this point. *)
Fixpoint insert_array_loop (n : nat) (pages : list PageInner) (j : nat) (cell_array : list cellref)
    (first array_start start_insert content_area : Z) : Result (list PageInner * Z) :=
  match n with
  | O => Ok (pages, content_area)
  | S n =>
      r ← idx cell_array first;
      let cell_size := Z.max (ref_len r) MINIMUM_CELL_SIZE in
      content_area ← sub_or_corrupt content_area cell_size;
      payload ← deref pages r;
      p ← unwrap (pages !! j);
      buf ← write_slice (as_ptr p) content_area payload;
      buf ← write_u16_no_offset buf (array_start + start_insert * CELL_PTR_SIZE_BYTES) (u16 content_area);
      insert_array_loop n (<[j := set_buffer p buf]> pages) j cell_array
        (first + 1) array_start (start_insert + 1) content_area
  end.

(** [page_insert_array] for page [j] *)
Definition page_insert_array (pages : list PageInner) (j : nat) (first count : Z)
    (cell_array : list cellref) (start_insert : Z) : Result (list PageInner) :=
  if count =? 0 then Ok pages
  else
    _ ← turso_assert (first <=? lenZ cell_array);
    _ ← turso_assert (count <=? saturating_sub (lenZ cell_array) first);
    total ← total_payload_size (Z.to_nat count) cell_array first;
    let total_ptr_space := count * CELL_PTR_SIZE_BYTES in
    p ← unwrap (pages !! j);
    let base := header_offset p in
    current_cell_count ← cell_count base (as_ptr p);
    content_area ← cell_content_area base (as_ptr p);
    unallocated_start ← unallocated_region_start base (as_ptr p);
    _ ← turso_assert (start_insert <=? current_cell_count);
    _ ← turso_assert (current_cell_count + count <=? 65535);
    new_content_area ← sub_or_corrupt content_area total;
    _ ← turso_assert (unallocated_start + total_ptr_space <=? new_content_area);
    '(array_start, _) ← cell_pointer_array_offset_and_size base (as_ptr p);
    buf ←
      (if start_insert <? current_cell_count then
         let shift_src := array_start + start_insert * CELL_PTR_SIZE_BYTES in
         let shift_size := (current_cell_count - start_insert) * CELL_PTR_SIZE_BYTES in
         copy_within (as_ptr p) shift_src (shift_src + shift_size) (shift_src + total_ptr_space)
       else Ok (as_ptr p));
    '(pages, content_area) ←
      insert_array_loop (Z.to_nat count) (<[j := set_buffer p buf]> pages) j cell_array first
        array_start start_insert content_area;
    p ← unwrap (pages !! j);
    buf ← write_cell_content_area base (as_ptr p) content_area;
    buf ← write_cell_count base buf (u16 (current_cell_count + count));
    Ok (<[j := set_buffer p buf]> pages).

(** ** Editing one page *)

(** The loop of [edit_page] over the overflow cells of the page: the pages and
    [count_cells]. *)
Fixpoint insert_overflow_loop (overflow : list OverflowCell) (pages : list PageInner) (j : nat)
    (start_old_cells start_new_cells number_new_cells : Z) (cell_array : list cellref)
    (count_cells : Z) : Result (list PageInner * Z) :=
  match overflow with
  | [] => Ok (pages, count_cells)
  | o :: overflow' =>
      let cell_idx := start_old_cells + oc_index o - start_new_cells in
      if (start_new_cells <=? start_old_cells + oc_index o) && (cell_idx <? number_new_cells) then
        pages ← page_insert_array pages j (start_new_cells + cell_idx) 1 cell_array cell_idx;
        insert_overflow_loop overflow' pages j start_old_cells start_new_cells number_new_cells
          cell_array (count_cells + 1)
      else
        insert_overflow_loop overflow' pages j start_old_cells start_new_cells number_new_cells
          cell_array count_cells
  end.

(** [edit_page] for page [j] *)
Definition edit_page (pages : list PageInner) (j : nat)
    (start_old_cells start_new_cells number_new_cells : Z) (cell_array : list cellref)
    : Result (list PageInner) :=
  p ← unwrap (pages !! j);
  let base := header_offset p in
  cells ← cell_count base (as_ptr p);
  let end_old_cells := start_old_cells + cells + lenZ (overflow_cells p) in
  let end_new_cells := start_new_cells + number_new_cells in
  '(p, count_cells) ←
    (if start_old_cells <? start_new_cells then
       '(number_to_shift, p) ←
         page_free_array j p start_old_cells (start_new_cells - start_old_cells) cell_array;
       p ← shift_cells_left p cells number_to_shift;
       count_cells ← checked_sub cells number_to_shift;
       Ok (p, count_cells)
     else Ok (p, cells));
  '(p, count_cells) ←
    (if end_new_cells <? end_old_cells then
       '(number_tail_removed, p) ←
         page_free_array j p end_new_cells (end_old_cells - end_new_cells) cell_array;
       _ ← turso_assert (number_tail_removed <=? count_cells);
       Ok (p, count_cells - number_tail_removed)
     else Ok (p, count_cells));
  buf ← defragment_page base usable_space (as_ptr p) 0;
  let pages := <[j := set_buffer p buf]> pages in
  '(pages, count_cells) ←
    (if start_new_cells <? start_old_cells then
       let count := Z.min number_new_cells (start_old_cells - start_new_cells) in
       pages ← page_insert_array pages j start_new_cells count cell_array 0;
       Ok (pages, count_cells + count)
     else Ok (pages, count_cells));
  '(pages, count_cells) ←
    insert_overflow_loop (overflow_cells p) pages j start_old_cells start_new_cells
      number_new_cells cell_array count_cells;
  rest ← checked_sub number_new_cells count_cells;
  pages ← page_insert_array pages j (start_new_cells + count_cells) rest cell_array count_cells;
  p ← unwrap (pages !! j);
  buf ← write_cell_count base (as_ptr p) (u16 number_new_cells);
  Ok (<[j := set_buffer p buf]> pages).

(** ** Editing the siblings *)

(** The old start, new start and new number of cells of a page. *)
Definition edit_args (is_table_leaf : bool) (sibling_count : Z) (old_cumulative : list Z)
    (cell_array : CellArray) (page_idx : Z) : Result (Z * Z * Z) :=
  if page_idx =? 0 then
    n ← cell_count_up_to_page cell_array 0;
    Ok (0, 0, n)
  else
    let divider := if is_table_leaf then 0 else 1 in
    start_old_cells ←
      (if page_idx <? sibling_count then
         n ← idx old_cumulative (page_idx - 1); Ok (n + divider)
       else Ok (lenZ (cell_payloads cell_array)));
    n ← cell_count_up_to_page cell_array (page_idx - 1);
    let start_new_cells := n + divider in
    n ← cell_count_up_to_page cell_array page_idx;
    number_new_cells ← checked_sub n start_new_cells;
    Ok (start_old_cells, start_new_cells, number_new_cells).

(** The loop over [i]: the pages to the left of the last one in decreasing
    order, then all pages in increasing order. *)
Fixpoint edit_siblings_loop (order : list Z) (is_table_leaf : bool) (sibling_count : Z)
    (old_cumulative : list Z) (cell_array : CellArray) (done : list bool) (pages : list PageInner)
    : Result (list PageInner) :=
  match order with
  | [] => Ok pages
  | i :: order' =>
      let page_idx := Z.abs i in
      d ← idx done page_idx;
      if (d : bool) then
        edit_siblings_loop order' is_table_leaf sibling_count old_cumulative cell_array done pages
      else
        allowed ←
          (if 0 <=? i then Ok true
           else
             o ← idx old_cumulative (page_idx - 1);
             n ← idx (cell_count_per_page_cumulative cell_array) (page_idx - 1);
             Ok (n <=? o));
        if (allowed : bool) then
          '(start_old_cells, start_new_cells, number_new_cells) ←
            edit_args is_table_leaf sibling_count old_cumulative cell_array page_idx;
          let j := Z.to_nat page_idx in
          pages ← edit_page pages j start_old_cells start_new_cells number_new_cells
                    (cell_payloads cell_array);
          p ← unwrap (pages !! j);
          let pages := <[j := set_overflow_cells p []]> pages in
          done ← set_idx done page_idx true;
          edit_siblings_loop order' is_table_leaf sibling_count old_cumulative cell_array done pages
        else
          edit_siblings_loop order' is_table_leaf sibling_count old_cumulative cell_array done pages
  end.

(** [rightmost_page_negative_idx ..= rightmost_page_positive_idx] *)
Definition page_order (sibling_count_new : Z) : list Z :=
  (fun k : nat => Z.of_nat k + 1 - sibling_count_new) <$> seq 0 (Z.to_nat (2 * sibling_count_new - 1)).

Definition edit_siblings (is_table_leaf : bool) (sibling_count sibling_count_new : Z)
    (old_cumulative : list Z) (cell_array : CellArray) (pages : list PageInner)
    : Result (list PageInner) :=
  edit_siblings_loop (page_order sibling_count_new) is_table_leaf sibling_count old_cumulative
    cell_array (replicate (Z.to_nat MAX_NEW_SIBLING_PAGES_AFTER_BALANCE) false) pages.

End edit.
