(* ===== verification/BtreeDistribute.v ===== *)
(** * BtreeDistribute: the new distribution of the cells over the siblings

    Models steps 4 and 5 of the balancing of core/storage/btree.rs: packing the
    cells to the left page by page, then moving cells to the right until
    neighbouring pages are of similar size.  The pages are described by the
    prefix sums of their cell counts and by their sizes in bytes; on pages other
    than table leaves the cell between two pages is the divider.  The result is
    a distribution in which no page has more bytes than it has space for and
    every page has at least one cell, except that the last page can be without
    cells when the cells are wide. *)

From S2P Require Import Prelude Varint OnDisk Page BtreePage BtreeSpace BtreeBalance.

(** ** The code *)

(** [new_page_sizes], [cell_count_per_page_cumulative] and
    [sibling_count_new]. *)
Record dist := mkDist { ds_sizes : list Z; ds_cum : list Z; ds_count : Z }.

(** [l[i] += x] *)
Definition add_idx (l : list Z) (i x : Z) : Result (list Z) := v ← idx l i; set_idx l i (v + x).

Section code.
Context (is_table_leaf : bool) (cell_payloads : list cellref) (usable_space_without_header : Z).

(** [cell_payloads[i].len()], also as [u16], and [cell_payloads.len() as u16] *)
Definition payload_len (i : Z) : Result Z := r ← idx cell_payloads i; Ok (ref_len r).
Definition cell_size_bytes (cell_idx : Z) : Result Z := len ← payload_len cell_idx; Ok (u16 len).
Definition count_u16 : Z := u16 (lenZ cell_payloads).

(** The size by which the next page changes when page [i] ends before cell [n]. *)
Definition divider_size (n : Z) : Result Z :=
  if n <? count_u16 then len ← payload_len n; Ok (CELL_PTR_SIZE_BYTES + len) else Ok 0.

(** A new page at the right end. *)
Definition add_page (i : Z) (d : dist) : Result dist :=
  if ds_count d <=? i + 1 then
    let sibling_count_new := i + 2 in
    _ ← turso_assert (sibling_count_new <=? 5);
    sizes ← set_idx (ds_sizes d) (sibling_count_new - 1) 0;
    cum ← set_idx (ds_cum d) (sibling_count_new - 1) count_u16;
    Ok (mkDist sizes cum sibling_count_new)
  else Ok d.

(** The loop that moves cells of page [i] that do not fit to the right. *)
Fixpoint shed_loop (fuel : nat) (i : Z) (d : dist) : Result dist :=
  size ← idx (ds_sizes d) i;
  if usable_space_without_header <? size then
    match fuel with
    | O => Panic
    | S fuel =>
        d ← add_page i d;
        n ← idx (ds_cum d) i;
        last ← checked_sub n 1;
        len ← payload_len last;
        let size_of_cell_to_remove_from_left := 2 + len in
        sizes ← add_idx (ds_sizes d) i (- size_of_cell_to_remove_from_left);
        size_of_cell_to_move_right ←
          (if negb is_table_leaf then divider_size n else Ok size_of_cell_to_remove_from_left);
        sizes ← add_idx sizes (i + 1) size_of_cell_to_move_right;
        cum ← set_idx (ds_cum d) i last;
        shed_loop fuel i (mkDist sizes cum (ds_count d))
    end
  else Ok d.

(** The loop that takes cells from the right. *)
Fixpoint take_loop (fuel : nat) (i : Z) (d : dist) : Result dist :=
  n ← idx (ds_cum d) i;
  if n <? count_u16 then
    match fuel with
    | O => Panic
    | S fuel =>
        len ← payload_len n;
        let size_of_cell_to_remove_from_right := CELL_PTR_SIZE_BYTES + len in
        size ← idx (ds_sizes d) i;
        if usable_space_without_header <? size + size_of_cell_to_remove_from_right then Ok d
        else
          sizes ← add_idx (ds_sizes d) i size_of_cell_to_remove_from_right;
          cum ← set_idx (ds_cum d) i (n + 1);
          size_of_cell_to_remove_from_right ←
            (if negb is_table_leaf then divider_size (n + 1) else Ok size_of_cell_to_remove_from_right);
          sizes ← add_idx sizes (i + 1) (- size_of_cell_to_remove_from_right);
          take_loop fuel i (mkDist sizes cum (ds_count d))
    end
  else Ok d.

(** Step 4, from page [i] on; a page takes or sheds at most all cells. *)
Fixpoint pack_loop (fuel : nat) (i : Z) (d : dist) : Result dist :=
  if i <? ds_count d then
    match fuel with
    | O => Panic
    | S fuel =>
        d ← shed_loop (S (length cell_payloads)) i d;
        d ← take_loop (S (length cell_payloads)) i d;
        n ← idx (ds_cum d) i;
        if count_u16 <=? n then Ok (mkDist (ds_sizes d) (ds_cum d) (i + 1))
        else if ds_count d <=? i + 1 then Ok d
        else pack_loop fuel (i + 1) d
    end
  else Ok d.

(** The inner loop of step 5: the new end of the left page and the sizes of the
    right and the left page. *)
Fixpoint spread_loop (fuel : nat) (is_last_sibling : bool) (end_left cell_left cell_right size_right_page size_left_page : Z)
    : Result (Z * Z * Z) :=
  match fuel with
  | O => Panic
  | S fuel =>
      cell_left_size ← cell_size_bytes cell_left;
      cell_right_size ← cell_size_bytes cell_right;
      let pointer_size := if is_last_sibling then 0 else CELL_PTR_SIZE_BYTES in
      let would_not_improve_balance :=
        size_left_page - (cell_left_size + pointer_size) <? size_right_page + cell_right_size + CELL_PTR_SIZE_BYTES in
      if negb (size_right_page =? 0) && would_not_improve_balance then
        Ok (end_left, size_right_page, size_left_page)
      else
        let size_left_page := size_left_page - (cell_left_size + CELL_PTR_SIZE_BYTES) in
        let size_right_page := size_right_page + (cell_right_size + CELL_PTR_SIZE_BYTES) in
        if cell_left =? 0 then Ok (cell_left, size_right_page, size_left_page)
        else
          cell_right ← checked_sub cell_right 1;
          spread_loop fuel is_last_sibling cell_left (cell_left - 1) cell_right size_right_page size_left_page
  end.

(** Step 5 for the pages [i - 1] and [i] *)
Definition spread_page (i : Z) (d : dist) : Result dist :=
  size_right_page ← idx (ds_sizes d) i;
  size_left_page ← idx (ds_sizes d) (i - 1);
  n ← idx (ds_cum d) (i - 1);
  cell_left ← checked_sub n 1;
  let cell_right := if is_table_leaf then cell_left else cell_left + 1 in
  '(end_left, size_right_page, size_left_page) ←
    spread_loop (S (length cell_payloads)) (i =? ds_count d - 1) n cell_left cell_right size_right_page size_left_page;
  cum ← set_idx (ds_cum d) (i - 1) end_left;
  sizes ← set_idx (ds_sizes d) i size_right_page;
  sizes ← set_idx sizes (i - 1) size_left_page;
  before ← (if 1 <? i then idx cum (i - 2) else Ok 0);
  _ ← turso_assert (before <? end_left);
  Ok (mkDist sizes cum (ds_count d)).

(** Step 5: [for i in (1..sibling_count_new).rev()], from page [i] down *)
Fixpoint spread (i : nat) (d : dist) : Result dist :=
  match i with
  | O => Ok d
  | S i' => d ← spread_page (Z.of_nat i) d; spread i' d
  end.

(** Steps 4 and 5 *)
Definition redistribute (d : dist) : Result dist :=
  d ← pack_loop 6 0 d;
  spread (Z.to_nat (ds_count d - 1)) d.

End code.

(** ** Positions *)

(** An entry of a prefix sum, and the start of a page: after the cells up to
    the previous page and the divider. *)
Definition upto (c : list nat) (j : nat) : nat := default 0%nat (c !! j).
Definition sep (is_table_leaf : bool) : nat := if is_table_leaf then 0%nat else 1%nat.
Definition start_of (is_table_leaf : bool) (c : list nat) (j : nat) : nat :=
  match j with O => O | S j' => (upto c j' + sep is_table_leaf)%nat end.

Lemma upto_lookup c j : (j < length c)%nat -> idx (Z.of_nat <$> c) (Z.of_nat j) = Ok (Z.of_nat (upto c j)).
Proof.
  intros [x Hx]%lookup_lt_is_Some_2. rewrite (idx_lookup _ _ (Z.of_nat x)); [|by rewrite list_lookup_fmap, Hx].
  unfold upto. by rewrite Hx.
Qed.

Lemma upto_insert c j j' v : (j < length c)%nat -> upto (<[j := v]> c) j' = if decide (j' = j) then v else upto c j'.
Proof.
  intros Hj. unfold upto. destruct (decide (j' = j)) as [->|].
  - by rewrite list_lookup_insert_eq.
  - by rewrite list_lookup_insert_ne.
Qed.

(** ** Sizes *)

(** The bytes of cell [x] and of the first [x] cells, with their pointers. *)
Definition width (ps : list cellref) (x : nat) : Z := default 0 ((fun r => 2 + ref_len r) <$> (ps !! x)).
Fixpoint weights (ps : list cellref) (x : nat) : Z :=
  match x with O => 0 | S x' => weights ps x' + width ps x' end.

(** What the distribution relies on: there are cells, and all have at least the
    minimum size; on table leaves a page has space for a cell, on other pages
    for two cells beside the part [extra] of its size that is not due to its
    cells, which is at most a third of the page. *)
Record sizes_ok (is_table_leaf : bool) (ps : list cellref) (cap : Z) (extra : nat -> Z) : Prop := mkSizesOk {
  sz_count : 0 < lenZ ps < 65536;
  sz_cap : 6 <= cap < 65536;
  sz_min x : (x < length ps)%nat -> 6 <= width ps x;
  sz_extra j : 0 <= extra j;
  sz_table : is_table_leaf = true -> (forall x, width ps x <= cap) /\ forall j, extra j = 0;
  sz_other : is_table_leaf = false -> (forall x j, 2 * width ps x + extra j <= cap) /\ forall j, 3 * extra j + 6 <= cap
}.

(** The cells are narrow: there is also space for a third cell. *)
Definition narrow (is_table_leaf : bool) (ps : list cellref) (cap : Z) (extra : nat -> Z) : Prop :=
  is_table_leaf = true \/ forall x j, 3 * width ps x + extra j <= cap.

Lemma leaf_cases tl : tl = true /\ sep tl = 0%nat \/ tl = false /\ sep tl = 1%nat.
Proof. destruct tl; auto. Qed.

Section pack.
Context (is_table_leaf : bool) (ps : list cellref) (cap : Z) (extra : nat -> Z) (HZ : sizes_ok is_table_leaf ps cap extra).
#[local] Abbreviation n := (length ps).
#[local] Abbreviation W := (weights ps).
#[local] Abbreviation st := (start_of is_table_leaf).

Lemma width_nonneg x : 0 <= width ps x.
Proof.
  destruct (decide (x < n)%nat) as [Hx|Hx]; [pose proof (sz_min _ _ _ _ HZ x Hx); lia|].
  unfold width. rewrite lookup_ge_None_2 by lia. done.
Qed.

Lemma cell_extra x j : width ps x + extra j <= cap.
Proof.
  destruct (leaf_cases is_table_leaf) as [[E _]|[E _]].
  - destruct (sz_table _ _ _ _ HZ E) as [Hw He]. rewrite He. specialize (Hw x). lia.
  - destruct (sz_other _ _ _ _ HZ E) as [Hw _]. specialize (Hw x j). pose proof (width_nonneg x). lia.
Qed.

Lemma width_end x : (n <= x)%nat -> width ps x = 0.
Proof. intros. unfold width. by rewrite lookup_ge_None_2. Qed.

Lemma weights_mono x y : (x <= y)%nat -> W x <= W y.
Proof. induction 1 as [|y _ IH]; [done|]. cbn. pose proof (width_nonneg y). lia. Qed.

Lemma payload_len_ok x : (x < n)%nat -> payload_len ps (Z.of_nat x) = Ok (width ps x - 2).
Proof.
  intros [r Hr]%lookup_lt_is_Some_2. unfold payload_len. rewrite (idx_lookup _ _ _ Hr). cbn. unfold width. rewrite Hr.
  cbn. f_equal. lia.
Qed.

Lemma count_u16_ok : count_u16 ps = Z.of_nat n.
Proof. pose proof (sz_count _ _ _ _ HZ). unfold count_u16, u16, lenZ in *. rewrite Z.mod_small; lia. Qed.

Lemma divider_size_ok x : divider_size ps (Z.of_nat x) = Ok (width ps x).
Proof.
  unfold divider_size. rewrite count_u16_ok. destruct (Z.ltb_spec (Z.of_nat x) (Z.of_nat n)).
  - rewrite payload_len_ok by lia. cbn. unfold CELL_PTR_SIZE_BYTES. f_equal. lia.
  - by rewrite width_end by lia.
Qed.

(** The size of page [j]. *)
Definition page_size (c : list nat) (j : nat) : Z := W (upto c j) - W (st c j) + extra j.

(** Page [j] is full: the next cell does not fit. *)
Definition full (c : list nat) (j : nat) : Prop :=
  (upto c j < n)%nat /\ page_size c j <= cap < page_size c j + width ps (upto c j).

(** The pages [0..k], of which the first [i] are full. *)
Record packing (i : nat) (d : dist) (c : list nat) (k : nat) : Prop := mkPacking {
  pk_lens : length (ds_sizes d) = 5%nat /\ length c = 5%nat;
  pk_cum : ds_cum d = Z.of_nat <$> c;
  pk_count : ds_count d = Z.of_nat k;
  pk_k : (i < k <= 5)%nat;
  pk_size j : (j < k)%nat -> ds_sizes d !! j = Some (page_size c j);
  pk_le j : (j < k)%nat -> (upto c j <= n)%nat;
  pk_last : upto c (k - 1) = n;
  pk_full j : (j < i)%nat -> full c j;
  pk_extra j : (k <= j)%nat -> extra j = 0
}.

Lemma page_size_ext c c' j :
  upto c j = upto c' j -> (forall j', j = S j' -> upto c j' = upto c' j') -> page_size c j = page_size c' j.
Proof. intros H1 H2. unfold page_size. rewrite H1. destruct j; [done|]. cbn. by rewrite (H2 j). Qed.

Lemma full_ext c c' j :
  upto c j = upto c' j -> (forall j', j = S j' -> upto c j' = upto c' j') -> full c j -> full c' j.
Proof. intros H1 H2. unfold full. by rewrite (page_size_ext c c' j H1 H2), H1. Qed.

(** Page [i] ends before cell [v] instead, and the next page starts there. *)
Lemma packing_move i d c k v sizes :
  packing i d c k -> (S i < k)%nat -> (v <= n)%nat -> length sizes = 5%nat ->
  sizes !! i = Some (page_size (<[i := v]> c) i) -> sizes !! (S i) = Some (page_size (<[i := v]> c) (S i)) ->
  (forall j, j <> i -> j <> S i -> sizes !! j = ds_sizes d !! j) ->
  packing i (mkDist sizes (Z.of_nat <$> <[i := v]> c) (ds_count d)) (<[i := v]> c) k.
Proof.
  intros [[Hl1 Hl2] Hc Hn Hk Hs Hle Hlast Hfull Hex] Hik Hv Hls Hi Hi1 Hother.
  assert (forall j, j <> i -> upto (<[i := v]> c) j = upto c j) as Hu
    by (intros; rewrite upto_insert by lia; by destruct (decide (j = i))).
  constructor; cbn [ds_sizes ds_cum ds_count]; try done.
  - split; [done|by rewrite length_insert].
  - intros j Hj. destruct (decide (j = i)) as [->|]; [done|]. destruct (decide (j = S i)) as [->|]; [done|].
    rewrite Hother, Hs by done. f_equal. apply page_size_ext; [by rewrite Hu|]. intros j' ->. rewrite Hu by lia. done.
  - intros j Hj. rewrite upto_insert by lia. destruct (decide (j = i)); [done|]. by apply Hle.
  - by rewrite Hu by lia.
  - intros j Hj. apply (full_ext c); [by rewrite Hu by lia| |by apply Hfull]. intros j' ->. by rewrite Hu by lia.
Qed.

Lemma page_size_left c i v : (i < length c)%nat -> page_size (<[i := v]> c) i = W v - W (st c i) + extra i.
Proof.
  intros. unfold page_size. rewrite upto_insert by done. destruct (decide (i = i)); [|done].
  destruct i; [done|]. cbn. rewrite upto_insert by done. destruct (decide (i = S i)); [lia|done].
Qed.

Lemma page_size_right c i v :
  (S i < length c)%nat ->
  page_size (<[i := v]> c) (S i) = W (upto c (S i)) - W (v + sep is_table_leaf) + extra (S i).
Proof.
  intros. unfold page_size. cbn. rewrite !upto_insert by lia. destruct (decide (S i = i)); [lia|].
  by destruct (decide (i = i)).
Qed.

Lemma checked_sub_ok a b : b <= a -> checked_sub a b = Ok (a - b).
Proof. intros. unfold checked_sub. by rewrite (proj2 (Z.leb_le _ _)). Qed.

Lemma add_idx_ok l i v x : l !! i = Some v -> add_idx l (Z.of_nat i) x = Ok (<[i := v + x]> l).
Proof.
  intros Hv. unfold add_idx. rewrite (idx_lookup _ _ _ Hv). cbn [mbind Result_bind].
  apply set_idx_nat. by eapply lookup_lt_Some.
Qed.

Lemma set_cum c i v : (i < length c)%nat -> set_idx (Z.of_nat <$> c) (Z.of_nat i) (Z.of_nat v) = Ok (Z.of_nat <$> <[i := v]> c).
Proof. intros. rewrite set_idx_nat by (by rewrite length_fmap). by rewrite list_fmap_insert. Qed.

Lemma add_page_ok i d c k :
  packing i d c k -> (i < 4)%nat -> exists d' c' k',
    add_page ps (Z.of_nat i) d = Ok d' /\ packing i d' c' k' /\ (S i < k')%nat /\
    page_size c' i = page_size c i /\ forall j, (j <= i)%nat -> upto c' j = upto c j.
Proof.
  intros HP Hi. pose proof HP as [[Hl1 Hl2] Hc Hn Hk Hs Hle Hlast Hfull Hex]. unfold add_page. rewrite Hn.
  destruct (Z.leb_spec (Z.of_nat k) (Z.of_nat i + 1)).
  - assert (k = S i) as -> by lia. pass. replace (Z.of_nat i + 2 - 1) with (Z.of_nat (S i)) by lia.
    rewrite (set_idx_nat (ds_sizes d)) by lia. cbn [mbind Result_bind]. rewrite Hc, count_u16_ok, set_cum by lia. cbn [mbind Result_bind].
    replace (S i - 1)%nat with i in Hlast by lia.
    assert (forall j, j <> S i -> upto (<[S i := n]> c) j = upto c j) as Hu
      by (intros; rewrite upto_insert by lia; by destruct (decide (j = S i))).
    eexists _, (<[S i := n]> c), (S (S i)). split; [done|]. split_and!.
    + constructor; cbn [ds_sizes ds_cum ds_count]; try done.
      * by rewrite !length_insert.
      * lia.
      * lia.
      * intros j Hj. destruct (decide (j = S i)) as [->|].
        -- rewrite list_lookup_insert_eq by lia. f_equal. unfold page_size. rewrite upto_insert by lia.
           destruct (decide (S i = S i)); [|done]. cbn. rewrite Hu by lia. rewrite Hlast, Hex by lia.
           assert (W (n + sep is_table_leaf) = W n) as ->; [|lia]. destruct is_table_leaf; cbn [sep]; [by rewrite Nat.add_0_r|].
           rewrite Nat.add_1_r. cbn. rewrite width_end by lia. lia.
        -- rewrite list_lookup_insert_ne, Hs by lia. f_equal. apply page_size_ext; [by rewrite Hu|]. intros j' ->. by rewrite Hu by lia.
      * intros j Hj. rewrite upto_insert by lia. destruct (decide (j = S i)); [lia|]. apply Hle. lia.
      * replace (S (S i) - 1)%nat with (S i) by lia. rewrite upto_insert by lia. by destruct (decide (S i = S i)).
      * intros j Hj. apply (full_ext c); [by rewrite Hu by lia| |by apply Hfull]. intros j' ->. by rewrite Hu by lia.
      * intros j Hj. apply Hex. lia.
    + lia.
    + apply page_size_ext; [by rewrite Hu by lia|]. intros j' ->. by rewrite Hu by lia.
    + intros j Hj. by rewrite Hu by lia.
  - exists d, c, k. split_and!; try done. lia.
Qed.

(** A new end of page [i] changes the sizes of the pages [i] and [i + 1]. *)
Lemma packing_shift i d c k v (a b : Z) :
  packing i d c k -> (S i < k)%nat -> (v <= n)%nat ->
  a = W v - W (upto c i) -> b = W (upto c i + sep is_table_leaf) - W (v + sep is_table_leaf) ->
  exists sizes,
    add_idx (ds_sizes d) (Z.of_nat i) a = Ok (<[i := page_size c i + a]> (ds_sizes d)) /\
    add_idx (<[i := page_size c i + a]> (ds_sizes d)) (Z.of_nat i + 1) b = Ok sizes /\
    packing i (mkDist sizes (Z.of_nat <$> <[i := v]> c) (ds_count d)) (<[i := v]> c) k.
Proof.
  intros HP Hik Hv -> ->. pose proof HP as [[Hl1 Hl2] Hc Hn Hk Hs Hle Hlast Hfull Hex].
  pose proof (Hs i ltac:(lia)) as Hi. pose proof (Hs (S i) Hik) as Hi1. eexists. split; [by apply add_idx_ok|].
  replace (Z.of_nat i + 1) with (Z.of_nat (S i)) by lia. split.
  { apply add_idx_ok. by rewrite list_lookup_insert_ne by lia. }
  apply (packing_move i d c k v); [done|done|done|by rewrite !length_insert|..].
  - rewrite list_lookup_insert_ne, list_lookup_insert_eq, page_size_left by lia. unfold page_size. f_equal. lia.
  - rewrite list_lookup_insert_eq, page_size_right by (rewrite ?length_insert; lia). unfold page_size. cbn [start_of]. f_equal. lia.
  - intros j ? ?. by rewrite !list_lookup_insert_ne by done.
Qed.

Lemma weights_pred x : (0 < x)%nat -> W x = W (x - 1) + width ps (x - 1).
Proof. intros. destruct x as [|x]; [lia|]. cbn. by rewrite Nat.sub_0_r. Qed.

(** The size that moves to the next page, as the code computes it. *)
Lemma moved_size x :
  W (x + 1 + sep is_table_leaf) - W (x + sep is_table_leaf) = width ps (x + sep is_table_leaf).
Proof. replace (x + 1 + sep is_table_leaf)%nat with (S (x + sep is_table_leaf)) by lia. cbn. lia. Qed.

Lemma shed_ok i fuel : forall d c k,
  packing i d c k -> (i < 4)%nat \/ page_size c i <= cap -> (upto c i <= fuel)%nat -> exists d' c' k',
    shed_loop is_table_leaf ps cap fuel (Z.of_nat i) d = Ok d' /\ packing i d' c' k' /\ page_size c' i <= cap.
Proof.
  induction fuel as [|fuel IH]; intros d c k HP Hi Hf; cbn [shed_loop];
    rewrite (idx_lookup _ _ _ (pk_size _ _ _ _ HP i (proj1 (pk_k _ _ _ _ HP)))); cbn [mbind Result_bind];
    destruct (Z.ltb_spec cap (page_size c i)) as [Hgt|]; try (by exists d, c, k).
  - exfalso. unfold page_size in Hgt. replace (upto c i) with 0%nat in Hgt by lia. cbn in Hgt.
    pose proof (weights_mono 0 (st c i) ltac:(lia)). pose proof (cell_extra 0 i). pose proof (width_nonneg 0). cbn in *. lia.
  - destruct (add_page_ok i d c k HP ltac:(lia)) as (d1 & c1 & k1 & Ha & HP1 & Hk1 & Hsz & Hu). rewrite Ha.
    cbn [mbind Result_bind]. pose proof HP1 as [[_ Hl2] Hc Hn Hk _ Hle _ _ _]. rewrite Hc, upto_lookup by lia.
    cbn [mbind Result_bind]. assert (0 < upto c1 i)%nat as H0.
    { destruct (decide (upto c1 i = 0)%nat) as [E|]; [exfalso|lia]. rewrite <- Hsz in Hgt. unfold page_size in Hgt. rewrite E in Hgt.
      pose proof (weights_mono 0 (st c1 i) ltac:(lia)). pose proof (cell_extra 0 i). pose proof (width_nonneg 0). cbn in *. lia. }
    rewrite checked_sub_ok by lia. cbn [mbind Result_bind]. replace (Z.of_nat (upto c1 i) - 1) with (Z.of_nat (upto c1 i - 1)) by lia.
    pose proof (Hle i ltac:(lia)) as Hle1. rewrite payload_len_ok by lia. cbn [mbind Result_bind].
    pose proof (weights_pred (upto c1 i) H0) as Hw. pose proof (moved_size (upto c1 i - 1)) as Hm.
    replace (upto c1 i - 1 + 1)%nat with (upto c1 i) in Hm by lia.
    edestruct (packing_shift i d1 c1 k1 (upto c1 i - 1) (- (2 + (width ps (upto c1 i - 1) - 2)))
      (width ps (upto c1 i - 1 + sep is_table_leaf)) HP1 Hk1) as (sizes & H1 & H2 & HP2); [lia|lia|lia|].
    rewrite H1. cbn [mbind Result_bind].
    assert ((if negb is_table_leaf then divider_size ps (Z.of_nat (upto c1 i)) else Ok (2 + (width ps (upto c1 i - 1) - 2))) =
      Ok (width ps (upto c1 i - 1 + sep is_table_leaf))) as ->.
    { rewrite divider_size_ok. destruct is_table_leaf; cbn [negb sep].
      - rewrite Nat.add_0_r. f_equal. lia.
      - repeat f_equal. lia. }
    cbn [mbind Result_bind]. rewrite H2. cbn [mbind Result_bind]. rewrite set_cum by lia. cbn [mbind Result_bind].
    apply (IH _ _ _ HP2); [left; lia|]. rewrite upto_insert by lia. destruct (decide (i = i)); [|done].
    rewrite Hu in * by lia. lia.
Qed.

Lemma take_ok i fuel : forall d c k,
  packing i d c k -> page_size c i <= cap -> (n - upto c i <= fuel)%nat -> exists d' c',
    take_loop is_table_leaf ps cap fuel (Z.of_nat i) d = Ok d' /\ packing i d' c' k /\ page_size c' i <= cap /\
    (upto c' i = n \/ full c' i).
Proof.
  induction fuel as [|fuel IH]; intros d c k HP Hsz Hf; cbn [take_loop];
    pose proof HP as [[_ Hl2] Hc Hn Hk Hs Hle Hlast _ _]; rewrite Hc, upto_lookup by lia; cbn [mbind Result_bind];
    rewrite count_u16_ok; pose proof (Hle i ltac:(lia)) as Hi;
    destruct (Z.ltb_spec (Z.of_nat (upto c i)) (Z.of_nat n)); try lia.
  1, 3: exists d, c; split_and!; [done|done|done|left; lia].
  rewrite payload_len_ok by lia. cbn [mbind Result_bind]. rewrite (idx_lookup _ _ _ (Hs i ltac:(lia))). cbn [mbind Result_bind].
  replace (CELL_PTR_SIZE_BYTES + (width ps (upto c i) - 2)) with (width ps (upto c i)) by (unfold CELL_PTR_SIZE_BYTES; lia).
  destruct (Z.ltb_spec cap (page_size c i + width ps (upto c i))).
  { exists d, c. split_and!; [done|done|done|right]. split; [lia|done]. }
  assert (S i < k)%nat as Hik.
  { destruct (decide (S i = k)) as [<-|]; [|lia]. replace (S i - 1)%nat with i in Hlast by lia. lia. }
  pose proof (moved_size (upto c i)) as Hm.
  edestruct (packing_shift i d c k (upto c i + 1) (width ps (upto c i))
    (- width ps (upto c i + sep is_table_leaf)) HP Hik) as (sizes & H1 & H2 & HP2); [lia|rewrite Nat.add_1_r; cbn; lia|lia|].
  rewrite H1. cbn [mbind Result_bind]. replace (Z.of_nat (upto c i) + 1) with (Z.of_nat (upto c i + 1)) by lia.
  rewrite set_cum by lia. cbn [mbind Result_bind].
  assert ((if negb is_table_leaf then divider_size ps (Z.of_nat (upto c i + 1)) else Ok (width ps (upto c i))) =
    Ok (width ps (upto c i + sep is_table_leaf))) as ->.
  { rewrite divider_size_ok. destruct is_table_leaf; cbn [negb sep]; [by rewrite Nat.add_0_r|done]. }
  cbn [mbind Result_bind]. rewrite H2. cbn [mbind Result_bind]. apply (IH _ _ _ HP2).
  - rewrite page_size_left by lia. unfold page_size in *. rewrite Nat.add_1_r. cbn. lia.
  - rewrite upto_insert by lia. destruct (decide (i = i)); [|done]. lia.
Qed.

(** Five pages are enough: after four full pages the rest fits on one page. *)
Definition five_suffice : Prop :=
  forall c, (forall j, (j < 4)%nat -> full c j) -> W n - W (st c 4) + extra 4 <= cap.

(** The distribution [c] of all cells over [k] pages: the pages from [i] on have
    their final cells, the pages before [i] are as packed. *)
Record spreading (i : nat) (d : dist) (c : list nat) (k : nat) : Prop := mkSpreading {
  sp_lens : length (ds_sizes d) = 5%nat /\ length c = 5%nat;
  sp_cum : ds_cum d = Z.of_nat <$> c;
  sp_count : ds_count d = Z.of_nat k;
  sp_k : (i < k <= 5)%nat;
  sp_size j : (j < k)%nat -> ds_sizes d !! j = Some (page_size c j);
  sp_le j : (j < k)%nat -> (upto c j <= n)%nat;
  sp_last : upto c (k - 1) = n;
  sp_fit j : (j < k)%nat -> page_size c j <= cap;
  sp_full j : (j < i)%nat -> full c j;
  sp_start j : (i <= j)%nat -> (j < k)%nat -> (st c j <= upto c j)%nat;
  sp_cell j : (i < j)%nat -> (j < k)%nat -> (S j < k)%nat \/ narrow is_table_leaf ps cap extra -> (st c j < upto c j)%nat;
  sp_this : (is_table_leaf = true \/ (i < k - 1)%nat -> st c i < upto c i)%nat
}.

(** A full page has a cell. *)
Lemma full_cell c j : full c j -> (st c j < upto c j)%nat.
Proof.
  intros (Hn & _ & Hc). destruct (decide (upto c j <= st c j)%nat) as [Hle|]; [exfalso|lia].
  pose proof (weights_mono _ _ Hle). unfold page_size in Hc. pose proof (cell_extra (upto c j) j). lia.
Qed.

Lemma pack_ok fuel : forall i d c k,
  five_suffice -> packing i d c k -> (5 <= fuel + i)%nat -> exists d' c' k',
    pack_loop is_table_leaf ps cap fuel (Z.of_nat i) d = Ok d' /\ spreading (k' - 1) d' c' k'.
Proof.
  induction fuel as [|fuel IH]; intros i d c k H5 HP Hf; [pose proof (pk_k _ _ _ _ HP); lia|].
  cbn [pack_loop]. pose proof (pk_k _ _ _ _ HP) as Hk. rewrite (pk_count _ _ _ _ HP), (proj2 (Z.ltb_lt _ _)) by lia.
  pose proof (pk_le _ _ _ _ HP i ltac:(lia)) as Hci.
  destruct (shed_ok i (S n) d c k HP) as (d1 & c1 & k1 & H1 & HP1 & Hs1); [|lia|].
  { destruct (decide (i < 4)%nat) as [|]; [by left|right]. assert (i = 4%nat) as -> by lia.
    pose proof (pk_last _ _ _ _ HP) as Hl. replace (k - 1)%nat with 4%nat in Hl by lia. unfold page_size. rewrite Hl.
    apply H5, HP. }
  rewrite H1. cbn [mbind Result_bind].
  destruct (take_ok i (S n) d1 c1 k1 HP1 Hs1 ltac:(lia)) as (d2 & c2 & H2 & HP2 & Hs2 & Hor).
  rewrite H2. cbn [mbind Result_bind]. pose proof HP2 as [[Hl1 Hl2] Hc Hn Hk2 Hs Hle Hlast Hfull Hex].
  rewrite Hc, upto_lookup by lia. cbn [mbind Result_bind]. rewrite count_u16_ok.
  destruct (Z.leb_spec (Z.of_nat n) (Z.of_nat (upto c2 i))) as [Hge|Hlt].
  - specialize (Hle i ltac:(lia)). assert (upto c2 i = n) as Hi by lia. eexists _, c2, (S i). split; [done|].
    replace (S i - 1)%nat with i by lia. constructor; cbn [ds_sizes ds_cum ds_count]; try done; try lia.
    + intros j Hj. apply Hs. lia.
    + intros j Hj. apply (pk_le _ _ _ _ HP2). lia.
    + by replace (S i - 1)%nat with i by lia.
    + intros j Hj. destruct (decide (j = i)) as [->|]; [done|]. apply Hfull. lia.
    + intros j Hj1 Hj2. replace j with i by lia. destruct i as [|i]; [cbn; lia|]. cbn. destruct (Hfull i ltac:(lia)) as [? _].
      destruct is_table_leaf; cbn [sep]; lia.
    + intros [E|]; [|lia]. destruct i as [|i]; [pose proof (sz_count _ _ _ _ HZ); unfold lenZ in *; cbn; lia|]. cbn.
      destruct (Hfull i ltac:(lia)) as [? _]. rewrite E. cbn. lia.
  - destruct Hor as [?|Hfi]; [lia|]. assert (S i < k1)%nat as Hik.
    { destruct (decide (S i = k1)) as [<-|]; [|lia]. replace (S i - 1)%nat with i in Hlast by lia. lia. }
    rewrite Hn. destruct (Z.leb_spec (Z.of_nat k1) (Z.of_nat i + 1)); [lia|].
    replace (Z.of_nat i + 1) with (Z.of_nat (S i)) by lia. apply (IH (S i) d2 c2 k1); [done| |lia].
    constructor; try done; [lia|]. intros j Hj. destruct (decide (j = i)) as [->|]; [done|]. apply Hfull. lia.
Qed.

Lemma cell_size_ok x : (x < n)%nat -> cell_size_bytes ps (Z.of_nat x) = Ok (width ps x - 2).
Proof.
  intros Hx. unfold cell_size_bytes. rewrite payload_len_ok by done. cbn. pose proof (sz_min _ _ _ _ HZ x Hx).
  pose proof (cell_extra x 0). pose proof (sz_extra _ _ _ _ HZ 0). pose proof (sz_cap _ _ _ _ HZ).
  unfold u16. rewrite Z.mod_small by lia. done.
Qed.

Lemma weights_lt x y : (x < y <= n)%nat -> W x + 6 <= W y.
Proof.
  intros Hxy. pose proof (weights_mono (S x) y ltac:(lia)). pose proof (sz_min _ _ _ _ HZ x ltac:(lia)). cbn in *. lia.
Qed.

(** One pair of pages: the left page starts at [s] and was packed up to [x0],
    the right page ends at [e]. *)
Section pair.
Context (il : nat) (s x0 e : nat) (is_last : bool).
Context (Hs : (s < x0)%nat) (He : (x0 + sep is_table_leaf <= e <= n)%nat).
Context (Hfit : W x0 - W s + extra il <= cap) (Hfull : cap < W (S x0) - W s + extra il).
Context (Htable : is_table_leaf = true -> (x0 < e)%nat).
Context (Hright : W e - W (x0 + sep is_table_leaf) + extra (S il) <= cap).
#[local] Abbreviation left x := (W x - W s + extra il).
#[local] Abbreviation right x := (W e - W (x + sep is_table_leaf) + extra (S il)).

(** Moving a cell to the right that does not make the right page larger than
    the left one, or the first cell of an empty right page, leaves a cell on the
    left page. *)
Lemma left_keeps x :
  (s < x <= x0)%nat ->
  right x = 0 \/ right x + width ps (x - 1 + sep is_table_leaf) <= left x - width ps (x - 1) + 2 ->
  (s < x - 1)%nat.
Proof.
  intros Hx Hor. destruct (decide (x - 1 = s)%nat) as [Es|]; [exfalso|lia].
  assert (x = S s) as -> by lia. replace (S s - 1)%nat with s in Hor by lia. cbn [weights] in Hor.
  destruct (leaf_cases is_table_leaf) as [[E Hsep]|[E Hsep]]; rewrite Hsep in *.
  - destruct (sz_table _ _ _ _ HZ E) as [_ Hex]. specialize (Htable E). rewrite !Hex, !Nat.add_0_r in *.
    pose proof (weights_lt (S s) e ltac:(lia)). cbn in *. pose proof (sz_min _ _ _ _ HZ s ltac:(lia)). lia.
  - destruct (sz_other _ _ _ _ HZ E) as [Hw Hex]. pose proof (Hw s il). pose proof (Hw (S s) il). pose proof (Hex il).
    pose proof (sz_extra _ _ _ _ HZ (S il)). pose proof (weights_mono (S x0) e ltac:(lia)).
    pose proof (weights_mono (S (S s)) e ltac:(lia)). rewrite !Nat.add_1_r in *. cbn [weights] in *. pose proof (width_nonneg (S s)). destruct Hor; lia.
Qed.

(** The loop does not stop while the right page is empty and the cells are
    narrow. *)
Lemma right_gets x ptr :
  (x0 + sep is_table_leaf < e)%nat \/ narrow is_table_leaf ps cap extra ->
  (s < x <= x0)%nat -> right x <> 0 -> ptr <= 2 ->
  left x - (width ps (x - 1) - 2 + ptr) < right x + width ps (x - 1 + sep is_table_leaf) ->
  (x + sep is_table_leaf < e)%nat.
Proof.
  intros Hnar Hx Hne Hptr Hstop. destruct (decide (x + sep is_table_leaf < e)%nat) as [|Hge]; [done|exfalso].
  assert (x = x0) as -> by lia. destruct Hnar as [?|Hnar]; [lia|]. assert (e = x0 + sep is_table_leaf)%nat as He' by lia. rewrite He' in Hne, Hstop.
  destruct (leaf_cases is_table_leaf) as [[E Hsep]|[E Hsep]]; [specialize (Htable E); lia|].
  destruct Hnar as [?|Hw]; [congruence|]. rewrite Hsep in Hstop. replace (x0 - 1 + 1)%nat with x0 in Hstop by lia.
  pose proof (Hw x0 (S il)). pose proof (Hw (x0 - 1)%nat (S il)). cbn [weights] in Hfull. lia.
Qed.

Lemma spread_loop_ok fuel : forall x,
  (s < x <= x0)%nat -> (x <= fuel)%nat -> right x <= cap -> exists x',
    spread_loop ps fuel is_last (Z.of_nat x) (Z.of_nat x - 1)
      (if is_table_leaf then Z.of_nat x - 1 else Z.of_nat x - 1 + 1) (right x) (left x) =
      Ok (Z.of_nat x', right x', left x') /\
    (s < x' <= x)%nat /\
    ((x0 + sep is_table_leaf < e)%nat \/ narrow is_table_leaf ps cap extra -> x' + sep is_table_leaf < e)%nat /\ right x' <= cap.
Proof.
  induction fuel as [|fuel IH]; intros x Hx Hf Hr; [lia|]. cbn [spread_loop].
  replace (if is_table_leaf then Z.of_nat x - 1 else Z.of_nat x - 1 + 1) with (Z.of_nat (x - 1 + sep is_table_leaf))
    by (destruct is_table_leaf; cbn [sep]; lia).
  replace (Z.of_nat x - 1) with (Z.of_nat (x - 1)) by lia.
  assert (x - 1 + sep is_table_leaf < n)%nat as Hn by (destruct is_table_leaf; cbn [sep] in *; lia).
  rewrite !cell_size_ok by lia. cbn [mbind Result_bind]. cbv zeta. unfold CELL_PTR_SIZE_BYTES.
  set (ptr := if is_last then 0 else 2). assert (0 <= ptr <= 2) as Hptr by (by subst ptr; destruct is_last).
  pose proof (weights_pred x ltac:(lia)) as Hl. pose proof (moved_size (x - 1)) as Hm. replace (x - 1 + 1)%nat with x in Hm by lia.
  destruct (negb (right x =? 0) && _) eqn:Hstop.
  - exists x. split_and!; [done|lia|done| |done]. apply andb_true_iff in Hstop as [H1%negb_true_iff%Z.eqb_neq H2%Z.ltb_lt].
    intros Hnar. apply (right_gets x ptr); [done|done|done|lia|lia].
  - assert (right x = 0 \/ right x + width ps (x - 1 + sep is_table_leaf) <= left x - width ps (x - 1) + 2) as Hor.
    { apply andb_false_iff in Hstop as [H1%negb_false_iff%Z.eqb_eq|H2%Z.ltb_ge]; [by left|right; lia]. }
    pose proof (left_keeps x Hx Hor). destruct (Z.eqb_spec (Z.of_nat (x - 1)) 0); [lia|].
    rewrite checked_sub_ok by lia. cbn [mbind Result_bind]. destruct (IH (x - 1)%nat) as (x' & Hloop & ? & ? & ?); [lia|lia| |].
    { pose proof (weights_mono x x0 ltac:(lia)). pose proof (sz_min _ _ _ _ HZ (x - 1) ltac:(lia)).
      pose proof (cell_extra (x - 1 + sep is_table_leaf) 0). pose proof (sz_extra _ _ _ _ HZ 0). destruct Hor; lia. }
    exists x'. split_and!; [|lia|lia|done|done]. rewrite <- Hloop. f_equal; [destruct is_table_leaf; cbn [sep]; lia|lia|lia].
Qed.

End pair.

Lemma start_insert c i v j : (i < length c)%nat -> j <> S i -> st (<[i := v]> c) j = st c j.
Proof. intros. destruct j as [|j]; [done|]. cbn. rewrite upto_insert by done. destruct (decide (j = i)); [lia|done]. Qed.

(** A new end of page [i], with the sizes of the pages [i] and [i + 1]. *)
Lemma spreading_move i d c k v sizes :
  spreading (S i) d c k -> (st c i < v <= upto c i)%nat ->
  ((S i < k - 1)%nat \/ narrow is_table_leaf ps cap extra -> v + sep is_table_leaf < upto c (S i))%nat ->
  W (upto c (S i)) - W (v + sep is_table_leaf) + extra (S i) <= cap ->
  sizes = <[i := W v - W (st c i) + extra i]>
            (<[S i := W (upto c (S i)) - W (v + sep is_table_leaf) + extra (S i)]> (ds_sizes d)) ->
  spreading i (mkDist sizes (Z.of_nat <$> <[i := v]> c) (ds_count d)) (<[i := v]> c) k.
Proof.
  intros [[Hl1 Hl2] Hc Hn Hk Hs Hle Hlast Hfit Hfull Hstart Hcell Hthis] Hv Hv1 Hfit1 ->.
  assert (forall j, j <> i -> upto (<[i := v]> c) j = upto c j) as Hu
    by (intros; rewrite upto_insert by lia; by destruct (decide (j = i))).
  assert (upto (<[i := v]> c) i = v) as Hui by (rewrite upto_insert by lia; by destruct (decide (i = i))).
  assert (forall j, j <> i -> j <> S i -> page_size (<[i := v]> c) j = page_size c j) as Hps
    by (intros j ? ?; apply page_size_ext; [by rewrite Hu|]; intros j' ->; by rewrite Hu by lia).
  assert (st (<[i := v]> c) (S i) = v + sep is_table_leaf)%nat as Hst by (cbn; by rewrite Hui).
  pose proof (weights_mono v (upto c i) ltac:(lia)).
  constructor; cbn [ds_sizes ds_cum ds_count]; try done; try lia.
  - by rewrite !length_insert.
  - intros j Hj. destruct (decide (j = i)) as [->|]; [rewrite list_lookup_insert_eq, page_size_left by (rewrite ?length_insert; lia); done|].
    rewrite list_lookup_insert_ne by done. destruct (decide (j = S i)) as [->|].
    + rewrite list_lookup_insert_eq, page_size_right by lia. done.
    + rewrite list_lookup_insert_ne, Hps by done. by apply Hs.
  - intros j Hj. destruct (decide (j = i)) as [->|]; [rewrite Hui; specialize (Hle i ltac:(lia)); lia|]. rewrite Hu by done. by apply Hle.
  - by rewrite Hu by lia.
  - intros j Hj. destruct (decide (j = i)) as [->|]; [rewrite page_size_left by lia|destruct (decide (j = S i)) as [->|]].
    + destruct (Hfull i ltac:(lia)) as (_ & ? & _). unfold page_size in *. lia.
    + by rewrite page_size_right by lia.
    + rewrite Hps by done. by apply Hfit.
  - intros j Hj. apply (full_ext c); [by rewrite Hu by lia| |apply Hfull; lia]. intros j' ->. by rewrite Hu by lia.
  - intros j Hj1 Hj2. destruct (decide (j = i)) as [->|]; [rewrite start_insert, Hui by lia; lia|]. rewrite Hu by done.
    specialize (Hstart (S i) ltac:(lia) ltac:(lia)) as Hst1. cbn in Hst1.
    destruct (decide (j = S i)) as [->|]; [rewrite Hst; lia|]. rewrite start_insert by lia. apply Hstart; lia.
  - intros j Hj1 Hj2 Hnar. rewrite Hu by lia. destruct (decide (j = S i)) as [->|]; [rewrite Hst; apply Hv1; destruct Hnar; [left; lia|by right]|].
    rewrite start_insert by lia. by apply Hcell; [lia|..].
  - rewrite start_insert, Hui by lia. lia.
Qed.

Lemma spread_page_ok i d c k :
  spreading (S i) d c k -> exists d' c', spread_page is_table_leaf ps (Z.of_nat (S i)) d = Ok d' /\ spreading i d' c' k.
Proof.
  intros HS. pose proof HS as [[Hl1 Hl2] Hc Hn Hk Hs Hle Hlast Hfit Hfull Hstart Hcell Hthis].
  pose proof (Hfull i ltac:(lia)) as Hfi. pose proof (full_cell _ _ Hfi) as Hne. destruct Hfi as (Hlt & Hfit0 & Hover).
  unfold page_size in Hfit0, Hover. pose proof (Hle (S i) ltac:(lia)) as Hle1. pose proof (Hfit (S i) ltac:(lia)) as Hfit1.
  pose proof (Hstart (S i) ltac:(lia) ltac:(lia)) as Hth1. cbn [start_of] in Hth1, Hthis.
  unfold spread_page. replace (Z.of_nat (S i) - 1) with (Z.of_nat i) by lia.
  rewrite (idx_lookup _ _ _ (Hs (S i) ltac:(lia))). cbn [mbind Result_bind].
  rewrite (idx_lookup _ _ _ (Hs i ltac:(lia))). cbn [mbind Result_bind]. rewrite Hc, upto_lookup by lia.
  cbn [mbind Result_bind]. rewrite checked_sub_ok by lia. cbn [mbind Result_bind]. cbv zeta.
  destruct (spread_loop_ok i (st c i) (upto c i) (upto c (S i)) (Z.of_nat (S i) =? ds_count d - 1))
    with (fuel := S n) (x := upto c i) as (x' & Hloop & Hx1 & Hx2 & Hx3); try done; try lia.
  { cbn [weights]. lia. }
  { intros E. assert (upto c i + sep is_table_leaf < upto c (S i))%nat as Hx by (apply Hthis; by left). lia. }
  unfold page_size at 1 2. cbn [start_of]. rewrite Hloop. cbn [mbind Result_bind].
  rewrite set_cum by lia. cbn [mbind Result_bind]. rewrite set_idx_nat by lia. cbn [mbind Result_bind].
  rewrite set_idx_nat by (rewrite length_insert; lia). cbn [mbind Result_bind].
  assert ((if 1 <? Z.of_nat (S i) then idx (Z.of_nat <$> <[i:=x']> c) (Z.of_nat (S i) - 2) else Ok 0) =
    Ok (Z.of_nat (match i with O => O | S i' => upto c i' end))) as ->.
  { destruct i as [|i']; [done|]. rewrite (proj2 (Z.ltb_lt _ _)) by lia.
    replace (Z.of_nat (S (S i')) - 2) with (Z.of_nat i') by lia. rewrite upto_lookup by (rewrite length_insert; lia).
    rewrite upto_insert by lia. destruct (decide (i' = S i')); [lia|done]. }
  cbn [mbind Result_bind]. assert (match i with O => O | S i' => upto c i' end < x')%nat by (destruct i; cbn in *; lia).
  pass. eexists _, (<[i := x']> c). split; [done|]. apply (spreading_move i d c k x'); [done|done| |done|done].
  intros [?|?]; apply Hx2; [left; apply Hthis; by right|by right].
Qed.

Lemma spread_ok i : forall d c k,
  spreading i d c k -> exists d' c', spread is_table_leaf ps i d = Ok d' /\ spreading 0 d' c' k.
Proof.
  induction i as [|i IH]; intros d c k HS; cbn [spread]; [by exists d, c|].
  destruct (spread_page_ok i d c k HS) as (d1 & c1 & -> & HS1). cbn [mbind Result_bind]. by eapply IH.
Qed.

(** ** Steps 4 and 5 *)

Lemma redistribute_ok d c k :
  five_suffice -> packing 0 d c k -> exists d' c' k',
    redistribute is_table_leaf ps cap d = Ok d' /\ spreading 0 d' c' k'.
Proof.
  intros H5 HP. unfold redistribute.
  destruct (pack_ok 6 0 d c k H5 HP ltac:(lia)) as (d1 & c1 & k1 & H1 & HS). change (Z.of_nat 0) with 0 in H1.
  rewrite H1. cbn [mbind Result_bind]. rewrite (sp_count _ _ _ _ HS).
  replace (Z.to_nat (Z.of_nat k1 - 1)) with (k1 - 1)%nat by lia.
  destruct (spread_ok _ _ _ _ HS) as (d2 & c2 & H2 & HS2). by exists d2, c2, k1.
Qed.

(** On pages without dividers: five pages are enough when the cells can be cut
    into five runs that each fit on a page. *)
Lemma five_runs (b : nat -> nat) :
  is_table_leaf = true -> b 0%nat = 0%nat -> (n <= b 5%nat)%nat -> (forall j, (j < 5)%nat -> W (b (S j)) - W (b j) <= cap) ->
  five_suffice.
Proof.
  intros E H0 Hb Hruns c Hfull. destruct (sz_table _ _ _ _ HZ E) as [_ Hex].
  assert (sep is_table_leaf = 0%nat) as Hsep by (by rewrite E).
  assert (forall j, (j <= 4)%nat -> (b j <= st c j)%nat) as Hdom.
  { induction j as [|j IH]; intros Hj; [by rewrite H0|]. specialize (IH ltac:(lia)). cbn. rewrite Hsep, Nat.add_0_r.
    destruct (Hfull j ltac:(lia)) as (_ & _ & Hover). destruct (decide (b (S j) <= upto c j)%nat) as [|Hlt]; [done|exfalso].
    pose proof (weights_mono (S (upto c j)) (b (S j)) ltac:(lia)). pose proof (weights_mono _ _ IH). specialize (Hruns j ltac:(lia)).
    unfold page_size in Hover. rewrite Hex in Hover. cbn [weights] in *. lia. }
  pose proof (weights_mono _ _ (Hdom 4%nat ltac:(lia))). pose proof (weights_mono _ _ Hb). specialize (Hruns 4%nat ltac:(lia)).
  rewrite Hex. lia.
Qed.

(** On pages with dividers: five pages are enough for five pages of bytes. *)
Lemma five_pages :
  is_table_leaf = false -> W n + extra 0 + extra 1 + extra 2 + extra 3 + extra 4 <= 5 * cap -> five_suffice.
Proof.
  intros E Hsum c Hfull. assert (sep is_table_leaf = 1%nat) as Hsep by (by rewrite E).
  pose proof (Hfull 0%nat ltac:(lia)) as (_ & _ & H0). pose proof (Hfull 1%nat ltac:(lia)) as (_ & _ & H1).
  pose proof (Hfull 2%nat ltac:(lia)) as (_ & _ & H2). pose proof (Hfull 3%nat ltac:(lia)) as (_ & _ & H3).
  unfold page_size in *. cbn [start_of] in *. rewrite Hsep, Nat.add_1_r in *. cbn [weights] in *. lia.
Qed.

End pack.
