(* ===== verification/BtreeFree.v ===== *)
(** * BtreeFree: freeing the cells that leave a page

    [page_free_array] collects the regions of the cells that leave a page in a
    small buffer, merging contiguous ones, and frees them.  The other cells of
    the page are kept. *)

From stdpp Require Import sets.
From S2P Require Import Prelude Varint OnDisk Page BtreePage BtreeSpace BtreeCells BtreeDefrag BtreeBalance.

Section free.
Context (usable : Z) (Hdims : dims 0 usable).

(** The regions of the cells of page [j] among references. *)
Definition own_block (j : nat) (r : cellref) : option block :=
  match r with
  | InPage j' start len => if bool_decide (j' = j) then Some (start, len) else None
  | _ => None
  end.
Definition own_blocks (j : nat) (rs : list cellref) : list block := omap (own_block j) rs.

(** The buffered ranges as blocks. *)
Definition held_blocks (buffered : list (Z * Z)) : list block :=
  (fun r : Z * Z => (r.1, r.2 - r.1)) <$> buffered.

(** Two used regions that touch are one used region. *)
Lemma space_ok_join buf lo ca fbs a n m used :
  space_ok 0 usable buf lo ca fbs ((a, n) :: (a + n, m) :: used) ->
  space_ok 0 usable buf lo ca fbs ((a, n + m) :: used).
Proof.
  intros []. constructor; try done.
  - apply Forall_cons in so_used as [[H1 ?] [[H2 ?] Hu]%Forall_cons]. apply Forall_cons. split; [|done].
    unfold within, bend in *. cbn in *. lia.
  - pose proof (ascending_forall _ _ _ so_asc) as Hf. apply Forall_cons in so_used as [[_ H1] [[_ H2] Hu]%Forall_cons].
    cbn in H1, H2. pose proof (disj_merge (a, n) (a + n, m) (used ++ fbs) so_disj) as Hd. unfold bend in Hd. cbn in Hd, so_disj |- *.
    replace (a + n + m - a) with (n + m) in Hd by lia. apply Hd; try lia.
    apply Forall_app. split; eapply Forall_impl; eauto; cbn; tauto.
  - rewrite !sizes_cons in *. cbn in *. lia.
Qed.

Lemma merge_buffered_ok buf lo ca fbs offset len buffered buffered' used :
  space_ok 0 usable buf lo ca fbs ((offset, len) :: held_blocks buffered ++ used) ->
  merge_buffered buffered offset (offset + len) = Some buffered' ->
  space_ok 0 usable buf lo ca fbs (held_blocks buffered' ++ used).
Proof.
  revert buffered' used. induction buffered as [|[o e] buffered IH]; intros buffered' used HS Hm; [done|].
  cbn in Hm. cbn in HS. destruct (Z.eqb_spec o (offset + len)) as [->|].
  - injection Hm as <-. cbn. replace (e - offset) with (len + (e - (offset + len))) by lia.
    by apply space_ok_join.
  - destruct (Z.eqb_spec e offset) as [->|].
    + injection Hm as <-. cbn. replace (offset + len - o) with ((offset - o) + len) by lia.
      apply space_ok_join. replace (o + (offset - o)) with offset by lia.
      eapply space_ok_perm; [exact HS|constructor].
    + destruct (merge_buffered buffered offset (offset + len)) as [b|] eqn:E; [|done]. injection Hm as <-.
      cbn. eapply (space_ok_perm _ _ _ _ _ _ (held_blocks b ++ (o, e - o) :: used)).
      * apply (IH b); [|done]. eapply space_ok_perm; [exact HS|].
        constructor. apply Permutation_middle.
      * symmetry. apply Permutation_middle.
Qed.

(** Freeing keeps the content area or moves it up. *)
Lemma keeps_up buf1 buf2 buf3 ca ca' used :
  keeps 0 usable buf1 buf2 ca used -> keeps 0 usable buf2 buf3 ca' used -> ca <= ca' ->
  keeps 0 usable buf1 buf3 ca used.
Proof.
  intros HK1 [] Hca. eapply keeps_trans; [exact HK1|]. constructor; try done. intros. apply k_array; lia.
Qed.

Lemma keeps_used buf buf' ca used used' :
  keeps 0 usable buf buf' ca used -> (forall u, u ∈ used' -> u ∈ used) -> keeps 0 usable buf buf' ca used'.
Proof. intros [] Hu. constructor; try done. intros u a n Hin. apply k_used. auto. Qed.

Lemma free_buffered_ok buffered : forall buf lo ca fbs used,
  space_ok 0 usable buf lo ca fbs (held_blocks buffered ++ used) ->
  freed 0 usable buf lo ca used (free_buffered usable 0 buf buffered).
Proof.
  induction buffered as [|[o e] buffered IH]; intros buf lo ca fbs used HS; cbn [free_buffered].
  - exists buf, ca, fbs. split_and!; [done|done|lia|apply keeps_refl].
  - pose proof (Forall_inv (so_used _ _ _ _ _ _ _ HS)) as [_ H4]. cbn in H4.
    unfold checked_sub. replace (o <=? e) with true by lia. cbn [mbind Result_bind]. cbn in HS.
    destruct (free_cell_range_ok 0 usable Hdims _ _ _ _ _ _ _ HS) as (buf1 & ca1 & fbs1 & -> & HS1 & Hca & HK1).
    cbn [mbind Result_bind]. destruct (IH _ _ _ _ _ HS1) as (buf2 & ca2 & fbs2 & -> & HS2 & Hca2 & HK2).
    exists buf2, ca2, fbs2. split_and!; [done|done|lia|]. eapply keeps_up; [|exact HK2|lia].
    eapply keeps_used; [exact HK1|]. intros u Hu. apply elem_of_app. by right.
Qed.

(** One cell goes into the buffer. *)
Lemma buffer_cell_ok buf lo ca fbs offset len buffered used :
  space_ok 0 usable buf lo ca fbs ((offset, len) :: held_blocks buffered ++ used) ->
  exists buf' ca' fbs' buffered',
    match merge_buffered buffered offset (offset + len) with
    | Some buffered => Ok (buf, buffered)
    | None =>
        '(buf, buffered) ←
          (if 10 <=? lenZ buffered
           then buf ← free_buffered usable 0 buf buffered; Ok (buf, [])
           else Ok (buf, buffered));
        Ok (buf, buffered ++ [(offset, offset + len)])
    end = Ok (buf', buffered') /\
    space_ok 0 usable buf' lo ca' fbs' (held_blocks buffered' ++ used) /\ ca <= ca' /\
    keeps 0 usable buf buf' ca used.
Proof.
  intros HS. destruct (merge_buffered _ _ _) as [b|] eqn:E.
  - exists buf, ca, fbs, b. split_and!; [done|by eapply merge_buffered_ok|lia|apply keeps_refl].
  - destruct (10 <=? lenZ buffered).
    + assert (space_ok 0 usable buf lo ca fbs (held_blocks buffered ++ (offset, len) :: used)) as HS'.
      { eapply space_ok_perm; [exact HS|]. by rewrite <- Permutation_middle. }
      destruct (free_buffered_ok _ _ _ _ _ _ HS') as (buf1 & ca1 & fbs1 & -> & HS1 & Hca & HK).
      cbn [mbind Result_bind]. exists buf1, ca1, fbs1, [(offset, offset + len)]. split_and!; [done| |lia|].
      * cbn. by replace (offset + len - offset) with len by lia.
      * eapply keeps_used; [exact HK|]. intros u Hu. by right.
    + cbn [mbind Result_bind]. exists buf, ca, fbs, (buffered ++ [(offset, offset + len)]).
      split_and!; [done| |lia|apply keeps_refl]. unfold held_blocks. rewrite fmap_app. cbn.
      replace (offset + len - offset) with len by lia. rewrite <- app_assoc. cbn.
      eapply space_ok_perm; [exact HS|]. by rewrite <- Permutation_middle.
Qed.

Lemma free_array_loop_ok j arr used n : forall (i : nat) buf lo ca fbs buffered removed,
  space_ok 0 usable buf lo ca fbs (held_blocks buffered ++ own_blocks j (take n (drop i arr)) ++ used) ->
  (i + n <= length arr)%nat ->
  exists buf' ca' fbs' buffered',
    free_array_loop usable n j 0 arr (Z.of_nat i) buf buffered removed =
      Ok (buf', buffered', removed + lenZ (own_blocks j (take n (drop i arr)))) /\
    space_ok 0 usable buf' lo ca' fbs' (held_blocks buffered' ++ used) /\ ca <= ca' /\
    keeps 0 usable buf buf' ca used.
Proof.
  induction n as [|n IH]; intros i buf lo ca fbs buffered removed HS Hi.
  { exists buf, ca, fbs, buffered. cbn. rewrite Z.add_0_r. split_and!; [done|done|lia|apply keeps_refl]. }
  destruct (lookup_lt_is_Some_2 arr i ltac:(lia)) as [r Hr].
  assert (drop i arr = r :: drop (S i) arr) as Hdr by (by rewrite (drop_S arr r i)).
  rewrite Hdr in *. cbn [take] in *. cbn [free_array_loop].
  assert (idx arr (Z.of_nat i) = Ok r) as ->.
  { unfold idx, getZ. replace (Z.of_nat i <? 0) with false by lia. rewrite Nat2Z.id, Hr. done. }
  cbn [mbind Result_bind].
  assert (own_block j r = None -> exists buf' ca' fbs' buffered',
    free_array_loop usable n j 0 arr (Z.of_nat i + 1) buf buffered removed =
      Ok (buf', buffered', removed + lenZ (own_blocks j (r :: take n (drop (S i) arr)))) /\
    space_ok 0 usable buf' lo ca' fbs' (held_blocks buffered' ++ used) /\ ca <= ca' /\
    keeps 0 usable buf buf' ca used) as Hskip.
  { intros Ho. unfold own_blocks in *. cbn in HS |- *. rewrite Ho in *.
    replace (Z.of_nat i + 1) with (Z.of_nat (S i)) by lia. apply IH with (fbs := fbs); [done|lia]. }
  destruct r as [j' start len|j' k len|b]; [|by apply Hskip..].
  destruct (decide (j' = j)) as [->|Hne].
  2: { rewrite bool_decide_false by done. cbn. apply Hskip. cbn. by rewrite bool_decide_false. }
  rewrite bool_decide_true by done. unfold own_blocks in *. cbn [omap list_omap own_block] in *.
  rewrite bool_decide_true in * by done. cbn [app] in HS.
  assert (space_ok 0 usable buf lo ca fbs ((start, len) :: held_blocks buffered ++
    omap (own_block j) (take n (drop (S i) arr)) ++ used)) as HS'.
  { eapply space_ok_perm; [exact HS|]. symmetry. apply Permutation_middle. }
  pose proof (Forall_inv (so_used _ _ _ _ _ _ _ HS')) as [Hw H4]. pose proof (so_lo _ _ _ _ _ _ _ HS') as Hlo.
  unfold within, bend in Hw. cbn in Hw, H4. destruct Hdims.
  replace (0 <=? start) with true by lia. replace (start <? usable) with true by lia. cbn [andb].
  do 2 pass. rewrite Z.sub_0_r.
  destruct (buffer_cell_ok _ _ _ _ _ _ _ _ HS') as (buf1 & ca1 & fbs1 & b1 & -> & HS1 & Hca1 & HK1).
  cbn [mbind Result_bind]. replace (Z.of_nat i + 1) with (Z.of_nat (S i)) by lia.
  destruct (IH (S i) buf1 lo ca1 fbs1 b1 (removed + 1) HS1 ltac:(lia)) as (buf2 & ca2 & fbs2 & b2 & -> & HS2 & Hca2 & HK2).
  exists buf2, ca2, fbs2, b2. split_and!; [|done|lia|].
  - f_equal. f_equal. unfold lenZ. cbn [length]. lia.
  - eapply keeps_up; [|exact HK2|lia]. eapply keeps_used; [exact HK1|]. intros u Hu. apply elem_of_app. by right.
Qed.

Context (t : PageType).
#[local] Abbreviation wf := (page_wf 0 usable t).
#[local] Abbreviation arr0 := (arr 0 t).

(** The page after the cells of [own] are freed, with the old pointer array. *)
Lemma page_free_array_ok j p first count cell_array ca fbs ptrs cells kept :
  header_offset p = 0 -> wf (as_ptr p) ca fbs ptrs cells -> 0 <= first -> 0 <= count ->
  first + count <= lenZ cell_array ->
  let own := own_blocks j (take (Z.to_nat count) (drop (Z.to_nat first) cell_array)) in
  regions ptrs cells ≡ₚ own ++ kept ->
  exists buf1 ca' fbs',
    page_free_array usable j p first count cell_array =
      Ok (lenZ own, set_buffer p (splice buf1 3 (be_split 2 (lenZ cells - lenZ own)))) /\
    space_ok 0 usable buf1 (lo_of 0 t cells) ca' fbs' kept /\ ca <= ca' /\
    keeps 0 usable (as_ptr p) buf1 ca kept /\ lenZ own <= lenZ cells.
Proof.
  intros Hb HW Hf Hc Hl own Hperm. pose proof HW as [HC HS]. pose proof HC as [HA Hlen _]. pose proof HS as [].
  destruct Hdims. pose proof (arr_range 0 t). unfold page_free_array. rewrite Hb.
  rewrite slice_sub by lia. cbn [mbind Result_bind].
  destruct (free_array_loop_ok j cell_array kept (Z.to_nat count) (Z.to_nat first) (as_ptr p) (lo_of 0 t cells) ca fbs [] 0)
    as (buf1 & ca1 & fbs1 & b1 & Hrun & HS1 & Hca1 & HK1).
  { cbn. eapply space_ok_perm; [exact HS|]. exact Hperm. }
  { unfold lenZ in *. lia. }
  rewrite Z2Nat.id in Hrun by lia. rewrite Hrun. cbn [mbind Result_bind].
  destruct (free_buffered_ok _ _ _ _ _ _ HS1) as (buf2 & ca2 & fbs2 & -> & HS2 & Hca2 & HK2). cbn [mbind Result_bind].
  pose proof (keeps_up _ _ _ _ _ _ HK1 HK2 ltac:(lia)) as HK. unfold lo_of in so_lo.
  pose proof (array_keep _ _ _ _ _ _ _ _ HA HK ltac:(rewrite Hlen; lia)) as HA2.
  pose proof (k_len _ _ _ _ _ _ HK) as Hl2. rewrite (cell_count_ok _ usable _ Hdims _ _ HA2) by lia. cbn [mbind Result_bind].
  assert (lenZ own <= lenZ cells) as Hown.
  { apply Permutation_length in Hperm. unfold regions in Hperm. rewrite length_app, length_zip_with in Hperm.
    unfold lenZ in *. fold own. lia. }
  fold own. unfold checked_sub. replace (0 + lenZ own <=? lenZ ptrs) with true by lia. cbn [mbind Result_bind].
  rewrite (write_count_ok 0 usable) by (done || lia). cbn [mbind Result_bind].
  exists buf2, ca2, fbs2. split_and!; [|done|lia|done|done].
  rewrite Z.add_0_l, Hlen. done.
Qed.

Lemma regions_take a ptrs cells : regions (take a ptrs) (take a cells) = take a (regions ptrs cells).
Proof. unfold regions. by rewrite zip_with_take. Qed.

Lemma regions_drop a ptrs cells : regions (drop a ptrs) (drop a cells) = drop a (regions ptrs cells).
Proof. unfold regions. by rewrite zip_with_drop. Qed.

(** Where a used region is. *)
Lemma space_in buf lo ca fbs used p n :
  space_ok 0 usable buf lo ca fbs used -> (p, n) ∈ used -> ca <= p /\ 4 <= n /\ p + n <= usable.
Proof.
  intros HS Hin. pose proof (so_used _ _ _ _ _ _ _ HS) as Hu. rewrite Forall_forall in Hu.
  destruct (Hu _ Hin) as [Hw H4]. unfold within, bend in Hw. cbn in *. lia.
Qed.

(** The cells after the first [a] leave the page. *)
Lemma free_suffix_ok j p first count cell_array ca fbs ptrs cells (a : nat) :
  header_offset p = 0 -> wf (as_ptr p) ca fbs ptrs cells -> 0 <= first -> 0 <= count ->
  first + count <= lenZ cell_array -> (a <= length cells)%nat ->
  own_blocks j (take (Z.to_nat count) (drop (Z.to_nat first) cell_array)) = drop a (regions ptrs cells) ->
  exists buf' ca' fbs',
    page_free_array usable j p first count cell_array = Ok (lenZ cells - Z.of_nat a, set_buffer p buf') /\
    wf buf' ca' fbs' (take a ptrs) (take a cells) /\ outer 0 usable t (as_ptr p) buf'.
Proof.
  intros Hb HW Hf Hc Hl Ha Hown. pose proof HW as [HC HS]. pose proof HC as [HA Hlen Hcells]. pose proof HS as [].
  destruct Hdims. pose proof (arr_range 0 t).
  destruct (page_free_array_ok j p first count cell_array ca fbs ptrs cells (take a (regions ptrs cells)))
    as (buf1 & ca1 & fbs1 & Hrun & HS1 & Hca & HK & _); try done.
  { rewrite Hown. rewrite Permutation_app_comm. by rewrite take_drop. }
  assert (length (regions ptrs cells) = length cells) as Hlr by (unfold regions; rewrite length_zip_with; unfold lenZ in *; lia).
  assert (lenZ (drop a (regions ptrs cells)) = lenZ cells - Z.of_nat a) as Hld by (unfold lenZ; rewrite length_drop; lia).
  rewrite Hown, Hld in Hrun. replace (lenZ cells - (lenZ cells - Z.of_nat a)) with (Z.of_nat a) in Hrun by lia.
  pose proof (k_len _ _ _ _ _ _ HK) as Hl1. unfold lo_of in so_lo. pose proof (be_split_lenZ 2 (Z.of_nat a)).
  pose proof (array_keep _ _ _ _ _ _ _ _ HA HK ltac:(rewrite Hlen; lia)) as HA1.
  eexists _, ca1, fbs1. split_and!; [exact Hrun| |].
  - rewrite <- regions_take in HS1. constructor; [constructor; [constructor| |]|].
    + rewrite get8_ne by lia. apply (ar_type _ _ _ _ HA1).
    + rewrite get16_splice; [|lia|lia|unfold is_u16, lenZ in *; lia]. unfold lenZ in *. rewrite length_take. lia.
    + intros i q Hq. rewrite get16_ne by lia. apply (ar_ptrs _ _ _ _ HA1).
      by apply lookup_take_Some in Hq as [? _].
    + unfold lenZ in *. rewrite !length_take. lia.
    + intros i q c Hq Hc'. pose proof (regions_elem _ _ _ _ _ Hq Hc') as Hin.
      pose proof (space_in _ _ _ _ _ _ _ HS1 Hin). apply lookup_take_Some in Hq as [Hq _]. apply lookup_take_Some in Hc' as [Hc' _].
      destruct (Hcells i q c Hq Hc') as [Hs Hcell]. split; [|done]. rewrite sub_splice_ne by lia.
      rewrite (k_used _ _ _ _ _ _ HK (q, region_size c)); [done| |cbn; lia|unfold bend, region_size; cbn; lia].
      by rewrite <- regions_take.
    + apply (space_ok_splice _ _ Hdims); [|apply be_split_ok|left; lia].
      eapply space_ok_lo; [exact HS1|]. unfold lo_of, lenZ in *. rewrite length_take. lia.
  - pose proof (lenZ_nonneg cells). eapply outer_trans; [by eapply keeps_outer; [exact HK|lia]|].
    apply (outer_splice 0 usable t Hdims); lia.
Qed.

(** The pointer array of any page of this type. *)
Lemma array_start_ok buf :
  get8 buf 0 = page_type_u8 t -> 8 <= lenZ buf ->
  cell_pointer_array_offset_and_size 0 buf = Ok (arr0, 2 * get16 buf 3).
Proof.
  intros Ht Hl. unfold cell_pointer_array_offset_and_size, cell_pointer_array_offset, cell_pointer_array_size, header_size,
    cell_count, read_u8, BTREE_PAGE_TYPE, BTREE_CELL_COUNT, CELL_PTR_SIZE_BYTES.
  rewrite idx_get8, read_u16_ok by lia. cbn [mbind Result_bind]. rewrite !Z.add_0_l, Ht, Z.mul_comm.
  unfold arr, hsize_of. by destruct t.
Qed.

(** The first [a] cells leave the page. *)
Lemma free_prefix_ok j p first count cell_array ca fbs ptrs cells (a : nat) :
  header_offset p = 0 -> wf (as_ptr p) ca fbs ptrs cells -> 0 <= first -> 0 <= count ->
  first + count <= lenZ cell_array -> (a <= length cells)%nat ->
  own_blocks j (take (Z.to_nat count) (drop (Z.to_nat first) cell_array)) = take a (regions ptrs cells) ->
  exists p1 buf' ca' fbs',
    page_free_array usable j p first count cell_array = Ok (Z.of_nat a, p1) /\
    shift_cells_left p1 (lenZ cells) (Z.of_nat a) = Ok (set_buffer p buf') /\
    wf buf' ca' fbs' (drop a ptrs) (drop a cells) /\ outer 0 usable t (as_ptr p) buf'.
Proof.
  intros Hb HW Hf Hc Hl Ha Hown. pose proof HW as [HC HS]. pose proof HC as [HA Hlen Hcells]. pose proof HS as [].
  destruct Hdims. pose proof (arr_range 0 t).
  destruct (page_free_array_ok j p first count cell_array ca fbs ptrs cells (drop a (regions ptrs cells)))
    as (buf1 & ca1 & fbs1 & Hrun & HS1 & Hca & HK & _); try done.
  { rewrite Hown. by rewrite take_drop. }
  assert (length (regions ptrs cells) = length cells) as Hlr by (unfold regions; rewrite length_zip_with; unfold lenZ in *; lia).
  assert (lenZ (take a (regions ptrs cells)) = Z.of_nat a) as Hld by (unfold lenZ; rewrite length_take; lia).
  rewrite Hown, Hld in Hrun.
  pose proof (k_len _ _ _ _ _ _ HK) as Hl1. unfold lo_of in so_lo. set (n := lenZ cells - Z.of_nat a) in *.
  pose proof (be_split_lenZ 2 n). assert (0 <= n <= lenZ cells) by (unfold n, lenZ; lia).
  pose proof (array_keep _ _ _ _ _ _ _ _ HA HK ltac:(rewrite Hlen; lia)) as HA1.
  set (buf2 := splice buf1 3 (be_split 2 n)) in *. assert (lenZ buf2 = lenZ (as_ptr p)) as Hl2 by (unfold buf2; rewrite lenZ_splice; lia).
  set (x := sub buf2 (arr0 + 2 * Z.of_nat a) (2 * n)).
  assert (lenZ x = 2 * n) as Hx by (apply lenZ_sub; unfold n in *; lia).
  eexists _, (splice buf2 arr0 x), ca1, fbs1. split_and!; [exact Hrun| | |].
  - unfold shift_cells_left. rewrite !as_ptr_set. change (header_offset (set_buffer p buf2)) with (header_offset p). rewrite Hb.
    rewrite array_start_ok; [|unfold buf2; rewrite get8_ne by lia; apply (ar_type _ _ _ _ HA1)|lia].
    cbn [mbind Result_bind]. rewrite copy_within_ok by (unfold n in *; lia). cbn [mbind Result_bind].
    replace (arr0 + lenZ cells * 2 - (arr0 + Z.of_nat a * 2)) with (2 * n) by (unfold n; lia).
    replace (arr0 + Z.of_nat a * 2) with (arr0 + 2 * Z.of_nat a) by lia. done.
  - rewrite <- regions_drop in HS1. constructor; [constructor; [constructor| |]|].
    + rewrite get8_ne by lia. unfold buf2. rewrite get8_ne by lia. apply (ar_type _ _ _ _ HA1).
    + rewrite get16_ne by lia. unfold buf2. rewrite get16_splice; [|lia|lia|unfold is_u16; lia].
      unfold n, lenZ in *. rewrite length_drop. lia.
    + intros i q Hq. rewrite lookup_drop in Hq. pose proof (lookup_lt_Some _ _ _ Hq). unfold n, lenZ in *.
      unfold get16. rewrite sub_splice_in by (unfold lenZ; lia). unfold x. rewrite sub_sub by lia.
      unfold buf2. rewrite sub_splice_ne by (unfold lenZ; lia). rewrite <- (ar_ptrs _ _ _ _ HA1 _ _ Hq). unfold get16.
      f_equal. f_equal. lia.
    + unfold lenZ in *. rewrite !length_drop. lia.
    + intros i q c Hq Hc'. pose proof (regions_elem _ _ _ _ _ Hq Hc') as Hin.
      pose proof (space_in _ _ _ _ _ _ _ HS1 Hin). rewrite lookup_drop in Hq. rewrite lookup_drop in Hc'.
      destruct (Hcells _ q c Hq Hc') as [Hs Hcell]. split; [|done]. rewrite sub_splice_ne by (unfold n in *; lia).
      unfold buf2. rewrite sub_splice_ne by lia.
      rewrite (k_used _ _ _ _ _ _ HK (q, region_size c)); [done| |cbn; lia|unfold bend, region_size; cbn; lia].
      by rewrite <- regions_drop.
    + apply (space_ok_splice _ _ Hdims); [|by apply sub_ok, splice_ok; [apply HS1|apply be_split_ok]|right; left; unfold n in *; lia].
      apply (space_ok_splice _ _ Hdims); [|apply be_split_ok|left; lia].
      eapply space_ok_lo; [exact HS1|]. unfold lo_of, lenZ in *. rewrite length_drop. lia.
  - pose proof (lenZ_nonneg cells). eapply outer_trans; [by eapply keeps_outer; [exact HK|lia]|].
    apply (outer_trans _ _ _ _ buf2); apply (outer_splice 0 usable t Hdims); unfold n in *; lia.
Qed.

End free.
