(* ===== verification/BtreeBulk.v ===== *)
(** * BtreeBulk: editing a page during balancing

    [page_insert_array] puts a run of cells on a defragmented page, and
    [edit_page] turns a page that holds one range of the cell array into a
    page that holds another range. *)

From stdpp Require Import sets.
From S2P Require Import Prelude Varint OnDisk Page BtreePage BtreeSpace BtreeCells BtreeDefrag BtreeInsert.
From S2P Require Import BtreeBalance BtreeFree.

(** ** References and pages *)

(** A reference that does not point into the buffer of page [j]. *)
Definition outside (j : nat) (r : cellref) : Prop :=
  match r with InPage j' _ _ => j' <> j | _ => True end.

(** A reference to the bytes [c], not in the buffer of page [j]. *)
Definition refers (pages : list PageInner) (j : nat) (r : cellref) (c : bytes) : Prop :=
  deref pages r = Ok c /\ ref_len r = lenZ c /\ outside j r.

(** Such a reference reads the same bytes after the buffer of page [j] changes. *)
Lemma deref_update pages j p p' r :
  pages !! j = Some p -> overflow_cells p' = overflow_cells p -> outside j r ->
  deref (<[j := p']> pages) r = deref pages r.
Proof.
  intros Hp Hov Hr. destruct r as [j' s l|j' k l|d]; cbn in *; [|destruct (decide (j' = j)) as [->|]|done].
  - by rewrite list_lookup_insert_ne.
  - rewrite list_lookup_insert_eq, Hp by (by eapply lookup_lt_Some). cbn. by rewrite Hov.
  - by rewrite list_lookup_insert_ne.
Qed.

Lemma refers_update pages j p p' r c :
  pages !! j = Some p -> overflow_cells p' = overflow_cells p -> refers pages j r c -> refers (<[j := p']> pages) j r c.
Proof. intros Hp Hov (Hd & Hl & Ho). split_and!; [|done|done]. by rewrite (deref_update _ _ p). Qed.

Lemma set_buffer_same p buf : buffer p = Some buf -> set_buffer p buf = p.
Proof. intros H. destruct p. cbn in *. by rewrite H. Qed.

Lemma region_size_ge c : 4 <= region_size c.
Proof. unfold region_size. lia. Qed.

Definition total_size (cs : list bytes) : Z := foldr (fun c z => region_size c + z) 0 cs.

Lemma total_size_nonneg cs : 0 <= total_size cs.
Proof. induction cs as [|c cs IH]; cbn; [done|]. pose proof (region_size_ge c). unfold total_size in IH. lia. Qed.

Lemma total_size_app cs ds : total_size (cs ++ ds) = total_size cs + total_size ds.
Proof. induction cs as [|c cs IH]; cbn; [done|]. unfold total_size in *. lia. Qed.

(** Where cells are placed in front of the content area. *)
Fixpoint place (ca : Z) (cs : list bytes) : list Z :=
  match cs with [] => [] | c :: cs' => (ca - region_size c) :: place (ca - region_size c) cs' end.

Lemma place_length ca cs : length (place ca cs) = length cs.
Proof. revert ca. induction cs; intros ca; cbn; auto. Qed.

Section bulk.
Context (usable : Z) (Hdims : dims 0 usable) (t : PageType).
#[local] Abbreviation wf := (page_wf 0 usable t).
#[local] Abbreviation arr0 := (arr 0 t).

(** The references of the cells [cs], from index [i] on. *)
Definition refs_at (pages : list PageInner) (j : nat) (cell_array : list cellref) (i : nat) (cs : list bytes) : Prop :=
  forall (k : nat) c, cs !! k = Some c -> exists r, cell_array !! (i + k)%nat = Some r /\ refers pages j r c.

Lemma refs_at_cons pages j cell_array i c cs :
  refs_at pages j cell_array i (c :: cs) ->
  (exists r, cell_array !! i = Some r /\ refers pages j r c) /\ refs_at pages j cell_array (S i) cs.
Proof.
  intros H. split.
  - destruct (H 0%nat c eq_refl) as (r & Hr & ?). rewrite Nat.add_0_r in Hr. eauto.
  - intros k d Hd. destruct (H (S k) d Hd) as (r & Hr & ?). exists r. by rewrite Nat.add_succ_comm.
Qed.

Lemma refs_at_update pages j p p' cell_array i cs :
  pages !! j = Some p -> overflow_cells p' = overflow_cells p ->
  refs_at pages j cell_array i cs -> refs_at (<[j := p']> pages) j cell_array i cs.
Proof.
  intros Hp Hov H k c Hc. destruct (H k c Hc) as (r & ? & ?). exists r. split; [done|]. by eapply refers_update.
Qed.

Lemma total_payload_size_ok pages j cell_array cs : forall i,
  refs_at pages j cell_array i cs ->
  total_payload_size (length cs) cell_array (Z.of_nat i) = Ok (total_size cs).
Proof.
  induction cs as [|c cs IH]; intros i H; cbn; [done|].
  apply refs_at_cons in H as [(r & Hr & _ & Hl & _) H]. rewrite (idx_lookup _ _ _ Hr). cbn [mbind Result_bind].
  replace (Z.of_nat i + 1) with (Z.of_nat (S i)) by lia. rewrite (IH _ H). cbn. rewrite Hl.
  unfold MINIMUM_CELL_SIZE. by rewrite Z.max_comm.
Qed.

(** What the loop of [page_insert_array] writes. *)
Record written (buf buf' : bytes) (array s ca : Z) (cs : list bytes) : Prop := mkWritten {
  wr_len : lenZ buf' = lenZ buf;
  wr_ok : bytes_ok buf';
  wr_same : forall a n, 0 <= a ->
    a + n <= array + 2 * s \/ (array + 2 * (s + lenZ cs) <= a /\ a + n <= ca - total_size cs) \/ ca <= a ->
    sub buf' a n = sub buf a n;
  wr_ptr : forall (k : nat) q, place ca cs !! k = Some q -> get16 buf' (array + 2 * (s + Z.of_nat k)) = q;
  wr_cell : forall (k : nat) q c, place ca cs !! k = Some q -> cs !! k = Some c -> sub buf' q (lenZ c) = c
}.

Lemma insert_array_loop_ok j cell_array array cs : forall (i : nat) pages p buf s ca,
  pages !! j = Some p -> buffer p = Some buf -> bytes_ok buf -> refs_at pages j cell_array i cs -> Forall bytes_ok cs ->
  0 <= array -> 0 <= s -> array + 2 * (s + lenZ cs) <= ca - total_size cs -> ca <= lenZ buf -> ca <= 65536 ->
  exists buf', insert_array_loop (length cs) pages j cell_array (Z.of_nat i) array s ca =
      Ok (<[j := set_buffer p buf']> pages, ca - total_size cs) /\
    written buf buf' array s ca cs.
Proof.
  induction cs as [|c cs IH]; intros i pages p buf s ca Hp Hbuf Hb Hr Hcs Ha Hs Hfit Hca H64.
  - exists buf. cbn. rewrite set_buffer_same, list_insert_id, Z.sub_0_r by done. split; [done|]. constructor; done.
  - apply refs_at_cons in Hr as [(r & Hr & Hd & Hl & Ho) Hrs]. apply Forall_cons in Hcs as [Hc Hcs].
    pose proof (region_size_ge c). pose proof (total_size_nonneg cs). pose proof (lenZ_nonneg cs).
    assert (lenZ (c :: cs) = 1 + lenZ cs) as Hlc by (unfold lenZ; cbn [length]; lia).
    assert (total_size (c :: cs) = region_size c + total_size cs) as Htc by done. rewrite Hlc, Htc in *.
    assert (lenZ c <= region_size c) as Hcr by (unfold region_size; lia). pose proof (lenZ_nonneg c).
    cbn [insert_array_loop length]. rewrite (idx_lookup _ _ _ Hr). cbn [mbind Result_bind].
    rewrite Hl. unfold MINIMUM_CELL_SIZE. rewrite (Z.max_comm (lenZ c) 4). fold (region_size c).
    unfold sub_or_corrupt. replace (region_size c <=? ca) with true by lia. cbn [mbind Result_bind].
    rewrite Hd. cbn [mbind Result_bind]. rewrite Hp. cbn [unwrap mbind Result_bind].
    assert (as_ptr p = buf) as -> by (unfold as_ptr; by rewrite Hbuf).
    set (q := ca - region_size c) in *.
    assert (write_slice buf q c = Ok (splice buf q c)) as -> by (apply write_slice_Ok; split_and!; (done || lia)).
    cbn [mbind Result_bind]. set (buf1 := splice buf q c).
    assert (lenZ buf1 = lenZ buf) as Hl1 by (apply lenZ_splice; lia).
    unfold CELL_PTR_SIZE_BYTES. rewrite write_u16_no_offset_ok by lia. cbn [mbind Result_bind].
    replace (array + s * 2) with (array + 2 * s) by lia. assert (u16 q = q) as -> by (unfold u16; rewrite Z.mod_small; lia). pose proof (be_split_lenZ 2 q).
    set (buf2 := splice buf1 _ _). assert (lenZ buf2 = lenZ buf) as Hl2 by (unfold buf2; rewrite lenZ_splice; lia).
    assert (bytes_ok buf2) as Hb2 by (apply splice_ok; [apply splice_ok; done|apply be_split_ok]).
    assert (forall p2, <[j := set_buffer p p2]> pages !! j = Some (set_buffer p p2)) as Hlk
      by (intros; apply list_lookup_insert_eq; by eapply lookup_lt_Some).
    replace (Z.of_nat i + 1) with (Z.of_nat (S i)) by lia.
    destruct (IH (S i) (<[j := set_buffer p buf2]> pages) (set_buffer p buf2) buf2 (s + 1) q)
      as (buf' & Hrun & []); try done; try lia; [by eapply refs_at_update|].
    exists buf'. split; [|].
    + rewrite Hrun, list_insert_insert_eq. f_equal. f_equal. lia.
    + constructor; [lia|done|..].
      * intros a n Ha0 Hor. rewrite wr_same0 by lia. unfold buf2. rewrite sub_splice_ne by lia.
        unfold buf1. apply sub_splice_ne; lia.
      * intros [|k] q' Hq; [injection Hq as <-|].
        -- replace (array + 2 * (s + Z.of_nat 0)) with (array + 2 * s) by lia. unfold get16. rewrite wr_same0 by lia.
           apply get16_splice; [lia|lia|]. unfold is_u16. lia.
        -- rewrite <- (wr_ptr0 k q' Hq). f_equal. lia.
      * intros [|k] q' d Hq Hd'; [injection Hq as <-; injection Hd' as <-|by apply (wr_cell0 k)].
        rewrite wr_same0 by lia. unfold buf2. rewrite sub_splice_ne by lia. unfold buf1.
        by rewrite sub_splice_eq by lia.
Qed.

(** The regions of the new cells tile the space in front of the content area. *)
Lemma place_regions cs : forall ca,
  Forall (fun b : block => ca - total_size cs <= b.1 /\ 4 <= b.2 /\ bend b <= ca) (regions (place ca cs) cs) /\
  disj (regions (place ca cs) cs) /\ sizes (regions (place ca cs) cs) = total_size cs.
Proof.
  induction cs as [|c cs IH]; intros ca; [done|]. destruct (IH (ca - region_size c)) as (H1 & H2 & H3).
  pose proof (region_size_ge c). pose proof (total_size_nonneg cs).
  change (total_size (c :: cs)) with (region_size c + total_size cs).
  change (regions (place ca (c :: cs)) (c :: cs)) with
    ((ca - region_size c, region_size c) :: regions (place (ca - region_size c) cs) cs).
  split_and!.
  - apply Forall_cons. split; [unfold bend; cbn; lia|]. eapply Forall_impl; [exact H1|]. cbn. lia.
  - cbn. split; [|done]. eapply Forall_impl; [exact H1|]. intros b Hb. unfold apart, bend in *. cbn in *. lia.
  - rewrite sizes_cons, H3. cbn. lia.
Qed.

(** [new] between the first [s] cells and the others. *)
Definition insert_run {A} (s : nat) (new l : list A) : list A := take s l ++ new ++ drop s l.

Lemma insert_run_lookup {A} (s k : nat) (new l : list A) :
  (s <= length l)%nat ->
  insert_run s new l !! k =
  if (k <? s)%nat then l !! k else if (k <? s + length new)%nat then new !! (k - s)%nat else l !! (k - length new)%nat.
Proof.
  intros Hs. unfold insert_run. assert (length (take s l) = s) as Hl by (rewrite length_take; lia).
  destruct (Nat.ltb_spec k s); [rewrite lookup_app_l by lia; by apply lookup_take_lt|].
  rewrite lookup_app_r, Hl by lia. destruct (Nat.ltb_spec k (s + length new)).
  - by rewrite lookup_app_l by lia.
  - rewrite lookup_app_r, lookup_drop by lia. f_equal. lia.
Qed.

Lemma insert_run_lenZ {A} (s : nat) (new l : list A) : lenZ (insert_run s new l) = lenZ l + lenZ new.
Proof. unfold insert_run, lenZ. rewrite !length_app, length_drop, length_take. lia. Qed.

Lemma insert_run_perm {A} (s : nat) (new l : list A) : insert_run s new l ≡ₚ new ++ l.
Proof. unfold insert_run. rewrite (Permutation_app_comm new), app_assoc, take_drop. apply Permutation_app_comm. Qed.
(** A page without free blocks and fragments. *)
Record compact (p : PageInner) (ca : Z) (ptrs : list Z) (cells : list bytes) : Prop := mkCompact {
  cp_base : header_offset p = 0;
  cp_buf : buffer p = Some (as_ptr p);
  cp_wf : wf (as_ptr p) ca [] ptrs cells;
  cp_frag : get8 (as_ptr p) 7 = 0
}.

Lemma compact_gap p ca ptrs cells :
  compact p ca ptrs cells -> ca = lo_of 0 t cells + free_of 0 usable t cells.
Proof.
  intros [_ _ [HC HS] Hf]. pose proof (so_sum _ _ _ _ _ _ _ HS) as Hs. pose proof (cs_len _ _ _ _ _ _ HC) as Hl.
  rewrite (free_of_sizes 0 usable t _ _ Hl). rewrite Z.add_0_l, Hf in Hs. cbn in Hs. lia.
Qed.

(** The pointers and bytes after the run is written, before the header. *)
Record run_at (buf buf' : bytes) (ca : Z) (ptrs : list Z) (cells : list bytes) (s : nat) (new : list bytes) : Prop := mkRunAt {
  ru_len : lenZ buf' = lenZ buf;
  ru_ok : bytes_ok buf';
  ru_low : forall a n, 0 <= a -> a + n <= arr0 \/ ca <= a -> sub buf' a n = sub buf a n;
  ru_ptr : forall (k : nat) q, insert_run s (place ca new) ptrs !! k = Some q -> get16 buf' (arr0 + 2 * Z.of_nat k) = q;
  ru_cell : forall (k : nat) q c, place ca new !! k = Some q -> new !! k = Some c -> sub buf' q (lenZ c) = c
}.

Lemma run_at_intro buf buf2 ca ptrs cells s new :
  wf buf ca [] ptrs cells -> (s <= length cells)%nat ->
  arr0 + 2 * (lenZ cells + lenZ new) <= ca - total_size new ->
  let buf1 := splice buf (arr0 + 2 * Z.of_nat s + 2 * lenZ new)
                (sub buf (arr0 + 2 * Z.of_nat s) (2 * (lenZ cells - Z.of_nat s))) in
  written buf1 buf2 arr0 (Z.of_nat s) ca new -> run_at buf buf2 ca ptrs cells s new.
Proof.
  intros [[HA Hlen _] HS] Hs Hfit buf1 []. destruct Hdims. pose proof (arr_range 0 t).
  pose proof (so_lo _ _ _ _ _ _ _ HS). pose proof (so_len _ _ _ _ _ _ _ HS). pose proof (total_size_nonneg new).
  pose proof (lenZ_nonneg new). assert (Z.of_nat s <= lenZ cells) by (unfold lenZ; lia).
  set (x := sub buf _ _) in *. assert (lenZ x = 2 * (lenZ cells - Z.of_nat s)) as Hx by (apply lenZ_sub; lia).
  assert (lenZ buf1 = lenZ buf) as Hl1 by (apply lenZ_splice; lia).
  constructor; [lia|done| | |done].
  - intros a n Ha Hor. rewrite wr_same0 by lia. apply sub_splice_ne; lia.
  - intros k q Hq. rewrite insert_run_lookup, place_length in Hq by (unfold lenZ in *; lia).
    destruct (Nat.ltb_spec k s); [|destruct (Nat.ltb_spec k (s + length new))].
    + unfold get16. rewrite wr_same0 by lia. unfold buf1. rewrite sub_splice_ne by lia. by apply (ar_ptrs _ _ _ _ HA).
    + rewrite <- (wr_ptr0 _ _ Hq). f_equal. lia.
    + pose proof (lookup_lt_Some _ _ _ Hq). unfold lenZ in *. unfold get16. rewrite wr_same0 by (unfold lenZ; lia).
      unfold buf1. rewrite sub_splice_in by (unfold lenZ; lia). unfold x. rewrite sub_sub by lia.
      rewrite <- (ar_ptrs _ _ _ _ HA _ _ Hq). unfold get16. f_equal. f_equal. lia.
Qed.

(** The header written after a run. *)
Definition run_header (buf : bytes) (ca n : Z) : bytes :=
  splice (splice buf 5 (be_split 2 (u16 ca))) 3 (be_split 2 n).

Lemma regions_insert_run s ptrs cells qs new :
  lenZ ptrs = lenZ cells -> length qs = length new ->
  regions (insert_run s qs ptrs) (insert_run s new cells) = insert_run s (regions qs new) (regions ptrs cells).
Proof.
  intros Hl Hq. unfold regions, insert_run. rewrite zip_with_app by (rewrite !length_take; unfold lenZ in Hl; lia).
  rewrite zip_with_app by done. by rewrite zip_with_take, zip_with_drop.
Qed.

Lemma run_space buf buf' ca ptrs cells s new :
  wf buf ca [] ptrs cells -> get8 buf 7 = 0 -> arr0 + 2 * (lenZ cells + lenZ new) <= ca - total_size new ->
  lenZ buf' = lenZ buf -> bytes_ok buf' -> get16 buf' 5 = u16 (ca - total_size new) -> get16 buf' 1 = 0 -> get8 buf' 7 = 0 ->
  space_ok 0 usable buf' (lo_of 0 t (insert_run s new cells)) (ca - total_size new) []
    (regions (insert_run s (place ca new) ptrs) (insert_run s new cells)).
Proof.
  intros [[HA Hlen _] HS] Hf Hfit Hl Hb Hca Hfirst Hfrag. rewrite regions_insert_run by (done || apply place_length).
  eapply space_ok_perm; [|symmetry; apply insert_run_perm]. destruct HS. pose proof (arr_range 0 t).
  pose proof (lenZ_nonneg cells). pose proof (lenZ_nonneg new). pose proof (total_size_nonneg new).
  destruct (place_regions new ca) as (Hpl & Hpd & Hps). constructor; try done.
  - lia.
  - unfold lo_of in *. rewrite insert_run_lenZ. lia.
  - apply Forall_app. split.
    + eapply Forall_impl; [exact Hpl|]. intros b Hb'. unfold within, bend in *. cbn in Hb'. lia.
    + eapply Forall_impl; [exact so_used|]. unfold within. lia.
  - rewrite app_nil_r. apply disj_app. rewrite app_nil_r in so_disj. split_and!; [done|done|].
    eapply Forall_impl; [exact Hpl|]. intros b Hb'. eapply Forall_impl; [exact so_used|].
    intros c Hc. unfold apart, within, bend in *. cbn in *. lia.
  - rewrite sizes_app, Hps. rewrite Z.add_0_l in *. rewrite Hf in so_sum. rewrite Hfrag. lia.
Qed.

Lemma run_page buf buf2 ca ptrs cells s new :
  wf buf ca [] ptrs cells -> get8 buf 7 = 0 -> (s <= length cells)%nat ->
  arr0 + 2 * (lenZ cells + lenZ new) <= ca - total_size new -> Forall (is_cell usable t) new ->
  run_at buf buf2 ca ptrs cells s new ->
  let buf' := run_header buf2 (ca - total_size new) (lenZ cells + lenZ new) in
  wf buf' (ca - total_size new) [] (insert_run s (place ca new) ptrs) (insert_run s new cells) /\
  get8 buf' 7 = 0 /\ outer 0 usable t buf buf'.
Proof.
  intros HW Hf Hs Hfit Hnew []. pose proof HW as [[HA Hlen Hcells] HS]. destruct Hdims. pose proof (arr_range 0 t).
  pose proof (so_lo _ _ _ _ _ _ _ HS) as Hlo. pose proof (so_len _ _ _ _ _ _ _ HS). pose proof (total_size_nonneg new).
  pose proof (lenZ_nonneg new). pose proof (lenZ_nonneg cells). set (ca' := ca - total_size new) in *. cbn zeta. unfold run_header.
  pose proof (be_split_lenZ 2 (u16 ca')). pose proof (be_split_lenZ 2 (lenZ cells + lenZ new)).
  set (buf3 := splice buf2 _ _). assert (lenZ buf3 = lenZ buf) as Hl3 by (unfold buf3; rewrite lenZ_splice; lia).
  set (buf4 := splice buf3 _ _). assert (lenZ buf4 = lenZ buf) as Hl4 by (unfold buf4; rewrite lenZ_splice; lia).
  assert (forall a n, 8 <= a -> sub buf4 a n = sub buf2 a n) as Hup
    by (intros a n Ha; unfold buf4; rewrite sub_splice_ne by lia; unfold buf3; apply sub_splice_ne; lia).
  assert (forall a n, 0 <= a -> a + n <= 3 \/ 7 <= a -> sub buf4 a n = sub buf2 a n) as Hfield
    by (intros a n Ha Hor; unfold buf4; rewrite sub_splice_ne by lia; unfold buf3; apply sub_splice_ne; lia).
  split_and!.
  - constructor; [constructor; [constructor| |]|].
    + unfold get8. rewrite Hfield, ru_low0 by lia. apply (ar_type _ _ _ _ HA).
    + rewrite insert_run_lenZ. unfold buf4. rewrite get16_splice; [|lia|lia|unfold is_u16; lia].
      unfold lenZ in *. rewrite place_length. lia.
    + intros k q Hq. unfold get16. rewrite Hup by lia. by apply ru_ptr0.
    + rewrite !insert_run_lenZ. unfold lenZ in *. rewrite place_length. lia.
    + intros k q c Hq Hc. rewrite insert_run_lookup, place_length in Hq by (unfold lenZ in *; lia).
      pose proof (eq_trans (eq_sym (insert_run_lookup s k new cells Hs)) Hc) as Hc'. clear Hc.
      assert (forall k' : nat, ptrs !! k' = Some q -> cells !! k' = Some c -> sub buf4 q (lenZ c) = c /\ is_cell usable t c) as Hold.
      { intros k' Hq' Hd'. destruct (Hcells _ _ _ Hq' Hd') as [Hsub Hcell]. split; [|done].
        pose proof (space_in usable _ _ _ _ _ _ _ HS (regions_elem _ _ _ _ _ Hq' Hd')). rewrite Hup, ru_low0 by lia. done. }
      destruct (k <? s)%nat; [by apply (Hold k)|]. destruct (k <? s + length new)%nat; [|by apply (Hold _ Hq)].
      rewrite Forall_lookup in Hnew. split; [|by eapply Hnew].
      destruct (place_regions new ca) as (Hpl & _ & _). rewrite Forall_forall in Hpl.
      pose proof (Hpl _ (regions_elem _ _ _ _ _ Hq Hc')) as Hb. cbn in Hb. rewrite Hup by lia. by apply (ru_cell0 _ _ _ Hq).
    + apply (run_space buf buf4 ca ptrs cells s new); try done; try lia.
      * apply splice_ok; [apply splice_ok; [done|apply be_split_ok]|apply be_split_ok].
      * unfold buf4. rewrite get16_ne by lia. apply get16_splice; [lia|lia|]. unfold is_u16, u16. by apply Z.mod_pos_bound.
      * unfold get16. rewrite Hfield, ru_low0 by lia. apply HS.
      * unfold get8. rewrite Hfield, ru_low0 by lia. done.
  - unfold get8. rewrite Hfield, ru_low0 by lia. done.
  - constructor; [lia|..]; intros a n; intros.
    + assert (n = 0 \/ n < 0) as [->|?] by lia; [done|]. unfold sub. replace (Z.to_nat n) with 0%nat by lia. done.
    + rewrite Hup, ru_low0 by lia. done.
    + rewrite Hup, ru_low0 by lia. done.
Qed.

(** The pointers from index [s] on move by [d] bytes. *)
Lemma shift_run_ok buf a d (s n : Z) :
  0 <= a -> 0 <= d -> 0 <= s <= n -> a + d + 2 * (n - s) <= lenZ buf ->
  (if s <? n then copy_within buf a (a + (n - s) * 2) (a + d) else Ok buf) =
  Ok (splice buf (a + d) (sub buf a (2 * (n - s)))).
Proof.
  intros Ha Hd Hs Hl. destruct (Z.ltb_spec s n).
  - rewrite copy_within_ok by lia. by replace (a + (n - s) * 2 - a) with (2 * (n - s)) by lia.
  - replace (2 * (n - s)) with 0 by lia. assert (sub buf a 0 = []) as -> by done. unfold splice. cbn [length app].
    by rewrite Nat.add_0_r, take_drop.
Qed.

(** A run of cells that fits is inserted at its index. *)
Lemma page_insert_array_ok pages j p ca ptrs cells cell_array (i s : nat) new :
  pages !! j = Some p -> compact p ca ptrs cells -> refs_at pages j cell_array i new -> Forall (is_cell usable t) new ->
  (s <= length cells)%nat -> total_size new + 2 * lenZ new <= free_of 0 usable t cells ->
  exists p' ca' ptrs',
    page_insert_array pages j (Z.of_nat i) (lenZ new) cell_array (Z.of_nat s) = Ok (<[j := p']> pages) /\
    compact p' ca' ptrs' (insert_run s new cells) /\ overflow_cells p' = overflow_cells p /\
    outer 0 usable t (as_ptr p) (as_ptr p').
Proof.
  intros Hp HCp Hr Hnew Hs Hfit. pose proof HCp as [Hb Hbuf HW Hf]. unfold page_insert_array.
  destruct new as [|c0 new0] eqn:Enew.
  { exists p, ca, ptrs. cbn. rewrite list_insert_id by done. unfold insert_run. cbn. rewrite take_drop.
    split_and!; [done|done|done|apply outer_refl]. }
  rewrite <- Enew in *. assert (0 < lenZ new) as Hpos by (subst new; unfold lenZ; cbn [length]; lia).
  replace (lenZ new =? 0) with false by lia.
  assert (i + length new <= length cell_array)%nat as Hi.
  { destruct (lookup_lt_is_Some_2 new (length new - 1)) as [c Hc]; [unfold lenZ in *; lia|].
    destruct (Hr _ _ Hc) as (r & Hl%lookup_lt_Some & _). unfold lenZ in *. lia. }
  assert (Z.of_nat i + lenZ new <= lenZ cell_array) as Hi' by (unfold lenZ; lia).
  unfold saturating_sub. do 2 pass.
  replace (Z.to_nat (lenZ new)) with (length new) by (unfold lenZ; lia).
  rewrite (total_payload_size_ok pages j _ _ _ Hr). cbn [mbind Result_bind]. rewrite Hp. cbn [unwrap mbind Result_bind].
  pose proof HW as [[HA Hlen _] HS]. destruct Hdims. pose proof (arr_range 0 t). pose proof (so_lo _ _ _ _ _ _ _ HS) as Hlo.
  pose proof (so_len _ _ _ _ _ _ _ HS) as Hlen0. unfold lo_of in Hlo. pose proof (lenZ_nonneg cells).
  pose proof (total_size_nonneg new). pose proof (compact_gap _ _ _ _ HCp) as Hgap. unfold lo_of in Hgap.
  assert (Z.of_nat s <= lenZ cells) by (unfold lenZ; lia).
  rewrite Hb, (cell_count_ok _ _ _ Hdims _ _ HA), (cell_content_area_ok 0 usable Hdims _ _ _ _ _ HS),
    (unallocated_start_ok _ _ _ Hdims _ _ HA), Hlen by lia. cbn [mbind Result_bind].
  do 2 pass. unfold sub_or_corrupt. replace (total_size new <=? ca) with true by lia. cbn [mbind Result_bind].
  unfold CELL_PTR_SIZE_BYTES. pass.
  rewrite (array_size_ok _ _ _ Hdims _ _ HA) by lia. cbn [mbind Result_bind]. rewrite (Z.mul_comm (Z.of_nat s) 2).
  rewrite shift_run_ok by lia. cbn [mbind Result_bind]. rewrite (Z.mul_comm (lenZ new) 2).
  set (x := sub (as_ptr p) _ _). set (buf1 := splice (as_ptr p) _ x).
  assert (lenZ x = 2 * (lenZ cells - Z.of_nat s)) as Hx by (apply lenZ_sub; lia).
  assert (lenZ buf1 = lenZ (as_ptr p)) as Hl1 by (apply lenZ_splice; lia).
  assert (bytes_ok (as_ptr p)) as Hbok by apply HS.
  assert (<[j := set_buffer p buf1]> pages !! j = Some (set_buffer p buf1)) as Hlk
    by (apply list_lookup_insert_eq; by eapply lookup_lt_Some).
  destruct (insert_array_loop_ok j cell_array arr0 new i (<[j := set_buffer p buf1]> pages) (set_buffer p buf1) buf1
    (Z.of_nat s) ca Hlk eq_refl) as (buf2 & Hrun & Hwr); try lia.
  { apply splice_ok; [done|by apply sub_ok]. }
  { by eapply refs_at_update. }
  { eapply Forall_impl; [exact Hnew|]. by intros c [? _]. }
  rewrite Hrun. cbn [mbind Result_bind]. rewrite list_lookup_insert_eq by (rewrite length_insert; by eapply lookup_lt_Some).
  cbn [unwrap mbind Result_bind]. rewrite as_ptr_set.
  pose proof (run_at_intro _ buf2 ca ptrs cells s new HW Hs ltac:(lia) Hwr) as Hrat.
  destruct (run_page _ buf2 ca ptrs cells s new HW Hf Hs ltac:(lia) Hnew Hrat) as (HW' & Hf' & Ho).
  pose proof (ru_len _ _ _ _ _ _ _ Hrat) as Hl2.
  rewrite (write_ca_ok 0 usable) by (done || lia). cbn [mbind Result_bind].
  rewrite (write_count_ok 0 usable); [|done|rewrite lenZ_splice; rewrite ?be_split_lenZ; lia]. cbn [mbind Result_bind].
  assert (u16 (lenZ cells + lenZ new) = lenZ cells + lenZ new) as -> by (unfold u16; rewrite Z.mod_small; lia).
  rewrite !list_insert_insert_eq. rewrite !Z.add_0_l.
  eexists _, _, _. split_and!; [done| |done|exact Ho]. constructor; [done|done|exact HW'|exact Hf'].
Qed.

End bulk.
