(* ===== verification/BtreeEdit.v ===== *)
(** * BtreeEdit: a page takes over another range of the cell array

    [edit_page] frees the cells that leave the page, defragments it and inserts
    the cells that come to the page before, between (the overflow cells) and
    after the cells that stay.  The page then holds exactly the new range. *)

From stdpp Require Import sets.
From S2P Require Import Prelude Varint OnDisk Page BtreePage BtreeSpace BtreeCells BtreeDefrag BtreeInsert.
From S2P Require Import BtreeBalance BtreeFree BtreeBulk.

(** ** The cells of a page in key order *)

(** A cell on the page at an offset, or an overflow cell. *)
Inductive entry := ECell (p : Z) (c : bytes) | EOver (c : bytes).

Definition e_bytes (e : entry) : bytes := match e with ECell _ c => c | EOver c => c end.

Definition e_cell (e : entry) : option (Z * bytes) :=
  match e with ECell p c => Some (p, c) | EOver _ => None end.

(** The cells on the page. *)
Definition in_page (m : list entry) : list (Z * bytes) := omap e_cell m.

(** The overflow cells, for entries from position [i] on. *)
Fixpoint overs (i : nat) (m : list entry) : list OverflowCell :=
  match m with
  | [] => []
  | ECell _ _ :: m' => overs (S i) m'
  | EOver c :: m' => mkOverflowCell (Z.of_nat i) c :: overs (S i) m'
  end.

(** The references to the entries, the first overflow cell having number [k]. *)
Fixpoint refs (j k : nat) (m : list entry) : list cellref :=
  match m with
  | [] => []
  | ECell p c :: m' => InPage j p (lenZ c) :: refs j k m'
  | EOver c :: m' => OverCell j k (lenZ c) :: refs j (S k) m'
  end.

Lemma refs_length j k m : length (refs j k m) = length m.
Proof. revert k. induction m as [|[] m IH]; intros k; cbn; auto. Qed.

Lemma overs_app i m1 m2 : overs i (m1 ++ m2) = overs i m1 ++ overs (i + length m1) m2.
Proof.
  revert i. induction m1 as [|e m1 IH]; intros i; cbn; [by rewrite Nat.add_0_r|].
  rewrite Nat.add_succ_r. destruct e; cbn; by rewrite IH.
Qed.

Lemma in_page_app m1 m2 : in_page (m1 ++ m2) = in_page m1 ++ in_page m2.
Proof. apply omap_app. Qed.

Lemma overs_index i m o : o ∈ overs i m -> exists x : nat, oc_index o = Z.of_nat x /\ (i <= x < i + length m)%nat.
Proof.
  revert i. induction m as [|e m IH]; intros i; [intros H; inversion H|].
  assert (o ∈ overs (S i) m -> exists x : nat, oc_index o = Z.of_nat x /\ (i <= x < i + length (e :: m))%nat) as Hrec.
  { intros (x & Hx & ?)%IH. exists x. split; [done|]. cbn. lia. }
  destruct e as [p c|c]; cbn [overs]; [exact Hrec|]. intros [->|H]%elem_of_cons; [|by apply Hrec].
  exists i. cbn. split; [done|lia].
Qed.

(** The [x]-th entry, if it overflowed, is the overflow cell its reference names. *)
Lemma refs_over j m : forall k i x c,
  m !! x = Some (EOver c) ->
  exists n, refs j k m !! x = Some (OverCell j (k + n) (lenZ c)) /\ overs i m !! n = Some (mkOverflowCell (Z.of_nat (i + x)) c).
Proof.
  induction m as [|e m IH]; intros k i [|x] c Hx; try done.
  - injection Hx as ->. exists 0%nat. cbn. by rewrite !Nat.add_0_r.
  - change ((e :: m) !! S x) with (m !! x) in Hx. destruct e as [p d|d]; cbn [refs overs].
    + destruct (IH k (S i) x c Hx) as (n & Hr & Ho). exists n. split; [done|]. by rewrite Nat.add_succ_r.
    + destruct (IH (S k) (S i) x c Hx) as (n & Hr & Ho). exists (S n).
      rewrite Nat.add_succ_r. split; [done|]. by rewrite Nat.add_succ_r.
Qed.

Lemma own_blocks_refs j k m :
  Forall (fun e => 4 <= lenZ (e_bytes e)) m ->
  own_blocks j (refs j k m) = regions (fst <$> in_page m) (snd <$> in_page m).
Proof.
  intros H. revert k. induction H as [|e m He H IH]; intros k; [done|]. destruct e as [p c|c]; cbn in *.
  - unfold own_blocks. cbn. rewrite bool_decide_true by done. cbn. f_equal; [|apply IH].
    unfold region_size. f_equal. lia.
  - apply IH.
Qed.

Lemma own_blocks_outside j rs : Forall (outside j) rs -> own_blocks j rs = [].
Proof.
  induction 1 as [|r rs Hr H IH]; [done|]. unfold own_blocks in *. cbn. rewrite IH. destruct r; cbn in *; [|done..].
  by rewrite bool_decide_false.
Qed.

Lemma own_blocks_app j l k : own_blocks j (l ++ k) = own_blocks j l ++ own_blocks j k.
Proof. apply omap_app. Qed.

Lemma refs_app j k m1 m2 : refs j k (m1 ++ m2) = refs j k m1 ++ refs j (k + length (overs 0 m1)) m2.
Proof.
  assert (forall m i, length (overs i m) = length (overs 0 m)) as Hlen.
  { intros m. induction m as [|[] m IH]; intros i; cbn; [done|by rewrite IH, (IH 1%nat)..]. }
  revert k. induction m1 as [|[q c|c] m1 IH]; intros k; cbn; [by rewrite Nat.add_0_r|..]; f_equal; rewrite IH, (Hlen _ 1%nat).
  - done.
  - do 2 f_equal. lia.
Qed.

Lemma own_blocks_part j k m1 m2 :
  Forall (fun e => 4 <= lenZ (e_bytes e)) (m1 ++ m2) ->
  own_blocks j (take (length m1) (refs j k (m1 ++ m2))) = regions (fst <$> in_page m1) (snd <$> in_page m1) /\
  own_blocks j (drop (length m1) (refs j k (m1 ++ m2))) = regions (fst <$> in_page m2) (snd <$> in_page m2).
Proof.
  intros [H1 H2]%Forall_app. rewrite refs_app, <- (refs_length j k m1), take_app_length, drop_app_length.
  split; by apply own_blocks_refs.
Qed.

Lemma split_length m : (length (in_page m) + length (overs 0 m) = length m)%nat.
Proof.
  assert (forall m i, (length (in_page m) + length (overs i m) = length m)%nat) as H; [|apply H].
  clear m. induction m as [|[q c|c] m IH]; intros i; cbn; [done|by rewrite IH|]. rewrite Nat.add_succ_r. by rewrite IH.
Qed.

Definition weight (cs : list bytes) : Z := total_size cs + 2 * lenZ cs.

Lemma weight_app cs ds : weight (cs ++ ds) = weight cs + weight ds.
Proof. unfold weight, lenZ. rewrite total_size_app, length_app. lia. Qed.

Lemma weight_nonneg cs : 0 <= weight cs.
Proof. unfold weight. pose proof (total_size_nonneg cs). pose proof (lenZ_nonneg cs). lia. Qed.

Lemma weight_in_page m : weight (snd <$> in_page m) <= weight (e_bytes <$> m).
Proof.
  induction m as [|e m IH]; [done|]. change (e :: m) with ([e] ++ m). rewrite in_page_app, !fmap_app, !weight_app.
  assert (weight (snd <$> in_page [e]) <= weight (e_bytes <$> [e])); [|lia].
  destruct e; [done|]. cbn [in_page omap list_omap e_cell fmap list_fmap]. apply weight_nonneg.
Qed.

Section edit.
Context (usable : Z) (Hdims : dims 0 usable) (t : PageType).
#[local] Abbreviation arr0 := (arr 0 t).
#[local] Abbreviation compact := (compact usable t).

Lemma free_weight cs : free_of 0 usable t cs = usable - arr0 - weight cs.
Proof. unfold free_of, lo_of, weight, total_size. lia. Qed.

Lemma insert_overflow_skip pages j so sn nn arr l : forall count,
  Forall (fun o => so + oc_index o < sn \/ sn + nn <= so + oc_index o) l ->
  insert_overflow_loop l pages j so sn nn arr count = Ok (pages, count).
Proof.
  induction l as [|o l IH]; intros count H; [done|]. apply Forall_cons in H as [Ho H].
  cbn [insert_overflow_loop]. destruct (Z.leb_spec sn (so + oc_index o)); cbn; [|by apply IH].
  destruct (Z.ltb_spec (so + oc_index o - sn) nn); [lia|by apply IH].
Qed.

Lemma insert_overflow_app pages j so sn nn arr l k count :
  insert_overflow_loop (l ++ k) pages j so sn nn arr count =
  ('(pages, count) ← insert_overflow_loop l pages j so sn nn arr count;
   insert_overflow_loop k pages j so sn nn arr count).
Proof.
  revert pages count. induction l as [|o l IH]; intros pages count; [done|].
  cbn [app insert_overflow_loop]. destruct (_ && _); [|apply IH].
  destruct (page_insert_array pages j _ _ _ _); cbn [mbind Result_bind]; [apply IH|done|done].
Qed.

(** The overflow cells among the cells that stay are put in their places. *)
Lemma insert_overflow_ok j (so sn nn : nat) arr ms : forall pages p ca ptrs D (x : nat) count,
  pages !! j = Some p -> compact p ca ptrs (D ++ (snd <$> in_page ms)) ->
  (so + x = sn + length D)%nat -> (length D + length ms <= nn)%nat ->
  (forall i c, ms !! i = Some (EOver c) -> exists r, arr !! (so + x + i)%nat = Some r /\ refers pages j r c) ->
  Forall (is_cell usable t) (e_bytes <$> ms) -> weight (D ++ (e_bytes <$> ms)) <= usable - arr0 ->
  exists p' ca' ptrs',
    insert_overflow_loop (overs x ms) pages j (Z.of_nat so) (Z.of_nat sn) (Z.of_nat nn) arr count =
      Ok (<[j := p']> pages, count + lenZ (overs x ms)) /\
    compact p' ca' ptrs' (D ++ (e_bytes <$> ms)) /\ overflow_cells p' = overflow_cells p /\
    outer 0 usable t (as_ptr p) (as_ptr p').
Proof.
  induction ms as [|e ms IH]; intros pages p ca ptrs D x count Hp HC Hpos Hn Hr Hcell Hw.
  - exists p, ca, ptrs. cbn. rewrite list_insert_id, Z.add_0_r by done. split_and!; [done|done|done|apply outer_refl].
  - cbn [fmap list_fmap] in Hcell. apply Forall_cons in Hcell as [Hc Hcell]. cbn [length] in Hn.
    assert (forall c, D ++ c :: (e_bytes <$> ms) = (D ++ [c]) ++ (e_bytes <$> ms)) as Hassoc by (intros; by rewrite <- app_assoc).
    destruct e as [q c|c]; cbn [overs e_bytes fmap list_fmap] in *.
    + rewrite Hassoc in *. apply (IH pages p ca ptrs); [done| |rewrite length_app; cbn; lia|rewrite length_app; cbn; lia| |done|done].
      * rewrite <- app_assoc. exact HC.
      * intros i d Hd. destruct (Hr (S i) d Hd) as (r & Hi & ?). exists r. split; [|done]. by rewrite <- Hi; f_equal; lia.
    + change (in_page (EOver c :: ms)) with (in_page ms) in HC.
      destruct (Hr 0%nat c eq_refl) as (r0 & Hr0 & Href0). rewrite Nat.add_0_r in Hr0.
      assert (weight (D ++ (snd <$> in_page ms)) + weight [c] <= usable - arr0) as Hw1.
      { pose proof (weight_in_page ms). rewrite !weight_app in Hw. rewrite weight_app.
        change (c :: (e_bytes <$> ms)) with ([c] ++ (e_bytes <$> ms)) in Hw. rewrite weight_app in Hw. lia. }
      destruct (page_insert_array_ok usable Hdims t pages j p ca ptrs (D ++ (snd <$> in_page ms)) arr (so + x) (length D) [c])
        as (p1 & ca1 & ptrs1 & Hins & HC1 & Hov1 & Ho1); try done.
      { intros [|k] d Hd; [|done]. injection Hd as <-. exists r0. by rewrite Nat.add_0_r. }
      { by apply Forall_singleton. }
      { rewrite length_app. lia. }
      { rewrite free_weight. unfold weight in Hw1 at 2. cbn in Hw1 |- *. lia. }
      cbn [insert_overflow_loop oc_index].
      replace (Z.of_nat so + Z.of_nat x - Z.of_nat sn) with (Z.of_nat (length D)) by lia.
      replace (Z.of_nat sn <=? Z.of_nat so + Z.of_nat x) with true by lia.
      replace (Z.of_nat (length D) <? Z.of_nat nn) with true by lia. cbn [andb].
      replace (Z.of_nat sn + Z.of_nat (length D)) with (Z.of_nat (so + x)) by lia.
      change (lenZ [c]) with 1 in Hins. rewrite Hins. cbn [mbind Result_bind].
      assert (insert_run (length D) [c] (D ++ (snd <$> in_page ms)) = (D ++ [c]) ++ (snd <$> in_page ms)) as Hrun.
      { unfold insert_run. rewrite take_app_length, drop_app_length. by rewrite <- app_assoc. }
      rewrite Hrun in HC1. rewrite Hassoc in *.
      destruct (IH (<[j := p1]> pages) p1 ca1 ptrs1 (D ++ [c]) (S x) (count + 1)) as (p2 & ca2 & ptrs2 & Hl2 & HC2 & Hov2 & Ho2).
      * apply list_lookup_insert_eq. by eapply lookup_lt_Some.
      * done.
      * rewrite length_app. cbn. lia.
      * rewrite length_app. cbn. lia.
      * intros i d Hd. destruct (Hr (S i) d Hd) as (r & Hi & ?). exists r. split; [by rewrite <- Hi; f_equal; lia|].
        by eapply refers_update.
      * done.
      * done.
      * exists p2, ca2, ptrs2. split_and!; [|done|congruence|by eapply outer_trans].
        rewrite Hl2, list_insert_insert_eq. f_equal. f_equal. unfold lenZ. cbn [length]. lia.
Qed.

(** A page whose cells in key order are [m], at index [so] of the array. *)
Record holds (p : PageInner) (m : list entry) : Prop := mkHolds {
  ho_base : header_offset p = 0;
  ho_buf : buffer p = Some (as_ptr p);
  ho_wf : exists ca fbs, page_wf 0 usable t (as_ptr p) ca fbs (fst <$> in_page m) (snd <$> in_page m);
  ho_min : Forall (fun e => 4 <= lenZ (e_bytes e)) m
}.

Lemma regions_app ps1 cs1 ps2 cs2 :
  length ps1 = length cs1 -> regions (ps1 ++ ps2) (cs1 ++ cs2) = regions ps1 cs1 ++ regions ps2 cs2.
Proof. intros. unfold regions. by apply zip_with_app. Qed.

(** The first cells leave the page. *)
Lemma shrink_left j p m1 m2 pre post (n : nat) :
  holds p (m1 ++ m2) -> Forall (outside j) post -> (n <= length (refs j 0 (m1 ++ m2) ++ post))%nat ->
  (n <= length m1 \/ m2 = [])%nat -> (length m1 <= n)%nat ->
  exists p0 p1,
    page_free_array usable j p (lenZ pre) (Z.of_nat n) (pre ++ refs j 0 (m1 ++ m2) ++ post) = Ok (lenZ (in_page m1), p0) /\
    shift_cells_left p0 (lenZ (in_page (m1 ++ m2))) (lenZ (in_page m1)) = Ok p1 /\
    holds p1 m2 /\ overflow_cells p1 = overflow_cells p /\ outer 0 usable t (as_ptr p) (as_ptr p1).
Proof.
  intros [Hb Hbuf (ca & fbs & HW) Hmin] Hpost Hn Hm Hn1.
  assert (own_blocks j (take n (refs j 0 (m1 ++ m2) ++ post)) = regions (fst <$> in_page m1) (snd <$> in_page m1)) as Hown.
  { rewrite take_app, own_blocks_app, refs_length. rewrite (own_blocks_outside j (take _ post)) by (by apply Forall_take).
    rewrite app_nil_r. destruct Hm as [Hm|Hm].
    - replace n with (length m1) by lia. by apply own_blocks_part.
    - subst m2. rewrite app_nil_r in *. rewrite take_ge by (rewrite refs_length; lia). by apply own_blocks_refs. }
  destruct (free_prefix_ok usable Hdims t j p (lenZ pre) (Z.of_nat n) (pre ++ refs j 0 (m1 ++ m2) ++ post) ca fbs
    (fst <$> in_page (m1 ++ m2)) (snd <$> in_page (m1 ++ m2)) (length (in_page m1))) as (p0 & buf' & ca' & fbs' & H1 & H2 & H3 & H4); try done.
  - apply lenZ_nonneg.
  - lia.
  - unfold lenZ. rewrite (length_app pre). lia.
  - rewrite in_page_app, fmap_app, length_app, length_fmap. lia.
  - rewrite Nat2Z.id. replace (Z.to_nat (lenZ pre)) with (length pre) by (unfold lenZ; lia). rewrite drop_app_length, Hown.
    rewrite in_page_app, !fmap_app, regions_app by (by rewrite !length_fmap).
    rewrite take_app_length'; [done|]. unfold regions. rewrite length_zip_with, !length_fmap. lia.
  - exists p0, (set_buffer p buf'). split_and!; [exact H1| | |done|done].
    + unfold lenZ in *. rewrite length_fmap in H2. exact H2.
    + constructor; [done|done| |by apply Forall_app in Hmin as [_ ?]]. exists ca', fbs'. rewrite as_ptr_set.
      rewrite in_page_app, !fmap_app in H3.
      rewrite (drop_app_length' (fst <$> in_page m1)), (drop_app_length' (snd <$> in_page m1)) in H3 by (by rewrite length_fmap).
      done.
Qed.

(** The last cells leave the page. *)
Lemma shrink_right j k p m1 m2 pre gap post :
  holds p (m1 ++ m2) -> Forall (outside j) gap ->
  exists p1,
    page_free_array usable j p (lenZ pre) (lenZ gap + lenZ m2) (pre ++ gap ++ refs j k m2 ++ post) = Ok (lenZ (in_page m2), p1) /\
    holds p1 m1 /\ overflow_cells p1 = overflow_cells p /\ outer 0 usable t (as_ptr p) (as_ptr p1).
Proof.
  intros [Hb Hbuf (ca & fbs & HW) Hmin] Hgap. pose proof (proj2 (proj1 (Forall_app _ _ _) Hmin)) as Hmin2.
  assert (own_blocks j (take (length gap + length m2) (gap ++ refs j k m2 ++ post)) =
    regions (fst <$> in_page m2) (snd <$> in_page m2)) as Hown.
  { rewrite app_assoc, take_app_length' by (by rewrite length_app, refs_length).
    rewrite own_blocks_app, own_blocks_outside by done. by apply own_blocks_refs. }
  destruct (free_suffix_ok usable Hdims t j p (lenZ pre) (lenZ gap + lenZ m2) (pre ++ gap ++ refs j k m2 ++ post) ca fbs
    (fst <$> in_page (m1 ++ m2)) (snd <$> in_page (m1 ++ m2)) (length (in_page m1))) as (buf' & ca' & fbs' & H1 & H3 & H4); try done.
  - apply lenZ_nonneg.
  - unfold lenZ. lia.
  - unfold lenZ. rewrite !length_app, refs_length. lia.
  - rewrite in_page_app, fmap_app, length_app, length_fmap. lia.
  - replace (Z.to_nat (lenZ gap + lenZ m2)) with (length gap + length m2)%nat by (unfold lenZ; lia).
    replace (Z.to_nat (lenZ pre)) with (length pre) by (unfold lenZ; lia). rewrite drop_app_length, Hown.
    rewrite in_page_app, !fmap_app, regions_app by (by rewrite !length_fmap).
    rewrite drop_app_length'; [done|]. unfold regions. rewrite length_zip_with, !length_fmap. lia.
  - exists (set_buffer p buf'). split_and!; [| |done|done].
    + rewrite H1. f_equal. f_equal. unfold lenZ. rewrite length_fmap, in_page_app, length_app. lia.
    + constructor; [done|done| |by apply Forall_app in Hmin as [? _]]. exists ca', fbs'. rewrite as_ptr_set.
      rewrite in_page_app, !fmap_app in H3.
      rewrite (take_app_length' (fst <$> in_page m1)), (take_app_length' (snd <$> in_page m1)) in H3 by (by rewrite length_fmap).
      done.
Qed.

(** A defragmented page is compact. *)
Lemma defragment_compact p m :
  holds p m -> exists buf ca ptrs, defragment_page 0 usable (as_ptr p) 0 = Ok buf /\
    compact (set_buffer p buf) ca ptrs (snd <$> in_page m) /\ outer 0 usable t (as_ptr p) buf.
Proof.
  intros [Hb Hbuf (ca & fbs & HW) _].
  destruct (defragment_page_ok 0 usable t Hdims _ _ _ _ _ 0 HW) as (buf & ca' & ptrs' & H1 & H2 & H3 & H4).
  exists buf, ca', ptrs'. split_and!; [done| |done]. constructor; [done|done|done|]. rewrite as_ptr_set.
  destruct H2 as [_ HS]. pose proof (so_len _ _ _ _ _ _ _ HS). destruct Hdims.
  assert (0 <= get8 buf (0 + 7)) by (apply get8_u8; [apply HS|lia]). rewrite Z.add_0_l in *. lia.
Qed.

(** ** Which cells stay *)

(** The cells of the page before, in and after the new range, for a page at
    index [so] that becomes [nn] cells from index [sn] on. *)
Definition leave_left (so sn : nat) (m : list entry) : list entry := take (sn - so) m.
Definition stay (so sn nn : nat) (m : list entry) : list entry :=
  take (sn + nn - Nat.max so sn) (drop (sn - so) m).
Definition leave_right (so sn nn : nat) (m : list entry) : list entry :=
  drop (sn + nn - Nat.max so sn) (drop (sn - so) m).

Lemma leave_stay so sn nn m : m = leave_left so sn m ++ stay so sn nn m ++ leave_right so sn nn m.
Proof. unfold leave_left, stay, leave_right. by rewrite take_drop, take_drop. Qed.

Lemma stay_lengths so sn nn m :
  length (leave_left so sn m) = Nat.min (sn - so) (length m) /\
  length (stay so sn nn m) = Nat.min (sn + nn - Nat.max so sn) (length m - (sn - so)) /\
  length (leave_right so sn nn m) = (length m - (sn - so) - (sn + nn - Nat.max so sn))%nat.
Proof. unfold leave_left, stay, leave_right. rewrite !length_take, !length_drop. auto. Qed.

(** Freeing the cells that leave on the left. *)
Lemma shrink_left_ok j p A R pre post (sn : nat) :
  let so := length pre in
  let cell_array := pre ++ refs j 0 (A ++ R) ++ post in
  holds p (A ++ R) -> Forall (outside j) post -> (sn <= length cell_array)%nat ->
  length A = Nat.min (sn - so) (length (A ++ R)) ->
  exists p1,
    (if Z.of_nat so <? Z.of_nat sn then
       '(number_to_shift, p) ←
         page_free_array usable j p (Z.of_nat so) (Z.of_nat sn - Z.of_nat so) cell_array;
       p ← shift_cells_left p (lenZ (in_page (A ++ R))) number_to_shift;
       count_cells ← checked_sub (lenZ (in_page (A ++ R))) number_to_shift;
       Ok (p, count_cells)
     else Ok (p, lenZ (in_page (A ++ R)))) = Ok (p1, lenZ (in_page R)) /\
    holds p1 R /\ overflow_cells p1 = overflow_cells p /\ outer 0 usable t (as_ptr p) (as_ptr p1).
Proof.
  intros so cell_array Hp Hpost Hn HA. unfold cell_array in *. rewrite (length_app pre) in Hn. fold so in Hn.
  rewrite length_app in HA. destruct (Z.ltb_spec (Z.of_nat so) (Z.of_nat sn)).
  - destruct (shrink_left j p A R pre post (sn - so)) as (p0 & p1 & Hf & Hsh & Hh & Hov & Ho); [done|done|lia| |lia|].
    { destruct (decide (sn - so <= length A + length R)%nat); [left; lia|right]. apply nil_length_inv. lia. }
    replace (Z.of_nat sn - Z.of_nat so) with (Z.of_nat (sn - so)) by lia. change (Z.of_nat so) with (lenZ pre).
    rewrite Hf. cbn [mbind Result_bind]. rewrite Hsh. cbn [mbind Result_bind]. unfold checked_sub.
    assert (lenZ (in_page (A ++ R)) = lenZ (in_page A) + lenZ (in_page R)) as ->
      by (unfold lenZ; rewrite in_page_app, length_app; lia).
    pose proof (lenZ_nonneg (in_page R)). replace (lenZ (in_page A) <=? lenZ (in_page A) + lenZ (in_page R)) with true by lia.
    cbn [mbind Result_bind]. exists p1. split_and!; [|done|done|done]. f_equal. f_equal. lia.
  - assert (A = []) as -> by (apply nil_length_inv; lia). exists p. split_and!; [done|done|done|apply outer_refl].
Qed.

(** Freeing the cells that leave on the right. *)
Lemma shrink_right_ok j p A K B pre post (en : nat) :
  let so := length pre in
  let cell_array := pre ++ refs j 0 (A ++ K ++ B) ++ post in
  let count := lenZ (in_page (K ++ B)) in
  let eo := Z.of_nat so + lenZ (A ++ K ++ B) in
  holds p (K ++ B) -> Forall (outside j) pre ->
  (so <= en -> en < so + length (A ++ K ++ B) -> so + length A + length K = en)%nat ->
  (en < so -> A = [] /\ K = [])%nat -> (so + length (A ++ K ++ B) <= en -> B = [])%nat ->
  exists p1,
    (if Z.of_nat en <? eo then
       '(number_tail_removed, p) ← page_free_array usable j p (Z.of_nat en) (eo - Z.of_nat en) cell_array;
       _ ← turso_assert (number_tail_removed <=? count);
       Ok (p, count - number_tail_removed)
     else Ok (p, count)) = Ok (p1, lenZ (in_page K)) /\
    holds p1 K /\ overflow_cells p1 = overflow_cells p /\ outer 0 usable t (as_ptr p) (as_ptr p1).
Proof.
  intros so cell_array count eo Hp Hpre Hin Hout Hall. unfold count, eo, cell_array.
  assert (lenZ (in_page (K ++ B)) = lenZ (in_page K) + lenZ (in_page B)) as Hkb
    by (unfold lenZ; rewrite in_page_app, length_app; lia).
  pose proof (lenZ_nonneg (in_page K)). destruct (Z.ltb_spec (Z.of_nat en) (Z.of_nat so + lenZ (A ++ K ++ B))).
  - assert (exists k pre0 gap, pre ++ refs j 0 (A ++ K ++ B) ++ post = pre0 ++ gap ++ refs j k B ++ post /\
      lenZ pre0 = Z.of_nat en /\ lenZ gap + lenZ B = Z.of_nat so + lenZ (A ++ K ++ B) - Z.of_nat en /\ Forall (outside j) gap)
      as (k & pre0 & gap & Harr & Hl0 & Hlg & Hgap).
    { destruct (decide (so <= en)%nat).
      - exists (0 + length (overs 0 (A ++ K)))%nat, (pre ++ refs j 0 (A ++ K)), []. split_and!; [|..|done].
        + rewrite (app_assoc A K B), refs_app, <- !app_assoc. done.
        + unfold lenZ in *. rewrite length_app, refs_length, length_app. fold so. lia.
        + unfold lenZ in *. rewrite !length_app in *. cbn. lia.
      - destruct (Hout ltac:(lia)) as [-> ->]. exists 0%nat, (take en pre), (drop en pre). cbn [app].
        split_and!; [by rewrite (app_assoc (take en pre)), take_drop|unfold lenZ; rewrite length_take; lia| |by apply Forall_drop].
        unfold lenZ. rewrite length_drop. fold so. lia. }
    destruct (shrink_right j k p K B pre0 gap post Hp Hgap) as (p1 & Hf & Hh & Hov & Ho).
    rewrite Harr, <- Hlg, <- Hl0, Hf.
    cbn [mbind Result_bind]. rewrite Hkb. pass. exists p1. split_and!; [|done|done|done]. f_equal. f_equal. lia.
  - assert (B = []) as -> by (apply Hall; unfold lenZ in *; lia). rewrite app_nil_r in *. exists p.
    split_and!; [done|done|done|apply outer_refl].
Qed.

(** ** Inserting the cells that come *)

(** [n] elements from index [i] on. *)
Definition rng {A} (i n : nat) (l : list A) : list A := take n (drop i l).

Lemma rng_split {A} i a b (l : list A) : rng i (a + b) l = rng i a l ++ rng (i + a) b l.
Proof. unfold rng. rewrite <- drop_drop. symmetry. apply take_take_drop. Qed.

Lemma rng_lookup {A} i n k (l : list A) x : rng i n l !! k = Some x -> l !! (i + k)%nat = Some x /\ (k < n)%nat.
Proof. unfold rng. intros [H ?]%lookup_take_Some. by rewrite lookup_drop in H. Qed.

Lemma rng_length {A} i n (l : list A) : (i + n <= length l)%nat -> length (rng i n l) = n.
Proof. intros. unfold rng. rewrite length_take, length_drop. lia. Qed.

(** The number of cells that come in front of those that stay. *)
Definition front (so sn nn : nat) : nat := if (sn <? so)%nat then Nat.min nn (so - sn) else 0.

(** What the insertions need: the cells of the new range behind their
    references, the position of the cells that stay, and the space. *)
Record comes (pages : list PageInner) (j : nat) (arr : list cellref) (cs : list bytes) (so sn nn : nat)
    (A K B : list entry) : Prop := mkComes {
  cm_len : (sn + nn <= length cs)%nat;
  cm_ref : forall x c, (sn <= x < sn + nn)%nat -> (x < so \/ so + length (A ++ K ++ B) <= x)%nat -> cs !! x = Some c ->
             exists r, arr !! x = Some r /\ refers pages j r c;
  cm_over : forall i c, K !! i = Some (EOver c) -> exists r, arr !! (so + length A + i)%nat = Some r /\ refers pages j r c;
  cm_kept : rng (so + length A) (length K) cs = e_bytes <$> K;
  cm_cells : Forall (is_cell usable t) (rng sn nn cs);
  cm_weight : weight (rng sn nn cs) <= usable - arr0;
  cm_pos : (K <> [] -> so + length A = sn + front so sn nn)%nat;
  cm_fit : (front so sn nn + length K <= nn)%nat;
  cm_right : (B <> [] -> sn + nn <= so + length A + length K)%nat;
  cm_left : (length A <= sn - so)%nat;
  cm_tail : (forall x, sn + front so sn nn + length K <= x < sn + nn -> x < so \/ so + length (A ++ K ++ B) <= x)%nat
}.

Lemma comes_update pages j p p' arr cs so sn nn A K B :
  pages !! j = Some p -> overflow_cells p' = overflow_cells p ->
  comes pages j arr cs so sn nn A K B -> comes (<[j := p']> pages) j arr cs so sn nn A K B.
Proof.
  intros Hp Hov []. constructor; try done.
  - intros x c Hx Hor Hc. destruct (cm_ref0 x c Hx Hor Hc) as (r & ? & ?). exists r. split; [done|]. by eapply refers_update.
  - intros i c Hc. destruct (cm_over0 i c Hc) as (r & ? & ?). exists r. split; [done|]. by eapply refers_update.
Qed.

Section grow.
Context (j : nat) (arr : list cellref) (cs : list bytes) (so sn nn : nat) (A K B : list entry).
#[local] Abbreviation f := (front so sn nn).
#[local] Abbreviation D := (rng sn f cs).
#[local] Abbreviation T := (rng (sn + f + length K) (nn - (f + length K)) cs).

(** The new range: the cells in front, those that stay, those at the end. *)
Lemma new_range pages :
  comes pages j arr cs so sn nn A K B -> rng sn nn cs = D ++ (e_bytes <$> K) ++ T.
Proof.
  intros []. replace nn with (f + (length K + (nn - (f + length K))))%nat at 1 by lia.
  rewrite !rng_split. f_equal. f_equal. destruct K as [|e K']; [done|]. rewrite <- cm_kept0, cm_pos0; done.
Qed.

Lemma front_ok pages p ca ptrs :
  pages !! j = Some p -> compact p ca ptrs (snd <$> in_page K) -> comes pages j arr cs so sn nn A K B ->
  exists p1 ca1 ptrs1,
    (if Z.of_nat sn <? Z.of_nat so then
       let count := Z.min (Z.of_nat nn) (Z.of_nat so - Z.of_nat sn) in
       pages ← page_insert_array pages j (Z.of_nat sn) count arr 0;
       Ok (pages, lenZ (in_page K) + count)
     else Ok (pages, lenZ (in_page K))) = Ok (<[j := p1]> pages, lenZ (in_page K) + Z.of_nat f) /\
    compact p1 ca1 ptrs1 (D ++ (snd <$> in_page K)) /\ overflow_cells p1 = overflow_cells p /\
    outer 0 usable t (as_ptr p) (as_ptr p1).
Proof.
  intros Hp HC Hcm. pose proof (new_range pages Hcm) as Hnew. destruct Hcm. rewrite Hnew in cm_cells0, cm_weight0.
  destruct (Z.ltb_spec (Z.of_nat sn) (Z.of_nat so)).
  - assert (f = Nat.min nn (so - sn)) as Hf by (unfold front; replace (sn <? so)%nat with true by (symmetry; apply Nat.ltb_lt; lia); done).
    assert (length D = f) as HlD by (apply rng_length; lia).
    destruct (page_insert_array_ok usable Hdims t pages j p ca ptrs (snd <$> in_page K) arr sn 0 D)
      as (p1 & ca1 & ptrs1 & Hins & HC1 & Hov1 & Ho1); try done.
    + intros k c [Hc Hk]%rng_lookup. apply cm_ref0; [lia|lia|done].
    + by apply Forall_app in cm_cells0 as [? _].
    + lia.
    + rewrite free_weight. fold (weight D). rewrite !weight_app in cm_weight0. pose proof (weight_in_page K).
      pose proof (weight_nonneg T). lia.
    + replace (lenZ D) with (Z.min (Z.of_nat nn) (Z.of_nat so - Z.of_nat sn)) in Hins by (unfold lenZ; lia).
      change (Z.of_nat 0) with 0 in Hins. cbn zeta. rewrite Hins. cbn [mbind Result_bind]. exists p1, ca1, ptrs1.
      split_and!; [do 3 f_equal; lia|done|done|done].
  - assert (f = 0%nat) as -> by (unfold front; replace (sn <? so)%nat with false by (symmetry; apply Nat.ltb_ge; lia); done).
    exists p, ca, ptrs. rewrite list_insert_id, Z.add_0_r by done. split_and!; [done|done|done|apply outer_refl].
Qed.

(** The overflow cells: those that leave are skipped. *)
Lemma overflow_ok pages p ca ptrs count :
  pages !! j = Some p -> compact p ca ptrs (D ++ (snd <$> in_page K)) -> comes pages j arr cs so sn nn A K B ->
  exists p1 ca1 ptrs1,
    insert_overflow_loop (overs 0 (A ++ K ++ B)) pages j (Z.of_nat so) (Z.of_nat sn) (Z.of_nat nn) arr count =
      Ok (<[j := p1]> pages, count + lenZ (overs (length A) K)) /\
    compact p1 ca1 ptrs1 (D ++ (e_bytes <$> K)) /\ overflow_cells p1 = overflow_cells p /\
    outer 0 usable t (as_ptr p) (as_ptr p1).
Proof.
  intros Hp HC Hcm. pose proof (new_range pages Hcm) as Hnew. destruct Hcm. rewrite Hnew in cm_cells0, cm_weight0.
  rewrite !overs_app, Nat.add_0_l, insert_overflow_app, insert_overflow_skip.
  2: { apply Forall_forall. intros o (x & -> & ?)%overs_index. lia. }
  cbn [mbind Result_bind]. rewrite insert_overflow_app.
  apply Forall_app in cm_cells0 as [_ [HcK _]%Forall_app]. rewrite app_assoc, weight_app in cm_weight0. pose proof (weight_nonneg T).
  assert (exists p1 ca1 ptrs1,
    insert_overflow_loop (overs (length A) K) pages j (Z.of_nat so) (Z.of_nat sn) (Z.of_nat nn) arr count =
      Ok (<[j := p1]> pages, count + lenZ (overs (length A) K)) /\
    compact p1 ca1 ptrs1 (D ++ (e_bytes <$> K)) /\ overflow_cells p1 = overflow_cells p /\
    outer 0 usable t (as_ptr p) (as_ptr p1)) as (p1 & ca1 & ptrs1 & Hl & HC1 & Hov & Ho).
  { destruct (decide (K = [])) as [HK|HK].
    - rewrite HK in *. exists p, ca, ptrs. cbn. rewrite list_insert_id, Z.add_0_r by done. split_and!; [done|done|done|apply outer_refl].
    - assert (length D = f) as HlD by (apply rng_length; lia).
      apply (insert_overflow_ok j so sn nn arr K pages p ca ptrs D (length A) count); try done; try lia.
      specialize (cm_pos0 HK). lia. }
  rewrite Hl. cbn [mbind Result_bind]. rewrite insert_overflow_skip; [by exists p1, ca1, ptrs1|].
  apply Forall_forall. intros o Ho'. assert (B <> []) as HB by (by intros ->; inversion Ho'). specialize (cm_right0 HB).
  apply overs_index in Ho' as (x & -> & ?). lia.
Qed.

Lemma overs_count i m : lenZ (in_page m) + lenZ (overs i m) = lenZ m.
Proof.
  unfold lenZ. revert i. induction m as [|[q c|c] m IH]; intros i; cbn [in_page omap list_omap e_cell overs length]; [done|..].
  - specialize (IH (S i)). unfold in_page in *. cbn in *. lia.
  - specialize (IH (S i)). unfold in_page in *. cbn in *. lia.
Qed.

(** The cells after those that stay. *)
Lemma tail_ok pages p ca ptrs :
  pages !! j = Some p -> compact p ca ptrs (D ++ (e_bytes <$> K)) -> comes pages j arr cs so sn nn A K B ->
  let count_cells := Z.of_nat (f + length K) in
  exists p1 ca1 ptrs1,
    (rest ← checked_sub (Z.of_nat nn) count_cells;
     page_insert_array pages j (Z.of_nat sn + count_cells) rest arr count_cells) = Ok (<[j := p1]> pages) /\
    compact p1 ca1 ptrs1 (rng sn nn cs) /\ overflow_cells p1 = overflow_cells p /\
    outer 0 usable t (as_ptr p) (as_ptr p1).
Proof.
  intros Hp HC Hcm count_cells. pose proof (new_range pages Hcm) as Hnew. destruct Hcm. rewrite Hnew in *. unfold checked_sub, count_cells.
  assert (Z.of_nat (f + length K) <=? Z.of_nat nn = true) as -> by (apply Z.leb_le; lia). cbn [mbind Result_bind].
  assert (length T = (nn - (f + length K))%nat) as HlT by (apply rng_length; lia).
  assert (length D = f) as HlD by (apply rng_length; lia).
  destruct (page_insert_array_ok usable Hdims t pages j p ca ptrs (D ++ (e_bytes <$> K)) arr (sn + (f + length K)) (f + length K) T)
    as (p1 & ca1 & ptrs1 & Hins & HC1 & Hov1 & Ho1); try done.
  - intros k c [Hc Hk]%rng_lookup. replace (sn + (f + length K) + k)%nat with (sn + f + length K + k)%nat by lia.
    apply cm_ref0; [lia|apply cm_tail0; lia|done].
  - by apply Forall_app in cm_cells0 as [_ [_ ?]%Forall_app].
  - rewrite length_app, length_fmap. lia.
  - rewrite free_weight. fold (weight T). rewrite !weight_app in *. lia.
  - exists p1, ca1, ptrs1. split_and!; [| |done|done].
    + rewrite <- Hins. f_equal; unfold lenZ; lia.
    + rewrite app_assoc. unfold insert_run in HC1. rewrite take_ge, drop_ge, app_nil_r in HC1 by (rewrite length_app, length_fmap; lia).
      done.
Qed.

(** Writing the cell count that the page already has. *)
Lemma write_count_same p ca ptrs cells :
  compact p ca ptrs cells ->
  (buf ← write_cell_count 0 (as_ptr p) (u16 (lenZ cells)); Ok (set_buffer p buf)) = Ok p.
Proof.
  intros [Hb Hbuf [[HA Hlen _] HS] _]. destruct Hdims. pose proof (so_len _ _ _ _ _ _ _ HS). pose proof (so_lo _ _ _ _ _ _ _ HS).
  unfold lo_of in *. pose proof (arr_range 0 t). pose proof (lenZ_nonneg cells).
  rewrite (write_count_ok 0 usable) by (done || lia). cbn [mbind Result_bind].
  assert (u16 (lenZ cells) = lenZ cells) as -> by (unfold u16; rewrite Z.mod_small; lia).
  rewrite splice_get16; [by rewrite set_buffer_same|apply HS|lia|lia|]. rewrite <- Hlen. apply (ar_count _ _ _ _ HA).
Qed.

Lemma grow_ok pages p ca ptrs :
  pages !! j = Some p -> compact p ca ptrs (snd <$> in_page K) -> overflow_cells p = overs 0 (A ++ K ++ B) ->
  comes pages j arr cs so sn nn A K B ->
  exists p' ca' ptrs',
    ('(pages, count_cells) ←
       (if Z.of_nat sn <? Z.of_nat so then
          let count := Z.min (Z.of_nat nn) (Z.of_nat so - Z.of_nat sn) in
          pages ← page_insert_array pages j (Z.of_nat sn) count arr 0;
          Ok (pages, lenZ (in_page K) + count)
        else Ok (pages, lenZ (in_page K)));
     '(pages, count_cells) ←
       insert_overflow_loop (overflow_cells p) pages j (Z.of_nat so) (Z.of_nat sn) (Z.of_nat nn) arr count_cells;
     rest ← checked_sub (Z.of_nat nn) count_cells;
     pages ← page_insert_array pages j (Z.of_nat sn + count_cells) rest arr count_cells;
     p ← unwrap (pages !! j);
     buf ← write_cell_count 0 (as_ptr p) (u16 (Z.of_nat nn));
     Ok (<[j := set_buffer p buf]> pages)) = Ok (<[j := p']> pages) /\
    compact p' ca' ptrs' (rng sn nn cs) /\ overflow_cells p' = overflow_cells p /\ outer 0 usable t (as_ptr p) (as_ptr p').
Proof.
  intros Hp HC Hov Hcm. pose proof (lookup_lt_Some _ _ _ Hp) as Hj.
  assert (forall q : PageInner, <[j := q]> pages !! j = Some q) as Hlk by (intros; by apply list_lookup_insert_eq).
  destruct (front_ok pages p ca ptrs Hp HC Hcm) as (p1 & ca1 & ptrs1 & -> & HC1 & Hov1 & Ho1). cbn [mbind Result_bind].
  pose proof (comes_update _ _ p p1 _ _ _ _ _ _ _ _ Hp Hov1 Hcm) as Hcm1. rewrite Hov.
  destruct (overflow_ok (<[j := p1]> pages) p1 ca1 ptrs1 (lenZ (in_page K) + Z.of_nat f) (Hlk p1) HC1 Hcm1)
    as (p2 & ca2 & ptrs2 & -> & HC2 & Hov2 & Ho2). cbn [mbind Result_bind]. rewrite list_insert_insert_eq.
  pose proof (comes_update _ _ p p2 _ _ _ _ _ _ _ _ Hp ltac:(congruence) Hcm) as Hcm2.
  assert (lenZ (in_page K) + Z.of_nat f + lenZ (overs (length A) K) = Z.of_nat (f + length K)) as ->
    by (pose proof (overs_count (length A) K); unfold lenZ in *; lia).
  destruct (tail_ok (<[j := p2]> pages) p2 ca2 ptrs2 (Hlk p2) HC2 Hcm2) as (p3 & ca3 & ptrs3 & Ht & HC3 & Hov3 & Ho3).
  destruct (checked_sub (Z.of_nat nn) (Z.of_nat (f + length K))) as [rest| |]; [|done..]. cbn [mbind Result_bind] in Ht |- *.
  rewrite Ht, list_insert_insert_eq. cbn [mbind Result_bind]. rewrite Hlk. cbn [unwrap mbind Result_bind].
  pose proof (write_count_same _ _ _ _ HC3) as Hw.
  assert (lenZ (rng sn nn cs) = Z.of_nat nn) as Hl by (unfold lenZ; rewrite rng_length; [done|apply Hcm]). rewrite Hl in Hw.
  destruct (write_cell_count 0 (as_ptr p3) (u16 (Z.of_nat nn))) as [buf| |]; [|done..]. cbn [mbind Result_bind] in Hw |- *.
  injection Hw as Hw. rewrite Hw, list_insert_insert_eq. exists p3, ca3, ptrs3. split_and!; [done|done|congruence|].
  eapply outer_trans; [exact Ho1|]. by eapply outer_trans.
Qed.

End grow.

(** ** The whole operation *)

Lemma lookup_mid {X} (m a k b : list X) i e : m = a ++ k ++ b -> k !! i = Some e -> m !! (length a + i)%nat = Some e.
Proof. intros -> H. rewrite lookup_app_r by lia. rewrite Nat.add_sub'. by apply lookup_app_l_Some. Qed.

(** The conditions of the insertions hold for every new range. *)
Lemma comes_intro pages j p m pre post cs (sn nn : nat) :
  let so := length pre in
  let arr := pre ++ refs j 0 m ++ post in
  pages !! j = Some p -> overflow_cells p = overs 0 m ->
  length cs = length arr -> rng so (length m) cs = e_bytes <$> m -> (sn + nn <= length arr)%nat ->
  (forall x c, (sn <= x < sn + nn)%nat -> (x < so \/ so + length m <= x)%nat -> cs !! x = Some c ->
     exists r, arr !! x = Some r /\ refers pages j r c) ->
  Forall (is_cell usable t) (rng sn nn cs) -> weight (rng sn nn cs) <= usable - arr0 ->
  comes pages j arr cs so sn nn (leave_left so sn m) (stay so sn nn m) (leave_right so sn nn m).
Proof.
  intros so arr Hp Hov Hcs Hown Hn Href Hcells Hw. destruct (stay_lengths so sn nn m) as (HlA & HlK & HlB).
  pose proof (leave_stay so sn nn m) as Hm. pose proof (Nat.ltb_spec sn so) as Hlt.
  assert (forall l : list entry, l <> [] -> (0 < length l)%nat) as Hne by (intros [|] ?; cbn; [done|lia]).
  constructor; try done.
  - lia.
  - by rewrite <- Hm.
  - intros i c Hi. assert (m !! (length (leave_left so sn m) + i)%nat = Some (EOver c)) as Hx.
    { by eapply lookup_mid. }
    destruct (refs_over j m 0 0 _ _ Hx) as (n & Hr & Ho). eexists. split.
    + unfold arr. rewrite lookup_app_r by (fold so; lia). fold so. replace (so + length (leave_left so sn m) + i - so)%nat
        with (length (leave_left so sn m) + i)%nat by lia. rewrite lookup_app_l; [exact Hr|by eapply lookup_lt_Some].
    + split_and!; [|done|done]. cbn. rewrite Hp. cbn. rewrite Hov, Ho. done.
  - rewrite Hm in Hown at 2. rewrite !fmap_app in Hown. rewrite Hm in Hown at 1. rewrite !length_app, !rng_split in Hown.
    assert (forall k, (k + 0 <= length m)%nat -> length (rng so k cs) = k) as Hlr.
    { intros k Hk. apply rng_length. rewrite Hcs. unfold arr. rewrite !length_app, refs_length. fold so. lia. }
    apply app_inj_1 in Hown as [_ Hown]; [|rewrite length_fmap; apply Hlr; lia].
    apply app_inj_1 in Hown as [Hown _]; [done|]. rewrite length_fmap. apply rng_length. rewrite Hcs. unfold arr.
    rewrite !length_app, refs_length. fold so. lia.
  - intros HK%Hne. unfold front. destruct Hlt; lia.
  - unfold front. destruct Hlt; lia.
  - intros HB%Hne. lia.
  - lia.
  - intros x Hx. rewrite <- Hm. unfold front in Hx. destruct Hlt; lia.
Qed.

Lemma edit_page_ok pages j p m pre post cs (sn nn : nat) :
  let so := length pre in
  let arr := pre ++ refs j 0 m ++ post in
  pages !! j = Some p -> holds p m -> overflow_cells p = overs 0 m -> Forall (outside j) pre -> Forall (outside j) post ->
  length cs = length arr -> rng so (length m) cs = e_bytes <$> m -> (sn + nn <= length arr)%nat ->
  (forall x c, (sn <= x < sn + nn)%nat -> (x < so \/ so + length m <= x)%nat -> cs !! x = Some c ->
     exists r, arr !! x = Some r /\ refers pages j r c) ->
  Forall (is_cell usable t) (rng sn nn cs) -> weight (rng sn nn cs) <= usable - arr0 ->
  exists p' ca' ptrs', edit_page usable pages j (Z.of_nat so) (Z.of_nat sn) (Z.of_nat nn) arr = Ok (<[j := p']> pages) /\
    compact p' ca' ptrs' (rng sn nn cs) /\ overflow_cells p' = overflow_cells p /\ outer 0 usable t (as_ptr p) (as_ptr p').
Proof.
  intros so arr Hp Hh Hov Hpre Hpost Hcs Hown Hn Href Hcells Hw.
  pose proof (comes_intro pages j p m pre post cs sn nn Hp Hov Hcs Hown Hn Href Hcells Hw) as Hcm.
  destruct (stay_lengths so sn nn m) as (HlA & HlK & HlB). pose proof (leave_stay so sn nn m) as Hm.
  change (length pre) with so in Hcm. set (A := leave_left so sn m) in *. set (K := stay so sn nn m) in *.
  set (B := leave_right so sn nn m) in *. pose proof Hh as [Hb Hbuf (ca & fbs & HW) _].
  pose proof HW as [[HA Hl _] HS]. pose proof Hdims as []. pose proof (so_len _ _ _ _ _ _ _ HS).
  unfold edit_page. rewrite Hp. cbn [unwrap mbind Result_bind]. rewrite Hb, (cell_count_ok _ _ _ Hdims _ _ HA) by lia.
  cbn [mbind Result_bind]. rewrite Hov.
  assert (lenZ (fst <$> in_page m) = lenZ (in_page m)) as -> by (unfold lenZ; by rewrite length_fmap).
  rewrite <- Z.add_assoc, overs_count, <- (Nat2Z.inj_add sn nn). fold so. clearbody A K B. subst m. subst arr.
  destruct (shrink_left_ok j p A (K ++ B) pre post sn Hh Hpost ltac:(lia) HlA) as (p1 & Hl1 & Hh1 & Hov1 & Ho1).
  fold so in Hl1. rewrite Hl1. cbn [mbind Result_bind].
  assert (forall l : list entry, length l = 0%nat -> l = []) as Hnil by (intros [|] ?; done).
  destruct (shrink_right_ok j p1 A K B pre post (sn + nn) Hh1 Hpre) as (p2 & Hr2 & Hh2 & Hov2 & Ho2).
  { fold so. lia. } { fold so. split; apply Hnil; lia. } { fold so. intros. apply Hnil. lia. }
  fold so in Hr2. rewrite Hr2. cbn [mbind Result_bind].
  destruct (defragment_compact p2 K Hh2) as (buf & ca2 & ptrs2 & Hd & HC & Ho3). rewrite Hd. cbn [mbind Result_bind].
  assert (overflow_cells (set_buffer p2 buf) = overflow_cells p) as Hov3 by (cbn; congruence).
  pose proof (comes_update _ _ p _ _ _ _ _ _ _ _ _ Hp Hov3 Hcm) as Hcm3.
  destruct (grow_ok j _ cs so sn nn A K B _ (set_buffer p2 buf) ca2 ptrs2
    (list_lookup_insert_eq _ _ _ (lookup_lt_Some _ _ _ Hp)) HC (eq_trans Hov3 Hov) Hcm3)
    as (p' & ca' & ptrs' & Hg & HC' & Hov' & Ho').
  rewrite list_insert_insert_eq in Hg. exists p', ca', ptrs'. split_and!; [exact Hg|done|congruence|].
  eapply outer_trans; [exact Ho1|]. eapply outer_trans; [exact Ho2|]. eapply outer_trans; [exact Ho3|exact Ho'].
Qed.

End edit.
