(* ===== verification/BtreeSiblings.v ===== *)
(** * BtreeSiblings: the order in which the siblings are edited

    The cells that a page takes over are read from the pages that hold them
    at that moment.  The two passes of the balancing over the pages edit a page
    only after all pages that take cells from it. *)

From S2P Require Import Prelude Varint OnDisk Page BtreePage BtreeSpace BtreeCells BtreeDefrag BtreeInsert.
From S2P Require Import BtreeBalance BtreeDistribute BtreeFree BtreeBulk BtreeEdit.

(** The page a reference points into. *)
Definition owner (r : cellref) : option nat :=
  match r with InPage j _ _ => Some j | OverCell j _ _ => Some j | Divider _ => None end.

Lemma owner_outside j r : owner r <> Some j -> outside j r.
Proof. destruct r; cbn; [congruence|done..]. Qed.

Lemma deref_owner P pages r :
  (forall j, owner r = Some j -> pages !! j = P !! j) -> deref pages r = deref P r.
Proof. intros H. destruct r; cbn in *; [..|done]; by rewrite H. Qed.

(** ** A redistribution *)

(** The old start of page [j]: a page that did not exist starts after all
    [n] cells. *)
Definition old_start (is_table_leaf : bool) (s : nat) (oldc : list nat) (n j : nat) : nat :=
  if (j <? s)%nat then start_of is_table_leaf oldc j else n.

(** The siblings [P] hold the entries [ms], the first [s] of them behind the
    references [ar] to the cells [cs], the others empty; [newc] are the new
    prefix sums of [k] pages that have space for their cells. *)
Record redistribution (usable : Z) (t : PageType) (is_table_leaf : bool) (s k : nat) (oldc newc : list nat)
    (P : list PageInner) (ms : list (list entry)) (ar : list cellref) (cs : list bytes) : Prop := mkRedist {
  rd_s : (1 <= s <= length P)%nat;
  rd_k : (1 <= k <= 5)%nat /\ (k <= length P)%nat;
  rd_lens : length oldc = 5%nat /\ length newc = 5%nat /\ length ms = length P /\ length cs = length ar;
  rd_page j p m : P !! j = Some p -> ms !! j = Some m -> holds usable t p m /\ overflow_cells p = overs 0 m;
  rd_arr j m : ms !! j = Some m -> exists pre post,
    ar = pre ++ refs j 0 m ++ post /\ length pre = old_start is_table_leaf s oldc (length ar) j /\
    Forall (outside j) pre /\ Forall (outside j) post /\ rng (length pre) (length m) cs = e_bytes <$> m;
  rd_ref x c : cs !! x = Some c -> exists r, ar !! x = Some r /\ deref P r = Ok c /\ ref_len r = lenZ c /\
    forall j, owner r = Some j -> (j < s)%nat /\ (start_of is_table_leaf oldc j <= x < upto oldc j)%nat;
  rd_old j m : (j < s)%nat -> ms !! j = Some m -> (start_of is_table_leaf oldc j + length m = upto oldc j)%nat;
  rd_end j : (s <= j + 1)%nat -> (j < k)%nat -> upto oldc j = length ar;
  rd_top j : (upto oldc j <= length ar)%nat;
  rd_new j : (j < k)%nat -> (start_of is_table_leaf newc j <= upto newc j <= length ar)%nat;
  rd_cells : Forall (is_cell usable t) cs;
  rd_fit j : (j < k)%nat ->
    weight (rng (start_of is_table_leaf newc j) (upto newc j - start_of is_table_leaf newc j) cs) <= usable - arr 0 t
}.

Section order.
Context (usable : Z) (Hdims : dims 0 usable) (t : PageType) (is_table_leaf : bool) (s k : nat) (oldc newc : list nat).
Context (P : list PageInner) (ms : list (list entry)) (ar : list cellref) (cs : list bytes).
Context (HR : redistribution usable t is_table_leaf s k oldc newc P ms ar cs).
#[local] Abbreviation olds := (old_start is_table_leaf s oldc (length ar)).
#[local] Abbreviation news := (start_of is_table_leaf newc).

(** The new cells of page [j]. *)
Definition new_cells (j : nat) : list bytes := rng (news j) (upto newc j - news j) cs.

(** Page [j] is edited in the downward pass. *)
Definition down (j : nat) : bool :=
  match j with O => false | S j' => (upto newc j' <=? upto oldc j')%nat end.

(** The pages edited before step [i] of the loop. *)
Definition edited (i : Z) (j : nat) : bool :=
  (j <? k)%nat && ((down j && (- i <? Z.of_nat j)) || (Z.of_nat j <? i)).

Lemma old_mono i j : (i < j)%nat -> (j < s)%nat -> (upto oldc i <= start_of is_table_leaf oldc j)%nat.
Proof.
  intros Hij Hj. induction j as [|j IH]; [lia|]. cbn.
  assert (i = j \/ i < j)%nat as [->|Hlt] by lia; [lia|]. pose proof (IH Hlt ltac:(lia)).
  destruct (lookup_lt_is_Some_2 ms j) as [m Hm]; [destruct HR; lia|].
  pose proof (rd_old _ _ _ _ _ _ _ _ _ _ _ HR j m ltac:(lia) Hm). lia.
Qed.

Lemma new_mono i j : (i < j)%nat -> (j < k)%nat -> (upto newc i <= start_of is_table_leaf newc j)%nat.
Proof.
  intros Hij Hj. induction j as [|j IH]; [lia|]. cbn.
  assert (i = j \/ i < j)%nat as [->|Hlt] by lia; [lia|]. pose proof (IH Hlt ltac:(lia)).
  pose proof (rd_new _ _ _ _ _ _ _ _ _ _ _ HR j ltac:(lia)). lia.
Qed.

(** No cell of the new range of a page being edited lies on a page that has
    been edited. *)
Lemma not_edited_yet i j j' x :
  j = Z.abs_nat i -> (j < k)%nat -> edited i j = false -> 0 <= i \/ down j = true ->
  (news j <= x < upto newc j)%nat -> (j' < s)%nat -> (start_of is_table_leaf oldc j' <= x < upto oldc j')%nat -> j' <> j ->
  edited i j' = false.
Proof.
  intros Hj Hk He Hi Hx Hj' Hx' Hne. unfold edited in *. destruct (Nat.ltb_spec j' k); [|done]. cbn [andb] in *.
  destruct (decide (j < j')%nat) as [Hlt|].
  - assert (down j' = false) as ->; [|cbn; lia]. destruct j' as [|j'']; [lia|]. cbn in *.
    apply Nat.leb_gt. destruct (decide (j = j'')) as [<-|]; [lia|]. pose proof (new_mono j j'' ltac:(lia) ltac:(lia)).
    pose proof (rd_new _ _ _ _ _ _ _ _ _ _ _ HR j'' ltac:(lia)). lia.
  - assert (down j = true) as Hd.
    { destruct j as [|j0]; [lia|]. cbn in *. apply Nat.leb_le.
      assert (upto oldc j' <= upto oldc j0)%nat; [|lia].
      destruct (decide (j0 < s)%nat) as [Hs|]; [|rewrite (rd_end _ _ _ _ _ _ _ _ _ _ _ HR j0) by lia; apply HR].
      destruct (decide (j' = j0)) as [->|]; [done|]. pose proof (old_mono j' j0 ltac:(lia) Hs).
      destruct (lookup_lt_is_Some_2 ms j0) as [m Hm]; [destruct HR; lia|].
      pose proof (rd_old _ _ _ _ _ _ _ _ _ _ _ HR j0 m Hs Hm). lia. }
    rewrite Hd in *. assert (j <? k = true)%nat as Hjk by (by apply Nat.ltb_lt). rewrite Hjk in He. cbn in He. lia.
Qed.

Lemma edited_step i j :
  edited (i + 1) j = edited i j || ((j <? k)%nat && (Z.of_nat j =? Z.abs i) && ((0 <=? i) || down j)).
Proof.
  unfold edited. destruct (Nat.ltb_spec j k); [|done]. cbn [andb].
  assert (down j = true -> (0 < j)%nat) as Hd by (destruct j; cbn; [done|lia]).
  destruct (down j); cbn [andb orb]; lia.
Qed.

Lemma edit_args_ok j :
  (j < k)%nat ->
  edit_args is_table_leaf (Z.of_nat s) (Z.of_nat <$> oldc) (mkCellArray ar (Z.of_nat <$> newc)) (Z.of_nat j) =
    Ok (Z.of_nat (olds j), Z.of_nat (news j), Z.of_nat (upto newc j - news j)).
Proof.
  intros Hj. destruct HR as [[Hs1 _] [[_ Hk] _] (Ho & Hn & _ & _) _ _ _ _ _ _ Hnew _ _]. specialize (Hnew j Hj).
  unfold edit_args, cell_count_up_to_page. cbn [cell_payloads cell_count_per_page_cumulative].
  destruct j as [|j].
  - pose proof (upto_lookup newc 0 ltac:(lia)) as Hu. change (Z.of_nat 0) with 0 in *. rewrite Z.eqb_refl, Hu.
    cbn [mbind Result_bind]. unfold old_start. assert (0 <? s = true)%nat as -> by (apply Nat.ltb_lt; lia).
    cbn. by rewrite Nat.sub_0_r.
  - destruct (Z.eqb_spec (Z.of_nat (S j)) 0); [lia|]. replace (Z.of_nat (S j) - 1) with (Z.of_nat j) by lia.
    assert ((if is_table_leaf then 0 else 1) = Z.of_nat (sep is_table_leaf)) as -> by (by destruct is_table_leaf).
    rewrite !upto_lookup by lia. cbn [mbind Result_bind]. unfold old_start. cbn [start_of] in *.
    unfold checked_sub. destruct (Z.ltb_spec (Z.of_nat (S j)) (Z.of_nat s)), (Nat.ltb_spec (S j) s); try lia;
      cbn [mbind Result_bind]; rewrite (proj2 (Z.leb_le _ _)) by lia; cbn [mbind Result_bind];
      unfold lenZ; repeat f_equal; lia.
Qed.

(** ** The loop *)

(** The page has the new cells of page [j]. *)
Definition rebuilt (j : nat) (p p' : PageInner) : Prop :=
  (exists ca ptrs, compact usable t p' ca ptrs (new_cells j)) /\ overflow_cells p' = [] /\
  outer 0 usable t (as_ptr p) (as_ptr p').

(** Before step [i]: the edited pages have their new cells, the others are
    unchanged. *)
Record progress (i : Z) (done : list bool) (pages : list PageInner) : Prop := mkProgress {
  pr_done : length done = 5%nat /\ forall j, (j < 5)%nat -> done !! j = Some (edited i j);
  pr_old j : edited i j = false -> pages !! j = P !! j;
  pr_new j : edited i j = true -> exists p p', P !! j = Some p /\ pages !! j = Some p' /\ rebuilt j p p'
}.

Lemma edit_one i done pages j :
  progress i done pages -> j = Z.abs_nat i -> (j < k)%nat -> edited i j = false -> 0 <= i \/ down j = true ->
  exists p p' ca ptrs, P !! j = Some p /\ pages !! j = Some p /\
    edit_page usable pages j (Z.of_nat (olds j)) (Z.of_nat (news j)) (Z.of_nat (upto newc j - news j)) ar =
      Ok (<[j := p']> pages) /\
    compact usable t p' ca ptrs (new_cells j) /\ outer 0 usable t (as_ptr p) (as_ptr p').
Proof.
  intros Hpr Hj Hk He Hi. pose proof (rd_k _ _ _ _ _ _ _ _ _ _ _ HR) as [_ HkP].
  pose proof (rd_lens _ _ _ _ _ _ _ _ _ _ _ HR) as (_ & _ & Hms & Hcs).
  destruct (lookup_lt_is_Some_2 P j ltac:(lia)) as [p Hp]. destruct (lookup_lt_is_Some_2 ms j ltac:(lia)) as [m Hm].
  destruct (rd_page _ _ _ _ _ _ _ _ _ _ _ HR j p m Hp Hm) as [Hh Hov].
  destruct (rd_arr _ _ _ _ _ _ _ _ _ _ _ HR j m Hm) as (pre & post & Har & Hpre & Ho1 & Ho2 & Hown).
  pose proof (rd_new _ _ _ _ _ _ _ _ _ _ _ HR j Hk) as Hnew.
  pose proof (pr_old _ _ _ Hpr j He) as Hpj. rewrite Hp in Hpj.
  destruct (edit_page_ok usable Hdims t pages j p m pre post cs (news j) (upto newc j - news j))
    as (p' & ca & ptrs & Hed & HC & Hov' & Ho); rewrite <- ?Har; try done; try lia.
  - intros x c Hx Hout Hc. destruct (rd_ref _ _ _ _ _ _ _ _ _ _ _ HR x c Hc) as (r & Hr & Hd & Hl & Hw).
    assert (owner r <> Some j) as Hne.
    { intros [Hjs ?]%Hw. pose proof (rd_old _ _ _ _ _ _ _ _ _ _ _ HR j m Hjs Hm). unfold old_start in Hpre.
      rewrite (proj2 (Nat.ltb_lt _ _) Hjs) in Hpre. lia. }
    exists r. split; [done|]. split_and!; [|done|by apply owner_outside]. rewrite <- Hd. apply deref_owner.
    intros j' Hj'. apply (pr_old _ _ _ Hpr). destruct (Hw j' Hj') as [? ?].
    apply (not_edited_yet i j j' x); try done; [lia|congruence].
  - apply Forall_take, Forall_drop. apply HR.
  - by apply HR.
  - rewrite <- Har, Hpre in Hed. exists p, p', ca, ptrs. split_and!; assumption.
Qed.

(** A step that edits no page. *)
Lemma progress_same i done pages :
  progress i done pages -> (forall j, edited (i + 1) j = edited i j) -> progress (i + 1) done pages.
Proof.
  intros [[Hl Hd] Ho Hn] He. constructor.
  - split; [done|]. intros j Hj. by rewrite He, Hd.
  - intros j. rewrite He. apply Ho.
  - intros j. rewrite He. apply Hn.
Qed.

(** A step that edits page [j]. *)
Lemma progress_edit i done pages j p p' :
  progress i done pages -> j = Z.abs_nat i -> (j < k)%nat -> 0 <= i \/ down j = true ->
  P !! j = Some p -> pages !! j = Some p -> rebuilt j p p' ->
  progress (i + 1) (<[j := true]> done) (<[j := p']> pages).
Proof.
  intros [[Hl Hd] Ho Hn] Hj Hk Hi HP Hp Hr. pose proof (rd_k _ _ _ _ _ _ _ _ _ _ _ HR) as [[_ Hk5] _].
  pose proof (lookup_lt_Some _ _ _ Hp) as Hlt.
  assert (edited (i + 1) j = true) as Hej.
  { rewrite edited_step. rewrite (proj2 (Nat.ltb_lt _ _) Hk). destruct Hi as [Hi|Hi]; [|rewrite Hi]; lia. }
  assert (forall j', j' <> j -> edited (i + 1) j' = edited i j') as Hne.
  { intros j' ?. rewrite edited_step. destruct (Z.eqb_spec (Z.of_nat j') (Z.abs i)); [lia|].
    rewrite andb_false_r. cbn. apply orb_false_r. }
  constructor.
  - split; [by rewrite length_insert|]. intros j' Hj'. destruct (decide (j' = j)) as [->|].
    + rewrite list_lookup_insert_eq, Hej by lia. done.
    + rewrite list_lookup_insert_ne, Hne by done. by apply Hd.
  - intros j' He. assert (j' <> j) by congruence. rewrite list_lookup_insert_ne by done. apply Ho. by rewrite <- Hne.
  - intros j' He. destruct (decide (j' = j)) as [->|].
    + rewrite list_lookup_insert_eq by done. eauto.
    + rewrite list_lookup_insert_ne by done. apply Hn. by rewrite <- Hne.
Qed.

#[local] Abbreviation loop order := (edit_siblings_loop usable order is_table_leaf (Z.of_nat s) (Z.of_nat <$> oldc)
  (mkCellArray ar (Z.of_nat <$> newc))).

Lemma loop_step i order done pages :
  progress i done pages -> (Z.abs_nat i < k)%nat -> exists done' pages',
    loop (i :: order) done pages = loop order done' pages' /\ progress (i + 1) done' pages'.
Proof.
  intros Hpr Hk. set (j := Z.abs_nat i) in *. assert (j = Z.abs_nat i) as Hj by done. clearbody j. pose proof (rd_k _ _ _ _ _ _ _ _ _ _ _ HR) as [[_ Hk5] _].
  pose proof (rd_lens _ _ _ _ _ _ _ _ _ _ _ HR) as (Hlo & Hln & _ & _).
  destruct (pr_done _ _ _ Hpr) as [Hld Hdone]. cbn [edit_siblings_loop].
  replace (Z.abs i) with (Z.of_nat j) by lia. rewrite (idx_lookup _ _ _ (Hdone j ltac:(lia))). cbn [mbind Result_bind].
  assert (edited (i + 1) j = edited i j || ((0 <=? i) || down j)) as Hej.
  { rewrite edited_step, (proj2 (Nat.ltb_lt _ _) Hk). destruct (Z.eqb_spec (Z.of_nat j) (Z.abs i)); [done|lia]. }
  assert (edited (i + 1) j = edited i j -> forall j', edited (i + 1) j' = edited i j') as Hall.
  { intros Heq j'. destruct (decide (j' = j)) as [->|]; [done|]. rewrite edited_step.
    destruct (Z.eqb_spec (Z.of_nat j') (Z.abs i)); [lia|]. rewrite andb_false_r. apply orb_false_r. }
  destruct (edited i j) eqn:He.
  { exists done, pages. split; [done|]. by apply progress_same, Hall. }
  cbn [orb] in Hej.
  assert ((if 0 <=? i then Ok true
           else o ← idx (Z.of_nat <$> oldc) (Z.of_nat j - 1);
                n ← idx (cell_count_per_page_cumulative (mkCellArray ar (Z.of_nat <$> newc))) (Z.of_nat j - 1);
                Ok (n <=? o)) = Ok ((0 <=? i) || down j)) as ->.
  { destruct (Z.leb_spec 0 i); [done|]. destruct j as [|j0] eqn:Ej; [lia|]. cbn [cell_count_per_page_cumulative].
    replace (Z.of_nat (S j0) - 1) with (Z.of_nat j0) by lia. rewrite !upto_lookup by lia. cbn [mbind Result_bind orb down].
    f_equal. apply eq_true_iff_eq. rewrite Z.leb_le, Nat.leb_le. lia. }
  cbn [mbind Result_bind]. destruct ((0 <=? i) || down j) eqn:Ha.
  - assert (0 <= i \/ down j = true) as Hi by (apply orb_true_iff in Ha as [?|?]; [left; lia|by right]).
    destruct (edit_one i done pages j Hpr Hj Hk He Hi) as (p & p' & ca & ptrs & HP & Hp & Hed & HC & Ho).
    rewrite edit_args_ok by done. cbn [mbind Result_bind]. rewrite Nat2Z.id. cbn [cell_payloads]. rewrite Hed.
    cbn [mbind Result_bind]. rewrite list_lookup_insert_eq by (by eapply lookup_lt_Some). cbn [unwrap mbind Result_bind].
    rewrite set_idx_nat by lia. cbn [mbind Result_bind]. rewrite list_insert_insert_eq. eexists _, _. split; [done|].
    apply (progress_edit i done pages j p); try done. split_and!; [|done|done]. exists ca, ptrs. by destruct HC.
  - exists done, pages. split; [done|]. apply progress_same, Hall; [done|]. congruence.
Qed.

Lemma loop_ok n : forall st done pages,
  progress (Z.of_nat st + 1 - Z.of_nat k) done pages -> (st + n = 2 * k - 1)%nat -> exists done' pages',
    loop ((fun q : nat => Z.of_nat q + 1 - Z.of_nat k) <$> seq st n) done pages = Ok pages' /\
    progress (Z.of_nat k) done' pages'.
Proof.
  induction n as [|n IH]; intros st done pages Hpr Hst; cbn [seq fmap list_fmap].
  - exists done, pages. split; [done|]. replace (Z.of_nat k) with (Z.of_nat st + 1 - Z.of_nat k); [done|].
    pose proof (rd_k _ _ _ _ _ _ _ _ _ _ _ HR). lia.
  - destruct (loop_step _ ((fun q : nat => Z.of_nat q + 1 - Z.of_nat k) <$> seq (S st) n) _ _ Hpr)
      as (done' & pages' & Hl & Hpr'); [lia|]. setoid_rewrite Hl. apply IH; [|lia].
    by replace (Z.of_nat (S st) + 1 - Z.of_nat k) with (Z.of_nat st + 1 - Z.of_nat k + 1) by lia.
Qed.

Lemma edit_siblings_ok :
  exists pages',
    edit_siblings usable is_table_leaf (Z.of_nat s) (Z.of_nat k) (Z.of_nat <$> oldc)
      (mkCellArray ar (Z.of_nat <$> newc)) P = Ok pages' /\
    (forall j, (k <= j)%nat -> pages' !! j = P !! j) /\
    (forall j, (j < k)%nat -> exists p p', P !! j = Some p /\ pages' !! j = Some p' /\ rebuilt j p p').
Proof.
  unfold edit_siblings, page_order. replace (Z.to_nat (2 * Z.of_nat k - 1)) with (2 * k - 1)%nat by lia.
  destruct (loop_ok (2 * k - 1) 0 (replicate (Z.to_nat MAX_NEW_SIBLING_PAGES_AFTER_BALANCE) false) P)
    as (done' & pages' & Hl & Hpr); [|lia|].
  - assert (forall j, edited (Z.of_nat 0 + 1 - Z.of_nat k) j = false) as He.
    { intros j. unfold edited. destruct (Nat.ltb_spec j k); [|done]. cbn [andb].
      rewrite (proj2 (Z.ltb_ge _ (Z.of_nat j))), (proj2 (Z.ltb_ge (Z.of_nat j) _)), andb_false_r by lia. done. }
    constructor.
    + split; [done|]. intros j Hj. rewrite He. by apply lookup_replicate_2.
    + done.
    + intros j Hj. by rewrite He in Hj.
  - exists pages'. split_and!; [done|..].
    + intros j Hj. apply (pr_old _ _ _ Hpr). unfold edited. by rewrite (proj2 (Nat.ltb_ge _ _) Hj).
    + intros j Hj. apply (pr_new _ _ _ Hpr). unfold edited. rewrite (proj2 (Nat.ltb_lt _ _) Hj). cbn [andb].
      destruct (down j); lia.
Qed.

End order.
