(* ===== verification/BtreeGather.v ===== *)
(** * BtreeGather: collecting the cells of the siblings

    Models steps 2 and 3 of the balancing of core/storage/btree.rs, the
    allocation of new siblings and the update of the right pointers, and
    composes them with the distribution and the editing of the pages.  The pages
    are those of [pages_to_balance] followed by the new ones; the dividers are
    the buffers into which the divider cells of the parent were copied. *)

From S2P Require Import Prelude Varint OnDisk Page BtreePage BtreeSpace BtreeCells BtreeDefrag BtreeInsert.
From S2P Require Import BtreeBalance BtreeDistribute BtreeFree BtreeBulk BtreeEdit BtreeSiblings.

(** ** The code *)

(** [Vec::insert] *)
Definition vec_insert {A} (l : list A) (i : Z) (x : A) : Result (list A) :=
  if (0 <=? i) && (i <=? lenZ l) then Ok (take (Z.to_nat i) l ++ x :: drop (Z.to_nat i) l) else Panic.

Section code.
Context (usable_space : Z).

(** The cells of page [j], from index [cell_idx] on. *)
Fixpoint page_cells (n : nat) (j : nat) (p : PageInner) (cell_idx cell_count max_local min_local : Z) (t : PageType)
    : Result (list cellref) :=
  match n with
  | O => Ok []
  | S n =>
      '(cell_start, cell_len, _) ←
        cell_get_raw_region_faster (header_offset p) (as_ptr p) cell_idx usable_space cell_count max_local min_local t;
      _ ← slice (as_ptr p) cell_start (cell_start + cell_len);
      rest ← page_cells n j p (cell_idx + 1) cell_count max_local min_local t;
      Ok (InPage j cell_start cell_len :: rest)
  end.

(** The overflow cells of page [j], the first having number [k]. *)
Fixpoint insert_overflow_cells (overflow : list OverflowCell) (j k : nat) (offset : Z) (cell_payloads : list cellref)
    : Result (list cellref) :=
  match overflow with
  | [] => Ok cell_payloads
  | o :: overflow' =>
      cell_payloads ← vec_insert cell_payloads (offset + oc_index o) (OverCell j k (lenZ (oc_payload o)));
      insert_overflow_cells overflow' j (S k) offset cell_payloads
  end.

(** The divider after page [p]: on an index leaf without its child pointer and
    with at least the minimum size, on an interior page with the right pointer
    of the page as its child pointer. *)
Definition divider_cell (is_leaf : bool) (p : PageInner) (divider : bytes) : Result bytes :=
  if is_leaf then
    let divider :=
      divider ++ replicate (Z.to_nat (LEFT_CHILD_PTR_SIZE_BYTES + MINIMUM_CELL_SIZE - lenZ divider)) 0 in
    _ ← turso_assert (LEFT_CHILD_PTR_SIZE_BYTES <=? lenZ divider);
    Ok (drop (Z.to_nat LEFT_CHILD_PTR_SIZE_BYTES) divider)
  else
    right_pointer ← rightmost_pointer (header_offset p) (as_ptr p);
    right_pointer ← unwrap right_pointer;
    write_slice divider 0 (be_split 4 right_pointer).

(** Step 2, from page [j] on: the array, the prefix sums and
    [total_cells_inserted]. *)
Fixpoint gather_loop (old_pages : list PageInner) (dividers : list bytes) (is_table_leaf is_leaf : bool) (j : nat)
    (cell_payloads : list cellref) (old_cumulative : list Z) (total_cells_inserted : Z)
    : Result (list cellref * list Z * Z) :=
  match old_pages with
  | [] => Ok (cell_payloads, old_cumulative, total_cells_inserted)
  | p :: old_pages' =>
      t ← page_type (header_offset p) (as_ptr p);
      count ← cell_count (header_offset p) (as_ptr p);
      cells ← page_cells (Z.to_nat count) j p 0 count
                (payload_overflow_threshold_max t usable_space) (payload_overflow_threshold_min t usable_space) t;
      cell_payloads ← insert_overflow_cells (overflow_cells p) j 0 total_cells_inserted (cell_payloads ++ cells);
      old_cumulative ← set_idx old_cumulative (Z.of_nat j) (u16 (lenZ cell_payloads));
      let cells_inserted := count + lenZ (overflow_cells p) in
      let is_last_sibling := match old_pages' with [] => true | _ => false end in
      '(cell_payloads, cells_inserted) ←
        (if negb is_last_sibling && negb is_table_leaf then
           divider ← idx dividers (Z.of_nat j);
           divider ← divider_cell is_leaf p divider;
           Ok (cell_payloads ++ [Divider divider], cells_inserted + 1)
         else Ok (cell_payloads, cells_inserted));
      gather_loop old_pages' dividers is_table_leaf is_leaf (S j) cell_payloads old_cumulative
        (total_cells_inserted + cells_inserted)
  end.

(** [total_cells_to_redistribute], counted in step 1 *)
Fixpoint count_cells (old_pages : list PageInner) : Result Z :=
  match old_pages with
  | [] => Ok 0
  | p :: old_pages' =>
      rest ← count_cells old_pages';
      count ← cell_count (header_offset p) (as_ptr p);
      let is_last_sibling := match old_pages' with [] => true | _ => false end in
      Ok (rest + count + lenZ (overflow_cells p) + if is_last_sibling then 0 else 1)
  end.

Definition gather (old_pages : list PageInner) (dividers : list bytes) (is_table_leaf is_leaf : bool)
    : Result (list cellref * list Z) :=
  total_cells_to_redistribute ← count_cells old_pages;
  '(cell_payloads, old_cumulative, total_cells_inserted) ←
    gather_loop old_pages dividers is_table_leaf is_leaf 0 []
      (replicate (Z.to_nat MAX_NEW_SIBLING_PAGES_AFTER_BALANCE) 0) 0;
  let dividers_in_parent_only := if is_table_leaf then Z.max 0 (lenZ old_pages - 1) else 0 in
  expected_cells_in_array ← checked_sub total_cells_to_redistribute dividers_in_parent_only;
  _ ← turso_assert (lenZ cell_payloads =? expected_cells_in_array);
  _ ← turso_assert (total_cells_inserted =? expected_cells_in_array);
  Ok (cell_payloads, old_cumulative).

(** Step 3, from page [i] on *)
Fixpoint page_sizes_loop (old_pages : list PageInner) (i : Z) (is_leaf : bool) (usable_space_without_header : Z)
    (cell_payloads : list cellref) (old_cumulative sizes cum : list Z) : Result (list Z * list Z) :=
  match old_pages with
  | [] => Ok (sizes, cum)
  | p :: old_pages' =>
      n ← idx old_cumulative i;
      cum ← set_idx cum i n;
      free_space ← compute_free_space (header_offset p) usable_space (as_ptr p);
      let size := usable_space_without_header - free_space +
                  foldr (fun o z => 2 + lenZ (oc_payload o) + z) 0 (overflow_cells p) in
      let is_last_sibling := match old_pages' with [] => true | _ => false end in
      size ←
        (if negb is_leaf && negb is_last_sibling then
           len ← payload_len cell_payloads n; Ok (size + len)
         else Ok size);
      sizes ← set_idx sizes i size;
      page_sizes_loop old_pages' (i + 1) is_leaf usable_space_without_header cell_payloads old_cumulative sizes cum
  end.

Definition page_sizes (old_pages : list PageInner) (is_leaf : bool) (usable_space_without_header : Z)
    (cell_payloads : list cellref) (old_cumulative : list Z) : Result dist :=
  let zeros := replicate (Z.to_nat MAX_NEW_SIBLING_PAGES_AFTER_BALANCE) 0 in
  '(sizes, cum) ←
    page_sizes_loop old_pages 0 is_leaf usable_space_without_header cell_payloads old_cumulative zeros zeros;
  Ok (mkDist sizes cum (lenZ old_pages)).

(** The new siblings, from page [i] on, in pages from the pager. *)
Fixpoint allocate_pages (n : nat) (i : Z) (t : PageType) (cell_payloads : list cellref) (fresh : list PageInner)
    (old_cumulative : list Z) : Result (list PageInner * list Z) :=
  match n with
  | O => Ok ([], old_cumulative)
  | S n =>
      p ← unwrap (head fresh);
      p ← btree_init_page p t usable_space;
      old_cumulative ← set_idx old_cumulative i (u16 (lenZ cell_payloads));
      '(pages, old_cumulative) ← allocate_pages n (i + 1) t cell_payloads (tail fresh) old_cumulative;
      Ok (p :: pages, old_cumulative)
  end.

(** The right pointer of page [j]. *)
Definition set_right_pointer (pages : list PageInner) (j : nat) (pointer : Z) : Result (list PageInner) :=
  p ← unwrap (pages !! j);
  buf ← write_rightmost_ptr (header_offset p) (as_ptr p) pointer;
  Ok (<[j := set_buffer p buf]> pages).

(** The right pointers of the pages before the last, from page [j] on: the child
    pointers of the new dividers. *)
Fixpoint right_pointers_loop (n j : nat) (cell_array : CellArray) (pages : list PageInner) : Result (list PageInner) :=
  match n with
  | O => Ok pages
  | S n =>
      divider_cell_idx ← cell_count_up_to_page cell_array (Z.of_nat j);
      r ← idx (cell_payloads cell_array) divider_cell_idx;
      divider_cell ← deref pages r;
      pointer ← slice divider_cell 0 4;
      pages ← set_right_pointer pages j (be_combine pointer);
      right_pointers_loop n (S j) cell_array pages
  end.

(** On interior pages the right pointer of the last old page moves to the last
    new page. *)
Definition last_right_pointer (s k : nat) (pages : list PageInner) : Result (list PageInner) :=
  p ← unwrap (pages !! (s - 1)%nat);
  right_pointer ← rightmost_pointer (header_offset p) (as_ptr p);
  right_pointer ← unwrap right_pointer;
  set_right_pointer pages (k - 1) right_pointer.

(** Step 6 on the pages. *)
Definition right_pointers (is_leaf : bool) (s k : nat) (cell_array : CellArray) (pages : list PageInner)
    : Result (list PageInner) :=
  if is_leaf then Ok pages
  else
    pages ← last_right_pointer s k pages;
    right_pointers_loop (k - 1) 0 cell_array pages.

(** Steps 2 to 5 and the allocation of new siblings: all pages, the old prefix
    sums, the array with the new distribution, and the number of new siblings. *)
Definition plan_siblings (t : PageType) (old_pages : list PageInner) (dividers : list bytes) (fresh : list PageInner)
    : Result (list PageInner * list Z * CellArray * Z) :=
  let is_table_leaf := bool_decide (t = TableLeaf) in
  let is_leaf := bool_decide (t = TableLeaf \/ t = IndexLeaf) in
  '(cell_payloads, old_cumulative) ← gather old_pages dividers is_table_leaf is_leaf;
  let header_size := if is_leaf then LEAF_PAGE_HEADER_SIZE_BYTES else INTERIOR_PAGE_HEADER_SIZE_BYTES in
  let usable_space_without_header := usable_space - header_size in
  d ← page_sizes old_pages is_leaf usable_space_without_header cell_payloads old_cumulative;
  d ← redistribute is_table_leaf cell_payloads usable_space_without_header d;
  let s := length old_pages in
  '(new_pages, old_cumulative) ←
    allocate_pages (Z.to_nat (ds_count d) - s) (Z.of_nat s) t cell_payloads fresh old_cumulative;
  Ok (old_pages ++ new_pages, old_cumulative, mkCellArray cell_payloads (ds_cum d), ds_count d).

(** Steps 2 to 7 on the siblings: the pages, the array with the new
    distribution, and the number of new siblings. *)
Definition balance_siblings (old_pages : list PageInner) (dividers : list bytes) (fresh : list PageInner)
    : Result (list PageInner * CellArray * Z) :=
  p ← unwrap (head old_pages);
  t ← page_type (header_offset p) (as_ptr p);
  '(pages, old_cumulative, cell_array, count) ← plan_siblings t old_pages dividers fresh;
  let s := length old_pages in
  pages ← right_pointers (bool_decide (t = TableLeaf \/ t = IndexLeaf)) s (Z.to_nat count) cell_array pages;
  pages ← edit_siblings usable_space (bool_decide (t = TableLeaf)) (Z.of_nat s) count old_cumulative cell_array pages;
  Ok (pages, cell_array, count).

End code.

(** ** The array *)

(** The siblings in key order: the entries of a page and the divider after it. *)
Abbreviation sibling := (list entry * option bytes)%type.

Fixpoint all_refs (j : nat) (l : list sibling) : list cellref :=
  match l with
  | [] => []
  | (m, od) :: l' => refs j 0 m ++ (Divider <$> option_list od) ++ all_refs (S j) l'
  end.

Fixpoint all_cells (l : list sibling) : list bytes :=
  match l with
  | [] => []
  | (m, od) :: l' => (e_bytes <$> m) ++ option_list od ++ all_cells l'
  end.

(** The prefix sums, after [x] cells. *)
Fixpoint all_ends (x : nat) (l : list sibling) : list nat :=
  match l with
  | [] => []
  | (m, od) :: l' => (x + length m)%nat :: all_ends (x + length m + length (option_list od)) l'
  end.

Lemma all_refs_length j l : length (all_refs j l) = length (all_cells l).
Proof.
  revert j. induction l as [|[m od] l IH]; intros j; cbn; [done|]. by rewrite !length_app, refs_length, !length_fmap, IH.
Qed.

Lemma all_refs_app j l k : all_refs j (l ++ k) = all_refs j l ++ all_refs (j + length l) k.
Proof.
  revert j. induction l as [|[m od] l IH]; intros j; cbn; [by rewrite Nat.add_0_r|].
  by rewrite IH, <- !app_assoc, Nat.add_succ_r.
Qed.

Lemma all_cells_app l k : all_cells (l ++ k) = all_cells l ++ all_cells k.
Proof. induction l as [|[m od] l IH]; cbn; [done|]. by rewrite IH, <- !app_assoc. Qed.

(** The index of the first cell of page [j]. *)
Definition first_of (l : list sibling) (j : nat) : nat := length (all_cells (take j l)).

Lemma first_next l j m od :
  l !! j = Some (m, od) -> first_of l (S j) = (first_of l j + length m + length (option_list od))%nat.
Proof.
  intros H. unfold first_of. rewrite (take_S_r _ _ _ H), all_cells_app. cbn. rewrite app_nil_r, !length_app, length_fmap. lia.
Qed.

Lemma all_ends_lookup x l j m od : l !! j = Some (m, od) -> all_ends x l !! j = Some (x + first_of l j + length m)%nat.
Proof.
  revert x j. induction l as [|[m' od'] l IH]; intros x [|j] H; cbn in *; simplify_eq; [f_equal; unfold first_of; cbn; lia|].
  rewrite (IH _ _ H). f_equal. unfold first_of. cbn. rewrite !length_app, length_fmap. lia.
Qed.

Lemma all_ends_length x l : length (all_ends x l) = length l.
Proof. revert x. induction l as [|[m od] l IH]; intros x; cbn; [done|]. by rewrite IH. Qed.

(** The part of the array that belongs to page [j]. *)
Lemma all_refs_part l j m od :
  l !! j = Some (m, od) -> exists post,
    all_refs 0 l = all_refs 0 (take j l) ++ refs j 0 m ++ post /\
    all_cells l = all_cells (take j l) ++ (e_bytes <$> m) ++ (option_list od ++ all_cells (drop (S j) l)) /\
    length (all_refs 0 (take j l)) = first_of l j /\
    post = (Divider <$> option_list od) ++ all_refs (S j) (drop (S j) l).
Proof.
  intros H. pose proof (take_drop_middle _ _ _ H) as Hm. eexists. split_and!; [| |by rewrite all_refs_length|done].
  - rewrite <- Hm at 1. rewrite all_refs_app. cbn. by rewrite length_take_le by (apply lookup_lt_Some in H; lia).
  - rewrite <- Hm at 1. by rewrite all_cells_app.
Qed.

Lemma part_cells l j m od :
  l !! j = Some (m, od) ->
  rng (first_of l j) (length m) (all_cells l) = e_bytes <$> m /\ (first_of l j + length m <= length (all_cells l))%nat.
Proof.
  intros H. destruct (all_refs_part l j m od H) as (post & _ & -> & _). split.
  - unfold rng, first_of. by rewrite drop_app_length, take_app_length' by (by rewrite length_fmap).
  - rewrite !length_app, length_fmap. fold (first_of l j). lia.
Qed.

Lemma refs_owner j k m : Forall (fun r => owner r = Some j) (refs j k m).
Proof. revert k. induction m as [|[q c|c] m IH]; intros k; cbn; constructor; done. Qed.

Lemma all_refs_outside i j l : (i < j \/ j + length l <= i)%nat -> Forall (fun r => owner r <> Some i) (all_refs j l).
Proof.
  revert j. induction l as [|[m od] l IH]; intros j Hij; cbn in *; [constructor|]. repeat apply Forall_app_2.
  - eapply Forall_impl; [apply refs_owner|]. intros r Hr. cbn in Hr. rewrite Hr. intros [=]. lia.
  - destruct od; repeat constructor. done.
  - apply IH. lia.
Qed.

(** Between two pages there is a divider, except between table leaves. *)
Definition separated (tl : bool) (l : list sibling) : Prop :=
  forall j m od, l !! j = Some (m, od) -> length (option_list od) = if (S j <? length l)%nat then sep tl else 0%nat.

(** The prefix sums of the old pages. *)
Definition old_ends (l : list sibling) : list nat := list_inserts 0 (all_ends 0 l) (replicate 5 0%nat).

Section positions.
Context (tl : bool) (l : list sibling) (Hsep : separated tl l) (Hl : (length l <= 5)%nat).

Lemma old_ends_length : length (old_ends l) = 5%nat.
Proof. unfold old_ends. by rewrite length_inserts. Qed.

Lemma old_upto j m od : l !! j = Some (m, od) -> upto (old_ends l) j = (first_of l j + length m)%nat.
Proof.
  intros H. pose proof (lookup_lt_Some _ _ _ H). unfold upto, old_ends.
  rewrite list_lookup_inserts by (rewrite ?all_ends_length; cbn; lia). by rewrite Nat.sub_0_r, (all_ends_lookup _ _ _ _ _ H).
Qed.

Lemma old_start_of j : (j < length l)%nat -> start_of tl (old_ends l) j = first_of l j.
Proof.
  destruct j as [|j]; intros Hj; [done|]. destruct (lookup_lt_is_Some_2 l j) as [[m od] H]; [lia|]. cbn.
  rewrite (old_upto _ _ _ H), (first_next _ _ _ _ H), (Hsep _ _ _ H).
  by rewrite (proj2 (Nat.ltb_lt _ _)).
Qed.

Lemma old_last : (0 < length l)%nat -> upto (old_ends l) (length l - 1) = length (all_cells l).
Proof.
  intros H0. destruct (lookup_lt_is_Some_2 l (length l - 1)) as [[m od] H]; [lia|]. rewrite (old_upto _ _ _ H).
  pose proof (Hsep _ _ _ H) as Ho. pose proof (first_next _ _ _ _ H) as Hf. replace (S (length l - 1)) with (length l) in * by lia.
  rewrite Nat.ltb_irrefl in Ho. unfold first_of in Hf at 1. rewrite firstn_all in Hf. lia.
Qed.

Lemma old_upto_new j : (length l <= j)%nat -> upto (old_ends l) j = 0%nat.
Proof.
  intros Hj. unfold upto, old_ends. rewrite list_lookup_inserts_ge by (rewrite all_ends_length; lia).
  destruct (replicate 5 0%nat !! j) as [x|] eqn:E; [|done]. by apply lookup_replicate in E as [-> _].
Qed.

Lemma old_upto_le j : (upto (old_ends l) j <= length (all_cells l))%nat.
Proof.
  destruct (l !! j) as [[m od]|] eqn:H; [rewrite (old_upto _ _ _ H); by eapply part_cells|].
  rewrite old_upto_new; [lia|]. by apply lookup_ge_None_1.
Qed.

End positions.

(** Where a cell of the array comes from. *)
Lemma locate l x c :
  all_cells l !! x = Some c -> exists j m od, l !! j = Some (m, od) /\
    ((exists i e, m !! i = Some e /\ e_bytes e = c /\ x = (first_of l j + i)%nat) \/
     (od = Some c /\ x = (first_of l j + length m)%nat)).
Proof.
  revert x. induction l as [|[m od] l IH]; intros x H; cbn in H; [done|].
  destruct (decide (x < length m)%nat) as [Hx|Hx].
  - rewrite lookup_app_l in H by (by rewrite length_fmap). rewrite list_lookup_fmap in H.
    destruct (m !! x) as [e|] eqn:He; [|done]. injection H as H. exists 0%nat, m, od. split; [done|]. left. by exists x, e.
  - rewrite lookup_app_r, length_fmap in H by (rewrite length_fmap; lia).
    destruct (decide (x - length m < length (option_list od))%nat) as [Hd|Hd].
    + rewrite lookup_app_l in H by done. destruct od as [d|]; cbn in *; [|lia].
      assert (x = length m) as -> by lia. rewrite Nat.sub_diag in H. injection H as ->. exists 0%nat, m, (Some c). split; [done|]. by right.
    + rewrite lookup_app_r in H by lia. destruct (IH _ H) as (j & m' & od' & Hj & Hor). exists (S j), m', od'. split; [done|].
      assert (first_of ((m, od) :: l) (S j) = (length m + length (option_list od) + first_of l j)%nat) as ->
        by (unfold first_of; cbn; rewrite !length_app, length_fmap; lia).
      destruct Hor as [(i & e & ? & ? & ?)|[? ?]]; [left; exists i, e; split_and!; [done|done|lia]|right; split; [done|lia]].
Qed.

Lemma refs_cell j k m i q c : m !! i = Some (ECell q c) -> refs j k m !! i = Some (InPage j q (lenZ c)).
Proof. revert k i. induction m as [|[q' c'|c'] m IH]; intros k [|i] H; cbn in *; simplify_eq; [done|by apply IH|by apply IH]. Qed.

Lemma in_page_cell m i q c : m !! i = Some (ECell q c) -> exists i', in_page m !! i' = Some (q, c).
Proof.
  revert i. induction m as [|[q' c'|c'] m IH]; intros [|i] H; cbn in H; simplify_eq.
  - by exists 0%nat.
  - destruct (IH _ H) as [i' ?]. by exists (S i').
  - destruct (IH _ H) as [i' ?]. by exists i'.
Qed.

Lemma weight_cons c cs : weight (c :: cs) = weight [c] + weight cs.
Proof. apply (weight_app [c] cs). Qed.

Lemma weight_one c : 4 <= lenZ c -> weight [c] = 2 + lenZ c.
Proof.
  intros. unfold weight, total_size, region_size. cbn [foldr]. rewrite Z.max_r by lia. change (lenZ [c]) with 1. lia.
Qed.

Section gather.
Context (usable : Z) (Hdims : dims 0 usable) (t : PageType).

(** The references to the cells on the page. *)
Definition in_refs (j : nat) (l : list (Z * bytes)) : list cellref :=
  (fun x => InPage j (fst x) (lenZ (snd x))) <$> l.

Lemma in_page_min m : Forall (fun e => 4 <= lenZ (e_bytes e)) m -> Forall (fun x => 4 <= lenZ (snd x)) (in_page m).
Proof.
  intros H. induction H as [|[q c|c] m He _ IH]; cbn; [constructor|constructor; [done|exact IH]|exact IH].
Qed.

(** A cell on a page. *)
Lemma holds_cell p m i q c :
  holds usable t p m -> in_page m !! i = Some (q, c) ->
  region_size c = lenZ c /\ slice (as_ptr p) q (q + lenZ c) = Ok c /\ exists o,
    cell_get_raw_region_faster 0 (as_ptr p) (Z.of_nat i) usable (lenZ (in_page m)) (max_local usable t) (min_local usable t) t =
      Ok (q, lenZ c, o).
Proof.
  intros [Hb _ (ca & fbs & HW) Hmin] Hq.
  assert ((fst <$> in_page m) !! i = Some q) as Hp by (by rewrite list_lookup_fmap, Hq).
  assert ((snd <$> in_page m) !! i = Some c) as Hc by (by rewrite list_lookup_fmap, Hq).
  destruct (raw_region_ok 0 usable t Hdims _ _ _ _ _ _ _ _ HW Hp Hc) as [o Ho].
  destruct (cell_range _ _ _ _ _ _ _ _ _ _ _ HW Hp Hc) as (Hca & Hend & Hsub & _).
  assert (lenZ (snd <$> in_page m) = lenZ (in_page m)) as Hl by (unfold lenZ; by rewrite length_fmap).
  pose proof (Forall_lookup_1 _ _ _ _ (in_page_min m Hmin) Hq) as H4. cbn in H4.
  assert (region_size c = lenZ c) as Hr by (unfold region_size; lia). rewrite Hr, Hl in *.
  pose proof (so_len _ _ _ _ _ _ _ (pw_space _ _ _ _ _ _ _ _ HW)). pose proof (so_lo _ _ _ _ _ _ _ (pw_space _ _ _ _ _ _ _ _ HW)).
  split_and!; [done| |by exists o]. rewrite slice_sub by lia. by rewrite Z.add_simpl_l, Hsub.
Qed.

Lemma page_cells_ok j p m n : forall i,
  holds usable t p m -> (i + n = length (in_page m))%nat ->
  page_cells usable n j p (Z.of_nat i) (lenZ (in_page m)) (max_local usable t) (min_local usable t) t =
    Ok (in_refs j (drop i (in_page m))).
Proof.
  induction n as [|n IH]; intros i Hh Hi; cbn [page_cells].
  - rewrite drop_ge by lia. done.
  - destruct (lookup_lt_is_Some_2 (in_page m) i) as [[q c] Hq]; [lia|].
    destruct (holds_cell p m i q c Hh Hq) as (_ & Hs & o & Ho). rewrite (ho_base _ _ _ _ Hh), Ho. cbn [mbind Result_bind].
    rewrite Hs. cbn [mbind Result_bind]. replace (Z.of_nat i + 1) with (Z.of_nat (S i)) by lia. rewrite IH by (done || lia).
    cbn [mbind Result_bind]. by rewrite (drop_S _ _ _ Hq).
Qed.

(** Inserting the overflow cells gives the references in key order. *)
Lemma insert_overflow_cells_ok j (off : nat) m : forall k i pre,
  length pre = (off + i)%nat ->
  insert_overflow_cells (overs i m) j k (Z.of_nat off) (pre ++ in_refs j (in_page m)) = Ok (pre ++ refs j k m).
Proof.
  induction m as [|[q c|c] m IH]; intros k i pre Hpre; cbn [overs insert_overflow_cells refs].
  - done.
  - change (in_page (ECell q c :: m)) with ((q, c) :: in_page m). cbn [in_refs fmap list_fmap fst snd].
    rewrite cons_middle, app_assoc. setoid_rewrite IH; [|rewrite length_app; cbn; lia]. by rewrite <- app_assoc.
  - change (in_page (EOver c :: m)) with (in_page m). unfold vec_insert. cbn [oc_index oc_payload].
    replace (Z.of_nat off + Z.of_nat i) with (Z.of_nat (length pre)) by lia.
    rewrite (proj2 (Z.leb_le _ _)), (proj2 (Z.leb_le _ _)) by (unfold lenZ; rewrite ?length_app; lia). cbn [andb mbind Result_bind].
    rewrite Nat2Z.id, take_app_length, drop_app_length. rewrite cons_middle, app_assoc. setoid_rewrite IH; [|rewrite length_app; cbn; lia].
    by rewrite <- app_assoc.
Qed.

(** The pages with the dividers in the buffers are the siblings [l], from page
    [j] on. *)
Fixpoint siblings_are (is_table_leaf is_leaf : bool) (dividers : list bytes) (j : nat) (pages : list PageInner)
    (l : list sibling) : Prop :=
  match pages, l with
  | [], [] => True
  | p :: pages', (m, od) :: l' =>
      holds usable t p m /\ overflow_cells p = overs 0 m /\
      match od with
      | None => pages' = [] \/ is_table_leaf = true
      | Some d => pages' <> [] /\ is_table_leaf = false /\
          exists b, dividers !! j = Some b /\ divider_cell is_leaf p b = Ok d
      end /\
      siblings_are is_table_leaf is_leaf dividers (S j) pages' l'
  | _, _ => False
  end.

Lemma siblings_length tl lf ds j pages l : siblings_are tl lf ds j pages l -> length l = length pages.
Proof.
  revert j l. induction pages as [|p pages IH]; intros j [|[m od] l]; cbn; try done.
  intros (_ & _ & _ & H). f_equal. by eapply IH.
Qed.

(** What the code reads of a page. *)
Lemma holds_reads p m :
  holds usable t p m ->
  page_type 0 (as_ptr p) = Ok t /\ cell_count 0 (as_ptr p) = Ok (lenZ (in_page m)) /\
  compute_free_space 0 usable (as_ptr p) = Ok (usable - arr 0 t - weight (snd <$> in_page m)).
Proof.
  intros [Hb _ (ca & fbs & HW) Hmin]. pose proof HW as [[HA Hl _] HS]. pose proof (so_len _ _ _ _ _ _ _ HS).
  pose proof Hdims as []. split_and!.
  - apply (page_type_ok _ _ _ Hdims _ _ HA). lia.
  - rewrite (cell_count_ok _ _ _ Hdims _ _ HA) by lia. unfold lenZ. by rewrite length_fmap.
  - rewrite (free_space_ok _ _ _ Hdims _ _ _ _ _ HW). by rewrite free_weight.
Qed.

Lemma gather_loop_ok tl lf ds : forall pages l j acc cum,
  siblings_are tl lf ds j pages l -> length cum = 5%nat -> (j + length l <= 5)%nat ->
  lenZ acc + lenZ (all_cells l) < 65536 ->
  gather_loop usable pages ds tl lf j acc (Z.of_nat <$> cum) (lenZ acc) =
    Ok (acc ++ all_refs j l, Z.of_nat <$> list_inserts j (all_ends (length acc) l) cum, lenZ acc + lenZ (all_cells l)).
Proof.
  induction pages as [|p pages IH]; intros [|[m od] l] j acc cum Hs Hc Hj Hn; cbn [siblings_are gather_loop] in *; try done.
  { cbn. by rewrite app_nil_r, Z.add_0_r. }
  destruct Hs as (Hh & Hov & Hod & Hs). destruct (holds_reads p m Hh) as (Ht & Hcnt & _).
  rewrite (ho_base _ _ _ _ Hh), Ht. cbn [mbind Result_bind]. rewrite Hcnt. cbn [mbind Result_bind].
  pose proof (page_cells_ok j p m (length (in_page m)) 0 Hh eq_refl) as Hpc. change (Z.of_nat 0) with 0 in Hpc. rewrite drop_0 in Hpc.
  unfold max_local, min_local in Hpc. replace (Z.to_nat (lenZ (in_page m))) with (length (in_page m)) by (unfold lenZ; lia).
  rewrite Hpc. cbn [mbind Result_bind].
  rewrite Hov. pose proof (insert_overflow_cells_ok j (length acc) m 0 0 acc ltac:(lia)) as Hic.
  fold (lenZ acc) in Hic. rewrite Hic. cbn [mbind Result_bind].
  cbn [all_refs all_cells all_ends length list_inserts] in *. cbn [length] in Hj.
  assert (u16 (lenZ (acc ++ refs j 0 m)) = Z.of_nat (length acc + length m)) as ->.
  { unfold u16, lenZ in *. rewrite !length_app, length_fmap, refs_length in *. rewrite Z.mod_small; lia. }
  rewrite set_cum by lia. cbn [mbind Result_bind]. pose proof (overs_count 0 m) as Hcount.
  set (acc' := acc ++ refs j 0 m ++ (Divider <$> option_list od)).
  assert (lenZ acc' = lenZ acc + lenZ m + lenZ (option_list od)) as Hl
    by (subst acc'; unfold lenZ; rewrite !length_app, refs_length, length_fmap; lia).
  assert (lenZ acc' + lenZ (all_cells l) = lenZ acc + lenZ ((e_bytes <$> m) ++ option_list od ++ all_cells l)) as Hl'
    by (rewrite Hl; unfold lenZ; rewrite !length_app, length_fmap; lia).
  specialize (IH l (S j) acc' (<[j := (length acc + length m)%nat]> cum) Hs).
  rewrite length_insert, Hl', <- list_insert_inserts_lt in IH by lia. specialize (IH Hc ltac:(lia) Hn).
  replace (length acc') with (length acc + length m + length (option_list od))%nat in IH by (unfold lenZ in Hl; lia).
  assert (acc' ++ all_refs (S j) l = acc ++ refs j 0 m ++ (Divider <$> option_list od) ++ all_refs (S j) l) as Hacc
    by (subst acc'; by rewrite <- !app_assoc).
  rewrite Hacc in IH. destruct od as [d|].
  - destruct Hod as (Hne & -> & b & Hb & Hd). assert (match pages with [] => true | _ => false end = false) as -> by (by destruct pages).
    cbn [negb andb]. rewrite (idx_lookup _ _ _ Hb). cbn [mbind Result_bind]. rewrite Hd. cbn [mbind Result_bind].
    rewrite <- IH. f_equal; [by subst acc'; rewrite <- app_assoc|]. rewrite Hl. change (lenZ (option_list (Some d))) with 1. lia.
  - assert (negb match pages with [] => true | _ => false end && negb tl = false) as ->
      by (destruct Hod as [->| ->]; [done|by rewrite andb_false_r]).
    cbn [mbind Result_bind]. rewrite <- IH. f_equal; [by subst acc'; rewrite app_nil_r|]. rewrite Hl. change (lenZ (option_list (@None bytes))) with 0. lia.
Qed.

Lemma count_cells_ok tl lf ds : forall pages l j,
  siblings_are tl lf ds j pages l ->
  count_cells pages = Ok (lenZ (all_cells l) + if tl then Z.max 0 (lenZ pages - 1) else 0).
Proof.
  induction pages as [|p pages IH]; intros [|[m od] l] j Hs; cbn [siblings_are count_cells] in *; try done.
  { by destruct tl. }
  destruct Hs as (Hh & Hov & Hod & Hs). rewrite (IH l (S j) Hs). cbn [mbind Result_bind].
  destruct (holds_reads p m Hh) as (_ & Hcnt & _). rewrite (ho_base _ _ _ _ Hh), Hcnt. cbn [mbind Result_bind]. f_equal.
  pose proof (overs_count 0 m). rewrite Hov. cbn [all_cells].
  assert (lenZ ((e_bytes <$> m) ++ option_list od ++ all_cells l) = lenZ m + lenZ (option_list od) + lenZ (all_cells l)) as ->
    by (unfold lenZ; rewrite !length_app, length_fmap; lia).
  assert (lenZ (p :: pages) = lenZ pages + 1) as -> by (unfold lenZ; cbn; lia).
  destruct od as [d|]; [change (lenZ (option_list (Some d))) with 1|change (lenZ (option_list (@None bytes))) with 0].
  - destruct Hod as (Hne & -> & _). destruct pages; [done|]. lia.
  - destruct pages as [|p' pages]; [|assert (lenZ (p' :: pages) = lenZ pages + 1) as -> by (unfold lenZ; cbn; lia);
      pose proof (lenZ_nonneg pages); destruct Hod as [?| ->]; [done|lia]].
    change (lenZ (@nil PageInner)) with 0. destruct tl; lia.
Qed.

Lemma siblings_separated tl lf ds : forall pages l j, siblings_are tl lf ds j pages l -> separated tl l.
Proof.
  induction pages as [|p pages IH]; intros [|[m od] l] j Hs; cbn [siblings_are] in Hs; try done.
  destruct Hs as (_ & _ & Hod & Hs). pose proof (siblings_length _ _ _ _ _ _ Hs) as Hlen. intros [|i] m' od' H; cbn in H.
  - injection H as <- <-. destruct od as [d|].
    + destruct Hod as (Hne & -> & _). destruct pages; [done|]. cbn [length] in *. rewrite (proj2 (Nat.ltb_lt _ _)) by lia. done.
    + cbn [option_list length]. destruct Hod as [->| ->]; [cbn in Hlen; by rewrite Hlen|by destruct (_ <? _)%nat].
  - rewrite (IH l (S j) Hs i m' od' H). cbn [length]. done.
Qed.

(** Step 2. *)
Lemma gather_ok tl lf ds pages l :
  siblings_are tl lf ds 0 pages l -> (length l <= 5)%nat -> lenZ (all_cells l) < 65536 ->
  gather usable pages ds tl lf =
    Ok (all_refs 0 l, Z.of_nat <$> old_ends l).
Proof.
  intros Hs Hl Hn. unfold gather. rewrite (count_cells_ok _ _ _ _ _ _ Hs). cbn [mbind Result_bind].
  pose proof (gather_loop_ok tl lf ds pages l 0 [] (replicate 5 0%nat) Hs eq_refl ltac:(lia) Hn) as Hg.
  change (lenZ (@nil cellref)) with 0 in Hg. rewrite Z.add_0_l in Hg.
  change (Z.of_nat <$> replicate 5 0%nat) with (replicate (Z.to_nat MAX_NEW_SIBLING_PAGES_AFTER_BALANCE) 0) in Hg.
  rewrite Hg. cbn [mbind Result_bind app length]. rewrite checked_sub_ok.
  2: { destruct tl; pose proof (lenZ_nonneg (all_cells l)); lia. }
  cbn [mbind Result_bind]. assert (lenZ (all_refs 0 l) = lenZ (all_cells l)) as -> by (unfold lenZ; by rewrite all_refs_length).
  rewrite Z.add_simpl_r, !Z.eqb_refl. done.
Qed.

(** The pages hold the siblings [l]. *)
Definition pages_hold (P : list PageInner) (l : list sibling) : Prop :=
  forall j m od, l !! j = Some (m, od) -> exists p, P !! j = Some p /\ holds usable t p m /\ overflow_cells p = overs 0 m.

Lemma array_ref P l x c :
  pages_hold P l -> all_cells l !! x = Some c -> exists r,
    all_refs 0 l !! x = Some r /\ deref P r = Ok c /\ ref_len r = lenZ c /\
    forall j, owner r = Some j -> exists m od, l !! j = Some (m, od) /\ (first_of l j <= x < first_of l j + length m)%nat.
Proof.
  intros HP Hx. destruct (locate l x c Hx) as (j & m & od & Hj & Hor).
  destruct (HP j m od Hj) as (p & Hp & Hh & Hov). destruct (all_refs_part l j m od Hj) as (post & -> & _ & Hl & ->).
  destruct Hor as [(i & e & Hi & <- & ->)|[-> ->]].
  - pose proof (lookup_lt_Some _ _ _ Hi). rewrite lookup_app_r, Hl by (rewrite Hl; lia).
    replace (first_of l j + i - first_of l j)%nat with i by lia. rewrite lookup_app_l by (by rewrite refs_length).
    destruct e as [q c|c]; cbn [e_bytes].
    + destruct (in_page_cell _ _ _ _ Hi) as [i' Hi']. destruct (holds_cell p m i' q c Hh Hi') as (_ & Hs & _).
      exists (InPage j q (lenZ c)). split_and!; [by apply refs_cell|by cbn; rewrite Hp|done|]. cbn. intros j' [= <-].
      exists m, od. split; [done|lia].
    + destruct (refs_over j m 0 0 _ _ Hi) as (n & Hr & Ho). exists (OverCell j n (lenZ c)).
      split_and!; [by rewrite Hr|cbn; rewrite Hp; cbn; by rewrite Hov, Ho|done|]. cbn. intros j' [= <-].
      exists m, od. split; [done|lia].
  - exists (Divider c). split_and!; [|done|done|done]. rewrite lookup_app_r, Hl by (rewrite Hl; lia).
    rewrite lookup_app_r, refs_length by (rewrite refs_length; lia).
    replace (first_of l j + length m - first_of l j - length m)%nat with 0%nat by lia. done.
Qed.

(** The sizes of runs of cells. *)
Lemma array_width P l x c :
  pages_hold P l -> all_cells l !! x = Some c -> width (all_refs 0 l) x = 2 + lenZ c.
Proof. intros HP Hx. destruct (array_ref P l x c HP Hx) as (r & Hr & _ & Hl & _). unfold width. rewrite Hr. cbn. by rewrite Hl. Qed.

Lemma array_weight P l x n :
  pages_hold P l -> Forall (fun c => 4 <= lenZ c) (all_cells l) -> (x + n <= length (all_cells l))%nat ->
  weights (all_refs 0 l) (x + n) = weights (all_refs 0 l) x + weight (rng x n (all_cells l)).
Proof.
  intros HP Hmin. induction n as [|n IH]; intros Hx; [rewrite Nat.add_0_r; symmetry; apply Z.add_0_r|].
  destruct (lookup_lt_is_Some_2 (all_cells l) (x + n)) as [c Hc]; [lia|].
  rewrite Nat.add_succ_r. cbn [weights]. rewrite IH by lia. rewrite (array_width P l _ _ HP Hc).
  rewrite <- (Nat.add_1_r n), rng_split, weight_app. assert (rng (x + n) 1 (all_cells l) = [c]) as ->.
  { unfold rng. by rewrite (drop_S _ _ _ Hc). }
  pose proof (Forall_lookup_1 _ _ _ _ Hmin Hc) as H4. cbn in H4.
  rewrite weight_one by done. lia.
Qed.

(** ** Sizes *)

(** The part of the size of page [j] that is not due to its cells. *)
Definition extra_of (lf : bool) (l : list sibling) (j : nat) : Z :=
  match (l !! j : option sibling) with Some (_, Some d) => if lf then 0 else lenZ d | _ => 0 end.

Lemma extra_at lf (l : list sibling) j m (od : option bytes) :
  l !! j = Some (m, od) -> extra_of lf l j = match od with Some d => if lf then 0 else lenZ d | None => 0 end.
Proof. intros H. unfold extra_of. by rewrite H. Qed.

Lemma extra_none lf (l : list sibling) j : l !! j = None -> extra_of lf l j = 0.
Proof. intros H. unfold extra_of. by rewrite H. Qed.

Lemma weight_split i m :
  Forall (fun e => 4 <= lenZ (e_bytes e)) m ->
  weight (snd <$> in_page m) + foldr (fun o z => 2 + lenZ (oc_payload o) + z) 0 (overs i m) = weight (e_bytes <$> m).
Proof.
  intros H. revert i. induction H as [|[q c|c] m He _ IH]; intros i; [done|..]; cbn [overs foldr].
  - change (in_page (ECell q c :: m)) with ((q, c) :: in_page m). cbn [fmap list_fmap snd e_bytes].
    rewrite weight_cons, (weight_cons _ (e_bytes <$> m)), <- (IH (S i)). unfold fmap. lia.
  - change (in_page (EOver c :: m)) with (in_page m). cbn [fmap list_fmap snd e_bytes oc_payload].
    rewrite weight_cons, <- (IH (S i)), weight_one by done. lia.
Qed.

Section sizes.
Context (tl lf : bool) (ds : list bytes) (L : list sibling) (P : list PageInner).
Context (HL : siblings_are tl lf ds 0 P L) (H5 : (length L <= 5)%nat) (Hlf : lf = false -> tl = false).
Context (Hmin : Forall (fun c => 4 <= lenZ c) (all_cells L)).
#[local] Abbreviation size_of := (page_size tl (all_refs 0 L) (extra_of lf L) (old_ends L)).

Lemma siblings_hold_at : forall pages l j, siblings_are tl lf ds j pages l -> pages_hold pages l.
Proof.
  induction pages as [|p pages IH]; intros [|[m od] l] j Hs; cbn [siblings_are] in Hs; try done.
  destruct Hs as (Hh & Hov & _ & Hs). intros [|i] m' od' H; cbn in H; simplify_eq; [by exists p|]. by apply (IH l (S j) Hs i m' od').
Qed.

Lemma siblings_hold : pages_hold P L.
Proof. by eapply siblings_hold_at. Qed.

(** The size of page [j] as step 3 computes it. *)
Lemma size_ok j p m od :
  L !! j = Some (m, od) -> P !! j = Some p ->
  (size ← (if negb lf && negb (bool_decide (S j = length L)) then
             len ← payload_len (all_refs 0 L) (Z.of_nat (upto (old_ends L) j));
             Ok (weight (e_bytes <$> m) + len)
           else Ok (weight (e_bytes <$> m)));
   Ok size) = Ok (size_of j).
Proof.
  intros Hj Hp. pose proof (siblings_separated _ _ _ _ _ _ HL) as Hsep. pose proof (lookup_lt_Some _ _ _ Hj) as Hlt.
  destruct (all_refs_part L j m od Hj) as (post & Hr & Hc & Hl & Hpost).
  assert (page_size tl (all_refs 0 L) (extra_of lf L) (old_ends L) j = weight (e_bytes <$> m) + extra_of lf L j) as ->.
  { unfold page_size. rewrite (old_upto L H5 _ _ _ Hj), (old_start_of tl L Hsep H5 j Hlt).
    destruct (part_cells L j m od Hj) as [Hrng Hle].
    rewrite (array_weight P L (first_of L j) (length m) siblings_hold Hmin Hle), Hrng. lia. }
  rewrite (extra_at _ _ _ _ _ Hj). pose proof (Hsep _ _ _ Hj) as Ho. pose proof siblings_hold as HP. destruct lf; cbn [negb andb].
  { cbn. f_equal. destruct od; lia. }
  destruct (Nat.ltb_spec (S j) (length L)) as [Hin|Hout].
  - rewrite bool_decide_false by lia. cbn [negb].
    rewrite (Hlf eq_refl) in Ho. destruct od as [d|]; [|done].
    assert (all_cells L !! (first_of L j + length m)%nat = Some d) as Hd.
    { rewrite Hc. unfold first_of. rewrite lookup_app_r, Nat.add_sub' by lia. rewrite lookup_app_r by (by rewrite length_fmap).
      by rewrite length_fmap, Nat.sub_diag. }
    destruct (array_ref P L _ _ HP Hd) as (r & Hr' & _ & Hlen & _).
    unfold payload_len. rewrite (old_upto L H5 _ _ _ Hj), (idx_lookup _ _ _ Hr'). cbn. by rewrite Hlen.
  - rewrite bool_decide_true by lia. cbn. f_equal. destruct od; [done|lia].
Qed.

(** Step 3, from page [j] on. *)
Lemma page_sizes_loop_ok : forall pages j sizes cum,
  pages = drop j P -> (j <= length P)%nat -> length sizes = 5%nat -> length cum = 5%nat -> exists sizes' cum',
    page_sizes_loop usable pages (Z.of_nat j) lf (usable - arr 0 t) (all_refs 0 L) (Z.of_nat <$> old_ends L) sizes cum =
      Ok (sizes', cum') /\ length sizes' = 5%nat /\ length cum' = 5%nat /\
    (forall i, (i < j)%nat \/ (length P <= i)%nat -> sizes' !! i = sizes !! i /\ cum' !! i = cum !! i) /\
    forall i, (j <= i < length P)%nat -> sizes' !! i = Some (size_of i) /\ cum' !! i = Some (Z.of_nat (upto (old_ends L) i)).
Proof.
  pose proof (siblings_length _ _ _ _ _ _ HL) as Hlen.
  induction pages as [|p pages IH]; intros j sizes cum Hpages Hj Hls Hlc; cbn [page_sizes_loop].
  { exists sizes, cum. split_and!; try done. intros i Hi. assert (length (drop j P) = 0%nat) as Hd by (by rewrite <- Hpages).
    rewrite length_drop in Hd. lia. }
  assert (P !! j = Some p) as Hp by (rewrite <- (Nat.add_0_r j), <- lookup_drop, <- Hpages; done).
  assert (pages = drop (S j) P) as Hpages' by (rewrite <- (Nat.add_1_r j), <- drop_drop, <- Hpages; done).
  pose proof (lookup_lt_Some _ _ _ Hp) as Hlt. destruct (lookup_lt_is_Some_2 L j ltac:(lia)) as [[m od] Hm].
  destruct (siblings_hold j m od Hm) as (p' & Hp' & Hh & Hov). rewrite Hp in Hp'. injection Hp' as <-.
  rewrite upto_lookup by (rewrite old_ends_length; lia). cbn [mbind Result_bind]. rewrite set_idx_nat by lia. cbn [mbind Result_bind].
  destruct (holds_reads p m Hh) as (_ & _ & Hfree). rewrite (ho_base _ _ _ _ Hh), Hfree, Hov. cbn [mbind Result_bind]. cbv zeta.
  pose proof (weight_split 0 m (ho_min _ _ _ _ Hh)) as Hw.
  replace (usable - arr 0 t - (usable - arr 0 t - weight (in_page m).*2) +
    foldr (fun o z => 2 + lenZ (oc_payload o) + z) 0 (overs 0 m)) with (weight (e_bytes <$> m)) by lia.
  pose proof (size_ok j p m od Hm Hp) as Hsz.
  assert (match pages with [] => true | _ => false end = bool_decide (S j = length L)) as ->.
  { destruct pages as [|p' pages]; symmetry.
    - apply bool_decide_true. assert (length (drop (S j) P) = 0%nat) as Hd by (by rewrite <- Hpages'). rewrite length_drop in Hd. lia.
    - apply bool_decide_false. assert (0 < length (drop (S j) P))%nat as Hd by (rewrite <- Hpages'; cbn; lia). rewrite length_drop in Hd. lia. }
  destruct (if negb lf && negb (bool_decide (S j = length L)) then _ else _) as [size| |]; cbn [mbind Result_bind] in Hsz; [|done..].
  injection Hsz as ->. cbn [mbind Result_bind]. rewrite set_idx_nat by lia. cbn [mbind Result_bind].
  replace (Z.of_nat j + 1) with (Z.of_nat (S j)) by lia.
  destruct (IH (S j) (<[j := size_of j]> sizes) (<[j := Z.of_nat (upto (old_ends L) j)]> cum) Hpages' ltac:(lia))
    as (sizes' & cum' & Hloop & Hls' & Hlc' & Hout & Hin); [by rewrite length_insert..|].
  exists sizes', cum'. split_and!; [done|done|done|..].
  - intros i Hi. destruct (Hout i ltac:(lia)) as [-> ->]. by rewrite !list_lookup_insert_ne by lia.
  - intros i Hi. destruct (decide (i = j)) as [->|]; [|apply Hin; lia].
    destruct (Hout j ltac:(lia)) as [-> ->]. by rewrite !list_lookup_insert_eq by lia.
Qed.

(** Step 3 prepares the distribution. *)
Lemma page_sizes_ok :
  (0 < length L)%nat -> exists d,
    page_sizes usable P lf (usable - arr 0 t) (all_refs 0 L) (Z.of_nat <$> old_ends L) = Ok d /\
    packing tl (all_refs 0 L) (usable - arr 0 t) (extra_of lf L) 0 d (old_ends L) (length L).
Proof.
  intros H0. pose proof (siblings_length _ _ _ _ _ _ HL) as Hlen. unfold page_sizes.
  destruct (page_sizes_loop_ok P 0 (replicate 5 0) (replicate 5 0) (eq_sym (drop_0 P)) ltac:(lia) eq_refl eq_refl)
    as (sizes & cum & Hloop & Hls & Hlc & Hout & Hin).
  change (replicate (Z.to_nat MAX_NEW_SIBLING_PAGES_AFTER_BALANCE) 0) with (replicate 5 0). change (Z.of_nat 0) with 0 in Hloop.
  rewrite Hloop. cbn [mbind Result_bind]. eexists. split; [done|].
  pose proof (siblings_separated _ _ _ _ _ _ HL) as Hsep.
  constructor; cbn [ds_sizes ds_cum ds_count]; try lia.
  - by rewrite old_ends_length.
  - apply (list_eq_same_length _ _ 5); [by rewrite length_fmap, old_ends_length|done|]. intros i x y Hi Hx Hy.
    assert (y = Z.of_nat (upto (old_ends L) i)) as ->.
    { rewrite list_lookup_fmap in Hy. unfold upto. destruct (old_ends L !! i); [|done]. by injection Hy as <-. }
    destruct (decide (i < length P)%nat) as [Hl|Hl].
    + destruct (Hin i ltac:(lia)) as [_ Hc]. rewrite Hx in Hc. by injection Hc.
    + destruct (Hout i ltac:(lia)) as [_ Hc]. rewrite Hx, lookup_replicate_2 in Hc by done. injection Hc as ->.
      by rewrite old_upto_new by lia.
  - unfold lenZ. lia.
  - intros j Hj. apply Hin. lia.
  - intros j Hj. destruct (lookup_lt_is_Some_2 L j Hj) as [[m od] Hm]. rewrite (old_upto L H5 _ _ _ Hm).
    rewrite all_refs_length. by apply (part_cells L j m od).
  - rewrite (old_last tl L Hsep H5 H0), all_refs_length. done.
  - intros j Hj. by apply extra_none, lookup_ge_None_2.
Qed.

End sizes.

End gather.
