(* ===== verification/BtreeRedist.v ===== *)
(** * BtreeRedist: balancing the siblings

    The composition of the steps of the balancing: the cells of the siblings
    with the dividers between them are distributed over at most five pages, in
    order, and every page holds exactly its part. *)

From S2P Require Import Prelude Varint OnDisk Page BtreePage BtreeSpace BtreeCells BtreeDefrag BtreeInsert BtreeRefine.
From S2P Require Import BtreeBalance BtreeDistribute BtreeFree BtreeBulk BtreeEdit BtreeSiblings BtreeGather.

Section redist.
Context (usable : Z) (Hdims : dims 0 usable) (t : PageType).

(** ** New pages *)

(** A page from the pager: a buffer of the size of a page. *)
Definition fresh_page (p : PageInner) : Prop :=
  header_offset p = 0 /\ exists buf, buffer p = Some buf /\ usable <= lenZ buf /\ bytes_ok buf.

Lemma init_holds p :
  fresh_page p -> exists p', btree_init_page p t usable = Ok p' /\ holds usable t p' [] /\ overflow_cells p' = [].
Proof.
  intros (Hb & buf & Hbuf & Hlen & Hok). destruct (init_represents 0 usable t Hdims p buf Hb Hbuf Hlen Hok)
    as (p' & Hi & [Hb' Hov (ca & fbs & ptrs & HW)] & Hl & _). exists p'. split_and!; [done| |done].
  pose proof (cs_len _ _ _ _ _ _ (pw_cells _ _ _ _ _ _ _ _ HW)) as Hp. cbn in Hp. assert (ptrs = []) as -> by (destruct ptrs; [done|]; unfold lenZ in Hp; cbn in Hp; lia).
  constructor; [done| |by exists ca, fbs|constructor]. unfold as_ptr in *. destruct (buffer p'); [done|].
  cbn in Hl. destruct Hdims. unfold lenZ in *. cbn in *. lia.
Qed.

Lemma allocate_ok ps n : forall fresh i old,
  Forall fresh_page fresh -> (n <= length fresh)%nat -> lenZ ps < 65536 -> (i + n <= length old)%nat -> exists pages,
    allocate_pages usable n (Z.of_nat i) t ps fresh (Z.of_nat <$> old) =
      Ok (pages, Z.of_nat <$> list_inserts i (replicate n (length ps)) old) /\
    length pages = n /\ Forall (fun p => holds usable t p [] /\ overflow_cells p = []) pages.
Proof.
  induction n as [|n IH]; intros fresh i old Hf Hn Hps Hi; cbn [allocate_pages replicate list_inserts].
  { exists []. split_and!; done. }
  destruct fresh as [|p fresh]; [cbn in Hn; lia|]. inversion Hf as [|? ? Hp Hf']; subst. cbn [head unwrap mbind Result_bind tail].
  destruct (init_holds p Hp) as (p' & -> & Hh & Hov). cbn [mbind Result_bind].
  assert (u16 (lenZ ps) = Z.of_nat (length ps)) as -> by (unfold u16, lenZ in *; rewrite Z.mod_small; lia).
  rewrite set_cum by lia. cbn [mbind Result_bind]. replace (Z.of_nat i + 1) with (Z.of_nat (S i)) by lia. cbn in Hn.
  destruct (IH fresh (S i) (<[i := length ps]> old) Hf' ltac:(lia) Hps) as (pages & -> & Hl & Hall); [rewrite length_insert; lia|].
  cbn [mbind Result_bind]. exists (p' :: pages). rewrite list_insert_inserts_lt by lia. split_and!; [done|cbn; lia|by constructor].
Qed.

(** ** Right pointers *)

Definition right_ptr (p : PageInner) : Z := be_combine (sub (as_ptr p) 8 4).

Lemma right_ptr_read p m :
  arr 0 t = 12 -> holds usable t p m -> rightmost_pointer 0 (as_ptr p) = Ok (Some (right_ptr p)).
Proof.
  intros Ht Hh. destruct (holds_reads usable Hdims t p m Hh) as (Hty & _). unfold rightmost_pointer. rewrite Hty. cbn [mbind Result_bind].
  destruct Hh as [_ _ (ca & fbs & [_ HS]) _]. pose proof (so_len _ _ _ _ _ _ _ HS). destruct Hdims. unfold BTREE_RIGHTMOST_PTR.
  rewrite slice_sub by lia. cbn [mbind Result_bind]. unfold right_ptr. unfold arr in Ht. by destruct t.
Qed.

Lemma right_write buf ca fbs ptrs cells x :
  arr 0 t = 12 -> lenZ x = 4 -> bytes_ok x -> page_wf 0 usable t buf ca fbs ptrs cells ->
  page_wf 0 usable t (splice buf 8 x) ca fbs ptrs cells.
Proof.
  intros Ha Hx Hok HW. pose proof HW as [[[Hty Hcnt Hptrs] Hl Hc] HS]. pose proof (so_len _ _ _ _ _ _ _ HS).
  pose proof (so_lo _ _ _ _ _ _ _ HS) as Hlo. unfold lo_of in Hlo. pose proof (lenZ_nonneg cells). destruct Hdims.
  constructor.
  - constructor; [constructor| |].
    + by rewrite get8_ne by lia.
    + by rewrite get16_ne by lia.
    + intros i q Hq. rewrite get16_ne by lia. by apply Hptrs.
    + done.
    + intros i q c Hq Hcc. destruct (cell_range _ _ _ _ _ _ _ _ _ _ _ HW Hq Hcc) as (? & ? & ? & ?).
      rewrite sub_splice_ne by lia. done.
  - apply (space_ok_splice _ _ Hdims); [done|done|]. right; left. lia.
Qed.

Lemma set_right_ok pages j p m v :
  arr 0 t = 12 -> is_u32 v -> pages !! j = Some p -> holds usable t p m -> exists p',
    set_right_pointer pages j v = Ok (<[j := p']> pages) /\ holds usable t p' m /\
    overflow_cells p' = overflow_cells p /\ right_ptr p' = v.
Proof.
  intros Ha Hv Hp Hh. pose proof Hh as [Hb Hbuf (ca & fbs & HW) Hmin].
  pose proof (so_len _ _ _ _ _ _ _ (pw_space _ _ _ _ _ _ _ _ HW)). pose proof (be_split_lenZ 4 v) as Hl.
  pose proof Hdims as []. unfold set_right_pointer. rewrite Hp. cbn [unwrap mbind Result_bind]. rewrite Hb.
  unfold write_rightmost_ptr, write_u32, BTREE_RIGHTMOST_PTR.
  assert (write_slice (as_ptr p) (0 + 8) (be_split 4 v) = Ok (splice (as_ptr p) 8 (be_split 4 v))) as -> by (apply write_slice_Ok; split_and!; [lia|lia|done]).
  cbn [mbind Result_bind]. eexists. split; [done|]. split_and!; [|done|].
  - constructor; [done|done| |done]. exists ca, fbs. rewrite as_ptr_set. apply right_write; [done|lia|apply be_split_ok|done].
  - unfold right_ptr. rewrite as_ptr_set, sub_splice_eq by lia. by apply be32_roundtrip.
Qed.

(** The pages hold the entries [ms]. *)
Definition all_hold (P : list PageInner) (ms : list (list entry)) : Prop :=
  Forall2 (fun p m => holds usable t p m /\ overflow_cells p = overs 0 m) P ms.

Lemma all_hold_lookup P ms j m :
  all_hold P ms -> ms !! j = Some m -> exists p, P !! j = Some p /\ holds usable t p m /\ overflow_cells p = overs 0 m.
Proof. intros H Hm. destruct (Forall2_lookup_r _ _ _ _ _ H Hm) as (p & Hp & ?). by exists p. Qed.

Lemma all_hold_pages P l rest : all_hold P ((fst <$> l) ++ rest) -> pages_hold usable t P l.
Proof.
  intros H j m od Hj. apply (all_hold_lookup _ _ j m H). rewrite lookup_app_l by (rewrite length_fmap; by eapply lookup_lt_Some).
  by rewrite list_lookup_fmap, Hj.
Qed.

Lemma set_right_hold P ms j v :
  arr 0 t = 12 -> is_u32 v -> all_hold P ms -> (j < length P)%nat -> exists P',
    set_right_pointer P j v = Ok P' /\ all_hold P' ms /\
    (forall i, i <> j -> P' !! i = P !! i) /\ exists p, P' !! j = Some p /\ right_ptr p = v.
Proof.
  intros Ha Hv H Hj. destruct (lookup_lt_is_Some_2 ms j) as [m Hm]; [by rewrite <- (Forall2_length _ _ _ H)|].
  destruct (all_hold_lookup _ _ _ _ H Hm) as (p & Hp & Hh & Hov).
  destruct (set_right_ok P j p m v Ha Hv Hp Hh) as (p' & Hset & Hh' & Hov' & Hr). exists (<[j := p']> P). split_and!; [done|..].
  - rewrite <- (list_insert_id _ _ _ Hm). apply Forall2_insert; [done|]. split; [done|congruence].
  - intros i Hi. by rewrite list_lookup_insert_ne by done.
  - exists p'. by rewrite list_lookup_insert_eq.
Qed.

(** The child pointer at the start of a cell. *)
Definition child_ptr (c : bytes) : Z := be_combine (sub c 0 4).

Lemma child_ptr_u32 c : bytes_ok c -> 4 <= lenZ c -> is_u32 (child_ptr c).
Proof.
  intros Hc Hl. unfold child_ptr. pose proof (be_combine_bound (sub c 0 4) (sub_ok c 0 4 Hc)) as Hb.
  rewrite lenZ_sub in Hb by lia. unfold is_u32. lia.
Qed.

Section pointers.
Context (l : list sibling) (rest : list (list entry)) (c : list nat).
Context (Hcells : Forall (is_cell usable t) (all_cells l)) (Hmin : Forall (fun c => 4 <= lenZ c) (all_cells l)).
Context (Ha : arr 0 t = 12) (Hc5 : length c = 5%nat).

Lemma right_loop_ok n : forall j P,
  all_hold P ((fst <$> l) ++ rest) -> (j + n < 5)%nat -> (j + n <= length P)%nat ->
  (forall i, (j <= i < j + n)%nat -> (upto c i < length (all_cells l))%nat) -> exists P',
    right_pointers_loop n j (mkCellArray (all_refs 0 l) (Z.of_nat <$> c)) P = Ok P' /\
    all_hold P' ((fst <$> l) ++ rest) /\
    (forall i, (i < j \/ j + n <= i)%nat -> P' !! i = P !! i) /\
    forall i, (j <= i < j + n)%nat -> exists p d, P' !! i = Some p /\ all_cells l !! upto c i = Some d /\ right_ptr p = child_ptr d.
Proof.
  induction n as [|n IH]; intros j P HP H5 HlP Hc; cbn [right_pointers_loop].
  { exists P. split_and!; try done. intros i Hi. lia. }
  unfold cell_count_up_to_page. cbn [cell_count_per_page_cumulative cell_payloads]. rewrite upto_lookup by lia. cbn [mbind Result_bind].
  destruct (lookup_lt_is_Some_2 (all_cells l) (upto c j) (Hc j ltac:(lia))) as [d Hd].
  destruct (array_ref usable Hdims t P l _ _ (all_hold_pages _ _ _ HP) Hd) as (r & Hr & Hdr & _).
  rewrite (idx_lookup _ _ _ Hr). cbn [mbind Result_bind]. rewrite Hdr. cbn [mbind Result_bind].
  pose proof (Forall_lookup_1 _ _ _ _ Hmin Hd) as H4. cbn in H4.
  pose proof (Forall_lookup_1 _ _ _ _ Hcells Hd) as [Hdok _]. rewrite slice_sub by lia. cbn [mbind Result_bind].
  change (sub d 0 (4 - 0)) with (sub d 0 4). fold (child_ptr d). destruct (set_right_hold P _ j (child_ptr d) Ha (child_ptr_u32 _ Hdok H4) HP ltac:(lia))
    as (P1 & Hset & HP1 & Hsame & p & Hp & Hrp). rewrite Hset. cbn [mbind Result_bind].
  assert (length P1 = length P) as HlP1 by (rewrite (Forall2_length _ _ _ HP1); symmetry; apply (Forall2_length _ _ _ HP)).
  destruct (IH (S j) P1 HP1 ltac:(lia) ltac:(lia)) as (P' & Hloop & HP' & Hout & Hin); [intros; apply Hc; lia|].
  exists P'. split_and!; [done|done|..].
  - intros i Hi. rewrite Hout by lia. apply Hsame. lia.
  - intros i Hi. destruct (decide (i = j)) as [->|]; [|apply Hin; lia]. exists p, d. rewrite Hout by lia. done.
Qed.

End pointers.

(** ** The new distribution *)

Lemma divider_count tl (l : list sibling) : separated tl l -> (length l <= 3)%nat -> (length (omap snd l) <= 2)%nat.
Proof.
  intros Hsep H3. destruct l as [|[m0 o0] [|[m1 o1] [|[m2 o2] [|? ?]]]]; cbn in H3; try lia.
  - cbn. lia.
  - destruct o0; cbn; lia.
  - destruct o0, o1; cbn; lia.
  - pose proof (Hsep 2%nat m2 o2 eq_refl) as Ho. cbn in Ho. destruct o2; [done|]. destruct o0, o1; cbn; lia.
Qed.

Section compose.
Context (tl lf : bool) (l : list sibling) (Hsep : separated tl l) (Hl : (1 <= length l <= 5)%nat).
Context (Hcells : Forall (is_cell usable t) (all_cells l)) (Hmin : Forall (fun c => 4 <= lenZ c) (all_cells l)).
#[local] Abbreviation s := (length l).
#[local] Abbreviation n := (length (all_cells l)).
#[local] Abbreviation cap := (usable - arr 0 t).

(** The prefix sums of the old pages, those of the new pages at the end. *)
Definition olds_of (k : nat) : list nat := list_inserts s (replicate (k - s) n) (old_ends l).

Lemma olds_upto k j :
  (k <= 5)%nat -> upto (olds_of k) j = if decide (s <= j < k)%nat then n else upto (old_ends l) j.
Proof.
  intros Hk. unfold upto, olds_of. destruct (decide (s <= j < k)%nat).
  - rewrite list_lookup_inserts by (rewrite ?length_replicate, ?old_ends_length; lia).
    rewrite lookup_replicate_2 by lia. done.
  - destruct (decide (j < s)%nat).
    + by rewrite list_lookup_inserts_lt by done.
    + by rewrite list_lookup_inserts_ge by (rewrite length_replicate; lia).
Qed.

Lemma olds_start k j : (k <= 5)%nat -> (j < s)%nat -> start_of tl (olds_of k) j = first_of l j.
Proof.
  intros Hk Hj. rewrite <- (old_start_of tl l Hsep ltac:(lia) j Hj). destruct j as [|j]; [done|]. cbn. rewrite olds_upto by done.
  destruct (decide (s <= j < k)%nat); [lia|done].
Qed.

Lemma redistribution_intro d c k P :
  sizes_ok tl (all_refs 0 l) cap (extra_of lf l) -> spreading tl (all_refs 0 l) cap (extra_of lf l) 0 d c k ->
  length P = Nat.max s k -> all_hold P ((fst <$> l) ++ replicate (k - s) []) ->
  redistribution usable t tl s k (olds_of k) c P ((fst <$> l) ++ replicate (k - s) []) (all_refs 0 l) (all_cells l).
Proof.
  intros HZ HS HlP HP. pose proof HS as [[Hl1 Hl2] Hc Hn Hk Hs Hle Hlast Hfit _ Hstart _ _].
  assert (length (olds_of k) = 5%nat) as Hlo by (unfold olds_of; by rewrite length_inserts, old_ends_length).
  assert (length ((fst <$> l) ++ replicate (k - s) []) = length P) as Hlms
    by (rewrite length_app, length_fmap, length_replicate; lia).
  constructor.
  - lia.
  - lia.
  - by rewrite all_refs_length.
  - intros j p m Hp Hm. destruct (all_hold_lookup _ _ _ _ HP Hm) as (p' & Hp' & ? & ?). rewrite Hp in Hp'. by injection Hp' as <-.
  - intros j m Hm. rewrite all_refs_length. unfold old_start. destruct (Nat.ltb_spec j s) as [Hj|Hj].
    + rewrite lookup_app_l, list_lookup_fmap in Hm by (by rewrite length_fmap). destruct (l !! j) as [[m' od]|] eqn:Hlj; [|done].
      injection Hm as ->. destruct (all_refs_part l j m od Hlj) as (post & Hr & _ & Hlen & ->).
      eexists _, _. split_and!; [exact Hr|by rewrite Hlen, olds_start by lia|..].
      * eapply Forall_impl; [apply (all_refs_outside j); rewrite length_take; lia|]. intros r. apply owner_outside.
      * apply Forall_app_2; [destruct od; repeat constructor|].
        eapply Forall_impl; [apply (all_refs_outside j); lia|]. intros r. apply owner_outside.
      * rewrite Hlen. by eapply part_cells.
    + rewrite lookup_app_r in Hm by (by rewrite length_fmap). apply lookup_replicate in Hm as [-> _].
      exists (all_refs 0 l), []. split_and!; [by rewrite app_nil_r|apply all_refs_length| |constructor|done].
      eapply Forall_impl; [apply (all_refs_outside j); lia|]. intros r. apply owner_outside.
  - intros x y Hx. destruct (array_ref usable Hdims t P l _ _ (all_hold_pages _ _ _ HP) Hx) as (r & Hr & Hd & Hlen & Hown).
    exists r. split_and!; [done|done|done|]. intros j Hj. destruct (Hown j Hj) as (m & od & Hm & Hx').
    pose proof (lookup_lt_Some _ _ _ Hm) as Hlt. split; [done|]. rewrite olds_start by lia. rewrite olds_upto by lia.
    destruct (decide (s <= j < k)%nat); [lia|]. by rewrite (old_upto l ltac:(lia) _ _ _ Hm).
  - intros j m Hj Hm. rewrite olds_start, olds_upto by lia. destruct (decide (s <= j < k)%nat); [lia|].
    rewrite lookup_app_l, list_lookup_fmap in Hm by (by rewrite length_fmap). destruct (l !! j) as [[m' od]|] eqn:Hlj; [|done].
    injection Hm as ->. by rewrite (old_upto l ltac:(lia) _ _ _ Hlj).
  - intros j Hj Hjk. rewrite olds_upto, all_refs_length by lia. destruct (decide (s <= j < k)%nat); [done|].
    replace j with (s - 1)%nat by lia. apply (old_last tl l Hsep); lia.
  - intros j. rewrite olds_upto, all_refs_length by lia. destruct (decide (s <= j < k)%nat); [done|].
    apply old_upto_le. lia.
  - intros j Hj. rewrite all_refs_length. split; [|rewrite <- (all_refs_length 0); by apply Hle].
    apply Hstart; lia.
  - done.
  - intros j Hj. specialize (Hfit j Hj). unfold page_size in Hfit. pose proof (sz_extra _ _ _ _ HZ j).
    pose proof (Hle j Hj) as Hle'. rewrite all_refs_length in Hle'.
    pose proof (Hstart j ltac:(lia) Hj) as Hst.
    pose proof (array_weight usable Hdims t P l (start_of tl c j) (upto c j - start_of tl c j) (all_hold_pages _ _ _ HP) Hmin) as Hw.
    replace (start_of tl c j + (upto c j - start_of tl c j))%nat with (upto c j) in Hw by lia. specialize (Hw Hle'). lia.
Qed.

(** ** Enough space *)

(** The overflow cells of the siblings. *)
Definition over_count (l : list sibling) : nat := foldr (fun x z => (length (overs 0 (fst x)) + z)%nat) 0%nat l.

(** The part of a page that a cell may take: all of a table leaf, a third of an
    index leaf, two sevenths of an interior page. *)
Definition share : Z * Z := if tl then (1, 1) else if lf then (3, 1) else (7, 2).

(** The cells that fit on a page: three on an index leaf, four on an interior
    page with narrow cells. *)
Definition cells_per_page : Z := if tl then 1 else if lf then 3 else 4.

Lemma page_fits p m : holds usable t p m -> weight (snd <$> in_page m) <= cap.
Proof.
  intros [_ _ (ca & fbs & HW) _]. pose proof (pw_space _ _ _ _ _ _ _ _ HW) as HS. pose proof (so_lo _ _ _ _ _ _ _ HS).
  pose proof (so_sum _ _ _ _ _ _ _ HS). rewrite sizes_regions in * by apply HW. unfold lo_of, weight, total_size in *.
  pose proof (so_len _ _ _ _ _ _ _ HS). destruct Hdims. pose proof (get8_u8 _ (0 + 7) (so_bytes _ _ _ _ _ _ _ HS) ltac:(lia)).
  assert (0 <= sizes fbs); [|unfold is_u8 in *; lia]. apply (sizes_nonneg _ ca usable).
  eapply Forall_impl; [apply ascending_forall, HS|]. unfold within, bend. cbn. intros b. lia.
Qed.

(** The runs of cells on the page and the overflow cells between them. *)
Lemma page_runs m :
  weight (snd <$> in_page m) <= cap -> Forall (fun c => weight [c] <= cap) (e_bytes <$> m) -> exists r runs,
    concat (r :: runs) = e_bytes <$> m /\ (length runs <= 2 * length (overs 0 m))%nat /\
    weight r <= weight (snd <$> in_page m) /\ Forall (fun r => weight r <= cap) runs.
Proof.
  assert (forall i m, length (overs i m) = length (overs 0 m)) as Hov.
  { intros i m'. pose proof (overs_count i m'). pose proof (overs_count 0 m'). unfold lenZ in *. lia. }
  induction m as [|[q c|c] m IH]; intros Hw Hc.
  - by exists [], [].
  - change (in_page (ECell q c :: m)) with ((q, c) :: in_page m) in *. cbn [fmap list_fmap snd e_bytes] in *.
    inversion Hc as [|? ? Hc1 Hc2]; subst. rewrite weight_cons in *. pose proof (weight_nonneg [c]).
    destruct IH as (r & runs & Hr & Hlen & Hwr & Hruns); [unfold fmap in *; lia|done|].
    exists (c :: r), runs. split_and!; [by cbn; f_equal|by cbn [overs]; rewrite Hov| |done]. rewrite weight_cons. unfold fmap in *. lia.
  - change (in_page (EOver c :: m)) with (in_page m) in *. cbn [fmap list_fmap snd e_bytes] in *.
    inversion Hc as [|? ? Hc1 Hc2]; subst. destruct IH as (r & runs & Hr & Hlen & Hwr & Hruns); [done|done|].
    exists [], ([c] :: r :: runs). split_and!; [by cbn in *; rewrite Hr|cbn [overs length]; rewrite Hov; lia|apply weight_nonneg|].
    constructor; [done|]. constructor; [|done]. unfold fmap in *. lia.
Qed.

Lemma all_runs k :
  Forall (fun x => weight (snd <$> in_page (fst x)) <= cap /\ snd x = None) k ->
  Forall (fun c => weight [c] <= cap) (all_cells k) -> exists runs,
    concat runs = all_cells k /\ (length runs <= length k + 2 * over_count k)%nat /\ Forall (fun r => weight r <= cap) runs.
Proof.
  induction k as [|[m od] k IH]; intros Hk Hc; [by exists []|]. inversion Hk as [|? ? [Hm Hod] Hk']; subst. cbn in Hod, Hm. subst od.
  cbn [all_cells option_list app] in *. apply Forall_app in Hc as [Hc1 Hc2]. destruct (IH Hk' Hc2) as (runs & Hr & Hl' & Hf).
  destruct (page_runs m Hm Hc1) as (r0 & runs0 & Hr0 & Hl0 & Hw0 & Hf0). exists ((r0 :: runs0) ++ runs). split_and!.
  - by rewrite concat_app, Hr0, Hr.
  - rewrite length_app. cbn [length over_count foldr fst]. unfold over_count in Hl'. lia.
  - apply Forall_app_2; [constructor; [by eapply Z.le_trans|done]|done].
Qed.

(** Cut into runs that fit, the cells of table leaves need no more than five
    pages. *)
Lemma runs_suffice P runs :
  tl = true -> sizes_ok tl (all_refs 0 l) cap (extra_of lf l) -> pages_hold usable t P l ->
  concat runs = all_cells l -> (length runs <= 5)%nat -> Forall (fun r => weight r <= cap) runs ->
  five_suffice tl (all_refs 0 l) cap (extra_of lf l).
Proof.
  intros Htl HZ HP Hr Hlr Hf. apply (five_runs _ _ _ _ HZ (fun j => length (concat (take j runs)))); [done|done|..].
  - rewrite take_ge, Hr, all_refs_length by done. done.
  - intros j Hj. destruct (runs !! j) as [r|] eqn:Hrj.
    + assert (length (concat (take (S j) runs)) = length (concat (take j runs)) + length r)%nat as Hx
        by (rewrite (take_S_r _ _ _ Hrj), concat_app, length_app; cbn; rewrite app_nil_r; lia).
      rewrite Hx. assert (all_cells l = concat (take j runs) ++ r ++ concat (drop (S j) runs)) as Hall
        by (rewrite <- Hr; rewrite <- (take_drop_middle _ _ _ Hrj) at 1; by rewrite concat_app).
      rewrite (array_weight usable Hdims t P l _ _ HP Hmin) by (rewrite Hall, !length_app; lia).
      assert (rng (length (concat (take j runs))) (length r) (all_cells l) = r) as ->.
      { rewrite Hall. unfold rng. by rewrite drop_app_length, take_app_length. }
      pose proof (Forall_lookup_1 _ _ _ _ Hf Hrj). cbn in *. lia.
    + apply lookup_ge_None_1 in Hrj. rewrite !take_ge by lia. pose proof (sz_cap _ _ _ _ HZ). lia.
Qed.

Lemma over_weight q r i m :
  Forall (fun c => q * (2 + lenZ c) <= r) (e_bytes <$> m) -> 0 <= q ->
  q * foldr (fun o z => 2 + lenZ (oc_payload o) + z) 0 (overs i m) <= r * Z.of_nat (length (overs i m)).
Proof.
  intros H Hq. revert i. induction m as [|[x c|c] m IH]; intros i; cbn [overs foldr length fmap list_fmap e_bytes oc_payload] in *.
  - lia.
  - inversion H; subst. by apply IH.
  - inversion H as [|? ? H1 H2]; subst. specialize (IH H2 (S i)). cbn [oc_payload]. lia.
Qed.

(** The bytes of all cells. *)
Lemma total_weight q r k :
  0 <= q -> Forall (fun x => weight (snd <$> in_page (fst x)) <= cap) k ->
  Forall (fun c => q * (2 + lenZ c) <= r) (all_cells k) -> Forall (fun c => 4 <= lenZ c) (all_cells k) ->
  q * weight (all_cells k) <= q * cap * lenZ k + r * Z.of_nat (over_count k) +
    r * Z.of_nat (length (omap snd k)).
Proof.
  intros Hq. induction k as [|[m od] k IH]; intros Hk Hc H4.
  { change (weight (all_cells [])) with 0. change (lenZ (@nil sibling)) with 0. cbn [over_count foldr omap list_omap length]. lia. }
  inversion Hk as [|? ? Hm Hk']; subst. cbn [fst] in Hm.
  cbn [all_cells] in *. apply Forall_app in Hc as [Hc1 Hc2]. apply Forall_app in Hc2 as [Hc2 Hc3].
  apply Forall_app in H4 as [H41 H42]. apply Forall_app in H42 as [H42 H43]. specialize (IH Hk' Hc3 H43).
  rewrite !weight_app. assert (Forall (fun e => 4 <= lenZ (e_bytes e)) m) as Hmin' by (exact (proj1 (Forall_fmap _ _ _) H41)).
  rewrite <- (weight_split 0 m Hmin'). pose proof (over_weight q r 0 m Hc1 Hq).
  cbn [over_count foldr fst omap list_omap snd]. fold (over_count k).
  assert (lenZ ((m, od) :: k) = lenZ k + 1) as -> by (unfold lenZ; cbn; lia). rewrite Nat2Z.inj_add.
  assert (q * weight (option_list od) <= r * Z.of_nat (length (option_list od))) as Hd.
  { destruct od as [d|]; [|change (option_list (@None bytes)) with (@nil bytes); unfold weight, lenZ; cbn; lia].
    change (option_list (Some d)) with [d] in *. inversion H42; inversion Hc2; subst. rewrite weight_one by done. cbn [length]. lia. }
  assert (length (omap snd ((m, od) :: k)) = length (option_list od) + length (omap snd k))%nat as Hom by (by destruct od).
  cbn in Hom. rewrite Hom. nia.
Qed.

Lemma runs_weight runs : Forall (fun r => weight r <= cap) runs -> weight (concat runs) <= cap * lenZ runs.
Proof.
  induction 1 as [|r runs Hr _ IH]; [unfold weight, lenZ; cbn; lia|]. cbn [concat]. rewrite weight_app.
  assert (lenZ (r :: runs) = lenZ runs + 1) as -> by (unfold lenZ; cbn; lia). lia.
Qed.

Lemma weight_count cs : 6 * lenZ cs <= weight cs.
Proof.
  unfold weight. assert (4 * lenZ cs <= total_size cs); [|lia]. induction cs as [|c cs IH]; [done|].
  assert (lenZ (c :: cs) = lenZ cs + 1) as -> by (unfold lenZ; cbn; lia). pose proof (region_size_ge c). unfold total_size in *. cbn [foldr]. lia.
Qed.

Section enough.
Context (P : list PageInner) (HP : pages_hold usable t P l) (H3 : (length l <= 3)%nat) (Hne : all_cells l <> []).
Context (Hbound : Forall (fun c => fst share * (2 + lenZ c) <= snd share * cap) (all_cells l)).
Context (Hover : (over_count l <= if tl then 1 else 4)%nat).
Context (Hfour : (over_count l <= 3)%nat \/ Forall (fun c => cells_per_page * (2 + lenZ c) <= cap) (all_cells l)).

Lemma siblings_fit : Forall (fun x => weight (snd <$> in_page (fst x)) <= cap) l.
Proof. apply Forall_lookup_2. intros j [m od] Hj. destruct (HP j m od Hj) as (p & _ & Hh & _). by apply (page_fits p). Qed.

Lemma no_dividers : tl = true -> Forall (fun x => snd x = None) l.
Proof.
  intros E. apply Forall_lookup_2. intros j [m od] Hj. pose proof (Hsep j m od Hj) as Ho. rewrite E in Ho.
  destruct od; [|done]. by destruct (S j <? s)%nat.
Qed.

Lemma table_runs : tl = true -> exists runs,
  concat runs = all_cells l /\ (length runs <= 5)%nat /\ Forall (fun r => weight r <= cap) runs.
Proof.
  intros E. rewrite E in Hover. unfold share in Hbound. rewrite E in Hbound. destruct (all_runs l) as (runs & Hr & Hlr & Hf).
  - pose proof siblings_fit. pose proof (no_dividers E). apply Forall_and. done.
  - apply Forall_lookup_2. intros i c Hi. pose proof (Forall_lookup_1 _ _ _ _ Hbound Hi). pose proof (Forall_lookup_1 _ _ _ _ Hmin Hi).
    cbn in *. rewrite weight_one by done. lia.
  - exists runs. split_and!; [done|lia|done].
Qed.

Lemma no_extra j : tl = true \/ lf = true \/ (s <= j + 1)%nat -> extra_of lf l j = 0.
Proof.
  intros H. destruct (l !! j) as [[m od]|] eqn:Hj; [|by apply extra_none]. rewrite (extra_at _ _ _ _ _ Hj).
  destruct od as [d|]; [|done]. pose proof (Hsep j m _ Hj) as Ho. destruct H as [E|[->|Hs]]; [|done|].
  - rewrite E in Ho. by destruct (S j <? s)%nat.
  - rewrite (proj2 (Nat.ltb_ge _ _)) in Ho by lia. done.
Qed.

Lemma extra_nonneg j : 0 <= extra_of lf l j.
Proof.
  destruct (l !! j) as [[m od]|] eqn:Hj; [|by rewrite (extra_none _ _ _ Hj)]. rewrite (extra_at _ _ _ _ _ Hj).
  destruct od as [d|]; [|done]. pose proof (lenZ_nonneg d). destruct lf; lia.
Qed.

(** The extra bytes of a page are those of a divider. *)
Lemma extra_bound q r j :
  0 <= q -> 2 * q <= r -> Forall (fun c => q * (2 + lenZ c) <= r) (all_cells l) -> q * extra_of lf l j + 2 * q <= r.
Proof.
  intros Hq Hr Hb. destruct (l !! j) as [[m od]|] eqn:Hj; [|rewrite (extra_none _ _ _ Hj); lia]. rewrite (extra_at _ _ _ _ _ Hj).
  destruct od as [d|]; [|lia]. destruct (all_refs_part l j m (Some d) Hj) as (post & _ & Hc & _). rewrite Hc in Hb.
  apply Forall_app in Hb as [_ Hb]. apply Forall_app in Hb as [_ Hb]. inversion Hb. destruct lf; lia.
Qed.

(** The bytes of pages with dividers, when a cell takes [r / q] of them. *)
Lemma few_bytes_by q r :
  tl = false -> 0 < q -> 2 * q <= r -> Forall (fun c => q * (2 + lenZ c) <= r) (all_cells l) ->
  q * (weight (all_cells l) + extra_of lf l 0 + extra_of lf l 1) <=
    q * (3 * cap) + r * (Z.of_nat (over_count l) + 2) + if lf then 0 else 2 * r.
Proof.
  intros E Hq Hr Hb. pose proof (total_weight q r l ltac:(lia) siblings_fit Hb Hmin) as Hw. pose proof (divider_count tl l Hsep H3) as Hd.
  pose proof (extra_bound q r 0 ltac:(lia) Hr Hb) as He0. pose proof (extra_bound q r 1 ltac:(lia) Hr Hb) as He1.
  assert (480 <= usable <= 65536) as Hu by apply Hdims. pose proof (arr_range 0 t) as Har.
  assert (r * Z.of_nat (length (omap snd l)) <= r * 2) by nia. assert (lenZ l <= 3) as Hl3 by (unfold lenZ; lia). pose proof (Z.mul_le_mono_nonneg_l _ _ (q * cap) ltac:(nia) Hl3).
  assert (lf = true -> extra_of lf l 0 = 0 /\ extra_of lf l 1 = 0) as Hlf by (intros; rewrite !no_extra by auto; done).
  destruct lf; [destruct (Hlf eq_refl) as [-> ->]|]; nia.
Qed.

Lemma few_bytes :
  weight (all_cells l) + extra_of lf l 0 + extra_of lf l 1 + extra_of lf l 2 + extra_of lf l 3 + extra_of lf l 4 <= 5 * cap.
Proof.
  assert (480 <= usable <= 65536) as Hu by apply Hdims. pose proof (arr_range 0 t) as Har.
  rewrite (no_extra 2), (no_extra 3), (no_extra 4) by lia.
  destruct (leaf_cases tl) as [[E _]|[E _]].
  - rewrite !no_extra by (by left). destruct (table_runs E) as (runs & <- & Hlr & Hf). pose proof (runs_weight runs Hf).
    assert (lenZ runs <= 5) by (unfold lenZ; lia). nia.
  - pose proof (few_bytes_by (fst share) (snd share * cap) E) as H1. pose proof (few_bytes_by cells_per_page cap E) as H2.
    unfold share, cells_per_page in *. rewrite E in *. destruct lf eqn:El; cbn [fst snd] in *.
    + specialize (H1 ltac:(lia) ltac:(lia) Hbound). nia.
    + destruct Hfour as [Hthree|Hnar].
      * specialize (H1 ltac:(lia) ltac:(lia) Hbound). nia.
      * specialize (H2 ltac:(lia) ltac:(lia) Hnar). nia.
Qed.

Lemma width_bound q r x :
  0 <= r -> Forall (fun c => q * (2 + lenZ c) <= r) (all_cells l) -> q * width (all_refs 0 l) x <= r.
Proof.
  intros Hr Hb. destruct (all_cells l !! x) as [c|] eqn:Hx.
  - rewrite (array_width usable Hdims t P l _ _ HP Hx). by apply (Forall_lookup_1 _ _ _ _ Hb Hx).
  - unfold width. rewrite lookup_ge_None_2; [cbn; lia|]. rewrite all_refs_length. by apply lookup_ge_None_1.
Qed.

Lemma sizes_fit : sizes_ok tl (all_refs 0 l) cap (extra_of lf l).
Proof.
  assert (480 <= usable <= 65536) as Hu by apply Hdims. pose proof (arr_range 0 t) as Har.
  pose proof few_bytes as Hfew. pose proof (weight_count (all_cells l)) as Hcount. pose proof extra_nonneg as Hex0.
  pose proof (fun x H => width_bound _ _ x H Hbound) as Hcap. pose proof (fun j H1 H2 => extra_bound _ _ j H1 H2 Hbound) as Hex.
  pose proof (fun j H => no_extra j H) as Hno. unfold share in Hcap, Hex.
  constructor.
  - assert (lenZ (all_refs 0 l) = lenZ (all_cells l)) as -> by (unfold lenZ; by rewrite all_refs_length).
    destruct (all_cells l) eqn:E; [done|]. rewrite <- E in *.
    pose proof (Hex0 0%nat). pose proof (Hex0 1%nat). pose proof (Hex0 2%nat). pose proof (Hex0 3%nat). pose proof (Hex0 4%nat).
    split; [rewrite E; unfold lenZ; cbn; lia|lia].
  - lia.
  - intros x Hx. rewrite all_refs_length in Hx. destruct (lookup_lt_is_Some_2 _ _ Hx) as [c Hc].
    rewrite (array_width usable Hdims t P l _ _ HP Hc). pose proof (Forall_lookup_1 _ _ _ _ Hmin Hc). cbn in *. lia.
  - done.
  - intros E. rewrite E in Hcap. cbn [fst snd] in *. split; [intros x; specialize (Hcap x); lia|]. intros j. apply Hno. by left.
  - intros E. rewrite E in Hcap, Hex. split; intros; [specialize (Hcap x)|]; specialize (Hex j); specialize (Hno j); specialize (Hex0 j);
      destruct lf; cbn [fst snd] in *; try (rewrite Hno in * by auto); lia.
Qed.

Lemma sizes_narrow :
  Forall (fun c => cells_per_page * (2 + lenZ c) <= cap) (all_cells l) -> narrow tl (all_refs 0 l) cap (extra_of lf l).
Proof.
  assert (480 <= usable <= 65536) as Hu by apply Hdims. pose proof (arr_range 0 t) as Har.
  intros Hb. destruct (leaf_cases tl) as [[E _]|[E _]]; [by left|right]. intros x j.
  pose proof (width_bound _ cap x ltac:(lia) Hb) as Hw. pose proof (fun H1 H2 => extra_bound _ cap j H1 H2 Hb) as Hex.
  pose proof (no_extra j) as Hno. unfold cells_per_page in Hw, Hex. rewrite E in Hw, Hex.
  destruct lf; [rewrite Hno by auto|]; lia.
Qed.

Lemma pages_suffice : five_suffice tl (all_refs 0 l) cap (extra_of lf l).
Proof.
  pose proof sizes_fit as HZ. destruct (leaf_cases tl) as [[E _]|[E _]].
  - destruct (table_runs E) as (runs & Hr & Hlr & Hf). by apply (runs_suffice P runs E HZ HP).
  - apply (five_pages _ _ _ _ E). pose proof few_bytes as Hfew.
    pose proof (array_weight usable Hdims t P l 0 n HP Hmin ltac:(lia)) as Hw. cbn [Nat.add weights] in Hw.
    rewrite all_refs_length, Hw. unfold rng. rewrite drop_0, firstn_all. lia.
Qed.

End enough.

(** ** The parts *)

(** The cells of the new page [j] with the divider after it. *)
Definition part (c : list nat) (k j : nat) : list bytes * option bytes :=
  (rng (start_of tl c j) (upto c j - start_of tl c j) (all_cells l),
   if tl then None else if (S j <? k)%nat then all_cells l !! upto c j else None).

Definition parts (c : list nat) (k : nat) : list (list bytes * option bytes) := part c k <$> seq 0 k.

Definition joined (ps : list (list bytes * option bytes)) : list bytes := concat ((fun x => fst x ++ option_list (snd x)) <$> ps).

Lemma parts_join d c k :
  spreading tl (all_refs 0 l) cap (extra_of lf l) 0 d c k -> joined (parts c k) = all_cells l.
Proof.
  intros HS. pose proof HS as [_ _ _ Hk _ Hle Hlast _ _ Hstart _ _]. rewrite all_refs_length in Hle, Hlast.
  assert (forall j, (j < k)%nat -> (start_of tl c j <= upto c j)%nat) as Hst.
  { intros j Hj. apply Hstart; lia. }
  assert (forall j, (j < k)%nat -> joined (part c k <$> seq 0 j) = take (start_of tl c j) (all_cells l)) as Hpre.
  { induction j as [|j IH]; intros Hj; [done|]. unfold joined in *. rewrite seq_S, fmap_app, fmap_app, concat_app, IH by lia.
    cbn [fmap list_fmap concat part fst snd]. rewrite app_nil_r, (proj2 (Nat.ltb_lt _ _)) by lia.
    pose proof (Hstart (S j) ltac:(lia) Hj) as Hnext. specialize (Hst j ltac:(lia)). specialize (Hle (S j) Hj). cbn [start_of] in Hnext.
    rewrite Nat.add_0_l, app_assoc. unfold rng. rewrite take_take_drop.
    replace (start_of tl c j + (upto c j - start_of tl c j))%nat with (upto c j) by lia. cbn [start_of].
    destruct (leaf_cases tl) as [[E Hs]|[E Hs]]; rewrite Hs, E in *; [by rewrite Nat.add_0_r, app_nil_r|].
    destruct (lookup_lt_is_Some_2 (all_cells l) (upto c j)) as [x Hx]; [lia|]. rewrite Hx. cbn [option_list].
    rewrite Nat.add_1_r. by rewrite (take_S_r _ _ _ Hx). }
  unfold parts. destruct k as [|k]; [lia|]. rewrite seq_S, fmap_app. unfold joined in *. rewrite fmap_app, concat_app, Hpre by lia.
  cbn [fmap list_fmap concat part fst snd]. rewrite app_nil_r, Nat.ltb_irrefl, Nat.add_0_l. replace (S k - 1)%nat with k in Hlast by lia.
  assert ((if tl then None else None : option bytes) = None) as -> by (by destruct tl). cbn [option_list]. rewrite app_nil_r.
  unfold rng. rewrite take_take_drop. specialize (Hst k ltac:(lia)).
  replace (start_of tl c k + (upto c k - start_of tl c k))%nat with (upto c k) by lia. by rewrite Hlast, firstn_all.
Qed.

End compose.

End redist.
