(* ===== verification/BtreeBalanced.v ===== *)
(** * BtreeBalanced: the siblings after balancing

    For siblings that are well-formed pages with few overflow cells the
    balancing succeeds: the cells and dividers are, in the same order, on at
    most five pages without overflow cells, with one cell between two pages as
    the new divider.  The pages are edited in place, so this also says that no
    cell is overwritten before it was copied.  Every page has a cell, except
    that the last one can be without cells when interior index cells take more
    than a quarter of a page; the condition under which it stays so is stated
    exactly. *)

From S2P Require Import Prelude Varint OnDisk Page BtreePage BtreeSpace BtreeCells BtreeDefrag BtreeInsert BtreeRefine.
From S2P Require Import BtreeBalance BtreeDistribute BtreeFree BtreeBulk BtreeEdit BtreeSiblings BtreeGather BtreeRedist.

Definition table_leaf (t : PageType) : bool := bool_decide (t = TableLeaf).
Definition leaf (t : PageType) : bool := bool_decide (t = TableLeaf \/ t = IndexLeaf).

(** ** How large cells are *)

Lemma read_varint_at_le buf k v n : bytes_ok buf -> read_varint_at buf k = Ok (v, n) -> 1 <= n <= 9.
Proof.
  intros Hb. unfold read_varint_at, slice_from_or_corrupt. case_match; [|done]. cbn [mbind Result_bind].
  rewrite read_varint_eq, ok_or_Ok by (by apply Forall_drop). intros Hs%varint_spec_bounds; [lia|].
  by apply Forall_drop.
Qed.

Lemma payload_local size maxl minl usable :
  minl <= maxl -> match payload_overflows size maxl minl usable with Some n => n <= maxl + 4 | None => size <= maxl end.
Proof.
  intros H. unfold payload_overflows. destruct (Z.leb_spec size maxl); [done|]. cbv zeta.
  destruct (Z.ltb_spec maxl (minl + (size - minl) mod (usable - 4))); lia.
Qed.

(** The size of a cell: beside its fixed part it has at most the local payload
    and the number of an overflow page. *)
Lemma cell_size usable t c :
  dims 0 usable -> is_cell usable t c ->
  match t with
  | IndexInterior => 255 * (lenZ c + 6) <= 64 * (usable - 12)
  | TableInterior => lenZ c <= 13
  | IndexLeaf => 3 * (2 + lenZ c) <= usable - 8
  | TableLeaf => 2 + lenZ c <= usable - 8
  end.
Proof.
  intros [_ Hu] [Hb [o Ho]].
  assert (min_local usable t <= max_local usable t) as Hmm.
  { unfold min_local, max_local, payload_overflow_threshold_min, payload_overflow_threshold_max.
    pose proof (Z.div_le_mono ((usable - 12) * 32) ((usable - 12) * 64) 255 ltac:(lia) ltac:(lia)).
    pose proof (Z.div_le_upper_bound ((usable - 12) * 32) 255 (usable - 12) ltac:(lia) ltac:(lia)). destruct t; lia. }
  assert (lenZ c <= region_size c) as Hr by (unfold region_size; lia).
  pose proof (fun s => payload_local s (max_local usable t) (min_local usable t) usable Hmm) as Hl.
  unfold max_local, payload_overflow_threshold_max in *. pose proof (Z.mul_div_le ((usable - 12) * 64) 255 ltac:(lia)).
  set (q := (usable - 12) * 64 / 255) in *. unfold raw_cell_len in Ho.
  destruct t;
    [destruct (read_varint_at c (0 + 4)) as [[v n]| |] eqn:E|destruct (read_varint_at c (0 + 4)) as [[v n]| |] eqn:E
    |destruct (read_varint_at c 0) as [[v n]| |] eqn:E|destruct (read_varint_at c 0) as [[v n]| |] eqn:E]; try done;
    cbn [mbind Result_bind] in Ho; pose proof (read_varint_at_le _ _ _ _ Hb E); specialize (Hl v).
  - destruct (payload_overflows v _ _ _); injection Ho as Ho _; lia.
  - injection Ho as Ho _. lia.
  - destruct (payload_overflows v _ _ _); injection Ho as Ho _; unfold MINIMUM_CELL_SIZE in *; lia.
  - destruct (read_varint_at c (0 + n)) as [[w k]| |] eqn:E'; try done. cbn [mbind Result_bind] in Ho.
    pose proof (read_varint_at_le _ _ _ _ Hb E').
    destruct (payload_overflows v _ _ _); injection Ho as Ho _; unfold MINIMUM_CELL_SIZE in *; lia.
Qed.

(** A table leaf has space for one cell, an index leaf for three, an interior
    page for three and a half. *)
Lemma share_bound usable t c :
  dims 0 usable -> is_cell usable t c ->
  fst (share (table_leaf t) (leaf t)) * (2 + lenZ c) <= snd (share (table_leaf t) (leaf t)) * (usable - arr 0 t).
Proof.
  intros Hd Hc. pose proof (cell_size usable t c Hd Hc) as H. destruct Hd as [_ Hu]. pose proof (lenZ_nonneg c).
  destruct t; [change (arr 0 _) with 12; change (share _ _) with (7, 2)|change (arr 0 _) with 12; change (share _ _) with (7, 2)
              |change (arr 0 _) with 8; change (share _ _) with (3, 1)|change (arr 0 _) with 8; change (share _ _) with (1, 1)]; cbn [fst snd]; lia.
Qed.

(** Narrow cells: on interior index pages of more than 4096 bytes no cell takes
    more than a quarter of the page.  All cells of other pages are narrow. *)
Definition narrow_cells (usable : Z) (t : PageType) (cells : list bytes) : Prop :=
  t = IndexInterior -> 4096 < usable -> Forall (fun c => 4 * (2 + lenZ c) <= usable - 12) cells.

Lemma narrow_bound usable t cells :
  dims 0 usable -> Forall (is_cell usable t) cells -> narrow_cells usable t cells ->
  Forall (fun c => cells_per_page (table_leaf t) (leaf t) * (2 + lenZ c) <= usable - arr 0 t) cells.
Proof.
  intros Hd Hc Hn. apply Forall_lookup_2. intros i c Hi. pose proof (cell_size usable t c Hd (Forall_lookup_1 _ _ _ _ Hc Hi)) as H.
  destruct Hd as [_ Hu]. destruct t;
    [change (arr 0 _) with 12; change (cells_per_page _ _) with 4|change (arr 0 _) with 12; change (cells_per_page _ _) with 4
    |change (arr 0 _) with 8; change (cells_per_page _ _) with 3|change (arr 0 _) with 8; change (cells_per_page _ _) with 1]; try lia.
  destruct (decide (usable <= 4096)); [lia|].
  apply (Forall_lookup_1 _ _ _ _ (Hn eq_refl ltac:(lia)) Hi).
Qed.

(** Siblings that can be balanced: up to three pages with the entries and
    dividers [l], at most one overflow cell on table leaves and four on other
    pages, three when the cells are not narrow, and pages for new siblings. *)
Record balanceable (usable : Z) (t : PageType) (pages : list PageInner) (dividers : list bytes)
    (fresh : list PageInner) (l : list sibling) : Prop := mkBalanceable {
  ba_siblings : siblings_are usable t (table_leaf t) (leaf t) dividers 0 pages l;
  ba_count : (1 <= length l <= 3)%nat;
  ba_some : all_cells l <> [];
  ba_cells : Forall (is_cell usable t) (all_cells l);
  ba_min : Forall (fun c => 4 <= lenZ c) (all_cells l);
  ba_wide : (over_count l <= 3)%nat \/ narrow_cells usable t (all_cells l);
  ba_over : (over_count l <= if table_leaf t then 1 else 4)%nat;
  ba_fresh : (5 <= length pages + length fresh)%nat /\ Forall (fresh_page usable) fresh
}.

Section balanced.
Context (usable : Z) (Hdims : dims 0 usable) (t : PageType).
Context (pages : list PageInner) (dividers : list bytes) (fresh : list PageInner) (l : list sibling).
Context (HB : balanceable usable t pages dividers fresh l).
#[local] Abbreviation tl := (table_leaf t).
#[local] Abbreviation lf := (leaf t).
#[local] Abbreviation cap := (usable - arr 0 t).
#[local] Abbreviation s := (length l).

Lemma leaf_table : lf = false -> tl = false.
Proof. unfold leaf, table_leaf. by destruct t. Qed.

Lemma leaf_arr : lf = false -> arr 0 t = 12.
Proof. unfold leaf, arr. by destruct t. Qed.

Lemma header_cap : usable - (if lf then LEAF_PAGE_HEADER_SIZE_BYTES else INTERIOR_PAGE_HEADER_SIZE_BYTES) = cap.
Proof. by destruct t. Qed.

Lemma old_all_hold tl' lf' ds : forall ps k j, siblings_are usable t tl' lf' ds j ps k -> all_hold usable t ps (fst <$> k).
Proof.
  induction ps as [|p ps IH]; intros [|[m od] k] j Hs; cbn [siblings_are] in Hs; try done; [constructor|].
  destruct Hs as (Hh & Hov & _ & Hs). constructor; [done|]. by eapply IH.
Qed.

Lemma ba_bound : Forall (fun c => fst (share tl lf) * (2 + lenZ c) <= snd (share tl lf) * cap) (all_cells l).
Proof. eapply Forall_impl; [apply HB|]. intros c Hc. by apply share_bound. Qed.

Lemma ba_four : (over_count l <= 3)%nat \/ Forall (fun c => cells_per_page tl lf * (2 + lenZ c) <= cap) (all_cells l).
Proof. destruct (ba_wide _ _ _ _ _ _ HB); [by left|right]. apply narrow_bound; [done|apply HB|done]. Qed.

Lemma sizes_planned : sizes_ok tl (all_refs 0 l) cap (extra_of lf l).
Proof.
  pose proof HB as [HL Hs Hne Hcells Hmin _ Hover _]. apply (sizes_fit usable Hdims t tl lf l) with (P := pages); try done; [|lia|..].
  - by eapply siblings_separated.
  - by eapply siblings_hold.
  - pose proof (siblings_length _ _ _ _ _ _ _ _ HL). lia.
  - apply ba_bound.
  - apply ba_four.
Qed.

Lemma cells_narrow : narrow_cells usable t (all_cells l) -> narrow tl (all_refs 0 l) cap (extra_of lf l).
Proof.
  intros Hn. pose proof HB as [HL Hs Hne Hcells Hmin _ Hover _]. apply (sizes_narrow usable Hdims t tl lf l) with (P := pages); try done; [|lia|..].
  - by eapply siblings_separated.
  - by eapply siblings_hold.
  - pose proof (siblings_length _ _ _ _ _ _ _ _ HL). lia.
  - apply ba_four.
  - by apply narrow_bound.
Qed.

Lemma right_ptr_u32 p m : arr 0 t = 12 -> holds usable t p m -> is_u32 (right_ptr p).
Proof.
  intros _ [_ _ (ca & fbs & [_ HS]) _]. pose proof (so_len _ _ _ _ _ _ _ HS). destruct Hdims.
  unfold right_ptr. pose proof (be_combine_bound (sub (as_ptr p) 8 4) (sub_ok _ _ _ (so_bytes _ _ _ _ _ _ _ HS))) as Hb.
  rewrite lenZ_sub in Hb by lia. unfold is_u32. lia.
Qed.

(** The right pointers before the pages are edited. *)
Definition right_pointers_are (c : list nat) (k : nat) (P : list PageInner) : Prop :=
  lf = false -> forall j, (j < k)%nat -> exists p, P !! j = Some p /\
    right_ptr p = match snd (part tl l c k j) with
                  | Some d => child_ptr d
                  | None => from_option right_ptr 0 (pages !! (s - 1)%nat)
                  end.

Lemma last_right_ok k P :
  lf = false -> (1 <= k)%nat -> length P = Nat.max s k -> right_ptr <$> P !! (s - 1)%nat = right_ptr <$> pages !! (s - 1)%nat ->
  all_hold usable t P ((fst <$> l) ++ replicate (k - s) []) -> exists P1,
    last_right_pointer s k P = Ok P1 /\ all_hold usable t P1 ((fst <$> l) ++ replicate (k - s) []) /\ length P1 = length P /\
    exists p1, P1 !! (k - 1)%nat = Some p1 /\ right_ptr p1 = from_option right_ptr 0 (pages !! (s - 1)%nat).
Proof.
  intros El Hk HlP Hlast HP. pose proof (leaf_arr El) as Ha. pose proof (ba_count _ _ _ _ _ _ HB) as Hs. unfold last_right_pointer.
  destruct (lookup_lt_is_Some_2 l (s - 1) ltac:(lia)) as [[m od] Hm].
  destruct (all_hold_pages _ _ _ _ _ HP _ _ _ Hm) as (p & Hp & Hh & Hov). rewrite Hp. cbn [unwrap mbind Result_bind].
  rewrite (ho_base _ _ _ _ Hh), (right_ptr_read _ Hdims _ _ _ Ha Hh). cbn [unwrap mbind Result_bind].
  destruct (set_right_hold _ Hdims _ P _ (k - 1) (right_ptr p) Ha (right_ptr_u32 p m Ha Hh) HP ltac:(lia))
    as (P1 & Hset & HP1 & Hsame & p1 & Hp1 & Hr1). exists P1. split_and!; [done|done| |exists p1; split; [done|]].
  2: { rewrite Hr1. rewrite Hp in Hlast. destruct (pages !! (s - 1)%nat); [by injection Hlast as ->|done]. }
  rewrite (Forall2_length _ _ _ HP1). symmetry. apply (Forall2_length _ _ _ HP).
Qed.

(** The dividers of interior pages are in the array. *)
Lemma divider_range d c k i :
  spreading tl (all_refs 0 l) cap (extra_of lf l) 0 d c k -> (S i < k)%nat ->
  (upto c i < length (all_cells l))%nat /\ (1 <= upto c i)%nat.
Proof.
  intros [_ _ _ Hk _ Hle Hlast _ _ Hstart Hcell Hthis] Hi. specialize (Hstart (S i) ltac:(lia) Hi). specialize (Hle (S i) Hi). rewrite all_refs_length in Hle.
  assert (narrow tl (all_refs 0 l) cap (extra_of lf l) -> start_of tl c (S i) < upto c (S i))%nat as Hn by (intros; apply Hcell; [lia|done|by right]).
  split; [cbn [start_of] in *; destruct (leaf_cases tl) as [[E Es]|[E Es]]; rewrite Es in *; [specialize (Hn (or_introl E))|]; lia|].
  destruct (decide (i = 0)%nat) as [->|]; [specialize (Hthis ltac:(lia)); lia|]. specialize (Hcell i ltac:(lia) ltac:(lia) ltac:(by left)). lia.
Qed.

(** The pages before the last have the child pointers of the dividers. *)
Lemma right_pointers_done d c k P' :
  spreading tl (all_refs 0 l) cap (extra_of lf l) 0 d c k ->
  (lf = false -> forall i, (i < k - 1)%nat -> exists p e, P' !! i = Some p /\ all_cells l !! upto c i = Some e /\ right_ptr p = child_ptr e) ->
  (lf = false -> exists p, P' !! (k - 1)%nat = Some p /\ right_ptr p = from_option right_ptr 0 (pages !! (s - 1)%nat)) ->
  right_pointers_are c k P'.
Proof.
  intros HS Hin Hlast El j Hj. pose proof (sp_k _ _ _ _ _ _ _ _ HS). cbn [part snd]. rewrite (leaf_table El).
  destruct (Nat.ltb_spec (S j) k) as [Hjk|Hjk].
  - destruct (Hin El j ltac:(lia)) as (q & e & Hq & He & Hr). exists q. rewrite He. done.
  - replace j with (k - 1)%nat by lia. by apply Hlast.
Qed.

Lemma right_pointers_ok d c k P :
  spreading tl (all_refs 0 l) cap (extra_of lf l) 0 d c k -> length P = Nat.max s k -> P !! (s - 1)%nat = pages !! (s - 1)%nat ->
  all_hold usable t P ((fst <$> l) ++ replicate (k - s) []) -> exists P',
    right_pointers lf s k (mkCellArray (all_refs 0 l) (Z.of_nat <$> c)) P = Ok P' /\
    all_hold usable t P' ((fst <$> l) ++ replicate (k - s) []) /\ right_pointers_are c k P'.
Proof.
  intros HS HlP Hlast HP. unfold right_pointers. destruct lf eqn:El; [exists P; split_and!; [done|done|intros Hlf; congruence]|]. pose proof (leaf_arr El) as Ha.
  pose proof (sp_k _ _ _ _ _ _ _ _ HS) as Hk. rewrite <- El in HS. pose proof HS as [[_ Hc5] _ _ _ _ _ _ _ _ _ _].
  destruct (last_right_ok k P El ltac:(lia) HlP (f_equal (fmap right_ptr) Hlast) HP) as (P1 & Hset & HP1 & HlP1 & p1 & Hp1 & Hr1). rewrite Hset. cbn [mbind Result_bind].
  destruct (right_loop_ok _ Hdims _ l _ c (ba_cells _ _ _ _ _ _ HB) (ba_min _ _ _ _ _ _ HB) Ha Hc5 (k - 1) 0 P1 HP1)
    as (P' & Hloop & HP' & Hout & Hin); [lia|lia|intros i Hi; apply (divider_range d c k i HS); lia|].
  exists P'. split_and!; [done|done|]. apply (right_pointers_done d); [done| |].
  - intros _ i Hi. apply Hin. lia.
  - intros _. exists p1. rewrite Hout by lia. done.
Qed.

Lemma fresh_hold new_pages :
  Forall (fun p => holds usable t p [] /\ overflow_cells p = []) new_pages ->
  all_hold usable t (pages ++ new_pages) ((fst <$> l) ++ replicate (length new_pages) []).
Proof.
  intros H. apply Forall2_app; [eapply old_all_hold, HB|]. induction H as [|p ps [Hh Hov] _ IH]; cbn; [constructor|].
  by constructor.
Qed.

(** A new page: its cells, and the right pointer of an interior page. *)
Definition page_is (p : PageInner) (x : list bytes * option bytes) : Prop :=
  (exists ca ptrs, compact usable t p ca ptrs (fst x)) /\ overflow_cells p = [] /\
  (lf = false -> right_ptr p = match snd x with
                               | Some d => child_ptr d
                               | None => from_option right_ptr 0 (pages !! (s - 1)%nat)
                               end).

(** Every new page has a cell, the last one when the cells are narrow. *)
Lemma part_nonempty d c k j :
  spreading tl (all_refs 0 l) cap (extra_of lf l) 0 d c k -> (j < k)%nat -> (S j < k)%nat \/ narrow_cells usable t (all_cells l) ->
  fst (part tl l c k j) <> [].
Proof.
  intros [_ _ _ Hk _ Hle Hlast _ _ _ Hcell Hthis] Hj Hnar. specialize (Hle j Hj). rewrite all_refs_length in Hle, Hlast.
  assert (start_of tl c j < upto c j)%nat as Hst.
  { destruct (decide (j = 0)%nat) as [->|].
    - destruct (decide (k = 1)%nat) as [->|]; [|apply Hthis; lia].
      cbn in *. rewrite Hlast. pose proof (ba_some _ _ _ _ _ _ HB). destruct (all_cells l); [done|cbn; lia].
    - apply Hcell; [lia|done|]. destruct Hnar as [?|Hn]; [by left|right]. by apply cells_narrow. }
  cbn [part fst]. intros Hnil%(f_equal length). rewrite rng_length in Hnil by lia. cbn in Hnil. lia.
Qed.

(** The edited page with the right pointer written before. *)
Lemma page_is_rebuilt c k P' j p p' :
  right_pointers_are c k P' -> (j < k)%nat -> P' !! j = Some p -> rebuilt usable t tl c (all_cells l) j p p' ->
  page_is p' (part tl l c k j).
Proof.
  intros Hright Hj Hp (HC & Hov & Ho). split_and!; [exact HC|done|]. intros El. destruct (Hright El j Hj) as (q & Hq & Hr).
  rewrite Hp in Hq. injection Hq as <-. rewrite <- Hr. unfold right_ptr. f_equal.
  pose proof (leaf_arr El). apply (o_right _ _ _ _ _ Ho); lia.
Qed.

(** The dividers are the cells between the new pages. *)
Lemma part_divider d c k j :
  spreading tl (all_refs 0 l) cap (extra_of lf l) 0 d c k -> (j < k)%nat ->
  is_Some (snd (part tl l c k j)) <-> tl = false /\ (S j < k)%nat.
Proof.
  intros HS Hj. pose proof (sp_start _ _ _ _ _ _ _ _ HS (S j) ltac:(lia)) as Hcell.
  pose proof (sp_le _ _ _ _ _ _ _ _ HS (S j)) as Hle. rewrite all_refs_length in Hle. cbn [part snd].
  destruct (leaf_cases tl) as [[E Hsep]|[E Hsep]]; rewrite E; [split; [by intros [? ?]|intros [? _]; done]|].
  destruct (Nat.ltb_spec (S j) k) as [Hl|Hl]; [|split; [by intros [? ?]|lia]].
  split; [done|]. intros _. apply lookup_lt_is_Some_2. specialize (Hcell Hl). specialize (Hle Hl). cbn in Hcell. rewrite Hsep in Hcell. lia.
Qed.

(** The new distribution before the pages are edited. *)
Record planned (P : list PageInner) (d : dist) (c : list nat) (k : nat) : Prop := mkPlanned {
  pl_spread : spreading tl (all_refs 0 l) cap (extra_of lf l) 0 d c k;
  pl_length : length P = Nat.max s k;
  pl_hold : all_hold usable t P ((fst <$> l) ++ replicate (k - s) [])
}.

Lemma plan_ok : exists np d c k,
  plan_siblings usable t pages dividers fresh =
    Ok (pages ++ np, Z.of_nat <$> olds_of l k, mkCellArray (all_refs 0 l) (Z.of_nat <$> c), Z.of_nat k) /\
  planned (pages ++ np) d c k /\ length pages = s.
Proof.
  pose proof HB as [HL Hs Hne Hcells Hmin _ Hover [Hfresh Hfp]]. pose proof ba_bound as Hmax. pose proof ba_four as Hfour.
  pose proof (siblings_length _ _ _ _ _ _ _ _ HL) as Hlen. pose proof (siblings_separated _ _ _ _ _ _ _ _ HL) as Hsep.
  pose proof (siblings_hold _ _ _ _ _ _ _ HL) as Hold. pose proof sizes_planned as HZ.
  pose proof (pages_suffice usable Hdims t tl lf l Hsep ltac:(lia) Hcells Hmin pages Hold ltac:(lia) Hne Hmax Hover Hfour) as H5.
  unfold plan_siblings. fold (table_leaf t). fold (leaf t). pose proof (sz_count _ _ _ _ HZ) as Hcount.
  assert (lenZ (all_refs 0 l) = lenZ (all_cells l)) as Hla by (unfold lenZ; by rewrite all_refs_length). rewrite Hla in Hcount.
  rewrite (gather_ok usable Hdims t _ _ _ _ _ HL) by lia. cbn [mbind Result_bind]. rewrite header_cap.
  destruct (page_sizes_ok usable Hdims t tl lf dividers l pages HL ltac:(lia) leaf_table Hmin ltac:(lia)) as (d0 & Hd0 & HPk).
  rewrite Hd0. cbn [mbind Result_bind]. destruct (redistribute_ok _ _ _ _ HZ _ _ _ H5 HPk) as (d & c & k & Hd & HS).
  rewrite Hd. cbn [mbind Result_bind]. rewrite (sp_count _ _ _ _ _ _ _ _ HS), (sp_cum _ _ _ _ _ _ _ _ HS), Nat2Z.id, <- Hlen.
  pose proof (sp_k _ _ _ _ _ _ _ _ HS) as Hk.
  destruct (allocate_ok usable Hdims t (all_refs 0 l) (k - s) fresh s (old_ends l)) as (np & Hal & Hnp & Hfa);
    [done|lia|lia|rewrite old_ends_length; lia|]. rewrite Hal. cbn [mbind Result_bind].
  pose proof (fresh_hold np Hfa) as HP. rewrite Hnp in HP. exists np, d, c, k. split.
  - unfold olds_of. by rewrite <- (all_refs_length 0 l).
  - split; [|done]. constructor; [done|rewrite length_app; lia|done].
Qed.

(** The pages are edited after the right pointers were written. *)
Lemma edited_ok P d c k :
  planned P d c k -> right_pointers_are c k P -> exists pages',
    edit_siblings usable tl (Z.of_nat s) (Z.of_nat k) (Z.of_nat <$> olds_of l k) (mkCellArray (all_refs 0 l) (Z.of_nat <$> c)) P = Ok pages' /\
    (forall j, (k <= j)%nat -> pages' !! j = P !! j) /\
    forall j, (j < k)%nat -> exists p', pages' !! j = Some p' /\ page_is p' (part tl l c k j).
Proof.
  intros [HS HlP HP] Hright. pose proof HB as [HL Hs Hne Hcells Hmin _ Hover _].
  pose proof (siblings_separated _ _ _ _ _ _ _ _ HL) as Hsep.
  pose proof (redistribution_intro usable Hdims t tl lf l Hsep ltac:(lia) Hcells Hmin d c k P sizes_planned HS HlP HP) as HR.
  destruct (edit_siblings_ok usable Hdims t tl s k _ c P _ _ _ HR) as (pages' & He & Hold & Hnew). exists pages'. split_and!; [done|done|].
  intros j Hj. destruct (Hnew j Hj) as (p & p' & Hp & Hp' & Hre). exists p'. split; [done|]. by apply (page_is_rebuilt c k P j p).
Qed.

Lemma balance_siblings_ok :
  exists pages' c k,
    balance_siblings usable pages dividers fresh =
      Ok (pages', mkCellArray (all_refs 0 l) (Z.of_nat <$> c), Z.of_nat k) /\
    (1 <= k <= 5)%nat /\ joined (parts tl l c k) = all_cells l /\
    forall j, (j < k)%nat -> ((S j < k)%nat \/ narrow_cells usable t (all_cells l) -> fst (part tl l c k j) <> []) /\
      (is_Some (snd (part tl l c k j)) <-> tl = false /\ (S j < k)%nat) /\
      exists p, pages' !! j = Some p /\ page_is p (part tl l c k j).
Proof.
  pose proof HB as [HL Hs _ _ _ _ _ _]. pose proof (siblings_length _ _ _ _ _ _ _ _ HL) as Hlen.
  pose proof (siblings_separated _ _ _ _ _ _ _ _ HL) as Hsep.
  destruct (lookup_lt_is_Some_2 l 0 ltac:(lia)) as [[m0 od0] Hm0].
  destruct (siblings_hold _ _ _ _ _ _ _ HL 0%nat m0 od0 Hm0) as (p0 & Hp0 & Hh0 & _).
  unfold balance_siblings. rewrite head_lookup, Hp0. cbn [unwrap mbind Result_bind].
  destruct (holds_reads usable Hdims t p0 m0 Hh0) as (Hty & _). rewrite (ho_base _ _ _ _ Hh0), Hty. cbn [mbind Result_bind].
  destruct plan_ok as (np & d & c & k & -> & HPl & _). cbn [mbind Result_bind]. fold (table_leaf t). fold (leaf t). rewrite Nat2Z.id, <- Hlen.
  pose proof HPl as [HS HlP HP]. pose proof (sp_k _ _ _ _ _ _ _ _ HS) as Hk.
  destruct (right_pointers_ok d c k (pages ++ np) HS HlP) as (P' & Hrp & HP' & Hright);
    [by rewrite lookup_app_l by lia|done|]. rewrite Hrp. cbn [mbind Result_bind].
  destruct (edited_ok P' d c k) as (pages' & He & _ & Hnew); [|done|].
  { constructor; [done| |done]. rewrite (Forall2_length _ _ _ HP'), length_app, length_fmap, length_replicate; lia. }
  rewrite He. cbn [mbind Result_bind].
  exists pages', c, k. split_and!; [done|lia|lia|eapply parts_join; (done || lia)|].
  intros j Hj. split_and!; [by apply (part_nonempty d)|by apply (part_divider d)|by apply Hnew].
Qed.

End balanced.

(** C12: balancing up to three sibling pages succeeds as long as at most one cell
    of table leaves and four cells of other pages did not fit on them; on interior
    index pages of more than 4096 bytes four are only covered when no cell takes
    more than a quarter of the page (the cells are narrow), otherwise three.  The
    cells and the dividers that were between the pages are, unchanged and in the
    same order, on at most five pages and between them.  No page has overflow
    cells, and every page has a cell, the last one when the cells are narrow;
    except on table leaves the cell between two pages is the new divider.  An
    interior page has the child pointer of the divider after it as its right
    pointer, the last one that of the last old page.  The pages are edited in
    place, so no cell is overwritten before it has been copied. *)
Theorem balance_preserves_cells usable t pages dividers fresh l :
  dims 0 usable -> balanceable usable t pages dividers fresh l ->
  exists pages' cell_array new,
    balance_siblings usable pages dividers fresh = Ok (pages', cell_array, lenZ new) /\
    (1 <= length new <= 5)%nat /\ joined new = all_cells l /\
    forall j x, new !! j = Some x ->
      ((S j < length new)%nat \/ narrow_cells usable t (all_cells l) -> fst x <> []) /\
      (is_Some (snd x) <-> table_leaf t = false /\ (S j < length new)%nat) /\
      exists p, pages' !! j = Some p /\ page_is usable t pages l p x.
Proof.
  intros Hd HB. destruct (balance_siblings_ok usable Hd t pages dividers fresh l HB) as (pages' & c & k & H & Hk & Hj & Hp).
  exists pages', (mkCellArray (all_refs 0 l) (Z.of_nat <$> c)), (parts (table_leaf t) l c k).
  assert (length (parts (table_leaf t) l c k) = k) as Hlen by (unfold parts; by rewrite length_fmap, length_seq).
  unfold lenZ. rewrite Hlen. split_and!; [done|lia|lia|done|]. intros j x Hx. unfold parts in Hx.
  rewrite list_lookup_fmap in Hx. destruct (seq 0 k !! j) as [i|] eqn:Hi; [|done]. apply lookup_seq in Hi as [-> Hlt].
  injection Hx as <-. cbn [Nat.add]. by apply Hp.
Qed.

(** ** Siblings of 512 bytes *)

Definition blank_page : PageInner := mkPage 0 2 0 0 0 (Some (replicate 512 0)) [].

Lemma blank_fresh : fresh_page 512 blank_page.
Proof. split; [done|]. exists (replicate 512 0). split_and!; [done|done|by apply bytes_ok_dec]. Qed.

Lemma dims_0_512 : dims 0 512.
Proof. split; [by left|lia]. Qed.

(** The page after the operations. *)
Definition built (t : PageType) (ops : list PageOp) : PageInner :=
  match p ← btree_init_page blank_page t 512; prun 512 ops p with Ok p => p | _ => blank_page end.

Lemma built_represents t ops :
  valid_runb 0 512 t ops (mkAPage [] []) = true ->
  represents 0 512 t (built t ops) (arun 0 512 t ops (mkAPage [] [])) /\ lenZ (as_ptr (built t ops)) = 512.
Proof.
  intros Hv%valid_runb_ok. destruct (init_represents 0 512 t dims_0_512 blank_page (replicate 512 0)) as (p0 & H0 & HR & Hl & _);
    [done|done|done|by apply bytes_ok_dec|].
  destruct (prun_refines 0 512 t dims_0_512 ops p0 _ HR Hv) as (p & Hp & HR' & Ho). unfold built. rewrite H0. cbn [mbind Result_bind].
  rewrite Hp. split; [done|]. rewrite (o_len _ _ _ _ _ Ho), Hl. done.
Qed.

(** Cells at offsets as entries. *)
Lemma cell_entries ps cs :
  length ps = length cs ->
  let m := zip_with ECell ps cs in
  e_bytes <$> m = cs /\ fst <$> in_page m = ps /\ snd <$> in_page m = cs /\ forall i, overs i m = [].
Proof.
  revert ps. induction cs as [|c cs IH]; intros [|q ps] Hl; try done. cbn in Hl.
  destruct (IH ps ltac:(lia)) as (H1 & H2 & H3 & H4). cbn. split_and!; [f_equal; apply H1|f_equal; apply H2|f_equal; apply H3|done].
Qed.

Lemma over_entries os :
  e_bytes <$> (EOver <$> os) = os /\ in_page (EOver <$> os) = [] /\ forall i, length (overs i (EOver <$> os)) = length os.
Proof.
  induction os as [|c os (H1 & H2 & H3)]; [done|]. cbn. split_and!; [f_equal; apply H1|apply H2|intros i; f_equal; apply H3].
Qed.

(** The entries of a page with the cells [a] and [b] and overflow cells [os]
    between them. *)
Lemma built_holds t ops a os b :
  valid_runb 0 512 t ops (mkAPage [] []) = true ->
  arun 0 512 t ops (mkAPage [] []) = mkAPage (a ++ b) (overs (length a) (EOver <$> os)) ->
  forallb (fun c => 4 <=? lenZ c) (a ++ os ++ b) = true -> exists m,
    holds 512 t (built t ops) m /\ overflow_cells (built t ops) = overs 0 m /\ e_bytes <$> m = a ++ os ++ b /\
    length (overs 0 m) = length os.
Proof.
  intros Hv Ha Hmin. destruct (built_represents t ops Hv) as [[Hb Hov (ca & fbs & ptrs & HW)] Hl]. rewrite Ha in *.
  cbn [a_cells a_over] in *. pose proof (cs_len _ _ _ _ _ _ (pw_cells _ _ _ _ _ _ _ _ HW)) as Hp. unfold lenZ in Hp.
  rewrite length_app in Hp. destruct (cell_entries (take (length a) ptrs) a) as (A1 & A2 & A3 & A4); [rewrite length_take; lia|].
  destruct (cell_entries (drop (length a) ptrs) b) as (B1 & B2 & B3 & B4); [rewrite length_drop; lia|].
  destruct (over_entries os) as (O1 & O2 & O3). set (m1 := zip_with ECell (take (length a) ptrs) a) in *.
  set (m2 := zip_with ECell (drop (length a) ptrs) b) in *. assert (length m1 = length a) as Hm1 by (by rewrite <- A1, length_fmap).
  exists (m1 ++ (EOver <$> os) ++ m2).
  assert (e_bytes <$> m1 ++ (EOver <$> os) ++ m2 = a ++ os ++ b) as Hbytes by (by rewrite !fmap_app, A1, B1, O1).
  assert (overs 0 (m1 ++ (EOver <$> os) ++ m2) = overs (length a) (EOver <$> os)) as Hovers
    by (by rewrite !overs_app, A4, B4, Nat.add_0_l, Hm1, app_nil_r).
  split_and!; [|by rewrite Hovers|done|by rewrite Hovers].
  constructor; [done| |exists ca, fbs; by rewrite !in_page_app, O2, app_nil_l, !fmap_app, A2, A3, B2, B3, take_drop|].
  - unfold as_ptr in *. by destruct (buffer (built t ops)).
  - apply (proj1 (Forall_fmap e_bytes (fun c => 4 <= lenZ c) _)). rewrite Hbytes. apply Forall_forall. intros c Hc.
    rewrite forallb_forall in Hmin. specialize (Hmin c (proj1 (list_elem_of_In _ _) Hc)). lia.
Qed.

(** Three table leaves, the second with a cell that did not fit. *)
Definition leaf_ops (r : Z) : list PageOp :=
  [PInsert 0 (demo_cell r 121) false; PInsert 1 (demo_cell (r + 1) 121) false; PInsert 2 (demo_cell (r + 2) 121) false].

Definition demo_leaves : list PageInner :=
  [built TableLeaf (leaf_ops 1); built TableLeaf (leaf_ops 10 ++ [PInsert 1 (demo_cell 9 127) false]);
   built TableLeaf (leaf_ops 20)].

Definition demo_leaf_cells : list bytes :=
  [demo_cell 1 121; demo_cell 2 121; demo_cell 3 121; demo_cell 10 121; demo_cell 9 127; demo_cell 11 121; demo_cell 12 121;
   demo_cell 20 121; demo_cell 21 121; demo_cell 22 121].

Lemma demo_leaves_balanceable : exists l,
  balanceable 512 TableLeaf demo_leaves [] (replicate 2 blank_page) l /\ all_cells l = demo_leaf_cells.
Proof.
  destruct (built_holds TableLeaf (leaf_ops 1) [demo_cell 1 121; demo_cell 2 121; demo_cell 3 121] [] []) as (m1 & H1 & O1 & B1 & L1);
    [vm_compute; reflexivity..|].
  destruct (built_holds TableLeaf (leaf_ops 10 ++ [PInsert 1 (demo_cell 9 127) false]) [demo_cell 10 121] [demo_cell 9 127]
    [demo_cell 11 121; demo_cell 12 121]) as (m2 & H2 & O2 & B2 & L2); [vm_compute; reflexivity..|].
  destruct (built_holds TableLeaf (leaf_ops 20) [demo_cell 20 121; demo_cell 21 121; demo_cell 22 121] [] []) as (m3 & H3 & O3 & B3 & L3);
    [vm_compute; reflexivity..|].
  exists [(m1, None); (m2, None); (m3, None)].
  assert (all_cells [(m1, None); (m2, None); (m3, None)] = demo_leaf_cells) as Hc by (cbn [all_cells]; by rewrite B1, B2, B3).
  split; [|done]. constructor; rewrite ?Hc.
  - cbn [siblings_are demo_leaves]. split_and!; auto.
  - cbn. lia.
  - done.
  - repeat apply Forall_cons_2; [..|apply Forall_nil_2]; apply is_cell_check; vm_compute; reflexivity.
  - repeat apply Forall_cons_2; [..|apply Forall_nil_2]; vm_compute; discriminate.
  - right. by intros E.
  - cbn [over_count foldr fst]. rewrite L1, L2, L3. vm_compute. repeat constructor.
  - split; [cbn; lia|]. repeat constructor; apply blank_fresh.
Qed.

(** Two interior pages and the divider between them. *)
Definition interior_cell (child r : Z) : bytes := [0; 0; 0; child; r].

Definition demo_interior : list PageInner :=
  [built TableInterior [PInsert 0 (interior_cell 3 10) false; PInsert 1 (interior_cell 4 20) false];
   built TableInterior [PInsert 0 (interior_cell 6 40) false]].

Lemma demo_interior_balanceable : exists l,
  balanceable 512 TableInterior demo_interior [interior_cell 8 30] (replicate 3 blank_page) l /\
  all_cells l = [interior_cell 3 10; interior_cell 4 20; interior_cell 0 30; interior_cell 6 40].
Proof.
  destruct (built_holds TableInterior [PInsert 0 (interior_cell 3 10) false; PInsert 1 (interior_cell 4 20) false]
    [interior_cell 3 10; interior_cell 4 20] [] []) as (m1 & H1 & O1 & B1 & L1); [vm_compute; reflexivity..|].
  destruct (built_holds TableInterior [PInsert 0 (interior_cell 6 40) false] [interior_cell 6 40] [] [])
    as (m2 & H2 & O2 & B2 & L2); [vm_compute; reflexivity..|].
  exists [(m1, Some (interior_cell 0 30)); (m2, None)].
  assert (all_cells [(m1, Some (interior_cell 0 30)); (m2, None)] =
    [interior_cell 3 10; interior_cell 4 20; interior_cell 0 30; interior_cell 6 40]) as Hc by (cbn [all_cells]; by rewrite B1, B2).
  split; [|done]. constructor; rewrite ?Hc.
  - cbn [siblings_are demo_interior]. split_and!; auto. exists (interior_cell 8 30). split; [done|]. vm_compute. reflexivity.
  - cbn. lia.
  - done.
  - repeat apply Forall_cons_2; [..|apply Forall_nil_2]; apply is_cell_check; vm_compute; reflexivity.
  - repeat apply Forall_cons_2; [..|apply Forall_nil_2]; vm_compute; discriminate.
  - right. by intros E.
  - cbn [over_count foldr fst]. rewrite L1, L2. vm_compute. repeat constructor.
  - split; [cbn; lia|]. repeat constructor; apply blank_fresh.
Qed.

Lemma balance_preserves_cells_witness :
  (exists pages' cell_array new,
     balance_siblings 512 demo_leaves [] (replicate 2 blank_page) = Ok (pages', cell_array, lenZ new) /\
     joined new = demo_leaf_cells) /\
  (exists pages' cell_array new,
     balance_siblings 512 demo_interior [interior_cell 8 30] (replicate 3 blank_page) = Ok (pages', cell_array, lenZ new) /\
     joined new = [interior_cell 3 10; interior_cell 4 20; interior_cell 0 30; interior_cell 6 40]).
Proof.
  split.
  - destruct demo_leaves_balanceable as (l & HB & Hc).
    destruct (balance_preserves_cells 512 TableLeaf demo_leaves [] (replicate 2 blank_page) l dims_0_512 HB)
      as (pages' & cell_array & new & H1 & _ & H3 & _).
    exists pages', cell_array, new. split; [exact H1|]. rewrite H3. exact Hc.
  - destruct demo_interior_balanceable as (l & HB & Hc).
    destruct (balance_preserves_cells 512 TableInterior demo_interior [interior_cell 8 30] (replicate 3 blank_page) l dims_0_512 HB)
      as (pages' & cell_array & new & H1 & _ & H3 & _).
    exists pages', cell_array, new. split; [exact H1|]. rewrite H3. exact Hc.
Defined.

(** ** Wide cells on large interior pages *)

(** Index interior cells of 4088, 2046 and 4097 bytes; on pages of 16384 bytes
    no index cell takes more than the last. *)
Definition wide_cell (child : Z) (size : list Z) (n : Z) : bytes := [0; 0; 0; child] ++ size ++ replicate (Z.to_nat n) 7.
Definition wide_cells : list bytes :=
  [wide_cell 3 [159; 114] 4082; wide_cell 4 [143; 120] 2040; wide_cell 5 [129; 159; 114] 4090; wide_cell 6 [129; 159; 114] 4090].

Definition wide_page (ops : list PageOp) : PageInner :=
  match p ← btree_init_page (mkPage 0 2 0 0 0 (Some (replicate (Z.to_nat 16384) 0)) []) IndexInterior 16384; prun 16384 ops p with
  | Ok p => p
  | _ => page_unloaded 2
  end.

(** Three siblings with one, no and one cell. *)
Definition wide_ops : list (list PageOp) :=
  [[PInsert 0 (wide_cell 3 [159; 114] 4082) false]; []; [PInsert 0 (wide_cell 6 [129; 159; 114] 4090) false]].

Definition wide_dividers : list bytes := [wide_cell 4 [143; 120] 2040; wide_cell 5 [129; 159; 114] 4090].

(** Whether there are several pages and the last of them has no cell. *)
Definition last_is_empty (r : Result (list PageInner * CellArray * Z)) : bool :=
  match r with
  | Ok (pages, _, k) =>
      match p ← unwrap (pages !! Z.to_nat (k - 1)); cell_count 0 (as_ptr p) with Ok n => (1 <? k) && (n =? 0) | _ => false end
  | _ => false
  end.

(** The last of several pages has no cell: all that is left after the page
    before it is the divider. *)
Definition last_page_empty (d : dist) : bool :=
  match idx (ds_cum d) (ds_count d - 2), idx (ds_cum d) (ds_count d - 1) with
  | Ok a, Ok b => (1 <? ds_count d) && (a + 1 =? b)
  | _, _ => false
  end.

(** The recorded sizes of the last two pages and the two cells around the end of
    the first of them make step 5 stop before it moves a cell. *)
Definition sizes_balanced (ps : list cellref) (d : dist) : bool :=
  match
    size_right ← idx (ds_sizes d) (ds_count d - 1);
    size_left ← idx (ds_sizes d) (ds_count d - 2);
    n ← idx (ds_cum d) (ds_count d - 2);
    cell_left ← cell_size_bytes ps (n - 1);
    cell_right ← cell_size_bytes ps n;
    Ok (negb (size_right =? 0) && (size_left - cell_left <? size_right + cell_right + 2))
  with
  | Ok b => b
  | _ => false
  end.

Lemma spread_loop_le ps fuel is_last : forall e cl cr sr sl e' sr' sl',
  spread_loop ps fuel is_last e cl cr sr sl = Ok (e', sr', sl') -> cl < e -> e' <= e.
Proof.
  induction fuel as [|fuel IH]; intros e cl cr sr sl e' sr' sl' H Hlt; [done|]. cbn [spread_loop] in H. steps_of H;
    [lia|lia|apply IH in H; lia].
Qed.

(** The step for the last page. *)
Lemma spread_last ps d d' (j : nat) a b :
  ds_count d = Z.of_nat (S (S j)) -> idx (ds_cum d) (Z.of_nat j) = Ok a -> idx (ds_cum d) (Z.of_nat (S j)) = Ok b -> a + 1 = b ->
  spread_page false ps (Z.of_nat (S j)) d = Ok d' ->
  ds_count d' = ds_count d /\ idx (ds_cum d') (Z.of_nat (S j)) = Ok b /\
  exists a', idx (ds_cum d') (Z.of_nat j) = Ok a' /\ (a' + 1 =? b) = sizes_balanced ps d.
Proof.
  intros Hk Ha Hb Hab H. unfold spread_page in H. unfold sizes_balanced. rewrite Hk in *.
  replace (Z.of_nat (S j) - 1) with (Z.of_nat j) in H by lia.
  replace (Z.of_nat (S (S j)) - 1) with (Z.of_nat (S j)) in * by lia. replace (Z.of_nat (S (S j)) - 2) with (Z.of_nat j) in * by lia.
  apply bind_Ok in H as (sr & Hsr & H). apply bind_Ok in H as (sl & Hsl & H). apply bind_Ok in H as (a1 & Ha1 & H).
  rewrite Ha in Ha1. injection Ha1 as <-. apply bind_Ok in H as (cl & Hcl & H).
  apply bind_Ok in H as ([[e' sr'] sl'] & Hloop & H). rewrite Z.eqb_refl in Hloop.
  rewrite Hsr, Hsl, Ha. cbn [mbind Result_bind]. unfold checked_sub in Hcl. destruct (1 <=? a); [injection Hcl as <-|done].
  cbn [spread_loop] in Hloop. apply bind_Ok in Hloop as (zl & Hzl & Hloop). apply bind_Ok in Hloop as (zr & Hzr & Hloop).
  replace (a - 1 + 1) with a in * by lia. rewrite Hzl, Hzr. cbn [mbind Result_bind].
  apply bind_Ok in H as (cum & Hcum & H). apply set_idx_Ok in Hcum as [Hr ->]. rewrite Nat2Z.id in H.
  assert (d' = mkDist (ds_sizes d') (<[j := e']> (ds_cum d)) (Z.of_nat (S (S j)))) as -> by (steps_of H; done).
  cbn [ds_count ds_cum]. unfold lenZ in Hr. split_and!; [done| |exists e'; split].
  - unfold idx in *. rewrite getZ_of_nat in *. by rewrite list_lookup_insert_ne by lia.
  - apply idx_lookup. apply list_lookup_insert_eq. lia.
  - change CELL_PTR_SIZE_BYTES with 2 in Hloop. rewrite Z.add_0_r in Hloop.
    destruct (negb (sr =? 0) && _); [simplify_eq; apply Z.eqb_refl|]. apply Z.eqb_neq.
    destruct (a - 1 =? 0); [simplify_eq; lia|]. apply bind_Ok in Hloop as (cr & _ & Hloop). apply spread_loop_le in Hloop; lia.
Qed.

(** The later steps leave the last two pages alone but for the start of the
    first. *)
Lemma spread_keeps ps (j : nat) : forall i d d',
  (i <= j)%nat -> spread false ps i d = Ok d' ->
  ds_count d' = ds_count d /\ forall j', (j <= j')%nat -> ds_cum d' !! j' = ds_cum d !! j'.
Proof.
  induction i as [|i IH]; intros d d' Hi H; cbn [spread] in H; [by simplify_eq|].
  apply bind_Ok in H as (d1 & H1 & H). apply IH in H as [Hk Hc]; [|lia]. rewrite Hk.
  assert (exists sizes v, d1 = mkDist sizes (<[i := v]> (ds_cum d)) (ds_count d)) as (sizes & v & ->).
  { unfold spread_page in H1. replace (Z.of_nat (S i) - 1) with (Z.of_nat i) in H1 by lia.
    apply bind_Ok in H1 as (? & _ & H1). apply bind_Ok in H1 as (? & _ & H1). apply bind_Ok in H1 as (? & _ & H1).
    apply bind_Ok in H1 as (? & _ & H1). apply bind_Ok in H1 as ([[e' ?] ?] & _ & H1).
    apply bind_Ok in H1 as (cum & Hcum & H1). apply set_idx_Ok in Hcum as [_ ->]. rewrite Nat2Z.id in H1. steps_of H1; by eexists _, e'. }
  split; [done|]. intros j' Hj. rewrite Hc by done. cbn. by rewrite list_lookup_insert_ne by lia.
Qed.

(** C26: step 5 moves cells to a last page that step 4 left without cells only by
    the sizes that are recorded for the pages.  Whatever the cells are, on pages
    other than table leaves the page stays without cells exactly when its size is not
    zero and the page before it, without its last cell, is smaller than the last
    page with the cell that would move to it.  Step 3 counts the divider after an
    old page as part of its size, so the size of a page without cells can be
    different from zero; the interior index pages of the witness are balanced to
    such a last page. *)
Theorem last_sibling_stays_empty ps cap d0 d d' :
  pack_loop false ps cap 6 0 d0 = Ok d -> last_page_empty d = true -> redistribute false ps cap d0 = Ok d' ->
  ds_count d' = ds_count d /\ last_page_empty d' = sizes_balanced ps d.
Proof.
  intros Hpack He H. unfold redistribute in H. rewrite Hpack in H. cbn [mbind Result_bind] in H. unfold last_page_empty in *.
  destruct (idx (ds_cum d) (ds_count d - 2)) as [a| |] eqn:Ha; try done. destruct (idx (ds_cum d) (ds_count d - 1)) as [b| |] eqn:Hb; try done.
  apply andb_true_iff in He as [Hk%Z.ltb_lt Hab%Z.eqb_eq].
  destruct (Z.to_nat (ds_count d - 1)) as [|j] eqn:Ej; [lia|]. assert (ds_count d = Z.of_nat (S (S j))) as Ek by lia.
  replace (ds_count d - 1) with (Z.of_nat (S j)) in * by lia. replace (ds_count d - 2) with (Z.of_nat j) in * by lia.
  cbn [spread] in H. apply bind_Ok in H as (d1 & H1 & H).
  destruct (spread_last ps d d1 j a b Ek Ha Hb Hab H1) as (Hk1 & Hb1 & a1 & Ha1 & Hc).
  destruct (spread_keeps ps j j d1 d' ltac:(lia) H) as [Hk' Hcum]. rewrite Hk', Hk1, Ek. split; [done|].
  replace (Z.of_nat (S (S j)) - 1) with (Z.of_nat (S j)) by lia. replace (Z.of_nat (S (S j)) - 2) with (Z.of_nat j) by lia.
  unfold idx in *. rewrite !getZ_of_nat in *. rewrite !Hcum by lia. rewrite Ha1, Hb1, Hc.
  rewrite (proj2 (Z.ltb_lt _ _)) by lia. done.
Qed.

(** Three interior index pages of 16384 bytes: the steps of their balancing. *)
Definition wide_gathered : list cellref * list Z :=
  match gather 16384 (wide_page <$> wide_ops) wide_dividers false false with Ok x => x | _ => ([], []) end.
Definition wide_sizes : dist :=
  match page_sizes 16384 (wide_page <$> wide_ops) false 16372 (fst wide_gathered) (snd wide_gathered) with Ok d => d | _ => mkDist [] [] 0 end.

Lemma last_sibling_stays_empty_witness : exists d d',
  Forall (is_cell 16384 IndexInterior) wide_cells /\
  Forall (fun ops => valid_run 0 16384 IndexInterior ops (mkAPage [] [])) wide_ops /\
  pack_loop false (fst wide_gathered) 16372 6 0 wide_sizes = Ok d /\ redistribute false (fst wide_gathered) 16372 wide_sizes = Ok d' /\
  last_page_empty d' = true /\ last_is_empty (balance_siblings 16384 (wide_page <$> wide_ops) wide_dividers []) = true.
Proof.
  assert (pack_loop false (fst wide_gathered) 16372 6 0 wide_sizes = Ok (mkDist [12283; 4097; 0; 0; 0] [3; 4; 4; 0; 0] 2)) as H1
    by (vm_compute; reflexivity).
  assert (redistribute false (fst wide_gathered) 16372 wide_sizes = Ok (mkDist [12283; 4097; 0; 0; 0] [3; 4; 4; 0; 0] 2)) as H2
    by (vm_compute; reflexivity).
  eexists _, _. split_and!; [..|exact H1|exact H2| |vm_compute; reflexivity].
  - repeat apply Forall_cons_2; [..|apply Forall_nil_2]; apply is_cell_check; vm_compute; reflexivity.
  - repeat apply Forall_cons_2; [..|apply Forall_nil_2]; apply valid_runb_ok; vm_compute; reflexivity.
  - rewrite (proj2 (last_sibling_stays_empty _ _ _ _ _ H1 ltac:(vm_compute; reflexivity) H2)). vm_compute. reflexivity.
Defined.
