(* ===== verification/BtreeParent.v ===== *)
(** * BtreeParent: the parent page of the siblings that are balanced

    Models what [balance_non_root] of core/storage/btree.rs does with the parent:
    the choice of the siblings around a page (state [NonRootPickSiblings]), the
    removal of the dividers between them (step 1), and after the new distribution
    is known the page numbers, the pointer to the last sibling and the new
    dividers (step 6).  A divider that does not fit is an overflow cell of the
    parent; a parent may already have one, when a cell was replaced by a longer
    one.  The reads of the siblings are answered by the pages with these numbers. *)

From S2P Require Import Prelude Varint OnDisk Page BtreePage BtreeSpace BtreeCells BtreeDefrag BtreeInsert BtreeRefine.
From S2P Require Import BtreePayload BtreeBalance BtreeDistribute BtreeFree BtreeBulk BtreeEdit BtreeSiblings BtreeGather BtreeRedist.

(** ** The code *)

(** [BalanceInfo]: the siblings by page number; the pointer to the last sibling
    is the offset of its four bytes in the parent. *)
Record BalanceInfo := mkBalanceInfo {
  pages_to_balance : list Z;
  bi_rightmost_pointer : Z;
  sibling_count : Z;
  first_divider_cell : Z
}.

Section code.
Context (usable_space : Z).

(** [(sibling_pointer, first_cell_divider)] *)
Definition choose_siblings (number_of_cells_in_parent page_to_balance_idx : Z) : Z * Z :=
  if number_of_cells_in_parent <? 2 then (number_of_cells_in_parent, 0)
  else if number_of_cells_in_parent =? 2 then (2, 0)
  else
    (2, if page_to_balance_idx =? 0 then 0
        else if page_to_balance_idx =? number_of_cells_in_parent then number_of_cells_in_parent - 2
        else page_to_balance_idx - 1).

Definition is_index_interior (p : PageInner) : bool :=
  match page_type (header_offset p) (as_ptr p) with Ok IndexInterior => true | _ => false end.

(** The offset of the pointer to the last sibling. *)
Definition last_pointer (p : PageInner) (t : PageType) (sibling_pointer first_cell_divider : Z) : Result Z :=
  count ← cell_count (header_offset p) (as_ptr p);
  let over := lenZ (overflow_cells p) in
  actual_cell_idx ← checked_sub (sibling_pointer + first_cell_divider) over;
  if actual_cell_idx =? count then
    match t with
    | IndexInterior | TableInterior => Ok (header_offset p + BTREE_RIGHTMOST_PTR)
    | IndexLeaf | TableLeaf => Panic
    end
  else
    _ ← turso_assert (over <=? if bool_decide (t = IndexInterior) then 1 else 0);
    cell_get_raw_start_offset (header_offset p) (as_ptr p) actual_cell_idx.

Definition left_child_page (p : PageInner) (i : Z) : Result Z :=
  c ← cell_get (header_offset p) (as_ptr p) i usable_space;
  match c with
  | TableInteriorCell left_child_page _ | IndexInteriorCell left_child_page _ _ _ => Ok left_child_page
  | _ => Err Corrupt
  end.

(** The child of divider [next_cell_divider]. *)
Definition divider_page (p : PageInner) (next_cell_divider : Z) : Result Z :=
  match head (overflow_cells p) with
  | Some overflow_cell =>
      if oc_index overflow_cell =? next_cell_divider then
        _ ← turso_assert (is_index_interior p);
        _ ← turso_assert (lenZ (overflow_cells p) =? 1);
        pgno ← slice (oc_payload overflow_cell) 0 4;
        Ok (be_combine pgno)
      else left_child_page p (if next_cell_divider <? oc_index overflow_cell then next_cell_divider else next_cell_divider - 1)
  | None => left_child_page p next_cell_divider
  end.

(** The siblings from the last one, number [i], to the first. *)
Fixpoint load_siblings (p : PageInner) (first_cell_divider : Z) (i : nat) (pgno : Z) (pages : list Z) : Result (list Z) :=
  match i with
  | O => Ok (pgno :: pages)
  | S i' =>
      next_pgno ← divider_page p (Z.of_nat i + first_cell_divider - 1);
      load_siblings p first_cell_divider i' next_pgno (pgno :: pages)
  end.

(** The checks on the overflow cell of the parent. *)
Definition check_overflow (p : PageInner) (t : PageType) (current_cell_index : Z) : Result unit :=
  match overflow_cells p with
  | [] => Ok tt
  | overflow_cell :: _ =>
      _ ← turso_assert (bool_decide (t = IndexInterior) && (lenZ (overflow_cells p) =? 1));
      turso_assert (oc_index overflow_cell =? current_cell_index)
  end.

(** State [NonRootPickSiblings]: the index in the parent and the siblings. *)
Definition pick_siblings (p : PageInner) (current_cell_index : Z) : Result (Z * BalanceInfo) :=
  t ← page_type (header_offset p) (as_ptr p);
  count ← cell_count (header_offset p) (as_ptr p);
  _ ← turso_assert (bool_decide (t = IndexInterior \/ t = TableInterior));
  let number_of_cells_in_parent := count + lenZ (overflow_cells p) in
  let past_rightmost_pointer := current_cell_index =? number_of_cells_in_parent + 1 in
  let page_to_balance_idx := if past_rightmost_pointer then current_cell_index - 1 else current_cell_index in
  _ ← (if negb past_rightmost_pointer then check_overflow p t current_cell_index else Ok tt);
  _ ← turso_assert (page_to_balance_idx <=? count);
  let '(sibling_pointer, first_cell_divider) := choose_siblings number_of_cells_in_parent page_to_balance_idx in
  right_pointer ← last_pointer p t sibling_pointer first_cell_divider;
  pgno ← slice (as_ptr p) right_pointer (right_pointer + 4);
  pages ← load_siblings p first_cell_divider (Z.to_nat sibling_pointer) (be_combine pgno) [];
  Ok (page_to_balance_idx, mkBalanceInfo pages right_pointer (sibling_pointer + 1) first_cell_divider).

(** Step 1 on the parent: divider [cell_idx] is copied and removed. *)
Definition take_divider (p : PageInner) (t : PageType) (cell_idx : Z) : Result (PageInner * bytes) :=
  let overflow_divider :=
    match head (overflow_cells p) with
    | Some o => if oc_index o =? cell_idx then Some (oc_payload o) else None
    | None => None
    end in
  match overflow_divider with
  | Some payload =>
      _ ← turso_assert (is_index_interior p);
      _ ← turso_assert (lenZ (overflow_cells p) =? 1);
      Ok (set_overflow_cells p [], payload)
  | None =>
      actual_cell_idx ← checked_sub cell_idx (lenZ (overflow_cells p));
      count ← cell_count (header_offset p) (as_ptr p);
      '(cell_start, cell_len, _) ←
        cell_get_raw_region_faster (header_offset p) (as_ptr p) actual_cell_idx usable_space count
          (payload_overflow_threshold_max t usable_space) (payload_overflow_threshold_min t usable_space) t;
      cell ← slice (as_ptr p) cell_start (cell_start + cell_len);
      p ← page_drop_cell p actual_cell_idx usable_space;
      Ok (p, cell)
  end.

(** The dividers from number [n - 1] down to the first. *)
Fixpoint take_dividers (p : PageInner) (t : PageType) (first_divider_cell : Z) (n : nat) (dividers : list bytes)
    : Result (PageInner * list bytes) :=
  match n with
  | O => Ok (p, dividers)
  | S n =>
      '(p, cell) ← take_divider p t (first_divider_cell + Z.of_nat n);
      take_dividers p t first_divider_cell n (cell :: dividers)
  end.

(** The page numbers in increasing order. *)
Fixpoint insert_sorted (x : Z) (l : list Z) : list Z :=
  match l with [] => [x] | y :: l' => if x <=? y then x :: l else y :: insert_sorted x l' end.
Definition sort_numbers (l : list Z) : list Z := foldr insert_sorted [] l.

Definition renumber (p : PageInner) (new_id : Z) : PageInner := if new_id =? pg_id p then p else set_id p new_id.

(** The first [sibling_count_new] pages get the page numbers in order. *)
Definition reassign_numbers (sibling_count_new : nat) (pages : list PageInner) : list PageInner :=
  let ids := sort_numbers (pg_id <$> take sibling_count_new pages) in
  zip_with renumber (take sibling_count_new pages) ids ++ drop sibling_count_new pages.

(** The pointer to the last sibling is written at its place. *)
Definition write_last_pointer (p : PageInner) (loc page_id : Z) : Result PageInner :=
  buf ← write_slice (as_ptr p) loc (be_split 4 (u32 page_id));
  Ok (set_buffer p buf).

(** The divider after page [page_id], before the pages are edited. *)
Definition new_divider (is_table_leaf is_leaf_page : bool) (cell_array : CellArray) (pages : list PageInner)
    (divider_cell_idx page_id : Z) : Result bytes :=
  r ← idx (cell_payloads cell_array) divider_cell_idx;
  divider_cell ← deref pages r;
  if negb is_leaf_page then
    rest ← slice_from divider_cell 4;
    Ok (be_split 4 (u32 page_id) ++ rest)
  else if is_table_leaf then
    previous ← checked_sub divider_cell_idx 1;
    r ← idx (cell_payloads cell_array) previous;
    divider_cell ← deref pages r;
    '(_, n_bytes_payload) ← read_varint divider_cell;
    rest ← slice_from divider_cell n_bytes_payload;
    '(rowid, _) ← read_varint rest;
    write_varint_to_vec rowid (be_split 4 (u32 page_id))
  else
    '(payload_len, n_payload) ← read_varint divider_cell;
    let real_len := n_payload + payload_len in
    divider_cell ←
      (if real_len <? lenZ divider_cell then
         _ ← turso_assert (real_len <? MINIMUM_CELL_SIZE);
         slice divider_cell 0 real_len
       else Ok divider_cell);
    Ok (be_split 4 (u32 page_id) ++ divider_cell).

(** Step 6 for the pages before the last, from page [j] on: right pointer and divider. *)
Fixpoint insert_dividers (n j : nat) (is_table_leaf is_leaf_page : bool) (database_size first_divider_cell : Z)
    (cell_array : CellArray) (pages : list PageInner) (parent : PageInner) : Result (list PageInner * PageInner) :=
  match n with
  | O => Ok (pages, parent)
  | S n =>
      page ← unwrap (pages !! j);
      divider_cell_idx ← cell_count_up_to_page cell_array (Z.of_nat j);
      r ← idx (cell_payloads cell_array) divider_cell_idx;
      divider_cell ← deref pages r;
      divided ←
        (if negb is_leaf_page then
           pointer ← slice divider_cell 0 4;
           set_right_pointer pages j (be_combine pointer)
         else Ok pages);
      divider ← new_divider is_table_leaf is_leaf_page cell_array divided divider_cell_idx (pg_id page);
      left_pointer ← slice divider 0 LEFT_CHILD_PTR_SIZE_BYTES;
      _ ← turso_assert (negb (be_combine left_pointer =? u32 (pg_id parent)));
      _ ← turso_assert (be_combine left_pointer =? u32 (pg_id page));
      _ ← turso_assert (be_combine left_pointer <=? database_size);
      parent ← insert_into_cell parent divider (first_divider_cell + Z.of_nat j) usable_space;
      insert_dividers n (S j) is_table_leaf is_leaf_page database_size first_divider_cell cell_array divided parent
  end.
End code.

(** ** Reading the parent *)

Section parent.
Context (base usable : Z) (t : PageType) (Hdims : dims base usable) (Ht : t = IndexInterior \/ t = TableInterior).

Lemma varint_at_bounds buf k v n : bytes_ok buf -> read_varint_at buf k = Ok (v, n) -> 1 <= n /\ 0 <= v.
Proof.
  intros Hb. unfold read_varint_at, slice_from_or_corrupt. case_match; [|done]. cbn [mbind Result_bind].
  rewrite read_varint_eq, ok_or_Ok by (by apply Forall_drop). intros (? & ? & Hv)%varint_spec_bounds; [unfold is_u64 in Hv; lia|].
  by apply Forall_drop.
Qed.

(** What the length of an interior cell says. *)
Lemma interior_parts c :
  is_cell usable t c -> exists v n, read_varint_at c 4 = Ok (v, n) /\ 1 <= n /\ 0 <= v /\ 5 <= lenZ c /\
    (t = IndexInterior -> lenZ c = 4 + n + match payload_overflows v (max_local usable t) (min_local usable t) usable with Some l => l | None => v end) /\
    (t = TableInterior -> lenZ c = 4 + n).
Proof.
  intros [Hc (o & Ho)]. unfold raw_cell_len in Ho. change (0 + 4) with 4 in Ho.
  destruct (read_varint_at c 4) as [[v n]| |] eqn:E; [|by destruct Ht as [-> | ->]..].
  destruct (varint_at_bounds _ _ _ _ Hc E) as [Hn Hv]. exists v, n. unfold region_size in Ho. cbn [mbind Result_bind] in Ho.
  assert (forall l, payload_overflows v (max_local usable t) (min_local usable t) usable = Some l -> 4 <= l) as Hl.
  { intros l Hl. destruct Hdims. by destruct (local_size usable ltac:(lia) t v l Hl Hv). }
  destruct Ht as [-> | ->].
  - destruct (payload_overflows v _ _ _) as [l|]; [specialize (Hl l eq_refl)|]; injection Ho as Ho _; split_and!; (done || lia).
  - injection Ho as Ho _. split_and!; (done || lia).
Qed.

Section read.
Context (p : PageInner) (ca : Z) (fbs : list block) (ptrs : list Z) (cells : list bytes).
Context (Hb : header_offset p = base) (HW : page_wf base usable t (as_ptr p) ca fbs ptrs cells).

Lemma pointer_of (i : nat) c : cells !! i = Some c -> exists q, ptrs !! i = Some q /\
  base + 12 <= q /\ q + lenZ c <= usable /\ sub (as_ptr p) q (lenZ c) = c /\ is_cell usable t c.
Proof.
  intros Hc. pose proof HW as [[_ Hpl _] HS]. unfold lenZ in Hpl. pose proof (so_lo _ _ _ _ _ _ _ HS) as Hlo.
  apply Nat2Z.inj in Hpl. destruct (lookup_lt_is_Some_2 ptrs i) as [q Hq]; [rewrite Hpl; by eapply lookup_lt_Some|]. exists q.
  destruct (cell_range _ _ _ _ _ _ _ _ _ _ _ HW Hq Hc) as (Hca & Hend & Hsub & Hcell). unfold region_size, lo_of in *.
  pose proof (lenZ_nonneg cells). assert (arr base t = base + 12) as Ha by (unfold arr; by destruct Ht as [-> | ->]).
  split_and!; [done|lia|lia|done|done].
Qed.

Lemma child_read (i : nat) c : cells !! i = Some c -> left_child_page usable p (Z.of_nat i) = Ok (child_ptr c).
Proof.
  intros Hc. destruct (pointer_of i c Hc) as (q & Hq & Hq0 & Hqe & Hsub & Hcell).
  destruct (interior_parts c Hcell) as (v & n & Hv & Hn & Hv0 & H5 & Hix & _).
  destruct (cell_get_ok base usable t Hdims _ _ _ _ _ HW i q c Hq Hc) as (pre & rest & Hbuf & Hpre & _ & Hget).
  rewrite <- Hbuf, <- Hpre in Hget. unfold left_child_page. rewrite Hb, Hget.
  pose proof (pw_space _ _ _ _ _ _ _ _ HW) as HS. pose proof (so_bytes _ _ _ _ _ _ _ HS) as Hok. pose proof (so_len _ _ _ _ _ _ _ HS) as Hlen.
  destruct Hcell as [Hcok _]. destruct Hdims as [Hb0 Hu].
  assert (read_varint_at (as_ptr p) (q + 4) = Ok (v, n)) as Hv' by (apply (read_varint_at_sub c); (done || lia)).
  assert (sub (as_ptr p) q 4 = sub c 0 4) as H4 by (rewrite <- Hsub, sub_sub by lia; by rewrite Z.add_0_r).
  unfold child_ptr. rewrite <- H4. unfold read_cell.
  destruct Ht as [-> | ->]; pass; rewrite slice_sub by lia; cbn [mbind Result_bind]; replace (q + 4 - q) with 4 by lia; rewrite Hv'; cbn [mbind Result_bind].
  2: done.
  assert (exists r, read_local (as_ptr p) (q + 4 + n) v (max_local usable IndexInterior) (min_local usable IndexInterior) usable = Ok r) as ([payload first] & Hl).
  { specialize (Hix eq_refl). unfold read_local. pose proof (fun l H => local_size usable ltac:(lia) IndexInterior v l H Hv0) as Hls.
    destruct (payload_overflows v _ _ _) as [l|]; cbn [mbind Result_bind].
    - destruct (Hls l eq_refl) as (? & ? & _). pass. rewrite slice_sub by lia. cbn [mbind Result_bind]. unfold read_payload. rewrite lenZ_sub by lia.
      decide_if false. pass. rewrite slice_sub by (rewrite ?lenZ_sub; lia). cbn [mbind Result_bind]. rewrite slice_sub by (rewrite ?lenZ_sub; lia). by eexists.
    - unfold checked_sub. decide_if true. cbn [mbind Result_bind]. pass. rewrite slice_sub by lia. cbn [mbind Result_bind]. unfold read_payload. rewrite lenZ_sub by lia.
      decide_if true. rewrite slice_sub by (rewrite ?lenZ_sub; lia). by eexists. }
  unfold max_local, min_local in Hl. rewrite Hl. done.
Qed.
End read.

(** ** The siblings around a page *)

(** The cells of the parent, the overflow cell at its place. *)
Definition logical (cells : list bytes) (over : option (nat * bytes)) : list bytes :=
  match over with Some (i, c) => insert_at i c cells | None => cells end.

Definition over_cells (over : option (nat * bytes)) : list OverflowCell :=
  match over with Some (i, c) => [mkOverflowCell (Z.of_nat i) c] | None => [] end.

(** The pages below the parent, from left to right. *)
Definition children (cells : list bytes) (right : Z) : list Z := (child_ptr <$> cells) ++ [right].

(** The index of a cell on the page. *)
Definition physical (over : option (nat * bytes)) (j : nat) : nat :=
  match over with Some (i, _) => if (j <? i)%nat then j else (j - 1)%nat | None => j end.

Lemma logical_lookup cells over j :
  match over with Some (i, _) => (i <= length cells)%nat | None => True end ->
  logical cells over !! j =
    match over with Some (i, c) => if (j =? i)%nat then Some c else cells !! physical over j | None => cells !! j end.
Proof.
  destruct over as [[i c]|]; [|done]. intros Hi. cbn [logical physical]. rewrite insert_at_lookup by done.
  destruct (Nat.ltb_spec j i), (Nat.eqb_spec j i); try lia; try done. f_equal. lia.
Qed.

Lemma logical_length cells over : length (logical cells over) = (length cells + length (over_cells over))%nat.
Proof.
  destruct over as [[i c]|]; cbn; [|lia]. unfold insert_at. rewrite length_app. cbn [length]. rewrite length_take, length_drop. lia.
Qed.

(** A parent page with at most one overflow cell. *)
Record parent_is (p : PageInner) (ca : Z) (fbs : list block) (ptrs : list Z) (cells : list bytes) (over : option (nat * bytes)) : Prop := mkParentIs {
  pa_base : header_offset p = base;
  pa_wf : page_wf base usable t (as_ptr p) ca fbs ptrs cells;
  pa_over : overflow_cells p = over_cells over;
  pa_cell : match over with Some (i, c) => (i <= length cells)%nat /\ is_cell usable t c /\ t = IndexInterior | None => True end
}.

Definition right_of (p : PageInner) : Z := be_combine (sub (as_ptr p) (base + 8) 4).

(** The siblings chosen for the page with index [q] of [n + 1]. *)
Lemma choose_ok (n q : nat) :
  (q <= n)%nat -> exists k first,
    choose_siblings (Z.of_nat n) (Z.of_nat q) = (Z.of_nat k, Z.of_nat first) /\
    k = Nat.min 2 n /\ (first <= q <= first + k)%nat /\ (first + k <= n)%nat /\ (q < n -> q < first + k)%nat.
Proof.
  intros Hq. unfold choose_siblings. destruct (Z.ltb_spec (Z.of_nat n) 2).
  { exists n, 0%nat. split_and!; (done || lia). }
  destruct (Z.eqb_spec (Z.of_nat n) 2) as [E|].
  { exists 2%nat, 0%nat. split_and!; (done || lia). }
  destruct (Z.eqb_spec (Z.of_nat q) 0); [exists 2%nat, 0%nat; split_and!; (done || lia)|].
  destruct (Z.eqb_spec (Z.of_nat q) (Z.of_nat n)).
  - exists 2%nat, (n - 2)%nat. split_and!; try lia. f_equal. lia.
  - exists 2%nat, (q - 1)%nat. split_and!; try lia. f_equal. lia.
Qed.

Section pick.
Context (p : PageInner) (ca : Z) (fbs : list block) (ptrs : list Z) (cells : list bytes) (over : option (nat * bytes)).
Context (HP : parent_is p ca fbs ptrs cells over).
#[local] Abbreviation L := (logical cells over).

Lemma pick_type : page_type base (as_ptr p) = Ok t /\ cell_count base (as_ptr p) = Ok (lenZ cells).
Proof.
  pose proof HP as [_ HW _ _]. pose proof HW as [[HA Hl _] HS]. pose proof (so_len _ _ _ _ _ _ _ HS). destruct Hdims. split.
  - by apply (page_type_ok base usable t Hdims _ ptrs); [|lia].
  - rewrite <- Hl. by apply (cell_count_ok base usable t Hdims _ ptrs); [|lia].
Qed.

Lemma divider_page_ok (j : nat) c : L !! j = Some c -> divider_page usable p (Z.of_nat j) = Ok (child_ptr c).
Proof.
  intros Hj. pose proof pick_type as [Hty _]. pose proof HP as [Hb HW Hov Hcell]. rewrite logical_lookup in Hj by (by destruct over as [[? ?]|]; [destruct Hcell|]).
  unfold divider_page. rewrite Hov. destruct over as [[i o]|]; cbn [over_cells head]; [|by eapply child_read].
  destruct Hcell as (Hi & [Hok Hlen] & Hti). cbn [oc_index oc_payload]. destruct (Nat.eqb_spec j i) as [->|Hne].
  - injection Hj as ->. rewrite Z.eqb_refl. unfold is_index_interior. rewrite Hb. rewrite Hty, Hti.
    destruct (interior_parts c (conj Hok Hlen)) as (_ & _ & _ & _ & _ & H5 & _). cbn [turso_assert mbind Result_bind].
    change (lenZ _ =? 1) with true. cbn [turso_assert mbind Result_bind]. by rewrite slice_sub by lia.
  - destruct (Z.eqb_spec (Z.of_nat i) (Z.of_nat j)); [lia|]. cbn [physical] in Hj.
    destruct (Nat.ltb_spec j i); destruct (Z.ltb_spec (Z.of_nat j) (Z.of_nat i)); try lia; [by eapply child_read|].
    replace (Z.of_nat j - 1) with (Z.of_nat (j - 1)) by lia. by eapply child_read.
Qed.

Lemma load_ok first : forall i pgno acc,
  (first + i <= length L)%nat ->
  load_siblings usable p (Z.of_nat first) i pgno acc = Ok ((child_ptr <$> take i (drop first L)) ++ pgno :: acc).
Proof.
  induction i as [|i IH]; intros pgno acc Hi; [done|]. cbn [load_siblings].
  destruct (lookup_lt_is_Some_2 L (first + i) ltac:(lia)) as [c Hc].
  replace (Z.of_nat (S i) + Z.of_nat first - 1) with (Z.of_nat (first + i)) by lia. rewrite (divider_page_ok _ c Hc). cbn [mbind Result_bind].
  rewrite IH by lia. assert (take (S i) (drop first L) = take i (drop first L) ++ [c]) as ->.
  { apply take_S_r. by rewrite lookup_drop. }
  rewrite fmap_app, <- app_assoc. done.
Qed.

(** Where the pointer to child [j] is on the page. *)
Definition pointer_at (j : nat) (loc : Z) : Prop :=
  if decide (j = length L) then loc = base + 8 else ptrs !! physical over j = Some loc.

Lemma pointer_reads (j : nat) loc :
  (j <= length L)%nat -> pointer_at j loc -> match over with Some (i, _) => j <> i | None => True end ->
  base + 8 <= loc /\ loc + 4 <= usable /\ children L (right_of p) !! j = Some (be_combine (sub (as_ptr p) loc 4)).
Proof.
  intros Hj Hloc Hne. pose proof HP as [Hb HW Hov Hcell]. destruct Hdims as [Hb0 Hu]. unfold pointer_at, children in *.
  destruct (decide (j = length L)) as [->|Hlt].
  - rewrite Hloc. split_and!; [lia|lia|]. rewrite lookup_app_r by (rewrite length_fmap; lia). by rewrite length_fmap, Nat.sub_diag.
  - destruct (lookup_lt_is_Some_2 L j ltac:(lia)) as [c Hc].
    rewrite lookup_app_l, list_lookup_fmap, Hc by (rewrite length_fmap; lia). cbn [fmap option_fmap option_map].
    rewrite logical_lookup in Hc by (by destruct over as [[? ?]|]; [destruct Hcell|]).
    assert (cells !! physical over j = Some c) as Hpc by (destruct over as [[i o]|]; [destruct (Nat.eqb_spec j i); [lia|done]|done]).
    destruct (pointer_of p ca fbs ptrs cells HW _ c Hpc) as (q & Hq & Hq0 & Hqe & Hsub & Hcl). rewrite Hloc in Hq. injection Hq as ->.
    destruct (interior_parts c Hcl) as (_ & _ & _ & _ & _ & H5 & _). split_and!; [lia|lia|]. f_equal. unfold child_ptr. f_equal.
    rewrite <- Hsub at 1. rewrite sub_sub by lia. by rewrite Z.add_0_r.
Qed.

Lemma last_pointer_ok (k first : nat) :
  (first + k <= length L)%nat -> match over with Some (i, _) => (i < first + k)%nat | None => True end ->
  exists loc, last_pointer p t (Z.of_nat k) (Z.of_nat first) = Ok loc /\ pointer_at (first + k) loc.
Proof.
  intros Hk Hi. pose proof HP as [Hb HW Hov Hcell]. pose proof pick_type as [Hty Hcnt]. pose proof (logical_length cells over) as HlL.
  unfold last_pointer, pointer_at. rewrite Hb, Hcnt, Hov. cbn [mbind Result_bind].
  assert (lenZ (over_cells over) = match over with Some _ => 1 | None => 0 end) as Hol by (by destruct over as [[? ?]|]).
  unfold checked_sub. rewrite Hol. pose proof HW as [[HA Hpl _] HS]. pose proof (so_len _ _ _ _ _ _ _ HS). pose proof (so_lo _ _ _ _ _ _ _ HS) as Hlo.
  destruct (Z.leb_spec (match over with Some _ => 1 | None => 0 end) (Z.of_nat k + Z.of_nat first)); [|destruct over as [[? ?]|]; lia].
  cbn [mbind Result_bind]. assert (lenZ cells = Z.of_nat (length L) - match over with Some _ => 1 | None => 0 end) as Hn.
  { unfold lenZ. rewrite HlL. destruct over as [[? ?]|]; cbn; lia. }
  destruct (decide ((first + k)%nat = length L)) as [E|E].
  - destruct (Z.eqb_spec (Z.of_nat k + Z.of_nat first - match over with Some _ => 1 | None => 0 end) (lenZ cells)); [|lia].
    destruct Ht as [-> | ->]; by eexists.
  - destruct (Z.eqb_spec (Z.of_nat k + Z.of_nat first - match over with Some _ => 1 | None => 0 end) (lenZ cells)); [lia|].
    assert ((match over with Some _ => 1 | None => 0 end <=? (if bool_decide (t = IndexInterior) then 1 else 0)) = true) as ->.
    { destruct over as [[? ?]|]; [destruct Hcell as (_ & _ & ->); done|]. by case_bool_decide. }
    cbn [turso_assert mbind Result_bind].
    assert (Z.of_nat k + Z.of_nat first - match over with Some _ => 1 | None => 0 end = Z.of_nat (physical over (first + k))) as ->.
    { destruct over as [[i c]|]; cbn [physical]; [destruct (Nat.ltb_spec (first + k) i); lia|lia]. }
    assert (physical over (first + k) < length cells)%nat as Hph.
    { destruct over as [[i c]|]; cbn [physical length over_cells] in *; [destruct (Nat.ltb_spec (first + k) i); lia|lia]. }
    destruct (lookup_lt_is_Some_2 ptrs (physical over (first + k))) as [loc Hq]; [unfold lenZ in Hpl; apply Nat2Z.inj in Hpl; by rewrite Hpl|].
    exists loc. split; [|done]. unfold lo_of in Hlo. rewrite <- Hpl in Hlo. by apply (raw_start_ok base usable t Hdims _ ptrs); [|lia|].
Qed.

(** The index of the page to balance is that of the cursor; past the last cell
    it is the right pointer. *)
Definition at_page (q : nat) (current_cell_index : Z) : Prop :=
  (q <= length L)%nat /\
  (current_cell_index = Z.of_nat q /\ match over with Some (i, _) => i = q | None => True end \/
   current_cell_index = Z.of_nat (length L) + 1 /\ q = length L /\ over = None).

Record picked (q k first : nat) (loc : Z) : Prop := mkPicked {
  pk_choice : choose_siblings (Z.of_nat (length L)) (Z.of_nat q) = (Z.of_nat k, Z.of_nat first);
  pk_count : k = Nat.min 2 (length L);
  pk_range : (first <= q <= first + k)%nat /\ (first + k <= length L)%nat;
  pk_over : match over with Some (i, _) => (first <= i < first + k)%nat | None => True end;
  pk_loc : pointer_at (first + k) loc
}.

Lemma pick_ok (q : nat) cci :
  at_page q cci -> exists k first loc,
    pick_siblings usable p cci =
      Ok (Z.of_nat q, mkBalanceInfo (take (S k) (drop first (children L (right_of p)))) loc (Z.of_nat (S k)) (Z.of_nat first)) /\
    picked q k first loc.
Proof.
  intros [Hq Hcci]. pose proof HP as [Hb HW Hov Hcell]. pose proof pick_type as [Hty Hcnt]. pose proof (logical_length cells over) as HlL.
  destruct (choose_ok (length L) q Hq) as (k & first & Hch & Hk & Hf & Hfk & Hlast).
  assert (match over with Some (i, _) => i = q /\ (q < length L)%nat | None => True end) as Hov'.
  { destruct over as [[i c]|]; [|done]. cbn [over_cells length] in HlL. destruct Hcci as [[_ ->]|(_ & _ & ?)]; [|done]. destruct Hcell. split; [done|lia]. }
  destruct (last_pointer_ok k first Hfk) as (loc & Hloc & Hat); [destruct over as [[i c]|]; [|done]; destruct Hov' as [-> ?]; lia|].
  destruct (pointer_reads (first + k) loc Hfk Hat) as (Hl0 & Hle & Hchild); [destruct over as [[i c]|]; [|done]; destruct Hov' as [-> ?]; lia|].
  pose proof (so_len _ _ _ _ _ _ _ (pw_space _ _ _ _ _ _ _ _ HW)) as Hlen. destruct Hdims as [Hb0 Hu].
  exists k, first, loc. split; [|constructor; [done|done|lia|destruct over as [[i c]|]; [|done]; destruct Hov' as [-> ?]; lia|done]].
  unfold pick_siblings. rewrite Hb, Hty, Hcnt. cbn [mbind Result_bind]. rewrite bool_decide_eq_true_2 by done. cbn [turso_assert mbind Result_bind].
  assert (lenZ cells + lenZ (overflow_cells p) = Z.of_nat (length L)) as -> by (rewrite Hov; unfold lenZ; rewrite HlL; lia).
  assert ((if cci =? Z.of_nat (length L) + 1 then cci - 1 else cci) = Z.of_nat q) as -> by (destruct (Z.eqb_spec cci (Z.of_nat (length L) + 1)); lia).
  assert ((if negb (cci =? Z.of_nat (length L) + 1) then check_overflow p t cci else Ok ()) = Ok ()) as ->.
  { destruct (Z.eqb_spec cci (Z.of_nat (length L) + 1)); [done|]. unfold check_overflow. rewrite Hov. destruct over as [[i c]|]; [|done].
    destruct Hcell as (_ & _ & Hti). destruct Hov' as [-> _]. cbn [negb over_cells oc_index]. rewrite bool_decide_eq_true_2 by done.
    cbn [andb turso_assert mbind Result_bind]. change (lenZ _ =? 1) with true. cbn [turso_assert mbind Result_bind].
    destruct (Z.eqb_spec (Z.of_nat q) cci); [done|]. lia. }
  cbn [mbind Result_bind]. assert ((Z.of_nat q <=? lenZ cells) = true) as ->.
  { unfold lenZ. destruct over as [[i c]|]; cbn [over_cells length] in HlL; [destruct Hov' as [_ ?]|]; lia. }
  cbn [turso_assert mbind Result_bind]. rewrite Hch, Hloc. cbn [mbind Result_bind]. rewrite slice_sub by lia. cbn [mbind Result_bind].
  rewrite Nat2Z.id, load_ok by lia. cbn [mbind Result_bind]. replace (loc + 4 - loc) with 4 by lia. replace (Z.of_nat k + 1) with (Z.of_nat (S k)) by lia.
  assert (take (S k) (drop first (children L (right_of p))) =
    take k (drop first (children L (right_of p))) ++ [be_combine (sub (as_ptr p) loc 4)]) as ->.
  { apply take_S_r. by rewrite lookup_drop. }
  do 4 f_equal. unfold children. rewrite drop_app_le by (rewrite length_fmap; lia). rewrite take_app_le by (rewrite length_drop, length_fmap; lia).
  by rewrite fmap_take, fmap_drop.
Qed.
End pick.

(** ** Taking the dividers out of the parent *)

Lemma delete_insert_after {A} (i j : nat) (x : A) l :
  (i < j)%nat -> (j <= length l)%nat -> delete j (insert_at i x l) = insert_at i x (delete (j - 1)%nat l).
Proof.
  intros Hij Hj. apply list_eq. intros a. assert (length (delete (j - 1)%nat l) = length l - 1)%nat as Hld.
  { rewrite length_delete; [lia|]. apply lookup_lt_is_Some_2. lia. }
  rewrite delete_lookup, !insert_at_lookup, !delete_lookup by lia.
  destruct (Nat.ltb_spec a j); destruct (Nat.ltb_spec a i); try lia.
  - destruct (Nat.ltb_spec a (j - 1)); [done|lia].
  - destruct (Nat.eqb_spec a i); [done|]. destruct (Nat.ltb_spec (pred a) (j - 1)); [done|lia].
  - destruct (Nat.ltb_spec (S a) i); [lia|]. destruct (Nat.eqb_spec (S a) i); [lia|]. destruct (Nat.eqb_spec a i); [lia|].
    destruct (Nat.ltb_spec (pred a) (j - 1)); [lia|]. f_equal. lia.
Qed.

Lemma take_delete_le {A} (a b : nat) (l : list A) : (a <= b)%nat -> take a (delete b l) = take a l.
Proof.
  intros Hab. apply list_eq. intros i. destruct (Nat.ltb_spec i a); [|by rewrite !lookup_take_ge].
  rewrite !lookup_take_lt, delete_lookup by lia. by destruct (Nat.ltb_spec i b); [|lia].
Qed.

Lemma drop_delete_eq {A} (b : nat) (l : list A) : drop b (delete b l) = drop (S b) l.
Proof.
  apply list_eq. intros i. rewrite !lookup_drop, delete_lookup. destruct (Nat.ltb_spec (b + i) b); [lia|]. f_equal.
Qed.

Section take.
Context (p : PageInner) (ca : Z) (fbs : list block) (ptrs : list Z) (cells : list bytes) (over : option (nat * bytes)).
Context (HP : parent_is p ca fbs ptrs cells over) (j : nat) (c : bytes) (Hc : logical cells over !! j = Some c).
Context (Hi : match over with Some (i, _) => (i <= j)%nat | None => True end).
Context (J : nat) (loc : Z) (HJ : (j < J <= length (logical cells over))%nat) (Hloc : pointer_at ptrs cells over J loc).

(** The parent without divider [j]. *)
Definition divider_taken (p' : PageInner) : Prop := exists ca' fbs' ptrs' cells' over',
  parent_is p' ca' fbs' ptrs' cells' over' /\ logical cells' over' = delete j (logical cells over) /\
  pointer_at ptrs' cells' over' (J - 1) loc /\ (over' = None \/ over' = over /\ match over with Some (i, _) => (i < j)%nat | None => True end) /\
  outer base usable t (as_ptr p) (as_ptr p') /\ pg_id p' = pg_id p.

Lemma take_overflow i : over = Some (i, c) -> i = j -> exists p',
  take_divider usable p t (Z.of_nat j) = Ok (p', c) /\ divider_taken p'.
Proof.
  intros Eo ->. pose proof HP as [Hb HW Hov Hcell]. pose proof (pick_type p ca fbs ptrs cells over HP) as [Hty _]. unfold divider_taken.
  rewrite Eo in *. clear Eo. destruct Hcell as (Hl & Hcl & Hti). cbn [logical over_cells physical] in *.
  exists (set_overflow_cells p []). split.
  - unfold take_divider. rewrite Hov. cbn [head oc_index oc_payload]. rewrite Z.eqb_refl. unfold is_index_interior. by rewrite Hb, Hty, Hti.
  - exists ca, fbs, ptrs, cells, None. split_and!; [by constructor|cbn [logical]; by rewrite delete_insert_at| |by left|apply outer_refl|done].
    unfold pointer_at in *. cbn [logical physical] in *. pose proof (insert_at_lenZ j c cells) as Hlen. unfold lenZ in Hlen.
    destruct (decide (J = length (insert_at j c cells))) as [E|E]; destruct (decide ((J - 1)%nat = length cells)) as [E'|E']; try lia.
    by destruct (Nat.ltb_spec J j); [lia|].
Qed.

Lemma take_cell : match over with Some (i, _) => (i < j)%nat | None => True end -> exists p',
  take_divider usable p t (Z.of_nat j) = Ok (p', c) /\ divider_taken p'.
Proof.
  intros Hlt. pose proof HP as [Hb HW Hov Hcell]. destruct (pick_type p ca fbs ptrs cells over HP) as [_ Hcnt].
  rewrite logical_lookup in Hc by (by destruct over as [[? ?]|]; [destruct Hcell|]).
  assert (cells !! physical over j = Some c) as Hpc by (destruct over as [[i o]|]; [destruct (Nat.eqb_spec j i); [lia|done]|done]).
  destruct (pointer_of p ca fbs ptrs cells HW _ c Hpc) as (q & Hq & Hq0 & Hqe & Hsub & Hcl).
  destruct (interior_parts c Hcl) as (_ & _ & _ & _ & _ & H5 & _). pose proof (lookup_lt_Some _ _ _ Hpc) as Hpl.
  destruct (raw_region_ok base usable t Hdims _ _ _ _ _ _ _ _ HW Hq Hpc) as [o Hraw]. unfold region_size in Hraw. rewrite Z.max_r in Hraw by lia.
  destruct (drop_cell_ptrs base usable t Hdims _ _ _ _ _ (physical over j) HW Hpl) as (buf' & ca' & fbs' & Hdrop & HW' & Ho).
  pose proof (so_len _ _ _ _ _ _ _ (pw_space _ _ _ _ _ _ _ _ HW)). destruct Hdims as [Hb0 Hu].
  exists (set_buffer p buf'). split.
  - unfold take_divider. rewrite Hov. assert (match head (over_cells over) with Some o => if oc_index o =? Z.of_nat j then Some (oc_payload o) else None | None => None end = None) as ->.
    { destruct over as [[i o']|]; [|done]. cbn [over_cells head oc_index]. destruct (Z.eqb_spec (Z.of_nat i) (Z.of_nat j)); [lia|done]. }
    assert (checked_sub (Z.of_nat j) (lenZ (over_cells over)) = Ok (Z.of_nat (physical over j))) as ->.
    { destruct over as [[i o']|]; unfold checked_sub; cbn [over_cells physical].
      - change (lenZ [_]) with 1. destruct (Z.leb_spec 1 (Z.of_nat j)); [|lia]. f_equal. destruct (Nat.ltb_spec j i); lia.
      - change (lenZ []) with 0. destruct (Z.leb_spec 0 (Z.of_nat j)); [|lia]. f_equal. lia. }
    cbn [mbind Result_bind]. rewrite Hb, Hcnt. cbn [mbind Result_bind]. unfold max_local, min_local in Hraw. rewrite Hraw. cbn [mbind Result_bind].
    rewrite slice_sub by lia. replace (q + lenZ c - q) with (lenZ c) by lia. rewrite Hsub. cbn [mbind Result_bind].
    unfold page_drop_cell. rewrite Hb, Hdrop. done.
  - exists ca', fbs', (delete (physical over j) ptrs), (delete (physical over j) cells), over.
    assert (length (delete (physical over j) cells) = length cells - 1)%nat as Hld by (rewrite length_delete by eauto; lia).
    split_and!; [| | |by right|done|done].
    + constructor; [done|done|done|]. destruct over as [[i o']|]; [|done]. destruct Hcell as (? & ? & ?). split_and!; [|done|done].
      rewrite Hld. cbn [physical] in Hpl. destruct (Nat.ltb_spec j i); lia.
    + destruct over as [[i o']|]; [|done]. cbn [logical physical]. destruct (Nat.ltb_spec j i); [lia|]. rewrite delete_insert_after; [done|lia|].
      cbn [physical] in Hpl. destruct (Nat.ltb_spec j i); lia.
    + unfold pointer_at in *. rewrite !logical_length, Hld in *.
      destruct (decide (J = (length cells + length (over_cells over))%nat)); destruct (decide ((J - 1)%nat = (length cells - 1 + length (over_cells over))%nat)); try lia.
      rewrite delete_lookup. destruct over as [[i o']|]; cbn [physical] in *.
      * destruct (Nat.ltb_spec J i); [lia|]. destruct (Nat.ltb_spec (J - 1) i); [lia|]. destruct (Nat.ltb_spec j i); [lia|].
        destruct (Nat.ltb_spec (J - 1 - 1) (j - 1)); [lia|]. by replace (S (J - 1 - 1)) with (J - 1)%nat by lia.
      * destruct (Nat.ltb_spec (J - 1) j); [lia|]. by replace (S (J - 1)) with J by lia.
Qed.

Lemma divider_take_ok : exists p', take_divider usable p t (Z.of_nat j) = Ok (p', c) /\ divider_taken p'.
Proof.
  assert ((exists i, over = Some (i, c) /\ i = j) \/ match over with Some (i, _) => (i < j)%nat | None => True end) as [(i & Eo & Ei)|Hlt].
  { pose proof (pa_cell _ _ _ _ _ _ HP) as Hcell. pose proof (logical_lookup cells over j) as Hl. rewrite Hc in Hl.
    destruct over as [[i o]|]; [|by right]. destruct Hcell as [Hle _]. specialize (Hl Hle).
    destruct (Nat.eqb_spec j i) as [->|]; [|right; lia]. left. exists i. injection Hl as ->. done. }
  - by apply (take_overflow i).
  - by apply take_cell.
Qed.
End take.

Lemma take_loop first loc n : forall p ca fbs ptrs cells over acc,
  parent_is p ca fbs ptrs cells over -> (first + n <= length (logical cells over))%nat ->
  match over with Some (i, _) => (first <= i < first + n)%nat | None => True end -> pointer_at ptrs cells over (first + n) loc ->
  exists p' ca' fbs' ptrs',
    take_dividers usable p t (Z.of_nat first) n acc = Ok (p', take n (drop first (logical cells over)) ++ acc) /\
    parent_is p' ca' fbs' ptrs' (take first (logical cells over) ++ drop (first + n) (logical cells over)) None /\
    pointer_at ptrs' (take first (logical cells over) ++ drop (first + n) (logical cells over)) None first loc /\
    outer base usable t (as_ptr p) (as_ptr p') /\ pg_id p' = pg_id p.
Proof.
  induction n as [|n IH]; intros p ca fbs ptrs cells over acc HP Hn Hi Hloc.
  - assert (over = None) as -> by (destruct over as [[i o]|]; [lia|done]). rewrite Nat.add_0_r in *. cbn [logical] in *.
    exists p, ca, fbs, ptrs. rewrite take_drop. split_and!; [done|done|done|apply outer_refl|done].
  - cbn [take_dividers]. set (L := logical cells over) in *. destruct (lookup_lt_is_Some_2 L (first + n) ltac:(lia)) as [c Hc].
    replace (Z.of_nat first + Z.of_nat n) with (Z.of_nat (first + n)) by lia.
    destruct (divider_take_ok p ca fbs ptrs cells over HP (first + n) c Hc) with (J := (first + S n)%nat) (loc := loc)
      as (p1 & Htk & ca1 & fbs1 & ptrs1 & cells1 & over1 & HP1 & HL1 & Hloc1 & Hov1 & Ho1 & Hid1); [destruct over as [[? ?]|]; [lia|done]|fold L; lia|done|].
    fold L in HL1. rewrite Htk. cbn [mbind Result_bind].
    assert (length (logical cells1 over1) = length L - 1)%nat as Hl1 by (rewrite HL1, length_delete by eauto; lia).
    destruct (IH p1 ca1 fbs1 ptrs1 cells1 over1 (c :: acc) HP1) as (p' & ca' & fbs' & ptrs' & Hrun & HP' & Hloc' & Ho' & Hid'); [lia| |by replace (first + n)%nat with (first + S n - 1)%nat by lia|].
    { destruct Hov1 as [->|[-> Hlt]]; [done|]. destruct over as [[? ?]|]; [lia|done]. }
    rewrite HL1 in *. exists p', ca', fbs', ptrs'.
    rewrite take_delete_le, drop_delete_eq in HP', Hloc' by lia. replace (S (first + n)) with (first + S n)%nat in HP', Hloc' by lia.
    split_and!; [|done|done|by eapply outer_trans|congruence].
    rewrite Hrun. do 2 f_equal. assert (take (S n) (drop first L) = take n (drop first L) ++ [c]) as -> by (apply take_S_r; by rewrite lookup_drop).
    rewrite <- app_assoc. cbn [app]. f_equal. rewrite !take_drop_commute. by rewrite take_delete_le by lia.
Qed.

(** ** The pointer to the last sibling *)

Lemma disj_lookup (l : list block) : forall i j b c, disj l -> l !! i = Some b -> l !! j = Some c -> i <> j -> apart b c.
Proof.
  induction l as [|x l IH]; intros i j b c Hd Hb Hc Hij; [done|]. destruct Hd as [Hx Hd].
  destruct i as [|i], j as [|j]; [done| | |].
  - injection Hb as ->. exact (Forall_lookup_1 _ _ _ _ Hx Hc).
  - injection Hc as ->. apply apart_sym. exact (Forall_lookup_1 _ _ _ _ Hx Hb).
  - apply (IH i j); (done || congruence).
Qed.

Lemma sub_splice_front {A} (buf x : list A) a n :
  0 <= a -> lenZ x <= n -> a + n <= lenZ buf -> sub (splice buf a x) a n = x ++ drop (length x) (sub buf a n).
Proof.
  intros Ha Hx Hn. unfold sub, splice, lenZ in *. rewrite drop_app_length' by (rewrite length_take; lia).
  rewrite take_app, take_ge by lia. f_equal. replace (Z.to_nat n) with (length x + (Z.to_nat n - length x))%nat at 2 by lia.
  by rewrite <- take_drop_commute, drop_drop.
Qed.

(** The cell with another child pointer. *)
Definition set_child (id : Z) (c : bytes) : bytes := be_split 4 id ++ drop 4 c.

Lemma set_child_len id c : 4 <= lenZ c -> lenZ (set_child id c) = lenZ c.
Proof.
  intros H4. pose proof (be_split_lenZ 4 id) as Hl. unfold set_child. rewrite lenZ_app, Hl. unfold lenZ in *. rewrite length_drop. lia.
Qed.

Lemma set_child_ptr id c : is_u32 id -> child_ptr (set_child id c) = id.
Proof.
  intros Hu. unfold child_ptr, set_child, sub. change (Z.to_nat 0) with 0%nat. rewrite drop_0.
  rewrite take_app_length' by (by rewrite be_split_length). by apply be32_roundtrip.
Qed.

Lemma set_child_cell id c : is_cell usable t c -> is_cell usable t (set_child id c).
Proof.
  intros Hc. destruct (interior_parts c Hc) as (v & n & Hv & _ & _ & H5 & _). destruct Hc as [Hok (o & Ho)].
  split; [apply Forall_app; split; [apply be_split_ok|by apply Forall_drop]|]. exists o. unfold region_size. rewrite set_child_len by lia.
  assert (read_varint_at (set_child id c) (0 + 4) = read_varint_at c (0 + 4)) as Hr.
  { unfold read_varint_at, slice_from_or_corrupt. rewrite set_child_len by lia. destruct (_ <=? _); [|done]. done. }
  unfold raw_cell_len in *. destruct Ht as [-> | ->]; by rewrite Hr.
Qed.

Section write.
Context (p : PageInner) (ca : Z) (fbs : list block) (ptrs : list Z) (cells : list bytes).
Context (Hb : header_offset p = base) (HW : page_wf base usable t (as_ptr p) ca fbs ptrs cells) (id : Z) (Hid : is_u32 id).

Lemma cell_write (i : nat) q c :
  ptrs !! i = Some q -> cells !! i = Some c ->
  page_wf base usable t (splice (as_ptr p) q (be_split 4 id)) ca fbs ptrs (<[i := set_child id c]> cells).
Proof.
  intros Hq Hc. destruct (pointer_of p ca fbs ptrs cells HW i c Hc) as (q' & Hq' & Hq0 & Hqe & Hsub & Hcl). rewrite Hq in Hq'. injection Hq' as <-.
  destruct (interior_parts c Hcl) as (_ & _ & _ & _ & _ & H5 & _). pose proof (be_split_lenZ 4 id) as H4.
  destruct (cell_range _ _ _ _ _ _ _ _ _ _ _ HW Hq Hc) as (Hca & _). pose proof HW as [[[Hty Hcnt Hptrs] Hl Hcs] HS].
  pose proof (so_len _ _ _ _ _ _ _ HS) as Hlen. pose proof (so_lo _ _ _ _ _ _ _ HS) as Hlo. unfold lo_of in Hlo. pose proof (lenZ_nonneg cells). destruct Hdims as [Hb0 Hu].
  pose proof (arr_range base t). assert (regions ptrs (<[i := set_child id c]> cells) = regions ptrs cells) as Hreg.
  { apply list_eq. intros j. unfold regions. rewrite !lookup_zip_with. destruct (decide (j = i)) as [->|Hj]; [|by rewrite list_lookup_insert_ne].
    rewrite list_lookup_insert_eq by (by eapply lookup_lt_Some). rewrite Hq, Hc. cbn. unfold region_size. by rewrite set_child_len by lia. }
  assert (lo_of base t (<[i := set_child id c]> cells) = lo_of base t cells) as Hlo' by (unfold lo_of, lenZ; by rewrite length_insert).
  constructor; [constructor; [constructor| |]|].
  - by rewrite get8_ne by lia.
  - by rewrite get16_ne by lia.
  - intros j r Hr. pose proof (lookup_lt_Some _ _ _ Hr). unfold lenZ in *. rewrite get16_ne by (unfold lenZ; lia). by apply Hptrs.
  - unfold lenZ in *. by rewrite length_insert.
  - intros j r d Hr Hd. destruct (decide (j = i)) as [->|Hj].
    + rewrite Hq in Hr. injection Hr as <-. rewrite list_lookup_insert_eq in Hd by (by eapply lookup_lt_Some). injection Hd as <-. split; [|by apply set_child_cell].
      rewrite set_child_len by lia. rewrite sub_splice_front by lia. rewrite Hsub, be_split_length. done.
    + rewrite list_lookup_insert_ne in Hd by done. destruct (Hcs _ _ _ Hr Hd) as [Hs Hcd]. split; [|done].
      pose proof (so_disj _ _ _ _ _ _ _ HS) as [Hdd _]%disj_app.
      pose proof (disj_lookup _ _ _ _ _ Hdd (regions_lookup _ _ _ _ _ Hq Hc) (regions_lookup _ _ _ _ _ Hr Hd) ltac:(congruence)) as Hap.
      destruct (cell_range _ _ _ _ _ _ _ _ _ _ _ HW Hr Hd) as (? & ? & _). unfold apart, bend, region_size in *. cbn in Hap. rewrite sub_splice_ne by lia. done.
  - rewrite Hreg, Hlo'. apply (space_ok_splice _ _ Hdims); [done|apply be_split_ok|]. right; right. exists (q, region_size c).
    split_and!; [by eapply regions_elem|done|]. unfold bend, region_size. cbn. lia.
Qed.

Lemma right_write_at : page_wf base usable t (splice (as_ptr p) (base + 8) (be_split 4 id)) ca fbs ptrs cells.
Proof.
  pose proof HW as [[[Hty Hcnt Hptrs] Hl Hc] HS]. pose proof (so_len _ _ _ _ _ _ _ HS). pose proof (be_split_lenZ 4 id) as H4.
  pose proof (so_lo _ _ _ _ _ _ _ HS) as Hlo. unfold lo_of in Hlo. pose proof (lenZ_nonneg cells). destruct Hdims.
  assert (arr base t = base + 12) as Ha by (unfold arr; by destruct Ht as [-> | ->]). constructor; [constructor; [constructor| |]|].
  - by rewrite get8_ne by lia.
  - by rewrite get16_ne by lia.
  - intros i q Hq. rewrite get16_ne by lia. by apply Hptrs.
  - done.
  - intros i q c Hq Hcc. destruct (cell_range _ _ _ _ _ _ _ _ _ _ _ HW Hq Hcc) as (? & ? & ? & ?). rewrite sub_splice_ne by lia. done.
  - apply (space_ok_splice _ _ Hdims); [done|apply be_split_ok|]. right; left. lia.
Qed.
End write.

(** The child pointer of the cell at [first], if there is one. *)
Definition relink (first : nat) (id : Z) (cells : list bytes) : list bytes :=
  match cells !! first with Some c => <[first := set_child id c]> cells | None => cells end.

Lemma relink_children first id cells right :
  (first <= length cells)%nat -> is_u32 id ->
  children (relink first id cells) (if decide (first = length cells) then id else right) = <[first := id]> (children cells right).
Proof.
  intros Hf Hid. unfold children, relink. destruct (decide (first = length cells)) as [->|Hne].
  - rewrite lookup_ge_None_2 by lia. by rewrite insert_app_r_alt, length_fmap, Nat.sub_diag by (rewrite length_fmap; lia).
  - destruct (lookup_lt_is_Some_2 cells first ltac:(lia)) as [c Hc]. rewrite Hc, insert_app_l by (rewrite length_fmap; lia).
    by rewrite list_fmap_insert, set_child_ptr.
Qed.

Lemma pointer_write p ca fbs ptrs cells first loc id :
  parent_is p ca fbs ptrs cells None -> pointer_at ptrs cells None first loc -> (first <= length cells)%nat -> is_u32 id -> exists p',
    write_last_pointer p loc id = Ok p' /\ parent_is p' ca fbs ptrs (relink first id cells) None /\
    right_of p' = (if decide (first = length cells) then id else right_of p) /\ pg_id p' = pg_id p.
Proof.
  intros HP Hloc Hf Hid. pose proof HP as [Hb HW Hov _]. destruct (pointer_reads p ca fbs ptrs cells None HP first loc Hf Hloc I) as (Hl0 & Hle & _).
  pose proof (so_len _ _ _ _ _ _ _ (pw_space _ _ _ _ _ _ _ _ HW)) as Hlen. pose proof (be_split_lenZ 4 id) as H4. destruct Hdims as [Hb0 Hu].
  unfold write_last_pointer. assert (u32 id = id) as -> by (unfold u32, is_u32 in *; apply Z.mod_small; lia).
  assert (write_slice (as_ptr p) loc (be_split 4 id) = Ok (splice (as_ptr p) loc (be_split 4 id))) as -> by (apply write_slice_Ok; split_and!; [lia|lia|done]).
  cbn [mbind Result_bind]. eexists. split; [done|]. unfold pointer_at, relink, right_of in *. cbn [logical physical] in Hloc. rewrite as_ptr_set.
  destruct (decide (first = length cells)) as [->|Hne].
  - rewrite lookup_ge_None_2 by lia. rewrite Hloc in *. split_and!; [|by rewrite sub_splice_eq, be32_roundtrip by (done || lia)|done].
    constructor; [done|rewrite as_ptr_set; by apply right_write_at|done|done].
  - destruct (lookup_lt_is_Some_2 cells first ltac:(lia)) as [c Hc]. destruct (pointer_of p ca fbs ptrs cells HW first c Hc) as (q & Hq & Hq0 & _).
    rewrite Hloc in Hq. injection Hq as <-. split_and!; [|by rewrite sub_splice_ne by lia|done]. constructor; [done| |done|done].
    rewrite as_ptr_set, Hc. by apply cell_write.
Qed.
End parent.
