(* ===== verification/BtreeDividers.v ===== *)
(** * BtreeDividers: the new dividers in the parent

    The dividers that step 6 of the balancing builds are well-formed cells of
    the parent, point to the new siblings and carry the keys between them; they
    are inserted one after the other, as overflow cells when they do not fit. *)

From S2P Require Import Prelude Varint OnDisk Page BtreePage BtreeSpace BtreeCells BtreeDefrag BtreeInsert BtreeRefine.
From S2P Require Import BtreePayload BtreeBalance BtreeDistribute BtreeFree BtreeBulk BtreeEdit BtreeSiblings BtreeGather BtreeRedist.
From S2P Require Import BtreeBalanced BtreeParent.

(** ** Inserting into the parent *)

(** The cells of a page with the overflow cells at their places. *)
Definition with_overflow (a : APage) : list bytes :=
  foldl (fun l o => insert_at (Z.to_nat (oc_index o)) (oc_payload o) l) (a_cells a) (a_over a).

Lemma with_overflow_length a : length (with_overflow a) = (length (a_cells a) + length (a_over a))%nat.
Proof.
  unfold with_overflow. generalize (a_cells a). induction (a_over a) as [|o os IH]; intros l; cbn [foldl length]; [lia|].
  rewrite IH. pose proof (insert_at_lenZ (Z.to_nat (oc_index o)) (oc_payload o) l) as Hl. unfold lenZ in Hl. lia.
Qed.

Lemma insert_keeps_id p c i usable allow p' : insert_into_cell_impl p c i usable allow = Ok p' -> pg_id p' = pg_id p.
Proof.
  unfold insert_into_cell_impl. cbv zeta. intros (n & _ & (? & _ & (f & _ & H)%bind_Ok)%bind_Ok)%bind_Ok.
  destruct (negb _).
  - apply bind_Ok in H as (t & _ & H). by injection H as <-.
  - apply bind_Ok in H as (buf & _ & H). by injection H as <-.
Qed.

Section insert.
Context (base usable : Z) (t : PageType) (Hdims : dims base usable) (Ht : t = IndexInterior \/ t = TableInterior).

(** An interior cell fits on an empty page. *)
Lemma interior_fits c : is_cell usable t c -> region_size c + 2 <= free_of base usable t [].
Proof.
  intros Hc. destruct (interior_parts base usable t Hdims Ht c Hc) as (v & n & Hv & _ & _ & H5 & Hix & Htab). destruct Hdims as [Hb Hu].
  destruct Hc as [Hok _]. pose proof (read_varint_at_le _ _ _ _ Hok Hv) as Hn. unfold free_of, lo_of, region_size. cbn [foldr].
  assert (arr base t = base + 12) as -> by (unfold arr; by destruct Ht as [-> | ->]). change (lenZ (@nil bytes)) with 0.
  destruct Ht as [-> | ->]; [specialize (Hix eq_refl)|specialize (Htab eq_refl); lia].
  unfold max_local, min_local, payload_overflow_threshold_min, payload_overflow_threshold_max in Hix.
  pose proof (Z.mul_div_le ((usable - 12) * 64) 255 ltac:(lia)). pose proof (Z.div_le_mono ((usable - 12) * 32) ((usable - 12) * 64) 255 ltac:(lia) ltac:(lia)) as Hm.
  pose proof (payload_local v ((usable - 12) * 64 / 255 - 23) ((usable - 12) * 32 / 255 - 23) usable ltac:(lia)).
  destruct (payload_overflows v _ _ _); lia.
Qed.

(** A page without overflow cells is not left without cells. *)
Definition occupied (a : APage) : Prop := a_over a = [] \/ a_cells a <> [].

Lemma insert_divider_ok p a (i : nat) c :
  represents base usable t p a -> is_cell usable t c -> (i <= length (with_overflow a))%nat -> exists p' a',
    insert_into_cell p c (Z.of_nat i) usable = Ok p' /\ represents base usable t p' a' /\
    with_overflow a' = insert_at i c (with_overflow a) /\ outer base usable t (as_ptr p) (as_ptr p') /\ pg_id p' = pg_id p /\
    (occupied a -> a_cells a' <> []).
Proof.
  intros HR Hc Hi. rewrite with_overflow_length in Hi.
  assert (on_page base usable t a c false = true -> a_over a = []) as Hon by (unfold on_page; by destruct (a_over a)).
  destruct (pstep_refines base usable t Hdims (PInsert i c false) p a HR) as (p' & Hp & HR' & Ho).
  { split_and!; [done|unfold lenZ; lia|]. intros E. rewrite (Hon E) in Hi. cbn in Hi. lia. }
  exists p', (astep base usable t (PInsert i c false) a). cbn [pstep] in Hp. split_and!; [done|done| |done|by eapply insert_keeps_id|].
  2: { intros Hocc. cbn [astep]. destruct (on_page base usable t a c false) eqn:E; cbn [a_cells].
    - unfold insert_at. by destruct (take i (a_cells a)).
    - destruct Hocc as [Hnil|]; [|done]. intros Hcells. unfold on_page in E. rewrite Hnil, Hcells in E. cbn in E. pose proof (interior_fits c Hc). lia. }
  cbn [astep]. destruct (on_page base usable t a c false) eqn:E; unfold with_overflow; cbn [a_cells a_over].
  - by rewrite (Hon eq_refl).
  - rewrite foldl_app. cbn [foldl oc_index oc_payload]. rewrite Nat2Z.id. by rewrite bool_decide_eq_false_2 by (by destruct Ht as [-> | ->]).
Qed.
End insert.

(** ** The dividers *)

Lemma varint_decode_pos k : forall v n buf w m, varint_decode k v n buf = Some (w, m) -> n < m.
Proof.
  induction k as [|k IH]; intros v n [|c buf] w m H; try done; cbn [varint_decode] in H.
  - destruct (v <? 2 ^ 48); [done|]. injection H as _ <-. lia.
  - destruct (c <? 128); [injection H as _ <-; lia|]. apply IH in H. lia.
Qed.

Lemma varint_decode_take k : forall v n j buf w m,
  varint_decode k v n buf = Some (w, m) -> m - n <= Z.of_nat j -> varint_decode k v n (take j buf) = Some (w, m).
Proof.
  induction k as [|k IH]; intros v n j buf w m H Hj; pose proof (varint_decode_pos _ _ _ _ _ _ H); (destruct j as [|j]; [lia|]);
    (destruct buf as [|c buf]; [done|]); cbn [take varint_decode] in *; [done|].
  destruct (c <? 128); [done|]. apply IH; [done|lia].
Qed.

Lemma read_varint_take buf v n j :
  bytes_ok buf -> read_varint buf = Ok (v, n) -> n <= Z.of_nat j -> read_varint (take j buf) = Ok (v, n).
Proof.
  intros Hb. rewrite !read_varint_eq, !ok_or_Ok by (done || by apply Forall_take). intros H Hj. apply varint_decode_take; [done|lia].
Qed.

Lemma read_varint_bounds c v n : bytes_ok c -> read_varint c = Ok (v, n) -> 1 <= n <= 9 /\ n <= lenZ c /\ is_u64 v.
Proof. intros Hb. rewrite read_varint_eq, ok_or_Ok by done. by apply varint_spec_bounds. Qed.

(** The type of the parent of pages of type [t]. *)
Definition parent_type (t : PageType) : PageType :=
  match t with IndexLeaf | IndexInterior => IndexInterior | TableLeaf | TableInterior => TableInterior end.

(** The bytes of an index cell without its padding. *)
Definition unpadded (c : bytes) : bytes :=
  match read_varint c with
  | Ok (payload_len, n_payload) => if n_payload + payload_len <? lenZ c then take (Z.to_nat (n_payload + payload_len)) c else c
  | _ => c
  end.

(** The row id of the cell of a table leaf. *)
Definition leaf_key (c : bytes) : Result Z :=
  '(_, n) ← read_varint c; '(rowid, _) ← read_varint (drop (Z.to_nat n) c); Ok rowid.

(** The divider of page [id] before cell [m] of the array [all]. *)
Definition divider_is (t : PageType) (all : list bytes) (m : nat) (id : Z) (d : bytes) : Prop :=
  match t with
  | IndexInterior | TableInterior => exists c, all !! m = Some c /\ d = set_child id c
  | IndexLeaf => exists c, all !! m = Some c /\ d = be_split 4 id ++ unpadded c
  | TableLeaf => exists c key, all !! (m - 1)%nat = Some c /\ leaf_key c = Ok key /\ d = be_split 4 id ++ varint_encode key
  end.

Lemma u32_id id : is_u32 id -> u32 id = id.
Proof. intros Hid. unfold u32, is_u32 in *. apply Z.mod_small. lia. Qed.

Section dividers.
Context (usable : Z) (Hdims : dims 0 usable).

Lemma read_at_0 c : read_varint_at c 0 = read_varint c.
Proof. unfold read_varint_at, slice_from_or_corrupt. pose proof (lenZ_nonneg c). destruct (Z.leb_spec 0 (lenZ c)); [done|lia]. Qed.

Lemma read_after c id : read_varint_at (be_split 4 id ++ c) (0 + 4) = read_varint c.
Proof.
  unfold read_varint_at, slice_from_or_corrupt. pose proof (lenZ_nonneg c). pose proof (be_split_lenZ 4 id). rewrite lenZ_app.
  destruct (Z.leb_spec (0 + 4) (lenZ (be_split 4 id) + lenZ c)); [|lia]. cbn [mbind Result_bind]. done.
Qed.

(** An index cell of a leaf as a cell of its parent. *)
Lemma promoted_cell id c : 4 <= lenZ c -> is_cell usable IndexLeaf c -> is_cell usable IndexInterior (be_split 4 id ++ unpadded c).
Proof.
  intros H4 [Hok (o & Ho)]. unfold raw_cell_len in Ho. rewrite read_at_0 in Ho. unfold unpadded.
  destruct (read_varint c) as [[v n]| |] eqn:E; try done. cbn [mbind Result_bind] in Ho.
  pose proof E as (Hn & Hnl & Hv)%read_varint_bounds; [|done]. unfold is_u64 in Hv. destruct Hdims as [_ Hu]. pose proof (be_split_lenZ 4 id) as H4i.
  assert (forall d, bytes_ok d -> read_varint d = Ok (v, n) -> lenZ d = match payload_overflows v (max_local usable IndexLeaf) (min_local usable IndexLeaf) usable with Some l => l + n | None => v + n end ->
    is_cell usable IndexInterior (be_split 4 id ++ d)) as Hcell.
  { intros d Hd Hr Hl. split; [apply Forall_app; split; [apply be_split_ok|done]|]. unfold raw_cell_len. rewrite read_after, Hr. cbn [mbind Result_bind].
    change (max_local usable IndexInterior) with (max_local usable IndexLeaf). change (min_local usable IndexInterior) with (min_local usable IndexLeaf).
    unfold region_size. rewrite lenZ_app. destruct (payload_overflows v _ _ _) as [l|]; eexists; (apply f_equal, f_equal2; [pose proof (lenZ_nonneg d); lia|done]). }
  unfold region_size, MINIMUM_CELL_SIZE in Ho. pose proof (fun l H => local_size usable ltac:(lia) IndexLeaf v l H ltac:(lia)) as Hls.
  destruct (payload_overflows v _ _ _) as [l|].
  - destruct (Hls l eq_refl) as (? & ? & _). injection Ho as Ho _. destruct (Z.ltb_spec (n + v) (lenZ c)); [lia|]. apply Hcell; [done|done|lia].
  - injection Ho as Ho _. destruct (Z.ltb_spec (n + v) (lenZ c)); [|apply Hcell; [done|done|lia]]. apply Hcell.
    + by apply Forall_take.
    + apply read_varint_take; [done|done|lia].
    + unfold lenZ in *. rewrite length_take. lia.
Qed.

(** A divider of table leaves. *)
Lemma key_cell id key : is_u64 key -> is_cell usable TableInterior (be_split 4 id ++ varint_encode key).
Proof.
  intros Hk. pose proof (be_split_lenZ 4 id) as H4. pose proof (varint_encode_length key Hk) as Hl. pose proof (varint_len_bounds key Hk).
  split; [apply Forall_app; split; [apply be_split_ok|apply varint_encode_ok]|]. unfold raw_cell_len. rewrite read_after.
  assert (read_varint (varint_encode key) = Ok (key, varint_len key)) as -> by (rewrite <- (app_nil_r (varint_encode key)); apply read_varint_encode; [done|constructor]).
  cbn [mbind Result_bind]. unfold region_size. rewrite lenZ_app. eexists. apply f_equal, f_equal2; [lia|done].
Qed.

(** The cells of a table leaf have keys. *)
Lemma leaf_has_key c : is_cell usable TableLeaf c -> exists n m key k,
  read_varint c = Ok (n, m) /\ 0 <= m <= lenZ c /\ read_varint (drop (Z.to_nat m) c) = Ok (key, k) /\ is_u64 key.
Proof.
  intros [Hok (o & Ho)]. unfold raw_cell_len in Ho. rewrite read_at_0 in Ho. destruct (read_varint c) as [[v m]| |] eqn:E; try done.
  cbn [mbind Result_bind] in Ho. pose proof E as (Hm & Hml & _)%read_varint_bounds; [|done].
  unfold read_varint_at, slice_from_or_corrupt in Ho. destruct (Z.leb_spec (0 + m) (lenZ c)); [|done]. cbn [mbind Result_bind] in Ho.
  destruct (read_varint (drop (Z.to_nat (0 + m)) c)) as [[key k]| |] eqn:E'; try done. exists v, m, key, k.
  split_and!; [done|lia|lia|done|]. by eapply read_varint_bounds; [|exact E']; apply Forall_drop.
Qed.

Section loop.
Context (t : PageType) (l : list sibling) (rest : list (list entry)) (c : list nat).
Context (Hcells : Forall (is_cell usable t) (all_cells l)) (Hmin : Forall (fun c => 4 <= lenZ c) (all_cells l)) (Hc5 : length c = 5%nat).
#[local] Abbreviation cell_array := (mkCellArray (all_refs 0 l) (Z.of_nat <$> c)).

Lemma new_divider_ok P m id :
  all_hold usable t P ((fst <$> l) ++ rest) -> (m < length (all_cells l))%nat -> (t = TableLeaf -> 1 <= m)%nat -> is_u32 id -> exists d,
    new_divider (table_leaf t) (leaf t) cell_array P (Z.of_nat m) id = Ok d /\
    divider_is t (all_cells l) m id d /\ is_cell usable (parent_type t) d /\ sub d 0 4 = be_split 4 id /\ 4 <= lenZ d.
Proof.
  intros HP Hm Ht1 Hid. destruct (lookup_lt_is_Some_2 (all_cells l) m Hm) as [d Hd].
  assert (forall x (e : bytes), all_cells l !! x = Some e -> exists r, idx (all_refs 0 l) (Z.of_nat x) = Ok r /\ deref P r = Ok e /\ is_cell usable t e /\ 4 <= lenZ e) as Hget.
  { intros x e He. destruct (array_ref usable Hdims t P l x e (all_hold_pages _ _ _ _ _ HP) He) as (r & Hr & Hdr & _). exists r.
    split_and!; [by apply idx_lookup|done|exact (Forall_lookup_1 _ _ _ _ Hcells He)|exact (Forall_lookup_1 _ _ _ _ Hmin He)]. }
  assert (forall x : bytes, sub (be_split 4 id ++ x) 0 4 = be_split 4 id /\ 4 <= lenZ (be_split 4 id ++ x)) as Hfront.
  { intros x. pose proof (be_split_lenZ 4 id). pose proof (lenZ_nonneg x). split; [done|rewrite lenZ_app; lia]. }
  destruct (Hget m d Hd) as (r & Hr & Hdr & Hcell & H4). unfold new_divider. cbn [cell_payloads]. rewrite Hr. cbn [mbind Result_bind]. rewrite Hdr.
  cbn [mbind Result_bind]. rewrite (u32_id id Hid). unfold divider_is, parent_type.
  assert (t = IndexInterior \/ t = TableInterior -> exists d0,
    (rest ← slice_from d 4; Ok (be_split 4 id ++ rest)) = Ok d0 /\ (exists e, all_cells l !! m = Some e /\ d0 = set_child id e) /\
    is_cell usable t d0 /\ sub d0 0 4 = be_split 4 id /\ 4 <= lenZ d0) as Hint.
  { intros Hti. exists (set_child id d). unfold slice_from. rewrite slice_sub by lia. cbn [mbind Result_bind].
    assert (sub d 4 (lenZ d - 4) = drop 4 d) as -> by (unfold sub, lenZ; apply take_ge; rewrite length_drop; lia).
    split_and!; [done|by exists d|by apply (set_child_cell 0 usable t Hdims Hti)|done|rewrite set_child_len; lia]. }
  destruct t.
  - change (leaf IndexInterior) with false. cbn [negb]. apply Hint. by left.
  - change (leaf TableInterior) with false. cbn [negb]. apply Hint. by right.
  - change (leaf IndexLeaf) with true. change (table_leaf IndexLeaf) with false. cbn [negb].
    assert (exists v n, read_varint d = Ok (v, n) /\ 1 <= n /\ 0 <= v) as (v & n & Hv & Hn & Hv0).
    { destruct Hcell as [Hok (o & Ho)]. unfold raw_cell_len in Ho. rewrite read_at_0 in Ho. destruct (read_varint d) as [[v n]| |] eqn:E; try done.
      exists v, n. pose proof E as (? & _ & Hu)%read_varint_bounds; [|done]. unfold is_u64 in Hu. split_and!; [done|lia|lia]. }
    rewrite Hv. cbn [mbind Result_bind]. exists (be_split 4 id ++ unpadded d). destruct (Hfront (unpadded d)). split_and!; [|by exists d|by apply promoted_cell|done|done].
    unfold unpadded. rewrite Hv. destruct (Z.ltb_spec (n + v) (lenZ d)) as [Hlt|]; [|done].
    assert (n + v < MINIMUM_CELL_SIZE) as Hshort.
    { destruct Hcell as [Hok (o & Ho)]. unfold raw_cell_len in Ho. rewrite read_at_0, Hv in Ho. cbn [mbind Result_bind] in Ho. unfold region_size, MINIMUM_CELL_SIZE in *.
      destruct Hdims as [_ Hu]. pose proof (fun l H => local_size usable ltac:(lia) IndexLeaf v l H ltac:(lia)) as Hls.
      destruct (payload_overflows v _ _ _) as [k|]; [destruct (Hls k eq_refl) as (? & ? & _)|]; injection Ho as Ho _; lia. }
    rewrite (proj2 (Z.ltb_lt _ _) Hshort). cbn [turso_assert mbind Result_bind]. rewrite slice_sub by lia. cbn [mbind Result_bind]. unfold sub. change (Z.to_nat 0) with 0%nat.
    by rewrite drop_0, Z.sub_0_r.
  - change (leaf TableLeaf) with true. change (table_leaf TableLeaf) with true. cbn [negb]. unfold checked_sub.
    specialize (Ht1 eq_refl). destruct (Z.leb_spec 1 (Z.of_nat m)); [|lia]. cbn [mbind Result_bind].
    destruct (lookup_lt_is_Some_2 (all_cells l) (m - 1) ltac:(lia)) as [e He]. destruct (Hget (m - 1)%nat e He) as (r' & Hr' & Hdr' & Hcell' & _).
    replace (Z.of_nat m - 1) with (Z.of_nat (m - 1)) by lia. rewrite Hr'. cbn [mbind Result_bind]. rewrite Hdr'. cbn [mbind Result_bind].
    destruct (leaf_has_key e Hcell') as (v & n & key & k & Hv & Hn & Hk & Hku). rewrite Hv. cbn [mbind Result_bind].
    unfold slice_from. rewrite slice_sub by lia. cbn [mbind Result_bind].
    assert (sub e n (lenZ e - n) = drop (Z.to_nat n) e) as -> by (unfold sub, lenZ in *; apply take_ge; rewrite length_drop; lia).
    rewrite Hk. cbn [mbind Result_bind]. rewrite write_varint_to_vec_eq by done. eexists. destruct (Hfront (varint_encode key)).
    split_and!; [done| |by apply key_cell|done|done]. exists e, key. split_and!; [done| |done]. unfold leaf_key. rewrite Hv. cbn [mbind Result_bind]. by rewrite Hk.
Qed.

Lemma set_right_ids P j v P' : set_right_pointer P j v = Ok P' -> pg_id <$> P' = pg_id <$> P.
Proof.
  unfold set_right_pointer. intros (p & Hp & (buf & _ & H)%bind_Ok)%bind_Ok. injection H as <-. apply unwrap_Ok in Hp.
  rewrite list_fmap_insert. apply list_insert_id. by rewrite list_lookup_fmap, Hp.
Qed.

(** The right pointer of page [j], on interior pages. *)
Lemma right_step_ok P j d :
  all_hold usable t P ((fst <$> l) ++ rest) -> (j < length P)%nat -> all_cells l !! upto c j = Some d -> exists P1,
    (if negb (leaf t) then pointer ← slice d 0 4; set_right_pointer P j (be_combine pointer) else Ok P) = Ok P1 /\
    all_hold usable t P1 ((fst <$> l) ++ rest) /\ pg_id <$> P1 = pg_id <$> P /\ (forall i, i <> j -> P1 !! i = P !! i) /\
    (leaf t = false -> exists p, P1 !! j = Some p /\ right_ptr p = child_ptr d).
Proof.
  intros HP Hj Hd. destruct (leaf t) eqn:El; cbn [negb]; [by exists P|].
  assert (arr 0 t = 12) as Ha by (unfold arr; by destruct t).
  pose proof (Forall_lookup_1 _ _ _ _ Hmin Hd) as H4. cbn in H4. pose proof (Forall_lookup_1 _ _ _ _ Hcells Hd) as [Hdok _].
  rewrite slice_sub by lia. cbn [mbind Result_bind]. change (sub d 0 (4 - 0)) with (sub d 0 4). fold (child_ptr d).
  destruct (set_right_hold usable Hdims t P _ j (child_ptr d) Ha (child_ptr_u32 _ Hdok H4) HP Hj) as (P1 & Hset & HP1 & Hsame & Hp).
  exists P1. split_and!; [done|done|by eapply set_right_ids|done|done].
Qed.

Context (base : Z) (Hparent : dims base usable) (dbsize : Z) (first : nat) (ids : list Z).
#[local] Abbreviation insert_all := (fun n j => insert_dividers usable n j (table_leaf t) (leaf t) dbsize (Z.of_nat first) cell_array).

(** What the loop leaves behind for the pages from [j] to [j + n]. *)
Record dividers_in (n j : nat) (P P' : list PageInner) (parent parent' : PageInner) (a a' : APage) (D : list bytes) : Prop := mkDividersIn {
  in_hold : all_hold usable t P' ((fst <$> l) ++ rest);
  in_ids : pg_id <$> P' = ids;
  in_same : forall i, (i < j \/ j + n <= i)%nat -> P' !! i = P !! i;
  in_right : leaf t = false -> forall i, (j <= i < j + n)%nat -> exists p d,
    P' !! i = Some p /\ all_cells l !! upto c i = Some d /\ right_ptr p = child_ptr d;
  in_parent : represents base usable (parent_type t) parent' a';
  in_cells : with_overflow a' = take (first + j) (with_overflow a) ++ D ++ drop (first + j) (with_overflow a);
  in_dividers : length D = n /\ forall i d id, D !! i = Some d -> ids !! (j + i)%nat = Some id -> divider_is t (all_cells l) (upto c (j + i)) id d;
  in_outer : outer base usable (parent_type t) (as_ptr parent) (as_ptr parent');
  in_id : pg_id parent' = pg_id parent;
  in_some : occupied a -> (0 < n)%nat \/ a_cells a <> [] -> a_cells a' <> []
}.

Lemma insert_loop_ok n : forall j P parent a,
  all_hold usable t P ((fst <$> l) ++ rest) -> pg_id <$> P = ids -> (j + n < 5)%nat -> (j + n <= length P)%nat ->
  (forall i, (j <= i < j + n)%nat -> (upto c i < length (all_cells l))%nat /\ (t = TableLeaf -> 1 <= upto c i)%nat) ->
  (forall i id, (j <= i < j + n)%nat -> ids !! i = Some id -> is_u32 id /\ id <> u32 (pg_id parent) /\ id <= dbsize) ->
  represents base usable (parent_type t) parent a -> (first + j <= length (with_overflow a))%nat ->
  exists P' parent' a' D, insert_all n j P parent = Ok (P', parent') /\ dividers_in n j P P' parent parent' a a' D.
Proof.
  induction n as [|n IH]; intros j P parent a HP Hids H5 HlP Hc Hid HR Hfirst; cbn [insert_dividers].
  { exists P, parent, a, []. split; [done|]. constructor; try done; [intros _ i Hi; lia|by rewrite app_nil_l, take_drop|intros _ [?|?]; [lia|done]]. }
  destruct (lookup_lt_is_Some_2 P j ltac:(lia)) as [p Hp]. rewrite Hp. cbn [unwrap mbind Result_bind].
  unfold cell_count_up_to_page. cbn [cell_count_per_page_cumulative cell_payloads]. rewrite upto_lookup by lia. cbn [mbind Result_bind].
  destruct (Hc j ltac:(lia)) as [Hj Hj1]. destruct (lookup_lt_is_Some_2 (all_cells l) (upto c j) Hj) as [d Hd].
  destruct (array_ref usable Hdims t P l _ _ (all_hold_pages _ _ _ _ _ HP) Hd) as (r & Hr & Hdr & _).
  rewrite (idx_lookup _ _ _ Hr). cbn [mbind Result_bind]. rewrite Hdr. cbn [mbind Result_bind].
  destruct (right_step_ok P j d HP ltac:(lia) Hd) as (P1 & Hset & HP1 & Hids1 & Hsame & Hright). rewrite Hset. cbn [mbind Result_bind].
  assert (ids !! j = Some (pg_id p)) as Hidj by (by rewrite <- Hids, list_lookup_fmap, Hp).
  destruct (Hid j (pg_id p) ltac:(lia) Hidj) as (Hu & Hnep & Hdb).
  destruct (new_divider_ok P1 (upto c j) (pg_id p) HP1 Hj Hj1 Hu) as (div & Hnew & Hdiv & Hcell & Hptr & H4). rewrite Hnew. cbn [mbind Result_bind].
  unfold LEFT_CHILD_PTR_SIZE_BYTES. rewrite slice_sub by lia. cbn [mbind Result_bind]. change (sub div 0 (4 - 0)) with (sub div 0 4). rewrite Hptr, be32_roundtrip by done.
  rewrite (proj2 (Z.eqb_neq _ _) Hnep), (u32_id _ Hu), Z.eqb_refl, (proj2 (Z.leb_le _ _) Hdb). cbn [negb turso_assert mbind Result_bind].
  replace (Z.of_nat first + Z.of_nat j) with (Z.of_nat (first + j)) by lia.
  assert (parent_type t = IndexInterior \/ parent_type t = TableInterior) as Hpt by (destruct t; by (left + right)).
  destruct (insert_divider_ok base usable (parent_type t) Hparent Hpt parent a (first + j) div HR Hcell Hfirst) as (parent1 & a1 & Hins & HR1 & HL1 & Ho1 & Hid1 & Hocc).
  rewrite Hins. cbn [mbind Result_bind].
  assert (length P1 = length P) as HlP1 by (rewrite <- !(length_fmap pg_id); by rewrite Hids1).
  destruct (IH (S j) P1 parent1 a1 HP1) as (P' & parent' & a' & D & Hloop & [HP' Hids' Hsame' Hright' HR' HL' [HlD HD] Ho' Hid' Hsome]); [congruence|lia|lia|intros i Hi; apply Hc; lia| |done| |].
  { intros i x Hi. rewrite Hid1. apply Hid. lia. }
  { rewrite HL1. pose proof (insert_at_lenZ (first + j) div (with_overflow a)) as Hl. unfold lenZ in Hl. lia. }
  exists P', parent', a', (div :: D). split; [done|]. constructor; [done|done| | |done| | |by eapply outer_trans|congruence|].
  - intros i Hi. rewrite Hsame' by lia. apply Hsame. lia.
  - intros Hlf i Hi. destruct (decide (i = j)) as [->|]; [|apply Hright'; [done|lia]]. destruct (Hright Hlf) as (q & Hq & Hrq). exists q, d. rewrite Hsame' by lia. done.
  - rewrite HL', HL1. unfold insert_at. assert (length (take (first + j) (with_overflow a)) = first + j)%nat as Hlt by (rewrite length_take; lia).
    set (T := take (first + j) (with_overflow a)) in *. set (R := drop (first + j) (with_overflow a)).
    replace (first + S j)%nat with (length (T ++ [div])) by (rewrite length_app, Hlt; cbn; lia).
    assert (T ++ div :: R = (T ++ [div]) ++ R) as -> by (by rewrite <- app_assoc). rewrite take_app_length, drop_app_length. by rewrite <- !app_assoc.
  - split; [cbn; lia|]. intros [|i] e id He Hi; [injection He as <-; rewrite Nat.add_0_r in *; congruence|].
    replace (j + S i)%nat with (S j + i)%nat in * by lia. by apply HD.
  - intros Ha%Hocc _. apply Hsome; by right.
Qed.
End loop.
End dividers.
