(* ===== verification/BtreeRoot.v ===== *)
(** * BtreeRoot: a root that becomes higher or lower

    Models [balance_root] of core/storage/btree.rs, which moves the contents of
    the root to a new child, and the step of [balance_non_root] that copies an
    only child into a root without cells.  The root may be page 1, whose header
    follows the database header, so that the contents move by 100 bytes. *)

From S2P Require Import Prelude Varint OnDisk Page BtreePage BtreeSpace BtreeCells BtreeDefrag BtreeInsert BtreeRefine.
From S2P Require Import BtreeGather BtreeBalanced BtreeParent BtreeDividers.

(** ** The code *)

Section code.
Context (usable_space : Z).

(** [copy_from_slice] panics unless the lengths are equal. *)
Definition copy_range (dst : bytes) (start end_ : Z) (src : bytes) : Result bytes :=
  _ ← slice dst start end_;
  _ ← turso_assert (lenZ src =? end_ - start);
  write_slice dst start src.

(** Part 2 of [balance_root]: the header of a root without cells. *)
Definition write_new_root (base : Z) (buf : bytes) (new_root_page_type : PageType) (child_id : Z) : Result bytes :=
  buf ← write_page_type base buf (page_type_u8 new_root_page_type);
  buf ← write_rightmost_ptr base buf child_id;
  buf ← write_cell_content_area base buf usable_space;
  buf ← write_cell_count base buf 0;
  buf ← write_first_freeblock base buf 0;
  write_fragmented_bytes_count base buf 0.

(** [balance_root]: the root and the child. *)
Definition balance_root (root child : PageInner) : Result (PageInner * PageInner) :=
  t ← page_type (header_offset root) (as_ptr root);
  child ← btree_init_page child t usable_space;
  let offset := header_offset_of (pg_id root) in
  let root_buf := as_ptr root in
  '(root_pointer_start, root_pointer_len) ← cell_pointer_array_offset_and_size (header_offset root) root_buf;
  '(child_pointer_start, _) ← cell_pointer_array_offset_and_size (header_offset child) (as_ptr child);
  top ← cell_content_area (header_offset root) root_buf;
  pointers ← slice root_buf root_pointer_start (root_pointer_start + root_pointer_len);
  child_buf ← copy_range (as_ptr child) child_pointer_start (child_pointer_start + root_pointer_len) pointers;
  content ← slice_from root_buf top;
  child_buf ← copy_range child_buf top (lenZ child_buf) content;
  header_size ← header_size (header_offset root) root_buf;
  header ← slice root_buf offset (offset + header_size);
  child_buf ← copy_range child_buf 0 header_size header;
  let child := set_overflow_cells (set_buffer child child_buf) (overflow_cells root) in
  let new_root_page_type :=
    match t with IndexLeaf => IndexInterior | TableLeaf => TableInterior | other => other end in
  buf ← write_new_root (header_offset root) root_buf new_root_page_type (u32 (pg_id child));
  Ok (set_overflow_cells (set_buffer root buf) [], child).

(** The balance-shallower step of [balance_non_root]: the root and the child. *)
Definition copy_into_root (parent child : PageInner) : Result (PageInner * PageInner) :=
  let parent_offset := header_offset_of (pg_id parent) in
  let base := header_offset child in
  child_buf ← defragment_page_full base usable_space (as_ptr child);
  child_top ← cell_content_area base child_buf;
  content_size ← checked_sub usable_space child_top;
  content ← slice child_buf child_top (child_top + content_size);
  parent_buf ← copy_range (as_ptr parent) child_top (child_top + content_size) content;
  header_size ← header_size base child_buf;
  array_size ← cell_pointer_array_size base child_buf;
  let header_and_pointer_size := header_size + array_size in
  header ← slice child_buf base (base + header_and_pointer_size);
  parent_buf ← copy_range parent_buf parent_offset (parent_offset + header_and_pointer_size) header;
  Ok (set_buffer parent parent_buf, set_buffer child child_buf).
End code.

(** ** Pages at another offset *)

Lemma seg_same (buf buf' : bytes) lo hi fbs : forall p q,
  (forall a n, lo <= a -> a + n <= hi -> sub buf' a n = sub buf a n) -> ascending hi lo fbs -> seg buf p fbs q -> seg buf' p fbs q.
Proof.
  revert lo. induction fbs as [|b fbs IH]; intros lo p q Hs Ha H; [done|]. destruct Ha as (H1 & H2 & H3 & Ha). destruct H as (-> & Hb & H). unfold bend in *.
  cbn [seg]. unfold get16 in *. rewrite !Hs by lia. split_and!; [done|done|]. eapply IH; [|exact Ha|exact H]. intros. apply Hs; lia.
Qed.

Section shift.
Context (base base' usable : Z) (t : PageType).
#[local] Abbreviation hsize := (hsize_of (page_type_u8 t)).

(** The header and the pointers at [base'], the contents at the same place. *)
Record shifted (buf buf' : bytes) (ca n : Z) : Prop := mkShifted {
  mv_len : usable <= lenZ buf';
  mv_bytes : bytes_ok buf';
  mv_header : forall i m, 0 <= i -> i + m <= hsize + 2 * n -> sub buf' (base' + i) m = sub buf (base + i) m;
  mv_content : forall a m, ca <= a -> a + m <= usable -> sub buf' a m = sub buf a m
}.

Lemma shifted_wf buf buf' ca fbs ptrs cells :
  page_wf base usable t buf ca fbs ptrs cells -> shifted buf buf' ca (lenZ cells) -> base' + hsize + 2 * lenZ cells <= ca ->
  page_wf base' usable t buf' ca fbs ptrs cells.
Proof.
  intros HW [Hl Hb Hh Hc] Hfit. pose proof HW as [[[Hty Hcnt Hptrs] Hpl Hcells] [_ _ [Hlo Hca] Hcae Hseg Hasc Hused Hdisj Hsum]].
  assert (8 <= hsize) as H8 by (unfold hsize_of; by destruct t). pose proof (lenZ_nonneg cells).
  assert (forall i, 0 <= i -> i + 2 <= hsize + 2 * lenZ cells -> get16 buf' (base' + i) = get16 buf (base + i)) as H16 by (intros; unfold get16; by rewrite Hh by lia).
  assert (forall i, 0 <= i -> i + 1 <= hsize + 2 * lenZ cells -> get8 buf' (base' + i) = get8 buf (base + i)) as Hg8 by (intros; unfold get8; by rewrite Hh by lia).
  constructor; [constructor; [constructor| |]|].
  - rewrite <- (Z.add_0_r base'), Hg8 by lia. by rewrite Z.add_0_r.
  - by rewrite H16 by lia.
  - intros i p Hp. rewrite <- (Hptrs i p Hp). unfold arr. pose proof (lookup_lt_Some _ _ _ Hp). unfold lenZ in *.
    replace (base' + hsize + 2 * Z.of_nat i) with (base' + (hsize + 2 * Z.of_nat i)) by lia. rewrite H16 by lia. f_equal. lia.
  - done.
  - intros i p c Hp Hcc. destruct (cell_range _ _ _ _ _ _ _ _ _ _ _ HW Hp Hcc) as (H1 & H2 & Hs & Hcell). unfold region_size in H2.
    split; [|done]. by rewrite Hc by lia.
  - constructor; [done|done|unfold lo_of, arr; lia|by rewrite H16 by lia| |done|done|done|by rewrite Hg8 by lia].
    rewrite H16 by lia. by eapply seg_same.
Qed.
End shift.

Lemma copy_range_ok dst a b src :
  0 <= a -> b <= lenZ dst -> lenZ src = b - a -> copy_range dst a b src = Ok (splice dst a src).
Proof.
  intros Ha Hb Hl. pose proof (lenZ_nonneg src). unfold copy_range. rewrite slice_sub by lia. cbn [mbind Result_bind].
  rewrite (proj2 (Z.eqb_eq _ _)) by done. cbn [turso_assert mbind Result_bind]. apply write_slice_Ok. split_and!; [done|lia|done].
Qed.

Lemma init_keeps_id p t usable p' : btree_init_page p t usable = Ok p' -> pg_id p' = pg_id p.
Proof.
  unfold btree_init_page. cbv zeta.
  intros (? & _ & (? & _ & (? & _ & (? & _ & (? & _ & (? & _ & H)%bind_Ok)%bind_Ok)%bind_Ok)%bind_Ok)%bind_Ok)%bind_Ok. by injection H as <-.
Qed.

Lemma header_size_ok base usable t buf ptrs :
  dims base usable -> array_at base t buf ptrs -> base + 8 <= lenZ buf ->
  header_size base buf = Ok (hsize_of (page_type_u8 t)) /\ cell_pointer_array_size base buf = Ok (lenZ ptrs * 2).
Proof.
  intros Hd HA Hl. pose proof HA as [Hty _ _]. pose proof Hd as [Hb _]. split.
  - unfold header_size, read_u8, BTREE_PAGE_TYPE. rewrite Z.add_0_r, idx_get8, Hty by lia. unfold hsize_of. by destruct t.
  - unfold cell_pointer_array_size. by rewrite (cell_count_ok base usable t Hd _ _ HA Hl).
Qed.

(** ** A root that becomes lower *)

Section shallower.
Context (base usable : Z) (Hdims : dims base usable) (t : PageType).

Lemma copy_into_root_ok parent child cells ca fbs ptrs :
  header_offset child = 0 -> page_wf 0 usable t (as_ptr child) ca fbs ptrs cells ->
  header_offset_of (pg_id parent) = base -> usable <= lenZ (as_ptr parent) -> bytes_ok (as_ptr parent) ->
  base <= free_of 0 usable t cells -> exists parent' child' ca' ptrs',
    copy_into_root usable parent child = Ok (parent', child') /\ page_wf base usable t (as_ptr parent') ca' [] ptrs' cells /\
    (arr 0 t = 12 -> right_of base parent' = right_of 0 child) /\ header_offset parent' = header_offset parent /\
    overflow_cells parent' = overflow_cells parent /\ pg_id parent' = pg_id parent /\ pg_id child' = pg_id child /\
    forall a n, 0 <= a -> a + n <= base \/ usable <= a -> sub (as_ptr parent') a n = sub (as_ptr parent) a n.
Proof.
  intros Hb HW Hoff Hlen Hok Hfree. assert (dims 0 usable) as Hd by (destruct Hdims; split; [by left|done]). pose proof Hdims as [Hbase Hu].
  destruct (defragment_page_ok 0 usable t Hd _ _ _ _ _ (-1) HW) as (buf & ca1 & ptrs1 & Hdef & HW1 & Ho & Hfrag).
  pose proof HW1 as [[HA Hpl _] HS]. pose proof HS as [Hl1 Hb1 [Hlo Hca] _ _ _ _ _ Hsum]. unfold lo_of in Hlo.
  pose proof (get8_u8 buf (0 + 7) Hb1 ltac:(lia)) as [H7 _]. rewrite (sizes_regions _ _ Hpl) in Hsum. cbn [sizes foldr] in Hsum.
  unfold free_of, lo_of in Hfree. assert (arr 0 t = hsize_of (page_type_u8 t)) as Harr by (unfold arr; lia). rewrite Harr in *.
  assert (8 <= hsize_of (page_type_u8 t)) as H8 by (unfold hsize_of; by destruct t). set (h := hsize_of (page_type_u8 t)) in *. pose proof (lenZ_nonneg cells) as Hn.
  unfold copy_into_root. rewrite Hb, Hoff. unfold defragment_page_full. rewrite Hdef. cbn [mbind Result_bind].
  rewrite (cell_content_area_ok 0 usable Hd _ _ _ _ _ HS). cbn [mbind Result_bind]. unfold checked_sub. rewrite (proj2 (Z.leb_le _ _) Hca). cbn [mbind Result_bind].
  replace (ca1 + (usable - ca1)) with usable by lia. rewrite slice_sub by lia. cbn [mbind Result_bind].
  assert (lenZ (sub buf ca1 (usable - ca1)) = usable - ca1) as Hlc by (apply lenZ_sub; lia). rewrite copy_range_ok by lia. cbn [mbind Result_bind].
  destruct (header_size_ok 0 usable t buf ptrs1 Hd HA ltac:(lia)) as [-> ->]. cbn [mbind Result_bind]. rewrite Hpl, Z.add_0_l. fold h.
  rewrite slice_sub by lia. cbn [mbind Result_bind]. rewrite Z.sub_0_r. set (pb := splice (as_ptr parent) ca1 _).
  assert (lenZ pb = lenZ (as_ptr parent)) as Hlp by (unfold pb; rewrite lenZ_splice; lia).
  assert (lenZ (sub buf 0 (h + lenZ cells * 2)) = h + lenZ cells * 2) as Hlh by (apply lenZ_sub; lia). rewrite copy_range_ok by lia. cbn [mbind Result_bind].
  do 2 eexists. exists ca1, ptrs1. split_and!; [done| | |done|done|done|done|]; rewrite ?as_ptr_set.
  - apply (shifted_wf 0 base usable t buf); [done| |fold h; lia]. constructor.
    + rewrite lenZ_splice; lia.
    + apply splice_ok; [apply splice_ok; [done|]|]; by apply sub_ok.
    + fold h. intros i m Hi Hm. destruct (Z.leb_spec m 0).
      { unfold sub. by replace (Z.to_nat m) with 0%nat by lia. }
      rewrite sub_splice_in by lia. rewrite sub_sub by lia. f_equal. lia.
    + intros a m Ha Hm. destruct (Z.leb_spec m 0).
      { unfold sub. by replace (Z.to_nat m) with 0%nat by lia. }
      rewrite sub_splice_ne by lia. unfold pb. rewrite sub_splice_in by lia. rewrite sub_sub by lia. f_equal. lia.
  - intros H12. unfold right_of. rewrite as_ptr_set, sub_splice_in by lia. rewrite sub_sub by lia. f_equal.
    replace (0 + (base + 8 - base)) with 8 by lia. apply (o_right _ _ _ _ _ Ho); lia.
  - intros a n Ha Hor. rewrite sub_splice_ne by lia. unfold pb. by rewrite sub_splice_ne by lia.
Qed.
End shallower.

(** ** A root that becomes higher *)

Section deeper.
Context (base usable : Z) (Hdims : dims base usable) (t : PageType).
#[local] Abbreviation h := (hsize_of (page_type_u8 t)).

(** The child with the contents of the root. *)
Lemma child_shifted root child ca fbs ptrs cells :
  page_wf base usable t root ca fbs ptrs cells -> bytes_ok child -> lenZ child = lenZ root ->
  let n := lenZ cells in
  shifted base 0 usable t root
    (splice (splice (splice child h (sub root (base + h) (2 * n))) ca (sub root ca (lenZ root - ca))) 0 (sub root base h)) ca n.
Proof.
  intros [[_ _ _] [Hl Hb [Hlo Hca] _ _ _ _ _ _]] Hok Hlen n. unfold lo_of, arr in Hlo. fold n in Hlo. destruct Hdims as [Hbase Hu].
  assert (8 <= h) as H8 by (unfold hsize_of; by destruct t). assert (0 <= n) as Hn by apply lenZ_nonneg.
  assert (lenZ (sub root (base + h) (2 * n)) = 2 * n) as L1 by (apply lenZ_sub; lia).
  assert (lenZ (sub root ca (lenZ root - ca)) = lenZ root - ca) as L2 by (apply lenZ_sub; lia).
  assert (lenZ (sub root base h) = h) as L3 by (apply lenZ_sub; lia).
  set (c1 := splice child h _). assert (lenZ c1 = lenZ root) as E1 by (unfold c1; rewrite lenZ_splice; lia).
  set (c2 := splice c1 ca _). assert (lenZ c2 = lenZ root) as E2 by (unfold c2; rewrite lenZ_splice; lia). constructor.
  - rewrite lenZ_splice; lia.
  - repeat apply splice_ok; try apply sub_ok; done.
  - intros i m Hi Hm. apply sub_ext. intros j Hj. destruct (Z.ltb_spec (i + Z.of_nat j) h).
    + rewrite splice_lookup_mid by lia. rewrite sub_lookup by lia. f_equal. lia.
    + rewrite splice_lookup_ge by lia. unfold c2. rewrite splice_lookup_lt by lia. unfold c1. rewrite splice_lookup_mid by lia.
      rewrite sub_lookup by lia. f_equal. lia.
  - intros a m Ha Hm. destruct (Z.leb_spec m 0).
    { unfold sub. by replace (Z.to_nat m) with 0%nat by lia. }
    rewrite sub_splice_ne by lia. unfold c2. rewrite sub_splice_in by lia. rewrite sub_sub by lia. f_equal. lia.
Qed.

(** The root with an only child and no cells. *)
Lemma new_root_ok buf0 child_id :
  usable <= lenZ buf0 -> bytes_ok buf0 -> is_u32 child_id -> exists buf,
    write_new_root usable base buf0 (parent_type t) child_id = Ok buf /\
    page_wf base usable (parent_type t) buf usable [] [] [] /\ be_combine (sub buf (base + 8) 4) = child_id /\
    forall a n, 0 <= a -> a + n <= base \/ usable <= a -> sub buf a n = sub buf0 a n.
Proof.
  intros Hl Hok Hid. destruct Hdims as [Hbase Hu].
  unfold write_new_root, write_page_type, BTREE_PAGE_TYPE. rewrite write_u8_ok by lia. cbn [mbind Result_bind].
  pose proof (be_split_lenZ 2 0). pose proof (be_split_lenZ 2 (u16 usable)). pose proof (be_split_lenZ 4 child_id).
  set (b1 := splice buf0 _ _). assert (lenZ b1 = lenZ buf0) by (apply lenZ_splice; rewrite ?lenZ_single; lia).
  unfold write_rightmost_ptr, write_u32, BTREE_RIGHTMOST_PTR.
  assert (write_slice b1 (base + 8) (be_split 4 child_id) = Ok (splice b1 (base + 8) (be_split 4 child_id))) as ->
    by (apply write_slice_Ok; split_and!; (done || lia)). cbn [mbind Result_bind].
  set (b2 := splice b1 _ _). assert (lenZ b2 = lenZ buf0) by (unfold b2; rewrite lenZ_splice; lia).
  rewrite (write_ca_ok base usable) by (done || lia). cbn [mbind Result_bind].
  set (b3 := splice b2 _ _). assert (lenZ b3 = lenZ buf0) by (unfold b3; rewrite lenZ_splice; lia).
  rewrite (write_count_ok base usable) by (done || lia). cbn [mbind Result_bind].
  set (b4 := splice b3 _ _). assert (lenZ b4 = lenZ buf0) by (unfold b4; rewrite lenZ_splice; lia).
  rewrite (write_first_ok base usable) by (done || lia). cbn [mbind Result_bind].
  set (b5 := splice b4 _ _). assert (lenZ b5 = lenZ buf0) by (unfold b5; rewrite lenZ_splice; lia).
  rewrite (write_frag_ok base usable) by (done || lia). set (b6 := splice b5 _ _). exists b6. split_and!; [done| | |].
  - apply (page_wf_empty base usable _ Hdims).
    + unfold b6. rewrite lenZ_splice; rewrite ?lenZ_single; lia.
    + unfold b6, b5, b4, b3, b2, b1. repeat apply splice_ok; try apply be_split_ok; try done; apply Forall_singleton; try destruct t; done.
    + skip_write b6. skip_write b5. skip_write b4. skip_write b3. skip_write b2. unfold b1. rewrite <- (Z.add_0_r base) at 2. apply get8_splice; lia.
    + skip_write b6. skip_write b5. apply get16_splice; (done || lia).
    + skip_write b6. skip_write b5. skip_write b4. apply get16_splice; [lia|lia|]. unfold is_u16, u16. by apply Z.mod_pos_bound.
    + skip_write b6. apply get16_splice; (done || lia).
    + apply get8_splice; lia.
  - skip_write b6. skip_write b5. skip_write b4. skip_write b3. unfold b2. rewrite sub_splice_eq by lia. by apply be32_roundtrip.
  - intros a n Ha Hor. skip_write b6. skip_write b5. skip_write b4. skip_write b3. skip_write b2. by skip_write b1.
Qed.

(** C10: [balance_root] moves everything on the root to a new child, cells that did
    not fit included, and leaves the root without cells and with the child as its
    only one.  The child has the cells in the same order and, if it is an interior
    page, the right pointer of the root; the root is an interior page of the same
    kind of tree.  On page 1 the database header is not touched, nor is anything
    after the usable space. *)
Theorem root_grows root child a cbuf :
  represents base usable t root a -> header_offset_of (pg_id root) = base ->
  header_offset child = 0 -> buffer child = Some cbuf -> bytes_ok cbuf -> lenZ cbuf = lenZ (as_ptr root) -> is_u32 (pg_id child) ->
  exists root' child', balance_root usable root child = Ok (root', child') /\
    represents base usable (parent_type t) root' (mkAPage [] []) /\ right_of base root' = pg_id child /\ pg_id root' = pg_id root /\
    represents 0 usable t child' a /\ (arr 0 t = 12 -> right_of 0 child' = right_of base root) /\ pg_id child' = pg_id child /\
    forall a n, 0 <= a -> a + n <= base \/ usable <= a -> sub (as_ptr root') a n = sub (as_ptr root) a n.
Proof.
  intros [Hb Hov (ca & fbs & ptrs & HW)] Hoff Hcb Hbuf Hcok Hlen Hid. assert (dims 0 usable) as Hd by (destruct Hdims; split; [by left|done]).
  pose proof Hdims as [Hbase Hu]. pose proof HW as [[HA Hpl _] HS]. pose proof HS as [Hl Hok [Hlo Hca] _ _ _ _ _ _].
  unfold lo_of, arr in Hlo. pose proof (lenZ_nonneg (a_cells a)) as Hn. assert (8 <= h <= 12) as H8 by (unfold hsize_of; destruct t; cbn; lia).
  destruct (init_represents 0 usable t Hd child cbuf Hcb Hbuf ltac:(lia) Hcok) as (child1 & Hinit & [Hb1 Ho1 (ca1 & fbs1 & ptrs1 & HW1)] & Hl1 & _).
  pose proof HW1 as [[HA1 _ _] HS1]. pose proof HS1 as [_ Hok1 _ _ _ _ _ _ _].
  unfold balance_root. rewrite Hb, Hoff, (page_type_ok base usable t Hdims _ _ HA) by lia. cbn [mbind Result_bind]. rewrite Hinit. cbn [mbind Result_bind].
  unfold cell_pointer_array_offset_and_size. rewrite (array_ok base usable t Hdims _ _ HA) by lia. rewrite Hb1, (array_ok 0 usable t Hd _ _ HA1) by lia.
  destruct (header_size_ok base usable t _ _ Hdims HA ltac:(lia)) as [Hhs Hps]. destruct (header_size_ok 0 usable t _ _ Hd HA1 ltac:(lia)) as [_ Hps1].
  cbn [mbind Result_bind]. rewrite Hps, Hps1. cbn [mbind Result_bind]. rewrite (cell_content_area_ok base usable Hdims _ _ _ _ _ HS). cbn [mbind Result_bind].
  unfold arr. rewrite Hpl, Z.add_0_l. set (n := lenZ (a_cells a)) in *.
  assert (lenZ (sub (as_ptr root) (base + h) (n * 2)) = n * 2) as L1 by (apply lenZ_sub; lia).
  assert (lenZ (sub (as_ptr root) ca (lenZ (as_ptr root) - ca)) = lenZ (as_ptr root) - ca) as L2 by (apply lenZ_sub; lia).
  assert (lenZ (sub (as_ptr root) base h) = h) as L3 by (apply lenZ_sub; lia).
  rewrite slice_sub by lia. cbn [mbind Result_bind]. replace (base + h + n * 2 - (base + h)) with (n * 2) by lia.
  rewrite copy_range_ok by lia. cbn [mbind Result_bind]. unfold slice_from. rewrite slice_sub by lia. cbn [mbind Result_bind].
  rewrite copy_range_ok by (rewrite ?lenZ_splice; lia). cbn [mbind Result_bind]. rewrite Hhs. cbn [mbind Result_bind]. rewrite slice_sub by lia. cbn [mbind Result_bind].
  replace (base + h - base) with h by lia. rewrite copy_range_ok by (rewrite ?lenZ_splice by (rewrite ?lenZ_splice; lia); lia). cbn [mbind Result_bind].
  destruct (new_root_ok (as_ptr root) (pg_id child1) Hl Hok) as (buf & Hnew & HWr & Hright & Hout); [by rewrite (init_keeps_id _ _ _ _ Hinit)|].
  pose proof (init_keeps_id _ _ _ _ Hinit) as Hid1. cbn [pg_id set_overflow_cells set_buffer]. rewrite (u32_id (pg_id child1)) by congruence.
  assert (match t with IndexLeaf => IndexInterior | TableLeaf => TableInterior | other => other end = parent_type t) as -> by (by destruct t).
  rewrite Hnew. cbn [mbind Result_bind].
  assert (bytes_ok (as_ptr child1) /\ lenZ (as_ptr child1) = lenZ (as_ptr root)) as [Hc1 Hc2] by (split; [done|lia]).
  pose proof (child_shifted (as_ptr root) (as_ptr child1) ca fbs ptrs (a_cells a) HW Hc1 Hc2) as HM. cbn zeta in HM. fold n in HM. replace (2 * n) with (n * 2) in HM by lia.
  do 2 eexists. split_and!; [done| | |done| | |done|].
  - constructor; [done|done|]. exists usable, [], []. exact HWr.
  - unfold right_of. rewrite <- Hid1. exact Hright.
  - constructor; [done|done|]. exists ca, fbs, ptrs. eapply (shifted_wf base 0); [exact HW|exact HM|fold n; lia].
  - intros H12. unfold right_of. rewrite <- (mv_header _ _ _ _ _ _ _ _ HM 8 4) by (unfold arr in H12; lia). done.
  - exact Hout.
Qed.
End deeper.

(** ** Page 1 of 512 bytes *)

Definition page_one : PageInner := mkPage 0 1 100 0 0 (Some (replicate 512 0)) [].
Definition root_ops : list PageOp := leaf_ops 1 ++ [PInsert 1 (demo_cell 9 127) false].
Definition demo_root : PageInner :=
  match p ← btree_init_page page_one TableLeaf 512; prun 512 root_ops p with Ok p => p | _ => page_one end.

Lemma demo_root_represents : represents 100 512 TableLeaf demo_root (arun 100 512 TableLeaf root_ops (mkAPage [] [])).
Proof.
  destruct (init_represents 100 512 TableLeaf dims_512 page_one (replicate 512 0)) as (p0 & H0 & HR & _); [done|done|done|by apply bytes_ok_dec|].
  destruct (prun_refines 100 512 TableLeaf dims_512 root_ops p0 _ HR) as (p & Hp & HR' & _); [apply valid_runb_ok; vm_compute; reflexivity|].
  unfold demo_root. rewrite H0. cbn [mbind Result_bind]. rewrite Hp. exact HR'.
Qed.

Lemma root_grows_witness : exists root' child' a,
  balance_root 512 demo_root blank_page = Ok (root', child') /\ a_over a <> [] /\
  represents 100 512 TableInterior root' (mkAPage [] []) /\ right_of 100 root' = 2 /\ represents 0 512 TableLeaf child' a.
Proof.
  destruct (root_grows 100 512 dims_512 TableLeaf demo_root blank_page (arun 100 512 TableLeaf root_ops (mkAPage [] [])) (replicate 512 0))
    as (root' & child' & H1 & H2 & H3 & _ & H5 & _).
  - exact demo_root_represents.
  - vm_compute. reflexivity.
  - reflexivity.
  - reflexivity.
  - apply bytes_ok_dec. vm_compute. reflexivity.
  - vm_compute. reflexivity.
  - vm_compute. split; [discriminate|reflexivity].
  - exists root', child', (arun 100 512 TableLeaf root_ops (mkAPage [] [])). split; [exact H1|]. split; [vm_compute; discriminate|].
    split; [exact H2|]. split; [exact H3|exact H5].
Defined.
