(* ===== verification/BtreeNonRoot.v ===== *)
(** * BtreeNonRoot: balancing below a parent page

    Composes the choice of the siblings, the removal of their dividers, the new
    distribution, the update of the parent and the copy of an only child into the
    root to [balance_non_root] of core/storage/btree.rs.  The siblings are read
    from the pager, and new pages come from it; the pages it frees are part of the
    result. *)

From S2P Require Import Prelude Varint OnDisk Page BtreePage BtreeSpace BtreeCells BtreeDefrag BtreeInsert BtreeRefine.
From S2P Require Import BtreePayload BtreeBalance BtreeDistribute BtreeFree BtreeBulk BtreeEdit BtreeSiblings BtreeGather BtreeRedist.
From S2P Require Import BtreeBalanced BtreeParent BtreeDividers BtreeRoot.

(** ** The code *)

Section code.
Context (usable_space : Z) (read_page : Z -> option PageInner).

Fixpoint read_pages (ids : list Z) : Result (list PageInner) :=
  match ids with
  | [] => Ok []
  | id :: ids => p ← unwrap (read_page id); rest ← read_pages ids; Ok (p :: rest)
  end.

(** The states up to the edit of the pages: the parent, all pages with the new
    siblings first, and the numbers of old and new siblings. *)
Definition do_balancing (parent : PageInner) (current_cell_index database_size : Z) (fresh : list PageInner)
    : Result (PageInner * list PageInner * Z * Z) :=
  '(_, info) ← pick_siblings usable_space parent current_cell_index;
  old_pages ← read_pages (pages_to_balance info);
  parent_page_type ← page_type (header_offset parent) (as_ptr parent);
  '(parent, dividers) ←
    take_dividers usable_space parent parent_page_type (first_divider_cell info) (Z.to_nat (sibling_count info) - 1) [];
  p ← unwrap (head old_pages);
  t ← page_type (header_offset p) (as_ptr p);
  let is_table_leaf := bool_decide (t = TableLeaf) in
  let is_leaf_page := bool_decide (t = TableLeaf \/ t = IndexLeaf) in
  '(pages, old_cumulative, cell_array, sibling_count_new) ← plan_siblings usable_space t old_pages dividers fresh;
  let k := Z.to_nat sibling_count_new in
  let pages := reassign_numbers k pages in
  last ← unwrap (pages !! (k - 1)%nat);
  parent ← write_last_pointer parent (bi_rightmost_pointer info) (pg_id last);
  pages ← (if is_leaf_page then Ok pages else last_right_pointer (length old_pages) k pages);
  _ ← turso_assert (bool_decide (overflow_cells parent = []));
  '(pages, parent) ←
    insert_dividers usable_space (k - 1) 0 is_table_leaf is_leaf_page database_size (first_divider_cell info) cell_array pages parent;
  pages ← edit_siblings usable_space is_table_leaf (Z.of_nat (length old_pages)) sibling_count_new old_cumulative cell_array pages;
  Ok (parent, pages, Z.of_nat (length old_pages), sibling_count_new).

(** The whole operation: the parent, the siblings and the pages that are freed. *)
Definition balance_non_root (parent_is_root : bool) (parent : PageInner) (current_cell_index database_size : Z) (fresh : list PageInner)
    : Result (PageInner * list PageInner * list Z) :=
  '(parent, pages, sibling_count, sibling_count_new) ← do_balancing parent current_cell_index database_size fresh;
  first_child ← unwrap (head pages);
  count ← cell_count (header_offset parent) (as_ptr parent);
  shallower ←
    (if parent_is_root && (count =? 0) then
       free ← compute_free_space (header_offset first_child) usable_space (as_ptr first_child);
       Ok (header_offset parent <=? free)
     else Ok false);
  '(parent, sibling_count_new) ←
    (if (shallower : bool) then
       _ ← turso_assert (sibling_count_new =? 1);
       '(parent, _) ← copy_into_root usable_space parent first_child;
       _ ← turso_assert (sibling_count_new - 1 <? sibling_count);
       Ok (parent, sibling_count_new - 1)
     else Ok (parent, sibling_count_new));
  let n := Z.to_nat sibling_count_new in
  Ok (parent, take n pages, pg_id <$> drop n (take (Z.to_nat sibling_count) pages)).
End code.

(** ** Page numbers *)

Fixpoint ascending_ids (l : list Z) : Prop :=
  match l with [] => True | x :: l' => Forall (Z.le x) l' /\ ascending_ids l' end.

Lemma insert_sorted_perm x l : insert_sorted x l ≡ₚ x :: l.
Proof. induction l as [|y l IH]; [done|]. cbn. destruct (x <=? y); [done|]. rewrite IH. apply perm_swap. Qed.

Lemma sort_numbers_perm l : sort_numbers l ≡ₚ l.
Proof. induction l as [|x l IH]; [done|]. cbn. rewrite insert_sorted_perm. by rewrite IH. Qed.

Lemma insert_sorted_ascending x l : ascending_ids l -> ascending_ids (insert_sorted x l).
Proof.
  induction l as [|y l IH]; [by repeat constructor|]. intros [Hy Hl]. cbn. destruct (Z.leb_spec x y).
  - split; [|done]. constructor; [done|]. eapply Forall_impl; [exact Hy|]. cbn. lia.
  - split; [|by apply IH]. rewrite insert_sorted_perm. constructor; [lia|done].
Qed.

Lemma sort_numbers_ascending l : ascending_ids (sort_numbers l).
Proof. induction l as [|x l IH]; [done|]. by apply insert_sorted_ascending. Qed.

Lemma renumber_id p id : pg_id (renumber p id) = id.
Proof. unfold renumber. by destruct (Z.eqb_spec id (pg_id p)) as [->|]. Qed.

Lemma reassign_ids k P :
  pg_id <$> take k (reassign_numbers k P) = sort_numbers (pg_id <$> take k P) /\ length (reassign_numbers k P) = length P.
Proof.
  unfold reassign_numbers. set (ids := sort_numbers _). assert (length ids = length (take k P)) as Hl.
  { unfold ids. rewrite (Permutation_length (sort_numbers_perm _)). by rewrite length_fmap. }
  assert (length (zip_with renumber (take k P) ids) = length (take k P)) as Hz by (rewrite length_zip_with; lia).
  split.
  - assert (take k (zip_with renumber (take k P) ids ++ drop k P) = zip_with renumber (take k P) ids) as ->.
    { destruct (Nat.leb_spec k (length P)); [rewrite take_app_length'; [done|rewrite Hz, length_take; lia]|].
      rewrite (drop_ge P) by lia. rewrite app_nil_r. apply take_ge. rewrite Hz, length_take. lia. }
    clearbody ids. clear -Hl. revert ids Hl. induction (take k P) as [|p ps IH]; intros [|i ids] Hl; try done. cbn. f_equal; [apply renumber_id|]. apply IH. cbn in Hl. lia.
  - rewrite length_app, Hz, <- length_app. by rewrite take_drop.
Qed.

Lemma renumber_hold usable t p m id : id <> 1 -> holds usable t p m -> holds usable t (renumber p id) m.
Proof.
  intros Hid Hh. unfold renumber. destruct (id =? pg_id p); [done|]. destruct Hh. constructor; try done. cbn [header_offset set_id]. unfold header_offset_of.
  by rewrite (proj2 (Z.eqb_neq _ _) Hid).
Qed.

Lemma reassign_hold usable t k P ms :
  Forall (fun id => id <> 1) (pg_id <$> take k P) -> all_hold usable t P ms -> all_hold usable t (reassign_numbers k P) ms.
Proof.
  intros Hne HP. unfold reassign_numbers. rewrite <- (take_drop k ms). apply Forall2_app; [|by apply Forall2_drop].
  rewrite <- (sort_numbers_perm (pg_id <$> take k P)) in Hne.
  assert (length (sort_numbers (pg_id <$> take k P)) = length (take k P)) as Hl
    by (rewrite (Permutation_length (sort_numbers_perm _)); by rewrite length_fmap).
  revert Hl Hne. generalize (sort_numbers (pg_id <$> take k P)). apply (Forall2_take _ _ _ k) in HP. revert HP. generalize (take k P), (take k ms).
  intros P0 ms0 HP. induction HP as [|p m P0 ms0 [Hh Hov] _ IH]; intros [|i ids] Hl Hne; try done. apply Forall_cons in Hne as [Hi Hne].
  constructor; [split; [by apply renumber_hold|by unfold renumber; destruct (i =? pg_id p)]|]. apply IH; [|done]. cbn in Hl. lia.
Qed.

Lemma allocate_ids usable t ps n : forall i fresh old np old',
  allocate_pages usable n i t ps fresh old = Ok (np, old') -> pg_id <$> np = take n (pg_id <$> fresh).
Proof.
  induction n as [|n IH]; intros i fresh old np old' H; cbn [allocate_pages] in H; [by injection H as <- <-|].
  apply bind_Ok in H as (p & Hp%unwrap_Ok & (p' & Hi%init_keeps_id & (o & _ & ([np' o'] & Ha & H)%bind_Ok)%bind_Ok)%bind_Ok).
  injection H as <- <-. destruct fresh as [|x fresh]; [done|]. injection Hp as ->. cbn. f_equal; [done|]. by eapply IH.
Qed.

Lemma plan_ids usable t old dividers fresh P oc ca n :
  plan_siblings usable t old dividers fresh = Ok (P, oc, ca, n) ->
  pg_id <$> P = (pg_id <$> old) ++ take (Z.to_nat n - length old) (pg_id <$> fresh).
Proof.
  unfold plan_siblings. intros ([cp o1] & _ & (d & _ & (d' & _ & ([np o2] & Ha%allocate_ids & H)%bind_Ok)%bind_Ok)%bind_Ok)%bind_Ok.
  injection H as <- _ _ <-. by rewrite fmap_app, Ha.
Qed.

Lemma reassign_right k P i : right_ptr <$> reassign_numbers k P !! i = right_ptr <$> P !! i.
Proof.
  unfold reassign_numbers. set (ids := sort_numbers _). assert (length ids = length (take k P)) as Hl.
  { unfold ids. rewrite (Permutation_length (sort_numbers_perm _)). by rewrite length_fmap. }
  clearbody ids. assert (P !! i = (take k P ++ drop k P) !! i) as -> by (by rewrite take_drop). revert ids Hl i. induction (take k P) as [|p ps IH]; intros [|x ids] Hl i; try done.
  destruct i as [|i]; [cbn; unfold renumber; by destruct (x =? pg_id p)|]. cbn. apply IH. cbn in Hl. lia.
Qed.

Lemma read_pages_ok read_page ids pages :
  Forall2 (fun id p => read_page id = Some p) ids pages -> read_pages read_page ids = Ok pages.
Proof. induction 1 as [|id p ids pages Hp _ IH]; [done|]. cbn [read_pages]. rewrite Hp. cbn [unwrap mbind Result_bind]. by rewrite IH. Qed.

(** ** Editing keeps the page numbers *)

Lemma set_keeps_ids (P : list PageInner) (j : nat) p p' :
  P !! j = Some p -> pg_id p' = pg_id p -> pg_id <$> <[j := p']> P = pg_id <$> P.
Proof. intros Hp Hid. rewrite list_fmap_insert. apply list_insert_id. rewrite list_lookup_fmap, Hp. cbn. by rewrite Hid. Qed.

Lemma insert_loop_ids n : forall P j cells first astart sinsert content P' c,
  insert_array_loop n P j cells first astart sinsert content = Ok (P', c) -> pg_id <$> P' = pg_id <$> P.
Proof.
  induction n as [|n IH]; intros P j cells first astart sinsert content P' c H; cbn [insert_array_loop] in H; steps_of H; [done|].
  apply IH in H. rewrite H. by eapply set_keeps_ids.
Qed.

Lemma insert_array_ids P j first count cells start P' :
  page_insert_array P j first count cells start = Ok P' -> pg_id <$> P' = pg_id <$> P.
Proof.
  unfold page_insert_array. intros H. steps_of H; [done| |];
    match goal with Hl : insert_array_loop _ _ _ _ _ _ _ _ = Ok _ |- _ => apply insert_loop_ids in Hl as Hids end;
    (erewrite set_keeps_ids by done; rewrite Hids; by eapply set_keeps_ids).
Qed.

Lemma insert_overflow_ids oc : forall P j old new n cells count P' c,
  insert_overflow_loop oc P j old new n cells count = Ok (P', c) -> pg_id <$> P' = pg_id <$> P.
Proof.
  induction oc as [|o oc IH]; intros P j old new n cells count P' c H; cbn [insert_overflow_loop] in H; steps_of H; [done| |by eapply IH].
  apply IH in H. rewrite H. by eapply insert_array_ids.
Qed.

Lemma free_array_id usable j p first count cells n p' : page_free_array usable j p first count cells = Ok (n, p') -> pg_id p' = pg_id p.
Proof. unfold page_free_array. intros H. by steps_of H. Qed.

Lemma shift_cells_id p n m p' : shift_cells_left p n m = Ok p' -> pg_id p' = pg_id p.
Proof. unfold shift_cells_left. intros H. by steps_of H. Qed.

Lemma edit_page_ids usable P j old new n cells P' :
  edit_page usable P j old new n cells = Ok P' -> pg_id <$> P' = pg_id <$> P.
Proof.
  unfold edit_page. intros (p & Hp%unwrap_Ok & H)%bind_Ok. apply bind_Ok in H as (cnt & _ & H).
  apply bind_Ok in H as ([p1 n1] & H1 & ([p2 n2] & H2 & (buf & _ & ([P3 n3] & H3 & ([P4 n4] & H4%insert_overflow_ids & (rest & _ & (P5 & H5%insert_array_ids & (p6 & Hp6%unwrap_Ok & (b & _ & H)%bind_Ok)%bind_Ok)%bind_Ok)%bind_Ok)%bind_Ok)%bind_Ok)%bind_Ok)%bind_Ok).
  injection H as <-. assert (pg_id p1 = pg_id p) as E1 by (steps_of H1; [|done]; erewrite shift_cells_id by done; by eapply free_array_id).
  assert (pg_id p2 = pg_id p1) as E2 by (steps_of H2; [by eapply free_array_id|done]).
  assert (pg_id <$> P3 = pg_id <$> P) as E3.
  { steps_of H3; [erewrite insert_array_ids by done|]; (eapply set_keeps_ids; [done|]; cbn; congruence). }
  erewrite set_keeps_ids by done. congruence.
Qed.

Lemma edit_loop_ids usable tl s oc ca order : forall done P P',
  edit_siblings_loop usable order tl s oc ca done P = Ok P' -> pg_id <$> P' = pg_id <$> P.
Proof.
  induction order as [|i order IH]; intros dn P P' H; cbn [edit_siblings_loop] in H; [by injection H as <-|].
  apply bind_Ok in H as (d & _ & H). destruct d; [by eapply IH|]. apply bind_Ok in H as (al & _ & H). destruct al; [|by eapply IH].
  apply bind_Ok in H as ([[so sn] nn] & _ & (P1 & H1%edit_page_ids & (p & Hp%unwrap_Ok & (dn' & _ & H)%bind_Ok)%bind_Ok)%bind_Ok).
  apply IH in H. rewrite H. by erewrite set_keeps_ids.
Qed.

(** ** The whole operation *)

(** The divider between two new siblings, from the left one. *)
Definition divides (t : PageType) (id : Z) (x : list bytes * option bytes) (d : bytes) : Prop :=
  match t with
  | IndexInterior | TableInterior => exists c, snd x = Some c /\ d = set_child id c
  | IndexLeaf => exists c, snd x = Some c /\ d = be_split 4 id ++ unpadded c
  | TableLeaf => exists c key, last (fst x) = Some c /\ leaf_key c = Ok key /\ d = be_split 4 id ++ varint_encode key
  end.

Lemma divides_child t id x d : is_u32 id -> divides t id x d -> child_ptr d = id.
Proof.
  intros Hid Hd. assert (forall y, child_ptr (be_split 4 id ++ y) = id) as Hf.
  { intros y. unfold child_ptr. change (sub (be_split 4 id ++ y) 0 4) with (be_split 4 id). by apply be32_roundtrip. }
  destruct t; cbn in Hd.
  - destruct Hd as (c & _ & ->). by apply set_child_ptr.
  - destruct Hd as (c & _ & ->). by apply set_child_ptr.
  - destruct Hd as (c & _ & ->). apply Hf.
  - destruct Hd as (c & key & _ & _ & ->). apply Hf.
Qed.

Lemma parent_interior t : parent_type t = IndexInterior \/ parent_type t = TableInterior.
Proof. destruct t; by (left + right). Qed.

Section non_root.
Context (base usable : Z) (Hparent : dims base usable) (t : PageType).
Context (parent : PageInner) (ca : Z) (fbs : list block) (ptrs : list Z) (cells : list bytes) (over : option (nat * bytes)).
Context (HP : parent_is base usable (parent_type t) parent ca fbs ptrs cells over).
#[local] Abbreviation L := (logical cells over).
#[local] Abbreviation C := (children L (right_of base parent)).
Context (q : nat) (cci : Z) (Hat : at_page cells over q cci).
Context (k first : nat) (Hchoice : choose_siblings (Z.of_nat (length L)) (Z.of_nat q) = (Z.of_nat k, Z.of_nat first)).
Context (pages fresh : list PageInner) (l : list sibling) (HB : balanceable usable t pages (take k (drop first L)) fresh l).

Lemma dims_zero : dims 0 usable.
Proof. destruct Hparent. split; [by left|done]. Qed.

(** The parent without the dividers, and where the pointer to the last sibling is. *)
Lemma parent_taken : exists loc parent1 ca1 fbs1 ptrs1,
  pick_siblings usable parent cci = Ok (Z.of_nat q, mkBalanceInfo (take (S k) (drop first C)) loc (Z.of_nat (S k)) (Z.of_nat first)) /\
  take_dividers usable parent (parent_type t) (Z.of_nat first) k [] = Ok (parent1, take k (drop first L)) /\
  parent_is base usable (parent_type t) parent1 ca1 fbs1 ptrs1 (take first L ++ drop (first + k) L) None /\
  pointer_at base ptrs1 (take first L ++ drop (first + k) L) None first loc /\
  right_of base parent1 = right_of base parent /\ pg_id parent1 = pg_id parent /\ (first + k <= length L)%nat.
Proof.
  destruct (pick_ok base usable _ Hparent (parent_interior t) parent _ _ _ _ _ HP q cci Hat) as (k' & first' & loc & Hpick & [Hch _ Hr Hov Hloc]).
  rewrite Hchoice in Hch. injection Hch as Hk%Nat2Z.inj Hf%Nat2Z.inj. rewrite <- Hk, <- Hf in *.
  destruct (take_loop base usable _ Hparent (parent_interior t) first loc k parent _ _ _ _ _ [] HP) as (parent1 & ca1 & fbs1 & ptrs1 & Htake & HP1 & Hloc1 & Ho & Hid); [lia|done|done|].
  rewrite app_nil_r in Htake. exists loc, parent1, ca1, fbs1, ptrs1. split_and!; [done|done|done|done| |done|lia].
  unfold right_of. f_equal. apply (o_right _ _ _ _ _ Ho); [lia|]. unfold arr. destruct (parent_interior t) as [-> | ->]; cbn; lia.
Qed.

(** The children of the parent after its update. *)
Lemma children_relinked R id D ids :
  (first + k <= length L)%nat -> is_u32 id -> child_ptr <$> D = ids ->
  let C1 := take first L ++ drop (first + k) L in
  children (take first (relink first id C1) ++ D ++ drop first (relink first id C1)) (if decide (first = length C1) then id else R) =
    take first (children L R) ++ (ids ++ [id]) ++ drop (first + S k) (children L R).
Proof.
  intros Hk Hid HD C1. assert (length (take first L) = first) as Hlt by (rewrite length_take; lia).
  assert (first <= length C1)%nat as Hf by (unfold C1; rewrite length_app; lia).
  pose proof (relink_children first id C1 R Hf Hid) as HC. set (C2 := relink first id C1) in *. set (R2 := if decide _ then id else R) in *.
  assert (first <= length C2)%nat as Hf2 by (unfold C2, relink; destruct (C1 !! first); [rewrite length_insert|]; lia).
  assert (children C1 R = take first (children L R) ++ drop (first + k) (children L R)) as H1.
  { unfold children, C1. rewrite take_app_le, drop_app_le by (rewrite length_fmap; lia). by rewrite fmap_app, fmap_take, fmap_drop, app_assoc. }
  assert (length (take first (children L R)) = first) as Hlc by (unfold children; rewrite length_take, length_app, length_fmap; cbn; lia).
  assert (children (take first C2 ++ D ++ drop first C2) R2 = take first (children C2 R2) ++ ids ++ drop first (children C2 R2)) as ->.
  { unfold children. rewrite take_app_le, drop_app_le by (rewrite length_fmap; lia). rewrite !fmap_app, HD, fmap_take, fmap_drop. by rewrite <- !app_assoc. }
  destruct (drop (first + k) (children L R)) as [|y ys] eqn:E.
  { apply (f_equal length) in E. unfold children in E. rewrite length_drop, length_app, length_fmap in E. cbn in E. lia. }
  rewrite HC, H1, insert_app_r_alt, Hlc, Nat.sub_diag by lia. cbn [insert list_insert].
  rewrite take_app_length', drop_app_length' by done. rewrite <- app_assoc. do 3 f_equal. cbn. f_equal.
  replace (first + S k)%nat with (first + k + 1)%nat by lia. by rewrite <- drop_drop, E.
Qed.

Context (read_page : Z -> option PageInner) (Hread : Forall2 (fun id p => read_page id = Some p) (take (S k) (drop first C)) pages).
Context (dbsize : Z) (Hids : Forall (fun id => is_u32 id /\ id <> 1 /\ id <> u32 (pg_id parent) /\ id <= dbsize) (pg_id <$> pages ++ fresh)).

(** The planned pages with their new numbers. *)
Lemma numbers_planned : exists np d c n,
  plan_siblings usable t pages (take k (drop first L)) fresh =
    Ok (pages ++ np, Z.of_nat <$> olds_of l n, mkCellArray (all_refs 0 l) (Z.of_nat <$> c), Z.of_nat n) /\
  planned usable t l (reassign_numbers n (pages ++ np)) d c n /\ length pages = length l /\
  pg_id <$> take n (reassign_numbers n (pages ++ np)) = sort_numbers (take n (pg_id <$> pages ++ fresh)) /\
  right_ptr <$> reassign_numbers n (pages ++ np) !! (length l - 1)%nat = right_ptr <$> pages !! (length l - 1)%nat.
Proof.
  destruct (plan_ok usable dims_zero t _ _ _ _ HB) as (np & d & c & n & Hp & [HS Hl HP0] & Hlen).
  pose proof (ba_count _ _ _ _ _ _ HB) as Hc. pose proof (plan_ids _ _ _ _ _ _ _ _ _ Hp) as Hi. rewrite Nat2Z.id in Hi.
  assert (pg_id <$> take n (pages ++ np) = take n (pg_id <$> pages ++ fresh)) as E
    by (rewrite fmap_take, Hi, fmap_app, !take_app, take_take, length_fmap; by rewrite Nat.min_id).
  destruct (reassign_ids n (pages ++ np)) as [Hr Hrl]. exists np, d, c, n. split_and!; [done| |done|by rewrite Hr, E|].
  - constructor; [done|by rewrite Hrl|apply reassign_hold; [|done]]. rewrite E. apply Forall_take. eapply Forall_impl; [exact Hids|]. cbn. tauto.
  - by rewrite reassign_right, lookup_app_l by lia.
Qed.

(** The pages that are not siblings any more keep their numbers. *)
Lemma freed_ids np n : length pages = length l -> drop n (take (length l) (pg_id <$> reassign_numbers n (pages ++ np))) = drop n (pg_id <$> pages).
Proof.
  intros <-. unfold reassign_numbers. rewrite fmap_app. set (A := pg_id <$> zip_with _ _ _).
  assert (length A = Nat.min n (length (pages ++ np))) as HA.
  { unfold A. rewrite length_fmap, length_zip_with, (Permutation_length (sort_numbers_perm _)), length_fmap, length_take. lia. }
  rewrite length_app in HA.
  destruct (Nat.leb_spec (length pages) n) as [Hle|Hlt].
  - rewrite drop_ge by (rewrite length_take; lia). symmetry. apply drop_ge. rewrite length_fmap. lia.
  - rewrite take_app_ge by lia. rewrite drop_app_length' by lia. rewrite HA, Nat.min_l by lia. rewrite <- fmap_take, <- fmap_drop. f_equal.
    rewrite drop_app_le by lia. apply take_app_length'. rewrite length_drop. lia.
Qed.

(** The numbers of the new siblings. *)
Lemma numbers_ok n id : id ∈ sort_numbers (take n (pg_id <$> pages ++ fresh)) -> is_u32 id /\ id <> 1 /\ id <> u32 (pg_id parent) /\ id <= dbsize.
Proof. rewrite sort_numbers_perm. intros Hin. rewrite Forall_forall in Hids. apply Hids. apply elem_of_take in Hin as (i & Hi & _). by eapply list_elem_of_lookup_2. Qed.

Lemma last_right_set P d c n :
  planned usable t l P d c n -> right_ptr <$> P !! (length l - 1)%nat = right_ptr <$> pages !! (length l - 1)%nat -> exists P1,
    (if leaf t then Ok P else last_right_pointer (length l) n P) = Ok P1 /\ planned usable t l P1 d c n /\ pg_id <$> P1 = pg_id <$> P /\
    (leaf t = false -> exists p, P1 !! (n - 1)%nat = Some p /\ right_ptr p = from_option right_ptr 0 (pages !! (length l - 1)%nat)).
Proof.
  intros HPl Hr. destruct (leaf t) eqn:El; [by exists P|]. destruct HPl as [HS Hl Hh]. pose proof (sp_k _ _ _ _ _ _ _ _ HS) as Hk.
  destruct (last_right_ok usable dims_zero t _ _ _ _ HB n P El ltac:(lia) Hl Hr Hh) as (P1 & Hset & HP1 & HlP1 & Hlast).
  exists P1. split_and!; [done|constructor; [done|congruence|done]| |done].
  unfold last_right_pointer in Hset. steps_of Hset. by eapply set_right_ids.
Qed.

(** What the divider of page [j] is made from. *)
Lemma divides_part d c n j id e :
  spreading (table_leaf t) (all_refs 0 l) (usable - arr 0 t) (extra_of (leaf t) l) 0 d c n -> (S j < n)%nat ->
  divider_is t (all_cells l) (upto c j) id e -> divides t id (part (table_leaf t) l c n j) e.
Proof.
  intros HS Hj Hd. assert (table_leaf t = false -> snd (part (table_leaf t) l c n j) = all_cells l !! upto c j) as Hsnd.
  { intros E. cbn [part snd]. rewrite E. by rewrite (proj2 (Nat.ltb_lt _ _) Hj). }
  assert (last (fst (part (table_leaf t) l c n j)) = all_cells l !! (upto c j - 1)%nat) as Hlast.
  { pose proof (part_nonempty usable dims_zero t _ _ _ _ HB d c n j HS ltac:(lia) (or_introl Hj)) as Hne. destruct (divider_range usable t l d c n j HS Hj) as [Hu _].
    cbn [part fst] in *. set (i := start_of _ c j) in *. unfold rng in *. set (m := (upto c j - i)%nat) in *.
    assert (0 < m)%nat as Hm by (destruct m; [done|lia]).
    rewrite last_lookup, length_take, length_drop, lookup_take_lt, lookup_drop by lia. f_equal. lia. }
  unfold divides. destruct t; cbn [divider_is] in Hd.
  - destruct Hd as (x & Hx & ->). exists x. by rewrite Hsnd.
  - destruct Hd as (x & Hx & ->). exists x. by rewrite Hsnd.
  - destruct Hd as (x & Hx & ->). exists x. by rewrite Hsnd.
  - destruct Hd as (x & key & Hx & Hk & ->). exists x, key. by rewrite Hlast.
Qed.

(** The dividers are in the parent, and the pages are ready to be edited. *)
Lemma dividers_inserted P d c n parent2 ca2 fbs2 ptrs2 cells2 :
  planned usable t l P d c n -> pg_id <$> take n P = sort_numbers (take n (pg_id <$> pages ++ fresh)) ->
  (leaf t = false -> exists p, P !! (n - 1)%nat = Some p /\ right_ptr p = from_option right_ptr 0 (pages !! (length l - 1)%nat)) ->
  parent_is base usable (parent_type t) parent2 ca2 fbs2 ptrs2 cells2 None -> pg_id parent2 = pg_id parent -> (first <= length cells2)%nat ->
  exists P' parent' a' D,
    insert_dividers usable (n - 1) 0 (table_leaf t) (leaf t) dbsize (Z.of_nat first) (mkCellArray (all_refs 0 l) (Z.of_nat <$> c)) P parent2 = Ok (P', parent') /\
    planned usable t l P' d c n /\ right_pointers_are t pages l c n P' /\ pg_id <$> P' = pg_id <$> P /\
    represents base usable (parent_type t) parent' a' /\ with_overflow a' = take first cells2 ++ D ++ drop first cells2 /\
    right_of base parent' = right_of base parent2 /\ length D = (n - 1)%nat /\
    pg_id parent' = pg_id parent2 /\ (a_cells a' = [] -> n = 1%nat /\ cells2 = []) /\
    forall i e id, D !! i = Some e -> (pg_id <$> P) !! i = Some id -> divides t id (part (table_leaf t) l c n i) e.
Proof.
  intros [HS Hl Hh] Hnum Hlast [Hb HW Hov _] Hid Hf. pose proof (sp_k _ _ _ _ _ _ _ _ HS) as Hk. pose proof HS as [[_ Hc5] _ _ _ _ _ _ _ _ _ _].
  destruct (insert_loop_ok usable dims_zero t l (replicate (n - length l) []) c (ba_cells _ _ _ _ _ _ HB) (ba_min _ _ _ _ _ _ HB) Hc5 base Hparent dbsize first (pg_id <$> P)
    (n - 1) 0 P parent2 (mkAPage cells2 [])) as (P' & parent' & a' & D & Hins & [Hh' Hids' Hsame Hright HR Hcells [HlD HD] Ho Hpid Hsome]);
    [done|done|lia|lia|intros i Hi; pose proof (divider_range usable t l d c n i HS ltac:(lia)); tauto| | |cbn; lia|].
  - intros i id Hi Hid'. rewrite Hid. destruct (numbers_ok n id) as (? & _ & ?); [|done]. rewrite <- Hnum, fmap_take. apply list_elem_of_lookup_2 with i. rewrite lookup_take_lt by lia. done.
  - constructor; [done|done|by exists ca2, fbs2, ptrs2].
  - assert (length P' = length P) as HlP by (rewrite <- !(length_fmap pg_id); by rewrite Hids').
    exists P', parent', a', D. split_and!; [done|constructor; [done|congruence|done]| |done|done|by rewrite Nat.add_0_r in Hcells| |done|done| |].
    + eapply (right_pointers_done usable t _ _ _ _ HB d); [done|intros El i Hi; apply Hright; [done|lia]|]. intros El. rewrite Hsame by lia. by apply Hlast.
    + unfold right_of. f_equal. apply (o_right _ _ _ _ _ Ho); [lia|]. unfold arr. destruct (parent_interior t) as [-> | ->]; cbn; lia.
    + intros Hnil. split; [destruct (decide (n = 1)%nat); [done|]|destruct cells2 eqn:Ec; [done|]]; exfalso.
      * refine (Hsome _ _ Hnil); [by left|left; lia].
      * refine (Hsome _ _ Hnil); [by left|by right].
    + intros i e id He Hi. apply (divides_part d); [done|apply lookup_lt_Some in He; lia|]. by apply (HD i).
Qed.

Lemma sibling_type : exists p, head pages = Some p /\ page_type (header_offset p) (as_ptr p) = Ok t.
Proof.
  pose proof HB as [HL Hs _ _ _ _ _ _]. destruct (lookup_lt_is_Some_2 l 0 ltac:(lia)) as [[m od] Hm].
  destruct (siblings_hold _ _ _ _ _ _ _ HL 0%nat m od Hm) as (p & Hp & Hh & _). exists p. split; [by rewrite head_lookup|].
  destruct (holds_reads usable dims_zero t p m Hh) as (Hty & _). by rewrite (ho_base _ _ _ _ Hh).
Qed.

Lemma dividers_point D ids id :
  S (length D) = length ids -> last ids = Some id -> (forall i e j, D !! i = Some e -> ids !! i = Some j -> child_ptr e = j) ->
  (child_ptr <$> D) ++ [id] = ids.
Proof.
  intros Hl Hlast HD. apply last_Some in Hlast as [ids' ->]. rewrite length_app in Hl. cbn in Hl. f_equal. apply list_eq. intros i.
  rewrite list_lookup_fmap. destruct (D !! i) as [e|] eqn:He; cbn.
  - pose proof (lookup_lt_Some _ _ _ He). destruct (lookup_lt_is_Some_2 ids' i ltac:(lia)) as [j Hj]. rewrite Hj. f_equal. apply (HD i); [done|]. by apply lookup_app_l_Some.
  - apply lookup_ge_None in He. by rewrite lookup_ge_None_2 by lia.
Qed.

Lemma relink_app id (A B : list bytes) : relink (length A) id (A ++ B) = A ++ relink 0 id B.
Proof.
  unfold relink. rewrite lookup_app_r, Nat.sub_diag by lia. destruct (B !! 0%nat); [|done].
  by rewrite insert_app_r_alt, Nat.sub_diag by lia.
Qed.

Lemma non_root_ok : exists parent' a' pages' c d n D id,
  do_balancing usable read_page parent cci dbsize fresh = Ok (parent', pages', Z.of_nat (length l), Z.of_nat n) /\
  spreading (table_leaf t) (all_refs 0 l) (usable - arr 0 t) (extra_of (leaf t) l) 0 d c n /\
  pg_id <$> take n pages' = sort_numbers (take n (pg_id <$> pages ++ fresh)) /\
  last (pg_id <$> take n pages') = Some id /\ length (pg_id <$> take n pages') = n /\
  (forall j, (j < n)%nat -> exists p, pages' !! j = Some p /\ page_is usable t pages l p (part (table_leaf t) l c n j)) /\
  represents base usable (parent_type t) parent' a' /\
  with_overflow a' = take first L ++ D ++ relink 0 id (drop (first + k) L) /\
  children (with_overflow a') (right_of base parent') =
    take first C ++ (pg_id <$> take n pages') ++ drop (first + S k) C /\
  length D = (n - 1)%nat /\ pg_id parent' = pg_id parent /\ (a_cells a' = [] -> n = 1%nat /\ with_overflow a' = []) /\
  pg_id <$> drop n (take (length l) pages') = drop n (pg_id <$> pages) /\
  forall i e j, D !! i = Some e -> (pg_id <$> take n pages') !! i = Some j -> divides t j (part (table_leaf t) l c n i) e.
Proof.
  destruct parent_taken as (loc & parent1 & ca1 & fbs1 & ptrs1 & Hpick & Htake & HP1 & Hloc & Hr1 & Hid1 & Hfk).
  destruct numbers_planned as (np & d & c & n & Hplan & HPl & Hlen & Hnum & Hr).
  set (P := reassign_numbers n (pages ++ np)) in *. pose proof (sp_k _ _ _ _ _ _ _ _ (pl_spread _ _ _ _ _ _ _ HPl)) as Hk.
  pose proof (pl_length _ _ _ _ _ _ _ HPl) as HlP. set (C1 := take first L ++ drop (first + k) L) in *.
  assert (length (take first L) = first) as Hlt by (rewrite length_take; lia).
  assert (first <= length C1)%nat as HfC by (unfold C1; rewrite length_app; lia).
  destruct (lookup_lt_is_Some_2 P (n - 1) ltac:(lia)) as [plast Hplast]. set (id := pg_id plast).
  assert (last (pg_id <$> take n P) = Some id) as Hlast.
  { rewrite last_lookup, length_fmap, length_take, fmap_take, lookup_take_lt by lia. rewrite Nat.min_l by lia. replace (pred n) with (n - 1)%nat by lia.
    by rewrite list_lookup_fmap, Hplast. }
  destruct (numbers_ok n id) as (Hu & _); [rewrite <- Hnum; by apply last_Some_elem_of|].
  destruct (pointer_write base usable _ Hparent (parent_interior t) parent1 ca1 fbs1 ptrs1 C1 first loc id HP1 Hloc HfC Hu) as (parent2 & Hwrite & HP2 & Hr2 & Hid2).
  destruct (last_right_set P d c n HPl Hr) as (P1 & Hright & HPl1 & Hids1 & Hlr).
  assert (relink first id C1 = take first L ++ relink 0 id (drop (first + k) L)) as Hre by (unfold C1; rewrite <- Hlt at 1; by rewrite relink_app).
  assert (pg_id <$> take n P1 = pg_id <$> take n P) as Ht1 by (by rewrite !fmap_take, Hids1).
  destruct (dividers_inserted P1 d c n parent2 ca1 fbs1 ptrs1 (relink first id C1) HPl1) as (P2 & parent' & a' & D & Hins & HPl2 & HR2 & Hids2 & HRp & HL' & Hr' & HlD & Hpid & Hsome & HD);
    [congruence|done|done|congruence|rewrite Hre, length_app; lia|].
  destruct (edited_ok usable dims_zero t pages _ fresh l HB P2 d c n HPl2 HR2) as (pages' & Hedit & _ & Hpages).
  assert (pg_id <$> pages' = pg_id <$> P) as Hids' by (rewrite (edit_loop_ids _ _ _ _ _ _ _ _ _ Hedit); congruence).
  assert (pg_id <$> take n pages' = pg_id <$> take n P) as Ht' by (by rewrite !fmap_take, Hids').
  assert (length (pg_id <$> take n P) = n) as Hln by (rewrite length_fmap, length_take; lia).
  exists parent', a', pages', c, d, n, D, id. rewrite Ht'. split_and!; [|by destruct HPl|done|done|done|done|done| | |done|congruence| | |].
  - unfold do_balancing. rewrite Hpick. cbn [mbind Result_bind pages_to_balance sibling_count first_divider_cell bi_rightmost_pointer].
    rewrite (read_pages_ok _ _ _ Hread). cbn [mbind Result_bind]. destruct (pick_type base usable _ Hparent parent ca fbs ptrs cells over HP) as [Hty _].
    rewrite (pa_base _ _ _ _ _ _ _ _ _ HP), Hty. cbn [mbind Result_bind]. rewrite Nat2Z.id. replace (S k - 1)%nat with k by lia. rewrite Htake. cbn [mbind Result_bind].
    destruct sibling_type as (p0 & Hp0 & Ht0). rewrite Hp0. cbn [unwrap mbind Result_bind]. rewrite Ht0. cbn [mbind Result_bind].
    fold (table_leaf t). fold (leaf t). rewrite Hplan. cbn [mbind Result_bind]. rewrite Nat2Z.id. fold P. rewrite Hplast. cbn [unwrap mbind Result_bind]. fold id.
    rewrite Hwrite. cbn [mbind Result_bind]. rewrite Hlen, Hright. cbn [mbind Result_bind]. rewrite (pa_over _ _ _ _ _ _ _ _ _ HP2). cbn [over_cells].
    rewrite bool_decide_eq_true_2 by done. cbn [turso_assert mbind Result_bind]. rewrite Hins. cbn [mbind Result_bind]. by rewrite Hedit.
  - rewrite HL', Hre. by rewrite take_app_length', drop_app_length' by done.
  - rewrite HL', Hr', Hr2, Hr1. pose proof (children_relinked (right_of base parent) id D _ Hfk Hu eq_refl) as Hc. etrans; [exact Hc|].
    f_equal. f_equal. apply dividers_point; [lia|done|]. intros i e j He Hj. rewrite fmap_take in Hj. apply lookup_take_Some in Hj as [Hj ?].
    apply (divides_child t j (part (table_leaf t) l c n i)); [|by apply HD; [|rewrite Hids1]].
    apply (numbers_ok n). rewrite <- Hnum, fmap_take. apply list_elem_of_lookup_2 with i. by rewrite lookup_take_lt.
  - intros Hnil. destruct (Hsome Hnil) as [-> Hc2]. split; [done|]. rewrite HL', Hc2. cbn in HlD. destruct D; [|done]. by rewrite take_nil, drop_nil.
  - rewrite fmap_drop, fmap_take, Hids'. unfold P. by apply freed_ids.
  - intros i e j He Hj. apply HD; [done|]. rewrite Hids1. rewrite fmap_take in Hj. by apply lookup_take_Some in Hj as [? _].
Qed.

(** The new siblings [pages'] below the parent: the cells [new] of the pages and
    between them, and the new dividers [D]; [id] is the last sibling. *)
Record below (parent' : PageInner) (a' : APage) (pages' : list PageInner) (new : list (list bytes * option bytes))
    (D : list bytes) (id : Z) : Prop := mkBelow {
  be_parent : represents base usable (parent_type t) parent' a';
  be_cells : with_overflow a' = take first L ++ D ++ relink 0 id (drop (first + k) L);
  be_children : children (with_overflow a') (right_of base parent') = take first C ++ (pg_id <$> pages') ++ drop (first + S k) C;
  be_count : (1 <= length new <= 5)%nat /\ length pages' = length new /\ S (length D) = length new;
  be_joined : joined new = all_cells l;
  be_pages : forall j x p, new !! j = Some x -> pages' !! j = Some p ->
    ((S j < length new)%nat \/ narrow_cells usable t (all_cells l) -> fst x <> []) /\
    (is_Some (snd x) <-> table_leaf t = false /\ (S j < length new)%nat) /\ page_is usable t pages l p x;
  be_dividers : forall j x p e, new !! j = Some x -> pages' !! j = Some p -> D !! j = Some e -> divides t (pg_id p) x e;
  be_ids : ascending_ids (pg_id <$> pages') /\ (pg_id <$> pages') ≡ₚ take (length new) (pg_id <$> pages ++ fresh);
  be_id : pg_id parent' = pg_id parent
}.

Lemma parts_lookup c n j x : parts (table_leaf t) l c n !! j = Some x -> (j < n)%nat /\ x = part (table_leaf t) l c n j.
Proof.
  unfold parts. rewrite list_lookup_fmap. destruct (seq 0 n !! j) as [i|] eqn:E; [|done]. apply lookup_seq in E as [-> ?].
  intros [= <-]. done.
Qed.

Lemma below_ok : exists parent' a' pages' new D id,
  do_balancing usable read_page parent cci dbsize fresh = Ok (parent', pages', Z.of_nat (length l), lenZ new) /\
  below parent' a' (take (length new) pages') new D id /\ (a_cells a' = [] -> length new = 1%nat /\ with_overflow a' = []) /\
  pg_id <$> drop (length new) (take (length l) pages') = drop (length new) (pg_id <$> pages).
Proof.
  destruct non_root_ok as (parent' & a' & pages' & c & d & n & D & id & Hrun & HS & Hnum & Hlast & Hlen & Hpages & HR & HL & HC & HlD & Hpid & Hnil & Hfreed & HD).
  pose proof (sp_k _ _ _ _ _ _ _ _ HS) as Hk.
  assert (length (parts (table_leaf t) l c n) = n) as Hln by (unfold parts; by rewrite length_fmap, length_seq).
  exists parent', a', pages', (parts (table_leaf t) l c n), D, id. unfold lenZ. rewrite Hln. split_and!; [done| |done|done]. constructor; rewrite ?Hln; try done.
  - rewrite length_fmap in Hlen. lia.
  - pose proof HB as [HLs Hs _ _ _ _ _ _]. pose proof (siblings_separated _ _ _ _ _ _ _ _ HLs). eapply parts_join; (done || lia).
  - intros j x p [Hj ->]%parts_lookup Hp. destruct (Hpages j Hj) as (p' & Hp' & HI). rewrite lookup_take_lt in Hp by lia. simplify_eq.
    split_and!; [by apply (part_nonempty usable dims_zero t _ _ _ _ HB d)|by apply (part_divider usable t l d)|done].
  - intros j x p e [Hj ->]%parts_lookup Hp He. apply HD; [done|]. by rewrite list_lookup_fmap, Hp.
  - rewrite Hnum. split; [apply sort_numbers_ascending|apply sort_numbers_perm].
Qed.

Context (parent_is_root : bool) (Hoff : header_offset_of (pg_id parent) = base).

(** The only child of the root was copied into it. *)
Record lowered (parent' : PageInner) : Prop := mkLowered {
  lw_root : parent_is_root = true;
  lw_all : first = 0%nat /\ k = length L;
  lw_page : represents base usable t parent' (mkAPage (all_cells l) []);
  lw_right : leaf t = false -> right_of base parent' = from_option right_ptr 0 (pages !! (length l - 1)%nat);
  lw_id : pg_id parent' = pg_id parent
}.

Lemma all_taken id D : with_overflow (mkAPage [] []) = take first L ++ D ++ relink 0 id (drop (first + k) L) -> (first + k <= length L)%nat ->
  first = 0%nat /\ k = length L.
Proof.
  intros H Hk. symmetry in H. apply app_eq_nil in H as [H1%(f_equal length) H2]. apply app_eq_nil in H2 as [_ H2]. rewrite length_take in H1. cbn in H1.
  unfold relink in H2. destruct (drop (first + k) L) eqn:E; [|done]. apply (f_equal length) in E. rewrite length_drop in E. cbn in E. lia.
Qed.

Lemma freed_whole P :
  (1 <= length (take 1 P))%nat -> (pg_id <$> take 1 P) ≡ₚ take 1 (pg_id <$> pages ++ fresh) ->
  pg_id <$> drop 1 (take (length l) P) = drop 1 (pg_id <$> pages) -> pg_id <$> drop 0 (take (length l) P) = pg_id <$> pages.
Proof.
  intros Hl Hp Hd. pose proof HB as [HLs Hs _ _ _ _ _ _]. pose proof (siblings_length _ _ _ _ _ _ _ _ HLs) as Hlen.
  destruct P as [|p P]; [cbn in Hl; lia|]. destruct pages as [|q' Q]; [cbn in *; lia|]. destruct (length l) as [|m]; [lia|]. cbn in *.
  rewrite drop_0 in *. apply Permutation_singleton_l in Hp. injection Hp as Hp. rewrite Hp. f_equal. exact Hd.
Qed.

Lemma balance_non_root_ok : exists parent' pages' freed,
  balance_non_root usable read_page parent_is_root parent cci dbsize fresh = Ok (parent', pages', freed) /\
  ((exists a' new D id, below parent' a' pages' new D id /\ freed = drop (length new) (pg_id <$> pages)) \/
   (pages' = [] /\ freed = pg_id <$> pages /\ lowered parent')).
Proof.
  destruct below_ok as (parent1 & a1 & pages1 & new & D & id & Hrun & HBe & Hnil & Hfreed).
  pose proof HBe as [HR HL HC [Hn5 [Hlp HlD]] Hj Hpages _ [_ Hperm] Hid]. pose proof HR as [Hb Ho (ca1 & fbs1 & ptrs1 & HW1)].
  pose proof HW1 as [[HA Hpl _] HS]. pose proof HS as [Hl1 Hok1 _ _ _ _ _ _ _]. pose proof Hparent as [Hb0 Hu].
  destruct (lookup_lt_is_Some_2 new 0 ltac:(lia)) as [x Hx]. destruct (lookup_lt_is_Some_2 (take (length new) pages1) 0 ltac:(lia)) as [p Hp].
  destruct (Hpages _ _ _ Hx Hp) as (_ & Hsnd & (cac & ptrsc & [Hcb Hcbuf HWc _]) & Hov & Hright). rewrite lookup_take_lt in Hp by lia.
  unfold balance_non_root. rewrite Hrun. cbn [mbind Result_bind]. rewrite head_lookup, Hp. cbn [unwrap mbind Result_bind].
  rewrite Hb, (cell_count_ok base usable _ Hparent _ _ HA), Hpl by lia. cbn [mbind Result_bind].
  assert (Z.to_nat (lenZ new) = length new) as En by (unfold lenZ; lia).
  assert (exists sh, (if parent_is_root && (lenZ (a_cells a1) =? 0)
    then free ← compute_free_space (header_offset p) usable (as_ptr p); Ok (base <=? free) else Ok false) = Ok sh /\
    (sh = true -> parent_is_root = true /\ a_cells a1 = [] /\ base <= free_of 0 usable t (fst x))) as (sh & -> & Hsh).
  { destruct parent_is_root; [|by exists false]. destruct (Z.eqb_spec (lenZ (a_cells a1)) 0) as [E|]; [|by exists false]. cbn [andb].
    rewrite Hcb, (free_space_ok 0 usable t dims_zero _ _ _ _ _ HWc). cbn [mbind Result_bind]. eexists. split; [done|]. intros Hle%Z.leb_le.
    split_and!; [done| |done]. destruct (a_cells a1); [done|unfold lenZ in E; cbn in E; lia]. }
  cbn [mbind Result_bind]. destruct sh; cbn [mbind Result_bind].
  2: { do 3 eexists. split; [done|]. left. exists a1, new, D, id. rewrite En, Nat2Z.id. done. }
  destruct (Hsh eq_refl) as (Hroot & Ha1 & Hfree). destruct (Hnil Ha1) as [H1 HL0]. unfold lenZ. rewrite H1. cbn [Z.of_nat Z.eqb Pos.of_succ_nat Pos.eqb turso_assert mbind Result_bind].
  destruct (copy_into_root_ok base usable Hparent t parent1 p (fst x) cac [] ptrsc) as (parent' & child' & ca' & ptrs' & Hcopy & HW' & Hr' & Hb' & Ho' & Hid' & _ & _);
    [done|done|by rewrite Hid|done|done|done|]. rewrite Hcopy. cbn [mbind Result_bind].
  pose proof (ba_count _ _ _ _ _ _ HB) as Hs. rewrite (proj2 (Z.ltb_lt _ _)) by lia. cbn [turso_assert mbind Result_bind].
  rewrite Nat2Z.id. do 3 eexists. split; [done|]. right. destruct new as [|y [|? ?]]; try done. injection Hx as ->. cbn [length] in *.
  assert (snd x = None) as Hx0 by (destruct (snd x); [destruct (proj1 Hsnd) as [_ ?]; [done|lia]|done]).
  assert (fst x = all_cells l) as Hall by (rewrite <- Hj; unfold joined; cbn; rewrite Hx0; cbn; by rewrite !app_nil_r).
  split_and!; [done|apply (freed_whole pages1); [lia|exact Hperm|exact Hfreed]|]. constructor; [done| | | |congruence].
  - apply (all_taken id D); [|by destruct parent_taken as (? & ? & ? & ? & ? & _ & _ & _ & _ & _ & _ & ?)]. rewrite <- HL, HL0. done.
  - constructor; [congruence| |exists ca', [], ptrs'; by rewrite <- Hall]. cbn [a_over]. rewrite Ho', Ho.
    apply (f_equal length) in HL0. rewrite with_overflow_length in HL0. destruct (a_over a1); [done|cbn in HL0; lia].
  - intros El. rewrite Hr' by (unfold arr; by destruct t). rewrite Hx0 in Hright. by apply Hright.
Qed.
End non_root.
