(* ===== verification/BtreeOrder.v ===== *)
(** * BtreeOrder: balancing keeps the records of a tree in their order

    The records under a page in key order, given those under its children.
    Balancing the siblings below a parent does not change them, whether the parent
    keeps its children or an only child is copied into the root. *)

From S2P Require Import Prelude Varint OnDisk Page BtreePage BtreeSpace BtreeCells BtreeDefrag BtreeInsert BtreeRefine.
From S2P Require Import BtreePayload BtreeBalance BtreeDistribute BtreeFree BtreeBulk BtreeEdit BtreeSiblings BtreeGather BtreeRedist.
From S2P Require Import BtreeBalanced BtreeParent BtreeDividers BtreeRoot BtreeNonRoot.

(** ** Records *)

(** The record in a cell.  The cells of an interior page of a table only have
    keys; on an interior page of an index the record follows the child pointer. *)
Definition record_of (t : PageType) (c : bytes) : list bytes :=
  match t with
  | TableLeaf => [c]
  | TableInterior => []
  | IndexLeaf => [unpadded c]
  | IndexInterior => [drop 4 c]
  end.

(** The records [subs] under the children and the records of the cells between them. *)
Fixpoint weave (t : PageType) (cells : list bytes) (subs : list (list bytes)) : list bytes :=
  match subs with
  | [] => []
  | x :: subs' => x ++ match cells with [] => concat subs' | c :: cells' => record_of t c ++ weave t cells' subs' end
  end.

(** The records under a page; [f] are those under its children. *)
Definition contents (t : PageType) (f : Z -> list bytes) (cells : list bytes) (right : Z) : list bytes :=
  if leaf t then concat (record_of t <$> cells) else weave t cells (f <$> children cells right).

Lemma weave_app t cells1 c cells2 subs1 subs2 :
  length subs1 = S (length cells1) -> subs2 <> [] ->
  weave t (cells1 ++ c :: cells2) (subs1 ++ subs2) = weave t cells1 subs1 ++ record_of t c ++ weave t cells2 subs2.
Proof.
  revert subs1. induction cells1 as [|d cells1 IH]; intros [|x subs1] Hl Hne; try done; cbn in Hl.
  - destruct subs1; [|done]. cbn. by rewrite app_nil_r.
  - cbn. rewrite IH by (done || lia). by rewrite <- !app_assoc.
Qed.

Lemma contents_app t f A c B right :
  leaf t = false -> contents t f (A ++ c :: B) right = contents t f A (child_ptr c) ++ record_of t c ++ contents t f B right.
Proof.
  intros E. unfold contents. rewrite E. assert (children (A ++ c :: B) right = children A (child_ptr c) ++ children B right) as ->.
  { unfold children. rewrite fmap_app. cbn. by rewrite <- !app_assoc. }
  rewrite fmap_app. apply weave_app; [by rewrite length_fmap; unfold children; rewrite length_app, length_fmap; cbn; lia|].
  unfold children. by destruct (child_ptr <$> B).
Qed.

Lemma contents_leaf t f f' A B right right' right'' :
  leaf t = true -> contents t f (A ++ B) right = contents t f' A right' ++ contents t f' B right''.
Proof. intros E. unfold contents. rewrite E. by rewrite fmap_app, concat_app. Qed.

Lemma contents_leaf_cons t f A c B right right' :
  leaf t = true -> contents t f A right' ++ record_of t c ++ contents t f B right = contents t f (A ++ c :: B) right.
Proof. intros E. unfold contents. rewrite E. rewrite fmap_app, concat_app. done. Qed.

Lemma table_interior_records cells subs : weave TableInterior cells subs = concat subs.
Proof. revert cells. induction subs as [|x subs IH]; intros [|c cells]; [done..|]. cbn. by rewrite IH. Qed.

(** ** The siblings before *)

Lemma set_child_record t id c : t = IndexInterior \/ t = TableInterior -> record_of t (set_child id c) = record_of t c.
Proof. intros [-> | ->]; [|done]. done. Qed.

Lemma unpadded_divider usable b :
  dims 0 usable -> is_cell usable IndexInterior b -> unpadded (drop 4 b ++ replicate (Z.to_nat (8 - lenZ b)) 0) = drop 4 b.
Proof.
  intros Hd Hc. destruct (interior_parts 0 usable IndexInterior Hd (or_introl eq_refl) b Hc) as (v & n & Hv & Hn & Hv0 & H5 & Hix & _). specialize (Hix eq_refl).
  destruct Hc as [Hok _]. destruct Hd as [_ Hu]. unfold read_varint_at, slice_from_or_corrupt in Hv. rewrite (proj2 (Z.leb_le 4 (lenZ b))) in Hv by lia.
  cbn [mbind Result_bind] in Hv. change (Z.to_nat 4) with 4%nat in Hv. set (pad := replicate _ 0).
  assert (read_varint (drop 4 b ++ pad) = Ok (v, n)) as Hr by (apply read_varint_app; [by apply Forall_drop|by apply Forall_replicate|done]).
  unfold unpadded. rewrite Hr. assert (lenZ (drop 4 b) = lenZ b - 4) as Hld by (unfold lenZ in *; rewrite length_drop; lia).
  assert (lenZ pad = Z.max 0 (8 - lenZ b)) as Hlp by (unfold pad, lenZ at 1; rewrite length_replicate; lia). rewrite lenZ_app, Hlp, Hld.
  pose proof (fun l H => local_size usable ltac:(lia) IndexInterior v l H Hv0) as Hls.
  assert (0 < lenZ pad -> n + v = lenZ b - 4) as Hshort by (destruct (payload_overflows v _ _ _) as [l|]; [destruct (Hls l eq_refl) as (? & ? & _)|]; lia).
  destruct (Z.ltb_spec (n + v) (lenZ b - 4 + Z.max 0 (8 - lenZ b))) as [Hlt|Hge].
  - destruct (payload_overflows v _ _ _) as [l|]; [destruct (Hls l eq_refl) as (? & ? & _); lia|]. apply take_app_length'. unfold lenZ in *. lia.
  - assert (lenZ pad = 0 \/ 0 < lenZ pad) as [E|E] by (unfold lenZ in *; lia); [|specialize (Hshort E); lia].
    destruct pad; [by rewrite app_nil_r|unfold lenZ in E; cbn in E; lia].
Qed.

Section order.
Context (usable : Z) (Hdims : dims 0 usable) (t : PageType) (f : Z -> list bytes).

(** The records of a page of siblings, before and after. *)
Definition old_contents (p : PageInner) (s : sibling) : list bytes := contents t f (e_bytes <$> fst s) (right_ptr p).
Definition new_contents (p : PageInner) (x : list bytes * option bytes) : list bytes := contents t f (fst x) (right_ptr p).

(** The divider in the array has the record of the one in the parent. *)
Lemma divider_record p m b d :
  holds usable t p m -> t <> TableLeaf -> is_cell usable (parent_type t) b -> divider_cell (leaf t) p b = Ok d ->
  record_of t d = record_of (parent_type t) b /\ (leaf t = false -> child_ptr d = right_ptr p).
Proof.
  intros Hh Ht Hb Hd. unfold divider_cell in Hd. destruct (leaf t) eqn:E.
  - assert (t = IndexLeaf) as -> by (by destruct t). split; [|done]. cbn [record_of parent_type]. f_equal.
    steps_of Hd. unfold LEFT_CHILD_PTR_SIZE_BYTES, MINIMUM_CELL_SIZE. change (Z.to_nat 4) with 4%nat.
    destruct (interior_parts 0 usable IndexInterior Hdims (or_introl eq_refl) b Hb) as (v & n & _ & _ & _ & H5 & _).
    rewrite drop_app_le by (unfold lenZ in H5; lia). by apply (unpadded_divider usable).
  - assert (arr 0 t = 12) as Ha by (unfold arr; by destruct t). rewrite (ho_base _ _ _ _ Hh), (right_ptr_read _ Hdims _ _ _ Ha Hh) in Hd. cbn [unwrap mbind Result_bind] in Hd.
    apply write_slice_Ok in Hd as (_ & Hl & ->). pose proof (be_split_lenZ 4 (right_ptr p)) as H4.
    assert (splice b 0 (be_split 4 (right_ptr p)) = set_child (right_ptr p) b) as -> by (unfold splice, set_child; by rewrite be_split_length).
    assert (parent_type t = t) as -> by (by destruct t). split; [apply set_child_record; by destruct t; (left + right)|]. intros _. apply set_child_ptr. by eapply right_ptr_u32.
Qed.

Lemma old_order dividers : forall l pages j,
  siblings_are usable t (table_leaf t) (leaf t) dividers j pages l -> Forall (is_cell usable (parent_type t)) dividers ->
  S (length (drop j dividers)) = length l ->
  weave (parent_type t) (drop j dividers) (zip_with old_contents pages l) =
    contents t f (all_cells l) (from_option right_ptr 0 (pages !! (length l - 1)%nat)).
Proof.
  induction l as [|[m od] l IH]; intros [|p pages] j HS Hd Hl; try done. destruct HS as (Hh & _ & Hod & HS). cbn [zip_with all_cells].
  destruct l as [|s l].
  - destruct pages; [|done]. cbn in Hl. destruct (drop j dividers) eqn:E; [|done]. cbn. rewrite app_nil_r.
    destruct od; [by destruct Hod|]. by rewrite app_nil_r.
  - assert (from_option right_ptr 0 ((p :: pages) !! (length (((m, od) : sibling) :: s :: l) - 1)%nat) = from_option right_ptr 0 (pages !! (length (s :: l) - 1)%nat)) as ->.
    { cbn [length]. rewrite !Nat.sub_succ, !Nat.sub_0_r. done. }
    destruct (drop j dividers) as [|b ds] eqn:E; [done|]. assert (dividers !! j = Some b) as Hb by (by rewrite <- (Nat.add_0_r j), <- lookup_drop, E).
    rewrite (drop_S _ _ _ Hb) in E. injection E as Eds.
    assert (weave (parent_type t) (b :: ds) (old_contents p (m, od) :: zip_with old_contents pages (s :: l)) =
      old_contents p (m, od) ++ record_of (parent_type t) b ++ weave (parent_type t) ds (zip_with old_contents pages (s :: l))) as -> by done.
    rewrite <- Eds, (IH pages (S j) HS Hd) by (rewrite Eds; cbn in *; lia). set (R := from_option _ _ _).
    pose proof (Forall_lookup_1 _ _ _ _ Hd Hb) as Hcell. unfold old_contents. cbn [fst].
    destruct od as [d|].
    + destruct Hod as (_ & Htl & b' & Hb' & Hdiv). rewrite Hb in Hb'. injection Hb' as <-.
      destruct (divider_record p m b d Hh) as [Hr Hc]; [by intros ->|done|done|]. rewrite <- Hr.
      set (B := all_cells (s :: l)). assert (option_list (Some d) ++ B = d :: B) as -> by done.
      destruct (leaf t) eqn:El; [|by rewrite contents_app, Hc].
      by apply contents_leaf_cons.
    + destruct Hod as [->|Htl]; [by destruct s|]. assert (t = TableLeaf) as -> by (by destruct t). cbn [option_list parent_type record_of]. rewrite !app_nil_l.
      symmetry. by apply contents_leaf.
Qed.

(** ** The siblings after *)

Lemma divides_record id x e c : table_leaf t = false -> divides t id x e -> snd x = Some c -> record_of (parent_type t) e = record_of t c.
Proof.
  intros Ht Hd Hc. destruct t; cbn [divides] in Hd.
  - destruct Hd as (c' & Hc' & ->). rewrite Hc in Hc'. injection Hc' as <-. by apply set_child_record; left.
  - done.
  - destruct Hd as (c' & Hc' & ->). rewrite Hc in Hc'. by injection Hc' as <-.
  - done.
Qed.

Lemma new_order R : forall new pages' D,
  length pages' = length new -> S (length D) = length new ->
  (forall j x p, new !! j = Some x -> pages' !! j = Some p -> (is_Some (snd x) <-> table_leaf t = false /\ (S j < length new)%nat) /\
    (leaf t = false -> right_ptr p = match snd x with Some d => child_ptr d | None => R end)) ->
  (forall j x p e, new !! j = Some x -> pages' !! j = Some p -> D !! j = Some e -> divides t (pg_id p) x e) ->
  weave (parent_type t) D (zip_with new_contents pages' new) = contents t f (joined new) R.
Proof.
  induction new as [|x new IH]; intros [|p pages'] D Hl HD Hx Hdiv; try done. cbn [zip_with].
  assert (joined (x :: new) = fst x ++ option_list (snd x) ++ joined new) as -> by (unfold joined; cbn; by rewrite <- app_assoc).
  destruct (Hx 0%nat x p eq_refl eq_refl) as [Hs Hr]. destruct new as [|y new].
  { destruct pages'; [|done]. destruct D; [|done]. assert (snd x = None) as En by (destruct (snd x); [destruct (proj1 Hs) as [_ ?]; [done|cbn in *; lia]|done]).
    rewrite En in *. cbn. rewrite !app_nil_r. unfold new_contents, contents. destruct (leaf t); [done|by rewrite Hr]. }
  destruct D as [|e D]; [done|]. destruct pages' as [|p1 pages']; [done|].
  assert (weave (parent_type t) (e :: D) (new_contents p x :: zip_with new_contents (p1 :: pages') (y :: new)) =
    new_contents p x ++ record_of (parent_type t) e ++ weave (parent_type t) D (zip_with new_contents (p1 :: pages') (y :: new))) as -> by done.
  rewrite (IH (p1 :: pages') D); [|cbn in *; lia|cbn in *; lia| |]; cycle 1.
  { intros j z q Hz Hq. destruct (Hx (S j) z q Hz Hq) as [-> Hrq]. split; [|done]. split; intros [? ?]; (split; [done|cbn in *; lia]). }
  { intros j z q e' Hz Hq He. by apply (Hdiv (S j) z q e'). }
  set (B := joined (y :: new)). unfold new_contents. destruct (snd x) as [d|] eqn:Ed.
  - destruct (proj1 Hs) as [Htl _]; [done|]. rewrite (divides_record _ _ _ _ Htl (Hdiv 0%nat x p e eq_refl eq_refl eq_refl) Ed). assert (option_list (Some d) ++ B = d :: B) as -> by done.
    destruct (leaf t) eqn:El; [|by rewrite contents_app, Hr]. by apply contents_leaf_cons.
  - assert (t = TableLeaf) as -> by (destruct (table_leaf t) eqn:E; [by destruct t|destruct (proj2 Hs) as [? ?]; [split; [done|cbn; lia]|done]]).
    symmetry. by apply contents_leaf.
Qed.
End order.

(** ** The parent *)

Definition records_before (t : PageType) (cells : list bytes) (subs : list (list bytes)) : list bytes :=
  concat (zip_with (fun c x => x ++ record_of t c) cells subs).
Definition records_after (t : PageType) (cells : list bytes) (subs : list (list bytes)) : list bytes :=
  concat (zip_with (fun c x => record_of t c ++ x) cells subs).

Lemma weave_after t B : forall x X, length X = length B -> weave t B (x :: X) = x ++ records_after t B X.
Proof.
  induction B as [|c B IH]; intros x [|y X] Hl; try done. assert (weave t (c :: B) (x :: y :: X) = x ++ record_of t c ++ weave t B (y :: X)) as -> by done.
  rewrite IH by (cbn in Hl; lia). unfold records_after. cbn. by rewrite <- app_assoc.
Qed.

Lemma weave_mid t A mid B X1 S X2 :
  length X1 = length A -> length S = Datatypes.S (length mid) -> length X2 = length B ->
  weave t (A ++ mid ++ B) (X1 ++ S ++ X2) = records_before t A X1 ++ weave t mid S ++ records_after t B X2.
Proof.
  intros H1 H2 H3. revert X1 H1. induction A as [|c A IH]; intros [|x X1] H1; try done.
  - cbn [records_before zip_with concat app]. clear H1. revert S H2. induction mid as [|d mid IH]; intros [|s S] H2; try done; cbn in H2.
    + destruct S; [|done]. cbn [app]. rewrite weave_after by done. cbn. by rewrite app_nil_r.
    + destruct S as [|s' S]; [done|]. cbn [app] in *.
      assert (weave t (d :: mid ++ B) (s :: s' :: S ++ X2) = s ++ record_of t d ++ weave t (mid ++ B) (s' :: S ++ X2)) as -> by done.
      pose proof (IH (s' :: S) ltac:(cbn in *; lia)) as E. cbn [app] in E. rewrite E. cbn. by rewrite <- !app_assoc.
  - assert (weave t ((c :: A) ++ mid ++ B) ((x :: X1) ++ S ++ X2) = x ++ record_of t c ++ weave t (A ++ mid ++ B) (X1 ++ S ++ X2)) as -> by done.
    rewrite IH by (cbn in H1; lia). unfold records_before. cbn. by rewrite <- !app_assoc.
Qed.

Lemma after_relink t id B X : t = IndexInterior \/ t = TableInterior -> records_after t (relink 0 id B) X = records_after t B X.
Proof.
  intros Ht. unfold relink. destruct B as [|c B]; [done|]. destruct X as [|x X]; [done|]. cbn [lookup list_lookup insert list_insert records_after zip_with concat].
  unfold records_after. cbn [zip_with concat]. by rewrite set_child_record.
Qed.

Lemma children_length cells right : length (children cells right) = S (length cells).
Proof. unfold children. rewrite length_app, length_fmap. cbn. lia. Qed.

(** A page [q] below the parent is to be balanced: the parent, the siblings
    [pages] around it, new pages, and the entries [l] of the siblings with the
    dividers between them. *)
Record situation (base usable : Z) (t : PageType) (parent : PageInner) (ca : Z) (fbs : list block) (ptrs : list Z) (cells : list bytes)
    (over : option (nat * bytes)) (q : nat) (cci : Z) (k first : nat) (pages fresh : list PageInner) (l : list sibling)
    (read_page : Z -> option PageInner) (dbsize : Z) : Prop := mkSituation {
  si_dims : dims base usable;
  si_parent : parent_is base usable (parent_type t) parent ca fbs ptrs cells over;
  si_at : at_page cells over q cci;
  si_choice : choose_siblings (Z.of_nat (length (logical cells over))) (Z.of_nat q) = (Z.of_nat k, Z.of_nat first);
  si_siblings : balanceable usable t pages (take k (drop first (logical cells over))) fresh l;
  si_read : Forall2 (fun id p => read_page id = Some p) (take (S k) (drop first (children (logical cells over) (right_of base parent)))) pages;
  si_ids : Forall (fun id => is_u32 id /\ id <> 1 /\ id <> u32 (pg_id parent) /\ id <= dbsize) (pg_id <$> pages ++ fresh);
  si_offset : header_offset_of (pg_id parent) = base
}.

Section tree.
Context (base usable : Z) (t : PageType) (parent : PageInner) (ca : Z) (fbs : list block) (ptrs : list Z) (cells : list bytes).
Context (over : option (nat * bytes)) (q : nat) (cci : Z) (k first : nat) (pages fresh : list PageInner) (l : list sibling).
Context (read_page : Z -> option PageInner) (dbsize : Z).
Context (HS : situation base usable t parent ca fbs ptrs cells over q cci k first pages fresh l read_page dbsize).
#[local] Abbreviation L := (logical cells over).
#[local] Abbreviation C := (children L (right_of base parent)).
#[local] Abbreviation PT := (parent_type t).

Lemma parent_cells : Forall (is_cell usable PT) L /\ (first + k <= length L)%nat.
Proof.
  pose proof HS as [Hd HP Hat Hch HB Hrd Hids Hoff]. split.
  - apply Forall_lookup. intros i c Hc. pose proof HP as [_ HW _ Hcell].
    rewrite logical_lookup in Hc by (by destruct over as [[? ?]|]; [destruct Hcell|]).
    assert (forall j, cells !! j = Some c -> is_cell usable PT c) as Hon.
    { intros j Hj. by destruct (pointer_of base usable PT (parent_interior t) parent ca fbs ptrs cells HW j c Hj) as (? & _ & _ & _ & _ & ?). }
    destruct over as [[i0 c0]|]; [|by eapply Hon]. destruct (i =? i0)%nat; [|by eapply Hon]. injection Hc as <-. by destruct Hcell as (_ & ? & _).
  - by destruct (parent_taken base usable Hd t parent ca fbs ptrs cells over HP q cci Hat k first Hch) as (? & ? & ? & ? & ? & _ & _ & _ & _ & _ & _ & ?).
Qed.

Lemma order_kept f F F' pages' new D id cells' right :
  length pages' = length new -> S (length D) = length new ->
  weave PT D (zip_with (new_contents t f) pages' new) = contents t f (all_cells l) (from_option right_ptr 0 (pages !! (length l - 1)%nat)) ->
  cells' = take first L ++ D ++ relink 0 id (drop (first + k) L) ->
  children cells' right = take first C ++ (pg_id <$> pages') ++ drop (first + S k) C ->
  F <$> take (S k) (drop first C) = zip_with (old_contents t f) pages l ->
  F' <$> (pg_id <$> pages') = zip_with (new_contents t f) pages' new ->
  (forall i, i ∈ take first C ++ drop (first + S k) C -> F' i = F i) ->
  contents PT F' cells' right = contents PT F L (right_of base parent).
Proof.
  intros Hlp HlD Hnew -> Hchild HF HF' Hsame. pose proof HS as [Hd HP Hat Hch HB Hrd Hids Hoff]. destruct parent_cells as [Hcells Hfk].
  pose proof HB as [HL _ _ _ _ _ _ _]. pose proof (siblings_length _ _ _ _ _ _ _ _ HL) as Hlen. pose proof (children_length L (right_of base parent)) as HlC.
  assert (length (take (S k) (drop first C)) = S k) as Hmid by (rewrite length_take, length_drop; lia).
  assert (length pages = S k) as Hlk by (rewrite <- (Forall2_length _ _ _ Hrd); lia).
  unfold contents. replace (leaf PT) with false by (by destruct t). rewrite Hchild, !fmap_app, HF'.
  assert (F' <$> take first C = F <$> take first C) as -> by (apply list_fmap_ext; intros i x Hx; apply Hsame; rewrite elem_of_app; left; by eapply list_elem_of_lookup_2).
  assert (F' <$> drop (first + S k) C = F <$> drop (first + S k) C) as -> by (apply list_fmap_ext; intros i x Hx; apply Hsame; rewrite elem_of_app; right; by eapply list_elem_of_lookup_2).
  assert (C = take first C ++ take (S k) (drop first C) ++ drop (first + S k) C) as EC by (by rewrite <- drop_drop, take_drop, take_drop).
  assert (L = take first L ++ take k (drop first L) ++ drop (first + k) L) as EL by (by rewrite <- drop_drop, take_drop, take_drop).
  assert (length (take k (drop first L)) = k) as Hmk by (rewrite length_take, length_drop; lia).
  assert (weave PT L (F <$> C) = records_before PT (take first L) (F <$> take first C) ++
    weave PT (take k (drop first L)) (F <$> take (S k) (drop first C)) ++ records_after PT (drop (first + k) L) (F <$> drop (first + S k) C)) as ->.
  { rewrite <- weave_mid; [by rewrite <- !fmap_app, <- EC, <- EL|..]; rewrite ?length_fmap, ?length_take, ?length_drop; lia. }
  rewrite weave_mid; [|rewrite ?length_fmap, ?length_take; lia|rewrite length_zip_with; lia|].
  2: { unfold relink. rewrite length_fmap, length_drop. destruct (drop (first + k) L !! 0%nat); rewrite ?length_insert, length_drop; lia. }
  rewrite after_relink by apply parent_interior. f_equal. f_equal. rewrite Hnew, HF.
  rewrite <- (drop_0 (take k (drop first L))). symmetry. apply (old_order usable); [by eapply dims_zero|done|by apply Forall_take, Forall_drop|rewrite drop_0; lia].
Qed.

Lemma order_lowered f F right :
  first = 0%nat /\ k = length L -> (leaf t = false -> right = from_option right_ptr 0 (pages !! (length l - 1)%nat)) ->
  F <$> take (S k) (drop first C) = zip_with (old_contents t f) pages l ->
  contents t f (all_cells l) right = contents PT F L (right_of base parent).
Proof.
  intros [Hf Hk] Hr HF. pose proof HS as [Hd HP Hat Hch HB Hrd Hids Hoff]. destruct parent_cells as [Hcells _].
  pose proof (children_length L (right_of base parent)) as HlC. rewrite Hf in Hrd, HF, HB.
  rewrite drop_0 in HB. rewrite drop_0 in Hrd. rewrite drop_0 in HF. rewrite take_ge in Hrd by lia. rewrite take_ge in HF by lia. rewrite take_ge in HB by lia.
  pose proof HB as [HL _ _ _ _ _ _ _]. pose proof (siblings_length _ _ _ _ _ _ _ _ HL) as Hlen.
  assert (contents t f (all_cells l) right = contents t f (all_cells l) (from_option right_ptr 0 (pages !! (length l - 1)%nat))) as ->
    by (unfold contents; destruct (leaf t); [done|by rewrite Hr]).
  unfold contents at 2. replace (leaf PT) with false by (by destruct t). rewrite HF, <- (drop_0 L). symmetry.
  apply (old_order usable); [by eapply dims_zero|done|done|]. rewrite drop_0, Hlen, <- (Forall2_length _ _ _ Hrd). lia.
Qed.
End tree.

(** C7: balancing the siblings around a page succeeds and keeps the tree below the
    parent, as long as at most one cell of table leaves and four cells of other
    pages did not fit on the siblings (three on interior index pages of more than
    4096 bytes with a cell of more than a quarter of the page).  The parent has the new siblings in place of the old ones and all its
    other children as before, in the same order; the numbers of the new siblings
    ascend and are those of the old pages and of new ones; the pages that are no
    siblings any more are the ones freed.  With the records that were under the
    children of the siblings, the records under the parent are the same in the same
    order: those of the cells on the siblings and, in an index, of the dividers
    between them.  When the parent is a root that is left with one child and has
    space for its contents, the child is copied into it, which also keeps the
    records, and all siblings are freed. *)
Theorem balance_keeps_order base usable t parent ca fbs ptrs cells over q cci k first pages fresh l read_page dbsize parent_is_root :
  situation base usable t parent ca fbs ptrs cells over q cci k first pages fresh l read_page dbsize ->
  let L := logical cells over in
  let C := children L (right_of base parent) in
  exists parent' pages' freed,
    balance_non_root usable read_page parent_is_root parent cci dbsize fresh = Ok (parent', pages', freed) /\
    ((exists a' new D id,
        below base usable t parent cells over k first pages fresh l parent' a' pages' new D id /\
        freed = drop (length new) (pg_id <$> pages) /\
        forall f F F', F <$> take (S k) (drop first C) = zip_with (old_contents t f) pages l ->
          F' <$> (pg_id <$> pages') = zip_with (new_contents t f) pages' new ->
          (forall i, i ∈ take first C ++ drop (first + S k) C -> F' i = F i) ->
          contents (parent_type t) F' (with_overflow a') (right_of base parent') = contents (parent_type t) F L (right_of base parent)) \/
     (pages' = [] /\ freed = pg_id <$> pages /\
        lowered base usable t parent cells over k first pages l parent_is_root parent' /\
        forall f F, F <$> take (S k) (drop first C) = zip_with (old_contents t f) pages l ->
          contents t f (all_cells l) (right_of base parent') = contents (parent_type t) F L (right_of base parent))).
Proof.
  intros HS L C. pose proof HS as [Hd HP Hat Hch HB Hrd Hids Hoff].
  destruct (balance_non_root_ok base usable Hd t parent ca fbs ptrs cells over HP q cci Hat k first Hch pages fresh l HB read_page Hrd dbsize Hids
    parent_is_root Hoff) as (parent' & pages' & freed & Hrun & Hout). exists parent', pages', freed. split; [done|].
  destruct Hout as [(a' & new & D & id & HBe & ->)|(-> & -> & HL)].
  - left. exists a', new, D, id. split_and!; [done|done|]. intros f F F'. pose proof HBe as [_ Hcells Hchild (_ & Hlp & HlD) Hj Hpages Hdiv _ _].
    apply (order_kept _ _ _ _ _ _ _ _ _ _ _ _ _ _ _ _ _ _ HS f F F' pages' new D id); [done|done| |done|done].
    rewrite <- Hj. apply new_order; [done|done| |done]. intros j x p Hx Hp. destruct (Hpages j x p Hx Hp) as (_ & Hs & _ & _ & Hr). done.
  - right. split_and!; [done|done|done|]. intros f F. destruct HL as [_ Hall _ Hr _]. by apply (order_lowered _ _ _ _ _ _ _ _ _ _ _ _ _ _ _ _ _ _ HS).
Qed.

(** ** A parent with three leaves *)

Lemma renumbered_siblings usable ds ds' : forall l pages ids j,
  siblings_are usable TableLeaf true true ds j pages l -> length ids = length pages -> Forall (fun id => id <> 1) ids ->
  siblings_are usable TableLeaf true true ds' j (zip_with renumber pages ids) l.
Proof.
  induction l as [|[m od] l IH]; intros [|p pages] [|id ids] j HS Hl Hne; try done. destruct HS as (Hh & Hov & Hod & HS).
  apply Forall_cons in Hne as [Hid Hne]. cbn [zip_with siblings_are]. split_and!.
  - by apply renumber_hold.
  - rewrite <- Hov. unfold renumber. by destruct (id =? pg_id p).
  - destruct od; [by destruct Hod as (_ & ? & _)|by right].
  - apply IH; [done|cbn in Hl; lia|done].
Qed.

Definition demo_numbered : list PageInner := zip_with renumber demo_leaves [5; 7; 9].
Definition demo_fresh : list PageInner := [renumber blank_page 11; renumber blank_page 12].
Definition demo_dividers : list bytes := [interior_cell 5 3; interior_cell 7 12].
Definition demo_parent : PageInner :=
  match set_right_pointer [built TableInterior [PInsert 0 (interior_cell 5 3) false; PInsert 1 (interior_cell 7 12) false]] 0 9 with
  | Ok [p] => p
  | _ => blank_page
  end.
Definition demo_read (id : Z) : option PageInner :=
  if id =? 5 then demo_numbered !! 0%nat else if id =? 7 then demo_numbered !! 1%nat else if id =? 9 then demo_numbered !! 2%nat else None.

Lemma demo_situation : exists ca fbs ptrs l,
  situation 0 512 TableLeaf demo_parent ca fbs ptrs demo_dividers None 1 1 2 0 demo_numbered demo_fresh l demo_read 12 /\ all_cells l = demo_leaf_cells.
Proof.
  set (ops := [PInsert 0 (interior_cell 5 3) false; PInsert 1 (interior_cell 7 12) false]).
  destruct (built_represents TableInterior ops) as [[Hb Hov (ca & fbs & ptrs & HW)] Hlen]; [vm_compute; reflexivity|].
  assert (arun 0 512 TableInterior ops (mkAPage [] []) = mkAPage demo_dividers []) as Ha by (vm_compute; reflexivity). rewrite Ha in *. cbn [a_cells a_over] in *.
  assert (demo_parent = set_buffer (built TableInterior ops) (splice (as_ptr (built TableInterior ops)) 8 (be_split 4 9))) as Hdp by (vm_compute; reflexivity).
  assert (parent_is 0 512 TableInterior demo_parent ca fbs ptrs demo_dividers None) as HP.
  { rewrite Hdp. clear Hdp Ha. constructor; [exact Hb| |exact Hov|exact I]. rewrite as_ptr_set.
    apply (right_write_at 0 512 TableInterior dims_0_512 (or_intror eq_refl) (built TableInterior ops) ca fbs ptrs demo_dividers HW 9). }
  clear Hdp Ha Hb Hov HW Hlen ops. destruct demo_leaves_balanceable as (l & [HL Hs Hne Hc Hm Hx Ho _] & Hcells). exists ca, fbs, ptrs, l.
  split; [|exact Hcells]. constructor.
  - apply dims_0_512.
  - exact HP.
  - split; [cbn; lia|]. left. split; [reflexivity|exact I].
  - reflexivity.
  - constructor; try assumption; [eapply renumbered_siblings; [exact HL|reflexivity|repeat constructor; lia]|]. split; [cbn; lia|].
    repeat constructor; (exists (replicate 512 0); split_and!; [done|done|by apply bytes_ok_dec]).
  - assert (take 3 (drop 0 (children (logical demo_dividers None) (right_of 0 demo_parent))) = [5; 7; 9]) as -> by (vm_compute; reflexivity).
    repeat constructor.
  - assert (pg_id <$> demo_numbered ++ demo_fresh = [5; 7; 9; 11; 12]) as -> by (vm_compute; reflexivity).
    assert (u32 (pg_id demo_parent) = 2) as -> by (vm_compute; reflexivity). repeat constructor; (done || lia).
  - vm_compute. reflexivity.
Qed.

Lemma balance_keeps_order_witness : exists parent' pages' freed a',
  balance_non_root 512 demo_read false demo_parent 1 12 demo_fresh = Ok (parent', pages', freed) /\
  children (with_overflow a') (right_of 0 parent') = pg_id <$> pages' /\ ascending_ids (pg_id <$> pages').
Proof.
  destruct demo_situation as (ca & fbs & ptrs & l & HS & Hl).
  destruct (balance_keeps_order 0 512 TableLeaf demo_parent ca fbs ptrs demo_dividers None 1 1 2 0 demo_numbered demo_fresh l demo_read 12 false HS)
    as (parent' & pages' & freed & Hrun & [(a' & new & D & id & [_ _ Hch _ _ _ _ [Hids _] _] & _)|(_ & _ & [Hroot _ _ _ _] & _)]); [|discriminate].
  exists parent', pages', freed, a'. split; [exact Hrun|]. split; [|exact Hids]. rewrite Hch. cbn. by rewrite app_nil_r.
Defined.
