(* ===== verification/BtreeQuick.v ===== *)
(** * BtreeQuick: appending a leaf

    Models [balance_quick] of core/storage/btree.rs, the fast path for a cell that
    does not fit at the end of the rightmost leaf of a table, and the conditions
    under which [balance] takes it. *)

From S2P Require Import Prelude Varint OnDisk Page BtreePage BtreeSpace BtreeCells BtreeDefrag BtreeInsert BtreeRefine.
From S2P Require Import BtreePayload BtreeGather BtreeRedist BtreeBalanced BtreeParent BtreeDividers BtreeRoot BtreeNonRoot BtreeOrder.

(** ** The code *)

(** [cell_table_leaf_read_header]: the row id, the start and the size of the payload. *)
Definition cell_table_leaf_read_header (base : Z) (buf : bytes) (i : Z) : Result (Z * Z * Z) :=
  let pointer_slot := base + LEAF_PAGE_HEADER_SIZE_BYTES + i * CELL_PTR_SIZE_BYTES in
  _ ← or_corrupt (pointer_slot + CELL_PTR_SIZE_BYTES <=? lenZ buf);
  slot ← slice buf pointer_slot (pointer_slot + 2);
  cell ← slice_from_or_corrupt buf (be_combine slot);
  '(payload_size, cell) ← split_varint cell;
  '(rowid, cell) ← split_varint cell;
  Ok (i64 rowid, lenZ buf - lenZ cell, payload_size).

Definition cell_table_leaf_read_rowid (base : Z) (buf : bytes) (i : Z) : Result Z :=
  '(rowid, _, _) ← cell_table_leaf_read_header base buf i; Ok rowid.

Section code.
Context (usable_space : Z).

(** State [Decide] of [balance]: is the fast path taken? *)
Definition decide_quick (parent cur_page : PageInner) : Result bool :=
  t ← page_type (header_offset cur_page) (as_ptr cur_page);
  match overflow_cells cur_page with
  | [overflow_cell] =>
      if bool_decide (t = TableLeaf) then
        count ← cell_count (header_offset cur_page) (as_ptr cur_page);
        if oc_index overflow_cell =? count then
          right ← rightmost_pointer (header_offset parent) (as_ptr parent);
          match right with
          | None => Err Corrupt
          | Some parent_rightmost => Ok (negb (pg_id parent =? 1) && (parent_rightmost =? u32 (pg_id cur_page)))
          end
        else Ok false
      else Ok false
  | _ => Ok false
  end.

(** [balance_quick]: the parent, the old and the new rightmost leaf. *)
Definition balance_quick (parent old_leaf new_leaf : PageInner) : Result (PageInner * PageInner * PageInner) :=
  new_leaf ← btree_init_page new_leaf TableLeaf usable_space;
  right ← rightmost_pointer (header_offset parent) (as_ptr parent);
  rightmost ← unwrap right;
  match overflow_cells old_leaf with
  | [overflow_cell] =>
      _ ← turso_assert (rightmost =? u32 (pg_id old_leaf));
      let old_leaf := set_overflow_cells old_leaf [] in
      count ← cell_count (header_offset old_leaf) (as_ptr old_leaf);
      _ ← turso_assert (oc_index overflow_cell =? count);
      new_leaf ← insert_into_cell new_leaf (oc_payload overflow_cell) 0 usable_space;
      last ← checked_sub count 1;
      largest_rowid ← cell_table_leaf_read_rowid (header_offset old_leaf) (as_ptr old_leaf) last;
      '(varint, n) ← write_varint (replicate 9 0) (u64 largest_rowid);
      let new_divider := be_split 4 (u32 (pg_id old_leaf)) ++ varint in
      divider ← slice new_divider 0 (4 + n);
      parent_count ← cell_count (header_offset parent) (as_ptr parent);
      parent ← insert_into_cell parent divider parent_count usable_space;
      buf ← write_rightmost_ptr (header_offset parent) (as_ptr parent) (u32 (pg_id new_leaf));
      Ok (set_buffer parent buf, old_leaf, new_leaf)
  | _ => Panic
  end.
End code.

(** ** Reading the row id *)

Lemma split_varint_ok buf v n : bytes_ok buf -> read_varint buf = Ok (v, n) -> split_varint buf = Ok (v, drop (Z.to_nat n) buf).
Proof. intros Hok Hr. rewrite split_varint_eq by done. by rewrite Hr. Qed.

Section rowid.
Context (base usable : Z) (Hdims : dims base usable).

Lemma rowid_read buf ca fbs ptrs cells (i : nat) c :
  page_wf base usable TableLeaf buf ca fbs ptrs cells -> cells !! i = Some c ->
  exists key, leaf_key c = Ok key /\ is_u64 key /\ cell_table_leaf_read_rowid base buf (Z.of_nat i) = Ok (i64 key).
Proof.
  intros HW Hc. pose proof HW as [[[_ _ Hptrs] Hpl _] HS]. pose proof HS as [Hl Hok [Hlo Hca] _ _ _ _ _ _]. apply Nat2Z.inj in Hpl. pose proof (lookup_lt_Some _ _ _ Hc) as Hi.
  destruct (lookup_lt_is_Some_2 ptrs i) as [q Hq]; [by rewrite Hpl|]. specialize (Hptrs i q Hq). pose proof Hdims as [Hb0 Hu].
  destruct (cell_range _ _ _ _ _ _ _ _ _ _ _ HW Hq Hc) as (Hq0 & Hqe & Hsub & Hcell). unfold region_size, lo_of, arr in *. change (hsize_of (page_type_u8 TableLeaf)) with 8 in *.
  destruct (leaf_has_key usable c Hcell) as (v & m & key & k & Hv & Hm & Hk & Hku). exists key. unfold leaf_key. rewrite Hv. cbn [mbind Result_bind]. rewrite Hk. cbn [mbind Result_bind].
  split_and!; [done|done|]. destruct Hcell as [Hcok _]. destruct (sub_drop c buf q Hok Hsub) as (rest & Hd & Hrok). unfold lenZ in Hlo.
  unfold cell_table_leaf_read_rowid, cell_table_leaf_read_header, LEAF_PAGE_HEADER_SIZE_BYTES, CELL_PTR_SIZE_BYTES.
  rewrite (proj2 (Z.leb_le _ _)) by lia. cbn [or_corrupt mbind Result_bind]. rewrite slice_sub by lia. cbn [mbind Result_bind].
  replace (base + 8 + Z.of_nat i * 2 + 2 - (base + 8 + Z.of_nat i * 2)) with 2 by lia. replace (base + 8 + Z.of_nat i * 2) with (base + 8 + 2 * Z.of_nat i) by lia.
  unfold get16 in Hptrs. rewrite Hptrs. unfold slice_from_or_corrupt. rewrite (proj2 (Z.leb_le q (lenZ buf))) by lia. cbn [mbind Result_bind]. rewrite Hd.
  rewrite (split_varint_ok (c ++ rest) v m); [|by apply Forall_app_2|by apply read_varint_app]. cbn [mbind Result_bind].
  rewrite drop_app_le by (unfold lenZ in Hm; lia).
  pose proof (Forall_drop _ (Z.to_nat m) _ Hcok) as Hdok. rewrite (split_varint_ok _ key k); [done|by apply Forall_app_2|by apply read_varint_app].
Qed.

End rowid.

(** ** The fast path *)

Section quick.
Context (base usable : Z) (Hdims : dims base usable).

(** What [decide_quick] checks. *)
Lemma decide_quick_true parent old a cells over :
  represents base usable TableInterior parent a -> represents 0 usable TableLeaf old (mkAPage cells over) -> decide_quick parent old = Ok true ->
  exists payload, over = [mkOverflowCell (lenZ cells) payload] /\ right_of base parent = u32 (pg_id old) /\ pg_id parent <> 1.
Proof.
  intros [Hb _ (ca & fbs & ptrs & [[HA _ _] HS])] [Hb1 Ho (ca1 & fbs1 & ptrs1 & [[HA1 Hpl1 _] HS1])] Hdec. cbn [a_over a_cells] in *.
  assert (dims 0 usable) as Hd by (destruct Hdims; split; [by left|done]). pose proof Hdims as [Hb0 Hu].
  pose proof (so_len _ _ _ _ _ _ _ HS). pose proof (so_len _ _ _ _ _ _ _ HS1).
  unfold decide_quick in Hdec. rewrite Hb1, (page_type_ok 0 usable _ Hd _ _ HA1), Ho in Hdec by lia. cbn [mbind Result_bind] in Hdec. destruct over as [|[i payload] [|]]; try done.
  rewrite bool_decide_eq_true_2, (cell_count_ok 0 usable _ Hd _ _ HA1), Hpl1 in Hdec by (done || lia). cbn [mbind Result_bind oc_index] in Hdec.
  destruct (Z.eqb_spec i (lenZ cells)) as [->|]; [|done]. unfold rightmost_pointer in Hdec. rewrite Hb, (page_type_ok base usable _ Hdims _ _ HA) in Hdec by lia.
  cbn [mbind Result_bind] in Hdec. unfold BTREE_RIGHTMOST_PTR in Hdec. rewrite slice_sub in Hdec by lia. cbn [mbind Result_bind] in Hdec.
  replace (base + 8 + 4 - (base + 8)) with 4 in Hdec by lia. fold (right_of base parent) in Hdec. injection Hdec as [H1 H2]%andb_true_iff.
  exists payload. split_and!; [done|lia|]. intros E. by rewrite E in H1.
Qed.

(** The cell on the new leaf. *)
Lemma new_leaf_ok p nbuf c :
  header_offset p = 0 -> buffer p = Some nbuf -> usable <= lenZ nbuf -> bytes_ok nbuf -> is_cell usable TableLeaf c -> exists p1 p',
    btree_init_page p TableLeaf usable = Ok p1 /\ insert_into_cell p1 c 0 usable = Ok p' /\
    represents 0 usable TableLeaf p' (mkAPage [c] []) /\ pg_id p' = pg_id p.
Proof.
  intros Hb Hbuf Hl Hok Hc. assert (dims 0 usable) as Hd by (destruct Hdims; split; [by left|done]).
  destruct (init_represents 0 usable TableLeaf Hd p nbuf Hb Hbuf Hl Hok) as (p1 & Hinit & HR & _ & _).
  pose proof (cell_size usable TableLeaf c Hd Hc) as Hfit. cbv iota in Hfit.
  assert (on_page 0 usable TableLeaf (mkAPage [] []) c false = true) as Hon.
  { unfold on_page, free_of, lo_of, region_size. cbn [a_over a_cells is_nil orb andb foldr]. destruct Hd as [_ Hu]. apply Z.leb_le. change (arr 0 TableLeaf) with 8.
    change (lenZ (@nil bytes)) with 0. lia. }
  destruct (pstep_refines 0 usable TableLeaf Hd (PInsert 0 c false) p1 _ HR) as (p' & Hp' & HR' & _); [split_and!; [done|done|done]|].
  exists p1, p'. split_and!; [done|done| |rewrite <- (init_keeps_id _ _ _ _ Hinit); by eapply insert_keeps_id]. cbn [astep] in HR'. by rewrite Hon in HR'.
Qed.

(** The divider as [balance_quick] builds it. *)
Lemma quick_divider id key :
  is_u64 key -> exists varint n, write_varint (replicate 9 0) (u64 (i64 key)) = Ok (varint, n) /\
    slice (be_split 4 id ++ varint) 0 (4 + n) = Ok (be_split 4 id ++ varint_encode key).
Proof.
  intros Hk. assert (u64 (i64 key) = key) as ->.
  { unfold u64, i64. change 18446744073709551616 with (2 ^ 64). rewrite signed_mod by lia. apply Z.mod_small. exact Hk. }
  pose proof (varint_len_bounds key Hk) as Hb. pose proof (varint_encode_length key Hk) as Hl. pose proof (be_split_lenZ 4 id) as H4.
  rewrite write_varint_eq by (done || (change (lenZ (replicate 9 0)) with 9; lia)). do 2 eexists. split; [done|].
  set (r := drop _ _). pose proof (lenZ_nonneg r). rewrite slice_sub by (rewrite ?lenZ_app; lia). f_equal. rewrite Z.sub_0_r. unfold sub. change (Z.to_nat 0) with 0%nat.
  rewrite drop_0, app_assoc. apply take_app_length'. rewrite length_app. unfold lenZ in *. lia.
Qed.

(** The right pointer of the parent is written last. *)
Lemma right_written p a id :
  represents base usable TableInterior p a -> is_u32 id -> exists buf,
    write_rightmost_ptr (header_offset p) (as_ptr p) id = Ok buf /\ represents base usable TableInterior (set_buffer p buf) a /\
    right_of base (set_buffer p buf) = id.
Proof.
  intros [Hb Ho (ca & fbs & ptrs & HW)] Hid. pose proof HW as [_ HS]. pose proof (so_len _ _ _ _ _ _ _ HS). pose proof Hdims as [Hb0 Hu]. pose proof (be_split_lenZ 4 id).
  exists (splice (as_ptr p) (base + 8) (be_split 4 id)). split_and!.
  - rewrite Hb. unfold write_rightmost_ptr, write_u32, BTREE_RIGHTMOST_PTR. apply write_slice_Ok. split_and!; [lia|lia|done].
  - constructor; [done|done|]. exists ca, fbs, ptrs. rewrite as_ptr_set. by apply (right_write_at base usable TableInterior Hdims (or_intror eq_refl)).
  - unfold right_of. rewrite as_ptr_set, sub_splice_eq by lia. by apply be32_roundtrip.
Qed.

(** C11: whenever [balance] takes the fast path, [balance_quick] succeeds: the cell
    that did not fit on the rightmost leaf is the only cell of the new leaf, the
    old leaf keeps its other cells, and the parent gets the old leaf as its last
    divider, with the largest row id on it as the key, and the new leaf as its
    rightmost child; its other children stay as they are.  The divider may become
    an overflow cell of the parent. *)
Theorem quick_appends parent old new a cells over nbuf :
  represents base usable TableInterior parent a -> a_over a = [] -> represents 0 usable TableLeaf old (mkAPage cells over) -> cells <> [] ->
  Forall (fun o => is_cell usable TableLeaf (oc_payload o)) over -> decide_quick parent old = Ok true ->
  header_offset new = 0 -> buffer new = Some nbuf -> usable <= lenZ nbuf -> bytes_ok nbuf -> is_u32 (pg_id old) -> is_u32 (pg_id new) ->
  exists parent' a' old' new' c e key,
    balance_quick usable parent old new = Ok (parent', old', new') /\ over = [mkOverflowCell (lenZ cells) c] /\
    last cells = Some e /\ leaf_key e = Ok key /\
    represents base usable TableInterior parent' a' /\ with_overflow a' = a_cells a ++ [be_split 4 (pg_id old) ++ varint_encode key] /\
    children (with_overflow a') (right_of base parent') = children (a_cells a) (right_of base parent) ++ [pg_id new] /\
    represents 0 usable TableLeaf old' (mkAPage cells []) /\ represents 0 usable TableLeaf new' (mkAPage [c] []) /\
    pg_id parent' = pg_id parent /\ pg_id old' = pg_id old /\ pg_id new' = pg_id new.
Proof.
  intros HR Ha HRo Hne Hover Hdec Hbn Hbuf Hln Hokn Hido Hidn.
  destruct (decide_quick_true parent old a cells over HR HRo Hdec) as (c & -> & Hright & _). rewrite u32_id in Hright by done.
  apply Forall_cons in Hover as [Hover _]. cbn in Hover. destruct (new_leaf_ok new nbuf c Hbn Hbuf Hln Hokn Hover) as (n1 & n2 & Hinit & Hins & HRn & Hidn2).
  destruct (last cells) as [e|] eqn:Elast; [|by apply last_None in Elast]. rewrite last_lookup in Elast.
  assert (dims 0 usable) as Hd by (destruct Hdims; split; [by left|done]). pose proof HRo as [Hb1 Ho1 (ca1 & fbs1 & ptrs1 & HW1)].
  pose proof HR as [Hb Ho (ca & fbs & ptrs & [[HA Hpl _] HS])]. cbn [a_over a_cells] in *. pose proof (so_len _ _ _ _ _ _ _ HS) as Hl.
  pose proof HW1 as [[HA1 Hpl1 _] HS1]. pose proof (so_len _ _ _ _ _ _ _ HS1) as Hl1. pose proof Hdims as [Hb0 Hu].
  destruct (rowid_read 0 usable Hd _ _ _ _ _ _ _ HW1 Elast) as (key & Hkey & Hku & Hrow).
  destruct (quick_divider (pg_id old) key Hku) as (varint & n & Hvar & Hslice). set (d := be_split 4 (pg_id old) ++ varint_encode key) in *.
  assert (with_overflow a = a_cells a) as Hwo by (unfold with_overflow; by rewrite Ha).
  destruct (insert_divider_ok base usable TableInterior Hdims (or_intror eq_refl) parent a (length (a_cells a)) d HR) as (parent1 & a' & Hpins & HR' & HL' & _ & Hpid & _);
    [by apply key_cell|by rewrite Hwo|]. destruct (right_written parent1 a' (pg_id n2) HR') as (buf & Hw & HRw & Hrw); [congruence|].
  exists (set_buffer parent1 buf), a', (set_overflow_cells old []), n2, c, e, key.
  split_and!; try done; [|by rewrite HL', Hwo; unfold insert_at; rewrite firstn_all, drop_all| |].
  2: { rewrite HL', Hwo, Hrw, Hidn2, Hright. unfold insert_at, children. rewrite firstn_all, drop_all, fmap_app.
    assert (child_ptr d = pg_id old) as Hcp by (unfold child_ptr; change (sub d 0 4) with (be_split 4 (pg_id old)); by apply be32_roundtrip).
    change (child_ptr <$> [d]) with [child_ptr d]. by rewrite Hcp. }
  2: { constructor; [done|done|by exists ca1, fbs1, ptrs1]. }
  unfold balance_quick. rewrite Hinit. cbn [mbind Result_bind]. unfold rightmost_pointer. rewrite Hb, (page_type_ok base usable _ Hdims _ _ HA) by lia.
  cbn [mbind Result_bind]. unfold BTREE_RIGHTMOST_PTR. rewrite slice_sub by lia. cbn [unwrap mbind Result_bind]. replace (base + 8 + 4 - (base + 8)) with 4 by lia.
  fold (right_of base parent). rewrite Ho1, Hright, (u32_id (pg_id old) Hido), Z.eqb_refl. cbn [turso_assert mbind Result_bind oc_index oc_payload].
  change (header_offset (set_overflow_cells old [])) with (header_offset old). change (pg_id (set_overflow_cells old [])) with (pg_id old).
  rewrite Hb1. change (as_ptr (set_overflow_cells old [])) with (as_ptr old). rewrite (cell_count_ok 0 usable _ Hd _ _ HA1), Hpl1 by lia. cbn [mbind Result_bind].
  rewrite Z.eqb_refl. cbn [turso_assert mbind Result_bind]. rewrite Hins. cbn [mbind Result_bind]. unfold checked_sub.
  assert (0 < length cells)%nat as Hpos by (destruct cells; [done|cbn; lia]). rewrite (proj2 (Z.leb_le 1 (lenZ cells))) by (unfold lenZ; lia). cbn [mbind Result_bind].
  replace (lenZ cells - 1) with (Z.of_nat (pred (length cells))) by (unfold lenZ; lia). rewrite Hrow. cbn [mbind Result_bind]. rewrite Hvar. cbn [mbind Result_bind]. 
  rewrite (u32_id (pg_id old) Hido), Hslice. cbn [mbind Result_bind]. rewrite (cell_count_ok base usable _ Hdims _ _ HA), Hpl by lia. cbn [mbind Result_bind].
  unfold lenZ. rewrite Hpins. cbn [mbind Result_bind]. rewrite (u32_id (pg_id n2)) by congruence. by rewrite Hw.
Qed.
End quick.

(** ** A leaf of 512 bytes *)

Lemma renumber_represents usable t p a id : id <> 1 -> represents 0 usable t p a -> represents 0 usable t (renumber p id) a.
Proof.
  intros Hid [Hb Ho HW]. unfold renumber. destruct (id =? pg_id p); [by constructor|]. constructor; [|done|done]. cbn [header_offset set_id].
  unfold header_offset_of. by rewrite (proj2 (Z.eqb_neq _ _) Hid).
Qed.

Definition demo_last_ops : list PageOp := leaf_ops 20 ++ [PInsert 3 (demo_cell 30 127) false].
Definition demo_last : PageInner := renumber (built TableLeaf demo_last_ops) 9.

Lemma quick_appends_witness : exists parent' old' new' a',
  decide_quick demo_parent demo_last = Ok true /\
  balance_quick 512 demo_parent demo_last (renumber blank_page 11) = Ok (parent', old', new') /\
  children (with_overflow a') (right_of 0 parent') = [5; 7; 9; 11] /\
  represents 0 512 TableLeaf new' (mkAPage [demo_cell 30 127] []).
Proof.
  destruct demo_situation as (ca & fbs & ptrs & l & [_ [Hb HW Hov _] _ _ _ _ _ _] & _).
  assert (decide_quick demo_parent demo_last = Ok true) as Hdec by (vm_compute; reflexivity).
  assert (arun 0 512 TableLeaf demo_last_ops (mkAPage [] []) =
    mkAPage [demo_cell 20 121; demo_cell 21 121; demo_cell 22 121] [mkOverflowCell 3 (demo_cell 30 127)]) as Ha by (vm_compute; reflexivity).
  destruct (built_represents TableLeaf demo_last_ops) as [HR _]; [vm_compute; reflexivity|]. rewrite Ha in HR.
  destruct (quick_appends 0 512 dims_0_512 demo_parent demo_last (renumber blank_page 11) (mkAPage demo_dividers [])
    [demo_cell 20 121; demo_cell 21 121; demo_cell 22 121] [mkOverflowCell 3 (demo_cell 30 127)] (replicate 512 0))
    as (parent' & a' & old' & new' & c & e & key & H1 & H2 & _ & _ & _ & _ & H7 & _ & H9 & _).
  - constructor; [exact Hb|exact Hov|exists ca, fbs, ptrs; exact HW].
  - reflexivity.
  - apply renumber_represents; [discriminate|exact HR].
  - discriminate.
  - constructor; [|constructor]. apply is_cell_check; vm_compute; reflexivity.
  - exact Hdec.
  - reflexivity.
  - reflexivity.
  - vm_compute. discriminate.
  - apply bytes_ok_dec. vm_compute. reflexivity.
  - vm_compute. split; [discriminate|reflexivity].
  - vm_compute. split; [discriminate|reflexivity].
  - exists parent', old', new', a'. split; [exact Hdec|]. split; [exact H1|]. split.
    + rewrite H7. vm_compute. reflexivity.
    + injection H2 as <-. exact H9.
Defined.
