(* ===== verification/BtreeCursor.v ===== *)
(** * BtreeCursor: walking through a B-tree

    Models the stack of pages of a cursor ([PageStack]) and the iteration of
    core/storage/btree.rs: [move_to_root_nonblock], [get_next_record], [rewind] and
    [next], and backwards [get_prev_record], [move_to_rightmost], [last] and [prev],
    of a cursor without a saved position.

    A cursor keeps the pages from the root to the current one; the stack is the used
    part of the arrays of [PageStack], the current page first, so [current_page] is its
    length minus one.  The pages are values: the tree does not change while the cursor
    walks.  A call that has to wait for a page returns and is called again. *)

From stdpp Require Import gmap.
From S2P Require Import Prelude Resume Varint OnDisk Page BtreePage BtreeSpace BtreeCells BtreeRefine BtreePayload.
From S2P Require Import BtreeDistribute BtreeRedist BtreeDividers BtreeOrder.

(** ** The stack *)

Definition BTCURSOR_MAX_DEPTH : Z := 20.
Definition i32_max : Z := 2147483647.

Record BTreeNodeState := mkNode { cell_idx : Z; ns_cell_count : option Z }.

Definition is_at_end (n : BTreeNodeState) : Result bool :=
  count ← unwrap (ns_cell_count n); Ok (cell_idx n =? count + 1).

(** A slot of [PageStack] with its state. *)
Record frame := mkFrame { fr_page : PageInner; fr_state : BTreeNodeState }.

Definition populate_parent_cell_count (stack : list frame) : Result (list frame) :=
  match stack with
  | [] => Ok []
  | f :: below =>
      let page := fr_page f in
      _ ← turso_assert (is_pinned page);
      _ ← turso_assert (is_loaded page);
      count ← cell_count (header_offset page) (as_ptr page);
      Ok (mkFrame page (mkNode (cell_idx (fr_state f)) (Some count)) :: below)
  end.

Definition push_at (stack : list frame) (page : PageInner) (starting_cell_idx : Z) : Result (list frame) :=
  let on_path := existsb (fun f => pg_id (fr_page f) =? pg_id page) stack in
  if (on_path : bool) then Err Corrupt
  else
    stack ← populate_parent_cell_count stack;
    _ ← turso_assert (lenZ stack <? BTCURSOR_MAX_DEPTH);
    Ok (mkFrame (pin page) (mkNode starting_cell_idx None) :: stack).

Definition pop (stack : list frame) : Result (list frame) :=
  match stack with
  | [] => Panic
  | f :: below =>
      _ ← unpin (fr_page f);
      _ ← turso_assert (0 <? lenZ below);
      Ok below
  end.

(** [top_ref] and [current_cell_index] *)
Definition top_frame (stack : list frame) : Result frame := unwrap (head stack).

Definition set_cell_index (stack : list frame) (i : Z) : Result (list frame) :=
  match stack with
  | [] => Panic
  | f :: below => Ok (mkFrame (fr_page f) (mkNode i (ns_cell_count (fr_state f))) :: below)
  end.

Definition advance (stack : list frame) : Result (list frame) :=
  f ← top_frame stack;
  _ ← turso_assert (cell_idx (fr_state f) <? i32_max);
  set_cell_index stack (cell_idx (fr_state f) + 1).

Definition retreat (stack : list frame) : Result (list frame) :=
  f ← top_frame stack;
  _ ← turso_assert (- i32_max <=? cell_idx (fr_state f));
  set_cell_index stack (cell_idx (fr_state f) - 1).

(** For the frames below the top, from the parent up. *)
Fixpoint ancestor_pages_have_more_children (ancestors : list frame) : Result bool :=
  match ancestors with
  | [] => Ok false
  | f :: ancestors => e ← is_at_end (fr_state f); if (e : bool) then ancestor_pages_have_more_children ancestors else Ok true
  end.

(** ** The cursor *)

Inductive CursorValidState := Invalid | Valid.
Inductive IterationPendingDescent := Forwards (target : Z) | Backwards (target : Z).
Inductive AdvanceState := AdvanceStart | AdvanceAdvance.
Inductive RewindState := RewindStart | RewindNextRecord.
Inductive MoveToRightState := MoveStart | MoveProcessPage.

Record BTreeCursor := mkCursor {
  stack : list frame;
  going_upwards : bool;
  iteration_pending_descent : option IterationPendingDescent;
  has_record : bool;
  valid_state : CursorValidState;
  skip_advance : bool;
  advance_state : AdvanceState;
  rewind_state : RewindState;
  move_to_right_state : MoveToRightState * option Z
}.

Definition set_stack (c : BTreeCursor) (s : list frame) : BTreeCursor :=
  mkCursor s (going_upwards c) (iteration_pending_descent c) (has_record c) (valid_state c) (skip_advance c) (advance_state c) (rewind_state c) (move_to_right_state c).
Definition set_going_upwards (c : BTreeCursor) (b : bool) : BTreeCursor :=
  mkCursor (stack c) b (iteration_pending_descent c) (has_record c) (valid_state c) (skip_advance c) (advance_state c) (rewind_state c) (move_to_right_state c).
Definition set_pending (c : BTreeCursor) (p : option IterationPendingDescent) : BTreeCursor :=
  mkCursor (stack c) (going_upwards c) p (has_record c) (valid_state c) (skip_advance c) (advance_state c) (rewind_state c) (move_to_right_state c).
Definition set_has_record (c : BTreeCursor) (b : bool) : BTreeCursor :=
  mkCursor (stack c) (going_upwards c) (iteration_pending_descent c) b (valid_state c) (skip_advance c) (advance_state c) (rewind_state c) (move_to_right_state c).
Definition set_advance_state (c : BTreeCursor) (a : AdvanceState) : BTreeCursor :=
  mkCursor (stack c) (going_upwards c) (iteration_pending_descent c) (has_record c) (valid_state c) (skip_advance c) a (rewind_state c) (move_to_right_state c).
Definition set_rewind_state (c : BTreeCursor) (r : RewindState) : BTreeCursor :=
  mkCursor (stack c) (going_upwards c) (iteration_pending_descent c) (has_record c) (valid_state c) (skip_advance c) (advance_state c) r (move_to_right_state c).
Definition set_skip_advance (c : BTreeCursor) (b : bool) : BTreeCursor :=
  mkCursor (stack c) (going_upwards c) (iteration_pending_descent c) (has_record c) (valid_state c) b (advance_state c) (rewind_state c) (move_to_right_state c).
Definition set_move_to_right_state (c : BTreeCursor) (m : MoveToRightState * option Z) : BTreeCursor :=
  mkCursor (stack c) (going_upwards c) (iteration_pending_descent c) (has_record c) (valid_state c) (skip_advance c) (advance_state c) (rewind_state c) m.
(** [clear_saved_seek]; there is no saved position. *)
Definition clear_saved_seek (c : BTreeCursor) : BTreeCursor :=
  mkCursor (stack c) (going_upwards c) (iteration_pending_descent c) (has_record c) Valid false (advance_state c) (rewind_state c) (move_to_right_state c).

Definition pop_upwards (c : BTreeCursor) : Result BTreeCursor :=
  s ← pop (stack c); Ok (set_stack (set_going_upwards c true) s).
Definition descend (c : BTreeCursor) (page : PageInner) : Result BTreeCursor :=
  s ← push_at (stack c) page (-1); Ok (set_stack (set_going_upwards c false) s).
Definition descend_backwards (c : BTreeCursor) (page : PageInner) : Result BTreeCursor :=
  s ← push_at (stack c) page i32_max; Ok (set_stack (set_going_upwards c false) s).

Definition is_index_type (t : PageType) : bool :=
  match t with IndexLeaf | IndexInterior => true | TableLeaf | TableInterior => false end.

(** The state between the iterations: the cursor and the answers of [read_page] to come. *)
Abbreviation cursor_state := (BTreeCursor * list read_event)%type.
Abbreviation moved := (bool * BTreeCursor * list read_event)%type.

Section walk.
Context (pages : gmap Z PageInner) (root_page : Z).

(** A read of page [target] and the descent to it by [down]; the call returns with
    [again] when there is no page yet. *)
Definition read_and_descend (down : BTreeCursor -> PageInner -> Result BTreeCursor) (c again : BTreeCursor) (target : Z) (events : list read_event)
    : Result (outcome cursor_state moved) :=
  let descended := page ← unwrap (pages !! target); down c page in
  match events with
  | ReadReady :: events => c ← descended; Ok (Continue (c, events))
  | ReadWait :: events => c ← descended; Ok (Wait (c, events))
  | ReadError e :: _ => Err e
  | ReadSpill :: events => Ok (Wait (again, events))
  | [] => Ok (Wait (again, []))
  end.

(** An iteration of [get_next_record] without a descent to resume. *)
Definition next_iteration (c : BTreeCursor) (events : list read_event) : Result (outcome cursor_state moved) :=
  f ← top_frame (stack c);
  let base := header_offset (fr_page f) in
  let contents := as_ptr (fr_page f) in
  let i := cell_idx (fr_state f) in
  count ← cell_count base contents;
  is_leaf ← is_leaf base contents;
  if negb (i =? -1) && is_leaf && (u64 i + 1 <? count) then
    s ← advance (stack c); Ok (Finish (true, set_stack c s, events))
  else
    t ← page_type base contents;
    let is_index := is_index_type t in
    if is_index && going_upwards c && (0 <=? i) && (i <? count) then
      Ok (Finish (true, set_going_upwards c false, events))
    else
      s ← advance (stack c);
      let c := set_stack c s in
      let i := u64 (i + 1) in
      if count <=? i then
        right ← rightmost_pointer base contents;
        match right, count <? i with
        | Some right_most_pointer, false =>
            s ← advance (stack c);
            let c := set_stack c s in
            read_and_descend descend c (set_pending c (Some (Forwards right_most_pointer))) right_most_pointer events
        | _, _ =>
            more ← ancestor_pages_have_more_children (tail (stack c));
            if (more : bool) then c ← pop_upwards c; Ok (Continue (c, events))
            else Ok (Finish (false, c, events))
        end
      else if (is_leaf : bool) then Ok (Finish (true, c, events))
      else if is_index && going_upwards c then Ok (Finish (true, set_going_upwards c false, events))
      else
        left_child_page ← cell_interior_read_left_child_page base contents i;
        read_and_descend descend c (set_pending c (Some (Forwards left_child_page))) left_child_page events.

Definition next_step (s : cursor_state) : Result (outcome cursor_state moved) :=
  let '(c, events) := s in
  match iteration_pending_descent c with
  | Some (Forwards target) => read_and_descend descend (set_pending c None) c target events
  | _ => next_iteration c events
  end.

(** One call. *)
Definition get_next_record (fuel : nat) (s : cursor_state) : Result (cursor_state + cursor_state) :=
  let '(c, events) := s in
  match stack c with
  | [] => Ok (inl (set_has_record c false, events))
  | _ =>
      r ← call next_step fuel s;
      match r with
      | inl (found, c, events) => Ok (inl (set_has_record c found, events))
      | inr s => Ok (inr s)
      end
  end.

(** Reads the root page and starts a new stack with it: [None] when there is no page
    yet, otherwise whether its contents have to be waited for. *)
Definition read_root (c : BTreeCursor) (events : list read_event) : Result (option bool * cursor_state) :=
  let at_root := page ← unwrap (pages !! root_page); s ← push_at [] page (-1); Ok (set_stack c s) in
  match events with
  | ReadReady :: events => c ← at_root; Ok (Some false, (c, events))
  | ReadWait :: events => c ← at_root; Ok (Some true, (c, events))
  | ReadError e :: _ => Err e
  | ReadSpill :: events => Ok (None, (c, events))
  | [] => Ok (None, (c, []))
  end.

Definition move_to_root_nonblock (c : BTreeCursor) (events : list read_event) : Result (option bool * cursor_state) :=
  let c := set_going_upwards c false in
  match last (stack c) with
  | Some root =>
      if (pg_id (fr_page root) =? root_page) && is_loaded (fr_page root) then
        Ok (Some false, (set_stack c [mkFrame (fr_page root) (mkNode (-1) None)], events))
      else read_root c events
  | None => read_root c events
  end.

(** State [NextRecord] of [rewind]. *)
Definition rewind_next (fuel : nat) (s : cursor_state) : Result (cursor_state + cursor_state) :=
  r ← get_next_record fuel s;
  match r with
  | inl (c, events) => Ok (inl (set_rewind_state c RewindStart, events))
  | inr s => Ok (inr s)
  end.

Definition rewind (fuel : nat) (s : cursor_state) : Result (cursor_state + cursor_state) :=
  let '(c, events) := s in
  match valid_state c with
  | Invalid => Ok (inl (c, events))
  | Valid =>
      let c := clear_saved_seek c in
      match rewind_state c with
      | RewindStart =>
          '(at_root, (c, events)) ← move_to_root_nonblock c events;
          match at_root with
          | None => Ok (inr (c, events))
          | Some true => Ok (inr (set_rewind_state c RewindNextRecord, events))
          | Some false => rewind_next fuel (set_rewind_state c RewindNextRecord, events)
          end
      | RewindNextRecord => rewind_next fuel (c, events)
      end
  end.

(** ** Stepping *)

Definition has_pending_advance_state (c : BTreeCursor) : bool :=
  match advance_state c with AdvanceStart => false | AdvanceAdvance => true end ||
  match valid_state c with Valid => false | Invalid => true end ||
  skip_advance c || negb (has_record c) ||
  match iteration_pending_descent c with None => false | Some _ => true end.

Definition can_advance_within_leaf (c : BTreeCursor) : Result bool :=
  if has_pending_advance_state c then Ok false
  else
    f ← top_frame (stack c);
    let i := cell_idx (fr_state f) in
    is_leaf ← is_leaf (header_offset (fr_page f)) (as_ptr (fr_page f));
    count ← cell_count (header_offset (fr_page f)) (as_ptr (fr_page f));
    Ok ((0 <=? i) && is_leaf && (i + 1 <? count)).

Definition is_on_last_cell_of_tree (c : BTreeCursor) : Result bool :=
  if has_pending_advance_state c then Ok false
  else
    f ← top_frame (stack c);
    let i := cell_idx (fr_state f) in
    is_leaf ← is_leaf (header_offset (fr_page f)) (as_ptr (fr_page f));
    count ← cell_count (header_offset (fr_page f)) (as_ptr (fr_page f));
    if (0 <=? i) && is_leaf && (i + 1 =? count) then
      more ← ancestor_pages_have_more_children (tail (stack c)); Ok (negb more)
    else Ok false.

(** State [Advance] of [next]. *)
Definition next_advance (fuel : nat) (s : cursor_state) : Result (cursor_state + cursor_state) :=
  r ← get_next_record fuel s;
  match r with
  | inl (c, events) => Ok (inl (set_advance_state c AdvanceStart, events))
  | inr s => Ok (inr s)
  end.

(** State [Start] of [next] when [skip_advance] is set: is the cursor on a record? *)
Definition on_record (c : BTreeCursor) : Result bool :=
  match stack c with
  | [] => Ok false
  | f :: _ =>
      count ← cell_count (header_offset (fr_page f)) (as_ptr (fr_page f));
      Ok ((0 <=? cell_idx (fr_state f)) && (cell_idx (fr_state f) <? count))
  end.

Definition next (fuel : nat) (s : cursor_state) : Result (cursor_state + cursor_state) :=
  let '(c, events) := s in
  within ← can_advance_within_leaf c;
  if (within : bool) then s ← advance (stack c); Ok (inl (set_stack c s, events))
  else
    last ← is_on_last_cell_of_tree c;
    if (last : bool) then s ← advance (stack c); Ok (inl (set_has_record (set_stack c s) false, events))
    else
      match valid_state c, advance_state c with
      | Invalid, _ => Ok (inl (c, events))
      | Valid, AdvanceStart =>
          stay ← (if skip_advance c then on_record c else Ok false);
          let c := set_skip_advance c false in
          if (stay : bool) then Ok (inl (set_has_record c true, events))
          else next_advance fuel (set_advance_state c AdvanceAdvance, events)
      | Valid, AdvanceAdvance => next_advance fuel (c, events)
      end.

(** ** Backwards *)

(** Is the current cell of an interior page of an index the one whose left child is [child_page_id]? *)
Definition came_from_left_child (f : frame) (child_page_id : Z) : Result bool :=
  let base := header_offset (fr_page f) in
  let contents := as_ptr (fr_page f) in
  let i := cell_idx (fr_state f) in
  t ← page_type base contents;
  count ← cell_count base contents;
  if bool_decide (t = IndexInterior) && (0 <=? i) && (i <? count) then
    left_child_page ← cell_interior_read_left_child_page base contents i; Ok (left_child_page =? child_page_id)
  else Ok false.

(** The inner loop of [get_prev_record]: upwards to a page with cells that are not
    visited yet; [false] at the beginning of the tree. *)
Fixpoint climb (fuel : nat) (c : BTreeCursor) : Result (bool * BTreeCursor) :=
  match fuel with
  | O => Panic
  | S fuel =>
      f ← top_frame (stack c);
      if 0 <=? cell_idx (fr_state f) then Ok (true, c)
      else if 0 <? lenZ (stack c) - 1 then
        let child_page_id := pg_id (fr_page f) in
        c ← pop_upwards c;
        parent ← top_frame (stack c);
        came ← came_from_left_child parent child_page_id;
        if (came : bool) then s ← retreat (stack c); climb fuel (set_stack c s) else climb fuel c
      else Ok (false, c)
  end.

(** The part of an iteration of [get_prev_record] after the index was moved. *)
Definition prev_moved (c : BTreeCursor) (t : PageType) (is_leaf : bool) (events : list read_event) : Result (outcome cursor_state moved) :=
  f ← top_frame (stack c);
  let i := cell_idx (fr_state f) in
  if i <? 0 then
    '(found, c) ← climb (S (length (stack c))) c;
    if (found : bool) then Ok (Continue (c, events)) else Ok (Finish (false, c, events))
  else if (is_leaf : bool) then Ok (Finish (true, c, events))
  else if is_index_type t && going_upwards c then Ok (Finish (true, set_going_upwards c false, events))
  else
    left_child_page ← cell_interior_read_left_child_page (header_offset (fr_page f)) (as_ptr (fr_page f)) i;
    s ← (if bool_decide (t = IndexInterior) then retreat (stack c) else Ok (stack c));
    let c := set_stack c s in
    read_and_descend descend_backwards c (set_pending c (Some (Backwards left_child_page))) left_child_page events.

(** An iteration of [get_prev_record] without a descent to resume. *)
Definition prev_iteration (c : BTreeCursor) (events : list read_event) : Result (outcome cursor_state moved) :=
  f ← top_frame (stack c);
  let base := header_offset (fr_page f) in
  let contents := as_ptr (fr_page f) in
  t ← page_type base contents;
  is_leaf ← is_leaf base contents;
  count ← cell_count base contents;
  let i := cell_idx (fr_state f) in
  right ← (if (i =? i32_max) && negb (going_upwards c) then rightmost_pointer base contents else Ok None);
  match right with
  | Some rightmost_pointer =>
      s ← set_cell_index (stack c) (count + 1);
      read_and_descend descend_backwards (set_stack c s) c rightmost_pointer events
  | None =>
      if count <=? i then s ← set_cell_index (stack c) (count - 1); prev_moved (set_stack c s) t is_leaf events
      else if 0 <=? i then
        if is_index_type t && going_upwards c then Ok (Finish (true, set_going_upwards c false, events))
        else if bool_decide (t = IndexInterior) then prev_moved c t is_leaf events
        else s ← retreat (stack c); prev_moved (set_stack c s) t is_leaf events
      else prev_moved c t is_leaf events
  end.

Definition prev_step (s : cursor_state) : Result (outcome cursor_state moved) :=
  let '(c, events) := s in
  match iteration_pending_descent c with
  | Some (Backwards target) => read_and_descend descend_backwards (set_pending c None) c target events
  | _ => prev_iteration c events
  end.

(** One call. *)
Definition get_prev_record (fuel : nat) (s : cursor_state) : Result (cursor_state + cursor_state) :=
  r ← call prev_step fuel s;
  match r with
  | inl (found, c, events) => Ok (inl (set_has_record c found, events))
  | inr s => Ok (inr s)
  end.

Definition prev (fuel : nat) (s : cursor_state) : Result (cursor_state + cursor_state) :=
  let '(c, events) := s in
  let c := match advance_state c with AdvanceStart => set_advance_state (set_skip_advance c false) AdvanceAdvance | AdvanceAdvance => c end in
  r ← get_prev_record fuel (c, events);
  match r with
  | inl (c, events) => Ok (inl (set_advance_state c AdvanceStart, events))
  | inr s => Ok (inr s)
  end.

(** State [ProcessPage] of [move_to_rightmost]. *)
Definition rightmost_page (c : BTreeCursor) (events : list read_event) : Result (outcome cursor_state moved) :=
  f ← top_frame (stack c);
  let base := header_offset (fr_page f) in
  let contents := as_ptr (fr_page f) in
  is_leaf ← is_leaf base contents;
  count ← cell_count base contents;
  if (is_leaf : bool) then
    let c := set_move_to_right_state c (MoveStart, Some (pg_id (fr_page f))) in
    if 0 <? count then s ← set_cell_index (stack c) (count - 1); Ok (Finish (true, set_stack c s, events))
    else Ok (Finish (false, c, events))
  else
    right ← rightmost_pointer base contents;
    right_most_pointer ← unwrap right;
    s ← set_cell_index (stack c) (count + 1);
    read_and_descend (fun c page => s ← push_at (stack c) page (-1); Ok (set_stack c s)) (set_stack c s) c right_most_pointer events.

(** State [Start] of [move_to_rightmost] when the cursor may be on the page already. *)
Definition on_rightmost_page (c : BTreeCursor) : Result bool :=
  match snd (move_to_right_state c) with
  | None => Ok false
  | Some rightmost_page_id => f ← top_frame (stack c); Ok (pg_id (fr_page f) =? rightmost_page_id)
  end.

Definition move_to_rightmost (s : cursor_state) : Result (outcome cursor_state moved) :=
  let '(c, events) := s in
  match fst (move_to_right_state c) with
  | MoveStart =>
      there ← on_rightmost_page c;
      if (there : bool) then
        f ← top_frame (stack c);
        count ← cell_count (header_offset (fr_page f)) (as_ptr (fr_page f));
        s ← set_cell_index (stack c) (count - 1);
        Ok (Finish (0 <? count, set_stack c s, events))
      else
        '(at_root, (c, events)) ← move_to_root_nonblock c events;
        let moving := set_move_to_right_state c (MoveProcessPage, snd (move_to_right_state c)) in
        match at_root with
        | None => Ok (Wait (c, events))
        | Some true => Ok (Wait (moving, events))
        | Some false => Ok (Continue (moving, events))
        end
  | MoveProcessPage => rightmost_page c events
  end.

Definition last_record (fuel : nat) (s : cursor_state) : Result (cursor_state + cursor_state) :=
  let '(c, events) := s in
  match valid_state c with
  | Invalid => Ok (inl (c, events))
  | Valid =>
      r ← call move_to_rightmost fuel (clear_saved_seek c, events);
      match r with
      | inl (found, c, events) => Ok (inl (set_has_record c found, events))
      | inr s => Ok (inr s)
      end
  end.
End walk.
