(* ===== verification/BtreeWalk.v ===== *)
(** * BtreeWalk: trees of pages and walks through them

    The tree that the pages of a table or an index form, its records in key order, and
    what the iterations of BtreeCursor.v have in common: positions, reads of pages that
    may have to wait, and the calls until there is a result. *)

From stdpp Require Import gmap.
From S2P Require Import Prelude Resume Varint OnDisk Page BtreePage BtreeSpace BtreeCells BtreeRefine BtreePayload.
From S2P Require Import BtreeDistribute BtreeRedist BtreeBalanced BtreeParent BtreeDividers BtreeOrder BtreeCursor.

(** ** Trees *)

Inductive tree := Leaf (p : PageInner) (cells : list bytes) | Node (p : PageInner) (ks : kids)
with kids := Last (t : tree) | More (t : tree) (c : bytes) (ks : kids).

Scheme tree_mut := Induction for tree Sort Prop
with kids_mut := Induction for kids Sort Prop.
Combined Scheme tree_kids_ind from tree_mut, kids_mut.

Definition page_of (t : tree) : PageInner := match t with Leaf p _ | Node p _ => p end.

(** The cells of an interior page and its last child. *)
Fixpoint dividers (ks : kids) : list bytes := match ks with Last _ => [] | More _ c ks => c :: dividers ks end.
Fixpoint rightmost (ks : kids) : tree := match ks with Last t => t | More _ _ ks => rightmost ks end.

Definition leaf_type (is_index : bool) : PageType := if is_index then IndexLeaf else TableLeaf.
Definition node_type (is_index : bool) : PageType := if is_index then IndexInterior else TableInterior.

Fixpoint ids (t : tree) : list Z := match t with Leaf p _ => [pg_id p] | Node p ks => pg_id p :: kids_ids ks end
with kids_ids (ks : kids) : list Z := match ks with Last t => ids t | More t _ ks => ids t ++ kids_ids ks end.

Fixpoint height (t : tree) : nat := match t with Leaf _ _ => 1 | Node _ ks => S (kids_height ks) end
with kids_height (ks : kids) : nat := match ks with Last t => height t | More t _ ks => max (height t) (kids_height ks) end.

(** Bounds the iterations that visit a tree. *)
Fixpoint cost (t : tree) : nat := match t with Leaf _ cells => S (length cells) | Node _ ks => kids_cost ks end
with kids_cost (ks : kids) : nat := match ks with Last t => S (cost t) | More t _ ks => S (cost t + kids_cost ks) end.

(** The records in key order. *)
Fixpoint records (is_index : bool) (t : tree) : list bytes :=
  match t with
  | Leaf _ cells => concat (record_of (leaf_type is_index) <$> cells)
  | Node _ ks => kids_records is_index ks
  end
with kids_records (is_index : bool) (ks : kids) : list bytes :=
  match ks with
  | Last t => records is_index t
  | More t c ks => records is_index t ++ record_of (node_type is_index) c ++ kids_records is_index ks
  end.

(** ** Pages *)

Record page_has (usable : Z) (t : PageType) (p : PageInner) (cells : list bytes) : Prop := mkPageHas {
  ph_dims : dims (header_offset p) usable;
  ph_wf : exists ca fbs ptrs, page_wf (header_offset p) usable t (as_ptr p) ca fbs ptrs cells;
  ph_min : Forall (fun c => 4 <= lenZ c) cells;
  ph_loaded : is_loaded p = true;
  ph_pins : 0 <= pin_count p < u64_max
}.

Definition right_child (p : PageInner) : Z := be_combine (sub (as_ptr p) (header_offset p + 8) 4).

(** The pages of the pager hold the tree. *)
Fixpoint stored (usable : Z) (is_index : bool) (pages : gmap Z PageInner) (t : tree) : Prop :=
  pages !! pg_id (page_of t) = Some (page_of t) /\
  match t with
  | Leaf p cells => page_has usable (leaf_type is_index) p cells
  | Node p ks =>
      page_has usable (node_type is_index) p (dividers ks) /\ right_child p = pg_id (page_of (rightmost ks)) /\
      stored_kids usable is_index pages ks
  end
with stored_kids (usable : Z) (is_index : bool) (pages : gmap Z PageInner) (ks : kids) : Prop :=
  match ks with
  | Last t => stored usable is_index pages t
  | More t c ks => child_ptr c = pg_id (page_of t) /\ stored usable is_index pages t /\ stored_kids usable is_index pages ks
  end.

Section reads.
Context (usable : Z) (t : PageType) (p : PageInner) (cells : list bytes) (Hp : page_has usable t p cells).
#[local] Abbreviation base := (header_offset p).

Lemma has_room : base + 12 <= lenZ (as_ptr p) /\ 0 <= base /\ lenZ cells < 65536.
Proof.
  destruct Hp as [Hd (ca & fbs & ptrs & [_ HS]) _ _ _]. destruct HS. pose proof (arr_range base t). destruct Hd.
  unfold lo_of in so_lo. pose proof (lenZ_nonneg cells). lia.
Qed.

Lemma has_type : page_type base (as_ptr p) = Ok t.
Proof. destruct Hp as [Hd (ca & fbs & ptrs & [[HA _ _] HS]) _ _ _]. apply (page_type_ok _ _ _ Hd _ _ HA). pose proof has_room. lia. Qed.

Lemma has_count : cell_count base (as_ptr p) = Ok (lenZ cells).
Proof.
  destruct Hp as [Hd (ca & fbs & ptrs & [[HA Hl _] HS]) _ _ _]. rewrite <- Hl. apply (cell_count_ok _ _ _ Hd _ _ HA).
  pose proof has_room. lia.
Qed.

Lemma has_leaf : is_leaf base (as_ptr p) = Ok (leaf t).
Proof.
  destruct Hp as [Hd (ca & fbs & ptrs & [[HA Hl _] HS]) _ _ _]. pose proof has_room. unfold is_leaf, read_u8, BTREE_PAGE_TYPE.
  rewrite Z.add_0_r, idx_get8, (ar_type _ _ _ _ HA) by lia. by destruct t.
Qed.

Lemma has_right : rightmost_pointer base (as_ptr p) = Ok (if leaf t then None else Some (right_child p)).
Proof.
  unfold rightmost_pointer. rewrite has_type. pose proof has_room. unfold BTREE_RIGHTMOST_PTR, right_child. cbn [mbind Result_bind].
  destruct t; try done; rewrite slice_sub by lia; cbn [mbind Result_bind]; (replace (base + 8 + 4 - (base + 8)) with 4 by lia); done.
Qed.

Lemma ptr_at (ptrs : list Z) (i : nat) c : lenZ ptrs = lenZ cells -> cells !! i = Some c -> exists q, ptrs !! i = Some q.
Proof. intros Hl Hc. apply lookup_lt_is_Some_2. apply lookup_lt_Some in Hc. unfold lenZ in Hl. lia. Qed.

Lemma has_child (i : nat) c : cells !! i = Some c -> cell_interior_read_left_child_page base (as_ptr p) (Z.of_nat i) = Ok (child_ptr c).
Proof.
  intros Hc. destruct Hp as [Hd (ca & fbs & ptrs & HW) Hm _ _]. pose proof HW as [[_ Hl _] _].
  destruct (ptr_at ptrs i c Hl Hc) as [q Hq].
  apply (left_child_ok _ _ _ Hd _ _ _ _ _ HW i q c Hq Hc). by eapply (Forall_lookup_1 _ _ _ _ Hm).
Qed.

Lemma has_cell (i : nat) c : cells !! i = Some c ->
  exists start, cell_get_raw_region base (as_ptr p) (Z.of_nat i) usable = Ok (start, lenZ c) /\ slice (as_ptr p) start (start + lenZ c) = Ok c.
Proof.
  intros Hc. destruct Hp as [Hd (ca & fbs & ptrs & HW) Hm _ _]. pose proof HW as [[_ Hl _] HS].
  destruct (ptr_at ptrs i c Hl Hc) as [q Hq].
  pose proof (Forall_lookup_1 _ _ _ _ Hm Hc) as H4. cbn in H4. exists q. rewrite (cell_region_ok _ _ _ Hd _ _ _ _ _ _ _ _ HW Hq Hc).
  destruct (cell_range _ _ _ _ _ _ _ _ _ _ _ HW Hq Hc) as (Hca & Hend & Hsub & _). destruct HS. unfold region_size in *. split; [f_equal; f_equal; lia|].
  pose proof (arr_range base t). pose proof (lenZ_nonneg cells). destruct Hd. unfold lo_of in so_lo.
  rewrite slice_sub by lia. replace (q + lenZ c - q) with (lenZ c) by lia. by rewrite Hsub.
Qed.
End reads.

(** ** Positions *)

(** Where a cursor is: its stack and whether it is going upwards. *)
Abbreviation pos := (list frame * bool)%type.
Definition place (c : BTreeCursor) (p : pos) : BTreeCursor :=
  mkCursor (fst p) (snd p) None (has_record c) (valid_state c) (skip_advance c) (advance_state c) (rewind_state c) (move_to_right_state c).

(** The record of the cell at the top of a stack. *)
Definition record_at (usable : Z) (st : list frame) : Result bytes :=
  f ← top_frame st;
  let base := header_offset (fr_page f) in
  let buf := as_ptr (fr_page f) in
  t ← page_type base buf;
  '(start, len) ← cell_get_raw_region base buf (cell_idx (fr_state f)) usable;
  cell ← slice buf start (start + len);
  unwrap (head (record_of t cell)).

(** A page on the stack. *)
Definition fr (p : PageInner) (i : Z) (count : option Z) : frame := mkFrame (pin p) (mkNode i count).

(** The pages from the current one to the root. *)
Definition path (st : list frame) : list Z := (fun f => pg_id (fr_page f)) <$> st.

(** The index of the current page is one that can be advanced. *)
Definition index_ok (st : list frame) : Prop :=
  match st with [] => False | f :: _ => 0 <= cell_idx (fr_state f) < i32_max end.

Section walk.
Context (usable : Z) (step : cursor_state -> Result (outcome cursor_state moved)).

(** [k] iterations move the cursor from [p] to [p'] without a record. *)
Definition goes (k : nat) (p : pos) (ev : list read_event) (p' : pos) (ev' : list read_event) : Prop :=
  forall c m, run step (k + m) (place c p, ev) = run step m (place c p', ev').
(** The next iteration ends the call with or without a record. *)
Definition stops (found : bool) (p p' : pos) : Prop :=
  forall c ev, step (place c p, ev) = Ok (Finish (found, place c p', ev)).

(** [n] iterations that stop at the records [l]. *)
Inductive walks : nat -> pos -> list read_event -> list bytes -> pos -> list read_event -> Prop :=
  | walk_nil p ev : walks 0 p ev [] p ev
  | walk_go k n p ev p1 ev1 l p2 ev2 : goes k p ev p1 ev1 -> walks n p1 ev1 l p2 ev2 -> walks (k + n) p ev l p2 ev2
  | walk_stop n p ev st r l p2 ev2 :
      stops true p (st, false) -> index_ok st -> record_at usable st = Ok r ->
      walks n (st, false) ev l p2 ev2 -> walks (S n) p ev (r :: l) p2 ev2.

Lemma walks_app n p ev l p1 ev1 n' l' p2 ev2 :
  walks n p ev l p1 ev1 -> walks n' p1 ev1 l' p2 ev2 -> walks (n + n') p ev (l ++ l') p2 ev2.
Proof.
  induction 1 as [|k n p ev p0 ev0 l q evq Hg _ IH|n p ev st r l q evq Hs Hi Hr _ IH]; intros Hw; [done| |].
  - rewrite <- Nat.add_assoc. eapply walk_go; [done|by apply IH].
  - cbn. eapply walk_stop; [done|done|done|by apply IH].
Qed.

Lemma goes_one p p' : (forall c ev, step (place c p, ev) = Ok (Continue (place c p', ev))) -> forall ev, goes 1 p ev p' ev.
Proof. intros H ev c m. cbn [Nat.add]. by rewrite run_S, H. Qed.

(** The answers after the next page. *)
Fixpoint after_read (ev : list read_event) : list read_event :=
  match ev with [] => [] | e :: ev => if answered e then ev else after_read ev end.

Lemma after_read_ok ev : Forall no_read_error ev -> (1 <= answers ev)%nat ->
  (length (after_read ev) < length ev)%nat /\ Forall no_read_error (after_read ev) /\ answers ev = S (answers (after_read ev)).
Proof.
  induction ev as [|e ev IH]; intros Herr Ha; [cbn in Ha; lia|]. apply Forall_cons_1 in Herr as [He Herr].
  destruct e; try done; [|split_and!; [cbn; lia|done|done]..]. destruct (IH Herr Ha) as (? & ? & ?). split_and!; [cbn; lia|done|done].
Qed.

(** Once the target is known the descent takes place, after the spills. *)
Section descent.
Context (pages : gmap Z PageInner) (down : BTreeCursor -> PageInner -> Result BTreeCursor).

Lemma reads_page c p1 target page st : pages !! target = Some page -> down (place c p1) page = Ok (place c (st, false)) -> forall ev again m,
  (forall ev, step (again, ev) = read_and_descend pages down (place c p1) again target ev) ->
  Forall no_read_error ev -> (1 <= answers ev)%nat ->
  run step (length ev - length (after_read ev) + m) (again, ev) = run step m (place c (st, false), after_read ev).
Proof.
  intros Hpage Hdown. induction ev as [|e ev IH]; intros again m Hstep Herr Ha; [cbn in Ha; lia|]. apply Forall_cons_1 in Herr as [He Herr].
  destruct e; [|done|..]; cbn [after_read answered length].
  - destruct (after_read_ok ev Herr Ha) as [Hl _]. rewrite Nat.sub_succ_l by lia. cbn [Nat.add]. rewrite run_S, Hstep.
    by apply IH.
  - replace (S (length ev) - length ev + m)%nat with (S m) by lia. rewrite run_S, Hstep. unfold read_and_descend.
    rewrite Hpage. cbn [unwrap mbind Result_bind]. by rewrite Hdown.
  - replace (S (length ev) - length ev + m)%nat with (S m) by lia. rewrite run_S, Hstep. unfold read_and_descend.
    rewrite Hpage. cbn [unwrap mbind Result_bind]. by rewrite Hdown.
Qed.

Lemma goes_down p p1 target page st again :
  (forall c ev, step (place c p, ev) = read_and_descend pages down (place c p1) (again c) target ev) ->
  (forall c ev, step (again c, ev) = read_and_descend pages down (place c p1) (again c) target ev) ->
  pages !! target = Some page -> (forall c, down (place c p1) page = Ok (place c (st, false))) -> forall ev,
  Forall no_read_error ev -> (1 <= answers ev)%nat -> goes (length ev - length (after_read ev)) p ev (st, false) (after_read ev).
Proof.
  intros Hstep Hagain Hpage Hdown ev Herr Ha c m.
  rewrite <- (reads_page c p1 target page st Hpage (Hdown c) ev (again c) m (Hagain c) Herr Ha).
  destruct ev as [|e ev]; [cbn in Ha; lia|]. destruct (after_read_ok _ Herr Ha) as [Hl _].
  replace (length (e :: ev) - length (after_read (e :: ev)) + m)%nat with (S (length (e :: ev) - length (after_read (e :: ev)) - 1 + m)) by lia.
  by rewrite !run_S, Hstep, Hagain.
Qed.
End descent.

(** ** Following a walk *)

Lemma walks_first n p ev r l q ev2 : walks n p ev (r :: l) q ev2 ->
  exists k m st ev1, (forall c, run step k (place c p, ev) = Ok (true, place c (st, false), ev1)) /\
    index_ok st /\ record_at usable st = Ok r /\ walks m (st, false) ev1 l q ev2 /\ (k + m = n)%nat.
Proof.
  remember (r :: l) as rl. induction 1 as [|k n p ev p1 ev1 l' q evq Hg _ IH|n p ev st r' l' q evq Hs Hi Hr Hw _]; [done| |].
  - destruct (IH Heqrl) as (k1 & m & st & ev' & Hrun & Hi & Hr & Hw & Hk). exists (k + k1)%nat, m, st, ev'. split_and!; [|done|done|done|lia].
    intros c. rewrite Hg. apply Hrun.
  - injection Heqrl as -> ->. exists 1%nat, n, st, ev. split_and!; [|done|done|done|lia]. intros c. rewrite run_S, Hs. done.
Qed.

Lemma walks_none n p ev q ev2 q' : walks n p ev [] q ev2 -> stops false q q' ->
  forall c, run step (S n) (place c p, ev) = Ok (false, place c q', ev2).
Proof.
  remember [] as l. induction 1 as [|k n p ev p1 ev1 l q evq Hg _ IH|]; [| |done]; intros Hs c.
  - by rewrite run_S, Hs.
  - rewrite <- Nat.add_succ_r, Hg. by apply IH.
Qed.
End walk.

(** ** Pages on the stack *)

Section stack.
Context (usable : Z).

Lemma push_ok t p cells i count st q start :
  page_has usable t p cells -> pg_id q ∉ pg_id p :: path st -> (S (length st) < 20)%nat ->
  push_at (fr p i count :: st) q start = Ok (fr q start None :: fr p i (Some (lenZ cells)) :: st).
Proof.
  intros Hp Hni Hd. unfold push_at. assert (existsb (fun f => pg_id (fr_page f) =? pg_id q) (fr p i count :: st) = false) as ->.
  { apply not_true_iff_false. rewrite existsb_exists. intros (f & Hf & He). apply Hni. apply Z.eqb_eq in He. rewrite <- He.
    destruct Hf as [<-|Hf]; [left|right]. apply list_elem_of_fmap. exists f. split; [done|]. by apply list_elem_of_In. }
  cbn [populate_parent_cell_count fr fr_page]. destruct (ph_pins _ _ _ _ Hp).
  assert (is_pinned (pin p) = true) as -> by (unfold is_pinned, pin, set_pins, u64, u64_max in *; cbn; rewrite Z.mod_small by lia; lia).
  assert (is_loaded (pin p) = true) as -> by apply (ph_loaded _ _ _ _ Hp). cbn [turso_assert mbind Result_bind].
  change (header_offset (pin p)) with (header_offset p). change (as_ptr (pin p)) with (as_ptr p). rewrite (has_count _ _ _ _ Hp). cbn [mbind Result_bind].
  rewrite (proj2 (Z.ltb_lt _ _)) by (unfold BTCURSOR_MAX_DEPTH, lenZ; cbn [length]; lia). done.
Qed.

Lemma unpin_pin t p cells : page_has usable t p cells -> exists p', unpin (pin p) = Ok p'.
Proof.
  intros Hp. destruct (ph_pins _ _ _ _ Hp). unfold unpin, try_unpin, pin, set_pins, u64, u64_max in *. cbn [pin_count]. rewrite Z.mod_small by lia.
  destruct (Z.eqb_spec (pin_count p + 1) 0); [lia|]. cbn. eauto.
Qed.

Lemma pop_ok t p cells i count st up c :
  page_has usable t p cells -> st <> [] -> pop_upwards (place c (fr p i count :: st, up)) = Ok (place c (st, true)).
Proof.
  intros Hp Hst. unfold pop_upwards, pop. cbn [place stack fst fr fr_page]. destruct (unpin_pin t p cells Hp) as [p' ->].
  cbn [mbind Result_bind]. rewrite (proj2 (Z.ltb_lt _ _)) by (destruct st; [done|unfold lenZ; cbn [length]; lia]). done.
Qed.

Lemma record_ok t p cells (i : nat) c count st :
  page_has usable t p cells -> cells !! i = Some c -> t <> TableInterior ->
  exists r, record_at usable (fr p (Z.of_nat i) count :: st) = Ok r /\ record_of t c = [r].
Proof.
  intros Hp Hc Ht. unfold record_at. cbn [top_frame head unwrap mbind Result_bind fr fr_page fr_state cell_idx].
  change (header_offset (pin p)) with (header_offset p). change (as_ptr (pin p)) with (as_ptr p).
  rewrite (has_type _ _ _ _ Hp). cbn [mbind Result_bind]. destruct (has_cell _ _ _ _ Hp i c Hc) as (start & -> & Hs).
  cbn [mbind Result_bind]. rewrite Hs. cbn [mbind Result_bind]. destruct t; try done; by eexists.
Qed.
End stack.

Lemma root_id t : exists l, ids t = pg_id (page_of t) :: l.
Proof. destruct t; cbn; eauto. Qed.

Lemma height_pos t : (1 <= height t)%nat.
Proof. destruct t; cbn; lia. Qed.

Lemma stored_page usable is_index pages t : stored usable is_index pages t -> pages !! pg_id (page_of t) = Some (page_of t).
Proof. by destruct t; intros [? _]. Qed.

Lemma stored_loaded usable is_index pages t : stored usable is_index pages t -> is_loaded (page_of t) = true.
Proof. destruct t; intros [_ Hs]; [|destruct Hs as [Hs _]]; apply (ph_loaded _ _ _ _ Hs). Qed.

Lemma node_kind is_index : leaf (node_type is_index) = false /\ leaf (leaf_type is_index) = true /\
  is_index_type (node_type is_index) = is_index.
Proof. by destruct is_index. Qed.

(** ** Calls *)

(** The calls of [f] until there is a result. *)
Fixpoint until_done (f : cursor_state -> Result (cursor_state + cursor_state)) (n : nat) (s : cursor_state) : Result cursor_state :=
  match n with
  | O => Panic
  | S n => r ← f s; match r with inl s => Ok s | inr s => until_done f n s end
  end.

(** What an iteration leaves alone. *)
Definition kept (c : BTreeCursor) : bool * CursorValidState * bool * AdvanceState * RewindState * (MoveToRightState * option Z) :=
  (has_record c, valid_state c, skip_advance c, advance_state c, rewind_state c, move_to_right_state c).
(** A valid cursor between calls. *)
Definition idle (found : bool) (c : BTreeCursor) : Prop :=
  has_record c = found /\ valid_state c = Valid /\ skip_advance c = false /\ advance_state c = AdvanceStart /\ rewind_state c = RewindStart.
Definition kept_by (c : BTreeCursor) (c' : BTreeCursor) : Prop := kept c' = kept c /\ stack c' <> [].

Lemma set_cell_index_nonempty st i st' : set_cell_index st i = Ok st' -> st' <> [].
Proof. destruct st; [done|]. by intros [= <-]. Qed.

Lemma advance_nonempty st st' : advance st = Ok st' -> st' <> [].
Proof. intros H. unfold advance in H. steps_of H. by eapply set_cell_index_nonempty. Qed.

Lemma push_nonempty st p i st' : push_at st p i = Ok st' -> st' <> [].
Proof. intros H. unfold push_at in H. destruct (existsb _ _); [done|]. by steps_of H. Qed.

Lemma until_done_mono f n : forall m s a, until_done f n s = Ok a -> (n <= m)%nat -> until_done f m s = Ok a.
Proof.
  induction n as [|n IH]; intros [|m] s a Hn Hm; try done; [lia|]. cbn [until_done] in *. destruct (f s) as [[|]| |]; try done. cbn in *.
  apply IH; [done|lia].
Qed.

Definition outcome_keeps (c : BTreeCursor) (o : outcome cursor_state moved) : Prop :=
  match o with Finish (_, c', _) | Wait (c', _) | Continue (c', _) => kept_by c c' end.

Lemma descend_keeps c page c' : descend c page = Ok c' -> kept_by c c'.
Proof. intros H. unfold descend in H. steps_of H. split; [done|by eapply push_nonempty]. Qed.

Lemma descend_backwards_keeps c page c' : descend_backwards c page = Ok c' -> kept_by c c'.
Proof. intros H. unfold descend_backwards in H. steps_of H. split; [done|by eapply push_nonempty]. Qed.

Lemma read_and_descend_keeps pages down c0 c again target ev o :
  (forall page c', down c page = Ok c' -> kept_by c c') ->
  kept_by c0 c -> kept_by c0 again -> read_and_descend pages down c again target ev = Ok o -> outcome_keeps c0 o.
Proof.
  intros Hd [Hk Hn] Ha Ho. unfold read_and_descend in Ho. destruct ev as [|[] ev]; [by injection Ho as <-|by injection Ho as <-|done|..];
    steps_of Ho; match goal with H : down _ _ = Ok _ |- _ => destruct (Hd _ _ H) as [Hk' Hn'] end; (split; [congruence|done]).
Qed.

Lemma pop_keeps c c' : pop_upwards c = Ok c' -> kept_by c c'.
Proof.
  intros H. unfold pop_upwards, pop in H. destruct (stack c) as [|f st]; [done|]. destruct st; steps_of H.
  all: repeat match goal with H : turso_assert _ = Ok _ |- _ => apply turso_assert_Ok in H end; done.
Qed.

Section calls.
Context (step : cursor_state -> Result (outcome cursor_state moved)).
Context (Hstep : forall c ev o, stack c <> [] -> step (c, ev) = Ok o -> outcome_keeps c o).

Lemma call_keeps fuel : forall c ev r, stack c <> [] -> call step fuel (c, ev) = Ok r ->
  match r with inl (_, c', _) | inr (c', _) => kept_by c c' end.
Proof.
  induction fuel as [|fuel IH]; intros c ev r Hn Hr; [done|]. cbn [call] in Hr. apply bind_Ok in Hr as (o & Ho & Hr).
  pose proof (Hstep c ev o Hn Ho) as Hk. destruct o as [[[b c'] ev']|[c' ev']|[c' ev']]; [by injection Hr as <-|by injection Hr as <-|].
  destruct Hk as [Hk Hn']. pose proof (IH c' ev' r Hn' Hr) as Hr'. destruct r as [[[b c1] ev1]|[c1 ev1]]; destruct Hr'; split; congruence.
Qed.

(** Calls of a function that is a call of the loop with something to do at the end. *)
Lemma calls_done (f : cursor_state -> Result (cursor_state + cursor_state)) (g : BTreeCursor -> BTreeCursor) fuel c0 :
  (forall c ev, kept_by c0 c -> f (c, ev) =
     (r ← call step fuel (c, ev); match r with inl (b, c, ev) => Ok (inl (g (set_has_record c b), ev)) | inr s => Ok (inr s) end)) ->
  forall n c ev b c' ev', kept_by c0 c -> calls step n fuel (c, ev) = Ok (b, c', ev') ->
    until_done f n (c, ev) = Ok (g (set_has_record c' b), ev').
Proof.
  intros Hf. induction n as [|n IH]; intros c ev b c' ev' Hk Hc; [done|]. cbn [calls until_done] in *. apply bind_Ok in Hc as (r & Hr & Hc).
  rewrite Hf by done. destruct Hk as [Hk Hn]. pose proof (call_keeps fuel c ev r Hn Hr) as Hr'.
  rewrite Hr. cbn [mbind Result_bind]. destruct r as [[[b1 c1] ev1]|[c1 ev1]].
  - injection Hc as -> -> ->. done.
  - apply (IH c1 ev1); [|done]. destruct Hr' as [Hk' Hn']. split; congruence.
Qed.
End calls.

(** ** Scans *)

(** Reads the records from the current one on; [move] goes to the next one. *)
Fixpoint scan_with (usable : Z) (move : cursor_state -> Result (cursor_state + cursor_state)) (n fuel : nat) (s : cursor_state) : Result (list bytes) :=
  match n with
  | O => Panic
  | S n =>
      if has_record (fst s) then
        r ← record_at usable (stack (fst s));
        s ← until_done move fuel s;
        l ← scan_with usable move n fuel s;
        Ok (r :: l)
      else Ok []
  end.

(** The cursor is moved by the iterations of [step]. *)
Definition moves_by (step : cursor_state -> Result (outcome cursor_state moved)) (move : cursor_state -> Result (cursor_state + cursor_state)) (fuel : nat) : Prop :=
  forall k c st ev b p' ev', idle true c -> index_ok st -> (forall c, run step k (place c (st, false), ev) = Ok (b, place c p', ev')) -> (k < fuel)%nat ->
    until_done move fuel (place c (st, false), ev) = Ok (place (set_has_record c b) p', ev').

Lemma scan_with_ok usable step move fuel c q q' ev2 : moves_by step move fuel -> idle true c -> stops step false q q' -> forall l n m st ev r,
  index_ok st -> record_at usable st = Ok r -> walks usable step m (st, false) ev l q ev2 -> (S m < fuel)%nat -> (S (length l) < n)%nat ->
  scan_with usable move n fuel (place c (st, false), ev) = Ok (r :: l).
Proof.
  intros Hmove Hk Hq. assert (has_record c = true) as Hh by (by destruct Hk). assert (set_has_record c true = c) as Ec by (destruct c; cbn in *; by subst).
  induction l as [|r' l IH]; intros n m st ev r Hi Hr Hw Hf Hn; (destruct n as [|n]; [cbn in Hn; lia|]); cbn [scan_with fst place has_record stack];
    rewrite Hh, Hr; cbn [mbind Result_bind].
  - rewrite (Hmove (S m) c st ev false q' ev2); [|done|done|by eapply walks_none|lia].
    destruct n; [cbn in Hn; lia|]. done.
  - destruct (walks_first usable step m (st, false) ev r' l q ev2 Hw) as (k & m' & st' & ev1 & Hrun & Hi' & Hr' & Hw' & Hk').
    rewrite (Hmove k c st ev true (st', false) ev1); [|done|done|done|lia].
    cbn [mbind Result_bind]. rewrite Ec. rewrite (IH n m' st' ev1 r'); [done..|lia|cbn in Hn; lia].
Qed.

(** A cursor that is new or was on the tree with root page [p]. *)
Record at_rest (c : BTreeCursor) (p : PageInner) : Prop := mkAtRest {
  rs_valid : valid_state c = Valid;
  rs_advance : advance_state c = AdvanceStart;
  rs_rewind : rewind_state c = RewindStart;
  rs_pending : iteration_pending_descent c = None;
  rs_root : forall f, last (stack c) = Some f -> fr_page f = pin p
}.

(** Reading the root page. *)
Section root.
Context (pages : gmap Z PageInner) (root_page : Z) (p : PageInner) (Hpage : pages !! root_page = Some p).

Lemma read_root_ok c ev events :
  (if answered ev then read_root pages root_page c (ev :: events) = Ok (Some (match ev with ReadWait => true | _ => false end), (set_stack c [fr p (-1) None], events))
   else no_read_error ev -> read_root pages root_page c (ev :: events) = Ok (None, (c, events))).
Proof.
  assert (push_at [] p (-1) = Ok [fr p (-1) None]) as Hpush by done.
  destruct ev; [done|by intros []|..]; cbn [answered]; unfold read_root; rewrite Hpage; cbn [unwrap mbind Result_bind]; by rewrite Hpush.
Qed.
End root.

(** ** Examples *)

(** A page in the cache; interior pages also have a rightmost child. *)
Definition cached (t : PageType) (id right : Z) (ops : list PageOp) : PageInner :=
  let p := set_loaded (set_id (built t ops) id) in
  if leaf t then p else set_buffer p (splice (as_ptr p) 8 (be_split 4 right)).

Lemma cached_has t id right ops cells :
  valid_runb 0 512 t ops (mkAPage [] []) = true -> arun 0 512 t ops (mkAPage [] []) = mkAPage cells [] -> id <> 1 ->
  Forall (fun c => 4 <= lenZ c) cells -> flags (built t ops) = 0 -> pin_count (built t ops) = 0 -> page_has 512 t (cached t id right ops) cells.
Proof.
  intros Hv Ha Hid Hm Hfl Hpc. destruct (built_represents t ops Hv) as [[Hb _ (ca & fbs & ptrs & HW)] _]. rewrite Ha in HW. cbn [a_cells] in HW.
  assert (header_offset_of id = 0) as Hoff by (unfold header_offset_of; by rewrite (proj2 (Z.eqb_neq _ _) Hid)).
  set (p := set_loaded (set_id (built t ops) id)). assert (as_ptr p = as_ptr (built t ops)) as Hp by done.
  assert (is_loaded p = true) as Hl by (unfold is_loaded, flag_test, p, set_loaded, flag_or; cbn [set_flags flags set_id]; by rewrite Hfl).
  assert (0 <= pin_count p < u64_max) as Hpin by (unfold p, set_loaded, flag_or; cbn [set_flags pin_count set_id]; rewrite Hpc; unfold u64_max; lia).
  assert (header_offset p = 0) as Hh by done. unfold cached. fold p. destruct (leaf t) eqn:E; constructor; try done;
    unfold set_buffer; cbn [header_offset]; rewrite Hh; [apply dims_0_512|exists ca, fbs, ptrs; by rewrite Hp|apply dims_0_512|].
  exists ca, fbs, ptrs. change (as_ptr _) with (splice (as_ptr p) 8 (be_split 4 right)). rewrite Hp.
  apply (right_write_at 0 512 t dims_0_512); [by destruct t; (left + right)|done].
Qed.

Definition new_cursor : BTreeCursor := mkCursor [] false None false Valid false AdvanceStart RewindStart (MoveStart, None).
