(* ===== verification/BtreeScan.v ===== *)
(** * BtreeScan: a scan visits the records of a tree in order

    [rewind] and [next] of BtreeCursor.v stop at exactly the records of the tree,
    however often they have to wait for pages. *)

From stdpp Require Import gmap.
From S2P Require Import Prelude Resume Varint OnDisk Page BtreePage BtreeSpace BtreeCells BtreeRefine BtreePayload.
From S2P Require Import BtreeDistribute BtreeRedist BtreeBalanced BtreeParent BtreeDividers BtreeOrder BtreeCursor BtreeWalk.

Section walk.
Context (usable : Z) (is_index : bool) (pages : gmap Z PageInner).
#[local] Abbreviation step := (next_step pages).

Lemma descend_place c p page st : push_at (fst p) page (-1) = Ok st -> descend (place c p) page = Ok (place c (st, false)).
Proof. intros H. unfold descend. cbn [place stack]. by rewrite H. Qed.

(** ** One iteration on a page *)

Lemma stack_advance_ok p i count st : -1 <= i < i32_max -> advance (fr p i count :: st) = Ok (fr p (i + 1) count :: st).
Proof. intros Hi. unfold advance. cbn [top_frame head unwrap mbind Result_bind fr fr_state cell_idx]. pass. done. Qed.

(** What an iteration does at index [i] of a page. *)
Lemma iteration t p cells i count st up c ev :
  page_has usable t p cells -> -1 <= i <= lenZ cells + 1 ->
  let at_next := place c (fr p (i + 1) count :: st, up) in
  step (place c (fr p i count :: st, up), ev) =
    if negb (i =? -1) && leaf t && (i + 1 <? lenZ cells) then Ok (Finish (true, at_next, ev))
    else if is_index_type t && up && (0 <=? i) && (i <? lenZ cells) then Ok (Finish (true, place c (fr p i count :: st, false), ev))
    else if lenZ cells <=? i + 1 then
      match (if leaf t then None else Some (right_child p)), lenZ cells <? i + 1 with
      | Some r, false =>
          let c := place c (fr p (i + 2) count :: st, up) in read_and_descend pages descend c (set_pending c (Some (Forwards r))) r ev
      | _, _ =>
          more ← ancestor_pages_have_more_children st;
          if (more : bool) then c ← pop_upwards at_next; Ok (Continue (c, ev)) else Ok (Finish (false, at_next, ev))
      end
    else if leaf t then Ok (Finish (true, at_next, ev))
    else if is_index_type t && up then Ok (Finish (true, place c (fr p (i + 1) count :: st, false), ev))
    else
      child ← cell_interior_read_left_child_page (header_offset p) (as_ptr p) (i + 1);
      read_and_descend pages descend at_next (set_pending at_next (Some (Forwards child))) child ev.
Proof.
  intros Hp Hi. pose proof (has_room _ _ _ _ Hp) as (_ & _ & Hc). pose proof (lenZ_nonneg cells). cbn zeta.
  change (step (place c (fr p i count :: st, up), ev)) with (next_iteration pages (place c (fr p i count :: st, up)) ev).
  unfold next_iteration. cbn [place stack fst snd top_frame head unwrap mbind Result_bind fr_page fr_state cell_idx fr going_upwards].
  change (header_offset (pin p)) with (header_offset p). change (as_ptr (pin p)) with (as_ptr p).
  rewrite (has_count _ _ _ _ Hp), (has_leaf _ _ _ _ Hp), (has_type _ _ _ _ Hp), (has_right _ _ _ _ Hp). cbn [mbind Result_bind].
  change (mkFrame (pin p) (mkNode i count)) with (fr p i count). rewrite stack_advance_ok by (unfold i32_max; lia). cbn [mbind Result_bind set_stack stack].
  rewrite stack_advance_ok by (unfold i32_max; lia). replace (i + 1 + 1) with (i + 2) by lia.
  assert (negb (i =? -1) && leaf t && (u64 i + 1 <? lenZ cells) = negb (i =? -1) && leaf t && (i + 1 <? lenZ cells)) as ->.
  { destruct (Z.eqb_spec i (-1)); [done|]. unfold u64. by rewrite Z.mod_small by lia. }
  assert (u64 (i + 1) = i + 1) as -> by (unfold u64; rewrite Z.mod_small; lia). done.
Qed.

(** How a walk through the pages above [st] ends: back on [st] when there is more to visit, otherwise at the end. *)
Definition left_to (more : bool) (st : list frame) (q : pos) : Prop :=
  if more then q = (st, true) else exists q', stops step false q q'.

Lemma more_nonempty st : ancestor_pages_have_more_children st = Ok true -> st <> [].
Proof. by intros H ->. Qed.

(** After the last cell of a leaf, and after the last child of an interior page. *)
Lemma page_end t p cells i count st up more ev :
  page_has usable t p cells -> ancestor_pages_have_more_children st = Ok more ->
  (leaf t = true /\ -1 <= i /\ i + 1 = lenZ cells /\ up = false \/ leaf t = false /\ i = lenZ cells + 1 /\ more = true) ->
  exists n q, (n <= 1)%nat /\ walks usable step n (fr p i count :: st, up) ev [] q ev /\ left_to more st q.
Proof.
  intros Hp Hm Hi. pose proof (lenZ_nonneg cells).
  assert (forall c ev, step (place c (fr p i count :: st, up), ev) =
    (if (more : bool) then c ← pop_upwards (place c (fr p (i + 1) count :: st, up)); Ok (Continue (c, ev))
     else Ok (Finish (false, place c (fr p (i + 1) count :: st, up), ev)))) as Hstep.
  { intros c ev'. rewrite (iteration t p cells) by (done || lia). cbn zeta. rewrite Hm.
    assert ((i + 1 <? lenZ cells) = false) as -> by lia. assert ((lenZ cells <=? i + 1) = true) as -> by lia.
    rewrite andb_false_r. destruct Hi as [(-> & _ & _ & ->)|(-> & -> & ->)].
    - by rewrite andb_false_r.
    - assert ((lenZ cells + 1 <? lenZ cells) = false) as -> by lia. rewrite andb_false_r.
      by assert ((lenZ cells <? lenZ cells + 1 + 1) = true) as -> by lia. }
  destruct more.
  - exists 1%nat, (st, true). split_and!; [lia| |done]. eapply (walk_go usable step 1 0); [|constructor]. apply goes_one. intros c ev'.
    rewrite Hstep, (pop_ok usable t p cells) by (done || by apply more_nonempty). done.
  - exists 0%nat. eexists. split_and!; [lia|constructor|]. eexists. exact Hstep.
Qed.

(** ** Whole trees *)

(** From [p] the cursor visits [l] and comes to [st], with [reads] pages read and at
    most [cost] iterations besides those of the reads. *)
Definition visits (l : list bytes) (cost reads : nat) (st : list frame) (p : pos) : Prop :=
  forall more ev, ancestor_pages_have_more_children st = Ok more -> Forall no_read_error ev -> (reads <= answers ev)%nat ->
  exists n q ev', walks usable step n p ev l q ev' /\ (n + length ev' <= cost + length ev)%nat /\ Forall no_read_error ev' /\
    (answers ev <= answers ev' + reads)%nat /\ left_to more st q.

Lemma leaf_visits p st : forall rest done, page_has usable (leaf_type is_index) p (done ++ rest) ->
  visits (concat (record_of (leaf_type is_index) <$> rest)) (S (length rest)) 0 st (fr p (lenZ done - 1) None :: st, false).
Proof.
  assert (leaf (leaf_type is_index) = true) as Hleaf by (by destruct is_index).
  induction rest as [|r rest IH]; intros done Hp more ev Hm Herr Ha; pose proof (lenZ_nonneg done).
  - destruct (page_end (leaf_type is_index) p (done ++ []) (lenZ done - 1) None st false more ev Hp Hm) as (n & q & Hn & Hw & Hq).
    { left. split_and!; [done|lia|rewrite lenZ_app; unfold lenZ; cbn; lia|done]. }
    exists n, q, ev. split_and!; [done|cbn; lia|done|lia|done].
  - destruct (IH (done ++ [r])) with (more := more) (ev := ev) as (n & q & ev' & Hw & Hn & Herr' & Ha' & Hq); [by rewrite <- app_assoc|done|done|done|].
    assert ((done ++ r :: rest) !! length done = Some r) as Hr by (by rewrite lookup_app_r, Nat.sub_diag by lia).
    destruct (record_ok usable (leaf_type is_index) p (done ++ r :: rest) (length done) r None st Hp Hr) as (x & Hx & Ex); [by destruct is_index|].
    exists (S n), q, ev'. split_and!; [|cbn; lia|done|done|done]. cbn [fmap list_fmap concat]. rewrite Ex. cbn [app].
    replace (lenZ (done ++ [r]) - 1) with (lenZ done) in Hw by (rewrite lenZ_app; unfold lenZ; cbn; lia).
    destruct (has_room _ _ _ _ Hp) as (_ & _ & Hroom). rewrite lenZ_app in Hroom. pose proof (lenZ_nonneg (r :: rest)).
    eapply (walk_stop usable step n _ ev (fr p (lenZ done) None :: st)); [|cbn; unfold i32_max; lia|done|done].
    intros c ev0. rewrite (iteration _ p (done ++ r :: rest)) by (done || rewrite lenZ_app; pose proof (lenZ_nonneg (r :: rest)); lia).
    cbn zeta. rewrite Hleaf, lenZ_app, andb_false_r. replace (lenZ done - 1 + 1) with (lenZ done) by lia.
    assert (0 < lenZ (r :: rest)) by (unfold lenZ; cbn; lia). assert ((lenZ done + lenZ (r :: rest) <=? lenZ done) = false) as -> by lia. by destruct (_ && _).
Qed.

(** A child is visited from its parent. *)
Lemma child_visits p cells i i1 count st up c target :
  page_has usable (node_type is_index) p cells -> pages !! target = Some (page_of c) -> target = pg_id (page_of c) ->
  target ∉ pg_id p :: path st -> (S (length st) < 20)%nat ->
  (forall cu ev, step (place cu (fr p i count :: st, up), ev) =
     read_and_descend pages descend (place cu (fr p i1 count :: st, up)) (set_pending (place cu (fr p i1 count :: st, up)) (Some (Forwards target))) target ev) ->
  forall l n reads, visits l n reads (fr p i1 (Some (lenZ cells)) :: st) (fr (page_of c) (-1) None :: fr p i1 (Some (lenZ cells)) :: st, false) ->
  visits l n (S reads) (fr p i1 (Some (lenZ cells)) :: st) (fr p i count :: st, up).
Proof.
  intros Hp Hpage -> Hni Hd Hstep l n reads HV more ev Hm Herr Ha. destruct (after_read_ok ev Herr ltac:(lia)) as (Hl & Herr1 & Ha1).
  destruct (HV more (after_read ev) Hm Herr1 ltac:(lia)) as (k & q & ev' & Hw & Hn & Herr' & Ha' & Hq).
  exists (length ev - length (after_read ev) + k)%nat, q, ev'. split_and!; [|lia|done|lia|done].
  eapply walk_go; [|exact Hw]. apply (goes_down step pages descend _ (fr p i1 count :: st, up) (pg_id (page_of c)) (page_of c) _
    (fun cu => set_pending (place cu (fr p i1 count :: st, up)) (Some (Forwards (pg_id (page_of c)))))); [done|done|done| |done|lia].
  intros cu. apply descend_place. by apply (push_ok usable (node_type is_index)).
Qed.

#[local] Abbreviation tree_visited t := (forall st,
  stored usable is_index pages t -> (length st + height t <= 20)%nat -> NoDup (ids t) -> (forall x, x ∈ ids t -> x ∉ path st) ->
  visits (records is_index t) (cost t) (length (ids t) - 1) st (fr (page_of t) (-1) None :: st, false)).
#[local] Abbreviation kids_visited ks := (forall p done count st up,
  page_has usable (node_type is_index) p (done ++ dividers ks) -> right_child p = pg_id (page_of (rightmost ks)) ->
  stored_kids usable is_index pages ks -> (S (length st) + kids_height ks <= 20)%nat -> NoDup (kids_ids ks) ->
  (forall x, x ∈ kids_ids ks -> x ∉ pg_id p :: path st) -> (is_index = true -> up = false) ->
  visits (kids_records is_index ks) (kids_cost ks) (length (kids_ids ks)) st (fr p (lenZ done - 1) count :: st, up)).

Lemma last_visited t : tree_visited t -> kids_visited (Last t).
Proof.
  intros HV p done count st up Hp Hr Hs Hh Hnd Hni Hup more ev Hm Herr Ha. cbn [dividers rightmost stored_kids kids_height kids_ids kids_records kids_cost] in *.
  rewrite app_nil_r in Hp. destruct (node_kind is_index) as (Hleaf & _ & Hkind). destruct (root_id t) as (l & El). pose proof (height_pos t).
  pose proof (lenZ_nonneg done). set (st' := fr p (lenZ done + 1) (Some (lenZ done)) :: st).
  assert (ancestor_pages_have_more_children st' = Ok more) as Hm' by (cbn; by rewrite Z.eqb_refl).
  assert (visits (records is_index t) (cost t) (S (length (ids t) - 1)) st' (fr p (lenZ done - 1) count :: st, up)) as HV'.
  { apply (child_visits p done (lenZ done - 1) (lenZ done + 1) count st up t (right_child p) Hp); [rewrite Hr; by apply (stored_page usable is_index)|done| |lia| |].
    - rewrite Hr. apply Hni. rewrite El. left.
    - intros c ev0. rewrite (iteration _ p done) by (done || lia). cbn zeta. rewrite Hleaf, Hkind, andb_false_r. cbn [andb].
      replace (lenZ done - 1 + 1) with (lenZ done) by lia. replace (lenZ done - 1 + 2) with (lenZ done + 1) by lia.
      rewrite Z.leb_refl, Z.ltb_irrefl. destruct is_index; [by rewrite (Hup eq_refl)|done].
    - apply HV; [done|cbn; lia|done|]. intros x Hx. by apply Hni. }
  destruct (HV' more ev Hm' Herr ltac:(rewrite El in *; cbn [length] in *; lia)) as (n & q & ev' & Hw & Hn & Herr' & Ha' & Hq). destruct more.
  - rewrite Hq in Hw. destruct (page_end (node_type is_index) p done (lenZ done + 1) (Some (lenZ done)) st true true ev' Hp Hm) as (n1 & q1 & Hn1 & Hw1 & Hq1);
      [right; done|]. exists (n + n1)%nat, q1, ev'. split_and!; [|lia|done|rewrite El in *; cbn [length] in *; lia|done].
    rewrite <- (app_nil_r (records is_index t)). by eapply walks_app.
  - exists n, q, ev'. split_and!; [done|lia|done|rewrite El in *; cbn [length] in *; lia|done].
Qed.

(** The cell between two children: a record of an index. *)
Lemma divider_visited p cells (i : nat) c st ev :
  page_has usable (node_type is_index) p cells -> cells !! i = Some c ->
  exists n up, (n <= 1)%nat /\ (is_index = true -> up = false) /\
    walks usable step n (fr p (Z.of_nat i) (Some (lenZ cells)) :: st, true) ev (record_of (node_type is_index) c) (fr p (Z.of_nat i) (Some (lenZ cells)) :: st, up) ev.
Proof.
  intros Hp Hc. pose proof (lookup_lt_Some _ _ _ Hc). destruct (node_kind is_index) as (Hleaf & _ & Hkind). destruct is_index eqn:E.
  - destruct (record_ok usable IndexInterior p cells i c (Some (lenZ cells)) st Hp Hc) as (r & Hr & Er); [done|].
    exists 1%nat, false. split_and!; [lia|done|]. cbn [node_type]. rewrite Er. destruct (has_room _ _ _ _ Hp) as (_ & _ & Hroom). unfold lenZ in Hroom.
    eapply (walk_stop usable step 0 _ ev (fr p (Z.of_nat i) (Some (lenZ cells)) :: st)); [|cbn; unfold i32_max; lia|exact Hr|constructor].
    intros cu ev0. rewrite (iteration _ p cells) by (done || unfold lenZ; lia). cbn zeta. rewrite Hleaf, Hkind, andb_false_r. cbn [andb].
    assert ((0 <=? Z.of_nat i) = true) as -> by lia. by assert ((Z.of_nat i <? lenZ cells) = true) as -> by (unfold lenZ; lia).
  - exists 0%nat, true. split_and!; [lia|done|constructor].
Qed.

Lemma more_visited t c ks : tree_visited t -> kids_visited ks -> kids_visited (More t c ks).
Proof.
  intros HT HK p done count st up Hp Hr Hs Hh Hnd Hni Hup more ev Hm Herr Ha. cbn [dividers rightmost stored_kids kids_height kids_ids kids_records kids_cost] in *.
  destruct Hs as (Hptr & Hst & Hsk). destruct (node_kind is_index) as (Hleaf & _ & Hkind). destruct (root_id t) as (l & El). pose proof (height_pos t).
  apply NoDup_app in Hnd as (Hnd & _ & Hndk). rewrite length_app in *. set (cells := done ++ c :: dividers ks) in *.
  assert (cells !! length done = Some c) as Hc by (unfold cells; by rewrite lookup_app_r, Nat.sub_diag by lia).
  assert (lenZ done < lenZ cells) as Hlt by (unfold cells, lenZ; rewrite length_app; cbn; lia). pose proof (lenZ_nonneg done).
  set (st' := fr p (lenZ done) (Some (lenZ cells)) :: st). pose proof (has_child _ _ _ _ Hp (length done) c Hc) as Hchild.
  assert (ancestor_pages_have_more_children st' = Ok true) as Hm' by (cbn; by destruct (Z.eqb_spec (lenZ done) (lenZ cells + 1)); [lia|]).
  assert (visits (records is_index t) (cost t) (S (length (ids t) - 1)) st' (fr p (lenZ done - 1) count :: st, up)) as HV'.
  { apply (child_visits p cells (lenZ done - 1) (lenZ done) count st up t (child_ptr c) Hp); [rewrite Hptr; by apply (stored_page usable is_index)|done| |lia| |].
    - rewrite Hptr. apply Hni. rewrite El. left.
    - intros cu ev0. rewrite (iteration _ p cells) by (done || lia). cbn zeta. rewrite Hleaf, Hkind, andb_false_r. cbn [andb].
      replace (lenZ done - 1 + 1) with (lenZ done) by lia. rewrite (proj2 (Z.leb_gt (lenZ cells) (lenZ done))) by done.
      fold (lenZ done) in Hchild. rewrite Hchild. cbn [mbind Result_bind]. destruct is_index; [by rewrite (Hup eq_refl)|done].
    - apply HT; [done|cbn; lia|done|]. intros x Hx. apply Hni, elem_of_app. by left. }
  destruct (HV' true ev Hm' Herr ltac:(rewrite El in *; cbn [length] in *; lia)) as (n & q & ev1 & Hw & Hn & Herr1 & Ha1 & ->).
  destruct (divider_visited p cells (length done) c st ev1 Hp Hc) as (n1 & up1 & Hn1 & Hup1 & Hw1).
  destruct (HK p (done ++ [c]) (Some (lenZ cells)) st up1) with (more := more) (ev := ev1) as (n2 & q2 & ev2 & Hw2 & Hn2 & Herr2 & Ha2 & Hq2);
    [by rewrite <- app_assoc|done|done|lia|done|intros x Hx; apply Hni, elem_of_app; by right|done|done|done|rewrite El in *; cbn [length] in *; lia|].
  replace (lenZ (done ++ [c]) - 1) with (lenZ done) in Hw2 by (rewrite lenZ_app; unfold lenZ; cbn; lia).
  exists (n + (n1 + n2))%nat, q2, ev2. split_and!; [|lia|done|rewrite El in *; cbn [length] in *; lia|done].
  eapply walks_app; [exact Hw|]. by eapply walks_app.
Qed.

Lemma trees_visited : (forall t, tree_visited t) /\ (forall ks, kids_visited ks).
Proof.
  apply tree_kids_ind.
  - intros p cells st [_ Hp] _ _ _. cbn. by apply (leaf_visits p st cells []).
  - intros p ks IH st (_ & Hp & Hr & Hs) Hh Hnd Hni. cbn in Hh, Hnd, Hni. apply NoDup_cons in Hnd as [Hn Hnd].
    cbn [records cost ids length page_of]. rewrite Nat.sub_succ, Nat.sub_0_r. apply (IH p [] None st false); [done|done|done|lia|done| |done].
    intros x Hx. apply not_elem_of_cons. split; [by intros ->|]. apply Hni. by right.
  - apply last_visited.
  - intros t HT c ks HK. by apply more_visited.
Qed.
End walk.

(** ** Calls *)

Section calls.
Context (pages : gmap Z PageInner).

Lemma next_step_keeps c ev o : stack c <> [] -> next_step pages (c, ev) = Ok o -> outcome_keeps c o.
Proof.
  intros Hn Ho. cbn [next_step] in Ho.
  assert (next_iteration pages c ev = Ok o -> outcome_keeps c o) as Hit; [clear Ho; intros Ho|].
  - unfold next_iteration in Ho. steps_of Ho; try done; repeat (case_match; try done); try (steps_of Ho);
      repeat match goal with
      | H : advance _ = Ok _ |- _ => apply advance_nonempty in H
      | H : pop_upwards _ = Ok _ |- _ => apply pop_keeps in H as []
      end; first [done|eapply read_and_descend_keeps; [apply descend_keeps| | |exact Ho]; done].
  - destruct (iteration_pending_descent c) as [[target|target]|]; [|by apply Hit..]. eapply read_and_descend_keeps; [apply descend_keeps| | |exact Ho]; done.
Qed.

(** A cursor on a record. *)
Definition on_row (c : BTreeCursor) : Prop :=
  idle true c /\ iteration_pending_descent c = None /\ going_upwards c = false /\ index_ok (stack c).

Lemma leaf_no_right base buf t : is_leaf base buf = Ok true -> page_type base buf = Ok t -> rightmost_pointer base buf = Ok None.
Proof.
  intros Hl Ht. unfold rightmost_pointer. rewrite Ht. cbn [mbind Result_bind]. unfold is_leaf in Hl. unfold page_type in Ht.
  destruct (read_u8 base buf BTREE_PAGE_TYPE) as [b| |]; try done. cbn [mbind Result_bind] in *. injection Hl as Hl.
  unfold page_type_try_from in Ht. cbn in Hl. repeat case_match; try done; simplify_eq; lia.
Qed.

(** The two shortcuts of [next] do what the iteration does. *)
Lemma shortcut_within c ev : on_row c -> can_advance_within_leaf c = Ok true ->
  next_step pages (c, ev) = (st ← advance (stack c); Ok (Finish (true, set_stack c st, ev))).
Proof.
  intros (Hk & Hp & Hu & Hi) Hc. destruct Hk as (H1 & H2 & H3 & H4 & H5). unfold can_advance_within_leaf, has_pending_advance_state in Hc.
  rewrite H1, H2, H3, H4, Hp in Hc. cbn [negb orb] in Hc. cbn [next_step]. rewrite Hp. unfold next_iteration. destruct (stack c) as [|f st]; [done|]. cbn in Hi.
  cbn [top_frame head unwrap mbind Result_bind] in *. destruct (is_leaf _ _) as [l| |]; try done. cbn [mbind Result_bind] in *.
  destruct (cell_count _ _) as [count| |]; try done. cbn [mbind Result_bind] in *. injection Hc as Hc.
  assert (u64 (cell_idx (fr_state f)) = cell_idx (fr_state f)) as -> by (unfold u64, i32_max in *; rewrite Z.mod_small; lia).
  bool_facts. rewrite (proj2 (Z.eqb_neq _ _)) by lia. subst l. by rewrite (proj2 (Z.ltb_lt _ _)) by lia.
Qed.

Lemma shortcut_last c ev o : on_row c -> next_step pages (c, ev) = Ok o ->
  exists b, is_on_last_cell_of_tree c = Ok b /\
    (b = true -> exists st, advance (stack c) = Ok st /\ o = Finish (false, set_stack c st, ev)).
Proof.
  intros (Hk & Hp & Hu & Hi) Ho. destruct Hk as (H1 & H2 & H3 & H4 & H5). unfold is_on_last_cell_of_tree, has_pending_advance_state.
  rewrite H1, H2, H3, H4, Hp. cbn [negb orb]. cbn [next_step] in Ho. rewrite Hp in Ho. unfold next_iteration in Ho.
  destruct (stack c) as [|f st] eqn:Es; [done|]. cbn in Hi. cbn [top_frame head unwrap mbind Result_bind] in *.
  destruct (cell_count _ _) as [count| |]; try done. cbn [mbind Result_bind] in *.
  destruct (is_leaf _ _) as [l| |] eqn:El; try done. cbn [mbind Result_bind] in *.
  destruct ((0 <=? cell_idx (fr_state f)) && l && (cell_idx (fr_state f) + 1 =? count)) eqn:E; [|by exists false]. bool_facts. subst l.
  assert (u64 (cell_idx (fr_state f)) = cell_idx (fr_state f)) as Eu by (unfold u64, i32_max in *; rewrite Z.mod_small; lia).
  assert (u64 (cell_idx (fr_state f) + 1) = count) as Eu1 by (unfold u64, i32_max in *; rewrite Z.mod_small; lia).
  rewrite Eu, Eu1, Hu, (proj2 (Z.ltb_ge (cell_idx (fr_state f) + 1) count)), andb_false_r, Z.leb_refl in Ho by lia.
  destruct (page_type _ _) as [t| |] eqn:Et; try done. cbn [mbind Result_bind] in Ho. rewrite andb_false_r in Ho. cbn [andb] in Ho.
  destruct (advance (f :: st)) as [st'| |] eqn:Ea; try done. cbn [mbind Result_bind] in Ho. rewrite (leaf_no_right _ _ _ El Et) in Ho. cbn [mbind Result_bind] in Ho.
  cbn [set_stack stack] in Ho.
  assert (ancestor_pages_have_more_children (tail st') = ancestor_pages_have_more_children st) as Hm.
  { unfold advance in Ea. cbn [top_frame head unwrap mbind Result_bind] in Ea. steps_of Ea. cbn [set_cell_index] in Ea. by injection Ea as <-. }
  rewrite Hm in Ho. cbn [tail]. destruct (ancestor_pages_have_more_children st) as [more| |]; try done. exists (negb more). split; [done|].
  destruct more; [done|]. injection Ho as <-. by exists st'.
Qed.

Lemma shortcut_known c ev o : next_step pages (c, ev) = Ok o -> on_row c -> exists b, can_advance_within_leaf c = Ok b.
Proof.
  intros Ho (_ & Hp & _). cbn [next_step] in Ho. rewrite Hp in Ho. unfold next_iteration in Ho. unfold can_advance_within_leaf.
  destruct (has_pending_advance_state c); [by eexists|]. destruct (top_frame _); try done. cbn [mbind Result_bind] in *.
  destruct (cell_count _ _); try done. cbn [mbind Result_bind] in *. destruct (is_leaf _ _); try done. by eexists.
Qed.

Lemma get_next_wrapped (g : BTreeCursor -> BTreeCursor) fuel c ev : stack c <> [] ->
  (r ← get_next_record pages fuel (c, ev); match r with inl (c, ev) => Ok (inl (g c, ev)) | inr s => Ok (inr s) end : Result (cursor_state + cursor_state)) =
  (r ← call (next_step pages) fuel (c, ev); match r with inl (b, c, ev) => Ok (inl (g (set_has_record c b), ev)) | inr s => Ok (inr s) end).
Proof.
  intros Hn. unfold get_next_record. destruct (stack c) eqn:E; [done|]. destruct (call _ _ _) as [[[[b c1] ev1]|[c1 ev1]]| |]; done.
Qed.

(** [next] is [get_next_record], whichever way it takes. *)
Lemma next_ok fuel n k c p ev b p' ev' :
  on_row (place c p) -> (forall c, run (next_step pages) k (place c p, ev) = Ok (b, place c p', ev')) -> (k < n)%nat -> (k <= fuel)%nat ->
  until_done (next pages fuel) n (place c p, ev) = Ok (place (set_has_record c b) p', ev').
Proof.
  intros Hrow Hall Hn Hf. pose proof Hrow as (Hk & _). destruct Hk as (H1 & H2 & H3 & H4 & H5). destruct c as [s0 u0 p0 h0 v0 k0 a0 r0 m0]. cbn in H1, H2, H3, H4, H5. subst.
  set (c := mkCursor _ _ _ _ _ _ _ _ _) in *. pose proof (Hall c) as Hrun. destruct k as [|k]; [done|]. rewrite run_S in Hrun.
  apply bind_Ok in Hrun as (o & Ho & Hrun). destruct (shortcut_known _ ev o Ho Hrow) as [w Hw]. destruct (shortcut_last _ ev o Hrow Ho) as (l & Hl & Hlast).
  destruct n as [|n]; [lia|]. cbn [until_done next]. rewrite Hw. cbn [mbind Result_bind]. destruct w.
  { rewrite (shortcut_within _ ev Hrow Hw) in Ho. steps_of Ho. cbn in Hrun. injection Hrun as <- Hp Hu <-. rewrite Ha. destruct p'. cbn in Hp, Hu. by subst. }
  rewrite Hl. cbn [mbind Result_bind]. destruct l.
  { destruct (Hlast eq_refl) as (st & -> & ->). cbn in Hrun. injection Hrun as <- Hp Hu <-. destruct p'. cbn in Hp, Hu. by subst. }
  set (c1 := set_advance_state c AdvanceAdvance). pose proof Hrow as (_ & _ & _ & Hi).
  assert (stack (place c1 p) <> []) as Hne by (cbn in *; by destruct (fst p)).
  assert (forall c ev, kept_by (place c1 p) c -> next pages fuel (c, ev) = next_advance pages fuel (c, ev)) as Hnext.
  { intros c2 ev2 [Hk2 _]. injection Hk2 as E1 E2 E3 E4 E5 E6. unfold next, can_advance_within_leaf, is_on_last_cell_of_tree, has_pending_advance_state.
    rewrite E4, E2. done. }
  pose proof (calls_done (next_step pages) next_step_keeps (next pages fuel) (fun c => set_advance_state c AdvanceStart) fuel (place c1 p)
    (fun c ev Hk => eq_trans (Hnext c ev Hk) (get_next_wrapped _ fuel c ev (proj2 Hk))) (S n) (place c1 p) ev b (place c1 p') ev') as HC.
  cbn [until_done] in HC. rewrite Hnext in HC by done. apply HC; [done|]. by apply (run_calls _ (S k)); [apply Hall|lia..].
Qed.

Lemma next_moves fuel : moves_by (next_step pages) (next pages fuel) fuel.
Proof. intros k c st ev b p' ev' Hk Hi Hrun Hf. apply (next_ok fuel fuel k c (st, false)); [by split_and!|done|lia..]. Qed.
End calls.

(** ** Scans *)

Section scan.
Context (usable : Z) (pages : gmap Z PageInner) (root_page : Z).

(** A full scan: [rewind], then [next] until there is no record. *)
Definition scan (n fuel : nat) (s : cursor_state) : Result (list bytes) :=
  s ← until_done (rewind pages root_page fuel) fuel s; scan_with usable (next pages fuel) n fuel s.

(** ** Rewinding *)

Context (p : PageInner) (Hid : pg_id p = root_page) (Hpage : pages !! root_page = Some p) (Hloaded : is_loaded p = true).

(** The cursor on the root page. *)
Definition at_root (c : BTreeCursor) : BTreeCursor := place (set_rewind_state (clear_saved_seek c) RewindNextRecord) ([fr p (-1) None], false).

Lemma rewind_resumes fuel c c' ev : valid_state c = Valid -> kept_by (at_root c) c' ->
  rewind pages root_page fuel (c', ev) = rewind_next pages fuel (c', ev).
Proof.
  intros _ [Hk _]. destruct c'. injection Hk as -> -> -> -> -> ->. done.
Qed.

Lemma root_done fuel n k c ev b p' ev' :
  valid_state c = Valid -> advance_state c = AdvanceStart -> (forall c, run (next_step pages) k (place c ([fr p (-1) None], false), ev) = Ok (b, place c p', ev')) ->
  (k < n)%nat -> (k <= fuel)%nat ->
  exists c', idle b c' /\
    until_done (rewind pages root_page fuel) n (at_root c, ev) = Ok (place c' p', ev').
Proof.
  intros Hv Ha Hrun Hn Hf. exists (set_has_record (set_rewind_state (clear_saved_seek c) RewindStart) b). split; [done|].
  rewrite (calls_done (next_step pages) (next_step_keeps pages) _ (fun c => set_rewind_state c RewindStart) fuel (at_root c)
    (fun c1 ev1 Hk => eq_trans (rewind_resumes fuel c c1 ev1 Hv Hk) (get_next_wrapped pages _ fuel c1 ev1 (proj2 Hk))) n (at_root c) ev b (place (set_rewind_state (clear_saved_seek c) RewindNextRecord) p') ev'); [done|done|].
  apply (run_calls _ k); [apply Hrun|lia..].
Qed.

(** Once the root is on the stack the call goes on as from there. *)
Lemma rewind_at_root fuel n c ev a :
  valid_state c = Valid -> until_done (rewind pages root_page fuel) n (at_root c, ev) = Ok a ->
  exists r, rewind_next pages fuel (at_root c, ev) = Ok r /\ match r with inl s => s = a | inr s => until_done (rewind pages root_page fuel) (n - 1) s = Ok a end.
Proof.
  intros Hv Hu. destruct n as [|n]; [done|]. cbn [until_done] in Hu. rewrite (rewind_resumes fuel c) in Hu by done. apply bind_Ok in Hu as (r & Hr & Hu).
  exists r. split; [done|]. rewrite Nat.sub_succ, Nat.sub_0_r. destruct r; [by injection Hu|done].
Qed.

Lemma rewind_reads fuel c ev : valid_state c = Valid -> rewind_state c = RewindStart -> last (stack c) = None ->
  rewind pages root_page fuel (c, ev) =
    ('(at_root, (c, ev)) ← read_root pages root_page (set_going_upwards (clear_saved_seek c) false) ev;
     match at_root with
     | None => Ok (inr (c, ev))
     | Some true => Ok (inr (set_rewind_state c RewindNextRecord, ev))
     | Some false => rewind_next pages fuel (set_rewind_state c RewindNextRecord, ev)
     end).
Proof.
  intros Hv Hr Hl. unfold rewind. rewrite Hv. cbn zeta. assert (rewind_state (clear_saved_seek c) = RewindStart) as -> by done.
  unfold move_to_root_nonblock. assert (last (stack (set_going_upwards (clear_saved_seek c) false)) = None) as -> by done. done.
Qed.

Lemma root_read fuel n a : forall ev c m,
  valid_state c = Valid -> rewind_state c = RewindStart -> iteration_pending_descent c = None -> last (stack c) = None ->
  Forall no_read_error ev -> (1 <= answers ev)%nat ->
  until_done (rewind pages root_page fuel) n (at_root c, after_read ev) = Ok a -> (n + length ev <= m)%nat ->
  until_done (rewind pages root_page fuel) m (c, ev) = Ok a.
Proof.
  induction ev as [|e ev IH]; intros c m Hv Hr Hp Hl Herr Ha Hu Hm; [cbn in Ha; lia|]. apply Forall_cons_1 in Herr as [He Herr].
  destruct m as [|m]; [cbn in Hm; lia|]. cbn [length] in Hm. cbn [until_done]. rewrite rewind_reads by done.
  pose proof (read_root_ok pages root_page p Hpage (set_going_upwards (clear_saved_seek c) false) e ev) as Hread. cbn [after_read] in Hu.
  assert (set_rewind_state (set_stack (set_going_upwards (clear_saved_seek c) false) [fr p (-1) None]) RewindNextRecord = at_root c) as Hat
    by (destruct c; cbn in *; by subst). destruct (answered e) eqn:E.
  - rewrite Hread. cbn [mbind Result_bind]. rewrite Hat. destruct (rewind_at_root fuel n c ev a Hv Hu) as (r & Hn & Hrest). destruct e; try done.
    + rewrite Hn. cbn [mbind Result_bind]. destruct r; [by subst|]. apply (until_done_mono _ _ m _ _ Hrest). lia.
    + cbn [mbind Result_bind]. apply (until_done_mono _ _ m _ _ Hu). lia.
  - rewrite (Hread He). cbn [mbind Result_bind]. apply IH; [done..| |done|lia]. by destruct e.
Qed.

(** The root page is read, or still on the stack. *)
Lemma root_reached fuel c ev : at_rest c p -> Forall no_read_error ev -> (1 <= answers ev)%nat ->
  exists ev', (ev' = ev \/ ev' = after_read ev) /\
    forall n m a, until_done (rewind pages root_page fuel) n (at_root c, ev') = Ok a -> (n + length ev <= m)%nat ->
      until_done (rewind pages root_page fuel) m (c, ev) = Ok a.
Proof.
  intros [Hv Ha Hr Hp Hroot] Herr Hans. destruct (last (stack c)) as [f|] eqn:E.
  - exists ev. split; [by left|]. intros n m a Hu Hm. destruct m as [|m]; [destruct n; [done|lia]|]. cbn [until_done].
    assert (rewind pages root_page fuel (c, ev) = rewind_next pages fuel (at_root c, ev)) as ->.
    { unfold rewind. rewrite Hv. cbn zeta. assert (rewind_state (clear_saved_seek c) = RewindStart) as -> by done. unfold move_to_root_nonblock.
      assert (last (stack (set_going_upwards (clear_saved_seek c) false)) = Some f) as -> by done. rewrite (Hroot f eq_refl).
      assert (pg_id (pin p) =? root_page = true) as -> by (apply Z.eqb_eq; done). assert (is_loaded (pin p) = true) as -> by done.
      cbn [andb mbind Result_bind]. f_equal. f_equal. destruct c. cbn in *. by subst. }
    destruct (rewind_at_root fuel n c ev a Hv Hu) as (r & -> & Hrest). cbn [mbind Result_bind]. destruct r; [by subst|].
    apply (until_done_mono _ _ m _ _ Hrest). lia.
  - exists (after_read ev). split; [by right|]. intros n m a Hu Hm. by apply (root_read fuel n a).
Qed.
End scan.

(** C8: a full scan of a table or an index ([rewind], then [next] until there is no
    record) returns exactly the records of the tree, in the order of the tree, each once:
    those of the leaves, and for an index also those of the interior pages, between
    the records of the children they separate.  This holds for every tree of at most
    20 levels whose pages are distinct, for a new cursor and for one that was on the
    tree before, and for every sequence of answers of the pager that in the end gives
    the pages, however often the calls have to return and be made again; the number
    of calls and iterations is bounded by the tree and the answers. *)
Theorem scan_in_order usable is_index pages t c ev n fuel :
  stored usable is_index pages t -> (height t <= 20)%nat -> NoDup (ids t) -> at_rest c (page_of t) ->
  Forall no_read_error ev -> (length (ids t) <= answers ev)%nat ->
  (length (records is_index t) < n)%nat -> (cost t + 2 * length ev + 3 < fuel)%nat ->
  scan usable pages (pg_id (page_of t)) n fuel (c, ev) = Ok (records is_index t).
Proof.
  intros Hs Hh Hnd Hc Herr Ha Hn Hf. destruct (root_id t) as (l0 & El). rewrite El in Ha. cbn [length] in Ha.
  pose proof (stored_loaded _ _ _ _ Hs) as Hload.
  destruct (root_reached pages _ (page_of t) eq_refl (stored_page _ _ _ _ Hs) Hload fuel c ev Hc Herr ltac:(lia)) as (ev' & Hev & Hreach).
  assert (Forall no_read_error ev' /\ (length l0 <= answers ev')%nat /\ (length ev' <= length ev)%nat) as (Herr' & Ha' & Hl').
  { destruct (after_read_ok ev Herr ltac:(lia)) as (? & ? & ?). destruct Hev as [->| ->]; split_and!; (done || lia). }
  destruct (proj1 (trees_visited usable is_index pages) t [] Hs) with (more := false) (ev := ev') as (m & q & ev2 & Hw & Hm & _ & _ & q' & Hq);
    [done|done|intros x _; apply not_elem_of_nil|done|done|rewrite El; cbn; lia|].
  destruct Hc as [Hv Had _ _ _]. unfold scan. destruct (records is_index t) as [|r l].
  - destruct (root_done pages (pg_id (page_of t)) (page_of t) fuel (S (S m)) (S m) c ev' false q' ev2 Hv Had) as (c' & Hk & Hu); [by eapply walks_none|lia..|].
    rewrite (Hreach _ fuel _ Hu) by lia. cbn [mbind Result_bind]. destruct n; [cbn in Hn; lia|]. cbn [scan_with fst place has_record].
    by destruct Hk as (-> & _).
  - destruct (walks_first usable (next_step pages) m _ ev' r l q ev2 Hw) as (k & m' & st & ev1 & Hrun & Hi & Hr & Hw' & Hkm).
    destruct (root_done pages (pg_id (page_of t)) (page_of t) fuel (S k) k c ev' true (st, false) ev1 Hv Had) as (c' & Hk & Hu); [done|lia..|].
    rewrite (Hreach _ fuel _ Hu) by lia. cbn [mbind Result_bind]. apply (scan_with_ok usable _ _ fuel c' q q' ev2 (next_moves pages fuel) Hk Hq l n m' st ev1 r Hi Hr Hw'); [lia|cbn in Hn; lia].
Qed.

(** ** An index with two leaves *)

Definition small_leaf : tree :=
  Leaf (cached IndexLeaf 5 0 [PInsert 0 [3; 1; 1; 1] false; PInsert 1 [3; 2; 2; 2] false]) [[3; 1; 1; 1]; [3; 2; 2; 2]].
Definition large_leaf : tree := Leaf (cached IndexLeaf 7 0 [PInsert 0 [3; 9; 9; 9] false]) [[3; 9; 9; 9]].
Definition demo_index : tree :=
  Node (cached IndexInterior 4 7 [PInsert 0 [0; 0; 0; 5; 3; 7; 7; 7] false]) (More small_leaf [0; 0; 0; 5; 3; 7; 7; 7] (Last large_leaf)).
Definition demo_index_pages : gmap Z PageInner := {[4 := page_of demo_index; 5 := page_of small_leaf; 7 := page_of large_leaf]}.
Lemma demo_index_stored : stored 512 true demo_index_pages demo_index.
Proof.
  cbn [stored stored_kids demo_index small_leaf large_leaf page_of dividers rightmost].
  split_and!; try (vm_compute; reflexivity); (apply cached_has; [vm_compute; reflexivity|vm_compute; reflexivity|lia|repeat constructor; (unfold lenZ; cbn; lia)|vm_compute; reflexivity..]).
Qed.

Lemma scan_in_order_witness :
  scan 512 demo_index_pages 4 5 40 (new_cursor, [ReadSpill; ReadReady; ReadWait; ReadSpill; ReadReady]) =
    Ok [[3; 1; 1; 1]; [3; 2; 2; 2]; [3; 7; 7; 7]; [3; 9; 9; 9]].
Proof.
  apply (scan_in_order 512 true demo_index_pages demo_index new_cursor [ReadSpill; ReadReady; ReadWait; ReadSpill; ReadReady] 5 40).
  - exact demo_index_stored.
  - cbn. lia.
  - apply (bool_decide_unpack _). vm_compute. reflexivity.
  - by constructor.
  - repeat constructor.
  - cbn. lia.
  - cbn. lia.
  - cbn. lia.
Defined.
