(* ===== verification/BtreeBack.v ===== *)
(** * BtreeBack: a backwards scan visits the records of a tree in reverse order

    [last] and [prev] of BtreeCursor.v stop at exactly the records of the tree, from
    the last to the first, however often they have to wait for pages. *)

From stdpp Require Import gmap.
From S2P Require Import Prelude Resume Varint OnDisk Page BtreePage BtreeSpace BtreeCells BtreeRefine BtreePayload.
From S2P Require Import BtreeDistribute BtreeRedist BtreeBalanced BtreeParent BtreeDividers BtreeOrder BtreeCursor BtreeWalk.

(** ** Going up *)

(** The part of the stack from the first page with cells that are not visited yet. *)
Fixpoint up_from (st : list frame) : option (list frame) :=
  match st with [] => None | f :: below => if 0 <=? cell_idx (fr_state f) then Some st else up_from below end.

(** The pages of the stack can be left, and none is at the cell whose left child is the page above it. *)
Fixpoint climbable (child : Z) (st : list frame) : Prop :=
  match st with
  | [] => True
  | f :: st => (exists p, unpin (fr_page f) = Ok p) /\ came_from_left_child f child = Ok false /\ climbable (pg_id (fr_page f)) st
  end.

Lemma climb_ok : forall st f up fuel,
  cell_idx (fr_state f) < 0 -> (exists p, unpin (fr_page f) = Ok p) -> climbable (pg_id (fr_page f)) st -> (S (length st) < fuel)%nat ->
  match up_from st with
  | Some st' => forall c, climb fuel (place c (f :: st, up)) = Ok (true, place c (st', true))
  | None => exists q, forall c, climb fuel (place c (f :: st, up)) = Ok (false, place c q)
  end.
Proof.
  induction st as [|g st IH]; intros f up fuel Hi [pf Hu] Hc Hf; (destruct fuel as [|fuel]; [lia|]).
  - exists ([f], up). intros c. cbn [climb place stack fst top_frame head unwrap mbind Result_bind]. by rewrite (proj2 (Z.leb_gt 0 _)) by lia.
  - destruct Hc as (Hpin & Hcame & Hc).
    assert (forall c, climb (S fuel) (place c (f :: g :: st, up)) = climb fuel (place c (g :: st, true))) as Hstep.
    { intros c. cbn [climb place stack fst top_frame head unwrap mbind Result_bind]. rewrite (proj2 (Z.leb_gt 0 _)) by lia.
      rewrite (proj2 (Z.ltb_lt 0 _)) by (unfold lenZ; cbn [length]; lia). unfold pop_upwards, pop. cbn [place stack fst]. rewrite Hu. cbn [mbind Result_bind].
      rewrite (proj2 (Z.ltb_lt 0 _)) by (unfold lenZ; cbn [length]; lia).
      cbn [turso_assert mbind Result_bind set_stack set_going_upwards stack top_frame head unwrap]. by rewrite Hcame. }
    cbn [up_from]. destruct (Z.leb_spec 0 (cell_idx (fr_state g))) as [Hg|Hg].
    + intros c. rewrite Hstep. destruct fuel as [|fuel]; [lia|]. cbn [climb place stack fst top_frame head unwrap mbind Result_bind]. by rewrite (proj2 (Z.leb_le 0 _)).
    + pose proof (IH g true fuel Hg Hpin Hc ltac:(cbn in Hf; lia)) as H. destruct (up_from st).
      * intros c. by rewrite Hstep.
      * destruct H as (q & Hq). exists q. intros c. by rewrite Hstep.
Qed.

Section back.
Context (usable : Z) (is_index : bool) (pages : gmap Z PageInner).
#[local] Abbreviation step := (prev_step pages).

Lemma descend_back_place c p page st : push_at (fst p) page i32_max = Ok st -> descend_backwards (place c p) page = Ok (place c (st, false)).
Proof. intros H. unfold descend_backwards. cbn [place stack]. by rewrite H. Qed.

Definition left_back (st : list frame) (q : pos) : Prop :=
  match up_from st with Some st' => q = (st', true) | None => exists q', stops step false q q' end.

(** ** One iteration on a page *)

Lemma retreat_ok p i count st : 0 <= i -> retreat (fr p i count :: st) = Ok (fr p (i - 1) count :: st).
Proof. intros Hi. unfold retreat. cbn [top_frame head unwrap mbind Result_bind fr fr_state cell_idx]. by rewrite (proj2 (Z.leb_le _ _)) by (unfold i32_max; lia). Qed.

Lemma moved_ok t p cells i count st up c ev : page_has usable t p cells ->
  prev_moved pages (place c (fr p i count :: st, up)) t (leaf t) ev =
    if i <? 0 then
      '(found, c) ← climb (S (S (length st))) (place c (fr p i count :: st, up));
      if (found : bool) then Ok (Continue (c, ev)) else Ok (Finish (false, c, ev))
    else if leaf t then Ok (Finish (true, place c (fr p i count :: st, up), ev))
    else if is_index_type t && up then Ok (Finish (true, place c (fr p i count :: st, false), ev))
    else
      child ← cell_interior_read_left_child_page (header_offset p) (as_ptr p) i;
      s ← (if bool_decide (t = IndexInterior) then retreat (fr p i count :: st) else Ok (fr p i count :: st));
      read_and_descend pages descend_backwards (place c (s, up)) (set_pending (place c (s, up)) (Some (Backwards child))) child ev.
Proof. intros _. done. Qed.

Lemma iteration_back t p cells i count st up c ev : page_has usable t p cells -> i = i32_max \/ -1 <= i <= lenZ cells + 1 ->
  let moved_to i := prev_moved pages (place c (fr p i count :: st, up)) t (leaf t) ev in
  step (place c (fr p i count :: st, up), ev) =
    if (i =? i32_max) && negb up && negb (leaf t) then
      read_and_descend pages descend_backwards (place c (fr p (lenZ cells + 1) count :: st, up)) (place c (fr p i count :: st, up)) (right_child p) ev
    else if lenZ cells <=? i then moved_to (lenZ cells - 1)
    else if 0 <=? i then
      if is_index_type t && up then Ok (Finish (true, place c (fr p i count :: st, false), ev))
      else if bool_decide (t = IndexInterior) then moved_to i else moved_to (i - 1)
    else moved_to i.
Proof.
  intros Hp Hi. pose proof (has_room _ _ _ _ Hp) as (_ & _ & Hc). pose proof (lenZ_nonneg cells). cbn zeta.
  change (step (place c (fr p i count :: st, up), ev)) with (prev_iteration pages (place c (fr p i count :: st, up)) ev).
  unfold prev_iteration. cbn [place stack fst snd top_frame head unwrap mbind Result_bind fr_page fr_state cell_idx fr going_upwards].
  change (header_offset (pin p)) with (header_offset p). change (as_ptr (pin p)) with (as_ptr p).
  rewrite (has_count _ _ _ _ Hp), (has_leaf _ _ _ _ Hp), (has_type _ _ _ _ Hp), (has_right _ _ _ _ Hp). cbn [mbind Result_bind].
  change (mkFrame (pin p) (mkNode i count)) with (fr p i count).
  destruct ((i =? i32_max) && negb up) eqn:E; [destruct (leaf t) eqn:El|]; cbn [andb negb mbind Result_bind]; [|done|].
  all: destruct (Z.leb_spec (lenZ cells) i); [done|]; destruct (Z.leb_spec 0 i); [|done].
  all: destruct (is_index_type t && up); [done|]; destruct (bool_decide _); [done|]; by rewrite retreat_ok by lia.
Qed.

(** Before the first cell of a page. *)
Lemma page_start t p cells i count st up ev : page_has usable t p cells -> climbable (pg_id p) st ->
  (forall c ev, step (place c (fr p i count :: st, up), ev) = prev_moved pages (place c (fr p (-1) count :: st, up)) t (leaf t) ev) ->
  exists n q, (n <= 1)%nat /\ walks usable step n (fr p i count :: st, up) ev [] q ev /\ left_back st q.
Proof.
  intros Hp Hc Hstep. pose proof (climb_ok st (fr p (-1) count) up (S (S (length st))) ltac:(cbn; lia) (unpin_pin _ _ _ _ Hp) Hc ltac:(lia)) as Hclimb.
  unfold left_back. destruct (up_from st) as [st'|].
  - exists 1%nat, (st', true). split_and!; [lia| |done]. eapply (walk_go usable step 1 0); [|constructor]. apply goes_one. intros c ev'.
    rewrite Hstep, (moved_ok t p cells) by done. cbn [Z.ltb Z.compare]. by rewrite Hclimb.
  - exists 0%nat, (fr p i count :: st, up). split_and!; [lia|constructor|]. destruct Hclimb as (q & Hq). exists q. intros c ev'.
    rewrite Hstep, (moved_ok t p cells) by done. cbn [Z.ltb Z.compare]. by rewrite Hq.
Qed.

(** ** Whole trees *)

Definition visits_back (l : list bytes) (cost reads : nat) (st : list frame) (p : pos) : Prop :=
  forall ev, Forall no_read_error ev -> (reads <= answers ev)%nat ->
  exists n q ev', walks usable step n p ev l q ev' /\ (n + length ev' <= cost + length ev)%nat /\ Forall no_read_error ev' /\
    (answers ev <= answers ev' + reads)%nat /\ left_back st q.

Lemma leaf_back p st : climbable (pg_id p) st -> forall done rest i, page_has usable (leaf_type is_index) p (done ++ rest) ->
  rest = [] /\ i = i32_max \/ rest <> [] /\ i = lenZ done ->
  visits_back (rev (concat (record_of (leaf_type is_index) <$> done))) (S (length done)) 0 st (fr p i None :: st, false).
Proof.
  intros Hc. destruct (node_kind is_index) as (_ & Hleaf & _).
  induction done as [|r done IH] using rev_ind; intros rest i Hp Hi ev Herr Ha; pose proof (has_room _ _ _ _ Hp) as (_ & _ & Hroom); set (cells := _ ++ rest) in *;
    assert (i = i32_max \/ -1 <= i <= lenZ cells + 1) as Hrange by (destruct Hi as [[_ ->]|[_ ->]]; [by left|right; unfold cells, lenZ in *; rewrite ?length_app in *; cbn; lia]).
  - destruct (page_start (leaf_type is_index) p cells i None st false ev Hp Hc) as (n & q & Hn & Hw & Hq).
    { intros c ev'. rewrite (iteration_back _ p cells) by done. cbn zeta. rewrite Hleaf, andb_false_r, andb_false_r. unfold cells in *. cbn [app] in *.
      destruct Hi as [[-> ->]|[Hne ->]].
      - by rewrite (proj2 (Z.leb_le (lenZ []) i32_max)) by (unfold i32_max, lenZ; cbn; lia).
      - rewrite (proj2 (Z.leb_gt (lenZ rest) (lenZ []))) by (destruct rest; [done|unfold lenZ; cbn; lia]). by destruct is_index. }
    exists n, q, ev. split_and!; [done|cbn; lia|done|lia|done].
  - destruct (IH (r :: rest) (lenZ done)) with (ev := ev) as (n & q & ev' & Hw & Hn & Herr' & Ha' & Hq); [unfold cells in Hp; by rewrite <- app_assoc in Hp|by right|done|done|].
    assert (cells !! length done = Some r) as Hr by (unfold cells; rewrite <- app_assoc; by rewrite lookup_app_r, Nat.sub_diag by lia).
    destruct (record_ok usable (leaf_type is_index) p cells (length done) r None st Hp Hr) as (x & Hx & Ex); [by destruct is_index|].
    exists (S n), q, ev'. split_and!; [|rewrite length_app; cbn; lia|done|done|done].
    rewrite fmap_app, concat_app, rev_app_distr. cbn [fmap list_fmap concat]. rewrite Ex. cbn [app rev].
    assert (0 <= lenZ done) by apply lenZ_nonneg. assert (lenZ (done ++ [r]) = lenZ done + 1) as Hl1 by (rewrite lenZ_app; unfold lenZ; cbn; lia).
    assert (lenZ cells = lenZ done + 1 + lenZ rest) as Hlc by (unfold cells; rewrite lenZ_app, Hl1; lia). pose proof (lenZ_nonneg rest).
    eapply (walk_stop usable step n _ ev (fr p (lenZ done) None :: st)); [|cbn; unfold i32_max; lia|exact Hx|exact Hw].
    intros c ev0. rewrite (iteration_back _ p cells) by done. cbn zeta. rewrite !(moved_ok _ p cells) by done. rewrite Hleaf, andb_false_r, andb_false_r.
    destruct Hi as [[-> ->]|[Hne ->]].
    + rewrite (proj2 (Z.leb_le (lenZ cells) i32_max)) by (unfold i32_max; lia). rewrite Hlc. change (lenZ (@nil bytes)) with 0.
      replace (lenZ done + 1 + 0 - 1) with (lenZ done) by lia. by rewrite (proj2 (Z.ltb_ge (lenZ done) 0)) by lia.
    + rewrite Hl1. rewrite (proj2 (Z.leb_gt (lenZ cells) (lenZ done + 1))) by (destruct rest; [done|rewrite Hlc; unfold lenZ; cbn; lia]).
      rewrite (proj2 (Z.leb_le 0 (lenZ done + 1))) by lia. replace (lenZ done + 1 - 1) with (lenZ done) by lia. rewrite (proj2 (Z.ltb_ge (lenZ done) 0)) by lia.
      by destruct is_index.
Qed.

(** A child is visited from its parent. *)
Lemma child_back p cells i i1 count st up c target again :
  page_has usable (node_type is_index) p cells -> pages !! target = Some (page_of c) -> target = pg_id (page_of c) ->
  target ∉ pg_id p :: path st -> (S (length st) < 20)%nat ->
  (forall cu ev, step (place cu (fr p i count :: st, up), ev) = read_and_descend pages descend_backwards (place cu (fr p i1 count :: st, up)) (again cu) target ev) ->
  (forall cu ev, step (again cu, ev) = read_and_descend pages descend_backwards (place cu (fr p i1 count :: st, up)) (again cu) target ev) ->
  forall l n reads, visits_back l n reads (fr p i1 (Some (lenZ cells)) :: st) (fr (page_of c) i32_max None :: fr p i1 (Some (lenZ cells)) :: st, false) ->
  visits_back l n (S reads) (fr p i1 (Some (lenZ cells)) :: st) (fr p i count :: st, up).
Proof.
  intros Hp Hpage -> Hni Hd Hstep Hagain l n reads HV ev Herr Ha. destruct (after_read_ok ev Herr ltac:(lia)) as (Hl & Herr1 & Ha1).
  destruct (HV (after_read ev) Herr1 ltac:(lia)) as (k & q & ev' & Hw & Hn & Herr' & Ha' & Hq).
  exists (length ev - length (after_read ev) + k)%nat, q, ev'. split_and!; [|lia|done|lia|done]. eapply walk_go; [|exact Hw].
  apply (goes_down step pages descend_backwards _ (fr p i1 count :: st, up) (pg_id (page_of c)) (page_of c) _ again); [done|done|done| |done|lia].
  intros cu. apply descend_back_place. by apply (push_ok usable (node_type is_index)).
Qed.

(** The index of the parent after the children [ks] were visited. *)
Definition exit_index (ks : kids) (done : list bytes) : Z :=
  match ks with Last _ => lenZ done + 1 | More _ _ _ => if is_index then lenZ done - 1 else lenZ done end.

#[local] Abbreviation tree_visited t := (forall st,
  stored usable is_index pages t -> (length st + height t <= 20)%nat -> NoDup (ids t) -> (forall x, x ∈ ids t -> x ∉ path st) ->
  climbable (pg_id (page_of t)) st ->
  visits_back (rev (records is_index t)) (cost t) (length (ids t) - 1) st (fr (page_of t) i32_max None :: st, false)).
#[local] Abbreviation kids_visited ks := (forall p done count st,
  page_has usable (node_type is_index) p (done ++ dividers ks) -> right_child p = pg_id (page_of (rightmost ks)) ->
  stored_kids usable is_index pages ks -> (S (length st) + kids_height ks <= 20)%nat -> NoDup (kids_ids ks) ->
  (forall x, x ∈ kids_ids ks -> x ∉ pg_id p :: path st) -> climbable (pg_id p) st -> (forall c, c ∈ done -> child_ptr c ∉ kids_ids ks) ->
  visits_back (rev (kids_records is_index ks)) (kids_cost ks - 1) (length (kids_ids ks)) (fr p (exit_index ks done) (Some (lenZ (done ++ dividers ks))) :: st)
    (fr p i32_max count :: st, false)).

Lemma not_came p cells i count child :
  page_has usable (node_type is_index) p cells ->
  is_index = false \/ lenZ cells <= i \/ i < 0 \/ (forall c, c ∈ take (S (Z.to_nat i)) cells -> child_ptr c <> child) ->
  came_from_left_child (fr p i count) child = Ok false.
Proof.
  intros Hp Hi. unfold came_from_left_child. cbn [fr fr_page fr_state cell_idx].
  change (header_offset (pin p)) with (header_offset p). change (as_ptr (pin p)) with (as_ptr p).
  rewrite (has_type _ _ _ _ Hp), (has_count _ _ _ _ Hp). cbn [mbind Result_bind]. destruct Hi as [->|Hi]; [done|].
  destruct (bool_decide _); [|done]. cbn [andb]. destruct (Z.leb_spec 0 i); [|done]. destruct (Z.ltb_spec i (lenZ cells)); [|done]. cbn [andb].
  destruct Hi as [Hi|[Hi|Hi]]; [lia|lia|]. destruct (lookup_lt_is_Some_2 cells (Z.to_nat i)) as [c Hc]; [unfold lenZ in *; lia|].
  rewrite <- (Z2Nat.id i), (has_child _ _ _ _ Hp _ _ Hc) by lia. cbn [mbind Result_bind]. rewrite (proj2 (Z.eqb_neq _ _)); [done|].
  apply Hi. apply (list_elem_of_lookup_2 _ (Z.to_nat i)). rewrite lookup_take_lt by lia. exact Hc.
Qed.

Lemma last_back t : tree_visited t -> kids_visited (Last t).
Proof.
  intros HV p done count st Hp Hr Hs Hh Hnd Hni Hc Hch. cbn [dividers rightmost stored_kids kids_height kids_ids kids_records kids_cost exit_index] in *.
  rewrite app_nil_r in *. destruct (node_kind is_index) as (Hleaf & _ & Hkind). destruct (root_id t) as (l & El). pose proof (height_pos t).
  rewrite Nat.sub_succ, Nat.sub_0_r. replace (length (ids t)) with (S (length (ids t) - 1)) by (rewrite El; cbn; lia).
  apply (child_back p done i32_max (lenZ done + 1) count st false t (right_child p) (fun c => place c (fr p i32_max count :: st, false)) Hp);
    [rewrite Hr; by apply (stored_page usable is_index)|done| |lia|..].
  - rewrite Hr. apply Hni. rewrite El. left.
  - intros c ev. rewrite (iteration_back _ p done) by (done || by left). by rewrite Hleaf.
  - intros c ev. rewrite (iteration_back _ p done) by (done || by left). by rewrite Hleaf.
  - apply HV; [done|cbn; lia|done|intros x Hx; by apply Hni|]. split_and!; [by eapply unpin_pin|eapply not_came; [done|right; left; lia]|done].
Qed.

Section divider.
Context (p : PageInner) (done : list bytes) (c : bytes) (ks : kids) (st : list frame).
#[local] Abbreviation cells := (done ++ c :: dividers ks).
Context (Hp : page_has usable (node_type is_index) p cells).
#[local] Abbreviation after_kids := (exit_index ks (done ++ [c])).

Lemma divider_lookup : cells !! length done = Some c /\ 0 <= lenZ done < lenZ cells /\ lenZ cells < 65536.
Proof.
  pose proof (has_room _ _ _ _ Hp) as (_ & _ & Hroom). split_and!; [by rewrite lookup_app_r, Nat.sub_diag by lia|apply lenZ_nonneg|unfold lenZ; rewrite length_app; cbn; lia|done].
Qed.

Lemma after_kids_range : 0 <= after_kids <= lenZ cells + 1 /\
  (lenZ cells <= after_kids -> lenZ cells - 1 = lenZ done) /\ (after_kids < lenZ cells -> after_kids = if is_index then lenZ done else lenZ done + 1).
Proof.
  destruct divider_lookup as (_ & H1 & _). assert (lenZ (done ++ [c]) = lenZ done + 1) as Hl by (rewrite lenZ_app; unfold lenZ; cbn; lia).
  assert (lenZ cells = lenZ done + 1 + lenZ (dividers ks)) as Hlc by (rewrite lenZ_app; unfold lenZ; cbn; lia). pose proof (lenZ_nonneg (dividers ks)).
  destruct ks; cbn [exit_index dividers] in *; rewrite ?Hl, Hlc in *; [change (lenZ (@nil bytes)) with 0 in *; lia|].
  assert (1 <= lenZ (c0 :: dividers k)) by (unfold lenZ; cbn; lia). destruct is_index; lia.
Qed.

(** The iteration that goes to the left child of the divider. *)
Lemma left_child_step i i1 up :
  (forall cu ev, step (place cu (fr p i (Some (lenZ cells)) :: st, up), ev) =
     prev_moved pages (place cu (fr p (lenZ done) (Some (lenZ cells)) :: st, up)) (node_type is_index) (leaf (node_type is_index)) ev) ->
  (is_index = true -> up = false) -> i1 = (if is_index then lenZ done - 1 else lenZ done) -> forall cu ev,
  step (place cu (fr p i (Some (lenZ cells)) :: st, up), ev) =
    read_and_descend pages descend_backwards (place cu (fr p i1 (Some (lenZ cells)) :: st, up))
      (set_pending (place cu (fr p i1 (Some (lenZ cells)) :: st, up)) (Some (Backwards (child_ptr c)))) (child_ptr c) ev.
Proof.
  intros Hstep Hup -> cu ev. destruct divider_lookup as (Hc & H1 & H2). destruct (node_kind is_index) as (Hleaf & _ & Hkind).
  rewrite Hstep, (moved_ok _ p cells) by done. rewrite (proj2 (Z.ltb_ge (lenZ done) 0)), Hleaf, Hkind by lia.
  pose proof (has_child _ _ _ _ Hp (length done) c Hc) as Hchild. fold (lenZ done) in Hchild. rewrite Hchild. cbn [mbind Result_bind].
  destruct is_index; [|done]. rewrite (Hup eq_refl). cbn [andb node_type bool_decide]. by rewrite retreat_ok by lia.
Qed.

(** The divider and the child left of it. *)
Lemma divider_back t l n reads :
  child_ptr c = pg_id (page_of t) -> pages !! pg_id (page_of t) = Some (page_of t) -> pg_id (page_of t) ∉ pg_id p :: path st -> (S (length st) < 20)%nat ->
  let st' := fr p (if is_index then lenZ done - 1 else lenZ done) (Some (lenZ cells)) :: st in
  visits_back l n reads st' (fr (page_of t) i32_max None :: st', false) ->
  visits_back (rev (record_of (node_type is_index) c) ++ l) (S n) (S reads) st' (fr p after_kids (Some (lenZ cells)) :: st, true).
Proof.
  intros Hptr Hpage Hni Hd st' HV. destruct divider_lookup as (Hc & H1 & H2). destruct after_kids_range as (Hr & Hge & Hlt).
  destruct (node_kind is_index) as (Hleaf & _ & Hkind). assert (after_kids <> i32_max) as Hmax by (unfold i32_max; lia).
  assert (forall i up, (forall cu ev, step (place cu (fr p i (Some (lenZ cells)) :: st, up), ev) =
     prev_moved pages (place cu (fr p (lenZ done) (Some (lenZ cells)) :: st, up)) (node_type is_index) (leaf (node_type is_index)) ev) ->
     (is_index = true -> up = false) -> visits_back l n (S reads) st' (fr p i (Some (lenZ cells)) :: st, up)) as Hchild.
  { intros i up Hstep Hup. eapply (child_back p cells i _ (Some (lenZ cells)) st up t (child_ptr c)); [done|by rewrite Hptr|done|by rewrite Hptr|done|..|exact HV].
    - by apply left_child_step.
    - done. }
  destruct is_index eqn:E.
  - intros ev Herr Ha. destruct (Hchild (lenZ done) false) with (ev := ev) as (k & q & ev' & Hw & Hn & Herr' & Ha' & Hq); [|done|done|done|].
    { intros cu ev0. rewrite (iteration_back _ p cells) by (done || right; lia). cbn zeta. rewrite (proj2 (Z.eqb_neq (lenZ done) i32_max)) by (unfold i32_max; lia).
      rewrite (proj2 (Z.leb_gt (lenZ cells) (lenZ done))), (proj2 (Z.leb_le 0 (lenZ done))) by lia. by rewrite andb_false_r. }
    destruct (record_ok usable IndexInterior p cells (length done) c (Some (lenZ cells)) st Hp Hc) as (r & Hrec & Er); [done|].
    exists (S k), q, ev'. split_and!; [|lia|done|lia|done]. cbn [node_type]. rewrite Er. cbn [rev app].
    eapply (walk_stop usable step k _ ev (fr p (lenZ done) (Some (lenZ cells)) :: st)); [|cbn; unfold i32_max; lia|exact Hrec|exact Hw].
    intros cu ev0. rewrite (iteration_back _ p cells) by (done || right; lia). cbn zeta. rewrite (proj2 (Z.eqb_neq after_kids i32_max)) by done. cbn [andb].
    rewrite Hkind. destruct (Z.leb_spec (lenZ cells) after_kids) as [Hle|Hgt].
    + rewrite (moved_ok _ p cells) by done. rewrite (Hge Hle), Hleaf, Hkind. by rewrite (proj2 (Z.ltb_ge (lenZ done) 0)) by lia.
    + rewrite (Hlt Hgt). by rewrite (proj2 (Z.leb_le 0 (lenZ done))) by lia.
  - intros ev Herr Ha. destruct (Hchild after_kids true) with (ev := ev) as (k & q & ev' & Hw & Hn & Herr' & Ha' & Hq); [|done|done|done|].
    { intros cu ev0. rewrite (iteration_back _ p cells) by (done || right; lia). cbn zeta. rewrite (proj2 (Z.eqb_neq after_kids i32_max)) by done. cbn [andb].
      destruct (Z.leb_spec (lenZ cells) after_kids) as [Hle|Hgt]; [by rewrite (Hge Hle)|]. rewrite (proj2 (Z.leb_le 0 after_kids)) by lia.
      rewrite (Hlt Hgt). cbn. by replace (lenZ done + 1 - 1) with (lenZ done) by lia. }
    exists k, q, ev'. split_and!; [done|lia|done|done|done].
Qed.
End divider.

Lemma more_back t c ks : tree_visited t -> kids_visited ks -> kids_visited (More t c ks).
Proof.
  intros HT HK p done count st Hp Hr Hs Hh Hnd Hni Hc Hch. cbn [dividers rightmost stored_kids kids_height kids_ids kids_records kids_cost exit_index] in *.
  destruct Hs as (Hptr & Hst & Hsk). destruct (root_id t) as (l & El). pose proof (height_pos t). rewrite length_app.
  apply NoDup_app in Hnd as (Hnd & Hdisj & Hndk). set (cells := done ++ c :: dividers ks) in *.
  assert ((done ++ [c]) ++ dividers ks = cells) as Ecells by (unfold cells; by rewrite <- app_assoc).
  assert (pg_id (page_of t) ∈ ids t) as Hroot by (rewrite El; left). assert (1 <= length (ids t))%nat by (rewrite El; cbn; lia).
  assert (1 <= kids_cost ks)%nat by (destruct ks; cbn; lia).
  intros ev Herr Ha. destruct (HK p (done ++ [c]) count st) with (ev := ev) as (n & q & ev1 & Hw & Hn & Herr1 & Ha1 & Hq);
    [by rewrite Ecells|done|done|lia|done|intros x Hx; apply Hni, elem_of_app; by right|done| |done|lia|].
  { intros d [Hd|Hd]%elem_of_app; [|apply list_elem_of_singleton in Hd as ->; rewrite Hptr; intros Hx; by apply (Hdisj _ Hroot)].
    intros Hx. apply (Hch d Hd), elem_of_app. by right. }
  rewrite Ecells in Hq. pose proof (after_kids_range p done c ks Hp) as ((Hexit & _) & _).
  unfold left_back in Hq. cbn [up_from fr fr_state cell_idx] in Hq. rewrite (proj2 (Z.leb_le 0 _)) in Hq by done.
  destruct (divider_back p done c ks st Hp t (rev (records is_index t)) (cost t) (length (ids t) - 1) Hptr (stored_page _ _ _ _ Hst)) with (ev := ev1)
    as (n2 & q2 & ev2 & Hw2 & Hn2 & Herr2 & Ha2 & Hq2); [apply Hni, elem_of_app; by left|lia| |done|lia|].
  { apply HT; [done|cbn; lia|done| |].
    - intros x Hx. apply Hni, elem_of_app. by left.
    - split_and!; [by eapply unpin_pin| |done]. eapply not_came; [done|]. destruct is_index; [|by left]. right; right.
      destruct (decide (length done = 0%nat)) as [E|E]; [left; unfold lenZ; lia|right].
      replace (S (Z.to_nat (lenZ done - 1))) with (length done) by (unfold lenZ; lia). unfold cells. rewrite take_app_length.
      intros d Hd Hx. apply (Hch d Hd). rewrite Hx. apply elem_of_app. by left. }
  exists (n + n2)%nat, q2, ev2. split_and!; [|lia|done|lia|done].
  rewrite !rev_app_distr, <- app_assoc. eapply walks_app; [exact Hw|]. rewrite Hq. exact Hw2.
Qed.

Lemma node_back p ks : kids_visited ks -> tree_visited (Node p ks).
Proof.
  intros HK st (_ & Hp & Hr & Hs) Hh Hnd Hni Hc ev Herr Ha. cbn [height ids page_of records cost length] in *. rewrite Nat.sub_succ, Nat.sub_0_r in *.
  apply NoDup_cons in Hnd as [Hn Hnd]. destruct (node_kind is_index) as (Hleaf & _ & Hkind). assert (1 <= kids_cost ks)%nat by (destruct ks; cbn; lia).
  destruct (HK p [] None st) with (ev := ev) as (n & q & ev1 & Hw & Hn1 & Herr1 & Ha1 & Hq); [done|done|done|lia|done| |done| |done|done|].
  { intros x Hx. apply not_elem_of_cons. split; [by intros ->|]. apply Hni. by right. }
  { intros d Hd. by apply not_elem_of_nil in Hd. }
  cbn [app] in *. unfold left_back in Hq. cbn [up_from fr fr_state cell_idx] in Hq. destruct (Z.leb_spec 0 (exit_index ks [])) as [He|He].
  - destruct (page_start (node_type is_index) p (dividers ks) (exit_index ks []) (Some (lenZ (dividers ks))) st true ev1 Hp Hc) as (n2 & q2 & Hn2 & Hw2 & Hq2).
    { intros c ev0. destruct (has_room _ _ _ _ Hp) as (_ & _ & Hroom). pose proof (lenZ_nonneg (dividers ks)).
      rewrite (iteration_back (node_type is_index) p (dividers ks)); [|done|right; destruct ks; cbn [exit_index dividers] in *; [unfold lenZ; cbn; lia|unfold lenZ in *; cbn [length] in *; destruct is_index; lia]].
      cbn zeta. rewrite andb_false_r. cbn [andb]. destruct ks as [t|t d ks]; cbn [exit_index dividers] in *; [done|].
      destruct is_index; [unfold lenZ in He; cbn in He; lia|]. rewrite (proj2 (Z.leb_gt _ (lenZ []))) by (unfold lenZ; cbn; lia). done. }
    exists (n + n2)%nat, q2, ev1. split_and!; [|lia|done|lia|done]. rewrite <- (app_nil_r (rev _)). eapply walks_app; [exact Hw|]. rewrite Hq. exact Hw2.
  - exists n, q, ev1. split_and!; [done|lia|done|lia|done].
Qed.

Lemma trees_back : (forall t, tree_visited t) /\ (forall ks, kids_visited ks).
Proof.
  apply tree_kids_ind.
  - intros p cells st [_ Hp] _ _ _ Hc. apply (leaf_back p st Hc cells [] i32_max); [by rewrite app_nil_r|by left].
  - intros p ks IH. by apply node_back.
  - apply last_back.
  - intros t HT c ks HK. by apply more_back.
Qed.
End back.

(** ** The rightmost leaf *)

Fixpoint last_leaf (t : tree) : PageInner * list bytes := match t with Leaf p cells => (p, cells) | Node _ ks => last_leaf_kids ks end
with last_leaf_kids (ks : kids) : PageInner * list bytes := match ks with Last t => last_leaf t | More _ _ ks => last_leaf_kids ks end.

(** The frames between the rightmost leaf of a tree above [st] and [st], and their number. *)
Fixpoint below_leaf (t : tree) (st : list frame) : list frame :=
  match t with Leaf _ _ => st | Node p ks => below_leaf_kids ks (fr p (lenZ (dividers ks) + 1) (Some (lenZ (dividers ks))) :: st) end
with below_leaf_kids (ks : kids) (st : list frame) : list frame := match ks with Last t => below_leaf t st | More _ _ ks => below_leaf_kids ks st end.
Fixpoint right_depth (t : tree) : nat := match t with Leaf _ _ => 0 | Node _ ks => S (right_depth_kids ks) end
with right_depth_kids (ks : kids) : nat := match ks with Last t => right_depth t | More _ _ ks => right_depth_kids ks end.

Lemma rightmost_eq ks : last_leaf_kids ks = last_leaf (rightmost ks) /\ (forall st, below_leaf_kids ks st = below_leaf (rightmost ks) st) /\
  right_depth_kids ks = right_depth (rightmost ks).
Proof. induction ks as [t|t c ks IH]; [done|exact IH]. Qed.

Lemma rightmost_stored usable is_index pages ks : stored_kids usable is_index pages ks -> stored usable is_index pages (rightmost ks).
Proof. induction ks as [t|t c ks IH]; [done|]. intros (_ & _ & Hs). by apply IH. Qed.

Lemma rightmost_ids ks : (height (rightmost ks) <= kids_height ks)%nat /\ exists l, kids_ids ks = l ++ ids (rightmost ks).
Proof.
  induction ks as [t|t c ks [Hh (l & El)]]; cbn; [split; [done|by exists []]|]. split; [lia|]. exists (ids t ++ l). by rewrite El, app_assoc.
Qed.

Fixpoint after_reads (n : nat) (ev : list read_event) : list read_event := match n with O => ev | S n => after_reads n (after_read ev) end.

Lemma after_reads_ok n : forall ev, Forall no_read_error ev -> (n <= answers ev)%nat ->
  (length (after_reads n ev) <= length ev)%nat /\ Forall no_read_error (after_reads n ev) /\ answers ev = (n + answers (after_reads n ev))%nat.
Proof.
  induction n as [|n IH]; intros ev Herr Ha; [done|]. destruct (after_read_ok ev Herr ltac:(lia)) as (Hl & Herr1 & Ha1).
  destruct (IH (after_read ev) Herr1 ltac:(lia)) as (? & ? & ?). cbn [after_reads]. split_and!; [lia|done|lia].
Qed.

Section spine.
Context (usable : Z) (is_index : bool) (pages : gmap Z PageInner).
(** Iterations that go to the rightmost child of a page that is new on the stack. *)
Context (step : cursor_state -> Result (outcome cursor_state moved)) (down : BTreeCursor -> PageInner -> Result BTreeCursor) (start : Z).
Context (G : BTreeCursor -> Prop).
Context (Hdown : forall c st page st', push_at st page start = Ok st' -> down (place c (st, false)) page = Ok (place c (st', false))).
Context (Hnode : forall c p cells st ev, G c -> page_has usable (node_type is_index) p cells ->
  step (place c (fr p start None :: st, false), ev) =
    read_and_descend pages down (place c (fr p (lenZ cells + 1) None :: st, false)) (place c (fr p start None :: st, false)) (right_child p) ev).

Lemma to_last_leaf h : forall t st ev c m, (height t <= h)%nat -> G c ->
  stored usable is_index pages t -> (length st + height t <= 20)%nat -> NoDup (ids t) -> (forall x, x ∈ ids t -> x ∉ path st) ->
  Forall no_read_error ev -> (right_depth t <= answers ev)%nat ->
  run step (length ev - length (after_reads (right_depth t) ev) + m) (place c (fr (page_of t) start None :: st, false), ev) =
    run step m (place c (fr (fst (last_leaf t)) start None :: below_leaf t st, false), after_reads (right_depth t) ev).
Proof.
  induction h as [|h IH]; intros t st ev c m Hth HG Hs Hh Hnd Hni Herr Ha; [pose proof (height_pos t); lia|].
  destruct t as [p cells|p ks]; cbn [page_of last_leaf below_leaf right_depth height ids] in *; [by rewrite Nat.sub_diag|].
  destruct Hs as (_ & Hp & Hr & Hsk). destruct (rightmost_eq ks) as (El & Eb & Ed). rewrite El, Eb, Ed in *. destruct (rightmost_ids ks) as (Hhk & l & Eids).
  destruct (root_id (rightmost ks)) as (l0 & El0). pose proof (rightmost_stored _ _ _ _ Hsk) as Hst. apply NoDup_cons in Hnd as [Hn Hnd].
  rewrite Eids in Hnd. apply NoDup_app in Hnd as (_ & _ & Hnd). cbn [after_reads]. destruct (after_read_ok ev Herr ltac:(lia)) as (Hl1 & Herr1 & Ha1).
  destruct (after_reads_ok (right_depth (rightmost ks)) (after_read ev) Herr1 ltac:(lia)) as (Hl2 & _ & _).
  assert (forall x, x ∈ ids (rightmost ks) -> x ∉ pg_id p :: path st) as Hfresh.
  { intros x Hx. assert (x ∈ kids_ids ks) by (rewrite Eids; apply elem_of_app; by right). apply not_elem_of_cons. split; [by intros ->|]. apply Hni. by right. }
  assert (push_at (fr p (lenZ (dividers ks) + 1) None :: st) (page_of (rightmost ks)) start =
    Ok (fr (page_of (rightmost ks)) start None :: fr p (lenZ (dividers ks) + 1) (Some (lenZ (dividers ks))) :: st)) as Hpush.
  { apply (push_ok usable (node_type is_index)); [done|apply Hfresh; rewrite El0; left|pose proof (height_pos (rightmost ks)); lia]. }
  set (st' := fr p (lenZ (dividers ks) + 1) (Some (lenZ (dividers ks))) :: st) in *.
  rewrite <- (IH (rightmost ks) st' (after_read ev) c m); [|lia|done|done|cbn; lia|done|done|done|lia].
  rewrite <- (reads_page step pages down c (fr p (lenZ (dividers ks) + 1) None :: st, false) (pg_id (page_of (rightmost ks))) (page_of (rightmost ks)) _
    (stored_page _ _ _ _ Hst) (Hdown _ _ _ _ Hpush) ev (place c (fr p start None :: st, false))); [f_equal; lia| |done|lia].
  intros ev0. rewrite <- Hr. by apply Hnode.
Qed.
End spine.

Lemma last_leaf_has usable is_index pages :
  (forall t, stored usable is_index pages t -> page_has usable (leaf_type is_index) (fst (last_leaf t)) (snd (last_leaf t))) /\
  (forall ks, stored_kids usable is_index pages ks -> page_has usable (leaf_type is_index) (fst (last_leaf_kids ks)) (snd (last_leaf_kids ks))).
Proof.
  apply tree_kids_ind; cbn [last_leaf last_leaf_kids stored_kids].
  - by intros p cells [_ Hp].
  - intros p ks IH (_ & _ & _ & Hs). by apply IH.
  - done.
  - intros t _ c ks IH (_ & _ & Hs). by apply IH.
Qed.

(** The stack of a cursor on the last record. *)
Definition on_last (t : tree) : list frame := fr (fst (last_leaf t)) (lenZ (snd (last_leaf t)) - 1) None :: below_leaf t [].

Section last.
Context (usable : Z) (is_index : bool) (pages : gmap Z PageInner) (t : tree).
Context (Hs : stored usable is_index pages t) (Hh : (height t <= 20)%nat) (Hnd : NoDup (ids t)).
#[local] Abbreviation leaf_cells := (snd (last_leaf t)).

Lemma leaf_page : page_has usable (leaf_type is_index) (fst (last_leaf t)) leaf_cells.
Proof. by apply (proj1 (last_leaf_has usable is_index pages)). Qed.

(** The first record of a backwards walk from the root. *)
Lemma prev_first ev : Forall no_read_error ev -> (right_depth t <= answers ev)%nat -> leaf_cells <> [] -> exists k,
  forall c, run (prev_step pages) k (place c ([fr (page_of t) i32_max None], false), ev) = Ok (true, place c (on_last t, false), after_reads (right_depth t) ev).
Proof.
  intros Herr Ha Hne. exists (length ev - length (after_reads (right_depth t) ev) + 1)%nat. intros c. destruct (node_kind is_index) as (Hnl & Hleaf & _).
  rewrite (to_last_leaf usable is_index pages (prev_step pages) descend_backwards i32_max (fun _ => True)) with (h := 20%nat); try done.
  - pose proof leaf_page as Hp. rewrite run_S, (iteration_back _ _ _ _ _ _ _ _ _ _ _ Hp) by (by left). cbn zeta. rewrite !(moved_ok _ _ _ _ _ _ _ _ _ _ _ Hp), Hleaf. rewrite andb_false_r.
    destruct (has_room _ _ _ _ Hp) as (_ & _ & Hroom). rewrite (proj2 (Z.leb_le _ i32_max)) by (unfold i32_max; lia).
    rewrite (proj2 (Z.ltb_ge _ 0)) by (destruct leaf_cells; [done|unfold lenZ; cbn; lia]). done.
  - intros c0 st page st' Hpush. by apply (descend_back_place c0 (st, false)).
  - intros c0 p cells st ev0 _ Hp. rewrite (iteration_back usable pages (node_type is_index) p cells) by (done || by left). by rewrite Hnl.
  - intros x _. apply not_elem_of_nil.
Qed.

(** [move_to_rightmost] from the root. *)
Lemma rightmost_reached ev c r : Forall no_read_error ev -> (right_depth t <= answers ev)%nat -> move_to_right_state c = (MoveProcessPage, r) ->
  run (move_to_rightmost pages (pg_id (page_of t))) (S (length ev)) (place c ([fr (page_of t) (-1) None], false), ev) =
    Ok (negb (is_nil leaf_cells), place (set_move_to_right_state c (MoveStart, Some (pg_id (fst (last_leaf t)))))
      (if is_nil leaf_cells then fr (fst (last_leaf t)) (-1) None :: below_leaf t [] else on_last t, false), after_reads (right_depth t) ev).
Proof.
  intros Herr Ha Hm. destruct (node_kind is_index) as (Hnl & Hleaf & _). destruct (after_reads_ok _ ev Herr Ha) as (Hl & _).
  apply (run_mono _ (length ev - length (after_reads (right_depth t) ev) + 1)); [|lia].
  rewrite (to_last_leaf usable is_index pages (move_to_rightmost pages (pg_id (page_of t))) (fun c page => s ← push_at (stack c) page (-1); Ok (set_stack c s)) (-1)
    (fun c => move_to_right_state c = (MoveProcessPage, r))) with (h := 20%nat); try done.
  - pose proof leaf_page as Hp. rewrite run_S. cbn [move_to_rightmost]. change (move_to_right_state (place c ?p)) with (move_to_right_state c).
    rewrite Hm. cbn [fst]. unfold rightmost_page. cbn [place stack fst top_frame head unwrap mbind Result_bind fr fr_page]. set (lp := fst (last_leaf t)) in *.
    change (header_offset (pin lp)) with (header_offset lp). change (as_ptr (pin lp)) with (as_ptr lp). rewrite (has_leaf _ _ _ _ Hp), (has_count _ _ _ _ Hp), Hleaf.
    cbn [mbind Result_bind]. destruct leaf_cells as [|d ds] eqn:E; [done|]. rewrite (proj2 (Z.ltb_lt 0 _)) by (unfold lenZ; cbn; lia). unfold on_last. by rewrite E.
  - intros c0 st page st' Hpush. cbn [place stack fst]. by rewrite Hpush.
  - intros c0 p cells st ev0 Hm0 Hp. cbn [move_to_rightmost]. change (move_to_right_state (place c0 ?p)) with (move_to_right_state c0). rewrite Hm0. cbn [fst].
    unfold rightmost_page. cbn [place stack fst top_frame head unwrap mbind Result_bind fr fr_page].
    change (header_offset (pin p)) with (header_offset p). change (as_ptr (pin p)) with (as_ptr p).
    rewrite (has_leaf _ _ _ _ Hp), (has_count _ _ _ _ Hp), (has_right _ _ _ _ Hp), Hnl. done.
  - intros x _. apply not_elem_of_nil.
Qed.

#[local] Abbreviation mtr := (move_to_rightmost pages (pg_id (page_of t))).
#[local] Abbreviation from_root c := (place (set_move_to_right_state c (MoveProcessPage, None)) ([fr (page_of t) (-1) None], false)).

Lemma rightmost_step c ev : move_to_right_state c = (MoveStart, None) ->
  mtr (c, ev) =
    ('(at_root, (c, ev)) ← move_to_root_nonblock pages (pg_id (page_of t)) c ev;
     let moving := set_move_to_right_state c (MoveProcessPage, snd (move_to_right_state c)) in
     match at_root with None => Ok (Wait (c, ev)) | Some true => Ok (Wait (moving, ev)) | Some false => Ok (Continue (moving, ev)) end).
Proof. intros Hm. unfold move_to_rightmost, on_rightmost_page. by rewrite Hm. Qed.

Lemma rightmost_reads m a ev : forall c,
  iteration_pending_descent c = None -> last (stack c) = None -> move_to_right_state c = (MoveStart, None) ->
  Forall no_read_error ev -> (1 <= answers ev)%nat ->
  run mtr m (from_root c, after_read ev) = Ok a -> run mtr (m + length ev) (c, ev) = Ok a.
Proof.
  induction ev as [|e ev IH]; intros c Hp Hl Hm Herr Ha Hrun; [cbn in Ha; lia|]. apply Forall_cons_1 in Herr as [He Herr]. cbn [length after_read] in *.
  rewrite Nat.add_succ_r, run_S, rightmost_step by done. unfold move_to_root_nonblock. change (stack (set_going_upwards c false)) with (stack c). rewrite Hl.
  pose proof (read_root_ok pages _ (page_of t) (stored_page _ _ _ _ Hs) (set_going_upwards c false) e ev) as Hread. destruct (answered e) eqn:E.
  - rewrite Hread. cbn [mbind Result_bind]. apply (run_mono _ _ (m + length ev)) in Hrun; [|lia].
    assert (from_root c = set_move_to_right_state (set_stack (set_going_upwards c false) [fr (page_of t) (-1) None]) (MoveProcessPage, snd (move_to_right_state c))) as Hpl
      by (destruct c; cbn in *; by subst). rewrite Hpl in Hrun. by destruct e.
  - rewrite (Hread He). cbn [mbind Result_bind]. apply IH; [done|done|done|done|by destruct e|done].
Qed.

(** The root page is read, or still on the stack. *)
Lemma rightmost_starts ev c : at_rest c (page_of t) -> move_to_right_state c = (MoveStart, None) -> Forall no_read_error ev -> (1 <= answers ev)%nat ->
  exists ev', (ev' = ev \/ ev' = after_read ev) /\
    forall m a, run mtr m (from_root c, ev') = Ok a -> run mtr (S (m + length ev)) (c, ev) = Ok a.
Proof.
  intros [_ _ _ Hp Hroot] Hm Herr Ha. destruct (last (stack c)) as [f|] eqn:El.
  - exists ev. split; [by left|]. intros m a Hrun. apply (run_mono _ (S m)); [|lia]. rewrite run_S, rightmost_step by done. unfold move_to_root_nonblock.
    change (stack (set_going_upwards c false)) with (stack c). rewrite El, (Hroot f eq_refl).
    change (pg_id (pin (page_of t))) with (pg_id (page_of t)). change (is_loaded (pin (page_of t))) with (is_loaded (page_of t)).
    rewrite Z.eqb_refl, (stored_loaded _ _ _ _ Hs). cbn [andb mbind Result_bind]. rewrite <- Hrun. f_equal. f_equal. destruct c. cbn in *. by subst.
  - exists (after_read ev). split; [by right|]. intros m a Hrun. apply (run_mono _ (m + length ev)); [|lia]. by apply rightmost_reads.
Qed.

(** ** [last] *)

Definition settled (c c' : BTreeCursor) : Prop := valid_state c' = valid_state c /\ skip_advance c' = skip_advance c.

Lemma read_root_settled c ev b c' ev' : read_root pages (pg_id (page_of t)) c ev = Ok (b, (c', ev')) -> settled c c'.
Proof. intros H. unfold read_root in H. destruct ev as [|[] ev]; [by simplify_eq|by simplify_eq|done|..]; steps_of H; by simplify_eq. Qed.

Lemma root_settled c ev b c' ev' : move_to_root_nonblock pages (pg_id (page_of t)) c ev = Ok (b, (c', ev')) -> settled c c'.
Proof.
  intros H. unfold move_to_root_nonblock in H. destruct (last _); [destruct (_ && _); [by simplify_eq|]|]; by apply read_root_settled in H.
Qed.

Lemma rightmost_settled c ev o : mtr (c, ev) = Ok o ->
  match o with Finish (_, c', _) | Wait (c', _) | Continue (c', _) => settled c c' end.
Proof.
  intros Ho. unfold move_to_rightmost in Ho. destruct (fst (move_to_right_state c)).
  - apply bind_Ok in Ho as (there & _ & Ho). destruct there; [by steps_of Ho|]. apply bind_Ok in Ho as ([b [c1 ev1]] & H1 & Ho).
    apply root_settled in H1. destruct b as [[]|]; by injection Ho as <-.
  - unfold rightmost_page in Ho. apply bind_Ok in Ho as (f & _ & Ho). apply bind_Ok in Ho as (is_leaf & _ & Ho). apply bind_Ok in Ho as (count & _ & Ho).
    destruct is_leaf; [by steps_of Ho|]. apply bind_Ok in Ho as (r & _ & Ho). apply bind_Ok in Ho as (r1 & _ & Ho). apply bind_Ok in Ho as (st & _ & Ho).
    unfold read_and_descend in Ho. destruct ev as [|[] ev]; [by injection Ho as <-|by injection Ho as <-|done|..]; by steps_of Ho.
Qed.

Lemma call_settled fuel : forall c ev r, call mtr fuel (c, ev) = Ok r -> match r with inl (_, c', _) | inr (c', _) => settled c c' end.
Proof.
  induction fuel as [|fuel IH]; intros c ev r Hr; [done|]. cbn [call] in Hr. apply bind_Ok in Hr as (o & Ho & Hr). pose proof (rightmost_settled c ev o Ho) as Hk.
  destruct o as [[[b c1] ev1]|[c1 ev1]|[c1 ev1]]; [by injection Hr as <-|by injection Hr as <-|]. destruct Hk as [Hv Hk].
  pose proof (IH c1 ev1 r Hr) as Hr'. destruct r as [[[b c2] ev2]|[c2 ev2]]; destruct Hr'; split; congruence.
Qed.

Lemma last_calls fuel : forall n c ev b c' ev', valid_state c = Valid -> skip_advance c = false -> calls mtr n fuel (c, ev) = Ok (b, c', ev') ->
  until_done (last_record pages (pg_id (page_of t)) fuel) n (c, ev) = Ok (set_has_record c' b, ev').
Proof.
  induction n as [|n IH]; intros c ev b c' ev' Hv Hk Hc; [done|]. cbn [calls until_done last_record] in *. rewrite Hv.
  assert (clear_saved_seek c = c) as -> by (destruct c; cbn in *; by subst). apply bind_Ok in Hc as (r & Hr & Hc). pose proof (call_settled fuel c ev r Hr) as Hs'.
  rewrite Hr. cbn [mbind Result_bind]. destruct r as [[[b1 c1] ev1]|[c1 ev1]]; [by simplify_eq|]. destruct Hs'. apply IH; [congruence..|done].
Qed.
End last.

(** ** [prev] *)

Section calls.
Context (pages : gmap Z PageInner).

Lemma retreat_nonempty st st' : retreat st = Ok st' -> st' <> [].
Proof. intros H. unfold retreat in H. steps_of H. by eapply set_cell_index_nonempty. Qed.

Lemma kept_by_trans c c1 c2 : kept_by c c1 -> kept_by c1 c2 -> kept_by c c2.
Proof. intros [] []. split; [congruence|done]. Qed.

Lemma kept_by_stack c st : st <> [] -> kept_by c (set_stack c st).
Proof. by split. Qed.

Lemma climb_keeps fuel : forall c b c', stack c <> [] -> climb fuel c = Ok (b, c') -> kept_by c c'.
Proof.
  induction fuel as [|fuel IH]; intros c b c' Hn H; [done|]. cbn [climb] in H. apply bind_Ok in H as (f & _ & H).
  destruct (0 <=? _); [by injection H as <- <-|]. destruct (0 <? _); [|by injection H as <- <-]. apply bind_Ok in H as (c1 & H1 & H). apply pop_keeps in H1 as H1'.
  apply bind_Ok in H as (parent & _ & H). apply bind_Ok in H as (came & _ & H). destruct came.
  - apply bind_Ok in H as (st & Hst & H). apply retreat_nonempty in Hst. eapply kept_by_trans; [exact H1'|]. by eapply (kept_by_trans _ (set_stack c1 st)), IH.
  - eapply kept_by_trans; [exact H1'|]. eapply IH; [by destruct H1'|done].
Qed.

Lemma moved_keeps c0 c t is_leaf ev o : kept_by c0 c -> prev_moved pages c t is_leaf ev = Ok o -> outcome_keeps c0 o.
Proof.
  intros Hk H. unfold prev_moved in H. apply bind_Ok in H as (f & _ & H). destruct (_ <? 0).
  - apply bind_Ok in H as ([b c1] & H1 & H). apply climb_keeps in H1; [|by destruct Hk]. destruct b; injection H as <-; by eapply kept_by_trans.
  - destruct is_leaf; [by injection H as <-|]. destruct (_ && _); [by injection H as <-; destruct Hk|]. apply bind_Ok in H as (child & _ & H).
    apply bind_Ok in H as (st & Hst & H). assert (kept_by c0 (set_stack c st)) as Hks.
    { destruct Hk as [Hk Hn]. split; [done|]. destruct (bool_decide _); [by eapply retreat_nonempty|]. by injection Hst as <-. }
    eapply read_and_descend_keeps; [apply descend_backwards_keeps|exact Hks| |exact H]. by destruct Hks.
Qed.

Lemma prev_step_keeps c ev o : stack c <> [] -> prev_step pages (c, ev) = Ok o -> outcome_keeps c o.
Proof.
  intros Hn Ho. cbn [prev_step] in Ho. assert (kept_by c c) as Hk by done.
  assert (prev_iteration pages c ev = Ok o -> outcome_keeps c o) as Hit; [clear Ho; intros H|].
  - unfold prev_iteration in H. apply bind_Ok in H as (f & _ & H). apply bind_Ok in H as (t & _ & H). apply bind_Ok in H as (l & _ & H).
    apply bind_Ok in H as (count & _ & H). apply bind_Ok in H as (right & _ & H). destruct right as [r|].
    + apply bind_Ok in H as (st & Hst & H). apply set_cell_index_nonempty in Hst. eapply read_and_descend_keeps; [apply descend_backwards_keeps|by apply kept_by_stack|done|exact H].
    + destruct (count <=? _); [apply bind_Ok in H as (st & Hst & H); apply set_cell_index_nonempty in Hst; eapply moved_keeps; [|exact H]; by apply kept_by_stack|].
      destruct (0 <=? _); [|by eapply moved_keeps]. destruct (_ && _); [by injection H as <-|]. destruct (bool_decide _); [by eapply moved_keeps|].
      apply bind_Ok in H as (st & Hst & H). apply retreat_nonempty in Hst. eapply moved_keeps; [|exact H]. by apply kept_by_stack.
  - destruct (iteration_pending_descent c) as [[target|target]|]; [by apply Hit| |by apply Hit]. eapply read_and_descend_keeps; [apply descend_backwards_keeps| | |exact Ho]; done.
Qed.

Lemma prev_moves fuel : moves_by (prev_step pages) (prev pages fuel) fuel.
Proof.
  intros k c st ev b p' ev' (H1 & H2 & H3 & H4 & H5) Hi Hrun Hf. set (c1 := set_advance_state c AdvanceAdvance).
  assert (stack (place c1 (st, false)) <> []) as Hne by (cbn; by destruct st).
  assert (forall c ev, kept_by (place c1 (st, false)) c -> prev pages fuel (c, ev) =
    (r ← call (prev_step pages) fuel (c, ev); match r with inl (b, c, ev) => Ok (inl (set_advance_state (set_has_record c b) AdvanceStart, ev)) | inr s => Ok (inr s) end)) as Hprev.
  { intros c2 ev2 [Hk2 _]. injection Hk2 as E1 E2 E3 E4 E5 E6. unfold prev, get_prev_record. rewrite E4. cbn [c1 set_advance_state place advance_state].
    destruct (call _ _ _) as [[[[b1 c3] ev3]|[c3 ev3]]| |]; done. }
  pose proof (calls_done (prev_step pages) prev_step_keeps (prev pages fuel) (fun c => set_advance_state c AdvanceStart) fuel (place c1 (st, false))
    Hprev fuel (place c1 (st, false)) ev b (place c1 p') ev') as HC.
  assert (until_done (prev pages fuel) fuel (place c (st, false), ev) = until_done (prev pages fuel) fuel (place c1 (st, false), ev)) as ->.
  { unfold c1. destruct c. cbn in H1, H2, H3, H4, H5. subst. by destruct fuel. }
  rewrite HC; [|done|by apply (run_calls _ k); [apply Hrun|lia..]]. f_equal. f_equal. destruct c. cbn in *. by subst.
Qed.
End calls.

(** ** Backwards scans *)

(** A full scan from the end: [last], then [prev] until there is no record. *)
Definition scan_back (usable : Z) (pages : gmap Z PageInner) (root_page : Z) (n fuel : nat) (s : cursor_state) : Result (list bytes) :=
  s ← until_done (last_record pages root_page fuel) fuel s; scan_with usable (prev pages fuel) n fuel s.

Lemma right_depth_ids : (forall t, (right_depth t < length (ids t))%nat) /\ (forall ks, (right_depth_kids ks < length (kids_ids ks))%nat).
Proof. apply tree_kids_ind; cbn; intros; rewrite ?length_app; lia. Qed.

Lemma run_same {A} (f : cursor_state -> Result (outcome cursor_state A)) n m s a b : run f n s = Ok a -> run f m s = Ok b -> a = b.
Proof.
  intros Ha Hb. apply (run_mono _ _ (n + m)) in Ha; [|lia]. apply (run_mono _ _ (n + m)) in Hb; [|lia]. congruence.
Qed.

(** The cursor after [last]. *)
Lemma last_ok usable is_index pages t c ev fuel :
  stored usable is_index pages t -> (height t <= 20)%nat -> NoDup (ids t) -> at_rest c (page_of t) -> move_to_right_state c = (MoveStart, None) ->
  Forall no_read_error ev -> (length (ids t) <= answers ev)%nat -> (2 * length ev + 3 < fuel)%nat ->
  exists ev' c', (Forall no_read_error ev' /\ (length (ids t) - 1 <= answers ev')%nat /\ (length ev' <= length ev)%nat) /\
    idle (negb (is_nil (snd (last_leaf t)))) c' /\
    until_done (last_record pages (pg_id (page_of t)) fuel) fuel (c, ev) =
      Ok (place c' (if is_nil (snd (last_leaf t)) then fr (fst (last_leaf t)) (-1) None :: below_leaf t [] else on_last t, false), after_reads (right_depth t) ev').
Proof.
  intros Hs Hh Hnd Hc Hm Herr Ha Hf. pose proof (proj1 right_depth_ids t) as Hrd. set (c0 := clear_saved_seek c).
  assert (at_rest c0 (page_of t)) as Hc0 by (by destruct Hc). destruct (rightmost_starts usable is_index pages t Hs Hh ev c0 Hc0 Hm Herr ltac:(lia)) as (ev' & Hev & Hstart).
  assert (Forall no_read_error ev' /\ (length (ids t) - 1 <= answers ev')%nat /\ (length ev' <= length ev)%nat) as Hev'.
  { destruct (after_read_ok ev Herr ltac:(lia)) as (? & ? & ?). destruct Hev as [->| ->]; split_and!; (done || lia). }
  pose proof Hev' as (Herr' & Ha' & Hl').
  pose proof (rightmost_reached usable is_index pages t Hs Hh Hnd ev' (set_move_to_right_state c0 (MoveProcessPage, None)) None Herr' ltac:(lia) eq_refl) as Hrun.
  apply Hstart in Hrun. apply (run_calls _ _ _ _ fuel fuel) in Hrun; [|lia..].
  apply (last_calls pages t fuel) in Hrun; [|done|done]. eexists ev', (set_has_record (set_move_to_right_state c0 _) _). split_and!; [apply Hev'..| |].
  - destruct Hc as [_ Had Hre _ _]. instantiate (1 := negb (is_nil (snd (last_leaf t)))). by split_and!.
  - etransitivity; [|exact Hrun]. destruct Hc as [Hv _ _ _ _]. destruct fuel; [done|]. cbn [until_done last_record]. by rewrite Hv.
Qed.

(** C9: a backwards scan of a table or an index ([last], then [prev] until there is no
    record) returns exactly the records of the tree from the last to the first, those
    of the interior pages of an index included, under the same conditions as the
    forward scan: up to 20 levels, distinct pages, any sequence of answers of the
    pager that in the end gives the pages.  The rightmost leaf may only be empty when
    the tree has no records; the cursor does not know the rightmost page yet. *)
Theorem scan_back_in_order usable is_index pages t c ev n fuel :
  stored usable is_index pages t -> (height t <= 20)%nat -> NoDup (ids t) -> at_rest c (page_of t) -> move_to_right_state c = (MoveStart, None) ->
  (snd (last_leaf t) = [] -> records is_index t = []) ->
  Forall no_read_error ev -> (length (ids t) <= answers ev)%nat ->
  (length (records is_index t) < n)%nat -> (cost t + 2 * length ev + 3 < fuel)%nat ->
  scan_back usable pages (pg_id (page_of t)) n fuel (c, ev) = Ok (rev (records is_index t)).
Proof.
  intros Hs Hh Hnd Hc Hm Hempty Herr Ha Hn Hf. pose proof (proj1 right_depth_ids t) as Hrd.
  destruct (last_ok usable is_index pages t c ev fuel Hs Hh Hnd Hc Hm Herr Ha ltac:(lia)) as (ev' & c' & (Herr' & Ha' & Hl') & Hk & Hu).
  unfold scan_back. rewrite Hu. cbn [mbind Result_bind]. destruct (snd (last_leaf t)) as [|d ds] eqn:E; cbn [is_nil negb] in Hk |- *.
  { rewrite Hempty by done. destruct n; [lia|]. cbn [scan_with fst place has_record]. by destruct Hk as (-> & _). }
  destruct (prev_first usable is_index pages t Hs Hh Hnd ev' Herr' ltac:(lia)) as (k0 & Hfirst); [by rewrite E|].
  destruct (proj1 (trees_back usable is_index pages) t [] Hs) with (ev := ev') as (m & q & ev2 & Hw & Hmn & _ & _ & q' & Hq);
    [done|done|intros x _; apply not_elem_of_nil|done|done|done|]. rewrite <- length_rev in Hn. destruct (rev (records is_index t)) as [|r l].
  - pose proof (run_same _ _ _ _ _ _ (walks_none _ _ _ _ _ _ _ _ Hw Hq c') (Hfirst c')). congruence.
  - destruct (walks_first usable _ m _ ev' r l q ev2 Hw) as (k & m' & st & ev1 & Hrun & Hi & Hr & Hw' & Hkm).
    pose proof (run_same _ _ _ _ _ _ (Hrun c') (Hfirst c')) as [= -> ->].
    apply (scan_with_ok usable _ _ fuel c' q q' ev2 (prev_moves pages fuel) Hk Hq l n m' (on_last t) _ r Hi Hr Hw'); [lia|cbn in Hn; lia].
Qed.

(** ** A table with two leaves *)

Definition demo_table : tree :=
  Node (cached TableInterior 4 7 [PInsert 0 [0; 0; 0; 5; 2] false])
    (More (Leaf (cached TableLeaf 5 0 [PInsert 0 [2; 1; 8; 8] false; PInsert 1 [2; 2; 8; 8] false]) [[2; 1; 8; 8]; [2; 2; 8; 8]]) [0; 0; 0; 5; 2]
      (Last (Leaf (cached TableLeaf 7 0 [PInsert 0 [2; 9; 8; 8] false]) [[2; 9; 8; 8]]))).
Definition demo_table_pages : gmap Z PageInner :=
  {[4 := page_of demo_table; 5 := cached TableLeaf 5 0 [PInsert 0 [2; 1; 8; 8] false; PInsert 1 [2; 2; 8; 8] false];
    7 := cached TableLeaf 7 0 [PInsert 0 [2; 9; 8; 8] false]]}.

Lemma demo_table_stored : stored 512 false demo_table_pages demo_table.
Proof.
  cbn [stored stored_kids demo_table page_of dividers rightmost].
  split_and!; try (vm_compute; reflexivity); (apply cached_has; [vm_compute; reflexivity|vm_compute; reflexivity|lia|repeat constructor; (unfold lenZ; cbn; lia)|vm_compute; reflexivity..]).
Qed.

Lemma scan_back_in_order_witness :
  scan_back 512 demo_table_pages 4 4 40 (new_cursor, [ReadWait; ReadSpill; ReadReady; ReadSpill; ReadReady]) = Ok [[2; 9; 8; 8]; [2; 2; 8; 8]; [2; 1; 8; 8]].
Proof.
  apply (scan_back_in_order 512 false demo_table_pages demo_table new_cursor [ReadWait; ReadSpill; ReadReady; ReadSpill; ReadReady] 4 40).
  - exact demo_table_stored.
  - cbn. lia.
  - apply (bool_decide_unpack _). vm_compute. reflexivity.
  - by constructor.
  - reflexivity.
  - cbn. discriminate.
  - repeat constructor.
  - cbn. lia.
  - cbn. lia.
  - cbn. lia.
Defined.
